(* ===== verification/_CoqProject ===== *)
-Q . S2P
Prelude.v
Ring.v
Ports.v
Dll.v
Sync.v
Ipc.v
Scheduler.v
SchedulerOps.v
SchedulerThms.v
Task.v
Thread.v
ThreadInv.v
ThreadThms.v
Network.v
Ip.v
Tcp.v
TcpInv.v
TcpThms.v
TcpStream.v
Udp.v
Ethernet.v
Icmp.v
Dns.v
DnsThms.v
Dhcp.v
DhcpThms.v
Fat12.v
Fat12Thms.v
Heap.v
HeapInv.v
HeapSteps.v
HeapThms.v
Aslr.v
Vmm.v
VmmInv.v
VmmOps.v
VmmSafe.v
VmmProc.v
VmmThms.v
VfsPath.v
Vfs.v
VfsCache.v
VfsCacheThms.v
Ext2.v
Ext2Thms.v
Iso9660.v
Iso9660Thms.v
Devices.v
DevicesThms.v
Paging.v
PagingInv.v
PagingThms.v
PagingUser.v
PagingBoot.v
Security.v
