(* ===== verification/Prelude.v ===== *)
(** * uintOS: a verification development

    uintOS is a small x86 kernel in C: a scheduler with its task calls and threads,
    synchronisation primitives and message queues, a heap and a virtual memory
    manager, a virtual file system over several disk formats, a network core with
    protocols above it, access control, and the drivers and hardware layers below. This library models the core of it
    that is plain computation on memory and proves what makes that core correct,
    or states exactly where it is not.

    ** The model

    C code becomes functions of an explicit state. A call is a term of the monad
    [M S A = S -> outcome (A * S)] below: it returns ([Ret]), or waits without end
    for a lock ([Spin]), or performs an access C leaves undefined ([Fault]: a
    dangling or NULL pointer, an index outside an array). [wp m Q s] is total
    correctness: the call returns, and [Q] holds of its result and state; neither
    [Spin] nor [Fault] satisfies it. Heap objects live in finite maps from
    addresses; freeing removes the object, so a use after free is a [Fault]. An
    allocation is an argument (the answer of [heap_alloc], [None] for NULL), with
    freshness of the address as a hypothesis. Integers are [Z] with the wrap-around
    of their C type written out ([u16], [u32], [u64], [to_int]). Code that is not
    translated (file-system handlers, device operations, the protocol handlers,
    what other tasks do while the caller is switched out) is an argument of the
    definitions that call it.

    ** The files

    - [Prelude]: machine integers, pointers, arrays, outcomes, the monad, [wp] and
      its tactics.
    - [Dll]: doubly-linked lists through a pair of members, as the heap's free lists
      and the lists of threads are.
    - [Ring]: the ring buffer that the ready queues of [kernel/scheduler.c] and the
      message queues of [kernel/ipc.c] both are, and its refinement to lists.
    - [Sync] ([kernel/sync.c]): module [Sync] has one definition per function.
      Waiting loops run with fuel, the number of [switch_task()] calls the caller
      may make; theorems say for which fuel they return. Module [MutexConc] is the
      mutex as an interleaving of single memory accesses of any number of tasks.
      Shown: termination of the spinlock, nesting and isolation of the mutex,
      mutual exclusion under every interleaving, conservation of permits, and what
      [condition_signal] really does.
    - [Ipc] ([kernel/ipc.c]): every call, over queues, allocated messages and
      counters. Shown: any sequence of calls refines an abstract machine of bounded
      mailboxes; messages come in the order they were sent, those with
      [IPC_FLAG_PRIORITY] too, with contents intact; a receive that waits gets
      the first message that arrives. [MAX_TASKS] is an argument.
    - [Scheduler], [SchedulerOps], [SchedulerThms] ([kernel/scheduler.c] and the
      context functions of [kernel/task.c]): the state, the operations and the
      invariant; the effect of each operation on it; the properties. Shown: any
      sequence of calls is free of faults and keeps the invariant; the task chosen
      is the first of the list the ready queues stand for; sleepers wake on time;
      the sleeping list stays sorted; load balancing loses no task. Also shown: no
      context is ever switched, blocked and migrated tasks are lost, reaping can
      leave a dangling pointer, priorities above 31 are never preempted. The
      assembly that switches stacks is an event of the trace.
    - [Task] ([kernel/task.c]): the task calls on top of the scheduler, and what
      suspension does to the ready queues.
    - [Thread], [ThreadInv], [ThreadThms] ([kernel/thread.c]): the thread table, the
      ready and blocked lists and the thread calls. Shown: the calls that create,
      schedule, block and unblock keep the lists in order; the scheduler runs the
      first ready thread of the highest priority. Also shown: joining empties the
      ready list, and the main thread starves.
    - [Network] ([network/src/network.c]): packet buffers as windows into heap
      blocks, the device registry, reception and IPv4 text. Shown: append, pull and
      push, allocation and release, registration, reception, the text round trip,
      and the wrap-around of the append check.
    - [Ip] ([network/src/ip.c]): the header checksum, [ip_receive] and [ip_send] on
      packet buffers, protocols, addresses and configuration. Shown: the checksum
      verifies, and packets of [ip_send] are rejected by [ip_receive]. The carry
      loop has fuel 3: two rounds suffice for a 32-bit sum, and the theorem says
      that it has ended.
    - [Ports]: the search for a free port that TCP and UDP share.
    - [Tcp], [TcpInv], [TcpThms], [TcpStream] ([network/src/tcp.c]): the operations;
      the invariant; safety of any sequence of calls, segments and ticks, and the
      state diagram; the byte stream. Shown: what an application reads is a prefix of
      its peer's stream, for the socket that the lookup of [tcp_rx] finds; what is sent
      arrives; segments parse back; which moves of a socket are those of the state
      diagram and which deviate.
    - [Udp] ([network/src/udp.c]): sockets stay disjoint, datagrams reach the one
      socket they are for.
    - [Ethernet] ([network/src/ethernet.c]): frames on the buffers of [Network] and the
      text of hardware addresses. Shown: what is received and sent, exactly; the text
      round trip; no frame reaches IP.
    - [Icmp] ([network/src/icmp.c]): echo requests and replies. Shown: a ping comes back
      with its number and data.
    - [Dns], [DnsThms] ([network/src/dns.c]): queries, responses, the cache. Shown: no
      response makes the resolver access memory outside the packet or the name; a query
      names its host; an answer of the usual layout resolves it. Also shown: a response can hang the
      resolver, and a full cache stays as it is. Parsing a name of a packet of [n] bytes
      has fuel [257 * (n + 1)]: a name of at most 255 characters and an offset below
      [n + 1] are the whole state of the loop, so that a longer run never ends.
    - [Dhcp], [DhcpThms] ([network/src/dhcp.c]): leases. Shown: options are read as they
      are written, the handshake configures the device, and every sequence of calls is
      free of faults. Also shown: leases are never renewed, and short replies are read
      past their end.
    - [Fat12], [Fat12Thms] ([filesystem/fat12.c]): any disk, and the sample disk of
      the source. Shown: on disks with one sector per cluster, reading follows the chain
      of clusters that the FAT defines; listed files exist. Of larger
      clusters the code reads the first sector only. Also shown: deleted files are listed
      too.
    - [Heap], [HeapInv], [HeapSteps], [HeapThms] ([memory/heap.c]): blocks, bins and
      free lists. Shown: allocation and release are exact, blocks never overlap and
      the heap's own check accepts the heap in every history in which the block
      before a released block is in use; otherwise the heap hands out memory twice.
    - [Aslr] ([memory/aslr.c]): the generator and the randomised bases. Shown: the
      seed never becomes 0; offsets are within their bounds.
    - [Vmm], [VmmInv], [VmmOps], [VmmSafe], [VmmProc], [VmmThms] ([memory/vmm.c],
      [memory/vmm_process.c]): physical memory with page directories and tables in
      it, frames, regions, page faults and process address spaces. How the code
      reaches its tables is the class [Mmu]: [through_cr3] is the machine, which goes
      through the tables it is about to change; [direct_map] is what the code takes for
      granted, all memory mapped at 0xC0000000. Shown for the machine: under
      tables that map nothing there the manager faults at the first table. Everything
      else is for [direct_map]: [VmmInv] gives every allocated frame an owner; [VmmOps]
      to [VmmProc] show what each function does to owners, tables and regions, from
      [vmm_init] on; the tables of address spaces stay disjoint in every history, a page
      fault has its exact effect, a new process its layout, the pages of a dead process
      leak, and the default entropy can drop a region.
    - [Paging], [PagingInv], [PagingThms], [PagingUser], [PagingBoot]
      ([memory/paging.c]): memory as words behind the processor's translation, the array
      of frames, the tables built by [paging_init], mappings, copy on write, demand
      paging, address spaces and user memory. [PagingInv] has the
      invariant ([sound]) and what single accesses, allocating and freeing do. Shown in
      sound states: the tables refine a map of pages; copy on write and mapping for
      users are exact. Also shown: [paging_init] does not reserve its own array and the
      third allocation erases the page directory; with the array reserved the state is
      sound; a new address space cannot run; a user region can reach the kernel's half.
    - [VfsPath] ([filesystem/vfs/vfs.c], path functions): normalisation equals a
      fold over components for paths of at most 254 characters, always fits its
      buffer, and inverts the leading slash. The loop's fuel is one more than the
      length of the path, of which each round consumes a character.
    - [Vfs] ([filesystem/vfs/vfs.c], the rest): registry, mounts and the nineteen
      calls for arbitrary file systems below. Shown: every call keeps the invariant
      and its locks balanced; the longest mount point serves a path; mounting and
      unmounting are inverse; seeking is exact. Also shown: a root mount serves no
      file and unmounting can leave handles dangling.
    - [VfsCache], [VfsCacheThms] ([filesystem/vfs/vfs_cache.c]): blocks, hash chains and
      the LRU list, over any devices. Shown: a cache of one block is coherent, that is,
      reads give what was written last, and after a flush the device has it. Also shown:
      with more blocks the chains become cyclic and a search hangs. A walk has fuel for
      one more block than exist; a longer one runs in a cycle.
    - [Ext2], [Ext2Thms] ([filesystem/ext2/ext2.c]): volume, inodes, blocks of files,
      directories, paths and the calls on files. Shown, on any consistent volume: paths
      resolve and files and listings read exactly as the bytes of the disk say; an inode
      that is written is read back and no other changes. Also shown: volumes with blocks of
      more than 1024 bytes overflow a buffer, and long links cannot be read.
    - [Iso9660], [Iso9660Thms] ([filesystem/iso9660/iso9660.c]): sectors, descriptors,
      directories, paths and the calls, with the memory they allocate and free. Shown, on
      any disc whose directories are well-formed: files, listings and the search of paths
      are exact and memory is as it was; which root directory is used. Also shown: a path
      through a file is freed twice, a directory that does not fill its last sector
      overflows its buffer, and boot records are never found.
    - [Devices], [DevicesThms] ([kernel/device_manager.c]): the table, the tree and the
      lists of drivers and classes. Shown: every history of legal calls keeps them intact
      and is free of faults, and every device leads to the root. Also shown: removing the
      root leaves a dangling array, names can collide, and paths below the root have two
      slashes.
    - [Security] ([kernel/security.c]): SIDs, tokens, descriptors and decisions.
      Shown: the access check is exactly its policy, the life of a token, which
      system calls are open to whom, and that a failed allocation opens an object.

    ** Interfaces

    [Sync] works on a [place] in any memory, with the laws [PlaceOk]; [Ipc] and
    [Scheduler] instantiate it with the lock words in their own state, and their
    proofs use the spinlock only through [Sync]'s lemmas. [Ring] is used through
    the lemmas that relate its operations to the list [items], [Dll] through those
    on [fseg]. [Tcp] and [Udp] are proved for every environment [env] that satisfies
    the class [EnvOk] of each (fresh memory, callbacks that keep the invariant), as is
    [Dns]; [VfsCache], [Ext2] and [Iso9660] for every device that satisfies the classes
    [Disk], [Volume] and [Disc]; [Devices] for drivers that satisfy [Handlers].
    [Vmm] runs [Aslr] on its part of the state through [on_aslr] and knows of the
    random bases only what [Aslr.randomize_spec] says; the processor's way to memory is
    its class [Mmu].

    ** Not modelled

    Drivers, the hardware layer, interrupt and exception entry, boot code, the
    console, graphics and shell are register protocols and output. exFAT and the adapters of the VFS, the ELF loader,
    system calls and modules are left for later, in this order; the journal
    ([filesystem/vfs/vfs_journal.c]) keeps transactions in memory and writes none of them; where modelled code calls them they are
    arguments. Preemption in the middle of a call is modelled only for the mutex
    ([MutexConc]) and at the explicit switches of [Sync] and [Ipc]; elsewhere a call
    runs to its end, as it does with its lock held. *)

From Stdlib Require Import ZArith Lia Ascii String.
From stdpp Require Import base tactics option list gmap strings.

Set Default Goal Selector "!".

(** ** Machine integers

    Values of C integer types are integers [Z]; the wrap-around of an unsigned
    type is written out where the source computes with it. *)

Definition u8 (z : Z) : Z := (z mod 2 ^ 8)%Z.
Definition u16 (z : Z) : Z := (z mod 2 ^ 16)%Z.
Definition u32 (z : Z) : Z := (z mod 2 ^ 32)%Z.
Definition u64 (z : Z) : Z := (z mod 2 ^ 64)%Z.

(** Conversion of a 32-bit value to [int] (two's complement). *)
Definition to_int (z : Z) : Z :=
  (let w := u32 z in if w <? 2 ^ 31 then w else w - 2 ^ 32)%Z.

(** C truth value of an integer, and of a flag test [x & mask]. *)
Definition truth (z : Z) : bool := negb (Z.eqb z 0).
Definition has_flag (flags mask : Z) : bool := truth (Z.land flags mask).

(** ** Pointers

    An address names an object of a store (a finite map); a C pointer is an
    address or [NULL]. *)

Abbreviation addr := positive (only parsing).
Abbreviation ptr := (option positive) (only parsing).

(** ** Arrays indexed by a C [int]

    Reading outside the array is [None]; writing outside it is [None] too, so
    that a caller has to say what an out-of-range access means. *)

Definition arr_get {A} (l : list A) (i : Z) : option A :=
  if (i <? 0)%Z then None else l !! Z.to_nat i.

Definition arr_set {A} (l : list A) (i : Z) (x : A) : option (list A) :=
  if (i <? 0)%Z then None
  else if decide (Z.to_nat i < length l) then Some (<[Z.to_nat i := x]> l) else None.

(** ** Bytes

    A list of bytes stored over part of another, and numbers as the processor stores
    them, the lowest byte first. *)

Definition splice (l : list Z) (p : nat) (src : list Z) : list Z :=
  take p l ++ src ++ drop (p + length src) l.

Fixpoint le_bytes (n : nat) (x : Z) : list Z :=
  match n with O => [] | S n' => (x mod 256)%Z :: le_bytes n' (x / 256)%Z end.
Definition le_value (l : list Z) : Z := foldr (fun b v => b + 256 * v)%Z 0%Z l.

(** ** Outcomes

    A call returns ([Ret]), waits for a lock another task holds and never
    returns by itself ([Spin]), or performs an access C leaves undefined:
    a dangling or null pointer, an index outside an array ([Fault]). *)

Inductive outcome (A : Type) : Type :=
| Ret (a : A)
| Spin
| Fault.
Arguments Ret {A} a.
Arguments Spin {A}.
Arguments Fault {A}.

Definition M (S A : Type) : Type := S -> outcome (A * S).

Definition ret {S A} (a : A) : M S A := fun s => Ret (a, s).
Definition bind {S A B} (m : M S A) (k : A -> M S B) : M S B := fun s =>
  match m s with
  | Ret (a, s') => k a s'
  | Spin => Spin
  | Fault => Fault
  end.
Definition get {S} : M S S := fun s => Ret (s, s).
Definition put {S} (s : S) : M S unit := fun _ => Ret (tt, s).
Definition modify {S} (f : S -> S) : M S unit := fun s => Ret (tt, f s).
Definition gets {S A} (f : S -> A) : M S A := fun s => Ret (f s, s).
Definition fault {S A} : M S A := fun _ => Fault.
Definition spin {S A} : M S A := fun _ => Spin.

(** [deref o]: the value an access yields, a fault when there is none. *)
Definition deref {S A} (o : option A) : M S A :=
  match o with Some a => ret a | None => fault end.

Declare Scope kernel_scope.
Delimit Scope kernel_scope with kernel.

Notation "x <- m ;; k" := (bind m (fun x => k))
  (at level 60, m at next level, right associativity) : kernel_scope.
Notation "m ;;; k" := (bind m (fun _ => k))
  (at level 60, right associativity) : kernel_scope.

(** Part of a buffer, a number in it, and [memcpy] into it; an access outside is a [Fault]. *)
Definition bytes_at {S} (buf : list Z) (off n : Z) : M S (list Z) :=
  if ((0 <=? off) && (off + n <=? Z.of_nat (length buf)))%Z then ret (take (Z.to_nat n) (drop (Z.to_nat off) buf)) else fault.

Definition num_at {S} (buf : list Z) (off n : Z) : M S Z := bind (bytes_at buf off n) (fun b => ret (le_value b)).

Definition copy_to {S} (buf : list Z) (off : Z) (src : list Z) : M S (list Z) :=
  if ((0 <=? off) && (off + Z.of_nat (length src) <=? Z.of_nat (length buf)))%Z then ret (splice buf (Z.to_nat off) src) else fault.

(** A [for]/[while] loop over a list of work items, in order. *)
Fixpoint mfor {S A} (l : list A) (body : A -> M S unit) : M S unit :=
  match l with
  | [] => ret tt
  | a :: l' => bind (body a) (fun _ => mfor l' body)
  end.

(** *** Total correctness

    [wp m Q s]: run from [s], the call [m] returns, and [Q] holds of its
    result and the state it leaves. Neither [Spin] nor [Fault] satisfies it. *)
Definition wp {S A} (m : M S A) (Q : A -> S -> Prop) (s : S) : Prop :=
  match m s with
  | Ret (a, s') => Q a s'
  | _ => False
  end.
Arguments wp {S A} _ _ _ : simpl never.

(** The state after a call that returns. *)
Definition after {S A} (m : M S A) (s : S) : S :=
  match m s with Ret (_, s') => s' | _ => s end.

(** ** Reachability *)

Section Reach.
Context {S : Type} (init : S -> Prop) (step : S -> S -> Prop).

Inductive reachable : S -> Prop :=
| reach_init s : init s -> reachable s
| reach_step s s' : reachable s -> step s s' -> reachable s'.

Lemma reachable_inv (P : S -> Prop) :
  (forall s, init s -> P s) ->
  (forall s s', P s -> step s s' -> P s') ->
  forall s, reachable s -> P s.
Proof. intros Hi Hs s. induction 1; eauto. Qed.

End Reach.

(** ** Hint databases and tactics *)

Create HintDb kernel.
Create Rewrite HintDb kernel.

Lemma u8_range z : (0 <= u8 z < 2 ^ 8)%Z.
Proof. apply Z.mod_pos_bound. lia. Qed.
Lemma u16_range z : (0 <= u16 z < 2 ^ 16)%Z.
Proof. apply Z.mod_pos_bound. lia. Qed.
Lemma u32_range z : (0 <= u32 z < 2 ^ 32)%Z.
Proof. apply Z.mod_pos_bound. lia. Qed.
Lemma u64_range z : (0 <= u64 z < 2 ^ 64)%Z.
Proof. apply Z.mod_pos_bound. lia. Qed.
Lemma u32_small z : (0 <= z < 2 ^ 32)%Z -> u32 z = z.
Proof. apply Z.mod_small. Qed.
Lemma u64_small z : (0 <= z < 2 ^ 64)%Z -> u64 z = z.
Proof. apply Z.mod_small. Qed.

Lemma to_int_small z : (0 <= z < 2 ^ 31)%Z -> to_int z = z.
Proof.
  intros H. unfold to_int. rewrite u32_small by lia.
  destruct (Z.ltb_spec z (2 ^ 31)); lia.
Qed.

Lemma truth_true z : truth z = true <-> z <> 0%Z.
Proof. unfold truth. rewrite negb_true_iff. apply Z.eqb_neq. Qed.
Lemma truth_false z : truth z = false <-> z = 0%Z.
Proof. unfold truth. rewrite negb_false_iff. apply Z.eqb_eq. Qed.

(** *** Bytes *)

Lemma splice_length l p src :
  (p + length src <= length l)%nat -> length (splice l p src) = length l.
Proof. intros H. unfold splice. rewrite !length_app, length_take, length_drop. lia. Qed.

Lemma splice_window l o n src :
  (o + n + length src <= length l)%nat ->
  take (n + length src) (drop o (splice l (o + n) src)) = take n (drop o l) ++ src.
Proof.
  intros H. unfold splice. rewrite drop_app_le by (rewrite length_take; lia).
  rewrite <- take_drop_commute. rewrite take_app_ge by (rewrite length_take, length_drop; lia).
  rewrite length_take, length_drop. replace (n + length src - n `min` (length l - o))%nat with (length src) by lia.
  by rewrite take_app_length.
Qed.

Lemma splice_app l p (x y : list Z) : (p + length x + length y <= length l)%nat ->
  splice (splice l p x) (p + length x) y = splice l p (x ++ y).
Proof.
  intros H. unfold splice. rewrite take_app_ge by (rewrite length_take; lia).
  rewrite drop_app_ge by (rewrite length_take; lia). rewrite length_take, Nat.min_l by lia.
  replace (p + length x - p)%nat with (length x) by lia. rewrite take_app_length, <- !app_assoc. f_equal. f_equal. f_equal.
  rewrite drop_app_ge by lia. rewrite drop_drop, length_app. f_equal. lia.
Qed.

Lemma splice_header l o (h : list Z) n : (o + length h + n <= length l)%nat ->
  take (length h + n) (drop o (splice l o h)) = h ++ take n (drop (o + length h) l).
Proof.
  intros H. unfold splice. rewrite drop_app_ge by (rewrite length_take; lia). rewrite length_take, Nat.min_l, Nat.sub_diag, drop_0 by lia.
  rewrite take_app_ge by lia. f_equal. f_equal. lia.
Qed.

Lemma le_bytes_length n x : length (le_bytes n x) = n.
Proof. revert x. induction n as [|n IH]; intros x; [done|]. cbn. by rewrite IH. Qed.

Lemma le_bytes_value n x : (0 <= x < 256 ^ Z.of_nat n)%Z -> le_value (le_bytes n x) = x.
Proof.
  revert x. induction n as [|n IH]; intros x Hx; [cbn in *; lia|]. cbn [le_bytes le_value foldr]. fold (le_value (le_bytes n (x / 256)%Z)).
  rewrite IH; [pose proof (Z.div_mod x 256); lia|]. rewrite Nat2Z.inj_succ, Z.pow_succ_r in Hx by lia.
  split; [apply Z.div_pos; lia|apply Z.div_lt_upper_bound; lia].
Qed.

Lemma le_value_range l : Forall (fun b => 0 <= b < 256)%Z l -> (0 <= le_value l < 256 ^ Z.of_nat (length l))%Z.
Proof.
  induction 1 as [|b l Hb _ IH]; [cbn; lia|]. cbn [le_value foldr length]. fold (le_value l). rewrite Nat2Z.inj_succ, Z.pow_succ_r by lia. lia.
Qed.

Lemma le_value_bytes l : Forall (fun b => 0 <= b < 256)%Z l -> le_bytes (length l) (le_value l) = l.
Proof.
  induction 1 as [|b l Hb _ IH]; [done|]. cbn [length le_bytes le_value foldr]. fold (le_value l). f_equal.
  - rewrite (Z.mul_comm 256), Z_mod_plus_full. by apply Z.mod_small.
  - rewrite (Z.mul_comm 256), Z_div_plus_full, Z.div_small by lia. by rewrite Z.add_0_l.
Qed.

(** *** Bits *)

Lemma lxor_range x y n : (0 <= n -> 0 <= x < 2 ^ n -> 0 <= y < 2 ^ n -> 0 <= Z.lxor x y < 2 ^ n)%Z.
Proof.
  intros Hn Hx Hy. split; [by apply Z.lxor_nonneg; split; intros; lia|].
  destruct (Z.eq_dec (Z.lxor x y) 0%Z) as [->|Hne]; [apply Z.pow_pos_nonneg; lia|].
  assert (0 <= Z.lxor x y)%Z as H0 by (apply Z.lxor_nonneg; split; intros; lia).
  apply Z.log2_lt_pow2; [lia|].
  pose proof (Z.log2_lxor x y ltac:(lia) ltac:(lia)) as Hl.
  destruct (Z.eq_dec n 0%Z) as [->|].
  { replace x with 0%Z in Hne by lia. replace y with 0%Z in Hne by lia. done. }
  assert (forall z, 0 <= z < 2 ^ n -> Z.log2 z < n)%Z as Hz.
  { intros z Hz. destruct (Z.eq_dec z 0%Z) as [->|]; [simpl; lia|]. apply Z.log2_lt_pow2; lia. }
  pose proof (Hz x Hx). pose proof (Hz y Hy). lia.
Qed.

Lemma lor_high a b n : (0 <= n)%Z -> (0 <= a < 2 ^ n)%Z -> (Z.lor a (b * 2 ^ n) = a + b * 2 ^ n)%Z.
Proof.
  intros Hn Ha. rewrite <- Z.lxor_lor, Z.add_nocarry_lxor; [done|..];
    apply Z.bits_inj'; intros i Hi; rewrite Z.land_spec, Z.bits_0;
    (destruct (Z.lt_ge_cases i n); [rewrite Z.mul_pow2_bits_low by lia; apply andb_false_r|]);
    (assert (a / 2 ^ i = 0)%Z as Ei;
      [ apply Z.div_small; split; [lia|]; apply Z.lt_le_trans with (2 ^ n)%Z; [lia|]; apply Z.pow_le_mono_r; lia
      | rewrite (proj2 (Z.testbit_false a i Hi)) by (by rewrite Ei); done ]).
Qed.

(** *** Arrays *)

Lemma arr_get_nat {A} (l : list A) (n : nat) : arr_get l (Z.of_nat n) = l !! n.
Proof.
  unfold arr_get. destruct (Z.ltb_spec (Z.of_nat n) 0); [lia|].
  by rewrite Nat2Z.id.
Qed.

Lemma arr_get_some {A} (l : list A) i :
  (0 <= i < Z.of_nat (length l))%Z -> is_Some (arr_get l i).
Proof.
  intros H. unfold arr_get. destruct (Z.ltb_spec i 0); [lia|].
  apply lookup_lt_is_Some. lia.
Qed.

Lemma arr_get_inv {A} (l : list A) i x :
  arr_get l i = Some x -> (0 <= i < Z.of_nat (length l))%Z.
Proof.
  unfold arr_get. destruct (Z.ltb_spec i 0); [done|].
  intros Hl%lookup_lt_Some. lia.
Qed.

Lemma arr_set_some {A} (l : list A) i x :
  (0 <= i < Z.of_nat (length l))%Z -> arr_set l i x = Some (<[Z.to_nat i := x]> l).
Proof.
  intros H. unfold arr_set. destruct (Z.ltb_spec i 0); [lia|].
  case_decide; [done|lia].
Qed.

Lemma arr_set_inv {A} (l l' : list A) i x :
  arr_set l i x = Some l' ->
  (0 <= i < Z.of_nat (length l))%Z /\ l' = <[Z.to_nat i := x]> l.
Proof.
  unfold arr_set. destruct (Z.ltb_spec i 0); [done|].
  case_decide; [|done]. intros [= <-]. split; [lia|done].
Qed.

Lemma arr_get_insert {A} (l : list A) i j x :
  (0 <= i < Z.of_nat (length l))%Z -> (0 <= j)%Z ->
  arr_get (<[Z.to_nat i := x]> l) j = if decide (i = j) then Some x else arr_get l j.
Proof.
  intros Hi Hj. unfold arr_get. destruct (Z.ltb_spec j 0); [lia|].
  case_decide.
  - subst. apply list_lookup_insert_eq. lia.
  - apply list_lookup_insert_ne. lia.
Qed.

(** *** Lists of lists *)

Lemma concat_split {A} (ls : list (list A)) i x :
  ls !! i = Some x -> concat ls ≡ₚ x ++ concat (delete i ls).
Proof.
  intros Hi. rewrite <- (take_drop_middle ls i x Hi) at 1.
  rewrite delete_take_drop, !concat_app. simpl.
  rewrite !(Permutation_app_comm x), app_assoc. by rewrite <- !app_assoc.
Qed.

Lemma concat_insert {A} (ls : list (list A)) i x y :
  ls !! i = Some x -> concat (<[i := y]> ls) ≡ₚ y ++ concat (delete i ls).
Proof.
  intros Hi. pose proof (lookup_lt_Some _ _ _ Hi) as Hlt.
  rewrite (concat_split _ i y) by (by rewrite list_lookup_insert_eq).
  rewrite !delete_take_drop, take_insert_ge, drop_insert_lt by lia. done.
Qed.

(** *** Weakest preconditions *)

Lemma wp_ret {S A} (a : A) Q (s : S) : wp (ret a) Q s <-> Q a s.
Proof. done. Qed.

Lemma wp_bind {S A B} (m : M S A) (k : A -> M S B) Q s :
  wp (bind m k) Q s <-> wp m (fun a s' => wp (k a) Q s') s.
Proof. unfold wp, bind. by destruct (m s) as [[a s']| |]. Qed.

Lemma wp_get {S} Q (s : S) : wp get Q s <-> Q s s.
Proof. done. Qed.
Lemma wp_put {S} (s' : S) Q s : wp (put s') Q s <-> Q tt s'.
Proof. done. Qed.
Lemma wp_modify {S} (f : S -> S) Q s : wp (modify f) Q s <-> Q tt (f s).
Proof. done. Qed.
Lemma wp_gets {S A} (f : S -> A) Q s : wp (gets f) Q s <-> Q (f s) s.
Proof. done. Qed.

Lemma wp_deref {S A} (o : option A) (Q : A -> S -> Prop) s :
  wp (deref o) Q s <-> exists a, o = Some a /\ Q a s.
Proof.
  destruct o as [a|]; unfold wp, deref; simpl.
  - split; [eauto|]. by intros (? & [= ->] & ?).
  - split; [done|]. by intros (? & ? & ?).
Qed.

Lemma wp_bytes_in {S} buf off n Q (s : S) : (0 <= off)%Z -> (off + n <= Z.of_nat (length buf))%Z ->
  Q (take (Z.to_nat n) (drop (Z.to_nat off) buf)) s -> wp (bytes_at buf off n) Q s.
Proof.
  intros H0 Hl HQ. unfold bytes_at. destruct (Z.leb_spec 0 off); [|lia].
  destruct (Z.leb_spec (off + n) (Z.of_nat (length buf))); [|lia]. by apply wp_ret.
Qed.

Lemma wp_num_at {S} buf off n Q (s : S) : (0 <= off)%Z -> (off + n <= Z.of_nat (length buf))%Z ->
  Q (le_value (take (Z.to_nat n) (drop (Z.to_nat off) buf))) s -> wp (num_at buf off n) Q s.
Proof. intros H0 Hl HQ. apply wp_bind, wp_bytes_in; [done..|]. by apply wp_ret. Qed.

Lemma wp_copy_to {S} buf off src Q (s : S) : (0 <= off)%Z -> (off + Z.of_nat (length src) <= Z.of_nat (length buf))%Z ->
  Q (splice buf (Z.to_nat off) src) s -> wp (copy_to buf off src) Q s.
Proof.
  intros H0 Hl HQ. unfold copy_to. destruct (Z.leb_spec 0 off); [|lia].
  destruct (Z.leb_spec (off + Z.of_nat (length src)) (Z.of_nat (length buf))); [|lia]. by apply wp_ret.
Qed.

Lemma wp_mono {S A} (m : M S A) (Q Q' : A -> S -> Prop) s :
  wp m Q s -> (forall a s', Q a s' -> Q' a s') -> wp m Q' s.
Proof. unfold wp. destruct (m s) as [[a s']| |]; eauto. Qed.

Lemma bind_run {S A B} (m : M S A) (k : A -> M S B) s a s' :
  m s = Ret (a, s') -> bind m k s = k a s'.
Proof. unfold bind. by intros ->. Qed.

Lemma bind_spin {S A B} (m : M S A) (k : A -> M S B) s : m s = Spin -> bind m k s = Spin.
Proof. unfold bind. by intros ->. Qed.

Lemma bind_fault {S A B} (m : M S A) (k : A -> M S B) s : m s = Fault -> bind m k s = Fault.
Proof. intros H. unfold bind. by rewrite H. Qed.

(** A call that satisfies a specification returns. *)
Lemma wp_returns {S A} (m : M S A) Q s :
  wp m Q s -> exists a s', m s = Ret (a, s') /\ Q a s'.
Proof. unfold wp. destruct (m s) as [[a s']| |]; [eauto|done..]. Qed.

(** A call that returns, and a fault behind it. *)
Lemma bind_wp_fault {S A B} (m : M S A) (k : A -> M S B) s : wp m (fun a s' => k a s' = Fault) s -> bind m k s = Fault.
Proof. unfold wp, bind. by destruct (m s) as [[a s']| |]. Qed.

Lemma wp_run {S A} (m : M S A) Q s a s' :
  wp m Q s -> m s = Ret (a, s') -> Q a s'.
Proof. unfold wp. intros H E. by rewrite E in H. Qed.

(** A loop keeps what each of its rounds keeps. *)
Lemma wp_mfor {S A} (I : S -> Prop) (l : list A) (body : A -> M S unit) s :
  (forall a s, a ∈ l -> I s -> wp (body a) (fun _ s' => I s') s) ->
  I s -> wp (mfor l body) (fun _ s' => I s') s.
Proof.
  revert s. induction l as [|a l IH]; intros s Hb HI; simpl; [done|].
  apply wp_bind. eapply wp_mono.
  - apply Hb; [set_solver|done].
  - intros [] s' HI'. apply IH; [|done]. intros. apply Hb; [set_solver|done].
Qed.

#[export] Hint Rewrite @wp_ret @wp_bind @wp_get @wp_put @wp_modify @wp_gets : kernel.

(** One symbolic-execution step of a [wp] goal, and as many as apply. *)
Ltac wp_step :=
  first
    [ rewrite wp_ret | rewrite wp_bind | rewrite wp_get | rewrite wp_put
    | rewrite wp_modify | rewrite wp_gets ].
Ltac wp_steps := repeat (wp_step; cbn beta).

(** Rewrite the state a [wp] goal runs from, and nothing else. *)
Ltac wp_state H :=
  match goal with |- wp ?m ?Q _ => rewrite (f_equal (wp m Q) H) end.

(** Case analysis on the condition of the first [if] of the goal. *)
Ltac case_if :=
  match goal with
  | |- context [ if ?b then _ else _ ] =>
      lazymatch type of b with
      | bool => let E := fresh "E" in destruct b eqn:E
      | _ => case_decide
      end
  end.

(** Turn boolean comparisons in the context into propositions, for [lia]. *)
Ltac bools :=
  repeat match goal with
  | H : (_ && _)%bool = true |- _ => apply andb_prop in H as [? ?]
  | H : (_ || _)%bool = false |- _ => apply orb_false_elim in H as [? ?]
  | H : (_ <? _)%Z = true |- _ => apply Z.ltb_lt in H
  | H : (_ <? _)%Z = false |- _ => apply Z.ltb_ge in H
  | H : (_ <=? _)%Z = true |- _ => apply Z.leb_le in H
  | H : (_ <=? _)%Z = false |- _ => apply Z.leb_gt in H
  | H : (_ =? _)%Z = true |- _ => apply Z.eqb_eq in H
  | H : (_ =? _)%Z = false |- _ => apply Z.eqb_neq in H
  | H : negb _ = true |- _ => apply negb_true_iff in H
  | H : negb _ = false |- _ => apply negb_false_iff in H
  | H : truth _ = true |- _ => apply truth_true in H
  | H : truth _ = false |- _ => apply truth_false in H
  end.
