(* ===== verification/Ring.v ===== *)
(** * Bounded circular queues

    The kernel keeps its queues in fixed arrays used as rings: the message
    queues of [kernel/ipc.c] ([message_queue_t]) and the ready and per-CPU
    queues of [kernel/scheduler.c] ([task_queue_t]) have the same four fields
    and the same index arithmetic. This file has the ring with the operations
    both components inline, the well-formedness of its indices, and its
    contract: a ring is the list of its items, oldest first. *)

From Stdlib Require Import ZArith Lia.
From stdpp Require Import base tactics option list.
From S2P Require Import Prelude.

Set Default Goal Selector "!".
Local Open Scope Z_scope.

Module Ring.

(** ** The ring *)

Record ring (T : Type) : Type := mk_ring {
  slots : list T;
  head : Z;
  tail : Z;
  count : Z;
}.
Arguments mk_ring {T} _ _ _ _.
Arguments slots {T} _.
Arguments head {T} _.
Arguments tail {T} _.
Arguments count {T} _.

Section Ops.
Context {T : Type} (cap : Z).

(** [queue->tasks[(queue->head + i) % MAX]] *)
Definition ring_nth (r : ring T) (i : Z) : option T :=
  arr_get (slots r) ((head r + i) mod cap).

(** [queue->tasks[queue->tail] = x; queue->tail = (queue->tail + 1) % MAX; queue->count++] *)
Definition ring_push (r : ring T) (x : T) : option (ring T) :=
  sl ← arr_set (slots r) (tail r) x;
  Some (mk_ring sl (head r) ((tail r + 1) mod cap) (count r + 1)).

(** [queue->tasks[queue->head]] *)
Definition ring_front (r : ring T) : option T := arr_get (slots r) (head r).

(** [queue->head = (queue->head + 1) % MAX; queue->count--] *)
Definition ring_pop (r : ring T) : ring T :=
  mk_ring (slots r) ((head r + 1) mod cap) (tail r) (count r - 1).

(** [queue->messages[queue->head] = d], then the removal at the head. *)
Definition ring_take (r : ring T) (d : T) : option (ring T) :=
  sl ← arr_set (slots r) (head r) d;
  Some (ring_pop (mk_ring sl (head r) (tail r) (count r))).

(** The loop [for (j = i; j < count - 1; j++) tasks[(head + j) % MAX] = tasks[(head + j + 1) % MAX]],
    [n] the number of rounds left. *)
Fixpoint ring_shift (n : nat) (h j : Z) (sl : list T) : option (list T) :=
  match n with
  | O => Some sl
  | S n' =>
      x ← arr_get sl ((h + j + 1) mod cap);
      sl' ← arr_set sl ((h + j) mod cap) x;
      ring_shift n' h (j + 1) sl'
  end.

(** Remove the item at position [i] by shifting the later ones down. *)
Definition ring_remove (r : ring T) (i : Z) : option (ring T) :=
  sl ← ring_shift (Z.to_nat (count r - 1 - i)) (head r) i (slots r);
  Some (mk_ring sl (head r) ((tail r - 1 + cap) mod cap) (count r - 1)).

(** [queue->messages[(queue->head + i) % MAX] = x] *)
Definition ring_set (r : ring T) (i : Z) (x : T) : option (ring T) :=
  sl ← arr_set (slots r) ((head r + i) mod cap) x;
  Some (mk_ring sl (head r) (tail r) (count r)).

(** The first position from [i] on whose item satisfies [p], [n] positions left. *)
Fixpoint ring_find_from (n : nat) (p : T -> bool) (r : ring T) (i : Z) : option (Z * T) :=
  match n with
  | O => None
  | S n' =>
      match ring_nth r i with
      | Some x => if p x then Some (i, x) else ring_find_from n' p r (i + 1)
      | None => ring_find_from n' p r (i + 1)
      end
  end.

Definition ring_find (p : T -> bool) (r : ring T) : option (Z * T) :=
  ring_find_from (Z.to_nat (count r)) p r 0.

(** ** Contract *)

Definition ring_wf (r : ring T) : Prop :=
  Z.of_nat (length (slots r)) = cap /\ 0 < cap /\
  0 <= head r < cap /\ 0 <= count r <= cap /\
  tail r = (head r + count r) mod cap.

(** The items of the ring, oldest first. *)
Definition items (r : ring T) : list T :=
  omap (fun i => ring_nth r (Z.of_nat i)) (seq 0 (Z.to_nat (count r))).

Definition ring_empty (d : T) : ring T := mk_ring (replicate (Z.to_nat cap) d) 0 0 0.

End Ops.

(** ** Index arithmetic *)

Lemma mod_wrap c x :
  0 <= x < 2 * c -> x mod c = if x <? c then x else x - c.
Proof.
  intros H. destruct (Z.ltb_spec x c).
  - apply Z.mod_small. lia.
  - symmetry. apply Z.mod_unique with 1; lia.
Qed.

Lemma mod_idx_inj c h k k' :
  0 <= h < c -> 0 <= k < c -> 0 <= k' < c ->
  (h + k) mod c = (h + k') mod c -> k = k'.
Proof.
  intros. rewrite !mod_wrap in * by lia.
  destruct (Z.ltb_spec (h + k) c), (Z.ltb_spec (h + k') c); lia.
Qed.

Lemma mod_idx_step c h k : 0 < c -> ((h + k) mod c + 1) mod c = (h + (k + 1)) mod c.
Proof. intros. rewrite Zplus_mod_idemp_l. f_equal. lia. Qed.

Lemma omap_seq_lookup {A} (f : nat -> option A) n k i :
  (forall j, (k <= j < k + n)%nat -> is_Some (f j)) ->
  omap f (seq k n) !! i = if decide (i < n)%nat then f (k + i)%nat else None.
Proof.
  revert k i. induction n as [|n IH]; intros k i Hs; [done|].
  destruct (Hs k) as [x Hx]; [lia|].
  destruct (decide (i < S n)%nat) as [Hi|Hi]; simpl; rewrite Hx; destruct i as [|i]; simpl.
  - by rewrite Nat.add_0_r.
  - rewrite IH by (intros; apply Hs; lia). rewrite decide_True by lia. f_equal. lia.
  - lia.
  - rewrite IH by (intros; apply Hs; lia). by rewrite decide_False by lia.
Qed.

Section Facts.
Context {T : Type} (cap : Z).
Implicit Types (r : ring T) (x : T).

Lemma ring_nth_some r i : ring_wf cap r -> is_Some (ring_nth cap r i).
Proof.
  intros (Hl & Hc & _). apply arr_get_some. rewrite Hl. by apply Z.mod_pos_bound.
Qed.

Lemma items_lookup r i :
  ring_wf cap r ->
  items cap r !! i = if decide (Z.of_nat i < count r) then ring_nth cap r (Z.of_nat i) else None.
Proof.
  intros Hw. unfold items. rewrite omap_seq_lookup by (intros; by apply ring_nth_some).
  destruct Hw as (_ & _ & _ & ? & _). repeat case_decide; (lia || done).
Qed.

Lemma items_length r : ring_wf cap r -> Z.of_nat (length (items cap r)) = count r.
Proof.
  intros Hw. pose proof Hw as (_ & _ & _ & Hc & _).
  apply Z.le_antisymm.
  - apply Z.le_ngt. intros Hlt.
    destruct (lookup_lt_is_Some_2 (items cap r) (Z.to_nat (count r))) as [x Hx]; [lia|].
    rewrite items_lookup in Hx by done. case_decide; [lia|done].
  - apply Z.le_ngt. intros Hlt.
    assert (items cap r !! length (items cap r) = None) as Hn by by apply lookup_ge_None.
    rewrite items_lookup in Hn by done. rewrite decide_True in Hn by lia.
    destruct (ring_nth_some r (Z.of_nat (length (items cap r))) Hw); congruence.
Qed.

Lemma ring_nth_items r i :
  ring_wf cap r -> 0 <= i < count r -> ring_nth cap r i = items cap r !! Z.to_nat i.
Proof.
  intros Hw Hi. rewrite items_lookup by done. rewrite Z2Nat.id by lia.
  by rewrite decide_True by lia.
Qed.

Lemma ring_empty_wf (d : T) : 0 < cap -> ring_wf cap (ring_empty cap d).
Proof.
  intros Hc. unfold ring_wf, ring_empty; simpl. rewrite length_replicate, Z2Nat.id by lia.
  repeat split; lia.
Qed.

Lemma ring_empty_items (d : T) : items cap (ring_empty cap d) = [].
Proof. done. Qed.

(** *** Insertion *)

Lemma ring_push_spec r x :
  ring_wf cap r -> count r < cap ->
  exists r', ring_push cap r x = Some r' /\ ring_wf cap r' /\
    items cap r' = items cap r ++ [x] /\ count r' = count r + 1.
Proof.
  intros Hw Hlt. pose proof Hw as (Hl & Hc & Hh & Hn & Ht).
  assert (0 <= tail r < cap) as Htr by (rewrite Ht; by apply Z.mod_pos_bound).
  unfold ring_push. rewrite arr_set_some by lia. simpl.
  eexists; split; [done|].
  match goal with |- ring_wf cap ?r' /\ _ => set (R := r') end.
  assert (ring_wf cap R) as HwR.
  { unfold ring_wf, R; simpl. rewrite length_insert. repeat split; try lia.
    rewrite Ht, mod_idx_step by lia. done. }
  split; [done|]. split; [|done].
  apply list_eq. intros i. rewrite items_lookup by done.
  assert (Z.of_nat (length (items cap r)) = count r) as Hlen by by apply items_length.
  destruct (decide (Z.of_nat i < count r)) as [Hi|Hi].
  - rewrite lookup_app_l by lia. rewrite decide_True by (simpl; lia).
    rewrite items_lookup, decide_True by done. unfold ring_nth; simpl.
    rewrite arr_get_insert; [|lia|by apply Z.mod_pos_bound].
    rewrite decide_False; [done|]. rewrite Ht. intros Heq.
    apply mod_idx_inj in Heq; lia.
  - destruct (decide (Z.of_nat i = count r)) as [He|Hne].
    + rewrite decide_True by (simpl; lia). rewrite lookup_app_r by lia.
      replace (i - length (items cap r))%nat with 0%nat by lia. unfold ring_nth; simpl.
      rewrite He, <- Ht, arr_get_insert by lia. by rewrite decide_True.
    + rewrite decide_False by (simpl; lia). symmetry. apply lookup_ge_None.
      rewrite length_app; simpl. lia.
Qed.

(** *** Removal at the head *)

Lemma ring_front_items r : ring_wf cap r -> 0 < count r -> ring_front r = items cap r !! 0%nat.
Proof.
  intros Hw Hn. rewrite items_lookup by done. rewrite decide_True by lia.
  unfold ring_front, ring_nth. destruct Hw as (_ & _ & Hh & _).
  by rewrite Z.add_0_r, Z.mod_small by lia.
Qed.

Lemma ring_pop_wf r : ring_wf cap r -> 0 < count r -> ring_wf cap (ring_pop cap r).
Proof.
  intros (Hl & Hc & Hh & Hn & Ht) Hp. unfold ring_wf, ring_pop; simpl.
  repeat split; try lia; try (apply Z.mod_pos_bound; lia).
  rewrite Ht, Zplus_mod_idemp_l. f_equal. lia.
Qed.

Lemma ring_pop_spec r :
  ring_wf cap r -> 0 < count r ->
  exists x, ring_front r = Some x /\ ring_wf cap (ring_pop cap r) /\
    items cap r = x :: items cap (ring_pop cap r).
Proof.
  intros Hw Hp. pose proof (ring_pop_wf r Hw Hp) as Hw'.
  destruct (items cap r) as [|x l] eqn:E.
  { pose proof (items_length r Hw) as Hl. rewrite E in Hl. simpl in Hl. lia. }
  exists x. rewrite ring_front_items, E by done.
  split; [done|]. split; [done|]. f_equal.
  apply list_eq. intros i. rewrite items_lookup by done.
  assert (l !! i = items cap r !! S i) as -> by by rewrite E.
  rewrite items_lookup by done. simpl. unfold ring_nth; simpl.
  rewrite Zplus_mod_idemp_l.
  repeat case_decide; try lia; [|done]. do 2 f_equal. lia.
Qed.

Lemma ring_take_spec r d :
  ring_wf cap r -> 0 < count r ->
  exists x r', ring_front r = Some x /\ ring_take cap r d = Some r' /\ ring_wf cap r' /\
    items cap r = x :: items cap r' /\ count r' = count r - 1.
Proof.
  intros Hw Hp. pose proof Hw as (Hl & Hc & Hh & Hn & Ht).
  destruct (ring_pop_spec r Hw Hp) as (x & Hx & Hw' & E).
  unfold ring_take. rewrite arr_set_some by lia. simpl.
  match goal with |- context [Some (ring_pop cap ?r0)] => set (R := r0) end.
  assert (ring_wf cap R) as HwR.
  { unfold ring_wf, R; simpl. rewrite length_insert. by repeat split; try lia. }
  exists x, (ring_pop cap R). split; [done|]. split; [done|].
  split; [by apply ring_pop_wf|]. split; [|done].
  rewrite E. f_equal. apply list_eq. intros i.
  rewrite !items_lookup by (done || by apply ring_pop_wf). simpl.
  case_decide as Hi; [|done]. unfold ring_nth; simpl.
  rewrite arr_get_insert; [|lia|by apply Z.mod_pos_bound].
  rewrite decide_False; [done|]. rewrite Zplus_mod_idemp_l, <- Z.add_assoc. intros Heq.
  assert (head r = (head r + 0) mod cap) as H0 by (rewrite Z.add_0_r, Z.mod_small; lia).
  rewrite H0 in Heq at 1. apply mod_idx_inj in Heq; lia.
Qed.

Lemma ring_set_spec r i x :
  ring_wf cap r -> 0 <= i < count r ->
  exists r', ring_set cap r i x = Some r' /\ ring_wf cap r' /\
    items cap r' = <[Z.to_nat i := x]> (items cap r) /\ count r' = count r.
Proof.
  intros Hw Hi. pose proof Hw as (Hl & Hc & Hh & Hn & Ht).
  unfold ring_set. rewrite arr_set_some by (rewrite Hl; by apply Z.mod_pos_bound). simpl.
  eexists; split; [done|].
  match goal with |- ring_wf cap ?r' /\ _ => set (R := r') end.
  assert (ring_wf cap R) as HwR.
  { unfold ring_wf, R; simpl. rewrite length_insert. by repeat split; try lia. }
  split; [done|]. split; [|done]. pose proof (items_length r Hw) as Hlen.
  apply list_eq. intros k. rewrite items_lookup by done.
  destruct (decide (k = Z.to_nat i)) as [->|Hne].
  - rewrite list_lookup_insert_eq by lia. rewrite decide_True by (simpl; lia).
    unfold ring_nth; simpl. rewrite arr_get_insert;
      [|rewrite Hl; by apply Z.mod_pos_bound|by apply Z.mod_pos_bound].
    rewrite decide_True; [done|]. f_equal. lia.
  - rewrite list_lookup_insert_ne, items_lookup by done. simpl.
    case_decide as Hk; [|done]. unfold ring_nth; simpl.
    rewrite arr_get_insert;
      [|rewrite Hl; by apply Z.mod_pos_bound|by apply Z.mod_pos_bound].
    rewrite decide_False; [done|]. intros Heq. apply mod_idx_inj in Heq; lia.
Qed.

(** *** Removal by shifting *)

Lemma ring_shift_spec n h j (sl : list T) :
  Z.of_nat (length sl) = cap -> 0 <= h < cap -> 0 <= j -> j + Z.of_nat n < cap ->
  exists sl', ring_shift cap n h j sl = Some sl' /\ length sl' = length sl /\
    forall k, 0 <= k < cap ->
      arr_get sl' ((h + k) mod cap) =
      if decide (j <= k < j + Z.of_nat n) then arr_get sl ((h + k + 1) mod cap)
      else arr_get sl ((h + k) mod cap).
Proof.
  revert j sl. induction n as [|n IH]; intros j sl Hl Hh Hj Hn.
  - exists sl. repeat split; try done. intros k Hk. by rewrite decide_False by lia.
  - cbn [ring_shift].
    destruct (arr_get_some sl ((h + j + 1) mod cap)) as [x Hx].
    { rewrite Hl. apply Z.mod_pos_bound; lia. }
    rewrite Hx. cbn [mbind option_bind].
    rewrite arr_set_some by (rewrite Hl; apply Z.mod_pos_bound; lia). cbn [mbind option_bind].
    destruct (IH (j + 1) (<[Z.to_nat ((h + j) mod cap):=x]> sl)) as (sl' & -> & Hl' & Hk');
      [rewrite length_insert; lia|lia..|].
    rewrite length_insert in Hl'. exists sl'. repeat split; try done.
    intros k Hk. rewrite Hk' by done.
    assert (forall q, 0 <= q < cap ->
      arr_get (<[Z.to_nat ((h + j) mod cap):=x]> sl) ((h + q) mod cap) =
      if decide (j = q) then Some x else arr_get sl ((h + q) mod cap)) as Hins.
    { intros q Hq. rewrite arr_get_insert;
        [|rewrite Hl; apply Z.mod_pos_bound; lia|apply Z.mod_pos_bound; lia].
      destruct (decide (j = q)) as [->|Hne]; [by rewrite decide_True|].
      rewrite decide_False; [done|]. intros Heq. apply mod_idx_inj in Heq; lia. }
    destruct (decide (j + 1 <= k < j + 1 + Z.of_nat n)).
    + rewrite (decide_True (P := j <= k < j + Z.of_nat (S n))) by lia.
      replace (h + k + 1) with (h + (k + 1)) by lia. rewrite Hins by lia.
      by rewrite decide_False by lia.
    + rewrite Hins by done. destruct (decide (j = k)) as [->|].
      * by rewrite decide_True by lia.
      * by rewrite decide_False by lia.
Qed.

Lemma ring_remove_spec r i :
  ring_wf cap r -> 0 <= i < count r ->
  exists r', ring_remove cap r i = Some r' /\ ring_wf cap r' /\
    items cap r' = delete (Z.to_nat i) (items cap r) /\ count r' = count r - 1.
Proof.
  intros Hw Hi. pose proof Hw as (Hl & Hc & Hh & Hn & Ht).
  unfold ring_remove.
  destruct (ring_shift_spec (Z.to_nat (count r - 1 - i)) (head r) i (slots r))
    as (sl' & -> & Hl' & Hk); [lia..|]. simpl.
  eexists; split; [done|].
  match goal with |- ring_wf cap ?r' /\ _ => set (R := r') end.
  assert (ring_wf cap R) as HwR.
  { unfold ring_wf, R; simpl. repeat split; try lia.
    rewrite Ht. replace ((head r + count r) mod cap - 1 + cap)
      with ((head r + count r) mod cap + (cap - 1)) by lia.
    rewrite Zplus_mod_idemp_l.
    replace (head r + count r + (cap - 1)) with (head r + (count r - 1) + 1 * cap) by lia.
    by rewrite Z.mod_add by lia. }
  split; [done|]. split; [|done].
  apply list_eq. intros k. rewrite items_lookup by done. unfold ring_nth, R; simpl.
  destruct (decide (Z.of_nat k < count r - 1)) as [Hlt|Hge].
  - rewrite Hk by lia. destruct (decide (i <= Z.of_nat k)).
    + rewrite decide_True by lia. rewrite list_lookup_delete_ge by lia.
      rewrite items_lookup, decide_True by (done || lia). unfold ring_nth.
      do 2 f_equal. lia.
    + rewrite decide_False by lia. rewrite list_lookup_delete_lt by lia.
      by rewrite items_lookup, decide_True by (done || lia).
  - symmetry. apply lookup_ge_None.
    pose proof (items_length r Hw). rewrite length_delete by (apply lookup_lt_is_Some; lia). lia.
Qed.

(** *** Search *)

Lemma ring_find_from_spec n (p : T -> bool) r i :
  ring_wf cap r -> 0 <= i -> i + Z.of_nat n = count r ->
  ring_find_from cap n p r i =
    prod_map (fun k => i + Z.of_nat k) id <$> list_find (fun x => p x = true) (drop (Z.to_nat i) (items cap r)).
Proof.
  intros Hw. revert i. induction n as [|n IH]; intros i Hi Hn; simpl.
  - rewrite drop_ge; [done|]. pose proof (items_length r Hw). lia.
  - destruct (ring_nth_some r i Hw) as [x Hx]. rewrite Hx.
    rewrite ring_nth_items in Hx by (done || lia).
    rewrite (drop_S _ x) by done. simpl.
    destruct (p x) eqn:Hp.
    + rewrite decide_True by done. simpl. by rewrite Z.add_0_r.
    + rewrite decide_False by done. rewrite IH by lia.
      replace (Z.to_nat (i + 1)) with (S (Z.to_nat i)) by lia.
      destruct (list_find _ _) as [[k y]|]; simpl; [|done]. do 2 f_equal. lia.
Qed.

Lemma ring_find_spec (p : T -> bool) r :
  ring_wf cap r ->
  ring_find cap p r = prod_map Z.of_nat id <$> list_find (fun x => p x = true) (items cap r).
Proof.
  intros Hw. unfold ring_find. pose proof Hw as (_ & _ & _ & ? & _).
  by rewrite ring_find_from_spec by (done || lia).
Qed.

End Facts.

#[export] Hint Resolve ring_empty_wf ring_pop_wf : kernel.

End Ring.
