(* ===== verification/Ports.v ===== *)
(** * Dynamic ports

    [tcp_get_free_port] and [udp_get_free_port] are the same search over the same
    range of 16-bit port numbers. This file has the search, with the test for a used
    port as an argument, and what it finds: the first unused port after the last one
    given out, if there are fewer users than ports. *)

From Stdlib Require Import ZArith Lia.
From stdpp Require Import base tactics option list.
From S2P Require Import Prelude.

Set Default Goal Selector "!".
Local Open Scope Z_scope.

Module Ports.

Definition DYNAMIC_PORT_START : Z := 49152.
Definition DYNAMIC_PORT_END : Z := 65535.

(** [if (++last > END || last < START) last = START], on a [uint16_t]. *)
Definition next_dynamic (last : Z) : Z :=
  let p := u16 (last + 1) in
  if (DYNAMIC_PORT_END <? p) || (p <? DYNAMIC_PORT_START) then DYNAMIC_PORT_START else p.

(** The [do ... while (port != start_port)] loop; [None] when the fuel runs out. *)
Fixpoint port_loop (in_use : Z -> bool) (fuel : nat) (port start : Z) : option Z :=
  match fuel with
  | O => None
  | S f =>
      if negb (in_use port) then Some port
      else
        let port := u16 (port + 1) in
        let port := if DYNAMIC_PORT_END <? port then DYNAMIC_PORT_START else port in
        if port =? start then Some 0 else port_loop in_use f port start
  end.

(** A 16-bit counter comes back to any value in [2 ^ 16] rounds. *)
Definition PORT_FUEL : nat := Z.to_nat 65536.

(** ** What the search finds *)

Definition port_ok (p : Z) : Prop := 0 <= p < 2 ^ 16.

(** The port after [n] rounds. *)
Definition port_after (port : Z) (n : nat) : Z := u16 (port + Z.of_nat n).

Lemma port_after_ok port n : port_ok (port_after port n).
Proof. apply u16_range. Qed.

Lemma port_after_0 port : port_ok port -> port_after port 0 = port.
Proof. intros Hp. unfold port_after. rewrite Z.add_0_r. apply Z.mod_small. unfold port_ok in Hp. lia. Qed.

(** The second wrap-around test never holds. *)
Lemma port_step port :
  (if DYNAMIC_PORT_END <? u16 (port + 1) then DYNAMIC_PORT_START else u16 (port + 1)) = u16 (port + 1).
Proof.
  pose proof (u16_range (port + 1)). unfold DYNAMIC_PORT_END.
  destruct (Z.ltb_spec 65535 (u16 (port + 1))); [lia|done].
Qed.

Lemma port_after_step port n : port_after (u16 (port + 1)) n = port_after port (S n).
Proof. unfold port_after, u16. rewrite Zplus_mod_idemp_l. f_equal. lia. Qed.

Section Search.
Context (in_use : Z -> bool).

(** The first free port of those before [start], or 0. *)
Lemma port_loop_spec start : port_ok start -> forall fuel d port,
  port_ok port -> port_after port d = start -> (0 < d <= fuel)%nat ->
  (forall n, (0 < n < d)%nat -> port_after port n <> start) ->
  exists r, port_loop in_use fuel port start = Some r /\
    ((exists n, (n < d)%nat /\ r = port_after port n /\ in_use r = false /\
        forall m, (m < n)%nat -> in_use (port_after port m) = true) \/
     (r = 0 /\ forall m, (m < d)%nat -> in_use (port_after port m) = true)).
Proof.
  intros Hst. induction fuel as [|fuel IH]; intros d port Hp Hd Hf Hfirst; [lia|].
  pose proof (port_after_0 port Hp) as Hp0.
  cbn [port_loop]. destruct (in_use port) eqn:Eu; cbn [negb].
  2: { exists port. split; [done|]. left. exists 0%nat. rewrite Hp0. split_and!; [lia|done|done|]. intros; lia. }
  cbv zeta. rewrite port_step. destruct (Z.eqb_spec (u16 (port + 1)) start) as [He|Hne].
  - exists 0. split; [done|]. right. split; [done|]. intros m Hm.
    destruct d as [|[|d]]; [lia| |].
    + replace m with 0%nat by lia. by rewrite Hp0.
    + exfalso. apply (Hfirst 1%nat); [lia|]. unfold port_after. exact He.
  - destruct d as [|[|d]]; [lia|exfalso; apply Hne; exact Hd|].
    destruct (IH (S d) (u16 (port + 1))) as (r & Hr & Hres).
    + apply u16_range.
    + by rewrite port_after_step.
    + lia.
    + intros n Hn. rewrite port_after_step. apply Hfirst. lia.
    + exists r. split; [done|]. destruct Hres as [(n & Hn & -> & Hfree & Hb)|[-> Hb]].
      * left. exists (S n). rewrite <- port_after_step. split_and!; [lia|done|done|].
        intros [|m] Hm; [by rewrite Hp0|]. rewrite <- port_after_step. apply Hb. lia.
      * right. split; [done|]. intros [|m] Hm; [by rewrite Hp0|]. rewrite <- port_after_step. apply Hb. lia.
Qed.

(** Sixteen users cannot take seventeen ports. *)
Lemma some_port_free (users : list Z) port :
  (length users <= 16)%nat -> (forall p, in_use p = true -> p ∈ users) -> port_ok port ->
  ~ (forall m, (m < 17)%nat -> in_use (port_after port m) = true).
Proof.
  intros Hlen Hu Hp Hall. set (ports := map (port_after port) (seq 0 17)).
  assert (Hnd : NoDup ports).
  { apply (NoDup_fmap_2_strong (port_after port)); [|apply NoDup_seq].
    intros x y Hx%elem_of_seq Hy%elem_of_seq. unfold port_after, u16, port_ok in *. intros He.
    pose proof (Z.div_mod (port + Z.of_nat x) (2 ^ 16)). pose proof (Z.div_mod (port + Z.of_nat y) (2 ^ 16)).
    pose proof (Z.mod_pos_bound (port + Z.of_nat x) (2 ^ 16)). lia. }
  assert (Hincl : incl ports users).
  { intros q Hq. apply in_map_iff in Hq as (m & <- & Hm%in_seq). apply list_elem_of_In, Hu, Hall. lia. }
  apply NoDup_ListNoDup in Hnd. pose proof (NoDup_incl_length Hnd Hincl) as Hle.
  unfold ports in Hle. rewrite length_map, length_seq in Hle. lia.
Qed.

(** The first port tried. *)
Definition first_port (last : Z) : Z :=
  if (last =? 65535) || (last <? 49151) then DYNAMIC_PORT_START else last + 1.

Lemma next_dynamic_first last : port_ok last -> next_dynamic last = first_port last.
Proof.
  unfold next_dynamic, first_port, DYNAMIC_PORT_START, DYNAMIC_PORT_END, port_ok. cbv zeta. intros Hp.
  destruct (Z.eqb_spec last 65535) as [->|]; [done|]. unfold u16. rewrite Z.mod_small by lia. cbn [orb].
  destruct (Z.ltb_spec 65535 (last + 1)), (Z.ltb_spec (last + 1) 49152), (Z.ltb_spec last 49151); cbn [orb]; lia.
Qed.

Lemma first_port_range p : port_ok p -> 49152 <= first_port p < 65536.
Proof.
  unfold first_port, port_ok, DYNAMIC_PORT_START. intros Hp.
  destruct (Z.eqb_spec p 65535), (Z.ltb_spec p 49151); cbn; lia.
Qed.

Lemma first_port_ok p : port_ok p -> port_ok (first_port p).
Proof. intros Hp. pose proof (first_port_range p Hp). unfold port_ok. lia. Qed.

(** With at most sixteen users, a free port is found within seventeen tries. *)
Lemma port_search (users : list Z) last :
  (length users <= 16)%nat -> (forall p, in_use p = true -> p ∈ users) -> port_ok last ->
  exists r n, port_loop in_use PORT_FUEL (next_dynamic last) last = Some r /\ (n <= 16)%nat /\
    r = port_after (first_port last) n /\ in_use r = false /\
    forall m, (m < n)%nat -> in_use (port_after (first_port last) m) = true.
Proof.
  intros Hlen Hu Hl. rewrite next_dynamic_first by done. set (p := first_port last).
  pose proof (first_port_ok last Hl) as Hp.
  assert (Hd : 17 <= (last - p) mod 65536 < 65536).
  { unfold p, first_port, DYNAMIC_PORT_START, port_ok in *.
    destruct (Z.eqb_spec last 65535) as [He|]; [rewrite He; split; by vm_compute|].
    destruct (Z.ltb_spec last 49151); cbn [orb].
    - replace (last - 49152) with (last + 16384 + (-1) * 65536) by lia. rewrite Z.mod_add by lia.
      rewrite Z.mod_small; lia.
    - replace (last - (last + 1)) with (65535 + (-1) * 65536) by lia. rewrite Z.mod_add by lia. done. }
  set (d := Z.to_nat ((last - p) mod 65536)).
  destruct (port_loop_spec last Hl PORT_FUEL d p Hp) as (r & Hr & Hres).
  - unfold port_after, d, u16. rewrite Z2Nat.id by lia. change 65536 with (2 ^ 16).
    rewrite Zplus_mod_idemp_r. replace (p + (last - p)) with last by lia.
    apply Z.mod_small. unfold port_ok in Hl. lia.
  - unfold d, PORT_FUEL. lia.
  - intros n Hn He. unfold port_after, u16 in He.
    assert (Hn' : Z.of_nat n = (last - p) mod 65536).
    { rewrite <- He. change (2 ^ 16) with 65536. rewrite Zminus_mod_idemp_l.
      replace (p + Z.of_nat n - p) with (Z.of_nat n) by lia. rewrite Z.mod_small by lia. done. }
    unfold d in Hn. lia.
  - exists r. destruct Hres as [(n & Hn & Hrn & Hfree & Hb)|[_ Hb]].
    + exists n. split_and!; try done. destruct (decide (n <= 16)%nat); [done|]. exfalso.
      apply (some_port_free users p); [done|done|done|]. intros m Hm. apply Hb. lia.
    + exfalso. apply (some_port_free users p); [done|done|done|]. intros m Hm. apply Hb. unfold d. lia.
Qed.

End Search.
End Ports.
