(* ===== verification/Dll.v ===== *)
(** * Doubly-linked lists

    The kernel links structures through a pair of members (previous, next), both
    addresses, with 0 for NULL. [fseg] says that a map of such pairs links the addresses
    of a list; the lemmas say what taking a node out, putting one in at the head and
    putting one in at the tail make of it. [HeapInv] uses them for the free lists and
    [ThreadInv] for the ready and the blocked threads. *)

From Stdlib Require Import ZArith Lia.
From stdpp Require Import base tactics option list gmap.
From S2P Require Import Prelude.

Set Default Goal Selector "!".
Local Open Scope Z_scope.

Module Dll.

Definition hd0 (l : list Z) : Z := hd 0 l.
Definition last0 (p : Z) (l : list Z) : Z := match last l with None => p | Some a => a end.

(** The addresses [l] linked to each other, to [p] before and to [n] after. *)
Fixpoint fseg (lk : gmap Z (Z * Z)) (p : Z) (l : list Z) (n : Z) : Prop :=
  match l with
  | [] => True
  | a :: l' => lk !! a = Some (p, hd n l') /\ fseg lk a l' n
  end.

(** ** Facts *)

Lemma fseg_app lk p l1 l2 n :
  fseg lk p (l1 ++ l2) n <-> fseg lk p l1 (hd n l2) /\ fseg lk (last0 p l1) l2 n.
Proof.
  revert p. induction l1 as [|a l1 IH]; intros p; cbn [fseg app].
  - unfold last0. cbn. tauto.
  - rewrite IH. destruct l1 as [|c l1]; cbn [hd app].
    + unfold last0. cbn. tauto.
    + unfold last0. cbn [last]. destruct (last_is_Some (c :: l1)) as [_ [x Hx]]; [done|].
      cbn [last] in Hx. rewrite Hx. tauto.
Qed.

Lemma fseg_ext lk lk' p l n :
  (forall a, a ∈ l -> lk' !! a = lk !! a) -> fseg lk p l n -> fseg lk' p l n.
Proof.
  revert p. induction l as [|b l IH]; intros p He; cbn; [done|]. intros [H1 H2].
  rewrite He by (by left). split; [done|]. apply IH; [|done]. intros. apply He. by right.
Qed.

Lemma fseg_alter lk p l n x f : x ∉ l -> fseg lk p l n -> fseg (alter f x lk) p l n.
Proof.
  intros Hx. apply fseg_ext. intros b Hb. apply lookup_alter_ne. by intros ->.
Qed.

Lemma fseg_insert lk p l n x m : x ∉ l -> fseg lk p l n -> fseg (<[x := m]> lk) p l n.
Proof.
  intros Hx. apply fseg_ext. intros b Hb. apply lookup_insert_ne. by intros ->.
Qed.

Definition set_fst (p : Z) (x : Z * Z) : Z * Z := (p, snd x).
Definition set_snd (n : Z) (x : Z * Z) : Z * Z := (fst x, n).

Lemma fseg_relast lk p l x n n' :
  x ∉ l -> fseg lk p (l ++ [x]) n -> fseg (alter (set_snd n') x lk) p (l ++ [x]) n'.
Proof.
  intros Hx [H1 [H2 _]]%fseg_app. apply fseg_app. split; [by apply fseg_alter|].
  cbn in *. by rewrite lookup_alter_eq, H2.
Qed.

Lemma fseg_refirst lk p p' y l n :
  y ∉ l -> fseg lk p (y :: l) n -> fseg (alter (set_fst p') y lk) p' (y :: l) n.
Proof.
  intros Hy [H1 H2]. split; [by rewrite lookup_alter_eq, H1|]. by apply fseg_alter.
Qed.

(** What taking a node out and clearing its links makes of the links of a list. *)
Definition unlink (lk : gmap Z (Z * Z)) (l1 : list Z) (a : Z) (l2 : list Z) : gmap Z (Z * Z) :=
  let lk1 := match last l1 with None => lk | Some x => alter (set_snd (hd0 l2)) x lk end in
  let lk2 := match l2 with [] => lk1 | y :: _ => alter (set_fst (last0 0 l1)) y lk1 end in
  <[a := (0, 0)]> lk2.

Lemma unlink_out lk l1 a l2 x : x ∉ l1 ++ a :: l2 -> unlink lk l1 a l2 !! x = lk !! x.
Proof.
  rewrite elem_of_app, elem_of_cons. intros Hx. unfold unlink. rewrite lookup_insert_ne by set_solver.
  assert (H1 : (match last l1 with None => lk | Some x => alter (set_snd (hd0 l2)) x lk end) !! x = lk !! x).
  { destruct (last l1) as [z|] eqn:El; [|done]. apply lookup_alter_ne. apply last_Some_elem_of in El. set_solver. }
  destruct l2 as [|y l2]; [done|]. rewrite lookup_alter_ne by set_solver. done.
Qed.

Lemma unlink_self lk l1 a l2 : unlink lk l1 a l2 !! a = Some (0, 0).
Proof. apply lookup_insert_eq. Qed.

Lemma fseg_unlink lk l1 a l2 :
  NoDup (l1 ++ a :: l2) -> fseg lk 0 (l1 ++ a :: l2) 0 -> fseg (unlink lk l1 a l2) 0 (l1 ++ l2) 0.
Proof.
  intros (N1 & N12 & N2)%NoDup_app (H1 & _ & H2)%fseg_app. apply NoDup_cons in N2 as [Ha N2].
  assert (Ha1 : a ∉ l1) by (intros ?%N12; set_solver).
  unfold unlink. apply fseg_insert; [rewrite elem_of_app; tauto|].
  assert (Hl : fseg (match last l1 with None => lk | Some x => alter (set_snd (hd0 l2)) x lk end) 0 l1 (hd0 l2)).
  { destruct l1 as [|x l1 _] using rev_ind; [done|]. rewrite last_snoc.
    apply NoDup_app in N1 as (_ & N1 & _). eapply fseg_relast; [set_solver|done]. }
  assert (Hr : fseg (match last l1 with None => lk | Some x => alter (set_snd (hd0 l2)) x lk end) a l2 0).
  { destruct (last l1) as [x|] eqn:El; [|done]. apply last_Some_elem_of in El.
    apply fseg_alter; [|done]. specialize (N12 x El). set_solver. }
  destruct l2 as [|y l2]; [by rewrite app_nil_r|].
  apply NoDup_cons in N2 as [Hy N2].
  apply fseg_app. split.
  - apply fseg_alter; [|done]. intros Hin. specialize (N12 y Hin). set_solver.
  - by eapply fseg_refirst.
Qed.

(** The links around [a], before those of [a] itself are cleared. *)
Definition bypass (lk : gmap Z (Z * Z)) (l1 l2 : list Z) : gmap Z (Z * Z) :=
  let lk1 := match last l1 with None => lk | Some x => alter (set_snd (hd0 l2)) x lk end in
  match l2 with [] => lk1 | y :: _ => alter (set_fst (last0 0 l1)) y lk1 end.

Lemma unlink_bypass lk l1 a l2 : unlink lk l1 a l2 = <[a := (0, 0)]> (bypass lk l1 l2).
Proof. done. Qed.

(** What putting a node in at the head makes of them. *)
Definition push (lk : gmap Z (Z * Z)) (a : Z) (l : list Z) : gmap Z (Z * Z) :=
  let lk1 := <[a := (0, hd0 l)]> lk in
  match l with [] => lk1 | y :: _ => alter (set_fst a) y lk1 end.

Lemma push_out lk a l x : x ∉ a :: l -> push lk a l !! x = lk !! x.
Proof.
  intros Hx. unfold push. destruct l as [|y l].
  - apply lookup_insert_ne. set_solver.
  - rewrite lookup_alter_ne by set_solver. apply lookup_insert_ne. set_solver.
Qed.

Lemma fseg_push lk a l : NoDup (a :: l) -> fseg lk 0 l 0 -> fseg (push lk a l) 0 (a :: l) 0.
Proof.
  intros [Ha N]%NoDup_cons H. unfold push. split.
  - destruct l as [|y l]; [apply lookup_insert_eq|].
    rewrite lookup_alter_ne by set_solver. apply lookup_insert_eq.
  - destruct l as [|y l]; [done|]. apply NoDup_cons in N as [Hy N].
    apply (fseg_refirst _ 0); [done|]. by apply fseg_insert.
Qed.

(** What putting a node in at the tail makes of them. *)
Definition append (lk : gmap Z (Z * Z)) (l : list Z) (a : Z) : gmap Z (Z * Z) :=
  let lk1 := <[a := (last0 0 l, 0)]> lk in
  match last l with None => lk1 | Some x => alter (set_snd a) x lk1 end.

Lemma append_out lk l a x : x ∉ l ++ [a] -> append lk l a !! x = lk !! x.
Proof.
  rewrite elem_of_app, list_elem_of_singleton. intros Hx. unfold append. destruct (last l) as [z|] eqn:El.
  - apply last_Some_elem_of in El. rewrite lookup_alter_ne by (intros ->; tauto). apply lookup_insert_ne. intros ->. tauto.
  - apply lookup_insert_ne. intros ->. tauto.
Qed.

Lemma append_insert lk l a x : a ∉ l -> append (<[a := x]> lk) l a = append lk l a.
Proof. intros _. unfold append. by rewrite insert_insert_eq. Qed.

Lemma fseg_append lk l a : NoDup (l ++ [a]) -> fseg lk 0 l 0 -> fseg (append lk l a) 0 (l ++ [a]) 0.
Proof.
  intros (N & Ha & _)%NoDup_app H. assert (Hal : a ∉ l) by (intros Hin%Ha; set_solver).
  unfold append. apply fseg_app. destruct l as [|x l _] using rev_ind.
  - split; [done|]. split; [apply lookup_insert_eq|done].
  - rewrite last_snoc. unfold last0. rewrite last_snoc. apply NoDup_app in N as (_ & Hx & _). split.
    + apply (fseg_relast _ _ _ _ 0); [intros Hin%Hx; set_solver|]. by apply fseg_insert.
    + split; [|done]. rewrite lookup_alter_ne by set_solver. apply lookup_insert_eq.
Qed.

(** ** Updates seen through a projection *)

Lemma fmap_alter_same {A B} (p : A -> B) (f : A -> A) (m : gmap Z A) a :
  (forall x, p (f x) = p x) -> p <$> alter f a m = p <$> m.
Proof.
  intros Hf. apply map_eq. intros x. rewrite !lookup_fmap. destruct (decide (a = x)) as [<-|].
  - rewrite lookup_alter_eq. destruct (m !! a); cbn; [by rewrite Hf|done].
  - by rewrite lookup_alter_ne.
Qed.

Lemma fmap_alter_as {A B} (p : A -> B) (f : A -> A) (g : B -> B) (m : gmap Z A) a :
  (forall x, p (f x) = g (p x)) -> p <$> alter f a m = alter g a (p <$> m).
Proof.
  intros Hf. apply map_eq. intros x. rewrite !lookup_fmap. destruct (decide (a = x)) as [<-|].
  - rewrite !lookup_alter_eq, lookup_fmap. destruct (m !! a); cbn; [by rewrite Hf|done].
  - by rewrite !lookup_alter_ne, lookup_fmap.
Qed.

End Dll.
