(* ===== verification/Sync.v ===== *)
(** * Synchronisation primitives ([kernel/sync.c])

    The spinlock, the re-entrant mutex, the counting semaphore and the
    condition variable, in two readings.

    [Sync] has one definition per function of [kernel/sync.c]. A function that
    waits calls [switch_task()]; what the other tasks do to memory while the
    caller is switched out is the argument [yield], indexed by the number of
    switches made so far, and the number of switches the caller is allowed is
    the fuel: [Spin] means that it ran out, not that the call returned.

    [MutexConc] has the mutex under interleaving: a step is one access to
    shared memory by one task. *)

From Stdlib Require Import ZArith Lia.
From stdpp Require Import base tactics option list functions.
From S2P Require Import Prelude.

Set Default Goal Selector "!".
Local Open Scope Z_scope.

(** A place in memory: how to read the object there and how to overwrite it.
    A C pointer to such an object is an [option] of a place, [None] for NULL. *)
Record place (W O : Type) : Type := mk_place {
  view : W -> O;
  upd : O -> W -> W;
}.
Arguments mk_place {W O} _ _.
Arguments view {W O} _ _.
Arguments upd {W O} _ _ _.

Class PlaceOk {W O} (p : place W O) : Prop := {
  view_upd o w : view p (upd p o w) = o;
  upd_view w : upd p (view p w) w = w;
  upd_upd o o' w : upd p o (upd p o' w) = upd p o w;
}.

(** The place of a member of the object at a place. *)
Definition at_field {W O F} (p : place W O) (f : place O F) : place W F :=
  mk_place (fun w => view f (view p w)) (fun x w => upd p (upd f x (view p w)) w).

#[export] Instance at_field_ok {W O F} (p : place W O) (f : place O F)
  `{!PlaceOk p} `{!PlaceOk f} : PlaceOk (at_field p f).
Proof.
  split; intros; unfold at_field; simpl.
  - by rewrite !view_upd.
  - by rewrite !upd_view.
  - by rewrite view_upd, !upd_upd.
Qed.

(** The whole memory as a place of itself. *)
Definition here {W} : place W W := mk_place (fun w => w) (fun o _ => o).
#[export] Instance here_ok {W} : PlaceOk (@here W).
Proof. by split. Qed.

Module Sync.

(** ** Data *)

(** [spinlock_t]: the lock word. *)
Abbreviation spinlock := Z (only parsing).

Record mutex : Type := mk_mutex {
  m_spinlock : spinlock;
  owner_task : Z;
  lock_count : Z;
}.

Record semaphore : Type := mk_semaphore {
  s_spinlock : spinlock;
  s_count : Z;
  max_count : Z;
}.

Record condition : Type := mk_condition {
  c_spinlock : spinlock;
  waiters_count : Z;
}.

Definition mutex_lock_word : place mutex spinlock :=
  mk_place m_spinlock (fun l m => mk_mutex l (owner_task m) (lock_count m)).
Definition sem_lock_word : place semaphore spinlock :=
  mk_place s_spinlock (fun l s => mk_semaphore l (s_count s) (max_count s)).
Definition cond_lock_word : place condition spinlock :=
  mk_place c_spinlock (fun l c => mk_condition l (waiters_count c)).

#[export] Instance mutex_lock_word_ok : PlaceOk mutex_lock_word.
Proof. by split; intros; repeat match goal with m : mutex |- _ => destruct m end. Qed.
#[export] Instance sem_lock_word_ok : PlaceOk sem_lock_word.
Proof. by split; intros; repeat match goal with m : semaphore |- _ => destruct m end. Qed.
#[export] Instance cond_lock_word_ok : PlaceOk cond_lock_word.
Proof. by split; intros; repeat match goal with m : condition |- _ => destruct m end. Qed.

Section Functions.
Context {W : Type}.
(** Memory after the caller's [k]-th [switch_task()]. *)
Context (yield : nat -> W -> W).

(** ** Spinlock *)

Definition spinlock_init (lock : option (place W spinlock)) (w : W) : W :=
  match lock with Some l => upd l 0 w | None => w end.

(** [__sync_lock_test_and_set(&lock->lock, 1)] writes 1 and yields the old value. *)
Definition test_and_set (l : place W spinlock) (w : W) : Z * W := (view l w, upd l 1 w).

(** [k] counts the switches the caller has made. *)
Fixpoint spinlock_acquire (fuel : nat) (lock : option (place W spinlock)) (k : nat) (w : W)
  : outcome (nat * W) :=
  match lock with
  | None => Ret (k, w)
  | Some l =>
      match fuel with
      | O => Spin
      | S f =>
          let '(old, w') := test_and_set l w in
          if truth old then spinlock_acquire f lock (S k) (yield k w')
          else Ret (k, w')
      end
  end.

Definition spinlock_try_acquire (lock : option (place W spinlock)) (w : W) : Z * W :=
  match lock with
  | None => (0, w)
  | Some l => let '(old, w') := test_and_set l w in ((if truth old then 0 else 1), w')
  end.

Definition spinlock_release (lock : option (place W spinlock)) (w : W) : W :=
  match lock with Some l => upd l 0 w | None => w end.

Definition spinlock_is_held (lock : option (place W spinlock)) (w : W) : bool :=
  match lock with Some l => view l w =? 1 | None => false end.

(** ** Mutex *)

Definition mutex_init (mutex : option (place W mutex)) (w : W) : W :=
  match mutex with
  | Some m =>
      let w := spinlock_init (Some (at_field m mutex_lock_word)) w in
      upd m (mk_mutex (m_spinlock (view m w)) (-1) 0) w
  | None => w
  end.

(** The loop of [mutex_lock]: entered and left with the spinlock held. *)
Fixpoint mutex_lock_wait (fuel : nat) (m : place W mutex) (k : nat) (w : W) : outcome (nat * W) :=
  if owner_task (view m w) =? -1 then Ret (k, w)
  else
    match fuel with
    | O => Spin
    | S f =>
        let w := spinlock_release (Some (at_field m mutex_lock_word)) w in
        match spinlock_acquire f (Some (at_field m mutex_lock_word)) (S k) (yield k w) with
        | Ret (k', w') => mutex_lock_wait f m k' w'
        | Spin => Spin
        | Fault => Fault
        end
    end.

Definition mutex_lock (fuel : nat) (current_task_id : Z) (mutex : option (place W mutex))
    (k : nat) (w : W) : outcome (nat * W) :=
  match mutex with
  | None => Ret (k, w)
  | Some m =>
      let o := view m w in
      if owner_task o =? current_task_id
      then Ret (k, upd m (mk_mutex (m_spinlock o) (owner_task o) (to_int (lock_count o + 1))) w)
      else
        match spinlock_acquire fuel (Some (at_field m mutex_lock_word)) k w with
        | Ret (k1, w1) =>
            match mutex_lock_wait fuel m k1 w1 with
            | Ret (k2, w2) =>
                let w3 := upd m (mk_mutex (m_spinlock (view m w2)) current_task_id 1) w2 in
                Ret (k2, spinlock_release (Some (at_field m mutex_lock_word)) w3)
            | Spin => Spin
            | Fault => Fault
            end
        | Spin => Spin
        | Fault => Fault
        end
  end.

Definition mutex_try_lock (current_task_id : Z) (mutex : option (place W mutex)) (w : W) : Z * W :=
  match mutex with
  | None => (0, w)
  | Some m =>
      let o := view m w in
      if owner_task o =? current_task_id
      then (1, upd m (mk_mutex (m_spinlock o) (owner_task o) (to_int (lock_count o + 1))) w)
      else
        let '(got, w1) := spinlock_try_acquire (Some (at_field m mutex_lock_word)) w in
        if negb (truth got) then (0, w1)
        else
          let '(result, w2) :=
            if owner_task (view m w1) =? -1
            then (1, upd m (mk_mutex (m_spinlock (view m w1)) current_task_id 1) w1)
            else (0, w1) in
          (result, spinlock_release (Some (at_field m mutex_lock_word)) w2)
  end.

Definition mutex_unlock (fuel : nat) (current_task_id : Z) (mutex : option (place W mutex))
    (k : nat) (w : W) : outcome (nat * W) :=
  match mutex with
  | None => Ret (k, w)
  | Some m =>
      if negb (owner_task (view m w) =? current_task_id) then Ret (k, w)
      else
        match spinlock_acquire fuel (Some (at_field m mutex_lock_word)) k w with
        | Ret (k1, w1) =>
            let o := view m w1 in
            let n := to_int (lock_count o - 1) in
            let w2 := upd m (mk_mutex (m_spinlock o)
                               (if n =? 0 then -1 else owner_task o) n) w1 in
            Ret (k1, spinlock_release (Some (at_field m mutex_lock_word)) w2)
        | Spin => Spin
        | Fault => Fault
        end
  end.

(** ** Semaphore *)

Definition semaphore_init (sem : option (place W semaphore)) (initial_count maxc : Z) (w : W) : W :=
  match sem with
  | Some s =>
      let w := spinlock_init (Some (at_field s sem_lock_word)) w in
      upd s (mk_semaphore (s_spinlock (view s w)) initial_count maxc) w
  | None => w
  end.

Definition sem_add (s : place W semaphore) (d : Z) (w : W) : W :=
  let o := view s w in
  upd s (mk_semaphore (s_spinlock o) (s_count o + d) (max_count o)) w.

Fixpoint semaphore_wait (fuel : nat) (sem : option (place W semaphore)) (k : nat) (w : W)
  : outcome (nat * W) :=
  match sem with
  | None => Ret (k, w)
  | Some s =>
      match fuel with
      | O => Spin
      | S f =>
          match spinlock_acquire fuel (Some (at_field s sem_lock_word)) k w with
          | Ret (k1, w1) =>
              if 0 <? s_count (view s w1)
              then Ret (k1, spinlock_release (Some (at_field s sem_lock_word)) (sem_add s (-1) w1))
              else semaphore_wait f sem (S k1)
                     (yield k1 (spinlock_release (Some (at_field s sem_lock_word)) w1))
          | Spin => Spin
          | Fault => Fault
          end
      end
  end.

Definition semaphore_try_wait (fuel : nat) (sem : option (place W semaphore)) (k : nat) (w : W)
  : outcome (nat * (Z * W)) :=
  match sem with
  | None => Ret (k, (0, w))
  | Some s =>
      match spinlock_acquire fuel (Some (at_field s sem_lock_word)) k w with
      | Ret (k1, w1) =>
          if 0 <? s_count (view s w1)
          then Ret (k1, (1, spinlock_release (Some (at_field s sem_lock_word)) (sem_add s (-1) w1)))
          else Ret (k1, (0, spinlock_release (Some (at_field s sem_lock_word)) w1))
      | Spin => Spin
      | Fault => Fault
      end
  end.

Definition semaphore_signal (fuel : nat) (sem : option (place W semaphore)) (k : nat) (w : W)
  : outcome (nat * W) :=
  match sem with
  | None => Ret (k, w)
  | Some s =>
      match spinlock_acquire fuel (Some (at_field s sem_lock_word)) k w with
      | Ret (k1, w1) =>
          let w2 := if s_count (view s w1) <? max_count (view s w1)
                    then sem_add s 1 w1 else w1 in
          Ret (k1, spinlock_release (Some (at_field s sem_lock_word)) w2)
      | Spin => Spin
      | Fault => Fault
      end
  end.

(** ** Condition variable *)

Definition condition_init (cond : option (place W condition)) (w : W) : W :=
  match cond with
  | Some c =>
      let w := spinlock_init (Some (at_field c cond_lock_word)) w in
      upd c (mk_condition (c_spinlock (view c w)) 0) w
  | None => w
  end.

Definition cond_set (c : place W condition) (n : Z) (w : W) : W :=
  upd c (mk_condition (c_spinlock (view c w)) n) w.

(** The polling loop of [condition_wait]. *)
Fixpoint condition_poll (fuel : nat) (c : place W condition) (k : nat) (w : W) : outcome (nat * W) :=
  match fuel with
  | O => Spin
  | S f =>
      match spinlock_acquire fuel (Some (at_field c cond_lock_word)) k w with
      | Ret (k1, w1) =>
          let is_signaled := waiters_count (view c w1) <? 1 in
          let w2 := spinlock_release (Some (at_field c cond_lock_word)) w1 in
          if is_signaled then Ret (k1, w2) else condition_poll f c (S k1) (yield k1 w2)
      | Spin => Spin
      | Fault => Fault
      end
  end.

Definition condition_wait (fuel : nat) (current_task_id : Z) (cond : option (place W condition))
    (mutex : option (place W mutex)) (k : nat) (w : W) : outcome (nat * W) :=
  match cond, mutex with
  | Some c, Some m =>
      match spinlock_acquire fuel (Some (at_field c cond_lock_word)) k w with
      | Ret (k1, w1) =>
          let w2 := cond_set c (waiters_count (view c w1) + 1) w1 in
          let w3 := spinlock_release (Some (at_field c cond_lock_word)) w2 in
          match mutex_unlock fuel current_task_id mutex k1 w3 with
          | Ret (k4, w4) =>
              match condition_poll fuel c k4 w4 with
              | Ret (k5, w5) => mutex_lock fuel current_task_id mutex k5 w5
              | Spin => Spin
              | Fault => Fault
              end
          | Spin => Spin
          | Fault => Fault
          end
      | Spin => Spin
      | Fault => Fault
      end
  | _, _ => Ret (k, w)
  end.

Definition condition_signal (fuel : nat) (cond : option (place W condition)) (k : nat) (w : W)
  : outcome (nat * W) :=
  match cond with
  | None => Ret (k, w)
  | Some c =>
      match spinlock_acquire fuel (Some (at_field c cond_lock_word)) k w with
      | Ret (k1, w1) =>
          let n := waiters_count (view c w1) in
          let w2 := if 0 <? n then cond_set c (n - 1) w1 else w1 in
          Ret (k1, spinlock_release (Some (at_field c cond_lock_word)) w2)
      | Spin => Spin
      | Fault => Fault
      end
  end.

Definition condition_broadcast (fuel : nat) (cond : option (place W condition)) (k : nat) (w : W)
  : outcome (nat * W) :=
  match cond with
  | None => Ret (k, w)
  | Some c =>
      match spinlock_acquire fuel (Some (at_field c cond_lock_word)) k w with
      | Ret (k1, w1) =>
          Ret (k1, spinlock_release (Some (at_field c cond_lock_word)) (cond_set c 0 w1))
      | Spin => Spin
      | Fault => Fault
      end
  end.

(** ** The lock as its clients use it

    A client that runs with no other task touching its lock: [acquire] takes a
    free lock and spins on a held one, [release] frees it. *)

Definition acquire (l : place W spinlock) : M W unit := fun w =>
  if truth (view l w) then Spin else Ret (tt, upd l 1 w).

Definition release (l : place W spinlock) : M W unit := modify (upd l 0).

End Functions.

(** ** Facts about the spinlock *)

Section Facts.
Context {W : Type} (yield : nat -> W -> W).

(** Memory when a task that started to acquire at [w], with [k] switches behind
    it, makes its attempt number [n]. *)
Fixpoint attempt (l : place W spinlock) (k : nat) (w : W) (n : nat) : W :=
  match n with
  | O => w
  | S n' => attempt l (S k) (yield k (upd l 1 w)) n'
  end.

(** C33. [spinlock_acquire] returns within its allowance of switches exactly when
    one of its attempts finds the lock word zero, at the first such attempt and
    with the lock taken: it neither misses a release nor returns early. *)
Theorem spinlock_acquire_returns fuel l k w k' w' :
  spinlock_acquire yield fuel (Some l) k w = Ret (k', w') <->
  exists n, (n < fuel)%nat /\ k' = (k + n)%nat /\ w' = upd l 1 (attempt l k w n) /\
    view l (attempt l k w n) = 0 /\ forall i, (i < n)%nat -> view l (attempt l k w i) <> 0.
Proof.
  revert k w. induction fuel as [|f IH]; intros k w; cbn [spinlock_acquire].
  { split; [done|]. intros (n & ? & _). lia. }
  unfold test_and_set. destruct (truth (view l w)) eqn:E; bools.
  - rewrite IH. split.
    + intros (n & ? & -> & -> & ? & Hi). exists (S n). repeat split; try done; try lia.
      intros [|i] ?; [done|]. apply Hi. lia.
    + intros ([|n] & ? & -> & -> & H0 & Hi); [done|].
      exists n. repeat split; try done; try lia. intros i ?. apply (Hi (S i)). lia.
  - split.
    + intros [= <- <-]. exists 0%nat. repeat split; try done; lia.
    + intros ([|n] & ? & -> & -> & H0 & Hi); [by rewrite Nat.add_0_r|].
      destruct (Hi 0%nat); [lia|done].
Qed.

Lemma spinlock_acquire_free fuel l k w :
  (0 < fuel)%nat -> view l w = 0 ->
  spinlock_acquire yield fuel (Some l) k w = Ret (k, upd l 1 w).
Proof.
  destruct fuel; [lia|]. intros _ H. cbn [spinlock_acquire].
  unfold test_and_set. by rewrite H.
Qed.

End Facts.

#[export] Hint Rewrite @view_upd @upd_upd @upd_view using typeclasses eauto : kernel.

(** With no other task running, the loop of [spinlock_acquire] is [acquire]. *)
Lemma acquire_alone {W} (l : place W spinlock) `{!PlaceOk l} fuel k w :
  (0 < fuel)%nat ->
  spinlock_acquire (fun _ w => w) fuel (Some l) k w =
  match acquire l w with
  | Ret (_, w') => Ret (k, w')
  | Spin => Spin
  | Fault => Fault
  end.
Proof.
  intros Hf. unfold acquire. destruct (truth (view l w)) eqn:E.
  - clear Hf. revert k w E. induction fuel as [|f IH]; intros k w E; [done|].
    cbn [spinlock_acquire]. unfold test_and_set. rewrite E. apply IH.
    by rewrite view_upd.
  - bools. by rewrite spinlock_acquire_free.
Qed.

Lemma wp_acquire {W} (l : place W spinlock) Q w :
  view l w = 0 -> Q tt (upd l 1 w) -> wp (acquire l) Q w.
Proof. unfold wp, acquire. intros E HQ. by rewrite E. Qed.

Lemma wp_release {W} (l : place W spinlock) Q w :
  wp (release l) Q w <-> Q tt (upd l 0 w).
Proof. done. Qed.

(** ** Facts about the mutex *)

Section MutexFacts.
Context {W : Type} (yield : nat -> W -> W) (m : place W mutex) `{!PlaceOk m}.

Lemma view_lock_word (o : mutex) w :
  view (at_field m mutex_lock_word) (upd m o w) = m_spinlock o.
Proof. unfold at_field; simpl. by rewrite view_upd. Qed.

Lemma upd_lock_word (o : mutex) l w :
  upd (at_field m mutex_lock_word) l (upd m o w) = upd m (mk_mutex l (owner_task o) (lock_count o)) w.
Proof. unfold at_field; simpl. by rewrite view_upd, upd_upd. Qed.

Lemma upd_lock_word_at l w :
  upd (at_field m mutex_lock_word) l w = upd m (mk_mutex l (owner_task (view m w)) (lock_count (view m w))) w.
Proof. done. Qed.

Lemma mutex_lock_free fuel t k w :
  (0 < fuel)%nat -> t <> -1 -> m_spinlock (view m w) = 0 -> owner_task (view m w) = -1 ->
  mutex_lock yield fuel t (Some m) k w = Ret (k, upd m (mk_mutex 0 t 1) w).
Proof.
  intros Hf Ht Hl Ho. unfold mutex_lock. rewrite Ho.
  destruct (Z.eqb_spec (-1) t); [lia|].
  rewrite spinlock_acquire_free by done. rewrite upd_lock_word_at.
  assert (forall f k w', owner_task (view m w') = -1 ->
    mutex_lock_wait yield f m k w' = Ret (k, w')) as Hw.
  { intros [|f'] k' w' Hw'; cbn [mutex_lock_wait]; by rewrite Hw'. }
  rewrite Hw by (rewrite view_upd; done). cbn [spinlock_release].
  by rewrite upd_lock_word, view_upd, upd_upd.
Qed.

Lemma mutex_lock_again fuel t k w :
  owner_task (view m w) = t ->
  mutex_lock yield fuel t (Some m) k w =
  Ret (k, upd m (mk_mutex (m_spinlock (view m w)) t (to_int (lock_count (view m w) + 1))) w).
Proof. intros <-. unfold mutex_lock. by rewrite Z.eqb_refl. Qed.

Lemma mutex_unlock_owner fuel t k w :
  (0 < fuel)%nat -> m_spinlock (view m w) = 0 -> owner_task (view m w) = t -> 0 < lock_count (view m w) < 2 ^ 31 ->
  mutex_unlock yield fuel t (Some m) k w =
  Ret (k, upd m (mk_mutex 0 (if lock_count (view m w) =? 1 then -1 else t)
                   (lock_count (view m w) - 1)) w).
Proof.
  intros Hf Hl Ho Hc. unfold mutex_unlock. rewrite Ho, Z.eqb_refl. cbn [negb].
  rewrite spinlock_acquire_free by done. rewrite upd_lock_word_at.
  cbn [spinlock_release]. rewrite !view_upd, upd_lock_word, upd_upd. simpl.
  rewrite Ho, to_int_small by lia. destruct (Z.eqb_spec (lock_count (view m w) - 1) 0),
    (Z.eqb_spec (lock_count (view m w)) 1); (lia || done).
Qed.

(** [n] calls of [mutex_lock], or of [mutex_unlock], in a row. *)
Fixpoint calls (f : nat -> W -> outcome (nat * W)) (n : nat) (k : nat) (w : W) : outcome (nat * W) :=
  match n with
  | O => Ret (k, w)
  | S n' =>
      match f k w with
      | Ret (k', w') => calls f n' k' w'
      | Spin => Spin
      | Fault => Fault
      end
  end.

Lemma calls_S f n k w :
  calls f (S n) k w =
  match f k w with Ret (k', w') => calls f n k' w' | Spin => Spin | Fault => Fault end.
Proof. done. Qed.

Lemma mutex_lock_calls fuel t n k w :
  owner_task (view m w) = t -> 0 <= lock_count (view m w) -> lock_count (view m w) + Z.of_nat n < 2 ^ 31 ->
  calls (mutex_lock yield fuel t (Some m)) n k w =
  Ret (k, upd m (mk_mutex (m_spinlock (view m w)) t (lock_count (view m w) + Z.of_nat n)) w).
Proof.
  revert w. induction n as [|n IH]; intros w Ho H0 Hn; cbn [calls].
  - rewrite <- Ho, Z.add_0_r. do 2 f_equal.
    destruct (view m w) eqn:E. simpl. by rewrite <- E, upd_view.
  - rewrite mutex_lock_again, to_int_small by (done || lia). rewrite IH by (rewrite view_upd; simpl; done || lia).
    rewrite view_upd, upd_upd. simpl. do 4 f_equal. lia.
Qed.

Lemma mutex_unlock_calls fuel t n k w :
  (0 < fuel)%nat -> t <> -1 -> m_spinlock (view m w) = 0 -> owner_task (view m w) = t ->
  lock_count (view m w) = Z.of_nat (S n) -> Z.of_nat (S n) < 2 ^ 31 ->
  calls (mutex_unlock yield fuel t (Some m)) (S n) k w = Ret (k, upd m (mk_mutex 0 (-1) 0) w).
Proof.
  intros Hf Ht. revert w. induction n as [|n IH]; intros w Hl Ho Hc Hb.
  - cbn [calls]. rewrite mutex_unlock_owner by (done || lia). by rewrite Hc.
  - rewrite calls_S, mutex_unlock_owner by (done || lia). rewrite Hc.
    destruct (Z.eqb_spec (Z.of_nat (S (S n))) 1); [lia|].
    rewrite IH by (rewrite ?view_upd; simpl; (done || lia)).
    by rewrite upd_upd.
Qed.

End MutexFacts.

(** ** Properties *)

(** Nested locking is undone by as many unlocks: on a free mutex, [n + 1 < 2^31]
    calls of [mutex_lock] by one task return with [lock_count = n + 1], and
    [n + 1] calls of [mutex_unlock] then give back the free mutex, whatever the
    other tasks do while the caller is switched out (it never is). *)
Theorem mutex_nesting_roundtrip {W} (yield : nat -> W -> W) (m : place W mutex) `{!PlaceOk m}
    fuel t n k w :
  (0 < fuel)%nat -> t <> -1 -> Z.of_nat (S n) < 2 ^ 31 -> view m w = mk_mutex 0 (-1) 0 ->
  exists w', calls (mutex_lock yield fuel t (Some m)) (S n) k w = Ret (k, w') /\
    view m w' = mk_mutex 0 t (Z.of_nat (S n)) /\
    calls (mutex_unlock yield fuel t (Some m)) (S n) k w' = Ret (k, w).
Proof.
  intros Hf Ht Hb Hm. rewrite calls_S, mutex_lock_free by (done || by rewrite Hm).
  rewrite mutex_lock_calls by (rewrite ?view_upd; simpl; done || lia).
  rewrite view_upd, upd_upd. simpl m_spinlock. simpl lock_count.
  eexists; split; [done|]. rewrite view_upd. split; [f_equal; lia|].
  rewrite mutex_unlock_calls; rewrite ?view_upd; simpl; try done; [|lia..].
  by rewrite upd_upd, <- Hm, upd_view.
Qed.

Lemma mutex_nesting_roundtrip_witness :
  exists w', calls (mutex_lock (fun _ w => w) 1 7 (Some here)) 3 0 (mk_mutex 0 (-1) 0) = Ret (0%nat, w') /\
    view here w' = mk_mutex 0 7 3 /\
    calls (mutex_unlock (fun _ w => w) 1 7 (Some here)) 3 0 w' = Ret (0%nat, mk_mutex 0 (-1) 0).
Proof. apply (mutex_nesting_roundtrip (fun _ w => w) here 1 7 2 0); [lia|lia|lia|reflexivity]. Defined.

(** A task that does not own the mutex cannot disturb it: while another task
    owns it, [mutex_unlock] returns and [mutex_try_lock] returns 0, and both
    leave memory as it was. *)
Theorem mutex_foreign_task {W} (yield : nat -> W -> W) (m : place W mutex) `{!PlaceOk m}
    fuel t k w :
  m_spinlock (view m w) = 0 \/ m_spinlock (view m w) = 1 ->
  owner_task (view m w) <> t -> owner_task (view m w) <> -1 ->
  mutex_unlock yield fuel t (Some m) k w = Ret (k, w) /\
  mutex_try_lock t (Some m) w = (0, w).
Proof.
  intros Hl Ht Ho. apply Z.eqb_neq in Ht, Ho. unfold mutex_unlock, mutex_try_lock.
  rewrite Ht. split; [done|]. unfold spinlock_try_acquire, test_and_set.
  rewrite !upd_lock_word_at. unfold at_field; simpl.
  destruct Hl as [Hl|Hl]; rewrite Hl; simpl.
  - rewrite view_upd; simpl. rewrite Ho, view_upd, upd_upd; simpl.
    rewrite <- Hl. by destruct (view m w) eqn:E; simpl; rewrite <- E, upd_view.
  - rewrite <- Hl. by destruct (view m w) eqn:E; simpl; rewrite <- E, upd_view.
Qed.

Lemma mutex_foreign_task_witness :
  mutex_unlock (fun _ w => w) 1 4 (Some here) 0 (mk_mutex 0 9 2) = Ret (0%nat, mk_mutex 0 9 2) /\
  mutex_try_lock 4 (Some here) (mk_mutex 0 9 2) = (0, mk_mutex 0 9 2).
Proof. apply (mutex_foreign_task (fun _ w => w) here); simpl; lia. Defined.

(** A sequence of semaphore operations, each run to its end, and the number of
    waits it granted. *)
Inductive sem_op : Type := SemTryWait | SemSignal.

Fixpoint sem_run {W} (yield : nat -> W -> W) (fuel : nat) (s : place W semaphore) (ops : list sem_op)
    (granted : Z) (w : W) : outcome (Z * W) :=
  match ops with
  | [] => Ret (granted, w)
  | SemTryWait :: ops' =>
      match semaphore_try_wait yield fuel (Some s) 0 w with
      | Ret (_, (r, w')) => sem_run yield fuel s ops' (granted + r) w'
      | Spin => Spin
      | Fault => Fault
      end
  | SemSignal :: ops' =>
      match semaphore_signal yield fuel (Some s) 0 w with
      | Ret (_, w') => sem_run yield fuel s ops' granted w'
      | Spin => Spin
      | Fault => Fault
      end
  end.

Fixpoint signals (ops : list sem_op) : Z :=
  match ops with
  | [] => 0
  | SemTryWait :: ops' => signals ops'
  | SemSignal :: ops' => 1 + signals ops'
  end.

Lemma signals_nonneg ops : 0 <= signals ops.
Proof. induction ops as [|[|] ops IH]; simpl; lia. Qed.

Lemma semaphore_try_wait_free {W} (yield : nat -> W -> W) (s : place W semaphore) `{!PlaceOk s}
    fuel k w c mx :
  (0 < fuel)%nat -> view s w = mk_semaphore 0 c mx ->
  semaphore_try_wait yield fuel (Some s) k w =
  Ret (k, if 0 <? c then (1, upd s (mk_semaphore 0 (c - 1) mx) w) else (0, w)).
Proof.
  intros Hf Hs. unfold semaphore_try_wait.
  rewrite spinlock_acquire_free by (done || by unfold at_field; simpl; rewrite Hs).
  unfold at_field, sem_add, spinlock_release; simpl. rewrite view_upd, Hs; simpl.
  destruct (0 <? c); rewrite ?view_upd, ?upd_upd; simpl; [done|].
  by rewrite <- Hs, upd_view.
Qed.

Lemma semaphore_signal_free {W} (yield : nat -> W -> W) (s : place W semaphore) `{!PlaceOk s}
    fuel k w c mx :
  (0 < fuel)%nat -> view s w = mk_semaphore 0 c mx ->
  semaphore_signal yield fuel (Some s) k w =
  Ret (k, if c <? mx then upd s (mk_semaphore 0 (c + 1) mx) w else w).
Proof.
  intros Hf Hs. unfold semaphore_signal.
  rewrite spinlock_acquire_free by (done || by unfold at_field; simpl; rewrite Hs).
  unfold at_field, sem_add, spinlock_release; simpl. rewrite view_upd, Hs; simpl.
  destruct (c <? mx); rewrite ?view_upd, ?upd_upd; simpl; rewrite ?view_upd; [done|]; simpl.
  by rewrite <- Hs, upd_view.
Qed.

(** Permits are conserved: any sequence of [semaphore_try_wait] and
    [semaphore_signal] calls returns, keeps [0 <= count <= max_count], never
    grants more waits than the initial count and the signals together, and
    loses none when the count does not reach its maximum. *)
Theorem semaphore_permits {W} (yield : nat -> W -> W) (s : place W semaphore) `{!PlaceOk s}
    fuel ops c mx w :
  (0 < fuel)%nat -> 0 <= c <= mx -> view s w = mk_semaphore 0 c mx ->
  exists granted c' w',
    sem_run yield fuel s ops 0 w = Ret (granted, w') /\ view s w' = mk_semaphore 0 c' mx /\
    0 <= c' <= mx /\ 0 <= granted /\ granted + c' <= c + signals ops /\
    (c + signals ops <= mx -> granted + c' = c + signals ops).
Proof.
  intros Hf. assert (forall g, 0 <= c <= mx -> view s w = mk_semaphore 0 c mx ->
    exists granted c' w', sem_run yield fuel s ops g w = Ret (g + granted, w') /\
      view s w' = mk_semaphore 0 c' mx /\ 0 <= c' <= mx /\ 0 <= granted /\
      granted + c' <= c + signals ops /\
      (c + signals ops <= mx -> granted + c' = c + signals ops)) as Hgen.
  { revert c w. induction ops as [|[|] ops IH]; intros c w g Hc Hs; cbn [sem_run signals].
    - exists 0, c, w. repeat split; try done; try lia.
      do 3 f_equal; lia.
    - rewrite (semaphore_try_wait_free yield s fuel 0 w c mx) by done.
      destruct (Z.ltb_spec 0 c).
      + destruct (IH (c - 1) (upd s (mk_semaphore 0 (c - 1) mx) w) (g + 1))
          as (gr & c' & w' & E & ? & ? & ? & ? & ?); [lia|by rewrite view_upd|].
        exists (1 + gr), c', w'. rewrite E. repeat split; try done; try lia. do 2 f_equal. lia.
      + destruct (IH c w (g + 0)) as (gr & c' & w' & E & ? & ? & ? & ? & ?); [lia|done|].
        exists gr, c', w'. rewrite E. repeat split; try done; try lia. do 2 f_equal. lia.
    - rewrite (semaphore_signal_free yield s fuel 0 w c mx) by done.
      destruct (Z.ltb_spec c mx).
      + destruct (IH (c + 1) (upd s (mk_semaphore 0 (c + 1) mx) w) g)
          as (gr & c' & w' & E & ? & ? & ? & ? & ?); [lia|by rewrite view_upd|].
        exists gr, c', w'. rewrite E. repeat split; try done; lia.
      + destruct (IH c w g) as (gr & c' & w' & E & ? & ? & ? & ? & ?); [lia|done|].
        exists gr, c', w'. rewrite E. repeat split; try done; try lia.
        intros. pose proof (signals_nonneg ops). lia. }
  intros Hc Hs. destruct (Hgen 0 Hc Hs) as (gr & c' & w' & ?). eauto.
Qed.

Lemma semaphore_permits_witness :
  exists granted c' w',
    sem_run (fun _ w => w) 1 here [SemTryWait; SemTryWait; SemSignal; SemTryWait] 0 (mk_semaphore 0 1 3)
      = Ret (granted, w') /\ view here w' = mk_semaphore 0 c' 3 /\
    0 <= c' <= 3 /\ 0 <= granted /\
    granted + c' <= 1 + signals [SemTryWait; SemTryWait; SemSignal; SemTryWait] /\
    (1 + signals [SemTryWait; SemTryWait; SemSignal; SemTryWait] <= 3 ->
     granted + c' = 1 + signals [SemTryWait; SemTryWait; SemSignal; SemTryWait]).
Proof. apply (semaphore_permits (fun _ w => w) here); [lia|lia|reflexivity]. Defined.

(** A waiter that polls while no other task runs. *)
Lemma condition_poll_alone {W} (c : place W condition) `{!PlaceOk c} fuel k w n :
  (0 < fuel)%nat -> view c w = mk_condition 0 n ->
  condition_poll (fun _ w => w) fuel c k w = if n <? 1 then Ret (k, w) else Spin.
Proof.
  intros Hf Hc. revert k. induction fuel as [|f IH]; intros k; [lia|].
  cbn [condition_poll].
  rewrite spinlock_acquire_free by (lia || by unfold at_field; simpl; rewrite Hc).
  unfold at_field, spinlock_release; simpl. rewrite view_upd, upd_upd, Hc; simpl.
  rewrite <- Hc, upd_view. destruct (n <? 1) eqn:E; [done|].
  destruct f as [|f]; [done|]. apply IH. lia.
Qed.

(** What one [condition_signal] does when [n + 1] tasks wait: it returns with
    [n] in [waiters_count], and a waiting task that polls then leaves its loop
    exactly when [n = 0]. With two or more waiters no task is woken, the loop
    tests whether the shared count has reached zero and not whether the signal
    was for the caller; [condition_broadcast] always lets it leave. *)
Theorem condition_signal_wakes_last_only {W} (yield : nat -> W -> W) (c : place W condition)
    `{!PlaceOk c} fuel k w n :
  (0 < fuel)%nat -> 0 <= n -> view c w = mk_condition 0 (n + 1) ->
  (exists w', condition_signal yield fuel (Some c) k w = Ret (k, w') /\
     view c w' = mk_condition 0 n /\
     condition_poll (fun _ w => w) fuel c k w' = if n <? 1 then Ret (k, w') else Spin) /\
  (exists w', condition_broadcast yield fuel (Some c) k w = Ret (k, w') /\
     view c w' = mk_condition 0 0 /\
     condition_poll (fun _ w => w) fuel c k w' = Ret (k, w')).
Proof.
  intros Hf Hn Hc. unfold condition_signal, condition_broadcast.
  rewrite spinlock_acquire_free by (done || by unfold at_field; simpl; rewrite Hc).
  unfold at_field, spinlock_release, cond_set; simpl. rewrite !view_upd, Hc; simpl.
  destruct (Z.ltb_spec 0 (n + 1)); [|lia]. rewrite ?view_upd, ?upd_upd; simpl.
  replace (n + 1 - 1) with n by lia.
  split; eexists; (split; [done|]); (split; [by rewrite view_upd|]).
  - rewrite (condition_poll_alone c fuel k _ n); [done|done|]. by rewrite view_upd.
  - rewrite (condition_poll_alone c fuel k _ 0); [done|done|]. by rewrite view_upd.
Qed.

Lemma condition_signal_wakes_last_only_witness :
  (exists w', condition_signal (fun _ w => w) 5 (Some here) 0 (mk_condition 0 2) = Ret (0%nat, w') /\
     view here w' = mk_condition 0 1 /\
     condition_poll (fun _ w => w) 5 here 0 w' = Spin) /\
  (exists w', condition_broadcast (fun _ w => w) 5 (Some here) 0 (mk_condition 0 2) = Ret (0%nat, w') /\
     view here w' = mk_condition 0 0 /\
     condition_poll (fun _ w => w) 5 here 0 w' = Ret (0%nat, w')).
Proof.
  apply (condition_signal_wakes_last_only (fun _ w => w) here 5 0 (mk_condition 0 2) 1);
    [lia|lia|reflexivity].
Defined.

End Sync.

(** * The mutex under interleaving *)

Module MutexConc.
Import Sync.

(** Where a task stands in [mutex_lock] or [mutex_unlock]; the shared access it
    is about to make is in the comment. [n] is how many [mutex_lock] calls of
    this task its [mutex_unlock] calls have not yet undone. *)
Inductive pc : Type :=
| Out               (** outside, not holding the mutex *)
| In (n : nat)      (** outside, holding the mutex *)
| LTest (n : nat)   (** lock: read [owner_task] *)
| LInc (n : nat)    (** lock: [lock_count++], already the owner *)
| LAcq              (** lock: test-and-set the spinlock *)
| LCheck            (** lock: read [owner_task] under the spinlock *)
| LBack             (** lock: owned, release the spinlock before waiting *)
| LTake             (** lock: [owner_task = current_task_id] *)
| LCount            (** lock: [lock_count = 1] *)
| LRel              (** lock: release the spinlock and return *)
| UTest (n : nat)   (** unlock: read [owner_task] *)
| UAcq (n : nat)    (** unlock: test-and-set the spinlock *)
| UDec (n : nat)    (** unlock: [lock_count--] *)
| UZero (n : nat)   (** unlock: test [lock_count == 0] *)
| UFree             (** unlock: [owner_task = -1] *)
| URel (n : nat).   (** unlock: release the spinlock and return *)

Record conf : Type := mk_conf {
  shared : mutex;
  pcs : Z -> pc;
}.

Definition outside (n : nat) : pc := match n with O => Out | S _ => In n end.

Definition set_lock (l : Z) (m : mutex) : mutex := mk_mutex l (owner_task m) (lock_count m).
Definition set_owner (o : Z) (m : mutex) : mutex := mk_mutex (m_spinlock m) o (lock_count m).
Definition set_count (c : Z) (m : mutex) : mutex := mk_mutex (m_spinlock m) (owner_task m) c.

(** One access by task [t], standing at the first [pc]. *)
Inductive move (t : Z) : pc -> mutex -> pc -> mutex -> Prop :=
| call_lock_out m : move t Out m (LTest 0) m
| call_lock_in n m : move t (In n) m (LTest n) m
| call_unlock_out m : move t Out m (UTest 0) m
| call_unlock_in n m : move t (In n) m (UTest n) m
| l_test_own n m : owner_task m = t -> move t (LTest n) m (LInc n) m
| l_test_other n m : owner_task m <> t -> move t (LTest n) m LAcq m
| l_inc n m : move t (LInc n) m (In (S n)) (set_count (to_int (lock_count m + 1)) m)
| l_acq m : m_spinlock m = 0 -> move t LAcq m LCheck (set_lock 1 m)
| l_acq_busy m : m_spinlock m <> 0 -> move t LAcq m LAcq (set_lock 1 m)
| l_check_free m : owner_task m = -1 -> move t LCheck m LTake m
| l_check_owned m : owner_task m <> -1 -> move t LCheck m LBack m
| l_back m : move t LBack m LAcq (set_lock 0 m)
| l_take m : move t LTake m LCount (set_owner t m)
| l_count m : move t LCount m LRel (set_count 1 m)
| l_rel m : move t LRel m (In 1) (set_lock 0 m)
| u_test_other n m : owner_task m <> t -> move t (UTest n) m (outside n) m
| u_test_own n m : owner_task m = t -> move t (UTest n) m (UAcq n) m
| u_acq n m : m_spinlock m = 0 -> move t (UAcq n) m (UDec n) (set_lock 1 m)
| u_acq_busy n m : m_spinlock m <> 0 -> move t (UAcq n) m (UAcq n) (set_lock 1 m)
| u_dec n m : move t (UDec n) m (UZero n) (set_count (to_int (lock_count m - 1)) m)
| u_zero n m : lock_count m = 0 -> move t (UZero n) m UFree m
| u_nonzero n m : lock_count m <> 0 -> move t (UZero n) m (URel (pred n)) m
| u_free m : move t UFree m (URel 0) (set_owner (-1) m)
| u_rel n m : move t (URel n) m (outside n) (set_lock 0 m).

(** The number of calls a task has nested. *)
Definition depth (p : pc) : nat :=
  match p with
  | In n | LTest n | LInc n | UTest n | UAcq n | UDec n | UZero n | URel n => n
  | _ => 0
  end.

(** Any task may move next; task identifiers are not negative. [lock_count] is an [int]:
    a task that nests 2^31 calls makes it overflow, which C leaves undefined, and is left
    out here. *)
Inductive step : conf -> conf -> Prop :=
| step_task t m p f m' :
    0 <= t -> Z.of_nat (depth p) < 2 ^ 31 -> move t (f t) m p m' -> step (mk_conf m f) (mk_conf m' (<[t := p]> f)).

(** After [mutex_init], no task inside. *)
Definition init (c : conf) : Prop :=
  shared c = mk_mutex 0 (-1) 0 /\ forall t, pcs c t = Out.

(** ** Invariant *)

(** The task is the owner of record at this point. *)
Definition owns (p : pc) : bool :=
  match p with
  | In _ | LInc _ | LCount | LRel | UAcq _ | UDec _ | UZero _ | UFree => true
  | LTest n | UTest n | URel n => match n with O => false | S _ => true end
  | Out | LAcq | LCheck | LBack | LTake => false
  end.

(** The task is between its test-and-set and its release. *)
Definition in_crit (p : pc) : bool :=
  match p with
  | LCheck | LBack | LTake | LCount | LRel | UDec _ | UZero _ | UFree | URel _ => true
  | _ => false
  end.

(** What an owner standing here knows of [lock_count]. *)
Definition counts (p : pc) (c : Z) : Prop :=
  match p with
  | In n | LInc n | UAcq n | UDec n => c = Z.of_nat n /\ (0 < n)%nat
  | UZero n => c = Z.of_nat n - 1 /\ (0 < n)%nat
  | LTest n | UTest n | URel n => (0 < n)%nat -> c = Z.of_nat n
  | LRel => c = 1
  | UFree => c = 0
  | Out | LAcq | LCheck | LBack | LTake | LCount => True
  end.

Record inv (c : conf) : Prop := {
  inv_owner t : 0 <= t -> (owns (pcs c t) = true <-> owner_task (shared c) = t);
  inv_neg t : t < 0 -> pcs c t = Out;
  inv_crit t : in_crit (pcs c t) = true -> m_spinlock (shared c) = 1;
  inv_one t t' : in_crit (pcs c t) = true -> in_crit (pcs c t') = true -> t = t';
  inv_take t : pcs c t = LTake -> owner_task (shared c) = -1;
  inv_count t : counts (pcs c t) (lock_count (shared c));
  inv_depth t : Z.of_nat (depth (pcs c t)) < 2 ^ 31;
}.

Lemma inv_init c : init c -> inv c.
Proof.
  intros [Hm Hp]. split; intros *; rewrite ?Hp, ?Hm; simpl; try done.
  split; [done|lia].
Qed.

(** What a move does to the mover's own facts. *)
Lemma move_local t q m p m' :
  move t q m p m' -> 0 <= t -> Z.of_nat (depth q) < 2 ^ 31 -> Z.of_nat (depth p) < 2 ^ 31 ->
  (owns q = true <-> owner_task m = t) -> (q = LTake -> owner_task m = -1) ->
  counts q (lock_count m) ->
  (owns p = true <-> owner_task m' = t) /\ (p = LTake -> owner_task m' = -1) /\
  counts p (lock_count m').
Proof.
  intros Hm Ht Hq Hp Ho Hk Hn.
  destruct Hm; simpl in *; try (destruct Hn as [Hn Hn0]; rewrite to_int_small by lia);
    try destruct n as [|[|n]]; simpl in *; intuition (try discriminate; try lia; eauto).
Qed.

(** What a move does to the facts of the other tasks. *)
Lemma move_frame t q m p m' :
  move t q m p m' ->
  (owns q = true <-> owner_task m = t) -> (q = LTake -> owner_task m = -1) ->
  (owner_task m' = owner_task m \/
   owner_task m = -1 /\ owner_task m' = t \/ owner_task m = t /\ owner_task m' = -1) /\
  (lock_count m' = lock_count m \/ owner_task m = t).
Proof. intros Hm Ho Hk. destruct Hm; simpl in *; intuition (try discriminate; eauto). Qed.

(** What a move does to the spinlock. *)
Lemma move_lock t q m p m' :
  move t q m p m' ->
  (in_crit p = true -> in_crit q = true /\ m_spinlock m' = m_spinlock m \/
                       m_spinlock m = 0 /\ m_spinlock m' = 1) /\
  (in_crit q = false -> m_spinlock m' = m_spinlock m \/ m_spinlock m' = 1).
Proof. intros Hm. destruct Hm; try destruct n; simpl in *; intuition (try discriminate; eauto). Qed.

(** An owner's facts only depend on its own program counter. *)
Lemma counts_not_owner p c c' : owns p = false -> counts p c -> counts p c'.
Proof. destruct p; simpl; try destruct n; (done || lia). Qed.

(** Read the program counter of task [u] after task [t] moved. *)
Ltac at_task t u :=
  let Hut := fresh "Hut" in
  destruct (decide (u = t)) as [->|Hut];
  [rewrite ?fn_lookup_insert | rewrite ?(fn_lookup_insert_ne _ t u) by done].

Lemma step_inv c c' : inv c -> step c c' -> inv c'.
Proof.
  intros [Ho Hneg Hc H1 Hk Hn Hdep]. destruct 1 as [t m p f m' Ht Hd Hm]. simpl in *.
  pose proof (move_local _ _ _ _ _ Hm Ht (Hdep t) Hd (Ho t Ht) (Hk t) (Hn t)) as (Ho' & Hk' & Hn').
  pose proof (move_frame _ _ _ _ _ Hm (Ho t Ht) (Hk t)) as [Hfo Hfc].
  pose proof (move_lock _ _ _ _ _ Hm) as [Hlp Hlq].
  assert (forall u, in_crit (f u) = true -> u <> t -> in_crit p = false) as Hex.
  { intros u Hu Hut. apply not_true_is_false. intros Hp.
    destruct (Hlp Hp) as [[Hq _]|[Hl _]]; [by apply Hut, H1|].
    pose proof (Hc u Hu). lia. }
  split; simpl.
  - intros u Hu. at_task t u; [done|]. rewrite (Ho u Hu). lia.
  - intros u Hu. at_task t u; [lia|by apply Hneg].
  - intros u. at_task t u.
    + intros Hp. destruct (Hlp Hp) as [[Hq ->]|[_ ->]]; [by eapply Hc|done].
    + intros Hu. destruct (in_crit (f t)) eqn:Hq; [by destruct Hut; apply H1|].
      destruct (Hlq eq_refl) as [->| ->]; [by eapply Hc|done].
  - intros u u'. at_task t u; at_task t u'; try done; [| |apply H1].
    + intros Hp Hu'. by rewrite (Hex u') in Hp.
    + intros Hu Hp. by rewrite (Hex u) in Hp.
  - intros u. at_task t u; [done|]. intros Hu. pose proof (Hk u Hu) as Hm1.
    destruct Hfo as [->|[[_ Hmt]|[Hmt _]]]; [done| |lia].
    destruct (in_crit (f t)) eqn:Hq.
    + assert (u = t) by (apply H1; [by rewrite Hu|done]). done.
    + exfalso. revert Hq Hmt Hm1 Ht. clear -Hm. destruct Hm; simpl in *; try done; lia.
  - intros u. at_task t u; [done|].
    destruct (owns (f u)) eqn:Hou; [|by eapply counts_not_owner].
    destruct (decide (0 <= u)) as [Hu|Hu]; [|by rewrite Hneg in Hou by lia].
    apply (Ho u Hu) in Hou. destruct Hfc as [->|Hmt]; [done|lia].
  - intros u. at_task t u; [done|apply Hdep].
Qed.

Lemma reachable_ok c : reachable init step c -> inv c.
Proof. apply reachable_inv; [apply inv_init|apply step_inv]. Qed.

(** ** Properties *)

(** C3. Mutual exclusion: in every interleaving of the shared-memory accesses of
    [mutex_lock] and [mutex_unlock] calls of any number of tasks, at most one
    task at a time has returned from [mutex_lock] without undoing it, that task
    is the recorded owner, and [lock_count] is its number of unmatched calls. No
    task nests 2^31 calls, at which the [int] [lock_count] would overflow. *)
Theorem mutex_mutual_exclusion c t n :
  reachable init step c -> pcs c t = In n ->
  owner_task (shared c) = t /\ lock_count (shared c) = Z.of_nat n /\ (0 < n)%nat /\
  forall t' n', pcs c t' = In n' -> t' = t.
Proof.
  intros [Ho Hneg _ _ _ Hn _]%reachable_ok Ht.
  assert (forall u k, pcs c u = In k -> owner_task (shared c) = u) as Howner.
  { intros u k Hu. destruct (decide (0 <= u)); [by apply Ho; [|rewrite Hu]|].
    rewrite Hneg in Hu by lia. done. }
  pose proof (Hn t) as Hc. rewrite Ht in Hc. destruct Hc as [Hc Hpos].
  repeat split; eauto. intros t' n' Ht'. by rewrite <- (Howner t' n'), (Howner t n).
Qed.

Lemma mutex_mutual_exclusion_witness :
  exists c, reachable init step c /\ pcs c 3 = In 1 /\
    (owner_task (shared c) = 3 /\ lock_count (shared c) = 1 /\ (0 < 1)%nat /\
     forall t' n', pcs c t' = In n' -> t' = 3).
Proof.
  assert (forall m f p m', reachable init step (mk_conf m f) -> move 3 (f 3) m p m' -> (depth p < 2)%nat ->
    reachable init step (mk_conf m' (<[3 := p]> f))) as go.
  { intros m f p m' Hr Hm Hd. eapply reach_step; [exact Hr|]. constructor; [lia|lia|exact Hm]. }
  assert (reachable init step (mk_conf (mk_mutex 0 (-1) 0) (fun _ => Out))) as R.
  { by apply reach_init. }
  pose proof (go _ _ _ _ R (call_lock_out 3 _) ltac:(simpl; lia)) as R1.
  pose proof (go _ _ _ _ R1 (l_test_other 3 0 (mk_mutex 0 (-1) 0) ltac:(simpl; lia)) ltac:(simpl; lia)) as R2.
  pose proof (go _ _ _ _ R2 (l_acq 3 (mk_mutex 0 (-1) 0) eq_refl) ltac:(simpl; lia)) as R3.
  pose proof (go _ _ _ _ R3 (l_check_free 3 (mk_mutex 1 (-1) 0) eq_refl) ltac:(simpl; lia)) as R4.
  pose proof (go _ _ _ _ R4 (l_take 3 (mk_mutex 1 (-1) 0)) ltac:(simpl; lia)) as R5.
  pose proof (go _ _ _ _ R5 (l_count 3 (mk_mutex 1 3 0)) ltac:(simpl; lia)) as R6.
  pose proof (go _ _ _ _ R6 (l_rel 3 (mk_mutex 1 3 1)) ltac:(simpl; lia)) as R7.
  eexists. split; [exact R7|]. split; [reflexivity|].
  apply (mutex_mutual_exclusion _ 3 1 R7). reflexivity.
Defined.

End MutexConc.
