(* ===== verification/Ipc.v ===== *)
(** * Message passing between tasks ([kernel/ipc.c])

    A queue of message pointers per task, each a ring behind its own spinlock,
    and the messages themselves in allocated blocks. [Ipc] has one definition
    per function of [kernel/ipc.c]; its contract is a list of mailboxes, each a
    bounded first-in first-out list of letters, and every operation is proved
    to implement its mailbox counterpart while it keeps the ownership of the
    message blocks: each live block is in exactly one slot of one queue. *)

From Stdlib Require Import ZArith Lia.
From stdpp Require Import base tactics option list gmap.
From S2P Require Import Prelude Ring Sync.

Set Default Goal Selector "!".
Local Open Scope Z_scope.
Local Open Scope kernel_scope.

Module Ipc.
Import Ring.

(** ** Data *)

Definition MAX_MESSAGES_PER_QUEUE : Z := 32.
Definition MAX_MESSAGE_SIZE : Z := 256.
Definition IPC_FLAG_NOWAIT : Z := 1.

Definition IPC_SUCCESS : Z := 0.
Definition IPC_ERR_INVALID_PARAM : Z := -1.
Definition IPC_ERR_NO_MEMORY : Z := -2.
Definition IPC_ERR_QUEUE_FULL : Z := -3.
Definition IPC_ERR_NO_MESSAGE : Z := -4.

Record ipc_message : Type := mk_message {
  sender : Z;
  type : Z;
  flags : Z;
  size : Z;
  data : list Z;
}.

Record message_queue : Type := mk_queue {
  messages : ring ptr;
  task_id : Z;
  lock : Z;
}.

Record ipc_stats : Type := mk_stats {
  messages_sent : Z;
  messages_received : Z;
  errors : Z;
  queue_full : Z;
}.

(** The file's static variables, and the message blocks [malloc] has handed out. *)
Record ipc : Type := mk_ipc {
  message_queues : list message_queue;
  stats : ipc_stats;
  blocks : gmap addr ipc_message;
}.

Definition queue_lock : place message_queue Z :=
  mk_place lock (fun l q => mk_queue (messages q) (task_id q) l).

#[export] Instance queue_lock_ok : PlaceOk queue_lock.
Proof. by split; intros; repeat match goal with q : message_queue |- _ => destruct q end. Qed.

(** ** Memory *)

(** Run [m] on [message_queues[i]]; an index outside the array is a fault. *)
Definition on_queue {A} (i : Z) (m : M message_queue A) : M ipc A := fun s =>
  match arr_get (message_queues s) i with
  | None => Fault
  | Some q =>
      match m q with
      | Ret (a, q') =>
          Ret (a, mk_ipc (<[Z.to_nat i := q']> (message_queues s)) (stats s) (blocks s))
      | Spin => Spin
      | Fault => Fault
      end
  end.

Definition set_messages (r : ring ptr) : M message_queue unit :=
  modify (fun q => mk_queue r (task_id q) (lock q)).

Definition on_stats (f : ipc_stats -> ipc_stats) : M ipc unit :=
  modify (fun s => mk_ipc (message_queues s) (f (stats s)) (blocks s)).

Definition count_sent (t : ipc_stats) : ipc_stats :=
  mk_stats (u32 (messages_sent t + 1)) (messages_received t) (errors t) (queue_full t).
Definition count_received (t : ipc_stats) : ipc_stats :=
  mk_stats (messages_sent t) (u32 (messages_received t + 1)) (errors t) (queue_full t).
Definition count_error (t : ipc_stats) : ipc_stats :=
  mk_stats (messages_sent t) (messages_received t) (u32 (errors t + 1)) (queue_full t).
Definition count_full (t : ipc_stats) : ipc_stats :=
  mk_stats (messages_sent t) (messages_received t) (errors t) (u32 (queue_full t + 1)).
Definition no_stats : ipc_stats := mk_stats 0 0 0 0.

Definition write_block (a : addr) (m : ipc_message) : M ipc unit :=
  modify (fun s => mk_ipc (message_queues s) (stats s) (<[a := m]> (blocks s))).

Definition read_block (p : ptr) : M ipc ipc_message :=
  s <- get ;; deref (a ← p; blocks s !! a).

(** [free]: releasing a block that is not live is a fault. *)
Definition free (p : ptr) : M ipc unit :=
  match p with
  | None => ret tt
  | Some a =>
      s <- get ;;
      _ <- deref (blocks s !! a) ;;
      put (mk_ipc (message_queues s) (stats s) (delete a (blocks s)))
  end.

(** [memcpy(dst, src, n)]; reading or writing past an end is [None]. *)
Definition memcpy (dst src : list Z) (n : Z) : option (list Z) :=
  if (n <=? Z.of_nat (length src)) && (n <=? Z.of_nat (length dst))
  then Some (take (Z.to_nat n) src ++ drop (Z.to_nat n) dst) else None.

Section Functions.
(** [MAX_TASKS], the number of queues. *)
Context (MAX_TASKS : nat).
(** What [get_current_task_id()] answers. *)
Context (current : Z).

(** ** Operations *)

Definition init_queue (i : nat) (q : message_queue) : message_queue :=
  let q := mk_queue (mk_ring (slots (messages q)) 0 0 0) (Z.of_nat i) (lock q) in
  Sync.spinlock_init (Some queue_lock) q.

Definition ipc_init : M ipc unit :=
  modify (fun s => mk_ipc (imap init_queue (message_queues s)) no_stats (blocks s)).

(** [block] is the answer of [malloc]: NULL, or an address and what the block holds. *)
Definition ipc_send_message (to_task_id ty : Z) (dat : option (list Z)) (sz fl : Z)
    (block : option (addr * ipc_message)) : M ipc Z :=
  if (to_task_id <? 0) || (Z.of_nat MAX_TASKS <=? to_task_id) || (sz <? 0) || (MAX_MESSAGE_SIZE <? sz)
  then ret IPC_ERR_INVALID_PARAM
  else
    match block with
    | None => on_stats count_error ;;; ret IPC_ERR_NO_MEMORY
    | Some (a, g) =>
        d <- deref (match dat with
                    | Some src => if 0 <? sz then memcpy (data g) src sz else Some (data g)
                    | None => Some (data g)
                    end) ;;
        write_block a (mk_message current ty fl sz d) ;;;
        on_queue to_task_id (Sync.acquire queue_lock) ;;;
        n <- on_queue to_task_id (gets (fun q => count (messages q))) ;;
        if MAX_MESSAGES_PER_QUEUE <=? n
        then
          on_queue to_task_id (Sync.release queue_lock) ;;;
          free (Some a) ;;;
          on_stats count_full ;;;
          ret IPC_ERR_QUEUE_FULL
        else
          on_queue to_task_id
            (q <- get ;;
             r <- deref (ring_push MAX_MESSAGES_PER_QUEUE (messages q) (Some a)) ;;
             set_messages r) ;;;
          on_stats count_sent ;;;
          on_queue to_task_id (Sync.release queue_lock) ;;;
          ret IPC_SUCCESS
    end.

(** The caller's buffer after the message at [m] was copied into it. *)
Definition copy_out (m buf : ipc_message) : option ipc_message :=
  d ← (if 0 <? size m then memcpy (data buf) (data m) (size m) else Some (data buf));
  Some (mk_message (sender m) (type m) (flags m) (size m) d).

(** The busy-waiting loop of [ipc_receive_message], left with the lock held. The
    [k]-th [switch_task()] turns the kernel's state into [switch_task k] of it. *)
Fixpoint ipc_wait (switch_task : nat -> ipc -> ipc) (fuel k : nat) : M ipc unit :=
  match fuel with
  | O => spin
  | S f =>
      modify (switch_task k) ;;;
      on_queue current (Sync.acquire queue_lock) ;;;
      n <- on_queue current (gets (fun q => count (messages q))) ;;
      if 0 <? n then ret tt
      else
        on_queue current (Sync.release queue_lock) ;;;
        ipc_wait switch_task f (S k)
  end.

(** The rest of [ipc_receive_message], from the line that reads the head. *)
Definition ipc_take (buf : ipc_message) : M ipc (Z * option ipc_message) :=
  r <- on_queue current (gets messages) ;;
  received <- deref (ring_front r) ;;
  m <- read_block received ;;
  buf' <- deref (copy_out m buf) ;;
  on_queue current
    (q <- get ;;
     r <- deref (ring_take MAX_MESSAGES_PER_QUEUE (messages q) None) ;;
     set_messages r) ;;;
  on_stats count_received ;;;
  on_queue current (Sync.release queue_lock) ;;;
  free received ;;;
  ret (IPC_SUCCESS, Some buf').

(** The result is the return value and what [*msg] holds afterwards. *)
Definition ipc_receive_message (switch_task : nat -> ipc -> ipc) (fuel : nat)
    (msg : option ipc_message) (fl : Z) : M ipc (Z * option ipc_message) :=
  match msg with
  | None => ret (IPC_ERR_INVALID_PARAM, None)
  | Some buf =>
      on_queue current (Sync.acquire queue_lock) ;;;
      n <- on_queue current (gets (fun q => count (messages q))) ;;
      if n =? 0
      then
        on_queue current (Sync.release queue_lock) ;;;
        if has_flag fl IPC_FLAG_NOWAIT then ret (IPC_ERR_NO_MESSAGE, Some buf)
        else
          on_queue current (Sync.release queue_lock) ;;;
          ipc_wait switch_task fuel 0 ;;;
          ipc_take buf
      else ipc_take buf
  end.

Definition ipc_peek_message (msg : option ipc_message) (fl : Z) : M ipc (Z * option ipc_message) :=
  match msg with
  | None => ret (IPC_ERR_INVALID_PARAM, None)
  | Some buf =>
      on_queue current (Sync.acquire queue_lock) ;;;
      n <- on_queue current (gets (fun q => count (messages q))) ;;
      if n =? 0
      then
        on_queue current (Sync.release queue_lock) ;;;
        ret (IPC_ERR_NO_MESSAGE, Some buf)
      else
        r <- on_queue current (gets messages) ;;
        peek <- deref (ring_front r) ;;
        m <- read_block peek ;;
        buf' <- deref (copy_out m buf) ;;
        on_queue current (Sync.release queue_lock) ;;;
        ret (IPC_SUCCESS, Some buf')
  end.

Definition ipc_message_count : M ipc Z :=
  on_queue current (Sync.acquire queue_lock) ;;;
  n <- on_queue current (gets (fun q => count (messages q))) ;;
  on_queue current (Sync.release queue_lock) ;;;
  ret n.

(** What [*out] holds afterwards. *)
Definition ipc_get_statistics (out : option ipc_stats) : M ipc (option ipc_stats) :=
  match out with
  | Some _ => s <- get ;; ret (Some (stats s))
  | None => ret None
  end.

Definition ipc_reset_statistics : M ipc unit := on_stats (fun _ => no_stats).

(** The loop of [ipc_flush_messages] with [n] rounds left. *)
Fixpoint flush_loop (tid : Z) (n : nat) (i flushed : Z) : M ipc Z :=
  match n with
  | O => ret flushed
  | S n' =>
      r <- on_queue tid (gets messages) ;;
      p <- deref (ring_nth MAX_MESSAGES_PER_QUEUE r i) ;;
      match p with
      | None => flush_loop tid n' (i + 1) flushed
      | Some a =>
          free (Some a) ;;;
          on_queue tid
            (q <- get ;;
             r <- deref (ring_set MAX_MESSAGES_PER_QUEUE (messages q) i None) ;;
             set_messages r) ;;;
          flush_loop tid n' (i + 1) (flushed + 1)
      end
  end.

Definition ipc_flush_messages (tid : Z) : M ipc Z :=
  let tid := if tid =? -1 then current else tid in
  if (tid <? 0) || (Z.of_nat MAX_TASKS <=? tid) then ret IPC_ERR_INVALID_PARAM
  else
    on_queue tid (Sync.acquire queue_lock) ;;;
    n <- on_queue tid (gets (fun q => count (messages q))) ;;
    flushed <- flush_loop tid (Z.to_nat n) 0 0 ;;
    on_queue tid
      (q <- get ;; set_messages (mk_ring (slots (messages q)) 0 0 0)) ;;;
    on_queue tid (Sync.release queue_lock) ;;;
    ret flushed.

Definition ipc_send_response (original_msg : option ipc_message) (ty : Z) (dat : option (list Z))
    (sz fl : Z) (block : option (addr * ipc_message)) : M ipc Z :=
  match original_msg with
  | None => ret IPC_ERR_INVALID_PARAM
  | Some m => ipc_send_message (sender m) ty dat sz fl block
  end.

End Functions.

(** ** Contract: mailboxes *)

(** What a message says: its header and the [size] bytes that count. *)
Record letter : Type := mk_letter {
  l_sender : Z;
  l_type : Z;
  l_flags : Z;
  l_size : Z;
  l_payload : list Z;
}.

Definition letter_of (m : ipc_message) : letter :=
  mk_letter (sender m) (type m) (flags m) (size m) (take (Z.to_nat (size m)) (data m)).

Record mail : Type := mk_mail {
  boxes : list (list letter);
  tally : ipc_stats;
}.

(** The bytes a send puts into the letter. With no data pointer they are what
    the fresh block happened to hold. *)
Definition payload (dat : option (list Z)) (g : ipc_message) (sz : Z) : list Z :=
  take (Z.to_nat sz) (default (data g) dat).

Definition spec_send (MAX_TASKS : nat) (to : Z) (l : letter) (mem : bool) (m : mail) : Z * mail :=
  if (to <? 0) || (Z.of_nat MAX_TASKS <=? to) || (l_size l <? 0) || (MAX_MESSAGE_SIZE <? l_size l)
  then (IPC_ERR_INVALID_PARAM, m)
  else if negb mem then (IPC_ERR_NO_MEMORY, mk_mail (boxes m) (count_error (tally m)))
  else
    let box := nth (Z.to_nat to) (boxes m) [] in
    if MAX_MESSAGES_PER_QUEUE <=? Z.of_nat (length box)
    then (IPC_ERR_QUEUE_FULL, mk_mail (boxes m) (count_full (tally m)))
    else (IPC_SUCCESS, mk_mail (<[Z.to_nat to := box ++ [l]]> (boxes m)) (count_sent (tally m))).

(** Take the oldest letter of box [i]. *)
Definition spec_receive (i : Z) (m : mail) : option letter * mail :=
  match nth (Z.to_nat i) (boxes m) [] with
  | [] => (None, m)
  | l :: rest => (Some l, mk_mail (<[Z.to_nat i := rest]> (boxes m)) (count_received (tally m)))
  end.

Definition spec_flush (i : Z) (m : mail) : Z * mail :=
  (Z.of_nat (length (nth (Z.to_nat i) (boxes m) [])),
   mk_mail (<[Z.to_nat i := []]> (boxes m)) (tally m)).

(** *** Abstraction *)

Definition queued (q : message_queue) : list ptr := items MAX_MESSAGES_PER_QUEUE (messages q).

Definition read_letter (b : gmap addr ipc_message) (p : ptr) : option letter :=
  a ← p; letter_of <$> b !! a.

Definition letters (b : gmap addr ipc_message) (l : list ptr) : list letter := omap (read_letter b) l.

Definition abs (s : ipc) : mail :=
  mk_mail ((fun q => letters (blocks s) (queued q)) <$> message_queues s) (stats s).

(** *** Invariant *)

Definition keys (b : gmap addr ipc_message) : list ptr := Some <$> (map_to_list b).*1.

Definition message_ok (m : ipc_message) : Prop :=
  0 <= size m <= MAX_MESSAGE_SIZE /\ Z.of_nat (length (data m)) = MAX_MESSAGE_SIZE.

Definition queue_ok (q : message_queue) : Prop :=
  ring_wf MAX_MESSAGES_PER_QUEUE (messages q) /\ lock q = 0.

(** Every live block is queued exactly once, and nothing else is queued. *)
Definition owned (qs : list message_queue) (b : gmap addr ipc_message) : Prop :=
  concat (queued <$> qs) ≡ₚ keys b.

Record ipc_ok (MAX_TASKS : nat) (s : ipc) : Prop := {
  ok_length : length (message_queues s) = MAX_TASKS;
  ok_queues : Forall queue_ok (message_queues s);
  ok_owned : owned (message_queues s) (blocks s);
  ok_blocks : map_Forall (fun _ m => message_ok m) (blocks s);
}.

(** *** Ownership *)

Section Ownership.
Implicit Types (qs : list message_queue) (b : gmap addr ipc_message) (a : addr).

(** What the queues other than number [n] hold. *)
Definition rest (n : nat) qs : list ptr := concat (delete n (queued <$> qs)).

Lemma owned_at qs n q b :
  qs !! n = Some q -> owned qs b <-> queued q ++ rest n qs ≡ₚ keys b.
Proof.
  intros Hn. unfold owned, rest. rewrite (concat_split _ n (queued q)); [done|].
  by rewrite list_lookup_fmap, Hn.
Qed.

Lemma owned_insert qs n q q' b :
  qs !! n = Some q -> owned (<[n := q']> qs) b <-> queued q' ++ rest n qs ≡ₚ keys b.
Proof.
  intros Hn. unfold owned, rest. rewrite list_fmap_insert, (concat_insert _ n (queued q)); [done|].
  by rewrite list_lookup_fmap, Hn.
Qed.

Lemma keys_NoDup b : NoDup (keys b).
Proof. apply NoDup_fmap_2; [apply _|]. apply NoDup_fst_map_to_list. Qed.

Lemma elem_of_keys b a : Some a ∈ keys b <-> is_Some (b !! a).
Proof.
  unfold keys. rewrite list_elem_of_fmap_inj by apply _. rewrite list_elem_of_fmap. split.
  - intros ([? m] & -> & Hin). simpl. exists m. by apply elem_of_map_to_list.
  - intros [m Hm]. exists (a, m). split; [done|]. by apply elem_of_map_to_list.
Qed.

Lemma keys_insert b a m : b !! a = None -> keys (<[a := m]> b) ≡ₚ Some a :: keys b.
Proof. intros H. unfold keys. by rewrite map_to_list_insert. Qed.

Lemma keys_delete b a m l :
  b !! a = Some m -> Some a :: l ≡ₚ keys b -> l ≡ₚ keys (delete a b).
Proof.
  intros Ha Hp. apply (Permutation_cons_inv (a := Some a)). rewrite Hp.
  rewrite <- keys_insert with (m := m) by apply lookup_delete_eq.
  by rewrite insert_delete_id.
Qed.

Lemma in_rest qs n j q p :
  qs !! j = Some q -> j <> n -> p ∈ queued q -> p ∈ rest n qs.
Proof.
  intros Hj Hne Hp. unfold rest. rewrite list_elem_of_In, in_concat.
  exists (queued q). rewrite <- !list_elem_of_In. split; [|done].
  apply list_elem_of_lookup. destruct (decide (j < n)%nat).
  - exists j. by rewrite list_lookup_delete_lt, list_lookup_fmap, Hj by done.
  - exists (pred j). rewrite list_lookup_delete_ge by lia.
    replace (S (pred j)) with j by lia. by rewrite list_lookup_fmap, Hj.
Qed.

Lemma letters_cons b p l :
  letters b (p :: l) =
  match read_letter b p with Some x => x :: letters b l | None => letters b l end.
Proof. done. Qed.

Lemma letters_ext b b' l :
  (forall a, Some a ∈ l -> b' !! a = b !! a) -> letters b' l = letters b l.
Proof.
  intros H. induction l as [|p l IH]; [done|]. rewrite !letters_cons.
  rewrite IH by (intros; apply H; by right).
  destruct p as [a|]; [|done]. unfold read_letter; simpl. by rewrite H by left.
Qed.

(** Changing queue [n], and only the blocks the other queues do not hold,
    changes box [n] only. *)
Lemma boxes_insert qs n q q' b b' :
  qs !! n = Some q ->
  (forall a, Some a ∈ rest n qs -> b' !! a = b !! a) ->
  (fun q => letters b' (queued q)) <$> <[n := q']> qs =
  <[n := letters b' (queued q')]> ((fun q => letters b (queued q)) <$> qs).
Proof.
  intros Hn Hb. rewrite list_fmap_insert. apply list_eq. intros j.
  destruct (decide (n = j)) as [->|Hne].
  - rewrite !list_lookup_insert_eq; [done|rewrite length_fmap; by eapply lookup_lt_Some..].
  - rewrite !list_lookup_insert_ne, !list_lookup_fmap by done.
    destruct (qs !! j) as [qj|] eqn:Hj; [|done]. simpl. f_equal. apply letters_ext.
    intros a Ha. apply Hb. by eapply in_rest.
Qed.

Lemma letters_app b l l' : letters b (l ++ l') = letters b l ++ letters b l'.
Proof. apply omap_app. Qed.

End Ownership.

(** ** Reasoning about one queue *)

#[local] Arguments free : simpl never.
#[local] Arguments on_stats : simpl never.
#[local] Arguments on_queue : simpl never.

Section Rules.
Context (N : nat).

Lemma wp_on_queue {A} n q qs st b (m : M message_queue A) Q :
  (n < length qs)%nat ->
  wp m (fun a q' => Q a (mk_ipc (<[n := q']> qs) st b)) q ->
  wp (on_queue (Z.of_nat n) m) Q (mk_ipc (<[n := q]> qs) st b).
Proof.
  intros Hn Hm. unfold wp, on_queue. simpl. rewrite arr_get_nat, list_lookup_insert_eq by done.
  unfold wp in Hm. destruct (m q) as [[a q']| |]; [|done..].
  by rewrite Nat2Z.id, list_insert_insert_eq.
Qed.

(** Entering a queue that is not locked, and leaving it. *)
Lemma wp_lock n q qs st b Q :
  (n < length qs)%nat -> lock q = 0 ->
  Q tt (mk_ipc (<[n := mk_queue (messages q) (task_id q) 1]> qs) st b) ->
  wp (on_queue (Z.of_nat n) (Sync.acquire queue_lock)) Q (mk_ipc (<[n := q]> qs) st b).
Proof. intros Hn Hl HQ. apply wp_on_queue; [done|]. by apply Sync.wp_acquire. Qed.

Lemma wp_unlock n q qs st b Q :
  (n < length qs)%nat ->
  Q tt (mk_ipc (<[n := mk_queue (messages q) (task_id q) 0]> qs) st b) ->
  wp (on_queue (Z.of_nat n) (Sync.release queue_lock)) Q (mk_ipc (<[n := q]> qs) st b).
Proof. intros Hn HQ. by apply wp_on_queue. Qed.

Lemma wp_read {A} n q qs st b (f : message_queue -> A) Q :
  (n < length qs)%nat -> Q (f q) (mk_ipc (<[n := q]> qs) st b) ->
  wp (on_queue (Z.of_nat n) (gets f)) Q (mk_ipc (<[n := q]> qs) st b).
Proof. intros Hn HQ. by apply wp_on_queue. Qed.

(** Replacing the ring of the queue by what [f] computes from it. *)
Lemma wp_ring n q qs st b (f : ring ptr -> option (ring ptr)) r Q :
  (n < length qs)%nat -> f (messages q) = Some r ->
  Q tt (mk_ipc (<[n := mk_queue r (task_id q) (lock q)]> qs) st b) ->
  wp (on_queue (Z.of_nat n) (q <- get ;; r <- deref (f (messages q)) ;; set_messages r)) Q
     (mk_ipc (<[n := q]> qs) st b).
Proof.
  intros Hn Hf HQ. apply wp_on_queue; [done|]. wp_steps. apply wp_deref. by exists r.
Qed.

Lemma wp_free a m s Q :
  blocks s !! a = Some m ->
  Q tt (mk_ipc (message_queues s) (stats s) (delete a (blocks s))) -> wp (free (Some a)) Q s.
Proof. intros Ha HQ. unfold free. wp_steps. apply wp_deref. by exists m. Qed.

Lemma wp_read_block a m s Q :
  blocks s !! a = Some m -> Q m s -> wp (read_block (Some a)) Q s.
Proof. intros Ha HQ. unfold read_block. wp_steps. apply wp_deref. by exists m. Qed.

(** The queue of a task in range, and the state around it. *)
Lemma open_queue s i :
  ipc_ok N s -> 0 <= i < Z.of_nat N ->
  exists n q, i = Z.of_nat n /\ (n < length (message_queues s))%nat /\
    message_queues s !! n = Some q /\ queue_ok q /\
    s = mk_ipc (<[n := q]> (message_queues s)) (stats s) (blocks s).
Proof.
  intros [Hl Hq _ _] Hi. exists (Z.to_nat i).
  destruct (lookup_lt_is_Some_2 (message_queues s) (Z.to_nat i)) as [q Hn]; [lia|].
  exists q. split; [lia|]. split; [lia|]. split; [done|]. split.
  - by eapply Forall_lookup in Hn.
  - rewrite list_insert_id by done. by destruct s.
Qed.

Lemma ipc_ok_insert s n q q' st b :
  ipc_ok N s -> message_queues s !! n = Some q -> queue_ok q' ->
  queued q' ++ rest n (message_queues s) ≡ₚ keys b ->
  map_Forall (fun _ m => message_ok m) b ->
  ipc_ok N (mk_ipc (<[n := q']> (message_queues s)) st b).
Proof.
  intros [Hl Hq _ _] Hn Hq' Ho Hb. split; simpl.
  - by rewrite length_insert.
  - by apply Forall_insert.
  - by eapply owned_insert.
  - done.
Qed.

Lemma box_at s n q :
  message_queues s !! n = Some q ->
  nth n (boxes (abs s)) [] = letters (blocks s) (queued q).
Proof.
  intros Hn. apply nth_lookup_Some. simpl. by rewrite list_lookup_fmap, Hn.
Qed.

(** A queued pointer is live, and its block well formed. *)
Lemma queued_live s n q p :
  ipc_ok N s -> message_queues s !! n = Some q -> p ∈ queued q ->
  exists a m, p = Some a /\ blocks s !! a = Some m /\ message_ok m.
Proof.
  intros [_ _ Ho Hb] Hn Hp. rewrite owned_at in Ho by done.
  assert (p ∈ keys (blocks s)) as Hk by (rewrite <- Ho; set_solver).
  pose proof Hk as (a & -> & _)%list_elem_of_fmap.
  apply elem_of_keys in Hk as [m Hm]. exists a, m. split; [done|]. split; [done|].
  by apply (Hb a).
Qed.

Lemma letters_length s n q :
  ipc_ok N s -> message_queues s !! n = Some q ->
  length (letters (blocks s) (queued q)) = length (queued q).
Proof.
  intros Hok Hn.
  assert (forall l, l ⊆ queued q -> length (letters (blocks s) l) = length l) as H.
  { induction l as [|p l IH]; intros Hl; [done|]. rewrite letters_cons.
    destruct (queued_live s n q p Hok Hn) as (a & m & -> & Hm & _); [set_solver|].
    unfold read_letter; simpl. rewrite Hm. simpl. f_equal. apply IH. set_solver. }
  by apply H.
Qed.

(** The number of letters in a box is the queue's [count]. *)
Lemma count_box s n q :
  ipc_ok N s -> message_queues s !! n = Some q ->
  Z.of_nat (length (letters (blocks s) (queued q))) = count (messages q).
Proof.
  intros Hok Hn. rewrite (letters_length s n) by done. apply items_length.
  pose proof (ok_queues _ _ Hok) as Hq. by eapply Forall_lookup in Hq as [? _].
Qed.

Lemma fresh_rest s n q a :
  ipc_ok N s -> message_queues s !! n = Some q -> blocks s !! a = None ->
  Some a ∉ queued q /\ Some a ∉ rest n (message_queues s).
Proof.
  intros [_ _ Ho _] Hn Ha. rewrite owned_at in Ho by done.
  assert (Some a ∉ (queued q ++ rest n (message_queues s))) as H; [|set_solver].
  rewrite Ho, elem_of_keys, Ha. apply is_Some_None.
Qed.

End Rules.

(** ** Sending *)

Section Send.
Context (N : nat) (current : Z).

Lemma memcpy_spec dst src n :
  0 <= n -> n <= Z.of_nat (length src) -> n <= Z.of_nat (length dst) ->
  exists d, memcpy dst src n = Some d /\ length d = length dst /\
    take (Z.to_nat n) d = take (Z.to_nat n) src.
Proof.
  intros H0 Hs Hd. unfold memcpy.
  destruct (Z.leb_spec n (Z.of_nat (length src))); [|lia].
  destruct (Z.leb_spec n (Z.of_nat (length dst))); [|lia]. simpl.
  eexists; split; [done|]. rewrite length_app, length_take, length_drop. split; [lia|].
  rewrite take_app_le by (rewrite length_take; lia). rewrite take_take. f_equal. lia.
Qed.

(** The block of a message that is being sent. *)
Lemma fill_block dat g sz :
  0 <= sz <= MAX_MESSAGE_SIZE -> Z.of_nat (length (data g)) = MAX_MESSAGE_SIZE ->
  (forall src, dat = Some src -> sz <= Z.of_nat (length src)) ->
  exists d, match dat with
            | Some src => if 0 <? sz then memcpy (data g) src sz else Some (data g)
            | None => Some (data g)
            end = Some d /\ Z.of_nat (length d) = MAX_MESSAGE_SIZE /\
    take (Z.to_nat sz) d = payload dat g sz.
Proof.
  intros Hsz Hg Hd. unfold payload. destruct dat as [src|]; [|by exists (data g)].
  destruct (Z.ltb_spec 0 sz).
  - destruct (memcpy_spec (data g) src sz) as (d & -> & Hl & Ht); [lia|by apply Hd|lia|].
    exists d. rewrite Hl. done.
  - exists (data g). replace sz with 0 by lia. by rewrite !take_0.
Qed.

Lemma send_block_ok s a ty fl sz d :
  ipc_ok N s -> 0 <= sz <= MAX_MESSAGE_SIZE -> Z.of_nat (length d) = MAX_MESSAGE_SIZE ->
  map_Forall (fun _ m => message_ok m) (<[a := mk_message current ty fl sz d]> (blocks s)).
Proof. intros [_ _ _ Hb] Hsz Hd. by apply map_Forall_insert_2. Qed.

(** The queue has room: the letter is appended. *)
Lemma send_push s n q a m r :
  ipc_ok N s -> message_queues s !! n = Some q -> blocks s !! a = None -> message_ok m ->
  ring_wf MAX_MESSAGES_PER_QUEUE r -> items MAX_MESSAGES_PER_QUEUE r = queued q ++ [Some a] ->
  let s' := mk_ipc (<[n := mk_queue r (task_id q) 0]> (message_queues s))
              (count_sent (stats s)) (<[a := m]> (blocks s)) in
  ipc_ok N s' /\
  abs s' = mk_mail (<[n := nth n (boxes (abs s)) [] ++ [letter_of m]]> (boxes (abs s)))
             (count_sent (stats s)).
Proof.
  intros Hok Hn Ha Hm Hr Hi. pose proof (fresh_rest N s n q a Hok Hn Ha) as [Hfq Hfr]. simpl. split.
  - eapply ipc_ok_insert; [done|done|done| |].
    + unfold queued at 1; simpl. rewrite Hi, keys_insert by done.
      destruct Hok as [_ _ Ho _]. rewrite owned_at in Ho by done. rewrite <- Ho.
      rewrite <- app_assoc. symmetry. apply Permutation_middle.
    + apply map_Forall_insert_2; [done|]. apply Hok.
  - unfold abs at 1. simpl. f_equal. rewrite (boxes_insert _ n q _ (blocks s)) by
      (done || (intros b Hb; rewrite lookup_insert_ne; [done|]; congruence)).
    pose proof (box_at s n q Hn) as Hbox. simpl in Hbox. rewrite Hbox. f_equal. unfold queued at 1; simpl.
    rewrite Hi, letters_app. f_equal.
    + apply letters_ext. intros b Hb. rewrite lookup_insert_ne; [done|]. congruence.
    + rewrite letters_cons. unfold read_letter; simpl. by rewrite lookup_insert_eq.
Qed.

(** Sending implements the mailbox operation on every branch; the error paths
    free the block and the lock. *)
Lemma send_ok s to ty dat sz fl block :
  ipc_ok N s ->
  (forall a g, block = Some (a, g) ->
     blocks s !! a = None /\ Z.of_nat (length (data g)) = MAX_MESSAGE_SIZE) ->
  (forall src, dat = Some src -> sz <= Z.of_nat (length src)) ->
  let l := mk_letter current ty fl sz
             (match block with Some (_, g) => payload dat g sz | None => [] end) in
  wp (ipc_send_message N current to ty dat sz fl block)
     (fun r s' => ipc_ok N s' /\
        (r, abs s') = spec_send N to l (match block with Some _ => true | None => false end) (abs s))
     s.
Proof.
  intros Hok Hblk Hdat l. remember (abs s) as m eqn:Em. unfold ipc_send_message, spec_send. simpl l_size.
  case_if; [by subst|]. bools.
  destruct block as [[a g]|]; [|by subst; destruct Hok; split]. simpl.
  destruct (Hblk a g eq_refl) as [Ha Hg]. clear Hblk.
  destruct (fill_block dat g sz) as (d & -> & Hld & Hpay); [lia|done|done|]. simpl.
  destruct (open_queue N s to) as (n & q & -> & Hlt & Hn & Hq & Hs); [done|lia|].
  pose proof (count_box N s n q Hok Hn) as Hcount. destruct Hq as [Hwf Hlk].
  pose proof (box_at s n q Hn) as Hbox. rewrite <- Em in Hbox.
  rewrite Nat2Z.id, Hbox, Hcount, <- Hbox.
  wp_steps. unfold write_block. wp_steps. rewrite Hs. simpl.
  apply wp_lock; [done|done|]. wp_steps. apply wp_read; [done|]. simpl.
  destruct (Z.leb_spec MAX_MESSAGES_PER_QUEUE (count (messages q))).
  - wp_steps. apply wp_unlock; [done|]. wp_steps. simpl.
    eapply wp_free; [apply lookup_insert_eq|]. simpl. unfold on_stats. wp_steps. simpl.
    rewrite delete_insert_id by done. rewrite list_insert_id by (destruct q; simpl in *; by subst).
    split; [by destruct Hok; split|by rewrite Em].
  - destruct (ring_push_spec MAX_MESSAGES_PER_QUEUE (messages q) (Some a)) as (r & Hr & Hwr & Hi & _);
      [done|lia|].
    wp_steps. eapply wp_ring with (f := fun r => ring_push _ r _); [done|exact Hr|]. simpl.
    unfold on_stats. wp_steps. simpl. apply wp_unlock; [done|]. wp_steps. simpl.
    destruct (send_push s n q a (mk_message current ty fl sz d) r) as [Hok' Habs]; try done.
    split; [done|]. rewrite Habs, Em. unfold letter_of, l. simpl. by rewrite Hpay.
Qed.

End Send.

(** ** Start *)

(** The static variables before any code ran. *)
Definition boot (N : nat) : ipc :=
  mk_ipc (replicate N (mk_queue (ring_empty MAX_MESSAGES_PER_QUEUE None) 0 0)) no_stats ∅.

(** The state [ipc_init] leaves. *)
Definition started (N : nat) : ipc :=
  mk_ipc (imap init_queue (message_queues (boot N))) no_stats ∅.

Lemma ipc_init_boot N : ipc_init (boot N) = Ret (tt, started N).
Proof. done. Qed.

Lemma started_queue N n q : message_queues (started N) !! n = Some q ->
  q = mk_queue (ring_empty MAX_MESSAGES_PER_QUEUE None) (Z.of_nat n) 0.
Proof.
  simpl. rewrite list_lookup_imap. intros (q0 & H & ->)%fmap_Some.
  by apply lookup_replicate in H as [-> _].
Qed.

Lemma started_ok N : ipc_ok N (started N).
Proof.
  assert (forall n q, message_queues (started N) !! n = Some q -> queue_ok q /\ queued q = []) as Hq.
  { intros n q ->%started_queue. split; [|done]. split; [|done]. by apply ring_empty_wf. }
  split.
  - simpl. by rewrite length_imap, length_replicate.
  - apply Forall_lookup_2. intros n q Hn. by apply (Hq n).
  - unfold owned. replace (queued <$> message_queues (started N)) with (replicate N (@nil ptr)).
    { assert (concat (replicate N (@nil ptr)) = []) as -> by (clear; by induction N). done. }
    apply list_eq. intros n. rewrite list_lookup_fmap.
    destruct (message_queues (started N) !! n) as [q|] eqn:E; simpl.
    + rewrite (proj2 (Hq _ _ E)). apply lookup_replicate. split; [done|].
      apply lookup_lt_Some in E. simpl in E. by rewrite length_imap, length_replicate in E.
    + apply lookup_replicate_None. apply lookup_ge_None in E. simpl in E.
      by rewrite length_imap, length_replicate in E.
  - done.
Qed.

Definition blank : ipc_message := mk_message 0 0 0 0 (replicate 256 0).

(** ** Receiving *)

Section Receive.
Context (N : nat) (current : Z).

Lemma copy_out_spec m buf :
  message_ok m -> Z.of_nat (length (data buf)) = MAX_MESSAGE_SIZE ->
  exists buf', copy_out m buf = Some buf' /\ letter_of buf' = letter_of m /\
    length (data buf') = length (data buf).
Proof.
  intros [Hs Hm] Hb. unfold copy_out. destruct (Z.ltb_spec 0 (size m)).
  - destruct (memcpy_spec (data buf) (data m) (size m)) as (d & -> & Hl & Ht); [lia..|]. simpl.
    eexists; split; [done|]. unfold letter_of; simpl. by rewrite Ht.
  - eexists; split; [done|]. unfold letter_of; simpl. replace (size m) with 0 by lia.
    by rewrite !take_0.
Qed.

(** The oldest letter of a box that is not empty. *)
Lemma front_letter s n q :
  ipc_ok N s -> message_queues s !! n = Some q -> 0 < count (messages q) ->
  exists a m l, ring_front (messages q) = Some (Some a) /\ queued q = Some a :: l /\
    blocks s !! a = Some m /\ message_ok m /\
    letters (blocks s) (queued q) = letter_of m :: letters (blocks s) l /\
    Some a ∉ l /\ Some a ∉ rest n (message_queues s).
Proof.
  intros Hok Hn Hc. pose proof (ok_queues _ _ Hok) as Hq.
  eapply Forall_lookup in Hq as [Hwf _]; [|done].
  destruct (ring_pop_spec _ _ Hwf Hc) as (p & Hf & _ & Hi).
  destruct (queued_live N s n q p Hok Hn) as (a & m & -> & Hm & Hmok).
  { unfold queued. rewrite Hi. by left. }
  exists a, m. eexists. split; [done|]. split; [exact Hi|]. split; [done|]. split; [done|].
  split.
  - unfold queued. rewrite Hi, letters_cons. unfold read_letter at 1; simpl. by rewrite Hm.
  - destruct Hok as [_ _ Ho _]. rewrite owned_at in Ho by done. unfold queued in Ho. rewrite Hi in Ho.
    pose proof (keys_NoDup (blocks s)) as Hnd. rewrite <- Ho in Hnd. simpl in Hnd.
    apply NoDup_cons in Hnd as [Hnd _]. split; intros ?; apply Hnd; set_solver.
Qed.

(** The head of the queue is taken out and its block freed. *)
Lemma take_pop s n q a m l r :
  ipc_ok N s -> message_queues s !! n = Some q -> queued q = Some a :: l ->
  blocks s !! a = Some m -> Some a ∉ l -> Some a ∉ rest n (message_queues s) ->
  ring_wf MAX_MESSAGES_PER_QUEUE r -> items MAX_MESSAGES_PER_QUEUE r = l ->
  let s' := mk_ipc (<[n := mk_queue r (task_id q) 0]> (message_queues s))
              (count_received (stats s)) (delete a (blocks s)) in
  ipc_ok N s' /\
  abs s' = mk_mail (<[n := letters (blocks s) l]> (boxes (abs s))) (count_received (stats s)).
Proof.
  intros Hok Hn Hql Ha Hal Har Hwf Hi. simpl. split.
  - eapply ipc_ok_insert; [done..| |].
    + unfold queued at 1; simpl. rewrite Hi. eapply keys_delete; [done|].
      destruct Hok as [_ _ Ho _]. rewrite owned_at in Ho by done. by rewrite Hql in Ho.
    + apply map_Forall_delete. apply Hok.
  - unfold abs at 1. simpl. f_equal. rewrite (boxes_insert _ n q _ (blocks s)) by
      (done || (intros b Hb; rewrite lookup_delete_ne; [done|]; congruence)).
    f_equal. unfold queued; simpl. rewrite Hi. apply letters_ext.
    intros b Hb. rewrite lookup_delete_ne; [done|]. congruence.
Qed.

(** [ipc_take] runs with the lock held and a message waiting. *)
Lemma ipc_take_spec s n q buf Q :
  ipc_ok N s -> current = Z.of_nat n -> message_queues s !! n = Some q ->
  0 < count (messages q) -> Z.of_nat (length (data buf)) = MAX_MESSAGE_SIZE ->
  (forall buf' s' l, spec_receive current (abs s) = (Some l, abs s') ->
     ipc_ok N s' -> letter_of buf' = l -> Q (IPC_SUCCESS, Some buf') s') ->
  wp (ipc_take current buf) Q
     (mk_ipc (<[n := mk_queue (messages q) (task_id q) 1]> (message_queues s)) (stats s) (blocks s)).
Proof.
  intros Hok -> Hn Hc Hbuf HQ. pose proof (lookup_lt_Some _ _ _ Hn) as Hlt.
  destruct (front_letter s n q Hok Hn Hc) as (a & m & l & Hf & Hql & Ha & Hm & Hlet & Hal & Har).
  pose proof (ok_queues _ _ Hok) as Hq. eapply Forall_lookup in Hq as [Hwf _]; [|done].
  destruct (ring_take_spec _ (messages q) None Hwf Hc) as (p & r & Hf' & Hr & Hwr & Hi & _).
  rewrite Hf in Hf'. injection Hf' as <-.
  assert (items MAX_MESSAGES_PER_QUEUE r = l) as Hil
    by (unfold queued in Hql; rewrite Hi in Hql; by injection Hql).
  destruct (copy_out_spec m buf Hm Hbuf) as (buf' & Hcopy & Hl' & _).
  destruct (take_pop s n q a m l r) as [Hok' Habs]; try done.
  unfold ipc_take. wp_steps. apply wp_read; [done|]. simpl. rewrite Hf. simpl. wp_steps.
  eapply wp_read_block; [done|]. rewrite Hcopy. simpl. wp_steps.
  eapply wp_ring with (f := fun r => ring_take _ r _); [done|exact Hr|]. simpl.
  unfold on_stats. wp_steps. simpl. apply wp_unlock; [done|]. wp_steps. simpl.
  eapply wp_free; [done|]. wp_steps. simpl. eapply HQ; [|exact Hok'|exact Hl'].
  unfold spec_receive. by rewrite Nat2Z.id, (box_at s n q), Hlet, Habs.
Qed.

(** Receiving without waiting: the oldest letter, or nothing and no change. *)
Lemma receive_ok s switch_task fuel buf fl :
  ipc_ok N s -> 0 <= current < Z.of_nat N -> has_flag fl IPC_FLAG_NOWAIT = true ->
  Z.of_nat (length (data buf)) = MAX_MESSAGE_SIZE ->
  wp (ipc_receive_message current switch_task fuel (Some buf) fl)
     (fun r s' => ipc_ok N s' /\
        match spec_receive current (abs s) with
        | (None, m') => r = (IPC_ERR_NO_MESSAGE, Some buf) /\ s' = s /\ m' = abs s
        | (Some l, m') =>
            abs s' = m' /\ exists buf', r = (IPC_SUCCESS, Some buf') /\ letter_of buf' = l
        end) s.
Proof.
  intros Hok Hcur Hfl Hbuf.
  destruct (open_queue N s current) as (n & q & Hn' & Hlt & Hn & [Hwf Hlk] & Hs); [done..|].
  pose proof (count_box N s n q Hok Hn) as Hcount. wp_state Hs.
  unfold ipc_receive_message. rewrite Hfl, Hn'. wp_steps. apply wp_lock; [done|done|].
  wp_steps. apply wp_read; [done|]. simpl.
  destruct (Z.eqb_spec (count (messages q)) 0) as [H0|H0].
  - wp_steps. apply wp_unlock; [done|]. wp_steps. simpl.
    rewrite list_insert_id by (destruct q; simpl in *; by subst).
    unfold spec_receive. rewrite Nat2Z.id, (box_at s n q) by done.
    destruct (letters _ _); [|simpl in *; lia]. split; [by destruct Hok; split|].
    split; [done|]. split; [|done]. by destruct s.
  - rewrite <- Hn'. eapply ipc_take_spec; try done; [destruct Hwf as (_ & _ & _ & ? & _); lia|].
    intros buf' s' l Hspec Hok' Hl. rewrite Hspec. split; [done|]. split; [done|]. eauto.
Qed.

Lemma peek_ok s buf fl :
  ipc_ok N s -> 0 <= current < Z.of_nat N -> Z.of_nat (length (data buf)) = MAX_MESSAGE_SIZE ->
  wp (ipc_peek_message current (Some buf) fl)
     (fun r s' => s' = s /\
        match nth (Z.to_nat current) (boxes (abs s)) [] with
        | [] => r = (IPC_ERR_NO_MESSAGE, Some buf)
        | l :: _ => exists buf', r = (IPC_SUCCESS, Some buf') /\ letter_of buf' = l
        end) s.
Proof.
  intros Hok Hcur Hbuf.
  destruct (open_queue N s current) as (n & q & -> & Hlt & Hn & [Hwf Hlk] & Hs); [done..|].
  pose proof (count_box N s n q Hok Hn) as Hcount. rewrite Nat2Z.id, (box_at s n q) by done.
  assert (s = mk_ipc (<[n := mk_queue (messages q) (task_id q) 0]> (message_queues s))
                (stats s) (blocks s)) as Hs0 by (rewrite <- Hlk; by destruct q).
  wp_state Hs. unfold ipc_peek_message. wp_steps. apply wp_lock; [done|done|].
  wp_steps. apply wp_read; [done|]. simpl.
  destruct (Z.eqb_spec (count (messages q)) 0) as [H0|H0]; wp_steps.
  - apply wp_unlock; [done|]. wp_steps. split; [by rewrite Hs0 at 4|].
    destruct (letters _ _); [done|simpl in *; lia].
  - destruct (front_letter s n q) as (a & m & l & Hf & Hql & Ha & Hm & -> & _);
      [done..|destruct Hwf as (_ & _ & _ & ? & _); lia|].
    destruct (copy_out_spec m buf Hm Hbuf) as (buf' & Hcopy & Hl' & _).
    apply wp_read; [done|]. simpl. rewrite Hf. simpl. wp_steps. eapply wp_read_block; [done|].
    rewrite Hcopy. simpl. wp_steps. apply wp_unlock; [done|]. wp_steps.
    split; [by rewrite Hs0 at 4|]. eauto.
Qed.

Lemma count_ok s :
  ipc_ok N s -> 0 <= current < Z.of_nat N ->
  wp (ipc_message_count current)
     (fun r s' => s' = s /\ r = Z.of_nat (length (nth (Z.to_nat current) (boxes (abs s)) []))) s.
Proof.
  intros Hok Hcur.
  destruct (open_queue N s current) as (n & q & -> & Hlt & Hn & [Hwf Hlk] & Hs); [done..|].
  pose proof (count_box N s n q Hok Hn) as Hcount. rewrite Nat2Z.id, (box_at s n q), Hcount by done.
  wp_state Hs. unfold ipc_message_count. wp_steps. apply wp_lock; [done|done|].
  wp_steps. apply wp_read; [done|]. wp_steps. apply wp_unlock; [done|]. wp_steps.
  split; [|done]. rewrite Hs at 4. simpl. rewrite <- Hlk. by destruct q.
Qed.

End Receive.

(** ** Flushing *)

Definition free_one (b : gmap addr ipc_message) (p : ptr) : gmap addr ipc_message :=
  match p with Some a => delete a b | None => b end.
Definition free_all (l : list ptr) (b : gmap addr ipc_message) : gmap addr ipc_message :=
  fold_left free_one l b.

Lemma free_all_lookup l b a : Some a ∉ l -> free_all l b !! a = b !! a.
Proof.
  revert b. induction l as [|p l IH]; intros b Ha; [done|]. simpl.
  unfold free_all in IH. rewrite IH by set_solver.
  destruct p as [c|]; [|done]. simpl. apply lookup_delete_ne. set_solver.
Qed.

Lemma free_all_keys l l' b : l ++ l' ≡ₚ keys b -> l' ≡ₚ keys (free_all l b).
Proof.
  revert b. induction l as [|p l IH]; intros b Hp; [done|]. apply IH.
  assert (p ∈ keys b) as Hin by (rewrite <- Hp; by left).
  pose proof Hin as (a & -> & _)%list_elem_of_fmap.
  apply elem_of_keys in Hin as [m Hm]. by eapply keys_delete.
Qed.

Lemma free_all_ok l b :
  map_Forall (fun _ m => message_ok m) b -> map_Forall (fun _ m => message_ok m) (free_all l b).
Proof.
  revert b. induction l as [|p l IH]; intros b Hb; [done|]. apply IH.
  destruct p; [by apply map_Forall_delete|done].
Qed.

(** The loop frees what is queued, in order, and leaves only empty slots. *)
Lemma flush_loop_spec n qs st l b q i f Q :
  (n < length qs)%nat -> ring_wf MAX_MESSAGES_PER_QUEUE (messages q) -> 0 <= i ->
  queued q = replicate (Z.to_nat i) None ++ l -> NoDup l ->
  (forall p, p ∈ l -> exists a m, p = Some a /\ b !! a = Some m) ->
  (forall r, ring_wf MAX_MESSAGES_PER_QUEUE r ->
     Q (f + Z.of_nat (length l))
       (mk_ipc (<[n := mk_queue r (task_id q) (lock q)]> qs) st (free_all l b))) ->
  wp (flush_loop (Z.of_nat n) (length l) i f) Q (mk_ipc (<[n := q]> qs) st b).
Proof.
  intros Hn. revert b q i f. induction l as [|p l IH]; intros b q i f Hwf Hi Hq Hnd Hlive HQ.
  - cbn [flush_loop length]. wp_steps. rewrite <- (Z.add_0_r f).
    replace (mk_ipc (<[n := q]> qs) st b)
      with (mk_ipc (<[n := mk_queue (messages q) (task_id q) (lock q)]> qs) st b)
      by by destruct q. by apply HQ.
  - cbn [flush_loop length]. wp_steps. apply wp_read; [done|].
    pose proof (items_length _ _ Hwf) as Hlen. fold (queued q) in Hlen.
    rewrite Hq, length_app, length_replicate in Hlen. simpl in Hlen.
    destruct (Hlive p) as (a & m & -> & Ha); [by left|]. apply NoDup_cons in Hnd as [Hal Hnd].
    rewrite ring_nth_items by (done || lia). fold (queued q).
    rewrite Hq, lookup_app_r by (rewrite length_replicate; lia).
    rewrite length_replicate, Nat.sub_diag. simpl. wp_steps.
    eapply wp_free; [done|]. wp_steps. simpl.
    destruct (ring_set_spec _ (messages q) i None Hwf) as (r & Hr & Hwr & Hir & Hcr); [lia|].
    eapply wp_ring with (f := fun r => ring_set _ r _ _); [done|exact Hr|]. simpl.
    apply IH; [done|lia| |done| |].
    + unfold queued; simpl. rewrite Hir. fold (queued q). rewrite Hq.
      rewrite insert_app_r_alt by (rewrite length_replicate; lia).
      rewrite length_replicate, Nat.sub_diag. simpl.
      replace (Z.to_nat (i + 1)) with (Z.to_nat i + 1)%nat by lia.
      rewrite replicate_add, <- app_assoc. done.
    + intros p Hp. destruct (Hlive p) as (a' & m' & -> & Ha'); [by right|].
      exists a', m'. split; [done|]. rewrite lookup_delete_ne; [done|]. congruence.
    + intros r' Hr'. replace (f + 1 + Z.of_nat (length l)) with (f + Z.of_nat (S (length l))) by lia.
      by apply HQ.
Qed.

Lemma flush_ok N current s tid :
  ipc_ok N s ->
  let t := if tid =? -1 then current else tid in
  wp (ipc_flush_messages N current tid)
     (fun r s' => ipc_ok N s' /\
        (r, abs s') = if (t <? 0) || (Z.of_nat N <=? t) then (IPC_ERR_INVALID_PARAM, abs s)
                      else spec_flush t (abs s)) s.
Proof.
  intros Hok t. unfold ipc_flush_messages. fold t. case_if; [done|]. bools.
  destruct (open_queue N s t) as (n & q & Ht & Hlt & Hn & [Hwf Hlk] & Hs); [done|lia|].
  pose proof (count_box N s n q Hok Hn) as Hcount. pose proof (ok_owned _ _ Hok) as Hown.
  rewrite owned_at in Hown by done.
  unfold spec_flush. rewrite Ht, Nat2Z.id, (box_at s n q), (letters_length N s n) by done.
  remember (abs s) as m eqn:Em. wp_state Hs. wp_steps.
  apply wp_lock; [done|done|]. wp_steps. apply wp_read; [done|]. wp_steps. simpl.
  pose proof (items_length _ _ Hwf) as Hlen. fold (queued q) in Hlen.
  replace (Z.to_nat (count (messages q))) with (length (queued q)) by lia.
  apply flush_loop_spec; [done|done|lia|done| | |].
  - pose proof (keys_NoDup (blocks s)) as Hnd. rewrite <- Hown in Hnd. by apply NoDup_app in Hnd as [? _].
  - intros p Hp. destruct (queued_live N s n q p) as (a & m' & -> & ? & _); eauto.
  - intros r Hr. wp_steps. apply wp_on_queue; [done|]. unfold set_messages. wp_steps. simpl.
    apply wp_unlock; [done|]. wp_steps. simpl. split.
    + eapply ipc_ok_insert; [done|done| | |].
      * split; [|done]. destruct Hr as (? & ? & _). unfold ring_wf; simpl. repeat split; lia.
      * by apply free_all_keys.
      * apply free_all_ok, Hok.
    + f_equal. rewrite Em. unfold abs at 1. simpl. f_equal.
      rewrite (boxes_insert _ n q _ (blocks s)); [done|done|].
      intros a Ha. apply free_all_lookup. intros Ha'.
      pose proof (keys_NoDup (blocks s)) as Hnd. rewrite <- Hown in Hnd.
      apply NoDup_app in Hnd as (_ & Hnd & _). by apply (Hnd (Some a)).
Qed.

(** ** Any sequence of calls *)

(** What is asked of [malloc]: a block that is not in use, of the size asked for. *)
Class Allocator (malloc : gmap addr ipc_message -> option (addr * ipc_message)) : Prop :=
  malloc_fresh b a g :
    malloc b = Some (a, g) -> b !! a = None /\ Z.of_nat (length (data g)) = MAX_MESSAGE_SIZE.

(** A call, the task [t] that makes it first. *)
Inductive call : Type :=
| CSend (t to ty : Z) (dat : option (list Z)) (sz fl : Z)
    (malloc : gmap addr ipc_message -> option (addr * ipc_message))
| CReceive (t : Z) (buf : option ipc_message) (fl : Z)
| CPeek (t : Z) (buf : option ipc_message) (fl : Z)
| CCount (t : Z)
| CFlush (t tid : Z)
| CReset (t : Z)
| CStats (t : Z).

(** What the caller sees: a number, a code with the letter delivered, or the counters. *)
Inductive answer : Type :=
| ACode (r : Z)
| ALetter (r : Z) (l : option letter)
| AStats (c : ipc_stats).

Definition delivered (r : Z * option ipc_message) : answer :=
  ALetter r.1 (if r.1 =? IPC_SUCCESS then letter_of <$> r.2 else None).

Definition run_call (N : nat) (c : call) : M ipc answer :=
  match c with
  | CSend t to ty dat sz fl malloc =>
      s <- get ;;
      r <- ipc_send_message N t to ty dat sz fl (malloc (blocks s)) ;; ret (ACode r)
  | CReceive t buf fl =>
      r <- ipc_receive_message t (fun _ s => s) 0 buf fl ;; ret (delivered r)
  | CPeek t buf fl => r <- ipc_peek_message t buf fl ;; ret (delivered r)
  | CCount t => r <- ipc_message_count t ;; ret (ACode r)
  | CFlush t tid => r <- ipc_flush_messages N t tid ;; ret (ACode r)
  | CReset t => ipc_reset_statistics ;;; ret (ACode 0)
  | CStats t => r <- ipc_get_statistics (Some no_stats) ;; ret (AStats (default no_stats r))
  end.

Fixpoint run (N : nat) (cs : list call) : M ipc (list answer) :=
  match cs with
  | [] => ret []
  | c :: cs' => a <- run_call N c ;; l <- run N cs' ;; ret (a :: l)
  end.

(** What the C types and the callers guarantee: task numbers in range, message
    buffers of full size, a data pointer with at least [size] bytes behind it,
    [IPC_FLAG_NOWAIT] (waiting is treated below). *)
Definition call_ok (N : nat) (c : call) : Prop :=
  match c with
  | CSend _ _ _ dat sz _ malloc =>
      Allocator malloc /\ forall src, dat = Some src -> sz <= Z.of_nat (length src)
  | CReceive t buf fl =>
      0 <= t < Z.of_nat N /\ (forall b, buf = Some b -> Z.of_nat (length (data b)) = MAX_MESSAGE_SIZE) /\
      has_flag fl IPC_FLAG_NOWAIT = true
  | CPeek t buf _ => 0 <= t < Z.of_nat N /\ forall b, buf = Some b -> Z.of_nat (length (data b)) = MAX_MESSAGE_SIZE
  | CCount t => 0 <= t < Z.of_nat N
  | CFlush _ _ | CReset _ | CStats _ => True
  end.

(** The mailboxes as a transition system: a send may find no memory, and a send
    with no data pointer puts arbitrary bytes into the letter. *)
Inductive mail_step (N : nat) (m : mail) : call -> answer -> mail -> Prop :=
| ms_send t to ty dat sz fl malloc (mem : bool) pay :
    (mem = true -> forall src, dat = Some src -> pay = take (Z.to_nat sz) src) ->
    let out := spec_send N to (mk_letter t ty fl sz pay) mem m in
    mail_step N m (CSend t to ty dat sz fl malloc) (ACode out.1) out.2
| ms_receive_none t buf fl :
    nth (Z.to_nat t) (boxes m) [] = [] ->
    mail_step N m (CReceive t (Some buf) fl) (ALetter IPC_ERR_NO_MESSAGE None) m
| ms_receive t buf fl l m' :
    spec_receive t m = (Some l, m') ->
    mail_step N m (CReceive t (Some buf) fl) (ALetter IPC_SUCCESS (Some l)) m'
| ms_receive_null t fl : mail_step N m (CReceive t None fl) (ALetter IPC_ERR_INVALID_PARAM None) m
| ms_peek_null t fl : mail_step N m (CPeek t None fl) (ALetter IPC_ERR_INVALID_PARAM None) m
| ms_peek t buf fl :
    mail_step N m (CPeek t (Some buf) fl)
      (match nth (Z.to_nat t) (boxes m) [] with
       | [] => ALetter IPC_ERR_NO_MESSAGE None
       | l :: _ => ALetter IPC_SUCCESS (Some l)
       end) m
| ms_count t :
    mail_step N m (CCount t) (ACode (Z.of_nat (length (nth (Z.to_nat t) (boxes m) [])))) m
| ms_flush_bad t tid :
    let u := if tid =? -1 then t else tid in
    u < 0 \/ Z.of_nat N <= u -> mail_step N m (CFlush t tid) (ACode IPC_ERR_INVALID_PARAM) m
| ms_flush t tid :
    let u := if tid =? -1 then t else tid in
    0 <= u < Z.of_nat N ->
    mail_step N m (CFlush t tid) (ACode (spec_flush u m).1) (spec_flush u m).2
| ms_reset t : mail_step N m (CReset t) (ACode 0) (mk_mail (boxes m) no_stats)
| ms_stats t : mail_step N m (CStats t) (AStats (tally m)) m.

Inductive mail_run (N : nat) : mail -> list call -> list answer -> mail -> Prop :=
| mr_nil m : mail_run N m [] [] m
| mr_cons m c a m' cs l m'' :
    mail_step N m c a m' -> mail_run N m' cs l m'' -> mail_run N m (c :: cs) (a :: l) m''.

Section Calls.
Context (N : nat).

Lemma run_call_ok s c :
  ipc_ok N s -> call_ok N c ->
  wp (run_call N c) (fun a s' => ipc_ok N s' /\ mail_step N (abs s) c a (abs s')) s.
Proof.
  intros Hok Hc. destruct c; cbn [run_call call_ok] in *; wp_steps.
  - destruct Hc as [Hm Hd]. eapply wp_mono.
    + apply send_ok; [done|intros a g; apply Hm|done].
    + intros r s' [Hok' He]. wp_steps. split; [done|].
      rewrite (f_equal fst He : r = _), (f_equal snd He : abs s' = _). constructor.
      destruct (malloc (blocks s)) as [[a g]|]; [|done]. intros _ src ->. done.
  - destruct Hc as (Ht & Hb & Hf). destruct buf as [buf|]; [|unfold ipc_receive_message; wp_steps; split; [done|constructor]].
    eapply wp_mono; [eapply (receive_ok N); try done; by apply Hb|].
    intros r s' [Hok' Hr]. wp_steps. split; [done|].
    destruct (spec_receive t (abs s)) as [[l|] m'] eqn:E.
    + destruct Hr as (-> & buf' & -> & <-). by constructor.
    + destruct Hr as (-> & -> & _). constructor. unfold spec_receive in E.
      by destruct (nth _ _ _).
  - destruct Hc as [Ht Hb]. destruct buf as [buf|]; [|unfold ipc_peek_message; wp_steps; split; [done|constructor]].
    eapply wp_mono; [eapply (peek_ok N); try done; by apply Hb|].
    intros r s' [-> Hr]. wp_steps. split; [done|].
    replace (delivered r) with
      (match nth (Z.to_nat t) (boxes (abs s)) [] with
       | [] => ALetter IPC_ERR_NO_MESSAGE None | l :: _ => ALetter IPC_SUCCESS (Some l) end).
    + constructor.
    + destruct (nth _ _ _); [by subst|]. by destruct Hr as (buf' & -> & <-).
  - eapply wp_mono; [by eapply (count_ok N)|]. intros r s' [-> ->]. wp_steps. split; [done|]. constructor.
  - eapply wp_mono; [by eapply (flush_ok N)|]. intros r s' [Hok' He]. wp_steps. split; [done|].
    match type of He with context [if ?b then _ else _] => destruct b eqn:E end.
    + rewrite (f_equal fst He : r = _), (f_equal snd He : abs s' = _). apply ms_flush_bad. apply orb_true_iff in E as [?|?]; bools; lia.
    + bools. rewrite (f_equal fst He : r = _), (f_equal snd He : abs s' = _). apply ms_flush. lia.
  - unfold ipc_reset_statistics, on_stats. wp_steps. split; [by destruct Hok; split|]. constructor.
  - simpl. unfold ipc_get_statistics. wp_steps. split; [done|]. constructor.
Qed.

(** C2. Message passing refines bounded mailboxes. The tasks, whose numbers are
    below [MAX_TASKS], may make any sequence of calls: sends with any arguments
    (a data pointer has as many bytes behind it as the size says; [malloc] may
    fail, and gives a block that is not in use when it does not), receives that
    do not wait (with [IPC_FLAG_NOWAIT]; receives that wait are treated
    separately) and peeks into a buffer or into NULL, counts, flushes, and the
    counters. Every call returns, and the answers are those of a run of the
    mailbox machine from the abstraction of the first state to the abstraction of
    the last. Each letter arrives unchanged and in order, a full box or a bad
    argument is refused with its code, and no block is leaked, freed twice or left
    queued after its release. *)
Theorem ipc_calls_refine_mailboxes s cs :
  ipc_ok N s -> Forall (call_ok N) cs ->
  wp (run N cs) (fun l s' => ipc_ok N s' /\ mail_run N (abs s) cs l (abs s')) s.
Proof.
  intros Hok Hcs. revert s Hok. induction Hcs as [|c cs Hc _ IH]; intros s Hok; simpl; wp_steps.
  - split; [done|constructor].
  - eapply wp_mono; [by apply run_call_ok|]. intros a s1 [Hok1 Ha]. wp_steps.
    eapply wp_mono; [by apply IH|]. intros l s2 [Hok2 Hl]. wp_steps. split; [done|].
    by econstructor.
Qed.

End Calls.

(** An allocator that hands out blank blocks. *)
Definition bump (b : gmap addr ipc_message) : option (addr * ipc_message) :=
  Some (fresh (dom b), blank).

#[export] Instance bump_ok : Allocator bump.
Proof.
  intros b a g [= <- <-]. split; [|done]. apply not_elem_of_dom. apply is_fresh.
Qed.

Definition demo_calls : list call :=
  [CSend 0 1 7 (Some [10; 20; 30]) 3 0 bump; CCount 1; CSend 0 9 7 None 0 0 bump;
   CReceive 1 (Some blank) 1; CReceive 1 (Some blank) 1].

Lemma ipc_calls_refine_mailboxes_witness :
  wp (run 2 demo_calls) (fun l s' => ipc_ok 2 s' /\ mail_run 2 (abs (started 2)) demo_calls l (abs s'))
     (started 2).
Proof.
  apply (ipc_calls_refine_mailboxes 2 (started 2) demo_calls).
  - apply started_ok.
  - unfold demo_calls. repeat apply Forall_cons_2; try apply Forall_nil_2; simpl.
    + split; [apply bump_ok|]. intros src [= <-]. simpl. lia.
    + lia.
    + split; [apply bump_ok|]. discriminate.
    + split; [lia|]. split; [by intros b [= <-]|reflexivity].
    + split; [lia|]. split; [by intros b [= <-]|reflexivity].
Defined.

(** ** Order of delivery *)

Section Fifo.
Context (N : nat) (from to : Z) (malloc : gmap addr ipc_message -> option (addr * ipc_message)).
Context `{!Allocator malloc}.

(** One letter to send: type, flags and bytes. *)
Definition send_of (x : Z * Z * list Z) : call :=
  CSend from to x.1.1 (Some x.2) (Z.of_nat (length x.2)) x.1.2 malloc.
Definition letter_for (x : Z * Z * list Z) : letter :=
  mk_letter from x.1.1 x.1.2 (Z.of_nat (length x.2)) x.2.

Lemma run_app cs cs' s Q :
  wp (run N cs) (fun l s' => wp (run N cs') (fun l' s'' => Q (l ++ l') s'') s') s ->
  wp (run N (cs ++ cs')) Q s.
Proof.
  revert s Q. induction cs as [|c cs IH]; intros s Q; simpl; [done|]. wp_steps.
  intros H. eapply wp_mono; [exact H|]. intros a s1 H1. wp_steps. apply IH.
  apply wp_bind in H1. eapply wp_mono; [exact H1|]. intros l s2 H2. exact H2.
Qed.

Lemma run_sends xs s Q :
  ipc_ok N s -> 0 <= to < Z.of_nat N ->
  (forall b, is_Some (malloc b)) ->
  Forall (fun x => Z.of_nat (length x.2) <= MAX_MESSAGE_SIZE) xs ->
  Z.of_nat (length (nth (Z.to_nat to) (boxes (abs s)) []) + length xs) <= MAX_MESSAGES_PER_QUEUE ->
  (forall s', ipc_ok N s' ->
     nth (Z.to_nat to) (boxes (abs s')) [] =
     nth (Z.to_nat to) (boxes (abs s)) [] ++ (letter_for <$> xs) ->
     Q (replicate (length xs) (ACode IPC_SUCCESS)) s') ->
  wp (run N (send_of <$> xs)) Q s.
Proof.
  intros Hok Hto Hmem Hxs. revert s Q Hok. induction Hxs as [|x xs Hx _ IH]; intros s Q Hok Hroom HQ.
  - apply HQ; [done|]. by rewrite app_nil_r.
  - cbn [run fmap list_fmap]. wp_steps. cbn [run_call send_of]. wp_steps.
    eapply wp_mono; [apply send_ok; [done|intros ??; apply malloc_fresh|by intros ? [= <-]]|].
    intros r s1 [Hok1 He]. wp_steps. destruct (Hmem (blocks s)) as [[a g] Hag]. rewrite Hag in He.
    unfold spec_send in He. cbn [l_size] in He. cbn [length] in Hroom.
    match type of He with context [if ?b then _ else _] => destruct b eqn:E end.
    { exfalso. repeat (apply orb_true_iff in E as [E|E]); bools; lia. }
    clear E. cbn [negb] in He.
    match type of He with context [if ?b then _ else _] => destruct b eqn:E end; bools; [lia|].
    rewrite (f_equal fst He : r = _). simpl. apply (f_equal snd) in He. cbn [snd] in He.
    assert (nth (Z.to_nat to) (boxes (abs s1)) [] =
            nth (Z.to_nat to) (boxes (abs s)) [] ++ [letter_for x]) as Hb.
    { rewrite He. cbn [boxes]. apply nth_lookup_Some. unfold payload. cbn [default id from_option].
      rewrite Nat2Z.id, take_ge by done. apply list_lookup_insert_eq.
      simpl. rewrite length_fmap, (ok_length _ _ Hok). lia. }
    apply IH; [done| |].
    + rewrite Hb, length_app. cbn [length]. lia.
    + intros s' Hok' Hs'. wp_steps. apply HQ; [done|]. rewrite Hs', Hb, <- app_assoc. done.
Qed.

Lemma run_receives ls buf fl s Q :
  ipc_ok N s -> 0 <= to < Z.of_nat N -> Z.of_nat (length (data buf)) = MAX_MESSAGE_SIZE ->
  has_flag fl IPC_FLAG_NOWAIT = true ->
  nth (Z.to_nat to) (boxes (abs s)) [] = ls ->
  (forall s', ipc_ok N s' -> nth (Z.to_nat to) (boxes (abs s')) [] = [] ->
     Q ((fun l => ALetter IPC_SUCCESS (Some l)) <$> ls) s') ->
  wp (run N (replicate (length ls) (CReceive to (Some buf) fl))) Q s.
Proof.
  intros Hok Hto Hbuf Hfl. revert s Q Hok. induction ls as [|l ls IH]; intros s Q Hok Hbox HQ.
  - by apply HQ.
  - cbn [run replicate length]. wp_steps. cbn [run_call]. wp_steps.
    eapply wp_mono; [by eapply (receive_ok N)|]. intros r s1 [Hok1 Hr]. wp_steps.
    unfold spec_receive in Hr. rewrite Hbox in Hr. destruct Hr as (Habs & buf' & -> & <-).
    apply IH; [done| |].
    + rewrite Habs. simpl. apply nth_lookup_Some. apply list_lookup_insert_eq.
      rewrite length_fmap, (ok_length _ _ Hok). lia.
    + intros s' Hok' Hs'. wp_steps. by apply HQ.
Qed.

(** Round trip and order: up to 32 messages of at most 256 bytes sent to a
    task whose box is empty, while [malloc] does not fail, are all accepted, and
    that task's next receives return the same messages, in the order they were
    sent, each with its sender, type, flags, size and bytes. The order is that of
    the sends also for messages with [IPC_FLAG_PRIORITY], which ipc.h calls "high
    priority" and the code does not look at. *)
Theorem ipc_fifo xs buf fl s :
  ipc_ok N s -> 0 <= to < Z.of_nat N -> (forall b, is_Some (malloc b)) ->
  Forall (fun x => Z.of_nat (length x.2) <= MAX_MESSAGE_SIZE) xs ->
  Z.of_nat (length xs) <= MAX_MESSAGES_PER_QUEUE ->
  nth (Z.to_nat to) (boxes (abs s)) [] = [] ->
  Z.of_nat (length (data buf)) = MAX_MESSAGE_SIZE -> has_flag fl IPC_FLAG_NOWAIT = true ->
  wp (run N ((send_of <$> xs) ++ replicate (length xs) (CReceive to (Some buf) fl)))
     (fun answers s' => ipc_ok N s' /\
        answers = replicate (length xs) (ACode IPC_SUCCESS) ++
                  ((fun x => ALetter IPC_SUCCESS (Some (letter_for x))) <$> xs)) s.
Proof.
  intros Hok Hto Hmem Hxs Hroom Hbox Hbuf Hfl. apply run_app.
  apply run_sends; [done..|by rewrite Hbox|]. intros s1 Hok1 Hs1. rewrite Hbox in Hs1.
  rewrite <- (length_fmap letter_for xs). eapply run_receives; [done..|].
  intros s2 Hok2 _. split; [done|]. by rewrite length_fmap, <- list_fmap_compose.
Qed.

End Fifo.

Lemma ipc_fifo_witness :
  wp (run 2 ((send_of 0 1 bump <$> [(7, 0, [10; 20; 30]); (8, 2, [])]) ++
             replicate 2 (CReceive 1 (Some blank) 1)))
     (fun answers s' => ipc_ok 2 s' /\
        answers = [ACode 0; ACode 0; ALetter 0 (Some (mk_letter 0 7 0 3 [10; 20; 30]));
                   ALetter 0 (Some (mk_letter 0 8 2 0 []))]) (started 2).
Proof.
  apply (ipc_fifo 2 0 1 bump [(7, 0, [10; 20; 30]); (8, 2, [])] blank 1 (started 2));
    try reflexivity.
  - apply started_ok.
  - lia.
  - intros b. eexists. reflexivity.
  - repeat constructor; simpl; discriminate.
  - simpl. discriminate.
Defined.

(** ** Waiting for a message *)

Section Wait.
Context (N : nat) (current : Z) (switch_task : nat -> ipc -> ipc).

(** The kernel's state after [n] switches from [s], [k] switches made before. *)
Fixpoint switched (k n : nat) (s : ipc) : ipc :=
  match n with
  | O => s
  | S n' => switched (S k) n' (switch_task k s)
  end.

Definition box (s : ipc) : list letter := nth (Z.to_nat current) (boxes (abs s)) [].

Definition locked (n : nat) (q : message_queue) (s : ipc) : ipc :=
  mk_ipc (<[n := mk_queue (messages q) (task_id q) 1]> (message_queues s)) (stats s) (blocks s).

(** One round of the loop: look again after a switch. *)
Lemma ipc_wait_round fuel k s n q :
  let s1 := switch_task k s in
  current = Z.of_nat n -> message_queues s1 !! n = Some q -> lock q = 0 ->
  ipc_wait current switch_task (S fuel) k s =
  if 0 <? count (messages q) then Ret (tt, locked n q s1)
  else ipc_wait current switch_task fuel (S k) s1.
Proof.
  intros s1 -> Hn Hl. pose proof (lookup_lt_Some _ _ _ Hn) as Hlt.
  cbn [ipc_wait]. unfold bind, modify, on_queue, Sync.acquire, Sync.release, gets, modify.
  fold s1. rewrite !arr_get_nat, Hn, Nat2Z.id. simpl. rewrite Hl. simpl.
  rewrite !arr_get_nat, !list_lookup_insert_eq by done. simpl.
  destruct (0 <? count (messages q)).
  - unfold ret, locked. simpl. by rewrite list_insert_insert_eq.
  - rewrite arr_get_nat, list_insert_insert_eq. simpl.
    rewrite (list_lookup_insert_eq (message_queues s1) n) by done.
    rewrite list_insert_insert_eq, list_insert_id by (destruct q; simpl in *; by subst).
    by destruct s1.
Qed.

Lemma ipc_wait_spin fuel k s :
  0 <= current < Z.of_nat N ->
  (forall j, (j < fuel)%nat -> ipc_ok N (switched k (S j) s) /\ box (switched k (S j) s) = []) ->
  ipc_wait current switch_task fuel k s = Spin.
Proof.
  intros Hcur. revert k s. induction fuel as [|fuel IH]; intros k s Hj; [done|].
  destruct (Hj 0%nat) as [Hok Hb]; [lia|]. cbn [switched] in Hok, Hb.
  destruct (open_queue N _ current Hok Hcur) as (n & q & Hi & _ & Hn & [_ Hlk] & _).
  rewrite (ipc_wait_round fuel k s n q) by done.
  pose proof (count_box N _ n q Hok Hn) as Hcount.
  unfold box in Hb. rewrite Hi, Nat2Z.id, (box_at _ n q Hn) in Hb.
  rewrite <- Hcount, Hb. apply IH. intros j Hlt. apply (Hj (S j)). lia.
Qed.

Lemma ipc_wait_returns n fuel k s :
  0 <= current < Z.of_nat N -> (n < fuel)%nat ->
  (forall j, (j < n)%nat -> ipc_ok N (switched k (S j) s) /\ box (switched k (S j) s) = []) ->
  ipc_ok N (switched k (S n) s) -> box (switched k (S n) s) <> [] ->
  exists i q, current = Z.of_nat i /\ message_queues (switched k (S n) s) !! i = Some q /\
    0 < count (messages q) /\
    ipc_wait current switch_task fuel k s = Ret (tt, locked i q (switched k (S n) s)).
Proof.
  intros Hcur. revert k s fuel. induction n as [|n IH]; intros k s fuel Hf Hj Hok Hb;
    (destruct fuel as [|fuel]; [lia|]).
  - cbn [switched] in *.
    destruct (open_queue N _ current Hok Hcur) as (i & q & Hi & _ & Hn & [_ Hlk] & _).
    pose proof (count_box N _ i q Hok Hn) as Hcount.
    unfold box in Hb. rewrite Hi, Nat2Z.id, (box_at _ i q Hn) in Hb.
    assert (0 < count (messages q)) as Hc.
    { rewrite <- Hcount. destruct (letters _ _); simpl; [done|lia]. }
    exists i, q. split; [done|]. split; [done|]. split; [done|].
    rewrite (ipc_wait_round fuel k s i q) by done. by rewrite (proj2 (Z.ltb_lt _ _) Hc).
  - destruct (IH (S k) (switch_task k s) fuel) as (i & q & Hi & Hq & Hc & Hw); [lia| |done..|].
    { intros j Hlt. apply (Hj (S j)). lia. }
    exists i, q. split; [done|]. split; [done|]. split; [done|].
    change (switched k (S (S n)) s) with (switched (S k) (S n) (switch_task k s)). rewrite <- Hw.
    destruct (Hj 0%nat) as [Hok0 Hb0]; [lia|]. cbn [switched] in Hok0, Hb0.
    destruct (open_queue N _ current Hok0 Hcur) as (i0 & q0 & Hi0 & _ & Hn0 & [_ Hlk0] & _).
    rewrite (ipc_wait_round fuel k s i0 q0) by done.
    unfold box in Hb0. rewrite Hi0, Nat2Z.id, (box_at _ i0 q0 Hn0) in Hb0.
    by rewrite <- (count_box N _ i0 q0 Hok0 Hn0), Hb0.
Qed.

(** Entering [ipc_receive_message] with an empty box and leave to wait. *)
Lemma receive_waits s fuel buf fl :
  ipc_ok N s -> 0 <= current < Z.of_nat N -> has_flag fl IPC_FLAG_NOWAIT = false -> box s = [] ->
  ipc_receive_message current switch_task fuel (Some buf) fl s =
  bind (ipc_wait current switch_task fuel 0) (fun _ => ipc_take current buf) s.
Proof.
  intros Hok Hcur Hfl Hb.
  destruct (open_queue N s current Hok Hcur) as (n & q & Hi & Hlt & Hn & [_ Hlk] & _).
  pose proof (count_box N s n q Hok Hn) as Hcount.
  unfold box in Hb. rewrite Hi, Nat2Z.id, (box_at s n q Hn) in Hb. rewrite Hi. rewrite Hb in Hcount. simpl in Hcount.
  unfold ipc_receive_message. rewrite Hfl. unfold bind at 1.
  unfold on_queue at 1, Sync.acquire. rewrite arr_get_nat, Hn, Nat2Z.id. simpl. rewrite Hlk. simpl.
  unfold bind at 1, on_queue at 1. rewrite arr_get_nat. simpl. rewrite list_lookup_insert_eq by done.
  unfold gets. simpl. rewrite <- Hcount, Nat2Z.id, list_insert_insert_eq. simpl.
  unfold bind at 1, on_queue at 1. rewrite arr_get_nat. simpl. rewrite list_lookup_insert_eq by done.
  unfold Sync.release at 1, modify. simpl. rewrite Nat2Z.id, list_insert_insert_eq.
  unfold bind at 1, on_queue at 1. rewrite arr_get_nat. simpl. rewrite list_lookup_insert_eq by done.
  unfold Sync.release, modify. simpl. rewrite Nat2Z.id, list_insert_insert_eq.
  rewrite list_insert_id by (destruct q; simpl in *; by subst). by destruct s.
Qed.

(** A receive that may wait, on an empty box: if the box is still empty after
    each of the first [n] switches and holds a letter after the next one, the
    call returns then, with the oldest letter of that box, which it removes;
    as long as no letter comes, it does not return. Other tasks may do anything
    in between that keeps the invariant. *)
Theorem ipc_receive_waits_for_letter s n fuel buf fl :
  ipc_ok N s -> 0 <= current < Z.of_nat N -> has_flag fl IPC_FLAG_NOWAIT = false ->
  Z.of_nat (length (data buf)) = MAX_MESSAGE_SIZE -> box s = [] ->
  (forall j, (j < n)%nat -> ipc_ok N (switched 0 (S j) s) /\ box (switched 0 (S j) s) = []) ->
  ((fuel <= n)%nat -> ipc_receive_message current switch_task fuel (Some buf) fl s = Spin) /\
  ((n < fuel)%nat -> ipc_ok N (switched 0 (S n) s) ->
   forall l rest, box (switched 0 (S n) s) = l :: rest ->
   wp (ipc_receive_message current switch_task fuel (Some buf) fl)
      (fun r s' => ipc_ok N s' /\
         (exists buf', r = (IPC_SUCCESS, Some buf') /\ letter_of buf' = l) /\
         spec_receive current (abs (switched 0 (S n) s)) = (Some l, abs s')) s).
Proof.
  intros Hok Hcur Hfl Hbuf Hb Hj. split.
  - intros Hle. rewrite receive_waits by done. unfold bind.
    rewrite ipc_wait_spin; [done|done|]. intros j Hlt. apply Hj. lia.
  - intros Hlt Hokn l rest Hbn.
    destruct (ipc_wait_returns n fuel 0 s) as (i & q & Hi & Hq & Hc & Hw); try done.
    { by rewrite Hbn. }
    unfold wp. rewrite receive_waits by done. unfold bind. rewrite Hw.
    apply (ipc_take_spec N current (switched 0 (S n) s) i q); try done.
    intros buf' s' l' Hspec Hok' Hl'. split; [done|]. rewrite Hspec.
    unfold box in Hbn. unfold spec_receive in Hspec. rewrite Hbn in Hspec. injection Hspec as <- _.
    split; [eauto|done].
Qed.

End Wait.

(** A letter from task 0 waits for task 1. *)
Definition one_letter : ipc :=
  mk_ipc (<[1%nat := mk_queue (mk_ring (<[0%nat := Some 5%positive]> (replicate 32 None)) 0 1 1) 1 0]>
            (message_queues (started 2)))
    (count_sent no_stats) {[ 5%positive := mk_message 0 7 0 3 ([1; 2; 3] ++ replicate 253 0) ]}.

Lemma one_letter_ok : ipc_ok 2 one_letter.
Proof.
  apply (send_push 2 (started 2) 1 (mk_queue (ring_empty MAX_MESSAGES_PER_QUEUE None) 1 0) 5
    (mk_message 0 7 0 3 ([1; 2; 3] ++ replicate 253 0))
    (mk_ring (<[0%nat := Some 5%positive]> (replicate 32 None)) 0 1 1)); try done.
  apply started_ok.
Qed.

Lemma ipc_receive_waits_for_letter_witness :
  wp (ipc_receive_message 1 (fun k s => if (k =? 1)%nat then one_letter else s) 5 (Some blank) 0)
     (fun r s' => ipc_ok 2 s' /\
        (exists buf', r = (IPC_SUCCESS, Some buf') /\ letter_of buf' = mk_letter 0 7 0 3 [1; 2; 3]) /\
        spec_receive 1 (abs one_letter) = (Some (mk_letter 0 7 0 3 [1; 2; 3]), abs s')) (started 2).
Proof.
  eapply (ipc_receive_waits_for_letter 2 1 (fun k s => if (k =? 1)%nat then one_letter else s)
    (started 2) 1 5 blank 0); try reflexivity.
  - apply started_ok.
  - lia.
  - intros [|j] Hj; [split; [apply started_ok|reflexivity]|lia].
  - lia.
  - apply one_letter_ok.
Defined.

End Ipc.
