(* ===== verification/Scheduler.v ===== *)
(** * The priority scheduler ([kernel/scheduler.c], [task_switch_to] and
      [task_setup_context] of [kernel/task.c])

    One definition per function. The state is the static [scheduler] structure
    with the memory it reaches; tasks are objects of a store, named by address,
    because the same [task_t] is reached through ready queues, the sleeping
    list, the per-CPU state and the caller. The two linked lists (sleeping
    tasks and waiting parents) own their entries and are lists. Reading a task
    that was freed is a [Fault], so that the theorems about calls that return
    also say that no freed task is used. *)

From Stdlib Require Import ZArith Lia String.
From stdpp Require Import base tactics option list gmap strings pretty.
From S2P Require Import Prelude Ring Sync.

Set Default Goal Selector "!".
Local Open Scope Z_scope.
Local Open Scope kernel_scope.

Module Scheduler.
Import Ring.

(** ** Configuration *)

Definition MAX_TASKS : Z := 256.
Definition MAX_PRIORITY : Z := 32.
Definition TIME_SLICE_BASE : Z := 10.
Definition TIME_SLICE_PRIORITY_FACTOR : Z := 2.
Definition MAX_CPUS : Z := 16.
Definition MILLISECONDS_PER_TICK : Z := 10.
Definition DEFAULT_STACK_SIZE : Z := 8192.
Definition INT_MAX : Z := 2 ^ 31 - 1.

Definition TASK_STATE_READY : Z := 1.
Definition TASK_STATE_RUNNING : Z := 2.
Definition TASK_STATE_BLOCKED : Z := 3.
Definition TASK_STATE_SUSPENDED : Z := 4.
Definition TASK_STATE_ZOMBIE : Z := 5.

Definition SCHEDULER_ALGORITHM_ROUND_ROBIN : Z := 0.
Definition SCHEDULER_ALGORITHM_PRIORITY : Z := 1.

(** ** Data *)

(** [task_t]; the register images and segment pointers the scheduler never touches are left out. *)
Record task : Type := mk_task {
  id : Z;
  state : Z;
  flags : Z;
  privilege_level : Z;
  priority : Z;
  time_slice : Z;
  stack_size : Z;
  name : string;
  stack : ptr;
  entry_point : Z;
  context : option Z;
  security_token : ptr;
  security_descriptor : ptr;
  exit_code : Z;
  parent_id : Z;
  cpu_time_used : Z;
  creation_time : Z;
  last_run_time : Z;
}.

Definition set_state (x : Z) (t : task) : task :=
  mk_task (id t) x (flags t) (privilege_level t) (priority t) (time_slice t) (stack_size t)
    (name t) (stack t) (entry_point t) (context t) (security_token t) (security_descriptor t)
    (exit_code t) (parent_id t) (cpu_time_used t) (creation_time t) (last_run_time t).
Definition set_privilege_level (x : Z) (t : task) : task :=
  mk_task (id t) (state t) (flags t) x (priority t) (time_slice t) (stack_size t) (name t)
    (stack t) (entry_point t) (context t) (security_token t) (security_descriptor t)
    (exit_code t) (parent_id t) (cpu_time_used t) (creation_time t) (last_run_time t).
Definition set_priority (x : Z) (t : task) : task :=
  mk_task (id t) (state t) (flags t) (privilege_level t) x (time_slice t) (stack_size t)
    (name t) (stack t) (entry_point t) (context t) (security_token t) (security_descriptor t)
    (exit_code t) (parent_id t) (cpu_time_used t) (creation_time t) (last_run_time t).
Definition set_time_slice (x : Z) (t : task) : task :=
  mk_task (id t) (state t) (flags t) (privilege_level t) (priority t) x (stack_size t) (name t)
    (stack t) (entry_point t) (context t) (security_token t) (security_descriptor t)
    (exit_code t) (parent_id t) (cpu_time_used t) (creation_time t) (last_run_time t).
Definition set_stack_size (x : Z) (t : task) : task :=
  mk_task (id t) (state t) (flags t) (privilege_level t) (priority t) (time_slice t) x (name t)
    (stack t) (entry_point t) (context t) (security_token t) (security_descriptor t)
    (exit_code t) (parent_id t) (cpu_time_used t) (creation_time t) (last_run_time t).
Definition set_name (x : string) (t : task) : task :=
  mk_task (id t) (state t) (flags t) (privilege_level t) (priority t) (time_slice t)
    (stack_size t) x (stack t) (entry_point t) (context t) (security_token t)
    (security_descriptor t) (exit_code t) (parent_id t) (cpu_time_used t) (creation_time t)
    (last_run_time t).
Definition set_stack (x : ptr) (t : task) : task :=
  mk_task (id t) (state t) (flags t) (privilege_level t) (priority t) (time_slice t)
    (stack_size t) (name t) x (entry_point t) (context t) (security_token t)
    (security_descriptor t) (exit_code t) (parent_id t) (cpu_time_used t) (creation_time t)
    (last_run_time t).
Definition set_context (x : option Z) (t : task) : task :=
  mk_task (id t) (state t) (flags t) (privilege_level t) (priority t) (time_slice t)
    (stack_size t) (name t) (stack t) (entry_point t) x (security_token t)
    (security_descriptor t) (exit_code t) (parent_id t) (cpu_time_used t) (creation_time t)
    (last_run_time t).
Definition set_security_token (x : ptr) (t : task) : task :=
  mk_task (id t) (state t) (flags t) (privilege_level t) (priority t) (time_slice t)
    (stack_size t) (name t) (stack t) (entry_point t) (context t) x (security_descriptor t)
    (exit_code t) (parent_id t) (cpu_time_used t) (creation_time t) (last_run_time t).
Definition set_security_descriptor (x : ptr) (t : task) : task :=
  mk_task (id t) (state t) (flags t) (privilege_level t) (priority t) (time_slice t)
    (stack_size t) (name t) (stack t) (entry_point t) (context t) (security_token t) x
    (exit_code t) (parent_id t) (cpu_time_used t) (creation_time t) (last_run_time t).
Definition set_exit_code (x : Z) (t : task) : task :=
  mk_task (id t) (state t) (flags t) (privilege_level t) (priority t) (time_slice t)
    (stack_size t) (name t) (stack t) (entry_point t) (context t) (security_token t)
    (security_descriptor t) x (parent_id t) (cpu_time_used t) (creation_time t)
    (last_run_time t).
Definition set_cpu_time_used (x : Z) (t : task) : task :=
  mk_task (id t) (state t) (flags t) (privilege_level t) (priority t) (time_slice t)
    (stack_size t) (name t) (stack t) (entry_point t) (context t) (security_token t)
    (security_descriptor t) (exit_code t) (parent_id t) x (creation_time t) (last_run_time t).
Definition set_last_run_time (x : Z) (t : task) : task :=
  mk_task (id t) (state t) (flags t) (privilege_level t) (priority t) (time_slice t)
    (stack_size t) (name t) (stack t) (entry_point t) (context t) (security_token t)
    (security_descriptor t) (exit_code t) (parent_id t) (cpu_time_used t) (creation_time t) x.

(** [sleeping_task_t] and [waiting_parent_t], without their [next] links. *)
Record sleeping_task : Type := mk_sleeping {
  s_task : ptr;
  wake_time : Z;
}.

Record waiting_parent : Type := mk_waiting {
  w_parent_id : Z;
  w_child_id : Z;
  exit_code_ptr : ptr;
  options : Z;
}.

(** [task_context_t] *)
Record task_context : Type := mk_context {
  edi : Z;
  esi : Z;
  ebx : Z;
  ebp : Z;
  eip : Z;
}.

(** Calls out of the scheduler: [task_context_switch(old, new)] and
    [vmm_destroy_process_space(id)]. *)
Inductive event : Type :=
| ContextSwitch (old new : option Z)
| DestroySpace (task_id : Z).

(** [cpu_state_t] *)
Record cpu_state : Type := mk_cpu {
  current_task : ptr;
  is_active : Z;
  cpu_switches : Z;
  idle_ticks : Z;
  local_queue : ring ptr;
}.

Definition set_current_task (x : ptr) (c : cpu_state) : cpu_state :=
  mk_cpu x (is_active c) (cpu_switches c) (idle_ticks c) (local_queue c).
Definition set_cpu_switches (x : Z) (c : cpu_state) : cpu_state :=
  mk_cpu (current_task c) (is_active c) x (idle_ticks c) (local_queue c).
Definition set_idle_ticks (x : Z) (c : cpu_state) : cpu_state :=
  mk_cpu (current_task c) (is_active c) (cpu_switches c) x (local_queue c).
Definition set_local_queue (x : ring ptr) (c : cpu_state) : cpu_state :=
  mk_cpu (current_task c) (is_active c) (cpu_switches c) (idle_ticks c) x.

(** The static [scheduler] structure, followed by the memory it reaches: the
    allocated task structures and stacks, the integers exit codes are written
    to, and the calls out of the scheduler, latest first. *)
Record kernel : Type := mk_kernel {
  ready_queues : list (ring ptr);
  sleeping_tasks : list sleeping_task;
  waiting_parents : list waiting_parent;
  idle_task : ptr;
  lock : Z;
  preemption_enabled : Z;
  total_switches : Z;
  scheduler_ticks : Z;
  next_task_id : Z;
  algorithm : Z;
  quantum_ms : Z;
  num_cpus : Z;
  cpu_states : list cpu_state;
  smp_lock : Z;
  load_balance_counter : Z;
  tasks : gmap addr task;
  stacks : gmap addr (option task_context);
  ints : gmap addr Z;
  trace : list event;
}.

Definition set_ready_queues (x : list (ring ptr)) (k : kernel) : kernel :=
  mk_kernel x (sleeping_tasks k) (waiting_parents k) (idle_task k) (lock k)
    (preemption_enabled k) (total_switches k) (scheduler_ticks k) (next_task_id k)
    (algorithm k) (quantum_ms k) (num_cpus k) (cpu_states k) (smp_lock k)
    (load_balance_counter k) (tasks k) (stacks k) (ints k) (trace k).
Definition set_sleeping_tasks (x : list sleeping_task) (k : kernel) : kernel :=
  mk_kernel (ready_queues k) x (waiting_parents k) (idle_task k) (lock k)
    (preemption_enabled k) (total_switches k) (scheduler_ticks k) (next_task_id k)
    (algorithm k) (quantum_ms k) (num_cpus k) (cpu_states k) (smp_lock k)
    (load_balance_counter k) (tasks k) (stacks k) (ints k) (trace k).
Definition set_waiting_parents (x : list waiting_parent) (k : kernel) : kernel :=
  mk_kernel (ready_queues k) (sleeping_tasks k) x (idle_task k) (lock k) (preemption_enabled k)
    (total_switches k) (scheduler_ticks k) (next_task_id k) (algorithm k) (quantum_ms k)
    (num_cpus k) (cpu_states k) (smp_lock k) (load_balance_counter k) (tasks k) (stacks k)
    (ints k) (trace k).
Definition set_idle_task (x : ptr) (k : kernel) : kernel :=
  mk_kernel (ready_queues k) (sleeping_tasks k) (waiting_parents k) x (lock k)
    (preemption_enabled k) (total_switches k) (scheduler_ticks k) (next_task_id k)
    (algorithm k) (quantum_ms k) (num_cpus k) (cpu_states k) (smp_lock k)
    (load_balance_counter k) (tasks k) (stacks k) (ints k) (trace k).
Definition set_lock (x : Z) (k : kernel) : kernel :=
  mk_kernel (ready_queues k) (sleeping_tasks k) (waiting_parents k) (idle_task k) x
    (preemption_enabled k) (total_switches k) (scheduler_ticks k) (next_task_id k)
    (algorithm k) (quantum_ms k) (num_cpus k) (cpu_states k) (smp_lock k)
    (load_balance_counter k) (tasks k) (stacks k) (ints k) (trace k).
Definition set_preemption_enabled (x : Z) (k : kernel) : kernel :=
  mk_kernel (ready_queues k) (sleeping_tasks k) (waiting_parents k) (idle_task k) (lock k) x
    (total_switches k) (scheduler_ticks k) (next_task_id k) (algorithm k) (quantum_ms k)
    (num_cpus k) (cpu_states k) (smp_lock k) (load_balance_counter k) (tasks k) (stacks k)
    (ints k) (trace k).
Definition set_total_switches (x : Z) (k : kernel) : kernel :=
  mk_kernel (ready_queues k) (sleeping_tasks k) (waiting_parents k) (idle_task k) (lock k)
    (preemption_enabled k) x (scheduler_ticks k) (next_task_id k) (algorithm k) (quantum_ms k)
    (num_cpus k) (cpu_states k) (smp_lock k) (load_balance_counter k) (tasks k) (stacks k)
    (ints k) (trace k).
Definition set_scheduler_ticks (x : Z) (k : kernel) : kernel :=
  mk_kernel (ready_queues k) (sleeping_tasks k) (waiting_parents k) (idle_task k) (lock k)
    (preemption_enabled k) (total_switches k) x (next_task_id k) (algorithm k) (quantum_ms k)
    (num_cpus k) (cpu_states k) (smp_lock k) (load_balance_counter k) (tasks k) (stacks k)
    (ints k) (trace k).
Definition set_next_task_id (x : Z) (k : kernel) : kernel :=
  mk_kernel (ready_queues k) (sleeping_tasks k) (waiting_parents k) (idle_task k) (lock k)
    (preemption_enabled k) (total_switches k) (scheduler_ticks k) x (algorithm k)
    (quantum_ms k) (num_cpus k) (cpu_states k) (smp_lock k) (load_balance_counter k) (tasks k)
    (stacks k) (ints k) (trace k).
Definition set_algorithm (x : Z) (k : kernel) : kernel :=
  mk_kernel (ready_queues k) (sleeping_tasks k) (waiting_parents k) (idle_task k) (lock k)
    (preemption_enabled k) (total_switches k) (scheduler_ticks k) (next_task_id k) x
    (quantum_ms k) (num_cpus k) (cpu_states k) (smp_lock k) (load_balance_counter k) (tasks k)
    (stacks k) (ints k) (trace k).
Definition set_quantum_ms (x : Z) (k : kernel) : kernel :=
  mk_kernel (ready_queues k) (sleeping_tasks k) (waiting_parents k) (idle_task k) (lock k)
    (preemption_enabled k) (total_switches k) (scheduler_ticks k) (next_task_id k)
    (algorithm k) x (num_cpus k) (cpu_states k) (smp_lock k) (load_balance_counter k) (tasks k)
    (stacks k) (ints k) (trace k).
Definition set_num_cpus (x : Z) (k : kernel) : kernel :=
  mk_kernel (ready_queues k) (sleeping_tasks k) (waiting_parents k) (idle_task k) (lock k)
    (preemption_enabled k) (total_switches k) (scheduler_ticks k) (next_task_id k)
    (algorithm k) (quantum_ms k) x (cpu_states k) (smp_lock k) (load_balance_counter k)
    (tasks k) (stacks k) (ints k) (trace k).
Definition set_cpu_states (x : list cpu_state) (k : kernel) : kernel :=
  mk_kernel (ready_queues k) (sleeping_tasks k) (waiting_parents k) (idle_task k) (lock k)
    (preemption_enabled k) (total_switches k) (scheduler_ticks k) (next_task_id k)
    (algorithm k) (quantum_ms k) (num_cpus k) x (smp_lock k) (load_balance_counter k) (tasks k)
    (stacks k) (ints k) (trace k).
Definition set_smp_lock (x : Z) (k : kernel) : kernel :=
  mk_kernel (ready_queues k) (sleeping_tasks k) (waiting_parents k) (idle_task k) (lock k)
    (preemption_enabled k) (total_switches k) (scheduler_ticks k) (next_task_id k)
    (algorithm k) (quantum_ms k) (num_cpus k) (cpu_states k) x (load_balance_counter k)
    (tasks k) (stacks k) (ints k) (trace k).
Definition set_load_balance_counter (x : Z) (k : kernel) : kernel :=
  mk_kernel (ready_queues k) (sleeping_tasks k) (waiting_parents k) (idle_task k) (lock k)
    (preemption_enabled k) (total_switches k) (scheduler_ticks k) (next_task_id k)
    (algorithm k) (quantum_ms k) (num_cpus k) (cpu_states k) (smp_lock k) x (tasks k)
    (stacks k) (ints k) (trace k).
Definition set_tasks (x : gmap addr task) (k : kernel) : kernel :=
  mk_kernel (ready_queues k) (sleeping_tasks k) (waiting_parents k) (idle_task k) (lock k)
    (preemption_enabled k) (total_switches k) (scheduler_ticks k) (next_task_id k)
    (algorithm k) (quantum_ms k) (num_cpus k) (cpu_states k) (smp_lock k)
    (load_balance_counter k) x (stacks k) (ints k) (trace k).
Definition set_stacks (x : gmap addr (option task_context)) (k : kernel) : kernel :=
  mk_kernel (ready_queues k) (sleeping_tasks k) (waiting_parents k) (idle_task k) (lock k)
    (preemption_enabled k) (total_switches k) (scheduler_ticks k) (next_task_id k)
    (algorithm k) (quantum_ms k) (num_cpus k) (cpu_states k) (smp_lock k)
    (load_balance_counter k) (tasks k) x (ints k) (trace k).
Definition set_ints (x : gmap addr Z) (k : kernel) : kernel :=
  mk_kernel (ready_queues k) (sleeping_tasks k) (waiting_parents k) (idle_task k) (lock k)
    (preemption_enabled k) (total_switches k) (scheduler_ticks k) (next_task_id k)
    (algorithm k) (quantum_ms k) (num_cpus k) (cpu_states k) (smp_lock k)
    (load_balance_counter k) (tasks k) (stacks k) x (trace k).
Definition set_trace (x : list event) (k : kernel) : kernel :=
  mk_kernel (ready_queues k) (sleeping_tasks k) (waiting_parents k) (idle_task k) (lock k)
    (preemption_enabled k) (total_switches k) (scheduler_ticks k) (next_task_id k)
    (algorithm k) (quantum_ms k) (num_cpus k) (cpu_states k) (smp_lock k)
    (load_balance_counter k) (tasks k) (stacks k) (ints k) x.

Definition sched_lock : place kernel Z := mk_place lock set_lock.
Definition sched_smp_lock : place kernel Z := mk_place smp_lock set_smp_lock.

#[export] Instance sched_lock_ok : PlaceOk sched_lock.
Proof. split; try done. by intros []. Qed.
#[export] Instance sched_smp_lock_ok : PlaceOk sched_smp_lock.
Proof. split; try done. by intros []. Qed.

(** ** Access to memory *)

Definition read_task (a : addr) : M kernel task := k <- get ;; deref (tasks k !! a).

Definition upd_task (a : addr) (f : task -> task) : M kernel unit :=
  t <- read_task a ;; modify (fun k => set_tasks (<[a := f t]> (tasks k)) k).

Definition queue_at (i : Z) : M kernel (ring ptr) :=
  k <- get ;; deref (arr_get (ready_queues k) i).
Definition set_queue (i : Z) (r : ring ptr) : M kernel unit :=
  k <- get ;;
  qs <- deref (arr_set (ready_queues k) i r) ;;
  modify (set_ready_queues qs).

Definition cpu_at (i : Z) : M kernel cpu_state :=
  k <- get ;; deref (arr_get (cpu_states k) i).
Definition upd_cpu (i : Z) (f : cpu_state -> cpu_state) : M kernel unit :=
  k <- get ;;
  c <- deref (arr_get (cpu_states k) i) ;;
  cs <- deref (arr_set (cpu_states k) i (f c)) ;;
  modify (set_cpu_states cs).

Definition emit (e : event) : M kernel unit := modify (fun k => set_trace (e :: trace k) k).

(** [p && p->id == task_id] *)
Definition has_id (ts : gmap addr task) (tid : Z) (p : ptr) : option bool :=
  match p with
  | None => Some false
  | Some a => t ← ts !! a; Some (id t =? tid)
  end.

(** The first of a list of pointers with that id, with its position. *)
Fixpoint search (ts : gmap addr task) (tid : Z) (l : list ptr) (i : Z) : option (option (Z * ptr)) :=
  match l with
  | [] => Some None
  | p :: l' =>
      match has_id ts tid p with
      | None => None
      | Some true => Some (Some (i, p))
      | Some false => search ts tid l' (i + 1)
      end
  end.

(** [queue->tasks[(queue->head + i) % MAX_TASKS]] for [i] from 0 to [count - 1]. *)
Definition queue_slots (r : ring ptr) : option (list ptr) :=
  mapM (fun i => ring_nth MAX_TASKS r (Z.of_nat i)) (seq 0 (Z.to_nat (count r))).

(** ** Task contexts ([kernel/task.c]) *)

Definition sizeof_context : Z := 20.

Definition task_setup_context (p : ptr) : M kernel unit :=
  match p with
  | None => ret tt
  | Some a =>
      t <- read_task a ;;
      match stack t with
      | None => ret tt
      | Some st =>
          let top := Z.pos st + stack_size t - sizeof_context in
          let c := mk_context 0 0 0 (u32 (top - 32)) (u32 (entry_point t)) in
          k <- get ;;
          _ <- deref (stacks k !! st) ;;
          modify (set_stacks (<[st := Some c]> (stacks k))) ;;;
          upd_task a (set_context (Some top))
      end
  end.

(** ** Operations *)

Definition scheduler_get_current_cpu : Z := 0.

Definition scheduler_get_current_task : M kernel ptr :=
  c <- cpu_at scheduler_get_current_cpu ;; ret (current_task c).

Definition task_switch_to (new_task : ptr) : M kernel unit :=
  match new_task with
  | None => ret tt
  | Some n =>
      current <- scheduler_get_current_task ;;
      match current with
      | None => ret tt
      | Some c =>
          if decide (c = n) then ret tt
          else
            t <- read_task c ;;
            t' <- read_task n ;;
            emit (ContextSwitch (context t) (context t'))
      end
  end.

Definition zero_cpu : cpu_state := mk_cpu None 0 0 0 (ring_empty MAX_TASKS None).

Definition scheduler_init : M kernel unit :=
  modify (fun k =>
    mk_kernel (replicate (Z.to_nat MAX_PRIORITY) (ring_empty MAX_TASKS None)) [] [] None 0 0 0 0 1
      SCHEDULER_ALGORITHM_PRIORITY TIME_SLICE_BASE 1
      (mk_cpu None 1 0 0 (ring_empty MAX_TASKS None) :: replicate (Z.to_nat MAX_CPUS - 1) zero_cpu)
      0 0 (tasks k) (stacks k) (ints k) (trace k)).

Definition reset_cpu (c : cpu_state) : cpu_state :=
  mk_cpu None 1 0 0 (mk_ring (slots (local_queue c)) 0 0 0).

Definition scheduler_init_smp (n : Z) : M kernel unit :=
  let n := if n <=? 0 then 1 else n in
  let n := if MAX_CPUS <? n then MAX_CPUS else n in
  Sync.acquire sched_smp_lock ;;;
  modify (set_num_cpus n) ;;;
  mfor (seqZ 0 n) (fun i => upd_cpu i reset_cpu) ;;;
  Sync.release sched_smp_lock.

Definition scheduler_add_task (p : ptr) : M kernel unit :=
  match p with
  | None => ret tt
  | Some a =>
      t <- read_task a ;;
      let pr := to_int (priority t) in
      let pr := if MAX_PRIORITY <=? pr then MAX_PRIORITY - 1 else pr in
      let pr := if pr <? 0 then 0 else pr in
      q <- queue_at pr ;;
      if count q <? MAX_TASKS
      then r <- deref (ring_push MAX_TASKS q (Some a)) ;; set_queue pr r
      else ret tt
  end.

Fixpoint remove_from (tid : Z) (ps : list Z) : M kernel unit :=
  match ps with
  | [] => ret tt
  | pr :: ps' =>
      q <- queue_at pr ;;
      k <- get ;;
      sl <- deref (queue_slots q) ;;
      found <- deref (search (tasks k) tid sl 0) ;;
      match found with
      | Some (i, _) => r <- deref (ring_remove MAX_TASKS q i) ;; set_queue pr r
      | None => remove_from tid ps'
      end
  end.

Definition scheduler_remove_task_from_ready_queue (tid : Z) : M kernel unit :=
  remove_from tid (seqZ 0 MAX_PRIORITY).

Fixpoint next_from (ps : list Z) : M kernel ptr :=
  match ps with
  | [] => k <- get ;; ret (idle_task k)
  | pr :: ps' =>
      q <- queue_at pr ;;
      if 0 <? count q
      then
        p <- deref (ring_front q) ;;
        set_queue pr (ring_pop MAX_TASKS q) ;;;
        ret p
      else next_from ps'
  end.

Definition scheduler_get_next_task : M kernel ptr := next_from (seqZ 0 MAX_PRIORITY).

(** A null [idle_task] is a null dereference. *)
Definition scheduler_register_idle_task (p : ptr) : M kernel unit :=
  modify (set_idle_task p) ;;;
  a <- deref p ;;
  upd_task a (set_state TASK_STATE_READY) ;;;
  upd_task a (set_priority (MAX_PRIORITY - 1)).

(** [scheduler_find_task_by_id] *)
Fixpoint find_current (tid : Z) (cpus : list Z) : M kernel ptr :=
  match cpus with
  | [] => ret None
  | i :: cpus' =>
      c <- cpu_at i ;;
      k <- get ;;
      b <- deref (has_id (tasks k) tid (current_task c)) ;;
      if b then ret (current_task c) else find_current tid cpus'
  end.

Fixpoint find_ready (tid : Z) (ps : list Z) : M kernel ptr :=
  match ps with
  | [] => ret None
  | pr :: ps' =>
      q <- queue_at pr ;;
      k <- get ;;
      sl <- deref (queue_slots q) ;;
      found <- deref (search (tasks k) tid sl 0) ;;
      match found with
      | Some (_, p) => ret p
      | None => find_ready tid ps'
      end
  end.

Definition find_sleeping (tid : Z) : M kernel ptr :=
  k <- get ;;
  found <- deref (search (tasks k) tid (s_task <$> sleeping_tasks k) 0) ;;
  match found with Some (_, p) => ret p | None => ret None end.

Definition scheduler_find_task_by_id (tid : Z) : M kernel ptr :=
  k <- get ;;
  p <- find_current tid (seqZ 0 (num_cpus k)) ;;
  match p with
  | Some a => ret (Some a)
  | None =>
      p <- find_ready tid (seqZ 0 MAX_PRIORITY) ;;
      match p with
      | Some a => ret (Some a)
      | None => find_sleeping tid
      end
  end.

(** [strncpy] into a zeroed array of 64 characters, leaving the last one. *)
Definition clip_name (s : string) : string := substring 0 63 s.

(** [block] and [stk] are the answers of [heap_alloc]. *)
Definition scheduler_create_task (entry : Z) (nm : option string) (prio fl : Z)
    (block stk : ptr) : M kernel Z :=
  Sync.acquire sched_lock ;;;
  match block with
  | None => Sync.release sched_lock ;;; ret (-1)
  | Some a =>
      k <- get ;;
      let tid := next_task_id k in
      modify (set_next_task_id (to_int (tid + 1))) ;;;
      current <- scheduler_get_current_task ;;
      parent <- match current with
                | Some c => t <- read_task c ;; ret (id t)
                | None => ret 0
                end ;;
      let nm' := match nm with
                 | Some n => clip_name n
                 | None => clip_name (String.append "Task_" (pretty tid))
                 end in
      let t := mk_task tid TASK_STATE_READY fl 0 prio 0 DEFAULT_STACK_SIZE nm' stk entry
                 None None None 0 parent 0 0 0 in
      modify (fun k => set_tasks (<[a := t]> (tasks k)) k) ;;;
      match stk with
      | None =>
          modify (fun k => set_tasks (delete a (tasks k)) k) ;;;
          Sync.release sched_lock ;;;
          ret (-1)
      | Some st =>
          modify (fun k => set_stacks (<[st := None]> (stacks k)) k) ;;;
          task_setup_context (Some a) ;;;
          scheduler_add_task (Some a) ;;;
          Sync.release sched_lock ;;;
          t <- read_task a ;;
          ret (id t)
      end
  end.

(** The scan both SMP functions make over the active CPUs. *)
Definition less_loaded (best : Z * Z) (i : Z) (c : cpu_state) : Z * Z :=
  if truth (is_active c) && (count (local_queue c) <? best.2) then (i, count (local_queue c)) else best.
Definition more_loaded (best : Z * Z) (i : Z) (c : cpu_state) : Z * Z :=
  if truth (is_active c) && (best.2 <? count (local_queue c)) then (i, count (local_queue c)) else best.

(** [f] folded over CPUs [i], [i + 1], ... *)
Fixpoint scan (f : Z * Z -> Z -> cpu_state -> Z * Z) (best : Z * Z) (i : Z) (cs : list cpu_state) : Z * Z :=
  match cs with
  | [] => best
  | c :: cs' => scan f (f best i c) (i + 1) cs'
  end.

Definition active_cpus (k : kernel) : option (list cpu_state) :=
  if num_cpus k <=? Z.of_nat (length (cpu_states k))
  then Some (take (Z.to_nat (num_cpus k)) (cpu_states k)) else None.

Definition scheduler_smp_get_target_cpu : M kernel Z :=
  k <- get ;;
  if num_cpus k <=? 1 then ret 0
  else cs <- deref (active_cpus k) ;; ret (scan less_loaded (0, INT_MAX) 0 cs).1.

Definition scheduler_load_balance : M kernel unit :=
  k <- get ;;
  if num_cpus k <=? 1 then ret tt
  else
    cs <- deref (active_cpus k) ;;
    let '(max_cpu, max_tasks) := scan more_loaded (0, 0) 0 cs in
    let '(min_cpu, min_tasks) := scan less_loaded (0, INT_MAX) 0 cs in
    if (min_tasks + 2 <? max_tasks) && negb (max_cpu =? min_cpu)
    then
      c <- cpu_at max_cpu ;;
      if 0 <? count (local_queue c)
      then
        p <- deref (ring_front (local_queue c)) ;;
        upd_cpu max_cpu (set_local_queue (ring_pop MAX_TASKS (local_queue c))) ;;;
        c' <- cpu_at min_cpu ;;
        if count (local_queue c') <? MAX_TASKS
        then
          r <- deref (ring_push MAX_TASKS (local_queue c') p) ;;
          upd_cpu min_cpu (set_local_queue r)
        else
          c <- cpu_at max_cpu ;;
          r <- deref (ring_push MAX_TASKS (local_queue c) p) ;;
          upd_cpu max_cpu (set_local_queue r)
      else ret tt
    else ret tt.


(** [if (task->state == TASK_STATE_BLOCKED) { task->state = TASK_STATE_READY; scheduler_add_task(task); }] *)
Definition wake_if_blocked (p : ptr) : M kernel unit :=
  match p with
  | None => ret tt
  | Some a =>
      t <- read_task a ;;
      if state t =? TASK_STATE_BLOCKED
      then upd_task a (set_state TASK_STATE_READY) ;;; scheduler_add_task (Some a)
      else ret tt
  end.

(** The entries that stay. *)
Fixpoint check_sleeping (l : list sleeping_task) : M kernel (list sleeping_task) :=
  match l with
  | [] => ret []
  | e :: l' =>
      k <- get ;;
      if wake_time e <=? scheduler_ticks k
      then wake_if_blocked (s_task e) ;;; check_sleeping l'
      else r <- check_sleeping l' ;; ret (e :: r)
  end.

Definition scheduler_check_sleeping_tasks : M kernel unit :=
  k <- get ;;
  l <- check_sleeping (sleeping_tasks k) ;;
  modify (set_sleeping_tasks l).

(** Unsigned arithmetic converted to [int]. *)
Definition slice_for (algo quantum prio : Z) : Z :=
  if algo =? SCHEDULER_ALGORITHM_ROUND_ROBIN
  then to_int (quantum / MILLISECONDS_PER_TICK)
  else to_int (quantum / MILLISECONDS_PER_TICK +
               u32 (MAX_PRIORITY - 1 - prio) * TIME_SLICE_PRIORITY_FACTOR).

(** The running task goes back to its queue. *)
Definition requeue_current : M kernel unit :=
  c <- cpu_at scheduler_get_current_cpu ;;
  match current_task c with
  | None => ret tt
  | Some a =>
      t <- read_task a ;;
      if state t =? TASK_STATE_RUNNING
      then upd_task a (set_state TASK_STATE_READY) ;;; scheduler_add_task (Some a)
      else ret tt
  end.

(** Task [n] becomes the running task, with a new time slice. *)
Definition dispatch (cpu_id : Z) (n : addr) : M kernel unit :=
  upd_task n (set_state TASK_STATE_RUNNING) ;;;
  upd_cpu cpu_id (set_current_task (Some n)) ;;;
  upd_cpu cpu_id (fun c => set_cpu_switches (u64 (cpu_switches c + 1)) c) ;;;
  modify (fun k => set_total_switches (u64 (total_switches k + 1)) k) ;;;
  t <- read_task n ;;
  k <- get ;;
  upd_task n (set_time_slice (slice_for (algorithm k) (quantum_ms k) (priority t))) ;;;
  upd_task n (set_last_run_time (scheduler_ticks k)) ;;;
  (if decide (Some n = idle_task k)
   then upd_cpu cpu_id (fun c => set_idle_ticks (u64 (idle_ticks c + 1)) c)
   else upd_task n (fun t => set_cpu_time_used (u64 (cpu_time_used t + 1)) t)).

(** Every hundredth time, if there are several CPUs. *)
Definition count_for_balance : M kernel unit :=
  modify (fun k => set_load_balance_counter (to_int (load_balance_counter k + 1)) k) ;;;
  k <- get ;;
  if (1 <? num_cpus k) && (100 <=? load_balance_counter k)
  then modify (set_load_balance_counter 0) ;;; scheduler_load_balance
  else ret tt.

Definition scheduler_schedule : M kernel unit :=
  k <- get ;;
  if negb (truth (preemption_enabled k)) then ret tt
  else
    Sync.acquire sched_lock ;;;
    requeue_current ;;;
    scheduler_check_sleeping_tasks ;;;
    next <- scheduler_get_next_task ;;
    match next with
    | None => Sync.release sched_lock
    | Some n =>
        dispatch scheduler_get_current_cpu n ;;;
        count_for_balance ;;;
        Sync.release sched_lock ;;;
        task_switch_to (Some n)
    end.

Definition scheduler_tick : M kernel unit :=
  modify (fun k => set_scheduler_ticks (u64 (scheduler_ticks k + 1)) k) ;;;
  k <- get ;;
  if negb (truth (preemption_enabled k)) then ret tt
  else
    current <- scheduler_get_current_task ;;
    match current with
    | None => ret tt
    | Some a =>
        t <- read_task a ;;
        (if 0 <? time_slice t then upd_task a (set_time_slice (time_slice t - 1)) else ret tt) ;;;
        t <- read_task a ;;
        if time_slice t =? 0 then scheduler_schedule else ret tt
    end.

Definition scheduler_enable_preemption : M kernel unit := modify (set_preemption_enabled 1).
Definition scheduler_disable_preemption : M kernel unit := modify (set_preemption_enabled 0).

Definition scheduler_yield : M kernel unit :=
  k <- get ;; if truth (preemption_enabled k) then scheduler_schedule else ret tt.

Definition scheduler_block_current_task : M kernel unit :=
  current <- scheduler_get_current_task ;;
  match current with
  | None => ret tt
  | Some a =>
      Sync.acquire sched_lock ;;;
      upd_task a (set_state TASK_STATE_BLOCKED) ;;;
      Sync.release sched_lock ;;;
      scheduler_schedule
  end.

Definition scheduler_unblock_task (tid : Z) : M kernel unit :=
  Sync.acquire sched_lock ;;;
  p <- scheduler_find_task_by_id tid ;;
  wake_if_blocked p ;;;
  Sync.release sched_lock.

(** Insertion behind the entries that are due no later. *)
Fixpoint insert_after (e : sleeping_task) (l : list sleeping_task) : list sleeping_task :=
  match l with
  | [] => [e]
  | e' :: l' => if wake_time e' <=? wake_time e then e' :: insert_after e l' else e :: l
  end.

Definition insert_sleeping (e : sleeping_task) (l : list sleeping_task) : list sleeping_task :=
  match l with
  | [] => [e]
  | h :: l' => if wake_time e <? wake_time h then e :: l else h :: insert_after e l'
  end.

(** [mem]: whether [heap_alloc] had memory for the list entry. *)
Definition scheduler_add_sleeping_task (p : ptr) (ms : Z) (mem : bool) : M kernel unit :=
  match p with
  | None => ret tt
  | Some a =>
      k <- get ;;
      let wake := u64 (scheduler_ticks k + ms / MILLISECONDS_PER_TICK) in
      if negb mem then ret tt
      else
        modify (set_sleeping_tasks (insert_sleeping (mk_sleeping (Some a) wake) (sleeping_tasks k))) ;;;
        upd_task a (set_state TASK_STATE_BLOCKED)
  end.

Definition scheduler_sleep (ms : Z) (mem : bool) : M kernel Z :=
  if ms =? 0 then scheduler_yield ;;; ret 0
  else
    Sync.acquire sched_lock ;;;
    current <- scheduler_get_current_task ;;
    match current with
    | None => Sync.release sched_lock ;;; ret (-1)
    | Some a =>
        scheduler_add_sleeping_task (Some a) ms mem ;;;
        Sync.release sched_lock ;;;
        scheduler_schedule ;;;
        ret 0
    end.

Definition scheduler_wake_task (tid : Z) : M kernel Z :=
  Sync.acquire sched_lock ;;;
  k <- get ;;
  found <- deref (search (tasks k) tid (s_task <$> sleeping_tasks k) 0) ;;
  match found with
  | None => Sync.release sched_lock ;;; ret (-1)
  | Some (i, p) =>
      wake_if_blocked p ;;;
      modify (fun k => set_sleeping_tasks (delete (Z.to_nat i) (sleeping_tasks k)) k) ;;;
      Sync.release sched_lock ;;;
      ret 0
  end.

Definition scheduler_add_waiting_parent (parent child : Z) (code : ptr) (opts : Z) (mem : bool)
  : M kernel unit :=
  if negb mem then ret tt
  else modify (fun k => set_waiting_parents (mk_waiting parent child code opts :: waiting_parents k) k).

(** [*p = v] for a pointer that may be NULL. *)
Definition store_int (p : ptr) (v : Z) : M kernel unit :=
  match p with
  | None => ret tt
  | Some a => modify (fun k => set_ints (<[a := v]> (ints k)) k)
  end.

Fixpoint check_waiting (tid code : Z) (l : list waiting_parent) : M kernel (list waiting_parent) :=
  match l with
  | [] => ret []
  | w :: l' =>
      if w_child_id w =? tid
      then
        parent <- scheduler_find_task_by_id (w_parent_id w) ;;
        store_int (exit_code_ptr w) code ;;;
        wake_if_blocked parent ;;;
        check_waiting tid code l'
      else r <- check_waiting tid code l' ;; ret (w :: r)
  end.

Definition scheduler_check_waiting_parents (tid code : Z) : M kernel unit :=
  k <- get ;;
  l <- check_waiting tid code (waiting_parents k) ;;
  modify (set_waiting_parents l).

Definition heap_free_task (a : addr) : M kernel unit :=
  _ <- read_task a ;; modify (fun k => set_tasks (delete a (tasks k)) k).
Definition heap_free_stack (p : ptr) : M kernel unit :=
  match p with
  | None => ret tt
  | Some st =>
      k <- get ;;
      _ <- deref (stacks k !! st) ;;
      modify (set_stacks (delete st (stacks k)))
  end.

Definition scheduler_waitpid (tid : Z) (code : ptr) (opts : Z) (mem : bool) : M kernel Z :=
  Sync.acquire sched_lock ;;;
  current <- scheduler_get_current_task ;;
  match current with
  | None => Sync.release sched_lock ;;; ret (-1)
  | Some c =>
      child <- scheduler_find_task_by_id tid ;;
      match child with
      | None => Sync.release sched_lock ;;; ret (-1)
      | Some a =>
          t <- read_task a ;;
          tc <- read_task c ;;
          if negb (parent_id t =? id tc) then Sync.release sched_lock ;;; ret (-2)
          else if state t =? TASK_STATE_ZOMBIE
          then
            store_int code (exit_code t) ;;;
            heap_free_stack (stack t) ;;;
            heap_free_task a ;;;
            Sync.release sched_lock ;;;
            ret tid
          else if has_flag opts 1 then Sync.release sched_lock ;;; ret 0
          else
            scheduler_add_waiting_parent (id tc) tid code opts mem ;;;
            upd_task c (set_state TASK_STATE_BLOCKED) ;;;
            Sync.release sched_lock ;;;
            scheduler_schedule ;;;
            ret tid
      end
  end.

(** [scheduler_stats_t] *)
Record scheduler_stats : Type := mk_sched_stats {
  total_tasks : Z;
  total_task_switches : Z;
  total_ticks : Z;
  current_task_id : Z;
  ready_tasks : Z;
  blocked_tasks : Z;
  sleeping_count : Z;
  zombie_tasks : Z;
}.

Definition sum_counts (qs : list (ring ptr)) : Z := foldr (fun q n => count q + n) 0 qs.

Definition scheduler_get_stats (out : option scheduler_stats) : M kernel (option scheduler_stats) :=
  match out with
  | None => ret None
  | Some _ =>
      Sync.acquire sched_lock ;;;
      k <- get ;;
      cs <- deref (active_cpus k) ;;
      let ready := sum_counts (ready_queues k) in
      let sleeping := Z.of_nat (length (sleeping_tasks k)) in
      let running := Z.of_nat (length (filter (fun c => is_Some (current_task c)) cs)) in
      current <- scheduler_get_current_task ;;
      cid <- match current with Some a => t <- read_task a ;; ret (id t) | None => ret 0 end ;;
      Sync.release sched_lock ;;;
      ret (Some (mk_sched_stats (ready + sleeping + running) (total_switches k) (scheduler_ticks k)
                   cid ready 0 sleeping 0))
  end.

(** [cpu_scheduler_info_t]: id, current task, active, switches, idle ticks. *)
Definition scheduler_get_cpu_info (cpu : Z) (out : option (Z * ptr * Z * Z * Z))
  : M kernel (option (Z * ptr * Z * Z * Z)) :=
  match out with
  | None => ret None
  | Some old =>
      k <- get ;;
      if (cpu <? 0) || (num_cpus k <=? cpu) then ret (Some old)
      else
        Sync.acquire sched_smp_lock ;;;
        c <- cpu_at cpu ;;
        Sync.release sched_smp_lock ;;;
        ret (Some (cpu, current_task c, is_active c, cpu_switches c, idle_ticks c))
  end.

Definition scheduler_get_cpu_count : M kernel Z := gets num_cpus.

Definition scheduler_set_task_priority (tid prio : Z) : M kernel Z :=
  let prio := if MAX_PRIORITY <=? prio then MAX_PRIORITY - 1 else prio in
  Sync.acquire sched_lock ;;;
  p <- scheduler_find_task_by_id tid ;;
  match p with
  | None => Sync.release sched_lock ;;; ret (-1)
  | Some a =>
      upd_task a (set_priority prio) ;;;
      Sync.release sched_lock ;;;
      ret 0
  end.

Definition scheduler_terminate_task (tid code : Z) : M kernel Z :=
  Sync.acquire sched_lock ;;;
  p <- scheduler_find_task_by_id tid ;;
  match p with
  | None => Sync.release sched_lock ;;; ret (-1)
  | Some a =>
      upd_task a (fun t => set_exit_code code (set_state TASK_STATE_ZOMBIE t)) ;;;
      scheduler_remove_task_from_ready_queue tid ;;;
      emit (DestroySpace tid) ;;;
      scheduler_check_waiting_parents tid code ;;;
      current <- scheduler_get_current_task ;;
      k <- get ;;
      mine <- deref (has_id (tasks k) tid current) ;;
      if mine
      then Sync.release sched_lock ;;; scheduler_schedule ;;; ret 0
      else Sync.release sched_lock ;;; ret 0
  end.

Definition scheduler_migrate_task (tid cpu : Z) : M kernel Z :=
  k <- get ;;
  if (cpu <? 0) || (num_cpus k <=? cpu) then ret (-1)
  else
    c <- cpu_at cpu ;;
    if negb (truth (is_active c)) then ret (-1)
    else
      Sync.acquire sched_lock ;;;
      p <- scheduler_find_task_by_id tid ;;
      match p with
      | None => Sync.release sched_lock ;;; ret (-2)
      | Some a =>
          scheduler_remove_task_from_ready_queue tid ;;;
          c <- cpu_at cpu ;;
          if count (local_queue c) <? MAX_TASKS
          then
            r <- deref (ring_push MAX_TASKS (local_queue c) (Some a)) ;;
            upd_cpu cpu (set_local_queue r) ;;;
            Sync.release sched_lock ;;;
            ret 0
          else
            scheduler_add_task (Some a) ;;;
            Sync.release sched_lock ;;;
            ret (-3)
      end.

Definition scheduler_set_algorithm (a : Z) : M kernel Z :=
  if (a <? 0) || (3 <? a) then ret (-1) else modify (set_algorithm a) ;;; ret 0.

Definition scheduler_set_quantum (q : Z) : M kernel unit := modify (set_quantum_ms q).


(** ** Contract: one list of ready tasks *)

(** The tasks of one priority, oldest first, and all ready tasks in the order in
    which they are to run. *)
Definition level (q : ring ptr) : list ptr := items MAX_TASKS q.
Definition ready (k : kernel) : list ptr := concat (level <$> ready_queues k).

(** The queue of a task of priority [p]. *)
Definition clamp (p : Z) : nat :=
  Z.to_nat (let p := to_int p in
            let p := if MAX_PRIORITY <=? p then MAX_PRIORITY - 1 else p in
            if p <? 0 then 0 else p).

(** ** Invariant *)

Definition live (k : kernel) (a : addr) : Prop := is_Some (tasks k !! a).

(** Every task in a ready queue is allocated, waits there once and is in state
    READY ([ex] may be excepted while its state is being changed); the other
    pointers the scheduler keeps are to allocated tasks; ids are unique. *)
Record inv (ex : ptr) (k : kernel) : Prop := {
  inv_levels : length (ready_queues k) = Z.to_nat MAX_PRIORITY;
  inv_rings : Forall (ring_wf MAX_TASKS) (ready_queues k);
  inv_ncpus : length (cpu_states k) = Z.to_nat MAX_CPUS;
  inv_num : 1 <= num_cpus k <= MAX_CPUS;
  inv_local : Forall (fun c => ring_wf MAX_TASKS (local_queue c)) (cpu_states k);
  inv_ready p : p ∈ ready k ->
    exists a t, p = Some a /\ tasks k !! a = Some t /\ (state t = TASK_STATE_READY \/ ex = Some a);
  inv_nodup : NoDup (ready k);
  inv_current i c a : cpu_states k !! i = Some c -> current_task c = Some a -> i = 0%nat /\ live k a;
  inv_sleeping e : e ∈ sleeping_tasks k -> exists a, s_task e = Some a /\ live k a;
  inv_idle : exists a, idle_task k = Some a /\ live k a;
  inv_ids a b t u : tasks k !! a = Some t -> tasks k !! b = Some u -> id t = id u -> a = b;
  inv_next a t : tasks k !! a = Some t -> id t < next_task_id k;
  inv_smp : smp_lock k = 0;
}.

(** What runs on the boot CPU. *)
Definition current (k : kernel) : ptr := c ← cpu_states k !! 0%nat; current_task c.

(** The task that runs is in state RUNNING. *)
Definition running (k : kernel) : Prop :=
  forall a t, current k = Some a -> tasks k !! a = Some t -> state t = TASK_STATE_RUNNING.

(** Between two calls: the lock is free and the running task is RUNNING. *)
Definition quiet (k : kernel) : Prop := inv None k /\ lock k = 0 /\ running k /\ preemption_enabled k = 1.

(** ** Rules for the primitives *)

Section Rules.
Implicit Types (k : kernel) (a : addr) (t : task).

Lemma wp_read_task a t k Q : tasks k !! a = Some t -> Q t k -> wp (read_task a) Q k.
Proof. intros Ha HQ. unfold read_task. wp_steps. apply wp_deref. eauto. Qed.

Lemma wp_upd_task a t f k Q :
  tasks k !! a = Some t -> Q tt (set_tasks (<[a := f t]> (tasks k)) k) -> wp (upd_task a f) Q k.
Proof. intros Ha HQ. unfold upd_task. wp_steps. eapply wp_read_task; [done|]. done. Qed.

Lemma wp_queue_at n q k Q :
  ready_queues k !! n = Some q -> Q q k -> wp (queue_at (Z.of_nat n)) Q k.
Proof.
  intros Hn HQ. unfold queue_at. wp_steps. apply wp_deref. rewrite arr_get_nat. eauto.
Qed.

Lemma wp_set_queue n r k Q :
  (n < length (ready_queues k))%nat ->
  Q tt (set_ready_queues (<[n := r]> (ready_queues k)) k) -> wp (set_queue (Z.of_nat n) r) Q k.
Proof.
  intros Hn HQ. unfold set_queue. wp_steps. rewrite arr_set_some by lia. rewrite Nat2Z.id. done.
Qed.

Lemma wp_cpu_at n c k Q :
  cpu_states k !! n = Some c -> Q c k -> wp (cpu_at (Z.of_nat n)) Q k.
Proof. intros Hn HQ. unfold cpu_at. wp_steps. apply wp_deref. rewrite arr_get_nat. eauto. Qed.

Lemma wp_upd_cpu n c f k Q :
  cpu_states k !! n = Some c -> Q tt (set_cpu_states (<[n := f c]> (cpu_states k)) k) ->
  wp (upd_cpu (Z.of_nat n) f) Q k.
Proof.
  intros Hn HQ. pose proof (lookup_lt_Some _ _ _ Hn). unfold upd_cpu. wp_steps.
  rewrite arr_get_nat, Hn. simpl. wp_steps. rewrite arr_set_some by lia. by rewrite Nat2Z.id.
Qed.

Lemma cpu0 ex k : inv ex k -> exists c, cpu_states k !! 0%nat = Some c.
Proof. intros H. apply lookup_lt_is_Some_2. rewrite (inv_ncpus _ _ H). vm_compute. lia. Qed.

Lemma wp_current_task ex k Q :
  inv ex k -> Q (current k) k -> wp scheduler_get_current_task Q k.
Proof.
  intros Hi HQ. destruct (cpu0 ex k Hi) as [c Hc]. unfold scheduler_get_current_task. wp_steps.
  apply (wp_cpu_at 0 c); [done|]. wp_steps. unfold current in HQ. by rewrite Hc in HQ.
Qed.

Lemma current_live ex k a : inv ex k -> current k = Some a -> live k a.
Proof.
  intros Hi Ha. unfold current in Ha. destruct (cpu_states k !! 0%nat) as [c|] eqn:Hc; [|done].
  by apply (inv_current _ _ Hi 0%nat c a).
Qed.

(** A queue and the tasks outside it. *)
Lemma level_at k n q :
  ready_queues k !! n = Some q ->
  ready k = concat (level <$> take n (ready_queues k)) ++ level q ++
            concat (level <$> drop (S n) (ready_queues k)).
Proof.
  intros Hn. unfold ready. rewrite <- (take_drop_middle _ _ _ Hn) at 1.
  by rewrite fmap_app, fmap_cons, concat_app.
Qed.

Lemma level_insert k n q r :
  ready_queues k !! n = Some q ->
  concat (level <$> <[n := r]> (ready_queues k)) =
  concat (level <$> take n (ready_queues k)) ++ level r ++
  concat (level <$> drop (S n) (ready_queues k)).
Proof.
  intros Hn. rewrite insert_take_drop by (by eapply lookup_lt_Some).
  by rewrite fmap_app, fmap_cons, concat_app.
Qed.

Lemma ring_at ex k n : inv ex k -> (n < Z.to_nat MAX_PRIORITY)%nat ->
  exists q, ready_queues k !! n = Some q /\ ring_wf MAX_TASKS q.
Proof.
  intros Hi Hn. destruct (lookup_lt_is_Some_2 (ready_queues k) n) as [q Hq].
  { by rewrite (inv_levels _ _ Hi). }
  exists q. split; [done|]. pose proof (inv_rings _ _ Hi) as H. by eapply Forall_lookup in H.
Qed.

(** *** Changing the ready queues *)

(** New queues whose tasks are among the old ones, apart from [new]. *)
Lemma inv_set_queues ex ex' k qs :
  inv ex k -> length qs = length (ready_queues k) -> Forall (ring_wf MAX_TASKS) qs ->
  (forall p, p ∈ concat (level <$> qs) ->
     exists a t, p = Some a /\ tasks k !! a = Some t /\ (state t = TASK_STATE_READY \/ ex' = Some a)) ->
  NoDup (concat (level <$> qs)) -> inv ex' (set_ready_queues qs k).
Proof. intros [] Hl Hr Hp Hnd. split; simpl; try done. congruence. Qed.

(** *** Changing a task *)

Lemma inv_upd_task ex ex' k a t t' :
  inv ex k -> tasks k !! a = Some t -> id t' = id t ->
  (Some a ∈ ready k -> state t' = TASK_STATE_READY \/ ex' = Some a) ->
  (forall b, Some b ∈ ready k -> b <> a -> ex = Some b -> ex' = Some b) ->
  inv ex' (set_tasks (<[a := t']> (tasks k)) k).
Proof.
  intros [] Ha Hid Hst Hex. unfold live in *. split; simpl; try done; unfold live; simpl.
  - intros p Hp. destruct (inv_ready0 p Hp) as (b & u & -> & Hb & Hs).
    destruct (decide (b = a)) as [->|Hne].
    + exists a, t'. rewrite lookup_insert_eq. repeat split; try done. by apply Hst.
    + exists b, u. rewrite lookup_insert_ne by done. repeat split; try done.
      destruct Hs as [?|?]; [by left|right]. by apply Hex.
  - intros i c b Hc Hb. destruct (inv_current0 i c b Hc Hb) as [-> ?].
    split; [done|]. apply lookup_insert_is_Some. destruct (decide (a = b)); eauto.
  - intros e He. destruct (inv_sleeping0 e He) as (b & ? & ?). exists b. split; [done|].
    apply lookup_insert_is_Some. destruct (decide (a = b)); eauto.
  - destruct inv_idle0 as (b & ? & ?). exists b. split; [done|].
    apply lookup_insert_is_Some. destruct (decide (a = b)); eauto.
  - intros b c u v. rewrite !lookup_insert_Some.
    intros [[<- <-]|[? Hb]] [[<- <-]|[? Hc]] He; [done|..].
    + rewrite Hid in He. by eapply inv_ids0.
    + rewrite Hid in He. symmetry in He. symmetry. by eapply inv_ids0.
    + by eapply inv_ids0.
  - intros b u. rewrite lookup_insert_Some. intros [[<- <-]|[? Hb]]; [|by eapply inv_next0].
    rewrite Hid. by eapply inv_next0.
Qed.

End Rules.

(** ** Queue operations *)

#[global] Arguments read_task : simpl never.
#[global] Arguments upd_task : simpl never.
#[global] Arguments queue_at : simpl never.
#[global] Arguments set_queue : simpl never.
#[global] Arguments cpu_at : simpl never.
#[global] Arguments upd_cpu : simpl never.
#[global] Arguments scheduler_add_task : simpl never.
#[global] Arguments wake_if_blocked : simpl never.
#[global] Arguments ready : simpl never.
#[local] Arguments Z.mul : simpl never.
#[local] Arguments Z.add : simpl never.

Section Queues.
Implicit Types (k : kernel) (a : addr) (t : task).

Lemma clamp_range p : (clamp p < Z.to_nat MAX_PRIORITY)%nat.
Proof.
  unfold clamp, MAX_PRIORITY. cbn zeta. destruct (Z.leb_spec 32 (to_int p)).
  - change (32 - 1 <? 0) with false. lia.
  - destruct (Z.ltb_spec (to_int p) 0); lia.
Qed.

Lemma clamp_index p :
  (if (if MAX_PRIORITY <=? to_int p then MAX_PRIORITY - 1 else to_int p) <? 0 then 0
   else if MAX_PRIORITY <=? to_int p then MAX_PRIORITY - 1 else to_int p) = Z.of_nat (clamp p).
Proof.
  unfold clamp. cbn zeta. rewrite Z2Nat.id; [done|].
  case_if; bools; [lia|]. case_if; bools; unfold MAX_PRIORITY in *; lia.
Qed.

(** [qs] are the queues after task [a] was put behind those of level [n]. *)
Definition enqueued k (n : nat) a (qs : list (ring ptr)) : Prop :=
  exists q, ready_queues k !! n = Some q /\
    (count q < MAX_TASKS /\ (exists r, qs = <[n := r]> (ready_queues k) /\ level r = level q ++ [Some a]) \/
     MAX_TASKS <= count q /\ qs = ready_queues k).

Lemma enqueued_in k n a qs p :
  enqueued k n a qs -> p ∈ concat (level <$> qs) -> p = Some a \/ p ∈ ready k.
Proof.
  intros (q & Hq & [[_ (r & -> & Hr)]|[_ ->]]) Hp; [|by right].
  rewrite (level_insert k n q r Hq), Hr in Hp. rewrite (level_at k n q Hq). set_solver.
Qed.

Lemma enqueued_NoDup k n a qs :
  enqueued k n a qs -> NoDup (ready k) -> Some a ∉ ready k -> NoDup (concat (level <$> qs)).
Proof.
  intros (q & Hq & [[_ (r & -> & Hr)]|[_ ->]]) Hnd Ha; [|done].
  rewrite (level_insert k n q r Hq), Hr. rewrite (level_at k n q Hq) in *.
  enough (NoDup (Some a :: (concat (level <$> take n (ready_queues k)) ++ level q ++
    concat (level <$> drop (S n) (ready_queues k))))) as H.
  { eapply (NoDup_Permutation_proper _ _), H. rewrite <- app_assoc. simpl.
    rewrite !app_assoc. symmetry. apply Permutation_middle. }
  by apply NoDup_cons.
Qed.

Lemma add_task_queues ex k a t Q :
  inv ex k -> tasks k !! a = Some t ->
  (forall qs, enqueued k (clamp (priority t)) a qs -> length qs = length (ready_queues k) ->
     Forall (ring_wf MAX_TASKS) qs -> Q tt (set_ready_queues qs k)) ->
  wp (scheduler_add_task (Some a)) Q k.
Proof.
  intros Hi Ha HQ. pose proof (clamp_range (priority t)) as Hlt.
  destruct (ring_at _ _ _ Hi Hlt) as (q & Hq & Hwf).
  unfold scheduler_add_task. wp_steps. eapply wp_read_task; [done|]. cbn zeta.
  rewrite (clamp_index (priority t)). wp_steps. eapply wp_queue_at; [done|].
  destruct (Z.ltb_spec (count q) MAX_TASKS).
  - destruct (ring_push_spec _ q (Some a) Hwf) as (r & Hr & Hwr & Hir & _); [done|].
    rewrite Hr. simpl. wp_steps. apply wp_set_queue; [by eapply lookup_lt_Some|].
    apply HQ; [exists q; split; [done|left; eauto]|by rewrite length_insert|].
    apply Forall_insert; [apply Hi|done].
  - wp_steps. replace k with (set_ready_queues (ready_queues k) k) at 1 by by destruct k.
    apply HQ; [exists q; split; [done|by right]|done|apply Hi].
Qed.

Lemma add_task_spec ex k a t Q :
  inv ex k -> tasks k !! a = Some t -> (state t = TASK_STATE_READY \/ ex = Some a) ->
  Some a ∉ ready k ->
  (forall qs, inv ex (set_ready_queues qs k) -> enqueued k (clamp (priority t)) a qs ->
     Q tt (set_ready_queues qs k)) ->
  wp (scheduler_add_task (Some a)) Q k.
Proof.
  intros Hi Ha Hst Hn HQ. eapply add_task_queues; [done|done|]. intros qs He Hl Hr.
  apply HQ; [|done]. eapply inv_set_queues; [done..| |].
  - intros p Hp. destruct (enqueued_in _ _ _ _ _ He Hp) as [->|Hp']; [eauto|by apply Hi].
  - eapply enqueued_NoDup; [done|apply Hi|done].
Qed.

(** *** Choosing the next task *)

(** The first task of the ready list is taken; the idle task if there is none. *)
Lemma next_from_spec ex n k Q :
  inv ex k -> (n <= Z.to_nat MAX_PRIORITY)%nat ->
  (forall j q, (j < Z.to_nat MAX_PRIORITY - n)%nat -> ready_queues k !! j = Some q -> level q = []) ->
  (forall p l qs, ready k = p :: l -> concat (level <$> qs) = l ->
     inv ex (set_ready_queues qs k) -> Q p (set_ready_queues qs k)) ->
  (ready k = [] -> Q (idle_task k) k) ->
  wp (next_from (seqZ (Z.of_nat (Z.to_nat MAX_PRIORITY - n)) (Z.of_nat n))) Q k.
Proof.
  intros Hi Hn Hempty HQ HQ0.
  assert (concat (level <$> take (Z.to_nat MAX_PRIORITY - n) (ready_queues k)) = []) as Hpre.
  { revert Hempty. generalize (Z.to_nat MAX_PRIORITY - n)%nat. intros m.
    generalize (ready_queues k). intros qs. revert m.
    induction qs as [|q qs IH]; intros [|m] He; simpl; try done.
    rewrite (He 0%nat q) by (done || lia). simpl. apply IH.
    intros j q' Hj Hq'. apply (He (S j)); [lia|done]. }
  revert Hn Hempty Hpre. induction n as [|n IH]; intros Hn Hempty Hpre.
  - simpl. wp_steps. apply HQ0. unfold ready. rewrite Nat.sub_0_r in Hpre.
    rewrite <- (inv_levels _ _ Hi) in Hpre. by rewrite firstn_all in Hpre.
  - set (m := (Z.to_nat MAX_PRIORITY - S n)%nat) in *.
    rewrite seqZ_cons by lia. cbn [next_from]. wp_steps.
    destruct (ring_at _ _ m Hi) as (q & Hq & Hwf); [lia|].
    eapply wp_queue_at; [done|]. pose proof (items_length _ _ Hwf) as Hlen. fold (level q) in Hlen.
    destruct (Z.ltb_spec 0 (count q)) as [Hc|Hc].
    + destruct (ring_pop_spec _ _ Hwf Hc) as (p & Hf & Hwp & Hip). fold (level q) in Hip.
      rewrite Hf. simpl. wp_steps. apply wp_set_queue; [by eapply lookup_lt_Some|]. wp_steps.
      assert (ready k = p :: (concat (level <$> <[m := ring_pop MAX_TASKS q]> (ready_queues k)))) as Hr.
      { rewrite (level_at k m q Hq), (level_insert k m q _ Hq), Hpre, Hip. done. }
      pose proof (inv_nodup _ _ Hi) as Hnd. rewrite Hr in Hnd. apply NoDup_cons in Hnd as [_ Hnd].
      eapply HQ; [done|done|]. eapply inv_set_queues; [done|by rewrite length_insert| | |done].
      * apply Forall_insert; [apply Hi|done].
      * intros p' Hp'. apply Hi. rewrite Hr. by right.
    + assert (level q = []) as Hl0 by (destruct (level q); [done|simpl in Hlen; lia]).
      replace (Z.succ (Z.of_nat m)) with (Z.of_nat (Z.to_nat MAX_PRIORITY - n)) by lia.
      replace (Z.pred (Z.of_nat (S n))) with (Z.of_nat n) by lia.
      replace (Z.to_nat MAX_PRIORITY - n)%nat with (S m) in * by lia.
      apply IH; [lia| |].
      * intros j q' Hj Hq'. destruct (decide (j = m)) as [->|]; [congruence|]. apply (Hempty j); [lia|done].
      * rewrite (take_S_r _ _ _ Hq), fmap_app, concat_app, Hpre. simpl. by rewrite Hl0.
Qed.

Lemma get_next_task_spec ex k Q :
  inv ex k ->
  (forall p l qs, ready k = p :: l -> concat (level <$> qs) = l ->
     inv ex (set_ready_queues qs k) -> Q p (set_ready_queues qs k)) ->
  (ready k = [] -> Q (idle_task k) k) ->
  wp scheduler_get_next_task Q k.
Proof.
  intros Hi HQ HQ0. apply (next_from_spec ex (Z.to_nat MAX_PRIORITY) k Q); try done. intros. lia.
Qed.

End Queues.

(** ** Searching *)

Section Search.
Implicit Types (k : kernel) (a : addr) (t : task).

Lemma queue_slots_items q : ring_wf MAX_TASKS q -> queue_slots q = Some (level q).
Proof.
  intros Hw. unfold queue_slots, level, items.
  assert (forall l, mapM (fun i => ring_nth MAX_TASKS q (Z.of_nat i)) l =
    Some (omap (fun i => ring_nth MAX_TASKS q (Z.of_nat i)) l)) as H; [|apply H].
  induction l as [|i l IH]; [done|]. simpl.
  destruct (ring_nth_some _ q (Z.of_nat i) Hw) as [x ->]. simpl. by rewrite IH.
Qed.

Definition all_live k (l : list ptr) : Prop := forall p, p ∈ l -> exists a, p = Some a /\ live k a.

Lemma search_spec k tid l i :
  all_live k l ->
  (search (tasks k) tid l i = Some None /\
   forall a t, Some a ∈ l -> tasks k !! a = Some t -> id t <> tid) \/
  (exists j a t, search (tasks k) tid l i = Some (Some (i + Z.of_nat j, Some a)) /\
     l !! j = Some (Some a) /\ tasks k !! a = Some t /\ id t = tid).
Proof.
  revert i. induction l as [|p l IH]; intros i Hl.
  - left. split; [done|]. intros a t Ha. by apply elem_of_nil in Ha.
  - destruct (Hl p) as (a & -> & [t Ha]); [by left|]. cbn [search]. unfold has_id. rewrite Ha.
    simpl. destruct (Z.eqb_spec (id t) tid) as [He|He].
    + right. exists 0%nat, a, t. rewrite Z.add_0_r. done.
    + destruct (IH (i + 1)) as [[Hs Hn]|(j & b & u & Hs & Hj & Hb & Hu)].
      { intros p Hp. apply Hl. by right. }
      * left. split; [done|]. intros b u Hb Hu. apply elem_of_cons in Hb as [[= ->]|Hb]; [congruence|].
        by apply (Hn b).
      * right. exists (S j), b, u. rewrite Hs. repeat split; try done. do 3 f_equal. lia.
Qed.

Lemma ready_live ex k : inv ex k -> all_live k (ready k).
Proof. intros Hi p Hp. destruct (inv_ready _ _ Hi p Hp) as (a & t & -> & Ha & _). exists a. split; [done|by exists t]. Qed.

Lemma sleeping_live ex k : inv ex k -> all_live k (s_task <$> sleeping_tasks k).
Proof.
  intros Hi p (e & -> & He)%list_elem_of_fmap.
  destruct (inv_sleeping _ _ Hi e He) as (a & Hs & Ha). exists a. by rewrite Hs.
Qed.

Lemma level_ready k n q p : ready_queues k !! n = Some q -> p ∈ level q -> p ∈ ready k.
Proof. intros Hq Hp. rewrite (level_at k n q Hq). set_solver. Qed.

Lemma ready_level k p : p ∈ ready k -> exists n q, ready_queues k !! n = Some q /\ p ∈ level q.
Proof.
  unfold ready. rewrite list_elem_of_In, in_concat. intros (l & Hl & Hp).
  apply list_elem_of_In, list_elem_of_fmap in Hl as (q & -> & Hq).
  apply list_elem_of_lookup in Hq as [n Hn]. exists n, q. by rewrite list_elem_of_In.
Qed.

(** *** Where a task can be found *)

(** The task is one [scheduler_find_task_by_id] looks at. *)
Definition located k a : Prop :=
  current k = Some a \/ Some a ∈ ready k \/ Some a ∈ s_task <$> sleeping_tasks k.

Lemma located_live ex k a : inv ex k -> located k a -> live k a.
Proof.
  intros Hi [Hc|[Hr|Hs]].
  - by eapply current_live.
  - destruct (ready_live _ _ Hi _ Hr) as (b & [= ->] & ?). done.
  - destruct (sleeping_live _ _ Hi _ Hs) as (b & [= ->] & ?). done.
Qed.

Lemma find_current_spec ex k tid n m Q :
  inv ex k -> (m + n <= Z.to_nat (num_cpus k))%nat ->
  (forall a t, current k = Some a -> tasks k !! a = Some t -> id t = tid -> Q (Some a) k) ->
  ((m = 0%nat -> n = 0%nat \/ forall a t, current k = Some a -> tasks k !! a = Some t -> id t <> tid) ->
   Q None k) ->
  wp (find_current tid (seqZ (Z.of_nat m) (Z.of_nat n))) Q k.
Proof.
  intros Hi. revert m. induction n as [|n IH]; intros m Hm HQ HN.
  - simpl. wp_steps. apply HN. by left.
  - rewrite seqZ_cons by lia. cbn [find_current]. wp_steps.
    destruct (lookup_lt_is_Some_2 (cpu_states k) m) as [c Hc].
    { rewrite (inv_ncpus _ _ Hi). pose proof (inv_num _ _ Hi). lia. }
    eapply wp_cpu_at; [done|]. wp_steps.
    replace (Z.succ (Z.of_nat m)) with (Z.of_nat (S m)) by lia.
    replace (Z.pred (Z.of_nat (S n))) with (Z.of_nat n) by lia.
    destruct (current_task c) as [a|] eqn:Hca; simpl.
    + destruct (inv_current _ _ Hi _ _ _ Hc Hca) as [-> [t Ha]]. rewrite Ha. simpl. wp_steps.
      assert (current k = Some a) as Hcur by (unfold current; by rewrite Hc).
      destruct (Z.eqb_spec (id t) tid) as [He|He]; wp_steps; [by eapply HQ|].
      apply IH; [lia|done|]. intros _. apply HN. intros _. right. intros b u Hb Hu. congruence.
    + wp_steps. apply IH; [lia|done|]. intros _. apply HN. intros ->. right. intros a t Ha.
      unfold current in Ha. rewrite Hc in Ha. simpl in Ha. congruence.
Qed.

Lemma find_ready_spec ex k tid n Q :
  inv ex k -> (n <= Z.to_nat MAX_PRIORITY)%nat ->
  (forall a t, Some a ∈ ready k -> tasks k !! a = Some t -> id t = tid -> Q (Some a) k) ->
  ((forall j q a t, (Z.to_nat MAX_PRIORITY - n <= j)%nat -> ready_queues k !! j = Some q ->
      Some a ∈ level q -> tasks k !! a = Some t -> id t <> tid) -> Q None k) ->
  wp (find_ready tid (seqZ (Z.of_nat (Z.to_nat MAX_PRIORITY - n)) (Z.of_nat n))) Q k.
Proof.
  intros Hi. induction n as [|n IH]; intros Hn HQ HN.
  - simpl. wp_steps. apply HN. intros j q a t Hj Hq. apply lookup_lt_Some in Hq.
    rewrite (inv_levels _ _ Hi) in Hq. lia.
  - set (m := (Z.to_nat MAX_PRIORITY - S n)%nat) in *.
    rewrite seqZ_cons by lia. cbn [find_ready]. wp_steps.
    destruct (ring_at _ _ m Hi) as (q & Hq & Hwf); [lia|].
    eapply wp_queue_at; [done|]. wp_steps. rewrite queue_slots_items by done. simpl. wp_steps.
    destruct (search_spec k tid (level q) 0) as [[Hs Hno]|(j & a & t & Hs & Hj & Ha & Ht)].
    { intros p Hp. eapply ready_live; [done|]. by eapply level_ready. }
    + rewrite Hs. simpl. wp_steps.
      replace (Z.succ (Z.of_nat m)) with (Z.of_nat (Z.to_nat MAX_PRIORITY - n)) by lia.
      replace (Z.pred (Z.of_nat (S n))) with (Z.of_nat n) by lia.
      apply IH; [lia|done|]. intros Hno'. apply HN. intros j q' a t Hj Hq' Ha Ht.
      destruct (decide (j = m)) as [->|]; [|apply (Hno' j q' a t); (lia || done)].
      rewrite Hq in Hq'. injection Hq' as <-. by apply (Hno a t).
    + rewrite Hs. simpl. wp_steps. eapply HQ; [|done|done]. eapply level_ready; [done|].
      by eapply list_elem_of_lookup_2.
Qed.

(** The function finds a task exactly when it is located, and changes nothing. *)
Lemma find_task_spec ex k tid Q :
  inv ex k ->
  (forall a t, located k a -> tasks k !! a = Some t -> id t = tid -> Q (Some a) k) ->
  ((forall a t, located k a -> tasks k !! a = Some t -> id t <> tid) -> Q None k) ->
  wp (scheduler_find_task_by_id tid) Q k.
Proof.
  intros Hi HQ HN. unfold scheduler_find_task_by_id. wp_steps.
  pose proof (inv_num _ _ Hi) as Hnum.
  replace (num_cpus k) with (Z.of_nat (Z.to_nat (num_cpus k))) by lia.
  apply (find_current_spec ex k tid _ 0); [done|lia| |].
  - intros a t Hc Ha Ht. wp_steps. eapply HQ; [by left|done|done].
  - intros Hc. destruct (Hc eq_refl) as [?|Hc']; [lia|]. wp_steps.
    apply (find_ready_spec ex k tid (Z.to_nat MAX_PRIORITY)); [done|done| |].
    + intros a t Hr Ha Ht. wp_steps. eapply HQ; [right; by left|done|done].
    + intros Hr. wp_steps. unfold find_sleeping. wp_steps.
      destruct (search_spec k tid (s_task <$> sleeping_tasks k) 0 (sleeping_live _ _ Hi))
        as [[Hs Hno]|(j & a & t & Hs & Hj & Ha & Ht)]; rewrite Hs; simpl; wp_steps.
      * apply HN. intros a t [Hl|[Hl|Hl]] Ha; [by eapply Hc'| |by eapply Hno].
        apply ready_level in Hl as (n & q & Hq & Hp). eapply (Hr n q); [lia|done..].
      * eapply HQ; [|done|done]. right. right. by eapply list_elem_of_lookup_2.
Qed.

(** *** Removing a task from its queue *)

(** All ready tasks but the one with that id remain, in their order. *)
Lemma remove_from_spec ex k tid n Q :
  inv ex k -> (n <= Z.to_nat MAX_PRIORITY)%nat ->
  (forall j q a t, (j < Z.to_nat MAX_PRIORITY - n)%nat -> ready_queues k !! j = Some q ->
     Some a ∈ level q -> tasks k !! a = Some t -> id t <> tid) ->
  (forall qs, inv ex (set_ready_queues qs k) ->
     (forall a t, tasks k !! a = Some t ->
        Some a ∈ concat (level <$> qs) <-> Some a ∈ ready k /\ id t <> tid) ->
     Q tt (set_ready_queues qs k)) ->
  wp (remove_from tid (seqZ (Z.of_nat (Z.to_nat MAX_PRIORITY - n)) (Z.of_nat n))) Q k.
Proof.
  intros Hi. induction n as [|n IH]; intros Hn Hpre HQ.
  - simpl. wp_steps. replace k with (set_ready_queues (ready_queues k) k) at 1 by by destruct k.
    apply HQ; [by destruct k|]. intros a t Ha. split; [|by intros [? _]]. intros Hp. split; [done|].
    apply ready_level in Hp as (j & q & Hq & Hp). eapply (Hpre j q); [|done..].
    apply lookup_lt_Some in Hq. rewrite (inv_levels _ _ Hi) in Hq. lia.
  - set (m := (Z.to_nat MAX_PRIORITY - S n)%nat) in *.
    rewrite seqZ_cons by lia. cbn [remove_from]. wp_steps.
    destruct (ring_at _ _ m Hi) as (q & Hq & Hwf); [lia|].
    eapply wp_queue_at; [done|]. wp_steps. rewrite queue_slots_items by done. simpl. wp_steps.
    destruct (search_spec k tid (level q) 0) as [[Hs Hno]|(j & a & t & Hs & Hj & Ha & Ht)].
    { intros p Hp. eapply ready_live; [done|]. by eapply level_ready. }
    + rewrite Hs. simpl. wp_steps.
      replace (Z.succ (Z.of_nat m)) with (Z.of_nat (Z.to_nat MAX_PRIORITY - n)) by lia.
      replace (Z.pred (Z.of_nat (S n))) with (Z.of_nat n) by lia.
      apply IH; [lia| |done]. intros j q' a t Hj Hq' Ha Ht.
      destruct (decide (j = m)) as [->|]; [|apply (Hpre j q' a t); (lia || done)].
      rewrite Hq in Hq'. injection Hq' as <-. by apply (Hno a t).
    + rewrite Hs. simpl. wp_steps. pose proof (items_length _ _ Hwf) as Hlen. fold (level q) in Hlen.
      pose proof (lookup_lt_Some _ _ _ Hj) as Hjl.
      destruct (ring_remove_spec _ q (0 + Z.of_nat j) Hwf) as (r & Hr & Hwr & Hir & _); [lia|].
      rewrite Hr. simpl. wp_steps. apply wp_set_queue; [by eapply lookup_lt_Some|].
      fold (level r) (level q) in Hir. replace (Z.to_nat (0 + Z.of_nat j)) with j in Hir by lia.
      assert (ready k ≡ₚ Some a :: concat (level <$> <[m := r]> (ready_queues k))) as Hperm.
      { rewrite (level_at k m q Hq), (level_insert k m q r Hq), Hir.
        rewrite (delete_Permutation (level q) j (Some a) Hj) at 1. simpl.
        symmetry. apply Permutation_middle. }
      pose proof (inv_nodup _ _ Hi) as Hnd. rewrite Hperm in Hnd. apply NoDup_cons in Hnd as [Hna Hnd].
      apply HQ.
      * eapply inv_set_queues; [done|by rewrite length_insert| | |done].
        { apply Forall_insert; [apply Hi|done]. }
        intros p Hp. apply Hi. rewrite Hperm. by right.
      * intros b u Hb. rewrite Hperm, elem_of_cons. split.
        { intros Hp. split; [by right|]. intros Hu. apply Hna.
          by rewrite (inv_ids _ _ Hi a b t u) by congruence. }
        intros [[[= ->]|Hp] Hu]; [congruence|done].
Qed.

Lemma remove_task_spec ex k tid Q :
  inv ex k ->
  (forall qs, inv ex (set_ready_queues qs k) ->
     (forall a t, tasks k !! a = Some t ->
        Some a ∈ concat (level <$> qs) <-> Some a ∈ ready k /\ id t <> tid) ->
     Q tt (set_ready_queues qs k)) ->
  wp (scheduler_remove_task_from_ready_queue tid) Q k.
Proof.
  intros Hi HQ. apply (remove_from_spec ex k tid (Z.to_nat MAX_PRIORITY)); try done. intros. lia.
Qed.

End Search.

(** ** Waking *)

Section Wake.
Implicit Types (k : kernel) (a : addr) (t : task).

(** Only blocked tasks changed, to READY, and the queues. *)
Definition woken (t t' : task) : Prop := t' = t \/ state t = TASK_STATE_BLOCKED /\ t' = set_state TASK_STATE_READY t.

Definition frame k k' : Prop :=
  exists qs ts, k' = set_ready_queues qs (set_tasks ts k) /\
    forall a, match tasks k !! a, ts !! a with
              | Some t, Some t' => woken t t'
              | None, None => True
              | _, _ => False
              end.

Lemma frame_refl k : frame k k.
Proof.
  exists (ready_queues k), (tasks k). split; [by destruct k|]. intros a.
  destruct (tasks k !! a); [by left|done].
Qed.

Lemma frame_trans k1 k2 k3 : frame k1 k2 -> frame k2 k3 -> frame k1 k3.
Proof.
  intros (qs & ts & -> & H1) (qs' & ts' & -> & H2). exists qs', ts'. split; [done|].
  intros a. specialize (H1 a). specialize (H2 a). simpl in *.
  destruct (tasks k1 !! a) as [t|], (ts !! a) as [t'|], (ts' !! a) as [t''|]; try done.
  destruct H1 as [->|[Hb ->]]; [done|]. destruct H2 as [->|[Hb2 _]]; [by right|done].
Qed.

Lemma frame_task k k' a t :
  frame k k' -> tasks k !! a = Some t -> exists t', tasks k' !! a = Some t' /\ woken t t'.
Proof.
  intros (qs & ts & -> & H) Ha. specialize (H a). rewrite Ha in H. simpl.
  destruct (ts !! a) as [t'|]; [eauto|done].
Qed.

Lemma inv_ready_state k a t :
  inv None k -> tasks k !! a = Some t -> state t <> TASK_STATE_READY -> Some a ∉ ready k.
Proof.
  intros Hi Ha Hs Hr. destruct (inv_ready _ _ Hi _ Hr) as (b & u & [= ->] & Hb & [Hu|?]); congruence.
Qed.

(** A task that is not in a queue becomes READY and is queued. *)
Lemma make_ready_spec k a t Q :
  inv None k -> tasks k !! a = Some t -> Some a ∉ ready k ->
  (forall qs, let k' := set_ready_queues qs (set_tasks (<[a := set_state TASK_STATE_READY t]> (tasks k)) k) in
     inv None k' -> enqueued k (clamp (priority t)) a qs -> Q tt k') ->
  wp (upd_task a (set_state TASK_STATE_READY) ;;; scheduler_add_task (Some a)) Q k.
Proof.
  intros Hi Ha Hn HQ. wp_steps. eapply wp_upd_task; [done|].
  apply (add_task_spec None _ a (set_state TASK_STATE_READY t)).
  - eapply inv_upd_task; [done|done|done|by left|done].
  - apply lookup_insert_eq.
  - by left.
  - done.
  - intros qs Hi' He. by apply HQ.
Qed.

Lemma wake_spec k p Q :
  inv None k -> (forall a, p = Some a -> live k a) ->
  (forall k', inv None k' -> frame k k' ->
     (forall a t, p = Some a -> tasks k !! a = Some t -> state t = TASK_STATE_BLOCKED ->
        enqueued k (clamp (priority t)) a (ready_queues k') /\
        tasks k' !! a = Some (set_state TASK_STATE_READY t)) ->
     (forall b, Some b <> p -> tasks k' !! b = tasks k !! b) ->
     (forall x, x ∈ ready k' -> x ∈ ready k \/ x = p) -> Q tt k') ->
  wp (wake_if_blocked p) Q k.
Proof.
  intros Hi Hp HQ. unfold wake_if_blocked. destruct p as [a|]; wp_steps.
  - destruct (Hp a eq_refl) as [t Ha]. eapply wp_read_task; [done|].
    destruct (Z.eqb_spec (state t) TASK_STATE_BLOCKED) as [Hb|Hb].
    + eapply make_ready_spec; [done|done| |].
      { eapply inv_ready_state; [done|done|]. by rewrite Hb. }
      intros qs k' Hi' He. apply HQ; [done| | | |].
      * exists qs, (<[a := set_state TASK_STATE_READY t]> (tasks k)). split; [done|].
        intros b. destruct (decide (a = b)) as [<-|Hne].
        { rewrite Ha, lookup_insert_eq. by right. }
        rewrite lookup_insert_ne by done. destruct (tasks k !! b); [by left|done].
      * intros b u [= <-] Hu _. rewrite Ha in Hu. injection Hu as <-.
        split; [done|]. apply lookup_insert_eq.
      * intros b Hne. apply lookup_insert_ne. congruence.
      * intros x Hx. destruct (enqueued_in _ _ _ _ x He Hx); [by right|by left].
    + wp_steps. apply HQ; [done|apply frame_refl| |done|by left]. intros b u [= <-] Hu Hs. congruence.
  - apply HQ; [done|apply frame_refl|done|done|by left].
Qed.

Lemma frame_fields k k' : frame k k' ->
  cpu_states k' = cpu_states k /\ sleeping_tasks k' = sleeping_tasks k /\ idle_task k' = idle_task k /\
  lock k' = lock k /\ preemption_enabled k' = preemption_enabled k /\ trace k' = trace k /\
  scheduler_ticks k' = scheduler_ticks k /\ waiting_parents k' = waiting_parents k /\
  num_cpus k' = num_cpus k /\ next_task_id k' = next_task_id k.
Proof. by intros (qs & ts & -> & _). Qed.

Lemma frame_live k k' a : frame k k' -> live k a -> live k' a.
Proof. intros Hf [t Ha]. destruct (frame_task _ _ _ _ Hf Ha) as (t' & ? & _). by exists t'. Qed.

(** *** Sleeping tasks *)

(** The entries that are not yet due. *)
Definition pending (now : Z) (l : list sleeping_task) : list sleeping_task :=
  filter (fun e => now < wake_time e) l.

(** What waking the due entries of [l] does to [k]: the tasks of due entries are
    no longer blocked, the tasks of no entry are as before, and only tasks of
    entries were added to the queues. *)
Definition woke (l : list sleeping_task) k k' : Prop :=
  (forall e a t, e ∈ l -> wake_time e <= scheduler_ticks k -> s_task e = Some a ->
     tasks k' !! a = Some t -> state t <> TASK_STATE_BLOCKED) /\
  (forall a, Some a ∉ s_task <$> l -> tasks k' !! a = tasks k !! a) /\
  (forall p, p ∈ ready k' -> p ∈ ready k \/ p ∈ s_task <$> l).

Lemma frame_not_blocked k k' a t t' :
  frame k k' -> tasks k !! a = Some t -> state t <> TASK_STATE_BLOCKED -> tasks k' !! a = Some t' -> t' = t.
Proof.
  intros Hf Ha Hs Ha'. destruct (frame_task _ _ _ _ Hf Ha) as (t2 & H2 & [->|[? _]]); congruence.
Qed.

Lemma check_sleeping_spec l k Q :
  inv None k -> (forall e, e ∈ l -> exists a, s_task e = Some a /\ live k a) ->
  (forall k', inv None k' -> frame k k' -> woke l k k' -> Q (pending (scheduler_ticks k) l) k') ->
  wp (check_sleeping l) Q k.
Proof.
  revert k Q. induction l as [|e l IH]; intros k Q Hi Hl HQ.
  - simpl. wp_steps. apply HQ; [done|apply frame_refl|].
    split; [set_solver|]. split; [done|]. by left.
  - cbn [check_sleeping]. wp_steps. unfold pending in *. rewrite filter_cons in HQ.
    destruct (Z.leb_spec (wake_time e) (scheduler_ticks k)) as [Hd|Hd].
    + rewrite decide_False in HQ by lia. wp_steps. destruct (Hl e) as (a & Hs & [t Ha]); [by left|].
      apply wake_spec; [done|intros b; rewrite Hs; intros [= <-]; by exists t|].
      intros k1 Hi1 Hf1 Hw1 Hkeep1 Hready1. apply IH; [done| |].
      { intros e' He'. destruct (Hl e') as (b & ? & ?); [by right|]. exists b. split; [done|].
        by eapply frame_live. }
      intros k2 Hi2 Hf2 (Hdue & Hkeep & Hrdy). pose proof (frame_fields _ _ Hf1) as (_&_&_&_&_&_&Hticks&_).
      rewrite Hticks in *. apply HQ; [done|by eapply frame_trans|].
      destruct (frame_task _ _ _ _ Hf1 Ha) as (t1 & Ha1 & Hwk1).
      assert (state t1 <> TASK_STATE_BLOCKED) as Ht1.
      { destruct (decide (state t = TASK_STATE_BLOCKED)) as [Hb|Hb].
        - destruct (Hw1 a t Hs Ha Hb) as [_ Ha1']. rewrite Ha1 in Ha1'. by injection Ha1' as ->.
        - destruct Hwk1 as [->|[? _]]; done. }
      split; [|split].
      * intros e' b u He' Hd' Hs' Hu. apply elem_of_cons in He' as [->|He']; [|by eapply Hdue].
        rewrite Hs in Hs'. injection Hs' as <-. by rewrite (frame_not_blocked _ _ _ _ _ Hf2 Ha1 Ht1 Hu).
      * intros b Hb. rewrite fmap_cons, not_elem_of_cons in Hb. destruct Hb as [Hb1 Hb2].
        rewrite Hkeep by done. by apply Hkeep1.
      * intros p Hp. rewrite fmap_cons, elem_of_cons.
        destruct (Hrdy p Hp) as [Hp1|?]; [|by right; right].
        destruct (Hready1 p Hp1); [by left|by right; left].
    + rewrite decide_True in HQ by lia. wp_steps. apply IH; [done| |].
      * intros e' He'. apply Hl. by right.
      * intros k' Hi' Hf (Hdue & Hkeep & Hrdy). wp_steps. apply HQ; [done|done|].
        split; [|split].
        { intros e' b u He' Hd' Hs' Hu. apply elem_of_cons in He' as [->|He']; [lia|by eapply Hdue]. }
        { intros b Hb. apply Hkeep. set_solver. }
        intros p Hp. destruct (Hrdy p Hp); [by left|right; set_solver].
Qed.

Lemma inv_set_sleeping ex k l :
  inv ex k -> (forall e, e ∈ l -> exists a, s_task e = Some a /\ live k a) ->
  inv ex (set_sleeping_tasks l k).
Proof. by intros []; split. Qed.

Lemma pending_in now l e : e ∈ pending now l -> e ∈ l.
Proof. unfold pending. rewrite list_elem_of_filter. by intros [_ ?]. Qed.

Lemma check_sleeping_tasks_spec k Q :
  inv None k ->
  (forall k', frame k k' -> woke (sleeping_tasks k) k k' ->
     let k'' := set_sleeping_tasks (pending (scheduler_ticks k) (sleeping_tasks k)) k' in
     inv None k'' -> Q tt k'') ->
  wp scheduler_check_sleeping_tasks Q k.
Proof.
  intros Hi HQ. unfold scheduler_check_sleeping_tasks. wp_steps.
  apply check_sleeping_spec; [done|apply Hi|]. intros k' Hi' Hf Hw. wp_steps. apply HQ; [done|done|].
  apply inv_set_sleeping; [done|]. intros e He%pending_in.
  destruct (inv_sleeping _ _ Hi e He) as (a & ? & ?). exists a. split; [done|]. by eapply frame_live.
Qed.

End Wake.

(** ** Load balancing *)

Section Balance.
Implicit Types (k : kernel) (cs : list cpu_state).

(** The tasks in the local queues. *)
Definition local_tasks cs : list ptr := concat ((fun c => level (local_queue c)) <$> cs).

Lemma scan_spec f b i cs :
  (forall b i c, f b i c = b \/ f b i c = (i, count (local_queue c))) ->
  scan f b i cs = b \/
  exists j c, cs !! j = Some c /\ scan f b i cs = (i + Z.of_nat j, count (local_queue c)).
Proof.
  intros Hf. revert b i. induction cs as [|c cs IH]; intros b i; [by left|]. cbn [scan].
  destruct (IH (f b i c) (i + 1)) as [->|(j & c' & Hj & ->)].
  - destruct (Hf b i c) as [->| ->]; [by left|]. right. exists 0%nat, c. by rewrite Z.add_0_r.
  - right. exists (S j), c'. split; [done|]. f_equal. lia.
Qed.

Lemma scan_more b i cs :
  scan more_loaded b i cs = b \/
  exists j c, cs !! j = Some c /\ scan more_loaded b i cs = (i + Z.of_nat j, count (local_queue c)).
Proof. apply scan_spec. intros. unfold more_loaded. case_if; eauto. Qed.

Lemma scan_less b i cs :
  scan less_loaded b i cs = b \/
  exists j c, cs !! j = Some c /\ scan less_loaded b i cs = (i + Z.of_nat j, count (local_queue c)).
Proof. apply scan_spec. intros. unfold less_loaded. case_if; eauto. Qed.

Lemma inv_upd_cpu ex k n c c' :
  inv ex k -> cpu_states k !! n = Some c -> ring_wf MAX_TASKS (local_queue c') ->
  (forall a, current_task c' = Some a -> n = 0%nat /\ live k a) ->
  inv ex (set_cpu_states (<[n := c']> (cpu_states k)) k).
Proof.
  intros [] Hn Hw Hc. split; simpl; try done.
  - by rewrite length_insert.
  - by apply Forall_insert.
  - intros i d a. rewrite list_lookup_insert_Some. intros [(<- & <- & _)|[_ Hd]]; [apply Hc|].
    by apply inv_current0.
Qed.

Lemma local_wf ex k n c : inv ex k -> cpu_states k !! n = Some c -> ring_wf MAX_TASKS (local_queue c).
Proof. intros Hi Hn. pose proof (inv_local _ _ Hi) as H. by eapply Forall_lookup in H. Qed.

(** Replacing the local queue of CPU [n]. *)
Lemma inv_set_local ex k n c r :
  inv ex k -> cpu_states k !! n = Some c -> ring_wf MAX_TASKS r ->
  inv ex (set_cpu_states (<[n := set_local_queue r c]> (cpu_states k)) k).
Proof.
  intros Hi Hn Hr. eapply inv_upd_cpu; [done..|]. intros a Ha. by apply (inv_current _ _ Hi n c).
Qed.

Lemma local_insert cs n c c' :
  cs !! n = Some c ->
  local_tasks (<[n := c']> cs) ≡ₚ
  level (local_queue c') ++ concat (delete n ((fun c => level (local_queue c)) <$> cs)).
Proof.
  intros Hn. unfold local_tasks. rewrite list_fmap_insert.
  apply (concat_insert _ n (level (local_queue c))). by rewrite list_lookup_fmap, Hn.
Qed.

Lemma local_split cs n c :
  cs !! n = Some c ->
  local_tasks cs ≡ₚ level (local_queue c) ++ concat (delete n ((fun c => level (local_queue c)) <$> cs)).
Proof.
  intros Hn. unfold local_tasks. apply concat_split. by rewrite list_lookup_fmap, Hn.
Qed.

Lemma currents_insert cs n c r :
  cs !! n = Some c -> current_task <$> <[n := set_local_queue r c]> cs = current_task <$> cs.
Proof.
  intros Hn. rewrite list_fmap_insert. apply list_insert_id. by rewrite list_lookup_fmap, Hn.
Qed.

(** Moving a task from CPU [i] to CPU [j], or back behind its own queue. *)
Lemma move_task_spec ex k i j c Q :
  inv ex k -> i <> j -> cpu_states k !! i = Some c -> is_Some (cpu_states k !! j) ->
  0 < count (local_queue c) ->
  (forall cs, inv ex (set_cpu_states cs k) -> current_task <$> cs = current_task <$> cpu_states k ->
     local_tasks cs ≡ₚ local_tasks (cpu_states k) -> Q tt (set_cpu_states cs k)) ->
  wp (p <- deref (ring_front (local_queue c)) ;;
      upd_cpu (Z.of_nat i) (set_local_queue (ring_pop MAX_TASKS (local_queue c))) ;;;
      c' <- cpu_at (Z.of_nat j) ;;
      if count (local_queue c') <? MAX_TASKS
      then r <- deref (ring_push MAX_TASKS (local_queue c') p) ;; upd_cpu (Z.of_nat j) (set_local_queue r)
      else
        c <- cpu_at (Z.of_nat i) ;;
        r <- deref (ring_push MAX_TASKS (local_queue c) p) ;;
        upd_cpu (Z.of_nat i) (set_local_queue r)) Q k.
Proof.
  intros Hi Hne Hc [c' Hc'] Hpos HQ. pose proof (local_wf _ _ _ _ Hi Hc) as Hwf.
  pose proof (local_wf _ _ _ _ Hi Hc') as Hwf'. pose proof (lookup_lt_Some _ _ _ Hc) as Hlt.
  destruct (ring_pop_spec _ _ Hwf Hpos) as (p & Hf & Hwp & Hip). fold (level (local_queue c)) in Hip.
  set (r0 := ring_pop MAX_TASKS (local_queue c)) in *. fold (level r0) in Hip.
  pose proof (inv_set_local _ _ _ _ _ Hi Hc Hwp) as Hi1. set (cs1 := <[i := set_local_queue r0 c]> (cpu_states k)) in *.
  assert (cs1 !! j = Some c') as Hj1 by (unfold cs1; by rewrite list_lookup_insert_ne).
  assert (cs1 !! i = Some (set_local_queue r0 c)) as Hi1' by (unfold cs1; by rewrite list_lookup_insert_eq).
  pose proof (currents_insert (cpu_states k) i c r0 Hc) as Hcur. fold cs1 in Hcur.
  assert (local_tasks (cpu_states k) ≡ₚ p :: local_tasks cs1) as Hperm.
  { rewrite (local_split _ i c Hc), Hip. unfold cs1. by rewrite (local_insert _ i c _ Hc). }
  rewrite Hf. simpl. wp_steps. eapply wp_upd_cpu; [done|]. wp_steps.
  eapply wp_cpu_at; [exact Hj1|]. destruct (Z.ltb_spec (count (local_queue c')) MAX_TASKS).
  - destruct (ring_push_spec _ _ p Hwf') as (r & Hr & Hwr & Hir & _); [done|].
    rewrite Hr. simpl. eapply wp_upd_cpu; [exact Hj1|].
    apply (HQ (<[j := set_local_queue r c']> cs1)).
    + by apply (inv_set_local _ _ j c' r Hi1).
    + by rewrite currents_insert.
    + rewrite (local_insert cs1 j c' _ Hj1), Hperm, (local_split cs1 j c' Hj1).
      unfold level at 1. simpl. rewrite Hir. rewrite <- app_assoc. symmetry. apply Permutation_middle.
  - wp_steps. eapply wp_cpu_at; [exact Hi1'|]. simpl.
    destruct (ring_push_spec _ _ p Hwp) as (r & Hr & Hwr & Hir & _).
    { subst r0. simpl. destruct Hwf as (_ & _ & _ & ? & _). lia. }
    rewrite Hr. simpl. eapply wp_upd_cpu; [exact Hi1'|].
    apply (HQ (<[i := set_local_queue r (set_local_queue r0 c)]> cs1)).
    + by apply (inv_set_local _ _ i _ r Hi1).
    + by rewrite currents_insert.
    + rewrite (local_insert cs1 i _ _ Hi1'), Hperm, (local_split cs1 i _ Hi1').
      unfold level at 1. simpl. rewrite Hir. rewrite <- app_assoc. symmetry. apply Permutation_middle.
Qed.

Lemma load_balance_spec ex k Q :
  inv ex k ->
  (forall cs, inv ex (set_cpu_states cs k) -> current_task <$> cs = current_task <$> cpu_states k ->
     local_tasks cs ≡ₚ local_tasks (cpu_states k) -> Q tt (set_cpu_states cs k)) ->
  wp scheduler_load_balance Q k.
Proof.
  intros Hi HQ.
  assert (Q tt k) as HQ0.
  { replace k with (set_cpu_states (cpu_states k) k) at 1 by by destruct k. apply HQ; [by destruct k|done|done]. }
  pose proof (inv_num _ _ Hi) as Hnum. pose proof (inv_ncpus _ _ Hi) as Hlen.
  unfold scheduler_load_balance. wp_steps. case_if; [done|]. bools.
  unfold active_cpus. destruct (Z.leb_spec (num_cpus k) (Z.of_nat (length (cpu_states k))));
    [|rewrite Hlen in *; unfold MAX_CPUS in *; lia].
  simpl. wp_steps. set (cs := take (Z.to_nat (num_cpus k)) (cpu_states k)).
  assert (forall j c, cs !! j = Some c -> cpu_states k !! j = Some c) as Hsub.
  { intros j c. unfold cs. rewrite lookup_take_Some. by intros [? _]. }
  destruct (cpu0 _ _ Hi) as [c0 Hc0].
  destruct (scan more_loaded (0, 0) 0 cs) as [mx mt] eqn:Emx.
  destruct (scan less_loaded (0, INT_MAX) 0 cs) as [mn nt] eqn:Emn.
  case_if; [|done]. bools.
  assert (exists i c, mx = Z.of_nat i /\ cpu_states k !! i = Some c) as (i & c & -> & Hc).
  { destruct (scan_more (0, 0) 0 cs) as [F|(j & c & Hj & F)]; rewrite Emx in F; injection F as -> ->.
    - by exists 0%nat, c0.
    - exists j, c. split; [lia|eauto]. }
  assert (exists j, mn = Z.of_nat j /\ is_Some (cpu_states k !! j)) as (j & -> & Hj).
  { destruct (scan_less (0, INT_MAX) 0 cs) as [F|(j & c' & Hj & F)]; rewrite Emn in F; injection F as -> ->.
    - exists 0%nat. split; [done|]. by rewrite Hc0.
    - exists j. split; [lia|]. rewrite (Hsub _ _ Hj). eauto. }
  wp_steps. eapply wp_cpu_at; [done|]. destruct (Z.ltb_spec 0 (count (local_queue c))); [|done].
  apply (move_task_spec ex k i j c); try done. intros ->. lia.
Qed.

End Balance.

End Scheduler.
