(* ===== verification/SchedulerOps.v ===== *)
(** * Correctness of the scheduler ([kernel/scheduler.c])

    What one scheduling decision does, that every sequence of scheduler calls
    keeps the invariant of [Scheduler] and returns with the lock free, which
    tasks sleep and wake, and what becomes of blocked and migrated tasks. *)

From Stdlib Require Import ZArith Lia.
From stdpp Require Import base tactics option list gmap sorting.
From S2P Require Import Prelude Ring Sync Scheduler.

Set Default Goal Selector "!".
Local Open Scope Z_scope.
Local Open Scope kernel_scope.

Module SchedulerOps.
Import Ring Scheduler.

#[local] Arguments Z.mul : simpl never.
#[local] Arguments Z.add : simpl never.

(** ** One scheduling decision *)

Section Schedule.
Implicit Types (k : kernel) (a : addr) (t : task).

(** The invariant reads these fields only. *)
Lemma inv_ext ex k k' :
  inv ex k -> ready_queues k' = ready_queues k -> cpu_states k' = cpu_states k ->
  num_cpus k' = num_cpus k -> tasks k' = tasks k -> sleeping_tasks k' = sleeping_tasks k ->
  idle_task k' = idle_task k -> next_task_id k' = next_task_id k -> smp_lock k' = smp_lock k ->
  inv ex k'.
Proof.
  intros [] Hq Hc Hn Ht Hs Hid Hne Hsm. unfold ready, live in *.
  split; unfold ready, live; rewrite ?Hq, ?Hc, ?Hn, ?Ht, ?Hs, ?Hid, ?Hne, ?Hsm; done.
Qed.

Lemma inv_set_lock ex k l : inv ex k -> inv ex (set_lock l k).
Proof. by intros []; split. Qed.

Lemma wp_lock_sched k Q : lock k = 0 -> Q tt (set_lock 1 k) -> wp (Sync.acquire sched_lock) Q k.
Proof. intros Hl HQ. by apply Sync.wp_acquire. Qed.

Lemma wp_unlock_sched k Q : Q tt (set_lock 0 k) -> wp (Sync.release sched_lock) Q k.
Proof. done. Qed.

(** What happens before the choice: the running task is queued again, and the
    tasks whose time has come are woken. *)
Definition prepare : M kernel unit :=
  Sync.acquire sched_lock ;;; requeue_current ;;; scheduler_check_sleeping_tasks.

(** The parts of the state a scheduling decision does not touch. *)
Definition steady k k' : Prop :=
  idle_task k' = idle_task k /\ preemption_enabled k' = preemption_enabled k /\
  trace k' = trace k /\ scheduler_ticks k' = scheduler_ticks k /\
  num_cpus k' = num_cpus k /\ waiting_parents k' = waiting_parents k /\
  next_task_id k' = next_task_id k /\ algorithm k' = algorithm k /\ quantum_ms k' = quantum_ms k.

Lemma requeue_spec k Q :
  inv None k ->
  (forall qs ts, let k' := set_ready_queues qs (set_tasks ts k) in
     inv None k' ->
     (forall a, current k <> Some a -> ts !! a = tasks k !! a) ->
     (forall a t, current k = Some a -> tasks k !! a = Some t ->
        if state t =? TASK_STATE_RUNNING
        then ts !! a = Some (set_state TASK_STATE_READY t) /\ enqueued k (clamp (priority t)) a qs
        else ts !! a = Some t /\ qs = ready_queues k) ->
     (current k = None -> qs = ready_queues k) -> Q tt k') ->
  wp requeue_current Q k.
Proof.
  intros Hi HQ. unfold requeue_current. wp_steps. destruct (cpu0 _ _ Hi) as [c Hc].
  apply (wp_cpu_at 0 c); [done|].
  assert (current k = current_task c) as Hcur by (unfold current; by rewrite Hc).
  destruct (current_task c) as [a|] eqn:Ec; wp_steps.
  - destruct (current_live _ _ _ Hi Hcur) as [t Ha]. eapply wp_read_task; [done|].
    destruct (state t =? TASK_STATE_RUNNING) eqn:Es.
    + bools. eapply make_ready_spec; [done|done| |].
      { eapply inv_ready_state; [done|done|]. by rewrite Es. }
      intros qs k' Hi' He. apply HQ; [done| | |].
      * intros b Hb. rewrite lookup_insert_ne; [done|]. congruence.
      * intros b u Hb Hu. rewrite Hcur in Hb. injection Hb as <-. rewrite Ha in Hu. injection Hu as <-.
        rewrite Es. simpl. by rewrite lookup_insert_eq.
      * congruence.
    + wp_steps. replace k with (set_ready_queues (ready_queues k) (set_tasks (tasks k) k)) at 1 by by destruct k.
      apply HQ; [by destruct k|done| |done].
      intros b u Hb Hu. rewrite Hcur in Hb. injection Hb as <-. rewrite Ha in Hu. injection Hu as <-.
      by rewrite Es.
  - replace k with (set_ready_queues (ready_queues k) (set_tasks (tasks k) k)) at 1 by by destruct k.
    apply HQ; [by destruct k|done|congruence|done].
Qed.

Lemma prepare_spec k :
  inv None k -> lock k = 0 ->
  wp prepare (fun _ k1 => inv None k1 /\ lock k1 = 1 /\ steady k k1 /\ cpu_states k1 = cpu_states k /\
    sleeping_tasks k1 = pending (scheduler_ticks k) (sleeping_tasks k) /\
    (forall e a t, e ∈ sleeping_tasks k -> wake_time e <= scheduler_ticks k -> s_task e = Some a ->
       tasks k1 !! a = Some t -> state t <> TASK_STATE_BLOCKED) /\
    (forall a t, tasks k !! a = Some t -> state t <> TASK_STATE_RUNNING ->
       Some a ∉ s_task <$> sleeping_tasks k ->
       tasks k1 !! a = Some t /\ (Some a ∈ ready k1 -> Some a ∈ ready k))) k.
Proof.
  intros Hi Hl. unfold prepare. wp_steps. apply wp_lock_sched; [done|]. wp_steps.
  apply requeue_spec; [by apply inv_set_lock|]. intros qs ts k1 Hi1 Hother Hcur Hnone.
  apply check_sleeping_tasks_spec; [done|]. intros k2 Hf (Hdue & Hkeep & Hrdy) k3 Hi3. split; [done|].
  assert (lock k3 = 1 /\ steady k k3 /\ cpu_states k3 = cpu_states k) as (H1 & H2 & H3).
  { destruct Hf as (qs' & ts' & -> & _). done. }
  split; [done|]. split; [done|]. split; [done|]. split; [done|]. split; [exact Hdue|].
  intros a t Ha Hst Hns. split.
  - simpl. rewrite Hkeep by done. simpl. destruct (decide (current (set_lock 1 k) = Some a)) as [Hc|Hc].
    + specialize (Hcur a t Hc Ha). destruct (Z.eqb_spec (state t) TASK_STATE_RUNNING); [done|].
      by destruct Hcur.
    + by rewrite Hother.
  - intros Hin. destruct (Hrdy _ Hin) as [Hin1|?]; [|done].
    destruct (current (set_lock 1 k)) as [c|] eqn:Hc; [|specialize (Hnone eq_refl); subst qs; exact Hin1].
    destruct (current_live None (set_lock 1 k) c) as [tc Htc]; [by apply inv_set_lock|done|].
    specialize (Hcur c tc eq_refl Htc). destruct (Z.eqb_spec (state tc) TASK_STATE_RUNNING).
    + destruct Hcur as [_ He]. destruct (enqueued_in _ _ _ _ _ He Hin1) as [[= ->]|?]; [|done].
      simpl in Htc. congruence.
    + destruct Hcur as [_ ->]. exact Hin1.
Qed.

(** The task that is due next. *)
Definition best k : ptr := match ready k with p :: _ => p | [] => idle_task k end.

(** Dispatching a task that waits in no queue. *)
Lemma dispatch_spec k n t Q :
  inv None k -> tasks k !! n = Some t -> Some n ∉ ready k ->
  (forall k' t', inv None k' -> steady k k' -> lock k' = lock k -> ready_queues k' = ready_queues k ->
     sleeping_tasks k' = sleeping_tasks k -> current k' = Some n ->
     local_tasks (cpu_states k') = local_tasks (cpu_states k) ->
     tasks k' = <[n := t']> (tasks k) -> id t' = id t -> priority t' = priority t ->
     state t' = TASK_STATE_RUNNING ->
     time_slice t' = slice_for (algorithm k) (quantum_ms k) (priority t) -> Q tt k') ->
  wp (dispatch scheduler_get_current_cpu n) Q k.
Proof.
  intros Hi Hn Hr HQ. destruct (cpu0 _ _ Hi) as [c Hc]. pose proof (lookup_lt_Some _ _ _ Hc) as Hlt.
  pose proof (local_wf _ _ _ _ Hi Hc) as Hwf.
  assert (forall t' c', id t' = id t -> state t' = TASK_STATE_RUNNING ->
    local_queue c' = local_queue c -> current_task c' = Some n ->
    inv None (set_cpu_states (<[0%nat := c']> (cpu_states k)) (set_tasks (<[n := t']> (tasks k)) k)) /\
    local_tasks (<[0%nat := c']> (cpu_states k)) = local_tasks (cpu_states k)) as Hstep.
  { intros t' c' Hid Hst Hl Hcur. split.
    - apply (inv_upd_cpu None (set_tasks (<[n := t']> (tasks k)) k) 0 c c'); [|done|by rewrite Hl|].
      + eapply inv_upd_task; [done|done|done|done|done].
      + intros a Ha. split; [done|]. unfold live. simpl. rewrite Hcur in Ha. injection Ha as ->.
        rewrite lookup_insert_eq. eauto.
    - unfold local_tasks. rewrite list_fmap_insert, Hl, list_insert_id; [done|].
      by rewrite list_lookup_fmap, Hc. }
  set (t1 := set_last_run_time (scheduler_ticks k)
    (set_time_slice (slice_for (algorithm k) (quantum_ms k) (priority t)) (set_state TASK_STATE_RUNNING t))).
  set (c1 := set_cpu_switches (u64 (cpu_switches c + 1)) (set_current_task (Some n) c)).
  unfold dispatch, scheduler_get_current_cpu. wp_steps. eapply wp_upd_task; [done|]. wp_steps.
  eapply (wp_upd_cpu 0); [done|]. wp_steps.
  eapply (wp_upd_cpu 0); [simpl; by rewrite list_lookup_insert_eq|]. wp_steps.
  eapply wp_read_task; [simpl; apply lookup_insert_eq|]. wp_steps.
  eapply wp_upd_task; [simpl; apply lookup_insert_eq|]. wp_steps.
  eapply wp_upd_task; [simpl; apply lookup_insert_eq|]. cbn [idle_task set_tasks set_cpu_states set_total_switches].
  case_decide.
  - eapply (wp_upd_cpu 0); [simpl; by rewrite list_insert_insert_eq, list_lookup_insert_eq|].
    destruct (Hstep t1 (set_idle_ticks (u64 (idle_ticks c1 + 1)) c1)) as [Hi' Hloc]; try done.
    apply (HQ _ t1); try done.
    + eapply inv_ext; [exact Hi'|..]; simpl; rewrite ?insert_insert_eq, ?list_insert_insert_eq; done.
    + unfold current. simpl. rewrite !list_insert_insert_eq. by rewrite list_lookup_insert_eq.
    + simpl. by rewrite !list_insert_insert_eq.
    + simpl. by rewrite !insert_insert_eq.
  - eapply wp_upd_task; [simpl; apply lookup_insert_eq|].
    destruct (Hstep (set_cpu_time_used (u64 (cpu_time_used t1 + 1)) t1) c1) as [Hi' Hloc]; try done.
    apply (HQ _ (set_cpu_time_used (u64 (cpu_time_used t1 + 1)) t1)); try done.
    + eapply inv_ext; [exact Hi'|..]; simpl; rewrite ?insert_insert_eq, ?list_insert_insert_eq; done.
    + unfold current. simpl. rewrite !list_insert_insert_eq. by rewrite list_lookup_insert_eq.
    + simpl. by rewrite !list_insert_insert_eq.
    + simpl. by rewrite !insert_insert_eq.
Qed.

Lemma inv_set_counter ex k n : inv ex k -> inv ex (set_load_balance_counter n k).
Proof. by intros []; split. Qed.

Lemma current_of k k' :
  current_task <$> cpu_states k' = current_task <$> cpu_states k -> current k' = current k.
Proof.
  intros H. unfold current. pose proof (f_equal (fun l => l !! 0%nat) H) as H0. simpl in H0.
  rewrite !list_lookup_fmap in H0.
  destruct (cpu_states k' !! 0%nat), (cpu_states k !! 0%nat); simpl in *; congruence.
Qed.

Lemma count_for_balance_spec k Q :
  inv None k ->
  (forall n cs, let k' := set_cpu_states cs (set_load_balance_counter n k) in
     inv None k' -> current k' = current k ->
     local_tasks cs ≡ₚ local_tasks (cpu_states k) -> Q tt k') ->
  wp count_for_balance Q k.
Proof.
  intros Hi HQ. unfold count_for_balance. wp_steps. case_if.
  - wp_steps. eapply load_balance_spec; [by do 2 apply inv_set_counter|].
    intros cs Hi' Hcur Hp. apply HQ; [done| |done]. by apply current_of.
  - wp_steps.
    apply (HQ (to_int (load_balance_counter k + 1)) (cpu_states k)); [|done|done]. by eapply inv_ext.
Qed.

(** [task_switch_to] is called with the task that was just made current. *)
Lemma switch_to_current ex k n Q :
  inv ex k -> current k = Some n -> Q tt k -> wp (task_switch_to (Some n)) Q k.
Proof.
  intros Hi Hc HQ. unfold task_switch_to. wp_steps. eapply wp_current_task; [done|].
  rewrite Hc, decide_True by done. done.
Qed.

(** The whole of [scheduler_schedule] with preemption enabled. *)
Lemma schedule_spec k Q :
  inv None k -> lock k = 0 -> preemption_enabled k = 1 ->
  (forall k1 k' n t t', prepare k = Ret (tt, k1) -> inv None k1 -> cpu_states k1 = cpu_states k ->
     sleeping_tasks k1 = pending (scheduler_ticks k) (sleeping_tasks k) ->
     quiet k' -> steady k k' -> best k1 = Some n -> current k' = Some n -> ready k' = tl (ready k1) ->
     sleeping_tasks k' = sleeping_tasks k1 ->
     local_tasks (cpu_states k') ≡ₚ local_tasks (cpu_states k) ->
     tasks k1 !! n = Some t -> tasks k' = <[n := t']> (tasks k1) -> id t' = id t ->
     priority t' = priority t ->
     time_slice t' = slice_for (algorithm k) (quantum_ms k) (priority t) -> Q tt k') ->
  wp scheduler_schedule Q k.
Proof.
  intros Hi Hl Hp HQ. destruct (wp_returns _ _ _ (prepare_spec k Hi Hl)) as ([] & k1 & E & Hi1 & Hl1 & Hs1 & Hc1 & Hsl1 & _).
  unfold scheduler_schedule. wp_steps. rewrite Hp. simpl.
  assert (forall (m : M kernel unit) Q', wp m Q' k1 ->
    wp (Sync.acquire sched_lock ;;; requeue_current ;;; scheduler_check_sleeping_tasks ;;; m) Q' k) as Hpre.
  { intros m Q' Hm. assert (wp (prepare ;;; m) Q' k) as H by (unfold wp, bind; by rewrite E).
    unfold prepare in H. rewrite !wp_bind in H. rewrite wp_bind. eapply wp_mono; [exact H|].
    intros [] k2 H2. rewrite wp_bind in H2. rewrite wp_bind. eapply wp_mono; [exact H2|].
    intros [] k3 H3. by rewrite wp_bind. }
  apply Hpre. wp_steps.
  assert (forall n k2, best k1 = Some n -> Some n ∉ ready k2 -> inv None k2 ->
    ready k2 = tl (ready k1) -> (exists qs, k2 = set_ready_queues qs k1) ->
    wp (dispatch scheduler_get_current_cpu n ;;; count_for_balance ;;; Sync.release sched_lock ;;;
        task_switch_to (Some n)) Q k2) as Hrest.
  { intros n k2 Hb Hn Hi2 Hr2 [qs ->].
    assert (is_Some (tasks k1 !! n)) as [t Ht].
    { unfold best in Hb. destruct (ready k1) as [|p l] eqn:Er.
      - destruct (inv_idle _ _ Hi1) as (a & Ha & Hla). rewrite Ha in Hb. by injection Hb as ->.
      - subst p. destruct (ready_live _ _ Hi1 (Some n)) as (a & [= ->] & ?); [rewrite Er; by left|done]. }
    wp_steps. eapply dispatch_spec; [done|done|done|].
    intros k3 t' Hi3 Hs3 Hl3 Hq3 Hsl3 Hc3 Hloc3 Ht3 Hid Hprio Hst Hsl. wp_steps.
    apply count_for_balance_spec; [done|]. intros m cs k4 Hi4 Hc4 Hloc4. wp_steps.
    apply wp_unlock_sched. eapply switch_to_current; [by apply inv_set_lock| |].
    { change (current k4 = Some n). congruence. }
    destruct Hs1 as (Hs1a & Hs1b & Hs1c & Hs1d & Hs1e & Hs1f & Hs1g & Hs1h & Hs1i).
    destruct Hs3 as (Hs3a & Hs3b & Hs3c & Hs3d & Hs3e & Hs3f & Hs3g & Hs3h & Hs3i). simpl in *.
    apply (HQ k1 _ n t t'); try done.
    - split; [by apply inv_set_lock|]. split; [done|]. split.
      + intros a u Ha Hu. change (current k4 = Some a) in Ha. simpl in Hu.
        rewrite Hc4, Hc3 in Ha. injection Ha as <-. rewrite Ht3, lookup_insert_eq in Hu. congruence.
      + simpl. congruence.
    - unfold steady. simpl. repeat split; congruence.
    - change (current k4 = Some n). congruence.
    - unfold ready. simpl. rewrite Hq3. exact Hr2.
    - simpl. rewrite <- Hc1. rewrite Hloc4, Hloc3. done.
    - congruence. }
  apply get_next_task_spec with (ex := None); [done| |].
  - intros p l qs Hr Hqs Hi2. destruct (inv_ready _ _ Hi1 p) as (n & t & -> & _ & _).
    { rewrite Hr. by left. }
    assert (ready (set_ready_queues qs k1) = l) as Hl2 by done.
    apply Hrest; [unfold best; by rewrite Hr| |done|by rewrite Hl2, Hr|eauto].
    rewrite Hl2. pose proof (inv_nodup _ _ Hi1) as Hnd. rewrite Hr in Hnd. by apply NoDup_cons in Hnd as [? _].
  - intros Hr. destruct (inv_idle _ _ Hi1) as (n & Hidle & _). rewrite Hidle.
    apply Hrest; [unfold best; by rewrite Hr|rewrite Hr; apply not_elem_of_nil|done|by rewrite Hr|].
    exists (ready_queues k1). by destruct k1.
Qed.

End Schedule.

(** ** Every call keeps the invariant *)

Section Calls.
Implicit Types (k : kernel) (a : addr) (t : task).

Lemma quiet_inv k : quiet k -> inv None k.
Proof. by intros (? & _). Qed.

(** Taking and releasing the lock around an operation. *)
Lemma locked_inv k : quiet k -> inv None (set_lock 1 k).
Proof. intros (Hi & _). by apply inv_set_lock. Qed.

Lemma quiet_unlocked k k' :
  quiet k -> inv None k' -> preemption_enabled k' = preemption_enabled k -> running k' ->
  quiet (set_lock 0 k').
Proof.
  intros (_ & _ & _ & Hp) Hi Hp' Hr. split; [by apply inv_set_lock|]. split; [done|].
  split; [exact Hr|simpl; congruence].
Qed.

Lemma running_state k a t :
  quiet k -> current k = Some a -> tasks k !! a = Some t ->
  state t = TASK_STATE_RUNNING /\ Some a ∉ ready k.
Proof.
  intros (Hi & _ & Hr & _) Hc Ha. pose proof (Hr a t Hc Ha) as Hs. split; [done|].
  eapply inv_ready_state; [done|done|]. by rewrite Hs.
Qed.

Lemma running_frame k k' : inv None k -> running k -> frame k k' -> running k'.
Proof.
  intros Hi Hr Hf a t' Hc Ht'. pose proof (frame_fields _ _ Hf) as (Hcs & _).
  assert (current k = Some a) as Hc0 by (unfold current in *; by rewrite Hcs in Hc).
  destruct (current_live _ _ _ Hi Hc0) as [t Ht].
  destruct (frame_task _ _ _ _ Hf Ht) as (t'' & Ht'' & [->|[Hb _]]).
  - rewrite Ht'' in Ht'. injection Ht' as <-. by apply (Hr a).
  - rewrite (Hr a t Hc0 Ht) in Hb. done.
Qed.

(** *** Scheduling calls *)

Lemma schedule_quiet k :
  inv None k -> lock k = 0 -> preemption_enabled k = 1 ->
  wp scheduler_schedule (fun _ k' => quiet k') k.
Proof. intros Hi Hl Hp. apply schedule_spec; [done..|]. by intros. Qed.

Lemma yield_quiet k : quiet k -> wp scheduler_yield (fun _ k' => quiet k') k.
Proof.
  intros (Hi & Hl & Hr & Hp). unfold scheduler_yield. wp_steps. rewrite Hp. by apply schedule_quiet.
Qed.

(** Changing the running task, which is in no queue. *)
Lemma inv_upd_current k a t t' :
  quiet k -> current k = Some a -> tasks k !! a = Some t -> id t' = id t ->
  inv None (set_tasks (<[a := t']> (tasks k)) k).
Proof.
  intros Hq Hc Ha Hid. destruct (running_state k a t Hq Hc Ha) as [_ Hn].
  eapply inv_upd_task; [by apply quiet_inv|done|done|done|done].
Qed.

Lemma tick_quiet k : quiet k -> wp scheduler_tick (fun _ k' => quiet k') k.
Proof.
  intros Hq. pose proof Hq as (Hi & Hl & Hr & Hp). unfold scheduler_tick. wp_steps. simpl. rewrite Hp. simpl.
  set (k1 := set_scheduler_ticks (u64 (scheduler_ticks k + 1)) k).
  assert (quiet k1) as Hq1.
  { split; [by eapply inv_ext|]. split; [done|]. split; [exact Hr|done]. }
  pose proof Hq1 as (Hi1 & Hl1 & Hr1 & Hp1). wp_steps. eapply wp_current_task; [done|].
  destruct (current k1) as [a|] eqn:Hc; [|done]. wp_steps.
  destruct (current_live _ _ _ Hi1 Hc) as [t Ha]. eapply wp_read_task; [done|]. wp_steps.
  destruct (0 <? time_slice t) eqn:Es.
  - eapply wp_upd_task; [done|].
    set (k2 := set_tasks (<[a := set_time_slice (time_slice t - 1) t]> (tasks k1)) k1).
    assert (quiet k2) as Hq2.
    { split; [by eapply inv_upd_current|]. split; [done|]. split; [|done].
      intros b u Hb Hu. change (current k1 = Some b) in Hb. rewrite Hc in Hb. injection Hb as <-.
      simpl in Hu. rewrite lookup_insert_eq in Hu. injection Hu as <-. by apply (Hr1 a t). }
    wp_steps. eapply wp_read_task; [simpl; apply lookup_insert_eq|].
    case_if; [|done]. apply schedule_quiet; apply Hq2.
  - wp_steps. eapply wp_read_task; [done|]. case_if; [|done]. by apply schedule_quiet.
Qed.

Lemma block_quiet k : quiet k -> wp scheduler_block_current_task (fun _ k' => quiet k') k.
Proof.
  intros Hq. pose proof Hq as (Hi & Hl & Hr & Hp). unfold scheduler_block_current_task. wp_steps.
  eapply wp_current_task; [done|]. destruct (current k) as [a|] eqn:Hc; [|done]. wp_steps.
  destruct (current_live _ _ _ Hi Hc) as [t Ha].
  apply wp_lock_sched; [done|]. wp_steps. eapply wp_upd_task; [done|]. wp_steps. apply wp_unlock_sched.
  apply schedule_quiet; [|done|done].
  eapply inv_ext; [by apply (inv_upd_current k a t (set_state TASK_STATE_BLOCKED t))|done..].
Qed.

Lemma insert_after_in e l x : x ∈ insert_after e l -> x = e \/ x ∈ l.
Proof.
  induction l as [|e' l IH]; simpl; [set_solver|]. case_if; set_solver.
Qed.

Lemma insert_sleeping_in e l x : x ∈ insert_sleeping e l -> x = e \/ x ∈ l.
Proof.
  destruct l as [|h l]; simpl; [set_solver|]. case_if; [set_solver|].
  rewrite elem_of_cons. intros [->|Hx%insert_after_in]; set_solver.
Qed.

Lemma sleep_quiet k ms mem : quiet k -> wp (scheduler_sleep ms mem) (fun _ k' => quiet k') k.
Proof.
  intros Hq. pose proof Hq as (Hi & Hl & Hr & Hp). unfold scheduler_sleep. case_if.
  - wp_steps. eapply wp_mono; [by apply yield_quiet|]. done.
  - wp_steps. apply wp_lock_sched; [done|]. wp_steps. eapply wp_current_task; [by apply inv_set_lock|].
    change (current (set_lock 1 k)) with (current k). destruct (current k) as [a|] eqn:Hc; wp_steps.
    + destruct (current_live _ _ _ Hi Hc) as [t Ha]. unfold scheduler_add_sleeping_task. wp_steps.
      destruct mem; simpl; wp_steps.
      * eapply wp_upd_task; [done|]. wp_steps. apply wp_unlock_sched. wp_steps.
        eapply wp_mono; [apply schedule_quiet; [|done|done]|done].
        eapply inv_ext; [apply (inv_set_sleeping None
          (set_tasks (<[a := set_state TASK_STATE_BLOCKED t]> (tasks k)) k)); [by eapply inv_upd_current|]|done..].
        intros e [->|He]%insert_sleeping_in; unfold live; simpl.
        { exists a. split; [done|]. rewrite lookup_insert_eq. eauto. }
        destruct (inv_sleeping _ _ Hi e He) as (b & ? & ?). exists b. split; [done|].
        apply lookup_insert_is_Some. destruct (decide (a = b)); eauto.
      * apply wp_unlock_sched. wp_steps. eapply wp_mono; [apply schedule_quiet; [|done|done]|done]. by eapply inv_ext.
    + apply wp_unlock_sched. wp_steps. eapply quiet_unlocked; [done|by apply inv_set_lock|done|exact Hr].
Qed.

(** *** Waking calls *)

Lemma unblock_quiet k tid : quiet k -> wp (scheduler_unblock_task tid) (fun _ k' => quiet k') k.
Proof.
  intros Hq. pose proof Hq as (Hi & Hl & Hr & Hp). unfold scheduler_unblock_task. wp_steps.
  apply wp_lock_sched; [done|]. wp_steps. pose proof (locked_inv k Hq) as Hi1.
  assert (forall p, (forall a, p = Some a -> live (set_lock 1 k) a) ->
    wp (wake_if_blocked p ;;; Sync.release sched_lock) (fun _ k' => quiet k') (set_lock 1 k)) as Hw.
  { intros p Hlive. wp_steps. apply wake_spec; [done|done|]. intros k' Hi' Hf _ _ _. apply wp_unlock_sched.
    pose proof (frame_fields _ _ Hf) as (_ & _ & _ & _ & Hpe & _).
    eapply quiet_unlocked; [done|done|done|]. by eapply (running_frame (set_lock 1 k)). }
  eapply find_task_spec; [done| |].
  - intros a t Hloc Ha Ht. apply Hw. intros b [= <-]. by exists t.
  - intros _. by apply Hw.
Qed.

Lemma wake_task_quiet k tid : quiet k -> wp (scheduler_wake_task tid) (fun _ k' => quiet k') k.
Proof.
  intros Hq. pose proof Hq as (Hi & Hl & Hr & Hp). unfold scheduler_wake_task. wp_steps.
  apply wp_lock_sched; [done|]. wp_steps. pose proof (locked_inv k Hq) as Hi1.
  destruct (search_spec (set_lock 1 k) tid (s_task <$> sleeping_tasks k) 0) as [[Hs _]|(j & a & t & Hs & Hj & Ha & Ht)].
  { by apply (sleeping_live None (set_lock 1 k)). }
  - simpl in *. rewrite Hs. simpl. wp_steps. apply wp_unlock_sched. wp_steps.
    by apply (quiet_unlocked k (set_lock 1 k)).
  - simpl in *. rewrite Hs. simpl. wp_steps. apply wake_spec; [done|intros b [= <-]; by exists t|].
    intros k' Hi' Hf _ _ _. wp_steps. apply wp_unlock_sched. wp_steps.
    pose proof (frame_fields _ _ Hf) as (_ & _ & _ & _ & Hpe & _).
    apply (quiet_unlocked k); [done| |done|exact (running_frame (set_lock 1 k) k' Hi1 Hr Hf)].
    apply inv_set_sleeping; [done|]. intros e He. apply (inv_sleeping _ _ Hi').
    eapply sublist_subseteq; [|done]. apply sublist_delete.
Qed.

Lemma set_priority_quiet k tid prio :
  quiet k -> wp (scheduler_set_task_priority tid prio) (fun _ k' => quiet k') k.
Proof.
  intros Hq. pose proof Hq as (Hi & Hl & Hr & Hp). unfold scheduler_set_task_priority. wp_steps.
  apply wp_lock_sched; [done|]. wp_steps. pose proof (locked_inv k Hq) as Hi1.
  eapply find_task_spec; [done| |].
  - intros a t Hloc Ha Ht. wp_steps. eapply wp_upd_task; [done|]. wp_steps. apply wp_unlock_sched. wp_steps.
    eapply quiet_unlocked; [done| |done|].
    + eapply inv_upd_task; [done|done|done| |done]. intros Hin.
      destruct (inv_ready _ _ Hi1 _ Hin) as (b & u & [= ->] & Hb & Hs). rewrite Ha in Hb. by injection Hb as ->.
    + intros b u Hb Hu. change (current k = Some b) in Hb. simpl in Hu. apply lookup_insert_Some in Hu.
      destruct Hu as [[<- <-]|[_ Hu]]; [by apply (Hr a t)|by apply (Hr b u)].
  - intros _. wp_steps. apply wp_unlock_sched. wp_steps. by apply (quiet_unlocked k (set_lock 1 k)).
Qed.

(** *** Parents and children *)

(** Finding a task only reads. *)
Lemma waitpid_quiet k tid code opts mem :
  quiet k -> (forall a t, tasks k !! a = Some t -> id t = tid -> state t <> TASK_STATE_ZOMBIE) ->
  wp (scheduler_waitpid tid code opts mem) (fun _ k' => quiet k') k.
Proof.
  intros Hq Hz. pose proof Hq as (Hi & Hl & Hr & Hp). pose proof (locked_inv k Hq) as Hi1.
  pose proof (quiet_unlocked k (set_lock 1 k) Hq Hi1 eq_refl Hr) as Hback.
  unfold scheduler_waitpid. wp_steps. apply wp_lock_sched; [done|]. wp_steps.
  eapply wp_current_task; [done|]. change (current (set_lock 1 k)) with (current k).
  destruct (current k) as [c|] eqn:Hc; wp_steps; [|by apply wp_unlock_sched].
  destruct (current_live _ _ _ Hi Hc) as [tc Htc].
  eapply find_task_spec; [done| |intros _; wp_steps; by apply wp_unlock_sched].
  intros a t Hloc Ha Ht. wp_steps. eapply wp_read_task; [done|]. wp_steps. eapply wp_read_task; [done|].
  case_if; wp_steps; [by apply wp_unlock_sched|].
  destruct (Z.eqb_spec (state t) TASK_STATE_ZOMBIE) as [?|_]; [by destruct (Hz a t)|].
  case_if; wp_steps; [by apply wp_unlock_sched|].
  assert (forall k1, inv None k1 -> current k1 = Some c -> tasks k1 = tasks k -> lock k1 = 1 ->
    preemption_enabled k1 = 1 -> ready k1 = ready k ->
    wp (upd_task c (set_state TASK_STATE_BLOCKED) ;;; Sync.release sched_lock ;;; scheduler_schedule ;;; ret tid)
       (fun _ k' => quiet k') k1) as Hend.
  { intros k1 Hk1 Hc1 Ht1 Hl1 Hp1 Hr1. wp_steps. eapply wp_upd_task; [by rewrite Ht1|]. wp_steps.
    apply wp_unlock_sched. wp_steps. eapply wp_mono; [apply schedule_quiet; [|done|done]|done].
    apply inv_set_lock. eapply inv_upd_task; [done|by rewrite Ht1|done| |done].
    rewrite Hr1. intros Hin. by destruct (running_state k c tc Hq Hc Htc). }
  unfold scheduler_add_waiting_parent. destruct mem; simpl; [rewrite wp_modify|rewrite wp_ret]; apply Hend; try done.
  by eapply inv_ext.
Qed.

(** Waking the parents of a task that ended. *)
Lemma check_waiting_spec tid code l k Q :
  inv None k ->
  (forall k' l', inv None k' -> (exists k1, frame k k1 /\ exists m, k' = set_ints m k1) -> Q l' k') ->
  wp (check_waiting tid code l) Q k.
Proof.
  revert k Q. induction l as [|w l IH]; intros k Q Hi HQ.
  - simpl. wp_steps. apply HQ; [done|]. exists k. split; [apply frame_refl|]. exists (ints k). by destruct k.
  - cbn [check_waiting]. case_if.
    + assert (forall p, (forall a, p = Some a -> live k a) ->
        wp (store_int (exit_code_ptr w) code ;;; wake_if_blocked p ;;; check_waiting tid code l) Q k) as Hgo.
      { intros p Hlive.
        assert (forall m, wp (wake_if_blocked p ;;; check_waiting tid code l) Q (set_ints m k)) as Hm.
        { intros m. wp_steps. apply wake_spec; [by eapply inv_ext|done|]. intros k1 Hi1 Hf1 _ _ _.
          apply IH; [done|]. intros k' l' Hi' (k2 & Hf2 & m' & ->). apply HQ; [done|].
          destruct (frame_trans _ _ _ Hf1 Hf2) as (qs & ts & -> & Hts).
          exists (set_ready_queues qs (set_tasks ts k)). split; [by exists qs, ts|]. by exists m'. }
        unfold store_int. destruct (exit_code_ptr w) as [p'|].
        - rewrite wp_bind, wp_modify. apply Hm.
        - rewrite wp_bind, wp_ret. specialize (Hm (ints k)). by destruct k. }
      wp_steps. eapply find_task_spec; [done| |].
      * intros a t Hloc Ha Ht. apply Hgo. intros b [= <-]. by exists t.
      * intros _. by apply Hgo.
    + wp_steps. apply IH; [done|]. intros k' l' Hi' Hf. wp_steps. by apply HQ.
Qed.

Lemma terminate_quiet k tid code :
  quiet k -> wp (scheduler_terminate_task tid code) (fun _ k' => quiet k') k.
Proof.
  intros Hq. pose proof Hq as (Hi & Hl & Hr & Hp). pose proof (locked_inv k Hq) as Hi1.
  unfold scheduler_terminate_task. wp_steps. apply wp_lock_sched; [done|]. wp_steps.
  eapply find_task_spec; [done| |].
  2:{ intros _. wp_steps. apply wp_unlock_sched. wp_steps. by apply (quiet_unlocked k (set_lock 1 k)). }
  intros a t Hloc Ha Ht. wp_steps. eapply wp_upd_task; [done|]. wp_steps.
  set (t' := set_exit_code code (set_state TASK_STATE_ZOMBIE t)).
  set (k1 := set_tasks (<[a := t']> (tasks (set_lock 1 k))) (set_lock 1 k)).
  assert (inv (Some a) k1) as Hk1 by (eapply inv_upd_task; [done|done|done|by right|done]).
  eapply remove_task_spec; [exact Hk1|]. intros qs Hk2 Hqs. unfold emit. wp_steps.
  set (k2 := set_ready_queues qs k1) in *.
  assert (Some a ∉ ready k2) as Hna.
  { intros Hin. apply (Hqs a t') in Hin as [_ Hne]; [done|]. simpl. apply lookup_insert_eq. }
  assert (inv None k2) as Hk2'.
  { destruct Hk2. split; try done. intros p Hp2. destruct (inv_ready0 p Hp2) as (b & u & -> & Hb & [Hu|[= ->]]); [|done].
    exists b, u. by repeat split; try left. }
  set (k3 := set_trace (DestroySpace tid :: trace k2) k2).
  assert (inv None k3) as Hk3 by by eapply inv_ext.
  unfold scheduler_check_waiting_parents. wp_steps. apply check_waiting_spec; [done|].
  intros k4 l4 Hk4 (k5 & Hf & m & ->). wp_steps.
  set (k6 := set_waiting_parents l4 (set_ints m k5)).
  assert (inv None k6) as Hk6 by by eapply inv_ext.
  pose proof (frame_fields _ _ Hf) as (Hcs & _ & _ & Hlk & Hpe & _).
  assert (current k6 = current k) as Hcur by (unfold current; simpl; by rewrite Hcs).
  eapply wp_current_task; [done|]. wp_steps. rewrite Hcur.
  assert (forall b u, current k = Some b -> b <> a -> tasks k6 !! b = Some u -> state u = TASK_STATE_RUNNING) as Hrun.
  { intros b u Hb Hne Hu. destruct (current_live _ _ _ Hi Hb) as [v Hv].
    assert (tasks k3 !! b = Some v) as Hv3 by (simpl; by rewrite lookup_insert_ne).
    destruct (frame_task _ _ _ _ Hf Hv3) as (v' & Hv' & [->|[Hbl _]]).
    - simpl in Hu. rewrite Hv' in Hu. injection Hu as <-. by apply (Hr b v).
    - by rewrite (Hr b v Hb Hv) in Hbl. }
  destruct (current k) as [b|] eqn:Hb; simpl.
  - destruct (current_live None k6 b Hk6 Hcur) as [u Hu]. simpl in Hu. rewrite Hu. simpl. wp_steps.
    destruct (Z.eqb_spec (id u) tid) as [He|He]; wp_steps; apply wp_unlock_sched; wp_steps.
    + eapply wp_mono; [apply schedule_quiet; [by apply inv_set_lock|done|]|done].
      simpl. rewrite Hpe. exact Hp.
    + apply (quiet_unlocked k k6); [done|done|done|]. intros c v Hc Hv. rewrite Hcur in Hc. injection Hc as <-.
      apply (Hrun b v); [done| |done]. intros ->. apply He.
      assert (tasks k3 !! a = Some t') as Ha3 by (simpl; apply lookup_insert_eq).
      destruct (frame_task _ _ _ _ Hf Ha3) as (v' & Hv' & [->|[_ ->]]);
        rewrite Hv' in Hu; injection Hu as <-; exact Ht.
  - wp_steps. apply wp_unlock_sched. wp_steps. apply (quiet_unlocked k k6); [done|done|done|].
    intros c v Hc. rewrite Hcur in Hc. done.
Qed.

(** *** Migration *)

Lemma migrate_quiet k tid cpu :
  quiet k ->
  (forall a t c, tasks k !! a = Some t -> id t = tid -> cpu_states k !! Z.to_nat cpu = Some c ->
     state t = TASK_STATE_READY \/ count (local_queue c) < MAX_TASKS) ->
  wp (scheduler_migrate_task tid cpu) (fun _ k' => quiet k') k.
Proof.
  intros Hq Hroom. pose proof Hq as (Hi & Hl & Hr & Hp). pose proof (locked_inv k Hq) as Hi1.
  pose proof (inv_num _ _ Hi) as Hnum. pose proof (inv_ncpus _ _ Hi) as Hlen.
  unfold scheduler_migrate_task. wp_steps. case_if; [done|]. bools.
  destruct (lookup_lt_is_Some_2 (cpu_states k) (Z.to_nat cpu)) as [c Hc].
  { rewrite Hlen. unfold MAX_CPUS in *. lia. }
  assert (exists n, cpu = Z.of_nat n) as [n ->] by (exists (Z.to_nat cpu); lia).
  rewrite Nat2Z.id in *. wp_steps. eapply wp_cpu_at; [done|]. case_if; [done|]. wp_steps.
  apply wp_lock_sched; [done|]. wp_steps. eapply find_task_spec; [done| |].
  2:{ intros _. wp_steps. apply wp_unlock_sched. wp_steps. by apply (quiet_unlocked k (set_lock 1 k)). }
  intros a t Hloc Ha Ht. wp_steps. eapply remove_task_spec; [done|]. intros qs Hk1 Hqs. wp_steps.
  eapply wp_cpu_at; [done|]. destruct (Z.ltb_spec (count (local_queue c)) MAX_TASKS).
  - destruct (ring_push_spec _ _ (Some a) (local_wf _ _ _ _ Hi Hc)) as (r & Hr' & Hwr & _ & _); [done|].
    rewrite Hr'. simpl. wp_steps. eapply wp_upd_cpu; [done|]. wp_steps. apply wp_unlock_sched. wp_steps.
    apply (quiet_unlocked k); [done| |done|].
    + by apply (inv_set_local _ _ n c r Hk1).
    + intros b u Hb Hu. apply (Hr b u); [|done]. rewrite <- Hb. symmetry. apply current_of. simpl.
      by apply currents_insert.
  - wp_steps. destruct (Hroom a t c) as [Hst|?]; [done|done|done| |lia].
    eapply (add_task_spec None _ a t); [done|done|by left| |].
    + intros Hin. apply (Hqs a t Ha) in Hin as [_ ?]. done.
    + intros qs' Hk2 _. wp_steps. apply wp_unlock_sched. wp_steps. by eapply quiet_unlocked.
Qed.

(** *** Creation *)

Lemma inv_new_task ex k a t n :
  inv ex k -> tasks k !! a = None -> id t = next_task_id k -> next_task_id k < n ->
  inv ex (set_tasks (<[a := t]> (tasks k)) (set_next_task_id n k)).
Proof.
  intros [] Ha Hid Hn. unfold live in *.
  assert (forall b u, tasks k !! b = Some u -> (<[a := t]> (tasks k)) !! b = Some u) as Hold.
  { intros b u Hb. rewrite lookup_insert_ne; [done|]. congruence. }
  assert (forall b, is_Some (tasks k !! b) -> is_Some ((<[a := t]> (tasks k)) !! b)) as Holds
    by (intros b [u Hb]; eauto).
  split; simpl; try done; unfold live; simpl.
  - intros p Hp. destruct (inv_ready0 p Hp) as (b & u & -> & Hb & Hs). eauto 10.
  - intros i c b Hc Hb. destruct (inv_current0 i c b Hc Hb). eauto.
  - intros e He. destruct (inv_sleeping0 e He) as (b & ? & ?). eauto.
  - destruct inv_idle0 as (b & ? & ?). eauto.
  - intros b c u v. rewrite !lookup_insert_Some.
    intros [[<- <-]|[? Hb]] [[<- <-]|[? Hc]] He; [done|..].
    + pose proof (inv_next0 c v Hc). lia.
    + pose proof (inv_next0 b u Hb). lia.
    + by eapply inv_ids0.
  - intros b u. rewrite lookup_insert_Some. intros [[<- <-]|[? Hb]]; [lia|].
    pose proof (inv_next0 b u Hb). lia.
Qed.

Lemma setup_context_spec k a t st Q :
  tasks k !! a = Some t -> stack t = Some st -> is_Some (stacks k !! st) ->
  (forall m c, Q tt (set_tasks (<[a := set_context (Some c) t]> (tasks k)) (set_stacks m k))) ->
  wp (task_setup_context (Some a)) Q k.
Proof.
  intros Ha Hst [x Hx] HQ. unfold task_setup_context. wp_steps. eapply wp_read_task; [done|].
  rewrite Hst. wp_steps. rewrite Hx. simpl. wp_steps. eapply wp_upd_task; [done|]. apply HQ.
Qed.

Lemma create_quiet k entry nm prio fl block stk :
  quiet k -> 0 <= next_task_id k < 2 ^ 31 - 1 -> (forall a, block = Some a -> tasks k !! a = None) ->
  wp (scheduler_create_task entry nm prio fl block stk) (fun r k' => quiet k' /\
    (r = -1 \/ r = next_task_id k /\ exists a t, block = Some a /\ tasks k' !! a = Some t /\
       id t = r /\ state t = TASK_STATE_READY /\ priority t = prio)) k.
Proof.
  intros Hq Hnext Hfresh. pose proof Hq as (Hi & Hl & Hr & Hp). pose proof (locked_inv k Hq) as Hi1.
  unfold scheduler_create_task. wp_steps. apply wp_lock_sched; [done|].
  destruct block as [a|]; wp_steps.
  2:{ apply wp_unlock_sched. wp_steps. split; [|by left]. by apply (quiet_unlocked k (set_lock 1 k)). }
  pose proof (Hfresh a eq_refl) as Ha. cbn [next_task_id set_lock]. rewrite to_int_small by lia.
  set (k1 := set_next_task_id (next_task_id k + 1) (set_lock 1 k)).
  assert (inv None k1) as Hk1.
  { destruct Hi1. split; try done. intros b u Hb. pose proof (inv_next0 b u Hb). simpl in *. lia. }
  eapply wp_current_task; [exact Hk1|]. change (current k1) with (current k).
  assert (forall (f : Z -> M kernel Z) Q, (forall z, wp (f z) Q k1) ->
    wp (z <- match current k with Some c => t <- read_task c ;; ret (id t) | None => ret 0 end ;; f z) Q k1) as Hpar.
  { intros f Q Hf. destruct (current k) as [c|] eqn:Hc; wp_steps; [|apply Hf].
    destruct (current_live _ _ _ Hi Hc) as [u Hu]. eapply wp_read_task; [done|]. wp_steps. apply Hf. }
  apply Hpar. intros parent. wp_steps.
  match goal with |- context [<[a := ?t0]> _] => set (t := t0) end.
  set (k2 := set_tasks (<[a := t]> (tasks k1)) k1).
  destruct stk as [st|]; wp_steps.
  - assert (inv None k2) as Hk2 by (apply (inv_new_task None (set_lock 1 k)); (done || simpl; lia)).
    set (k3 := set_stacks (<[st := None]> (stacks k2)) k2).
    assert (inv None k3) as Hk3 by by eapply inv_ext.
    eapply setup_context_spec; [simpl; apply lookup_insert_eq|done|simpl; rewrite lookup_insert_eq; eauto|].
    intros m c. wp_steps. set (t' := set_context (Some c) t).
    assert (Some a ∉ ready k) as Hna.
    { intros Hin. destruct (inv_ready _ _ Hi _ Hin) as (b & u & [= ->] & ? & _). congruence. }
    eapply (add_task_spec None _ a t').
    + eapply (inv_upd_task None None (set_stacks m k3) a t); [by eapply inv_ext|simpl; apply lookup_insert_eq|done|done|done].
    + simpl. apply lookup_insert_eq.
    + by left.
    + done.
    + intros qs Hk4 _. wp_steps. apply wp_unlock_sched. wp_steps.
      eapply wp_read_task; [simpl; apply lookup_insert_eq|]. wp_steps. split.
      * apply (quiet_unlocked k _ Hq Hk4 eq_refl). intros b u Hb Hu. apply (Hr b u); [done|].
        simpl in Hu. rewrite !lookup_insert_ne in Hu; [done|..]; intros <-;
          destruct (current_live _ _ _ Hi Hb) as [v Hv]; congruence.
      * right. split; [done|]. exists a, t'. split; [done|]. split; [simpl; apply lookup_insert_eq|done].
  - apply wp_unlock_sched. wp_steps. split; [|by left].
    apply (quiet_unlocked k); [done| |done|].
    + eapply inv_ext; [exact Hk1|done..| |done|done|done|done]. simpl. by rewrite delete_insert_id.
    + intros b u Hb Hu. apply (Hr b u); [done|]. simpl in Hu. by rewrite delete_insert_id in Hu.
Qed.

End Calls.

End SchedulerOps.
