(* ===== verification/SchedulerThms.v ===== *)
(** * Properties of the scheduler

    The theorems about [kernel/scheduler.c] that the lemmas of [SchedulerOps]
    add up to, with a concrete system on which each is checked. *)

From Stdlib Require Import ZArith Lia Sorted String.
From stdpp Require Import base tactics option list gmap.
From S2P Require Import Prelude Ring Sync Scheduler SchedulerOps.

Set Default Goal Selector "!".
Local Open Scope Z_scope.
Local Open Scope kernel_scope.

Module SchedulerThms.
Import Ring Scheduler SchedulerOps.

#[local] Arguments Z.mul : simpl never.
#[local] Arguments Z.add : simpl never.

(** ** A system *)

Definition task0 (i st prio parent : Z) : task :=
  mk_task i st 1 0 prio 0 DEFAULT_STACK_SIZE "t"%string None 0 None None None 0 parent 0 0 0.

Definition empty_queues : list (ring ptr) := replicate (Z.to_nat MAX_PRIORITY) (ring_empty MAX_TASKS None).

(** No task in a queue, [cur] running, [sl] sleeping, the idle task at address 1. *)
Definition system (cur : ptr) (sl : list sleeping_task) (ncpu next : Z) (ts : gmap addr task) : kernel :=
  mk_kernel empty_queues sl [] (Some 1%positive) 0 1 0 0 next SCHEDULER_ALGORITHM_PRIORITY TIME_SLICE_BASE ncpu
    (mk_cpu cur 1 0 0 (ring_empty MAX_TASKS None) ::
     replicate (Z.to_nat MAX_CPUS - 1) (mk_cpu None 1 0 0 (ring_empty MAX_TASKS None)))
    0 0 ts ∅ ∅ [].

Lemma empty_queue_wf : ring_wf MAX_TASKS (ring_empty MAX_TASKS (@None positive)).
Proof. by apply ring_empty_wf. Qed.

Lemma system_quiet cur sl ncpu next ts :
  1 <= ncpu <= MAX_CPUS -> is_Some (ts !! 1%positive) ->
  (forall a, cur = Some a -> exists t, ts !! a = Some t /\ state t = TASK_STATE_RUNNING) ->
  (forall e, e ∈ sl -> exists a, s_task e = Some a /\ is_Some (ts !! a)) ->
  (forall a b t u, ts !! a = Some t -> ts !! b = Some u -> id t = id u -> a = b) ->
  map_Forall (fun _ t => id t < next) ts -> quiet (system cur sl ncpu next ts).
Proof.
  intros Hn Hid Hcur Hsl Hids Hnext.
  assert (ready (system cur sl ncpu next ts) = []) as Hr by (vm_compute; reflexivity).
  assert (forall i c a, cpu_states (system cur sl ncpu next ts) !! i = Some c -> current_task c = Some a ->
    i = 0%nat /\ is_Some (ts !! a)) as Hcpu.
  { intros [|i] c a Hc Ha.
    - injection Hc as <-. split; [done|]. destruct (Hcur a Ha) as (t & -> & _). eauto.
    - change (replicate (Z.to_nat MAX_CPUS - 1) (mk_cpu None 1 0 0 (ring_empty MAX_TASKS None)) !! i = Some c) in Hc.
      apply lookup_replicate in Hc as [-> _]. done. }
  split; [|split; [done|split; [|done]]].
  - split; rewrite ?Hr; unfold live; simpl; try done.
    + apply Forall_replicate, empty_queue_wf.
    + repeat (constructor; [apply empty_queue_wf|]). constructor.
    + set_solver.
    + apply NoDup_nil_2.
    + eauto.
  - intros a t Ha Ht. simpl in Ha. destruct (Hcur a Ha) as (u & Hu & Hs). simpl in Ht. congruence.
Qed.

(** Task 3 waits at level 16, task 2 runs, task 1 is the idle task. *)
Definition demo_tasks : gmap addr task :=
  {[ 1%positive := task0 0 TASK_STATE_READY 31 0; 2%positive := task0 1 TASK_STATE_RUNNING 16 0;
     3%positive := task0 2 TASK_STATE_READY 16 1 ]}.
Definition demo_queues : list (ring ptr) :=
  <[16%nat := mk_ring (<[0%nat := Some 3%positive]> (replicate 256 None)) 0 1 1]> empty_queues.
Definition demo : kernel := set_ready_queues demo_queues (system (Some 2%positive) [] 2 4 demo_tasks).

Lemma demo_lookup a t : demo_tasks !! a = Some t ->
  (a = 1%positive /\ t = task0 0 TASK_STATE_READY 31 0) \/
  (a = 2%positive /\ t = task0 1 TASK_STATE_RUNNING 16 0) \/
  (a = 3%positive /\ t = task0 2 TASK_STATE_READY 16 1).
Proof.
  unfold demo_tasks. rewrite !lookup_insert_Some, lookup_singleton_Some. intuition congruence.
Qed.

Lemma demo_base : quiet (system (Some 2%positive) [] 2 4 demo_tasks).
Proof.
  apply system_quiet.
  - unfold MAX_CPUS. lia.
  - by eexists.
  - intros a [= <-]. by eexists.
  - intros e He. by apply elem_of_nil in He.
  - intros a b t u Ht Hu. apply demo_lookup in Ht, Hu. intuition (subst; try done).
  - intros a t Ht. apply demo_lookup in Ht. intuition (subst; simpl; lia).
Qed.

Lemma demo_ready : concat (level <$> demo_queues) = [Some 3%positive].
Proof. vm_compute. reflexivity. Qed.

Lemma demo_quiet : quiet demo.
Proof.
  destruct demo_base as (Hi & Hl & Hr & Hp). split; [|by split].
  apply (inv_set_queues None); [done|done| | |].
  - apply Forall_insert; [apply Forall_replicate, empty_queue_wf|].
    unfold ring_wf. simpl. repeat split; try (unfold MAX_TASKS; lia).
  - rewrite demo_ready. intros p ->%list_elem_of_singleton. eexists _, _. split; [done|].
    split; [done|]. by left.
  - rewrite demo_ready. apply NoDup_singleton.
Qed.

(** ** Safety of every sequence of calls *)

Inductive call : Type :=
| KTick
| KYield
| KBlock
| KUnblock (tid : Z)
| KSleep (ms : Z) (mem : bool)
| KWake (tid : Z)
| KWaitpid (tid : Z) (code : ptr) (opts : Z) (mem : bool)
| KSetPriority (tid prio : Z)
| KTerminate (tid code : Z)
| KMigrate (tid cpu : Z)
| KCreate (entry : Z) (nm : option string) (prio fl : Z) (block stk : ptr)
| KSetAlgorithm (a : Z)
| KSetQuantum (q : Z).

Definition run_call (c : call) : M kernel Z :=
  match c with
  | KTick => scheduler_tick ;;; ret 0
  | KYield => scheduler_yield ;;; ret 0
  | KBlock => scheduler_block_current_task ;;; ret 0
  | KUnblock tid => scheduler_unblock_task tid ;;; ret 0
  | KSleep ms mem => scheduler_sleep ms mem
  | KWake tid => scheduler_wake_task tid
  | KWaitpid tid code opts mem => scheduler_waitpid tid code opts mem
  | KSetPriority tid prio => scheduler_set_task_priority tid prio
  | KTerminate tid code => scheduler_terminate_task tid code
  | KMigrate tid cpu => scheduler_migrate_task tid cpu
  | KCreate entry nm prio fl block stk => scheduler_create_task entry nm prio fl block stk
  | KSetAlgorithm a => scheduler_set_algorithm a
  | KSetQuantum q => scheduler_set_quantum q ;;; ret 0
  end.

(** What a call may assume: an allocated block is not in use and task numbers
    are not used up; no child is reaped as a zombie, and a task that is not
    READY is not migrated to a full queue (what these two do is shown below and
    in the findings). *)
Definition call_ok (k : kernel) (c : call) : Prop :=
  match c with
  | KWaitpid tid _ _ _ =>
      forall a t, tasks k !! a = Some t -> id t = tid -> state t <> TASK_STATE_ZOMBIE
  | KMigrate tid cpu =>
      forall a t c, tasks k !! a = Some t -> id t = tid -> cpu_states k !! Z.to_nat cpu = Some c ->
        state t = TASK_STATE_READY \/ count (local_queue c) < MAX_TASKS
  | KCreate _ _ _ _ block _ =>
      0 <= next_task_id k < 2 ^ 31 - 1 /\ forall a, block = Some a -> tasks k !! a = None
  | _ => True
  end.

Inductive step (k k' : kernel) : Prop :=
| step_call c r : call_ok k c -> run_call c k = Ret (r, k') -> step k k'.

Lemma set_quantum_quiet k q : quiet k -> quiet (set_quantum_ms q k).
Proof. intros (Hi & Hl & Hr & Hp). split; [by eapply inv_ext|]. by split. Qed.

Lemma set_algorithm_quiet k a : quiet k -> quiet (set_algorithm a k).
Proof. intros (Hi & Hl & Hr & Hp). split; [by eapply inv_ext|]. by split. Qed.

Lemma run_call_quiet k c : quiet k -> call_ok k c -> wp (run_call c) (fun _ k' => quiet k') k.
Proof.
  intros Hq Hc. destruct c; cbn [run_call call_ok] in *; wp_steps;
    try (eapply wp_mono; [|by intros ? ? ?]).
  - by apply tick_quiet.
  - by apply yield_quiet.
  - by apply block_quiet.
  - by apply unblock_quiet.
  - by apply sleep_quiet.
  - by apply wake_task_quiet.
  - by apply waitpid_quiet.
  - by apply set_priority_quiet.
  - by apply terminate_quiet.
  - by apply migrate_quiet.
  - destruct Hc as [Hn Hf]. eapply wp_mono; [by apply create_quiet|]. by intros ? ? [? _].
  - unfold scheduler_set_algorithm. case_if; [done|]. wp_steps. by apply set_algorithm_quiet.
  - unfold scheduler_set_quantum. wp_steps. by apply set_quantum_quiet.
Qed.



(** ** The choice of the next task *)

(** The levels after the running task was put behind its own. *)
Definition requeued (k : kernel) : list (list ptr) :=
  let lv := level <$> ready_queues k in
  match current k with
  | Some a =>
      match tasks k !! a with
      | Some t =>
          let n := clamp (priority t) in
          if Z.of_nat (length (nth n lv [])) <? MAX_TASKS
          then <[n := nth n lv [] ++ [Some a]]> lv else lv
      | None => lv
      end
  | None => lv
  end.

Lemma enqueued_levels k n a qs :
  inv None k -> enqueued k n a qs ->
  level <$> qs = let lv := level <$> ready_queues k in
    if Z.of_nat (length (nth n lv [])) <? MAX_TASKS then <[n := nth n lv [] ++ [Some a]]> lv else lv.
Proof.
  intros Hi (q & Hq & H). pose proof (inv_rings _ _ Hi) as Hw. eapply Forall_lookup in Hw; [|done].
  assert (nth n (level <$> ready_queues k) [] = level q) as Hn.
  { apply nth_lookup_Some. by rewrite list_lookup_fmap, Hq. }
  cbn zeta. rewrite Hn. unfold level at 2. rewrite (items_length _ _ Hw).
  destruct H as [[Hc (r & -> & Hr)]|[Hc ->]].
  - rewrite (proj2 (Z.ltb_lt _ _) Hc). by rewrite list_fmap_insert, Hr.
  - by rewrite (proj2 (Z.ltb_ge _ _) Hc).
Qed.

Lemma check_sleeping_none l k :
  pending (scheduler_ticks k) l = l -> check_sleeping l k = Ret (l, k).
Proof.
  induction l as [|e l IH]; intros Hp; [done|]. unfold pending in *. rewrite filter_cons in Hp.
  case_decide as Hd.
  - injection Hp as Hp. cbn [check_sleeping]. unfold bind, get. simpl.
    destruct (Z.leb_spec (wake_time e) (scheduler_ticks k)); [lia|]. by rewrite IH.
  - exfalso. pose proof (length_filter (fun e => scheduler_ticks k < wake_time e) l) as H.
    rewrite Hp in H. simpl in H. lia.
Qed.

Lemma prepare_requeued k :
  quiet k -> pending (scheduler_ticks k) (sleeping_tasks k) = sleeping_tasks k ->
  wp prepare (fun _ k1 => ready k1 = concat (requeued k) /\ idle_task k1 = idle_task k) k.
Proof.
  intros Hq Hpend. pose proof Hq as (Hi & Hl & Hr & Hp). unfold prepare. wp_steps.
  apply wp_lock_sched; [done|]. wp_steps.
  apply requeue_spec; [by apply inv_set_lock|]. intros qs ts k1 Hi1 _ Hcur Hnone.
  unfold scheduler_check_sleeping_tasks. wp_steps. unfold wp. rewrite check_sleeping_none by done.
  split; [|done]. unfold ready. simpl. f_equal. unfold requeued.
  change (current (set_lock 1 k)) with (current k) in *.
  destruct (current k) as [a|] eqn:Hc; [|by rewrite Hnone].
  destruct (current_live _ _ _ Hi Hc) as [t Ha]. rewrite Ha. specialize (Hcur a t eq_refl Ha).
  rewrite (Hr a t Hc Ha) in Hcur. simpl in Hcur. destruct Hcur as [_ He].
  exact (enqueued_levels (set_lock 1 k) _ a qs (locked_inv k Hq) He).
Qed.

(** C17. With preemption disabled, as it is at start-up, [scheduler_schedule]
    returns at once and changes nothing.  In a quiet state (preemption enabled,
    lock free, queues well formed) where no sleeping task is due, the global
    ready queues behave as one list of tasks in priority order, first come first
    served within a priority: the call returns, puts the running task behind
    those of its own priority (unless that queue is full), makes the first task
    of the list the current one with a full time slice, the idle task if the
    list is empty, and leaves the rest of the list waiting. *)
Theorem schedule_runs_first_of_list k :
  (preemption_enabled k = 0 -> scheduler_schedule k = Ret (tt, k)) /\
  (quiet k -> pending (scheduler_ticks k) (sleeping_tasks k) = sleeping_tasks k ->
   wp scheduler_schedule (fun _ k' =>
     current k' = (match concat (requeued k) with p :: _ => p | [] => idle_task k end) /\
     ready k' = tl (concat (requeued k)) /\
     forall n t', current k' = Some n -> tasks k' !! n = Some t' ->
       state t' = TASK_STATE_RUNNING /\
       time_slice t' = slice_for (algorithm k) (quantum_ms k) (priority t')) k).
Proof.
  split.
  { intros Hp. unfold scheduler_schedule, get, bind. by rewrite Hp. }
  intros Hq Hpend. pose proof Hq as (Hi & Hl & Hr & Hp). apply schedule_spec; [done..|].
  intros k1 k' n t t' E _ _ _ Hq' _ Hbest Hcur Hrdy _ _ _ Htasks _ Hprio Hslice.
  destruct (wp_run _ _ _ _ _ (prepare_requeued k Hq Hpend) E) as [Hr1 Hidle].
  split; [|split].
  - rewrite Hcur, <- Hbest. unfold best. by rewrite Hr1, Hidle.
  - by rewrite Hrdy, Hr1.
  - intros m u Hm Hu. rewrite Hcur in Hm. injection Hm as <-. destruct Hq' as (_ & _ & Hr' & _).
    split; [by apply (Hr' n)|]. rewrite Htasks, lookup_insert_eq in Hu. injection Hu as <-.
    by rewrite Hprio.
Qed.

Lemma schedule_runs_first_of_list_witness :
  scheduler_schedule (set_preemption_enabled 0 demo) = Ret (tt, set_preemption_enabled 0 demo) /\
  concat (requeued demo) = [Some 3%positive; Some 2%positive] /\
  wp scheduler_schedule (fun _ k' =>
    current k' = (match concat (requeued demo) with p :: _ => p | [] => idle_task demo end) /\
    ready k' = tl (concat (requeued demo)) /\
    forall n t', current k' = Some n -> tasks k' !! n = Some t' ->
      state t' = TASK_STATE_RUNNING /\
      time_slice t' = slice_for (algorithm demo) (quantum_ms demo) (priority t')) demo.
Proof.
  split; [apply (proj1 (schedule_runs_first_of_list _)); reflexivity|].
  split; [vm_compute; reflexivity|].
  apply (proj2 (schedule_runs_first_of_list demo) demo_quiet). reflexivity.
Defined.

(** C35. No context switch: [scheduler_schedule] stores the chosen task in
    [current_task] before it calls [task_switch_to], which compares its argument
    with the current task and returns. Whatever task is chosen, the call ends
    without [task_context_switch]: the processor goes on executing the task
    that was running. *)
Theorem schedule_never_switches_context k :
  quiet k ->
  wp scheduler_schedule (fun _ k' => trace k' = trace k /\ exists n, current k' = Some n) k.
Proof.
  intros (Hi & Hl & Hr & Hp). apply schedule_spec; [done..|].
  intros k1 k' n t t' _ _ _ _ _ Hs _ Hcur _ _ _ _ _ _ _ _. destruct Hs as (_ & _ & Htr & _). eauto.
Qed.

Lemma schedule_never_switches_context_witness :
  current demo = Some 2%positive /\
  match scheduler_schedule demo with Ret (_, k') => current k' | _ => None end = Some 3%positive /\
  wp scheduler_schedule (fun _ k' => trace k' = trace demo /\ exists n, current k' = Some n) demo.
Proof.
  split; [reflexivity|]. split; [vm_compute; reflexivity|].
  apply (schedule_never_switches_context demo demo_quiet).
Defined.

(** ** Sleeping *)

(** Sleeping tasks are woken on time and not before: a scheduling decision
    removes from the sleeping list exactly the entries that are due, none of
    the tasks of those entries is left BLOCKED, and the later entries stay. *)
Theorem schedule_wakes_due_sleepers k :
  quiet k ->
  wp scheduler_schedule (fun _ k' =>
    sleeping_tasks k' = pending (scheduler_ticks k) (sleeping_tasks k) /\
    forall e a t', e ∈ sleeping_tasks k -> wake_time e <= scheduler_ticks k -> s_task e = Some a ->
      tasks k' !! a = Some t' -> state t' <> TASK_STATE_BLOCKED) k.
Proof.
  intros (Hi & Hl & Hr & Hp). apply schedule_spec; [done..|].
  intros k1 k' n t t' E _ _ Hs1 Hq' _ _ Hcur _ Hsl _ _ Htasks _ _ _.
  pose proof (wp_run _ _ _ _ _ (prepare_spec k Hi Hl) E) as (_ & _ & _ & _ & _ & Hdue & _).
  split; [congruence|]. intros e a u He Hd Ha Hu. destruct (decide (a = n)) as [->|Hne].
  - destruct Hq' as (_ & _ & Hr' & _). by rewrite (Hr' n u Hcur Hu).
  - rewrite Htasks, lookup_insert_ne in Hu by done. by eapply Hdue.
Qed.

Definition sleepy_tasks : gmap addr task :=
  {[ 1%positive := task0 0 TASK_STATE_READY 31 0; 2%positive := task0 1 TASK_STATE_RUNNING 16 0;
     3%positive := task0 2 TASK_STATE_BLOCKED 16 1 ]}.
Definition sleepy : kernel :=
  system (Some 2%positive) [mk_sleeping (Some 3%positive) 0; mk_sleeping (Some 1%positive) 9] 2 4 sleepy_tasks.

Lemma sleepy_quiet : quiet sleepy.
Proof.
  assert (forall a t, sleepy_tasks !! a = Some t ->
    (a = 1%positive /\ t = task0 0 TASK_STATE_READY 31 0) \/
    (a = 2%positive /\ t = task0 1 TASK_STATE_RUNNING 16 0) \/
    (a = 3%positive /\ t = task0 2 TASK_STATE_BLOCKED 16 1)) as Hlk.
  { intros a t. unfold sleepy_tasks. rewrite !lookup_insert_Some, lookup_singleton_Some. intuition congruence. }
  apply system_quiet.
  - unfold MAX_CPUS. lia.
  - by eexists.
  - intros a [= <-]. by eexists.
  - intros e He. rewrite !elem_of_cons, elem_of_nil in He.
    destruct He as [->|[->|[]]]; eexists; (split; [reflexivity|by eexists]).
  - intros a b t u Ht Hu. apply Hlk in Ht, Hu. intuition (subst; try done).
  - intros a t Ht. apply Hlk in Ht. intuition (subst; simpl; lia).
Qed.

Lemma schedule_wakes_due_sleepers_witness :
  wp scheduler_schedule (fun _ k' =>
    sleeping_tasks k' = pending (scheduler_ticks sleepy) (sleeping_tasks sleepy) /\
    forall e a t', e ∈ sleeping_tasks sleepy -> wake_time e <= scheduler_ticks sleepy -> s_task e = Some a ->
      tasks k' !! a = Some t' -> state t' <> TASK_STATE_BLOCKED) sleepy.
Proof. apply (schedule_wakes_due_sleepers sleepy sleepy_quiet). Defined.

(** Entries in order of their wake time. *)
Definition by_time (e e' : sleeping_task) : Prop := wake_time e <= wake_time e'.

Lemma insert_after_sorted e l :
  Sorted by_time l -> Sorted by_time (insert_after e l) /\ insert_after e l ≡ₚ e :: l /\
  (forall x, wake_time x <= wake_time e -> HdRel by_time x l -> HdRel by_time x (insert_after e l)).
Proof.
  induction l as [|e' l IH]; intros Hs; simpl.
  - repeat split; repeat constructor; done.
  - apply Sorted_inv in Hs as [Hs Hh]. destruct (IH Hs) as (HS & HP & HH).
    destruct (Z.leb_spec (wake_time e') (wake_time e)).
    + split; [constructor; [done|by apply HH]|]. split; [rewrite HP; constructor|].
      intros x Hx Hr. inversion Hr; subst. by constructor.
    + split; [repeat constructor; try done; unfold by_time; lia|]. split; [done|].
      intros x Hx Hr. by constructor.
Qed.

(** The list of sleeping tasks stays sorted by wake time: inserting an entry
    into a sorted list gives a sorted list with the same entries and the new
    one, the new one behind those due at the same time. *)
Theorem insert_sleeping_sorted e l :
  Sorted by_time l ->
  Sorted by_time (insert_sleeping e l) /\ insert_sleeping e l ≡ₚ e :: l /\
  filter (fun x => wake_time x = wake_time e) (insert_sleeping e l) =
  filter (fun x => wake_time x = wake_time e) l ++ [e].
Proof.
  intros Hs.
  assert (insert_sleeping e l = insert_after e l) as ->.
  { destruct l as [|h l]; [done|]. simpl.
    destruct (Z.ltb_spec (wake_time e) (wake_time h)), (Z.leb_spec (wake_time h) (wake_time e)); (done || lia). }
  destruct (insert_after_sorted e l Hs) as (HS & HP & _). split; [done|]. split; [done|].
  clear HS HP. induction l as [|e' l IH]; simpl.
  - by rewrite filter_cons_True.
  - apply Sorted_inv in Hs as Hs'. destruct Hs' as [Hs' Hh].
    destruct (Z.leb_spec (wake_time e') (wake_time e)) as [Hle|Hgt].
    + rewrite !filter_cons. case_decide; rewrite IH by done; done.
    + rewrite filter_cons_True by done.
      assert (filter (fun x => wake_time x = wake_time e) (e' :: l) = []) as ->; [|done].
      assert (forall l', (forall x, x ∈ l' -> wake_time x <> wake_time e) ->
        filter (fun x => wake_time x = wake_time e) l' = []) as Hno.
      { clear. induction l' as [|x l' IH]; intros H; [done|].
        rewrite filter_cons_False by (apply H; by left). apply IH. intros y Hy. apply H. by right. }
      apply Hno. intros x Hx Hw.
      apply (Sorted_StronglySorted (R := by_time)) in Hs; [|intros a b c; unfold by_time; lia].
      apply StronglySorted_inv in Hs as [_ Hall]. apply elem_of_cons in Hx as [->|Hx]; [lia|].
      rewrite Forall_forall in Hall. specialize (Hall x Hx). unfold by_time in Hall. lia.
Qed.

Lemma insert_sleeping_sorted_witness :
  Sorted by_time (insert_sleeping (mk_sleeping None 5) [mk_sleeping None 3; mk_sleeping (Some 1%positive) 5; mk_sleeping None 8]).
Proof.
  apply (insert_sleeping_sorted (mk_sleeping None 5)
    [mk_sleeping None 3; mk_sleeping (Some 1%positive) 5; mk_sleeping None 8]).
  repeat constructor; unfold by_time; simpl; lia.
Defined.

(** ** Time slices *)

(** What a timer tick does to the running task, and what its time slice was:
    a slice above one is counted down and the task goes on, a slice of one (or
    zero) ends in [scheduler_schedule]; a negative slice is neither counted down
    nor ever ended, the tick only advances the clock. With the default settings
    a task of priority [p] gets [1 + 2 * (31 - p)] ticks, which is negative for
    every priority above 31, and [scheduler_create_task] accepts any priority:
    such a task is never preempted. *)
Theorem tick_ends_positive_slices k a t :
  quiet k -> current k = Some a -> tasks k !! a = Some t ->
  let k1 := set_scheduler_ticks (u64 (scheduler_ticks k + 1)) k in
  let k2 := set_tasks (<[a := set_time_slice (time_slice t - 1) t]> (tasks k)) k1 in
  scheduler_tick k =
    (if time_slice t <? 0 then Ret (tt, k1)
     else if 1 <? time_slice t then Ret (tt, k2)
     else scheduler_schedule (if time_slice t =? 0 then k1 else k2)) /\
  forall p, 0 <= p < 2 ^ 29 ->
    slice_for SCHEDULER_ALGORITHM_PRIORITY TIME_SLICE_BASE p = 1 + 2 * (31 - p).
Proof.
  intros (Hi & Hl & Hr & Hp) Hc Ha k1 k2. split.
  - assert (scheduler_get_current_task k1 = Ret (Some a, k1)) as Hcur.
    { assert (inv None k1) as Hi1 by by eapply inv_ext.
      destruct (wp_returns _ _ _ (wp_current_task None k1 (fun p k' => p = Some a /\ k' = k1) Hi1 (conj Hc eq_refl)))
        as (p & k' & E & -> & ->). exact E. }
    assert (forall kk u, tasks kk !! a = Some u -> read_task a kk = Ret (u, kk)) as Hread.
    { intros kk u Hu. unfold read_task, bind, get. by rewrite Hu. }
    assert (upd_task a (set_time_slice (time_slice t - 1)) k1 = Ret (tt, k2)) as Hupd.
    { unfold upd_task. by rewrite (bind_run _ _ _ _ _ (Hread k1 t Ha)). }
    unfold scheduler_tick. erewrite bind_run by reflexivity. fold k1. erewrite bind_run by reflexivity.
    replace (truth (preemption_enabled k1)) with true by (simpl; by rewrite Hp). cbn [negb].
    rewrite (bind_run _ _ _ _ _ Hcur), (bind_run _ _ _ _ _ (Hread k1 t Ha)).
    destruct (Z.ltb_spec (time_slice t) 0), (Z.ltb_spec 0 (time_slice t)); try lia.
    + rewrite (bind_run (ret tt) _ k1 tt k1 eq_refl), (bind_run _ _ _ _ _ (Hread k1 t Ha)).
      destruct (Z.eqb_spec (time_slice t) 0); [lia|done].
    + rewrite (bind_run _ _ _ _ _ Hupd).
      rewrite (bind_run _ _ _ _ _ (Hread k2 (set_time_slice (time_slice t - 1) t) ltac:(apply lookup_insert_eq))).
      change (time_slice (set_time_slice (time_slice t - 1) t)) with (time_slice t - 1).
      destruct (Z.ltb_spec 1 (time_slice t)), (Z.eqb_spec (time_slice t - 1) 0),
        (Z.eqb_spec (time_slice t) 0); (done || lia).
    + rewrite (bind_run (ret tt) _ k1 tt k1 eq_refl), (bind_run _ _ _ _ _ (Hread k1 t Ha)).
      destruct (Z.eqb_spec (time_slice t) 0), (Z.ltb_spec 1 (time_slice t)); (done || lia).
  - intros p Hpr. unfold slice_for, SCHEDULER_ALGORITHM_PRIORITY, SCHEDULER_ALGORITHM_ROUND_ROBIN.
    change (1 =? 0) with false. cbn iota.
    unfold TIME_SLICE_BASE, MILLISECONDS_PER_TICK, TIME_SLICE_PRIORITY_FACTOR, MAX_PRIORITY.
    change (10 / 10) with 1. unfold to_int, u32. change (32 - 1) with 31.
    rewrite Zplus_mod, Zmult_mod_idemp_l, <- Zplus_mod.
    destruct (Z_le_gt_dec p 31).
    + rewrite Z.mod_small by lia. destruct (Z.ltb_spec (1 + (31 - p) * 2) (2 ^ 31)); lia.
    + rewrite <- (Z.mod_unique (1 + (31 - p) * 2) (2 ^ 32) (-1) (1 + (31 - p) * 2 + 2 ^ 32)) by lia.
      destruct (Z.ltb_spec (1 + (31 - p) * 2 + 2 ^ 32) (2 ^ 31)); lia.
Qed.

Lemma tick_ends_positive_slices_witness :
  scheduler_tick demo =
    scheduler_schedule (set_scheduler_ticks (u64 (scheduler_ticks demo + 1)) demo) /\
  slice_for SCHEDULER_ALGORITHM_PRIORITY TIME_SLICE_BASE 40 = 1 + 2 * (31 - 40).
Proof.
  destruct (tick_ends_positive_slices demo 2%positive (task0 1 TASK_STATE_RUNNING 16 0) demo_quiet
    eq_refl eq_refl) as [H1 H2].
  split; [exact H1|]. apply H2. lia.
Defined.

(** ** Tasks that are lost *)

(** A task that is neither queued nor asleep stays so. *)
Lemma schedule_ignores k a t :
  inv None k -> lock k = 0 -> preemption_enabled k = 1 -> tasks k !! a = Some t ->
  state t <> TASK_STATE_RUNNING -> Some a ∉ ready k -> Some a ∉ s_task <$> sleeping_tasks k ->
  idle_task k <> Some a ->
  wp scheduler_schedule (fun _ k' => quiet k' /\ ~ located k' a /\ tasks k' !! a = Some t /\
    idle_task k' = idle_task k) k.
Proof.
  intros Hi Hl Hp Ha Hst Hnr Hns Hidle. apply schedule_spec; [done..|].
  intros k1 k' n t0 t' E Hi1 _ Hs1 Hq' Hst' Hbest Hcur Hrdy Hsl _ _ Htasks _ _ _.
  pose proof (wp_run _ _ _ _ _ (prepare_spec k Hi Hl) E) as (_ & _ & Hst1 & _ & _ & _ & Hkeep).
  destruct (Hkeep a t Ha Hst Hns) as [Ha1 Hr1]. destruct Hst1 as (Hid1 & _). destruct Hst' as (Hid' & _).
  assert (n <> a) as Hna.
  { intros ->. unfold best in Hbest. destruct (ready k1) as [|p l] eqn:Er; [congruence|].
    subst p. apply Hnr, Hr1. by left. }
  split; [done|]. split; [|split; [|congruence]].
  - intros [Hc|[Hr|Hs]].
    + congruence.
    + apply Hnr, Hr1. rewrite Hrdy in Hr. destruct (ready k1); [done|]. by right.
    + apply Hns. rewrite Hsl, Hs1 in Hs. apply list_elem_of_fmap in Hs as (e & He & Hin%pending_in).
      apply list_elem_of_fmap. eauto.
  - by rewrite Htasks, lookup_insert_ne.
Qed.

(** A task that blocks itself with [scheduler_block_current_task] can never be
    unblocked: it is left in no list [scheduler_find_task_by_id] searches, so
    [scheduler_unblock_task] with its own id does nothing and the task stays
    BLOCKED, found nowhere. (The idle task and a task with a stale sleeping
    entry apart.) *)
Theorem blocked_task_is_lost k a t :
  quiet k -> current k = Some a -> tasks k !! a = Some t -> idle_task k <> Some a ->
  Some a ∉ s_task <$> sleeping_tasks k ->
  wp (scheduler_block_current_task ;;; scheduler_unblock_task (id t))
     (fun _ k' => ~ located k' a /\ tasks k' !! a = Some (set_state TASK_STATE_BLOCKED t)) k.
Proof.
  intros Hq Hc Ha Hidle Hns. pose proof Hq as (Hi & Hl & Hr & Hp).
  destruct (running_state k a t Hq Hc Ha) as [_ Hnr].
  unfold scheduler_block_current_task. wp_steps. eapply wp_current_task; [done|]. rewrite Hc. wp_steps.
  apply wp_lock_sched; [done|]. wp_steps. eapply wp_upd_task; [done|]. wp_steps. apply wp_unlock_sched.
  set (kb := set_lock 0 _). set (tb := set_state TASK_STATE_BLOCKED t).
  assert (inv None kb) as Hib.
  { eapply inv_ext; [by apply (inv_upd_current k a t tb)|done..]. }
  eapply wp_mono; [apply (schedule_ignores kb a tb); try done; apply lookup_insert_eq|].
  intros [] k1 (Hq1 & Hnl & Ha1 & _). pose proof Hq1 as (Hi1 & Hl1 & _).
  unfold scheduler_unblock_task. wp_steps. apply wp_lock_sched; [done|]. wp_steps.
  eapply find_task_spec; [by apply locked_inv| |].
  - intros b u Hloc Hb Hid. exfalso. apply Hnl.
    rewrite <- (inv_ids _ _ Hi1 b a u tb Hb Ha1 Hid). exact Hloc.
  - intros _. wp_steps. unfold wake_if_blocked. wp_steps. apply wp_unlock_sched. done.
Qed.

Lemma blocked_task_is_lost_witness :
  wp (scheduler_block_current_task ;;; scheduler_unblock_task 1)
     (fun _ k' => ~ located k' 2%positive /\
        tasks k' !! 2%positive = Some (set_state TASK_STATE_BLOCKED (task0 1 TASK_STATE_RUNNING 16 0))) demo.
Proof.
  apply (blocked_task_is_lost demo 2%positive (task0 1 TASK_STATE_RUNNING 16 0) demo_quiet);
    try reflexivity; try discriminate.
  apply not_elem_of_nil.
Defined.

(** A ready task that [scheduler_migrate_task] moves to a CPU's local queue is
    never run again: the call succeeds, no scheduling decision looks into the
    local queues, and afterwards the task is in no list that is searched, so it
    stays READY and is never chosen. *)
Theorem migrated_task_is_lost k a t cpu c :
  quiet k -> tasks k !! a = Some t -> Some a ∈ ready k -> idle_task k <> Some a ->
  Some a ∉ s_task <$> sleeping_tasks k -> 0 <= cpu < num_cpus k ->
  cpu_states k !! Z.to_nat cpu = Some c -> is_active c = 1 -> count (local_queue c) < MAX_TASKS ->
  wp (r <- scheduler_migrate_task (id t) cpu ;; scheduler_schedule ;;; ret r)
     (fun r k' => r = 0 /\ ~ located k' a /\ tasks k' !! a = Some t) k.
Proof.
  intros Hq Ha Hrdy Hidle Hns Hcpu Hc Hact Hroom. pose proof Hq as (Hi & Hl & Hr & Hp).
  pose proof (locked_inv k Hq) as Hi1.
  destruct (inv_ready _ _ Hi _ Hrdy) as (a' & t' & [= <-] & Ha' & [Hst|?]); [|done].
  rewrite Ha in Ha'. injection Ha' as <-.
  assert (exists n, cpu = Z.of_nat n) as [n ->] by (exists (Z.to_nat cpu); lia). rewrite Nat2Z.id in *.
  unfold scheduler_migrate_task. wp_steps.
  destruct (Z.ltb_spec (Z.of_nat n) 0); [lia|]. destruct (Z.leb_spec (num_cpus k) (Z.of_nat n)); [lia|].
  simpl. wp_steps. eapply wp_cpu_at; [done|]. rewrite Hact. simpl. wp_steps.
  apply wp_lock_sched; [done|]. wp_steps. eapply find_task_spec; [done| |].
  2:{ intros Hno. exfalso. apply (Hno a t); [|done|done]. right. by left. }
  intros b u _ Hb Hid. assert (b = a) as -> by (by eapply (inv_ids _ _ Hi b a u t)).
  wp_steps. eapply remove_task_spec; [done|]. intros qs Hk1 Hqs. wp_steps.
  eapply wp_cpu_at; [done|]. rewrite (proj2 (Z.ltb_lt _ _) Hroom).
  destruct (ring_push_spec _ _ (Some a) (local_wf _ _ _ _ Hi Hc)) as (r & Hr' & Hwr & _ & _); [done|].
  rewrite Hr'. simpl. wp_steps. eapply wp_upd_cpu; [done|]. wp_steps. apply wp_unlock_sched. wp_steps.
  eapply wp_mono.
  - apply (schedule_ignores _ a t); [by apply inv_set_lock, (inv_set_local _ _ n c r Hk1)|done|done|done| | |done|done].
    + by rewrite Hst.
    + intros Hin. apply (Hqs a t Ha) in Hin as [_ ?]. done.
  - intros [] k' (_ & Hnl & Ht & _). wp_steps. done.
Qed.

Lemma migrated_task_is_lost_witness :
  wp (r <- scheduler_migrate_task 2 1 ;; scheduler_schedule ;;; ret r)
     (fun r k' => r = 0 /\ ~ located k' 3%positive /\
        tasks k' !! 3%positive = Some (task0 2 TASK_STATE_READY 16 1)) demo.
Proof.
  apply (migrated_task_is_lost demo 3%positive (task0 2 TASK_STATE_READY 16 1) 1
    (mk_cpu None 1 0 0 (ring_empty MAX_TASKS None)) demo_quiet); try reflexivity; try discriminate.
  - unfold ready. change (ready_queues demo) with demo_queues. rewrite demo_ready. by left.
  - apply not_elem_of_nil.
  - simpl. lia.
Defined.

Lemma search_dangling ts x a l i :
  Some a ∈ l -> ts !! a = None ->
  (forall b u, Some b ∈ l -> ts !! b = Some u -> id u <> x) -> search ts x l i = None.
Proof.
  revert i. induction l as [|p l IH]; intros i Hin Ha Hno; [by apply elem_of_nil in Hin|].
  cbn [search]. destruct p as [b|]; cbn [has_id].
  - destruct (ts !! b) as [u|] eqn:Hb; [|done]. simpl.
    destruct (Z.eqb_spec (id u) x) as [He|He]; [destruct (Hno b u); [by left|done|done]|].
    apply IH; [|done|]; [|intros c v Hc; apply Hno; by right].
    apply elem_of_cons in Hin as [[= ->]|?]; [congruence|done].
  - apply IH; [|done|intros c v Hc; apply Hno; by right].
    by apply elem_of_cons in Hin as [[=]|?].
Qed.

(** Reaping a zombie leaves a dangling pointer: a terminated child that the
    caller can still find is one with an entry in the sleeping list;
    [scheduler_waitpid] stores its exit code, frees it and returns its id, but
    keeps the entry, and a later search of the list for any other id reads the
    freed task. *)
Theorem waitpid_zombie_dangles k c tc a t code opts mem :
  quiet k -> current k = Some c -> tasks k !! c = Some tc ->
  tasks k !! a = Some t -> state t = TASK_STATE_ZOMBIE -> parent_id t = id tc ->
  Some a ∈ s_task <$> sleeping_tasks k -> (forall st, stack t = Some st -> is_Some (stacks k !! st)) ->
  wp (scheduler_waitpid (id t) code opts mem)
     (fun r k' => r = id t /\ tasks k' !! a = None /\ sleeping_tasks k' = sleeping_tasks k /\
        (forall p, code = Some p -> ints k' !! p = Some (exit_code t)) /\
        forall x, (forall b u, tasks k' !! b = Some u -> id u <> x) ->
          scheduler_wake_task x k' = Fault) k.
Proof.
  intros Hq Hc Htc Ha Hst Hpar Hin Hstk. pose proof Hq as (Hi & Hl & Hr & Hp).
  pose proof (locked_inv k Hq) as Hi1. unfold scheduler_waitpid. wp_steps.
  apply wp_lock_sched; [done|]. wp_steps. eapply wp_current_task; [done|].
  change (current (set_lock 1 k)) with (current k). rewrite Hc. wp_steps.
  eapply find_task_spec; [done| |].
  2:{ intros Hno. exfalso. apply (Hno a t); [|done|done]. right. by right. }
  intros b u _ Hb Hid. assert (b = a) as -> by (by eapply (inv_ids _ _ Hi b a u t)).
  simpl in Hb. rewrite Ha in Hb. injection Hb as <-.
  wp_steps. eapply wp_read_task; [done|]. wp_steps. eapply wp_read_task; [done|].
  rewrite Hpar, Z.eqb_refl, Hst. cbn [negb]. change (TASK_STATE_ZOMBIE =? TASK_STATE_ZOMBIE) with true.
  cbn iota. wp_steps.
  assert (forall m, (forall p, code = Some p -> m !! p = Some (exit_code t)) ->
    wp (heap_free_stack (stack t) ;;; heap_free_task a ;;; Sync.release sched_lock ;;; ret (id t))
       (fun r k' => r = id t /\ tasks k' !! a = None /\ sleeping_tasks k' = sleeping_tasks k /\
        (forall p, code = Some p -> ints k' !! p = Some (exit_code t)) /\
        forall x, (forall b u, tasks k' !! b = Some u -> id u <> x) ->
          scheduler_wake_task x k' = Fault) (set_ints m (set_lock 1 k))) as Hfree.
  { intros m Hm.
    assert (forall q, wp (heap_free_task a ;;; Sync.release sched_lock ;;; ret (id t))
       (fun r k' => r = id t /\ tasks k' !! a = None /\ sleeping_tasks k' = sleeping_tasks k /\
        (forall p, code = Some p -> ints k' !! p = Some (exit_code t)) /\
        forall x, (forall b u, tasks k' !! b = Some u -> id u <> x) ->
          scheduler_wake_task x k' = Fault) (set_stacks q (set_ints m (set_lock 1 k)))) as Hlast.
    { intros q. unfold heap_free_task. wp_steps. eapply wp_read_task; [done|]. wp_steps.
      apply wp_unlock_sched. wp_steps. split; [done|]. split; [apply lookup_delete_eq|]. split; [done|].
      split; [done|]. intros x Hx. unfold scheduler_wake_task, bind, Sync.acquire, get. simpl.
      rewrite (search_dangling _ x a); [done|done|apply lookup_delete_eq|].
      intros d v _ Hv. by apply (Hx d v). }
    rewrite wp_bind. unfold heap_free_stack. destruct (stack t) as [st|] eqn:Est.
    - destruct (Hstk st eq_refl) as [y Hy]. rewrite wp_bind, wp_get. simpl. rewrite Hy. simpl.
      rewrite wp_bind, wp_ret, wp_modify. apply Hlast.
    - rewrite wp_ret. specialize (Hlast (stacks k)). by destruct k. }
  unfold store_int. destruct code as [p|].
  - rewrite wp_modify. apply Hfree. intros p' [= <-]. apply lookup_insert_eq.
  - rewrite wp_ret. specialize (Hfree (ints k)). destruct k. by apply Hfree.
Qed.

Definition zombie_tasks : gmap addr task :=
  {[ 1%positive := task0 0 TASK_STATE_READY 31 0; 2%positive := task0 1 TASK_STATE_RUNNING 16 0;
     3%positive := set_exit_code 42 (task0 2 TASK_STATE_ZOMBIE 16 1) ]}.
Definition zombie : kernel := system (Some 2%positive) [mk_sleeping (Some 3%positive) 50] 1 4 zombie_tasks.

Lemma zombie_quiet : quiet zombie.
Proof.
  assert (forall a t, zombie_tasks !! a = Some t ->
    (a = 1%positive /\ t = task0 0 TASK_STATE_READY 31 0) \/
    (a = 2%positive /\ t = task0 1 TASK_STATE_RUNNING 16 0) \/
    (a = 3%positive /\ t = set_exit_code 42 (task0 2 TASK_STATE_ZOMBIE 16 1))) as Hlk.
  { intros a t. unfold zombie_tasks. rewrite !lookup_insert_Some, lookup_singleton_Some. intuition congruence. }
  apply system_quiet.
  - unfold MAX_CPUS. lia.
  - by eexists.
  - intros a [= <-]. by eexists.
  - intros e ->%list_elem_of_singleton. eexists. split; [reflexivity|by eexists].
  - intros a b t u Ht Hu. apply Hlk in Ht, Hu. intuition (subst; try done).
  - intros a t Ht. apply Hlk in Ht. intuition (subst; simpl; lia).
Qed.

Lemma waitpid_zombie_dangles_witness :
  wp (scheduler_waitpid 2 (Some 9%positive) 0 true)
     (fun r k' => r = 2 /\ tasks k' !! 3%positive = None /\ sleeping_tasks k' = sleeping_tasks zombie /\
        (forall p, Some 9%positive = Some p -> ints k' !! p = Some 42) /\
        forall x, (forall b u, tasks k' !! b = Some u -> id u <> x) ->
          scheduler_wake_task x k' = Fault) zombie.
Proof.
  apply (waitpid_zombie_dangles zombie 2%positive (task0 1 TASK_STATE_RUNNING 16 0) 3%positive
    (set_exit_code 42 (task0 2 TASK_STATE_ZOMBIE 16 1)) (Some 9%positive) 0 true zombie_quiet);
    try reflexivity; try discriminate.
  simpl. by left.
Defined.

(** ** Load balancing *)

(** Load balancing loses no task: [scheduler_load_balance] returns, and the
    local queues together hold the same tasks as before, each as often; the
    ready queues, the tasks and what runs on each CPU are unchanged. *)
Theorem load_balance_keeps_tasks k :
  quiet k ->
  wp scheduler_load_balance (fun _ k' =>
    quiet k' /\ local_tasks (cpu_states k') ≡ₚ local_tasks (cpu_states k) /\
    current_task <$> cpu_states k' = current_task <$> cpu_states k /\
    ready_queues k' = ready_queues k /\ tasks k' = tasks k) k.
Proof.
  intros (Hi & Hl & Hr & Hp). eapply load_balance_spec; [done|]. intros cs Hi' Hcur Hperm.
  split; [|done]. split; [done|]. split; [done|]. split; [|done].
  intros a t Ha Ht. apply (Hr a t); [|done]. rewrite <- Ha. symmetry. by apply current_of.
Qed.

Lemma load_balance_keeps_tasks_witness :
  wp scheduler_load_balance (fun _ k' =>
    quiet k' /\ local_tasks (cpu_states k') ≡ₚ local_tasks (cpu_states demo) /\
    current_task <$> cpu_states k' = current_task <$> cpu_states demo /\
    ready_queues k' = ready_queues demo /\ tasks k' = tasks demo) demo.
Proof. apply (load_balance_keeps_tasks demo demo_quiet). Defined.

End SchedulerThms.
