(* ===== verification/Task.v ===== *)
(** * Task management ([kernel/task.c])

    The functions of [kernel/task.c] above the scheduler: creation with
    attributes, lookup by id, suspension, termination and waiting. Context set
    up and switching, which the scheduler calls, are in [Scheduler]. The
    security component's functions that are called here are arguments. *)

From Stdlib Require Import ZArith Lia String.
From stdpp Require Import base tactics option list gmap strings.
From S2P Require Import Prelude Ring Sync Scheduler SchedulerOps SchedulerThms.

Set Default Goal Selector "!".
Local Open Scope Z_scope.
Local Open Scope kernel_scope.

Module Task.
Import Ring Scheduler SchedulerOps.

Definition PRIORITY_NORMAL : Z := 16.
Definition TASK_FLAG_SYSTEM : Z := 1.
Definition TASK_FLAG_USER : Z := 2.
Definition TASK_PRIV_USER : Z := 3.

(** ** Creation *)

Definition create_named_task (entry : Z) (nm : option string) (block stk : ptr) : M kernel Z :=
  scheduler_create_task entry nm PRIORITY_NORMAL TASK_FLAG_SYSTEM block stk.

Definition create_task_with_priority (entry : Z) (nm : option string) (prio : Z) (block stk : ptr)
  : M kernel Z :=
  scheduler_create_task entry nm prio TASK_FLAG_SYSTEM block stk.

Definition set_task_security_token (tid : Z) (token : ptr) : M kernel Z :=
  p <- scheduler_find_task_by_id tid ;;
  match p with
  | None => ret (-1)
  | Some a => upd_task a (set_security_token token) ;;; ret 0
  end.

Definition get_task_security_token (tid : Z) : M kernel ptr :=
  p <- scheduler_find_task_by_id tid ;;
  match p with None => ret None | Some a => t <- read_task a ;; ret (security_token t) end.

Definition set_task_security_descriptor (tid : Z) (d : ptr) : M kernel Z :=
  p <- scheduler_find_task_by_id tid ;;
  match p with
  | None => ret (-1)
  | Some a => upd_task a (set_security_descriptor d) ;;; ret 0
  end.

Definition get_task_security_descriptor (tid : Z) : M kernel ptr :=
  p <- scheduler_find_task_by_id tid ;;
  match p with None => ret None | Some a => t <- read_task a ;; ret (security_descriptor t) end.

(** [token] is the answer of [security_create_token]. *)
Definition create_secure_task (entry : Z) (nm : option string) (fl priv : Z) (token : ptr)
    (block stk : ptr) : M kernel Z :=
  tid <- scheduler_create_task entry nm PRIORITY_NORMAL fl block stk ;;
  (if 0 <? tid
   then
     p <- scheduler_find_task_by_id tid ;;
     match p with
     | None => ret tt
     | Some a =>
         upd_task a (set_privilege_level priv) ;;;
         match token with
         | Some _ => set_task_security_token tid token ;;; ret tt
         | None => ret tt
         end
     end
   else ret tt) ;;;
  ret tid.

(** [stk2] is the answer of the second [heap_alloc]. *)
Definition create_user_mode_task (entry : Z) (nm : option string) (size : Z) (block stk stk2 : ptr)
  : M kernel Z :=
  tid <- scheduler_create_task entry nm PRIORITY_NORMAL TASK_FLAG_USER block stk ;;
  if 0 <? tid
  then
    p <- scheduler_find_task_by_id tid ;;
    match p with
    | None => ret tid
    | Some a =>
        upd_task a (set_privilege_level TASK_PRIV_USER) ;;;
        t <- read_task a ;;
        if (0 <? size) && negb (size =? stack_size t)
        then
          heap_free_stack (stack t) ;;;
          upd_task a (fun t => set_stack_size size (set_stack stk2 t)) ;;;
          match stk2 with
          | None => scheduler_terminate_task tid (-1) ;;; ret (-1)
          | Some st =>
              modify (fun k => set_stacks (<[st := None]> (stacks k)) k) ;;;
              task_setup_context (Some a) ;;;
              ret tid
          end
        else ret tid
    end
  else ret tid.

(** ** Lookup *)

Definition set_task_name (tid : Z) (nm : option string) : M kernel unit :=
  p <- scheduler_find_task_by_id tid ;;
  match p, nm with
  | Some a, Some n => upd_task a (set_name (clip_name n))
  | _, _ => ret tt
  end.

Definition get_task_name (tid : Z) : M kernel string :=
  p <- scheduler_find_task_by_id tid ;;
  match p with
  | Some a => t <- read_task a ;; ret (name t)
  | None => ret "unknown"%string
  end.

Definition get_current_task_id : M kernel Z :=
  p <- scheduler_get_current_task ;;
  match p with Some a => t <- read_task a ;; ret (id t) | None => ret 0 end.

Definition no_stats : scheduler_stats := mk_sched_stats 0 0 0 0 0 0 0 0.

Definition get_task_count : M kernel Z :=
  st <- scheduler_get_stats (Some no_stats) ;; ret (total_tasks (default no_stats st)).

(** [task_info_t] without the SID; [now] is the answer of [hal_get_system_time]. *)
Record task_info : Type := mk_info {
  i_id : Z;
  i_state : Z;
  i_flags : Z;
  i_privilege_level : Z;
  i_priority : Z;
  i_stack_size : Z;
  i_name : string;
  is_current : Z;
  i_parent_id : Z;
  i_cpu_time_used : Z;
  uptime : Z;
}.

Definition get_task_info (now : Z) (tid : Z) (info : option task_info) : M kernel (Z * option task_info) :=
  match info with
  | None => ret (-1, None)
  | Some old =>
      p <- scheduler_find_task_by_id tid ;;
      match p with
      | None => ret (-1, Some old)
      | Some a =>
          t <- read_task a ;;
          cur <- scheduler_get_current_task ;;
          k <- get ;;
          b <- deref (has_id (tasks k) tid cur) ;;
          ret (0, Some (mk_info (id t) (state t) (flags t) (privilege_level t) (priority t) (stack_size t)
                          (clip_name (name t)) (if (b : bool) then 1 else 0) (parent_id t) (cpu_time_used t)
                          (u64 (now - creation_time t))))
      end
  end.

(** [check] is [security_check_permission] of the task's token. *)
Definition task_check_permission (check : addr -> Z -> Z) (tid perm : Z) : M kernel Z :=
  p <- scheduler_find_task_by_id tid ;;
  match p with
  | None => ret 0
  | Some a =>
      t <- read_task a ;;
      match security_token t with None => ret 0 | Some tok => ret (check tok perm) end
  end.

(** ** State changes *)

Definition suspend_task (tid : Z) : M kernel Z :=
  p <- scheduler_find_task_by_id tid ;;
  match p with
  | None => ret (-1)
  | Some a =>
      cur <- scheduler_get_current_task ;;
      k <- get ;;
      b <- deref (has_id (tasks k) tid cur) ;;
      if (b : bool) then ret (-1)
      else
        t <- read_task a ;;
        if (state t =? TASK_STATE_READY) || (state t =? TASK_STATE_RUNNING)
        then upd_task a (set_state TASK_STATE_SUSPENDED) ;;; ret 0
        else ret (-1)
  end.

Definition resume_task (tid : Z) : M kernel Z :=
  p <- scheduler_find_task_by_id tid ;;
  match p with
  | None => ret (-1)
  | Some a =>
      t <- read_task a ;;
      if state t =? TASK_STATE_SUSPENDED
      then upd_task a (set_state TASK_STATE_READY) ;;; scheduler_add_task (Some a) ;;; ret 0
      else ret (-1)
  end.

Definition terminate_task (tid code : Z) : M kernel Z := scheduler_terminate_task tid code.

Definition get_task_exit_code (tid : Z) (out : ptr) : M kernel Z :=
  match out with
  | None => ret (-1)
  | Some _ =>
      p <- scheduler_find_task_by_id tid ;;
      match p with
      | None => ret (-1)
      | Some a =>
          t <- read_task a ;;
          if negb (state t =? TASK_STATE_ZOMBIE) then ret (-1)
          else store_int out (exit_code t) ;;; ret 0
      end
  end.

(** The busy-waiting loop: [others i] is what the rest of the system does during
    the [i]-th yield. *)
Fixpoint wait_loop (others : nat -> kernel -> kernel) (fuel i : nat) (tid : Z) : M kernel Z :=
  match fuel with
  | O => spin
  | S f =>
      p <- scheduler_find_task_by_id tid ;;
      match p with
      | None => ret 0
      | Some a =>
          t <- read_task a ;;
          if state t =? TASK_STATE_ZOMBIE then ret 0
          else scheduler_yield ;;; modify (others i) ;;; wait_loop others f (S i) tid
      end
  end.

Definition wait_for_task (others : nat -> kernel -> kernel) (fuel : nat) (tid : Z) : M kernel Z :=
  p <- scheduler_find_task_by_id tid ;;
  match p with
  | None => ret (-1)
  | Some a =>
      t <- read_task a ;;
      if state t =? TASK_STATE_ZOMBIE then ret 0 else wait_loop others fuel 0 tid
  end.

Definition task_yield : M kernel unit := scheduler_yield.

(** [clock i] is the [i]-th answer of [hal_get_system_time]. *)
Fixpoint sleep_loop (clock : nat -> Z) (fuel i : nat) (end_time : Z) : M kernel Z :=
  match fuel with
  | O => spin
  | S f => if clock i <? end_time then task_yield ;;; sleep_loop clock f (S i) end_time else ret 0
  end.
Definition task_sleep (clock : nat -> Z) (fuel : nat) (ms : Z) : M kernel Z :=
  sleep_loop clock fuel 1 (u64 (clock 0%nat + ms)).

Definition task_set_priority (tid prio : Z) : M kernel Z := scheduler_set_task_priority tid prio.

Definition task_get_priority (tid : Z) : M kernel Z :=
  p <- scheduler_find_task_by_id tid ;;
  match p with Some a => t <- read_task a ;; ret (priority t) | None => ret PRIORITY_NORMAL end.

Definition task_block (tid : Z) : M kernel Z :=
  cur <- scheduler_get_current_task ;;
  k <- get ;;
  b <- deref (has_id (tasks k) tid cur) ;;
  if (b : bool) then scheduler_block_current_task ;;; ret 0
  else
    p <- scheduler_find_task_by_id tid ;;
    match p with
    | None => ret (-1)
    | Some a => upd_task a (set_state TASK_STATE_BLOCKED) ;;; ret 0
    end.

Definition task_unblock (tid : Z) : M kernel Z := scheduler_unblock_task tid ;;; ret 0.

(** ** Properties *)

Section Props.
Implicit Types (k : kernel) (a : addr) (t : task).

(** Finding a queued task by its id. *)
Lemma find_queued ex k a t Q :
  inv ex k -> tasks k !! a = Some t -> Some a ∈ ready k -> Q (Some a) k ->
  wp (scheduler_find_task_by_id (id t)) Q k.
Proof.
  intros Hi Ha Hr HQ. eapply find_task_spec; [done| |].
  - intros b u _ Hb Hid. by rewrite (inv_ids _ _ Hi b a u t Hb Ha Hid).
  - intros Hno. destruct (Hno a t); [right; by left|done|done].
Qed.

(** The running task is another one than a queued one. *)
Lemma current_has_other_id k a t Q :
  quiet k -> tasks k !! a = Some t -> Some a ∈ ready k -> Q false k ->
  wp (k <- get ;; deref (has_id (tasks k) (id t) (current k))) Q k.
Proof.
  intros Hq Ha Hr HQ. pose proof Hq as (Hi & _). wp_steps.
  destruct (current k) as [c|] eqn:Hc; simpl; [|done].
  destruct (current_live _ _ _ Hi Hc) as [u Hu]. rewrite Hu. simpl.
  destruct (running_state k c u Hq Hc Hu) as [_ Hn].
  destruct (Z.eqb_spec (id u) (id t)) as [He|]; [|done].
  by rewrite (inv_ids _ _ Hi c a u t Hu Ha He) in Hn.
Qed.

(** Suspension does not take a task out of its ready queue: [suspend_task] on a
    queued task returns 0 and sets its state to SUSPENDED, but the ready list
    stays as it was, so the task is still scheduled; [resume_task] then adds it
    to the queue a second time (if the queue has room). *)
Theorem suspended_task_stays_queued k a t :
  quiet k -> tasks k !! a = Some t -> Some a ∈ ready k ->
  (forall q, ready_queues k !! clamp (priority t) = Some q -> count q < MAX_TASKS) ->
  wp (r <- suspend_task (id t) ;;
      k1 <- get ;;
      r' <- resume_task (id t) ;; ret (r, ready k1, r'))
     (fun out k' => out = (0, ready k, 0) /\ ~ NoDup (ready k') /\ tasks k' !! a = Some t) k.
Proof.
  intros Hq Ha Hr Hroom. pose proof Hq as (Hi & _).
  destruct (inv_ready _ _ Hi _ Hr) as (a' & t' & [= <-] & Ha' & [Hst|?]); [|done].
  rewrite Ha in Ha'. injection Ha' as <-.
  unfold suspend_task. wp_steps. eapply find_queued; [done..|]. wp_steps.
  eapply wp_current_task; [done|]. wp_steps. pose proof (current_has_other_id k a t
    (fun b k' => b = false /\ k' = k) Hq Ha Hr (conj eq_refl eq_refl)) as Hcur.
  rewrite wp_bind, wp_get in Hcur. eapply wp_mono; [exact Hcur|]. intros b k' [-> ->]. wp_steps.
  eapply wp_read_task; [done|]. rewrite Hst. simpl. wp_steps. eapply wp_upd_task; [done|]. wp_steps.
  set (t1 := set_state TASK_STATE_SUSPENDED t).
  set (k1 := set_tasks (<[a := t1]> (tasks k)) k).
  assert (inv (Some a) k1) as Hi1 by (eapply inv_upd_task; [done|done|done|by right|done]).
  unfold resume_task. wp_steps. assert (tasks k1 !! a = Some t1) as Ha1 by apply lookup_insert_eq.
  eapply (find_queued _ k1 a t1); [done..|]. wp_steps. eapply wp_read_task; [done|]. simpl. wp_steps.
  eapply wp_upd_task; [done|]. wp_steps.
  set (k2 := set_tasks (<[a := set_state TASK_STATE_READY t1]> (tasks k1)) k1).
  assert (tasks k2 !! a = Some t) as Ha2.
  { simpl. rewrite lookup_insert_eq. f_equal. destruct t; simpl in *. by subst. }
  eapply (add_task_queues (Some a) k2 a t); [by eapply inv_upd_task; [..|right|]|done|].
  intros qs (q & Hq2 & [[_ (r & -> & Hr2)]|[Hfull _]]) _ _; [|pose proof (Hroom q Hq2); lia].
  wp_steps. split; [done|]. split; [|done]. intros Hnd.
  assert (ready k ++ [Some a] ≡ₚ ready (set_ready_queues (<[clamp (priority t) := r]> (ready_queues k2)) k2)) as Hperm.
  { unfold ready at 2. simpl. change (ready_queues k2) with (ready_queues k) in *.
    rewrite (level_insert k _ q r Hq2), Hr2, (level_at k _ q Hq2), <- !app_assoc.
    do 2 apply Permutation_app_head. apply Permutation_app_comm. }
  rewrite <- Hperm in Hnd. apply NoDup_app in Hnd as (_ & Hnd & _). apply (Hnd (Some a) Hr). by left.
Qed.

End Props.

Lemma suspended_task_stays_queued_witness :
  wp (r <- suspend_task 2 ;; k1 <- get ;; r' <- resume_task 2 ;; ret (r, ready k1, r'))
     (fun out k' => out = (0, ready SchedulerThms.demo, 0) /\ ~ NoDup (ready k') /\
        tasks k' !! 3%positive = Some (SchedulerThms.task0 2 TASK_STATE_READY 16 1)) SchedulerThms.demo.
Proof.
  apply (suspended_task_stays_queued SchedulerThms.demo 3%positive
    (SchedulerThms.task0 2 TASK_STATE_READY 16 1) SchedulerThms.demo_quiet).
  - reflexivity.
  - unfold ready. change (ready_queues SchedulerThms.demo) with SchedulerThms.demo_queues.
    rewrite SchedulerThms.demo_ready. by left.
  - intros q Hq. vm_compute in Hq. injection Hq as <-. reflexivity.
Defined.

End Task.
