(* ===== verification/Thread.v ===== *)
(** * Threads ([kernel/thread.c])

    The table of threads, their control blocks, the lists of ready and blocked threads
    linked through the blocks, and the scheduler. Addresses are integers, 0 is NULL;
    [MAX_TASKS], which [thread.c] takes from [task.h], is an argument. The answers of
    [malloc] and [get_current_task_id] are arguments of the calls that ask for them.

    A call ends where it gives the processor away: [thread_scheduler] stores the stack
    pointer [sp] of that moment, records the switch and answers [true]; it answers
    [false] when there is no thread to switch to. A walk along pointers has as fuel the
    number of blocks: a longer walk visits a block twice and never ends ([Spin]). *)

From Stdlib Require Import ZArith Lia String.
From stdpp Require Import base tactics option list gmap strings pretty.
From S2P Require Import Prelude Sync.

Set Default Goal Selector "!".
Local Open Scope Z_scope.
Local Open Scope kernel_scope.

Module Thread.

Definition THREAD_STATE_NEW : Z := 0.
Definition THREAD_STATE_READY : Z := 1.
Definition THREAD_STATE_RUNNING : Z := 2.
Definition THREAD_STATE_BLOCKED : Z := 3.
Definition THREAD_STATE_ZOMBIE : Z := 5.
Definition THREAD_STATE_DEAD : Z := 6.
Definition THREAD_PRIORITY_LOWEST : Z := 0.
Definition THREAD_PRIORITY_NORMAL : Z := 2.
Definition THREAD_PRIORITY_REALTIME : Z := 5.
Definition THREAD_FLAG_SYSTEM : Z := 1.
Definition THREAD_FLAG_DETACHED : Z := 4.
Definition MAX_THREADS_PER_TASK : nat := 16.
Definition MAX_THREAD_NAME_LENGTH : nat := 32.
Definition DEFAULT_STACK_SIZE : Z := 16 * 1024.

(** ** Data *)

(** [thread_context_t] *)
Record thread_context : Type := mk_context {
  esp : Z;
  ebp : Z;
  eip : Z;
  eflags : Z;
  eax : Z;
  ebx : Z;
  ecx : Z;
  edx : Z;
  esi : Z;
  edi : Z;
}.

Definition set_esp (x : Z) (c : thread_context) : thread_context :=
  mk_context x (ebp c) (eip c) (eflags c) (eax c) (ebx c) (ecx c) (edx c) (esi c) (edi c).

(** [thread_t]; a pointer to a thread is the address of its block, 0 is NULL. *)
Record thread : Type := mk_thread {
  id : Z;
  task_id : Z;
  name : string;
  state : Z;
  priority : Z;
  flags : Z;
  entry_point : Z;
  arg : Z;
  context : thread_context;
  stack : Z;
  stack_size : Z;
  exit_code : Z;
  join_semaphore : Sync.semaphore;
  next : Z;
  prev : Z;
}.

Definition set_name (x : string) (t : thread) : thread :=
  mk_thread (id t) (task_id t) x (state t) (priority t) (flags t) (entry_point t) (arg t)
    (context t) (stack t) (stack_size t) (exit_code t) (join_semaphore t) (next t) (prev t).
Definition set_state (x : Z) (t : thread) : thread :=
  mk_thread (id t) (task_id t) (name t) x (priority t) (flags t) (entry_point t) (arg t)
    (context t) (stack t) (stack_size t) (exit_code t) (join_semaphore t) (next t) (prev t).
Definition set_priority (x : Z) (t : thread) : thread :=
  mk_thread (id t) (task_id t) (name t) (state t) x (flags t) (entry_point t) (arg t) (context t)
    (stack t) (stack_size t) (exit_code t) (join_semaphore t) (next t) (prev t).
Definition set_flags (x : Z) (t : thread) : thread :=
  mk_thread (id t) (task_id t) (name t) (state t) (priority t) x (entry_point t) (arg t)
    (context t) (stack t) (stack_size t) (exit_code t) (join_semaphore t) (next t) (prev t).
Definition set_context (x : thread_context) (t : thread) : thread :=
  mk_thread (id t) (task_id t) (name t) (state t) (priority t) (flags t) (entry_point t) (arg t) x
    (stack t) (stack_size t) (exit_code t) (join_semaphore t) (next t) (prev t).
Definition set_stack (x : Z) (t : thread) : thread :=
  mk_thread (id t) (task_id t) (name t) (state t) (priority t) (flags t) (entry_point t) (arg t)
    (context t) x (stack_size t) (exit_code t) (join_semaphore t) (next t) (prev t).
Definition set_stack_size (x : Z) (t : thread) : thread :=
  mk_thread (id t) (task_id t) (name t) (state t) (priority t) (flags t) (entry_point t) (arg t)
    (context t) (stack t) x (exit_code t) (join_semaphore t) (next t) (prev t).
Definition set_exit_code (x : Z) (t : thread) : thread :=
  mk_thread (id t) (task_id t) (name t) (state t) (priority t) (flags t) (entry_point t) (arg t)
    (context t) (stack t) (stack_size t) x (join_semaphore t) (next t) (prev t).
Definition set_join_semaphore (x : Sync.semaphore) (t : thread) : thread :=
  mk_thread (id t) (task_id t) (name t) (state t) (priority t) (flags t) (entry_point t) (arg t)
    (context t) (stack t) (stack_size t) (exit_code t) x (next t) (prev t).
Definition set_next (x : Z) (t : thread) : thread :=
  mk_thread (id t) (task_id t) (name t) (state t) (priority t) (flags t) (entry_point t) (arg t)
    (context t) (stack t) (stack_size t) (exit_code t) (join_semaphore t) x (prev t).
Definition set_prev (x : Z) (t : thread) : thread :=
  mk_thread (id t) (task_id t) (name t) (state t) (priority t) (flags t) (entry_point t) (arg t)
    (context t) (stack t) (stack_size t) (exit_code t) (join_semaphore t) (next t) x.

(** The static variables of [thread.c], the control blocks and stacks that are
    allocated, the words written to stacks, and the context switches, latest first:
    from which thread (0 when there is none) to which. *)
Record system : Type := mk_system {
  table : list Z;
  thread_count : Z;
  next_thread_id : Z;
  current_thread_id : Z;
  ready_head : Z;
  ready_tail : Z;
  blocked_head : Z;
  thread_lock : Z;
  tcbs : gmap Z thread;
  stacks : gset Z;
  words : gmap Z Z;
  switches : list (Z * Z);
}.

Definition set_table (x : list Z) (s : system) : system :=
  mk_system x (thread_count s) (next_thread_id s) (current_thread_id s) (ready_head s)
    (ready_tail s) (blocked_head s) (thread_lock s) (tcbs s) (stacks s) (words s) (switches s).
Definition set_thread_count (x : Z) (s : system) : system :=
  mk_system (table s) x (next_thread_id s) (current_thread_id s) (ready_head s) (ready_tail s)
    (blocked_head s) (thread_lock s) (tcbs s) (stacks s) (words s) (switches s).
Definition set_next_thread_id (x : Z) (s : system) : system :=
  mk_system (table s) (thread_count s) x (current_thread_id s) (ready_head s) (ready_tail s)
    (blocked_head s) (thread_lock s) (tcbs s) (stacks s) (words s) (switches s).
Definition set_current_thread_id (x : Z) (s : system) : system :=
  mk_system (table s) (thread_count s) (next_thread_id s) x (ready_head s) (ready_tail s)
    (blocked_head s) (thread_lock s) (tcbs s) (stacks s) (words s) (switches s).
Definition set_ready_head (x : Z) (s : system) : system :=
  mk_system (table s) (thread_count s) (next_thread_id s) (current_thread_id s) x (ready_tail s)
    (blocked_head s) (thread_lock s) (tcbs s) (stacks s) (words s) (switches s).
Definition set_ready_tail (x : Z) (s : system) : system :=
  mk_system (table s) (thread_count s) (next_thread_id s) (current_thread_id s) (ready_head s) x
    (blocked_head s) (thread_lock s) (tcbs s) (stacks s) (words s) (switches s).
Definition set_blocked_head (x : Z) (s : system) : system :=
  mk_system (table s) (thread_count s) (next_thread_id s) (current_thread_id s) (ready_head s)
    (ready_tail s) x (thread_lock s) (tcbs s) (stacks s) (words s) (switches s).
Definition set_thread_lock (x : Z) (s : system) : system :=
  mk_system (table s) (thread_count s) (next_thread_id s) (current_thread_id s) (ready_head s)
    (ready_tail s) (blocked_head s) x (tcbs s) (stacks s) (words s) (switches s).
Definition set_tcbs (x : gmap Z thread) (s : system) : system :=
  mk_system (table s) (thread_count s) (next_thread_id s) (current_thread_id s) (ready_head s)
    (ready_tail s) (blocked_head s) (thread_lock s) x (stacks s) (words s) (switches s).
Definition set_stacks (x : gset Z) (s : system) : system :=
  mk_system (table s) (thread_count s) (next_thread_id s) (current_thread_id s) (ready_head s)
    (ready_tail s) (blocked_head s) (thread_lock s) (tcbs s) x (words s) (switches s).
Definition set_words (x : gmap Z Z) (s : system) : system :=
  mk_system (table s) (thread_count s) (next_thread_id s) (current_thread_id s) (ready_head s)
    (ready_tail s) (blocked_head s) (thread_lock s) (tcbs s) (stacks s) x (switches s).
Definition set_switches (x : list (Z * Z)) (s : system) : system :=
  mk_system (table s) (thread_count s) (next_thread_id s) (current_thread_id s) (ready_head s)
    (ready_tail s) (blocked_head s) (thread_lock s) (tcbs s) (stacks s) (words s) x.

(** ** Memory *)

Definition read_tcb (a : Z) : M system thread := s <- get ;; deref (tcbs s !! a).
Definition upd_tcb (a : Z) (f : thread -> thread) : M system unit :=
  s <- get ;; t <- deref (tcbs s !! a) ;; put (set_tcbs (<[a := f t]> (tcbs s)) s).

Definition lock_word : place system Z := mk_place thread_lock set_thread_lock.
Definition lock : M system unit := Sync.acquire lock_word.
Definition unlock : M system unit := Sync.release lock_word.

(** The join semaphore of the thread at [a]. *)
Definition join_place (a : Z) : place system Sync.semaphore :=
  mk_place (fun s => match tcbs s !! a with Some t => join_semaphore t | None => Sync.mk_semaphore 0 0 0 end)
    (fun o s => set_tcbs (alter (set_join_semaphore o) a (tcbs s)) s).

Definition zero_context : thread_context := mk_context 0 0 0 0 0 0 0 0 0 0.

(** [strncpy] of at most 31 characters and the terminator. *)
Definition copy_name (n : string) : string := substring 0 (MAX_THREAD_NAME_LENGTH - 1) n.

Section Threads.
Context (MAX_TASKS : nat).
Definition MAX_THREADS : nat := MAX_TASKS * MAX_THREADS_PER_TASK.

(** ** The lists *)

Definition thread_add_to_ready_list (a : Z) : M system unit :=
  if a =? 0 then ret tt
  else
    s <- get ;;
    upd_tcb a (fun t => set_prev (ready_tail s) (set_next 0 t)) ;;;
    (if negb (ready_tail s =? 0) then upd_tcb (ready_tail s) (set_next a) else modify (set_ready_head a)) ;;;
    modify (set_ready_tail a).

(** The two halves of taking a thread out of a list. *)
Definition bypass_next (a : Z) (head : Z -> system -> system) : M system unit :=
  t <- read_tcb a ;;
  if negb (prev t =? 0) then upd_tcb (prev t) (set_next (next t)) else modify (head (next t)).

Definition thread_remove_from_ready_list (a : Z) : M system unit :=
  if a =? 0 then ret tt
  else
    bypass_next a set_ready_head ;;;
    t <- read_tcb a ;;
    (if negb (next t =? 0) then upd_tcb (next t) (set_prev (prev t)) else modify (set_ready_tail (prev t))) ;;;
    upd_tcb a (fun t => set_prev 0 (set_next 0 t)).

(** The loop of [thread_get_next_to_run] from [a] on. *)
Fixpoint best_from (fuel : nat) (a best best_priority : Z) : M system Z :=
  if a =? 0 then ret best
  else
    match fuel with
    | O => spin
    | S f =>
        t <- read_tcb a ;;
        if (state t =? THREAD_STATE_READY) && (best_priority <? priority t)
        then best_from f (next t) a (priority t)
        else best_from f (next t) best best_priority
    end.

Definition thread_get_next_to_run : M system Z :=
  s <- get ;; best_from (S (map_size (tcbs s))) (ready_head s) 0 (-1).

(** ** Looking up threads *)

Definition thread_get_current_id : M system Z := gets current_thread_id.

Definition thread_get_current : M system Z :=
  s <- get ;;
  if (current_thread_id s <? 0) || (Z.of_nat MAX_THREADS <=? current_thread_id s) then ret 0
  else deref (arr_get (table s) (current_thread_id s)).

Fixpoint find_id (l : list Z) (tid : Z) : M system Z :=
  match l with
  | [] => ret 0
  | a :: l' =>
      if a =? 0 then find_id l' tid
      else t <- read_tcb a ;; if id t =? tid then ret a else find_id l' tid
  end.

Definition thread_get_by_id (tid : Z) : M system Z :=
  if (tid <? 0) || (Z.of_nat MAX_THREADS <=? tid) then ret 0
  else s <- get ;; find_id (table s) tid.

(** ** The scheduler *)

Definition thread_scheduler (sp : Z) : M system bool :=
  lock ;;;
  current <- thread_get_current ;;
  nxt <- thread_get_next_to_run ;;
  if nxt =? 0 then unlock ;;; ret false
  else
    (if negb (current =? 0) then
       t <- read_tcb current ;;
       if state t =? THREAD_STATE_RUNNING then upd_tcb current (set_state THREAD_STATE_READY) else ret tt
     else ret tt) ;;;
    upd_tcb nxt (set_state THREAD_STATE_RUNNING) ;;;
    n <- read_tcb nxt ;;
    modify (set_current_thread_id (id n)) ;;;
    unlock ;;;
    (if negb (current =? 0) then upd_tcb current (fun t => set_context (set_esp sp (context t)) t) else ret tt) ;;;
    modify (fun s => set_switches ((current, nxt) :: switches s) s) ;;;
    ret true.

Definition thread_yield (sp : Z) : M system bool := thread_scheduler sp.

(** The clock is read before every round: [clock] holds its values, [sp] is the stack
    pointer of the call. The answer is [true] when the sleep is over and [false] when
    the processor was given away in it: when the thread runs again, it goes on with
    this loop. *)
Fixpoint sleep_loop (clock : list Z) (end_time sp : Z) : M system bool :=
  match clock with
  | [] => spin
  | now :: clock' =>
      if now <? end_time then
        switched <- thread_yield sp ;;
        if switched then ret false else sleep_loop clock' end_time sp
      else ret true
  end.

Definition thread_sleep (milliseconds start_time : Z) (clock : list Z) (sp : Z) : M system bool :=
  sleep_loop clock (u64 (start_time + u64 (milliseconds * 1000000))) sp.

Definition thread_wake (tid : Z) : M system Z := ret (-1).

(** ** Starting *)

(** [task] is the answer of [get_current_task_id], [tcb] that of [malloc]. *)
Definition thread_init (task tcb : Z) : M system unit :=
  modify (fun s => set_next_thread_id 1 (set_thread_count 0
    (set_table (replicate MAX_THREADS 0) (set_thread_lock 0 s)))) ;;;
  if (0 <=? task) && negb (tcb =? 0) then
    modify (fun s => set_tcbs (<[tcb := mk_thread 0 task (copy_name "main") THREAD_STATE_RUNNING THREAD_PRIORITY_NORMAL
      THREAD_FLAG_SYSTEM 0 0 zero_context 0 0 0 (Sync.mk_semaphore 0 0 1) 0 0]> (tcbs s)) s) ;;;
    s <- get ;;
    t <- deref (arr_set (table s) 0 tcb) ;;
    put (set_current_thread_id 0 (set_thread_count 1 (set_table t s)))
  else ret tt.

(** [wrapper] is the address of [thread_wrapper]. *)
Definition thread_initialize_context (wrapper a : Z) : M system unit :=
  t <- read_tcb a ;;
  let top := Z.land (u32 (stack t + stack_size t)) (u32 (Z.lnot 15)) in
  modify (fun s => set_words (<[u32 (top - 12) := wrapper]> (<[u32 (top - 8) := entry_point t]>
    (<[u32 (top - 4) := arg t]> (words s)))) s) ;;;
  upd_tcb a (set_context (mk_context (u32 (top - 12)) (u32 (top - 12)) wrapper 0x202 0 0 0 0 0 0)).

(** The first free slot of the table, -1 when there is none. *)
Fixpoint free_slot (l : list Z) (i : Z) : Z :=
  match l with
  | [] => -1
  | a :: l' => if a =? 0 then i else free_slot l' (i + 1)
  end.

Definition clamp_priority (p : Z) : Z :=
  if (p <? THREAD_PRIORITY_LOWEST) || (THREAD_PRIORITY_REALTIME <? p) then THREAD_PRIORITY_NORMAL else p.

(** [tcb] and [stk] are the answers of [malloc] for the control block and the stack. *)
Definition thread_create (wrapper entry ar size prio fl : Z) (nm : option string) (task tcb stk : Z) : M system Z :=
  if entry =? 0 then ret (-1)
  else
    let prio := clamp_priority prio in
    let size := if size =? 0 then DEFAULT_STACK_SIZE else size in
    let size := Z.land (u32 (size + 15)) (u32 (Z.lnot 15)) in
    lock ;;;
    s <- get ;;
    if Z.of_nat MAX_THREADS <=? thread_count s then unlock ;;; ret (-1)
    else
      let slot := free_slot (table s) 0 in
      if slot =? -1 then unlock ;;; ret (-1)
      else if tcb =? 0 then unlock ;;; ret (-1)
      else
        let tid := next_thread_id s in
        modify (set_next_thread_id (to_int (tid + 1))) ;;;
        let nm := match nm with
                  | Some n => copy_name n
                  | None => copy_name ("thread-" +:+ pretty tid)
                  end in
        modify (fun s => set_tcbs (<[tcb := mk_thread tid task nm THREAD_STATE_NEW prio fl entry ar zero_context 0 0 0
          (Sync.mk_semaphore 0 0 0) 0 0]> (tcbs s)) s) ;;;
        if stk =? 0 then
          modify (fun s => set_tcbs (delete tcb (tcbs s)) s) ;;; unlock ;;; ret (-1)
        else
          modify (fun s => set_stacks ({[stk]} ∪ stacks s) s) ;;;
          upd_tcb tcb (fun t => set_join_semaphore (Sync.mk_semaphore 0 0 1) (set_stack_size size (set_stack stk t))) ;;;
          thread_initialize_context wrapper tcb ;;;
          s <- get ;;
          t <- deref (arr_set (table s) slot tcb) ;;
          put (set_thread_count (thread_count s + 1) (set_table t s)) ;;;
          upd_tcb tcb (set_state THREAD_STATE_READY) ;;;
          thread_add_to_ready_list tcb ;;;
          unlock ;;;
          ret tid.

(** ** Ending *)

Fixpoint clear_slot (l : list Z) (a : Z) : list Z :=
  match l with
  | [] => []
  | b :: l' => if b =? a then 0 :: l' else b :: clear_slot l' a
  end.

(** [free] of a stack that is not allocated is a [Fault]. *)
Definition thread_clean_up (a : Z) : M system unit :=
  if a =? 0 then ret tt
  else
    thread_remove_from_ready_list a ;;;
    modify (fun s => set_table (clear_slot (table s) a) s) ;;;
    t <- read_tcb a ;;
    (if negb (stack t =? 0) then
       s <- get ;;
       if decide (stack t ∈ stacks s) then
         put (set_stacks (stacks s ∖ {[stack t]}) s) ;;;
         upd_tcb a (set_stack 0)
       else fault
     else ret tt) ;;;
    modify (fun s => set_thread_count (thread_count s - 1) (set_tcbs (delete a (tcbs s)) s)).

(** What other threads do while this one waits for a lock or a semaphore. *)
Context (others : nat -> system -> system) (fuel : nat).

Definition signal_join (a : Z) : M system unit := fun s =>
  match Sync.semaphore_signal others fuel (Some (join_place a)) 0 s with
  | Ret (_, s') => Ret (tt, s')
  | Spin => Spin
  | Fault => Fault
  end.

Definition wait_join (a : Z) : M system unit := fun s =>
  match Sync.semaphore_wait others fuel (Some (join_place a)) 0 s with
  | Ret (_, s') => Ret (tt, s')
  | Spin => Spin
  | Fault => Fault
  end.

(** The call ends with the switch; without one the processor halts for good. *)
Definition thread_exit (code sp : Z) : M system unit :=
  lock ;;;
  a <- thread_get_current ;;
  if a =? 0 then unlock
  else
    upd_tcb a (fun t => set_exit_code code (set_state THREAD_STATE_ZOMBIE t)) ;;;
    thread_remove_from_ready_list a ;;;
    signal_join a ;;;
    t <- read_tcb a ;;
    (if has_flag (flags t) THREAD_FLAG_DETACHED then thread_clean_up a else ret tt) ;;;
    unlock ;;;
    switched <- thread_scheduler sp ;;
    if switched : bool then ret tt else spin.

(** [run] is what the entry function of the thread does with its argument. *)
Definition thread_wrapper (run : Z -> Z -> M system unit) (sp : Z) : M system unit :=
  a <- thread_get_current ;;
  if a =? 0 then ret tt
  else t <- read_tcb a ;; run (entry_point t) (arg t) ;;; thread_exit 0 sp.

(** The answer, and what is stored through the pointer [exit_code] when it is not NULL. *)
Definition thread_join (tid : Z) (want : bool) : M system (Z * option Z) :=
  s <- get ;;
  if tid =? current_thread_id s then ret (-1, None)
  else
    a <- thread_get_by_id tid ;;
    if a =? 0 then ret (-1, None)
    else
      t <- read_tcb a ;;
      if has_flag (flags t) THREAD_FLAG_DETACHED then ret (-1, None)
      else
        (if negb (state t =? THREAD_STATE_ZOMBIE) && negb (state t =? THREAD_STATE_DEAD) then wait_join a else ret tt) ;;;
        lock ;;;
        code <- (if want then t <- read_tcb a ;; ret (Some (exit_code t)) else ret None) ;;
        thread_clean_up a ;;;
        unlock ;;;
        ret (0, code).

Definition thread_detach (tid : Z) : M system Z :=
  a <- thread_get_by_id tid ;;
  if a =? 0 then ret (-1)
  else
    lock ;;;
    upd_tcb a (fun t => set_flags (Z.lor (flags t) THREAD_FLAG_DETACHED) t) ;;;
    t <- read_tcb a ;;
    (if state t =? THREAD_STATE_ZOMBIE then thread_clean_up a else ret tt) ;;;
    unlock ;;;
    ret 0.

(** ** Blocking *)

Definition thread_block (sp : Z) : M system unit :=
  lock ;;;
  a <- thread_get_current ;;
  if a =? 0 then unlock
  else
    upd_tcb a (set_state THREAD_STATE_BLOCKED) ;;;
    thread_remove_from_ready_list a ;;;
    s <- get ;;
    upd_tcb a (set_next (blocked_head s)) ;;;
    (if negb (blocked_head s =? 0) then upd_tcb (blocked_head s) (set_prev a) else ret tt) ;;;
    upd_tcb a (set_prev 0) ;;;
    modify (set_blocked_head a) ;;;
    unlock ;;;
    _b <- thread_scheduler sp ;;
    ret tt.

Definition thread_unblock (tid : Z) : M system Z :=
  a <- thread_get_by_id tid ;;
  if a =? 0 then ret (-1)
  else
    lock ;;;
    t <- read_tcb a ;;
    if negb (state t =? THREAD_STATE_BLOCKED) then unlock ;;; ret (-1)
    else
      bypass_next a set_blocked_head ;;;
      t <- read_tcb a ;;
      (if negb (next t =? 0) then upd_tcb (next t) (set_prev (prev t)) else ret tt) ;;;
      upd_tcb a (set_state THREAD_STATE_READY) ;;;
      thread_add_to_ready_list a ;;;
      unlock ;;;
      ret 0.

(** ** Attributes *)

Definition thread_set_priority (tid prio : Z) : M system Z :=
  if (prio <? THREAD_PRIORITY_LOWEST) || (THREAD_PRIORITY_REALTIME <? prio) then ret (-1)
  else
    a <- thread_get_by_id tid ;;
    if a =? 0 then ret (-1)
    else lock ;;; upd_tcb a (set_priority prio) ;;; unlock ;;; ret 0.

Definition thread_get_priority (tid : Z) : M system Z :=
  a <- thread_get_by_id tid ;; if a =? 0 then ret (-1) else t <- read_tcb a ;; ret (priority t).

Definition thread_get_state (tid : Z) : M system Z :=
  a <- thread_get_by_id tid ;; if a =? 0 then ret (-1) else t <- read_tcb a ;; ret (state t).

Definition thread_get_name (tid : Z) : M system (option string) :=
  a <- thread_get_by_id tid ;; if a =? 0 then ret None else t <- read_tcb a ;; ret (Some (name t)).

Definition thread_set_name (tid : Z) (nm : option string) : M system Z :=
  match nm with
  | None => ret (-1)
  | Some n =>
      a <- thread_get_by_id tid ;;
      if a =? 0 then ret (-1)
      else lock ;;; upd_tcb a (set_name (copy_name n)) ;;; unlock ;;; ret 0
  end.

Definition thread_get_count : M system Z := gets thread_count.

Fixpoint count_task (l : list Z) (task n : Z) : M system Z :=
  match l with
  | [] => ret n
  | a :: l' =>
      if a =? 0 then count_task l' task n
      else t <- read_tcb a ;; count_task l' task (if task_id t =? task then n + 1 else n)
  end.

Definition thread_get_count_by_task (task : Z) : M system Z :=
  lock ;;;
  s <- get ;;
  n <- count_task (table s) task 0 ;;
  unlock ;;;
  ret n.

End Threads.

End Thread.
