(* ===== verification/ThreadInv.v ===== *)
(** * Threads: the invariant

    As long as no thread has ended and the main thread has not blocked, the table holds
    thread [i] in slot [i], every other thread than the main one is in exactly one of
    the two lists, both are well-formed doubly-linked lists, and only the current
    thread can be running. This file states that and shows that the operations on the
    lists and the scheduler keep it. *)

From Stdlib Require Import ZArith Lia String.
From stdpp Require Import base tactics option list gmap strings pretty.
From S2P Require Import Prelude Dll Sync Thread.

Set Default Goal Selector "!".
Local Open Scope Z_scope.
Local Open Scope kernel_scope.

Module ThreadInv.
Import Dll Thread.

(** The two halves of a control block: its links, and what the scheduler looks at. *)
Record attr : Type := mk_attr {
  a_id : Z;
  a_state : Z;
  a_priority : Z;
}.
Definition linkp (t : thread) : Z * Z := (prev t, next t).
Definition attrp (t : thread) : attr := mk_attr (id t) (state t) (priority t).
Definition links (s : system) : gmap Z (Z * Z) := linkp <$> tcbs s.
Definition attrs (s : system) : gmap Z attr := attrp <$> tcbs s.

Section Inv.
Context (MAX_TASKS : nat).
Abbreviation MAX := (MAX_THREADS MAX_TASKS).

Record lists (s : system) (R B : list Z) : Prop := {
  l_ready : fseg (links s) 0 R 0;
  l_head : ready_head s = hd0 R;
  l_tail : ready_tail s = last0 0 R;
  l_blocked : fseg (links s) 0 B 0;
  l_bhead : blocked_head s = hd0 B;
}.

(** What holds of thread [i] at address [a]. *)
Definition thread_ok (s : system) (B : list Z) (i : nat) (a : Z) : Prop :=
  exists st pr, attrs s !! a = Some (mk_attr (Z.of_nat i) st pr) /\ 0 <= pr <= THREAD_PRIORITY_REALTIME /\
    (a ∈ B -> st = THREAD_STATE_BLOCKED) /\
    (a ∉ B -> st = THREAD_STATE_READY \/ st = THREAD_STATE_RUNNING) /\
    (st = THREAD_STATE_RUNNING -> current_thread_id s = Z.of_nat i).

Record tabled (s : system) (T : list Z) : Prop := {
  t_lock : thread_lock s = 0;
  t_table : table s = T ++ replicate (MAX - length T) 0;
  t_room : (length T <= MAX)%nat;
  t_count : thread_count s = Z.of_nat (length T);
  t_next : next_thread_id s = Z.of_nat (length T);
  t_nodup : NoDup T;
  t_null : 0 ∉ T;
  t_current : 0 <= current_thread_id s < Z.of_nat (length T);
  t_switch : switches s = [] \/ current_thread_id s <> 0;
}.

Record inv (s : system) (main : Z) (R B : list Z) : Prop := {
  i_lists : lists s R B;
  i_tabled : exists rest, tabled s (main :: rest) /\ R ++ B ≡ₚ rest /\
    forall i a, (main :: rest) !! i = Some a -> thread_ok s B i a;
}.

(** ** Steps *)

Lemma wp_read_tcb a t Q s : tcbs s !! a = Some t -> wp (read_tcb a) Q s <-> Q t s.
Proof.
  intros Ht. unfold read_tcb. wp_steps. rewrite wp_deref, Ht.
  split; [by intros (? & [= <-] & ?)|]. eauto.
Qed.

Lemma wp_upd_tcb a f t Q s :
  tcbs s !! a = Some t -> wp (upd_tcb a f) Q s <-> Q tt (set_tcbs (alter f a (tcbs s)) s).
Proof.
  intros Ht. unfold upd_tcb. wp_steps. rewrite wp_deref, Ht.
  assert (E : alter f a (tcbs s) = <[a := f t]> (tcbs s)).
  { apply map_eq. intros x. destruct (decide (a = x)) as [<-|Hne].
    - by rewrite lookup_alter_eq, lookup_insert_eq, Ht.
    - by rewrite lookup_alter_ne, lookup_insert_ne by done. }
  rewrite E. split; [by intros (? & [= <-] & ?)|]. eauto.
Qed.

Lemma thr_wp_lock Q s : thread_lock s = 0 -> wp lock Q s <-> Q tt (set_thread_lock 1 s).
Proof. intros H. unfold lock, Sync.acquire, wp, lock_word. cbn. by rewrite H. Qed.

Lemma thr_wp_unlock Q s : wp unlock Q s <-> Q tt (set_thread_lock 0 s).
Proof. done. Qed.

Lemma fseg_tcb s p l n a : fseg (links s) p l n -> a ∈ l -> is_Some (tcbs s !! a).
Proof.
  revert p. induction l as [|b l IH]; intros p; [by intros _ ?%not_elem_of_nil|].
  intros [H1 H2] [->|Ha]%elem_of_cons; [|by eapply IH].
  unfold links in H1. rewrite lookup_fmap in H1. destruct (tcbs s !! b); [eauto|done].
Qed.

Lemma links_tcb s a p n : links s !! a = Some (p, n) ->
  exists t, tcbs s !! a = Some t /\ prev t = p /\ next t = n.
Proof.
  unfold links. rewrite lookup_fmap. destruct (tcbs s !! a) as [t|]; [|done]. intros [= <- <-]. by exists t.
Qed.

(** *** Choosing the next thread *)

(** The best ready thread of a list: the first of the highest priority. *)
Definition is_ready (s : system) (a p : Z) : Prop :=
  exists i, attrs s !! a = Some (mk_attr i THREAD_STATE_READY p).

Definition best_of (s : system) (l : list Z) (r bp : Z) : Prop :=
  exists l1 l2 p, l = l1 ++ r :: l2 /\ is_ready s r p /\ bp < p /\
    (forall x q, x ∈ l1 -> is_ready s x q -> q < p) /\ (forall x q, x ∈ l2 -> is_ready s x q -> q <= p).

Lemma best_from_spec s l : forall p fuel best bp,
  fseg (links s) p l 0 -> 0 ∉ l -> (length l <= fuel)%nat ->
  wp (best_from fuel (hd0 l) best bp)
     (fun r s' => s' = s /\ ((r = best /\ forall x q, x ∈ l -> is_ready s x q -> q <= bp) \/ best_of s l r bp)) s.
Proof.
  induction l as [|a l IH]; intros p fuel best bp Hs H0 Hf; cbn [hd0 hd].
  - destruct fuel; cbn; wp_steps; (split; [done|]); left; (split; [done|]); by intros x q ?%not_elem_of_nil.
  - destruct Hs as [Ha Hs]. destruct (links_tcb _ _ _ _ Ha) as (t & Ht & _ & Hn).
    destruct fuel as [|fuel]; [cbn in Hf; lia|]. cbn [best_from].
    destruct (Z.eqb_spec a 0) as [->|_]; [set_solver|]. rewrite wp_bind, (wp_read_tcb _ t), Hn by done.
    change (hd 0 l) with (hd0 l). assert (Hl : (length l <= fuel)%nat) by (cbn in Hf; lia).
    assert (Hat : attrs s !! a = Some (attrp t)) by (unfold attrs; by rewrite lookup_fmap, Ht).
    assert (H0' : 0 ∉ l) by set_solver.
    destruct (Z.eqb_spec (state t) THREAD_STATE_READY) as [Hst|Hst]; cbn [andb].
    + assert (Hrdy : is_ready s a (priority t)) by (exists (id t); rewrite Hat; unfold attrp; by rewrite Hst).
      assert (Huniq : forall q, is_ready s a q -> q = priority t) by (intros q (i & E); rewrite Hat in E; by injection E).
      destruct (Z.ltb_spec bp (priority t)) as [Hb|Hb].
      * eapply wp_mono; [by apply (IH a)|]. intros r s' [-> [[-> Hr]|(l1 & l2 & q & -> & Hq & Hlt & H1 & H2)]]; (split; [done|]).
        -- right. exists [], l, (priority t). split_and!; try done. by intros x q ?%not_elem_of_nil.
        -- right. exists (a :: l1), l2, q. split_and!; try done; [lia|].
           intros x q' [->|Hx]%elem_of_cons Hrx; [apply Huniq in Hrx; lia|by eapply H1].
      * eapply wp_mono; [by apply (IH a)|]. intros r s' [-> [[-> Hr]|(l1 & l2 & q & -> & Hq & Hlt & H1 & H2)]]; (split; [done|]).
        -- left. split; [done|]. intros x q [->|Hx]%elem_of_cons Hrx; [apply Huniq in Hrx; lia|by eapply Hr].
        -- right. exists (a :: l1), l2, q. split_and!; try done.
           intros x q' [->|Hx]%elem_of_cons Hrx; [apply Huniq in Hrx; lia|by eapply H1].
    + assert (Hno : forall q, ~ is_ready s a q).
      { intros q (i & E). rewrite Hat in E. injection E. intros. congruence. }
      eapply wp_mono; [by apply (IH a)|]. intros r s' [-> [[-> Hr]|(l1 & l2 & q & -> & Hq & Hlt & H1 & H2)]]; (split; [done|]).
      * left. split; [done|]. intros x q [->|Hx]%elem_of_cons Hrx; [by edestruct Hno|by eapply Hr].
      * right. exists (a :: l1), l2, q. split_and!; try done.
        intros x q' [->|Hx]%elem_of_cons Hrx; [by edestruct Hno|by eapply H1].
Qed.

Lemma nodup_small s (l : list Z) : NoDup l -> (forall a, a ∈ l -> is_Some (tcbs s !! a)) -> (length l <= map_size (tcbs s))%nat.
Proof.
  intros N Hl. assert (Hsub : (list_to_set l : gset Z) ⊆ dom (tcbs s)).
  { intros a Ha. apply elem_of_list_to_set in Ha. apply elem_of_dom. by apply Hl. }
  apply subseteq_size in Hsub. by rewrite size_list_to_set, size_dom in Hsub.
Qed.

(** *** Facts from the invariant *)

Section Facts.
Context (s : system) (main : Z) (R B : list Z) (Hinv : inv s main R B).

Lemma inv_members : NoDup (R ++ B) /\ main ∉ R ++ B /\ 0 ∉ R ++ B /\ main <> 0.
Proof.
  destruct (i_tabled _ _ _ _ Hinv) as (rest & Ht & Hp & _). pose proof (t_nodup _ _ Ht) as [H1 H2]%NoDup_cons.
  pose proof (t_null _ _ Ht) as H0. rewrite !Hp. rewrite not_elem_of_cons in H0. split_and!; [done|done|tauto|].
  intros ->. tauto.
Qed.

Lemma inv_ready_in a : a ∈ R -> exists i, (i <> 0)%nat /\ Z.of_nat i < thread_count s /\ thread_ok s B i a.
Proof.
  intros Ha. destruct (i_tabled _ _ _ _ Hinv) as (rest & Ht & Hp & Hok).
  assert (Hin : a ∈ rest) by (rewrite <- Hp; set_solver). apply list_elem_of_lookup in Hin as [j Hj].
  exists (S j). split_and!; [done| |by apply Hok]. rewrite (t_count _ _ Ht). apply lookup_lt_Some in Hj. cbn in *. lia.
Qed.

Lemma inv_current : exists i c, current_thread_id s = Z.of_nat i /\ arr_get (table s) (current_thread_id s) = Some c /\
  thread_ok s B i c /\ c <> 0 /\ (i < MAX)%nat /\ (c ∈ R ++ B \/ (c = main /\ i = 0%nat)).
Proof.
  destruct (i_tabled _ _ _ _ Hinv) as (rest & Ht & Hp & Hok). pose proof (t_current _ _ Ht) as Hc.
  destruct (lookup_lt_is_Some_2 (main :: rest) (Z.to_nat (current_thread_id s))) as [c Hl]; [lia|].
  exists (Z.to_nat (current_thread_id s)), c. pose proof (t_room _ _ Ht). pose proof (lookup_lt_Some _ _ _ Hl) as Hlt.
  split_and!; [lia| |by apply Hok| |lia|].
  - rewrite <- (Z2Nat.id (current_thread_id s)), arr_get_nat by lia. rewrite (t_table _ _ Ht). by apply lookup_app_l_Some.
  - intros ->. apply (t_null _ _ Ht). by eapply list_elem_of_lookup_2.
  - destruct (Z.to_nat (current_thread_id s)) as [|j] eqn:Ej; cbn in Hl.
    + right. by injection Hl as ->.
    + left. rewrite Hp. by eapply list_elem_of_lookup_2.
Qed.

Lemma thread_ok_tcb i a : thread_ok s B i a -> exists t, tcbs s !! a = Some t /\ id t = Z.of_nat i.
Proof.
  intros (st & pr & Ha & _). unfold attrs in Ha. rewrite lookup_fmap in Ha. destruct (tcbs s !! a) as [t|]; [|done].
  injection Ha as H1 _ _. eauto.
Qed.

Lemma wp_get_current Q : (forall i c, thread_ok s B i c -> current_thread_id s = Z.of_nat i -> table s !! i = Some c -> c <> 0 ->
  (c ∈ R ++ B \/ (c = main /\ i = 0%nat)) -> Q c (set_thread_lock 1 s)) ->
  wp (thread_get_current MAX_TASKS) Q (set_thread_lock 1 s).
Proof.
  intros HQ. destruct inv_current as (i & c & Hi & Hc & Hok & Hnz & Hlt & Hin). unfold thread_get_current. wp_steps.
  cbn [current_thread_id set_thread_lock table]. rewrite Hi.
  destruct (Z.ltb_spec (Z.of_nat i) 0); [lia|]. destruct (Z.leb_spec (Z.of_nat MAX) (Z.of_nat i)); [lia|]. cbn [orb].
  rewrite wp_deref. exists c. rewrite <- Hi. split; [done|]. rewrite Hi, arr_get_nat in Hc. by eapply HQ.
Qed.

Lemma wp_next_to_run s' (Q : Z -> system -> Prop) :
  tcbs s' = tcbs s -> ready_head s' = ready_head s ->
  ((forall x q, x ∈ R -> ~ is_ready s x q) -> Q 0 s') -> (forall r, best_of s R r (-1) -> Q r s') ->
  wp thread_get_next_to_run Q s'.
Proof.
  intros Et Eh H0 Hr. destruct inv_members as (N & _ & Hz & _). apply NoDup_app in N as (N & _ & _).
  assert (Hs : fseg (links s') 0 R 0) by (unfold links; rewrite Et; apply (i_lists _ _ _ _ Hinv)).
  assert (Ea : attrs s' = attrs s) by (unfold attrs; by rewrite Et).
  unfold thread_get_next_to_run. wp_steps. rewrite Eh, (l_head _ _ _ (i_lists _ _ _ _ Hinv)).
  eapply wp_mono; [apply (best_from_spec s' R 0); [done|set_solver|]|].
  { assert (Hsm : (length R <= map_size (tcbs s'))%nat) by (apply nodup_small; [done|]; intros a Ha; by eapply fseg_tcb). lia. }
  unfold best_of, is_ready in *. rewrite Ea. intros r s1 [-> [[-> Hno]|Hb]]; [|by apply Hr].
  apply H0. intros x q Hx Hq. pose proof (Hno x q Hx Hq). destruct (inv_ready_in x Hx) as (i & _ & _ & st & pr & Hat & Hpr & _).
  destruct Hq as (j & Hq). rewrite Hat in Hq. injection Hq. intros. lia.
Qed.

End Facts.

(** *** The scheduler *)

Definition running (x : attr) : attr := mk_attr (a_id x) THREAD_STATE_RUNNING (a_priority x).
Definition settled (x : attr) : attr :=
  if a_state x =? THREAD_STATE_RUNNING then mk_attr (a_id x) THREAD_STATE_READY (a_priority x) else x.

(** The variables that a change of control blocks leaves alone. *)
Record framed (s s' : system) : Prop := {
  f_table : table s' = table s;
  f_count : thread_count s' = thread_count s;
  f_next : next_thread_id s' = next_thread_id s;
  f_head : ready_head s' = ready_head s;
  f_tail : ready_tail s' = ready_tail s;
  f_bhead : blocked_head s' = blocked_head s;
}.

Lemma inv_resched s s' main R B i c r j :
  inv s main R B -> current_thread_id s = Z.of_nat i -> table s !! i = Some c ->
  r ∈ R -> thread_ok s B j r -> j <> 0%nat -> Z.of_nat j < thread_count s ->
  framed s s' -> thread_lock s' = 0 -> current_thread_id s' = Z.of_nat j -> links s' = links s ->
  attrs s' = alter running r (alter settled c (attrs s)) ->
  inv s' main R B.
Proof.
  intros Hinv Hi Htc Hr Hj Hj0 Hlt [Et Ec En Eh Etl Eb] El Ecur Elk Eat.
  destruct (inv_members _ _ _ _ Hinv) as (N & _).
  destruct Hinv as [[H1 H2 H3 H4 H5] (rest & [] & Hp & Hok)].
  split; [split; congruence|]. exists rest. split_and!; [split; try congruence; rewrite Ecur; [split; [lia|congruence]|right; lia]|done|].
  intros k a Ha. destruct (Hok k a Ha) as (st & pr & Hat & Hpr & HB & HnB & Hrun). unfold thread_ok. rewrite Eat.
  destruct (decide (a = r)) as [->|Har].
  - destruct Hj as (st' & pr' & Hat' & _). rewrite Hat in Hat'. injection Hat' as Hkj <- <-.
    assert (HrB : r ∉ B). { apply NoDup_app in N as (_ & N & _). by apply N. }
    exists THREAD_STATE_RUNNING, pr. rewrite lookup_alter_eq.
    split; [|split; [done|split; [by intros|split; [by right|intros _; by rewrite Ecur, Hkj]]]].
    destruct (decide (r = c)) as [->|Hrc]; [rewrite lookup_alter_eq|rewrite lookup_alter_ne by done]; rewrite Hat; cbn; [|done].
    f_equal. unfold running, settled. cbn. by destruct (st =? THREAD_STATE_RUNNING).
  - rewrite lookup_alter_ne by done. destruct (decide (a = c)) as [->|Hac].
    + rewrite lookup_alter_eq, Hat. cbn. unfold settled. cbn. destruct (Z.eqb_spec st THREAD_STATE_RUNNING) as [Hs|Hs].
      * exists THREAD_STATE_READY, pr. split; [done|split; [done|split; [|split; [by left|done]]]].
        intros HcB. by rewrite (HB HcB) in Hs.
      * exists st, pr. do 4 (split; [done|]). done.
    + rewrite lookup_alter_ne by done. exists st, pr. do 4 (split; [done|]).
      intros Hs. exfalso. apply Hac. assert (k = i) as -> by (apply Nat2Z.inj; by rewrite <- Hi, Hrun).
      rewrite t_table0, lookup_app_l in Htc by (by eapply lookup_lt_Some). congruence.
Qed.

(** The outcome of a call of the scheduler. *)
Definition sched_post (s : system) (main : Z) (R B : list Z) (b : bool) (s' : system) : Prop :=
  (b = false /\ s' = s /\ forall x q, x ∈ R -> ~ is_ready s x q) \/
  (b = true /\ inv s' main R B /\ links s' = links s /\ exists r j c, best_of s R r (-1) /\
     thread_ok s B j r /\ current_thread_id s' = Z.of_nat j /\ head (switches s') = Some (c, r) /\
     exists p, attrs s' !! r = Some (mk_attr (Z.of_nat j) THREAD_STATE_RUNNING p)).

Lemma relock s : thread_lock s = 0 -> set_thread_lock 0 (set_thread_lock 1 s) = s.
Proof. destruct s. cbn. by intros ->. Qed.

(** The end of [thread_scheduler], when the current thread at [c] is settled. *)
Lemma sched_tail s main R B sp i c r j m :
  inv s main R B -> current_thread_id s = Z.of_nat i -> table s !! i = Some c -> is_Some (m !! c) ->
  best_of s R r (-1) -> r ∈ R -> thread_ok s B j r -> j <> 0%nat -> Z.of_nat j < thread_count s ->
  attrp <$> m = alter settled c (attrs s) -> linkp <$> m = links s ->
  wp (upd_tcb r (set_state THREAD_STATE_RUNNING) ;;;
      n <- read_tcb r ;; modify (set_current_thread_id (id n)) ;;; unlock ;;;
      upd_tcb c (fun t => set_context (set_esp sp (context t)) t) ;;;
      modify (fun s => set_switches ((c, r) :: switches s) s) ;;; ret true)
    (sched_post s main R B) (set_tcbs m (set_thread_lock 1 s)).
Proof.
  intros Hinv Hi Htc Hmc Hb Hr Hj Hj0 Hlt Ham Hlm.
  assert (Hmr : exists u, m !! r = Some u /\ id u = Z.of_nat j).
  { assert (Hat : (attrp <$> m) !! r = (alter settled c (attrs s)) !! r) by (by rewrite Ham). rewrite lookup_fmap in Hat.
    destruct Hj as (st & pr & Ha & _). destruct (decide (c = r)) as [->|Hne].
    - rewrite lookup_alter_eq, Ha in Hat. destruct (m !! r) as [u|]; [|done]. exists u. split; [done|].
      apply (inj Some) in Hat. unfold attrp, settled in Hat. cbn in Hat. by destruct (st =? THREAD_STATE_RUNNING); injection Hat.
    - rewrite lookup_alter_ne, Ha in Hat by done. destruct (m !! r) as [u|]; [|done]. exists u. split; [done|].
      by injection Hat. }
  destruct Hmr as (u & Hu & Eid). destruct Hmc as [t Ht].
  rewrite wp_bind, (wp_upd_tcb _ _ u), wp_bind by done. cbn [tcbs set_tcbs].
  rewrite (wp_read_tcb _ (set_state THREAD_STATE_RUNNING u)) by (cbn; by rewrite lookup_alter_eq, Hu).
  rewrite wp_bind, wp_modify, wp_bind, thr_wp_unlock, wp_bind.
  assert (Hc : exists t', alter (set_state THREAD_STATE_RUNNING) r m !! c = Some t') by (apply lookup_alter_is_Some; eauto).
  destruct Hc as [t' Ht']. rewrite (wp_upd_tcb _ _ t') by done. wp_steps. right. split; [done|].
  match goal with |- inv ?s' _ _ _ /\ _ => assert (Hlk : links s' = links s) end.
  { unfold links. cbn. rewrite !fmap_alter_same by done. exact Hlm. }
  match goal with |- inv ?s' _ _ _ /\ _ => assert (Hat : attrs s' = alter running r (attrp <$> m)) end.
  { unfold attrs at 1. cbn [tcbs set_tcbs set_switches set_thread_lock set_current_thread_id].
    rewrite fmap_alter_same by done. by rewrite (fmap_alter_as attrp _ running) by done. }
  split; [|split; [exact Hlk|exists r, j, c; do 4 (split; [done|]); exists (priority u)]].
  - eapply (inv_resched s _ main R B i c r j); try done. by rewrite Hat, Ham.
  - rewrite Hat, lookup_alter_eq, lookup_fmap, Hu, <- Eid. done.
Qed.

Lemma scheduler_spec s main R B sp :
  inv s main R B -> wp (thread_scheduler MAX_TASKS sp) (sched_post s main R B) s.
Proof.
  intros Hinv. assert (Hl0 : thread_lock s = 0) by (destruct (i_tabled _ _ _ _ Hinv) as (? & [] & _); done).
  unfold thread_scheduler. rewrite wp_bind, thr_wp_lock, wp_bind by done.
  eapply wp_get_current; [done|]. intros i c Hc Hi Htc Hnz Hin. rewrite wp_bind.
  eapply (wp_next_to_run _ _ _ _ Hinv); [done|done|..].
  { intros Hno. cbn [Z.eqb]. rewrite wp_bind, thr_wp_unlock, relock by done. apply wp_ret. left. done. }
  intros r Hbest. pose proof Hbest as (l1 & l2 & p & ER & _). assert (Hr : r ∈ R) by (rewrite ER; set_solver).
  destruct (inv_members _ _ _ _ Hinv) as (_ & _ & H0 & _).
  destruct (Z.eqb_spec r 0) as [->|_]; [set_solver|].
  destruct (inv_ready_in _ _ _ _ Hinv r Hr) as (j & Hj0 & Hlt & Hj).
  destruct (thread_ok_tcb _ _ _ _ Hc) as (t & Ht & _).
  destruct (Z.eqb_spec c 0) as [|_]; [done|]. cbn [negb]. rewrite wp_bind, wp_bind, (wp_read_tcb _ t) by done.
  assert (Ha : attrs s !! c = Some (attrp t)) by (unfold attrs; by rewrite lookup_fmap, Ht).
  destruct (Z.eqb_spec (state t) THREAD_STATE_RUNNING) as [Hs|Hs].
  - rewrite (wp_upd_tcb _ _ t) by done. eapply sched_tail; try done; cbn [tcbs set_thread_lock].
    + apply lookup_alter_is_Some. eauto.
    + apply map_eq. intros x. destruct (decide (c = x)) as [<-|Hne].
      * rewrite lookup_fmap, !lookup_alter_eq, Ha, Ht. cbn. unfold settled. cbn. by rewrite Hs.
      * rewrite lookup_fmap, !lookup_alter_ne by done. unfold attrs. by rewrite lookup_fmap.
    + by rewrite fmap_alter_same.
  - apply wp_ret. replace (set_thread_lock 1 s) with (set_tcbs (tcbs s) (set_thread_lock 1 s)) by (by destruct s).
    eapply sched_tail; try done. apply map_eq. intros x. destruct (decide (c = x)) as [<-|Hne].
    + rewrite lookup_fmap, lookup_alter_eq, Ha, Ht. cbn. unfold settled. cbn.
      by destruct (Z.eqb_spec (state t) THREAD_STATE_RUNNING).
    + rewrite lookup_alter_ne by done. done.
Qed.

(** *** Taking a thread out of a list *)

Lemma wp_bypass_next s a l1 l2 (seth : Z -> system -> system) (Q : unit -> system -> Prop) :
  links s !! a = Some (last0 0 l1, hd0 l2) -> 0 ∉ l1 -> (forall x, x ∈ l1 -> is_Some (tcbs s !! x)) ->
  Q tt (match last l1 with
        | None => seth (hd0 l2) s
        | Some x => set_tcbs (alter (set_next (hd0 l2)) x (tcbs s)) s
        end) ->
  wp (bypass_next a seth) Q s.
Proof.
  intros Ha H0 Hl HQ. destruct (links_tcb _ _ _ _ Ha) as (t & Ht & Hp & Hn).
  unfold bypass_next. rewrite wp_bind, (wp_read_tcb _ t), Hp, Hn by done. unfold last0 in *.
  destruct (last l1) as [x|] eqn:El.
  - apply last_Some_elem_of in El. destruct (Hl x El) as [u Hu].
    destruct (Z.eqb_spec x 0) as [->|_]; [done|]. cbn [negb]. by rewrite (wp_upd_tcb _ _ u).
  - done.
Qed.

(** The other half, followed by [K]; at the end of the list it does [E]. *)
Lemma wp_bypass_prev s a l1 l2 (E : Z -> M system unit) {A} (K : M system A) (Q : A -> system -> Prop) :
  links s !! a = Some (last0 0 l1, hd0 l2) -> 0 ∉ l2 -> (forall x, x ∈ l2 -> is_Some (tcbs s !! x)) ->
  match l2 with
  | [] => wp (E (last0 0 l1)) (fun _ => wp K Q) s
  | y :: _ => wp K Q (set_tcbs (alter (set_prev (last0 0 l1)) y (tcbs s)) s)
  end ->
  wp (t <- read_tcb a ;; (if negb (next t =? 0) then upd_tcb (next t) (set_prev (prev t)) else E (prev t)) ;;; K) Q s.
Proof.
  intros Ha H0 Hl HQ. destruct (links_tcb _ _ _ _ Ha) as (t & Ht & Hp & Hn).
  rewrite wp_bind, (wp_read_tcb _ t), Hp, Hn, wp_bind by done.
  destruct l2 as [|y l2]; cbn [hd0 hd].
  - exact HQ.
  - destruct (Hl y) as [u Hu]; [by left|]. destruct (Z.eqb_spec y 0) as [->|_]; [set_solver|].
    cbn [negb]. by rewrite (wp_upd_tcb _ _ u).
Qed.

(** The control blocks after both halves. *)
Definition bypassed (m : gmap Z thread) (l1 l2 : list Z) : gmap Z thread :=
  let m1 := match last l1 with None => m | Some x => alter (set_next (hd0 l2)) x m end in
  match l2 with [] => m1 | y :: _ => alter (set_prev (last0 0 l1)) y m1 end.

Lemma links_set_next x a (m : gmap Z thread) : linkp <$> alter (set_next x) a m = alter (set_snd x) a (linkp <$> m).
Proof. by apply fmap_alter_as. Qed.
Lemma links_set_prev x a (m : gmap Z thread) : linkp <$> alter (set_prev x) a m = alter (set_fst x) a (linkp <$> m).
Proof. by apply fmap_alter_as. Qed.

Lemma bypassed_links m l1 l2 : linkp <$> bypassed m l1 l2 = bypass (linkp <$> m) l1 l2.
Proof.
  unfold bypassed, bypass. cbv zeta. destruct (last l1), l2; by rewrite ?links_set_prev, ?links_set_next.
Qed.

Lemma bypassed_attrs m l1 l2 : attrp <$> bypassed m l1 l2 = attrp <$> m.
Proof. unfold bypassed. cbv zeta. destruct (last l1), l2; rewrite ?fmap_alter_same by done; done. Qed.

Lemma bypassed_some m l1 l2 x : is_Some (bypassed m l1 l2 !! x) <-> is_Some (m !! x).
Proof. unfold bypassed. cbv zeta. destruct (last l1), l2; rewrite ?lookup_alter_is_Some; done. Qed.

Lemma fseg_around lk l1 a l2 : fseg lk 0 (l1 ++ a :: l2) 0 ->
  lk !! a = Some (last0 0 l1, hd0 l2) /\ fseg lk 0 l1 a /\ fseg lk a l2 0.
Proof. by intros (H1 & H2 & H3)%fseg_app. Qed.

Lemma bypass_self lk l1 a l2 : a ∉ l1 -> a ∉ l2 -> bypass lk l1 l2 !! a = lk !! a.
Proof.
  intros H1 H2. unfold bypass. cbv zeta.
  assert (E : match last l1 with None => lk | Some x => alter (set_snd (hd0 l2)) x lk end !! a = lk !! a).
  { destruct (last l1) as [x|] eqn:El; [|done]. apply last_Some_elem_of in El. apply lookup_alter_ne. by intros ->. }
  destruct l2; [done|]. rewrite lookup_alter_ne by set_solver. done.
Qed.

Lemma remove_ready_spec s l1 a l2 (Q : unit -> system -> Prop) :
  fseg (links s) 0 (l1 ++ a :: l2) 0 -> NoDup (l1 ++ a :: l2) -> 0 ∉ l1 ++ a :: l2 ->
  ready_head s = hd0 (l1 ++ a :: l2) -> ready_tail s = last0 0 (l1 ++ a :: l2) ->
  (forall m, linkp <$> m = unlink (links s) l1 a l2 -> attrp <$> m = attrs s ->
     Q tt (set_ready_tail (last0 0 (l1 ++ l2)) (set_ready_head (hd0 (l1 ++ l2)) (set_tcbs m s)))) ->
  wp (thread_remove_from_ready_list a) Q s.
Proof.
  intros Hs Hnd H0 Hh Ht HQ. destruct (fseg_around _ _ _ _ Hs) as (Ha & Hs1 & Hs2).
  apply NoDup_app in Hnd as (N1 & N12 & [N2 N3]%NoDup_cons).
  assert (Ha1 : a ∉ l1) by (intros Hin%N12; set_solver).
  assert (Hl1 : forall x, x ∈ l1 -> is_Some (tcbs s !! x)) by (intros; by eapply fseg_tcb; [exact Hs1|]).
  assert (Hl2 : forall x, x ∈ l2 -> is_Some (tcbs s !! x)) by (intros; by eapply fseg_tcb; [exact Hs2|]).
  destruct (links_tcb _ _ _ _ Ha) as (t & Hta & _).
  unfold thread_remove_from_ready_list. destruct (Z.eqb_spec a 0) as [->|_]; [set_solver|].
  rewrite wp_bind. eapply (wp_bypass_next s a l1 l2); [done|set_solver|done|].
  set (m1 := match last l1 with None => tcbs s | Some x => alter (set_next (hd0 l2)) x (tcbs s) end).
  set (s1 := set_ready_head (hd0 (l1 ++ l2)) (set_tcbs m1 s)).
  match goal with |- wp _ _ ?x => replace x with s1 end.
  2: { subst s1 m1. destruct l1 as [|x l1]; [by destruct s|].
       destruct (last_is_Some (x :: l1)) as [_ [z ->]]; [done|]. destruct s. cbn in *. by rewrite Hh. }
  assert (Ha1' : links s1 !! a = Some (last0 0 l1, hd0 l2)).
  { unfold links, s1. cbn. unfold m1. destruct (last l1) as [x|] eqn:El; [|exact Ha].
    rewrite lookup_fmap, lookup_alter_ne, <- lookup_fmap; [exact Ha|]. apply last_Some_elem_of in El. by intros ->. }
  assert (Hsm : forall x, is_Some (tcbs s !! x) -> is_Some (tcbs s1 !! x)).
  { intros x Hx. unfold s1. cbn. unfold m1. destruct (last l1); [by apply lookup_alter_is_Some|done]. }
  eapply (wp_bypass_prev s1 a l1 l2 (fun p => modify (set_ready_tail p))); [done|set_solver|by eauto|].
  assert (Hend : wp (upd_tcb a (fun t => set_prev 0 (set_next 0 t))) Q
    (set_ready_tail (last0 0 (l1 ++ l2)) (set_ready_head (hd0 (l1 ++ l2)) (set_tcbs (bypassed (tcbs s) l1 l2) s)))).
  { assert (Hba : is_Some (bypassed (tcbs s) l1 l2 !! a)) by (apply bypassed_some; eauto). destruct Hba as [u Hu].
    rewrite (wp_upd_tcb _ _ u) by done.
    change (Q tt (set_ready_tail (last0 0 (l1 ++ l2)) (set_ready_head (hd0 (l1 ++ l2))
      (set_tcbs (alter (fun t => set_prev 0 (set_next 0 t)) a (bypassed (tcbs s) l1 l2)) s)))). apply HQ.
    - rewrite (fmap_alter_as linkp _ (fun _ => (0, 0))), bypassed_links by done. rewrite unlink_bypass.
      apply map_eq. intros x. destruct (decide (a = x)) as [<-|]; [|by rewrite lookup_alter_ne, lookup_insert_ne].
      rewrite lookup_alter_eq, lookup_insert_eq, bypass_self by done. unfold links in Ha. by rewrite Ha.
    - by rewrite fmap_alter_same, bypassed_attrs. }
  destruct l2 as [|y l2].
  - rewrite wp_modify. unfold s1, bypassed in *. rewrite app_nil_r in *. exact Hend.
  - assert (Etl : last0 0 (l1 ++ y :: l2) = ready_tail s).
    { rewrite Ht. unfold last0. rewrite !last_app. cbn [last]. by destruct l2. }
    rewrite Etl in Hend. unfold s1. destruct s. exact Hend.
Qed.

(** *** Putting a thread into a list *)

Lemma add_ready_spec s R a (Q : unit -> system -> Prop) :
  fseg (links s) 0 R 0 -> a ∉ R -> 0 ∉ R -> a <> 0 -> is_Some (tcbs s !! a) ->
  ready_head s = hd0 R -> ready_tail s = last0 0 R ->
  (forall m, linkp <$> m = append (links s) R a -> attrp <$> m = attrs s ->
     Q tt (set_ready_tail a (set_ready_head (hd0 (R ++ [a])) (set_tcbs m s)))) ->
  wp (thread_add_to_ready_list a) Q s.
Proof.
  intros Hs Ha H0 Hnz [t Ht] Hh Htl HQ. unfold thread_add_to_ready_list.
  destruct (Z.eqb_spec a 0) as [|_]; [done|]. rewrite wp_bind, wp_get, wp_bind, (wp_upd_tcb _ _ t), wp_bind by done.
  set (m1 := alter (fun t => set_prev (ready_tail s) (set_next 0 t)) a (tcbs s)).
  assert (Hm1 : linkp <$> m1 = <[a := (last0 0 R, 0)]> (links s)).
  { unfold m1. rewrite (fmap_alter_as linkp _ (fun _ => (last0 0 R, 0))) by (intros; unfold linkp; cbn; by rewrite Htl).
    apply map_eq. intros x. destruct (decide (a = x)) as [<-|]; [|by rewrite lookup_alter_ne, lookup_insert_ne].
    by rewrite lookup_alter_eq, lookup_insert_eq, lookup_fmap, Ht. }
  assert (Ha1 : attrp <$> m1 = attrs s) by (unfold m1; by rewrite fmap_alter_same).
  unfold append, last0 in *. rewrite Htl. destruct (last R) as [x|] eqn:El.
  - apply last_Some_elem_of in El as Hx. destruct (Z.eqb_spec x 0) as [->|_]; [done|]. cbn [negb].
    assert (Hxs : is_Some (m1 !! x)).
    { unfold m1. rewrite lookup_alter_ne by (by intros ->). by eapply fseg_tcb. }
    destruct Hxs as [u Hu]. rewrite (wp_upd_tcb _ _ u), wp_modify by done.
    assert (Eh : ready_head s = hd0 (R ++ [a])) by (rewrite Hh; by destruct R).
    specialize (HQ (alter (set_next a) x m1)). rewrite <- Eh in HQ.
    replace (set_ready_head (ready_head s) (set_tcbs (alter (set_next a) x m1) s)) with (set_tcbs (alter (set_next a) x m1) s)
      in HQ by (by destruct s).
    apply HQ; [by rewrite links_set_next, Hm1|by rewrite fmap_alter_same].
  - apply last_None in El as ->. cbn [Z.eqb negb]. rewrite !wp_modify. by apply (HQ m1).
Qed.

(** *** Moving a thread between the lists *)

Definition with_state (st : Z) (x : attr) : attr := mk_attr (a_id x) st (a_priority x).

Lemma inv_move s s' main R B R' B' a st :
  inv s main R B -> lists s' R' B' -> R' ++ B' ≡ₚ R ++ B -> a ∈ R ++ B ->
  (forall x, x <> a -> x ∈ B' <-> x ∈ B) ->
  (a ∈ B' -> st = THREAD_STATE_BLOCKED) -> (a ∉ B' -> st = THREAD_STATE_READY) ->
  table s' = table s -> thread_count s' = thread_count s -> next_thread_id s' = next_thread_id s ->
  thread_lock s' = 0 -> current_thread_id s' = current_thread_id s -> switches s' = switches s ->
  attrs s' = alter (with_state st) a (attrs s) ->
  inv s' main R' B'.
Proof.
  intros Hinv HL Hp Ha HB HaB HanB Et Ec En El Ecur Esw Eat.
  destruct Hinv as [_ (rest & [] & Hperm & Hok)]. split; [done|]. exists rest.
  split; [split; congruence|]. split; [by rewrite Hp|]. intros i x Hx.
  destruct (Hok i x Hx) as (st0 & pr & Hat & Hpr & H1 & H2 & H3). unfold thread_ok. rewrite Eat, Ecur.
  destruct (decide (x = a)) as [->|Hne].
  - exists st, pr. rewrite lookup_alter_eq, Hat. cbn. split; [done|]. do 2 (split; [done|]).
    split; [intros H; left; by apply HanB|]. destruct (decide (a ∈ B')) as [Hin|Hin].
    + rewrite (HaB Hin). discriminate.
    + rewrite (HanB Hin). discriminate.
  - exists st0, pr. rewrite lookup_alter_ne by done. by rewrite HB.
Qed.

Lemma push_head_spec s B a t (Q : unit -> system -> Prop) (K : M system unit) :
  fseg (links s) 0 B 0 -> 0 ∉ B -> a ∉ B -> blocked_head s = hd0 B -> tcbs s !! a = Some t -> linkp t = (0, 0) ->
  (forall m, linkp <$> m = push (links s) a B -> attrp <$> m = attrs s ->
     wp K Q (set_blocked_head a (set_tcbs m s))) ->
  wp (s <- get ;;
      upd_tcb a (set_next (blocked_head s)) ;;;
      (if negb (blocked_head s =? 0) then upd_tcb (blocked_head s) (set_prev a) else ret tt) ;;;
      upd_tcb a (set_prev 0) ;;;
      modify (set_blocked_head a) ;;; K) Q s.
Proof.
  intros Hs H0 Ha Hb Ht Hl HQ. rewrite wp_bind, wp_get, wp_bind, (wp_upd_tcb _ _ t), Hb, wp_bind by done.
  assert (Hla : links s !! a = Some (0, 0)) by (unfold links; by rewrite lookup_fmap, Ht, <- Hl).
  assert (Hins : forall lk : gmap Z (Z * Z), lk !! a = Some (0, hd0 B) -> alter (set_fst 0) a lk = lk).
  { intros lk E. apply map_eq. intros x. destruct (decide (a = x)) as [<-|]; [|by rewrite lookup_alter_ne].
    by rewrite lookup_alter_eq, E. }
  assert (Hm1 : alter (set_snd (hd0 B)) a (links s) = <[a := (0, hd0 B)]> (links s)).
  { apply map_eq. intros x. destruct (decide (a = x)) as [<-|]; [|by rewrite lookup_alter_ne, lookup_insert_ne].
    by rewrite lookup_alter_eq, lookup_insert_eq, Hla. }
  unfold push in HQ. cbv zeta in HQ. destruct B as [|y B]; cbn [hd0 hd] in *.
  - cbn [Z.eqb negb]. rewrite wp_ret, wp_bind, (wp_upd_tcb _ _ (set_next 0 t)), wp_bind, wp_modify
      by (cbn; by rewrite lookup_alter_eq, Ht).
    apply (HQ (alter (set_prev 0) a (alter (set_next 0) a (tcbs s)))).
    + rewrite links_set_prev, links_set_next. change (linkp <$> tcbs s) with (links s). rewrite Hm1.
      apply Hins, lookup_insert_eq.
    + by rewrite !fmap_alter_same.
  - assert (Hay : a <> y) by set_solver. destruct (Z.eqb_spec y 0) as [->|_]; [set_solver|]. cbn [negb].
    assert (Hy : is_Some (tcbs s !! y)) by (eapply fseg_tcb; [exact Hs|by left]). destruct Hy as [u Hu].
    rewrite (wp_upd_tcb _ _ u) by (cbn; by rewrite lookup_alter_ne).
    rewrite wp_bind, (wp_upd_tcb _ _ (set_next y t)), wp_bind, wp_modify
      by (cbn; by rewrite lookup_alter_ne, lookup_alter_eq, Ht).
    apply (HQ (alter (set_prev 0) a (alter (set_prev a) y (alter (set_next y) a (tcbs s))))).
    + rewrite !links_set_prev, links_set_next. change (linkp <$> tcbs s) with (links s). rewrite Hm1.
      apply Hins. rewrite lookup_alter_ne by done. apply lookup_insert_eq.
    + by rewrite !fmap_alter_same.
Qed.

End Inv.

End ThreadInv.
