(* ===== verification/ThreadThms.v ===== *)
(** * What the threads promise

    The calls that create, schedule, block and unblock threads keep the invariant of
    [ThreadInv]; the scheduler runs the first ready thread of the highest priority.
    Two things the code does not do: the main thread is in no list and never runs again
    once another thread has run, and joining a thread that has ended empties the list
    of ready threads. *)

From Stdlib Require Import ZArith Lia String.
From stdpp Require Import base tactics option list gmap strings pretty.
From S2P Require Import Prelude Dll Sync Thread ThreadInv.

Set Default Goal Selector "!".
Local Open Scope Z_scope.
Local Open Scope kernel_scope.

Module ThreadThms.
Import Dll Thread ThreadInv.

Section Calls.
Context (MAX_TASKS : nat).
Abbreviation MAX := (MAX_THREADS MAX_TASKS).
Abbreviation inv := (inv MAX_TASKS).

(** ** Looking up a thread *)

Lemma find_id_spec s l k z tid :
  (forall i a, l !! i = Some a -> a <> 0 /\ exists t, tcbs s !! a = Some t /\ id t = Z.of_nat (k + i)) ->
  wp (find_id (l ++ replicate z 0) tid)
     (fun r s' => s' = s /\ ((exists i, tid = Z.of_nat (k + i) /\ l !! i = Some r) \/ r = 0)) s.
Proof.
  revert k. induction l as [|a l IH]; intros k Hl; cbn [app find_id].
  - clear Hl. induction z as [|z IHz]; cbn [replicate find_id Z.eqb]; [wp_steps; auto|exact IHz].
  - destruct (Hl 0%nat a eq_refl) as (Hnz & t & Ht & Hid). destruct (Z.eqb_spec a 0) as [|_]; [done|].
    rewrite wp_bind, (wp_read_tcb _ t) by done. destruct (Z.eqb_spec (id t) tid) as [<-|Hne].
    + wp_steps. split; [done|]. left. exists 0%nat. split; [by rewrite Hid|done].
    + eapply wp_mono; [apply (IH (S k))|].
      * intros i b Hb. destruct (Hl (S i) b Hb) as (? & u & Hu & Hidu). split; [done|]. exists u. split; [done|].
        rewrite Hidu. f_equal. lia.
      * intros r s' [-> [(i & -> & Hi)| ->]]; (split; [done|]); [left|by right].
        exists (S i). split; [f_equal; lia|done].
Qed.

Lemma wp_get_by_id s main R B tid (Q : Z -> system -> Prop) :
  inv s main R B -> Q 0 s ->
  (forall i a, tid = Z.of_nat i -> thread_ok s B i a -> a <> 0 -> (a ∈ R ++ B \/ a = main) -> Q a s) ->
  wp (thread_get_by_id MAX_TASKS tid) Q s.
Proof.
  intros Hinv H0 HQ. destruct (i_tabled _ _ _ _ _ Hinv) as (rest & Ht & Hp & Hok).
  unfold thread_get_by_id. case_if; [by wp_steps|]. wp_steps. rewrite (t_table _ _ _ Ht).
  assert (Hnz : forall i a, (main :: rest) !! i = Some a -> a <> 0).
  { intros i a Ha ->. apply (t_null _ _ _ Ht). by eapply list_elem_of_lookup_2. }
  eapply wp_mono; [apply (find_id_spec s _ 0)|].
  - intros i a Ha. split; [by eapply Hnz|]. destruct (thread_ok_tcb _ _ _ _ (Hok i a Ha)) as (t & ? & ?). eauto.
  - intros r s' [-> [(i & -> & Hi)| ->]]; [|done]. cbn in Hi. eapply HQ; [done|by apply Hok|by eapply Hnz|].
    destruct i as [|i]; [right; by injection Hi|left]. rewrite Hp. cbn in Hi. by eapply list_elem_of_lookup_2.
Qed.

Lemma inv_lock s main R B : inv s main R B -> thread_lock s = 0.
Proof. intros [_ (? & [] & _)]. done. Qed.

(** ** Blocking and unblocking *)

Lemma lists_lock s R B x : lists (set_thread_lock x s) R B <-> lists s R B.
Proof. split; intros []; by split. Qed.

(** What the two moves make of the lists. *)
Lemma block_lists s s' R1 c R2 B :
  lists s (R1 ++ c :: R2) B -> NoDup ((R1 ++ c :: R2) ++ B) ->
  links s' = push (unlink (links s) R1 c R2) c B ->
  ready_head s' = hd0 (R1 ++ R2) -> ready_tail s' = last0 0 (R1 ++ R2) -> blocked_head s' = c ->
  lists s' (R1 ++ R2) (c :: B).
Proof.
  intros [L1 L2 L3 L4 L5] (NR & NRB & NB)%NoDup_app El Eh Et Eb. split; rewrite ?El; try done.
  - eapply fseg_ext; [|apply fseg_unlink; [exact NR|exact L1]]. intros x Hx. apply push_out.
    rewrite not_elem_of_cons. apply NoDup_app in NR as (NR1 & NR12 & [NR2 NR3]%NoDup_cons).
    rewrite elem_of_app in Hx. split.
    + intros ->. destruct Hx as [Hx|Hx]; [by eapply NR12; [exact Hx|left]|done].
    + apply NRB. rewrite elem_of_app, elem_of_cons. tauto.
  - apply fseg_push; [apply NoDup_cons; split; [apply NRB; set_solver|done]|].
    eapply fseg_ext; [|exact L4]. intros x Hx. apply unlink_out. intros Hx'. by apply (NRB x).
Qed.

Lemma unblock_lists s s' R B1 a B2 :
  lists s R (B1 ++ a :: B2) -> NoDup (R ++ B1 ++ a :: B2) ->
  links s' = append (unlink (links s) B1 a B2) R a ->
  ready_head s' = hd0 (R ++ [a]) -> ready_tail s' = a -> blocked_head s' = hd0 (B1 ++ B2) ->
  lists s' (R ++ [a]) (B1 ++ B2).
Proof.
  intros [L1 L2 L3 L4 L5] (NR & NRB & NB)%NoDup_app El Eh Et Eb.
  assert (HaR : a ∉ R) by (intros Hx%NRB; set_solver). split; rewrite ?El; try done.
  - apply fseg_append; [apply NoDup_app; split_and!; [done|set_solver|apply NoDup_singleton]|].
    eapply fseg_ext; [|exact L1]. intros x Hx. apply unlink_out. by apply NRB.
  - unfold last0. by rewrite last_snoc.
  - eapply fseg_ext; [|by apply fseg_unlink]. intros x Hx. apply append_out.
    apply NoDup_app in NB as (_ & NB1 & [NB2 _]%NoDup_cons).
    rewrite elem_of_app, list_elem_of_singleton. rewrite elem_of_app in Hx. intros [HxR| ->].
    + apply (NRB x HxR). rewrite elem_of_app, elem_of_cons. tauto.
    + destruct Hx as [Hx|Hx]; [by eapply NB1; [exact Hx|left]|done].
Qed.

Lemma block_spec s main R B sp :
  inv s main R B -> current_thread_id s <> 0 ->
  (exists c, arr_get (table s) (current_thread_id s) = Some c /\ c ∉ B) ->
  wp (thread_block MAX_TASKS sp) (fun _ s' => exists R' B', inv s' main R' B') s.
Proof.
  intros Hinv Hc0 (c' & Hc' & HcB). pose proof (inv_lock _ _ _ _ Hinv) as Hl0.
  destruct (inv_members _ _ _ _ _ Hinv) as (N & Hmain & H0 & _).
  unfold thread_block. rewrite wp_bind, thr_wp_lock, wp_bind by done.
  eapply wp_get_current; [done|]. intros i c Hc Hi Htc Hnz Hin.
  rewrite Hi, arr_get_nat, Htc in Hc'. injection Hc' as <-.
  assert (HcR : c ∈ R). { destruct Hin as [Hin|[_ ->]]; [set_solver|by rewrite Hi in Hc0]. }
  destruct (thread_ok_tcb _ _ _ _ Hc) as (t & Ht & _).
  destruct (Z.eqb_spec c 0) as [|_]; [done|]. rewrite wp_bind, (wp_upd_tcb _ _ t), wp_bind by done.
  apply list_elem_of_split in HcR as (R1 & R2 & ->). pose proof (i_lists _ _ _ _ _ Hinv) as [L1 L2 L3 L4 L5].
  apply NoDup_app in N as (NR & NRB & NB).
  set (m0 := alter (set_state THREAD_STATE_BLOCKED) c (tcbs s)).
  assert (Hlk0 : linkp <$> m0 = links s) by (unfold m0; by rewrite fmap_alter_same).
  assert (Hat0 : attrp <$> m0 = alter (with_state THREAD_STATE_BLOCKED) c (attrs s)) by (unfold m0; by apply fmap_alter_as).
  apply (remove_ready_spec _ R1 c R2); cbn [ready_head ready_tail set_tcbs set_thread_lock]; try done.
  { assert (E := L1). rewrite <- Hlk0 in E. exact E. }
  { set_solver. }
  intros m Hm Ham. unfold links, attrs in Hm, Ham. cbn in Hm, Ham. change (alter (set_state THREAD_STATE_BLOCKED) c (tcbs s)) with m0 in Hm, Ham.
  rewrite Hlk0 in Hm. rewrite Hat0 in Ham.
  assert (Hmc : exists u, m !! c = Some u /\ linkp u = (0, 0)).
  { assert (E : (linkp <$> m) !! c = Some (0, 0)) by (rewrite Hm; apply unlink_self). rewrite lookup_fmap in E.
    destruct (m !! c) as [u|]; [|done]. exists u. split; [done|]. by apply (inj Some). }
  destruct Hmc as (u & Hu & Hlu).
  assert (HBout : fseg (unlink (links s) R1 c R2) 0 B 0).
  { eapply fseg_ext; [|exact L4]. intros x Hx. apply unlink_out. intros Hx'. by apply (NRB x). }
  eapply (push_head_spec _ B c u); cbn [blocked_head set_tcbs set_ready_tail set_ready_head set_thread_lock tcbs]; try done.
  { rewrite <- Hm in HBout. exact HBout. }
  { set_solver. }
  intros m' Hm' Ham'. unfold links, attrs in Hm', Ham'. cbn in Hm', Ham'. rewrite Hm in Hm'. rewrite Ham in Ham'.
  rewrite wp_bind, thr_wp_unlock, wp_bind.
  match goal with |- wp _ _ ?s2 => assert (Hinv2 : inv s2 main (R1 ++ R2) (c :: B)) end.
  { eapply (inv_move _ s _ main (R1 ++ c :: R2) B (R1 ++ R2) (c :: B) c THREAD_STATE_BLOCKED); try done.
    - by eapply (block_lists s); [apply (i_lists _ _ _ _ _ Hinv)|apply NoDup_app|..].
    - rewrite <- !Permutation_middle. done.
    - set_solver.
    - intros x Hx. rewrite elem_of_cons. tauto.
    - intros Hx. set_solver. }
  eapply wp_mono; [apply scheduler_spec; exact Hinv2|].
  intros b s' [(_ & -> & _)|(_ & Hinv' & _)]; wp_steps; eauto.
Qed.

(** Taking a thread out of the list of blocked threads. *)
Lemma leave_blocked_spec s B1 a B2 {A} (K : M system A) (Q : A -> system -> Prop) :
  fseg (links s) 0 (B1 ++ a :: B2) 0 -> NoDup (B1 ++ a :: B2) -> 0 ∉ B1 ++ a :: B2 ->
  blocked_head s = hd0 (B1 ++ a :: B2) ->
  wp K Q (set_blocked_head (hd0 (B1 ++ B2)) (set_tcbs (bypassed (tcbs s) B1 B2) s)) ->
  wp (bypass_next a set_blocked_head ;;;
      t <- read_tcb a ;;
      (if negb (next t =? 0) then upd_tcb (next t) (set_prev (prev t)) else ret tt) ;;; K) Q s.
Proof.
  intros L4 NB H0 L5 HQ. destruct (fseg_around _ _ _ _ L4) as (La & LB1 & LB2).
  pose proof NB as (NB1 & NB12 & [NB2 NB3]%NoDup_cons)%NoDup_app.
  assert (HaB1 : a ∉ B1) by (intros Hx%NB12; set_solver).
  rewrite wp_bind. eapply (wp_bypass_next _ a B1 B2); [done|set_solver|intros; by eapply fseg_tcb; [exact LB1|]|].
  set (m1 := match last B1 with None => tcbs s | Some x => alter (set_next (hd0 B2)) x (tcbs s) end).
  match goal with |- wp _ _ ?x => set (s1 := x) end.
  assert (Es1 : s1 = set_blocked_head (hd0 (B1 ++ B2)) (set_tcbs m1 s)).
  { subst s1 m1. destruct B1 as [|x B1]; [by destruct s|].
    destruct (last_is_Some (x :: B1)) as [_ [z ->]]; [done|]. destruct s. cbn in *. by rewrite L5. }
  clearbody s1. subst s1.
  assert (Hlk1 : links (set_blocked_head (hd0 (B1 ++ B2)) (set_tcbs m1 s)) !! a = Some (last0 0 B1, hd0 B2)).
  { unfold links. cbn. unfold m1. destruct (last B1) as [x|] eqn:El; [|exact La].
    rewrite lookup_fmap, lookup_alter_ne, <- lookup_fmap; [exact La|]. apply last_Some_elem_of in El. by intros ->. }
  eapply (wp_bypass_prev _ a B1 B2 (fun _ => ret tt)); [exact Hlk1|set_solver| |].
  { intros x Hx. cbn. assert (Hx' : is_Some (tcbs s !! x)) by (by eapply fseg_tcb; [exact LB2|]).
    unfold m1. destruct (last B1); [by apply lookup_alter_is_Some|done]. }
  destruct B2 as [|y B2]; [apply wp_ret|]; exact HQ.
Qed.

Lemma unblock_spec s main R B tid :
  inv s main R B -> wp (thread_unblock MAX_TASKS tid) (fun _ s' => exists R' B', inv s' main R' B') s.
Proof.
  intros Hinv. pose proof (inv_lock _ _ _ _ Hinv) as Hl0.
  destruct (inv_members _ _ _ _ _ Hinv) as (N & Hmain & H0 & _).
  unfold thread_unblock. rewrite wp_bind. eapply wp_get_by_id; [done|cbn [Z.eqb]; wp_steps; eauto|].
  intros i a _ Hok Hnz Hin. destruct (Z.eqb_spec a 0) as [|_]; [done|].
  rewrite wp_bind, thr_wp_lock, wp_bind by done.
  destruct (thread_ok_tcb _ _ _ _ Hok) as (t & Ht & _). rewrite (wp_read_tcb _ t) by done.
  destruct Hok as (st & pr & Hat & _ & _ & HnB & _).
  assert (Est : state t = st) by (unfold attrs in Hat; rewrite lookup_fmap, Ht in Hat; by injection Hat).
  destruct (Z.eqb_spec (state t) THREAD_STATE_BLOCKED) as [Hs|Hs]; cbn [negb].
  2: { rewrite wp_bind, thr_wp_unlock, relock by done. wp_steps. eauto. }
  assert (HaB : a ∈ B).
  { destruct (decide (a ∈ B)) as [|Hn]; [done|]. destruct (HnB Hn) as [E|E]; rewrite <- Est, Hs in E; discriminate. }
  apply list_elem_of_split in HaB as (B1 & B2 & ->). pose proof (i_lists _ _ _ _ _ Hinv) as [L1 L2 L3 L4 L5].
  apply NoDup_app in N as (NR & NRB & NB).
  eapply (leave_blocked_spec _ B1 a B2); [done|done|set_solver|done|].
  pose proof NB as (NB1 & NB12 & [NB2 NB3]%NoDup_cons)%NoDup_app.
  assert (HaB1 : a ∉ B1) by (intros Hx%NB12; set_solver).
  assert (Hba : is_Some (bypassed (tcbs s) B1 B2 !! a)) by (apply bypassed_some; eauto). destruct Hba as [u Hu].
  rewrite wp_bind, (wp_upd_tcb _ _ u), wp_bind by done.
  set (m2 := alter (set_state THREAD_STATE_READY) a (bypassed (tcbs s) B1 B2)).
  assert (Hlk2 : linkp <$> m2 = bypass (links s) B1 B2) by (unfold m2; by rewrite fmap_alter_same, bypassed_links).
  assert (Hat2 : attrp <$> m2 = alter (with_state THREAD_STATE_READY) a (attrs s)).
  { unfold m2. rewrite (fmap_alter_as attrp _ (with_state THREAD_STATE_READY)) by done. by rewrite bypassed_attrs. }
  assert (HRout : forall x, x ∈ R -> bypass (links s) B1 B2 !! x = links s !! x).
  { intros x Hx. assert (Hxa : x ∉ B1 ++ a :: B2) by (by apply NRB). pose proof (unlink_out (links s) _ _ _ _ Hxa) as E.
    rewrite unlink_bypass, lookup_insert_ne in E; [done|]. intros ->. set_solver. }
  assert (HaR : a ∉ R) by (intros Hx%NRB; set_solver).
  apply (add_ready_spec _ R a); try done.
  { assert (E : fseg (linkp <$> m2) 0 R 0) by (rewrite Hlk2; eapply fseg_ext; [exact HRout|exact L1]). exact E. }
  { set_solver. }
  { cbn. apply lookup_alter_is_Some. eauto. }
  intros m Hm Ham. unfold links, attrs in Hm, Ham. cbn in Hm, Ham.
  change (alter (set_state THREAD_STATE_READY) a (bypassed (tcbs s) B1 B2)) with m2 in Hm, Ham.
  rewrite Hlk2 in Hm. rewrite Hat2 in Ham.
  rewrite <- (append_insert _ R a (0, 0)), <- unlink_bypass in Hm by done.
  rewrite wp_bind, thr_wp_unlock. apply wp_ret. exists (R ++ [a]), (B1 ++ B2).
  eapply (inv_move _ s _ main R (B1 ++ a :: B2) (R ++ [a]) (B1 ++ B2) a THREAD_STATE_READY); try done.
  - by eapply (unblock_lists s); [apply (i_lists _ _ _ _ _ Hinv)|apply NoDup_app|..].
  - rewrite <- !app_assoc. cbn. by rewrite <- (Permutation_middle B1).
  - set_solver.
  - intros x Hx. rewrite !elem_of_app, elem_of_cons. tauto.
  - rewrite elem_of_app. tauto.
Qed.

(** ** Attributes *)

Lemma inv_attr s m main R B a f :
  inv s main R B -> linkp <$> m = links s -> attrp <$> m = alter f a (attrs s) ->
  (forall x, a_id (f x) = a_id x /\ a_state (f x) = a_state x /\
     (0 <= a_priority x <= THREAD_PRIORITY_REALTIME -> 0 <= a_priority (f x) <= THREAD_PRIORITY_REALTIME)) ->
  inv (set_tcbs m s) main R B.
Proof.
  intros [[] (rest & [] & Hp & Hok)] Hl Ha Hf. split.
  - split; unfold links; cbn; rewrite ?Hl; done.
  - exists rest. split; [by split|]. split; [done|]. intros i x Hx.
    destruct (Hok i x Hx) as (st & pr & Hat & Hpr & Hrest). unfold thread_ok, attrs. cbn. rewrite Ha.
    destruct (decide (x = a)) as [->|Hne]; [|exists st, pr; by rewrite lookup_alter_ne].
    rewrite lookup_alter_eq, Hat. cbn. destruct (Hf (mk_attr (Z.of_nat i) st pr)) as (E1 & E2 & E3). cbn in *.
    exists st, (a_priority (f (mk_attr (Z.of_nat i) st pr))). split; [|split; [by apply E3|done]].
    f_equal. destruct (f _). cbn in *. by subst.
Qed.

(** A call that changes a control block under the lock and goes on with [K]. *)
Lemma under_lock s main R B a f g {A} (K : M system A) (Q : A -> system -> Prop) :
  inv s main R B -> is_Some (tcbs s !! a) -> (forall t, linkp (f t) = linkp t) -> (forall t, attrp (f t) = g (attrp t)) ->
  (forall x, a_id (g x) = a_id x /\ a_state (g x) = a_state x /\
     (0 <= a_priority x <= THREAD_PRIORITY_REALTIME -> 0 <= a_priority (g x) <= THREAD_PRIORITY_REALTIME)) ->
  (forall s', inv s' main R B -> tcbs s' = alter f a (tcbs s) -> wp K Q (set_thread_lock 1 s')) ->
  wp (lock ;;; upd_tcb a f ;;; K) Q s.
Proof.
  intros Hinv [t Ht] Hl Ha Hg HQ. pose proof (inv_lock _ _ _ _ Hinv) as H0.
  rewrite wp_bind, thr_wp_lock, wp_bind, (wp_upd_tcb _ _ t) by done.
  change (wp K Q (set_thread_lock 1 (set_tcbs (alter f a (tcbs s)) s))). apply HQ; [|done].
  eapply (inv_attr s _ main R B a g); [done|by apply fmap_alter_same|by apply fmap_alter_as|done].
Qed.

Lemma inv_relock s main R B : inv s main R B -> inv (set_thread_lock 0 (set_thread_lock 1 s)) main R B.
Proof. intros H. by rewrite relock by (by eapply inv_lock). Qed.

Lemma set_priority_spec s main R B tid prio :
  inv s main R B -> wp (thread_set_priority MAX_TASKS tid prio) (fun _ s' => inv s' main R B) s.
Proof.
  intros Hinv. unfold thread_set_priority. case_if; [by wp_steps|]. bools. rewrite wp_bind.
  eapply wp_get_by_id; [done|by wp_steps|]. intros i a _ Hok Hnz _. destruct (Z.eqb_spec a 0) as [|_]; [done|].
  destruct (thread_ok_tcb _ _ _ _ Hok) as (t & Ht & _).
  eapply (under_lock _ _ _ _ _ _ (fun x => mk_attr (a_id x) (a_state x) prio)); [done|eauto|done|done|cbn; auto|].
  intros s' Hs' _. rewrite wp_bind, thr_wp_unlock. apply wp_ret. by apply inv_relock.
Qed.

Lemma set_name_spec s main R B tid nm :
  inv s main R B -> wp (thread_set_name MAX_TASKS tid nm) (fun _ s' => inv s' main R B) s.
Proof.
  intros Hinv. unfold thread_set_name. destruct nm as [n|]; [|by wp_steps]. rewrite wp_bind.
  eapply wp_get_by_id; [done|by wp_steps|]. intros i a _ Hok Hnz _. destruct (Z.eqb_spec a 0) as [|_]; [done|].
  destruct (thread_ok_tcb _ _ _ _ Hok) as (t & Ht & _).
  eapply (under_lock _ _ _ _ _ _ (fun x => x)); [done|eauto|done|done|auto|].
  intros s' Hs' _. rewrite wp_bind, thr_wp_unlock. apply wp_ret. by apply inv_relock.
Qed.

Lemma detach_spec s main R B tid :
  inv s main R B -> wp (thread_detach MAX_TASKS tid) (fun _ s' => inv s' main R B) s.
Proof.
  intros Hinv. unfold thread_detach. rewrite wp_bind.
  eapply wp_get_by_id; [done|by wp_steps|]. intros i a _ Hok Hnz _. destruct (Z.eqb_spec a 0) as [|_]; [done|].
  destruct (thread_ok_tcb _ _ _ _ Hok) as (t & Ht & _).
  eapply (under_lock _ _ _ _ _ _ (fun x => x)); [done|eauto|done|done|auto|].
  intros s' Hs' Et. set (t' := set_flags (Z.lor (flags t) THREAD_FLAG_DETACHED) t).
  rewrite wp_bind, (wp_read_tcb _ t') by (cbn; by rewrite Et, lookup_alter_eq, Ht).
  assert (Hst : state t' <> THREAD_STATE_ZOMBIE).
  { destruct Hok as (st & pr & Hat & _ & HB & HnB & _). unfold attrs in Hat. rewrite lookup_fmap, Ht in Hat.
    injection Hat as _ Hst _. cbn. rewrite Hst. destruct (decide (a ∈ B)) as [Hin|Hin].
    - rewrite (HB Hin). discriminate.
    - destruct (HnB Hin) as [-> | ->]; discriminate. }
  destruct (Z.eqb_spec (state t') THREAD_STATE_ZOMBIE) as [|_]; [done|].
  rewrite wp_bind, wp_ret, wp_bind, thr_wp_unlock. apply wp_ret. by apply inv_relock.
Qed.

(** ** Creation *)

Lemma free_slot_spec l z i :
  0 ∉ l -> free_slot (l ++ replicate z 0) i = if decide (z = 0)%nat then -1 else i + Z.of_nat (length l).
Proof.
  revert i. induction l as [|a l IH]; intros i H0; cbn [app free_slot].
  - destruct z as [|z]; [done|]. cbn [replicate free_slot Z.eqb]. case_decide; [done|]. cbn. lia.
  - destruct (Z.eqb_spec a 0) as [->|_]; [set_solver|]. rewrite IH by set_solver. case_decide; cbn; lia.
Qed.

Lemma inv_created s s' main R B tcb pr :
  inv s main R B -> tcbs s !! tcb = None -> tcb <> 0 -> (thread_count s < Z.of_nat MAX) ->
  0 <= pr <= THREAD_PRIORITY_REALTIME ->
  table s' = <[Z.to_nat (thread_count s) := tcb]> (table s) -> thread_count s' = thread_count s + 1 ->
  next_thread_id s' = thread_count s + 1 -> thread_lock s' = 0 -> current_thread_id s' = current_thread_id s ->
  switches s' = switches s -> ready_head s' = hd0 (R ++ [tcb]) -> ready_tail s' = tcb -> blocked_head s' = blocked_head s ->
  links s' = append (<[tcb := (0, 0)]> (links s)) R tcb ->
  attrs s' = <[tcb := mk_attr (thread_count s) THREAD_STATE_READY pr]> (attrs s) ->
  inv s' main (R ++ [tcb]) B.
Proof.
  intros Hinv Hfr Hnz Hroom Hpr Et Ec En El Ecur Esw Eh Etl Eb Elk Eat.
  destruct (inv_members _ _ _ _ _ Hinv) as (N & _). destruct Hinv as [[L1 L2 L3 L4 L5] (rest & Ht & Hp & Hok)].
  pose proof Ht as [T1 T2 T3 T4 T5 T6 T7 T8 T9].
  assert (Hnew : forall x, is_Some (tcbs s !! x) -> x <> tcb) by (intros x [t Hx] ->; congruence).
  assert (HT : tcb ∉ main :: rest).
  { intros Hin. apply list_elem_of_lookup in Hin as [i Hi]. destruct (thread_ok_tcb _ _ _ _ (Hok i _ Hi)) as (t & E & _). congruence. }
  assert (HR : tcb ∉ R) by (intros Hin; apply HT; right; rewrite <- Hp; set_solver).
  assert (HB : tcb ∉ B) by (intros Hin; apply HT; right; rewrite <- Hp; set_solver).
  apply NoDup_app in N as (NR & NRB & NB). split.
  - split; rewrite ?Elk, ?Eb; try done.
    + apply fseg_append; [apply NoDup_app; split_and!; [done|set_solver|apply NoDup_singleton]|]. by apply fseg_insert.
    + unfold last0. by rewrite last_snoc.
    + eapply fseg_ext; [|exact L4]. intros x Hx. rewrite append_out, lookup_insert_ne; [done|by intros ->|].
      rewrite elem_of_app, list_elem_of_singleton. intros [HxR| ->]; [by eapply NRB|done].
  - exists (rest ++ [tcb]). split; [|split].
    + cbn [length] in *. split; try done; cbn [length]; rewrite ?length_app; cbn [length]; try lia.
      * rewrite Et, T2, T4, Nat2Z.id, (insert_app_r_alt (main :: rest)) by (cbn; lia). cbn [length]. rewrite Nat.sub_diag.
        destruct (MAX - S (length rest))%nat as [|z] eqn:Ez; [lia|]. cbn. rewrite <- app_assoc. cbn. do 3 f_equal.
        replace (MAX - S (length rest + 1))%nat with z by lia. done.
      * change (main :: rest ++ [tcb]) with ((main :: rest) ++ [tcb]). apply NoDup_app.
        split_and!; [done|intros x Hx ->%list_elem_of_singleton; done|apply NoDup_singleton].
      * change (main :: rest ++ [tcb]) with ((main :: rest) ++ [tcb]). rewrite elem_of_app, list_elem_of_singleton. intros [|]; [done|congruence].
      * by rewrite Esw, Ecur.
    + rewrite <- Hp, <- !app_assoc. apply Permutation_app_head, Permutation_app_comm.
    + intros i a. change (main :: rest ++ [tcb]) with ((main :: rest) ++ [tcb]). intros [Ha|[Hlen Ha]]%lookup_app_Some.
      * destruct (Hok i a Ha) as (st & p & Hat & Hrest). exists st, p. rewrite Eat, lookup_insert_ne, Ecur; [done|].
        intros ->. apply HT. by eapply list_elem_of_lookup_2.
      * apply list_lookup_singleton_Some in Ha as [Hi ->]. exists THREAD_STATE_READY, pr.
        rewrite Eat, lookup_insert_eq. split; [do 2 f_equal; rewrite T4; lia|]. split; [done|]. split; [done|].
        split; [by left|discriminate].
Qed.

(** The control block of a new thread at the end of [thread_create]. *)
Lemma wp_upd_new a f t m (Q : unit -> system -> Prop) s :
  tcbs s = <[a := t]> m -> Q tt (set_tcbs (<[a := f t]> m) s) -> wp (upd_tcb a f) Q s.
Proof.
  intros E HQ. rewrite (wp_upd_tcb _ _ t) by (by rewrite E, lookup_insert_eq). rewrite E.
  by rewrite alter_insert_eq.
Qed.

Lemma create_spec s main R B w e ar sz pr fl nm task tcb stk :
  Z.of_nat MAX < 2 ^ 31 -> inv s main R B -> tcb = 0 \/ (tcbs s !! tcb = None /\ stk <> 0) ->
  wp (thread_create MAX_TASKS w e ar sz pr fl nm task tcb stk) (fun _ s' => exists R', inv s' main R' B) s.
Proof.
  intros Hmax Hinv Hnew. pose proof (inv_lock _ _ _ _ Hinv) as H0.
  unfold thread_create. case_if; [wp_steps; eauto|]. cbv zeta.
  rewrite wp_bind, thr_wp_lock, wp_bind, wp_get by done. cbn [thread_count set_thread_lock table next_thread_id].
  assert (Hfail : wp (unlock ;;; ret (-1)) (fun _ s' => exists R', inv s' main R' B) (set_thread_lock 1 s)).
  { rewrite wp_bind, thr_wp_unlock, relock by done. apply wp_ret. eauto. }
  destruct (Z.leb_spec (Z.of_nat MAX) (thread_count s)) as [|Hroom]; [done|].
  destruct (i_tabled _ _ _ _ _ Hinv) as (rest & Ht & _). rewrite (t_table _ _ _ Ht), free_slot_spec by apply (t_null _ _ _ Ht).
  destruct (decide (MAX - length (main :: rest) = 0)%nat) as [|Hslot]; [done|].
  rewrite Z.add_0_l, <- (t_count _ _ _ Ht). destruct (Z.eqb_spec (thread_count s) (-1)) as [|_]; [done|].
  destruct (Z.eqb_spec tcb 0) as [|Hnz]; [done|]. destruct Hnew as [|[Hfr Hstk]]; [done|].
  pose proof (t_count _ _ _ Ht) as Hcnt. rewrite (t_next _ _ _ Ht), <- Hcnt.
  rewrite wp_bind, wp_modify, wp_bind, wp_modify.
  destruct (Z.eqb_spec stk 0) as [|_]; [done|]. rewrite wp_bind, wp_modify, wp_bind.
  eapply wp_upd_new; [done|]. rewrite wp_bind. unfold thread_initialize_context.
  rewrite wp_bind, wp_read_tcb by (cbn; apply lookup_insert_eq). cbv zeta. rewrite wp_bind, wp_modify.
  eapply wp_upd_new; [done|]. rewrite wp_bind, wp_get, wp_bind, wp_deref.
  cbn [table set_tcbs set_words set_stacks set_next_thread_id set_thread_lock thread_count].
  eexists. split. { apply arr_set_some. rewrite (t_table _ _ _ Ht), length_app, length_replicate. lia. }
  rewrite wp_bind, wp_put, wp_bind. eapply wp_upd_new; [done|]. rewrite wp_bind.
  pose proof (i_lists _ _ _ _ _ Hinv) as [L1 L2 L3 L4 L5].
  destruct (inv_members _ _ _ _ _ Hinv) as (N & _ & Hz & _).
  assert (HR : tcb ∉ R). { intros Hin. destruct (fseg_tcb _ _ _ _ _ L1 Hin). congruence. }
  eapply (add_ready_spec _ R tcb); try done.
  { match goal with |- fseg (links ?s1) _ _ _ => assert (Elk : links s1 = <[tcb := (0, 0)]> (links s)) end.
    { unfold links. cbn. by rewrite fmap_insert. }
    rewrite Elk. by apply fseg_insert. }
  { set_solver. }
  { cbn. rewrite lookup_insert_eq. eauto. }
  intros m Hm Ham. unfold links, attrs in Hm, Ham. cbn in Hm, Ham. rewrite fmap_insert in Hm. rewrite fmap_insert in Ham. cbn in Hm, Ham.
  rewrite wp_bind, thr_wp_unlock. apply wp_ret. exists (R ++ [tcb]).
  eapply (inv_created s _ main R B tcb (clamp_priority pr)); try done; cbn.
  - unfold clamp_priority, THREAD_PRIORITY_LOWEST, THREAD_PRIORITY_REALTIME, THREAD_PRIORITY_NORMAL.
    destruct (Z.ltb_spec pr 0), (Z.ltb_spec 5 pr); cbn; lia.
  - apply to_int_small. lia.
Qed.

Lemma yield_spec s main R B sp :
  inv s main R B -> wp (thread_yield MAX_TASKS sp) (fun _ s' => inv s' main R B) s.
Proof.
  intros Hinv. eapply wp_mono; [by apply scheduler_spec|]. by intros b s' [(_ & -> & _)|(_ & H & _)].
Qed.

Lemma sleep_spec s main R B e sp clock :
  inv s main R B -> (exists now, now ∈ clock /\ e <= now) ->
  wp (sleep_loop MAX_TASKS clock e sp) (fun _ s' => inv s' main R B) s.
Proof.
  revert s. induction clock as [|now clock IH]; intros s Hinv (n & Hin & Hle); [by apply not_elem_of_nil in Hin|].
  cbn [sleep_loop]. destruct (Z.ltb_spec now e); [|by wp_steps]. rewrite wp_bind.
  eapply wp_mono; [by apply yield_spec|]. intros [] s' H'; [by wp_steps|]. apply IH; [done|].
  apply elem_of_cons in Hin as [->|Hin]; [lia|eauto].
Qed.

(** ** Histories *)

Inductive call : Type :=
| Create (entry arg size prio flags : Z) (nm : option string) (task tcb stk : Z)
| Yield (sp : Z)
| Sleep (ms start : Z) (clock : list Z) (sp : Z)
| SleepOn (end_time : Z) (clock : list Z) (sp : Z)
| Block (sp : Z)
| Unblock (tid : Z)
| SetPriority (tid prio : Z)
| SetName (tid : Z) (nm : option string)
| Detach (tid : Z).

(** [SleepOn] is a sleeping thread that runs again: it goes on with its loop. *)
Definition run_call (w : Z) (c : call) : M system unit :=
  match c with
  | Create e a sz pr fl nm task tcb stk => _r <- thread_create MAX_TASKS w e a sz pr fl nm task tcb stk ;; ret tt
  | Yield sp => _b <- thread_yield MAX_TASKS sp ;; ret tt
  | Sleep ms start clock sp => _b <- thread_sleep MAX_TASKS ms start clock sp ;; ret tt
  | SleepOn e clock sp => _b <- sleep_loop MAX_TASKS clock e sp ;; ret tt
  | Block sp => thread_block MAX_TASKS sp
  | Unblock tid => _r <- thread_unblock MAX_TASKS tid ;; ret tt
  | SetPriority tid prio => _r <- thread_set_priority MAX_TASKS tid prio ;; ret tt
  | SetName tid nm => _r <- thread_set_name MAX_TASKS tid nm ;; ret tt
  | Detach tid => _r <- thread_detach MAX_TASKS tid ;; ret tt
  end.

(** [malloc] gives fresh blocks, and a stack when it gave a control block; the clock
    reaches the end of a sleep; the main thread does not block, nor does a thread that
    is blocked already. *)
Definition call_ok (s : system) (c : call) : Prop :=
  match c with
  | Create _ _ _ _ _ _ _ tcb stk => tcb = 0 \/ (tcbs s !! tcb = None /\ stk <> 0)
  | Sleep ms start clock _ => exists now, now ∈ clock /\ u64 (start + u64 (ms * 1000000)) <= now
  | SleepOn e clock _ => exists now, now ∈ clock /\ e <= now
  | Block _ => current_thread_id s <> 0 /\
      exists c t, arr_get (table s) (current_thread_id s) = Some c /\ tcbs s !! c = Some t /\ state t <> THREAD_STATE_BLOCKED
  | _ => True
  end.

Lemma run_call_spec w s main R B c :
  Z.of_nat MAX < 2 ^ 31 -> inv s main R B -> call_ok s c ->
  wp (run_call w c) (fun _ s' => exists R' B', inv s' main R' B') s.
Proof.
  intros Hmax Hinv Hok. destruct c; cbn in Hok |- *; try rewrite wp_bind.
  - eapply wp_mono; [by eapply create_spec|]. intros r s' [R' H']. wp_steps. eauto.
  - eapply wp_mono; [by apply yield_spec|]. intros b s' H'. wp_steps. cbn in H'. eauto.
  - eapply wp_mono; [by apply sleep_spec|]. intros b s' H'. wp_steps. cbn in H'. eauto.
  - eapply wp_mono; [by apply sleep_spec|]. intros b s' H'. wp_steps. cbn in H'. eauto.
  - destruct Hok as (Hc0 & c & t & Hc & Ht & Hs). eapply block_spec; [done|done|]. exists c. split; [done|].
    destruct (inv_current _ _ _ _ _ Hinv) as (i & c' & Hi & Hc' & (st & pr & Hat & _ & HB & _) & _).
    rewrite Hc in Hc'. injection Hc' as <-. unfold attrs in Hat. rewrite lookup_fmap, Ht in Hat.
    injection Hat as _ Hst _. intros HcB. apply Hs. by rewrite Hst, HB.
  - eapply wp_mono; [by apply (unblock_spec s main R B)|]. intros r s' H'. wp_steps. exact H'.
  - eapply wp_mono; [by apply set_priority_spec|]. intros r s' H'. wp_steps. cbn in H'. eauto.
  - eapply wp_mono; [by apply set_name_spec|]. intros r s' H'. wp_steps. cbn in H'. eauto.
  - eapply wp_mono; [by apply detach_spec|]. intros r s' H'. wp_steps. cbn in H'. eauto.
Qed.

(** The static variables as the kernel starts, and after [thread_init]. *)
Definition boot (s : system) : Prop :=
  ready_head s = 0 /\ ready_tail s = 0 /\ blocked_head s = 0 /\ switches s = [].

Lemma init_spec s task tcb :
  boot s -> (0 < MAX_TASKS)%nat -> 0 <= task -> tcb <> 0 ->
  wp (thread_init MAX_TASKS task tcb) (fun _ s' => inv s' tcb [] []) s.
Proof.
  intros (Hh & Ht & Hb & Hsw) Hm Htask Hnz. unfold thread_init. rewrite wp_bind, wp_modify.
  destruct (Z.leb_spec 0 task); [|lia]. destruct (Z.eqb_spec tcb 0) as [|_]; [done|]. cbn [andb negb].
  rewrite wp_bind, wp_modify, wp_bind, wp_get, wp_bind, wp_deref.
  assert (Hmax : (0 < MAX)%nat) by (unfold MAX_THREADS, MAX_THREADS_PER_TASK; lia).
  eexists. split. { apply arr_set_some. cbn. rewrite length_replicate. lia. }
  rewrite wp_put. cbn [table set_tcbs set_next_thread_id set_thread_count set_table set_thread_lock]. split.
  - by split.
  - exists []. split_and!; [split; try done; cbn; try lia|done|].
    + destruct MAX as [|k] eqn:Ek; [lia|]. cbn. by rewrite Nat.sub_0_r.
    + apply NoDup_singleton.
    + rewrite list_elem_of_singleton. congruence.
    + by left.
    + intros i a Ha. apply list_lookup_singleton_Some in Ha as [-> ->].
      exists THREAD_STATE_RUNNING, THREAD_PRIORITY_NORMAL. unfold attrs. cbn. rewrite lookup_fmap, lookup_insert_eq.
      split; [done|]. split; [done|]. split; [by intros ?%not_elem_of_nil|]. split; [by right|done].
Qed.

(** The states that histories of such calls reach. *)
Inductive history (w : Z) : system -> system -> Prop :=
| history_nil s : history w s s
| history_snoc s s' s'' c : history w s s' -> call_ok s' c -> run_call w c s' = Ret (tt, s'') -> history w s s''.

Lemma history_inv w s s' main R B :
  Z.of_nat MAX < 2 ^ 31 -> inv s main R B -> history w s s' -> exists R' B', inv s' main R' B'.
Proof.
  intros Hmax Hinv Hh. induction Hh as [|s s' s'' c _ IH Hok Hrun]; [eauto|].
  destruct (IH Hinv) as (R' & B' & Hinv'). exact (wp_run _ _ _ _ _ (run_call_spec w _ _ _ _ c Hmax Hinv' Hok) Hrun).
Qed.

(** C21. From [thread_init] on, the lists of threads stay in order under any sequence
    of calls that create, yield, sleep, block, unblock, rename, re-prioritise and detach
    threads: the lists of ready and blocked threads are well-formed, every thread but
    the main one is in exactly one of them, thread [i] is in slot [i] of the table, no
    thread but the current one is RUNNING, and the next such call runs to its end, or to
    the point where it hands the processor to another thread; the thread then goes on
    there if it is ever chosen again (the main thread never is). The conditions: [malloc]
    gives fresh blocks (or none, but no block without a stack), the main thread does not
    block nor a thread that is blocked, and the clock reaches the end of a sleep. *)
Theorem thread_calls_ordered (w : Z) (s0 s1 s : system) (task main : Z) (c : call) :
  Z.of_nat MAX < 2 ^ 31 -> (0 < MAX_TASKS)%nat -> boot s0 -> 0 <= task -> main <> 0 ->
  thread_init MAX_TASKS task main s0 = Ret (tt, s1) -> history w s1 s -> call_ok s c ->
  (exists R B, inv s main R B) /\ exists s', run_call w c s = Ret (tt, s').
Proof.
  intros Hmax Hpos Hb Ht Hnz Hinit Hh Hok.
  pose proof (wp_run _ _ _ _ _ (init_spec s0 task main Hb Hpos Ht Hnz) Hinit) as Hinv1.
  destruct (history_inv _ _ _ _ _ _ Hmax Hinv1 Hh) as (R & B & Hinv). split; [eauto|].
  destruct (wp_returns _ _ _ (run_call_spec w _ _ _ _ c Hmax Hinv Hok)) as ([] & s' & Hrun & _). eauto.
Qed.

(** The scheduler switches to the first thread of the highest priority among the
    ready threads of the list, makes it the current and only running one, and switches
    to none exactly when no thread of the list is ready. *)
Theorem thread_scheduler_runs_best (s : system) (main : Z) (R B : list Z) (sp : Z) :
  inv s main R B ->
  exists b s', thread_scheduler MAX_TASKS sp s = Ret (b, s') /\
    (b = false -> s' = s /\ forall x p, x ∈ R -> ~ is_ready s x p) /\
    (b = true -> inv s' main R B /\ exists r c i, best_of s R r (-1) /\ head (switches s') = Some (c, r) /\
       current_thread_id s' = i /\ exists p, attrs s' !! r = Some (mk_attr i THREAD_STATE_RUNNING p)).
Proof.
  intros Hinv. destruct (wp_returns _ _ _ (scheduler_spec _ _ _ _ _ sp Hinv)) as (b & s' & Hrun & Hpost).
  exists b, s'. split; [done|]. destruct Hpost as [(-> & -> & Hno)|(-> & Hinv' & _ & r & j & c & Hb & Hj & Hcur & Hsw & Hrun')].
  - by split.
  - split; [done|]. intros _. split; [done|]. exists r, c, (Z.of_nat j). by do 3 (split; [done|]).
Qed.

(** Once the scheduler has switched to another thread, the main thread, which is in
    neither list, is never the current thread again, although it stays in state READY. *)
Theorem main_thread_starves (w : Z) (s0 s1 s : system) (task main : Z) :
  Z.of_nat MAX < 2 ^ 31 -> (0 < MAX_TASKS)%nat -> boot s0 -> 0 <= task -> main <> 0 ->
  thread_init MAX_TASKS task main s0 = Ret (tt, s1) -> history w s1 s -> switches s <> [] ->
  current_thread_id s <> 0 /\ exists p, is_ready s main p.
Proof.
  intros Hmax Hpos Hb Ht Hnz Hinit Hh Hsw.
  pose proof (wp_run _ _ _ _ _ (init_spec s0 task main Hb Hpos Ht Hnz) Hinit) as Hinv1.
  destruct (history_inv _ _ _ _ _ _ Hmax Hinv1 Hh) as (R & B & Hinv).
  destruct (inv_members _ _ _ _ _ Hinv) as (_ & Hm & _). rewrite elem_of_app in Hm.
  destruct (i_tabled _ _ _ _ _ Hinv) as (rest & Htab & _ & Hok). destruct (t_switch _ _ _ Htab) as [|Hc]; [done|].
  split; [done|]. destruct (Hok 0%nat main eq_refl) as (st & p & Hat & _ & _ & HnB & Hrun). exists p, 0.
  destruct HnB as [-> | ->]; [tauto|done|]. destruct Hc. by rewrite Hrun.
Qed.

(** ** Joining *)

Lemma remove_unlinked s a t (Q : unit -> system -> Prop) :
  a <> 0 -> tcbs s !! a = Some t -> linkp t = (0, 0) ->
  Q tt (set_tcbs (alter (fun t => set_prev 0 (set_next 0 t)) a (tcbs s)) (set_ready_tail 0 (set_ready_head 0 s))) ->
  wp (thread_remove_from_ready_list a) Q s.
Proof.
  intros Hnz Ht Hl HQ. injection Hl as Hp Hn. unfold thread_remove_from_ready_list, bypass_next.
  destruct (Z.eqb_spec a 0) as [|_]; [done|].
  rewrite !wp_bind, (wp_read_tcb _ t), Hp, Hn by done. cbn [Z.eqb negb].
  rewrite wp_modify, wp_bind, (wp_read_tcb _ t), Hp, Hn by done. cbn [Z.eqb negb].
  by rewrite wp_bind, wp_modify, (wp_upd_tcb _ _ t).
Qed.

Lemma clean_up_unlinked s a t :
  a <> 0 -> tcbs s !! a = Some t -> linkp t = (0, 0) -> stack t = 0 \/ stack t ∈ stacks s ->
  wp (thread_clean_up a) (fun _ s' => ready_head s' = 0 /\ ready_tail s' = 0 /\ tcbs s' = delete a (tcbs s) /\
    current_thread_id s' = current_thread_id s /\ length (table s') = length (table s)) s.
Proof.
  intros Hnz Ht Hl Hst. unfold thread_clean_up. destruct (Z.eqb_spec a 0) as [|_]; [done|].
  assert (Hlen : forall l, length (clear_slot l a) = length l).
  { induction l as [|b l IH]; cbn; [done|]. destruct (b =? a); cbn; [done|by rewrite IH]. }
  assert (Hdel : forall f (m : gmap Z thread), delete a (alter f a m) = delete a m).
  { intros f m. apply map_eq. intros x. destruct (decide (a = x)) as [<-|]; [by rewrite !lookup_delete_eq|].
    rewrite !lookup_delete_ne by done. by rewrite lookup_alter_ne. }
  rewrite wp_bind. eapply remove_unlinked; [done..|]. rewrite wp_bind, wp_modify, wp_bind.
  set (t' := set_prev 0 (set_next 0 t)). rewrite (wp_read_tcb _ t') by (cbn; by rewrite lookup_alter_eq, Ht).
  rewrite wp_bind. change (stack t') with (stack t). destruct (Z.eqb_spec (stack t) 0) as [E|E]; cbn [negb].
  - wp_steps. cbn. by rewrite Hdel, Hlen.
  - destruct Hst as [|Hst]; [done|]. rewrite wp_bind, wp_get. cbn [stacks set_table set_tcbs set_ready_tail set_ready_head].
    destruct (decide (stack t ∈ stacks s)); [|done].
    rewrite wp_bind, wp_put, (wp_upd_tcb _ _ t') by (cbn; by rewrite lookup_alter_eq, Ht). wp_steps. cbn.
    by rewrite Hlen, !Hdel.
Qed.

(** Joining a thread that has ended (its links cleared by [thread_exit]) hands over
    its exit code and frees it, but also empties the list of ready threads: the
    scheduler then finds no thread to run, whatever threads were ready before. *)
Theorem join_empties_ready_list (others : nat -> system -> system) (fuel : nat) (s : system) (tid a : Z) (t : thread) :
  thread_lock s = 0 -> tid <> current_thread_id s -> 0 <= current_thread_id s < Z.of_nat MAX ->
  length (table s) = MAX ->
  thread_get_by_id MAX_TASKS tid s = Ret (a, s) -> a <> 0 -> tcbs s !! a = Some t ->
  has_flag (flags t) THREAD_FLAG_DETACHED = false -> state t = THREAD_STATE_ZOMBIE -> linkp t = (0, 0) ->
  stack t = 0 \/ stack t ∈ stacks s ->
  exists s', thread_join MAX_TASKS others fuel tid true s = Ret ((0, Some (exit_code t)), s') /\
    tcbs s' !! a = None /\ ready_head s' = 0 /\ ready_tail s' = 0 /\
    forall sp, exists s'', thread_scheduler MAX_TASKS sp s' = Ret (false, s'').
Proof.
  intros H0 Htid Hcur Hlen Hget Hnz Ht Hfl Hst Hl Hstk.
  assert (Hwp : wp (thread_join MAX_TASKS others fuel tid true) (fun r s' => r = (0, Some (exit_code t)) /\
    tcbs s' !! a = None /\ ready_head s' = 0 /\ ready_tail s' = 0 /\ thread_lock s' = 0 /\
    current_thread_id s' = current_thread_id s /\ length (table s') = length (table s)) s).
  { unfold thread_join. rewrite wp_bind, wp_get. destruct (Z.eqb_spec tid (current_thread_id s)) as [|_]; [done|].
    rewrite wp_bind. unfold wp at 1. rewrite Hget. destruct (Z.eqb_spec a 0) as [|_]; [done|].
    rewrite wp_bind, (wp_read_tcb _ t), Hfl, Hst, Z.eqb_refl by done. cbn [negb andb].
    rewrite wp_bind, wp_ret, wp_bind, thr_wp_lock, wp_bind, wp_bind, (wp_read_tcb _ t), wp_ret, wp_bind by done.
    eapply wp_mono; [by apply (clean_up_unlinked _ a t)|]. intros [] s' (Hh & Htl & Htc & Hc & Htb).
    rewrite wp_bind, thr_wp_unlock. apply wp_ret. cbn. rewrite Htc. split_and!; try done. apply lookup_delete_eq. }
  destruct (wp_returns _ _ _ Hwp) as (r & s' & Hrun & -> & Hd & Hh & Htl & Hl0 & Hc & Htb).
  exists s'. split_and!; try done. intros sp.
  assert (Hs : wp (thread_scheduler MAX_TASKS sp) (fun b _ => b = false) s').
  { unfold thread_scheduler. rewrite wp_bind, thr_wp_lock, wp_bind by done. unfold thread_get_current. wp_steps.
    cbn [current_thread_id set_thread_lock table]. rewrite Hc.
    destruct (Z.ltb_spec (current_thread_id s) 0); [lia|]. destruct (Z.leb_spec (Z.of_nat MAX) (current_thread_id s)); [lia|].
    cbn [orb]. rewrite wp_deref. destruct (arr_get_some (table s') (current_thread_id s)) as [c ->]; [lia|]. exists c.
    split; [done|]. unfold thread_get_next_to_run. wp_steps. cbn [ready_head set_thread_lock]. rewrite Hh.
    cbn [best_from Z.eqb]. wp_steps. cbn [Z.eqb]. wp_steps. rewrite thr_wp_unlock. wp_steps. done. }
  destruct (wp_returns _ _ _ Hs) as (b & s'' & Hr & ->). eauto.
Qed.

End Calls.

(** ** Two tasks' worth of threads, for examples *)

Definition off : system := mk_system [] 0 0 0 0 0 0 0 ∅ ∅ ∅ [].
Definition started : system := after (thread_init 2 0 1000) off.
Definition calls : list call :=
  [Create 7 0 0 2 0 None 0 2000 20000; Create 8 0 0 4 0 None 0 3000 30000; Create 9 0 0 4 0 (Some "worker"%string) 0 4000 40000].
Definition three : system := after (mfor calls (run_call 2 99)) started.

Lemma started_init : thread_init 2 0 1000 off = Ret (tt, started).
Proof. vm_compute. reflexivity. Qed.

Lemma three_history : history 2 99 started three.
Proof.
  eapply (history_snoc _ _ _ (after (mfor (take 2 calls) (run_call 2 99)) started) _ (Create 9 0 0 4 0 (Some "worker"%string) 0 4000 40000)).
  - eapply (history_snoc _ _ _ (after (mfor (take 1 calls) (run_call 2 99)) started) _ (Create 8 0 0 4 0 None 0 3000 30000)).
    + eapply (history_snoc _ _ _ started _ (Create 7 0 0 2 0 None 0 2000 20000)); [apply history_nil| |vm_compute; reflexivity].
      right. split; [vm_compute; reflexivity|discriminate].
    + right. split; [vm_compute; reflexivity|discriminate].
    + vm_compute. reflexivity.
  - right. split; [vm_compute; reflexivity|discriminate].
  - vm_compute. reflexivity.
Qed.

Lemma thread_calls_ordered_witness :
  (exists R B, inv 2 three 1000 R B) /\ exists s', run_call 2 99 (Yield 5) three = Ret (tt, s').
Proof.
  apply (thread_calls_ordered 2 99 off started three 0 1000 (Yield 5));
    [reflexivity|lia|by split_and!|lia|discriminate|exact started_init|apply three_history|exact I].
Defined.

Lemma main_thread_starves_witness :
  switches (after (run_call 2 99 (Yield 5)) three) = [(1000, 3000)] /\
  current_thread_id (after (run_call 2 99 (Yield 5)) three) <> 0 /\
  exists p, is_ready (after (run_call 2 99 (Yield 5)) three) 1000 p.
Proof.
  split; [vm_compute; reflexivity|].
  apply (main_thread_starves 2 99 off started _ 0 1000);
    [reflexivity|lia|by split_and!|lia|discriminate|exact started_init| |vm_compute; discriminate].
  eapply (history_snoc _ _ _ three _ (Yield 5)); [apply three_history|exact I|vm_compute; reflexivity].
Defined.

Lemma thread_scheduler_runs_best_witness :
  exists R B b s', inv 2 three 1000 R B /\ thread_scheduler 2 5 three = Ret (b, s').
Proof.
  destruct (history_inv 2 99 started three 1000 [] [] ltac:(vm_compute; reflexivity)
    (wp_run _ _ _ _ _ (init_spec 2 off 0 1000 ltac:(by split_and!) ltac:(lia) ltac:(lia) ltac:(lia)) started_init) three_history)
    as (R & B & Hinv).
  destruct (thread_scheduler_runs_best 2 three 1000 R B 5 Hinv) as (b & s' & Hrun & _). eauto 10.
Defined.

(** Thread 2 runs and ends; thread 3 runs next and joins it while thread 1 is ready. *)
Definition ended : system := after (thread_yield 2 5 ;;; thread_exit 2 (fun _ s => s) 1 42 6) three.

Lemma join_empties_ready_list_witness :
  ready_head ended = 2000 /\ exists s', thread_join 2 (fun _ s => s) 1 2 true ended = Ret ((0, Some 42), s') /\ ready_head s' = 0.
Proof.
  split; [vm_compute; reflexivity|].
  assert (Ht : exists t, tcbs ended !! 3000 = Some t /\ has_flag (flags t) THREAD_FLAG_DETACHED = false /\
    state t = THREAD_STATE_ZOMBIE /\ linkp t = (0, 0) /\ stack t = 30000 /\ exit_code t = 42).
  { eexists. split; [vm_compute; reflexivity|]. vm_compute. done. }
  destruct Ht as (t & Ht & Hf & Hs & Hl & Hst & Hx).
  destruct (join_empties_ready_list 2 (fun _ s => s) 1 ended 2 3000 t) as (s' & Hrun & _ & Hh & _).
  - vm_compute. reflexivity.
  - vm_compute. discriminate.
  - vm_compute. split; [discriminate|reflexivity].
  - vm_compute. reflexivity.
  - vm_compute. reflexivity.
  - discriminate.
  - exact Ht.
  - exact Hf.
  - exact Hs.
  - exact Hl.
  - right. rewrite Hst. apply (bool_decide_unpack _). vm_compute. reflexivity.
  - rewrite Hx in Hrun. exists s'. split; [exact Hrun|exact Hh].
Defined.

End ThreadThms.
