(* ===== verification/Network.v ===== *)
(** * Network core ([network/src/network.c])

    Packet buffers, the device registry and IPv4 address text. A packet buffer
    is a window into an allocated block: the model keeps the block, the position
    of the data pointer in it and the [size], [offset] and [len] fields apart,
    as the code does, with the 32-bit arithmetic of [size_t]; an access outside
    the block, or the release of an address that no allocation returned, is a
    [Fault]. *)

From Stdlib Require Import ZArith Lia Ascii String.
From stdpp Require Import base tactics option list gmap strings pretty.
From S2P Require Import Prelude.

Set Default Goal Selector "!".
Local Open Scope Z_scope.
Local Open Scope kernel_scope.

Module Network.

Definition NET_MAX_DEVICES : Z := 8.
Definition NET_ERR_INVALID : Z := -1.
Definition NET_ERR_NOMEM : Z := -2.
Definition NET_PROTO_ARP : Z := 2.
Definition NET_PROTO_IP : Z := 3.
Definition NET_BUF_FLAG_ALLOC : Z := 1.
Definition NET_DEV_FLAG_UP : Z := 1.
Definition NET_DEV_FLAG_LOOPBACK : Z := 2.

(** ** Data *)

(** [net_buffer_t]; [data] is a block and a position in it. *)
Record net_buffer : Type := mk_buffer {
  data : option (addr * Z);
  len : Z;
  size : Z;
  offset : Z;
  flags : Z;
  protocol : Z;
  device : ptr;
  next : ptr;
}.

(** [net_device_t]: what this file reads and writes. *)
Record net_device : Type := mk_device {
  name : string;
  dev_flags : Z;
  ip : list Z;
  netmask : list Z;
  mtu : Z;
  rx_packets : Z;
  rx_bytes : Z;
}.

(** [net_state] and the allocated memory. *)
Record net : Type := mk_net {
  devices : list ptr;
  device_count : Z;
  default_device : ptr;
  initialized : Z;
  devs : gmap addr net_device;
  buffers : gmap addr net_buffer;
  blocks : gmap addr (list Z);
}.

Definition set_devs (x : gmap addr net_device) (s : net) : net :=
  mk_net (devices s) (device_count s) (default_device s) (initialized s) x (buffers s) (blocks s).
Definition set_buffers (x : gmap addr net_buffer) (s : net) : net :=
  mk_net (devices s) (device_count s) (default_device s) (initialized s) (devs s) x (blocks s).
Definition set_blocks (x : gmap addr (list Z)) (s : net) : net :=
  mk_net (devices s) (device_count s) (default_device s) (initialized s) (devs s) (buffers s) x.
Definition set_default (x : ptr) (s : net) : net :=
  mk_net (devices s) (device_count s) x (initialized s) (devs s) (buffers s) (blocks s).

Definition set_window (d : option (addr * Z)) (o l : Z) (b : net_buffer) : net_buffer :=
  mk_buffer d l (size b) o (flags b) (protocol b) (device b) (next b).
Definition set_protocol (p : Z) (b : net_buffer) : net_buffer :=
  mk_buffer (data b) (len b) (size b) (offset b) (flags b) p (device b) (next b).
Definition set_device (d : ptr) (b : net_buffer) : net_buffer :=
  mk_buffer (data b) (len b) (size b) (offset b) (flags b) (protocol b) d (next b).

(** ** Memory *)

Definition read_buffer (a : addr) : M net net_buffer := s <- get ;; deref (buffers s !! a).
Definition write_buffer (a : addr) (b : net_buffer) : M net unit :=
  modify (fun s => set_buffers (<[a := b]> (buffers s)) s).
Definition read_dev (a : addr) : M net net_device := s <- get ;; deref (devs s !! a).
Definition write_dev (a : addr) (d : net_device) : M net unit :=
  modify (fun s => set_devs (<[a := d]> (devs s)) s).

(** [heap_free] of a block: only what [heap_alloc] returned may be freed. *)
Definition free_block (d : addr * Z) : M net unit :=
  s <- get ;;
  _ <- deref (blocks s !! d.1) ;;
  if d.2 =? 0 then put (set_blocks (delete d.1 (blocks s)) s) else fault.
Definition free_buffer (a : addr) : M net unit :=
  s <- get ;;
  _ <- deref (buffers s !! a) ;;
  put (set_buffers (delete a (buffers s)) s).

(** [memcpy] of [n] bytes to a position in a block. *)
Definition memcpy_to (d : addr * Z) (src : list Z) (n : Z) : M net unit :=
  s <- get ;;
  l <- deref (blocks s !! d.1) ;;
  if (n <=? Z.of_nat (length src)) && (0 <=? d.2) && (d.2 + n <=? Z.of_nat (length l))
  then put (set_blocks (<[d.1 := splice l (Z.to_nat d.2) (take (Z.to_nat n) src)]> (blocks s)) s)
  else fault.

(** ** Buffers *)

Definition zero_buffer : net_buffer := mk_buffer None 0 0 0 0 0 None None.

(** [a1] and [a2] are the answers of [heap_alloc], [a2] with what the block holds. *)
Definition net_buffer_alloc (sz reserve : Z) (a1 : ptr) (a2 : option (addr * list Z)) : M net ptr :=
  if sz =? 0 then ret None
  else
    match a1 with
    | None => ret None
    | Some a =>
        write_buffer a zero_buffer ;;;
        match a2 with
        | None => free_buffer a ;;; ret None
        | Some (blk, g) =>
            modify (fun s => set_blocks (<[blk := g]> (blocks s)) s) ;;;
            write_buffer a (mk_buffer (Some (blk, reserve)) 0 sz reserve NET_BUF_FLAG_ALLOC 0 None None) ;;;
            ret (Some a)
        end
    end.

(** The recursion follows the chain; [fuel] bounds its length. *)
Fixpoint net_buffer_free (fuel : nat) (p : ptr) : M net unit :=
  match p with
  | None => ret tt
  | Some a =>
      match fuel with
      | O => spin
      | S f =>
          b <- read_buffer a ;;
          match data b with
          | Some (blk, pos) =>
              if has_flag (flags b) NET_BUF_FLAG_ALLOC
              then
                write_buffer a (set_window (Some (blk, pos - offset b)) (offset b) (len b) b) ;;;
                free_block (blk, pos - offset b)
              else ret tt
          | None => ret tt
          end ;;;
          (match next b with Some n => net_buffer_free f (Some n) | None => ret tt end) ;;;
          free_buffer a
      end
  end.

Definition net_buffer_push (p : ptr) (n : Z) : M net (option (addr * Z)) :=
  match p with
  | None => ret None
  | Some a =>
      b <- read_buffer a ;;
      match data b with
      | None => ret None
      | Some (blk, pos) =>
          if offset b <? n then ret None
          else
            let d := Some (blk, pos - n) in
            write_buffer a (set_window d (u32 (offset b - n)) (u32 (len b + n)) b) ;;;
            ret d
      end
  end.

Definition net_buffer_pull (p : ptr) (n : Z) : M net (option (addr * Z)) :=
  match p with
  | None => ret None
  | Some a =>
      b <- read_buffer a ;;
      match data b with
      | None => ret None
      | Some (blk, pos) =>
          if len b <? n then ret None
          else
            let d := Some (blk, pos + n) in
            write_buffer a (set_window d (u32 (offset b + n)) (u32 (len b - n)) b) ;;;
            ret d
      end
  end.

Definition net_buffer_reserve (p : ptr) (n : Z) : M net Z :=
  match p with
  | None => ret NET_ERR_INVALID
  | Some a =>
      b <- read_buffer a ;;
      match data b with
      | None => ret NET_ERR_INVALID
      | Some (blk, pos) =>
          if 0 <? len b then ret NET_ERR_INVALID
          else if size b <? n then ret NET_ERR_NOMEM
          else
            let pos := if has_flag (flags b) NET_BUF_FLAG_ALLOC then pos - offset b else pos in
            write_buffer a (set_window (Some (blk, pos + n)) n (len b) b) ;;;
            ret 0
      end
  end.

Definition net_buffer_append (p : ptr) (src : option (list Z)) (n : Z) : M net Z :=
  match p, src with
  | Some a, Some src =>
      b <- read_buffer a ;;
      match data b with
      | None => ret NET_ERR_INVALID
      | Some (blk, pos) =>
          if size b <? u32 (u32 (offset b + len b) + n) then ret NET_ERR_NOMEM
          else
            memcpy_to (blk, pos + len b) src n ;;;
            write_buffer a (set_window (data b) (offset b) (u32 (len b + n)) b) ;;;
            ret 0
      end
  | _, _ => ret NET_ERR_INVALID
  end.

(** ** Devices *)

Definition network_init : M net Z :=
  modify (fun s => mk_net (replicate (Z.to_nat NET_MAX_DEVICES) None) 0 None 1 (devs s) (buffers s) (blocks s)) ;;;
  ret 0.

(** The first registered device that satisfies [p], among [devices[i]], ...,
    with [n] entries left. *)
Fixpoint find_device (p : net_device -> bool) (n : nat) (i : Z) : M net ptr :=
  match n with
  | O => ret None
  | S n' =>
      s <- get ;;
      q <- deref (arr_get (devices s) i) ;;
      a <- deref q ;;
      d <- read_dev a ;;
      if p d then ret (Some a) else find_device p n' (i + 1)
  end.

Definition network_register_device (dev : ptr) : M net Z :=
  match dev with
  | None => ret NET_ERR_INVALID
  | Some a =>
      s <- get ;;
      if negb (truth (initialized s)) then ret NET_ERR_INVALID
      else if NET_MAX_DEVICES <=? device_count s then ret NET_ERR_INVALID
      else
        d <- read_dev a ;;
        found <- find_device (fun d' => bool_decide (name d' = name d)) (Z.to_nat (device_count s)) 0 ;;
        match found with
        | Some _ => ret NET_ERR_INVALID
        | None =>
            ds <- deref (arr_set (devices s) (device_count s) (Some a)) ;;
            put (mk_net ds (device_count s + 1)
                   (if device_count s + 1 =? 1 then Some a else default_device s) (initialized s)
                   (devs s) (buffers s) (blocks s)) ;;;
            ret 0
        end
  end.

Definition network_init_enhanced (block : ptr) : M net Z :=
  network_init ;;;
  match block with
  | None => ret NET_ERR_NOMEM
  | Some a =>
      write_dev a (mk_device "lo" (Z.lor NET_DEV_FLAG_UP NET_DEV_FLAG_LOOPBACK) [127; 0; 0; 1]
                     [255; 0; 0; 0] (u16 65536) 0 0) ;;;
      r <- network_register_device (Some a) ;;
      if negb (r =? 0)
      then modify (fun s => set_devs (delete a (devs s)) s) ;;; ret r
      else ret 0
  end.

Definition network_find_device_by_name (nm : option string) : M net ptr :=
  s <- get ;;
  match nm with
  | None => ret None
  | Some n =>
      if negb (truth (initialized s)) then ret None
      else find_device (fun d => bool_decide (name d = n)) (Z.to_nat (device_count s)) 0
  end.

Definition network_find_device_by_ip (addr4 : option (list Z)) : M net ptr :=
  s <- get ;;
  match addr4 with
  | None => ret None
  | Some x =>
      if negb (truth (initialized s)) then ret None
      else find_device (fun d => bool_decide (ip d = x)) (Z.to_nat (device_count s)) 0
  end.

Definition network_get_default_device : M net ptr :=
  s <- get ;; if negb (truth (initialized s)) then ret None else ret (default_device s).

Definition network_set_default_device (dev : ptr) : M net unit :=
  s <- get ;;
  if negb (truth (initialized s)) then ret tt
  else if bool_decide (dev ∈ take (Z.to_nat (device_count s)) (devices s))
  then put (set_default dev s) else ret tt.

Definition network_get_device_count : M net Z :=
  s <- get ;; if negb (truth (initialized s)) then ret 0 else ret (device_count s).

Definition network_get_device (i : Z) : M net ptr :=
  s <- get ;;
  if negb (truth (initialized s)) || (i <? 0) || (device_count s <=? i) then ret None
  else deref (arr_get (devices s) i).

Definition count_rx (n : Z) (d : net_device) : net_device :=
  mk_device (name d) (dev_flags d) (ip d) (netmask d) (mtu d) (u64 (rx_packets d + 1)) (u64 (rx_bytes d + n)).

Definition eth_type (src : list Z) : option Z :=
  h ← src !! 12%nat; l ← src !! 13%nat; Some (Z.lor (Z.shiftl h 8) l).

Definition network_receive_packet (dev : ptr) (src : option (list Z)) (n : Z)
    (a1 : ptr) (a2 : option (addr * list Z)) : M net Z :=
  s <- get ;;
  match dev, src with
  | Some d, Some bytes =>
      if (n =? 0) || negb (truth (initialized s)) then ret NET_ERR_INVALID
      else
        buf <- net_buffer_alloc (u32 (n + 64)) 0 a1 a2 ;;
        match buf with
        | None => ret NET_ERR_NOMEM
        | Some a =>
            b <- read_buffer a ;;
            w <- deref (data b) ;;
            memcpy_to w bytes n ;;;
            write_buffer a (set_device (Some d) (set_window (data b) (offset b) n b)) ;;;
            dv <- read_dev d ;;
            write_dev d (count_rx n dv) ;;;
            (if 14 <=? n
             then
               t <- deref (eth_type bytes) ;;
               b <- read_buffer a ;;
               if t =? 2048 then write_buffer a (set_protocol NET_PROTO_IP b)
               else if t =? 2054 then write_buffer a (set_protocol NET_PROTO_ARP b)
               else ret tt
             else ret tt) ;;;
            net_buffer_free 1 (Some a) ;;;
            ret 0
        end
  | _, _ => ret NET_ERR_INVALID
  end.

(** ** Address text *)

Definition ipv4_to_str (addr4 : option (list Z)) : option string :=
  match addr4 with
  | Some [a; b; c; d] =>
      Some (pretty a +:+ "." +:+ pretty b +:+ "." +:+ pretty c +:+ "." +:+ pretty d)%string
  | _ => None
  end.

Definition is_digit (c : ascii) : bool := (48 <=? nat_of_ascii c)%nat && (nat_of_ascii c <=? 57)%nat.
Definition is_space (c : ascii) : bool :=
  (nat_of_ascii c =? 32)%nat || ((9 <=? nat_of_ascii c)%nat && (nat_of_ascii c <=? 13)%nat).

Fixpoint skip_spaces (s : string) : string :=
  match s with
  | String c s' => if is_space c then skip_spaces s' else s
  | EmptyString => EmptyString
  end.

(** The digits at the start of [s] after the value [acc] of those before them. *)
Fixpoint scan_digits (s : string) (acc : Z) : Z * string :=
  match s with
  | String c s' =>
      if is_digit c then scan_digits s' (10 * acc + (Z.of_nat (nat_of_ascii c) - 48)) else (acc, s)
  | EmptyString => (acc, s)
  end.

(** A [%d] conversion of [sscanf] without its optional sign. *)
Definition scan_nat (s : string) : option (Z * string) :=
  match s with
  | String c _ => if is_digit c then Some (scan_digits s 0) else None
  | EmptyString => None
  end.

(** [%d]: white space, an optional sign, digits. *)
Definition scan_int (s : string) : option (Z * string) :=
  match skip_spaces s with
  | String "-" s' => r ← scan_nat s'; Some (- r.1, r.2)
  | String "+" s' => scan_nat s'
  | s' => scan_nat s'
  end.

Definition scan_dot (s : string) : option string :=
  match s with String "." s' => Some s' | _ => None end.

(** The result code and what [*ip] holds afterwards. *)
Definition str_to_ipv4 (str : option string) (out : option (list Z)) : Z * option (list Z) :=
  match str, out with
  | Some s, Some old =>
      match (r1 ← scan_int s; s1 ← scan_dot r1.2; r2 ← scan_int s1; s2 ← scan_dot r2.2;
             r3 ← scan_int s2; s3 ← scan_dot r3.2; r4 ← scan_int s3;
             Some (r1.1, r2.1, r3.1, r4.1)) with
      | None => (NET_ERR_INVALID, Some old)
      | Some (a, b, c, d) =>
          if (a <? 0) || (255 <? a) || (b <? 0) || (255 <? b) ||
             (c <? 0) || (255 <? c) || (d <? 0) || (255 <? d)
          then (NET_ERR_INVALID, Some old)
          else (0, Some [u8 a; u8 b; u8 c; u8 d])
      end
  | _, _ => (NET_ERR_INVALID, out)
  end.

(** ** Buffers as windows *)

(** The buffer at [a]: its block [l], the data pointer [offset] bytes into it,
    and [len] bytes from there on that lie within the block. *)
Record buf_ok (s : net) (a : addr) (b : net_buffer) (blk : addr) (l : list Z) : Prop := {
  bo_live : buffers s !! a = Some b;
  bo_data : data b = Some (blk, offset b);
  bo_block : blocks s !! blk = Some l;
  bo_size : Z.of_nat (length l) = size b;
  bo_pos : 0 <= offset b /\ 0 <= len b /\ offset b + len b <= size b < 2 ^ 32;
  bo_flags : flags b = NET_BUF_FLAG_ALLOC;
}.

(** The bytes the buffer holds. *)
Definition window (b : net_buffer) (l : list Z) : list Z :=
  take (Z.to_nat (len b)) (drop (Z.to_nat (offset b)) l).

Section Buffers.
Implicit Types (s : net) (a blk : addr) (b : net_buffer) (l : list Z).

Lemma wp_read_buffer a b s Q : buffers s !! a = Some b -> Q b s -> wp (read_buffer a) Q s.
Proof. intros Ha HQ. unfold read_buffer. wp_steps. apply wp_deref. eauto. Qed.

Lemma wp_free_buffer a b s Q :
  buffers s !! a = Some b -> Q tt (set_buffers (delete a (buffers s)) s) -> wp (free_buffer a) Q s.
Proof. intros Ha HQ. unfold free_buffer. wp_steps. apply wp_deref. eauto. Qed.

Lemma wp_memcpy blk pos l src n s Q :
  blocks s !! blk = Some l -> 0 <= n <= Z.of_nat (length src) -> 0 <= pos ->
  pos + n <= Z.of_nat (length l) ->
  Q tt (set_blocks (<[blk := splice l (Z.to_nat pos) (take (Z.to_nat n) src)]> (blocks s)) s) ->
  wp (memcpy_to (blk, pos) src n) Q s.
Proof.
  intros Hb Hn Hp Hl HQ. unfold memcpy_to. wp_steps. simpl. rewrite Hb. simpl. wp_steps.
  destruct (Z.leb_spec n (Z.of_nat (length src))); [|lia]. destruct (Z.leb_spec 0 pos); [|lia].
  destruct (Z.leb_spec (pos + n) (Z.of_nat (length l))); [|lia]. exact HQ.
Qed.

(** Appending: as long as [offset + len + n] fits in 32 bits,
    [net_buffer_append] refuses with NET_ERR_NOMEM, changing nothing, exactly
    when the block has no room for [n] more bytes; otherwise it returns 0, the
    buffer holds its old bytes followed by the [n] new ones, and its window
    still lies within the block. *)
Theorem net_buffer_append_window s a b blk l src n :
  buf_ok s a b blk l -> 0 <= n <= Z.of_nat (length src) -> offset b + len b + n < 2 ^ 32 ->
  wp (net_buffer_append (Some a) (Some src) n)
     (fun r s' =>
        if size b <? offset b + len b + n then r = NET_ERR_NOMEM /\ s' = s
        else r = 0 /\ exists b' l', buf_ok s' a b' blk l' /\
               window b' l' = window b l ++ take (Z.to_nat n) src /\ offset b' = offset b) s.
Proof.
  intros [Hlive Hd Hb Hsz Hpos Hfl] Hn Hov. unfold net_buffer_append. wp_steps.
  eapply wp_read_buffer; [done|]. rewrite Hd. cbn [fst snd].
  rewrite (u32_small (offset b + len b)), u32_small by lia.
  destruct (Z.ltb_spec (size b) (offset b + len b + n)); wp_steps; [done|].
  eapply wp_memcpy; [done|done|lia|lia|]. unfold write_buffer. wp_steps.
  split; [done|]. eexists _, _. split; [split|].
  - simpl. apply lookup_insert_eq.
  - done.
  - simpl. apply lookup_insert_eq.
  - simpl. rewrite splice_length; [done|]. rewrite length_take. lia.
  - simpl. rewrite u32_small by lia. lia.
  - done.
  - split; [|done]. unfold window. cbn [len offset set_window]. rewrite u32_small by lia.
    replace (Z.to_nat (len b + n)) with (Z.to_nat (len b) + length (take (Z.to_nat n) src))%nat
      by (rewrite length_take; lia).
    replace (Z.to_nat (offset b + len b)) with (Z.to_nat (offset b) + Z.to_nat (len b))%nat by lia.
    apply splice_window. rewrite length_take. lia.
Qed.

(** The space check of [net_buffer_append] wraps around: a length for which
    [offset + len + n] reaches 2^32 passes the check although the block has
    less room, and the copy runs past the end of the block. *)
Theorem net_buffer_append_check_wraps s a b blk l src n :
  buf_ok s a b blk l -> n = Z.of_nat (length src) -> n < 2 ^ 32 ->
  2 ^ 32 <= offset b + len b + n <= 2 ^ 32 + size b ->
  net_buffer_append (Some a) (Some src) n s = Fault.
Proof.
  intros [Hlive Hd Hb Hsz Hpos Hfl] Hn Hlt Hov. unfold net_buffer_append, bind, read_buffer, bind, get.
  rewrite Hlive. simpl. rewrite Hd. rewrite (u32_small (offset b + len b)) by lia.
  assert (u32 (offset b + len b + n) = offset b + len b + n - 2 ^ 32) as ->.
  { unfold u32. symmetry. apply Z.mod_unique with 1; lia. }
  destruct (Z.ltb_spec (size b) (offset b + len b + n - 2 ^ 32)); [lia|].
  unfold memcpy_to, bind, get. simpl. rewrite Hb. simpl.
  destruct (Z.leb_spec (offset b + len b + n) (Z.of_nat (length l))); [lia|].
  by rewrite andb_false_r.
Qed.

(** Removing a header and putting it back: [net_buffer_pull] of at most [len]
    bytes leaves the rest of the bytes in the buffer, and [net_buffer_push] of
    the same length restores the buffer exactly; a longer pull, or a push of
    more than the headroom, returns NULL and changes nothing. *)
Theorem net_buffer_pull_push_roundtrip s a b blk l n :
  buf_ok s a b blk l -> 0 <= n ->
  (n <= len b ->
   wp (d <- net_buffer_pull (Some a) n ;; s1 <- get ;; d' <- net_buffer_push (Some a) n ;; ret (d, s1, d'))
      (fun out s' => s' = s /\ exists b1 s1, out = (Some (blk, offset b + n), s1, data b) /\
         buf_ok s1 a b1 blk l /\ window b1 l = drop (Z.to_nat n) (window b l)) s) /\
  (len b < n -> net_buffer_pull (Some a) n s = Ret (None, s)) /\
  (offset b < n -> net_buffer_push (Some a) n s = Ret (None, s)).
Proof.
  intros [Hlive Hd Hb Hsz Hpos Hfl] Hn. split; [|split].
  - intros Hle. unfold net_buffer_pull, net_buffer_push. wp_steps. eapply wp_read_buffer; [done|].
    rewrite Hd. destruct (Z.ltb_spec (len b) n); [lia|]. unfold write_buffer. wp_steps.
    assert (u32 (offset b + n) = offset b + n) as -> by (apply u32_small; lia).
    assert (u32 (len b - n) = len b - n) as -> by (apply u32_small; lia).
    eapply wp_read_buffer; [simpl; apply lookup_insert_eq|]. simpl.
    destruct (Z.ltb_spec (offset b + n) n); [lia|]. wp_steps. simpl.
    assert (u32 (offset b + n - n) = offset b) as -> by (rewrite u32_small; lia).
    assert (u32 (len b - n + n) = len b) as -> by (rewrite u32_small; lia). split.
    + destruct s. unfold set_buffers. simpl in *. f_equal. rewrite insert_insert_eq.
      apply insert_id. rewrite Hlive. f_equal. destruct b. simpl in *. unfold set_window. simpl.
      f_equal. rewrite Hd. do 2 f_equal. lia.
    + exists (set_window (Some (blk, offset b + n)) (offset b + n) (len b - n) b), (set_buffers
        (<[a := set_window (Some (blk, offset b + n)) (offset b + n) (len b - n) b]> (buffers s)) s).
      split; [|split; [split|]].
      * replace (offset b + n - n) with (offset b) by lia. done.
      * simpl. apply lookup_insert_eq.
      * done.
      * done.
      * done.
      * simpl. lia.
      * done.
      * unfold window. simpl. rewrite Z2Nat.inj_add, <- drop_drop by lia.
        rewrite skipn_firstn_comm. f_equal. lia.
  - intros Hlt. unfold net_buffer_pull, bind, read_buffer, bind, get. rewrite Hlive. simpl. rewrite Hd.
    destruct (Z.ltb_spec (len b) n); [done|lia].
  - intros Hlt. unfold net_buffer_push, bind, read_buffer, bind, get. rewrite Hlive. simpl. rewrite Hd.
    destruct (Z.ltb_spec (offset b) n); [done|lia].
Qed.

End Buffers.

(** A buffer of eight bytes, three of them in use behind two of headroom. *)
Definition demo_block : list Z := [0; 0; 7; 8; 9; 0; 0; 0].
Definition demo_buffer : net_buffer := mk_buffer (Some (2%positive, 2)) 3 8 2 NET_BUF_FLAG_ALLOC 0 None None.
Definition demo : net :=
  mk_net (replicate 8 None) 0 None 1 ∅ {[ 1%positive := demo_buffer ]} {[ 2%positive := demo_block ]}.

Lemma demo_ok : buf_ok demo 1 demo_buffer 2 demo_block.
Proof. split; try reflexivity. simpl. lia. Qed.

Lemma net_buffer_append_window_witness :
  wp (net_buffer_append (Some 1%positive) (Some [5; 6]) 2)
     (fun r s' => if 8 <? 7 then r = NET_ERR_NOMEM /\ s' = demo
        else r = 0 /\ exists b' l', buf_ok s' 1 b' 2 l' /\ window b' l' = [7; 8; 9; 5; 6] /\ offset b' = 2) demo.
Proof. apply (net_buffer_append_window demo 1 demo_buffer 2 demo_block [5; 6] 2 demo_ok); simpl; lia. Defined.

Lemma net_buffer_append_check_wraps_witness :
  net_buffer_append (Some 1%positive) (Some (replicate (Z.to_nat (2 ^ 32 - 4)) 0)) (2 ^ 32 - 4) demo = Fault.
Proof.
  apply (net_buffer_append_check_wraps demo 1 demo_buffer 2 demo_block).
  - exact demo_ok.
  - rewrite length_replicate, Z2Nat.id; lia.
  - lia.
  - cbn [offset len size demo_buffer]. lia.
Defined.

Lemma net_buffer_pull_push_roundtrip_witness :
  wp (d <- net_buffer_pull (Some 1%positive) 2 ;; s1 <- get ;;
      d' <- net_buffer_push (Some 1%positive) 2 ;; ret (d, s1, d'))
     (fun out s' => s' = demo /\ exists b1 s1, out = (Some (2%positive, 4), s1, data demo_buffer) /\
        buf_ok s1 1 b1 2 demo_block /\ window b1 demo_block = [9]) demo.
Proof.
  destruct (net_buffer_pull_push_roundtrip demo 1 demo_buffer 2 demo_block 2 demo_ok) as (H & _ & _); [lia|].
  apply H. simpl. lia.
Defined.

(** ** Allocation *)

(** Allocation and release: [net_buffer_alloc] gives an empty buffer with the
    asked headroom, whose window lies in the block when the headroom is at most
    the size; [net_buffer_free] then releases the block at the address
    [heap_alloc] returned, and the buffer, and leaves memory as it was. When one
    of the two allocations fails, NULL is returned and nothing stays allocated. *)
Theorem net_buffer_alloc_free_roundtrip s sz reserve a blk g :
  0 < sz < 2 ^ 32 -> Z.of_nat (length g) = sz -> buffers s !! a = None -> blocks s !! blk = None ->
  wp (p <- net_buffer_alloc sz reserve (Some a) (Some (blk, g)) ;; s1 <- get ;;
      net_buffer_free 1 p ;;; ret (p, s1))
     (fun out s' => s' = s /\ exists b s1, out = (Some a, s1) /\ len b = 0 /\ offset b = reserve /\
        (0 <= reserve <= sz -> buf_ok s1 a b blk g)) s /\
  (forall a2, net_buffer_alloc sz reserve None a2 s = Ret (None, s)) /\
  net_buffer_alloc sz reserve (Some a) None s = Ret (None, s).
Proof.
  intros Hsz Hg Ha Hblk. unfold net_buffer_alloc. destruct (Z.eqb_spec sz 0); [lia|].
  split; [|split; [done|]].
  - unfold write_buffer. wp_steps. cbn [net_buffer_free]. wp_steps.
    eapply wp_read_buffer; [simpl; apply lookup_insert_eq|]. simpl. unfold write_buffer. wp_steps.
    unfold free_block. wp_steps. simpl. rewrite lookup_insert_eq. simpl. wp_steps.
    rewrite Z.sub_diag. simpl. wp_steps. eapply wp_free_buffer; [simpl; apply lookup_insert_eq|]. wp_steps.
    split.
    + destruct s. unfold set_blocks, set_buffers. simpl in *. f_equal.
      * by rewrite !insert_insert_eq, delete_insert_id.
      * by rewrite delete_insert_id.
    + eexists (mk_buffer (Some (blk, reserve)) 0 sz reserve NET_BUF_FLAG_ALLOC 0 None None), _.
      split; [done|]. split; [done|]. split; [done|]. intros Hr. split; simpl; try done; try lia.
      * apply lookup_insert_eq.
      * apply lookup_insert_eq.
  - unfold write_buffer, bind, modify, free_buffer, bind, get. simpl. rewrite lookup_insert_eq. simpl.
    unfold put, ret. do 2 f_equal. destruct s. unfold set_buffers. simpl in *. by rewrite delete_insert_id.
Qed.

Lemma net_buffer_alloc_free_roundtrip_witness :
  wp (p <- net_buffer_alloc 4 1 (Some 7%positive) (Some (8%positive, [0; 0; 0; 0])) ;; s1 <- get ;;
      net_buffer_free 1 p ;;; ret (p, s1))
     (fun out s' => s' = demo /\ exists b s1, out = (Some 7%positive, s1) /\ len b = 0 /\ offset b = 1 /\
        (0 <= 1 <= 4 -> buf_ok s1 7 b 8 [0; 0; 0; 0])) demo.
Proof.
  apply (net_buffer_alloc_free_roundtrip demo 4 1 7 8 [0; 0; 0; 0]); [lia|reflexivity..].
Defined.

(** ** The device registry *)

Definition registered (s : net) : list ptr := take (Z.to_nat (device_count s)) (devices s).

Definition name_at (s : net) (p : ptr) : option string := a ← p; name <$> devs s !! a.

Record reg_ok (s : net) : Prop := {
  ro_init : initialized s = 1;
  ro_slots : Z.of_nat (length (devices s)) = NET_MAX_DEVICES;
  ro_count : 0 <= device_count s <= NET_MAX_DEVICES;
  ro_live p : p ∈ registered s -> exists a d, p = Some a /\ devs s !! a = Some d;
  ro_names : NoDup (omap (name_at s) (registered s));
  ro_default : if device_count s =? 0 then default_device s = None else default_device s ∈ registered s;
}.

Section Registry.
Implicit Types (s : net) (a : addr).

Lemma registered_at s i p :
  registered s !! i = Some p -> (i < Z.to_nat (device_count s))%nat /\ devices s !! i = Some p.
Proof. unfold registered. rewrite lookup_take_Some. by intros [? ?]. Qed.

(** The search returns the first registered device with the property. *)
Lemma find_device_spec s (p : net_device -> bool) n i :
  reg_ok s -> (i + n = Z.to_nat (device_count s))%nat ->
  (exists a d j, find_device p n (Z.of_nat i) s = Ret (Some a, s) /\ (i <= j)%nat /\
     registered s !! j = Some (Some a) /\ devs s !! a = Some d /\ p d = true) \/
  (find_device p n (Z.of_nat i) s = Ret (None, s) /\
   forall j a d, (i <= j)%nat -> registered s !! j = Some (Some a) -> devs s !! a = Some d -> p d = false).
Proof.
  intros Hok. revert i. induction n as [|n IH]; intros i Hi.
  - right. split; [done|]. intros j a d Hj Hl. apply registered_at in Hl. lia.
  - destruct Hok as [Hin Hsl Hct Hlv Hnm Hdf] eqn:Eok. clear Eok.
    destruct (lookup_lt_is_Some_2 (registered s) i) as [q Hq].
    { unfold registered. rewrite length_take. lia. }
    destruct (Hlv q) as (a & d & -> & Hd); [by eapply list_elem_of_lookup_2|].
    pose proof (registered_at _ _ _ Hq) as [_ Hdev].
    cbn [find_device]. unfold bind, get, deref. rewrite arr_get_nat, Hdev. unfold ret, read_dev, bind, get, deref.
    rewrite Hd. unfold ret. destruct (p d) eqn:Ep.
    + left. exists a, d, i. done.
    + replace (Z.of_nat i + 1) with (Z.of_nat (S i)) by lia.
      destruct (IH (S i)) as [(b & e & j & -> & ? & ? & ? & ?)|[-> Hno]]; [lia| |].
      * left. exists b, e, j. repeat split; try done. lia.
      * right. split; [done|]. intros j b e Hj Hl Hb.
        destruct (decide (j = i)) as [->|]; [|apply (Hno j b e); (lia || done)]. congruence.
Qed.

Lemma registered_insert s a :
  reg_ok s -> device_count s < NET_MAX_DEVICES ->
  let ds := <[Z.to_nat (device_count s) := Some a]> (devices s) in
  take (Z.to_nat (device_count s + 1)) ds = registered s ++ [Some a].
Proof.
  intros [_ Hsl Hct _ _ _] Hlt. cbn zeta.
  replace (Z.to_nat (device_count s + 1)) with (S (Z.to_nat (device_count s))) by lia.
  rewrite (take_S_r _ _ (Some a)) by (apply list_lookup_insert_eq; lia).
  by rewrite take_insert_ge by lia.
Qed.

(** The state after a device was registered. *)
Lemma register_ok s a d ds :
  reg_ok s -> devs s !! a = Some d -> device_count s < NET_MAX_DEVICES ->
  (forall b e, Some b ∈ registered s -> devs s !! b = Some e -> name e <> name d) ->
  ds = <[Z.to_nat (device_count s) := Some a]> (devices s) ->
  reg_ok (mk_net ds (device_count s + 1) (if device_count s + 1 =? 1 then Some a else default_device s)
            (initialized s) (devs s) (buffers s) (blocks s)).
Proof.
  intros Hok Ha Hlt Hno ->. pose proof (registered_insert s a Hok Hlt) as Hreg. cbn zeta in Hreg.
  destruct Hok as [Hin Hsl Hct Hlv Hnm Hdf].
  split; unfold registered, name_at in *; simpl; rewrite ?Hreg; try done.
  - by rewrite length_insert.
  - lia.
  - intros p Hp. apply elem_of_app in Hp as [Hp|Hp]; [by apply Hlv|apply list_elem_of_singleton in Hp as ->]. eauto.
  - rewrite omap_app. simpl. rewrite Ha. simpl. apply NoDup_app. split; [done|]. split.
    + intros x Hx ->%list_elem_of_singleton. apply list_elem_of_omap in Hx as (p & Hp & Hx).
      destruct (Hlv p Hp) as (b & e & -> & He). simpl in Hx. rewrite He in Hx. injection Hx as Hx.
      by apply (Hno b e).
    + apply NoDup_singleton.
  - destruct (Z.eqb_spec (device_count s + 1) 0); [lia|].
    destruct (Z.eqb_spec (device_count s + 1) 1).
    + rewrite elem_of_app, list_elem_of_singleton. by right.
    + destruct (Z.eqb_spec (device_count s) 0); [lia|]. rewrite elem_of_app. by left.
Qed.

(** The device registry: registering a device either adds it behind the others
    and makes it the one its name finds, the default one if it is the first, or
    returns NET_ERR_INVALID and changes nothing, and it does that exactly when
    eight devices are registered or one with that name is. Names stay unique. *)
Theorem network_register_device_spec s a d :
  reg_ok s -> devs s !! a = Some d ->
  wp (network_register_device (Some a))
     (fun r s' => reg_ok s' /\
        if bool_decide (device_count s = NET_MAX_DEVICES \/ name d ∈ omap (name_at s) (registered s))
        then r = NET_ERR_INVALID /\ s' = s
        else r = 0 /\ registered s' = registered s ++ [Some a] /\
          default_device s' = (if device_count s =? 0 then Some a else default_device s) /\
          network_find_device_by_name (Some (name d)) s' = Ret (Some a, s')) s.
Proof.
  intros Hok Ha. pose proof Hok as [Hin Hsl Hct Hlv Hnm Hdf].
  unfold network_register_device. wp_steps. rewrite Hin. simpl.
  destruct (Z.leb_spec NET_MAX_DEVICES (device_count s)) as [Hfull|Hroom].
  { wp_steps. rewrite bool_decide_eq_true_2 by (left; lia). done. }
  unfold read_dev. wp_steps. rewrite Ha. simpl. wp_steps. unfold wp.
  assert (forall s1, reg_ok s1 -> exists r, find_device (fun d' => bool_decide (name d' = name d))
    (Z.to_nat (device_count s1)) 0 s1 = Ret (r, s1) /\
    match r with
    | Some b => exists e, Some b ∈ registered s1 /\ devs s1 !! b = Some e /\ name e = name d
    | None => forall b e, Some b ∈ registered s1 -> devs s1 !! b = Some e -> name e <> name d
    end) as Hfind.
  { intros s1 Hok1.
    destruct (find_device_spec s1 (fun d' => bool_decide (name d' = name d)) (Z.to_nat (device_count s1)) 0 Hok1)
      as [(b & e & j & E & _ & Hj & He & Hp)|[E Hno]]; [lia| |]; eexists; (split; [exact E|]).
    - exists e. split; [by eapply list_elem_of_lookup_2|]. split; [done|]. by apply bool_decide_eq_true in Hp.
    - intros b e [j Hj]%list_elem_of_lookup He. specialize (Hno j b e ltac:(lia) Hj He).
      by apply bool_decide_eq_false in Hno. }
  destruct (Hfind s Hok) as ([b|] & E & Hb); unfold bind at 1; rewrite E.
  - destruct Hb as (e & Hb & He & Hne). simpl. rewrite bool_decide_eq_true_2; [by split|]. right.
    apply list_elem_of_omap. exists (Some b). split; [done|]. unfold name_at. simpl. by rewrite He, <- Hne.
  - rewrite arr_set_some by lia. simpl. pose proof (register_ok s a d _ Hok Ha Hroom Hb eq_refl) as Hok'.
    rewrite Hin in Hok'. unfold bind, ret, put. simpl. match type of Hok' with reg_ok ?x => set (s' := x) in * end.
    split; [exact Hok'|].
    pose proof (registered_insert s a Hok Hroom) as Hreg. change (registered s' = registered s ++ [Some a]) in Hreg.
    rewrite bool_decide_eq_false_2.
    + split; [done|]. split; [done|]. split.
      * simpl. destruct (Z.eqb_spec (device_count s + 1) 1), (Z.eqb_spec (device_count s) 0); (done || lia).
      * change (network_find_device_by_name (Some (name d)) s') with
          (find_device (fun d' => bool_decide (name d' = name d)) (Z.to_nat (device_count s')) 0 s').
        destruct (Hfind s' Hok') as ([c|] & E' & Hc); rewrite E'.
        { destruct Hc as (e & Hc & He & Hne). rewrite Hreg, elem_of_app, list_elem_of_singleton in Hc.
          destruct Hc as [Hc|[= ->]]; [by destruct (Hb c e)|done]. }
        destruct (Hc a d); [|done|done]. rewrite Hreg, elem_of_app, list_elem_of_singleton. by right.
    + intros [?|(p & Hp & Hn)%list_elem_of_omap]; [lia|].
      destruct (Hlv p Hp) as (c & e & -> & He). unfold name_at in Hn. simpl in Hn. rewrite He in Hn.
      injection Hn as Hn. by apply (Hb c e).
Qed.

End Registry.

Definition eth0 : net_device := mk_device "eth0" 1 [10; 0; 0; 2] [255; 0; 0; 0] 1500 0 0.
Definition lo : net_device := mk_device "lo" 3 [127; 0; 0; 1] [255; 0; 0; 0] 0 0 0.
Definition one_device : net :=
  mk_net (Some 1%positive :: replicate 7 None) 1 (Some 1%positive) 1
    {[ 1%positive := lo; 2%positive := eth0 ]} ∅ ∅.

Lemma one_device_ok : reg_ok one_device.
Proof.
  split; try reflexivity.
  - simpl. unfold NET_MAX_DEVICES. lia.
  - intros p ->%list_elem_of_singleton. by eexists _, _.
  - apply NoDup_singleton.
  - by left.
Qed.

Lemma network_register_device_spec_witness :
  wp (network_register_device (Some 2%positive))
     (fun r s' => reg_ok s' /\
        if bool_decide (device_count one_device = NET_MAX_DEVICES \/
                        name eth0 ∈ omap (name_at one_device) (registered one_device))
        then r = NET_ERR_INVALID /\ s' = one_device
        else r = 0 /\ registered s' = registered one_device ++ [Some 2%positive] /\
          default_device s' = (if device_count one_device =? 0 then Some 2%positive else default_device one_device) /\
          network_find_device_by_name (Some (name eth0)) s' = Ret (Some 2%positive, s')) one_device.
Proof. apply (network_register_device_spec one_device 2 eth0 one_device_ok). reflexivity. Defined.

(** ** Receiving *)

#[local] Arguments net_buffer_free : simpl never.

(** An incoming packet of up to 2^32 - 65 bytes is accepted with code 0 when
    both allocations succeed: exactly the device's packet and byte counters
    advance, and the buffer and its block are released again, so that no memory
    is held afterwards. (A longer length wraps in [len + 64] and the copy leaves
    the block.) *)
Theorem network_receive_packet_spec s d dv src n a blk g :
  initialized s = 1 -> devs s !! d = Some dv -> 0 < n <= Z.of_nat (length src) -> n + 64 < 2 ^ 32 ->
  buffers s !! a = None -> blocks s !! blk = None -> Z.of_nat (length g) = n + 64 ->
  network_receive_packet (Some d) (Some src) n (Some a) (Some (blk, g)) s =
  Ret (0, set_devs (<[d := count_rx n dv]> (devs s)) s).
Proof.
  intros Hin Hd Hn Hlt Ha Hblk Hg.
  assert (wp (network_receive_packet (Some d) (Some src) n (Some a) (Some (blk, g)))
    (fun r s' => r = 0 /\ s' = set_devs (<[d := count_rx n dv]> (devs s)) s) s) as Hwp.
  { unfold network_receive_packet. wp_steps. rewrite Hin. destruct (Z.eqb_spec n 0); [lia|]. simpl.
    unfold net_buffer_alloc. rewrite u32_small by lia. destruct (Z.eqb_spec (n + 64) 0); [lia|].
    unfold write_buffer. wp_steps. eapply wp_read_buffer; [simpl; apply lookup_insert_eq|]. simpl. wp_steps.
    eapply wp_memcpy; [simpl; apply lookup_insert_eq|lia|lia|lia|]. wp_steps.
    unfold read_dev. wp_steps. simpl. rewrite Hd. simpl. unfold write_dev. wp_steps.
    rewrite !insert_insert_eq. simpl.
    assert (forall b k, data b = Some (blk, 0) -> offset b = 0 -> flags b = NET_BUF_FLAG_ALLOC -> next b = None ->
      buffers k = <[a := b]> (buffers s) -> (exists x, blocks k = <[blk := x]> (blocks s)) ->
      devices k = devices s -> device_count k = device_count s -> default_device k = default_device s ->
      initialized k = initialized s -> devs k = <[d := count_rx n dv]> (devs s) ->
      wp (net_buffer_free 1 (Some a))
         (fun _ s' => wp (ret 0) (fun r s' => r = 0 /\ s' = set_devs (<[d := count_rx n dv]> (devs s)) s) s') k) as Hfree.
    { intros b k Hdb Hob Hfb Hnb Hbk [x Hx] H1 H2 H3 H4 H5. unfold net_buffer_free. wp_steps.
      eapply wp_read_buffer; [rewrite Hbk; apply lookup_insert_eq|]. rewrite Hdb, Hfb, Hnb, Hob. simpl.
      unfold write_buffer, free_block. wp_steps. simpl. rewrite Hx, lookup_insert_eq. simpl. wp_steps.
      eapply wp_free_buffer; [simpl; apply lookup_insert_eq|]. wp_steps. split; [done|].
      destruct k, s. simpl in *. unfold set_devs, set_blocks, set_buffers. simpl. subst. f_equal.
      - by rewrite insert_insert_eq, delete_insert_id.
      - by rewrite delete_insert_id. }
    destruct (Z.leb_spec 14 n); [|wp_steps; eapply Hfree; try done; by eexists].
    destruct (lookup_lt_is_Some_2 src 12) as [h Hh]; [lia|].
    destruct (lookup_lt_is_Some_2 src 13) as [l Hl]; [lia|].
    unfold eth_type. rewrite Hh, Hl. simpl. wp_steps.
    eapply wp_read_buffer; [simpl; apply lookup_insert_eq|].
    case_if; [|case_if]; wp_steps; eapply Hfree; try done; simpl; rewrite ?insert_insert_eq; try done; by eexists. }
  destruct (wp_returns _ _ _ Hwp) as (r & s' & E & -> & ->). exact E.
Qed.

Lemma network_receive_packet_spec_witness :
  network_receive_packet (Some 1%positive) (Some [1; 2; 3]) 3 (Some 5%positive)
    (Some (6%positive, replicate 67 0)) one_device =
  Ret (0, set_devs (<[1%positive := count_rx 3 lo]> (devs one_device)) one_device).
Proof. apply (network_receive_packet_spec one_device 1 lo [1; 2; 3] 3 5 6 (replicate 67 0)); reflexivity || (simpl; lia). Defined.

(** ** Address text *)

Fixpoint all_digits (s : string) : bool :=
  match s with EmptyString => true | String c s' => is_digit c && all_digits s' end.

Definition starts_with_digit (s : string) : bool :=
  match s with EmptyString => false | String c _ => is_digit c end.

Lemma scan_digits_app s t acc :
  all_digits s = true -> starts_with_digit t = false ->
  scan_digits (s +:+ t) acc = ((scan_digits s acc).1, t).
Proof.
  revert acc. induction s as [|c s IH]; intros acc Hs Ht; simpl in *.
  - destruct t as [|c t]; [done|]. simpl in *. by rewrite Ht.
  - apply andb_prop in Hs as [Hc Hs]. rewrite Hc. by apply IH.
Qed.

Lemma string_app_assoc (s t u : string) : (s +:+ t) +:+ u = s +:+ (t +:+ u).
Proof. induction s as [|c s IH]; [done|]. exact (f_equal (String c) IH). Qed.

Lemma scan_dot_app (t : string) : scan_dot ("." +:+ t) = Some t.
Proof. done. Qed.

Definition byte_text_ok (a : Z) : bool :=
  let s := pretty a in
  all_digits s && starts_with_digit s && ((scan_digits s 0).1 =? a).

Lemma byte_text a : 0 <= a < 256 -> byte_text_ok a = true.
Proof.
  intros Ha. assert (forallb byte_text_ok (seqZ 0 256) = true) as H by (vm_compute; reflexivity).
  rewrite forallb_forall in H. apply H. apply list_elem_of_In, elem_of_seqZ. lia.
Qed.

(** Reading back the text of a byte. *)
Lemma scan_byte a t :
  0 <= a < 256 -> starts_with_digit t = false -> scan_int (pretty a +:+ t) = Some (a, t).
Proof.
  intros Ha Ht. pose proof (byte_text a Ha) as H. unfold byte_text_ok in H. cbn zeta in H.
  apply andb_prop in H as [H Hv]. apply andb_prop in H as [Hd Hs]. apply Z.eqb_eq in Hv.
  assert (scan_nat (pretty a +:+ t) = Some (a, t)) as Hn.
  { pose proof (scan_digits_app (pretty a) t 0 Hd Ht) as E. rewrite Hv in E.
    destruct (pretty a) as [|c s]; [done|]. simpl in Hs. unfold scan_nat. simpl.
    rewrite Hs. f_equal. simpl in E. by rewrite Hs in E. }
  assert (forall s, starts_with_digit s = true -> scan_int s = scan_nat s) as Hi.
  { intros [|c s'] Hc; [done|]. simpl in Hc. unfold scan_int. simpl.
    destruct c as [[] [] [] [] [] [] [] []]; try discriminate; done. }
  rewrite Hi; [done|]. destruct (pretty a); [done|]. exact Hs.
Qed.

(** IPv4 address text round trip: [str_to_ipv4] reads back every address that
    [ipv4_to_str] prints, also with text that does not begin with a digit behind
    it. *)
Theorem ipv4_text_roundtrip a b c d old txt junk :
  0 <= a < 256 -> 0 <= b < 256 -> 0 <= c < 256 -> 0 <= d < 256 ->
  ipv4_to_str (Some [a; b; c; d]) = Some txt -> starts_with_digit junk = false ->
  str_to_ipv4 (Some (txt +:+ junk)) (Some old) = (0, Some [a; b; c; d]).
Proof.
  intros Ha Hb Hc Hd [= <-] Hj. unfold str_to_ipv4. rewrite !string_app_assoc.
  rewrite (scan_byte a) by done. cbn [mbind option_bind fst snd]. rewrite scan_dot_app. cbn [mbind option_bind].
  rewrite (scan_byte b) by done. cbn [mbind option_bind fst snd]. rewrite scan_dot_app. cbn [mbind option_bind].
  rewrite (scan_byte c) by done. cbn [mbind option_bind fst snd]. rewrite scan_dot_app. cbn [mbind option_bind].
  rewrite (scan_byte d) by done. cbn [mbind option_bind fst snd].
  repeat match goal with |- context [?x <? ?y] => destruct (Z.ltb_spec x y); [lia|] end. simpl.
  unfold u8. by rewrite !Z.mod_small by lia.
Qed.

Lemma ipv4_text_roundtrip_witness :
  str_to_ipv4 (Some "192.168.1.20:80"%string) (Some [0; 0; 0; 0]) = (0, Some [192; 168; 1; 20]).
Proof.
  apply (ipv4_text_roundtrip 192 168 1 20 [0; 0; 0; 0] "192.168.1.20" ":80"); try lia; vm_compute; reflexivity.
Defined.

End Network.
