(* ===== verification/Ip.v ===== *)
(** * The IPv4 layer ([network/src/ip.c])

    The header checksum, building and accepting headers in packet buffers, the
    registry of protocols above IP, the address predicates and the configuration.
    The state is that of [Network] with the static variables of [ip.c]. A header
    is the twenty bytes at the data pointer of a buffer; a 16-bit member is stored
    with its low byte first, as on the processors the kernel runs on.

    [ip_rx], [ip_tx] and [ip_alloc_packet] call buffer functions ([netbuf_push]
    and others) that the repository does not have, and are left out. *)

From Stdlib Require Import ZArith Lia String.
From stdpp Require Import base tactics option list gmap strings.
From S2P Require Import Prelude Network.

Set Default Goal Selector "!".
Local Open Scope Z_scope.
Local Open Scope kernel_scope.

Module Ip.
Import Network.

Definition NET_ERR_OK : Z := 0.
Definition NET_PROTO_TCP : Z := 4.
Definition NET_PROTO_UDP : Z := 5.
Definition NET_PROTO_ICMP : Z := 6.
(** [sizeof(ip_header_t)] *)
Definition HEADER : Z := 20.

(** ** State *)

(** The static variables of [ip.c], and the [gateway] members of the devices.
    A handler is the address of its function. *)
Record ips : Type := mk_ips {
  stack : net;
  next_id : Z;
  handlers : list (Z * addr);
  local_ip : list Z;
  subnet_mask : list Z;
  default_gateway : list Z;
  gateways : gmap addr (list Z);
}.

Definition set_stack (x : net) (s : ips) : ips :=
  mk_ips x (next_id s) (handlers s) (local_ip s) (subnet_mask s) (default_gateway s) (gateways s).
Definition set_next_id (x : Z) (s : ips) : ips :=
  mk_ips (stack s) x (handlers s) (local_ip s) (subnet_mask s) (default_gateway s) (gateways s).
Definition set_handlers (x : list (Z * addr)) (s : ips) : ips :=
  mk_ips (stack s) (next_id s) x (local_ip s) (subnet_mask s) (default_gateway s) (gateways s).
Definition set_config (a m g : list Z) (s : ips) : ips :=
  mk_ips (stack s) (next_id s) (handlers s) a m g (gateways s).

(** A call into [network.c]. *)
Definition on_net {A} (m : M net A) : M ips A := fun s =>
  match m (stack s) with
  | Ret (a, n) => Ret (a, set_stack n s)
  | Spin => Spin
  | Fault => Fault
  end.

(** ** Checksum *)

(** The sum of the 16-bit words of [data], in a [uint32_t]. *)
Fixpoint sum_words (data : list Z) (sum : Z) : Z :=
  match data with
  | lo :: hi :: r => sum_words r (u32 (sum + (lo + 256 * hi)))
  | [b] => u32 (sum + b)
  | [] => sum
  end.

(** [while (sum >> 16) ...]; two rounds are enough for a 32-bit sum. *)
Fixpoint fold_carry (fuel : nat) (sum : Z) : Z :=
  match fuel with
  | O => sum
  | S f =>
      if truth (Z.shiftr sum 16)
      then fold_carry f (u32 (Z.land sum 0xFFFF + Z.shiftr sum 16))
      else sum
  end.

Definition ip_checksum (data : list Z) : Z := u16 (Z.lnot (fold_carry 3 (sum_words data 0))).

(** ** Protocols *)

Definition ip_init : M ips Z :=
  modify (fun s => mk_ips (stack s) 1 [] [0; 0; 0; 0] [0; 0; 0; 0] [0; 0; 0; 0] (gateways s)) ;;; ret 0.

Fixpoint ip_find_protocol_handler (hs : list (Z * addr)) (protocol : Z) : ptr :=
  match hs with
  | [] => None
  | (p, h) :: hs' => if p =? protocol then Some h else ip_find_protocol_handler hs' protocol
  end.

Definition ip_register_protocol (protocol : Z) (handler : ptr) : M ips Z :=
  match handler with
  | None => ret (-1)
  | Some h =>
      s <- get ;;
      if 8 <=? Z.of_nat (length (handlers s)) then ret (-1)
      else match ip_find_protocol_handler (handlers s) protocol with
      | Some _ => ret (-1)
      | None => put (set_handlers (handlers s ++ [(protocol, h)]) s) ;;; ret 0
      end
  end.

(** ** Headers *)

(** The [n] bytes at a data pointer. *)
Definition read_bytes (d : addr * Z) (n : Z) : M net (list Z) :=
  s <- get ;;
  l <- deref (blocks s !! d.1) ;;
  if (0 <=? d.2) && (d.2 + n <=? Z.of_nat (length l))
  then ret (take (Z.to_nat n) (drop (Z.to_nat d.2) l)) else fault.

(** Byte [i] of a header that has it. *)
Definition byte (h : list Z) (i : nat) : Z := nth i h 0.
Definition addr_at (h : list Z) (i : nat) : list Z := take 4 (drop i h).

(** The two bytes at [i] set, and exchanged ([(x >> 8) | (x << 8)]). *)
Definition set_word (h : list Z) (i : nat) (lo hi : Z) : list Z := splice h i [lo; hi].
Definition swap_word (h : list Z) (i : nat) : list Z := set_word h i (byte h (S i)) (byte h i).

(** A 16-bit value as stored. *)
Definition lo (x : Z) : Z := x mod 256.
Definition hi (x : Z) : Z := (x / 256) mod 256.

(** [(a[0] << 24) | (a[1] << 16) | (a[2] << 8) | a[3]] *)
Definition addr32 (a : list Z) : Z :=
  u32 (Z.lor (Z.lor (Z.lor (Z.shiftl (byte a 0) 24) (Z.shiftl (byte a 1) 16)) (Z.shiftl (byte a 2) 8)) (byte a 3)).

(** The destination is the device's address, 255.255.255.255, or the broadcast
    address of its subnet. *)
Definition is_for (d : net_device) (dest : list Z) : bool :=
  if bool_decide (ip d = dest) then true
  else
    bool_decide (dest = [255; 255; 255; 255]) ||
    (addr32 dest =? Z.lor (Z.land (addr32 (ip d)) (addr32 (netmask d))) (u32 (Z.lnot (addr32 (netmask d))))).

(** The protocol of the buffer after the [switch] of [ip_receive]. *)
Definition demux (protocol : Z) (b : net_buffer) : net_buffer :=
  if protocol =? 1 then set_protocol NET_PROTO_ICMP b
  else if protocol =? 6 then set_protocol NET_PROTO_TCP b
  else if protocol =? 17 then set_protocol NET_PROTO_UDP b
  else b.

Definition ip_receive (buffer : ptr) : M net Z :=
  match buffer with
  | None => ret NET_ERR_INVALID
  | Some a =>
      b <- read_buffer a ;;
      match data b with
      | None => ret NET_ERR_INVALID
      | Some d =>
          if len b <? HEADER then ret NET_ERR_INVALID
          else
            h <- read_bytes d HEADER ;;
            let ihl := Z.land (byte h 0) 0x0F in
            if ihl <? 5 then ret NET_ERR_INVALID
            else if negb (Z.land (Z.shiftr (byte h 0) 4) 0x0F =? 4) then ret NET_ERR_INVALID
            else
              (* the checksum of the header with the checksum member zero *)
              full <- read_bytes d (ihl * 4) ;;
              let calc := ip_checksum (set_word full 10 0 0) in
              if negb (byte h 10 + 256 * byte h 11 =? calc) then ret NET_ERR_INVALID
              else
                let h := swap_word (swap_word (swap_word (swap_word h 2) 4) 6) 10 in
                memcpy_to d h HEADER ;;;
                dv <- deref (device b) ;;
                dev <- read_dev dv ;;
                if negb (is_for dev (addr_at h 16)) then ret NET_ERR_OK
                else
                  _p <- net_buffer_pull (Some a) (ihl * 4) ;;
                  b <- read_buffer a ;;
                  write_buffer a (demux (byte h 9) b) ;;;
                  ret NET_ERR_OK
      end
  end.

(** The first device that is up and on the subnet of [dest], from number [i] on. *)
Fixpoint route (n : nat) (i : Z) (dest : list Z) : M net ptr :=
  match n with
  | O => ret None
  | S n' =>
      p <- network_get_device i ;;
      a <- deref p ;;
      d <- read_dev a ;;
      if negb (has_flag (dev_flags d) NET_DEV_FLAG_UP) then route n' (i + 1) dest
      else if Z.land (addr32 dest) (addr32 (netmask d)) =? Z.land (addr32 (ip d)) (addr32 (netmask d))
      then ret (Some a)
      else route n' (i + 1) dest
  end.

Definition choose_device (b : net_buffer) (dest : list Z) : M net ptr :=
  match device b with
  | Some dv => ret (Some dv)
  | None =>
      n <- network_get_device_count ;;
      r <- route (Z.to_nat n) 0 dest ;;
      match r with Some dv => ret (Some dv) | None => network_get_default_device end
  end.

(** The header as first stored, without its addresses, and with its words in
    network order and its checksum. *)
Definition first_header (total id proto : Z) : list Z :=
  [0x45; 0; lo total; hi total; lo id; hi id; lo 0x4000; hi 0x4000; 64; proto; 0; 0].

Definition finish_header (h : list Z) : list Z :=
  let h := swap_word (swap_word (swap_word h 2) 4) 6 in
  let c := ip_checksum h in
  swap_word (set_word h 10 (lo c) (hi c)) 10.

Definition ip_send (buffer : ptr) (dest : option (list Z)) (proto : Z) : M ips Z :=
  match buffer, dest with
  | Some a, Some dest =>
      hd <- on_net (net_buffer_push (Some a) HEADER) ;;
      match hd with
      | None => ret NET_ERR_NOMEM
      | Some d =>
          s <- get ;;
          b <- on_net (read_buffer a) ;;
          modify (set_next_id (u16 (next_id s + 1))) ;;;
          let h := first_header (u16 (len b)) (next_id s) proto in
          on_net (memcpy_to d h 12) ;;;
          dev <- on_net (choose_device b dest) ;;
          match dev with
          | None => ret NET_ERR_INVALID
          | Some dv =>
              on_net (write_buffer a (set_device (Some dv) b)) ;;;
              dd <- on_net (read_dev dv) ;;
              on_net (memcpy_to d (finish_header (h ++ ip dd ++ dest)) HEADER) ;;;
              ret NET_ERR_OK
          end
      end
  | _, _ => ret NET_ERR_INVALID
  end.

(** ** Addresses *)

Definition ip_addr_cmp (a b : list Z) : bool := bool_decide (a = b).

Definition ip_is_zero_address (a : list Z) : bool := bool_decide (a = [0; 0; 0; 0]).

Definition ip_is_multicast (a : list Z) : bool := (224 <=? byte a 0) && (byte a 0 <=? 239).

(** [local_ip.bytes[i] | ~subnet_mask.bytes[i]], byte by byte. *)
Definition ip_is_broadcast (s : ips) (a : list Z) : bool :=
  bool_decide (a = [255; 255; 255; 255]) ||
  ip_addr_cmp a (zip_with (fun x m => u8 (Z.lor x (Z.lnot m))) (local_ip s) (subnet_mask s)).

Fixpoint same_subnet (a l m : list Z) : bool :=
  match a, l, m with
  | x :: a', y :: l', z :: m' => if negb (Z.land x z =? Z.land y z) then false else same_subnet a' l' m'
  | _, _, _ => true
  end.

Definition ip_is_on_local_subnet (s : ips) (a : list Z) : bool :=
  if ip_is_zero_address (subnet_mask s) then true else same_subnet a (local_ip s) (subnet_mask s).

Definition ip_is_local_address (s : ips) (a : list Z) : bool :=
  if ip_addr_cmp a (local_ip s) then true else byte a 0 =? 127.

Definition ip_configure (a m g : option (list Z)) : M ips unit :=
  modify (fun s => set_config (default (local_ip s) a) (default (subnet_mask s) m) (default (default_gateway s) g) s).

Definition ip_get_config : M ips (list Z * list Z * list Z) :=
  gets (fun s => (local_ip s, subnet_mask s, default_gateway s)).

Definition with_ip (x : list Z) (d : net_device) : net_device :=
  mk_device (name d) (dev_flags d) x (netmask d) (mtu d) (rx_packets d) (rx_bytes d).
Definition with_netmask (x : list Z) (d : net_device) : net_device :=
  mk_device (name d) (dev_flags d) (ip d) x (mtu d) (rx_packets d) (rx_bytes d).

(** The second result is what [*addr] is set to. *)
Definition ip_get_address (interface : option string) (out : bool) : M ips (Z * option (list Z)) :=
  match interface, out with
  | Some nm, true =>
      p <- on_net (network_find_device_by_name (Some nm)) ;;
      match p with
      | None => ret (NET_ERR_INVALID, None)
      | Some a => d <- on_net (read_dev a) ;; ret (NET_ERR_OK, Some (ip d))
      end
  | _, _ => ret (NET_ERR_INVALID, None)
  end.

(** What the three setters share. *)
Definition set_on_device (interface : option string) (x : option (list Z)) (f : list Z -> addr -> M ips unit) : M ips Z :=
  match interface, x with
  | Some nm, Some x =>
      p <- on_net (network_find_device_by_name (Some nm)) ;;
      match p with
      | None => ret NET_ERR_INVALID
      | Some a => f x a ;;; ret NET_ERR_OK
      end
  | _, _ => ret NET_ERR_INVALID
  end.

Definition ip_set_address (interface : option string) (x : option (list Z)) : M ips Z :=
  set_on_device interface x (fun x a => on_net (d <- read_dev a ;; write_dev a (with_ip x d))).

Definition ip_set_netmask (interface : option string) (x : option (list Z)) : M ips Z :=
  set_on_device interface x (fun x a => on_net (d <- read_dev a ;; write_dev a (with_netmask x d))).

Definition ip_set_gateway (interface : option string) (x : option (list Z)) : M ips Z :=
  set_on_device interface x (fun x a => modify (fun s =>
    mk_ips (stack s) (next_id s) (handlers s) (local_ip s) (subnet_mask s) (default_gateway s) (<[a := x]> (gateways s)))).

(** ** Facts about the checksum *)

Definition bytes_ok (l : list Z) : Prop := Forall (fun b => 0 <= b < 256) l.

(** The sum of the words as a number. *)
Fixpoint wsum (data : list Z) : Z :=
  match data with
  | l :: h :: r => (l + 256 * h) + wsum r
  | [b] => b
  | [] => 0
  end.

(** Induction on a list two elements at a time. *)
Lemma pairs_ind (P : list Z -> Prop) :
  P [] -> (forall b, P [b]) -> (forall l h r, P r -> P (l :: h :: r)) -> forall data, P data.
Proof.
  intros H0 H1 H2 data. assert (H : P data /\ forall b, P (b :: data)); [|tauto].
  induction data as [|x data [IH1 IH2]]; [auto|]. split; [apply IH2|]. intros b. by apply H2.
Qed.

Lemma sum_words_wsum data acc : sum_words data acc mod 2 ^ 32 = (acc + wsum data) mod 2 ^ 32.
Proof.
  revert acc. induction data as [|b|l h r IH] using pairs_ind; intros acc; cbn [sum_words wsum].
  - f_equal. lia.
  - unfold u32. by rewrite Zmod_mod.
  - rewrite IH. unfold u32. rewrite Zplus_mod_idemp_l. f_equal. lia.
Qed.

Lemma sum_words_range data acc : 0 <= acc < 2 ^ 32 -> 0 <= sum_words data acc < 2 ^ 32.
Proof.
  revert acc. induction data as [|b|l h r IH] using pairs_ind; intros acc Ha; cbn [sum_words]; [done| |].
  - apply u32_range.
  - apply IH, u32_range.
Qed.

Lemma wsum_range data : bytes_ok data -> 0 <= wsum data <= 65535 * Z.of_nat (length data).
Proof.
  induction data as [|b|l h r IH] using pairs_ind; intros H; cbn [wsum length].
  - lia.
  - apply Forall_cons in H as [H _]. lia.
  - apply Forall_cons in H as [Hl H]. apply Forall_cons in H as [Hh H]. specialize (IH H). lia.
Qed.

Lemma sum_words_exact data : bytes_ok data -> Z.of_nat (length data) <= 65536 -> sum_words data 0 = wsum data.
Proof.
  intros Hb Hl. pose proof (wsum_range data Hb). pose proof (sum_words_range data 0).
  pose proof (sum_words_wsum data 0) as E. rewrite !Z.mod_small in E by lia. lia.
Qed.

Lemma wsum_app pre post : Nat.Even (length pre) -> wsum (pre ++ post) = wsum pre + wsum post.
Proof.
  induction pre as [|b|l h r IH] using pairs_ind; intros He; cbn [app wsum].
  - lia.
  - exfalso. destruct He as [n Hn]. simpl in Hn. lia.
  - rewrite IH; [lia|]. destruct He as [n Hn]. simpl in Hn. exists (n - 1)%nat. lia.
Qed.

(** One round of the carry loop, and the loop: the sum stays the same modulo
    65535, fits 16 bits at the end, and is zero only if it was. *)
Lemma carry_round s : 0 <= s < 2 ^ 32 ->
  u32 (Z.land s 0xFFFF + Z.shiftr s 16) = s mod 65536 + s / 65536.
Proof.
  intros Hs. change 0xFFFF with (Z.ones 16). rewrite Z.land_ones, Z.shiftr_div_pow2 by lia.
  change (2 ^ 16) with 65536. apply u32_small.
  pose proof (Z.mod_pos_bound s 65536). pose proof (Z.div_pos s 65536).
  assert (s / 65536 < 65536) by (apply Z.div_lt_upper_bound; lia). lia.
Qed.

Lemma carry_mod s : (s mod 65536 + s / 65536) mod 65535 = s mod 65535.
Proof.
  rewrite (Z.div_mod s 65536) at 3 by lia.
  replace (65536 * (s / 65536) + s mod 65536) with (s mod 65536 + s / 65536 + (s / 65536) * 65535) by lia.
  by rewrite Z_mod_plus_full.
Qed.

Lemma fold_carry_spec s : 0 <= s < 2 ^ 32 ->
  0 <= fold_carry 3 s <= 65535 /\ fold_carry 3 s mod 65535 = s mod 65535 /\ (fold_carry 3 s = 0 -> s = 0).
Proof.
  assert (Hstep : forall f s, 0 <= s < 2 ^ 32 ->
    fold_carry (S f) s = if 65536 <=? s then fold_carry f (s mod 65536 + s / 65536) else s).
  { intros f x Hx. cbn [fold_carry]. rewrite carry_round by done. rewrite Z.shiftr_div_pow2 by lia.
    change (2 ^ 16) with 65536. destruct (Z.leb_spec 65536 x).
    - assert (1 <= x / 65536) by (apply Z.div_le_lower_bound; lia).
      destruct (truth (x / 65536)) eqn:E; [done|]. bools. lia.
    - rewrite (Z.div_small x 65536) by lia. done. }
  assert (Hnext : forall x, 65536 <= x < 2 ^ 32 -> 0 < x mod 65536 + x / 65536 <= 131070 /\
            (x <= 131070 -> x mod 65536 + x / 65536 <= 65535)).
  { intros x Hx. pose proof (Z.mod_pos_bound x 65536). pose proof (Z.div_mod x 65536).
    assert (1 <= x / 65536 < 65536) by (split; [apply Z.div_le_lower_bound|apply Z.div_lt_upper_bound]; lia).
    split; [lia|]. intros Hle. assert (x / 65536 < 2) by (apply Z.div_lt_upper_bound; lia). lia. }
  intros Hs. rewrite Hstep by done. destruct (Z.leb_spec 65536 s); [|split_and!; lia].
  destruct (Hnext s) as [H1 _]; [lia|]. set (s1 := s mod 65536 + s / 65536) in *.
  assert (E1 : s1 mod 65535 = s mod 65535) by apply carry_mod.
  rewrite Hstep by lia. destruct (Z.leb_spec 65536 s1); [|split_and!; lia].
  destruct (Hnext s1) as [H3 H4]; [lia|]. set (s2 := s1 mod 65536 + s1 / 65536) in *.
  assert (E2 : s2 mod 65535 = s1 mod 65535) by apply carry_mod.
  rewrite Hstep by lia. destruct (Z.leb_spec 65536 s2); [lia|]. split_and!; lia.
Qed.

Lemma ip_checksum_range data : 0 <= ip_checksum data < 65536.
Proof. apply u16_range. Qed.

Lemma lnot_u16 x : 0 <= x <= 65535 -> u16 (Z.lnot x) = 65535 - x.
Proof. intros Hx. unfold u16. symmetry. apply (Zmod_unique _ _ (-1)); unfold Z.lnot; lia. Qed.

Lemma ip_checksum_value data : bytes_ok data -> Z.of_nat (length data) <= 65536 ->
  ip_checksum data = 65535 - fold_carry 3 (wsum data) /\ 0 <= wsum data < 2 ^ 32.
Proof.
  intros Hb Hl. pose proof (wsum_range data Hb). unfold ip_checksum. rewrite sum_words_exact by done.
  split; [|lia]. apply lnot_u16. apply fold_carry_spec. lia.
Qed.

Lemma lo_hi x : 0 <= x < 65536 -> lo x + 256 * hi x = x /\ 0 <= lo x < 256 /\ 0 <= hi x < 256.
Proof.
  intros Hx. unfold lo, hi. pose proof (Z.div_mod x 256). pose proof (Z.mod_pos_bound x 256).
  assert (x / 256 < 256) by (apply Z.div_lt_upper_bound; lia). pose proof (Z.div_pos x 256).
  rewrite (Z.mod_small (x / 256)) by lia. lia.
Qed.

(** ** Properties *)

(** The header checksum does its work: over any bytes with a zero word at an
    even place, storing the checksum [c] that [ip_checksum] computes in that place
    makes the checksum of the whole zero, the check every receiver of an Internet
    header applies. The carry loop ends within its rounds on every input. *)
Theorem ip_checksum_verifies pre post :
  bytes_ok (pre ++ post) -> Nat.Even (length pre) -> Z.of_nat (length (pre ++ post)) <= 65534 ->
  let c := ip_checksum (pre ++ [0; 0] ++ post) in
  ip_checksum (pre ++ [lo c; hi c] ++ post) = 0 /\
  Z.shiftr (fold_carry 3 (sum_words (pre ++ [0; 0] ++ post) 0)) 16 = 0.
Proof.
  intros Hb He Hl c. rewrite length_app in Hl. apply Forall_app in Hb as [Hb1 Hb2].
  destruct (lo_hi c (ip_checksum_range _)) as (Hc & Hlo & Hhi).
  assert (Hok0 : bytes_ok (pre ++ [0; 0] ++ post)).
  { apply Forall_app. split; [done|]. apply Forall_app. split; [repeat constructor; lia|done]. }
  assert (Hok : bytes_ok (pre ++ [lo c; hi c] ++ post)).
  { apply Forall_app. split; [done|]. apply Forall_app. split; [repeat constructor; lia|done]. }
  destruct (ip_checksum_value _ Hok0) as [E0 H0]; [rewrite !length_app; simpl; lia|].
  destruct (ip_checksum_value _ Hok) as [E1 H1]; [rewrite !length_app; simpl; lia|].
  rewrite !wsum_app in * by done. cbn [app wsum] in *. set (S := wsum pre + (0 + 256 * 0 + wsum post)) in *.
  replace (wsum pre + (lo c + 256 * hi c + wsum post)) with (S + c) in * by lia.
  destruct (fold_carry_spec S) as (HS1 & HS2 & HS3); [done|].
  destruct (fold_carry_spec (S + c)) as (HT1 & HT2 & HT3); [done|]. split.
  - rewrite E1. fold c in E0. rewrite E0 in HT1, HT2, HT3 |- *.
    assert (Hz : (S + (65535 - fold_carry 3 S)) mod 65535 = 0).
    { rewrite <- (Z.mod_same 65535) by lia.
      replace (S + (65535 - fold_carry 3 S)) with (S - fold_carry 3 S + 65535) by lia.
      rewrite <- Zplus_mod_idemp_l, Zminus_mod, <- HS2, Z.sub_diag. done. }
    rewrite Hz in HT2. apply Z.mod_divide in HT2 as [k Hk]; [|lia].
    assert (fold_carry 3 (S + (65535 - fold_carry 3 S)) <> 0); [|nia].
    intros E. apply HT3 in E. assert (HS0 : S = 0) by lia. rewrite HS0 in E. done.
  - rewrite sum_words_exact by (done || (rewrite !length_app; simpl; lia)).
    rewrite !wsum_app by done. cbn [app wsum]. fold S. rewrite Z.shiftr_div_pow2 by lia.
    apply Z.div_small. lia.
Qed.

Lemma ip_checksum_verifies_witness :
  let c := ip_checksum ([0x45; 0; 0; 84; 0; 1; 0x40; 0; 64; 1] ++ [0; 0] ++ [10; 0; 0; 1; 10; 0; 0; 2]) in
  c = 42534 /\
  ip_checksum ([0x45; 0; 0; 84; 0; 1; 0x40; 0; 64; 1] ++ [lo c; hi c] ++ [10; 0; 0; 1; 10; 0; 0; 2]) = 0.
Proof.
  split; [vm_compute; reflexivity|]. apply ip_checksum_verifies; [|by exists 5%nat|simpl; lia].
  apply (bool_decide_unpack _). vm_compute. exact I.
Defined.

(** *** Sending and receiving *)

Lemma splice_read l p src :
  (p + length src <= length l)%nat -> take (length src) (drop p (splice l p src)) = src.
Proof.
  intros H. unfold splice. rewrite drop_app_ge by (rewrite length_take; lia).
  rewrite length_take. replace (p - p `min` length l)%nat with 0%nat by lia.
  by rewrite drop_0, take_app_length.
Qed.

Lemma wp_read_bytes blk pos n l s Q :
  blocks s !! blk = Some l -> 0 <= pos -> pos + n <= Z.of_nat (length l) ->
  Q (take (Z.to_nat n) (drop (Z.to_nat pos) l)) s -> wp (read_bytes (blk, pos) n) Q s.
Proof.
  intros Hb Hp Hl HQ. unfold read_bytes. wp_steps. simpl. rewrite Hb. simpl. wp_steps.
  destruct (Z.leb_spec 0 pos); [|lia]. destruct (Z.leb_spec (pos + n) (Z.of_nat (length l))); [|lia]. exact HQ.
Qed.

Lemma wp_on_net {A} (m : M net A) Q s : wp (on_net m) Q s <-> wp m (fun a n => Q a (set_stack n s)) (stack s).
Proof. unfold wp, on_net. by destruct (m (stack s)) as [[a n]| |]. Qed.

(** The header [ip_send] makes, before its checksum, for addresses of four bytes. *)
Definition net_header (total id proto : Z) (src dest : list Z) : list Z :=
  swap_word (swap_word (swap_word (first_header total id proto ++ src ++ dest) 2) 4) 6.

(** What [ip_receive] makes of a buffer that starts with a header whose stored
    checksum is not the one it computes. *)
Lemma ip_receive_bad a b blk pos l h s :
  buffers s !! a = Some b -> data b = Some (blk, pos) -> blocks s !! blk = Some l -> 20 <= len b ->
  0 <= pos -> pos + 20 <= Z.of_nat (length l) -> take 20 (drop (Z.to_nat pos) l) = h ->
  byte h 0 = 0x45 -> byte h 10 + 256 * byte h 11 <> ip_checksum (set_word h 10 0 0) ->
  ip_receive (Some a) s = Ret (NET_ERR_INVALID, s).
Proof.
  intros Ha Hd Hb Hl Hp Hpl Hh H0 Hc.
  assert (H : wp (ip_receive (Some a)) (fun r s' => r = NET_ERR_INVALID /\ s' = s) s).
  { unfold ip_receive. wp_steps. eapply wp_read_buffer; [done|]. rewrite Hd. unfold HEADER.
    destruct (Z.ltb_spec (len b) 20); [lia|]. wp_steps. eapply wp_read_bytes; [done|done|done|].
    change (Z.to_nat 20) with 20%nat. rewrite Hh, H0.
    change (Z.land 69 15) with 5. change (Z.land (Z.shiftr 69 4) 15) with 4. cbn [Z.ltb Z.compare Pos.compare Pos.compare_cont Z.eqb Pos.eqb negb].
    wp_steps. change (5 * 4) with 20. eapply wp_read_bytes; [done|done|done|].
    change (Z.to_nat 20) with 20%nat. rewrite Hh.
    destruct (Z.eqb_spec (byte h 10 + 256 * byte h 11) (ip_checksum (set_word h 10 0 0))); [done|]. by wp_steps. }
  apply wp_returns in H as (r & s' & Hr & -> & ->). done.
Qed.

Lemma finish_header_bytes total id proto a0 a1 a2 a3 d0 d1 d2 d3 :
  let h := finish_header (first_header total id proto ++ [a0; a1; a2; a3] ++ [d0; d1; d2; d3]) in
  let h0 := net_header total id proto [a0; a1; a2; a3] [d0; d1; d2; d3] in
  length h = 20%nat /\ byte h 0 = 0x45 /\ set_word h 10 0 0 = h0 /\
  byte h 10 = hi (ip_checksum h0) /\ byte h 11 = lo (ip_checksum h0).
Proof. done. Qed.

(** The stack does not accept its own packets: a packet [ip_send] builds and
    reports as sent carries its header checksum with the bytes exchanged, and
    [ip_receive] rejects it with NET_ERR_INVALID unless the two bytes happen to be
    equal. *)
Theorem ip_send_rejected_by_receive s a b blk l dv dd a0 a1 a2 a3 d0 d1 d2 d3 proto :
  buf_ok (stack s) a b blk l -> 20 <= offset b -> device b = Some dv -> devs (stack s) !! dv = Some dd ->
  ip dd = [a0; a1; a2; a3] ->
  let c := ip_checksum (net_header (u16 (u32 (len b + 20))) (next_id s) proto [a0; a1; a2; a3] [d0; d1; d2; d3]) in
  lo c <> hi c ->
  wp (r <- ip_send (Some a) (Some [d0; d1; d2; d3]) proto ;; r' <- on_net (ip_receive (Some a)) ;; ret (r, r'))
    (fun out _ => out = (NET_ERR_OK, NET_ERR_INVALID)) s.
Proof.
  intros [Hlive Hd Hb Hsz Hpos Hfl] Ho Hdv Hdd Hip c Hc. unfold ip_send, HEADER. wp_steps. rewrite wp_on_net.
  unfold net_buffer_push. wp_steps. eapply wp_read_buffer; [done|]. rewrite Hd.
  destruct (Z.ltb_spec (offset b) 20); [lia|]. unfold write_buffer. wp_steps. cbn [stack set_stack].
  rewrite wp_on_net. eapply wp_read_buffer; [apply lookup_insert_eq|]. wp_steps. cbn [stack set_stack set_next_id len set_window].
  rewrite wp_on_net. set (b1 := set_window _ _ _ b).
  set (h1 := first_header _ _ _). assert (Hh1 : length h1 = 12%nat) by done.
  eapply wp_memcpy; [done|rewrite Hh1; lia|lia|lia|]. wp_steps. cbn [set_stack stack].
  rewrite wp_on_net. unfold choose_device. cbn [b1 set_window device]. rewrite Hdv. wp_steps. cbn [set_stack stack].
  rewrite wp_on_net. wp_steps. cbn [set_stack stack]. rewrite wp_on_net. unfold read_dev. wp_steps. rewrite wp_deref.
  exists dd. split; [exact Hdd|]. wp_steps. cbn [set_stack stack]. rewrite wp_on_net, Hip.
  destruct (finish_header_bytes (u16 (u32 (len b + 20))) (next_id s) proto a0 a1 a2 a3 d0 d1 d2 d3) as (Hlen & H0 & Hz & H10 & H11).
  fold h1 in Hlen, H0, Hz, H10, H11. set (h := finish_header _) in *.
  assert (Htk : take (Z.to_nat 12) h1 = h1) by done. rewrite Htk.
  set (l1 := splice l (Z.to_nat (offset b - 20)) h1).
  assert (Hl1 : length l1 = length l) by (apply splice_length; rewrite Hh1; lia).
  eapply wp_memcpy; [apply lookup_insert_eq|rewrite Hlen; lia|lia|rewrite Hl1; lia|]. wp_steps. cbn [set_stack stack].
  rewrite wp_on_net. unfold wp at 1. erewrite (ip_receive_bad _ _ _ (offset b - 20) _ h).
  - by wp_steps.
  - apply lookup_insert_eq.
  - done.
  - apply lookup_insert_eq.
  - cbn [set_device len b1 set_window]. rewrite u32_small; lia.
  - lia.
  - rewrite splice_length; [|rewrite length_take, Hlen; lia]. lia.
  - replace (take (Z.to_nat 20) h) with h by (symmetry; apply take_ge; lia).
    rewrite <- Hlen. apply splice_read. lia.
  - exact H0.
  - rewrite Hz, H10, H11. fold c. pose proof (lo_hi c (ip_checksum_range _)). lia.
Qed.

(** A buffer with four bytes of payload and room for a header, on device [eth0]. *)
Definition demo_packet : net_buffer :=
  mk_buffer (Some (3%positive, 20)) 4 40 20 NET_BUF_FLAG_ALLOC 0 (Some 5%positive) None.
Definition demo_dev : net_device := mk_device "eth0" NET_DEV_FLAG_UP [10; 0; 0; 1] [255; 255; 255; 0] 1500 0 0.
Definition demo_ips : ips :=
  mk_ips (mk_net [Some 5%positive] 1 (Some 5%positive) 1 {[5%positive := demo_dev]}
            {[2%positive := demo_packet]} {[3%positive := replicate 40 0]})
    1 [] [0; 0; 0; 0] [0; 0; 0; 0] [0; 0; 0; 0] ∅.

Lemma ip_send_rejected_by_receive_witness :
  wp (r <- ip_send (Some 2%positive) (Some [10; 0; 0; 2]) 17 ;;
      r' <- on_net (ip_receive (Some 2%positive)) ;; ret (r, r'))
    (fun out _ => out = (NET_ERR_OK, NET_ERR_INVALID)) demo_ips.
Proof.
  apply (ip_send_rejected_by_receive demo_ips 2 demo_packet 3 (replicate 40 0) 5 demo_dev 10 0 0 1);
    [|simpl; lia|reflexivity|reflexivity|reflexivity|vm_compute; discriminate].
  split; [reflexivity|reflexivity|reflexivity|reflexivity|simpl; lia|reflexivity].
Defined.

End Ip.
