(* ===== verification/Tcp.v ===== *)
(** * The transmission control protocol ([network/src/tcp.c])

    Sockets in the fixed array [tcp_sockets], their receive buffers and listeners in
    allocated memory, the [TIME_WAIT] slots, the segments sent and received and the
    calls of the application. A pointer to a socket is its index in the array.

    What the file calls and the repository does not have, or has with another
    signature, is the environment [env]: [malloc], the transmission by [ip_alloc_packet]
    and [ip_tx], the address test [ip_addr_is_any], and the callbacks of the
    application, which may call back into TCP. Each may depend on the whole state,
    so on everything that happened before. *)

From Stdlib Require Import ZArith Lia String.
From stdpp Require Import base tactics option list gmap strings.
From S2P Require Import Prelude Ports Network Ip.

Set Default Goal Selector "!".
Local Open Scope Z_scope.
Local Open Scope kernel_scope.

Module Tcp.

Definition TCP_HEADER_SIZE : Z := 20.
Definition TCP_MAX_SOCKETS : nat := 16.
Definition TCP_MAX_TIME_WAIT_SOCKETS : nat := 32.
Definition TCP_DEFAULT_MSS : Z := 536.
Definition TCP_DEFAULT_WINDOW : Z := 4096.
Definition TCP_DEFAULT_BUFFER_SIZE : Z := 8192.
Definition TCP_MSL : Z := 120000.
Definition TCP_RETRANSMIT_TIMEOUT : Z := 500.
Definition TCP_MAX_RETRANSMITS : Z := 5.
Definition IP_PROTO_TCP : Z := 6.
Definition TCP_FLAG_FIN : Z := 1.
Definition TCP_FLAG_SYN : Z := 2.
Definition TCP_FLAG_RST : Z := 4.
Definition TCP_FLAG_PSH : Z := 8.
Definition TCP_FLAG_ACK : Z := 16.

(** ** Data *)

(** [tcp_state_t] *)
Inductive tcp_state : Type :=
| CLOSED | LISTEN | SYN_SENT | SYN_RECEIVED | ESTABLISHED | FIN_WAIT_1 | FIN_WAIT_2
| CLOSING | TIME_WAIT | CLOSE_WAIT | LAST_ACK.

#[export] Instance tcp_state_eq_dec : EqDecision tcp_state.
Proof. solve_decision. Defined.

Definition in_state (x y : tcp_state) : bool := bool_decide (x = y).

(** [tcp_retransmit_t], with the member [timer] that [tcp_timer] uses and the header
    does not declare, taken as unsigned like its neighbours. *)
Record tcp_retransmit : Type := mk_retransmit {
  rto : Z;
  srtt : Z;
  rttvar : Z;
  attempts : Z;
  timer : Z;
}.

Definition set_timer (x : Z) (r : tcp_retransmit) : tcp_retransmit :=
  mk_retransmit (rto r) (srtt r) (rttvar r) (attempts r) x.

(** [tcp_connection_t] *)
Record tcp_connection : Type := mk_conn {
  snd_una : Z;
  snd_nxt : Z;
  snd_wnd : Z;
  rcv_nxt : Z;
  rcv_wnd : Z;
  mss : Z;
  retransmit : tcp_retransmit;
  retransmit_queue : ptr;
}.

Definition set_snd_una (x : Z) (c : tcp_connection) : tcp_connection :=
  mk_conn x (snd_nxt c) (snd_wnd c) (rcv_nxt c) (rcv_wnd c) (mss c) (retransmit c)
    (retransmit_queue c).
Definition set_snd_nxt (x : Z) (c : tcp_connection) : tcp_connection :=
  mk_conn (snd_una c) x (snd_wnd c) (rcv_nxt c) (rcv_wnd c) (mss c) (retransmit c)
    (retransmit_queue c).
Definition set_snd_wnd (x : Z) (c : tcp_connection) : tcp_connection :=
  mk_conn (snd_una c) (snd_nxt c) x (rcv_nxt c) (rcv_wnd c) (mss c) (retransmit c)
    (retransmit_queue c).
Definition set_rcv_nxt (x : Z) (c : tcp_connection) : tcp_connection :=
  mk_conn (snd_una c) (snd_nxt c) (snd_wnd c) x (rcv_wnd c) (mss c) (retransmit c)
    (retransmit_queue c).
Definition set_rcv_wnd (x : Z) (c : tcp_connection) : tcp_connection :=
  mk_conn (snd_una c) (snd_nxt c) (snd_wnd c) (rcv_nxt c) x (mss c) (retransmit c)
    (retransmit_queue c).
Definition set_mss (x : Z) (c : tcp_connection) : tcp_connection :=
  mk_conn (snd_una c) (snd_nxt c) (snd_wnd c) (rcv_nxt c) (rcv_wnd c) x (retransmit c)
    (retransmit_queue c).
Definition set_retransmit (x : tcp_retransmit) (c : tcp_connection) : tcp_connection :=
  mk_conn (snd_una c) (snd_nxt c) (snd_wnd c) (rcv_nxt c) (rcv_wnd c) (mss c) x
    (retransmit_queue c).

(** [tcp_listener_t]; a pointer to a socket is its index in [tcp_sockets]. *)
Record tcp_listener : Type := mk_listener {
  backlog : Z;
  pending_count : Z;
  pending_connections : option nat;
}.

(** [tcp_buffer_t] *)
Record tcp_buffer : Type := mk_rx {
  rx_data : ptr;
  rx_size : Z;
  rx_start : Z;
  rx_end : Z;
  bytes_available : Z;
}.

(** [tcp_socket_t]; a callback is the address of its function. *)
Record tcp_socket : Type := mk_socket {
  state : tcp_state;
  local_port : Z;
  remote_port : Z;
  local_addr : list Z;
  remote_addr : list Z;
  options : Z;
  conn : tcp_connection;
  listener : ptr;
  next : option nat;
  rx_buffer : tcp_buffer;
  connected_callback : ptr;
  data_ready_callback : ptr;
  sent_callback : ptr;
  closed_callback : ptr;
  user_data : ptr;
}.

Definition set_state (x : tcp_state) (k : tcp_socket) : tcp_socket :=
  mk_socket x (local_port k) (remote_port k) (local_addr k) (remote_addr k) (options k) (conn k)
    (listener k) (next k) (rx_buffer k) (connected_callback k) (data_ready_callback k)
    (sent_callback k) (closed_callback k) (user_data k).
Definition set_local_port (x : Z) (k : tcp_socket) : tcp_socket :=
  mk_socket (state k) x (remote_port k) (local_addr k) (remote_addr k) (options k) (conn k)
    (listener k) (next k) (rx_buffer k) (connected_callback k) (data_ready_callback k)
    (sent_callback k) (closed_callback k) (user_data k).
Definition set_remote_port (x : Z) (k : tcp_socket) : tcp_socket :=
  mk_socket (state k) (local_port k) x (local_addr k) (remote_addr k) (options k) (conn k)
    (listener k) (next k) (rx_buffer k) (connected_callback k) (data_ready_callback k)
    (sent_callback k) (closed_callback k) (user_data k).
Definition set_local_addr (x : list Z) (k : tcp_socket) : tcp_socket :=
  mk_socket (state k) (local_port k) (remote_port k) x (remote_addr k) (options k) (conn k)
    (listener k) (next k) (rx_buffer k) (connected_callback k) (data_ready_callback k)
    (sent_callback k) (closed_callback k) (user_data k).
Definition set_remote_addr (x : list Z) (k : tcp_socket) : tcp_socket :=
  mk_socket (state k) (local_port k) (remote_port k) (local_addr k) x (options k) (conn k)
    (listener k) (next k) (rx_buffer k) (connected_callback k) (data_ready_callback k)
    (sent_callback k) (closed_callback k) (user_data k).
Definition set_options (x : Z) (k : tcp_socket) : tcp_socket :=
  mk_socket (state k) (local_port k) (remote_port k) (local_addr k) (remote_addr k) x (conn k)
    (listener k) (next k) (rx_buffer k) (connected_callback k) (data_ready_callback k)
    (sent_callback k) (closed_callback k) (user_data k).
Definition set_conn (x : tcp_connection) (k : tcp_socket) : tcp_socket :=
  mk_socket (state k) (local_port k) (remote_port k) (local_addr k) (remote_addr k) (options k) x
    (listener k) (next k) (rx_buffer k) (connected_callback k) (data_ready_callback k)
    (sent_callback k) (closed_callback k) (user_data k).
Definition set_listener (x : ptr) (k : tcp_socket) : tcp_socket :=
  mk_socket (state k) (local_port k) (remote_port k) (local_addr k) (remote_addr k) (options k)
    (conn k) x (next k) (rx_buffer k) (connected_callback k) (data_ready_callback k)
    (sent_callback k) (closed_callback k) (user_data k).
Definition set_next (x : option nat) (k : tcp_socket) : tcp_socket :=
  mk_socket (state k) (local_port k) (remote_port k) (local_addr k) (remote_addr k) (options k)
    (conn k) (listener k) x (rx_buffer k) (connected_callback k) (data_ready_callback k)
    (sent_callback k) (closed_callback k) (user_data k).
Definition set_rx_buffer (x : tcp_buffer) (k : tcp_socket) : tcp_socket :=
  mk_socket (state k) (local_port k) (remote_port k) (local_addr k) (remote_addr k) (options k)
    (conn k) (listener k) (next k) x (connected_callback k) (data_ready_callback k)
    (sent_callback k) (closed_callback k) (user_data k).

(** [tcp_time_wait_t] *)
Record tcp_time_wait : Type := mk_tw {
  start_time : Z;
  duration : Z;
  tw_socket : option nat;
}.

(** A segment handed to IP: addresses and bytes. *)
Record segment : Type := mk_segment {
  seg_src : list Z;
  seg_dst : list Z;
  seg_bytes : list Z;
}.

(** The static variables of [tcp.c], the IP layer below, the allocated listeners and
    receive buffers, the time [network_get_time_ms] answers, and the segments handed
    to IP, latest first. *)
Record tcp : Type := mk_tcp {
  sockets : list tcp_socket;
  time_waits : list tcp_time_wait;
  last_dynamic_port : Z;
  tcp_initial_seq : Z;
  below : Ip.ips;
  listeners : gmap addr tcp_listener;
  rx_blocks : gmap addr (list Z);
  now : Z;
  sent : list segment;
}.

Definition set_sockets (x : list tcp_socket) (s : tcp) : tcp :=
  mk_tcp x (time_waits s) (last_dynamic_port s) (tcp_initial_seq s) (below s) (listeners s)
    (rx_blocks s) (now s) (sent s).
Definition set_time_waits (x : list tcp_time_wait) (s : tcp) : tcp :=
  mk_tcp (sockets s) x (last_dynamic_port s) (tcp_initial_seq s) (below s) (listeners s)
    (rx_blocks s) (now s) (sent s).
Definition set_last_dynamic_port (x : Z) (s : tcp) : tcp :=
  mk_tcp (sockets s) (time_waits s) x (tcp_initial_seq s) (below s) (listeners s) (rx_blocks s)
    (now s) (sent s).
Definition set_tcp_initial_seq (x : Z) (s : tcp) : tcp :=
  mk_tcp (sockets s) (time_waits s) (last_dynamic_port s) x (below s) (listeners s) (rx_blocks s)
    (now s) (sent s).
Definition set_below (x : Ip.ips) (s : tcp) : tcp :=
  mk_tcp (sockets s) (time_waits s) (last_dynamic_port s) (tcp_initial_seq s) x (listeners s)
    (rx_blocks s) (now s) (sent s).
Definition set_listeners (x : gmap addr tcp_listener) (s : tcp) : tcp :=
  mk_tcp (sockets s) (time_waits s) (last_dynamic_port s) (tcp_initial_seq s) (below s) x
    (rx_blocks s) (now s) (sent s).
Definition set_rx_blocks (x : gmap addr (list Z)) (s : tcp) : tcp :=
  mk_tcp (sockets s) (time_waits s) (last_dynamic_port s) (tcp_initial_seq s) (below s)
    (listeners s) x (now s) (sent s).
Definition set_sent (x : list segment) (s : tcp) : tcp :=
  mk_tcp (sockets s) (time_waits s) (last_dynamic_port s) (tcp_initial_seq s) (below s)
    (listeners s) (rx_blocks s) (now s) x.

(** [memset(socket, 0, sizeof(tcp_socket_t))] *)
Definition zero_retransmit : tcp_retransmit := mk_retransmit 0 0 0 0 0.
Definition zero_conn : tcp_connection := mk_conn 0 0 0 0 0 0 zero_retransmit None.
Definition zero_rx : tcp_buffer := mk_rx None 0 0 0 0.
Definition zero_socket : tcp_socket :=
  mk_socket CLOSED 0 0 [0; 0; 0; 0] [0; 0; 0; 0] 0 zero_conn None None zero_rx
    None None None None None.


(** ** What TCP calls *)

(** [malloc] answers an address and what the block holds, or NULL; [ip_tx] the
    result of sending a segment, or [None] when [ip_alloc_packet] has no packet for
    it; [callback] is the function of the application at an address, called with a
    socket and, for [data_ready] and [sent], a length. *)
Record env : Type := mk_env {
  ip_addr_is_any : list Z -> bool;
  malloc : tcp -> Z -> option (addr * list Z);
  ip_tx : tcp -> segment -> option Z;
  callback : addr -> nat -> Z -> M tcp unit;
}.

(** A call into [ip.c]. *)
Definition on_ip {A} (m : M Ip.ips A) : M tcp A := fun s =>
  match m (below s) with
  | Ret (a, n) => Ret (a, set_below n s)
  | Spin => Spin
  | Fault => Fault
  end.

Definition read_sock (i : nat) : M tcp tcp_socket := s <- get ;; deref (sockets s !! i).
Definition upd_sock (i : nat) (f : tcp_socket -> tcp_socket) : M tcp unit :=
  s <- get ;; k <- deref (sockets s !! i) ;; put (set_sockets (<[i := f k]> (sockets s)) s).

Definition on_conn (f : tcp_connection -> tcp_connection) (k : tcp_socket) : tcp_socket :=
  set_conn (f (conn k)) k.

Section Ops.
Context (E : env).

(** [if (socket->cb) socket->cb(socket, n)] *)
Definition notify (cb : tcp_socket -> ptr) (i : nat) (n : Z) : M tcp unit :=
  k <- read_sock i ;;
  match cb k with None => ret tt | Some f => callback E f i n end.

(** ** Receive buffers *)

Definition tcp_buffer_init (socket : option nat) (size : Z) : M tcp Z :=
  match socket with
  | None => ret (-1)
  | Some i =>
      s <- get ;;
      match malloc E s size with
      | None =>
          upd_sock i (fun k => let b := rx_buffer k in
            set_rx_buffer (mk_rx None (rx_size b) (rx_start b) (rx_end b) (bytes_available b)) k) ;;;
          ret (-1)
      | Some (a, garbage) =>
          modify (fun s => set_rx_blocks (<[a := garbage]> (rx_blocks s)) s) ;;;
          upd_sock i (set_rx_buffer (mk_rx (Some a) size 0 0 0)) ;;;
          ret 0
      end
  end.

(** The copying loop of [tcp_buffer_write]: the bytes and the position [end]. *)
Fixpoint copy_in (size : Z) (data block : list Z) (e : Z) : option (list Z * Z) :=
  match data with
  | [] => Some (block, e)
  | b :: rest =>
      if size =? 0 then None
      else block' ← arr_set block e b; copy_in size rest block' (u32 (e + 1) mod size)
  end.

Definition tcp_buffer_write (socket : option nat) (data : option (list Z)) : M tcp Z :=
  match socket, data with
  | Some i, Some data =>
      k <- read_sock i ;;
      let b := rx_buffer k in
      match rx_data b with
      | None => ret (-1)
      | Some d =>
          let len := Z.of_nat (length data) in
          if rx_size b <? u32 (bytes_available b + len) then ret (-1)
          else
            s <- get ;;
            block <- deref (rx_blocks s !! d) ;;
            r <- deref (copy_in (rx_size b) data block (rx_end b)) ;;
            put (set_rx_blocks (<[d := r.1]> (rx_blocks s)) s) ;;;
            upd_sock i (set_rx_buffer
              (mk_rx (Some d) (rx_size b) (rx_start b) r.2 (u32 (bytes_available b + len)))) ;;;
            ret (to_int len)
      end
  | _, _ => ret (-1)
  end.

(** The copying loop of [tcp_buffer_read] and [tcp_buffer_peek]: [n] bytes from
    position [st] on, and the position after them. *)
Fixpoint copy_out (n : nat) (size : Z) (block : list Z) (st : Z) : option (list Z * Z) :=
  match n with
  | O => Some ([], st)
  | S n' =>
      b ← arr_get block st;
      if size =? 0 then None
      else r ← copy_out n' size block (u32 (st + 1) mod size); Some (b :: r.1, r.2)
  end.

(** The result and the bytes stored through [data], which is not NULL when [out]. *)
Definition tcp_buffer_read (socket : option nat) (out : bool) (len : Z) : M tcp (Z * list Z) :=
  match socket, out with
  | Some i, true =>
      k <- read_sock i ;;
      let b := rx_buffer k in
      match rx_data b with
      | None => ret (-1, [])
      | Some d =>
          let read_len := if bytes_available b <? len then bytes_available b else len in
          if read_len =? 0 then ret (0, [])
          else
            s <- get ;;
            block <- deref (rx_blocks s !! d) ;;
            r <- deref (copy_out (Z.to_nat read_len) (rx_size b) block (rx_start b)) ;;
            upd_sock i (set_rx_buffer
              (mk_rx (Some d) (rx_size b) r.2 (rx_end b) (u32 (bytes_available b - read_len)))) ;;;
            ret (to_int read_len, r.1)
      end
  | _, _ => ret (-1, [])
  end.

Definition tcp_buffer_peek (socket : option nat) (out : bool) (len : Z) : M tcp (Z * list Z) :=
  match socket, out with
  | Some i, true =>
      k <- read_sock i ;;
      let b := rx_buffer k in
      match rx_data b with
      | None => ret (-1, [])
      | Some d =>
          let read_len := if bytes_available b <? len then bytes_available b else len in
          if read_len =? 0 then ret (0, [])
          else
            s <- get ;;
            block <- deref (rx_blocks s !! d) ;;
            r <- deref (copy_out (Z.to_nat read_len) (rx_size b) block (rx_start b)) ;;
            ret (to_int read_len, r.1)
      end
  | _, _ => ret (-1, [])
  end.

Definition tcp_buffer_free (socket : option nat) : M tcp unit :=
  match socket with
  | None => ret tt
  | Some i =>
      k <- read_sock i ;;
      match rx_data (rx_buffer k) with
      | None => ret tt
      | Some d =>
          s <- get ;;
          _ <- deref (rx_blocks s !! d) ;;
          put (set_rx_blocks (delete d (rx_blocks s)) s) ;;;
          upd_sock i (set_rx_buffer zero_rx)
      end
  end.

(** ** Start *)

Definition tcp_init_time_wait : M tcp unit :=
  modify (fun s => set_time_waits (map (fun t => mk_tw (start_time t) (duration t) None) (time_waits s)) s).

(** [rx] is the address of [tcp_rx]. *)
Definition tcp_init (rx : addr) : M tcp Z :=
  modify (fun s => set_sockets (map (set_state CLOSED) (sockets s)) s) ;;;
  tcp_init_time_wait ;;;
  result <- on_ip (Ip.ip_register_protocol IP_PROTO_TCP (Some rx)) ;;
  if negb (result =? 0) then ret result
  else modify (set_tcp_initial_seq 0x01020304) ;;; ret 0.

(** ** TIME_WAIT *)

Fixpoint free_slot (tws : list tcp_time_wait) (i : nat) : option nat :=
  match tws with
  | [] => None
  | t :: r => match tw_socket t with None => Some i | Some _ => free_slot r (S i) end
  end.

Definition tcp_start_time_wait (socket : option nat) : M tcp unit :=
  match socket with
  | None => ret tt
  | Some i =>
      s <- get ;;
      match free_slot (time_waits s) 0 with
      | None => upd_sock i (set_state CLOSED)
      | Some slot =>
          put (set_time_waits (<[slot := mk_tw (now s) (2 * TCP_MSL) (Some i)]> (time_waits s)) s)
      end
  end.

(** ** Segments *)

(** A 16- and a 32-bit value in network order. *)
Definition be16 (x : Z) : list Z := [Ip.hi x; Ip.lo x].
Definition be32 (x : Z) : list Z := [u8 (Z.shiftr x 24); u8 (Z.shiftr x 16); u8 (Z.shiftr x 8); u8 x].

(** [tcp_pseudo_header_t] *)
Definition pseudo_header (data_len : Z) (src dst : list Z) : list Z :=
  src ++ dst ++ [0; IP_PROTO_TCP] ++ be16 (u16 (TCP_HEADER_SIZE + data_len)).

(** [header] is the twenty bytes at the header pointer. *)
Definition tcp_checksum (header data : list Z) (src dst : list Z) : Z :=
  let sum := Ip.sum_words (pseudo_header (Z.of_nat (length data)) src dst) 0 in
  let sum := Ip.sum_words header sum in
  let sum := Ip.sum_words data sum in
  u16 (Z.lnot (Ip.fold_carry 3 sum)).

(** The header [tcp_send_segment] fills in, with [c] as its checksum member. *)
Definition header_bytes (k : tcp_socket) (flags c : Z) : list Z :=
  be16 (local_port k) ++ be16 (remote_port k) ++
  be32 (snd_nxt (conn k)) ++ be32 (if has_flag flags TCP_FLAG_ACK then rcv_nxt (conn k) else 0) ++
  [Z.shiftl (TCP_HEADER_SIZE / 4) 4; flags] ++ be16 (u16 (rcv_wnd (conn k))) ++
  [Ip.lo c; Ip.hi c] ++ [0; 0].

Definition build_segment (k : tcp_socket) (flags : Z) (data : list Z) : segment :=
  let c := tcp_checksum (header_bytes k flags 0) data (local_addr k) (remote_addr k) in
  mk_segment (local_addr k) (remote_addr k) (header_bytes k flags c ++ data).

(** The sequence numbers a segment uses up. *)
Definition advance (flags n : Z) (c : tcp_connection) : tcp_connection :=
  if (0 <? n) || has_flag flags (Z.lor TCP_FLAG_SYN TCP_FLAG_FIN) then
    let x := u32 (snd_nxt c + n) in
    let x := if has_flag flags TCP_FLAG_SYN then u32 (x + 1) else x in
    let x := if has_flag flags TCP_FLAG_FIN then u32 (x + 1) else x in
    set_snd_nxt x c
  else c.

(** [data] is empty for NULL. When [TCP_HEADER_SIZE + data_len] wraps, the packet
    is shorter than what is copied to it. *)
Definition tcp_send_segment (socket : option nat) (flags : Z) (data : list Z) : M tcp Z :=
  match socket with
  | None => ret (-1)
  | Some i =>
      k <- read_sock i ;;
      s <- get ;;
      let n := Z.of_nat (length data) in
      let seg := build_segment k flags data in
      match ip_tx E s seg with
      | None => ret (-1)
      | Some result =>
          if u32 (TCP_HEADER_SIZE + n) <? TCP_HEADER_SIZE + n then fault
          else
            upd_sock i (on_conn (advance flags n)) ;;;
            modify (fun s => set_sent (seg :: sent s) s) ;;;
            ret result
      end
  end.

(** ** Finding sockets *)

(** The socket a segment is for, among [ks], whose first has index [i]. *)
Fixpoint find_from (ks : list tcp_socket) (i : nat) (lport : Z) (laddr : list Z)
    (rport : Z) (raddr : list Z) : option nat :=
  match ks with
  | [] => None
  | k :: r =>
      let continue := find_from r (S i) lport laddr rport raddr in
      if in_state (state k) CLOSED then continue
      else if negb (in_state (state k) LISTEN) && (local_port k =? lport) && (remote_port k =? rport) &&
              Ip.ip_addr_cmp (local_addr k) laddr && Ip.ip_addr_cmp (remote_addr k) raddr
      then Some i
      else if in_state (state k) LISTEN && (local_port k =? lport) then
        if negb (ip_addr_is_any E (local_addr k)) && negb (Ip.ip_addr_cmp (local_addr k) laddr)
        then continue else Some i
      else continue
  end.

Definition tcp_find_socket (lport : Z) (laddr : list Z) (rport : Z) (raddr : list Z) : M tcp (option nat) :=
  s <- get ;; ret (find_from (sockets s) 0 lport laddr rport raddr).

(** The first slot whose socket is closed. *)
Fixpoint find_closed (ks : list tcp_socket) (i : nat) : option nat :=
  match ks with
  | [] => None
  | k :: r => if in_state (state k) CLOSED then Some i else find_closed r (S i)
  end.

(** ** Incoming segments *)

(** The socket [tcp_process_syn] initialises for a connection request. *)
Definition syn_socket (iss : Z) (src : list Z) (sport : Z) (dst : list Z) (dport seq_num window : Z) : tcp_socket :=
  mk_socket SYN_RECEIVED dport sport dst src 0
    (mk_conn iss iss window (u32 (seq_num + 1)) TCP_DEFAULT_WINDOW TCP_DEFAULT_MSS
      (mk_retransmit TCP_RETRANSMIT_TIMEOUT 0 0 0 0) None)
    None None zero_rx None None None None None.

Definition read_listener (k : tcp_socket) : M tcp (addr * tcp_listener) :=
  a <- deref (listener k) ;; s <- get ;; l <- deref (listeners s !! a) ;; ret (a, l).
Definition write_listener (a : addr) (l : tcp_listener) : M tcp unit :=
  modify (fun s => set_listeners (<[a := l]> (listeners s)) s).

Definition tcp_process_syn (li : nat) (src : list Z) (sport : Z) (dst : list Z) (dport : Z)
    (seq_num window : Z) : M tcp Z :=
  k <- read_sock li ;;
  if negb (in_state (state k) LISTEN) then ret (-1)
  else
    l <- read_listener k ;;
    if backlog l.2 <=? pending_count l.2 then ret (-1)
    else
      s <- get ;;
      match find_closed (sockets s) 0 with
      | None => ret (-1)
      | Some j =>
          upd_sock j (fun _ => syn_socket (tcp_initial_seq s) src sport dst dport seq_num window) ;;;
          r <- tcp_buffer_init (Some j) TCP_DEFAULT_BUFFER_SIZE ;;
          if negb (r =? 0) then ret (-1)
          else
            upd_sock j (set_next (pending_connections l.2)) ;;;
            write_listener l.1 (mk_listener (backlog l.2) (u16 (pending_count l.2 + 1)) (Some j)) ;;;
            tcp_send_segment (Some j) (Z.lor TCP_FLAG_SYN TCP_FLAG_ACK) []
      end.

Definition tcp_process_ack (i : nat) (ack_num window : Z) : M tcp Z :=
  upd_sock i (on_conn (set_snd_wnd window)) ;;;
  k <- read_sock i ;;
  if (ack_num <=? snd_una (conn k)) || (snd_nxt (conn k) <? ack_num) then ret 0
  else
    upd_sock i (on_conn (set_snd_una ack_num)) ;;;
    match state k with
    | SYN_SENT =>
        upd_sock i (set_state CLOSED) ;;;
        _r <- tcp_send_segment (Some i) TCP_FLAG_RST [] ;;
        ret (-1)
    | SYN_RECEIVED =>
        upd_sock i (set_state ESTABLISHED) ;;;
        notify connected_callback i 0 ;;;
        ret 0
    | ESTABLISHED => ret 0
    | FIN_WAIT_1 => upd_sock i (set_state FIN_WAIT_2) ;;; ret 0
    | CLOSING =>
        upd_sock i (set_state TIME_WAIT) ;;;
        tcp_start_time_wait (Some i) ;;;
        ret 0
    | LAST_ACK =>
        upd_sock i (set_state CLOSED) ;;;
        notify closed_callback i 0 ;;;
        ret 0
    | _ => ret 0
    end.

Definition tcp_process_data (i : nat) (data : list Z) (seq_num : Z) : M tcp Z :=
  k <- read_sock i ;;
  if negb (seq_num =? rcv_nxt (conn k)) then
    _r <- tcp_send_segment (Some i) TCP_FLAG_ACK [] ;;
    ret (-1)
  else
    let n := Z.of_nat (length data) in
    upd_sock i (on_conn (fun c => set_rcv_nxt (u32 (rcv_nxt c + n)) c)) ;;;
    w <- tcp_buffer_write (Some i) (Some data) ;;
    if negb (u32 w =? n) then ret (-1)
    else
      notify data_ready_callback i n ;;;
      _r <- tcp_send_segment (Some i) TCP_FLAG_ACK [] ;;
      ret 0.

Definition tcp_process_fin (i : nat) (seq_num : Z) : M tcp Z :=
  upd_sock i (on_conn (set_rcv_nxt (u32 (seq_num + 1)))) ;;;
  k <- read_sock i ;;
  match state k with
  | ESTABLISHED =>
      upd_sock i (set_state CLOSE_WAIT) ;;;
      _r <- tcp_send_segment (Some i) TCP_FLAG_ACK [] ;;
      notify closed_callback i 0 ;;;
      ret 0
  | FIN_WAIT_1 =>
      upd_sock i (set_state CLOSING) ;;;
      _r <- tcp_send_segment (Some i) TCP_FLAG_ACK [] ;;
      ret 0
  | FIN_WAIT_2 =>
      upd_sock i (set_state TIME_WAIT) ;;;
      _r <- tcp_send_segment (Some i) TCP_FLAG_ACK [] ;;
      tcp_start_time_wait (Some i) ;;;
      ret 0
  | _ =>
      _r <- tcp_send_segment (Some i) TCP_FLAG_ACK [] ;;
      ret (-1)
  end.

(** A packet buffer as [tcp_rx] sees it: its [len] bytes, and the two addresses
    [protocol_data] points to. *)
Record packet : Type := mk_packet {
  pkt_bytes : list Z;
  pkt_addrs : option (list Z * list Z);
}.

(** [ntohs] and [ntohl] of the member at byte [i]. *)
Definition word16 (h : list Z) (i : nat) : Z := 256 * Ip.byte h i + Ip.byte h (S i).
Definition word32 (h : list Z) (i : nat) : Z := 65536 * word16 h i + word16 h (S (S i)).

(** The [len - off] bytes of a packet from [off] on: when [off] lies past the end the
    length wraps around, and reading them leaves the packet. *)
Definition bytes_from {S} (bytes : list Z) (off : Z) : M S (list Z) :=
  if (0 <=? off) && (off <=? Z.of_nat (length bytes)) then ret (drop (Z.to_nat off) bytes) else fault.

(** What [tcp_rx] does with a segment that passed its checks. *)
Definition tcp_dispatch (socket : option nat) (src dst : list Z) (sport dport seq_num ack_num : Z)
    (flags window : Z) (data : list Z) : M tcp Z :=
  if has_flag flags TCP_FLAG_RST then
    match socket with
    | None => ret 0
    | Some i => upd_sock i (set_state CLOSED) ;;; notify closed_callback i 0 ;;; ret 0
    end
  else if has_flag flags TCP_FLAG_SYN then
    match socket with
    | None => ret (-1)
    | Some i =>
        k <- read_sock i ;;
        if has_flag flags TCP_FLAG_ACK && in_state (state k) SYN_SENT then
          if negb (ack_num =? snd_nxt (conn k)) then ret (-1)
          else
            upd_sock i (fun k => set_state ESTABLISHED
              (on_conn (fun c => set_snd_wnd window (set_rcv_nxt (u32 (seq_num + 1)) (set_snd_una ack_num c))) k)) ;;;
            _r <- tcp_send_segment (Some i) TCP_FLAG_ACK [] ;;
            notify connected_callback i 0 ;;;
            ret 0
        else if in_state (state k) LISTEN then
          tcp_process_syn i src sport dst dport seq_num window
        else ret (-1)
    end
  else
    match socket with
    | None => ret (-1)
    | Some i =>
        (if has_flag flags TCP_FLAG_ACK
         then _r <- tcp_process_ack i ack_num window ;; ret tt else ret tt) ;;;
        let n := Z.of_nat (length data) in
        (if 0 <? n then _r <- tcp_process_data i data seq_num ;; ret tt else ret tt) ;;;
        (if has_flag flags TCP_FLAG_FIN
         then _r <- tcp_process_fin i (u32 (seq_num + n)) ;; ret tt else ret tt) ;;;
        ret 0
    end.

(** The checksum member is set to zero for the computation and restored. The
    header and the data are read out of the packet: a read past its end faults. *)
Definition tcp_rx (buffer : option packet) : M tcp Z :=
  match buffer with
  | None => ret (-1)
  | Some p =>
      let bytes := pkt_bytes p in
      let len := Z.of_nat (length bytes) in
      if len <? TCP_HEADER_SIZE then ret (-1)
      else
        h <- bytes_at bytes 0 TCP_HEADER_SIZE ;;
        let hdr_size := Z.land (Z.shiftr (Ip.byte h 12) 4) 0x0F * 4 in
        if (hdr_size <? TCP_HEADER_SIZE) || (len <? hdr_size) then ret (-1)
        else
          addrs <- deref (pkt_addrs p) ;;
          let '(src, dst) := addrs in
          data <- bytes_from bytes hdr_size ;;
          if negb (Ip.byte h 16 + 256 * Ip.byte h 17 =? tcp_checksum (Ip.set_word h 16 0 0) data src dst)
          then ret (-1)
          else
            socket <- tcp_find_socket (word16 h 2) dst (word16 h 0) src ;;
            tcp_dispatch socket src dst (word16 h 0) (word16 h 2) (word32 h 4) (word32 h 8)
              (Ip.byte h 13) (word16 h 14) data
  end.

(** ** Ports *)

Definition port_in_use (ks : list tcp_socket) (port : Z) : bool :=
  existsb (fun k => negb (in_state (state k) CLOSED) && (local_port k =? port)) ks.

Definition tcp_get_free_port : M tcp Z :=
  s <- get ;;
  let start := last_dynamic_port s in
  let p := Ports.next_dynamic start in
  put (set_last_dynamic_port p s) ;;;
  match Ports.port_loop (port_in_use (sockets s)) Ports.PORT_FUEL p start with
  | Some r => ret r
  | None => spin
  end.

(** Some open socket other than [i] has the port and an address that clashes. *)
Fixpoint port_clash (clash : list Z -> bool) (i : nat) (port : Z) (ks : list tcp_socket) (j : nat) : bool :=
  match ks with
  | [] => false
  | k :: r =>
      if (j =? i)%nat then port_clash clash i port r (S j)
      else if negb (in_state (state k) CLOSED) && (local_port k =? port) && clash (local_addr k) then true
      else port_clash clash i port r (S j)
  end.

(** ** The calls of the application *)

Definition tcp_socket_create (laddr : option (list Z)) (lport : Z) : M tcp (option nat) :=
  s <- get ;;
  match find_closed (sockets s) 0 with
  | None => ret None
  | Some i =>
      let a := default [0; 0; 0; 0] laddr in
      upd_sock i (fun _ => set_local_addr a zero_socket) ;;;
      ok <- (if 0 <? lport then
               s <- get ;;
               if port_clash (fun b => ip_addr_is_any E b || ip_addr_is_any E a || Ip.ip_addr_cmp b a)
                    i lport (sockets s) 0
               then ret false
               else upd_sock i (set_local_port lport) ;;; ret true
             else
               p <- tcp_get_free_port ;;
               upd_sock i (set_local_port p) ;;;
               ret (negb (p =? 0))) ;;
      if negb ok then ret None
      else
        upd_sock i (on_conn (fun c => set_mss TCP_DEFAULT_MSS (set_rcv_wnd TCP_DEFAULT_WINDOW c))) ;;;
        r <- tcp_buffer_init (Some i) TCP_DEFAULT_BUFFER_SIZE ;;
        if negb (r =? 0) then ret None else ret (Some i)
  end.

Definition tcp_socket_bind (socket : option nat) (addr4 : option (list Z)) (port : Z) : M tcp Z :=
  match socket with
  | None => ret (-1)
  | Some i =>
      k <- read_sock i ;;
      if negb (in_state (state k) CLOSED) then ret (-1)
      else
        ok <- (if 0 <? port then
                 s <- get ;;
                 if port_clash (fun b => match addr4 with
                                         | None => true
                                         | Some a => ip_addr_is_any E b || Ip.ip_addr_cmp a b
                                         end) i port (sockets s) 0
                 then ret false
                 else upd_sock i (set_local_port port) ;;; ret true
               else if local_port k =? 0 then
                 p <- tcp_get_free_port ;;
                 upd_sock i (set_local_port p) ;;;
                 ret (negb (p =? 0))
               else ret true) ;;
        if negb ok then ret (-1)
        else
          match addr4 with
          | Some a => upd_sock i (set_local_addr a) ;;; ret 0
          | None => ret 0
          end
  end.

(** [sizeof(tcp_listener_t)] *)
Definition LISTENER_SIZE : Z := 8.

Definition tcp_socket_listen (socket : option nat) (n : Z) : M tcp Z :=
  match socket with
  | None => ret (-1)
  | Some i =>
      k <- read_sock i ;;
      if negb (in_state (state k) CLOSED) then ret (-1)
      else
        s <- get ;;
        match malloc E s LISTENER_SIZE with
        | None => ret (-1)
        | Some (a, _) =>
            write_listener a (mk_listener (if 0 <? n then n else 1) 0 None) ;;;
            upd_sock i (fun k => set_listener (Some a) (set_state LISTEN k)) ;;;
            ret 0
        end
  end.

Definition tcp_socket_accept (socket : option nat) : M tcp (option nat) :=
  match socket with
  | None => ret None
  | Some i =>
      k <- read_sock i ;;
      match state k, listener k with
      | LISTEN, Some _ =>
          l <- read_listener k ;;
          match pending_connections l.2 with
          | None => ret None
          | Some j =>
              c <- read_sock j ;;
              write_listener l.1 (mk_listener (backlog l.2) (u16 (pending_count l.2 - 1)) (next c)) ;;;
              upd_sock j (set_next None) ;;;
              (if in_state (state c) SYN_RECEIVED then upd_sock j (set_state ESTABLISHED) else ret tt) ;;;
              ret (Some j)
          end
      | _, _ => ret None
      end
  end.

Definition tcp_socket_connect (socket : option nat) (addr4 : option (list Z)) (port : Z) : M tcp Z :=
  match socket, addr4 with
  | Some i, Some a =>
      k <- read_sock i ;;
      if negb (in_state (state k) CLOSED) then ret (-1)
      else
        upd_sock i (fun k => set_remote_port port (set_remote_addr a k)) ;;;
        has_addr <- (if ip_addr_is_any E (local_addr k) then
                       dev <- on_ip (Ip.on_net Network.network_get_default_device) ;;
                       match dev with
                       | None => ret false
                       | Some d =>
                           dd <- on_ip (Ip.on_net (Network.read_dev d)) ;;
                           upd_sock i (set_local_addr (Network.ip dd)) ;;;
                           ret true
                       end
                     else ret true) ;;
        if negb has_addr then ret (-1)
        else
          has_port <- (if local_port k =? 0 then
                         p <- tcp_get_free_port ;;
                         upd_sock i (set_local_port p) ;;;
                         ret (negb (p =? 0))
                       else ret true) ;;
          if negb has_port then ret (-1)
          else
            s <- get ;;
            upd_sock i (fun k => set_state SYN_SENT (on_conn (fun c =>
              let t := retransmit c in
              set_retransmit (mk_retransmit TCP_RETRANSMIT_TIMEOUT (srtt t) (rttvar t) 0 (timer t))
                (set_rcv_nxt 0 (set_snd_nxt (tcp_initial_seq s) (set_snd_una (tcp_initial_seq s) c)))) k)) ;;;
            r <- tcp_buffer_init (Some i) TCP_DEFAULT_BUFFER_SIZE ;;
            if negb (r =? 0) then ret (-1)
            else tcp_send_segment (Some i) TCP_FLAG_SYN []
  | _, _ => ret (-1)
  end.

Definition tcp_socket_close (socket : option nat) : M tcp Z :=
  match socket with
  | None => ret (-1)
  | Some i =>
      k <- read_sock i ;;
      match state k with
      | CLOSED => ret 0
      | LISTEN =>
          (match listener k with
           | Some a =>
               s <- get ;;
               _ <- deref (listeners s !! a) ;;
               put (set_listeners (delete a (listeners s)) s) ;;;
               upd_sock i (set_listener None)
           | None => ret tt
           end) ;;;
          upd_sock i (set_state CLOSED) ;;;
          ret 0
      | SYN_SENT => upd_sock i (set_state CLOSED) ;;; ret 0
      | SYN_RECEIVED =>
          upd_sock i (set_state FIN_WAIT_1) ;;;
          tcp_send_segment (Some i) (Z.lor TCP_FLAG_FIN TCP_FLAG_ACK) []
      | ESTABLISHED =>
          upd_sock i (set_state FIN_WAIT_1) ;;;
          tcp_send_segment (Some i) (Z.lor TCP_FLAG_FIN TCP_FLAG_ACK) []
      | CLOSE_WAIT =>
          upd_sock i (set_state LAST_ACK) ;;;
          tcp_send_segment (Some i) (Z.lor TCP_FLAG_FIN TCP_FLAG_ACK) []
      | _ => ret (-1)
      end
  end.

Definition tcp_socket_send (socket : option nat) (data : option (list Z)) : M tcp Z :=
  match socket, data with
  | Some i, Some data =>
      k <- read_sock i ;;
      if negb (in_state (state k) ESTABLISHED) then ret (-1)
      else
        let n := Z.of_nat (length data) in
        result <- tcp_send_segment (Some i) (Z.lor TCP_FLAG_PSH TCP_FLAG_ACK) data ;;
        (if result =? 0 then notify sent_callback i n else ret tt) ;;;
        ret (if result =? 0 then to_int n else result)
  | _, _ => ret (-1)
  end.

Definition tcp_socket_recv (socket : option nat) (out : bool) (len : Z) : M tcp (Z * list Z) :=
  match socket, out with
  | Some i, true =>
      k <- read_sock i ;;
      if negb (in_state (state k) ESTABLISHED) && negb (in_state (state k) FIN_WAIT_1) &&
         negb (in_state (state k) FIN_WAIT_2) && negb (in_state (state k) CLOSE_WAIT)
      then ret (-1, [])
      else tcp_buffer_read (Some i) true len
  | _, _ => ret (-1, [])
  end.

Definition tcp_socket_available (socket : option nat) : M tcp Z :=
  match socket with
  | None => ret (-1)
  | Some i => k <- read_sock i ;; ret (to_int (bytes_available (rx_buffer k)))
  end.

Definition tcp_state_to_str (st : tcp_state) : string :=
  match st with
  | CLOSED => "CLOSED"
  | LISTEN => "LISTEN"
  | SYN_SENT => "SYN_SENT"
  | SYN_RECEIVED => "SYN_RECEIVED"
  | ESTABLISHED => "ESTABLISHED"
  | FIN_WAIT_1 => "FIN_WAIT_1"
  | FIN_WAIT_2 => "FIN_WAIT_2"
  | CLOSING => "CLOSING"
  | TIME_WAIT => "TIME_WAIT"
  | CLOSE_WAIT => "CLOSE_WAIT"
  | LAST_ACK => "LAST_ACK"
  end.

Definition tcp_socket_register_callbacks (socket : option nat) (connected data_ready sent closed : ptr) : M tcp Z :=
  match socket with
  | None => ret (-1)
  | Some i =>
      upd_sock i (fun k =>
        mk_socket (state k) (local_port k) (remote_port k) (local_addr k) (remote_addr k) (options k)
          (conn k) (listener k) (next k) (rx_buffer k) connected data_ready sent closed (user_data k)) ;;;
      ret 0
  end.

Definition tcp_socket_set_options (socket : option nat) (opts : Z) : M tcp Z :=
  match socket with
  | None => ret (-1)
  | Some i => upd_sock i (set_options opts) ;;; ret 0
  end.

(** ** Timers *)

(** One slot of the [TIME_WAIT] table. *)
Definition expire_time_wait (current_time : Z) (n : nat) : M tcp unit :=
  s <- get ;;
  t <- deref (time_waits s !! n) ;;
  match tw_socket t with
  | None => ret tt
  | Some i =>
      if duration t <=? u32 (current_time - start_time t) then
        upd_sock i (set_state CLOSED) ;;;
        modify (fun s => set_time_waits (<[n := mk_tw (start_time t) (duration t) None]> (time_waits s)) s)
      else ret tt
  end.

(** The retransmission part for one socket. *)
Definition retransmit_socket (msec : Z) (i : nat) : M tcp unit :=
  k <- read_sock i ;;
  if in_state (state k) CLOSED then ret tt
  else if in_state (state k) SYN_SENT || in_state (state k) SYN_RECEIVED || in_state (state k) ESTABLISHED then
    let t := retransmit (conn k) in
    if 0 <? timer t then
      let left := u32 (timer t - msec) in
      if left <=? 0 then
        let n := u8 (attempts t + 1) in
        let r := u32 (rto t * 2) in
        if TCP_MAX_RETRANSMITS <? n then
          upd_sock i (fun k => set_state CLOSED
            (on_conn (set_retransmit (mk_retransmit r (srtt t) (rttvar t) n left)) k)) ;;;
          notify closed_callback i 0
        else upd_sock i (on_conn (set_retransmit (mk_retransmit r (srtt t) (rttvar t) n r)))
      else upd_sock i (on_conn (set_retransmit (set_timer left t)))
    else ret tt
  else ret tt.

Definition tcp_timer (msec : Z) : M tcp unit :=
  s <- get ;;
  mfor (seq 0 TCP_MAX_TIME_WAIT_SOCKETS) (expire_time_wait (now s)) ;;;
  mfor (seq 0 TCP_MAX_SOCKETS) (retransmit_socket msec).

End Ops.
End Tcp.
