(* ===== verification/TcpInv.v ===== *)
(** * TCP: the invariant and the effect of each operation on it

    [inv]: every pointer of the tables leads to something allocated, every receive
    buffer is a well-formed ring over a block of its own, and every field holds a
    value of its C type. The environment's part ([EnvOk]): [malloc] answers fresh
    blocks of the size asked for, and callbacks keep the invariant. *)

From Stdlib Require Import ZArith Lia String.
From stdpp Require Import base tactics option list gmap strings.
From S2P Require Import Prelude Ring Ports Network Ip Tcp.

Set Default Goal Selector "!".
Local Open Scope Z_scope.
Local Open Scope kernel_scope.

Module TcpInv.
Import Tcp.

(** ** The invariant *)

Definition u8_ok (x : Z) : Prop := 0 <= x < 2 ^ 8.
Definition u16_ok (x : Z) : Prop := 0 <= x < 2 ^ 16.
Definition u32_ok (x : Z) : Prop := 0 <= x < 2 ^ 32.
Definition addr4_ok (a : list Z) : Prop := length a = 4%nat /\ Ip.bytes_ok a.

Record conn_typed (c : tcp_connection) : Prop := {
  ct_una : u32_ok (snd_una c);
  ct_nxt : u32_ok (snd_nxt c);
  ct_wnd : u32_ok (snd_wnd c);
  ct_rcv : u32_ok (rcv_nxt c);
  ct_rwnd : u32_ok (rcv_wnd c);
  ct_mss : u16_ok (mss c);
  ct_rto : u32_ok (rto (retransmit c));
  ct_attempts : u8_ok (attempts (retransmit c));
  ct_timer : u32_ok (timer (retransmit c));
}.

Record sock_typed (k : tcp_socket) : Prop := {
  st_lport : u16_ok (local_port k);
  st_rport : u16_ok (remote_port k);
  st_laddr : addr4_ok (local_addr k);
  st_raddr : addr4_ok (remote_addr k);
  st_options : u8_ok (options k);
  st_conn : conn_typed (conn k);
}.

(** The ring a receive buffer is, and the bytes in it that were not read. *)
Definition rx_ring (b : tcp_buffer) (block : list Z) : Ring.ring Z :=
  Ring.mk_ring block (rx_start b) (rx_end b) (bytes_available b).

Definition unread_in (blocks : gmap addr (list Z)) (b : tcp_buffer) : list Z :=
  match rx_data b with
  | None => []
  | Some d =>
      match blocks !! d with
      | None => []
      | Some block => Ring.items (rx_size b) (rx_ring b block)
      end
  end.

Definition unread (s : tcp) (k : tcp_socket) : list Z := unread_in (rx_blocks s) (rx_buffer k).

Record rx_ok (blocks : gmap addr (list Z)) (b : tcp_buffer) (d : addr) (block : list Z) : Prop := {
  ro_data : rx_data b = Some d;
  ro_block : blocks !! d = Some block;
  ro_ring : Ring.ring_wf (rx_size b) (rx_ring b block);
  ro_size : rx_size b = TCP_DEFAULT_BUFFER_SIZE;
}.

Record sock_ok (s : tcp) (k : tcp_socket) : Prop := {
  so_next : forall j, next k = Some j -> (j < TCP_MAX_SOCKETS)%nat;
  so_rx : forall d, rx_data (rx_buffer k) = Some d -> exists block, rx_ok (rx_blocks s) (rx_buffer k) d block;
  so_listen : state k = LISTEN -> is_Some (listener k);
  so_live : forall a, listener k = Some a -> is_Some (listeners s !! a);
  so_avail : u32_ok (bytes_available (rx_buffer k));
  so_typed : sock_typed k;
}.

Record inv (s : tcp) : Prop := {
  ti_len : length (sockets s) = TCP_MAX_SOCKETS;
  ti_socks : forall i k, sockets s !! i = Some k -> sock_ok s k;
  ti_listeners : forall i j ki kj a,
    sockets s !! i = Some ki -> sockets s !! j = Some kj ->
    listener ki = Some a -> listener kj = Some a -> i = j;
  ti_blocks : forall i j ki kj d,
    sockets s !! i = Some ki -> sockets s !! j = Some kj ->
    rx_data (rx_buffer ki) = Some d -> rx_data (rx_buffer kj) = Some d -> i = j;
  ti_pending : forall a l, listeners s !! a = Some l ->
    u16_ok (backlog l) /\ u16_ok (pending_count l) /\
    forall j, pending_connections l = Some j -> (j < TCP_MAX_SOCKETS)%nat;
  ti_tw_len : length (time_waits s) = TCP_MAX_TIME_WAIT_SOCKETS;
  ti_tw : forall n t i, time_waits s !! n = Some t -> tw_socket t = Some i -> (i < TCP_MAX_SOCKETS)%nat;
  ti_port : u16_ok (last_dynamic_port s);
  ti_seq : u32_ok (tcp_initial_seq s);
  ti_dev : forall a, Network.default_device (Ip.stack (below s)) = Some a ->
    exists d, Network.devs (Ip.stack (below s)) !! a = Some d /\ addr4_ok (Network.ip d);
}.

(** What TCP asks of its environment. *)
Class EnvOk (E : env) : Prop := {
  malloc_fresh : forall s n a g, malloc E s n = Some (a, g) ->
    rx_blocks s !! a = None /\ listeners s !! a = None /\ Z.of_nat (length g) = n;
  callback_inv : forall f i n s, inv s -> wp (callback E f i n) (fun _ s' => inv s') s;
}.

(** ** Access to sockets *)

Lemma wp_read_sock i Q s :
  wp (read_sock i) Q s <-> exists k, sockets s !! i = Some k /\ Q k s.
Proof. unfold read_sock. wp_steps. apply wp_deref. Qed.

Lemma wp_upd_sock i f Q s :
  wp (upd_sock i f) Q s <->
  exists k, sockets s !! i = Some k /\ Q tt (set_sockets (<[i := f k]> (sockets s)) s).
Proof. unfold upd_sock. wp_steps. rewrite wp_deref. by setoid_rewrite wp_put. Qed.

Lemma sock_exists s i : inv s -> (i < TCP_MAX_SOCKETS)%nat -> exists k, sockets s !! i = Some k.
Proof. intros Hi Hlt. apply lookup_lt_is_Some. by rewrite (ti_len _ Hi). Qed.

Lemma sock_range s i k : inv s -> sockets s !! i = Some k -> (i < TCP_MAX_SOCKETS)%nat.
Proof. intros Hi Hk. rewrite <- (ti_len _ Hi). by eapply lookup_lt_Some. Qed.

(** Replacing a socket by one that is in order and shares nothing keeps the invariant. *)
Lemma inv_set_sock s i k :
  inv s -> (i < TCP_MAX_SOCKETS)%nat -> sock_ok s k ->
  (forall j kj a, j <> i -> sockets s !! j = Some kj -> listener k = Some a -> listener kj <> Some a) ->
  (forall j kj d, j <> i -> sockets s !! j = Some kj -> rx_data (rx_buffer k) = Some d ->
     rx_data (rx_buffer kj) <> Some d) ->
  inv (set_sockets (<[i := k]> (sockets s)) s).
Proof.
  intros Hi Hlt Hk Hl Hd. pose proof (ti_len _ Hi) as Hlen.
  assert (Hlook : forall j kj, <[i := k]> (sockets s) !! j = Some kj ->
    (j = i /\ kj = k) \/ (j <> i /\ sockets s !! j = Some kj)).
  { intros j kj. destruct (decide (j = i)) as [->|Hne].
    - rewrite list_lookup_insert_eq by lia. naive_solver.
    - rewrite list_lookup_insert_ne by done. auto. }
  destruct Hi as [H1 H2 H3 H4 H5 H6 H7 H8 H9 H10]. split; cbn; try done.
  - by rewrite length_insert.
  - intros j kj [[-> ->]|[Hne Hj]]%Hlook.
    + by destruct Hk; split.
    + by destruct (H2 _ _ Hj); split.
  - intros j j' kj kj' a [[-> ->]|[Hne Hj]]%Hlook [[-> ->]|[Hne' Hj']]%Hlook Ha Ha'; try done.
    + exfalso. by eapply (Hl j').
    + exfalso. by eapply (Hl j).
    + by eapply H3.
  - intros j j' kj kj' a [[-> ->]|[Hne Hj]]%Hlook [[-> ->]|[Hne' Hj']]%Hlook Ha Ha'; try done.
    + exfalso. by eapply (Hd j').
    + exfalso. by eapply (Hd j).
    + by eapply H4.
Qed.

(** A change that leaves the pointers of a socket alone. *)
Record benign (f : tcp_socket -> tcp_socket) (k : tcp_socket) : Prop := {
  be_next : next (f k) = next k;
  be_rx : rx_buffer (f k) = rx_buffer k;
  be_listener : listener (f k) = listener k;
  be_listen : state (f k) = LISTEN -> state k = LISTEN;
  be_typed : sock_typed k -> sock_typed (f k);
}.

Lemma inv_benign s i f k :
  inv s -> sockets s !! i = Some k -> benign f k ->
  inv (set_sockets (<[i := f k]> (sockets s)) s).
Proof.
  intros Hi Hk [B1 B2 B3 B4 B5]. pose proof (ti_socks _ Hi _ _ Hk) as [S1 S2 S3 S4 S5 S6].
  apply inv_set_sock; [done|by eapply sock_range|split|..].
  - by rewrite B1.
  - by rewrite B2.
  - rewrite B3. auto.
  - by rewrite B3.
  - by rewrite B2.
  - auto.
  - rewrite B3. intros j kj a Hne Hj Ha Ha'. apply Hne. by eapply (ti_listeners _ Hi).
  - rewrite B2. intros j kj a Hne Hj Ha Ha'. apply Hne. by eapply (ti_blocks _ Hi).
Qed.

(** ** Calls that keep the invariant *)

Definition safe {A} (m : M tcp A) : Prop := forall s, inv s -> wp m (fun _ s' => inv s') s.

Lemma safe_ret {A} (a : A) : safe (ret a).
Proof. by intros s Hi. Qed.

Lemma safe_bind {A B} (m : M tcp A) (k : A -> M tcp B) :
  safe m -> (forall a, safe (k a)) -> safe (bind m k).
Proof.
  intros Hm Hk s Hi. apply wp_bind. eapply wp_mono; [by apply Hm|]. intros a s' Hi'. by apply Hk.
Qed.

Lemma safe_get {A} (k : tcp -> M tcp A) :
  (forall s, inv s -> wp (k s) (fun _ s' => inv s') s) -> safe (bind get k).
Proof. intros Hk s Hi. wp_steps. by apply Hk. Qed.

Lemma safe_read {A} i (K : tcp_socket -> M tcp A) :
  (i < TCP_MAX_SOCKETS)%nat ->
  (forall k s, inv s -> sockets s !! i = Some k -> wp (K k) (fun _ s' => inv s') s) ->
  safe (bind (read_sock i) K).
Proof.
  intros Hlt HK s Hi. apply wp_bind, wp_read_sock. destruct (sock_exists _ _ Hi Hlt) as [k Hk]. eauto.
Qed.

Lemma safe_upd i f :
  (i < TCP_MAX_SOCKETS)%nat -> (forall k, benign f k) -> safe (upd_sock i f).
Proof.
  intros Hlt Hb s Hi. apply wp_upd_sock. destruct (sock_exists _ _ Hi Hlt) as [k Hk].
  exists k. split; [done|]. by apply inv_benign.
Qed.

Lemma safe_notify E `{!EnvOk E} cb i n : (i < TCP_MAX_SOCKETS)%nat -> safe (notify E cb i n).
Proof.
  intros Hlt. apply safe_read; [done|]. intros k s Hi Hk. destruct (cb k); [|done].
  by apply callback_inv.
Qed.

(** Forget the state a call runs from. *)
Ltac as_safe :=
  match goal with |- wp ?m _ _ => let H := fresh in enough (H : safe m) by (by apply H) end.

(** ** Receive buffers *)

(** Writing is insertion at the end of the ring, byte by byte. *)
Lemma copy_in_spec size data : forall block st e n,
  Ring.ring_wf size (Ring.mk_ring block st e n) -> size < 2 ^ 32 ->
  n + Z.of_nat (length data) <= size ->
  exists block' e',
    copy_in size data block e = Some (block', e') /\
    Ring.ring_wf size (Ring.mk_ring block' st e' (n + Z.of_nat (length data))) /\
    Ring.items size (Ring.mk_ring block' st e' (n + Z.of_nat (length data))) =
      Ring.items size (Ring.mk_ring block st e n) ++ data.
Proof.
  induction data as [|b data IH]; intros block st e n Hw Hs Hn; cbn [copy_in length] in *.
  - exists block, e. rewrite Z.add_0_r, app_nil_r. done.
  - destruct (Ring.ring_push_spec size _ b Hw) as (r' & Hp & Hw' & Hi & Hc); [cbn; lia|].
    unfold Ring.ring_push in Hp. cbn in Hp.
    destruct (arr_set block e b) as [block1|] eqn:Ea; [|done]. injection Hp as <-.
    assert (He : 0 <= e < size) by (apply arr_set_inv in Ea as [He _]; destruct Hw as (<- & _); exact He).
    destruct (Z.eqb_spec size 0); [lia|]. cbn [mbind option_bind].
    rewrite (u32_small (e + 1)) by lia.
    destruct (IH _ _ _ _ Hw') as (block' & e' & Hcp & Hw2 & Hi2); [lia|lia|].
    exists block', e'. replace (n + Z.of_nat (S (length data))) with (n + 1 + Z.of_nat (length data)) by lia.
    split_and!; [done|done|]. rewrite Hi2, Hi, <- app_assoc. done.
Qed.

(** Reading takes from the front. *)
Lemma ring_copy_out_spec size block e m : forall st n,
  Ring.ring_wf size (Ring.mk_ring block st e n) -> size < 2 ^ 32 -> Z.of_nat m <= n ->
  exists out st',
    copy_out m size block st = Some (out, st') /\
    Ring.ring_wf size (Ring.mk_ring block st' e (n - Z.of_nat m)) /\
    out = take m (Ring.items size (Ring.mk_ring block st e n)) /\
    Ring.items size (Ring.mk_ring block st' e (n - Z.of_nat m)) =
      drop m (Ring.items size (Ring.mk_ring block st e n)).
Proof.
  induction m as [|m IH]; intros st n Hw Hs Hn; cbn [copy_out].
  - exists [], st. rewrite Z.sub_0_r, drop_0. done.
  - destruct (Ring.ring_pop_spec size _ Hw) as (x & Hx & Hw' & Hi); [cbn; lia|].
    unfold Ring.ring_front in Hx. cbn in Hx. rewrite Hx. cbn [mbind option_bind].
    destruct Hw as (_ & Hp & Hst & _). cbn in Hst.
    destruct (Z.eqb_spec size 0); [lia|]. rewrite (u32_small (st + 1)) by lia.
    unfold Ring.ring_pop in Hw', Hi. cbn in Hw', Hi.
    destruct (IH _ _ Hw') as (out & st' & Hc & Hw2 & Ho & Hd); [lia|lia|].
    rewrite Hc. cbn [mbind option_bind fst snd]. exists (x :: out), st'.
    replace (n - Z.of_nat (S m)) with (n - 1 - Z.of_nat m) by lia.
    rewrite Hi. cbn [take drop]. subst out. done.
Qed.

Lemma rx_avail s k d block :
  rx_ok (rx_blocks s) (rx_buffer k) d block ->
  Z.of_nat (length (unread s k)) = bytes_available (rx_buffer k) /\
  0 <= bytes_available (rx_buffer k) <= TCP_DEFAULT_BUFFER_SIZE.
Proof.
  intros [Hd Hb Hw Hs]. unfold unread, unread_in. rewrite Hd, Hb, (Ring.items_length _ _ Hw).
  destruct Hw as (_ & _ & _ & Hc & _). cbn in *. lia.
Qed.

(** A change of one block that no other socket uses. *)
Lemma unread_other s d block kj :
  rx_data (rx_buffer kj) <> Some d ->
  unread_in (<[d := block]> (rx_blocks s)) (rx_buffer kj) = unread s kj.
Proof.
  intros Hd. unfold unread, unread_in. destruct (rx_data (rx_buffer kj)) as [d'|]; [|done].
  rewrite lookup_insert_ne by naive_solver. done.
Qed.

Lemma sock_ok_set_rx s k b :
  sock_ok s k -> u32_ok (bytes_available b) ->
  (forall d, rx_data b = Some d -> exists block, rx_ok (rx_blocks s) b d block) ->
  sock_ok s (set_rx_buffer b k).
Proof. intros [S1 S2 S3 S4 S5 S6] Ha Hb. split; try done. by destruct S6; split. Qed.

(** A new or changed block for socket [i]. *)
Lemma inv_set_block s i k b d block :
  inv s -> sockets s !! i = Some k ->
  rx_ok (<[d := block]> (rx_blocks s)) b d block ->
  (forall j kj, j <> i -> sockets s !! j = Some kj -> rx_data (rx_buffer kj) <> Some d) ->
  inv (set_sockets (<[i := set_rx_buffer b k]> (sockets s))
         (set_rx_blocks (<[d := block]> (rx_blocks s)) s)).
Proof.
  intros Hi Hk Hr Hfresh. pose proof (ti_socks _ Hi _ _ Hk) as Hok.
  pose proof (sock_range _ _ _ Hi Hk) as Hlt.
  assert (Hav : u32_ok (bytes_available b)).
  { destruct Hr as [_ _ (_ & _ & _ & Hc & _) Hs]. cbn in Hc. unfold u32_ok.
    rewrite Hs in Hc. unfold TCP_DEFAULT_BUFFER_SIZE in Hc. lia. }
  pose proof Hi as [H1 H2 H3 H4 H5 H6 H7 H8 H9 H10].
  assert (Hlook : forall j kj, <[i := set_rx_buffer b k]> (sockets s) !! j = Some kj ->
    (j = i /\ kj = set_rx_buffer b k) \/ (j <> i /\ sockets s !! j = Some kj)).
  { intros j kj. destruct (decide (j = i)) as [->|Hne].
    - rewrite list_lookup_insert_eq by lia. naive_solver.
    - rewrite list_lookup_insert_ne by done. auto. }
  split; cbn; try done.
  - by rewrite length_insert.
  - intros j kj [[-> ->]|[Hne Hj]]%Hlook.
    + destruct Hok as [S1 S2 S3 S4 S5 S6]. split; cbn; try done.
      * intros d' Hd'. destruct Hr as [Hrd]. rewrite Hrd in Hd'. injection Hd' as <-. exists block. by split.
      * by destruct S6; split.
    + destruct (H2 _ _ Hj) as [S1 S2 S3 S4 S5 S6]. split; cbn; try done.
      intros d' Hd'. destruct (S2 _ Hd') as [bl [R1 R2 R3 R4]]. exists bl. split; try done.
      rewrite lookup_insert_ne; [done|]. intros ->. by eapply (Hfresh j).
  - intros j j' kj kj' a [[-> ->]|[Hne Hj]]%Hlook [[-> ->]|[Hne' Hj']]%Hlook Ha Ha'; try done.
    + cbn in Ha. by eapply H3.
    + cbn in Ha'. by eapply H3.
    + by eapply H3.
  - intros j j' kj kj' a [[-> ->]|[Hne Hj]]%Hlook [[-> ->]|[Hne' Hj']]%Hlook Ha Ha'; try done.
    + cbn in Ha. rewrite (ro_data _ _ _ _ Hr) in Ha. injection Ha as <-. exfalso. by eapply (Hfresh j').
    + cbn in Ha'. rewrite (ro_data _ _ _ _ Hr) in Ha'. injection Ha' as <-. exfalso. by eapply (Hfresh j).
    + by eapply H4.
Qed.

Lemma ring_new size (block : list Z) :
  0 < size -> Z.of_nat (length block) = size ->
  Ring.ring_wf size (Ring.mk_ring block 0 0 0) /\ Ring.items size (Ring.mk_ring block 0 0 0) = [].
Proof. intros Hs Hl. split; [|done]. repeat split; cbn; lia. Qed.

Lemma wp_buffer_init E `{!EnvOk E} s i k :
  inv s -> sockets s !! i = Some k ->
  wp (tcp_buffer_init E (Some i) TCP_DEFAULT_BUFFER_SIZE)
    (fun r s' => inv s' /\ listeners s' = listeners s /\ tcp_initial_seq s' = tcp_initial_seq s /\
       exists b, sockets s' = <[i := set_rx_buffer b k]> (sockets s) /\ (r = 0 -> unread_in (rx_blocks s') b = [])) s.
Proof.
  intros Hi Hk. unfold tcp_buffer_init. wp_steps. destruct (malloc E s _) as [[a g]|] eqn:Em.
  - destruct (malloc_fresh _ _ _ _ Em) as (Hf & _ & Hg).
    destruct (ring_new TCP_DEFAULT_BUFFER_SIZE g) as [Hw Hit]; [done|done|].
    wp_steps. apply wp_upd_sock. exists k. split; [done|]. wp_steps. split_and!; [|done|done|].
    + apply (inv_set_block s i k _ a g); [done|done| |].
      * split; cbn; [done|by rewrite lookup_insert_eq|done|done].
      * intros j kj _ Hj Hd. destruct (so_rx _ _ (ti_socks _ Hi _ _ Hj) _ Hd) as [bl Hr].
        rewrite (ro_block _ _ _ _ Hr) in Hf. done.
    + exists (mk_rx (Some a) TCP_DEFAULT_BUFFER_SIZE 0 0 0). split; [done|]. intros _. unfold unread_in. cbn.
      by rewrite lookup_insert_eq.
  - wp_steps. apply wp_upd_sock. exists k. split; [done|]. wp_steps. split_and!; [|done|done|by eexists].
    pose proof (ti_socks _ Hi _ _ Hk) as Hok.
    apply inv_set_sock; [done|by eapply sock_range| | |done].
    + apply sock_ok_set_rx; [done|apply Hok|done].
    + cbn. intros j kj a Hne Hj Ha Ha'. apply Hne. by eapply (ti_listeners _ Hi).
Qed.

(** A write that fits appends; one that does not changes nothing. *)
Lemma wp_buffer_write s i k data :
  inv s -> sockets s !! i = Some k -> Z.of_nat (length data) < 2 ^ 31 ->
  wp (tcp_buffer_write (Some i) (Some data))
    (fun r s' => inv s' /\ listeners s' = listeners s /\ time_waits s' = time_waits s /\ sent s' = sent s /\
       (forall j kj, j <> i -> sockets s !! j = Some kj ->
          sockets s' !! j = Some kj /\ unread s' kj = unread s kj) /\
       match rx_data (rx_buffer k) with
       | None => r = -1 /\ s' = s
       | Some d =>
           if decide (Z.of_nat (length (unread s k) + length data) <= TCP_DEFAULT_BUFFER_SIZE)
           then r = Z.of_nat (length data) /\
                exists b, sockets s' = <[i := set_rx_buffer b k]> (sockets s) /\
                  rx_data b = Some d /\ unread_in (rx_blocks s') b = unread s k ++ data
           else r = -1 /\ s' = s
       end) s.
Proof.
  intros Hi Hk Hlen. unfold tcp_buffer_write. wp_steps. apply wp_read_sock. exists k. split; [done|].
  destruct (rx_data (rx_buffer k)) as [d|] eqn:Hd; [|by wp_steps].
  destruct (so_rx _ _ (ti_socks _ Hi _ _ Hk) _ Hd) as [block Hr].
  destruct (rx_avail _ _ _ _ Hr) as [Hav Hrange]. pose proof (ro_size _ _ _ _ Hr) as Hsz.
  unfold TCP_DEFAULT_BUFFER_SIZE in *. rewrite u32_small by lia. rewrite Hsz.
  destruct (Z.ltb_spec 8192 (bytes_available (rx_buffer k) + Z.of_nat (length data))).
  { wp_steps. by rewrite decide_False by lia. }
  wp_steps. apply wp_deref.
  pose proof Hr as [_ Hb Hw _]. exists block. split; [done|].
  rewrite Hsz in Hw. destruct (copy_in_spec _ data _ _ _ _ Hw) as (block' & e' & Hc & Hw' & Hit); [lia|lia|].
  wp_steps. apply wp_deref. eexists. split; [exact Hc|]. wp_steps. apply wp_upd_sock. exists k. split; [done|].
  assert (Hdis : forall j kj, j <> i -> sockets s !! j = Some kj -> rx_data (rx_buffer kj) <> Some d).
  { intros j kj Hne Hj Hdj. apply Hne. by eapply (ti_blocks _ Hi). }
  wp_steps. cbn [fst snd]. rewrite decide_True, (to_int_small (Z.of_nat _)) by lia. split_and!; try done.
  - apply (inv_set_block s i k _ d block'); [done|done| |done]. split; cbn; [done|by rewrite lookup_insert_eq|done|done].
  - intros j kj Hne Hj. split; [by cbn; rewrite list_lookup_insert_ne by done|].
    apply unread_other. by eapply Hdis.
  - eexists. split; [done|]. split; [done|]. unfold unread, unread_in. cbn.
    rewrite lookup_insert_eq, Hd, Hb, Hsz. exact Hit.
Qed.

(** A read takes the oldest bytes, as many as there are. *)
Lemma wp_buffer_read s i k n :
  inv s -> sockets s !! i = Some k -> u32_ok n ->
  wp (tcp_buffer_read (Some i) true n)
    (fun r s' => inv s' /\ listeners s' = listeners s /\ rx_blocks s' = rx_blocks s /\ sent s' = sent s /\
       match rx_data (rx_buffer k) with
       | None => r = (-1, []) /\ s' = s
       | Some d =>
           r = (Z.of_nat (length (take (Z.to_nat n) (unread s k))), take (Z.to_nat n) (unread s k)) /\
           exists b, sockets s' = <[i := set_rx_buffer b k]> (sockets s) /\
             rx_data b = Some d /\ unread_in (rx_blocks s') b = drop (Z.to_nat n) (unread s k)
       end) s.
Proof.
  intros Hi Hk Hn. unfold tcp_buffer_read. wp_steps. apply wp_read_sock. exists k. split; [done|].
  destruct (rx_data (rx_buffer k)) as [d|] eqn:Hd; [|by wp_steps].
  pose proof (ti_socks _ Hi _ _ Hk) as Hok.
  destruct (so_rx _ _ Hok _ Hd) as [block Hr].
  destruct (rx_avail _ _ _ _ Hr) as [Hav Hrange]. pose proof (ro_size _ _ _ _ Hr) as Hsz.
  unfold TCP_DEFAULT_BUFFER_SIZE, u32_ok in *.
  assert (Hu : unread s k = Ring.items 8192 (rx_ring (rx_buffer k) block)).
  { unfold unread, unread_in. by rewrite Hd, (ro_block _ _ _ _ Hr), Hsz. }
  set (len := if bytes_available (rx_buffer k) <? n then bytes_available (rx_buffer k) else n).
  assert (Hlen : 0 <= len <= bytes_available (rx_buffer k) /\
    take (Z.to_nat n) (unread s k) = take (Z.to_nat len) (unread s k) /\
    drop (Z.to_nat n) (unread s k) = drop (Z.to_nat len) (unread s k)).
  { unfold len. destruct (Z.ltb_spec (bytes_available (rx_buffer k)) n); [|split_and!; (lia || done)].
    split; [lia|]. rewrite !take_ge, !drop_ge by lia. done. }
  destruct Hlen as (Hlen & -> & ->). clearbody len. destruct (Z.eqb_spec len 0) as [->|Hnz].
  { wp_steps. change (Z.to_nat 0) with 0%nat. rewrite drop_0. split_and!; try done.
    exists (rx_buffer k). rewrite list_insert_id; [by destruct k|]. by rewrite Hk; destruct k. }
  wp_steps. apply wp_deref. exists block. split; [apply Hr|].
  pose proof (ro_ring _ _ _ _ Hr) as Hw. rewrite Hsz in *.
  destruct (ring_copy_out_spec 8192 block (rx_end (rx_buffer k)) (Z.to_nat len) _ _ Hw)
    as (out & st' & Hc & Hw' & Ho & Hdr); [lia|lia|].
  rewrite Z2Nat.id in Hw', Hdr by lia.
  wp_steps. apply wp_deref. eexists. split; [exact Hc|]. wp_steps. apply wp_upd_sock. exists k. split; [done|].
  cbn [fst snd]. wp_steps. rewrite u32_small by lia. split_and!; try done.
  - apply inv_set_sock; [done|by eapply sock_range| | |].
    + apply sock_ok_set_rx; [done|unfold u32_ok; cbn; lia|]. cbn. intros d' [= <-]. exists block.
      split; cbn; [done|apply Hr|exact Hw'|done].
    + cbn. intros j kj a Hne Hj Ha Ha'. apply Hne. by eapply (ti_listeners _ Hi).
    + cbn. intros j kj d' Hne Hj [= <-] Ha'. apply Hne. by eapply (ti_blocks _ Hi).
  - rewrite length_take, to_int_small by lia. f_equal; [lia|]. by rewrite Hu.
  - eexists. split; [done|]. split; [done|]. unfold unread_in. cbn.
    rewrite (ro_block _ _ _ _ Hr), Hu. exact Hdr.
Qed.

(** ** Changes that leave pointers alone *)

Lemma benign_conn f k : (conn_typed (conn k) -> conn_typed (f (conn k))) -> benign (on_conn f) k.
Proof. intros Hf. split; try done. intros []. split; cbn; auto. Qed.

Lemma benign_state st k : st <> LISTEN -> benign (set_state st) k.
Proof. intros Hs. split; try done. intros []. split; cbn; auto. Qed.

Lemma benign_comp f g k : benign f k -> benign g (f k) -> benign (fun k => g (f k)) k.
Proof. intros [] []. split; [congruence|congruence|congruence|auto|auto]. Qed.

Lemma benign_lport p k : u16_ok p -> benign (set_local_port p) k.
Proof. intros Hp. split; try done. intros []. split; cbn; auto. Qed.
Lemma benign_rport p k : u16_ok p -> benign (set_remote_port p) k.
Proof. intros Hp. split; try done. intros []. split; cbn; auto. Qed.
Lemma benign_laddr a k : addr4_ok a -> benign (set_local_addr a) k.
Proof. intros Hp. split; try done. intros []. split; cbn; auto. Qed.
Lemma benign_raddr a k : addr4_ok a -> benign (set_remote_addr a) k.
Proof. intros Hp. split; try done. intros []. split; cbn; auto. Qed.
Lemma benign_options x k : u8_ok x -> benign (set_options x) k.
Proof. intros Hp. split; try done. intros []. split; cbn; auto. Qed.

Lemma u32_typed x : u32_ok (u32 x).
Proof. apply u32_range. Qed.
Lemma u16_typed x : u16_ok (u16 x).
Proof. apply u16_range. Qed.
Lemma u8_typed x : u8_ok (u8 x).
Proof. apply u8_range. Qed.
Lemma u16_u32 x : u16_ok x -> u32_ok x.
Proof. unfold u16_ok, u32_ok. lia. Qed.

Create HintDb tcp.
#[export] Hint Resolve benign_conn benign_state benign_comp benign_lport benign_rport benign_laddr
  benign_raddr benign_options u32_typed u16_typed u8_typed u16_u32 safe_ret safe_upd safe_notify : tcp.
#[export] Hint Extern 1 (_ <> LISTEN) => discriminate : tcp.

(** Typing of a changed connection, member by member. *)
Ltac typed_conn :=
  let H := fresh in intros H; destruct H; split; cbn [on_conn set_conn set_snd_una set_snd_nxt set_snd_wnd
    set_rcv_nxt set_rcv_wnd set_mss set_retransmit set_timer snd_una snd_nxt snd_wnd rcv_nxt rcv_wnd mss
    retransmit rto srtt rttvar attempts timer]; auto with tcp; try (unfold u8_ok, u16_ok, u32_ok in *; cbn; lia).

Lemma advance_typed flags n c : conn_typed c -> conn_typed (advance flags n c).
Proof.
  unfold advance. case_if; [|done]. typed_conn. repeat case_if; auto with tcp.
Qed.

Section Safe.
Context (E : env) `{!EnvOk E}.

Lemma inv_sent s x : inv s -> inv (set_sent x s).
Proof. intros []. split; try done. intros i k Hk. destruct (ti_socks0 i k Hk). by split. Qed.

Lemma safe_send_segment i flags data :
  (i < TCP_MAX_SOCKETS)%nat -> Z.of_nat (length data) < 2 ^ 31 -> safe (tcp_send_segment E (Some i) flags data).
Proof.
  intros Hlt Hlen. apply safe_read; [done|]. intros k s Hi Hk. wp_steps. cbv zeta.
  destruct (ip_tx E s (build_segment k flags data)); [|by apply safe_ret]. rewrite u32_small by (unfold TCP_HEADER_SIZE; lia).
  rewrite Z.ltb_irrefl. wp_steps. apply wp_upd_sock. exists k. split; [done|]. wp_steps.
  apply inv_sent, inv_benign; auto using benign_conn, advance_typed.
Qed.

Lemma inv_time_waits s n t :
  inv s -> (forall i, tw_socket t = Some i -> (i < TCP_MAX_SOCKETS)%nat) ->
  inv (set_time_waits (<[n := t]> (time_waits s)) s).
Proof.
  intros [] Ht. split; cbn; try done.
  - intros i k Hk. destruct (ti_socks0 i k Hk). by split.
  - by rewrite length_insert.
  - intros m t' i Hm Hs. apply list_lookup_insert_Some in Hm as [(-> & -> & _)|[_ Hm]]; eauto.
Qed.

Lemma safe_start_time_wait i : (i < TCP_MAX_SOCKETS)%nat -> safe (tcp_start_time_wait (Some i)).
Proof.
  intros Hlt. apply safe_get. intros s Hi. destruct (free_slot _ _).
  - wp_steps. apply inv_time_waits; [done|]. cbn. congruence.
  - apply safe_upd; auto with tcp.
Qed.

Lemma safe_process_ack i ack window :
  (i < TCP_MAX_SOCKETS)%nat -> u32_ok ack -> u16_ok window -> safe (tcp_process_ack E i ack window).
Proof.
  intros Hlt Ha Hw. unfold tcp_process_ack.
  apply safe_bind; [apply safe_upd; [done|]; intros k; apply benign_conn; typed_conn|intros _].
  apply safe_read; [done|]. intros k s Hi _. case_if; [done|]. revert s Hi.
  apply safe_bind; [apply safe_upd; [done|]; intros k'; apply benign_conn; typed_conn|intros _].
  assert (Hc : Z.of_nat (@length Z []) < 2 ^ 31) by done.
  destruct (state k); repeat (apply safe_bind; [auto using safe_send_segment, safe_start_time_wait with tcp|intros ?]);
    auto with tcp.
Qed.

Lemma safe_process_data i data seq_num :
  (i < TCP_MAX_SOCKETS)%nat -> Z.of_nat (length data) < 2 ^ 31 -> safe (tcp_process_data E i data seq_num).
Proof.
  intros Hlt Hlen. unfold tcp_process_data. apply safe_read; [done|]. intros k s Hi _. case_if.
  - revert s Hi. apply safe_bind; [by apply safe_send_segment|auto with tcp].
  - revert s Hi. apply safe_bind; [apply safe_upd; [done|]; intros k'; apply benign_conn; typed_conn|intros _].
    apply safe_bind; [|intros w; case_if; [auto with tcp|]].
    + intros s Hi. destruct (sock_exists _ _ Hi Hlt) as [k' Hk'].
      eapply wp_mono; [by apply wp_buffer_write|]. by intros r s' [? _].
    + apply safe_bind; [by apply safe_notify|intros _].
      apply safe_bind; [by apply safe_send_segment|auto with tcp].
Qed.

Lemma safe_process_fin i seq_num : (i < TCP_MAX_SOCKETS)%nat -> safe (tcp_process_fin E i seq_num).
Proof.
  intros Hlt. unfold tcp_process_fin.
  apply safe_bind; [apply safe_upd; [done|]; intros k; apply benign_conn; typed_conn|intros _].
  apply safe_read; [done|]. intros k s Hi _. revert s Hi.
  assert (Hc : Z.of_nat (@length Z []) < 2 ^ 31) by done.
  destruct (state k); repeat (apply safe_bind; [auto using safe_send_segment, safe_start_time_wait with tcp|intros ?]);
    auto with tcp.
Qed.

End Safe.

(** ** Searching *)

Lemma find_closed_spec ks n :
  match find_closed ks n with
  | Some i => (n <= i)%nat /\ exists k, ks !! (i - n)%nat = Some k /\ state k = CLOSED /\
      forall j kj, (n <= j < i)%nat -> ks !! (j - n)%nat = Some kj -> state kj <> CLOSED
  | None => forall j k, ks !! j = Some k -> state k <> CLOSED
  end.
Proof.
  revert n. induction ks as [|k ks IH]; intros n; cbn [find_closed]; [done|].
  unfold in_state. case_bool_decide as Hc.
  - split; [done|]. exists k. rewrite Nat.sub_diag. split_and!; [done|done|]. intros; lia.
  - specialize (IH (S n)). destruct (find_closed ks (S n)) as [i|].
    + destruct IH as (Hle & k' & Hk' & Hs & Hb). split; [lia|]. exists k'.
      replace (i - n)%nat with (S (i - S n)) by lia. split_and!; [done|done|].
      intros j kj Hj. destruct (decide (j = n)) as [->|Hne].
      * rewrite Nat.sub_diag. by intros [= <-].
      * replace (j - n)%nat with (S (j - S n)) by lia. apply Hb. lia.
    + intros [|j] k' Hk'; [by injection Hk' as <-|by eapply IH].
Qed.

Lemma find_closed_at s i :
  find_closed (sockets s) 0 = Some i ->
  exists k, sockets s !! i = Some k /\ state k = CLOSED.
Proof.
  intros H. pose proof (find_closed_spec (sockets s) 0) as Hf. rewrite H, Nat.sub_0_r in Hf. naive_solver.
Qed.

Lemma find_from_range E ks n lp la rp ra i :
  find_from E ks n lp la rp ra = Some i -> (n <= i < n + length ks)%nat.
Proof.
  revert n. induction ks as [|k ks IH]; intros n; cbn [find_from length]; [done|].
  repeat case_if; try (intros [= <-]; lia); intros H%IH; lia.
Qed.

Section Safe2.
Context (E : env) `{!EnvOk E}.

(** ** Sockets put in place of others *)

Lemma inv_fresh_sock s i k :
  inv s -> (i < TCP_MAX_SOCKETS)%nat -> state k <> LISTEN -> next k = None -> listener k = None ->
  rx_buffer k = zero_rx -> sock_typed k ->
  inv (set_sockets (<[i := k]> (sockets s)) s).
Proof.
  intros Hi Hlt Hs Hn Hl Hr Ht.
  apply inv_set_sock; [done|done|split; rewrite ?Hn, ?Hl, ?Hr; try done|by rewrite Hl|by rewrite Hr].
Qed.

Lemma syn_socket_typed iss src sport dst dport seq_num window :
  u32_ok iss -> addr4_ok src -> addr4_ok dst -> u16_ok sport -> u16_ok dport -> u16_ok window ->
  sock_typed (syn_socket iss src sport dst dport seq_num window).
Proof. intros. split; cbn; auto with tcp; [done|]. split; cbn; auto with tcp; done. Qed.

Lemma inv_listener s a l :
  inv s -> is_Some (listeners s !! a) ->
  u16_ok (backlog l) -> u16_ok (pending_count l) ->
  (forall j, pending_connections l = Some j -> (j < TCP_MAX_SOCKETS)%nat) ->
  inv (set_listeners (<[a := l]> (listeners s)) s).
Proof.
  intros [] Ha Hb Hp Hj. split; cbn; try done.
  - intros i k Hk. destruct (ti_socks0 i k Hk). split; try done. cbn. intros a' Ha'.
    destruct (decide (a' = a)) as [->|]; [by rewrite lookup_insert_eq|rewrite lookup_insert_ne by done; auto].
  - intros a' l' Hl. destruct (decide (a' = a)) as [->|].
    + rewrite lookup_insert_eq in Hl. injection Hl as <-. done.
    + rewrite lookup_insert_ne in Hl by done. eauto.
Qed.

Lemma safe_set_next i p :
  (i < TCP_MAX_SOCKETS)%nat -> (forall j, p = Some j -> (j < TCP_MAX_SOCKETS)%nat) ->
  safe (upd_sock i (set_next p)).
Proof.
  intros Hlt Hp s Hi. apply wp_upd_sock. destruct (sock_exists _ _ Hi Hlt) as [k Hk]. exists k. split; [done|].
  pose proof (ti_socks _ Hi _ _ Hk) as [S1 S2 S3 S4 S5 S6].
  apply inv_set_sock; [done|done|split; try done| |].
  - by destruct S6; split.
  - cbn. intros j kj a Hne Hj Ha Ha'. apply Hne. by eapply (ti_listeners _ Hi).
  - cbn. intros j kj a Hne Hj Ha Ha'. apply Hne. by eapply (ti_blocks _ Hi).
Qed.

Lemma safe_process_syn li src sport dst dport seq_num window :
  (li < TCP_MAX_SOCKETS)%nat -> addr4_ok src -> addr4_ok dst -> u16_ok sport -> u16_ok dport -> u16_ok window ->
  safe (tcp_process_syn E li src sport dst dport seq_num window).
Proof.
  intros Hlt Hsrc Hdst Hsp Hdp Hw. apply safe_read; [done|]. intros k s Hi Hk.
  unfold in_state. case_bool_decide as Hst; [cbn [negb]|by apply safe_ret].
  pose proof (ti_socks _ Hi _ _ Hk) as Hok. destruct (so_listen _ _ Hok Hst) as [a Ha].
  destruct (so_live _ _ Hok _ Ha) as [l Hl]. unfold read_listener. rewrite Ha.
  wp_steps. apply wp_deref. exists a. split; [done|]. wp_steps. apply wp_deref. exists l. split; [done|]. wp_steps.
  cbn [fst snd]. case_if; [by apply safe_ret|]. wp_steps.
  destruct (find_closed (sockets s) 0) as [j|] eqn:Ej; [|by apply safe_ret].
  destruct (find_closed_at _ _ Ej) as (kj & Hj & Hjc). pose proof (sock_range _ _ _ Hi Hj) as Hjr.
  wp_steps. apply wp_upd_sock. exists kj. split; [done|]. wp_steps.
  set (k1 := syn_socket _ _ _ _ _ _ _). set (s1 := set_sockets _ s).
  assert (Hi1 : inv s1).
  { apply inv_fresh_sock; try done. apply syn_socket_typed; try done. apply (ti_seq _ Hi). }
  assert (Hk1 : sockets s1 !! j = Some k1).
  { cbn. apply list_lookup_insert_eq. by rewrite (ti_len _ Hi). }
  eapply wp_mono; [by apply (wp_buffer_init E _ _ k1)|]. intros r s2 (Hi2 & Hl2 & _ & _). case_if; [by apply safe_ret|].
  destruct (ti_pending _ Hi _ _ Hl) as (Hb & Hpc & Hp).
  assert (Hl' : is_Some (listeners s2 !! a)) by (rewrite Hl2; exists l; exact Hl).
  wp_steps. apply wp_upd_sock. destruct (sock_exists _ _ Hi2 Hjr) as [k2 Hk2]. exists k2. split; [done|].
  wp_steps. apply safe_send_segment; [done|done|].
  apply inv_listener; [|done|done|apply u16_typed|cbn; congruence].
  pose proof (safe_set_next j (pending_connections l) Hjr Hp s2 Hi2) as Hn.
  apply wp_upd_sock in Hn as (k3 & Hk3 & Hn). congruence.
Qed.

(** What [tcp_rx] reads from a header is of its type. *)
Lemma byte_typed h i : Ip.bytes_ok h -> u8_ok (Ip.byte h i).
Proof.
  intros Hh. unfold Ip.byte, u8_ok. destruct (decide (i < length h)%nat) as [Hlt|Hge].
  - destruct (lookup_lt_is_Some_2 h i Hlt) as [b Hb]. rewrite (nth_lookup_Some h i 0 b Hb).
    unfold Ip.bytes_ok in Hh. rewrite Forall_lookup in Hh. specialize (Hh _ _ Hb). lia.
  - rewrite nth_overflow by lia. lia.
Qed.

Lemma word16_typed h i : Ip.bytes_ok h -> u16_ok (word16 h i).
Proof.
  intros Hh. pose proof (byte_typed h i Hh). pose proof (byte_typed h (S i) Hh).
  unfold word16, u16_ok, u8_ok in *. lia.
Qed.

Lemma word32_typed h i : Ip.bytes_ok h -> u32_ok (word32 h i).
Proof.
  intros Hh. pose proof (word16_typed h i Hh). pose proof (word16_typed h (S (S i)) Hh).
  unfold word32, u16_ok, u32_ok in *. lia.
Qed.

Lemma safe_dispatch p src dst sport dport seq_num ack_num flags window data :
  (forall i, p = Some i -> (i < TCP_MAX_SOCKETS)%nat) ->
  addr4_ok src -> addr4_ok dst -> u16_ok sport -> u16_ok dport -> u32_ok ack_num -> u16_ok window ->
  Z.of_nat (length data) < 2 ^ 31 ->
  safe (tcp_dispatch E p src dst sport dport seq_num ack_num flags window data).
Proof.
  intros Hp Hsrc Hdst Hsp Hdp Hack Hw Hlen. unfold tcp_dispatch.
  destruct p as [i|]; [|repeat case_if; apply safe_ret]. specialize (Hp i eq_refl). case_if.
  - apply safe_bind; [auto with tcp|intros _]. apply safe_bind; auto with tcp.
  - case_if.
    + apply safe_read; [done|]. intros k s Hi Hk. revert s Hi Hk. repeat case_if.
      * intros s Hi _. by apply safe_ret.
      * intros s Hi _. revert s Hi. apply safe_bind; [|intros _].
        -- apply safe_upd; [done|]. intros k'. apply (benign_comp (on_conn _) (set_state ESTABLISHED)); [|auto with tcp].
           apply benign_conn. typed_conn.
        -- apply safe_bind; [by apply safe_send_segment|intros _].
           apply safe_bind; auto with tcp.
      * intros s Hi _. by apply safe_process_syn.
      * intros s Hi _. by apply safe_ret.
    + apply safe_bind; [|intros _].
      { case_if; [|auto with tcp]. apply safe_bind; [by apply safe_process_ack|auto with tcp]. }
      apply safe_bind; [|intros _].
      { case_if; [|auto with tcp]. apply safe_bind; [by apply safe_process_data|auto with tcp]. }
      apply safe_bind; [|auto with tcp].
      case_if; [|auto with tcp]. apply safe_bind; [by apply safe_process_fin|auto with tcp].
Qed.

(** A packet IP hands up: bytes, and two addresses. *)
Definition packet_ok (p : packet) : Prop :=
  Ip.bytes_ok (pkt_bytes p) /\ Z.of_nat (length (pkt_bytes p)) < 2 ^ 31 /\
  exists src dst, pkt_addrs p = Some (src, dst) /\ addr4_ok src /\ addr4_ok dst.

Lemma wp_bytes_from {S} bytes off Q (s : S) :
  0 <= off <= Z.of_nat (length bytes) -> Q (drop (Z.to_nat off) bytes) s -> wp (bytes_from bytes off) Q s.
Proof.
  intros Ho HQ. unfold bytes_from. destruct (Z.leb_spec 0 off), (Z.leb_spec off (Z.of_nat (length bytes))); try lia.
  by wp_steps.
Qed.

Lemma safe_rx p : (forall p', p = Some p' -> packet_ok p') -> safe (tcp_rx E p).
Proof.
  intros Hp. destruct p as [p|]; [|apply safe_ret].
  destruct (Hp p eq_refl) as (Hb & Hlen & src & dst & Ha & Hsrc & Hdst). unfold tcp_rx. cbv zeta.
  intros s Hi. case_if; [by wp_steps|]. apply Z.ltb_ge in E0.
  apply wp_bind, wp_bytes_in; [done|done|]. rewrite drop_0. set (h := take _ (pkt_bytes p)).
  assert (Hh : Ip.bytes_ok h) by (by apply Forall_take).
  case_if; [by wp_steps|]. apply orb_false_elim in E1 as [E1%Z.ltb_ge E2%Z.ltb_ge].
  set (n := Z.land _ _ * 4) in *. rewrite Ha. apply wp_bind, wp_deref. exists (src, dst). split; [done|].
  cbv beta iota. unfold TCP_HEADER_SIZE in *. apply wp_bind, wp_bytes_from; [lia|].
  case_if; [by wp_steps|]. unfold tcp_find_socket. wp_steps.
  apply safe_dispatch; auto using word16_typed, word32_typed.
  - intros i Hf%find_from_range. rewrite (ti_len _ Hi) in Hf. lia.
  - rewrite length_drop. lia.
Qed.

End Safe2.

(** ** Ports *)

Lemma port_users s p : port_in_use (sockets s) p = true -> p ∈ map local_port (sockets s).
Proof.
  intros (k & Hk & Hu)%existsb_exists. bools. apply list_elem_of_In, in_map_iff. eauto.
Qed.

Lemma wp_get_free_port s :
  inv s ->
  wp tcp_get_free_port
    (fun r s' => s' = set_last_dynamic_port (Ports.first_port (last_dynamic_port s)) s /\
       exists n, (n <= 16)%nat /\ r = Ports.port_after (Ports.first_port (last_dynamic_port s)) n /\
         port_in_use (sockets s) r = false) s.
Proof.
  intros Hi. unfold tcp_get_free_port. wp_steps. cbv zeta.
  destruct (Ports.port_search (port_in_use (sockets s)) (map local_port (sockets s)) (last_dynamic_port s))
    as (r & n & -> & Hn & Hr & Hfree & _).
  - rewrite length_map, (ti_len _ Hi). done.
  - apply port_users.
  - apply (ti_port _ Hi).
  - wp_steps. rewrite Ports.next_dynamic_first by apply (ti_port _ Hi). eauto.
Qed.

Lemma inv_last_port s p : inv s -> u16_ok p -> inv (set_last_dynamic_port p s).
Proof. intros [] Hp. split; try done. intros i k Hk. destruct (ti_socks0 i k Hk). by split. Qed.

Lemma safe_free_port {A} (K : Z -> M tcp A) :
  (forall p, u16_ok p -> safe (K p)) -> safe (bind tcp_get_free_port K).
Proof.
  intros HK s Hi. apply wp_bind. eapply wp_mono; [by apply wp_get_free_port|].
  intros r s' (-> & n & _ & -> & _). apply HK; [apply u16_typed|].
  apply inv_last_port; [done|]. apply Ports.first_port_ok, Hi.
Qed.

(** ** The calls of the application *)

Section Safe3.
Context (E : env) `{!EnvOk E}.

Definition opt_sock_ok (p : option nat) : Prop := forall i, p = Some i -> (i < TCP_MAX_SOCKETS)%nat.
Definition opt_addr_ok (p : option (list Z)) : Prop := forall a, p = Some a -> addr4_ok a.

Lemma safe_buffer_init i :
  (i < TCP_MAX_SOCKETS)%nat -> safe (tcp_buffer_init E (Some i) TCP_DEFAULT_BUFFER_SIZE).
Proof.
  intros Hlt s Hi. destruct (sock_exists _ _ Hi Hlt) as [k Hk].
  eapply wp_mono; [by apply (wp_buffer_init E _ _ k)|]. by intros r s' [? _].
Qed.

Lemma zero_typed : sock_typed zero_socket.
Proof.
  split; cbn; try (unfold u16_ok, u8_ok; lia).
  - split; [done|]. repeat constructor; lia.
  - split; [done|]. repeat constructor; lia.
  - split; cbn; unfold u32_ok, u16_ok, u8_ok; lia.
Qed.

Lemma set_port_safe i p : (i < TCP_MAX_SOCKETS)%nat -> u16_ok p -> safe (upd_sock i (set_local_port p)).
Proof. intros. apply safe_upd; auto with tcp. Qed.

Lemma safe_create laddr lport : opt_addr_ok laddr -> u16_ok lport -> safe (tcp_socket_create E laddr lport).
Proof.
  intros Ha Hp. apply safe_get. intros s Hi. destruct (find_closed (sockets s) 0) as [i|] eqn:Ei; [|by apply safe_ret].
  destruct (find_closed_at _ _ Ei) as (k & Hk & _). pose proof (sock_range _ _ _ Hi Hk) as Hlt.
  cbv zeta. apply wp_bind, wp_upd_sock. exists k. split; [done|].
  assert (Ht : sock_typed (set_local_addr (default [0; 0; 0; 0] laddr) zero_socket)).
  { destruct laddr as [a|]; [|apply zero_typed]. destruct zero_typed. split; cbn; auto. }
  match goal with |- wp ?m _ ?s1 => assert (Hi1 : inv s1) by (by apply inv_fresh_sock); enough (Hm : safe m) by (by apply Hm) end.
  clear - Hlt Hp EnvOk0.
  apply safe_bind.
  - case_if.
    + apply safe_get. intros s Hi. case_if; [by apply safe_ret|]. as_safe.
      apply safe_bind; [by apply set_port_safe|auto with tcp].
    + apply safe_free_port. intros p Hpt. apply safe_bind; [by apply set_port_safe|auto with tcp].
  - intros ok. case_if; [apply safe_ret|]. apply safe_bind; [|intros _].
    + apply safe_upd; [done|]. intros k. apply benign_conn. typed_conn; done.
    + apply safe_bind; [by apply safe_buffer_init|]. intros r. case_if; apply safe_ret.
Qed.

Lemma safe_bind_call p addr4 port : opt_sock_ok p -> opt_addr_ok addr4 -> u16_ok port ->
  safe (tcp_socket_bind E p addr4 port).
Proof.
  intros Hs Ha Hp. destruct p as [i|]; [|apply safe_ret]. specialize (Hs i eq_refl).
  apply safe_read; [done|]. intros k s Hi _. case_if; [by apply safe_ret|]. as_safe. apply safe_bind.
  - repeat case_if.
    + apply safe_get. intros s1 Hi1. case_if; [by apply safe_ret|]. as_safe.
      apply safe_bind; [by apply set_port_safe|auto with tcp].
    + apply safe_free_port. intros q Hq. apply safe_bind; [by apply set_port_safe|auto with tcp].
    + apply safe_ret.
  - intros ok. case_if; [apply safe_ret|]. destruct addr4 as [a|]; [|apply safe_ret].
    apply safe_bind; [apply safe_upd; auto with tcp|auto with tcp].
Qed.

Lemma safe_listen p n : opt_sock_ok p -> u16_ok n -> safe (tcp_socket_listen E p n).
Proof.
  intros Hs Hn. destruct p as [i|]; [|apply safe_ret]. specialize (Hs i eq_refl).
  apply safe_read; [done|]. intros k s Hi Hk. case_if; [by apply safe_ret|]. wp_steps.
  destruct (malloc E s LISTENER_SIZE) as [[a g]|] eqn:Em; [|by apply safe_ret].
  destruct (malloc_fresh _ _ _ _ Em) as (_ & Hf & _).
  unfold write_listener. wp_steps. apply wp_upd_sock. exists k. split; [done|]. wp_steps.
  pose proof Hi as [H1 H2 H3 H4 H5 H6 H7 H8 H9 H10].
  set (l := mk_listener _ _ _).
  assert (Hi1 : inv (set_listeners (<[a := l]> (listeners s)) s)).
  { split; cbn; try done.
    - intros j kj Hj. destruct (H2 _ _ Hj). split; try done. cbn. intros a' Ha'.
      destruct (decide (a' = a)) as [->|]; [by rewrite lookup_insert_eq|rewrite lookup_insert_ne by done; auto].
    - intros a' l' Hl. destruct (decide (a' = a)) as [->|].
      + rewrite lookup_insert_eq in Hl. injection Hl as <-. unfold l, u16_ok in *. cbn.
        split_and!; try lia; [destruct (Z.ltb_spec 0 n); lia..|done].
      + rewrite lookup_insert_ne in Hl by done. eauto. }
  apply (inv_set_sock (set_listeners _ s)); [done|done| | |].
  - destruct (H2 _ _ Hk) as [S1 S2 S3 S4 S5 S6]. split; cbn; try done.
    + intros a' [= <-]. by rewrite lookup_insert_eq.
    + by destruct S6; split.
  - cbn. intros j kj a' Hne Hj [= <-] Ha'.
    destruct (so_live _ _ (H2 _ _ Hj) _ Ha') as [l' Hl']. congruence.
  - cbn. intros j kj d Hne Hj Hd Hd'. apply Hne. by eapply H4.
Qed.

Lemma safe_accept p : opt_sock_ok p -> safe (tcp_socket_accept p).
Proof.
  intros Hs. destruct p as [i|]; [|apply safe_ret]. specialize (Hs i eq_refl).
  apply safe_read; [done|]. intros k s Hi Hk. destruct (state k); try (by apply safe_ret).
  destruct (listener k) as [a|] eqn:Ha; [|by apply safe_ret].
  destruct (so_live _ _ (ti_socks _ Hi _ _ Hk) _ Ha) as [l Hl].
  destruct (ti_pending _ Hi _ _ Hl) as (Hb & Hpc & Hp).
  unfold read_listener, write_listener. rewrite Ha. wp_steps. apply wp_deref. exists a. split; [done|].
  wp_steps. apply wp_deref. exists l. split; [done|]. wp_steps. cbn [fst snd].
  destruct (pending_connections l) as [j|]; [|by apply safe_ret]. specialize (Hp j eq_refl).
  wp_steps. apply wp_read_sock. destruct (sock_exists _ _ Hi Hp) as [c Hc]. exists c. split; [done|].
  rewrite wp_bind, wp_modify. match goal with |- wp ?m _ ?s1 => assert (Hi1 : inv s1); [|enough (Hm : safe m) by (by apply Hm)] end.
  { apply inv_listener; [done|by exists l|done|apply u16_typed|]. cbn. intros j' Hj'.
    by apply (so_next _ _ (ti_socks _ Hi _ _ Hc)). }
  clear - Hp.
  apply safe_bind; [by apply safe_set_next|intros _]. apply safe_bind; [|auto with tcp].
  case_if; auto with tcp.
Qed.

Lemma safe_connect p addr4 port : opt_sock_ok p -> opt_addr_ok addr4 -> u16_ok port ->
  safe (tcp_socket_connect E p addr4 port).
Proof.
  intros Hs Ha Hp. destruct p as [i|]; [|apply safe_ret]. destruct addr4 as [a|]; [|apply safe_ret].
  specialize (Hs i eq_refl). specialize (Ha a eq_refl).
  apply safe_read; [done|]. intros k s Hi _. case_if; [by apply safe_ret|]. as_safe. apply safe_bind; [|intros _].
  { apply safe_upd; [done|]. intros k'. apply (benign_comp (set_remote_addr a)); auto with tcp. }
  apply safe_bind; [|intros has_addr; case_if; [apply safe_ret|]].
  { clear s Hi. case_if; [|auto with tcp]. intros s Hi. wp_steps.
    unfold on_ip, Ip.on_net, Network.network_get_default_device, wp, bind, get. cbn.
    destruct (truth _); cbn; [|by destruct s as [? ? ? ? []]].
    destruct (Network.default_device _) as [d|] eqn:Ed; cbn; [|by destruct s as [? ? ? ? []]].
    destruct (ti_dev _ Hi _ Ed) as (dd & Hdd & Hip). rewrite Hdd. cbn.
    match goal with |- match ?m with _ => _ end => change (wp (upd_sock i (set_local_addr (Network.ip dd)) ;;; ret true)
      (fun _ s' => inv s') (set_below (Ip.set_stack (Ip.stack (below s)) (below s)) s)) end.
    replace (set_below _ s) with s by (by destruct s as [? ? ? ? []]). as_safe. apply safe_bind; [|auto with tcp]. apply safe_upd; auto with tcp. }
  apply safe_bind; [|intros has_port; case_if; [apply safe_ret|]].
  { case_if; [|auto with tcp]. apply safe_free_port. intros q Hq. apply safe_bind; [by apply set_port_safe|auto with tcp]. }
  apply safe_get. intros s1 Hi1. pose proof (ti_seq _ Hi1) as Hseq.
  as_safe.
  apply safe_bind; [|intros _].
  { apply safe_upd; [done|]. intros k'.
    apply (benign_comp (on_conn _) (set_state SYN_SENT)); [|auto with tcp].
    apply benign_conn. typed_conn; done. }
  apply safe_bind; [by apply safe_buffer_init|]. intros r. case_if; [apply safe_ret|].
  by apply safe_send_segment.
Qed.

Lemma safe_close p : opt_sock_ok p -> safe (tcp_socket_close E p).
Proof.
  intros Hs. destruct p as [i|]; [|apply safe_ret]. specialize (Hs i eq_refl).
  apply safe_read; [done|]. intros k s Hi Hk.
  assert (Hc : Z.of_nat (@length Z []) < 2 ^ 31) by done.
  destruct (state k) eqn:Hst; try (by apply safe_ret);
    try (as_safe; apply safe_bind; [by auto with tcp|intros _; by auto using safe_send_segment with tcp]).
  destruct (so_listen _ _ (ti_socks _ Hi _ _ Hk) Hst) as [a Ha].
  destruct (so_live _ _ (ti_socks _ Hi _ _ Hk) _ Ha) as [l Hl]. rewrite Ha.
  wp_steps. apply wp_deref. exists l. split; [done|]. wp_steps. apply wp_upd_sock. exists k. split; [done|].
  wp_steps. apply wp_upd_sock. cbn [sockets set_sockets set_listeners].
  rewrite list_lookup_insert_eq by (by eapply lookup_lt_Some).
  eexists. split; [done|]. wp_steps. rewrite list_insert_insert_eq.
  set (k1 := set_state CLOSED (set_listener None k)).
  assert (Hi1 : inv (set_sockets (<[i := k1]> (sockets s)) s)).
  { pose proof (ti_socks _ Hi _ _ Hk) as [S1 S2 S3 S4 S5 S6].
    apply inv_set_sock; [done|done|split; try done| |].
    - by destruct S6; split.
    - done.
    - cbn. intros j kj d Hne Hj Hd Hd'. apply Hne. by eapply (ti_blocks _ Hi). }
  assert (Hun : forall j kj a', <[i := k1]> (sockets s) !! j = Some kj -> listener kj = Some a' -> a' <> a).
  { intros j kj a' Hj Hl' ->. apply list_lookup_insert_Some in Hj as [(-> & <- & _)|[Hne Hj]]; [done|].
    apply Hne. symmetry. by eapply (ti_listeners _ Hi). }
  destruct Hi1 as [H1 H2 H3 H4 H5 H6 H7 H8 H9 H10]. split; cbn in *; try done.
  - intros j kj Hj. destruct (H2 _ _ Hj) as [S1 S2 S3 S4 S5 S6]. split; try done. cbn. intros a' Ha'.
    rewrite lookup_delete_ne; [by apply S4|]. intros <-. by eapply Hun.
  - intros a' l' [_ Hl']%lookup_delete_Some. eauto.
Qed.

Lemma safe_send p data :
  opt_sock_ok p -> (forall d, data = Some d -> Z.of_nat (length d) < 2 ^ 31) -> safe (tcp_socket_send E p data).
Proof.
  intros Hs Hd. destruct p as [i|]; [|apply safe_ret]. destruct data as [d|]; [|apply safe_ret].
  specialize (Hs i eq_refl). specialize (Hd d eq_refl).
  apply safe_read; [done|]. intros k s Hi _. case_if; [by apply safe_ret|]. as_safe.
  apply safe_bind; [by apply safe_send_segment|]. intros r. apply safe_bind; [|auto with tcp].
  case_if; auto with tcp.
Qed.

Lemma safe_recv p out n : opt_sock_ok p -> u32_ok n -> safe (tcp_socket_recv p out n).
Proof.
  intros Hs Hn. destruct p as [i|]; [|apply safe_ret]. destruct out; [|apply safe_ret].
  specialize (Hs i eq_refl). apply safe_read; [done|]. intros k s Hi Hk. case_if; [by apply safe_ret|].
  eapply wp_mono; [by apply wp_buffer_read|]. by intros r s' [? _].
Qed.

Lemma safe_available p : opt_sock_ok p -> safe (tcp_socket_available p).
Proof.
  intros Hs. destruct p as [i|]; [|apply safe_ret]. specialize (Hs i eq_refl).
  apply safe_read; [done|]. intros k s Hi _. by apply safe_ret.
Qed.

Lemma safe_callbacks p a b c d : opt_sock_ok p -> safe (tcp_socket_register_callbacks p a b c d).
Proof.
  intros Hs. destruct p as [i|]; [|apply safe_ret]. specialize (Hs i eq_refl).
  apply safe_bind; [|auto with tcp]. apply safe_upd; [done|]. intros k. split; try done. intros []. by split.
Qed.

Lemma safe_options p x : opt_sock_ok p -> u8_ok x -> safe (tcp_socket_set_options p x).
Proof.
  intros Hs Hx. destruct p as [i|]; [|apply safe_ret]. specialize (Hs i eq_refl).
  apply safe_bind; [|auto with tcp]. apply safe_upd; auto with tcp.
Qed.

Lemma safe_mfor {A} (l : list A) body : (forall a, a ∈ l -> safe (body a)) -> safe (mfor l body).
Proof. intros Hb s Hi. apply wp_mfor; [|done]. intros a s' Ha Hi'. by apply Hb. Qed.

Lemma safe_expire t n : (n < TCP_MAX_TIME_WAIT_SOCKETS)%nat -> safe (expire_time_wait t n).
Proof.
  intros Hn s Hi. unfold expire_time_wait. wp_steps. apply wp_deref.
  destruct (lookup_lt_is_Some_2 (time_waits s) n) as [w Hw]; [by rewrite (ti_tw_len _ Hi)|].
  exists w. split; [done|]. destruct (tw_socket w) as [i|] eqn:Ew; [|by apply safe_ret].
  case_if; [|by apply safe_ret]. wp_steps. pose proof (ti_tw _ Hi _ _ _ Hw Ew) as Hlt.
  eapply wp_mono; [apply safe_upd; [exact Hlt|auto with tcp|done]|]. intros ? s' Hi'. wp_steps.
  by apply inv_time_waits.
Qed.

Lemma safe_retransmit msec i : (i < TCP_MAX_SOCKETS)%nat -> safe (retransmit_socket E msec i).
Proof.
  intros Hlt. apply safe_read; [done|]. intros k s Hi Hk.
  pose proof (st_conn _ (so_typed _ _ (ti_socks _ Hi _ _ Hk))) as Hc.
  cbv zeta. repeat case_if; try (by apply safe_ret); as_safe.
  - apply safe_bind; [|intros _; by apply safe_notify]. apply safe_upd; [done|]. intros k'.
    apply (benign_comp (on_conn _) (set_state CLOSED)); [|auto with tcp]. apply benign_conn. typed_conn.
  - apply safe_upd; [done|]. intros k'. apply benign_conn. typed_conn.
  - apply safe_upd; [done|]. intros k'. apply benign_conn. destruct Hc. typed_conn.
Qed.

Lemma safe_timer msec : safe (tcp_timer E msec).
Proof.
  apply safe_get. intros s Hi. as_safe. apply safe_bind; [|intros _]; apply safe_mfor.
  - intros n Hn%elem_of_seq. apply safe_expire. lia.
  - intros n Hn%elem_of_seq. apply safe_retransmit. lia.
Qed.

End Safe3.
End TcpInv.
