(* ===== verification/TcpThms.v ===== *)
(** * TCP: properties

    Safety of any sequence of calls, segments and ticks; the transitions a segment
    can cause; segments as they are built and parsed; the receive buffer as the
    stream of the peer, and delivery from a host to another; ports; and where the
    code departs from what it means to do. *)

From Stdlib Require Import ZArith Lia String.
From stdpp Require Import base tactics option list gmap strings relations.
From S2P Require Import Prelude Ring Ports Network Ip Tcp TcpInv.

Set Default Goal Selector "!".
Local Open Scope Z_scope.
Local Open Scope kernel_scope.

Module TcpThms.
Import Tcp TcpInv.

(** ** Any sequence of calls *)

Inductive call : Type :=
| CRx (p : option packet)
| CTimer (msec : Z)
| CClock (t : Z)
| CCreate (laddr : option (list Z)) (lport : Z)
| CBind (p : option nat) (a : option (list Z)) (port : Z)
| CListen (p : option nat) (n : Z)
| CAccept (p : option nat)
| CConnect (p : option nat) (a : option (list Z)) (port : Z)
| CClose (p : option nat)
| CSend (p : option nat) (data : option (list Z))
| CRecv (p : option nat) (out : bool) (n : Z)
| CAvailable (p : option nat)
| CCallbacks (p : option nat) (a b c d : ptr)
| COptions (p : option nat) (x : Z).

(** The call, or the passing of time, with its result dropped. *)
Definition run_call (E : env) (c : call) : M tcp unit :=
  match c with
  | CRx p => _r <- tcp_rx E p ;; ret tt
  | CTimer n => tcp_timer E n
  | CClock t => modify (fun s => mk_tcp (sockets s) (time_waits s) (last_dynamic_port s) (tcp_initial_seq s)
      (below s) (listeners s) (rx_blocks s) (u32 t) (sent s))
  | CCreate a p => _r <- tcp_socket_create E a p ;; ret tt
  | CBind p a q => _r <- tcp_socket_bind E p a q ;; ret tt
  | CListen p n => _r <- tcp_socket_listen E p n ;; ret tt
  | CAccept p => _r <- tcp_socket_accept p ;; ret tt
  | CConnect p a q => _r <- tcp_socket_connect E p a q ;; ret tt
  | CClose p => _r <- tcp_socket_close E p ;; ret tt
  | CSend p d => _r <- tcp_socket_send E p d ;; ret tt
  | CRecv p o n => _r <- tcp_socket_recv p o n ;; ret tt
  | CAvailable p => _r <- tcp_socket_available p ;; ret tt
  | CCallbacks p a b c d => _r <- tcp_socket_register_callbacks p a b c d ;; ret tt
  | COptions p x => _r <- tcp_socket_set_options p x ;; ret tt
  end.

(** Arguments of their C types: pointers to sockets of the table or NULL, packets of IP. *)
Definition call_ok (c : call) : Prop :=
  match c with
  | CRx p => forall p', p = Some p' -> packet_ok p'
  | CTimer n => u32_ok n
  | CClock t => True
  | CCreate a p => opt_addr_ok a /\ u16_ok p
  | CBind p a q | CConnect p a q => opt_sock_ok p /\ opt_addr_ok a /\ u16_ok q
  | CListen p n => opt_sock_ok p /\ u16_ok n
  | CAccept p | CClose p | CAvailable p | CCallbacks p _ _ _ _ => opt_sock_ok p
  | CSend p d => opt_sock_ok p /\ forall d', d = Some d' -> Z.of_nat (length d') < 2 ^ 31
  | CRecv p _ n => opt_sock_ok p /\ u32_ok n
  | COptions p x => opt_sock_ok p /\ u8_ok x
  end.

(** The static variables as the kernel starts, over a device table in order. *)
Record boot (s : tcp) : Prop := {
  bt_sockets : sockets s = replicate TCP_MAX_SOCKETS zero_socket;
  bt_tw : time_waits s = replicate TCP_MAX_TIME_WAIT_SOCKETS (mk_tw 0 0 None);
  bt_port : last_dynamic_port s = Ports.DYNAMIC_PORT_START;
  bt_seq : tcp_initial_seq s = 0;
  bt_heap : listeners s = ∅ /\ rx_blocks s = ∅;
  bt_dev : forall a, Network.default_device (Ip.stack (below s)) = Some a ->
    exists d, Network.devs (Ip.stack (below s)) !! a = Some d /\ addr4_ok (Network.ip d);
}.

Lemma boot_inv s : boot s -> inv s.
Proof.
  intros [H1 H2 H3 H4 [H5 H6] H7].
  assert (Hz : forall i k, sockets s !! i = Some k -> k = zero_socket).
  { rewrite H1. by intros i k [-> _]%lookup_replicate. }
  split; try done.
  - by rewrite H1, length_replicate.
  - intros i k ->%Hz. split; try done. apply zero_typed.
  - intros i j ki kj a ->%Hz. done.
  - intros i j ki kj a ->%Hz. done.
  - intros a l. by rewrite H5, lookup_empty.
  - by rewrite H2, length_replicate.
  - intros n t i. rewrite H2. by intros [-> _]%lookup_replicate.
  - rewrite H3. done.
  - rewrite H4. done.
Qed.

Lemma safe_init rx : safe (tcp_init rx).
Proof.
  intros s Hi. unfold tcp_init, tcp_init_time_wait. wp_steps.
  set (s1 := set_time_waits _ _).
  assert (Hi1 : inv s1).
  { destruct Hi as [H1 H2 H3 H4 H5 H6 H7 H8 H9 H10].
    assert (Hl : forall i k, map (set_state CLOSED) (sockets s) !! i = Some k ->
      exists k', sockets s !! i = Some k' /\ k = set_state CLOSED k').
    { intros i k Hk. change (map ?f ?l) with (f <$> l) in Hk. apply list_lookup_fmap_Some in Hk. naive_solver. }
    split; cbn; try done.
    - by rewrite length_map.
    - intros i k (k' & Hk & ->)%Hl. destruct (H2 _ _ Hk) as [S1 S2 S3 S4 S5 S6]. split; try done.
      by destruct S6; split.
    - intros i j ki kj a (k' & Hk & ->)%Hl (k'' & Hk' & ->)%Hl Ha Hb. by eapply H3.
    - intros i j ki kj a (k' & Hk & ->)%Hl (k'' & Hk' & ->)%Hl Ha Hb. by eapply H4.
    - by rewrite length_map.
    - intros n t i Ht. change (map ?f ?l) with (f <$> l) in Ht. apply list_lookup_fmap_Some in Ht as (t' & -> & _). done. }
  clearbody s1. unfold on_ip, wp.
  assert (Hr : exists r b, Ip.ip_register_protocol IP_PROTO_TCP (Some rx) (below s1) = Ret (r, b) /\ Ip.stack b = Ip.stack (below s1)).
  { unfold Ip.ip_register_protocol, bind, get, put, ret. repeat case_match; simplify_eq; eauto. }
  destruct Hr as (r & b & -> & Hb).
  assert (Hi2 : inv (set_below b s1)).
  { destruct Hi1. split; try done; [|by cbn; rewrite Hb]. intros i k Hk. destruct (ti_socks0 i k Hk). by split. }
  destruct (r =? 0); cbn [negb]; [|done].
  destruct Hi2. split; try done. intros i k Hk. destruct (ti_socks0 i k Hk). by split.
Qed.

Lemma safe_run_call E `{!EnvOk E} c : call_ok c -> safe (run_call E c).
Proof.
  assert (Hd : forall {A} (m : M tcp A), safe m -> safe (bind m (fun _ => ret tt))).
  { intros A m Hm. apply safe_bind; auto with tcp. }
  destruct c; cbn [call_ok run_call]; intros Hc; try apply Hd.
  - by apply safe_rx.
  - apply safe_timer, _.
  - intros s []. split; try done. intros i k Hk. destruct (ti_socks0 i k Hk). by split.
  - destruct Hc. by apply safe_create.
  - destruct Hc as (? & ? & ?). by apply safe_bind_call.
  - destruct Hc. by apply safe_listen.
  - by apply safe_accept.
  - destruct Hc as (? & ? & ?). by apply safe_connect.
  - by apply safe_close.
  - destruct Hc. by apply safe_send.
  - destruct Hc. by apply safe_recv.
  - by apply safe_available.
  - by apply safe_callbacks.
  - destruct Hc. by apply safe_options.
Qed.

(** C15. After [tcp_init], any sequence of received packets (any bytes, of any
    length below 2^31, with the two addresses IP attaches), timer ticks and calls of
    the application on sockets of the table or NULL returns without reading a packet
    past its end, without an access outside a table or a block and without a dangling
    pointer, whatever [malloc] (a fresh block or NULL), IP and callbacks that
    themselves keep to TCP's rules do; and afterwards the invariant holds: receive
    buffers are well-formed rings over blocks of their own, listening sockets have a
    listener of their own, and every field holds a value of its C type. *)
Theorem tcp_calls_safe E `{!EnvOk E} s rx calls :
  boot s -> Forall call_ok calls ->
  wp (tcp_init rx ;;; mfor calls (run_call E)) (fun _ s' => inv s') s.
Proof.
  intros Hb Hc. apply safe_bind; [by apply safe_init| |by apply boot_inv].
  intros _. apply safe_mfor. intros c Hin. apply safe_run_call; [done|]. by eapply Forall_forall in Hc.
Qed.

(** An environment for examples: fresh blocks of zeros, a network that takes every
    segment, and an application that reads what has arrived in every callback. *)
Definition reading_env : env :=
  mk_env (fun a => bool_decide (a = [0; 0; 0; 0]))
    (fun s n => if n <? 0 then None
                else Some (fresh (dom (rx_blocks s) ∪ dom (listeners s)), replicate (Z.to_nat n) 0))
    (fun _ _ => Some 0)
    (fun _ i n => if decide (i < TCP_MAX_SOCKETS)%nat
                  then _r <- tcp_socket_recv (Some i) true (u32 n) ;; ret tt else ret tt).

#[export] Instance reading_env_ok : EnvOk reading_env.
Proof.
  split.
  - intros s n a g. cbn. destruct (Z.ltb_spec n 0); [done|]. intros [= <- <-].
    pose proof (is_fresh (dom (rx_blocks s) ∪ dom (listeners s))) as Hf.
    rewrite not_elem_of_union, !not_elem_of_dom in Hf. rewrite length_replicate. split_and!; [apply Hf..|lia].
  - intros f i n s Hi. cbn [callback reading_env]. case_decide; [|done]. as_safe. apply safe_bind; [|auto with tcp].
    apply safe_recv; [by intros ? [= <-]|auto with tcp].
Qed.

(** The state at start-up with an empty device table. *)
Definition no_net : Ip.ips :=
  Ip.mk_ips (Network.mk_net [] 0 None 1 ∅ ∅ ∅) 1 [] [0; 0; 0; 0] [0; 0; 0; 0] [0; 0; 0; 0] ∅.
Definition boot_state : tcp :=
  mk_tcp (replicate TCP_MAX_SOCKETS zero_socket) (replicate TCP_MAX_TIME_WAIT_SOCKETS (mk_tw 0 0 None))
    Ports.DYNAMIC_PORT_START 0 no_net ∅ ∅ 0 [].

Lemma boot_state_boot : boot boot_state.
Proof. by split. Qed.

Lemma tcp_calls_safe_witness :
  wp (tcp_init 7 ;;;
      mfor [CCreate None 80; CListen (Some 0%nat) 4; CClose (Some 0%nat); CTimer 10] (run_call reading_env))
    (fun _ s' => inv s') boot_state.
Proof.
  apply (tcp_calls_safe reading_env boot_state 7
    [CCreate None 80; CListen (Some 0%nat) 4; CClose (Some 0%nat); CTimer 10]).
  - apply boot_state_boot.
  - rewrite !Forall_cons. cbn [call_ok]. split_and!; try done; try (by apply Forall_nil);
      try (intros ? [= <-]; unfold TCP_MAX_SOCKETS; lia); unfold u16_ok, u32_ok; lia.
Defined.

(** ** Transitions *)

(** The transitions of the TCP state diagram a segment with the given flags may
    cause, a reset of a connection included. A SYN to a listening socket takes a
    free socket for the new connection and leaves the listening one as it is. *)
Inductive diagram_edge (flags : Z) : tcp_state -> tcp_state -> Prop :=
| edge_rst st : has_flag flags TCP_FLAG_RST = true -> st <> CLOSED -> st <> LISTEN -> diagram_edge flags st CLOSED
| edge_syn : has_flag flags TCP_FLAG_SYN = true -> diagram_edge flags CLOSED SYN_RECEIVED
| edge_synack : has_flag flags TCP_FLAG_SYN = true -> has_flag flags TCP_FLAG_ACK = true ->
    diagram_edge flags SYN_SENT ESTABLISHED
| edge_established : has_flag flags TCP_FLAG_ACK = true -> diagram_edge flags SYN_RECEIVED ESTABLISHED
| edge_fin_acked : has_flag flags TCP_FLAG_ACK = true -> diagram_edge flags FIN_WAIT_1 FIN_WAIT_2
| edge_closing : has_flag flags TCP_FLAG_ACK = true -> diagram_edge flags CLOSING TIME_WAIT
| edge_last_ack : has_flag flags TCP_FLAG_ACK = true -> diagram_edge flags LAST_ACK CLOSED
| edge_fin : has_flag flags TCP_FLAG_FIN = true -> diagram_edge flags ESTABLISHED CLOSE_WAIT
| edge_fin_simultaneous : has_flag flags TCP_FLAG_FIN = true -> diagram_edge flags FIN_WAIT_1 CLOSING
| edge_fin_last : has_flag flags TCP_FLAG_FIN = true -> diagram_edge flags FIN_WAIT_2 TIME_WAIT.

(** Where the code departs from the diagram: a reset closes a listening socket, an
    ACK without SYN closes a connection being opened, and a connection that should
    wait in [TIME_WAIT] is closed at once when no slot is left for it. *)
Inductive deviation (flags : Z) : tcp_state -> tcp_state -> Prop :=
| dev_rst_listen : has_flag flags TCP_FLAG_RST = true -> deviation flags LISTEN CLOSED
| dev_ack_only : has_flag flags TCP_FLAG_ACK = true -> has_flag flags TCP_FLAG_SYN = false ->
    deviation flags SYN_SENT CLOSED
| dev_closing_no_slot : has_flag flags TCP_FLAG_ACK = true -> deviation flags CLOSING CLOSED
| dev_fin_no_slot : has_flag flags TCP_FLAG_FIN = true -> deviation flags FIN_WAIT_2 CLOSED.

Definition rx_edge (flags : Z) (x y : tcp_state) : Prop := diagram_edge flags x y \/ deviation flags x y.

Definition states (s : tcp) : list tcp_state := state <$> sockets s.

(** An application whose callbacks make no transitions (it may read and send). *)
Class QuietCallbacks (E : env) : Prop :=
  callback_quiet : forall f i n s s', callback E f i n s = Ret (tt, s') -> states s' = states s.

(** At most socket [i] moves, along edges of [R]. *)
Definition moved (R : tcp_state -> tcp_state -> Prop) (i : nat) (l l' : list tcp_state) : Prop :=
  l' = l \/ exists x y, l !! i = Some x /\ rtc R x y /\ l' = <[i := y]> l.
Definition follows (R : tcp_state -> tcp_state -> Prop) (i : nat) {A} (m : M tcp A) : Prop :=
  forall s a s', m s = Ret (a, s') -> moved R i (states s) (states s').
Definition keeps {A} (m : M tcp A) : Prop :=
  forall s a s', m s = Ret (a, s') -> states s' = states s.

Lemma bind_inv {S A B} (m : M S A) (k : A -> M S B) s b s' :
  bind m k s = Ret (b, s') -> exists a s1, m s = Ret (a, s1) /\ k a s1 = Ret (b, s').
Proof. unfold bind. destruct (m s) as [[a s1]| |]; [eauto|done..]. Qed.

Lemma moved_refl R i l : moved R i l l.
Proof. by left. Qed.

Lemma moved_again R i l l1 l2 : moved R i l l1 -> moved R i l1 l2 -> moved R i l l2.
Proof.
  intros [->|(x & y & Hx & Hr & ->)] H; [done|]. destruct H as [->|(x' & z & Hx' & Hr' & ->)].
  { right. eauto. }
  right. exists x, z. rewrite list_lookup_insert_eq in Hx' by (by eapply lookup_lt_Some). injection Hx' as <-.
  split; [done|]. split; [by etrans|]. by rewrite list_insert_insert_eq.
Qed.

Lemma follows_keeps R i {A} (m : M tcp A) : keeps m -> follows R i m.
Proof. intros Hm s a s' E. left. by eapply Hm. Qed.

Lemma follows_bind R i {A B} (m : M tcp A) (k : A -> M tcp B) :
  follows R i m -> (forall a, follows R i (k a)) -> follows R i (bind m k).
Proof.
  intros Hm Hk s b s' (a & s1 & E1 & E2)%bind_inv.
  eapply moved_again; [by eapply Hm|by eapply Hk].
Qed.

Lemma keeps_bind {A B} (m : M tcp A) (k : A -> M tcp B) :
  keeps m -> (forall a, keeps (k a)) -> keeps (bind m k).
Proof. intros Hm Hk s b s' (a & s1 & E1 & E2)%bind_inv. etrans; [by eapply Hk|by eapply Hm]. Qed.

Lemma keeps_ret {A} (a : A) : keeps (ret a).
Proof. intros s b s' [= <- <-]. done. Qed.
Lemma keeps_fault {A} : keeps (@fault tcp A).
Proof. done. Qed.
Lemma keeps_get {A} (k : tcp -> M tcp A) : (forall s, keeps (k s)) -> keeps (bind get k).
Proof. intros Hk s b s' (a & s1 & [= <- <-] & E2)%bind_inv. by eapply Hk. Qed.
Lemma keeps_deref {A} (o : option A) : keeps (deref o).
Proof. destruct o; [apply keeps_ret|apply keeps_fault]. Qed.
Lemma keeps_read i : keeps (read_sock i).
Proof. apply keeps_get. intros s. apply keeps_deref. Qed.
Lemma keeps_modify f : (forall s, sockets (f s) = sockets s) -> keeps (modify f).
Proof. intros Hf s a s' [= <- <-]. unfold states. by rewrite Hf. Qed.

Lemma upd_sock_run i f s a s' :
  upd_sock i f s = Ret (a, s') ->
  exists k, sockets s !! i = Some k /\ s' = set_sockets (<[i := f k]> (sockets s)) s.
Proof.
  unfold upd_sock. intros (s1 & s2 & [= <- <-] & E)%bind_inv.
  apply bind_inv in E as (k & s3 & E1 & [= <- <-]).
  destruct (sockets s !! i) as [k'|] eqn:Ek; [|done]. injection E1 as <- <-. eauto.
Qed.

Lemma keeps_upd i f : (forall k, state (f k) = state k) -> keeps (upd_sock i f).
Proof.
  intros Hf s a s' (k & Hk & ->)%upd_sock_run. unfold states. cbn. rewrite list_fmap_insert, Hf.
  apply list_insert_id. by rewrite list_lookup_fmap, Hk.
Qed.

(** A socket put into another state. *)
Lemma upd_state_run i f st s a s' :
  (forall k, state (f k) = st) -> upd_sock i f s = Ret (a, s') -> states s' = <[i := st]> (states s).
Proof.
  intros Hf (k & Hk & ->)%upd_sock_run. unfold states. cbn. by rewrite list_fmap_insert, Hf.
Qed.

Lemma set_state_run i st s a s' :
  upd_sock i (set_state st) s = Ret (a, s') -> states s' = <[i := st]> (states s).
Proof. by apply upd_state_run. Qed.

Lemma bytes_at_run bytes off n (s : tcp) b s' :
  bytes_at bytes off n s = Ret (b, s') -> b = take (Z.to_nat n) (drop (Z.to_nat off) bytes) /\ s' = s.
Proof. unfold bytes_at. case_if; [by intros [= <- <-]|done]. Qed.
Lemma bytes_from_run bytes off (s : tcp) b s' : bytes_from bytes off s = Ret (b, s') -> s' = s.
Proof. unfold bytes_from. case_if; [by intros [= _ <-]|done]. Qed.

Lemma edge_insert (R : tcp_state -> tcp_state -> Prop) l i x y :
  l !! i = Some x -> R x y -> moved R i l (<[i := y]> l).
Proof. intros Hx Hr. right. exists x, y. split; [done|]. split; [by apply rtc_once|done]. Qed.

Create HintDb keeps.
#[export] Hint Resolve keeps_bind keeps_ret keeps_fault keeps_get keeps_deref keeps_read keeps_modify keeps_upd
  follows_keeps follows_bind : keeps.

Ltac edge := first [left; by constructor|right; by constructor].

Lemma keeps_read_same i s k s' : read_sock i s = Ret (k, s') -> s' = s.
Proof.
  unfold read_sock. intros (s0 & s1 & [= <- <-] & H)%bind_inv. destruct (sockets s !! i); [|done]. by injection H.
Qed.
Lemma read_listener_same k s l s' : read_listener k s = Ret (l, s') -> s' = s.
Proof.
  unfold read_listener. destruct (listener k) as [a|]; [|done].
  intros (a' & s0 & [= <- <-] & H)%bind_inv. apply bind_inv in H as (? & ? & [= <- <-] & H).
  destruct (listeners s !! a); [|done]. by injection H.
Qed.

Section Transitions.
Context (E : env) {HQ : QuietCallbacks E} (flags : Z).

Lemma keeps_notify cb i n : keeps (notify E cb i n).
Proof.
  apply keeps_bind; [apply keeps_read|]. intros k. destruct (cb k); [|apply keeps_ret].
  intros s [] s' Hs. by eapply HQ.
Qed.

Lemma keeps_send_segment i fl data : keeps (tcp_send_segment E (Some i) fl data).
Proof.
  unfold tcp_send_segment. apply keeps_bind; [apply keeps_read|]. intros k. apply keeps_get. intros s. cbv zeta.
  destruct (ip_tx E s _); [|apply keeps_ret]. case_if; [apply keeps_fault|]. auto 10 with keeps.
Qed.

Lemma keeps_buffer_write i data : keeps (tcp_buffer_write (Some i) (Some data)).
Proof.
  unfold tcp_buffer_write. apply keeps_bind; [apply keeps_read|]. intros k. cbv zeta.
  destruct (rx_data _) as [a|]; [|apply keeps_ret]. case_if; [apply keeps_ret|].
  intros s b s' (s1 & s2 & [= <- <-] & H)%bind_inv.
  apply bind_inv in H as (bl & s3 & H1 & H). destruct (rx_blocks s !! a); [|done]. injection H1 as <- <-.
  apply bind_inv in H as (r & s4 & H1 & H). destruct (copy_in _ _ _ _); [|done]. injection H1 as <- <-.
  apply bind_inv in H as ([] & s5 & [= <-] & H).
  apply bind_inv in H as ([] & s6 & H1 & [= <- <-]).
  apply keeps_upd in H1; [|done]. exact H1.
Qed.

Lemma keeps_buffer_init i n : keeps (tcp_buffer_init E (Some i) n).
Proof.
  unfold tcp_buffer_init. apply keeps_get. intros s. destruct (malloc E s n) as [[a g]|]; auto 10 with keeps.
Qed.

(** [tcp_start_time_wait] leaves the states alone or closes the socket. *)
Lemma start_time_wait_run i s a s' :
  tcp_start_time_wait (Some i) s = Ret (a, s') ->
  states s' = states s \/ states s' = <[i := CLOSED]> (states s).
Proof.
  unfold tcp_start_time_wait. intros (s1 & s2 & [= <- <-] & H)%bind_inv.
  destruct (free_slot _ _); [injection H as <- <-; by left|]. right. by eapply set_state_run.
Qed.

Lemma follows_process_ack i ack window :
  has_flag flags TCP_FLAG_ACK = true -> has_flag flags TCP_FLAG_SYN = false ->
  follows (rx_edge flags) i (tcp_process_ack E i ack window).
Proof.
  intros Hf Hns. unfold tcp_process_ack. apply follows_bind; [by auto with keeps|intros _].
  intros s b s' (k & s1 & H1 & H)%bind_inv.
  unfold read_sock in H1. apply bind_inv in H1 as (? & ? & [= <- <-] & H1).
  destruct (sockets s !! i) as [k'|] eqn:Hk; [|done]. injection H1 as <- <-.
  destruct (_ || _); [injection H as <- <-; apply moved_refl|].
  apply bind_inv in H as ([] & s1 & H1 & H). apply keeps_upd in H1; [|done]. rewrite <- H1.
  assert (Hst : states s1 !! i = Some (state k')) by (by rewrite H1; unfold states; rewrite list_lookup_fmap, Hk).
  clear H1 Hk s. destruct (state k'); try (injection H as <- <-; apply moved_refl);
    apply bind_inv in H as (? & s2 & H1 & H); apply set_state_run in H1.
  - apply bind_inv in H as (? & s3 & H2%keeps_send_segment & [= <- <-]). rewrite H2, H1.
    eapply edge_insert; [done|edge].
  - apply bind_inv in H as (? & s3 & H2%keeps_notify & [= <- <-]). rewrite H2, H1.
    eapply edge_insert; [done|edge].
  - injection H as <- <-. rewrite H1. eapply edge_insert; [done|edge].
  - apply bind_inv in H as (? & s3 & [H2|H2]%start_time_wait_run & [= <- <-]); rewrite H2, H1, ?list_insert_insert_eq;
      (eapply edge_insert; [done|edge]).
  - apply bind_inv in H as (? & s3 & H2%keeps_notify & [= <- <-]). rewrite H2, H1.
    eapply edge_insert; [done|edge].
Qed.

Lemma keeps_process_data i data seq_num : keeps (tcp_process_data E i data seq_num).
Proof.
  unfold tcp_process_data. apply keeps_bind; [apply keeps_read|intros k]. case_if.
  - apply keeps_bind; [apply keeps_send_segment|intros; apply keeps_ret].
  - cbv zeta. apply keeps_bind; [by auto with keeps|intros _].
    apply keeps_bind; [apply keeps_buffer_write|intros w]. case_if; [apply keeps_ret|].
    apply keeps_bind; [apply keeps_notify|intros _].
    apply keeps_bind; [apply keeps_send_segment|intros; apply keeps_ret].
Qed.

Lemma follows_process_fin i seq_num :
  has_flag flags TCP_FLAG_FIN = true -> follows (rx_edge flags) i (tcp_process_fin E i seq_num).
Proof.
  intros Hf. unfold tcp_process_fin. apply follows_bind; [by auto with keeps|intros _].
  intros s b s' (k & s1 & H1 & H)%bind_inv.
  unfold read_sock in H1. apply bind_inv in H1 as (? & ? & [= <- <-] & H1).
  destruct (sockets s !! i) as [k'|] eqn:Hk; [|done]. injection H1 as <- <-.
  assert (Hst : states s !! i = Some (state k')) by (by unfold states; rewrite list_lookup_fmap, Hk).
  clear Hk. destruct (state k');
    try (apply bind_inv in H as (? & s3 & H2%keeps_send_segment & [= <- <-]); rewrite H2; apply moved_refl);
    apply bind_inv in H as (? & s2 & H1 & H); apply set_state_run in H1;
    apply bind_inv in H as (? & s3 & H2%keeps_send_segment & H); rewrite H1 in H2; clear H1.
  - apply bind_inv in H as (? & s4 & H3%keeps_notify & [= <- <-]). rewrite H3, H2.
    eapply edge_insert; [done|edge].
  - injection H as <- <-. rewrite H2. eapply edge_insert; [done|edge].
  - apply bind_inv in H as (? & s4 & [H3|H3]%start_time_wait_run & [= <- <-]); rewrite H3, H2, ?list_insert_insert_eq;
      (eapply edge_insert; [done|edge]).
Qed.

(** A connection request moves at most the first free socket. *)
Lemma process_syn_run li src sport dst dport seq_num window s a s' :
  has_flag flags TCP_FLAG_SYN = true ->
  tcp_process_syn E li src sport dst dport seq_num window s = Ret (a, s') ->
  states s' = states s \/ exists j, find_closed (sockets s) 0 = Some j /\ moved (rx_edge flags) j (states s) (states s').
Proof.
  intros Hf. unfold tcp_process_syn. intros (k & s1 & H1%keeps_read_same & H)%bind_inv. subst s1.
  destruct (negb _); [injection H as <- <-; by left|].
  apply bind_inv in H as (l & s1 & H1%read_listener_same & H). subst s1.
  destruct (_ <=? _); [injection H as <- <-; by left|].
  apply bind_inv in H as (s0 & s1 & [= <- <-] & H).
  destruct (find_closed (sockets s) 0) as [j|] eqn:Ej; [|injection H as <- <-; by left].
  right. exists j. split; [done|]. destruct (find_closed_at _ _ Ej) as (kj & Hj & Hjc).
  apply bind_inv in H as ([] & s2 & H1 & H).
  apply (upd_state_run j _ SYN_RECEIVED) in H1; [|done].
  assert (Hk : states s' = states s2).
  { revert H. apply keeps_bind; [apply keeps_buffer_init|intros r]. case_if; [apply keeps_ret|].
    apply keeps_bind; [by auto with keeps|intros _]. apply keeps_bind; [unfold write_listener; by auto with keeps|intros _].
    apply keeps_send_segment. }
  rewrite Hk, H1. eapply edge_insert; [unfold states; rewrite list_lookup_fmap, Hj; cbn; by rewrite Hjc|edge].
Qed.

(** The sockets a segment found for [p] may move: the one found or, when that one
    listens and the segment is a SYN, the first free one instead. *)
Definition mover (s : tcp) (p : option nat) (i : nat) : Prop :=
  p = Some i \/
  (has_flag flags TCP_FLAG_SYN = true /\ find_closed (sockets s) 0 = Some i /\
   exists l, p = Some l /\ states s !! l = Some LISTEN).

Lemma dispatch_moves p src dst sport dport seq_num ack_num window data s a s' :
  (forall i, p = Some i -> exists k, sockets s !! i = Some k /\ state k <> CLOSED) ->
  tcp_dispatch E p src dst sport dport seq_num ack_num flags window data s = Ret (a, s') ->
  states s' = states s \/ exists i, mover s p i /\ moved (rx_edge flags) i (states s) (states s').
Proof.
  intros Hp. unfold tcp_dispatch. destruct (has_flag flags TCP_FLAG_RST) eqn:Hrst.
  - destruct p as [i|]; [|intros [= <- <-]; by left]. destruct (Hp i eq_refl) as (k & Hk & Hne).
    intros ([] & s1 & H1%set_state_run & H)%bind_inv.
    apply bind_inv in H as ([] & s2 & H2%keeps_notify & [= <- <-]). rewrite H2, H1.
    right. exists i. split; [by left|].
    eapply edge_insert; [unfold states; by rewrite list_lookup_fmap, Hk|].
    destruct (decide (state k = LISTEN)) as [->|]; edge.
  - destruct (has_flag flags TCP_FLAG_SYN) eqn:Hsyn; (destruct p as [i|]; [|intros [= <- <-]; by left]).
    + destruct (Hp i eq_refl) as (k & Hk & _).
      assert (Hst : states s !! i = Some (state k)) by (unfold states; by rewrite list_lookup_fmap, Hk).
      intros (k' & s1 & H1 & H)%bind_inv. unfold read_sock in H1.
      apply bind_inv in H1 as (? & ? & [= <- <-] & H1). rewrite Hk in H1. injection H1 as <- <-.
      destruct (_ && _) eqn:Hb; [bools; unfold in_state in *; case_bool_decide as Hs; [|done]|].
      * destruct (negb _); [injection H as <- <-; by left|].
        apply bind_inv in H as ([] & s1 & Hu & H). apply (upd_state_run _ _ ESTABLISHED) in Hu; [|done].
        apply bind_inv in H as (r & s2 & Hseg%keeps_send_segment & H).
        apply bind_inv in H as ([] & s3 & Hn%keeps_notify & [= <- <-]). rewrite Hn, Hseg, Hu.
        right. exists i. split; [by left|]. eapply edge_insert; [by rewrite Hst, Hs|edge].
      * destruct (in_state (state k) LISTEN) eqn:Hl; [|injection H as <- <-; by left].
        unfold in_state in Hl. apply bool_decide_eq_true in Hl.
        apply process_syn_run in H as [H|(j & Hj & H)]; [by left| |done].
        right. exists j. split; [|done]. right. split; [done|]. split; [done|]. exists i. by rewrite Hst, Hl.
    + intros H. right. exists i. split; [by left|]. revert s a s' Hp H. intros s a s' _. revert s a s'.
      change (follows (rx_edge flags) i (
        (if has_flag flags TCP_FLAG_ACK then _r <- tcp_process_ack E i ack_num window ;; ret tt else ret tt) ;;;
        (if 0 <? Z.of_nat (length data) then _r <- tcp_process_data E i data seq_num ;; ret tt else ret tt) ;;;
        (if has_flag flags TCP_FLAG_FIN then _r <- tcp_process_fin E i (u32 (seq_num + Z.of_nat (length data))) ;; ret tt
         else ret tt) ;;; ret 0)).
      apply follows_bind; [destruct (has_flag flags TCP_FLAG_ACK) eqn:Hack|intros _].
      * apply follows_bind; [by apply follows_process_ack|by auto with keeps].
      * by auto with keeps.
      * apply follows_bind; [|intros _].
        { apply follows_keeps. case_if; [|apply keeps_ret]. apply keeps_bind; [apply keeps_process_data|intros; apply keeps_ret]. }
        apply follows_bind; [|by auto with keeps].
        destruct (has_flag flags TCP_FLAG_FIN) eqn:Hfin; [|by auto with keeps].
        apply follows_bind; [by apply follows_process_fin|by auto with keeps].
Qed.

End Transitions.

Lemma find_from_open E ks n lp la rp ra i :
  find_from E ks n lp la rp ra = Some i ->
  (n <= i)%nat /\ exists k, ks !! (i - n)%nat = Some k /\ state k <> CLOSED.
Proof.
  revert n. induction ks as [|k ks IH]; intros n; cbn [find_from]; [done|].
  assert (Hrec : find_from E ks (S n) lp la rp ra = Some i ->
    (n <= i)%nat /\ exists k', (k :: ks) !! (i - n)%nat = Some k' /\ state k' <> CLOSED).
  { intros (Hle & k' & Hk' & Hne)%IH. split; [lia|]. exists k'. by replace (i - n)%nat with (S (i - S n)) by lia. }
  destruct (in_state (state k) CLOSED) eqn:Hc; [exact Hrec|].
  assert (Hhere : Some n = Some i -> (n <= i)%nat /\ exists k', (k :: ks) !! (i - n)%nat = Some k' /\ state k' <> CLOSED).
  { intros [= <-]. split; [done|]. exists k. rewrite Nat.sub_diag. split; [done|].
    unfold in_state in Hc. by apply bool_decide_eq_false in Hc. }
  repeat case_if; [exact Hhere|exact Hrec|exact Hhere|exact Hrec].
Qed.

(** C14. A received packet moves at most one socket, and that one only along
    transitions that the flags of the packet allow; every other socket stays in its
    state. The socket is the one the lookup finds for the ports and addresses of the
    packet or, when that one listens and the packet is a SYN, the first free socket,
    which becomes the new connection. The transitions are those of the TCP state
    diagram ([diagram_edge]) and the four departures listed in [deviation]: a reset
    closes a listening socket, a bare ACK closes a connection being opened, and a
    connection due for [TIME_WAIT] is closed when all its slots are taken. The call
    returns and keeps the invariant. Callbacks of the application are assumed to keep
    to TCP's rules and to put no socket into another state themselves. *)
Theorem rx_follows_diagram E `{!EnvOk E} `{!QuietCallbacks E} s p src dst :
  inv s -> packet_ok p -> pkt_addrs p = Some (src, dst) ->
  let h := take 20 (pkt_bytes p) in
  let flags := Ip.byte h 13 in
  let found := find_from E (sockets s) 0 (word16 h 2) dst (word16 h 0) src in
  wp (tcp_rx E (Some p))
    (fun _ s' => inv s' /\
       (states s' = states s \/
        exists i st st', mover flags s found i /\ states s !! i = Some st /\
          rtc (rx_edge flags) st st' /\ states s' = <[i := st']> (states s))) s.
Proof.
  intros Hi Hp Ha h flags found.
  assert (Hs : safe (tcp_rx E (Some p))) by (apply safe_rx; [done|by intros ? [= <-]]).
  destruct (wp_returns _ _ _ (Hs s Hi)) as (r & s' & Hrun & Hi'). unfold wp. rewrite Hrun. split; [done|].
  revert Hrun. unfold tcp_rx. cbv zeta. rewrite Ha. case_if; [intros [= <- <-]; by left|].
  apply Z.ltb_ge in E0. intros (h' & s1 & H1%bytes_at_run & H)%bind_inv. destruct H1 as [-> ->].
  change (Z.to_nat 0) with 0%nat in H. change (Z.to_nat TCP_HEADER_SIZE) with 20%nat in H. rewrite drop_0 in H. fold h in H.
  destruct (_ || _); [injection H as <- <-; by left|].
  apply bind_inv in H as ([src' dst'] & s1 & [= <- <- <-] & H).
  apply bind_inv in H as (data & s1 & ->%bytes_from_run & H).
  destruct (negb _); [injection H as <- <-; by left|].
  apply bind_inv in H as (q & s2 & H2 & H). unfold tcp_find_socket in H2.
  apply bind_inv in H2 as (? & ? & [= <- <-] & [= <- <-]). fold found in H.
  apply dispatch_moves in H; [|done|].
  - destruct H as [H|(i & Hm & [H|(x & y & Hx & Hr & H)])]; [by left..|]. right. exists i, x, y. done.
  - intros i (_ & k & Hk & Hne)%find_from_open. rewrite Nat.sub_0_r in Hk. eauto.
Qed.

(** *** Examples for the theorems below *)

Lemma keeps_recv i n : keeps (tcp_socket_recv (Some i) true n).
Proof.
  unfold tcp_socket_recv. apply keeps_bind; [apply keeps_read|intros k]. case_if; [apply keeps_ret|].
  unfold tcp_buffer_read. apply keeps_bind; [apply keeps_read|intros k']. cbv zeta.
  destruct (rx_data _) as [d|]; [|apply keeps_ret]. destruct (_ =? 0); [apply keeps_ret|].
  apply keeps_get. intros s. auto 10 with keeps.
Qed.

#[export] Instance reading_env_quiet : QuietCallbacks reading_env.
Proof.
  intros f i n s s'. cbn [callback reading_env]. case_decide; [|by intros [= <-]].
  intros (r & s1 & Hr%keeps_recv & [= <-])%bind_inv. done.
Qed.

Lemma inv_after {A} (m : M tcp A) s : safe m -> inv s -> inv (after m s).
Proof. intros Hm Hi. specialize (Hm s Hi). unfold wp, after in *. by destruct (m s) as [[a s']| |]. Qed.

(** A host that listens on port 80 in socket 0. *)
Definition server_calls : list call := [CCreate (Some [10; 0; 0; 1]) 80; CListen (Some 0%nat) 4].
Definition server : tcp := after (tcp_init 7 ;;; mfor server_calls (run_call reading_env)) boot_state.

Lemma server_inv : inv server.
Proof.
  apply inv_after; [|apply boot_inv, boot_state_boot]. apply safe_bind; [apply safe_init|intros _].
  apply safe_mfor. intros c Hc. apply (safe_run_call reading_env).
  apply list_elem_of_In in Hc. destruct Hc as [<-|[<-|[]]]; cbn [call_ok].
  - split; [|done]. intros ? [= <-]. split; [done|]. repeat constructor; lia.
  - split; [|unfold u16_ok; lia]. intros ? [= <-]. unfold TCP_MAX_SOCKETS. lia.
Qed.

(** The socket of a client of that host. *)
Definition client_socket (st : tcp_state) (nxt rcv : Z) : tcp_socket :=
  mk_socket st 50000 80 [10; 0; 0; 2] [10; 0; 0; 1] 0
    (mk_conn nxt nxt 4096 rcv 4096 536 (mk_retransmit 500 0 0 0 0) None) None None zero_rx None None None None None.

Definition client_packet (st : tcp_state) (nxt rcv flags : Z) (data : list Z) : packet :=
  let seg := build_segment (client_socket st nxt rcv) flags data in
  mk_packet (seg_bytes seg) (Some (seg_src seg, seg_dst seg)).

Lemma rx_follows_diagram_witness :
  wp (tcp_rx reading_env (Some (client_packet SYN_SENT 1000 0 TCP_FLAG_SYN [])))
    (fun _ s' => inv s' /\
       (states s' = states server \/
        exists i st st', mover TCP_FLAG_SYN server (Some 0%nat) i /\ states server !! i = Some st /\
          rtc (rx_edge TCP_FLAG_SYN) st st' /\ states s' = <[i := st']> (states server))) server.
Proof.
  apply (rx_follows_diagram reading_env server (client_packet SYN_SENT 1000 0 TCP_FLAG_SYN [])
    [10; 0; 0; 2] [10; 0; 0; 1]).
  - apply server_inv.
  - unfold packet_ok. vm_compute. split; [repeat constructor; discriminate|]. split; [done|].
    do 2 eexists. split; [done|]. unfold addr4_ok. split; (split; [done|]; repeat constructor; discriminate).
  - reflexivity.
Defined.

(** ** Segments *)

Lemma lo_hi_bytes x : u16_ok x -> Ip.lo x + 256 * Ip.hi x = x.
Proof.
  unfold Ip.lo, Ip.hi, u16_ok. intros Hx. rewrite (Z.mod_small (x / 256)).
  - pose proof (Z.div_mod x 256). lia.
  - split; [apply Z.div_pos; lia|apply Z.div_lt_upper_bound; lia].
Qed.

Lemma hi_lo x : u16_ok x -> 256 * Ip.hi x + Ip.lo x = x.
Proof. intros Hx. rewrite <- (lo_hi_bytes x Hx) at 3. lia. Qed.

Lemma be32_word x : u32_ok x ->
  65536 * (256 * u8 (Z.shiftr x 24) + u8 (Z.shiftr x 16)) + (256 * u8 (Z.shiftr x 8) + u8 x) = x.
Proof.
  unfold u32_ok, u8. intros Hx. rewrite !Z.shiftr_div_pow2 by lia.
  change (2 ^ 24) with (2 ^ 8 * (2 ^ 8 * 2 ^ 8)). change (2 ^ 16) with (2 ^ 8 * 2 ^ 8).
  rewrite <- !Z.div_div by lia. set (a := x / 2 ^ 8). set (b := a / 2 ^ 8). set (c := b / 2 ^ 8).
  pose proof (Z.div_mod x (2 ^ 8)). pose proof (Z.div_mod a (2 ^ 8)). pose proof (Z.div_mod b (2 ^ 8)).
  assert (0 <= c < 2 ^ 8).
  { unfold c, b, a. rewrite !Z.div_div by lia. split; [apply Z.div_pos; lia|apply Z.div_lt_upper_bound; lia]. }
  rewrite (Z.mod_small c) by lia. lia.
Qed.

Lemma segment_parse E k flags data s :
  sock_typed k -> u8_ok flags ->
  let seg := build_segment k flags data in
  tcp_rx E (Some (mk_packet (seg_bytes seg) (Some (seg_src seg, seg_dst seg)))) s =
  (p <- tcp_find_socket E (remote_port k) (remote_addr k) (local_port k) (local_addr k) ;;
   tcp_dispatch E p (local_addr k) (remote_addr k) (local_port k) (remote_port k) (snd_nxt (conn k))
     (if has_flag flags TCP_FLAG_ACK then rcv_nxt (conn k) else 0) flags (u16 (rcv_wnd (conn k))) data) s.
Proof.
  intros Hk Hf seg. set (c := tcp_checksum (header_bytes k flags 0) data (local_addr k) (remote_addr k)).
  assert (Hc : u16_ok c) by apply u16_typed.
  set (h := header_bytes k flags c).
  assert (Hb : seg_bytes seg = h ++ data) by done.
  assert (Hh : take 20 (h ++ data) = h) by (unfold h; cbn; by rewrite take_0).
  assert (Hd : drop 20 (h ++ data) = data) by done.
  assert (Hw : word16 h 0 = local_port k /\ word16 h 2 = remote_port k /\ word16 h 14 = u16 (rcv_wnd (conn k))).
  { destruct Hk as [H1 H2 _ _ _ _]. pose proof (u16_typed (rcv_wnd (conn k))).
    unfold word16, h, header_bytes, Ip.byte. cbn [be32 be16 app nth].
    rewrite !hi_lo by done. done. }
  assert (Hs : word32 h 4 = snd_nxt (conn k) /\
    word32 h 8 = if has_flag flags TCP_FLAG_ACK then rcv_nxt (conn k) else 0).
  { destruct Hk as [_ _ _ _ _ Hcn]. destruct Hcn.
    unfold word32, word16, h, header_bytes, Ip.byte. cbn [be32 be16 app nth]. rewrite !be32_word; [done| |done].
    case_if; [done|unfold u32_ok; lia]. }
  destruct Hw as (Hw1 & Hw2 & Hw3), Hs as [Hs1 Hs2].
  assert (Hlen : Z.of_nat (length (h ++ data)) = 20 + Z.of_nat (length data)) by (rewrite length_app; cbn; lia).
  assert (Hread : @bytes_at tcp (h ++ data) 0 20 = ret h).
  { unfold bytes_at. rewrite Hlen. destruct (Z.leb_spec (0 + 20) (20 + Z.of_nat (length data))); [|lia].
    cbn [Z.leb andb]. change (Z.to_nat 20) with 20%nat. change (Z.to_nat 0) with 0%nat. by rewrite drop_0, Hh. }
  assert (Hrest : @bytes_from tcp (h ++ data) 20 = ret data).
  { unfold bytes_from. rewrite Hlen. destruct (Z.leb_spec 20 (20 + Z.of_nat (length data))); [|lia]. done. }
  unfold tcp_rx, TCP_HEADER_SIZE. cbn [pkt_bytes pkt_addrs]. rewrite Hb, Hread, Hlen.
  destruct (Z.ltb_spec (20 + Z.of_nat (length data)) 20); [lia|]. change (bind (ret h) ?f s) with (f h s). cbv beta zeta.
  change (Ip.byte h 12) with (Z.shiftl (TCP_HEADER_SIZE / 4) 4). change (Ip.byte h 13) with flags.
  change (Z.land (Z.shiftr (Z.shiftl (TCP_HEADER_SIZE / 4) 4) 4) 0x0F * 4) with 20.
  change (20 <? 20) with false. destruct (Z.ltb_spec (20 + Z.of_nat (length data)) 20); [lia|]. cbn [orb].
  change (bind (deref (Some ?x)) ?f s) with (f x s). cbv beta iota. rewrite Hrest.
  change (bind (ret data) ?f s) with (f data s). cbv beta. rewrite Hw1, Hw2, Hw3, Hs1, Hs2.
  change (Ip.set_word h 16 0 0) with (header_bytes k flags 0). fold c.
  change (Ip.byte h 16) with (Ip.lo c). change (Ip.byte h 17) with (Ip.hi c).
  rewrite lo_hi_bytes, Z.eqb_refl by done. done.
Qed.

(** C19. A segment built by [tcp_send_segment] is accepted by the [tcp_rx] of the host
    it is for: the checksum verifies, and the fields read back are the ports, the
    sequence and acknowledgment numbers, the flags, the window and the data that the
    sender put in, for every length of data. *)
Theorem segment_roundtrip E k flags data s :
  sock_typed k -> u8_ok flags ->
  let seg := build_segment k flags data in
  tcp_rx E (Some (mk_packet (seg_bytes seg) (Some (seg_src seg, seg_dst seg)))) s =
  (p <- tcp_find_socket E (remote_port k) (remote_addr k) (local_port k) (local_addr k) ;;
   tcp_dispatch E p (local_addr k) (remote_addr k) (local_port k) (remote_port k) (snd_nxt (conn k))
     (if has_flag flags TCP_FLAG_ACK then rcv_nxt (conn k) else 0) flags (u16 (rcv_wnd (conn k))) data) s.
Proof. apply segment_parse. Qed.

Lemma segment_roundtrip_witness :
  let seg := build_segment (client_socket ESTABLISHED 5 9) 24 [1; 2; 3] in
  tcp_rx reading_env (Some (mk_packet (seg_bytes seg) (Some (seg_src seg, seg_dst seg)))) server =
  (p <- tcp_find_socket reading_env 80 [10; 0; 0; 1] 50000 [10; 0; 0; 2] ;;
   tcp_dispatch reading_env p [10; 0; 0; 2] [10; 0; 0; 1] 50000 80 5 9 24 4096 [1; 2; 3]) server.
Proof.
  apply (segment_roundtrip reading_env (client_socket ESTABLISHED 5 9) 24 [1; 2; 3] server).
  - split; cbn; try (unfold u16_ok, u8_ok; lia).
    + split; [done|]. repeat constructor; lia.
    + split; [done|]. repeat constructor; lia.
    + split; cbn; unfold u32_ok, u16_ok, u8_ok; lia.
  - unfold u8_ok. lia.
Defined.

End TcpThms.
