(* ===== verification/TcpStream.v ===== *)
(** * TCP: streams, delivery, ports

    The bytes an application reads from an established connection are the stream of
    its peer, in order and without gaps, as long as no segment overflows the receive
    buffer; what one host sends the other receives; which port a socket gets; and
    four places where the code loses data or connections. *)

From Stdlib Require Import ZArith Lia String.
From stdpp Require Import base tactics option list gmap strings.
From S2P Require Import Prelude Ring Ports Network Ip Tcp TcpInv TcpThms.

Set Default Goal Selector "!".
Local Open Scope Z_scope.
Local Open Scope kernel_scope.

Module TcpStream.
Import Tcp TcpInv TcpThms.

(** What the lookup of a segment reads of a socket. *)
Definition ident (k : tcp_socket) : tcp_state * Z * Z * list Z * list Z :=
  (state k, local_port k, remote_port k, local_addr k, remote_addr k).
Definition idents (s : tcp) := ident <$> sockets s.

Lemma idents_insert (ks : list tcp_socket) (i : nat) k k' : ks !! i = Some k -> ident k' = ident k -> ident <$> <[i := k']> ks = ident <$> ks.
Proof. intros Hk He. rewrite list_fmap_insert, He. apply list_insert_id. by rewrite list_lookup_fmap, Hk. Qed.

Lemma find_from_ident E ks : forall ks' n lp la rp ra, ident <$> ks = ident <$> ks' ->
  find_from E ks n lp la rp ra = find_from E ks' n lp la rp ra.
Proof.
  induction ks as [|k ks IH]; intros [|k' ks'] n lp la rp ra H; try done.
  injection H as H1 H2 H3 H4 H5 H. cbn [find_from]. rewrite H1, H2, H3, H4, H5, (IH _ _ _ _ _ _ H). done.
Qed.

Lemma wp_run_eq {S A} (m m' : M S A) Q s : m s = m' s -> wp m' Q s -> wp m Q s.
Proof. unfold wp. by intros ->. Qed.

Section Effects.
Context (E : env) `{!EnvOk E}.

(** Sending: the sequence number moves on, and the segment is on its way. *)
Lemma wp_send_segment s i k flags data :
  inv s -> sockets s !! i = Some k -> Z.of_nat (length data) < 2 ^ 31 ->
  wp (tcp_send_segment E (Some i) flags data)
    (fun r s' => rx_blocks s' = rx_blocks s /\
       match ip_tx E s (build_segment k flags data) with
       | None => r = -1 /\ s' = s
       | Some result =>
           r = result /\ sent s' = build_segment k flags data :: sent s /\ inv s' /\
           sockets s' = <[i := on_conn (advance flags (Z.of_nat (length data))) k]> (sockets s)
       end) s.
Proof.
  intros Hi Hk Hlen. pose proof (safe_send_segment E i flags data (sock_range _ _ _ Hi Hk) Hlen s Hi) as Hsafe.
  revert Hsafe. unfold tcp_send_segment. rewrite !wp_bind, !wp_read_sock.
  intros (k' & Hk' & Hsafe). rewrite Hk in Hk'. injection Hk' as <-. exists k. split; [done|].
  revert Hsafe. rewrite !wp_bind, !wp_get. cbv zeta.
  destruct (ip_tx E s _); [|done]. rewrite u32_small by (unfold TCP_HEADER_SIZE; lia). rewrite Z.ltb_irrefl.
  wp_steps. rewrite !wp_upd_sock. intros (k' & Hk' & Hsafe). rewrite Hk in Hk'. injection Hk' as <-.
  exists k. split; [done|]. revert Hsafe. wp_steps. done.
Qed.

Lemma advance_ack k : on_conn (advance TCP_FLAG_ACK 0) k = k.
Proof. by destruct k. Qed.

(** A bare acknowledgment changes nothing but the list of sent segments. *)
Lemma wp_send_ack s i k :
  inv s -> sockets s !! i = Some k ->
  wp (tcp_send_segment E (Some i) TCP_FLAG_ACK [])
    (fun _ s' => inv s' /\ sockets s' = sockets s /\ rx_blocks s' = rx_blocks s) s.
Proof.
  intros Hi Hk. eapply wp_mono; [by apply (wp_send_segment s i k)|]. intros r s' [Hb H].
  destruct (ip_tx E s _).
  - destruct H as (_ & _ & Hi' & ->). cbn [length]. change (Z.of_nat 0) with 0.
    rewrite advance_ack, list_insert_id by done. done.
  - by destruct H as [_ ->].
Qed.

(** One segment of data: accepted in sequence when it fits, dropped but counted when
    it does not fit, dropped when it is out of sequence. *)
Lemma wp_process_data s i k d data seq_num :
  inv s -> sockets s !! i = Some k -> rx_data (rx_buffer k) = Some d -> data_ready_callback k = None ->
  Z.of_nat (length data) < 2 ^ 31 ->
  wp (tcp_process_data E i data seq_num)
    (fun r s' => inv s' /\ idents s' = idents s /\ exists k', sockets s' !! i = Some k' /\ state k' = state k /\
       rx_data (rx_buffer k') = Some d /\ data_ready_callback k' = None /\
       (forall j kj, j <> i -> sockets s !! j = Some kj -> sockets s' !! j = Some kj /\ unread s' kj = unread s kj) /\
       if decide (seq_num = rcv_nxt (conn k)) then
         rcv_nxt (conn k') = u32 (rcv_nxt (conn k) + Z.of_nat (length data)) /\
         if decide (Z.of_nat (length (unread s k) + length data) <= TCP_DEFAULT_BUFFER_SIZE)
         then r = 0 /\ unread s' k' = unread s k ++ data
         else r = -1 /\ unread s' k' = unread s k
       else r = -1 /\ rcv_nxt (conn k') = rcv_nxt (conn k) /\ unread s' k' = unread s k) s.
Proof.
  intros Hi Hk Hd Hcb Hlen. unfold tcp_process_data. rewrite wp_bind, wp_read_sock. exists k. split; [done|].
  destruct (Z.eqb_spec seq_num (rcv_nxt (conn k))) as [->|Hne]; cbn [negb].
  2: { rewrite wp_bind. eapply wp_mono; [by apply (wp_send_ack s i k)|]. intros r s' (Hi' & Hs & Hb). wp_steps.
       split; [done|]. split; [unfold idents; by rewrite Hs|].
       exists k. unfold unread. rewrite Hs, Hb. rewrite decide_False by done. split_and!; done. }
  cbv zeta. rewrite wp_bind, wp_upd_sock. exists k. split; [done|].
  set (k1 := on_conn _ k). set (s1 := set_sockets _ s).
  assert (Hi1 : inv s1) by (apply inv_benign; [done|done|apply benign_conn; typed_conn]).
  assert (Hk1 : sockets s1 !! i = Some k1) by (apply list_lookup_insert_eq; by eapply lookup_lt_Some).
  assert (Ho1 : forall j kj, j <> i -> sockets s !! j = Some kj -> sockets s1 !! j = Some kj).
  { intros j kj Hne Hj. cbn. by rewrite list_lookup_insert_ne by done. }
  assert (Hid1 : idents s1 = idents s) by (by apply (idents_insert _ _ k)).
  rewrite wp_bind. eapply wp_mono; [by apply (wp_buffer_write s1 i k1 data)|].
  intros w s2 (Hi2 & _ & _ & _ & Ho & Hres). change (rx_buffer k1) with (rx_buffer k) in Hres. rewrite Hd in Hres.
  change (unread s1 k1) with (unread s k) in Hres.
  assert (Ho2 : forall j kj, j <> i -> sockets s !! j = Some kj -> sockets s2 !! j = Some kj /\ unread s2 kj = unread s kj).
  { intros j kj Hne Hj. exact (Ho j kj Hne (Ho1 _ _ Hne Hj)). }
  destruct (decide (Z.of_nat (length (unread s k) + length data) <= _)) as [Hfit|Hfit].
  - destruct Hres as (-> & b & Hs2 & Hbd & Hu). rewrite u32_small by lia. rewrite Z.eqb_refl. cbn [negb].
    assert (Hk2 : sockets s2 !! i = Some (set_rx_buffer b k1)).
    { rewrite Hs2. apply list_lookup_insert_eq. by eapply lookup_lt_Some. }
    rewrite wp_bind. unfold notify. rewrite wp_bind, wp_read_sock. exists (set_rx_buffer b k1). split; [done|].
    cbn [data_ready_callback set_rx_buffer k1 on_conn set_conn]. rewrite Hcb. rewrite wp_ret, wp_bind.
    eapply wp_mono; [by apply (wp_send_ack s2 i (set_rx_buffer b k1))|]. intros r s3 (Hi3 & Hs3 & Hb3). wp_steps.
    split; [done|]. split; [unfold idents; rewrite Hs3, Hs2, (idents_insert _ _ k1) by done; exact Hid1|].
    exists (set_rx_buffer b k1). unfold unread. rewrite Hs3, Hb3, decide_True by done.
    split_and!; done.
  - destruct Hres as (-> & ->). destruct (Z.eqb_spec (u32 (-1)) (Z.of_nat (length data))) as [He|_].
    { change (u32 (-1)) with 4294967295 in He. lia. }
    cbn [negb]. wp_steps. split; [done|]. split; [done|]. exists k1. rewrite decide_True by done. split_and!; done.
Qed.

End Effects.

(** ** From one host to another *)

Section Deliver.
Context (E : env) `{!EnvOk E}.

Lemma wp_process_ack_established s i k ack window :
  inv s -> sockets s !! i = Some k -> state k = ESTABLISHED -> u32_ok ack -> u16_ok window ->
  wp (tcp_process_ack E i ack window)
    (fun r s' => r = 0 /\ inv s' /\ rx_blocks s' = rx_blocks s /\
       exists c, sockets s' = <[i := set_conn c k]> (sockets s) /\ rcv_nxt c = rcv_nxt (conn k)) s.
Proof.
  intros Hi Hk Hst Ha Hw. pose proof (sock_range _ _ _ Hi Hk) as Hlt.
  pose proof (safe_process_ack E i ack window Hlt Ha Hw s Hi) as Hsafe. revert Hsafe.
  unfold tcp_process_ack. rewrite !wp_bind, !wp_upd_sock.
  intros (k0 & Hk0 & Hsafe). rewrite Hk in Hk0. injection Hk0 as <-. exists k. split; [done|].
  set (k1 := on_conn _ k) in *. set (s1 := set_sockets _ s) in *.
  assert (Hk1 : sockets s1 !! i = Some k1) by (apply list_lookup_insert_eq; by eapply lookup_lt_Some).
  revert Hsafe. rewrite !wp_bind, !wp_read_sock. intros (k0 & Hk0 & Hsafe). rewrite Hk1 in Hk0. injection Hk0 as <-.
  exists k1. split; [done|]. revert Hsafe. case_if.
  - wp_steps. intros Hi1. split_and!; try done. exists (set_snd_wnd window (conn k)). done.
  - rewrite !wp_bind, !wp_upd_sock. intros (k0 & Hk0 & Hsafe). rewrite Hk1 in Hk0. injection Hk0 as <-.
    exists k1. split; [done|]. revert Hsafe. change (state k1) with (state k). rewrite Hst. wp_steps. intros Hi1.
    split_and!; try done. exists (set_snd_una ack (conn k1)). split; [|done].
    unfold s1. cbn [sockets set_sockets]. by rewrite list_insert_insert_eq.
Qed.

(** The flags of a segment with data. *)
Definition PSH_ACK : Z := Z.lor TCP_FLAG_PSH TCP_FLAG_ACK.

(** [tcp_rx] of a segment with data that the lookup gives to established socket [j]:
    accepted in sequence when it fits, counted but dropped when it does not fit,
    dropped when it is out of sequence. *)
Lemma wp_rx_data s j ka kb d data :
  inv s -> sock_typed ka -> sockets s !! j = Some kb -> state kb = ESTABLISHED ->
  find_from E (sockets s) 0 (remote_port ka) (remote_addr ka) (local_port ka) (local_addr ka) = Some j ->
  rx_data (rx_buffer kb) = Some d -> data_ready_callback kb = None -> Z.of_nat (length data) < 2 ^ 31 ->
  let seg := build_segment ka PSH_ACK data in
  wp (tcp_rx E (Some (mk_packet (seg_bytes seg) (Some (seg_src seg, seg_dst seg)))))
    (fun r s' => r = 0 /\ inv s' /\ idents s' = idents s /\ exists k', sockets s' !! j = Some k' /\
       state k' = ESTABLISHED /\ rx_data (rx_buffer k') = Some d /\ data_ready_callback k' = None /\
       if decide (snd_nxt (conn ka) = rcv_nxt (conn kb)) then
         rcv_nxt (conn k') = u32 (rcv_nxt (conn kb) + Z.of_nat (length data)) /\
         unread s' k' = (if decide (Z.of_nat (length (unread s kb) + length data) <= TCP_DEFAULT_BUFFER_SIZE)
                         then unread s kb ++ data else unread s kb)
       else rcv_nxt (conn k') = rcv_nxt (conn kb) /\ unread s' k' = unread s kb) s.
Proof.
  intros Hi Hty Hkb Hst Hfind Hd Hcb Hlen seg. eapply wp_run_eq.
  { apply (segment_parse E ka PSH_ACK data s Hty). by split; vm_compute. }
  unfold tcp_find_socket. rewrite wp_bind, wp_bind, wp_get. wp_steps. rewrite Hfind.
  unfold tcp_dispatch. change (has_flag PSH_ACK TCP_FLAG_RST) with false.
  change (has_flag PSH_ACK TCP_FLAG_SYN) with false. change (has_flag PSH_ACK TCP_FLAG_ACK) with true.
  change (has_flag PSH_ACK TCP_FLAG_FIN) with false. cbv iota.
  rewrite !wp_bind. eapply wp_mono.
  { apply (wp_process_ack_established s j kb); [done..| |apply u16_typed]. apply (ct_rcv _ (st_conn _ Hty)). }
  intros r1 s1 (-> & Hi1 & Hbl & c & Hs1 & Hc). wp_steps. cbv zeta.
  assert (Hk1 : sockets s1 !! j = Some (set_conn c kb)).
  { rewrite Hs1. apply list_lookup_insert_eq. by eapply lookup_lt_Some. }
  assert (Hid1 : idents s1 = idents s) by (unfold idents; rewrite Hs1; by apply (idents_insert _ _ kb)).
  assert (Hun : unread s1 (set_conn c kb) = unread s kb) by (unfold unread; by rewrite Hbl).
  destruct (Z.ltb_spec 0 (Z.of_nat (length data))).
  - rewrite ?wp_bind. eapply wp_mono.
    { apply (wp_process_data E s1 j (set_conn c kb) d); try done. }
    intros r2 s2 (Hi2 & Hid2 & k2 & Hk2 & Hst2 & Hd2 & Hcb2 & _ & Hres). wp_steps. cbn [conn set_conn] in Hres.
    rewrite Hun, Hc in Hres. split_and!; [done|done|congruence|]. exists k2.
    split_and!; [done|by rewrite Hst2|done|done|]. destruct (decide _); [|naive_solver].
    destruct Hres as [Hn Hres]. split; [done|]. destruct (decide _); naive_solver.
  - wp_steps. destruct data; [|simpl in *; lia]. cbn [length]. rewrite Nat.add_0_r, app_nil_r.
    split_and!; [done|done|done|]. exists (set_conn c kb). split_and!; [done|done|done|done|]. cbn [conn set_conn].
    rewrite Hun, Hc. pose proof (ct_rcv _ (st_conn _ (so_typed _ _ (ti_socks _ Hi _ _ Hkb)))) as Hr.
    change (Z.of_nat 0) with 0. rewrite Z.add_0_r, u32_small by done.
    repeat destruct (decide _); done.
Qed.

(** Socket [kb] is the other end of [ka], and expects its next byte. *)
Record peers (ka kb : tcp_socket) : Prop := {
  pe_state : state ka = ESTABLISHED /\ state kb = ESTABLISHED;
  pe_sync : rcv_nxt (conn kb) = snd_nxt (conn ka);
}.

(** C18. Data handed to [tcp_socket_send] on one host arrives at the other: the call
    returns the length, and the segment it sent, received by a host where the lookup
    finds the other end of the connection, is appended to what that end has to read,
    and both ends are in step again. This is for established sockets in step, IP
    taking the segment (it returns 0), no [sent_callback] on the sending and no
    [data_ready_callback] on the receiving socket, data of 1 to 2^31 - 1 bytes, and
    enough room in the receive buffer. *)
Theorem send_is_received sa sb i j ka kb d data :
  inv sa -> inv sb -> sockets sa !! i = Some ka -> sockets sb !! j = Some kb -> peers ka kb ->
  find_from E (sockets sb) 0 (remote_port ka) (remote_addr ka) (local_port ka) (local_addr ka) = Some j ->
  rx_data (rx_buffer kb) = Some d -> data_ready_callback kb = None -> sent_callback ka = None ->
  ip_tx E sa (build_segment ka (Z.lor TCP_FLAG_PSH TCP_FLAG_ACK) data) = Some 0 ->
  0 < Z.of_nat (length data) < 2 ^ 31 ->
  Z.of_nat (length (unread sb kb) + length data) <= TCP_DEFAULT_BUFFER_SIZE ->
  wp (tcp_socket_send E (Some i) (Some data))
    (fun n sa' => n = Z.of_nat (length data) /\ exists seg ka', sent sa' = seg :: sent sa /\ sockets sa' !! i = Some ka' /\
       wp (tcp_rx E (Some (mk_packet (seg_bytes seg) (Some (seg_src seg, seg_dst seg)))))
         (fun r sb' => r = 0 /\ inv sb' /\ exists kb', sockets sb' !! j = Some kb' /\
            unread sb' kb' = unread sb kb ++ data /\ peers ka' kb') sb) sa.
Proof.
  intros Hia Hib Hka Hkb [[Hsa Hsb] Hsync] Hfind Hd Hcb Hscb Htx Hlen Hfit.
  unfold tcp_socket_send. rewrite wp_bind, wp_read_sock. exists ka. split; [done|].
  rewrite Hsa. change (in_state ESTABLISHED ESTABLISHED) with true. cbn [negb]. cbv zeta.
  rewrite wp_bind. eapply wp_mono; [apply (wp_send_segment E sa i ka); (done || lia)|].
  intros r sa' [_ Hres]. rewrite Htx in Hres. destruct Hres as (-> & Hsent & Hia' & Hsocks).
  set (seg := build_segment ka _ data) in *. set (ka' := on_conn _ ka) in *.
  assert (Hka' : sockets sa' !! i = Some ka').
  { rewrite Hsocks. apply list_lookup_insert_eq. by eapply lookup_lt_Some. }
  rewrite wp_bind. change (0 =? 0) with true. cbn [negb]. unfold notify. rewrite wp_bind, wp_read_sock.
  exists ka'. split; [done|]. change (sent_callback ka') with (sent_callback ka). rewrite Hscb. wp_steps.
  rewrite to_int_small by lia. split; [done|]. exists seg, ka'. split_and!; [done|done|].
  pose proof (so_typed _ _ (ti_socks _ Hia _ _ Hka)) as Hty.
  eapply wp_mono; [apply (wp_rx_data sb j ka kb d data); (done || lia)|].
  intros r1 sb1 (-> & Hib1 & _ & k2 & Hk2 & Hst2 & _ & _ & Hres).
  rewrite !decide_True in Hres by done. destruct Hres as [Hn Hu].
  split_and!; try done. exists k2. split_and!; [done|done|]. split; [done|].
  rewrite Hn, Hsync. unfold ka', on_conn, advance.
  change (has_flag (Z.lor TCP_FLAG_PSH TCP_FLAG_ACK) TCP_FLAG_SYN) with false.
  change (has_flag (Z.lor TCP_FLAG_PSH TCP_FLAG_ACK) TCP_FLAG_FIN) with false.
  destruct (Z.ltb_spec 0 (Z.of_nat (length data))); [done|lia].
Qed.

End Deliver.

(** *** A connection between two hosts, for examples *)

Definition deliver (seg : segment) : option packet :=
  Some (mk_packet (seg_bytes seg) (Some (seg_src seg, seg_dst seg))).
Definition last_sent (s : tcp) : segment := hd (mk_segment [] [] []) (sent s).

Definition client_calls : list call :=
  [CCreate (Some [10; 0; 0; 2]) 50000; CConnect (Some 0%nat) (Some [10; 0; 0; 1]) 80].
Definition client1 : tcp := after (tcp_init 7 ;;; mfor client_calls (run_call reading_env)) boot_state.
Definition server1 : tcp := after (tcp_rx reading_env (deliver (last_sent client1))) server.
Definition client2 : tcp := after (tcp_rx reading_env (deliver (last_sent server1))) client1.
Definition server2 : tcp := after (tcp_socket_accept (Some 0%nat)) server1.

Lemma addr_ok a b c d : 0 <= a < 256 -> 0 <= b < 256 -> 0 <= c < 256 -> 0 <= d < 256 -> addr4_ok [a; b; c; d].
Proof. intros. split; [done|]. repeat constructor; lia. Qed.

Lemma client1_inv : inv client1.
Proof.
  apply inv_after; [|apply boot_inv, boot_state_boot]. apply safe_bind; [apply safe_init|intros _].
  apply safe_mfor. intros c Hc. apply (safe_run_call reading_env).
  apply list_elem_of_In in Hc. destruct Hc as [<-|[<-|[]]]; cbn [call_ok].
  - split; [|done]. intros ? [= <-]. apply addr_ok; lia.
  - split_and!; [|intros ? [= <-]; apply addr_ok; lia|done]. intros ? [= <-]. unfold TCP_MAX_SOCKETS. lia.
Qed.

Lemma deliver_inv s seg :
  inv s -> Ip.bytes_ok (seg_bytes seg) -> Z.of_nat (length (seg_bytes seg)) < 2 ^ 31 ->
  addr4_ok (seg_src seg) -> addr4_ok (seg_dst seg) -> inv (after (tcp_rx reading_env (deliver seg)) s).
Proof.
  intros Hi Hb Hl Hs Hd. apply inv_after; [|done]. apply (safe_rx reading_env). intros ? [= <-].
  split; [done|]. split; [done|]. eauto.
Qed.

Ltac concrete_segment :=
  apply deliver_inv; [|vm_compute; repeat constructor; discriminate|vm_compute; reflexivity
                      |vm_compute; split; [reflexivity|]; repeat constructor; discriminate
                      |vm_compute; split; [reflexivity|]; repeat constructor; discriminate].

Lemma server1_inv : inv server1.
Proof. concrete_segment. apply server_inv. Qed.
Lemma client2_inv : inv client2.
Proof. concrete_segment. apply client1_inv. Qed.
Lemma server2_inv : inv server2.
Proof.
  apply inv_after; [|apply server1_inv]. apply safe_accept. intros ? [= <-]. unfold TCP_MAX_SOCKETS. lia.
Qed.

Definition no_socket : tcp_socket := zero_socket.
Definition ka_ex : tcp_socket := Eval vm_compute in nth 1 (sockets server2) no_socket.
Definition kb_ex : tcp_socket := Eval vm_compute in nth 0 (sockets client2) no_socket.

Lemma send_is_received_witness :
  wp (tcp_socket_send reading_env (Some 1%nat) (Some [104; 105]))
    (fun n sa' => n = 2 /\ exists seg ka', sent sa' = seg :: sent server2 /\ sockets sa' !! 1%nat = Some ka' /\
       wp (tcp_rx reading_env (deliver seg))
         (fun r sb' => r = 0 /\ inv sb' /\ exists kb', sockets sb' !! 0%nat = Some kb' /\
            unread sb' kb' = unread client2 kb_ex ++ [104; 105] /\ peers ka' kb') client2) server2.
Proof.
  apply (send_is_received reading_env server2 client2 1%nat 0%nat ka_ex kb_ex 2%positive [104; 105]).
  - apply server2_inv.
  - apply client2_inv.
  - vm_compute. reflexivity.
  - vm_compute. reflexivity.
  - split; [split; reflexivity|reflexivity].
  - vm_compute. reflexivity.
  - reflexivity.
  - reflexivity.
  - reflexivity.
  - reflexivity.
  - cbn. lia.
  - vm_compute. discriminate.
Defined.

(** ** The stream *)

Section Stream.
Context (E : env) `{!EnvOk E}.
(** What the peer writes, and the sequence number of its first byte. *)
Context (stream : list Z) (isn : Z).
(** The peer's socket: its addresses and ports are those of every segment. *)
Context (peer : tcp_socket) (Hpeer : sock_typed peer).

(** A segment of the stream arrives (again, early or late), with some
    acknowledgment number and window, or the application reads. *)
Inductive event : Type :=
| Arrive (off len : nat) (ack wnd : Z)
| Read (n : Z).

Definition slice (off len : nat) : list Z := take len (drop off stream).

(** The peer as it sends the byte at [off]. *)
Definition peer_at (off : nat) (ack wnd : Z) : tcp_socket :=
  on_conn (fun c => set_rcv_wnd wnd (set_rcv_nxt ack (set_snd_nxt (u32 (isn + Z.of_nat off)) c))) peer.

Definition arriving (off len : nat) (ack wnd : Z) : packet :=
  let seg := build_segment (peer_at off ack wnd) PSH_ACK (slice off len) in
  mk_packet (seg_bytes seg) (Some (seg_src seg, seg_dst seg)).

Definition run_event (i : nat) (ev : event) : M tcp (list Z) :=
  match ev with
  | Arrive off len ack wnd => _r <- tcp_rx E (Some (arriving off len ack wnd)) ;; ret []
  | Read n => r <- tcp_socket_recv (Some i) true n ;; ret r.2
  end.

Fixpoint run_events (i : nat) (evs : list event) : M tcp (list Z) :=
  match evs with
  | [] => ret []
  | ev :: evs' => a <- run_event i ev ;; b <- run_events i evs' ;; ret (a ++ b)
  end.

(** The receiver as two positions in the stream: [m] bytes accepted, [r] read.
    [None] when a segment in sequence does not fit the buffer. *)
Fixpoint receiver (evs : list event) (m r : nat) : option (nat * nat) :=
  match evs with
  | [] => Some (m, r)
  | Arrive off len _ _ :: evs' =>
      if decide (off = m) then
        if decide (Z.of_nat (m - r + length (slice off len)) <= TCP_DEFAULT_BUFFER_SIZE)
        then receiver evs' (m + length (slice off len))%nat r else None
      else receiver evs' m r
  | Read n :: evs' => receiver evs' m (Nat.min (r + Z.to_nat n) m)
  end.

Definition event_ok (ev : event) : Prop :=
  match ev with
  | Arrive off _ ack wnd => (off <= length stream)%nat /\ u32_ok ack /\ u16_ok wnd
  | Read n => u32_ok n
  end.

(** The lookup gives the peer's segments to socket [i], which is established, has
    no [data_ready_callback] and stands for positions [m] and [r]. *)
Record at_position (s : tcp) (i m r : nat) : Prop := {
  ap_inv : inv s;
  ap_range : (r <= m <= length stream)%nat;
  ap_found : find_from E (sockets s) 0 (remote_port peer) (remote_addr peer) (local_port peer) (local_addr peer) = Some i;
  ap_sock : exists k d, sockets s !! i = Some k /\ state k = ESTABLISHED /\ rx_data (rx_buffer k) = Some d /\
    data_ready_callback k = None /\ rcv_nxt (conn k) = u32 (isn + Z.of_nat m) /\
    unread s k = drop r (take m stream);
}.

Lemma slice_next m r len : (r <= m <= length stream)%nat ->
  drop r (take m stream) ++ slice m len = drop r (take (m + length (slice m len)) stream).
Proof.
  intros Hm. unfold slice. rewrite length_take, length_drop.
  rewrite <- (take_drop m stream) at 4. rewrite take_app, length_take, (Nat.min_l m) by lia.
  rewrite (take_ge (take m stream)) by (rewrite length_take; lia).
  rewrite drop_app_le by (rewrite length_take; lia). f_equal.
  replace (m + _ - m)%nat with (len `min` (length stream - m))%nat by lia.
  destruct (decide (len <= length stream - m)%nat).
  - by rewrite Nat.min_l by lia.
  - rewrite Nat.min_r by lia. rewrite !take_ge; [done|rewrite length_drop; lia..].
Qed.

Lemma unread_length m r : (r <= m <= length stream)%nat -> length (drop r (take m stream)) = (m - r)%nat.
Proof. intros. rewrite length_drop, length_take. lia. Qed.

Lemma seq_distinct m off : Z.of_nat (length stream) < 2 ^ 31 -> (m <= length stream)%nat -> (off <= length stream)%nat ->
  u32 (isn + Z.of_nat off) = u32 (isn + Z.of_nat m) -> off = m.
Proof.
  unfold u32. intros Hl Hm Ho He.
  pose proof (Z.div_mod (isn + Z.of_nat off) (2 ^ 32)). pose proof (Z.div_mod (isn + Z.of_nat m) (2 ^ 32)).
  pose proof (Z.mod_pos_bound (isn + Z.of_nat off) (2 ^ 32)). lia.
Qed.

Lemma peer_at_typed off ack wnd : u32_ok ack -> u16_ok wnd -> sock_typed (peer_at off ack wnd).
Proof.
  intros Ha Hw. destruct Hpeer as [H1 H2 H3 H4 H5 Hc]. split; try done. destruct Hc. split; try done; [apply u32_typed|].
  unfold u32_ok, u16_ok in *. cbn. lia.
Qed.

Lemma arrive_step s i m r off len ack wnd m' r' :
  Z.of_nat (length stream) < 2 ^ 31 -> at_position s i m r -> event_ok (Arrive off len ack wnd) ->
  receiver [Arrive off len ack wnd] m r = Some (m', r') ->
  wp (run_event i (Arrive off len ack wnd)) (fun got s' => at_position s' i m' r' /\ got = []) s.
Proof.
  intros Hlen [Hi Hrange Hfind (k & d & Hk & Hst & Hd & Hcb & Hrcv & Hu)] (Hok & Hack & Hwnd) Hrec. cbn [run_event].
  assert (Hsl : (length (slice off len) <= length stream - off)%nat).
  { unfold slice. rewrite length_take, length_drop. lia. }
  rewrite wp_bind. eapply wp_mono.
  { apply (wp_rx_data E s i (peer_at off ack wnd) k d (slice off len)); try done; [by apply peer_at_typed|lia]. }
  intros w s' (_ & Hi' & Hid & k' & Hk' & Hst' & Hd' & Hcb' & Hres). wp_steps. split; [|done].
  rewrite <- (find_from_ident E _ (sockets s)) in Hfind by (by apply Hid).
  cbn [receiver] in Hrec. change (snd_nxt (conn (peer_at off ack wnd))) with (u32 (isn + Z.of_nat off)) in Hres.
  rewrite Hrcv in Hres. destruct (decide (off = m)) as [->|Hne].
  - rewrite decide_True in Hres by done. destruct Hres as [Hn Hres].
    rewrite Hu, unread_length in Hres by done.
    destruct (decide _); [|done]. injection Hrec as <- <-.
    split; [done|lia|done|]. exists k', d. split_and!; try done; [|by rewrite Hres, slice_next].
    rewrite Hn. unfold u32. rewrite Zplus_mod_idemp_l. f_equal. lia.
  - rewrite decide_False in Hres.
    2: { intros He. apply Hne. apply (seq_distinct m off); (done || lia). }
    destruct Hres as (Hn & Hu'). injection Hrec as <- <-.
    split; [done|lia|done|]. exists k', d. split_and!; congruence.
Qed.

Lemma read_step s i m r n :
  at_position s i m r -> u32_ok n ->
  wp (run_event i (Read n))
    (fun got s' => at_position s' i m (Nat.min (r + Z.to_nat n) m) /\ got = take (Z.to_nat n) (drop r (take m stream))) s.
Proof.
  intros [Hi Hrange Hfind (k & d & Hk & Hst & Hd & Hcb & Hrcv & Hu)] Hn. cbn [run_event]. unfold tcp_socket_recv.
  rewrite wp_bind, wp_bind, wp_read_sock. exists k. split; [done|]. rewrite Hst. cbn [in_state].
  change (in_state ESTABLISHED ESTABLISHED) with true. cbn [negb andb].
  eapply wp_mono; [by apply (wp_buffer_read s i k)|].
  intros w s' (Hi' & _ & Hb & _ & Hres). rewrite Hd in Hres. destruct Hres as (-> & b & Hs & Hbd & Hu').
  wp_steps. cbn [snd]. rewrite Hu in *. split; [|done]. split; [done|lia|rewrite <- Hfind, Hs; apply find_from_ident; by apply (idents_insert _ _ k)|].
  exists (set_rx_buffer b k), d. rewrite Hs. split_and!; try done.
  - apply list_lookup_insert_eq. by eapply lookup_lt_Some.
  - unfold unread. cbn [rx_buffer set_rx_buffer]. rewrite Hu', drop_drop.
    destruct (decide (r + Z.to_nat n <= m)%nat).
    + by rewrite Nat.min_l by lia.
    + rewrite Nat.min_r by lia. rewrite !drop_ge; [done|rewrite length_take; lia..].
Qed.

Lemma receiver_cons ev evs m r x :
  receiver (ev :: evs) m r = Some x ->
  exists m' r', receiver [ev] m r = Some (m', r') /\ receiver evs m' r' = Some x.
Proof.
  destruct ev as [off len ack wnd|n]; cbn [receiver]; [|eauto].
  destruct (decide (off = m)); [|eauto]. destruct (decide _); [eauto|done].
Qed.

Lemma receiver_mono evs m r m' r' : (r <= m)%nat -> receiver evs m r = Some (m', r') -> (r <= r' /\ r' <= m')%nat.
Proof.
  revert m r. induction evs as [|[off len ack wnd|n] evs IH]; intros m r Hle; cbn [receiver].
  - intros [= <- <-]. lia.
  - repeat case_decide; [|done|]; intros H2%IH; lia.
  - intros H2%IH; lia.
Qed.

Lemma run_events_spec i evs : Z.of_nat (length stream) < 2 ^ 31 -> forall s m r m' r',
  at_position s i m r -> Forall event_ok evs -> receiver evs m r = Some (m', r') ->
  wp (run_events i evs) (fun got s' => at_position s' i m' r' /\ got = drop r (take r' stream)) s.
Proof.
  intros Hlen. induction evs as [|ev evs IH]; intros s m r m' r' Hat Hok Hrec.
  - injection Hrec as <- <-. cbn [run_events]. wp_steps. split; [done|].
    by rewrite drop_ge by (rewrite length_take; lia).
  - apply Forall_cons in Hok as [Hev Hok]. destruct (receiver_cons _ _ _ _ _ Hrec) as (m1 & r1 & H1 & H2).
    pose proof (ap_range _ _ _ _ Hat) as Hr.
    assert (Hstep : wp (run_event i ev)
      (fun got s1 => at_position s1 i m1 r1 /\ got = drop r (take r1 stream)) s).
    { destruct ev as [off len ack wnd|n].
      - eapply wp_mono; [by apply (arrive_step s i m r off len ack wnd m1 r1)|]. intros got s1 [Hat1 ->]. split; [done|].
        assert (r1 = r) as ->.
        { cbn [receiver] in H1. repeat case_decide; naive_solver. }
        by rewrite drop_ge by (rewrite length_take; lia).
      - injection H1 as <- <-. eapply wp_mono; [by apply (read_step s i m r)|]. intros got s1 [Hat1 ->]. split; [done|].
        destruct (decide (r + Z.to_nat n <= m)%nat).
        + rewrite Nat.min_l by lia. rewrite take_drop_commute, take_take, Nat.min_l by lia. done.
        + rewrite Nat.min_r by lia. rewrite take_ge; [done|]. rewrite unread_length by lia. lia. }
    cbn [run_events]. rewrite wp_bind. eapply wp_mono; [exact Hstep|]. intros got s1 [Hat1 ->].
    rewrite wp_bind. eapply wp_mono; [by apply (IH s1 m1 r1 m' r')|]. intros got2 s2 [Hat2 ->]. wp_steps.
    split; [done|]. pose proof (ap_range _ _ _ _ Hat1). pose proof (ap_range _ _ _ _ Hat2).
    destruct (receiver_mono _ _ _ _ _ (proj1 (ap_range _ _ _ _ Hat1)) H2).
    destruct (receiver_mono _ _ _ _ _ (proj1 (ap_range _ _ _ _ Hat)) H1).
    rewrite <- (take_drop r1 (take r' stream)) at 2. rewrite take_take, Nat.min_l by lia.
    rewrite drop_app_le by (rewrite length_take; lia). done.
Qed.

(** C10. An established connection delivers the stream of its peer. Segments of the
    stream, as the peer builds them, are handed to [tcp_rx] in any order, early, late
    or repeated, between reads of any size; as long as no segment in sequence
    overflows the buffer, all calls return, the bytes read are exactly the first [r]
    of the stream and those waiting to be read the next ones up to position [m],
    where [m] and [r] are the positions of the abstract receiver, which accepts a
    segment when it starts where the last one ended. This is for a socket that the
    lookup of [tcp_rx] finds for the peer's ports and addresses (a connection
    accepted behind its listening socket is not found), without a
    [data_ready_callback], and a stream shorter than 2^31 bytes. *)
Theorem stream_in_order i evs s m r :
  Z.of_nat (length stream) < 2 ^ 31 -> at_position s i 0 0 -> Forall event_ok evs ->
  receiver evs 0 0 = Some (m, r) ->
  wp (run_events i evs)
    (fun got s' => got = take r stream /\ inv s' /\ exists k, sockets s' !! i = Some k /\
       unread s' k = drop r (take m stream) /\ rcv_nxt (conn k) = u32 (isn + Z.of_nat m)) s.
Proof.
  intros Hlen Hat Hok Hrec. eapply wp_mono; [by apply (run_events_spec i evs Hlen s 0 0 m r)|].
  intros got s' [[Hi Hr _ (k & d & Hk & _ & _ & _ & Hn & Hu)] ->]. split; [by rewrite drop_0|]. eauto.
Qed.

End Stream.

(** The connected client of the example reads what the server sends. *)
Lemma stream_in_order_witness :
  wp (run_events reading_env [1; 2; 3; 4; 5] 16909061 ka_ex 0%nat
        [Arrive 3 2 7 100; Arrive 0 3 7 100; Read 2; Arrive 0 3 7 100; Arrive 3 2 7 100])
    (fun got s' => got = [1; 2] /\ inv s' /\ exists k, sockets s' !! 0%nat = Some k /\
       unread s' k = [3; 4; 5] /\ rcv_nxt (conn k) = 16909066) client2.
Proof.
  apply (stream_in_order reading_env [1; 2; 3; 4; 5] 16909061 ka_ex) with (m := 5%nat) (r := 2%nat).
  - apply (so_typed server2 ka_ex), (ti_socks _ server2_inv 1%nat). vm_compute. reflexivity.
  - done.
  - split; [apply client2_inv|cbn; lia|vm_compute; reflexivity|]. do 2 eexists. split_and!; vm_compute; reflexivity.
  - rewrite !Forall_cons. split_and!; cbn; try (by apply Forall_nil); try (unfold u32_ok); try (unfold u16_ok); lia.
  - vm_compute. reflexivity.
Defined.

(** ** Where connections go wrong *)

Section Deviations.
Context (E : env) `{!EnvOk E}.

(** A listening socket that a segment to this port and address matches. *)
Definition listens (lport : Z) (laddr : list Z) (k : tcp_socket) : Prop :=
  state k = LISTEN /\ local_port k = lport /\ (ip_addr_is_any E (local_addr k) = true \/ local_addr k = laddr).

Lemma find_from_listener ks : forall n lp la rp ra i k,
  ks !! i = Some k -> listens lp la k ->
  exists i', find_from E ks n lp la rp ra = Some i' /\ (i' <= n + i)%nat.
Proof.
  induction ks as [|k0 ks IH]; intros n lp la rp ra i k Hk Hl; [done|]. cbn [find_from].
  assert (Hc : forall P : Prop, (P -> (i <> 0)%nat) -> P ->
    exists i', find_from E ks (S n) lp la rp ra = Some i' /\ (i' <= n + i)%nat).
  { intros P HP Hp. specialize (HP Hp). destruct i as [|i]; [done|].
    destruct (IH (S n) lp la rp ra i k Hk Hl) as (i' & Hf & Hle). exists i'. split; [done|lia]. }
  unfold in_state, Ip.ip_addr_cmp. case_bool_decide as H1.
  { apply (Hc True); [|done]. intros _ ->. injection Hk as ->. destruct Hl as [Hl _]. congruence. }
  destruct (_ && _ && _ && _ && _); [exists n; split; [done|lia]|].
  destruct (bool_decide (state k0 = LISTEN) && (local_port k0 =? lp)) eqn:H2.
  - destruct (negb (ip_addr_is_any E (local_addr k0)) && _) eqn:H3; [|exists n; split; [done|lia]].
    apply (Hc True); [|done]. intros _ ->. injection Hk as ->. destruct Hl as (_ & _ & [Ha|Ha]); bools.
    + congruence.
    + match goal with H : bool_decide (local_addr _ = _) = false |- _ => by apply bool_decide_eq_false in H end.
  - apply (Hc True); [|done]. intros _ ->. injection Hk as ->. destruct Hl as (Hl & Hp & _).
    rewrite bool_decide_true in H2 by done. rewrite Hp, Z.eqb_refl in H2. done.
Qed.

(** A listening socket hides the connections of its port that come after it in
    the table: for every remote end, the lookup of a segment to that port and address
    stops at the listening socket or before it, and never reaches socket [j]. A
    connection accepted into a later slot gets none of the segments of its peer. *)
Theorem listener_hides_connections s i j k lport laddr rport raddr :
  sockets s !! i = Some k -> listens lport laddr k -> (i < j)%nat ->
  wp (tcp_find_socket E lport laddr rport raddr)
    (fun p s' => s' = s /\ exists i', p = Some i' /\ (i' <= i)%nat /\ i' <> j) s.
Proof.
  intros Hk Hl Hlt. unfold tcp_find_socket. wp_steps.
  destruct (find_from_listener _ 0 lport laddr rport raddr i k Hk Hl) as (i' & Hf & Hle).
  split; [done|]. exists i'. split; [done|]. lia.
Qed.

(** A segment in sequence that does not fit the receive buffer is dropped, but
    counted as received: its bytes do not reach the application, the next expected
    number moves past them, so the next acknowledgment confirms them, and when the
    peer sends the segment again it is refused as out of sequence. *)
Theorem overflow_loses_bytes s i k d data :
  inv s -> sockets s !! i = Some k -> rx_data (rx_buffer k) = Some d -> data_ready_callback k = None ->
  0 < Z.of_nat (length data) < 2 ^ 31 ->
  TCP_DEFAULT_BUFFER_SIZE < Z.of_nat (length (unread s k) + length data) ->
  let seq := rcv_nxt (conn k) in
  wp (_r <- tcp_process_data E i data seq ;; tcp_process_data E i data seq)
    (fun r s' => r = -1 /\ exists k', sockets s' !! i = Some k' /\ unread s' k' = unread s k /\
       rcv_nxt (conn k') = u32 (seq + Z.of_nat (length data))) s.
Proof.
  intros Hi Hk Hd Hcb Hlen Hover seq. unfold seq.
  rewrite wp_bind. eapply wp_mono; [apply (wp_process_data E s i k d); (done || lia)|].
  intros r1 s1 (Hi1 & _ & k1 & Hk1 & _ & Hd1 & Hcb1 & _ & Hres). rewrite decide_True in Hres by done.
  destruct Hres as [Hn Hres]. rewrite decide_False in Hres by lia. destruct Hres as [_ Hu].
  eapply wp_mono; [apply (wp_process_data E s1 i k1 d); (done || lia)|].
  intros r2 s2 (Hi2 & _ & k2 & Hk2 & _ & _ & _ & _ & Hres). rewrite decide_False in Hres.
  - destruct Hres as (-> & Hn2 & Hu2). split; [done|]. exists k2. split_and!; congruence.
  - rewrite Hn. intros He. pose proof (ct_rcv _ (st_conn _ (so_typed _ _ (ti_socks _ Hi _ _ Hk)))) as Hr.
    unfold u32, u32_ok in *. set (x := rcv_nxt (conn k)) in *.
    pose proof (Z.div_mod (x + Z.of_nat (length data)) (2 ^ 32)). lia.
Qed.

(** The port [tcp_get_free_port] answers is not used by any open socket, and is
    found among the first seventeen that follow the last one given out, as integers
    modulo 2^16: sixteen sockets cannot use more. So the loop ends, and the answer 0
    that callers take for failure comes up only when the search runs past port 65535
    (the wrap-around test [++port > 65535] never holds of a [uint16_t]). *)
Theorem free_port_found s :
  inv s ->
  wp tcp_get_free_port
    (fun r s' => port_in_use (sockets s) r = false /\
       (exists n, (n <= 16)%nat /\ r = u16 (Ports.first_port (last_dynamic_port s) + Z.of_nat n)) /\
       (r = 0 -> 65520 <= Ports.first_port (last_dynamic_port s)) /\ sockets s' = sockets s) s.
Proof.
  intros Hi. eapply wp_mono; [by apply wp_get_free_port|]. intros r s' (-> & n & Hn & Hr & Hfree).
  split_and!; [done|eauto| |done]. intros H0. unfold Ports.port_after in Hr. rewrite H0 in Hr.
  pose proof (Ports.first_port_range _ (ti_port _ Hi)) as Hf. unfold u16 in Hr.
  destruct (Z_lt_le_dec (Ports.first_port (last_dynamic_port s)) 65520); [|done].
  rewrite Z.mod_small in Hr by lia. lia.
Qed.

End Deviations.

(** *** Sockets that are created but not yet used *)

Lemma find_closed_states ks ks' n : state <$> ks = state <$> ks' -> find_closed ks n = find_closed ks' n.
Proof.
  revert ks' n. induction ks as [|k ks IH]; intros [|k' ks'] n H; try done. injection H as Hs H.
  cbn [find_closed]. rewrite Hs. case_if; [done|]. by apply IH.
Qed.

Lemma keeps_get_put {A} (f : tcp -> tcp) (K : tcp -> M tcp A) :
  (forall s, sockets (f s) = sockets s) -> (forall s, keeps (K s)) -> keeps (s <- get ;; put (f s) ;;; K s).
Proof.
  intros Hf HK s a s' (s1 & s2 & [= <- <-] & H)%bind_inv. apply bind_inv in H as ([] & s2 & [= <-] & H).
  apply HK in H. unfold states in *. by rewrite H, Hf.
Qed.

Lemma keeps_free_port : keeps tcp_get_free_port.
Proof.
  unfold tcp_get_free_port. cbv zeta. apply keeps_get_put; [done|]. intros s.
  destruct (Ports.port_loop _ _ _ _); [apply keeps_ret|done].
Qed.

Section Create.
Context (E : env).

Lemma create_run laddr lport s r s' :
  tcp_socket_create E laddr lport s = Ret (r, s') ->
  states s' = states s /\ (r = None \/ r = find_closed (sockets s) 0).
Proof.
  unfold tcp_socket_create. intros (s0 & s1 & [= <- <-] & H)%bind_inv.
  destruct (find_closed (sockets s) 0) as [i|] eqn:Ei; [|injection H as <- <-; auto].
  destruct (find_closed_at _ _ Ei) as (k & Hk & Hc).
  apply bind_inv in H as ([] & s1 & H1 & H). apply (upd_state_run _ _ CLOSED) in H1; [|done].
  rewrite list_insert_id in H1 by (unfold states; rewrite list_lookup_fmap, Hk; cbn; by rewrite Hc).
  rewrite <- H1. apply bind_inv in H as (ok & s2 & H2 & H).
  assert (Hok : states s2 = states s1).
  { revert H2. case_if.
    - apply keeps_get. intros s3. case_if; [apply keeps_ret|]. auto with keeps.
    - apply keeps_bind; [apply keeps_free_port|]. auto with keeps. }
  rewrite <- Hok. destruct ok; cbn [negb] in H; [|injection H as <- <-; auto].
  apply bind_inv in H as ([] & s3 & H3 & H). apply keeps_upd in H3; [|done].
  apply bind_inv in H as (c & s4 & H4%keeps_buffer_init & H). rewrite H3 in H4.
  destruct (negb _); injection H as <- <-; auto.
Qed.

(** [tcp_socket_create] leaves the socket it returns in state [CLOSED], which is
    what a free slot looks like: until the socket is connected or listens, a second
    call can return no socket but the same one, which it clears first. *)
Theorem create_returns_same_socket a p a' p' s i s1 r s2 :
  tcp_socket_create E a p s = Ret (Some i, s1) ->
  tcp_socket_create E a' p' s1 = Ret (r, s2) ->
  r = None \/ r = Some i.
Proof.
  intros [Hst [?|Hi]]%create_run [_ [->| ->]]%create_run; [done|done|by left|right].
  rewrite Hi. by apply find_closed_states.
Qed.

End Create.

(** *** Stale TIME_WAIT slots *)

Lemma wp_mfor_app {S A} (l1 l2 : list A) (body : A -> M S unit) Q s :
  wp (mfor (l1 ++ l2) body) Q s <-> wp (mfor l1 body) (fun _ s' => wp (mfor l2 body) Q s') s.
Proof.
  revert s. induction l1 as [|a l1 IH]; intros s; cbn [mfor app]; [done|]. rewrite !wp_bind.
  unfold wp. destruct (body a s) as [[x s']| |]; [|done..]. apply IH.
Qed.

Section TimeWait.
Context (E : env) `{!EnvOk E} `{!QuietCallbacks E}.

(** Expiry of slot [m] closes at most a socket, and changes no other slot. *)
Lemma wp_expire s t m :
  inv s -> (m < TCP_MAX_TIME_WAIT_SOCKETS)%nat ->
  wp (expire_time_wait t m)
    (fun _ s' => inv s' /\ (forall n, n <> m -> time_waits s' !! n = time_waits s !! n) /\
       (forall i, states s !! i = Some CLOSED -> states s' !! i = Some CLOSED) /\
       (forall w i, time_waits s !! m = Some w -> tw_socket w = Some i -> duration w <= u32 (t - start_time w) ->
          states s' !! i = Some CLOSED)) s.
Proof.
  intros Hi Hm. pose proof (safe_expire t m Hm s Hi) as Hsafe. revert Hsafe. unfold expire_time_wait.
  rewrite !wp_bind, !wp_get, !wp_bind, !wp_deref. intros (w & Hw & Hsafe). exists w. split; [done|].
  destruct (tw_socket w) as [i|] eqn:Ew.
  2: { wp_steps. split_and!; try done. intros w' i Hw' Hs. congruence. }
  revert Hsafe. destruct (Z.leb_spec (duration w) (u32 (t - start_time w))).
  2: { wp_steps. intros _. split_and!; try done. intros w' i' Hw' Hs Hd. simplify_eq. lia. }
  rewrite !wp_bind, !wp_upd_sock. intros (k & Hk & Hsafe). exists k. split; [done|]. revert Hsafe. wp_steps.
  intros Hi'.
  assert (Hcl : states (set_sockets (<[i := set_state CLOSED k]> (sockets s)) s) = <[i := CLOSED]> (states s)).
  { unfold states. cbn. by rewrite list_fmap_insert. }
  assert (Hlt : (i < length (states s))%nat).
  { unfold states. rewrite length_fmap. by eapply lookup_lt_Some. }
  split_and!; [done| | |].
  - intros n Hne. cbn. by rewrite list_lookup_insert_ne.
  - intros j Hj. unfold states in *. cbn in *. rewrite Hcl. destruct (decide (i = j)) as [->|].
    + by rewrite list_lookup_insert_eq.
    + by rewrite list_lookup_insert_ne.
  - intros w' i' Hw' Hs _. assert (i' = i) as -> by congruence. unfold states in *. cbn in *. rewrite Hcl.
    by rewrite list_lookup_insert_eq.
Qed.

(** The retransmission loop closes sockets and does nothing else to states. *)
Lemma retransmit_closed msec j i :
  (j < TCP_MAX_SOCKETS)%nat -> forall s, inv s -> states s !! i = Some CLOSED ->
  wp (retransmit_socket E msec j) (fun _ s' => inv s' /\ states s' !! i = Some CLOSED) s.
Proof.
  intros Hj s Hi Hc. destruct (wp_returns _ _ _ (safe_retransmit E msec j Hj s Hi)) as ([] & s' & Hrun & Hi').
  unfold wp. rewrite Hrun. split; [done|]. revert Hrun. unfold retransmit_socket.
  intros (k & s1 & H1%keeps_read & H)%bind_inv. rewrite <- H1 in Hc.
  assert (Hkeep : forall (m : M tcp unit), keeps m -> m s1 = Ret (tt, s') -> states s' !! i = Some CLOSED).
  { intros m Hm Hr. by rewrite (Hm _ _ _ Hr). }
  revert H. cbv zeta. repeat case_if; try (apply Hkeep; by auto with keeps).
  intros ([] & s2 & H2 & H3%keeps_notify)%bind_inv; [|done]. apply (upd_state_run _ _ CLOSED) in H2; [|done].
  rewrite H3, H2. destruct (decide (i = j)) as [->|].
  - apply list_lookup_insert_eq. by eapply lookup_lt_Some.
  - by rewrite list_lookup_insert_ne.
Qed.

(** [tcp_timer] closes the socket that an expired [TIME_WAIT] slot names, in
    whatever state that socket is. Slots are released only by expiry, not when the
    socket is reset and its place in the table given to another connection, so an
    established connection can be closed in the name of one long gone. *)
Theorem time_wait_closes_any_state s n w i msec :
  inv s -> time_waits s !! n = Some w -> tw_socket w = Some i ->
  duration w <= u32 (now s - start_time w) ->
  wp (tcp_timer E msec) (fun _ s' => inv s' /\ states s' !! i = Some CLOSED) s.
Proof.
  intros Hi Hw Hs Hd. unfold tcp_timer. rewrite wp_bind, wp_get, wp_bind.
  assert (Hn : (n < TCP_MAX_TIME_WAIT_SOCKETS)%nat) by (rewrite <- (ti_tw_len _ Hi); by eapply lookup_lt_Some).
  replace (seq 0 TCP_MAX_TIME_WAIT_SOCKETS) with (seq 0 n ++ n :: seq (S n) (31 - n)).
  2: { change (n :: seq (S n) (31 - n)) with (seq n (S (31 - n))). rewrite <- seq_app. f_equal.
       unfold TCP_MAX_TIME_WAIT_SOCKETS in *. lia. }
  apply wp_mfor_app. eapply wp_mono.
  { apply (wp_mfor (fun s' => inv s' /\ time_waits s' !! n = Some w)); [|done].
    intros m s1 Hm%elem_of_seq [Hi1 Hw1]. eapply wp_mono; [apply wp_expire; [done|unfold TCP_MAX_TIME_WAIT_SOCKETS in *; lia]|].
    intros _ s2 (Hi2 & Ho & _). split; [done|]. rewrite Ho by lia. done. }
  intros [] s1 [Hi1 Hw1]. cbn [mfor]. rewrite wp_bind. eapply wp_mono; [by apply wp_expire|].
  intros [] s2 (Hi2 & _ & _ & Hclosed). specialize (Hclosed w i Hw1 Hs Hd).
  eapply wp_mono.
  { apply (wp_mfor (fun s' => inv s' /\ states s' !! i = Some CLOSED)); [|done].
    intros m s3 Hm%elem_of_seq [Hi3 Hc3]. eapply wp_mono; [apply wp_expire; [done|unfold TCP_MAX_TIME_WAIT_SOCKETS in *; lia]|].
    intros _ s4 (Hi4 & _ & Hk & _). auto. }
  intros [] s3 Hs3. apply wp_mfor; [|done]. intros m s4 Hm%elem_of_seq [Hi4 Hc4].
  apply retransmit_closed; [lia|done|done].
Qed.

End TimeWait.

(** *** Examples for the deviations *)

Lemma listener_hides_connections_witness :
  wp (tcp_find_socket reading_env 80 [10; 0; 0; 1] 50000 [10; 0; 0; 2])
    (fun p s' => s' = server2 /\ exists i', p = Some i' /\ (i' <= 0)%nat /\ i' <> 1%nat) server2.
Proof.
  apply (listener_hides_connections reading_env server2 0%nat 1%nat (nth 0 (sockets server2) no_socket)).
  - vm_compute. reflexivity.
  - vm_compute. auto.
  - lia.
Defined.

Lemma overflow_loses_bytes_witness :
  wp (_r <- tcp_process_data reading_env 0%nat (replicate (Z.to_nat 8193) 7) 16909061 ;;
      tcp_process_data reading_env 0%nat (replicate (Z.to_nat 8193) 7) 16909061)
    (fun r s' => r = -1 /\ exists k', sockets s' !! 0%nat = Some k' /\ unread s' k' = unread client2 kb_ex /\
       rcv_nxt (conn k') = u32 (16909061 + Z.of_nat (length (replicate (Z.to_nat 8193) 7)))) client2.
Proof.
  apply (overflow_loses_bytes reading_env client2 0%nat kb_ex 2%positive (replicate (Z.to_nat 8193) 7)).
  - apply client2_inv.
  - vm_compute. reflexivity.
  - reflexivity.
  - reflexivity.
  - rewrite length_replicate, Z2Nat.id; lia.
  - rewrite length_replicate. unfold TCP_DEFAULT_BUFFER_SIZE. lia.
Defined.

Lemma free_port_found_witness :
  wp tcp_get_free_port
    (fun r s' => port_in_use (sockets server2) r = false /\
       (exists n, (n <= 16)%nat /\ r = u16 (49153 + Z.of_nat n)) /\
       (r = 0 -> 65520 <= 49153) /\ sockets s' = sockets server2) server2.
Proof. apply (free_port_found server2), server2_inv. Defined.

Definition created : tcp := after (tcp_socket_create reading_env None 0) boot_state.
Definition created2 : tcp := after (tcp_socket_create reading_env None 0) created.

Lemma create_returns_same_socket_witness : Some 0%nat = None \/ Some 0%nat = Some 0%nat.
Proof.
  apply (create_returns_same_socket reading_env None 0 None 0 boot_state 0%nat created (Some 0%nat) created2).
  - vm_compute. reflexivity.
  - vm_compute. reflexivity.
Defined.

(** A client that closes a connection, has it reset in [TIME_WAIT], and opens
    another one, which is established when the old slot expires. *)
Definition peer_packet (seq_num ack flags : Z) : option packet :=
  deliver (build_segment (mk_socket ESTABLISHED 80 50000 [10; 0; 0; 1] [10; 0; 0; 2] 0
    (mk_conn seq_num seq_num 4096 ack 4096 536 zero_retransmit None) None None zero_rx None None None None None) flags []).

Definition reopen_calls : list call :=
  [CClose (Some 0%nat); CRx (peer_packet 16909061 16909062 16); CRx (peer_packet 16909061 16909062 17);
   CRx (peer_packet 16909062 0 4); CCreate (Some [10; 0; 0; 2]) 50000;
   CConnect (Some 0%nat) (Some [10; 0; 0; 1]) 80; CRx (peer_packet 7000 16909061 18); CClock 240000].
Definition reopened : tcp := after (mfor reopen_calls (run_call reading_env)) client2.

Lemma peer_packet_ok seq_num ack flags :
  Ip.bytes_ok (match peer_packet seq_num ack flags with Some p => pkt_bytes p | None => [] end) ->
  call_ok (CRx (peer_packet seq_num ack flags)).
Proof.
  intros Hb p [= <-]. split; [exact Hb|]. split; [done|]. do 2 eexists. split; [done|].
  split; (split; [done|]; repeat constructor; lia).
Qed.

Lemma reopened_inv : inv reopened.
Proof.
  apply inv_after; [|apply client2_inv]. apply safe_mfor. intros c Hc. apply (safe_run_call reading_env).
  assert (Hs : opt_sock_ok (Some 0%nat)) by (intros ? [= <-]; unfold TCP_MAX_SOCKETS; lia).
  assert (Hp : forall q a f, Ip.bytes_ok (match peer_packet q a f with Some p => pkt_bytes p | None => [] end) ->
    call_ok (CRx (peer_packet q a f))) by apply peer_packet_ok.
  apply list_elem_of_In in Hc.
  destruct Hc as [<-|[<-|[<-|[<-|[<-|[<-|[<-|[<-|[]]]]]]]]];
    try (apply Hp; vm_compute; repeat constructor; discriminate); cbn [call_ok]; try done.
  - split; [|done]. intros ? [= <-]. apply addr_ok; lia.
  - split_and!; [done|intros ? [= <-]; apply addr_ok; lia|done].
Qed.

Lemma time_wait_closes_any_state_witness :
  states reopened !! 0%nat = Some ESTABLISHED /\
  wp (tcp_timer reading_env 10) (fun _ s' => inv s' /\ states s' !! 0%nat = Some CLOSED) reopened.
Proof.
  split; [vm_compute; reflexivity|].
  apply (time_wait_closes_any_state reading_env reopened 0%nat (mk_tw 0 240000 (Some 0%nat)) 0%nat 10).
  - apply reopened_inv.
  - vm_compute. reflexivity.
  - reflexivity.
  - vm_compute. discriminate.
Defined.

End TcpStream.
