(* ===== verification/Udp.v ===== *)
(** * The user datagram protocol ([network/src/udp.c])

    Sockets in the fixed array [udp_sockets], the datagrams sent and received and the
    calls of the application. A pointer to a socket is its index in the array. As for
    TCP, the transmission by IP, the address test [ip_addr_is_any] and the callbacks
    of the application are the environment [env], and may depend on the whole state.

    Shown: sockets do not share a port and address (with what [udp_socket_bind] must
    not be asked for), and a datagram reaches the one socket it is for. *)

From Stdlib Require Import ZArith Lia String.
From stdpp Require Import base tactics option list gmap strings.
From S2P Require Import Prelude Ports Network Ip Tcp TcpInv TcpThms.

Set Default Goal Selector "!".
Local Open Scope Z_scope.
Local Open Scope kernel_scope.

Module Udp.
Import TcpInv(u16_ok, u16_typed).

Definition UDP_HEADER_SIZE : Z := 8.
Definition UDP_MAX_SOCKETS : nat := 16.
Definition UDP_SOCKET_CLOSED : Z := 0.
Definition UDP_SOCKET_OPEN : Z := 1.
Definition IP_PROTO_UDP : Z := 17.

(** [udp_socket_t]; a callback is the address of its function. *)
Record udp_socket : Type := mk_socket {
  state : Z;
  local_port : Z;
  remote_port : Z;
  local_addr : list Z;
  remote_addr : list Z;
  options : Z;
  receive_callback : ptr;
  user_data : ptr;
}.

Definition set_state (x : Z) (k : udp_socket) : udp_socket :=
  mk_socket x (local_port k) (remote_port k) (local_addr k) (remote_addr k) (options k)
    (receive_callback k) (user_data k).
Definition set_local_port (x : Z) (k : udp_socket) : udp_socket :=
  mk_socket (state k) x (remote_port k) (local_addr k) (remote_addr k) (options k)
    (receive_callback k) (user_data k).
Definition set_remote_port (x : Z) (k : udp_socket) : udp_socket :=
  mk_socket (state k) (local_port k) x (local_addr k) (remote_addr k) (options k)
    (receive_callback k) (user_data k).
Definition set_local_addr (x : list Z) (k : udp_socket) : udp_socket :=
  mk_socket (state k) (local_port k) (remote_port k) x (remote_addr k) (options k)
    (receive_callback k) (user_data k).
Definition set_remote_addr (x : list Z) (k : udp_socket) : udp_socket :=
  mk_socket (state k) (local_port k) (remote_port k) (local_addr k) x (options k)
    (receive_callback k) (user_data k).
Definition set_options (x : Z) (k : udp_socket) : udp_socket :=
  mk_socket (state k) (local_port k) (remote_port k) (local_addr k) (remote_addr k) x
    (receive_callback k) (user_data k).
Definition set_receive_callback (x : ptr) (k : udp_socket) : udp_socket :=
  mk_socket (state k) (local_port k) (remote_port k) (local_addr k) (remote_addr k) (options k) x
    (user_data k).

Definition zero_socket : udp_socket := mk_socket 0 0 0 [0; 0; 0; 0] [0; 0; 0; 0] 0 None None.

(** The static variables of [udp.c], the IP layer below, and the datagrams handed to
    IP, latest first. *)
Record udp : Type := mk_udp {
  sockets : list udp_socket;
  last_dynamic_port : Z;
  below : Ip.ips;
  sent : list Tcp.segment;
}.

Definition set_sockets (x : list udp_socket) (s : udp) : udp :=
  mk_udp x (last_dynamic_port s) (below s) (sent s).

(** The environment: [ip_tx] answers [None] when [ip_alloc_packet] has no packet;
    a callback gets the socket, the sender's address and port, and the data. *)
Record env : Type := mk_env {
  ip_addr_is_any : list Z -> bool;
  ip_tx : udp -> Tcp.segment -> option Z;
  callback : addr -> nat -> list Z -> Z -> list Z -> M udp unit;
}.

Definition on_ip {A} (m : M Ip.ips A) : M udp A := fun s =>
  match m (below s) with
  | Ret (a, n) => Ret (a, mk_udp (sockets s) (last_dynamic_port s) n (sent s))
  | Spin => Spin
  | Fault => Fault
  end.

Definition read_sock (i : nat) : M udp udp_socket := s <- get ;; deref (sockets s !! i).
Definition upd_sock (i : nat) (f : udp_socket -> udp_socket) : M udp unit :=
  s <- get ;; k <- deref (sockets s !! i) ;; put (set_sockets (<[i := f k]> (sockets s)) s).

Definition is_open (k : udp_socket) : bool := state k =? UDP_SOCKET_OPEN.

Section Ops.
Context (E : env).

(** [rx] is the address of [udp_rx]. *)
Definition udp_init (rx : addr) : M udp Z :=
  modify (fun s => set_sockets (map (set_state UDP_SOCKET_CLOSED) (sockets s)) s) ;;;
  result <- on_ip (Ip.ip_register_protocol IP_PROTO_UDP (Some rx)) ;;
  if negb (result =? 0) then ret result else ret 0.

(** ** Datagrams *)

(** [udp_pseudo_header_t] *)
Definition pseudo_header (data_len : Z) (src dst : list Z) : list Z :=
  src ++ dst ++ [0; IP_PROTO_UDP] ++ Tcp.be16 (u16 (UDP_HEADER_SIZE + data_len)).

(** [header] is the eight bytes at the header pointer. *)
Definition udp_checksum (header data : list Z) (src dst : list Z) : Z :=
  let sum := Ip.sum_words (pseudo_header (Z.of_nat (length data)) src dst) 0 in
  let sum := Ip.sum_words header sum in
  let sum := Ip.sum_words data sum in
  u16 (Z.lnot (Ip.fold_carry 3 sum)).

(** The header [udp_tx] fills in, with [c] as its checksum member. *)
Definition header_bytes (sport dport udp_size c : Z) : list Z :=
  Tcp.be16 sport ++ Tcp.be16 dport ++ Tcp.be16 (u16 udp_size) ++ [Ip.lo c; Ip.hi c].

Definition build_datagram (sport : Z) (src : list Z) (dport : Z) (dst data : list Z) : Tcp.segment :=
  let size := UDP_HEADER_SIZE + Z.of_nat (length data) in
  let c := udp_checksum (header_bytes sport dport size 0) data src dst in
  Tcp.mk_segment src dst (header_bytes sport dport size c ++ data).

(** The socket a datagram is for, among [ks], whose first has index [i]. *)
Fixpoint find_from (ks : list udp_socket) (i : nat) (dport : Z) (dst : list Z) : option nat :=
  match ks with
  | [] => None
  | k :: r =>
      if is_open k && (local_port k =? dport) then
        if negb (ip_addr_is_any E (local_addr k)) && negb (Ip.ip_addr_cmp (local_addr k) dst)
        then find_from r (S i) dport dst else Some i
      else find_from r (S i) dport dst
  end.

Definition udp_find_socket (dport : Z) (dst : list Z) : M udp (option nat) :=
  s <- get ;; ret (find_from (sockets s) 0 dport dst).

(** What [udp_rx] does with a datagram that passed its checks. *)
Definition udp_deliver (src : list Z) (sport : Z) (dst : list Z) (dport : Z) (data : list Z) : M udp Z :=
  socket <- udp_find_socket dport dst ;;
  match socket with
  | None => ret (-1)
  | Some i =>
      k <- read_sock i ;;
      (match receive_callback k with None => ret tt | Some f => callback E f i src sport data end) ;;;
      ret 0
  end.

(** The checksum member, when it is not 0, is set to zero for the computation and
    restored. *)
Definition udp_rx (buffer : option Tcp.packet) : M udp Z :=
  match buffer with
  | None => ret (-1)
  | Some p =>
      let bytes := Tcp.pkt_bytes p in
      let len := Z.of_nat (length bytes) in
      if len <? UDP_HEADER_SIZE then ret (-1)
      else
        let h := take 8 bytes in
        let udp_len := Tcp.word16 h 4 in
        if (udp_len <? UDP_HEADER_SIZE) || (len <? udp_len) then ret (-1)
        else
          addrs <- deref (Tcp.pkt_addrs p) ;;
          let '(src, dst) := addrs in
          let data := take (Z.to_nat (udp_len - UDP_HEADER_SIZE)) (drop 8 bytes) in
          let c := Ip.byte h 6 + 256 * Ip.byte h 7 in
          if negb (c =? 0) && negb (c =? udp_checksum (Ip.set_word h 6 0 0) data src dst) then ret (-1)
          else udp_deliver src (Tcp.word16 h 0) dst (Tcp.word16 h 2) data
  end.

(** When [sizeof(udp_header_t) + len] wraps, the packet is shorter than what is
    copied to it. *)
Definition udp_tx (socket : option nat) (data : option (list Z)) (dst : option (list Z)) (dport : Z) : M udp Z :=
  match socket, data, dst with
  | Some i, Some data, Some dst =>
      k <- read_sock i ;;
      let n := Z.of_nat (length data) in
      src <- (if ip_addr_is_any E (local_addr k) then
                dev <- on_ip (Ip.on_net Network.network_get_default_device) ;;
                match dev with
                | Some d => dd <- on_ip (Ip.on_net (Network.read_dev d)) ;; ret (Network.ip dd)
                | None => ret [0; 0; 0; 0]
                end
              else ret (local_addr k)) ;;
      s <- get ;;
      let seg := build_datagram (local_port k) src dport dst data in
      match ip_tx E s seg with
      | None => ret (-1)
      | Some result =>
          if u32 (UDP_HEADER_SIZE + n) <? UDP_HEADER_SIZE + n then fault
          else
            modify (fun s => mk_udp (sockets s) (last_dynamic_port s) (below s) (seg :: sent s)) ;;;
            ret (if result =? 0 then to_int n else result)
      end
  | _, _, _ => ret (-1)
  end.

(** ** Ports *)

Definition port_in_use (ks : list udp_socket) (port : Z) : bool :=
  existsb (fun k => is_open k && (local_port k =? port)) ks.

Definition udp_get_free_port : M udp Z :=
  s <- get ;;
  let start := last_dynamic_port s in
  let p := Ports.next_dynamic start in
  put (mk_udp (sockets s) p (below s) (sent s)) ;;;
  match Ports.port_loop (port_in_use (sockets s)) Ports.PORT_FUEL p start with
  | Some r => ret r
  | None => spin
  end.

(** Some open socket other than [i] has the port and an address that clashes. *)
Fixpoint port_clash (clash : list Z -> bool) (i : nat) (port : Z) (ks : list udp_socket) (j : nat) : bool :=
  match ks with
  | [] => false
  | k :: r =>
      if (j =? i)%nat then port_clash clash i port r (S j)
      else if is_open k && (local_port k =? port) && clash (local_addr k) then true
      else port_clash clash i port r (S j)
  end.

(** ** The calls of the application *)

Fixpoint find_closed (ks : list udp_socket) (i : nat) : option nat :=
  match ks with
  | [] => None
  | k :: r => if state k =? UDP_SOCKET_CLOSED then Some i else find_closed r (S i)
  end.

Definition udp_socket_create (laddr : option (list Z)) (lport : Z) : M udp (option nat) :=
  s <- get ;;
  match find_closed (sockets s) 0 with
  | None => ret None
  | Some i =>
      let a := default [0; 0; 0; 0] laddr in
      upd_sock i (fun _ => set_local_addr a (set_state UDP_SOCKET_OPEN zero_socket)) ;;;
      if 0 <? lport then
        s <- get ;;
        if port_clash (fun b => ip_addr_is_any E b || ip_addr_is_any E a || Ip.ip_addr_cmp b a)
             i lport (sockets s) 0
        then upd_sock i (set_state UDP_SOCKET_CLOSED) ;;; ret None
        else upd_sock i (set_local_port lport) ;;; ret (Some i)
      else
        p <- udp_get_free_port ;;
        upd_sock i (set_local_port p) ;;;
        if p =? 0 then upd_sock i (set_state UDP_SOCKET_CLOSED) ;;; ret None else ret (Some i)
  end.

Definition udp_socket_close (socket : option nat) : M udp Z :=
  match socket with
  | None => ret (-1)
  | Some i =>
      if (UDP_MAX_SOCKETS <=? i)%nat then ret (-1)
      else
        k <- read_sock i ;;
        if negb (is_open k) then ret 0
        else upd_sock i (set_state UDP_SOCKET_CLOSED) ;;; ret 0
  end.

Definition udp_socket_bind (socket : option nat) (addr4 : option (list Z)) (port : Z) : M udp Z :=
  match socket with
  | None => ret (-1)
  | Some i =>
      k <- read_sock i ;;
      if negb (is_open k) then ret (-1)
      else
        ok <- (if 0 <? port then
                 s <- get ;;
                 if port_clash (fun b => match addr4 with
                                         | None => true
                                         | Some a => ip_addr_is_any E b || Ip.ip_addr_cmp a b
                                         end) i port (sockets s) 0
                 then ret false
                 else upd_sock i (set_local_port port) ;;; ret true
               else if local_port k =? 0 then
                 p <- udp_get_free_port ;;
                 upd_sock i (set_local_port p) ;;;
                 ret (negb (p =? 0))
               else ret true) ;;
        if negb ok then ret (-1)
        else
          match addr4 with
          | Some a => upd_sock i (set_local_addr a) ;;; ret 0
          | None => ret 0
          end
  end.

Definition udp_socket_connect (socket : option nat) (addr4 : option (list Z)) (port : Z) : M udp Z :=
  match socket, addr4 with
  | Some i, Some a =>
      k <- read_sock i ;;
      if negb (is_open k) then ret (-1)
      else upd_sock i (fun k => set_remote_port port (set_remote_addr a k)) ;;; ret 0
  | _, _ => ret (-1)
  end.

Definition udp_socket_send (socket : option nat) (data : option (list Z)) : M udp Z :=
  match socket, data with
  | Some i, Some d =>
      k <- read_sock i ;;
      if negb (is_open k) then ret (-1)
      else if remote_port k =? 0 then ret (-1)
      else udp_tx (Some i) (Some d) (Some (remote_addr k)) (remote_port k)
  | _, _ => ret (-1)
  end.

Definition udp_socket_sendto (socket : option nat) (data : option (list Z)) (addr4 : option (list Z)) (port : Z) : M udp Z :=
  match socket, data, addr4 with
  | Some i, Some d, Some a =>
      k <- read_sock i ;;
      if negb (is_open k) then ret (-1)
      else udp_tx (Some i) (Some d) (Some a) port
  | _, _, _ => ret (-1)
  end.

Definition udp_socket_register_recv_callback (socket : option nat) (f : ptr) : M udp Z :=
  match socket with
  | None => ret (-1)
  | Some i =>
      k <- read_sock i ;;
      if negb (is_open k) then ret (-1) else upd_sock i (set_receive_callback f) ;;; ret 0
  end.

Definition udp_socket_set_options (socket : option nat) (x : Z) : M udp Z :=
  match socket with
  | None => ret (-1)
  | Some i =>
      k <- read_sock i ;;
      if negb (is_open k) then ret (-1) else upd_sock i (set_options x) ;;; ret 0
  end.

End Ops.

(** ** Sockets do not overlap *)

Section Inv.
Context (E : env).

(** Two addresses that could take the same datagram. *)
Definition clash (a b : list Z) : bool := ip_addr_is_any E a || ip_addr_is_any E b || Ip.ip_addr_cmp a b.

Lemma clash_sym a b : clash a b = clash b a.
Proof.
  unfold clash, Ip.ip_addr_cmp. rewrite (orb_comm (ip_addr_is_any E a)). f_equal.
  apply bool_decide_ext. split; congruence.
Qed.

Record inv (s : udp) : Prop := {
  ui_len : length (sockets s) = UDP_MAX_SOCKETS;
  ui_excl : forall i j ki kj, i <> j -> sockets s !! i = Some ki -> sockets s !! j = Some kj ->
    is_open ki = true -> is_open kj = true -> local_port ki = local_port kj ->
    clash (local_addr ki) (local_addr kj) = false;
  ui_port : Ports.port_ok (last_dynamic_port s);
  ui_dev : forall a, Network.default_device (Ip.stack (below s)) = Some a ->
    is_Some (Network.devs (Ip.stack (below s)) !! a);
}.

Class EnvOk : Prop :=
  callback_inv : forall f i src sport data s, inv s -> wp (callback E f i src sport data) (fun _ s' => inv s') s.

Definition safe {A} (m : M udp A) : Prop := forall s, inv s -> wp m (fun _ s' => inv s') s.

Lemma udp_safe_ret {A} (a : A) : safe (ret a).
Proof. by intros s Hi. Qed.
Lemma udp_safe_bind {A B} (m : M udp A) (k : A -> M udp B) : safe m -> (forall a, safe (k a)) -> safe (bind m k).
Proof.
  intros Hm Hk s Hi. apply wp_bind. eapply wp_mono; [by apply Hm|]. intros a s' Hi'. by apply Hk.
Qed.

Lemma udp_wp_read_sock i Q s : wp (read_sock i) Q s <-> exists k, sockets s !! i = Some k /\ Q k s.
Proof. unfold read_sock. wp_steps. apply wp_deref. Qed.
Lemma udp_wp_upd_sock i f Q s :
  wp (upd_sock i f) Q s <->
  exists k, sockets s !! i = Some k /\ Q tt (set_sockets (<[i := f k]> (sockets s)) s).
Proof. unfold upd_sock. wp_steps. rewrite wp_deref. by setoid_rewrite wp_put. Qed.

Lemma udp_sock_exists s i : inv s -> (i < UDP_MAX_SOCKETS)%nat -> exists k, sockets s !! i = Some k.
Proof. intros Hi Hlt. apply lookup_lt_is_Some. by rewrite (ui_len _ Hi). Qed.

(** A socket may be replaced by one that is closed or clashes with no other. *)
Lemma udp_inv_set_sock s i k :
  inv s -> (i < UDP_MAX_SOCKETS)%nat ->
  (is_open k = true -> forall j kj, j <> i -> sockets s !! j = Some kj -> is_open kj = true ->
     local_port k = local_port kj -> clash (local_addr k) (local_addr kj) = false) ->
  inv (set_sockets (<[i := k]> (sockets s)) s).
Proof.
  intros [H1 H2 H3 H4] Hlt Hk. split; cbn; try done; [by rewrite length_insert|].
  intros j j' kj kj' Hne Hj Hj' Ho Ho' Hp.
  apply list_lookup_insert_Some in Hj as [(<- & <- & _)|[Hni Hj]];
    apply list_lookup_insert_Some in Hj' as [(<- & <- & _)|[Hni' Hj']].
  - done.
  - by apply (Hk Ho j').
  - rewrite clash_sym. by apply (Hk Ho' j).
  - by apply (H2 j j').
Qed.

(** A change that keeps the port, the address and the state, or closes. *)
Lemma inv_same s i f k :
  inv s -> sockets s !! i = Some k ->
  (is_open (f k) = true -> is_open k = true /\ local_port (f k) = local_port k /\ local_addr (f k) = local_addr k) ->
  inv (set_sockets (<[i := f k]> (sockets s)) s).
Proof.
  intros Hi Hk Hf. apply udp_inv_set_sock; [done|rewrite <- (ui_len _ Hi); by eapply lookup_lt_Some|].
  intros Ho j kj Hne Hj Hoj Hp. destruct (Hf Ho) as (Ho' & Hp' & ->). rewrite Hp' in Hp.
  by eapply (ui_excl _ Hi i j).
Qed.

Lemma safe_same i f :
  (i < UDP_MAX_SOCKETS)%nat ->
  (forall k, is_open (f k) = true -> is_open k = true /\ local_port (f k) = local_port k /\ local_addr (f k) = local_addr k) ->
  safe (upd_sock i f).
Proof.
  intros Hlt Hf s Hi. apply udp_wp_upd_sock. destruct (udp_sock_exists _ _ Hi Hlt) as [k Hk].
  exists k. split; [done|]. apply inv_same; [done|done|apply Hf].
Qed.

Lemma udp_safe_read {A} i (K : udp_socket -> M udp A) :
  (i < UDP_MAX_SOCKETS)%nat ->
  (forall k s, inv s -> sockets s !! i = Some k -> wp (K k) (fun _ s' => inv s') s) -> safe (bind (read_sock i) K).
Proof.
  intros Hlt HK s Hi. apply wp_bind, udp_wp_read_sock. destruct (udp_sock_exists _ _ Hi Hlt) as [k Hk]. eauto.
Qed.

Lemma port_clash_spec c i port ks : forall n,
  port_clash c i port ks n = false ->
  forall j k, ks !! j = Some k -> (n + j)%nat <> i -> is_open k = true -> local_port k = port -> c (local_addr k) = false.
Proof.
  induction ks as [|k0 ks IH]; intros n H j k Hj Hne Ho Hp; [done|]. cbn [port_clash] in H.
  destruct j as [|j].
  - injection Hj as ->. rewrite Nat.add_0_r in Hne. destruct (Nat.eqb_spec n i); [done|].
    rewrite Ho, Hp, Z.eqb_refl in H. cbn [andb] in H. by destruct (c (local_addr k)).
  - replace (n + S j)%nat with (S n + j)%nat in Hne by lia.
    destruct (n =? i)%nat; [by eapply IH|]. destruct (_ && _ && _); [done|]. by eapply IH.
Qed.

Lemma udp_port_users s p : port_in_use (sockets s) p = true -> p ∈ map local_port (sockets s).
Proof. intros (k & Hk & Hu)%existsb_exists. bools. apply list_elem_of_In, in_map_iff. eauto. Qed.

Lemma port_free_spec ks p j k :
  port_in_use ks p = false -> ks !! j = Some k -> is_open k = true -> local_port k <> p.
Proof.
  intros Hf Hj Ho Hp. assert (port_in_use ks p = true); [|congruence].
  apply existsb_exists. exists k. split; [by apply list_elem_of_In, list_elem_of_lookup_2 with j|].
  by rewrite Ho, Hp, Z.eqb_refl.
Qed.

Lemma udp_wp_get_free_port s :
  inv s ->
  wp udp_get_free_port (fun r s' => inv s' /\ sockets s' = sockets s /\ port_in_use (sockets s) r = false) s.
Proof.
  intros Hi. unfold udp_get_free_port. wp_steps. cbv zeta.
  destruct (Ports.port_search (port_in_use (sockets s)) (map local_port (sockets s)) (last_dynamic_port s))
    as (r & n & -> & Hn & Hr & Hfree & _).
  - rewrite length_map, (ui_len _ Hi). done.
  - apply udp_port_users.
  - apply (ui_port _ Hi).
  - wp_steps. split_and!; [|done|done]. destruct Hi as [H1 H2 H3 H4]. split; try done.
    cbn. rewrite Ports.next_dynamic_first by done. by apply Ports.first_port_ok.
Qed.

(** Giving a socket a port no open socket uses. *)
Lemma inv_fresh_port s i f k p :
  inv s -> sockets s !! i = Some k -> port_in_use (sockets s) p = false -> local_port (f k) = p ->
  inv (set_sockets (<[i := f k]> (sockets s)) s).
Proof.
  intros Hi Hk Hf Hp. apply udp_inv_set_sock; [done|rewrite <- (ui_len _ Hi); by eapply lookup_lt_Some|].
  intros _ j kj Hne Hj Hoj Hpp. exfalso. eapply (port_free_spec _ p j kj); [done|done|done|congruence].
Qed.

Lemma udp_find_closed_at ks n i : find_closed ks n = Some i -> (n <= i)%nat /\ exists k, ks !! (i - n)%nat = Some k.
Proof.
  revert n. induction ks as [|k ks IH]; intros n; cbn [find_closed]; [done|]. case_if.
  - intros [= <-]. split; [done|]. exists k. by rewrite Nat.sub_diag.
  - intros (Hle & k' & Hk')%IH. split; [lia|]. exists k'. by replace (i - n)%nat with (S (i - S n)) by lia.
Qed.

(** The table with socket [i] replaced by [k1], which waits for its port: it may clash
    with others on port 0, so the invariant is that of the table before. *)
Section Create.
Context (s : udp) (i : nat) (k1 : udp_socket).
Hypothesis Hi : inv s.
Hypothesis Hlt : (i < UDP_MAX_SOCKETS)%nat.

Let s1 : udp := set_sockets (<[i := k1]> (sockets s)) s.

Lemma s1_lookup : sockets s1 !! i = Some k1.
Proof. apply list_lookup_insert_eq. by rewrite (ui_len _ Hi). Qed.

Lemma s1_update last f :
  Ports.port_ok last ->
  (is_open (f k1) = true -> forall j kj, j <> i -> sockets s !! j = Some kj -> is_open kj = true ->
     local_port (f k1) = local_port kj -> clash (local_addr (f k1)) (local_addr kj) = false) ->
  inv (mk_udp (<[i := f k1]> (sockets s1)) last (below s1) (sent s1)).
Proof.
  intros Hl Hf. cbn. rewrite list_insert_insert_eq.
  apply (udp_inv_set_sock (mk_udp (sockets s) last (below s) (sent s)) i (f k1)); [|done|done].
  destruct Hi as [H1 H2 H3 H4]. by split.
Qed.

Lemma wp_create_port lport :
  wp (s <- get ;;
      if port_clash (fun b => ip_addr_is_any E b || ip_addr_is_any E (local_addr k1) || Ip.ip_addr_cmp b (local_addr k1))
           i lport (sockets s) 0
      then upd_sock i (set_state UDP_SOCKET_CLOSED) ;;; ret None
      else upd_sock i (set_local_port lport) ;;; ret (Some i)) (fun _ s' => inv s') s1.
Proof.
  rewrite wp_bind, wp_get. destruct (port_clash _ _ _ _ _) eqn:Hc.
  - rewrite wp_bind, udp_wp_upd_sock. exists k1. split; [apply s1_lookup|]. wp_steps.
    apply (s1_update (last_dynamic_port s) (set_state UDP_SOCKET_CLOSED)); [apply Hi|done].
  - rewrite wp_bind, udp_wp_upd_sock. exists k1. split; [apply s1_lookup|]. wp_steps.
    apply (s1_update (last_dynamic_port s) (set_local_port lport)); [apply Hi|].
    cbn [local_port local_addr set_local_port]. intros _ j kj Hne Hj Ho Hp. rewrite clash_sym. unfold clash.
    apply (port_clash_spec _ _ _ _ _ Hc j kj); [by cbn; rewrite list_lookup_insert_ne|done|done|done].
Qed.

Lemma wp_create_dynamic :
  wp (p <- udp_get_free_port ;;
      upd_sock i (set_local_port p) ;;;
      if p =? 0 then upd_sock i (set_state UDP_SOCKET_CLOSED) ;;; ret None else ret (Some i)) (fun _ s' => inv s') s1.
Proof.
  unfold udp_get_free_port. rewrite wp_bind, wp_bind, wp_get. cbv zeta.
  destruct (Ports.port_search (port_in_use (sockets s1)) (map local_port (sockets s1)) (last_dynamic_port s1))
    as (r & n & -> & Hn & Hr & Hfree & _).
  - rewrite length_map. cbn. rewrite length_insert, (ui_len _ Hi). done.
  - apply udp_port_users.
  - apply (ui_port _ Hi).
  - rewrite wp_bind, wp_put, wp_ret, wp_bind, udp_wp_upd_sock. cbn [sockets]. exists k1. split; [apply s1_lookup|].
    assert (Hl : Ports.port_ok (Ports.next_dynamic (last_dynamic_port s))).
    { rewrite Ports.next_dynamic_first by apply Hi. apply Ports.first_port_ok, Hi. }
    destruct (r =? 0).
    + rewrite wp_bind, udp_wp_upd_sock. cbn [sockets set_sockets]. exists (set_local_port r k1).
      split; [apply list_lookup_insert_eq; cbn; by rewrite length_insert, (ui_len _ Hi)|]. wp_steps.
      cbn. rewrite list_insert_insert_eq.
      by apply (s1_update _ (fun k => set_state UDP_SOCKET_CLOSED (set_local_port r k)) Hl).
    + wp_steps. apply (s1_update _ (set_local_port r) Hl).
      cbn [local_port local_addr set_local_port]. intros _ j kj Hne Hj Ho Hp. exfalso.
      eapply (port_free_spec _ r j kj Hfree); [by cbn; rewrite list_lookup_insert_ne|done|done].
Qed.

End Create.

Lemma udp_safe_create laddr lport : safe (udp_socket_create E laddr lport).
Proof.
  intros s Hi. unfold udp_socket_create. rewrite wp_bind, wp_get.
  destruct (find_closed (sockets s) 0) as [i|] eqn:Ei; [|by apply udp_safe_ret].
  destruct (udp_find_closed_at _ _ _ Ei) as (_ & k & Hk). rewrite Nat.sub_0_r in Hk.
  assert (Hlt : (i < UDP_MAX_SOCKETS)%nat) by (rewrite <- (ui_len _ Hi); by eapply lookup_lt_Some).
  cbv zeta. rewrite wp_bind, udp_wp_upd_sock. exists k. split; [done|]. case_if.
  - by apply (wp_create_port s i (set_local_addr (default [0; 0; 0; 0] laddr) (set_state UDP_SOCKET_OPEN zero_socket))).
  - by apply wp_create_dynamic.
Qed.

End Inv.

(** ** Any sequence of calls *)

Inductive call : Type :=
| CRx (p : option Tcp.packet)
| CCreate (laddr : option (list Z)) (lport : Z)
| CClose (p : option nat)
| CBind (p : option nat) (a : option (list Z)) (port : Z)
| CConnect (p : option nat) (a : option (list Z)) (port : Z)
| CSend (p : option nat) (data : option (list Z))
| CSendto (p : option nat) (data : option (list Z)) (a : option (list Z)) (port : Z)
| CCallback (p : option nat) (f : ptr)
| COptions (p : option nat) (x : Z).

Section Calls.
Context (E : env) `{!EnvOk E}.

Definition run_call (c : call) : M udp unit :=
  match c with
  | CRx p => _r <- udp_rx E p ;; ret tt
  | CCreate a p => _r <- udp_socket_create E a p ;; ret tt
  | CClose p => _r <- udp_socket_close p ;; ret tt
  | CBind p a q => _r <- udp_socket_bind E p a q ;; ret tt
  | CConnect p a q => _r <- udp_socket_connect p a q ;; ret tt
  | CSend p d => _r <- udp_socket_send E p d ;; ret tt
  | CSendto p d a q => _r <- udp_socket_sendto E p d a q ;; ret tt
  | CCallback p f => _r <- udp_socket_register_recv_callback p f ;; ret tt
  | COptions p x => _r <- udp_socket_set_options p x ;; ret tt
  end.

Definition sock_arg (p : option nat) : Prop := forall i, p = Some i -> (i < UDP_MAX_SOCKETS)%nat.
Definition data_arg (d : option (list Z)) : Prop := forall x, d = Some x -> Z.of_nat (length x) < 2 ^ 31.

(** Pointers to sockets of the table or NULL, packets of IP; and [udp_socket_bind]
    asked for a port, with no address or with one that is not "any". *)
Definition call_ok (c : call) : Prop :=
  match c with
  | CRx p => forall p', p = Some p' -> is_Some (Tcp.pkt_addrs p')
  | CCreate a p => True
  | CBind p a q => sock_arg p /\ 0 < q /\ forall a', a = Some a' -> ip_addr_is_any E a' = false
  | CSend p d | CSendto p d _ _ => sock_arg p /\ data_arg d
  | CClose p | CConnect p _ _ | CCallback p _ | COptions p _ => sock_arg p
  end.

Lemma safe_deliver src sport dst dport data : safe E (udp_deliver E src sport dst dport data).
Proof.
  intros s Hi. unfold udp_deliver, udp_find_socket. wp_steps.
  destruct (find_from E (sockets s) 0 dport dst) as [i|] eqn:Ef; [|by apply udp_safe_ret].
  assert (Hlt : (i < UDP_MAX_SOCKETS)%nat).
  { rewrite <- (ui_len _ _ Hi). revert Ef. change (i < length (sockets s))%nat with (i < 0 + length (sockets s))%nat.
    generalize 0%nat. clear. induction (sockets s) as [|k ks IH]; intros n; cbn [find_from length]; [done|].
    repeat case_if; try (intros [= <-]; lia); intros H%IH; lia. }
  rewrite wp_bind, udp_wp_read_sock. destruct (udp_sock_exists E _ _ Hi Hlt) as [k Hk]. exists k. split; [done|].
  rewrite wp_bind. destruct (receive_callback k); [|by wp_steps].
  eapply wp_mono; [by apply callback_inv|]. intros ? s' Hi'. by wp_steps.
Qed.

Lemma udp_safe_rx p : call_ok (CRx p) -> safe E (udp_rx E p).
Proof.
  intros Hp. destruct p as [p|]; [|apply udp_safe_ret]. destruct (Hp p eq_refl) as [[src dst] Ha].
  unfold udp_rx. cbv zeta. case_if; [apply udp_safe_ret|]. case_if; [apply udp_safe_ret|]. rewrite Ha.
  change (bind (deref (Some ?x)) ?k) with (k x). cbv beta iota.
  case_if; [apply udp_safe_ret|]. apply safe_deliver.
Qed.

Lemma safe_tx p d a port : sock_arg p -> data_arg d -> safe E (udp_tx E p d a port).
Proof.
  intros Hp Hd. destruct p as [i|], d as [data|], a as [dst|]; try apply udp_safe_ret.
  specialize (Hp i eq_refl). specialize (Hd data eq_refl).
  apply udp_safe_read; [done|]. intros k s Hi Hk. cbv zeta. rewrite wp_bind.
  assert (Hsrc : wp (if ip_addr_is_any E (local_addr k) then
                dev <- on_ip (Ip.on_net Network.network_get_default_device) ;;
                match dev with
                | Some d => dd <- on_ip (Ip.on_net (Network.read_dev d)) ;; ret (Network.ip dd)
                | None => ret [0; 0; 0; 0]
                end
              else ret (local_addr k)) (fun _ s' => s' = s) s).
  { destruct (ip_addr_is_any E (local_addr k)); [|by wp_steps].
    assert (Hs : mk_udp (sockets s) (last_dynamic_port s) (Ip.set_stack (Ip.stack (below s)) (below s)) (sent s) = s)
      by (by destruct s as [? ? [] ?]).
    unfold on_ip, Ip.on_net, Network.network_get_default_device, wp, bind, get. cbn.
    destruct (truth _); cbn; [|exact Hs].
    destruct (Network.default_device _) as [dv|] eqn:Ed; cbn; [|exact Hs].
    destruct (ui_dev _ _ Hi _ Ed) as [dd Hdd]. rewrite Hdd. exact Hs. }
  eapply wp_mono; [exact Hsrc|]. intros src s' ->. wp_steps. destruct (ip_tx E s _); [|by wp_steps].
  rewrite u32_small by (unfold UDP_HEADER_SIZE; lia). rewrite Z.ltb_irrefl. wp_steps.
  destruct Hi as [H1 H2 H3 H4]. by split.
Qed.

Lemma udp_safe_bind_call p a port : call_ok (CBind p a port) -> safe E (udp_socket_bind E p a port).
Proof.
  intros (Hp & Hq & Ha). destruct p as [i|]; [|apply udp_safe_ret]. specialize (Hp i eq_refl).
  apply udp_safe_read; [done|]. intros k s Hi Hk. destruct (is_open k) eqn:Ho; cbn [negb]; [|by apply udp_safe_ret].
  destruct (Z.ltb_spec 0 port); [|lia]. rewrite wp_bind, wp_bind, wp_get.
  destruct (port_clash _ _ _ _ _) eqn:Hc; [by wp_steps|].
  rewrite wp_bind, udp_wp_upd_sock. exists k. split; [done|]. rewrite wp_ret. cbn [negb].
  pose proof (port_clash_spec _ _ _ _ _ Hc) as Hs.
  assert (Hll : (i < length (sockets s))%nat) by (by rewrite (ui_len _ _ Hi)).
  destruct a as [a|].
  - rewrite wp_bind, udp_wp_upd_sock. cbn [sockets set_sockets].
    exists (set_local_port port k). split; [by apply list_lookup_insert_eq|]. wp_steps.
    cbn. rewrite list_insert_insert_eq.
    apply (udp_inv_set_sock E s i (set_local_addr a (set_local_port port k))); [done|done|].
    intros _ j kj Hne Hj Hoj Hpj. unfold clash. cbn [local_addr set_local_addr]. rewrite (Ha a eq_refl). cbn [orb].
    apply (Hs j kj); (done || naive_solver).
  - wp_steps. apply (udp_inv_set_sock E s i (set_local_port port k)); [done|done|].
    intros _ j kj Hne Hj Hoj Hpj. exfalso. specialize (Hs j kj Hj Hne Hoj). cbn in Hs, Hpj. naive_solver.
Qed.

Lemma udp_safe_run_call c : call_ok c -> safe E (run_call c).
Proof.
  assert (Hd : forall {A} (m : M udp A), safe E m -> safe E (bind m (fun _ => ret tt))).
  { intros A m Hm. apply udp_safe_bind; [done|]. intros _. apply udp_safe_ret. }
  assert (Hopen : forall i (m : M udp Z), (i < UDP_MAX_SOCKETS)%nat -> safe E m ->
    safe E (k <- read_sock i ;; if negb (is_open k) then ret (-1) else m)).
  { intros i m Hlt Hm. apply udp_safe_read; [done|]. intros k s Hi _. case_if; [by apply udp_safe_ret|by apply Hm]. }
  assert (Hupd : forall i f, (i < UDP_MAX_SOCKETS)%nat ->
    (forall k, is_open (f k) = true -> is_open k = true /\ local_port (f k) = local_port k /\ local_addr (f k) = local_addr k) ->
    safe E (upd_sock i f ;;; ret 0)).
  { intros i f Hlt Hf. apply udp_safe_bind; [by apply safe_same|]. intros _. apply udp_safe_ret. }
  destruct c; intros Hc; apply Hd; cbn [call_ok] in Hc.
  - by apply udp_safe_rx.
  - apply udp_safe_create.
  - destruct p as [i|]; [|apply udp_safe_ret]. specialize (Hc i eq_refl). unfold udp_socket_close.
    destruct (Nat.leb_spec UDP_MAX_SOCKETS i); [lia|].
    apply udp_safe_read; [done|]. intros k s Hi _. case_if; [by apply udp_safe_ret|]. apply Hupd; done.
  - by apply udp_safe_bind_call.
  - destruct p as [i|], a as [a|]; try apply udp_safe_ret. apply Hopen; [by apply Hc|]. apply Hupd; [by apply Hc|done].
  - destruct Hc as [Hp Hdd]. destruct p as [i|], data as [d|]; try apply udp_safe_ret.
    pose proof (Hp i eq_refl). apply udp_safe_read; [done|]. intros k s Hi _. repeat case_if; try (by apply udp_safe_ret).
    by apply safe_tx.
  - destruct Hc as [Hp Hdd]. destruct p as [i|], data as [d|], a as [a|]; try apply udp_safe_ret.
    apply Hopen; [by apply Hp|]. by apply safe_tx.
  - destruct p as [i|]; [|apply udp_safe_ret]. apply Hopen; [by apply Hc|]. apply Hupd; [by apply Hc|done].
  - destruct p as [i|]; [|apply udp_safe_ret]. apply Hopen; [by apply Hc|]. apply Hupd; [by apply Hc|done].
Qed.

(** C27. No two open sockets overlap: after any sequence of received packets and
    calls, two open sockets with the same port are bound to different addresses,
    neither of them "any". Every call returns without a fault. [udp_socket_bind] is
    to be called with a port, and with no address or one that is not "any": it does
    not look whether its own argument is "any", nor for a clash when it is given an
    address and port 0. *)
Theorem udp_sockets_disjoint s calls :
  inv E s -> Forall call_ok calls ->
  wp (mfor calls run_call)
    (fun _ s' => forall i j ki kj, i <> j -> sockets s' !! i = Some ki -> sockets s' !! j = Some kj ->
       is_open ki = true -> is_open kj = true -> local_port ki = local_port kj ->
       ip_addr_is_any E (local_addr ki) = false /\ ip_addr_is_any E (local_addr kj) = false /\
       local_addr ki <> local_addr kj) s.
Proof.
  intros Hi Hc. eapply wp_mono; [apply (wp_mfor (inv E)); [|exact Hi]|].
  - intros c s1 Hin Hi1. apply udp_safe_run_call; [|done]. by eapply Forall_forall in Hc.
  - intros [] s' Hi' i j ki kj Hne Hki Hkj Ho Ho' Hp.
    pose proof (ui_excl _ _ Hi' i j ki kj Hne Hki Hkj Ho Ho' Hp) as Hcl. unfold clash, Ip.ip_addr_cmp in Hcl.
    bools. split_and!; [done|done|]. match goal with H : bool_decide _ = false |- _ => by apply bool_decide_eq_false in H end.
Qed.

(** *** Delivery *)

Lemma find_unique ks : forall n i k dport dst,
  ks !! i = Some k -> is_open k = true -> local_port k = dport ->
  (ip_addr_is_any E (local_addr k) = true \/ local_addr k = dst) ->
  (forall j kj, j <> i -> ks !! j = Some kj -> is_open kj = true -> local_port kj = dport ->
     clash E (local_addr kj) (local_addr k) = false) ->
  find_from E ks n dport dst = Some (n + i)%nat.
Proof.
  induction ks as [|k0 ks IH]; intros n i k dport dst Hk Ho Hp Ha Hex; [done|]. cbn [find_from].
  destruct i as [|i].
  - injection Hk as ->. rewrite Ho, Hp, Z.eqb_refl, Nat.add_0_r. cbn [andb]. unfold Ip.ip_addr_cmp.
    destruct Ha as [->| ->]; cbn [negb andb]; [done|]. rewrite bool_decide_true by done. by rewrite andb_false_r.
  - assert (Hrec : find_from E ks (S n) dport dst = Some (n + S i)%nat).
    { replace (n + S i)%nat with (S n + i)%nat by lia. apply (IH _ _ k); [done..|].
      intros j kj Hne. apply (Hex (S j)). lia. }
    destruct (is_open k0 && (local_port k0 =? dport)) eqn:E0; [|done]. bools.
    specialize (Hex 0%nat k0). unfold clash, Ip.ip_addr_cmp in *.
    assert (Hcl := Hex ltac:(lia) eq_refl ltac:(done) ltac:(done)). bools.
    rewrite H1. cbn [negb andb]. destruct Ha as [Ha|Ha]; [congruence|]. subst dst.
    match goal with H : bool_decide _ = false |- _ => rewrite H end. done.
Qed.

(** A datagram as built and as parsed. *)
Lemma datagram_parse sport src dport dst data s :
  u16_ok sport -> u16_ok dport -> Z.of_nat (length data) <= 65527 ->
  let seg := build_datagram sport src dport dst data in
  udp_rx E (Some (Tcp.mk_packet (Tcp.seg_bytes seg) (Some (Tcp.seg_src seg, Tcp.seg_dst seg)))) s =
  udp_deliver E src sport dst dport data s.
Proof.
  intros Hs Hd Hlen seg. unfold build_datagram in seg. unfold UDP_HEADER_SIZE in seg.
  set (size := 8 + Z.of_nat (length data)) in *.
  set (c := udp_checksum (header_bytes sport dport size 0) data src dst) in *.
  assert (Hc : u16_ok c) by apply u16_typed.
  set (h := header_bytes sport dport size c) in *.
  assert (Hsz : u16 size = size) by (apply Z.mod_small; unfold size; lia).
  assert (Hh : take 8 (h ++ data) = h) by (unfold h; cbn; by rewrite take_0).
  assert (Hdr : drop 8 (h ++ data) = data) by done.
  assert (Hw : Tcp.word16 h 0 = sport /\ Tcp.word16 h 2 = dport /\ Tcp.word16 h 4 = size).
  { assert (u16_ok size) by (unfold u16_ok, size; lia).
    unfold Tcp.word16, h, header_bytes, Ip.byte. rewrite Hsz. cbn [Tcp.be16 app nth]. rewrite !TcpThms.hi_lo by done. done. }
  destruct Hw as (Hw1 & Hw2 & Hw3).
  unfold udp_rx. cbn [Tcp.pkt_bytes Tcp.pkt_addrs Tcp.seg_bytes Tcp.seg_src Tcp.seg_dst seg].
  rewrite Hh, Hw1, Hw2, Hw3, Hdr. unfold UDP_HEADER_SIZE.
  rewrite length_app, Nat2Z.inj_add. change (Z.of_nat (length h)) with 8. fold size.
  destruct (Z.ltb_spec size 8); [unfold size in *; lia|]. rewrite Z.ltb_irrefl. cbn [orb].
  unfold bind at 1, deref, ret at 1.
  replace (Z.to_nat (size - 8)) with (length data) by (unfold size; lia). rewrite firstn_all.
  change (Ip.set_word h 6 0 0) with (header_bytes sport dport size 0). fold c.
  change (Ip.byte h 6) with (Ip.lo c). change (Ip.byte h 7) with (Ip.hi c).
  rewrite TcpThms.lo_hi_bytes, Z.eqb_refl by done. cbn [negb]. by rewrite andb_false_r.
Qed.

(** A datagram reaches the socket it is for: received by a host whose sockets do
    not overlap, the packet built by [udp_tx] for up to 65527 bytes of data passes the
    checks, and the callback of the open socket with that port and address is called
    with the sender's address and port and with exactly the data, and no other. *)
Theorem datagram_reaches_socket s i k sport src dst data :
  inv E s -> sockets s !! i = Some k -> is_open k = true ->
  (ip_addr_is_any E (local_addr k) = true \/ local_addr k = dst) ->
  u16_ok sport -> u16_ok (local_port k) -> Z.of_nat (length data) <= 65527 ->
  let seg := build_datagram sport src (local_port k) dst data in
  udp_rx E (Some (Tcp.mk_packet (Tcp.seg_bytes seg) (Some (Tcp.seg_src seg, Tcp.seg_dst seg)))) s =
  ((match receive_callback k with None => ret tt | Some f => callback E f i src sport data end) ;;; ret 0) s.
Proof.
  intros Hi Hk Ho Ha Hs Hp Hlen seg. unfold seg. rewrite datagram_parse by done.
  unfold udp_deliver, udp_find_socket. unfold bind at 1, bind at 1, get, ret at 1.
  rewrite (find_unique _ 0 i k); [|done..|].
  - cbn [Nat.add]. unfold read_sock. unfold bind at 1, bind at 1, get. rewrite Hk. done.
  - intros j kj Hne Hj Hoj Hpj. by apply (ui_excl _ _ Hi j i).
Qed.

End Calls.

(** *** Examples *)

(** A network that takes every datagram, and callbacks that answer the sender. *)
Definition echo_env : env :=
  mk_env (fun a => bool_decide (a = [0; 0; 0; 0])) (fun _ _ => Some 0)
    (fun _ _ src sport data =>
       modify (fun s => mk_udp (sockets s) (last_dynamic_port s) (below s) (Tcp.mk_segment [] src data :: sent s))).

#[export] Instance echo_env_ok : EnvOk echo_env.
Proof. intros f i src sport data s [H1 H2 H3 H4]. by split. Qed.

Definition boot_state : udp :=
  mk_udp (replicate UDP_MAX_SOCKETS zero_socket) Ports.DYNAMIC_PORT_START TcpThms.no_net [].

Lemma udp_boot_inv E : inv E boot_state.
Proof.
  split; [done| |done|done]. intros i j ki kj _ Hi _ Ho. cbn [boot_state sockets] in Hi.
  apply lookup_replicate in Hi as [-> _]. done.
Qed.

Definition two_calls : list call :=
  [CCreate (Some [10; 0; 0; 1]) 53; CCreate (Some [10; 0; 0; 2]) 53; CCallback (Some 1%nat) (Some 9%positive)].
Definition two : udp := match mfor two_calls (run_call echo_env) boot_state with Ret (_, s) => s | _ => boot_state end.

Lemma two_calls_ok : Forall (call_ok echo_env) two_calls.
Proof.
  unfold two_calls. rewrite !Forall_cons. cbn [call_ok].
  split_and!; [done|done| |by apply Forall_nil]. intros ? [= <-]. unfold UDP_MAX_SOCKETS. lia.
Qed.

Lemma two_inv : inv echo_env two.
Proof.
  assert (H : wp (mfor two_calls (run_call echo_env)) (fun _ s' => inv echo_env s') boot_state).
  { apply wp_mfor; [|apply udp_boot_inv]. intros c s Hc Hi. apply (udp_safe_run_call echo_env); [|done].
    pose proof two_calls_ok as Hok. by eapply Forall_forall in Hok. }
  revert H. unfold two, wp. by destruct (mfor _ _ _) as [[[] s]| |].
Qed.

Lemma udp_sockets_disjoint_witness :
  wp (mfor two_calls (run_call echo_env))
    (fun _ s' => forall i j ki kj, i <> j -> sockets s' !! i = Some ki -> sockets s' !! j = Some kj ->
       is_open ki = true -> is_open kj = true -> local_port ki = local_port kj ->
       ip_addr_is_any echo_env (local_addr ki) = false /\ ip_addr_is_any echo_env (local_addr kj) = false /\
       local_addr ki <> local_addr kj) boot_state.
Proof. apply (udp_sockets_disjoint echo_env boot_state two_calls); [apply udp_boot_inv|apply two_calls_ok]. Defined.

Lemma datagram_reaches_socket_witness :
  let seg := build_datagram 4000 [10; 0; 0; 9] 53 [10; 0; 0; 2] [1; 2; 3] in
  udp_rx echo_env (Some (Tcp.mk_packet (Tcp.seg_bytes seg) (Some (Tcp.seg_src seg, Tcp.seg_dst seg)))) two =
  (callback echo_env 9 1%nat [10; 0; 0; 9] 4000 [1; 2; 3] ;;; ret 0) two.
Proof.
  apply (datagram_reaches_socket echo_env two 1%nat (nth 1 (sockets two) zero_socket) 4000 [10; 0; 0; 9] [10; 0; 0; 2] [1; 2; 3]).
  - apply two_inv.
  - vm_compute. reflexivity.
  - vm_compute. reflexivity.
  - right. vm_compute. reflexivity.
  - unfold u16_ok. lia.
  - vm_compute. split; [discriminate|reflexivity].
  - cbn. lia.
Defined.

(** [udp_socket_bind] with the address "any": the socket takes over the datagrams of
    another one, which is bound to the very address they are sent to. *)
Definition steal_calls : list call :=
  [CCreate (Some [10; 0; 0; 2]) 54; CCreate (Some [10; 0; 0; 1]) 53; CBind (Some 0%nat) (Some [0; 0; 0; 0]) 53].

Example bind_any_takes_over :
  match mfor steal_calls (run_call echo_env) boot_state with
  | Ret (_, s) => find_from echo_env (sockets s) 0 53 [10; 0; 0; 1] = Some 0%nat /\
      exists k, sockets s !! 1%nat = Some k /\ is_open k = true /\ local_port k = 53 /\ local_addr k = [10; 0; 0; 1]
  | _ => False
  end.
Proof. vm_compute. split; [reflexivity|]. eexists. split_and!; reflexivity. Qed.

End Udp.
