(* ===== verification/Ethernet.v ===== *)
(** * Ethernet frames ([network/src/ethernet.c])

    Reception and transmission of frames in the packet buffers of [Network], and the text
    form of hardware addresses. The members of a device that only this file uses are in
    [link]; the driver's [transmit] and IP's [ip_rx] are the environment.

    [protocol_handlers] is initialised by index, and IP and ARP have the same index (the
    high byte of their types is 8), so the entry of IP is overwritten by that of ARP, as C
    says for two initialisers of one element.

    Shown: what every frame leads to (no frame ever reaches IP), that a frame that is sent
    is the header and the data, and that text of an address is read back. *)

From Stdlib Require Import ZArith Lia Ascii String.
From stdpp Require Import base tactics option numbers gmap strings list.
From S2P Require Import Prelude Network.

Set Default Goal Selector "!".
Local Open Scope Z_scope.
Local Open Scope kernel_scope.

Module Ethernet.
Import Network.

Definition NET_ERR_NOPROTO : Z := -3.
Definition NET_ERR_BUSY : Z := -4.
Definition NET_PROTO_ETH : Z := 1.
Definition NET_BUF_FLAG_BROADCAST : Z := 2.
Definition NET_BUF_FLAG_MULTICAST : Z := 4.
Definition ETH_TYPE_IP : Z := 0x0800.
Definition ETH_TYPE_ARP : Z := 0x0806.
Definition ETH_HEADER_SIZE : Z := 14.
Definition broadcast_mac : list Z := [0xFF; 0xFF; 0xFF; 0xFF; 0xFF; 0xFF].

(** The members [mac] and [stats.tx_...] of a device. *)
Record link : Type := mk_link {
  mac : list Z;
  tx_packets : Z;
  tx_bytes : Z;
  tx_errors : Z;
}.

Record eth : Type := mk_eth {
  stack : net;
  links : gmap addr link;
}.

(** IP's handler, and the driver of a device; [None] when it cannot transmit. *)
Record env : Type := mk_env {
  ip_rx : addr -> M eth Z;
  transmit : addr -> option (addr -> M eth Z);
}.

Definition on_net {A} (m : M net A) : M eth A := fun s =>
  match m (stack s) with
  | Ret (a, n) => Ret (a, mk_eth n (links s))
  | Spin => Spin
  | Fault => Fault
  end.

Definition upd_buffer (a : addr) (f : net_buffer -> net_buffer) : M eth unit :=
  on_net (b <- read_buffer a ;; write_buffer a (f b)).
Definition upd_link (a : addr) (f : link -> link) : M eth unit :=
  s <- get ;; l <- deref (links s !! a) ;; put (mk_eth (stack s) (<[a := f l]> (links s))).

Definition set_buf_flags (x : Z) (b : net_buffer) : net_buffer :=
  mk_buffer (data b) (len b) (Network.size b) (offset b) x (protocol b) (device b) (next b).

(** [n] bytes at a pointer. *)
Definition bytes_at (d : addr * Z) (n : nat) : M eth (list Z) :=
  s <- get ;;
  l <- deref (blocks (stack s) !! d.1) ;;
  if (0 <=? d.2) && (d.2 + Z.of_nat n <=? Z.of_nat (length l)) then ret (take n (drop (Z.to_nat d.2) l)) else fault.

(** ** Addresses *)

Definition ethernet_is_broadcast (m : option (list Z)) : bool :=
  match m with None => false | Some m => bool_decide (m = broadcast_mac) end.

Definition ethernet_is_multicast (m : option (list Z)) : bool :=
  match m with None => false | Some m => has_flag (nth 0 m 0) 1 end.

(** [memcmp] of the first bytes that differ. *)
Fixpoint memcmp (a b : list Z) : Z :=
  match a, b with
  | x :: a', y :: b' => if x =? y then memcmp a' b' else x - y
  | _, _ => 0
  end.

Definition ethernet_mac_cmp (m1 m2 : option (list Z)) : Z :=
  match m1, m2 with
  | Some a, Some b => memcmp a b
  | _, _ => -1
  end.

(** What the destination holds afterwards. *)
Definition ethernet_mac_copy (dst src : option (list Z)) : option (list Z) :=
  match dst, src with
  | Some _, Some m => Some m
  | _, _ => dst
  end.

Definition ethernet_generate_mac : list Z :=
  let random := 0x12345678 in
  [2; Z.land (Z.shiftr random 24) 0xFF; Z.land (Z.shiftr random 16) 0xFF; Z.land (Z.shiftr random 8) 0xFF; Z.land random 0xFF; 0xAA].

(** ** Text *)

Definition hex_digit (n : Z) : ascii := ascii_of_nat (Z.to_nat (if n <? 10 then 48 + n else 87 + n)).

(** [%02x] of a byte. *)
Definition hex2 (n : Z) : string := String (hex_digit (n / 16)) (String (hex_digit (n mod 16)) EmptyString).

Definition ethernet_mac_to_str (m : option (list Z)) : option string :=
  match m with
  | Some [a; b; c; d; e; f] =>
      Some (hex2 a +:+ ":" +:+ hex2 b +:+ ":" +:+ hex2 c +:+ ":" +:+ hex2 d +:+ ":" +:+ hex2 e +:+ ":" +:+ hex2 f)%string
  | _ => None
  end.

Definition hex_value (c : ascii) : option Z :=
  let n := Z.of_nat (nat_of_ascii c) in
  if (48 <=? n) && (n <=? 57) then Some (n - 48)
  else if (97 <=? n) && (n <=? 102) then Some (n - 87)
  else if (65 <=? n) && (n <=? 70) then Some (n - 55)
  else None.

(** The digits at the start of [s] after the value [acc] of those before them. *)
Fixpoint scan_hex_digits (s : string) (acc : Z) : Z * string :=
  match s with
  | String c s' =>
      match hex_value c with
      | Some v => scan_hex_digits s' (16 * acc + v)
      | None => (acc, s)
      end
  | EmptyString => (acc, s)
  end.

Definition scan_hex_nat (s : string) : option (Z * string) :=
  match s with
  | String c _ => match hex_value c with Some _ => Some (scan_hex_digits s 0) | None => None end
  | EmptyString => None
  end.

(** The digits may follow [0x] or [0X]. *)
Definition scan_prefixed (s : string) : option (Z * string) :=
  match s with
  | String "0" (String x s') =>
      if (nat_of_ascii x =? 120)%nat || (nat_of_ascii x =? 88)%nat then scan_hex_nat s' else scan_hex_nat s
  | _ => scan_hex_nat s
  end.

(** [%x]: white space, an optional sign, an optional prefix, digits; values that do not
    fit become the largest one. *)
Definition scan_hex (s : string) : option (Z * string) :=
  let fit v := if 2 ^ 32 <=? v then 2 ^ 32 - 1 else v in
  match skip_spaces s with
  | String "-" s' => r ← scan_prefixed s'; Some (if 2 ^ 32 <=? r.1 then 2 ^ 32 - 1 else u32 (- r.1), r.2)
  | String "+" s' => r ← scan_prefixed s'; Some (fit r.1, r.2)
  | s' => r ← scan_prefixed s'; Some (fit r.1, r.2)
  end.

Definition scan_char (c : ascii) (s : string) : option string :=
  match s with String c' s' => if bool_decide (c' = c) then Some s' else None | EmptyString => None end.

(** Six numbers with [sep] between them. *)
Definition scan_six (sep : ascii) (s : string) : option (list Z) :=
  r1 ← scan_hex s; s ← scan_char sep r1.2; r2 ← scan_hex s; s ← scan_char sep r2.2; r3 ← scan_hex s; s ← scan_char sep r3.2;
  r4 ← scan_hex s; s ← scan_char sep r4.2; r5 ← scan_hex s; s ← scan_char sep r5.2; r6 ← scan_hex s;
  Some [r1.1; r2.1; r3.1; r4.1; r5.1; r6.1].

(** Bytes are stored until one is too large. *)
Fixpoint store_bytes (a old : list Z) : Z * list Z :=
  match a, old with
  | x :: a', _ :: old' => if 0xFF <? x then (NET_ERR_INVALID, old) else let '(r, l) := store_bytes a' old' in (r, u8 x :: l)
  | _, _ => (0, old)
  end.

(** The result code and what [*mac] holds afterwards. *)
Definition ethernet_str_to_mac (str : option string) (out : option (list Z)) : Z * option (list Z) :=
  match str, out with
  | Some s, Some old =>
      match (match scan_six ":" s with Some a => Some a | None => scan_six "-" s end) with
      | None => (NET_ERR_INVALID, Some old)
      | Some a => let '(r, l) := store_bytes a old in (r, Some l)
      end
  | _, _ => (NET_ERR_INVALID, out)
  end.

(** ** Frames *)

Definition ethernet_init : M eth Z := ret 0.

Inductive handler : Type := HandleIp | HandleArp.

#[export] Instance handler_eq_dec : EqDecision handler.
Proof. solve_decision. Defined.

Definition protocol_handlers : list (option handler) :=
  <[Z.to_nat (Z.shiftr ETH_TYPE_ARP 8) := Some HandleArp]>
    (<[Z.to_nat (Z.shiftr ETH_TYPE_IP 8) := Some HandleIp]> (replicate 9 None)).

(** A 16-bit value with its bytes exchanged. *)
Definition swap16 (x : Z) : Z := Z.lor (Z.shiftr x 8) (Z.shiftl (Z.land x 0xff) 8).

Section Ops.
Context (E : env).

Definition ethernet_handle_ip (a : addr) : M eth Z :=
  upd_buffer a (set_protocol NET_PROTO_IP) ;;; ip_rx E a.

Definition ethernet_handle_arp (a : addr) : M eth Z :=
  upd_buffer a (set_protocol NET_PROTO_ARP) ;;; ret 0.

Definition run_handler (h : handler) (a : addr) : M eth Z :=
  match h with HandleIp => ethernet_handle_ip a | HandleArp => ethernet_handle_arp a end.

Definition ethernet_rx (buffer : ptr) : M eth Z :=
  match buffer with
  | None => ret NET_ERR_INVALID
  | Some a =>
      b <- on_net (read_buffer a) ;;
      if len b <? ETH_HEADER_SIZE then ret NET_ERR_INVALID
      else
        d <- deref (data b) ;;
        header <- bytes_at d 14 ;;
        let ethertype := u16 (swap16 (nth 12 header 0 + 256 * nth 13 header 0)) in
        match arr_get protocol_handlers (Z.shiftr ethertype 8) with
        | None | Some None => ret NET_ERR_NOPROTO
        | Some (Some h) =>
            upd_buffer a (set_protocol NET_PROTO_ETH) ;;;
            _d <- on_net (net_buffer_pull (Some a) ETH_HEADER_SIZE) ;;
            header <- bytes_at d 14 ;;
            let dest := Some (take 6 header) in
            (if ethernet_is_broadcast dest then upd_buffer a (fun b => set_buf_flags (Z.lor (flags b) NET_BUF_FLAG_BROADCAST) b)
             else if ethernet_is_multicast dest then upd_buffer a (fun b => set_buf_flags (Z.lor (flags b) NET_BUF_FLAG_MULTICAST) b)
             else ret tt) ;;;
            run_handler h a
        end
  end.

Definition ethernet_tx (dev buffer : ptr) (dest : option (list Z)) (ethertype : Z) : M eth Z :=
  match dev, buffer, dest with
  | Some dv, Some a, Some m =>
      d <- on_net (read_dev dv) ;;
      if negb (has_flag (dev_flags d) NET_DEV_FLAG_UP) then ret NET_ERR_BUSY
      else
        b <- on_net (read_buffer a) ;;
        if offset b <? ETH_HEADER_SIZE then ret NET_ERR_NOMEM
        else
          p <- on_net (net_buffer_push (Some a) ETH_HEADER_SIZE) ;;
          match p with
          | None => ret NET_ERR_NOMEM
          | Some (blk, pos) =>
              on_net (memcpy_to (blk, pos) m 6) ;;;
              s <- get ;;
              l <- deref (links s !! dv) ;;
              on_net (memcpy_to (blk, pos + 6) (mac l) 6) ;;;
              let t := u16 (swap16 ethertype) in
              on_net (memcpy_to (blk, pos + 12) [t mod 256; t / 256] 2) ;;;
              upd_buffer a (set_device (Some dv)) ;;;
              b <- on_net (read_buffer a) ;;
              upd_link dv (fun l => mk_link (mac l) (u64 (tx_packets l + 1)) (u64 (tx_bytes l + len b)) (tx_errors l)) ;;;
              match transmit E dv with
              | Some send =>
                  result <- send a ;;
                  (if negb (result =? 0)
                   then upd_link dv (fun l => mk_link (mac l) (tx_packets l) (tx_bytes l) (u64 (tx_errors l + 1))) else ret tt) ;;;
                  ret result
              | None => ret NET_ERR_INVALID
              end
          end
  | _, _, _ => ret NET_ERR_INVALID
  end.

Definition ethernet_alloc_frame (payload : Z) (a1 : ptr) (a2 : option (addr * list Z)) : M eth ptr :=
  on_net (net_buffer_alloc (u32 (ETH_HEADER_SIZE + payload)) ETH_HEADER_SIZE a1 a2).

End Ops.

(** ** Properties *)

Lemma wp_eth_net {A} (m : M net A) Q s :
  wp m (fun a n => Q a (mk_eth n (links s))) (stack s) -> wp (on_net m) Q s.
Proof. unfold wp, on_net. by destruct (m (stack s)) as [[a n]| |]. Qed.

Lemma wp_upd_buffer a b f Q s : buffers (stack s) !! a = Some b ->
  Q tt (mk_eth (set_buffers (<[a := f b]> (buffers (stack s))) (stack s)) (links s)) -> wp (upd_buffer a f) Q s.
Proof.
  intros Hb HQ. apply wp_eth_net. wp_steps. eapply wp_read_buffer; [done|]. unfold write_buffer. by wp_steps.
Qed.

Lemma wp_bytes_at blk pos n l Q s : blocks (stack s) !! blk = Some l -> 0 <= pos -> pos + Z.of_nat n <= Z.of_nat (length l) ->
  Q (take n (drop (Z.to_nat pos) l)) s -> wp (bytes_at (blk, pos) n) Q s.
Proof.
  intros Hl Hp Hn HQ. unfold bytes_at. wp_steps. cbn [fst snd]. rewrite Hl. cbn [deref]. wp_steps.
  destruct (Z.leb_spec 0 pos), (Z.leb_spec (pos + Z.of_nat n) (Z.of_nat (length l))); [done|lia..].
Qed.

Lemma swap16_bytes x y : 0 <= x < 256 -> 0 <= y < 256 -> swap16 (x + 256 * y) = y + x * 2 ^ 8.
Proof.
  intros Hx Hy. unfold swap16. rewrite Z.shiftr_div_pow2, Z.shiftl_mul_pow2 by lia. change 0xff with (Z.ones 8).
  rewrite Z.land_ones by lia. replace ((x + 256 * y) / 2 ^ 8) with y by (rewrite Z.mul_comm, Z.div_add, Z.div_small; lia).
  replace ((x + 256 * y) mod 2 ^ 8) with x by (rewrite Z.mul_comm, Z.mod_add, Z.mod_small; lia). apply lor_high; lia.
Qed.

Lemma handler_at i : 0 <= i < 256 ->
  arr_get protocol_handlers i = if i =? 8 then Some (Some HandleArp) else if i <? 8 then Some None else None.
Proof.
  intros Hi. assert (forallb (fun i => bool_decide (arr_get protocol_handlers i =
    if i =? 8 then Some (Some HandleArp) else if i <? 8 then Some None else None)) (seqZ 0 256) = true) as H by (vm_compute; reflexivity).
  rewrite forallb_forall in H. specialize (H i). rewrite bool_decide_eq_true in H. apply H, list_elem_of_In, elem_of_seqZ. lia.
Qed.

Lemma nth_take_window (l : list Z) i n : (i < n)%nat -> nth i (take n l) 0 = nth i l 0.
Proof. revert i l. induction n as [|n IH]; intros i [|x l] Hi; [lia..|done|]. destruct i; [done|]. simpl. apply IH. lia. Qed.

(** What the flags of a received frame become. *)
Definition cast_flags (dest : list Z) (fl : Z) : Z :=
  if bool_decide (dest = broadcast_mac) then Z.lor fl NET_BUF_FLAG_BROADCAST
  else if has_flag (nth 0 dest 0) 1 then Z.lor fl NET_BUF_FLAG_MULTICAST else fl.

(** C32. Reception of frames: a buffer shorter than the header, or whose type does not begin
    with the byte 8, is refused and left as it is. Every other frame, also one of type
    0x0800, which is IP, loses its header, has its broadcast or multicast flag set and is
    marked as ARP; the call returns 0 and IP's handler is never called, whatever it is. *)
Theorem ethernet_rx_exact E s a b blk l :
  buf_ok (stack s) a b blk l -> Forall (fun x => 0 <= x < 256) (window b l) ->
  wp (ethernet_rx E (Some a)) (fun r s' =>
    if len b <? 14 then r = NET_ERR_INVALID /\ s' = s
    else if nth 12 (window b l) 0 =? 8 then
      r = 0 /\ exists b', s' = mk_eth (set_buffers (<[a := b']> (buffers (stack s))) (stack s)) (links s) /\
        protocol b' = NET_PROTO_ARP /\ window b' l = drop 14 (window b l) /\ flags b' = cast_flags (take 6 (window b l)) (flags b)
    else r = NET_ERR_NOPROTO /\ s' = s) s.
Proof.
  intros [Hlive Hd Hb Hsz Hpos Hfl] Hby. unfold ethernet_rx. wp_steps. apply wp_eth_net. eapply wp_read_buffer; [done|].
  change ETH_HEADER_SIZE with 14. destruct s as [st lk]; cbn [stack links] in *. destruct (Z.ltb_spec (len b) 14) as [|Hlen]; wp_steps; [done|].
  rewrite Hd. cbn [deref]. wp_steps. eapply wp_bytes_at; [done|lia|lia|].
  assert (take 14 (drop (Z.to_nat (offset b)) l) = take 14 (window b l)) as ->.
  { unfold window. rewrite take_take. f_equal. lia. }
  assert (14 <= length (window b l))%nat as Hwl by (unfold window; rewrite length_take, length_drop; lia).
  rewrite !nth_take_window by lia. set (x := nth 12 (window b l) 0) in *. set (y := nth 13 (window b l) 0).
  assert (0 <= x < 256 /\ 0 <= y < 256) as [Hx Hy] by (rewrite Forall_nth in Hby; split; apply Hby; lia).
  rewrite swap16_bytes by done. unfold u16. rewrite Z.mod_small, Z.shiftr_div_pow2, Z.div_add, Z.div_small, Z.add_0_l, handler_at by lia.
  destruct (x =? 8); [|by destruct (x <? 8); wp_steps]. wp_steps.
  eapply wp_upd_buffer; [done|]. wp_steps. apply wp_eth_net. unfold net_buffer_pull. wp_steps.
  eapply wp_read_buffer; [apply lookup_insert_eq|]. cbn [data set_protocol len]. rewrite Hd. destruct (Z.ltb_spec (len b) 14); [lia|].
  unfold write_buffer. wp_steps. eapply wp_bytes_at; [done|lia|lia|].
  assert (take 6 (take 14 (drop (Z.to_nat (offset b)) l)) = take 6 (window b l)) as ->.
  { unfold window. rewrite !take_take. f_equal. lia. }
  cbn [stack links set_buffers buffers]. rewrite insert_insert_eq. set (b1 := set_window _ _ _ _).
  set (Q := fun (r : Z) (s' : eth) => r = 0 /\ _).
  assert (forall f, flags f = cast_flags (take 6 (window b l)) (flags b) -> len f = len b1 -> offset f = offset b1 ->
    wp (run_handler E HandleArp a) Q (mk_eth (set_buffers (<[a := f]> (buffers st)) st) lk)) as Hend.
  { intros f F1 F2 F3. cbn [run_handler]. unfold ethernet_handle_arp. wp_steps. eapply wp_upd_buffer; [apply lookup_insert_eq|]. wp_steps.
    simpl. rewrite insert_insert_eq. split; [done|]. eexists. split; [done|]. split; [done|]. split; [|done].
    unfold window. cbn [len offset set_protocol]. rewrite F2, F3. simpl.
    rewrite !u32_small by lia. rewrite skipn_firstn_comm, drop_drop. f_equal; [lia|]. f_equal. lia. }
  unfold cast_flags in Hend. cbn [ethernet_is_broadcast ethernet_is_multicast].
  destruct (bool_decide (take 6 (window b l) = broadcast_mac));
    [|destruct (has_flag (nth 0 (take 6 (window b l)) 0) 1); [|wp_steps; by apply Hend]];
    (wp_steps; eapply wp_upd_buffer; [apply lookup_insert_eq|]; cbn [stack links set_buffers buffers]; rewrite insert_insert_eq; by apply Hend).
Qed.

(** ** Transmission *)

(** The driver's turn, and the count of its errors. *)
Definition send_counted (send : addr -> M eth Z) (dv a : addr) : M eth Z :=
  result <- send a ;;
  (if negb (result =? 0)
   then upd_link dv (fun l => mk_link (mac l) (tx_packets l) (tx_bytes l) (u64 (tx_errors l + 1))) else ret tt) ;;;
  ret result.

(** Transmission of frames: to a device that is up, with room for the header before the
    data, [ethernet_tx] hands the driver a buffer that holds the destination, the address
    of the device, the type with its high byte first and the data as it was, counts the
    packet and its bytes, and returns what the driver returns. *)
Theorem ethernet_tx_frame E s dv d lk a b blk l m ty send :
  buf_ok (stack s) a b blk l -> devs (stack s) !! dv = Some d -> has_flag (dev_flags d) NET_DEV_FLAG_UP = true ->
  14 <= offset b -> links s !! dv = Some lk -> length m = 6%nat -> length (mac lk) = 6%nat -> 0 <= ty < 65536 ->
  transmit E dv = Some send ->
  exists s' b' l', buf_ok (stack s') a b' blk l' /\ device b' = Some dv /\
    window b' l' = m ++ mac lk ++ [ty / 256; ty mod 256] ++ window b l /\
    links s' !! dv = Some (mk_link (mac lk) (u64 (tx_packets lk + 1)) (u64 (tx_bytes lk + (len b + 14))) (tx_errors lk)) /\
    forall Q, wp (send_counted send dv a) Q s' -> wp (ethernet_tx E (Some dv) (Some a) (Some m) ty) Q s.
Proof.
  intros [Hlive Hd Hb Hsz Hpos Hfl] Hdv Hup Hoff Hlk Hm Hmac Hty Hsend. destruct s as [st lks]; cbn [stack links] in *.
  set (o := (Z.to_nat (offset b) - 14)%nat). set (h := m ++ mac lk ++ [ty / 256; ty mod 256]).
  assert (length h = 14%nat) as Hh by (unfold h; rewrite !length_app, Hm, Hmac; done).
  set (b1 := set_device (Some dv) (set_window (Some (blk, offset b - 14)) (offset b - 14) (len b + 14) b)).
  set (l1 := splice l o h).
  exists (mk_eth (set_buffers (<[a := b1]> (buffers st)) (set_blocks (<[blk := l1]> (blocks st)) st))
                 (<[dv := mk_link (mac lk) (u64 (tx_packets lk + 1)) (u64 (tx_bytes lk + (len b + 14))) (tx_errors lk)]> lks)), b1, l1.
  split; [split; simpl; rewrite ?lookup_insert_eq; try done; [unfold l1; rewrite splice_length; lia|lia]|]. split; [done|]. split.
  { unfold window at 1, b1, l1. cbn [len offset set_device set_window]. replace (Z.to_nat (len b + 14)) with (length h + Z.to_nat (len b))%nat by lia.
    replace (Z.to_nat (offset b - 14)) with o by lia. rewrite splice_header by lia.
    replace (o + length h)%nat with (Z.to_nat (offset b)) by lia. unfold h. by rewrite <- !app_assoc. }
  split; [simpl; by rewrite lookup_insert_eq|].
  intros Q HQ. unfold ethernet_tx. wp_steps. apply wp_eth_net. unfold read_dev. wp_steps. cbn [stack]. rewrite Hdv. cbn [deref]. wp_steps.
  rewrite Hup. cbn [negb]. wp_steps. apply wp_eth_net. eapply wp_read_buffer; [done|]. change ETH_HEADER_SIZE with 14.
  destruct (Z.ltb_spec (offset b) 14); [lia|]. wp_steps. apply wp_eth_net. unfold net_buffer_push. wp_steps. eapply wp_read_buffer; [done|].
  rewrite Hd. destruct (Z.ltb_spec (offset b) 14); [lia|]. unfold write_buffer. wp_steps. cbn [stack links].
  rewrite !u32_small by lia. apply wp_eth_net. eapply wp_memcpy; [done|lia|lia|lia|]. wp_steps. cbn [stack links]. rewrite Hlk. cbn [deref]. wp_steps.
  apply wp_eth_net. cbn [stack links]. eapply wp_memcpy; [apply lookup_insert_eq|lia|lia|rewrite splice_length; rewrite ?length_take; lia|].
  wp_steps. apply wp_eth_net. cbn [stack links].
  eapply wp_memcpy; [apply lookup_insert_eq|simpl; lia|lia|rewrite !splice_length; rewrite ?splice_length, ?length_take; rewrite ?length_take; lia|].
  wp_steps. eapply wp_upd_buffer; [apply lookup_insert_eq|]. wp_steps. apply wp_eth_net. eapply wp_read_buffer; [apply lookup_insert_eq|].
  unfold upd_link. wp_steps. cbn [stack links]. rewrite Hlk. cbn [deref]. wp_steps. rewrite Hsend. fold (send_counted send dv a).
  match goal with |- wp _ _ ?s => match type of HQ with wp _ _ ?s' => replace s with s'; [exact HQ|] end end.
  f_equal. unfold set_buffers, set_blocks. simpl. f_equal; [by rewrite insert_insert_eq|]. rewrite !insert_insert_eq. f_equal.
  pose proof (Z.div_mod ty 256 ltac:(lia)) as Ety. pose proof (Z.mod_pos_bound ty 256 ltac:(lia)) as Hlo.
  assert (0 <= ty / 256 < 256) as Hhi by (split; [apply Z.div_pos; lia|apply Z.div_lt_upper_bound; lia]).
  assert (u16 (swap16 ty) = ty / 256 + ty mod 256 * 256) as ->.
  { rewrite Ety at 1. rewrite Z.add_comm, swap16_bytes by lia. unfold u16. apply Z.mod_small. lia. }
  rewrite Z.mod_add, Z.div_add, (Z.mod_small (ty / 256)), (Z.div_small (ty / 256)), Z.add_0_l by lia.
  rewrite !firstn_all2 by lia. replace (Z.to_nat (offset b - 14)) with o by lia.
  replace (Z.to_nat (offset b - 14 + 6)) with (o + length m)%nat by lia. rewrite splice_app by lia.
  replace (Z.to_nat (offset b - 14 + 12)) with (o + length (m ++ mac lk))%nat by (rewrite length_app; lia).
  rewrite splice_app by (rewrite length_app; simpl; lia). unfold l1, h. by rewrite <- app_assoc.
Qed.

(** ** Text *)

Definition starts_with_hex (s : string) : bool :=
  match s with String c _ => bool_decide (is_Some (hex_value c)) | EmptyString => false end.

Lemma scan_hex_stop t acc : starts_with_hex t = false -> scan_hex_digits t acc = (acc, t).
Proof.
  destruct t as [|c t]; [done|]. simpl. intros H%bool_decide_eq_false. destruct (hex_value c) eqn:Ec; [|done]. destruct H. by eexists.
Qed.

Lemma hex_value_digit n : 0 <= n < 16 -> hex_value (hex_digit n) = Some n.
Proof.
  intros Hn. assert (forallb (fun n => bool_decide (hex_value (hex_digit n) = Some n)) (seqZ 0 16) = true) as H by (vm_compute; reflexivity).
  rewrite forallb_forall in H. specialize (H n). rewrite bool_decide_eq_true in H. apply H, list_elem_of_In, elem_of_seqZ. lia.
Qed.

(** A text that starts with a digit has neither white space nor a sign before it. *)
Lemma scan_hex_digit c v s : hex_value c = Some v ->
  scan_hex (String c s) = r ← scan_prefixed (String c s); Some (if 2 ^ 32 <=? r.1 then 2 ^ 32 - 1 else r.1, r.2).
Proof. intros Hc. destruct c as [[] [] [] [] [] [] [] []]; try discriminate Hc; done. Qed.

(** Two digits are no prefix. *)
Lemma scan_prefixed_digits c d v s : hex_value d = Some v -> scan_prefixed (String c (String d s)) = scan_hex_nat (String c (String d s)).
Proof.
  intros Hd. assert ((nat_of_ascii d =? 120)%nat || (nat_of_ascii d =? 88)%nat = false) as Hx.
  { destruct d as [[] [] [] [] [] [] [] []]; try discriminate Hd; done. }
  destruct c as [[] [] [] [] [] [] [] []]; cbn [scan_prefixed]; by rewrite ?Hx.
Qed.

Lemma scan_two_digits n m t : 0 <= n < 16 -> 0 <= m < 16 -> starts_with_hex t = false ->
  scan_hex (String (hex_digit n) (String (hex_digit m) t)) = Some (16 * n + m, t).
Proof.
  intros Hn Hm Ht. pose proof (hex_value_digit n Hn) as En. pose proof (hex_value_digit m Hm) as Em.
  rewrite (scan_hex_digit _ n), (scan_prefixed_digits _ _ m) by done. unfold scan_hex_nat. rewrite En. cbn [scan_hex_digits].
  rewrite En, Em, scan_hex_stop by done. cbn [mbind option_bind fst snd]. destruct (Z.leb_spec (2 ^ 32) (16 * (16 * 0 + n) + m)); [lia|]. do 2 f_equal; lia.
Qed.

Lemma scan_hex_byte a t : 0 <= a < 256 -> starts_with_hex t = false -> scan_hex (hex2 a +:+ t) = Some (a, t).
Proof.
  intros Ha Ht. change (hex2 a +:+ t) with (String (hex_digit (a / 16)) (String (hex_digit (a mod 16)) t)).
  rewrite scan_two_digits; [by rewrite <- Z.div_mod by lia|split; [apply Z.div_pos|apply Z.div_lt_upper_bound]; lia|apply Z.mod_pos_bound; lia|done].
Qed.



Lemma scan_char_here c t : scan_char c (String c EmptyString +:+ t) = Some t.
Proof. simpl. by rewrite bool_decide_eq_true_2. Qed.

(** Hardware address text round trip: [ethernet_str_to_mac] reads back every address
    that [ethernet_mac_to_str] prints, also with text behind it that does not begin with a
    hexadecimal digit. *)
Theorem mac_text_roundtrip a b c d e f old txt junk :
  Forall (fun x => 0 <= x < 256) [a; b; c; d; e; f] -> length old = 6%nat ->
  ethernet_mac_to_str (Some [a; b; c; d; e; f]) = Some txt -> starts_with_hex junk = false ->
  ethernet_str_to_mac (Some (txt +:+ junk)) (Some old) = (0, Some [a; b; c; d; e; f]).
Proof.
  intros Hb Hold [= <-] Hj. unfold ethernet_str_to_mac, scan_six. rewrite !string_app_assoc.
  repeat match goal with H : Forall _ (_ :: _) |- _ => apply Forall_cons in H as [? ?] end.
  do 5 (rewrite scan_hex_byte by done; cbn [mbind option_bind fst snd]; rewrite scan_char_here; cbn [mbind option_bind]).
  rewrite scan_hex_byte by done. cbn [mbind option_bind fst snd].
  destruct old as [|? [|? [|? [|? [|? [|? [|]]]]]]]; try done. cbn [store_bytes].
  repeat match goal with |- context [255 <? ?y] => destruct (Z.ltb_spec 255 y); [lia|] end.
  unfold u8. by rewrite !Z.mod_small by lia.
Qed.

(** ** Instances *)

Definition no_ip : env := mk_env (fun _ => fault) (fun _ => Some (fun _ => ret 0)).

Definition frame : list Z := [255; 255; 255; 255; 255; 255; 2; 0; 0; 0; 0; 1; 8; 0; 69; 0].

Definition received : eth :=
  mk_eth (mk_net [] 0 None 1 ∅ {[1%positive := mk_buffer (Some (2%positive, 0)) 16 16 0 NET_BUF_FLAG_ALLOC 0 None None]} {[2%positive := frame]}) ∅.

Lemma ethernet_rx_exact_witness :
  wp (ethernet_rx no_ip (Some 1%positive)) (fun r s' => r = 0 /\ exists b', buffers (stack s') !! 1%positive = Some b' /\
    protocol b' = NET_PROTO_ARP /\ window b' frame = [69; 0]) received.
Proof.
  eapply wp_mono.
  - apply (ethernet_rx_exact no_ip received 1 (mk_buffer (Some (2%positive, 0)) 16 16 0 NET_BUF_FLAG_ALLOC 0 None None) 2 frame).
    + split; try reflexivity. cbn [offset len Network.size]. lia.
    + refine (bool_decide_unpack _ _). vm_compute. exact I.
  - intros r s' (-> & b' & -> & Hp & Hw & _). split; [reflexivity|]. exists b'. split; [apply lookup_insert_eq|]. split; [exact Hp|exact Hw].
Defined.

Definition outgoing : eth :=
  mk_eth (mk_net [] 0 None 1 {[3%positive := eth0]}
            {[1%positive := mk_buffer (Some (2%positive, 14)) 2 16 14 NET_BUF_FLAG_ALLOC 0 None None]} {[2%positive := replicate 14 0 ++ [69; 1]]})
    {[3%positive := mk_link [2; 0; 0; 0; 0; 9] 0 0 0]}.

Lemma ethernet_tx_frame_witness :
  exists s' b' l', window b' l' = [2; 0; 0; 0; 0; 1; 2; 0; 0; 0; 0; 9; 8; 0; 69; 1] /\ buf_ok (stack s') 1 b' 2 l' /\
    wp (ethernet_tx no_ip (Some 3%positive) (Some 1%positive) (Some [2; 0; 0; 0; 0; 1]) ETH_TYPE_IP) (fun r s => r = 0 /\ s = s') outgoing.
Proof.
  destruct (ethernet_tx_frame no_ip outgoing 3 eth0 (mk_link [2; 0; 0; 0; 0; 9] 0 0 0) 1
    (mk_buffer (Some (2%positive, 14)) 2 16 14 NET_BUF_FLAG_ALLOC 0 None None) 2 (replicate 14 0 ++ [69; 1]) [2; 0; 0; 0; 0; 1] ETH_TYPE_IP
    (fun _ => ret 0)) as (s' & b' & l' & H1 & _ & H2 & _ & H3); try reflexivity; try (unfold ETH_TYPE_IP; lia); try (cbn [offset]; lia).
  - split; try reflexivity. cbn [offset len Network.size]. lia.
  - exists s', b', l'. split; [exact H2|]. split; [exact H1|]. apply H3. unfold send_counted, wp, bind, ret. simpl. split; reflexivity.
Defined.

Lemma mac_text_roundtrip_witness :
  ethernet_str_to_mac (Some "52:54:00:12:34:0a, up"%string) (Some [0; 0; 0; 0; 0; 0]) = (0, Some [0x52; 0x54; 0; 0x12; 0x34; 0x0a]).
Proof.
  apply (mac_text_roundtrip 0x52 0x54 0 0x12 0x34 0x0a [0; 0; 0; 0; 0; 0] "52:54:00:12:34:0a" ", up");
    [refine (bool_decide_unpack _ _); vm_compute; exact I|reflexivity|vm_compute; reflexivity|reflexivity].
Defined.

End Ethernet.
