(* ===== verification/Icmp.v ===== *)
(** * The control message protocol ([network/src/icmp.c])

    Echo requests and replies, and the messages the kernel sends. A packet is the list of
    its bytes. What the file calls and the repository does not have with that signature is
    the environment [env]: packet allocation (with the bytes that happen to be there), the
    transmission by IP, and the callback for echo replies. The addresses that [icmp_rx]
    reads through [protocol_data] are arguments.

    [icmp_header_t] has a union whose largest member is the time stamp of 16 bytes, so its
    size is 20 and not 8: that is where the data of a packet starts.

    Shown: a ping to a host that runs this code comes back as the reply the callback
    expects, with its identifier, sequence number and data. (Echo requests in the standard
    format, with a header of 8 bytes, are thrown away when they have less than 12 bytes of
    data, and answered with all of theirs otherwise.) *)

From Stdlib Require Import ZArith Lia String.
From stdpp Require Import base tactics option numbers gmap list.
From S2P Require Import Prelude Network Ip.

Set Default Goal Selector "!".
Local Open Scope Z_scope.
Local Open Scope kernel_scope.

Module Icmp.

Definition ICMP_TYPE_ECHO_REPLY : Z := 0.
Definition ICMP_TYPE_DEST_UNREACHABLE : Z := 3.
Definition ICMP_TYPE_SOURCE_QUENCH : Z := 4.
Definition ICMP_TYPE_REDIRECT : Z := 5.
Definition ICMP_TYPE_ECHO_REQUEST : Z := 8.
Definition ICMP_TYPE_TIME_EXCEEDED : Z := 11.
Definition ICMP_TYPE_PARAM_PROBLEM : Z := 12.
Definition ICMP_TYPE_TIMESTAMP_REQUEST : Z := 13.
Definition ICMP_TYPE_TIMESTAMP_REPLY : Z := 14.
Definition ICMP_TYPE_INFO_REQUEST : Z := 15.
Definition ICMP_TYPE_INFO_REPLY : Z := 16.
Definition IP_PROTO_ICMP : Z := 1.

(** [sizeof(icmp_header_t)] *)
Definition HEADER : Z := 20.

(** The static variable, the IP layer below, and what was handed to IP, latest first:
    the destination and the packet. *)
Record icmp : Type := mk_icmp {
  echo_reply_callback : ptr;
  below : Ip.ips;
  sent : list (list Z * list Z);
}.

Record env : Type := mk_env {
  ip_alloc_packet : icmp -> Z -> option (list Z);
  net_buffer_alloc : icmp -> Z -> bool;
  ip_tx : icmp -> list Z -> list Z -> Z;
  callback : addr -> list Z -> Z -> Z -> list Z -> M icmp unit;
}.

Definition on_ip {A} (m : M Ip.ips A) : M icmp A := fun s =>
  match m (below s) with
  | Ret (a, n) => Ret (a, mk_icmp (echo_reply_callback s) n (sent s))
  | Spin => Spin
  | Fault => Fault
  end.

(** The 16-bit member at offset [i]. *)
Definition word_at (p : list Z) (i : nat) : Z := Ip.byte p i + 256 * Ip.byte p (S i).

Definition set_type (type code : Z) (p : list Z) : list Z := <[0%nat := type]> (<[1%nat := code]> p).

Definition icmp_checksum (data : list Z) : Z := u16 (Z.lnot (Ip.fold_carry 3 (Ip.sum_words data 0))).

(** Fill in the checksum of a packet. *)
Definition seal (p : list Z) : list Z :=
  let p := Ip.set_word p 2 0 0 in
  let c := icmp_checksum p in
  Ip.set_word p 2 (Ip.lo c) (Ip.hi c).

Section Ops.
Context (E : env).

(** [rx] is the address of [icmp_rx]. *)
Definition icmp_init (rx : addr) : M icmp Z :=
  result <- on_ip (Ip.ip_register_protocol IP_PROTO_ICMP (Some rx)) ;;
  if negb (result =? 0) then ret result else ret 0.

(** [ip_tx], and [net_buffer_free] of a packet nobody else knows. *)
Definition transmit (dest p : list Z) : M icmp Z :=
  s <- get ;;
  let r := ip_tx E s dest p in
  put (mk_icmp (echo_reply_callback s) (below s) ((dest, p) :: sent s)) ;;;
  ret r.

Definition icmp_handle_echo_request (p src dest : list Z) : M icmp Z :=
  if Z.of_nat (length p) <? HEADER then ret (-1)
  else
    s <- get ;;
    if negb (net_buffer_alloc E s (Z.of_nat (length p))) then ret (-1)
    else transmit src (seal (set_type ICMP_TYPE_ECHO_REPLY 0 p)).

Definition icmp_rx (buffer : option (list Z)) (src dest : list Z) : M icmp Z :=
  match buffer with
  | None => ret (-1)
  | Some p =>
      if Z.of_nat (length p) <? HEADER then ret (-1)
      else if negb (word_at p 2 =? icmp_checksum (Ip.set_word p 2 0 0)) then ret (-1)
      else
        let type := Ip.byte p 0 in
        if type =? ICMP_TYPE_ECHO_REQUEST then icmp_handle_echo_request p src dest
        else if type =? ICMP_TYPE_ECHO_REPLY then
          s <- get ;;
          match echo_reply_callback s with
          | None => ret 0
          | Some f => callback E f src (word_at p 4) (word_at p 6) (drop (Z.to_nat HEADER) p) ;;; ret 0
          end
        else ret 0
  end.

(** Messages whose header has an identifier and a sequence number. *)
Definition has_identifier (type : Z) : bool :=
  (type =? ICMP_TYPE_ECHO_REQUEST) || (type =? ICMP_TYPE_ECHO_REPLY) || (type =? ICMP_TYPE_TIMESTAMP_REQUEST) ||
  (type =? ICMP_TYPE_TIMESTAMP_REPLY) || (type =? ICMP_TYPE_INFO_REQUEST) || (type =? ICMP_TYPE_INFO_REPLY).

(** Write a header with the four bytes [w] behind the checksum, and the data, if any, into
    the packet [p]; writing behind its end is a [Fault]. *)
Definition fill (type code : Z) (w : list Z) (data : option (list Z)) (data_len : Z) (p : list Z) : M icmp (list Z) :=
  let bytes := match data with Some d => take (Z.to_nat data_len) d | None => [] end in
  if (length p <? Z.to_nat HEADER + length bytes)%nat then fault
  else ret (splice (splice (set_type type code p) 4 w) (Z.to_nat HEADER) bytes).

(** Identifier and sequence number take the same four bytes as [unused], so both branches
    of the switch clear them. *)
Definition icmp_tx (type code : Z) (data : option (list Z)) (data_len : Z) (dest : option (list Z)) : M icmp Z :=
  match dest with
  | None => ret (-1)
  | Some d =>
      s <- get ;;
      match ip_alloc_packet E s (u32 (HEADER + data_len)) with
      | None => ret (-1)
      | Some p =>
          let w := if has_identifier type then [0; 0] ++ [0; 0] else [0; 0; 0; 0] in
          p <- fill type code w data data_len p ;;
          transmit d (seal p)
      end
  end.

Definition icmp_ping (dest : option (list Z)) (id seq : Z) (data : option (list Z)) (data_len : Z) : M icmp Z :=
  match dest with
  | None => ret (-1)
  | Some d =>
      s <- get ;;
      match ip_alloc_packet E s (u32 (HEADER + data_len)) with
      | None => ret (-1)
      | Some p =>
          p <- fill ICMP_TYPE_ECHO_REQUEST 0 [Ip.lo id; Ip.hi id; Ip.lo seq; Ip.hi seq] data data_len p ;;
          transmit d (seal p)
      end
  end.

Definition icmp_register_echo_reply_callback (f : ptr) : M icmp Z :=
  modify (fun s => mk_icmp f (below s) (sent s)) ;;; ret 0.

End Ops.

Definition icmp_type_to_str (type : Z) : string :=
  if type =? ICMP_TYPE_ECHO_REPLY then "Echo Reply"
  else if type =? ICMP_TYPE_DEST_UNREACHABLE then "Destination Unreachable"
  else if type =? ICMP_TYPE_SOURCE_QUENCH then "Source Quench"
  else if type =? ICMP_TYPE_REDIRECT then "Redirect"
  else if type =? ICMP_TYPE_ECHO_REQUEST then "Echo Request"
  else if type =? ICMP_TYPE_TIME_EXCEEDED then "Time Exceeded"
  else if type =? ICMP_TYPE_PARAM_PROBLEM then "Parameter Problem"
  else if type =? ICMP_TYPE_TIMESTAMP_REQUEST then "Timestamp Request"
  else if type =? ICMP_TYPE_TIMESTAMP_REPLY then "Timestamp Reply"
  else if type =? ICMP_TYPE_INFO_REQUEST then "Information Request"
  else if type =? ICMP_TYPE_INFO_REPLY then "Information Reply"
  else "Unknown".

Definition unreachable_codes : list string :=
  ["Network Unreachable"; "Host Unreachable"; "Protocol Unreachable"; "Port Unreachable"; "Fragmentation Needed";
   "Source Route Failed"; "Destination Network Unknown"; "Destination Host Unknown"; "Source Host Isolated";
   "Network Administratively Prohibited"; "Host Administratively Prohibited"; "Network Unreachable for TOS";
   "Host Unreachable for TOS"; "Communication Administratively Prohibited"; "Host Precedence Violation";
   "Precedence Cutoff in Effect"]%string.

Definition redirect_codes : list string :=
  ["Redirect for Network"; "Redirect for Host"; "Redirect for TOS and Network"; "Redirect for TOS and Host"]%string.

Definition icmp_code_to_str (type code : Z) : string :=
  let pick l := default "Unknown"%string (arr_get l code) in
  if type =? ICMP_TYPE_DEST_UNREACHABLE then pick unreachable_codes
  else if type =? ICMP_TYPE_REDIRECT then pick redirect_codes
  else if type =? ICMP_TYPE_TIME_EXCEEDED then pick ["TTL Expired in Transit"; "Fragment Reassembly Time Exceeded"]%string
  else if type =? ICMP_TYPE_PARAM_PROBLEM then pick ["Pointer Indicates Error"; "Missing Required Option"; "Bad Length"]%string
  else "N/A".

(** ** Properties *)

(** A packet in pieces. *)
Definition packet (t c k0 k1 : Z) (w pad data : list Z) : list Z := [t; c; k0; k1] ++ w ++ pad ++ data.

Lemma seal_packet t c k0 k1 w pad data :
  let q := packet t c 0 0 w pad data in
  seal (packet t c k0 k1 w pad data) = packet t c (Ip.lo (icmp_checksum q)) (Ip.hi (icmp_checksum q)) w pad data.
Proof. done. Qed.

Lemma fill_packet type code i0 i1 i2 i3 data p Q s :
  length p = (20 + length data)%nat ->
  (forall pad, length pad = 12%nat -> pad = take 12 (drop 8 p) -> forall k0 k1,
     Q (packet type code k0 k1 [i0; i1; i2; i3] pad data) s) ->
  wp (fill type code [i0; i1; i2; i3] (Some data) (Z.of_nat (length data)) p) Q s.
Proof.
  intros Hp HQ. unfold fill. rewrite Nat2Z.id, firstn_all. destruct (Nat.ltb_spec (length p) (Z.to_nat HEADER + length data)) as [H|_].
  { change (Z.to_nat HEADER) with 20%nat in H. lia. }
  wp_steps. do 8 (destruct p as [|?x p]; [simpl in Hp; lia|]). simpl in Hp.
  replace (splice _ _ _) with (packet type code x1 x2 [i0; i1; i2; i3] (take 12 p) data).
  { apply HQ; [rewrite length_take; lia|done]. }
  unfold packet, set_type, splice. change (Z.to_nat HEADER) with 20%nat. cbn [take drop app insert list_insert length Nat.add].
  rewrite !drop_0, (drop_ge p) by (simpl; lia). by rewrite app_nil_r.
Qed.

Lemma rx_sealed E t c k0 k1 w pad data src dest :
  length w = 4%nat -> length pad = 12%nat ->
  let p := packet t c k0 k1 w pad data in
  icmp_rx E (Some (seal p)) src dest =
    if t =? ICMP_TYPE_ECHO_REQUEST then icmp_handle_echo_request E (seal p) src dest
    else if t =? ICMP_TYPE_ECHO_REPLY then
      s <- get ;;
      match echo_reply_callback s with
      | None => ret 0
      | Some f => callback E f src (word_at w 0) (word_at w 2) data ;;; ret 0
      end
    else ret 0.
Proof.
  intros Hw Hpad p. unfold icmp_rx, p. rewrite seal_packet. set (q := packet t c 0 0 w pad data).
  destruct w as [|w0 [|w1 [|w2 [|w3 [|]]]]]; try done.
  assert (length (packet t c (Ip.lo (icmp_checksum q)) (Ip.hi (icmp_checksum q)) [w0; w1; w2; w3] pad data) = 20 + length data)%nat as Hl.
  { unfold packet. rewrite !length_app, Hpad. simpl. lia. }
  rewrite Hl. destruct (Z.ltb_spec (Z.of_nat (20 + length data)) HEADER) as [H|_]; [unfold HEADER in H; lia|].
  assert (0 <= icmp_checksum q < 65536) as Hr by apply u16_range. destruct (Ip.lo_hi _ Hr) as (Hc & _).
  change (word_at (packet t c _ _ _ _ _) 2) with (Ip.lo (icmp_checksum q) + 256 * Ip.hi (icmp_checksum q)). rewrite Hc.
  change (Ip.set_word (packet t c _ _ _ _ _) 2 0 0) with q. rewrite Z.eqb_refl. cbn [negb].
  change (Ip.byte (packet t c _ _ _ _ _) 0) with t.
  assert (drop (Z.to_nat HEADER) (packet t c (Ip.lo (icmp_checksum q)) (Ip.hi (icmp_checksum q)) [w0; w1; w2; w3] pad data) = data) as Ed.
  { unfold packet. rewrite !app_assoc. apply drop_app_length'. rewrite !length_app, Hpad. done. }
  rewrite Ed. done.
Qed.

Lemma reply_of_packet t c k0 k1 w pad data :
  seal (set_type ICMP_TYPE_ECHO_REPLY 0 (packet t c k0 k1 w pad data)) = seal (packet ICMP_TYPE_ECHO_REPLY 0 k0 k1 w pad data).
Proof. done. Qed.

(** C31. Ping: when host [here] (address [ha]) pings host [there] (address [hb]) with an
    identifier, a sequence number and data, and both can allocate packets, the packet that
    [icmp_ping] hands to IP makes [icmp_rx] of the other host send one packet back, and that
    packet makes [icmp_rx] of the first host call the registered callback with the address of
    the other host, the same identifier, the same sequence number and the same data. *)
Theorem ping_roundtrip Ea Eb here there ha hb id seq data p :
  0 <= id < 65536 -> 0 <= seq < 65536 ->
  ip_alloc_packet Ea here (u32 (HEADER + Z.of_nat (length data))) = Some p -> length p = (20 + length data)%nat ->
  net_buffer_alloc Eb there (Z.of_nat (20 + length data)) = true ->
  exists request reply here' there',
    icmp_ping Ea (Some hb) id seq (Some data) (Z.of_nat (length data)) here = Ret (ip_tx Ea here hb request, here') /\
    sent here' = (hb, request) :: sent here /\
    icmp_rx Eb (Some request) ha hb there = Ret (ip_tx Eb there ha reply, there') /\
    sent there' = (ha, reply) :: sent there /\
    forall f, echo_reply_callback here' = Some f ->
      icmp_rx Ea (Some reply) hb ha here' = (callback Ea f hb id seq data ;;; ret 0) here'.
Proof.
  intros Hid Hseq Ealloc Hp Eballoc. destruct (Ip.lo_hi id Hid) as (Eid & _), (Ip.lo_hi seq Hseq) as (Eseq & _).
  destruct (wp_returns (fill ICMP_TYPE_ECHO_REQUEST 0 [Ip.lo id; Ip.hi id; Ip.lo seq; Ip.hi seq] (Some data) (Z.of_nat (length data)) p)
    (fun q s' => s' = here /\ exists k0 k1 pad, length pad = 12%nat /\
       q = packet ICMP_TYPE_ECHO_REQUEST 0 k0 k1 [Ip.lo id; Ip.hi id; Ip.lo seq; Ip.hi seq] pad data) here)
    as (q & s' & Eq & -> & k0 & k1 & pad & Hpad & ->).
  { apply fill_packet; [done|]. intros pad Hpad _ k0 k1. split; [done|]. by exists k0, k1, pad. }
  set (w := [Ip.lo id; Ip.hi id; Ip.lo seq; Ip.hi seq]) in *. set (q := packet _ _ _ _ w pad data) in *.
  exists (seal q), (seal (set_type ICMP_TYPE_ECHO_REPLY 0 (seal q))). eexists. eexists. split; [|split; [|split; [|split]]].
  - unfold icmp_ping. rewrite (bind_run _ _ here here here) by done. rewrite Ealloc.
    rewrite (bind_run _ _ here q here Eq). unfold transmit. rewrite (bind_run _ _ here here here) by done. reflexivity.
  - done.
  - unfold q. rewrite rx_sealed by done. fold q. rewrite Z.eqb_refl. unfold icmp_handle_echo_request.
    assert (length (seal q) = (20 + length data)%nat) as Hl.
    { unfold q. rewrite seal_packet. unfold packet. rewrite !length_app, Hpad. simpl. lia. }
    rewrite Hl. destruct (Z.ltb_spec (Z.of_nat (20 + length data)) HEADER) as [H|_]; [unfold HEADER in H; lia|].
    rewrite (bind_run _ _ there there there) by done. rewrite Eballoc. cbn [negb]. unfold transmit. rewrite (bind_run _ _ there there there) by done. reflexivity.
  - done.
  - intros f Hf. unfold q. rewrite seal_packet, reply_of_packet, rx_sealed by done.
    change (ICMP_TYPE_ECHO_REPLY =? ICMP_TYPE_ECHO_REQUEST) with false. rewrite Z.eqb_refl.
    set (here' := mk_icmp _ _ _) in *. rewrite (bind_run _ _ here' here' here') by done. rewrite Hf. change (word_at w 0) with (Ip.lo id + 256 * Ip.hi id).
    change (word_at w 2) with (Ip.lo seq + 256 * Ip.hi seq). by rewrite Eid, Eseq.
Qed.

(** Two hosts whose packets start as zeros, and a callback that counts as a packet sent. *)
Definition quiet_env : env :=
  mk_env (fun _ n => Some (replicate (Z.to_nat n) 0)) (fun _ _ => true) (fun _ _ _ => 0)
    (fun _ src id seq data => modify (fun s => mk_icmp (echo_reply_callback s) (below s) ((src, id :: seq :: data) :: sent s))).

Definition host : icmp := mk_icmp (Some 7%positive) (Ip.mk_ips (Network.mk_net [] 0 None 0 ∅ ∅ ∅) 1 [] [] [] [] ∅) [].

Lemma ping_roundtrip_witness :
  exists request reply here' there',
    icmp_ping quiet_env (Some [10; 0; 0; 2]) 77 5 (Some [1; 2; 3]) 3 host = Ret (0, here') /\
    icmp_rx quiet_env (Some request) [10; 0; 0; 1] [10; 0; 0; 2] host = Ret (0, there') /\
    sent here' = [([10; 0; 0; 2], request)] /\ sent there' = [([10; 0; 0; 1], reply)] /\
    icmp_rx quiet_env (Some reply) [10; 0; 0; 2] [10; 0; 0; 1] here' =
      (callback quiet_env 7%positive [10; 0; 0; 2] 77 5 [1; 2; 3] ;;; ret 0) here'.
Proof.
  destruct (ping_roundtrip quiet_env quiet_env host host [10; 0; 0; 1] [10; 0; 0; 2] 77 5 [1; 2; 3] (replicate 23 0))
    as (request & reply & here' & there' & E1 & E2 & E3 & E4 & E5); [lia|lia|reflexivity|reflexivity|reflexivity|].
  exists request, reply, here', there'. split; [exact E1|]. split; [exact E3|]. split; [exact E2|]. split; [exact E4|].
  apply E5. change 3 with (Z.of_nat (length [1; 2; 3])) in E1. vm_compute in E1. injection E1 as <-. reflexivity.
Defined.

End Icmp.
