(* ===== verification/Dns.v ===== *)
(** * The name resolver ([network/src/dns.c])

    Queries, their packets and answers, and the cache. A host name is the list of its
    characters without the terminating 0; a packet is the list of its bytes. Reading or
    writing outside a packet or outside the buffer of a name is a [Fault].

    The environment has what the file takes from elsewhere: the clock, packet buffers,
    [udp_send] (which the repository does not define), the callbacks of the callers, and
    what happens while [dns_lookup_sync] waits. The clock is the sequence of values that
    successive readings give; [readings] counts them.

    [parse_loop] has fuel for [257 * (n + 1)] steps on a packet of [n] bytes. A round either
    appends to the name, which has at most 255 characters, or follows a pointer; after more
    rounds than that, two of them started at the same place with the same name, and the loop
    never ends ([Spin]). *)

From Stdlib Require Import ZArith Lia.
From stdpp Require Import base tactics option numbers list.
From S2P Require Import Prelude Network Ip.

Set Default Goal Selector "!".
Local Open Scope Z_scope.
Local Open Scope kernel_scope.

Module Dns.

Definition DNS_PORT : Z := 53.
Definition DNS_MAX_NAME_LENGTH : Z := 255.
Definition DNS_MAX_PACKET_SIZE : Z := 512.
Definition DNS_MAX_CACHE_ENTRIES : Z := 32.
Definition DNS_TYPE_A : Z := 1.
Definition DNS_CLASS_IN : Z := 1.
Definition DNS_FLAG_QR : Z := 0x8000.
Definition DNS_FLAG_RD : Z := 0x0100.
Definition DNS_FLAG_RCODE : Z := 0x000F.
Definition DNS_TTL_EXPIRED : Z := 0.
Definition DNS_TTL_VALID : Z := 1.
Definition DOT : Z := 46.

(** [dns_query_t] *)
Record dns_query : Type := mk_query {
  hostname : list Z;
  id : Z;
  timestamp : Z;
  retry_count : Z;
  callback : ptr;
  user_data : Z;
  active : Z;
}.

Definition set_timestamp (x : Z) (q : dns_query) : dns_query :=
  mk_query (hostname q) (id q) x (retry_count q) (callback q) (user_data q) (active q).
Definition set_retry_count (x : Z) (q : dns_query) : dns_query :=
  mk_query (hostname q) (id q) (timestamp q) x (callback q) (user_data q) (active q).
Definition set_active (x : Z) (q : dns_query) : dns_query :=
  mk_query (hostname q) (id q) (timestamp q) (retry_count q) (callback q) (user_data q) x.

(** [dns_cache_entry_t] *)
Record cache_entry : Type := mk_entry {
  e_hostname : list Z;
  e_ip : list Z;
  e_ttl : Z;
  e_timestamp : Z;
  e_valid : Z;
}.


(** The static variables, the readings of the clock, and what was handed to UDP, latest
    first: the server and the packet. *)
Record dns : Type := mk_dns {
  dns_server : list Z;
  dns_cache : list cache_entry;
  dns_queries : list dns_query;
  next_query_id : Z;
  readings : nat;
  sent : list (list Z * list Z);
}.

Definition set_dns_server (x : list Z) (s : dns) : dns :=
  mk_dns x (dns_cache s) (dns_queries s) (next_query_id s) (readings s) (sent s).
Definition set_dns_cache (x : list cache_entry) (s : dns) : dns :=
  mk_dns (dns_server s) x (dns_queries s) (next_query_id s) (readings s) (sent s).
Definition set_dns_queries (x : list dns_query) (s : dns) : dns :=
  mk_dns (dns_server s) (dns_cache s) x (next_query_id s) (readings s) (sent s).
Definition set_next_query_id (x : Z) (s : dns) : dns :=
  mk_dns (dns_server s) (dns_cache s) (dns_queries s) x (readings s) (sent s).
Definition set_readings (x : nat) (s : dns) : dns :=
  mk_dns (dns_server s) (dns_cache s) (dns_queries s) (next_query_id s) x (sent s).
Definition set_sent (x : list (list Z * list Z)) (s : dns) : dns :=
  mk_dns (dns_server s) (dns_cache s) (dns_queries s) (next_query_id s) (readings s) x.

Definition zero_query : dns_query := mk_query [] 0 0 0 None 0 0.
Definition zero_entry : cache_entry := mk_entry [] [0; 0; 0; 0] 0 0 0.

Record env : Type := mk_env {
  hal_get_time_ms : nat -> Z;
  net_buffer_alloc : dns -> option (list Z);
  has_default_device : dns -> bool;
  udp_send : dns -> list Z -> Z;
  call : addr -> list Z -> option (list Z) -> Z -> M dns unit;
  meanwhile : nat -> M dns unit;
}.

Definition strncpy (name : list Z) : list Z := take (Z.to_nat DNS_MAX_NAME_LENGTH) name.

Definition dns_init : M dns Z :=
  modify (fun s => set_dns_queries (replicate 8 zero_query) (set_dns_cache (replicate 32 zero_entry) s)) ;;; ret 0.

Definition dns_set_server (ip : option (list Z)) : M dns unit :=
  match ip with Some a => modify (set_dns_server a) | None => ret tt end.

Definition dns_get_server : M dns (option (list Z)) :=
  s <- get ;; if existsb truth (dns_server s) then ret (Some (dns_server s)) else ret None.

Definition dns_get_next_id : M dns Z :=
  s <- get ;; put (set_next_query_id (u16 (next_query_id s + 1)) s) ;;; ret (next_query_id s).

(** The first query from index [i] on that passes [test]. *)
Fixpoint find_query (test : dns_query -> bool) (l : list dns_query) (i : Z) : Z :=
  match l with
  | [] => -1
  | q :: l' => if test q then i else find_query test l' (i + 1)
  end.

Definition dns_find_active_query (qid : Z) : M dns Z :=
  s <- get ;; ret (find_query (fun q => truth (active q) && (id q =? qid)) (dns_queries s) 0).

Definition dns_find_free_query_slot : M dns Z :=
  s <- get ;; ret (find_query (fun q => negb (truth (active q))) (dns_queries s) 0).

Definition read_query (i : Z) : M dns dns_query := s <- get ;; deref (arr_get (dns_queries s) i).
Definition write_query (i : Z) (q : dns_query) : M dns unit :=
  s <- get ;; l <- deref (arr_set (dns_queries s) i q) ;; put (set_dns_queries l s).

(** ** Packets *)

(** Bytes stored in a packet from [off] on. *)
Definition store (p : list Z) (off : Z) (bytes : list Z) : M dns (list Z) :=
  if (0 <=? off) && (off + Z.of_nat (length bytes) <=? Z.of_nat (length p)) then ret (splice p (Z.to_nat off) bytes) else fault.

Definition be16 (x : Z) : list Z := [Ip.hi x; Ip.lo x].

(** The characters before the first dot. *)
Fixpoint label (name : list Z) : list Z :=
  match name with
  | [] => []
  | c :: r => if c =? DOT then [] else c :: label r
  end.

(** The labels of [rest] from [off] on; [None] when the packet is full. Each round consumes
    a character at least. *)
Fixpoint encode_name (fuel : nat) (rest : list Z) (off : Z) (p : list Z) : M dns (option (Z * list Z)) :=
  match fuel, rest with
  | _, [] => ret (Some (off, p))
  | O, _ => spin
  | S fuel', _ =>
      let l := label rest in
      let n := Z.of_nat (length l) in
      if DNS_MAX_PACKET_SIZE <? off + 1 + n then ret None
      else
        p <- store p off [u8 n] ;;
        p <- store p (off + 1) l ;;
        match drop (length l) rest with
        | _ :: rest' => encode_name fuel' rest' (off + 1 + n) p
        | [] => ret (Some (off + 1 + n, p))
        end
  end.

Section Ops.
Context (E : env).

Definition now : M dns Z :=
  s <- get ;; put (set_readings (S (readings s)) s) ;;; ret (hal_get_time_ms E (readings s)).

Definition dns_send_query (name : option (list Z)) (qid : Z) : M dns Z :=
  match name with
  | None | Some [] => ret (-1)
  | Some h =>
      s <- get ;;
      match net_buffer_alloc E s with
      | None => ret (-1)
      | Some p =>
          p <- store p 0 (be16 qid ++ be16 DNS_FLAG_RD ++ be16 1 ++ [0; 0; 0; 0; 0; 0]) ;;
          r <- encode_name (S (length h)) h 12 p ;;
          match r with
          | None => ret (-1)
          | Some (off, p) =>
              p <- store p off [0] ;;
              if DNS_MAX_PACKET_SIZE <? off + 1 + 4 then ret (-1)
              else
                p <- store p (off + 1) (be16 DNS_TYPE_A ++ be16 DNS_CLASS_IN) ;;
                s <- get ;;
                if negb (has_default_device E s) then ret (-1)
                else
                  let packet := take (Z.to_nat (off + 5)) p in
                  put (set_sent ((dns_server s, packet) :: sent s) s) ;;;
                  ret (udp_send E s packet)
          end
      end
  end.

(** The [n] bytes of a packet that [memcpy] reads from [off] on, if they are in it. *)
Definition range_at (p : list Z) (off n : Z) : option (list Z) :=
  if (0 <=? off) && (off + n <=? Z.of_nat (length p)) then Some (take (Z.to_nat n) (drop (Z.to_nat off) p)) else None.

(** The name at an offset, and the offset behind it; [None] is the result -1. *)
Fixpoint parse_loop (fuel : nat) (p : list Z) (off : Z) (name : list Z) (next : option Z) : outcome (option (list Z * Z)) :=
  if Z.of_nat (length p) <=? off then Ret (Some (name, default off next))
  else
    match fuel with
    | O => Spin
    | S fuel' =>
        match arr_get p off with
        | None => Fault
        | Some len =>
            let off := off + 1 in
            if len =? 0 then Ret (Some (name, default off next))
            else if truth (Z.land len 0xC0) then
              if Z.of_nat (length p) <=? off then Ret None
              else
                match arr_get p off with
                | None => Fault
                | Some b =>
                    let pointer := Z.lor (Z.shiftl (Z.land len 0x3F) 8) b in
                    let off := off + 1 in
                    let next := match next with None => Some off | Some _ => next end in
                    if Z.of_nat (length p) <=? pointer then Ret None else parse_loop fuel' p pointer name next
                end
            else if Z.of_nat (length p) <? off + len then Ret None
            else
              let with_dot := (0 <? length name)%nat in
              if with_dot && (DNS_MAX_NAME_LENGTH + 1 <=? Z.of_nat (length name) + 1) then Ret None
              else
                let name := if with_dot then name ++ [DOT] else name in
                if DNS_MAX_NAME_LENGTH + 1 <=? Z.of_nat (length name) + len then Ret None
                else
                  match range_at p off len with
                  | None => Fault
                  | Some l =>
                      if (DNS_MAX_NAME_LENGTH <? Z.of_nat (length name + length l)) then Fault
                      else parse_loop fuel' p (off + len) (name ++ l) next
                  end
        end
    end.

Definition parse_fuel (p : list Z) : nat := (257 * (length p + 1))%nat.

Definition dns_parse_name (p : list Z) (off : Z) : M dns (option (list Z * Z)) := fun s =>
  match parse_loop (parse_fuel p) p off [] None with
  | Ret r => Ret (r, s)
  | Spin => Spin
  | Fault => Fault
  end.

(** ** The cache *)

(** The slot for a name among [l], whose first entry has index [i], with the slots found so
    far. Each used entry costs a reading of the clock. *)
Fixpoint cache_slot (name : list Z) (l : list cache_entry) (i slot oldest_slot oldest_time : Z) : M dns Z :=
  match l with
  | [] => ret (if slot <? 0 then oldest_slot else slot)
  | e :: l' =>
      if truth (e_valid e) then
        if bool_decide (e_hostname e = name) then ret i
        else
          t <- now ;;
          let entry_age := u32 (t - e_timestamp e) in
          if oldest_time <? entry_age then cache_slot name l' (i + 1) slot i entry_age
          else cache_slot name l' (i + 1) slot oldest_slot oldest_time
      else cache_slot name l' (i + 1) (if slot <? 0 then i else slot) oldest_slot oldest_time
  end.

Definition dns_cache_entry (name : list Z) (ip : list Z) (ttl : Z) : M dns Z :=
  s <- get ;;
  slot <- cache_slot name (dns_cache s) 0 (-1) (-1) 0xFFFFFFFF ;;
  if slot <? 0 then ret (-1)
  else
    t <- now ;;
    s <- get ;;
    l <- deref (arr_set (dns_cache s) slot (mk_entry (strncpy name) ip ttl t 1)) ;;
    put (set_dns_cache l s) ;;;
    ret 0.

(** Result code and address. *)
Fixpoint find_cached (name : list Z) (l : list cache_entry) : M dns (Z * option (list Z)) :=
  match l with
  | [] => ret (-1, None)
  | e :: l' =>
      if truth (e_valid e) && bool_decide (e_hostname e = name) then
        t <- now ;;
        if u32 (t - e_timestamp e) / 1000 <? e_ttl e then ret (DNS_TTL_VALID, Some (e_ip e)) else ret (DNS_TTL_EXPIRED, None)
      else find_cached name l'
  end.

Definition dns_get_cached (name : option (list Z)) : M dns (Z * option (list Z)) :=
  match name with
  | None => ret (-1, None)
  | Some h => s <- get ;; find_cached h (dns_cache s)
  end.

Definition dns_clear_cache : M dns unit := modify (set_dns_cache (replicate 32 zero_entry)).

(** ** Answers *)

Definition dns_complete_query (i : Z) (ip : option (list Z)) : M dns unit :=
  if (i <? 0) || (8 <=? i) then ret tt
  else
    q <- read_query i ;;
    (match callback q with
     | Some f => call E f (hostname q) ip (user_data q)
     | None => ret tt
     end) ;;;
    q <- read_query i ;;
    write_query i (set_active 0 q).

(** The offset behind a name in the question section. A round consumes a byte at least. *)
Fixpoint skip_name (fuel : nat) (p : list Z) (off : Z) : outcome Z :=
  if Z.of_nat (length p) <=? off then Ret off
  else
    match fuel with
    | O => Spin
    | S fuel' =>
        match arr_get p off with
        | None => Fault
        | Some len =>
            if len =? 0 then Ret (off + 1)
            else if truth (Z.land len 0xC0) then Ret (off + 2)
            else skip_name fuel' p (off + 1 + len)
        end
    end.

Fixpoint skip_questions (n : nat) (p : list Z) (off : Z) : outcome Z :=
  match n with
  | O => Ret off
  | S n' =>
      match skip_name (S (length p)) p off with
      | Ret off => skip_questions n' p (off + 4)
      | Spin => Spin
      | Fault => Fault
      end
  end.

(** The number in network order in the bytes from [off] on. *)
Definition number_at (p : list Z) (off : Z) (n : nat) : M dns Z :=
  if (0 <=? off) && (off + Z.of_nat n <=? Z.of_nat (length p))
  then ret (foldl (fun a b => 256 * a + b) 0 (take n (drop (Z.to_nat off) p))) else fault.

(** The first address among the answers, with its time to live. *)
Fixpoint find_answer (n : nat) (p : list Z) (off : Z) : M dns (option (list Z * Z)) :=
  match n with
  | O => ret None
  | S n' =>
      r <- dns_parse_name p off ;;
      match r with
      | None => ret None
      | Some (_, off) =>
          if Z.of_nat (length p) <? off + 10 then ret None
          else
            type <- number_at p off 2 ;;
            ttl <- number_at p (off + 4) 4 ;;
            rdlength <- number_at p (off + 8) 2 ;;
            let off := off + 10 in
            if (type =? DNS_TYPE_A) && (rdlength =? 4) then
              if Z.of_nat (length p) <? off + 4 then ret None
              else ip <- deref (range_at p off 4) ;; ret (Some (ip, ttl))
            else find_answer n' p (off + rdlength)
      end
  end.

Definition lift {A} (o : outcome A) : M dns A := fun s =>
  match o with Ret a => Ret (a, s) | Spin => Spin | Fault => Fault end.

Definition dns_process_packet (buffer : option (list Z)) : M dns Z :=
  match buffer with
  | None => ret (-1)
  | Some p =>
      if Z.of_nat (length p) <? 12 then ret (-1)
      else
        qid <- number_at p 0 2 ;;
        fl <- number_at p 2 2 ;;
        qdcount <- number_at p 4 2 ;;
        ancount <- number_at p 6 2 ;;
        if negb (has_flag fl DNS_FLAG_QR) then ret (-1)
        else
          i <- dns_find_active_query qid ;;
          if i <? 0 then ret (-1)
          else if truth (Z.land fl DNS_FLAG_RCODE) then
            dns_complete_query i None ;;;
            ret (-1)
          else
            off <- lift (skip_questions (Z.to_nat qdcount) p 12) ;;
            r <- find_answer (Z.to_nat ancount) p off ;;
            match r with
            | Some (ip, ttl) =>
                q <- read_query i ;;
                _r <- dns_cache_entry (hostname q) ip ttl ;;
                dns_complete_query i (Some ip) ;;;
                ret 0
            | None =>
                dns_complete_query i None ;;;
                ret (-1)
            end
  end.

(** ** Retries *)

Definition check_query (current_time i : Z) : M dns unit :=
  q <- read_query i ;;
  if truth (active q) then
    if 3000 <? u32 (current_time - timestamp q) then
      if retry_count q <? 2 then
        write_query i (set_timestamp current_time (set_retry_count (retry_count q + 1) q)) ;;;
        _r <- dns_send_query (Some (hostname q)) (id q) ;;
        ret tt
      else dns_complete_query i None
    else ret tt
  else ret tt.

Definition dns_client_task : M dns unit := t <- now ;; mfor (seqZ 0 8) (check_query t).

(** ** Lookups *)

Definition start_query (h : list Z) (f : ptr) (data : Z) : M dns (option (Z * Z)) :=
  slot <- dns_find_free_query_slot ;;
  if slot <? 0 then ret None
  else
    qid <- dns_get_next_id ;;
    t <- now ;;
    write_query slot (mk_query (strncpy h) qid t 0 f data 1) ;;;
    ret (Some (slot, qid)).

Definition dns_lookup (name : option (list Z)) (f : ptr) (data : Z) : M dns Z :=
  match name, f with
  | Some h, Some g =>
      server <- dns_get_server ;;
      match server with
      | None => ret (-1)
      | Some _ =>
          r <- dns_get_cached name ;;
          if fst r =? DNS_TTL_VALID then call E g h (snd r) data ;;; ret 0
          else
            r <- start_query h f data ;;
            match r with
            | None => ret (-1)
            | Some (_, qid) => dns_send_query name qid
            end
      end
  | _, _ => ret (-1)
  end.

(** The loop of [dns_lookup_sync]; round [n] of those the caller may wait. *)
Fixpoint wait_answer (fuel n : nat) (h : list Z) (slot start timeout : Z) : M dns (Z * option (list Z)) :=
  match fuel with
  | O => spin
  | S fuel' =>
      meanwhile E n ;;;
      dns_client_task ;;;
      q <- read_query slot ;;
      if negb (truth (active q)) then
        r <- dns_get_cached (Some h) ;;
        if fst r =? DNS_TTL_VALID then ret (0, snd r) else ret (-1, None)
      else
        t <- now ;;
        if timeout <=? u32 (t - start) then
          write_query slot (set_active 0 q) ;;;
          ret (-1, None)
        else wait_answer fuel' (S n) h slot start timeout
  end.

(** Result code and address. *)
Definition dns_lookup_sync (fuel : nat) (name : option (list Z)) (timeout : Z) : M dns (Z * option (list Z)) :=
  match name with
  | None => ret (-1, None)
  | Some h =>
      server <- dns_get_server ;;
      match server with
      | None => ret (-1, None)
      | Some _ =>
          r <- dns_get_cached name ;;
          if fst r =? DNS_TTL_VALID then ret (0, snd r)
          else
            r <- start_query h None 0 ;;
            match r with
            | None => ret (-1, None)
            | Some (slot, qid) =>
                result <- dns_send_query name qid ;;
                if negb (result =? 0) then
                  q <- read_query slot ;;
                  write_query slot (set_active 0 q) ;;;
                  ret (result, None)
                else
                  start <- now ;;
                  wait_answer fuel 0 h slot start timeout
            end
      end
  end.

End Ops.

End Dns.
