(* ===== verification/DnsThms.v ===== *)
(** * The name resolver: packets, names and answers

    [nofault] is what can be shown of every packet, good or bad: the call does not access
    memory it must not. Whether it also returns depends on the packet, as a name whose
    compression pointer leads back to itself is followed for ever. *)

From Stdlib Require Import ZArith Lia.
From stdpp Require Import base tactics option numbers gmap list.
From S2P Require Import Prelude Network Ip Dns.

Set Default Goal Selector "!".
Local Open Scope Z_scope.
Local Open Scope kernel_scope.

Module DnsThms.
Import Dns.

Definition bytes_ok (p : list Z) : Prop := Forall (fun b => 0 <= b < 256) p.

Lemma byte_at p off : bytes_ok p -> 0 <= off < Z.of_nat (length p) -> exists b, arr_get p off = Some b /\ 0 <= b < 256.
Proof.
  intros Hp Ho. destruct (arr_get_some p off Ho) as [b Hb]. exists b. split; [done|].
  unfold arr_get in Hb. destruct (off <? 0); [done|]. by eapply (Forall_lookup_1 _ _ _ _ Hp).
Qed.

(** ** No access outside a packet *)

Definition nofault {A} (m : M dns A) (P : A -> dns -> Prop) (s : dns) : Prop :=
  match m s with Ret (a, s') => P a s' | Spin => True | Fault => False end.

Lemma nf_bind {A B} (m : M dns A) (k : A -> M dns B) P s : nofault m (fun a s' => nofault (k a) P s') s -> nofault (bind m k) P s.
Proof. unfold nofault, bind. by destruct (m s) as [[a s']| |]. Qed.
Lemma nf_wp {A} (m : M dns A) P s : wp m P s -> nofault m P s.
Proof. unfold nofault, wp. by destruct (m s) as [[a s']| |]. Qed.
Lemma nf_mono {A} (m : M dns A) (P Q : A -> dns -> Prop) s : nofault m P s -> (forall a s', P a s' -> Q a s') -> nofault m Q s.
Proof. unfold nofault. destruct (m s) as [[a s']| |]; auto. Qed.
Lemma nf_ret {A} (a : A) P s : P a s -> nofault (ret a) P s.
Proof. done. Qed.

Lemma range_at_in p off n : 0 <= off -> off + n <= Z.of_nat (length p) ->
  range_at p off n = Some (take (Z.to_nat n) (drop (Z.to_nat off) p)).
Proof.
  intros Ho Hl. unfold range_at.
  destruct (Z.leb_spec 0 off), (Z.leb_spec (off + n) (Z.of_nat (length p))); (done || lia).
Qed.

Lemma parse_nofault fuel : forall p off name next, bytes_ok p -> 0 <= off -> Z.of_nat (length name) <= 255 ->
  (forall o, next = Some o -> 0 <= o) ->
  match parse_loop fuel p off name next with Ret (Some (_, o)) => 0 <= o | Ret None | Spin => True | Fault => False end.
Proof.
  induction fuel as [|fuel IH]; intros p off name next Hp Ho Hn Hnx; cbn [parse_loop].
  - case_if; [|done]. destruct next; simpl; [by apply Hnx|lia].
  - destruct (Z.leb_spec (Z.of_nat (length p)) off); [destruct next; simpl; [by apply Hnx|lia]|].
    destruct (byte_at p off Hp ltac:(lia)) as (len & -> & Hlen).
    destruct (len =? 0); [destruct next; simpl; [by apply Hnx|lia]|].
    destruct (truth (Z.land len 0xC0)).
    + destruct (Z.leb_spec (Z.of_nat (length p)) (off + 1)); [done|]. destruct (byte_at p (off + 1) Hp ltac:(lia)) as (b & -> & Hb).
      case_if; [done|]. apply IH; [done| |done|].
      * apply Z.lor_nonneg. split; [|lia]. apply Z.shiftl_nonneg, Z.land_nonneg. lia.
      * intros o. destruct next; [apply Hnx|]. intros [= <-]. lia.
    + destruct (Z.ltb_spec (Z.of_nat (length p)) (off + 1 + len)); [done|]. case_if; [done|].
      set (name' := if (0 <? length name)%nat then name ++ [DOT] else name).
      destruct (Z.leb_spec (DNS_MAX_NAME_LENGTH + 1) (Z.of_nat (length name') + len)) as [|Hle]; [done|]. unfold DNS_MAX_NAME_LENGTH in *.
      rewrite range_at_in by lia.
      assert (length (take (Z.to_nat len) (drop (Z.to_nat (off + 1)) p)) = Z.to_nat len) as Hl by (rewrite length_take, length_drop; lia).
      destruct (Z.ltb_spec 255 (Z.of_nat (length name' + length (take (Z.to_nat len) (drop (Z.to_nat (off + 1)) p))))); [lia|].
      apply IH; [done|lia|rewrite length_app; lia|done].
Qed.

Lemma skip_name_ok fuel : forall p off, bytes_ok p -> 0 <= off -> Z.of_nat (length p) - off < Z.of_nat fuel ->
  exists o, skip_name fuel p off = Ret o /\ off <= o.
Proof.
  induction fuel as [|fuel IH]; intros p off Hp Ho Hf; cbn [skip_name].
  - destruct (Z.leb_spec (Z.of_nat (length p)) off); [eexists; split; [done|lia]|lia].
  - destruct (Z.leb_spec (Z.of_nat (length p)) off); [eexists; split; [done|lia]|].
    destruct (byte_at p off Hp ltac:(lia)) as (len & -> & Hlen).
    destruct (Z.eqb_spec len 0); [eexists; split; [done|lia]|]. case_if; [eexists; split; [done|lia]|].
    destruct (IH p (off + 1 + len) Hp ltac:(lia) ltac:(lia)) as (o & -> & ?). eexists. split; [done|lia].
Qed.

Lemma skip_questions_ok n : forall p off, bytes_ok p -> 0 <= off -> exists o, skip_questions n p off = Ret o /\ 0 <= o.
Proof.
  induction n as [|n IH]; intros p off Hp Ho; cbn [skip_questions]; [by exists off|].
  destruct (skip_name_ok (S (length p)) p off Hp Ho ltac:(lia)) as (o & -> & ?). apply IH; [done|lia].
Qed.

Lemma number_at_ok p off n s Q : 0 <= off -> off + Z.of_nat n <= Z.of_nat (length p) ->
  Q (foldl (fun a b => 256 * a + b) 0 (take n (drop (Z.to_nat off) p))) s -> wp (number_at p off n) Q s.
Proof.
  intros Ho Hl HQ. unfold number_at. destruct (Z.leb_spec 0 off); [|lia].
  destruct (Z.leb_spec (off + Z.of_nat n) (Z.of_nat (length p))); [done|lia].
Qed.

Lemma number_nonneg p off n : bytes_ok p -> 0 <= foldl (fun a b => 256 * a + b) 0 (take n (drop off p)).
Proof.
  intros Hp. assert (forall l a, Forall (fun b => 0 <= b < 256) l -> 0 <= a -> 0 <= foldl (fun a b => 256 * a + b) a l) as H.
  { induction l as [|x l IH]; intros a Hl Ha; [done|]. inversion Hl; subst. simpl. apply IH; [done|lia]. }
  apply H; [|lia]. by apply Forall_take, Forall_drop.
Qed.

Lemma find_answer_nofault n : forall p off s, bytes_ok p -> 0 <= off -> nofault (find_answer n p off) (fun _ s' => s' = s) s.
Proof.
  induction n as [|n IH]; intros p off s Hp Ho; cbn [find_answer]; [done|]. apply nf_bind. unfold nofault at 1, dns_parse_name.
  pose proof (parse_nofault (parse_fuel p) p off [] None Hp Ho ltac:(simpl; lia) ltac:(done)) as H.
  destruct (parse_loop _ _ _ _ _) as [[[name o]|]| |]; [|done..].
  destruct (Z.ltb_spec (Z.of_nat (length p)) (o + 10)); [done|].
  apply nf_bind, nf_wp, number_at_ok; [lia|lia|]. apply nf_bind, nf_wp, number_at_ok; [lia|lia|].
  apply nf_bind, nf_wp, number_at_ok; [lia|lia|]. case_if.
  { destruct (Z.ltb_spec (Z.of_nat (length p)) (o + 10 + 4)); [done|]. rewrite range_at_in by lia. done. }
  apply IH; [done|].
  pose proof (number_nonneg p (Z.to_nat (o + 8)) 2 Hp). lia.
Qed.

(** ** The tables *)

Record inv (s : dns) : Prop := mk_inv {
  in_queries : length (dns_queries s) = 8%nat;
  in_cache : length (dns_cache s) = 32%nat;
}.

(** Callbacks may do what they want with the resolver, as long as they leave its tables. *)
Class EnvOk (E : env) : Prop := call_inv : forall f h ip d s, inv s -> wp (call E f h ip d) (fun _ s' => inv s') s.

Lemma query_at s i : inv s -> 0 <= i < 8 -> exists q, arr_get (dns_queries s) i = Some q.
Proof. intros [Hq _] Hi. destruct (arr_get_some (dns_queries s) i) as [q Eq]; [lia|]. by exists q. Qed.

Lemma write_query_inv s i q Q : inv s -> 0 <= i < 8 -> (forall s', inv s' -> Q tt s') -> wp (write_query i q) Q s.
Proof.
  intros Hi Hr HQ. unfold write_query. wp_steps. rewrite wp_deref. destruct Hi as [Hq Hc]. rewrite arr_set_some by lia.
  eexists. split; [done|]. wp_steps. apply HQ. split; [simpl; by rewrite length_insert|done].
Qed.

Lemma complete_inv E `{!EnvOk E} i ip s : inv s -> wp (dns_complete_query E i ip) (fun _ s' => inv s') s.
Proof.
  intros Hi. unfold dns_complete_query. destruct (Z.ltb_spec i 0); [done|]. destruct (Z.leb_spec 8 i); [done|]. cbn [orb]. wp_steps.
  destruct (query_at s i Hi ltac:(lia)) as [q Eq]. unfold read_query. wp_steps. rewrite Eq. cbn [deref]. wp_steps.
  assert (forall s', inv s' -> wp (q <- read_query i ;; write_query i (set_active 0 q)) (fun _ s' => inv s') s') as Hend.
  { intros s' Hi'. destruct (query_at s' i Hi' ltac:(lia)) as [q' Eq']. unfold read_query. wp_steps. rewrite Eq'. cbn [deref]. wp_steps.
    by apply write_query_inv; [|lia|]. }
  unfold read_query in Hend. destruct (callback q) as [f|].
  - eapply wp_mono; [by apply call_inv|]. cbn beta. intros [] s' Hi'. specialize (Hend s' Hi'). rewrite !wp_bind, !wp_get in Hend. by rewrite !wp_bind, !wp_get.
  - wp_steps. specialize (Hend s Hi). by rewrite !wp_bind, !wp_get in Hend.
Qed.

Lemma find_query_range test l : forall i, 0 <= i -> find_query test l i = -1 \/
  (i <= find_query test l i < i + Z.of_nat (length l)).
Proof.
  induction l as [|q l IH]; intros i Hi; [by left|]. cbn [find_query]. destruct (test q); [right; simpl; lia|].
  destruct (IH (i + 1) ltac:(lia)) as [?|?]; [by left|]. right. simpl. lia.
Qed.

(** *** The cache *)

Definition matches (name : list Z) (e : cache_entry) : bool := truth (e_valid e) && bool_decide (e_hostname e = name).

(** The slot that [cache_slot] chooses; the search for the oldest entry never finds one. *)
Fixpoint slot_of (name : list Z) (l : list cache_entry) (i slot : Z) : Z :=
  match l with
  | [] => slot
  | e :: l' =>
      if matches name e then i
      else slot_of name l' (i + 1) (if negb (truth (e_valid e)) && (slot <? 0) then i else slot)
  end.

Lemma cache_slot_spec E name l : forall i slot s, 0 <= i -> -1 <= slot ->
  wp (cache_slot E name l i slot (-1) 0xFFFFFFFF) (fun r s' => r = slot_of name l i slot /\ exists n, s' = set_readings n s) s.
Proof.
  induction l as [|e l IH]; intros i slot s Hi Hs; cbn [cache_slot slot_of]; unfold matches.
  - wp_steps. split; [destruct (Z.ltb_spec slot 0); lia|exists (readings s); by destruct s].
  - destruct (truth (e_valid e)); cbn [andb negb].
    + destruct (decide (e_hostname e = name)) as [Hd|Hd]; [rewrite bool_decide_eq_true_2 by done|rewrite bool_decide_eq_false_2 by done].
      * wp_steps. split; [done|]. exists (readings s). by destruct s.
      * unfold now. wp_steps. destruct (Z.ltb_spec 0xFFFFFFFF (u32 (hal_get_time_ms E (readings s) - e_timestamp e))) as [H|_].
        { pose proof (u32_range (hal_get_time_ms E (readings s) - e_timestamp e)). lia. }
        eapply wp_mono; [apply IH; lia|]. cbn beta. intros r s' (Hr & n & ->). split; [done|]. by exists n.
    + eapply wp_mono; [apply IH; [lia|destruct (slot <? 0); lia]|].
      cbn beta. intros r s' (Hr & n & ->). split; [done|]. by exists n.
Qed.

Lemma slot_of_spec name l : forall i slot, 0 <= i -> (slot = -1 \/ 0 <= slot < i) ->
  let r := slot_of name l i slot in
  (exists (k : nat) (e : cache_entry), r = i + Z.of_nat k /\ l !! k = Some e /\ matches name e = true /\ forall j e', (j < k)%nat -> l !! j = Some e' -> matches name e' = false) \/
  (Forall (fun e => matches name e = false) l /\
   ((r = slot /\ (slot = -1 -> Forall (fun e => truth (e_valid e) = true) l)) \/ (slot = -1 /\ i <= r < i + Z.of_nat (length l)))).
Proof.
  induction l as [|e l IH]; intros i slot Hi Hs; cbn [slot_of].
  - right. split; [constructor|]. left. split; [done|]. intros _. constructor.
  - destruct (matches name e) eqn:Em.
    { left. exists 0%nat, e. split; [lia|]. split; [done|]. split; [done|]. intros; lia. }
    set (slot' := if negb (truth (e_valid e)) && (slot <? 0) then i else slot). destruct (IH (i + 1) slot' ltac:(lia)) as [(k & e' & -> & Hk & Hm & Hlt)|[Hno Hr]].
    { unfold slot'. case_if; lia. }
    + left. exists (S k), e'. split; [lia|]. split; [done|]. split; [done|]. intros [|j] e2 Hj; [simpl; by intros [= <-]|]. apply Hlt. lia.
    + right. split; [by constructor|]. unfold slot' in *. destruct (truth (e_valid e)) eqn:Ev; cbn [negb andb] in *.
      * destruct Hr as [[-> Hall]|[Hs1 Hr]]; [|right; split; [done|simpl; lia]]. left. split; [done|]. intros E1. constructor; [done|by apply Hall].
      * destruct (Z.ltb_spec slot 0); destruct Hr as [[-> Hall]|[Hs1 Hr]].
        -- right. split; [lia|simpl; lia].
        -- lia.
        -- left. split; [done|]. lia.
        -- lia.
Qed.

Definition entry_for (name ip : list Z) (ttl t : Z) : cache_entry := mk_entry (strncpy name) ip ttl t 1.

Lemma cache_entry_spec E name ip ttl s : inv s ->
  wp (dns_cache_entry E name ip ttl) (fun r s' => inv s' /\ exists n, let slot := slot_of name (dns_cache s) 0 (-1) in
    if slot <? 0 then r = -1 /\ s' = set_readings n s
    else r = 0 /\ s' = set_dns_cache (<[Z.to_nat slot := entry_for name ip ttl (hal_get_time_ms E n)]> (dns_cache s)) (set_readings (S n) s)) s.
Proof.
  intros Hi. unfold dns_cache_entry. wp_steps. eapply wp_mono; [apply cache_slot_spec; lia|]. cbn beta. intros r s1 (-> & n & ->).
  set (slot := slot_of _ _ _ _). destruct (Z.ltb_spec slot 0) as [Hlt|Hge].
  - wp_steps. split; [by destruct Hi|]. by exists n.
  - wp_steps. unfold now. wp_steps. rewrite wp_deref. destruct Hi as [Hq Hc].
    assert (slot < 32) as Hs.
    { pose proof (slot_of_spec name (dns_cache s) 0 (-1) ltac:(lia) ltac:(lia)) as Hsp. cbv zeta in Hsp. fold slot in Hsp.
      destruct Hsp as [(k & e & Ek & Hk & _)|[_ [[E1 _]|[_ Hr]]]].
      - apply lookup_lt_Some in Hk. lia.
      - lia.
      - lia. }
    cbn [dns_cache set_readings]. rewrite arr_set_some by lia. eexists. split; [done|]. wp_steps.
    split; [split; simpl; rewrite ?length_insert; done|]. by exists n.
Qed.

(** C28. Received packets: whatever bytes a packet holds, [dns_process_packet] reads only
    bytes of the packet (every label, number and address it copies lies inside it), writes
    only within the 256-byte buffer of the name and, when it returns, leaves the tables of
    queries and of cached names in order, as long as callbacks do. (It does not always
    return: a name that points to itself is followed for ever.) *)
Theorem dns_packets_never_fault E p s :
  EnvOk E -> inv s -> bytes_ok p -> nofault (dns_process_packet E (Some p)) (fun _ s' => inv s') s.
Proof.
  intros HE Hi Hp. unfold dns_process_packet. destruct (Z.ltb_spec (Z.of_nat (length p)) 12); [done|].
  do 4 (apply nf_bind, nf_wp, number_at_ok; [lia|lia|]). case_if; [done|].
  apply nf_bind, nf_wp. unfold dns_find_active_query. wp_steps. set (i := find_query _ _ _).
  destruct (Z.ltb_spec i 0); [done|]. assert (0 <= i < 8) as Hr.
  { destruct (find_query_range (fun q => truth (active q) && (id q =? foldl (fun a b => 256 * a + b) 0 (take 2 (drop (Z.to_nat 0) p))))
      (dns_queries s) 0 ltac:(lia)) as [E1|E1]; fold i in E1; [lia|]. destruct Hi as [Hq _]. lia. }
  case_if.
  { apply nf_bind, nf_wp. eapply wp_mono; [by apply complete_inv|]. by intros [] s' ?. }
  apply nf_bind, nf_wp. unfold lift, wp. destruct (skip_questions_ok (Z.to_nat (foldl (fun a b => 256 * a + b) 0 (take 2 (drop (Z.to_nat 4) p)))) p 12 Hp ltac:(lia))
    as (off & -> & Ho).
  apply nf_bind. eapply nf_mono; [by apply find_answer_nofault|]. cbn beta. intros r s' ->. destruct r as [[ip ttl]|].
  - apply nf_wp. wp_steps. destruct (query_at s i Hi Hr) as [q Eq]. unfold read_query. wp_steps. rewrite Eq. cbn [deref]. wp_steps.
    eapply wp_mono; [by apply cache_entry_spec|]. cbn beta. intros r s1 [Hi1 _]. wp_steps. eapply wp_mono; [by apply complete_inv|].
    cbn beta. intros [] s2 Hi2. by wp_steps.
  - apply nf_bind, nf_wp. eapply wp_mono; [by apply complete_inv|]. by intros [] s' ?.
Qed.

(** ** Pointers *)

Lemma pointer_spins fuel p name next : arr_get p 12 = Some 0xC0 -> arr_get p 13 = Some 12 -> 14 <= Z.of_nat (length p) ->
  parse_loop fuel p 12 name next = Spin.
Proof.
  intros H12 H13 Hl. revert next. induction fuel as [|fuel IH]; intros next; cbn [parse_loop].
  - destruct (Z.leb_spec (Z.of_nat (length p)) 12); [lia|done].
  - destruct (Z.leb_spec (Z.of_nat (length p)) 12); [lia|]. rewrite H12. cbn [Z.eqb].
    change (truth (Z.land 0xC0 0xC0)) with true. cbv iota. destruct (Z.leb_spec (Z.of_nat (length p)) (12 + 1)); [lia|].
    change (12 + 1) with 13. rewrite H13. change (Z.lor (Z.shiftl (Z.land 0xC0 0x3F) 8) 12) with 12. cbv zeta.
    destruct (Z.leb_spec (Z.of_nat (length p)) 12); [lia|]. apply IH.
Qed.

(** The response whose answer is a name that points to itself. *)
Definition looping_response (qid : Z) : list Z := be16 qid ++ be16 0x8000 ++ be16 0 ++ be16 1 ++ [0; 0; 0; 0; 0xC0; 12].

(** C37. A packet of 14 bytes stops the resolver: a response with the number of an active query
    whose answer starts with a compression pointer to itself makes [dns_process_packet] run
    for ever, whatever the state of the resolver and however long it may run. *)
Theorem dns_pointer_loop_hangs E qid s :
  0 <= qid < 65536 -> 0 <= find_query (fun q => truth (active q) && (id q =? qid)) (dns_queries s) 0 ->
  dns_process_packet E (Some (looping_response qid)) s = Spin /\
  forall fuel, parse_loop fuel (looping_response qid) 12 [] None = Spin.
Proof.
  intros Hq Hf. assert (forall fuel, parse_loop fuel (looping_response qid) 12 [] None = Spin) as Hs by (intros; by apply pointer_spins).
  split; [|done]. unfold dns_process_packet. change (Z.of_nat (length (looping_response qid)) <? 12) with false. cbv iota.
  assert (number_at (looping_response qid) 0 2 s = Ret (qid, s)) as E0.
  { change (number_at (looping_response qid) 0 2 s) with (Ret (A := Z * dns) (256 * (256 * 0 + Ip.hi qid) + Ip.lo qid, s)).
    destruct (Ip.lo_hi qid Hq) as (El & _). do 2 f_equal. lia. }
  rewrite (bind_run _ _ s qid s E0). rewrite (bind_run _ _ s 0x8000 s) by done. rewrite (bind_run _ _ s 0 s) by done.
  rewrite (bind_run _ _ s 1 s) by done. change (has_flag 0x8000 DNS_FLAG_QR) with true. cbn [negb].
  rewrite (bind_run _ _ s (find_query (fun q => truth (active q) && (id q =? qid)) (dns_queries s) 0) s) by done.
  destruct (Z.ltb_spec (find_query (fun q => truth (active q) && (id q =? qid)) (dns_queries s) 0) 0); [lia|].
  change (truth (Z.land 0x8000 DNS_FLAG_RCODE)) with false. cbv iota. rewrite (bind_run _ _ s 12 s) by done.
  apply bind_spin. change (Z.to_nat 1) with 1%nat. cbn [find_answer]. apply bind_spin. unfold dns_parse_name. by rewrite Hs.
Qed.

(** ** Names *)

(** A label that can be sent: 1 to 63 characters, none of them a dot. *)
Definition label_ok (l : list Z) : Prop :=
  (1 <= length l <= 63)%nat /\ Forall (fun c => 0 < c < 256 /\ c <> DOT) l.

(** The text of a name, and its form in a packet without the final 0. *)
Definition dotted (r : list (list Z)) : list Z := concat (map (cons DOT) r).
Definition text (l : list Z) (r : list (list Z)) : list Z := l ++ dotted r.
Definition wire (r : list (list Z)) : list Z := concat (map (fun l => Z.of_nat (length l) :: l) r).

Lemma label_app l t : Forall (fun c => 0 < c < 256 /\ c <> DOT) l -> (t = [] \/ exists t', t = DOT :: t') -> label (l ++ t) = l.
Proof.
  intros Hl Ht. induction Hl as [|c l [_ Hc] _ IH]; simpl.
  - by destruct Ht as [->|[t' ->]].
  - destruct (Z.eqb_spec c DOT); [done|]. by rewrite IH.
Qed.

Lemma dotted_head r : dotted r = [] \/ exists t, dotted r = DOT :: t.
Proof. destruct r as [|l r]; [by left|]. right. by eexists. Qed.

Definition piece (l : list Z) : list Z := Z.of_nat (length l) :: l.

Lemma encode_step l t fuel off p s : label_ok l -> (t = [] \/ exists t', t = DOT :: t') -> 0 <= off ->
  off + 1 + Z.of_nat (length l) <= 512 -> 512 <= Z.of_nat (length p) ->
  encode_name (S fuel) (l ++ t) off p s =
    match t with
    | [] => Ret (Some (off + 1 + Z.of_nat (length l), splice p (Z.to_nat off) (piece l)), s)
    | _ :: t' => encode_name fuel t' (off + 1 + Z.of_nat (length l)) (splice p (Z.to_nat off) (piece l)) s
    end.
Proof.
  intros [Hlen Hch] Ht Ho Hle Hp. destruct l as [|c l']; [simpl in Hlen; lia|]. cbn [encode_name app].
  assert (label (c :: l' ++ t) = c :: l') as -> by (by apply (label_app (c :: l'))). change (c :: l' ++ t) with ((c :: l') ++ t).
  set (x := c :: l') in *. clearbody x. unfold DNS_MAX_PACKET_SIZE. destruct (Z.ltb_spec 512 (off + 1 + Z.of_nat (length x))); [lia|].
  assert (u8 (Z.of_nat (length x)) = Z.of_nat (length x)) as -> by (apply Z.mod_small; lia).
  rewrite (bind_run _ _ s (splice p (Z.to_nat off) [Z.of_nat (length x)]) s).
  2:{ unfold store. destruct (Z.leb_spec 0 off), (Z.leb_spec (off + Z.of_nat (length [Z.of_nat (length x)])) (Z.of_nat (length p))); simpl in *; (done || lia). }
  rewrite (bind_run _ _ s (splice p (Z.to_nat off) (piece x)) s).
  2:{ unfold store. rewrite splice_length by (simpl; lia).
      destruct (Z.leb_spec 0 (off + 1)), (Z.leb_spec (off + 1 + Z.of_nat (length x)) (Z.of_nat (length p))); try lia. cbn [andb].
      replace (Z.to_nat (off + 1)) with (Z.to_nat off + length [Z.of_nat (length x)])%nat by (simpl; lia).
      rewrite splice_app by (simpl; lia). done. }
  rewrite drop_app_length. by destruct t.
Qed.

Lemma encode_wire r : forall l fuel off p s, label_ok l -> Forall label_ok r -> (length (text l r) < fuel)%nat -> 0 <= off ->
  off + Z.of_nat (length (wire (l :: r))) <= 512 -> 512 <= Z.of_nat (length p) ->
  encode_name fuel (text l r) off p s =
    Ret (Some (off + Z.of_nat (length (wire (l :: r))), splice p (Z.to_nat off) (wire (l :: r))), s).
Proof.
  induction r as [|l2 r IH]; intros l fuel off p s Hl Hr Hf Ho Hw Hp; (destruct fuel as [|fuel]; [lia|]); unfold text in *;
    pose proof Hl as [Hlen _].
  - assert (wire [l] = piece l) as Ew by (unfold wire; simpl; by rewrite app_nil_r). rewrite Ew in *. unfold piece at 1 in Hw. simpl in Hw.
    rewrite encode_step; [|done|by left|done|lia|done].
    replace (off + Z.of_nat (length (piece l))) with (off + 1 + Z.of_nat (length l)) by (simpl; lia). done.
  - inversion Hr as [|? ? Hl2 Hr2]; subst.
    assert (length (wire (l :: l2 :: r)) = 1 + length l + length (wire (l2 :: r)))%nat as Ew
      by (by change (wire (l :: l2 :: r)) with (piece l ++ wire (l2 :: r)); rewrite length_app).
    rewrite encode_step; [|done|apply dotted_head|done|lia|done]. change (dotted (l2 :: r)) with (DOT :: (l2 ++ dotted r)). cbv iota.
    change (dotted (l2 :: r)) with (DOT :: (l2 ++ dotted r)) in Hf. rewrite length_app in Hf. cbn [length] in Hf.
    rewrite IH; try done; [|lia|lia|lia|rewrite splice_length by (simpl; lia); lia].
    replace (off + 1 + Z.of_nat (length l) + Z.of_nat (length (wire (l2 :: r)))) with (off + Z.of_nat (length (wire (l :: l2 :: r)))) by lia.
    replace (Z.to_nat (off + 1 + Z.of_nat (length l))) with (Z.to_nat off + length (piece l))%nat by (simpl; lia).
    rewrite splice_app by (unfold piece at 1; cbn [length]; lia). done.
Qed.

Lemma drop_cons_inv (p : list Z) off x t : 0 <= off -> drop (Z.to_nat off) p = x :: t ->
  arr_get p off = Some x /\ drop (Z.to_nat (off + 1)) p = t /\ Z.of_nat (length p) = off + 1 + Z.of_nat (length t).
Proof.
  intros Ho Hd. pose proof (f_equal length Hd) as Hl. rewrite length_drop in Hl. simpl in Hl.
  split; [|split; [|lia]].
  - unfold arr_get. destruct (Z.ltb_spec off 0); [lia|]. rewrite <- (Nat.add_0_r (Z.to_nat off)), <- lookup_drop, Hd. done.
  - replace (Z.to_nat (off + 1)) with (Z.to_nat off + 1)%nat by lia. rewrite <- drop_drop, Hd. done.
Qed.

Lemma short_label n : 1 <= n <= 63 -> truth (Z.land n 0xC0) = false.
Proof.
  intros Hn. assert (forallb (fun n => negb (truth (Z.land n 0xC0))) (seqZ 1 63) = true) as H by (vm_compute; reflexivity).
  rewrite forallb_forall in H. apply negb_true_iff, H, list_elem_of_In, elem_of_seqZ. lia.
Qed.

Definition extend (name l : list Z) : list Z := match name with [] => l | _ => name ++ DOT :: l end.

Lemma parse_step l t fuel (p : list Z) off name next : label_ok l -> 0 <= off -> drop (Z.to_nat off) p = piece l ++ t ->
  Z.of_nat (length (extend name l)) <= 255 ->
  parse_loop (S fuel) p off name next = parse_loop fuel p (off + 1 + Z.of_nat (length l)) (extend name l) next /\
  drop (Z.to_nat (off + 1 + Z.of_nat (length l))) p = t.
Proof.
  intros [Hlen _] Ho Hd Hn. destruct (drop_cons_inv p off _ (l ++ t) Ho Hd) as (Hg & Hd1 & Hl). rewrite length_app in Hl.
  split; [|replace (Z.to_nat (off + 1 + Z.of_nat (length l))) with (Z.to_nat (off + 1) + length l)%nat by lia;
           by rewrite <- drop_drop, Hd1, drop_app_length].
  cbn [parse_loop]. destruct (Z.leb_spec (Z.of_nat (length p)) off); [lia|]. rewrite Hg. cbv zeta.
  destruct (Z.eqb_spec (Z.of_nat (length l)) 0); [lia|]. rewrite short_label by lia.
  destruct (Z.ltb_spec (Z.of_nat (length p)) (off + 1 + Z.of_nat (length l))); [lia|].
  rewrite range_at_in, Hd1, Nat2Z.id, take_app_length by lia. unfold DNS_MAX_NAME_LENGTH.
  assert ((if (0 <? length name)%nat then name ++ [DOT] else name) ++ l = extend name l) as Ex.
  { destruct name; [done|]. simpl. by rewrite <- app_assoc. }
  assert (length (if (0 <? length name)%nat then name ++ [DOT] else name) + length l = length (extend name l))%nat as El
    by (by rewrite <- Ex, length_app).
  assert ((0 <? length name)%nat && (255 + 1 <=? Z.of_nat (length name) + 1) = false) as ->.
  { destruct (Nat.ltb_spec 0 (length name)); [|done]. rewrite length_app in El. simpl in El. apply Z.leb_gt. lia. }
  destruct (Z.leb_spec (255 + 1) (Z.of_nat (length (if (0 <? length name)%nat then name ++ [DOT] else name)) + Z.of_nat (length l))); [lia|].
  destruct (Z.ltb_spec 255 (Z.of_nat (length (if (0 <? length name)%nat then name ++ [DOT] else name) + length l))); [lia|].
  by rewrite Ex.
Qed.

(** Reading a name back; [name] is what was read before. *)
Lemma parse_wire r : forall fuel p off name next rest, Forall label_ok r -> (length r < fuel)%nat -> 0 <= off -> name <> [] ->
  drop (Z.to_nat off) p = wire r ++ 0 :: rest -> Z.of_nat (length (name ++ dotted r)) <= 255 ->
  parse_loop fuel p off name next = Ret (Some (name ++ dotted r, default (off + Z.of_nat (length (wire r)) + 1) next)).
Proof.
  induction r as [|l r IH]; intros fuel p off name next rest Hr Hf Ho Hne Hd Hn; (destruct fuel as [|fuel]; [simpl in Hf; lia|]).
  - destruct (drop_cons_inv p off 0 rest Ho Hd) as (Hg & _ & Hl). cbn [parse_loop].
    destruct (Z.leb_spec (Z.of_nat (length p)) off); [lia|]. rewrite Hg. cbn [Z.eqb]. unfold dotted. simpl. rewrite app_nil_r.
    by rewrite Z.add_0_r.
  - inversion Hr as [|? ? Hl Hr']; subst. change (wire (l :: r)) with (piece l ++ wire r) in *. rewrite <- app_assoc in Hd.
    change (dotted (l :: r)) with ((DOT :: l) ++ dotted r) in *.
    assert (extend name l = name ++ DOT :: l) as Ex by (by destruct name).
    assert (Z.of_nat (length (extend name l)) <= 255) as Hxl by (rewrite Ex; rewrite !length_app in *; lia).
    destruct (parse_step l _ fuel p off name next Hl Ho Hd Hxl) as [-> Hd'].
    rewrite (IH fuel p _ _ next rest Hr'); [|simpl in Hf; lia|lia|rewrite Ex; by destruct name|done|rewrite Ex, <- app_assoc; exact Hn].
    rewrite Ex, <- app_assoc. do 3 f_equal. destruct next; [done|]. rewrite length_app. unfold piece. simpl. lia.
Qed.

(** The whole name [l] and [r] at [off]. *)
Lemma parse_name l r p off rest s : label_ok l -> Forall label_ok r -> 0 <= off -> Z.of_nat (length (text l r)) <= 255 ->
  drop (Z.to_nat off) p = wire (l :: r) ++ 0 :: rest ->
  dns_parse_name p off s = Ret (Some (text l r, off + Z.of_nat (length (wire (l :: r))) + 1), s).
Proof.
  intros Hl Hr Ho Hn Hd. unfold dns_parse_name. change (wire (l :: r)) with (piece l ++ wire r) in *. rewrite <- app_assoc in Hd.
  assert (length r < parse_fuel p - 1)%nat as Hf.
  { assert (length r <= length (wire r))%nat by (clear; induction r as [|x r IH]; [done|]; unfold wire in *; simpl; rewrite length_app; lia).
    pose proof (f_equal length Hd) as Hlen. rewrite length_drop, !length_app in Hlen. unfold parse_fuel. simpl in *. lia. }
  destruct (parse_fuel p) as [|fuel]; [lia|].
  assert (Z.of_nat (length (extend [] l)) <= 255) as Hxl by (unfold text in Hn; rewrite length_app in Hn; simpl; lia).
  destruct (parse_step l _ fuel p off [] None Hl Ho Hd Hxl) as [-> Hd'].
  rewrite (parse_wire r fuel p _ _ None rest Hr); [|lia|lia| |done|done].
  - simpl. rewrite length_app. unfold piece. simpl. do 4 f_equal. lia.
  - simpl. destruct Hl as [Hlen _]. by destruct l; [simpl in Hlen; lia|].
Qed.

(** ** Queries *)

(** The packet of a query. *)
Definition question (l : list Z) (r : list (list Z)) : list Z := wire (l :: r) ++ [0] ++ be16 DNS_TYPE_A ++ be16 DNS_CLASS_IN.
Definition query_packet (qid : Z) (l : list Z) (r : list (list Z)) : list Z :=
  (be16 qid ++ be16 DNS_FLAG_RD ++ be16 1 ++ [0; 0; 0; 0; 0; 0]) ++ question l r.

Lemma store_run (p : list Z) (x y : list Z) off s : off = Z.of_nat (length x) -> (length x + length y <= length p)%nat ->
  store (splice p 0 x) off y s = Ret (splice p 0 (x ++ y), s).
Proof.
  intros -> Hl. unfold store. rewrite splice_length by (simpl; lia). destruct (Z.leb_spec 0 (Z.of_nat (length x))); [|lia].
  destruct (Z.leb_spec (Z.of_nat (length x) + Z.of_nat (length y)) (Z.of_nat (length p))); [|lia]. rewrite Nat2Z.id.
  change (length x) with (0 + length x)%nat. rewrite splice_app by (simpl; lia). done.
Qed.

Lemma wire_length r : length (wire r) = length (dotted r).
Proof. induction r as [|l r IH]; [done|]. unfold wire, dotted in *. simpl. rewrite !length_app. lia. Qed.

Lemma send_query_run E l r qid s p :
  label_ok l -> Forall label_ok r -> Z.of_nat (length (text l r)) <= 255 ->
  net_buffer_alloc E s = Some p -> length p = 512%nat -> has_default_device E s = true ->
  dns_send_query E (Some (text l r)) qid s =
    Ret (udp_send E s (query_packet qid l r), set_sent ((dns_server s, query_packet qid l r) :: sent s) s).
Proof.
  intros Hl Hr Hn Ha Hp Hd. unfold dns_send_query.
  assert (text l r <> []) as Hne by (unfold text; destruct Hl as [Hlen _]; destruct l; [simpl in Hlen; lia|done]).
  destruct (text l r) as [|c t] eqn:Et; [done|]. rewrite <- Et in *. clear Hne.
  rewrite (bind_run _ _ s s s) by done. rewrite Ha. set (hdr := be16 qid ++ _).
  assert (Z.of_nat (length (wire (l :: r))) <= 256) as Hw.
  { rewrite wire_length. change (dotted (l :: r)) with (DOT :: text l r). simpl. lia. }
  assert (splice p 0 [] = p) as Ep by done.
  rewrite (bind_run _ _ s (splice p 0 hdr) s) by (rewrite <- Ep at 1; by rewrite store_run by (simpl; lia)).
  rewrite (bind_run _ _ s (Some (12 + Z.of_nat (length (wire (l :: r))), splice p 0 (hdr ++ wire (l :: r)))) s).
  2:{ rewrite encode_wire; [|done|done|lia|lia|lia|rewrite splice_length; [lia|simpl; lia]].
      change (Z.to_nat 12) with (0 + length hdr)%nat. rewrite splice_app by (change (length hdr) with 12%nat; lia). done. }
  rewrite (bind_run _ _ s (splice p 0 ((hdr ++ wire (l :: r)) ++ [0])) s)
    by (rewrite store_run; [done|rewrite length_app; change (length hdr) with 12%nat; lia|rewrite length_app; change (length hdr) with 12%nat; cbn [length]; lia]).
  unfold DNS_MAX_PACKET_SIZE. destruct (Z.ltb_spec 512 (12 + Z.of_nat (length (wire (l :: r))) + 1 + 4)); [lia|].
  rewrite (bind_run _ _ s (splice p 0 (((hdr ++ wire (l :: r)) ++ [0]) ++ be16 DNS_TYPE_A ++ be16 DNS_CLASS_IN)) s)
    by (rewrite store_run; [done|rewrite !length_app; change (length hdr) with 12%nat; cbn [length app be16]; lia|
        rewrite !length_app; change (length hdr) with 12%nat; cbn [length app be16]; lia]).
  rewrite (bind_run _ _ s s s) by done. rewrite Hd. cbn [negb].
  assert (((hdr ++ wire (l :: r)) ++ [0]) ++ be16 DNS_TYPE_A ++ be16 DNS_CLASS_IN = query_packet qid l r) as Eq.
  { unfold query_packet, question. fold hdr. by rewrite <- !app_assoc. }
  rewrite Eq. assert (take (Z.to_nat (12 + Z.of_nat (length (wire (l :: r))) + 5)) (splice p 0 (query_packet qid l r)) = query_packet qid l r) as ->.
  { unfold splice. rewrite (take_0 p), app_nil_l. rewrite take_app_length'; [done|]. unfold query_packet, question. fold hdr.
    rewrite !length_app. change (length hdr) with 12%nat. cbn [length app be16]. lia. }
  done.
Qed.

(** C29. The question a query asks: for a host name of at most 255 characters whose labels have
    1 to 63 characters, [dns_send_query] sends one packet to the configured server; read with
    [dns_parse_name], as the resolver reads answers, the packet asks for exactly that name,
    and behind the name for the address type and the Internet class; its number is that of
    the query. *)
Theorem dns_query_names_host E l r qid s p :
  label_ok l -> Forall label_ok r -> Z.of_nat (length (text l r)) <= 255 -> 0 <= qid < 65536 ->
  net_buffer_alloc E s = Some p -> length p = 512%nat -> has_default_device E s = true ->
  exists packet off, dns_send_query E (Some (text l r)) qid s = Ret (udp_send E s packet, set_sent ((dns_server s, packet) :: sent s) s) /\
    dns_parse_name packet 12 s = Ret (Some (text l r, off), s) /\
    number_at packet 0 2 s = Ret (qid, s) /\ number_at packet off 2 s = Ret (DNS_TYPE_A, s) /\
    number_at packet (off + 2) 2 s = Ret (DNS_CLASS_IN, s) /\ Z.of_nat (length packet) = off + 4.
Proof.
  intros Hl Hr Hn Hq Ha Hp Hd. exists (query_packet qid l r), (12 + Z.of_nat (length (wire (l :: r))) + 1).
  split; [by eapply send_query_run|].
  assert (drop (Z.to_nat 12) (query_packet qid l r) = question l r) as Hdrop by (unfold query_packet; by rewrite drop_app_length').
  split; [by eapply (parse_name l r _ 12 _ s Hl Hr ltac:(lia) Hn Hdrop)|].
  assert (Z.of_nat (length (query_packet qid l r)) = 12 + Z.of_nat (length (wire (l :: r))) + 1 + 4) as Hlen.
  { unfold query_packet, question. rewrite !length_app. cbn [length app be16]. lia. }
  assert (drop (Z.to_nat (12 + Z.of_nat (length (wire (l :: r))) + 1)) (query_packet qid l r) = [0; 1; 0; 1]) as Ht.
  { replace (Z.to_nat _) with (Z.to_nat 12 + length (wire (l :: r) ++ [0%Z]))%nat by (rewrite length_app; cbn [length app be16]; lia).
    rewrite <- drop_drop, Hdrop. unfold question. rewrite app_assoc. by rewrite drop_app_length. }
  split; [|split; [|split; [|exact Hlen]]]; unfold number_at; rewrite Hlen.
  - destruct (Z.leb_spec (0 + Z.of_nat 2) (12 + Z.of_nat (length (wire (l :: r))) + 1 + 4)); [|lia]. cbn [andb Z.leb Z.compare].
    destruct (Ip.lo_hi qid Hq) as (El & _). unfold ret. simpl. do 2 f_equal. lia.
  - destruct (Z.leb_spec 0 (12 + Z.of_nat (length (wire (l :: r))) + 1)); [|lia].
    destruct (Z.leb_spec (12 + Z.of_nat (length (wire (l :: r))) + 1 + Z.of_nat 2) (12 + Z.of_nat (length (wire (l :: r))) + 1 + 4)); [|lia].
    by rewrite Ht.
  - destruct (Z.leb_spec 0 (12 + Z.of_nat (length (wire (l :: r))) + 1 + 2)); [|lia].
    destruct (Z.leb_spec (12 + Z.of_nat (length (wire (l :: r))) + 1 + 2 + Z.of_nat 2) (12 + Z.of_nat (length (wire (l :: r))) + 1 + 4)); [|lia].
    replace (Z.to_nat (12 + Z.of_nat (length (wire (l :: r))) + 1 + 2)) with (Z.to_nat (12 + Z.of_nat (length (wire (l :: r))) + 1) + 2)%nat by lia.
    by rewrite <- drop_drop, Ht.
Qed.

(** ** Answers *)

Definition be32 (x : Z) : list Z := [x / 2 ^ 24 mod 256; x / 2 ^ 16 mod 256; x / 2 ^ 8 mod 256; x mod 256].

(** An answer to the query for the name [l], [r], as name servers send it: the question
    again, and an address record whose name is a pointer to the question. *)
Definition answer (ttl : Z) (ip : list Z) : list Z :=
  [0xC0; 12] ++ be16 DNS_TYPE_A ++ be16 DNS_CLASS_IN ++ be32 ttl ++ be16 4 ++ ip.
Definition response (qid : Z) (l : list Z) (r : list (list Z)) (ttl : Z) (ip : list Z) : list Z :=
  (be16 qid ++ be16 0x8180 ++ be16 1 ++ be16 1 ++ [0; 0; 0; 0]) ++ question l r ++ answer ttl ip.

Lemma number_drop (p : list Z) off n l t s : 0 <= off -> drop (Z.to_nat off) p = l ++ t -> length l = S n ->
  number_at p off (S n) s = Ret (foldl (fun a b => 256 * a + b) 0 l, s).
Proof.
  intros Ho Hd Hn. pose proof (f_equal length Hd) as Hl. rewrite length_drop, length_app in Hl.
  unfold number_at. destruct (Z.leb_spec 0 off); [|lia].
  destruct (Z.leb_spec (off + Z.of_nat (S n)) (Z.of_nat (length p))); [|lia].
  cbn [andb]. by rewrite Hd, take_app_length'.
Qed.

Lemma be32_value x : 0 <= x < 2 ^ 32 -> foldl (fun a b => 256 * a + b) 0 (be32 x) = x.
Proof.
  intros Hx. unfold be32. cbn [foldl]. change (2 ^ 8) with 256. change (2 ^ 16) with (256 * 256). change (2 ^ 24) with (256 * (256 * 256)).
  rewrite <- !Z.div_div by lia. pose proof (Z.div_mod x 256 ltac:(lia)) as E1. pose proof (Z.div_mod (x / 256) 256 ltac:(lia)) as E2.
  pose proof (Z.div_mod (x / 256 / 256) 256 ltac:(lia)) as E3. rewrite (Z.mod_small (x / 256 / 256 / 256)); [lia|].
  split; [repeat apply Z.div_pos; lia|]. repeat apply Z.div_lt_upper_bound; lia.
Qed.

Lemma skip_wire r : forall fuel (p : list Z) off rest, Forall label_ok r -> (length r < fuel)%nat -> 0 <= off ->
  drop (Z.to_nat off) p = wire r ++ 0 :: rest -> skip_name fuel p off = Ret (off + Z.of_nat (length (wire r)) + 1).
Proof.
  induction r as [|l r IH]; intros fuel p off rest Hr Hf Ho Hd; (destruct fuel as [|fuel]; [simpl in Hf; lia|]); cbn [skip_name].
  - destruct (drop_cons_inv p off 0 rest Ho Hd) as (Hg & _ & Hl). destruct (Z.leb_spec (Z.of_nat (length p)) off); [lia|].
    rewrite Hg. cbn [Z.eqb]. f_equal. simpl. lia.
  - inversion Hr as [|? ? [Hlen Hch] Hr']; subst. change (wire (l :: r)) with (piece l ++ wire r) in *. rewrite <- app_assoc in Hd.
    destruct (drop_cons_inv p off (Z.of_nat (length l)) (l ++ wire r ++ 0 :: rest) Ho Hd) as (Hg & Hd1 & Hl). rewrite length_app in Hl.
    destruct (Z.leb_spec (Z.of_nat (length p)) off); [lia|]. rewrite Hg. destruct (Z.eqb_spec (Z.of_nat (length l)) 0); [lia|].
    rewrite short_label by lia. rewrite (IH fuel p _ rest Hr'); [|simpl in Hf; lia|lia|].
    + rewrite length_app. unfold piece. cbn [length]. f_equal. lia.
    + replace (Z.to_nat (off + 1 + Z.of_nat (length l))) with (Z.to_nat (off + 1) + length l)%nat by lia.
      by rewrite <- drop_drop, Hd1, drop_app_length.
Qed.

Lemma parse_pointer l r (p : list Z) off rest rest' s : label_ok l -> Forall label_ok r -> 0 <= off -> Z.of_nat (length (text l r)) <= 255 ->
  drop (Z.to_nat 12) p = wire (l :: r) ++ 0 :: rest -> drop (Z.to_nat off) p = 0xC0 :: 12 :: rest' ->
  dns_parse_name p off s = Ret (Some (text l r, off + 2), s).
Proof.
  intros Hl Hr Ho Hn Hd Hp. unfold dns_parse_name.
  destruct (drop_cons_inv p off _ _ Ho Hp) as (H0 & Hp1 & Hl1). destruct (drop_cons_inv p (off + 1) _ _ ltac:(lia) Hp1) as (H1 & _ & Hl2).
  change (wire (l :: r)) with (piece l ++ wire r) in *. rewrite <- app_assoc in Hd.
  assert (length r < parse_fuel p - 2)%nat as Hf.
  { assert (length r <= length (wire r))%nat by (clear; induction r as [|x r IH]; [done|]; unfold wire in *; simpl; rewrite length_app; lia).
    pose proof (f_equal length Hd) as Hlen. rewrite length_drop, !length_app in Hlen. unfold parse_fuel. simpl in *. lia. }
  assert (12 < Z.of_nat (length p)) as H12.
  { pose proof (f_equal length Hd) as Hlen. rewrite length_drop, !length_app in Hlen. simpl in Hlen. lia. }
  destruct (parse_fuel p) as [|[|fuel]]; [lia|lia|]. set (f1 := S fuel). cbn [parse_loop].
  destruct (Z.leb_spec (Z.of_nat (length p)) off); [lia|]. rewrite H0. cbn [Z.eqb]. change (truth (Z.land 0xC0 0xC0)) with true. cbv iota.
  destruct (Z.leb_spec (Z.of_nat (length p)) (off + 1)); [lia|]. rewrite H1. cbv zeta. change (Z.lor (Z.shiftl (Z.land 0xC0 0x3F) 8) 12) with 12.
  destruct (Z.leb_spec (Z.of_nat (length p)) 12); [lia|]. unfold f1.
  assert (Z.of_nat (length (extend [] l)) <= 255) as Hxl by (unfold text in Hn; rewrite length_app in Hn; simpl; lia).
  destruct (parse_step l _ fuel p 12 [] (Some (off + 1 + 1)) Hl ltac:(lia) Hd Hxl) as [-> Hd'].
  rewrite (parse_wire r fuel p _ _ _ rest Hr); [|lia|lia| |done|done].
  - simpl. do 4 f_equal. lia.
  - simpl. destruct Hl as [Hlen _]. by destruct l; [simpl in Hlen; lia|].
Qed.

Lemma find_answer_response l r qid ttl ip s : label_ok l -> Forall label_ok r -> Z.of_nat (length (text l r)) <= 255 ->
  length ip = 4%nat -> 0 <= ttl < 2 ^ 32 ->
  (off <- lift (skip_questions 1 (response qid l r ttl ip) 12) ;; find_answer 1 (response qid l r ttl ip) off) s = Ret (Some (ip, ttl), s).
Proof.
  intros Hl Hr Hn Hip Httl. set (p := response qid l r ttl ip).
  assert (drop (Z.to_nat 12) p = wire (l :: r) ++ 0 :: ([0; 1; 0; 1] ++ answer ttl ip)) as Hd.
  { unfold p, response, question. rewrite drop_app_length' by done. by rewrite <- !app_assoc. }
  assert (length r <= length (wire r))%nat as Hwr by (clear; induction r as [|x r IH]; [done|]; unfold wire in *; simpl; rewrite length_app; lia).
  pose proof (f_equal length Hd) as Hlen. rewrite length_drop, length_app in Hlen.
  change (wire (l :: r)) with (piece l ++ wire r) in Hlen at 1. rewrite length_app in Hlen. unfold piece in Hlen. cbn [length] in Hlen.
  assert (skip_name (S (length p)) p 12 = Ret (12 + Z.of_nat (length (wire (l :: r))) + 1)) as Hs.
  { eapply (skip_wire (l :: r)); [by constructor|cbn [length]; lia|lia|exact Hd]. }
  set (o := 12 + Z.of_nat (length (wire (l :: r))) + 1) in *.
  assert (drop (Z.to_nat (o + 4)) p = answer ttl ip) as Hans.
  { replace (Z.to_nat (o + 4)) with (Z.to_nat 12 + length (wire (l :: r) ++ [0; 0; 1; 0; 1]%Z))%nat by (rewrite length_app; cbn [length]; lia).
    rewrite <- drop_drop, Hd. change (0 :: [0; 1; 0; 1] ++ answer ttl ip) with ([0; 0; 1; 0; 1] ++ answer ttl ip).
    by rewrite app_assoc, drop_app_length. }
  assert (forall k, 0 <= k -> drop (Z.to_nat (o + 4 + k)) p = drop (Z.to_nat k) (answer ttl ip)) as Hk.
  { intros k Hk0. replace (Z.to_nat (o + 4 + k)) with (Z.to_nat (o + 4) + Z.to_nat k)%nat by lia. by rewrite <- drop_drop, Hans. }
  assert (Z.of_nat (length p) = o + 4 + 16) as Hpl.
  { pose proof (f_equal length Hans) as H. rewrite length_drop in H. unfold answer in H. rewrite !length_app, Hip in H. cbn [length be16 be32] in H. lia. }
  unfold lift. cbn [skip_questions]. rewrite Hs. rewrite (bind_run _ _ s (o + 4) s) by done. cbn [find_answer].
  rewrite (bind_run _ _ s (Some (text l r, o + 4 + 2)) s) by (by eapply parse_pointer; [done|done|lia|done|exact Hd|exact Hans]).
  destruct (Z.ltb_spec (Z.of_nat (length p)) (o + 4 + 2 + 10)); [lia|].
  rewrite (bind_run _ _ s DNS_TYPE_A s).
  2:{ eapply (number_drop p (o + 4 + 2) 1 (be16 DNS_TYPE_A)); [lia|by rewrite (Hk 2) by lia|done]. }
  rewrite (bind_run _ _ s ttl s).
  2:{ rewrite <- (be32_value ttl Httl) at 1. eapply (number_drop p _ 3 (be32 ttl)); [lia| |done].
      replace (o + 4 + 2 + 4) with (o + 4 + 6) by lia. by rewrite (Hk 6) by lia. }
  rewrite (bind_run _ _ s 4 s).
  2:{ eapply (number_drop p _ 1 (be16 4)); [lia| |done]. replace (o + 4 + 2 + 8) with (o + 4 + 10) by lia. by rewrite (Hk 10) by lia. }
  change ((DNS_TYPE_A =? DNS_TYPE_A) && (4 =? 4)) with true. cbv iota zeta.
  destruct (Z.ltb_spec (Z.of_nat (length p)) (o + 4 + 2 + 10 + 4)); [lia|].
  replace (o + 4 + 2 + 10) with (o + 4 + 12) by lia. rewrite range_at_in, (Hk 12) by lia.
  change (drop (Z.to_nat 12) (answer ttl ip)) with ip. rewrite firstn_all2 by (change (Z.to_nat 4) with 4%nat; lia). done.
Qed.

(** ** The cache *)

Lemma find_cached_at E name l : forall k e s, l !! k = Some e -> matches name e = true ->
  (forall j e', (j < k)%nat -> l !! j = Some e' -> matches name e' = false) ->
  find_cached E name l s =
    Ret (if u32 (hal_get_time_ms E (readings s) - e_timestamp e) / 1000 <? e_ttl e then (DNS_TTL_VALID, Some (e_ip e)) else (DNS_TTL_EXPIRED, None),
         set_readings (S (readings s)) s).
Proof.
  induction l as [|x l IH]; intros k e s Hk Hm Hlt; [done|]. cbn [find_cached]. fold (matches name x). destruct k as [|k].
  - injection Hk as ->. rewrite Hm. unfold now, bind, get, put, ret. by case_if.
  - rewrite (Hlt 0%nat x) by (done || lia). apply (IH k); [done|done|]. intros j e' Hj. apply (Hlt (S j)). lia.
Qed.

(** A stored name is found. *)
Lemma stored_is_found name l ip ttl t : Z.of_nat (length name) <= 255 -> 0 <= slot_of name l 0 (-1) ->
  let l' := <[Z.to_nat (slot_of name l 0 (-1)) := entry_for name ip ttl t]> l in
  exists k, l' !! k = Some (entry_for name ip ttl t) /\ matches name (entry_for name ip ttl t) = true /\
    forall j e', (j < k)%nat -> l' !! j = Some e' -> matches name e' = false.
Proof.
  intros Hn Hs. pose proof (slot_of_spec name l 0 (-1) ltac:(lia) ltac:(lia)) as Hsp. cbv zeta in *. set (r := slot_of name l 0 (-1)) in *.
  exists (Z.to_nat r). assert (matches name (entry_for name ip ttl t) = true) as Hm.
  { unfold matches, entry_for, strncpy, DNS_MAX_NAME_LENGTH. cbn [e_valid e_hostname]. rewrite firstn_all2 by lia. by rewrite bool_decide_eq_true_2. }
  assert (Z.to_nat r < length l)%nat as Hr.
  { destruct Hsp as [(k & e & Ek & Hk & _)|[_ [[E1 _]|[_ Hr]]]]; [apply lookup_lt_Some in Hk; lia|lia|lia]. }
  split; [by apply list_lookup_insert_eq|]. split; [done|]. intros j e' Hj. rewrite list_lookup_insert_ne by lia. intros He'.
  destruct Hsp as [(k & e & Ek & Hk & _ & Hlt)|[Hno _]]; [apply (Hlt j); [lia|done]|].
  by eapply (Forall_lookup_1 _ _ _ _ Hno).
Qed.

(** Resolving a name: when a response with the number of an active query repeats its question
    and answers with an address, and the cache has an entry or a free slot for the name, the
    resolver stores the address and completes that query with it (which calls the query's
    callback with the name and the address). From then on, as long as the entry is in the cache
    and its time to live has not passed, [dns_get_cached] answers the address. *)
Theorem dns_answer_resolves E s qid i q l r ttl ip :
  inv s -> label_ok l -> Forall label_ok r -> Z.of_nat (length (text l r)) <= 255 -> length ip = 4%nat -> 0 <= ttl < 2 ^ 32 -> 0 <= qid < 65536 ->
  i = find_query (fun q => truth (active q) && (id q =? qid)) (dns_queries s) 0 -> 0 <= i ->
  arr_get (dns_queries s) i = Some q -> hostname q = text l r -> 0 <= slot_of (text l r) (dns_cache s) 0 (-1) ->
  exists s1 t, dns_process_packet E (Some (response qid l r ttl ip)) s = (dns_complete_query E i (Some ip) ;;; ret 0) s1 /\
    dns_queries s1 = dns_queries s /\
    forall s2, dns_cache s2 = dns_cache s1 -> u32 (hal_get_time_ms E (readings s2) - t) / 1000 < ttl ->
      dns_get_cached E (Some (text l r)) s2 = Ret ((DNS_TTL_VALID, Some ip), set_readings (S (readings s2)) s2).
Proof.
  intros Hi Hl Hr Hn Hip Httl Hq Ei Hi0 Eq Hname Hslot.
  destruct (wp_returns _ _ _ (cache_entry_spec E (text l r) ip ttl s Hi)) as (c & s1 & E1 & _ & n & Hc). cbv zeta in Hc.
  destruct (Z.ltb_spec (slot_of (text l r) (dns_cache s) 0 (-1)) 0); [lia|]. destruct Hc as [-> ->].
  set (s1 := set_dns_cache _ _) in *. exists s1, (hal_get_time_ms E n). split; [|split; [done|]].
  - unfold dns_process_packet. set (p := response qid l r ttl ip).
    destruct (Z.ltb_spec (Z.of_nat (length p)) 12) as [Hlt|_]; [unfold p, response in Hlt; rewrite length_app in Hlt; cbn [length app be16] in Hlt; lia|].
    assert (drop (Z.to_nat 0) p = be16 qid ++ drop 2 p) as D0 by done.
    rewrite (bind_run _ _ s qid s).
    2:{ rewrite (number_drop p 0 1 (be16 qid) _ s ltac:(lia) D0 eq_refl). destruct (Ip.lo_hi qid Hq) as (El & _). simpl. do 2 f_equal. lia. }
    rewrite (bind_run _ _ s 0x8180 s) by (by rewrite (number_drop p 2 1 (be16 0x8180) (drop 4 p)) by (done || lia)).
    rewrite (bind_run _ _ s 1 s) by (by rewrite (number_drop p 4 1 (be16 1) (drop 6 p)) by (done || lia)).
    rewrite (bind_run _ _ s 1 s) by (by rewrite (number_drop p 6 1 (be16 1) (drop 8 p)) by (done || lia)).
    change (has_flag 0x8180 DNS_FLAG_QR) with true. cbn [negb]. rewrite (bind_run _ _ s i s) by (unfold dns_find_active_query, bind, get, ret; by subst i).
    destruct (Z.ltb_spec i 0); [lia|]. change (truth (Z.land 0x8180 DNS_FLAG_RCODE)) with false. cbv iota. change (Z.to_nat 1) with 1%nat.
    pose proof (find_answer_response l r qid ttl ip s Hl Hr Hn Hip Httl) as Hfa. fold p in Hfa. unfold bind at 1 in Hfa. unfold bind at 1.
    destruct (lift (skip_questions 1 p 12) s) as [[off s']| |]; [|done..]. rewrite (bind_run _ _ s' _ s Hfa). cbv iota.
    rewrite (bind_run _ _ s q s) by (unfold read_query, bind, get; by rewrite Eq). rewrite Hname. by rewrite (bind_run _ _ s 0 s1 E1).
  - intros s2 Ec Ht. unfold dns_get_cached. rewrite (bind_run _ _ s2 s2 s2) by done. rewrite Ec.
    change (dns_cache s1) with (<[Z.to_nat (slot_of (text l r) (dns_cache s) 0 (-1)) := entry_for (text l r) ip ttl (hal_get_time_ms E n)]> (dns_cache s)).
    destruct (stored_is_found (text l r) (dns_cache s) ip ttl (hal_get_time_ms E n) Hn Hslot) as (k & Hk & Hm & Hlt).
    rewrite (find_cached_at E _ _ k _ s2 Hk Hm Hlt). cbn [e_timestamp entry_for e_ttl e_ip].
    by destruct (Z.ltb_spec (u32 (hal_get_time_ms E (readings s2) - hal_get_time_ms E n) / 1000) ttl); [|lia].
Qed.

(** The cache never forgets: once its 32 entries are used, [dns_cache_entry] refuses every
    other name, however old the entries are and whether or not their time to live has passed;
    the search for the oldest entry compares ages with the largest 32-bit number and finds none. *)
Theorem dns_cache_fills_up E name ip ttl s :
  inv s -> Forall (fun e => truth (e_valid e) = true /\ e_hostname e <> name) (dns_cache s) ->
  exists n, dns_cache_entry E name ip ttl s = Ret (-1, set_readings n s).
Proof.
  intros Hi Hall. destruct (wp_returns _ _ _ (cache_entry_spec E name ip ttl s Hi)) as (c & s1 & E1 & _ & n & Hc). cbv zeta in Hc.
  assert (slot_of name (dns_cache s) 0 (-1) = -1) as Es.
  { clear - Hall. generalize 0. induction Hall as [|e l [Hv Hne] _ IH]; intros i; [done|]. cbn [slot_of]. unfold matches. rewrite Hv.
    rewrite bool_decide_eq_false_2 by done. cbn [andb negb]. apply IH. }
  rewrite Es in Hc. destruct Hc as [-> ->]. by exists n.
Qed.

(** ** Instances *)

Definition quiet : env :=
  mk_env (fun n => 1000 * Z.of_nat n) (fun _ => Some (replicate 512 7)) (fun _ => true) (fun _ _ => 0) (fun _ _ _ _ => ret tt) (fun _ => ret tt).

#[export] Instance quiet_ok : EnvOk quiet.
Proof. by intros f h ip d s Hi. Qed.

(** [os.uint] *)
Definition os : list Z := [111; 115].
Definition uint : list Z := [117; 105; 110; 116].

Definition asking : dns :=
  mk_dns [10; 0; 0; 53] (replicate 32 zero_entry) (mk_query (text os [uint]) 9 0 0 (Some 1%positive) 0 1 :: replicate 7 zero_query) 10 0 [].

Lemma asking_inv : inv asking.
Proof. split; reflexivity. Qed.

Lemma os_ok : label_ok os.
Proof. split; [simpl; lia|]. repeat constructor; discriminate. Qed.
Lemma uint_ok : Forall label_ok [uint].
Proof. constructor; [|constructor]. split; [simpl; lia|]. repeat constructor; discriminate. Qed.

Lemma dns_packets_never_fault_witness : nofault (dns_process_packet quiet (Some (looping_response 9))) (fun _ s' => inv s') asking.
Proof. apply dns_packets_never_fault; [exact quiet_ok|exact asking_inv|refine (bool_decide_unpack _ _); vm_compute; exact I]. Defined.

Lemma dns_pointer_loop_hangs_witness : dns_process_packet quiet (Some (looping_response 9)) asking = Spin.
Proof. apply dns_pointer_loop_hangs; [lia|vm_compute; discriminate]. Defined.

Lemma dns_query_names_host_witness :
  exists packet off, dns_send_query quiet (Some (text os [uint])) 9 asking = Ret (0, set_sent [([10; 0; 0; 53], packet)] asking) /\
    dns_parse_name packet 12 asking = Ret (Some (text os [uint], off), asking).
Proof.
  destruct (dns_query_names_host quiet os [uint] 9 asking (replicate 512 7) os_ok uint_ok) as (packet & off & E1 & E2 & _);
    [vm_compute; discriminate|lia|reflexivity|reflexivity|reflexivity|].
  exists packet, off. split; [exact E1|exact E2].
Defined.

Lemma dns_answer_resolves_witness :
  exists s1, dns_process_packet quiet (Some (response 9 os [uint] 60 [10; 0; 0; 7])) asking =
    (dns_complete_query quiet 0 (Some [10; 0; 0; 7]) ;;; ret 0) s1 /\ dns_queries s1 = dns_queries asking.
Proof.
  destruct (dns_answer_resolves quiet asking 9 0 (mk_query (text os [uint]) 9 0 0 (Some 1%positive) 0 1) os [uint] 60 [10; 0; 0; 7]
    asking_inv os_ok uint_ok) as (s1 & t & E1 & E2 & _); 
    [vm_compute; discriminate|reflexivity|lia|lia|vm_compute; reflexivity|lia|reflexivity|reflexivity|vm_compute; discriminate|].
  exists s1. split; [exact E1|exact E2].
Defined.

Definition full : dns := set_dns_cache (replicate 32 (mk_entry uint [10; 0; 0; 1] 1 0 1)) asking.

Lemma dns_cache_fills_up_witness : exists n, dns_cache_entry quiet os [10; 0; 0; 2] 60 full = Ret (-1, set_readings n full).
Proof.
  apply dns_cache_fills_up; [split; reflexivity|]. apply Forall_replicate. split; [reflexivity|discriminate].
Defined.

End DnsThms.
