(* ===== verification/Dhcp.v ===== *)
(** * The DHCP client ([network/src/dhcp.c])

    Configurations of devices, the messages the client sends, the options it reads and
    its timers. The devices are those of [Network], with the hardware address and the gateway
    beside them. A packet that is received is the memory from its data pointer to the
    end of its block together with its length; an access behind the block is a [Fault].

    [dhcp_config_t] lacks the member [name] that [dhcp.c] uses; its size is part of the
    environment, as are the clock, the allocation of buffers and [udp_send], which the
    repository does not define. The two readings of the clock in [dhcp_get_xid] are
    taken from left to right.

    The loop over the options starts at their fifth byte and moves on by at least one in
    each round, so that fuel for 308 rounds is more than it needs. *)

From Stdlib Require Import ZArith Lia String.
From stdpp Require Import base tactics option numbers list gmap strings.
From S2P Require Import Prelude Network.
Import Network.

Set Default Goal Selector "!".
Local Open Scope Z_scope.
Local Open Scope kernel_scope.

Module Dhcp.

Definition NET_ERR_OK : Z := 0.
Definition DHCP_DISCOVER : Z := 1.
Definition DHCP_OFFER : Z := 2.
Definition DHCP_REQUEST : Z := 3.
Definition DHCP_ACK : Z := 5.
Definition DHCP_NAK : Z := 6.
Definition DHCP_RELEASE : Z := 7.
Definition DHCP_OPT_PAD : Z := 0.
Definition DHCP_OPT_SUBNET_MASK : Z := 1.
Definition DHCP_OPT_ROUTER : Z := 3.
Definition DHCP_OPT_DNS_SERVER : Z := 6.
Definition DHCP_OPT_DOMAIN_NAME : Z := 15.
Definition DHCP_OPT_REQUESTED_IP : Z := 50.
Definition DHCP_OPT_LEASE_TIME : Z := 51.
Definition DHCP_OPT_MSG_TYPE : Z := 53.
Definition DHCP_OPT_SERVER_ID : Z := 54.
Definition DHCP_OPT_PARAM_REQ : Z := 55.
Definition DHCP_OPT_CLIENT_ID : Z := 61.
Definition DHCP_OPT_END : Z := 255.
Definition DHCP_STATE_INIT : Z := 0.
Definition DHCP_STATE_SELECTING : Z := 1.
Definition DHCP_STATE_REQUESTING : Z := 2.
Definition DHCP_STATE_BOUND : Z := 3.
Definition DHCP_STATE_RENEWING : Z := 4.
Definition DHCP_STATE_REBINDING : Z := 5.
Definition DHCP_BOOTREQUEST : Z := 1.
Definition DHCP_BOOTREPLY : Z := 2.
Definition DHCP_MAGIC_COOKIE : Z := 0x63825363.
Definition DHCP_MAX_OPTIONS_LEN : Z := 308.

(** [sizeof(dhcp_message_t) - DHCP_MAX_OPTIONS_LEN], the place of the options. *)
Definition OPTIONS : Z := 236.

(** [dhcp_config_t] *)
Record config : Type := mk_config {
  c_name : string;
  ip_address : list Z;
  subnet_mask : list Z;
  c_gateway : list Z;
  dns_server : list Z;
  lease_time : Z;
  renewal_time : Z;
  rebind_time : Z;
  server_id : list Z;
  last_update : Z;
  c_state : Z;
}.

Definition set_c_name (x : string) (c : config) : config :=
  mk_config x (ip_address c) (subnet_mask c) (c_gateway c) (dns_server c) (lease_time c)
    (renewal_time c) (rebind_time c) (server_id c) (last_update c) (c_state c).
Definition set_ip_address (x : list Z) (c : config) : config :=
  mk_config (c_name c) x (subnet_mask c) (c_gateway c) (dns_server c) (lease_time c)
    (renewal_time c) (rebind_time c) (server_id c) (last_update c) (c_state c).
Definition set_subnet_mask (x : list Z) (c : config) : config :=
  mk_config (c_name c) (ip_address c) x (c_gateway c) (dns_server c) (lease_time c)
    (renewal_time c) (rebind_time c) (server_id c) (last_update c) (c_state c).
Definition set_c_gateway (x : list Z) (c : config) : config :=
  mk_config (c_name c) (ip_address c) (subnet_mask c) x (dns_server c) (lease_time c)
    (renewal_time c) (rebind_time c) (server_id c) (last_update c) (c_state c).
Definition set_dns_server (x : list Z) (c : config) : config :=
  mk_config (c_name c) (ip_address c) (subnet_mask c) (c_gateway c) x (lease_time c)
    (renewal_time c) (rebind_time c) (server_id c) (last_update c) (c_state c).
Definition set_lease_time (x : Z) (c : config) : config :=
  mk_config (c_name c) (ip_address c) (subnet_mask c) (c_gateway c) (dns_server c) x
    (renewal_time c) (rebind_time c) (server_id c) (last_update c) (c_state c).
Definition set_renewal_time (x : Z) (c : config) : config :=
  mk_config (c_name c) (ip_address c) (subnet_mask c) (c_gateway c) (dns_server c) (lease_time c)
    x (rebind_time c) (server_id c) (last_update c) (c_state c).
Definition set_rebind_time (x : Z) (c : config) : config :=
  mk_config (c_name c) (ip_address c) (subnet_mask c) (c_gateway c) (dns_server c) (lease_time c)
    (renewal_time c) x (server_id c) (last_update c) (c_state c).
Definition set_server_id (x : list Z) (c : config) : config :=
  mk_config (c_name c) (ip_address c) (subnet_mask c) (c_gateway c) (dns_server c) (lease_time c)
    (renewal_time c) (rebind_time c) x (last_update c) (c_state c).
Definition set_last_update (x : Z) (c : config) : config :=
  mk_config (c_name c) (ip_address c) (subnet_mask c) (c_gateway c) (dns_server c) (lease_time c)
    (renewal_time c) (rebind_time c) (server_id c) x (c_state c).
Definition set_state (x : Z) (c : config) : config :=
  mk_config (c_name c) (ip_address c) (subnet_mask c) (c_gateway c) (dns_server c) (lease_time c)
    (renewal_time c) (rebind_time c) (server_id c) (last_update c) x.

(** What [net_device_t] has beyond [Network.net_device]. *)
Record link : Type := mk_link {
  mac : list Z;
  gateway : list Z;
}.

(** The static variables, the devices, the readings of the clock, and what was handed to
    UDP, latest first: the device, the destination and the packet. *)
Record dhcp : Type := mk_dhcp {
  dhcp_configs : list config;
  current_xid : Z;
  stack : net;
  links : gmap addr link;
  readings : nat;
  sent : list (addr * list Z * list Z);
}.

Definition set_dhcp_configs (x : list config) (s : dhcp) : dhcp :=
  mk_dhcp x (current_xid s) (stack s) (links s) (readings s) (sent s).
Definition set_current_xid (x : Z) (s : dhcp) : dhcp :=
  mk_dhcp (dhcp_configs s) x (stack s) (links s) (readings s) (sent s).
Definition set_stack (x : net) (s : dhcp) : dhcp :=
  mk_dhcp (dhcp_configs s) (current_xid s) x (links s) (readings s) (sent s).
Definition set_links (x : gmap addr link) (s : dhcp) : dhcp :=
  mk_dhcp (dhcp_configs s) (current_xid s) (stack s) x (readings s) (sent s).
Definition set_readings (x : nat) (s : dhcp) : dhcp :=
  mk_dhcp (dhcp_configs s) (current_xid s) (stack s) (links s) x (sent s).
Definition set_sent (x : list (addr * list Z * list Z)) (s : dhcp) : dhcp :=
  mk_dhcp (dhcp_configs s) (current_xid s) (stack s) (links s) (readings s) x.

(** Values the length of the name member and the rest of the kernel determine. *)
Record env : Type := mk_env {
  name_size : nat;
  hal_get_time_ms : nat -> Z;
  net_buffer_alloc : dhcp -> bool;
  udp_send : dhcp -> addr -> list Z -> list Z -> Z;
}.

Definition zero_address : list Z := [0; 0; 0; 0].
Definition broadcast : list Z := [255; 255; 255; 255].
Definition zero_config : config := mk_config "" zero_address zero_address zero_address zero_address 0 0 0 zero_address 0 0.

(** ** Memory *)

Definition on_net {A} (m : M net A) : M dhcp A := fun s =>
  match m (stack s) with
  | Ret (a, n) => Ret (a, set_stack n s)
  | Spin => Spin
  | Fault => Fault
  end.

Definition read_config (i : Z) : M dhcp config := s <- get ;; deref (arr_get (dhcp_configs s) i).
Definition upd_config (i : Z) (f : config -> config) : M dhcp unit :=
  c <- read_config i ;; s <- get ;; l <- deref (arr_set (dhcp_configs s) i (f c)) ;; put (set_dhcp_configs l s).
Definition read_link (a : addr) : M dhcp link := s <- get ;; deref (links s !! a).
Definition upd_gateway (a : addr) (g : list Z) : M dhcp unit :=
  l <- read_link a ;; modify (fun s => set_links (<[a := mk_link (mac l) g]> (links s)) s).

Definition name_of (a : addr) : M dhcp string := d <- on_net (read_dev a) ;; ret (Network.name d).

(** The first configuration of that name. *)
Fixpoint find_config (nm : string) (l : list config) (i : Z) : Z :=
  match l with
  | [] => -1
  | c :: l' => if bool_decide (c_name c = nm) then i else find_config nm l' (i + 1)
  end.

(** ** Messages *)

Definition le32 (x : Z) : list Z := le_bytes 4 x.
Definition be_value (l : list Z) : Z := foldl (fun v b => v * 256 + b) 0 l.
Definition be32 (x : Z) : list Z := reverse (le32 x).

Definition zeros (n : nat) : list Z := replicate n 0.

(** A [dhcp_message_t] up to the end of its options. *)
Definition message (op xid : Z) (ciaddr yiaddr hw opts : list Z) : list Z :=
  [op; 1; 6; 0] ++ le32 xid ++ zeros 4 ++ ciaddr ++ yiaddr ++ zeros 8 ++ hw ++ zeros 10 ++ zeros 192 ++ opts.

Section Ops.
Context (E : env).

Definition now : M dhcp Z :=
  s <- get ;; put (set_readings (S (readings s)) s) ;;; ret (u32 (hal_get_time_ms E (readings s))).

Definition dhcp_get_xid : M dhcp Z :=
  t1 <- now ;;
  t2 <- now ;;
  let x := Z.lxor t1 (u32 (Z.shiftl t2 16)) in
  modify (set_current_xid x) ;;;
  ret x.

Definition send (a : addr) (dest packet : list Z) : M dhcp Z :=
  s <- get ;;
  put (set_sent ((a, dest, packet) :: sent s) s) ;;;
  ret (udp_send E s a dest packet).

(** The state of the device's configuration, if it has one. *)
Definition mark_state (a : addr) (st : Z) : M dhcp unit :=
  nm <- name_of a ;;
  s <- get ;;
  let i := find_config nm (dhcp_configs s) 0 in
  if i <? 0 then ret tt
  else
    upd_config i (set_state st) ;;;
    t <- now ;;
    upd_config i (set_last_update t).

Definition dhcp_send_discover (a : addr) : M dhcp Z :=
  s <- get ;;
  if negb (net_buffer_alloc E s) then ret NET_ERR_NOMEM
  else
    x <- dhcp_get_xid ;;
    l <- read_link a ;;
    let opts := be32 DHCP_MAGIC_COOKIE ++ [DHCP_OPT_MSG_TYPE; 1; DHCP_DISCOVER] ++
      [DHCP_OPT_CLIENT_ID; 7; 1] ++ mac l ++
      [DHCP_OPT_PARAM_REQ; 4; DHCP_OPT_SUBNET_MASK; DHCP_OPT_ROUTER; DHCP_OPT_DNS_SERVER; DHCP_OPT_DOMAIN_NAME] ++ [DHCP_OPT_END] in
    mark_state a DHCP_STATE_SELECTING ;;;
    send a broadcast (message DHCP_BOOTREQUEST x zero_address zero_address (mac l) opts).

Definition dhcp_send_request (a : addr) (requested_ip server : list Z) : M dhcp Z :=
  s <- get ;;
  if negb (net_buffer_alloc E s) then ret NET_ERR_NOMEM
  else
    x <- dhcp_get_xid ;;
    l <- read_link a ;;
    let opts := be32 DHCP_MAGIC_COOKIE ++ [DHCP_OPT_MSG_TYPE; 1; DHCP_REQUEST] ++
      [DHCP_OPT_CLIENT_ID; 7; 1] ++ mac l ++
      [DHCP_OPT_REQUESTED_IP; 4] ++ requested_ip ++ [DHCP_OPT_SERVER_ID; 4] ++ server ++
      [DHCP_OPT_PARAM_REQ; 4; DHCP_OPT_SUBNET_MASK; DHCP_OPT_ROUTER; DHCP_OPT_DNS_SERVER; DHCP_OPT_DOMAIN_NAME] ++ [DHCP_OPT_END] in
    mark_state a DHCP_STATE_REQUESTING ;;;
    send a broadcast (message DHCP_BOOTREQUEST x zero_address zero_address (mac l) opts).

Definition dhcp_send_release (a : addr) : M dhcp Z :=
  nm <- name_of a ;;
  s <- get ;;
  let i := find_config nm (dhcp_configs s) 0 in
  if i <? 0 then ret NET_ERR_INVALID
  else
    c <- read_config i ;;
    if negb (c_state c =? DHCP_STATE_BOUND) then ret NET_ERR_INVALID
    else if negb (net_buffer_alloc E s) then ret NET_ERR_NOMEM
    else
      x <- dhcp_get_xid ;;
      l <- read_link a ;;
      let opts := be32 DHCP_MAGIC_COOKIE ++ [DHCP_OPT_MSG_TYPE; 1; DHCP_RELEASE] ++
        [DHCP_OPT_SERVER_ID; 4] ++ server_id c ++ [DHCP_OPT_END] in
      r <- send a (server_id c) (message DHCP_BOOTREQUEST x (ip_address c) zero_address (mac l) opts) ;;
      upd_config i (set_state DHCP_STATE_INIT) ;;;
      ret r.

(** ** Starting *)

Definition dhcp_init : M dhcp Z :=
  modify (set_dhcp_configs (replicate (Z.to_nat NET_MAX_DEVICES) (set_state DHCP_STATE_INIT zero_config))) ;;;
  ret NET_ERR_OK.

(** The configuration of that name, or else the first without a name. *)
Fixpoint start_slot (nm : string) (l : list config) (i dev_id : Z) : Z :=
  match l with
  | [] => dev_id
  | c :: l' =>
      if bool_decide (c_name c = nm) then i
      else if bool_decide (c_name c = ""%string) && (dev_id =? -1) then start_slot nm l' (i + 1) i
      else start_slot nm l' (i + 1) dev_id
  end.

Definition dhcp_start (dev : ptr) : M dhcp Z :=
  match dev with
  | None => ret NET_ERR_INVALID
  | Some a =>
      nm <- name_of a ;;
      s <- get ;;
      let dev_id := start_slot nm (dhcp_configs s) 0 (-1) in
      if dev_id =? -1 then ret NET_ERR_NOMEM
      else
        upd_config dev_id (fun _ => set_c_name (String.substring 0 (name_size E - 1) nm) zero_config) ;;;
        upd_config dev_id (set_state DHCP_STATE_INIT) ;;;
        t <- now ;;
        upd_config dev_id (set_last_update t) ;;;
        dhcp_send_discover a
  end.

(** ** Received packets

    [mem] is the memory from the packet's data pointer to the end of its block. *)

Definition bytes_at (mem : list Z) (off n : Z) : M dhcp (list Z) :=
  if off + n <=? Z.of_nat (length mem) then ret (take (Z.to_nat n) (drop (Z.to_nat off) mem)) else fault.

Definition process_option (mem : list Z) (opt len off : Z) (msg_type : Z) (c : config) : M dhcp (Z * config) :=
  if opt =? DHCP_OPT_MSG_TYPE then
    if len =? 1 then b <- bytes_at mem off 1 ;; ret (be_value b, c) else ret (msg_type, c)
  else if opt =? DHCP_OPT_SUBNET_MASK then
    if len =? 4 then b <- bytes_at mem off 4 ;; ret (msg_type, set_subnet_mask b c) else ret (msg_type, c)
  else if opt =? DHCP_OPT_ROUTER then
    if 4 <=? len then b <- bytes_at mem off 4 ;; ret (msg_type, set_c_gateway b c) else ret (msg_type, c)
  else if opt =? DHCP_OPT_DNS_SERVER then
    if 4 <=? len then b <- bytes_at mem off 4 ;; ret (msg_type, set_dns_server b c) else ret (msg_type, c)
  else if opt =? DHCP_OPT_LEASE_TIME then
    if len =? 4 then
      b <- bytes_at mem off 4 ;;
      let t := be_value b in
      ret (msg_type, set_rebind_time (t - t / 8) (set_renewal_time (t / 2) (set_lease_time t c)))
    else ret (msg_type, c)
  else if opt =? DHCP_OPT_SERVER_ID then
    if len =? 4 then b <- bytes_at mem off 4 ;; ret (msg_type, set_server_id b c) else ret (msg_type, c)
  else ret (msg_type, c).

(** [o] is the place in the options. *)
Fixpoint parse_options (fuel : nat) (mem : list Z) (o msg_type : Z) (c : config) : M dhcp (Z * config) :=
  if DHCP_MAX_OPTIONS_LEN <=? o then ret (msg_type, c)
  else
    match fuel with
    | O => spin
    | S fuel' =>
        b <- bytes_at mem (OPTIONS + o) 1 ;;
        let opt := be_value b in
        if opt =? DHCP_OPT_END then ret (msg_type, c)
        else
          let o := o + 1 in
          if opt =? DHCP_OPT_PAD then parse_options fuel' mem o msg_type c
          else if DHCP_MAX_OPTIONS_LEN <=? o then ret (msg_type, c)
          else
            b <- bytes_at mem (OPTIONS + o) 1 ;;
            let len := be_value b in
            let o := o + 1 in
            if DHCP_MAX_OPTIONS_LEN <? o + len then ret (msg_type, c)
            else
              r <- process_option mem opt len (OPTIONS + o) msg_type c ;;
              parse_options fuel' mem (o + len) (fst r) (snd r)
    end.

Definition dhcp_parse_options (mem : list Z) (c : config) : M dhcp (Z * config) :=
  b <- bytes_at mem OPTIONS 4 ;;
  if negb (be_value b =? DHCP_MAGIC_COOKIE) then ret (-1, c)
  else parse_options (Z.to_nat DHCP_MAX_OPTIONS_LEN) mem 4 (-1) c.

Definition dhcp_apply_config (a : addr) (c : config) : M dhcp unit :=
  d <- on_net (read_dev a) ;;
  on_net (write_dev a (mk_device (Network.name d) (dev_flags d) (ip_address c) (subnet_mask c) (mtu d) (rx_packets d) (rx_bytes d))) ;;;
  upd_gateway a (c_gateway c).

(** The [switch] over the type of a message; [temp] is what its options say. *)
Definition handle_message (a : addr) (i msg_type : Z) (temp : config) : M dhcp Z :=
  if msg_type =? DHCP_OFFER then
    c <- read_config i ;;
    if c_state c =? DHCP_STATE_SELECTING
    then dhcp_send_request a (ip_address temp) (server_id temp)
    else ret NET_ERR_OK
  else if msg_type =? DHCP_ACK then
    upd_config i (fun _ => temp) ;;;
    upd_config i (set_state DHCP_STATE_BOUND) ;;;
    t <- now ;;
    upd_config i (set_last_update t) ;;;
    c <- read_config i ;;
    dhcp_apply_config a c ;;;
    ret NET_ERR_OK
  else if msg_type =? DHCP_NAK then
    upd_config i (set_state DHCP_STATE_INIT) ;;;
    dhcp_send_discover a
  else ret NET_ERR_INVALID.

Definition dhcp_process_packet (dev : ptr) (buffer : option (list Z * Z)) : M dhcp Z :=
  match dev, buffer with
  | Some a, Some (mem, len) =>
      if len <? OPTIONS then ret NET_ERR_INVALID
      else
        op <- bytes_at mem 0 1 ;;
        if negb (be_value op =? DHCP_BOOTREPLY) then ret NET_ERR_INVALID
        else
          x <- bytes_at mem 4 4 ;;
          s <- get ;;
          if negb (le_value x =? current_xid s) then ret NET_ERR_INVALID
          else
            hw <- bytes_at mem 28 6 ;;
            l <- read_link a ;;
            if negb (bool_decide (hw = mac l)) then ret NET_ERR_INVALID
            else
              nm <- name_of a ;;
              s <- get ;;
              let i := find_config nm (dhcp_configs s) 0 in
              if i <? 0 then ret NET_ERR_INVALID
              else
                yi <- bytes_at mem 16 4 ;;
                r <- dhcp_parse_options mem (set_ip_address yi zero_config) ;;
                handle_message a i (fst r) (snd r)
  | _, _ => ret NET_ERR_INVALID
  end.

Definition dhcp_get_config (dev : ptr) (config : bool) : M dhcp (Z * option Dhcp.config) :=
  match dev, config with
  | Some a, true =>
      nm <- name_of a ;;
      s <- get ;;
      let i := find_config nm (dhcp_configs s) 0 in
      if i <? 0 then ret (NET_ERR_INVALID, None) else c <- read_config i ;; ret (NET_ERR_OK, Some c)
  | _, _ => ret (NET_ERR_INVALID, None)
  end.

Definition dhcp_release (dev : ptr) : M dhcp Z :=
  match dev with None => ret NET_ERR_INVALID | Some a => dhcp_send_release a end.

(** ** The periodic task *)

Definition clear_address (a : addr) : M dhcp unit :=
  d <- on_net (read_dev a) ;;
  on_net (write_dev a (mk_device (Network.name d) (dev_flags d) zero_address zero_address (mtu d) (rx_packets d) (rx_bytes d))) ;;;
  upd_gateway a zero_address.

Definition check_config (current_time i : Z) : M dhcp unit :=
  c <- read_config i ;;
  if bool_decide (c_name c = ""%string) then ret tt
  else
    dev <- on_net (network_find_device_by_name (Some (c_name c))) ;;
    match dev with
    | None => ret tt
    | Some a =>
        let elapsed_ms := u32 (current_time - last_update c) in
        let elapsed_sec := elapsed_ms / 1000 in
        if c_state c =? DHCP_STATE_SELECTING then
          if 5000 <? elapsed_ms then _r <- dhcp_send_discover a ;; ret tt else ret tt
        else if c_state c =? DHCP_STATE_REQUESTING then
          if 5000 <? elapsed_ms then
            upd_config i (set_state DHCP_STATE_INIT) ;;; _r <- dhcp_send_discover a ;; ret tt
          else ret tt
        else if c_state c =? DHCP_STATE_BOUND then
          if renewal_time c <=? elapsed_sec then
            upd_config i (set_state DHCP_STATE_RENEWING) ;;;
            _r <- dhcp_send_request a (ip_address c) (server_id c) ;; ret tt
          else ret tt
        else if c_state c =? DHCP_STATE_RENEWING then
          if rebind_time c <=? elapsed_sec then
            upd_config i (set_state DHCP_STATE_REBINDING) ;;;
            _r <- dhcp_send_request a (ip_address c) broadcast ;; ret tt
          else if u32 (elapsed_sec - renewal_time c) mod 60 =? 0 then
            _r <- dhcp_send_request a (ip_address c) (server_id c) ;; ret tt
          else ret tt
        else if c_state c =? DHCP_STATE_REBINDING then
          if lease_time c <=? elapsed_sec then
            upd_config i (set_state DHCP_STATE_INIT) ;;;
            clear_address a ;;;
            _r <- dhcp_send_discover a ;; ret tt
          else if u32 (elapsed_sec - rebind_time c) mod 60 =? 0 then
            _r <- dhcp_send_request a (ip_address c) broadcast ;; ret tt
          else ret tt
        else ret tt
    end.

Fixpoint check_configs (n : nat) (current_time i : Z) : M dhcp unit :=
  match n with
  | O => ret tt
  | S n' => check_config current_time i ;;; check_configs n' current_time (i + 1)
  end.

Definition dhcp_client_task : M dhcp unit :=
  t <- now ;; check_configs (Z.to_nat NET_MAX_DEVICES) t 0.

End Ops.

End Dhcp.
