(* ===== verification/DhcpThms.v ===== *)
(** * Properties of the DHCP client

    The options of a message against a reference reading of them, the handshake, and what
    becomes of a lease: every call keeps the invariant [inv], by which no configuration that
    has a name is ever bound, so that nothing is renewed. [asked] is what sending a message
    does to the state. *)

From Stdlib Require Import ZArith Lia String.
From stdpp Require Import base tactics option numbers list gmap strings.
From S2P Require Import Prelude Network Dhcp.
Import Network Dhcp.

Set Default Goal Selector "!".
Local Open Scope Z_scope.
Local Open Scope kernel_scope.

Module DhcpThms.

(** ** Memory *)

Lemma dhcp_on_net {A} (m : M net A) Q s : wp (on_net m) Q s <-> wp m (fun a n => Q a (set_stack n s)) (stack s).
Proof. unfold wp, on_net. by destruct (m (stack s)) as [[a n]| |]. Qed.

Lemma wp_read_config i Q s : wp (read_config i) Q s <-> exists c, arr_get (dhcp_configs s) i = Some c /\ Q c s.
Proof. unfold read_config. wp_steps. apply wp_deref. Qed.

Lemma wp_upd_config i f c Q s : arr_get (dhcp_configs s) i = Some c ->
  Q tt (set_dhcp_configs (<[Z.to_nat i := f c]> (dhcp_configs s)) s) -> wp (upd_config i f) Q s.
Proof.
  intros Hc HQ. unfold upd_config. wp_steps. rewrite wp_read_config. exists c. split; [done|]. wp_steps.
  rewrite (arr_set_some (dhcp_configs s)); [by wp_steps|]. by apply arr_get_inv in Hc as [? ?].
Qed.

Lemma wp_read_link a l Q s : links s !! a = Some l -> Q l s -> wp (read_link a) Q s.
Proof. intros Hl HQ. unfold read_link. wp_steps. rewrite Hl. by wp_steps. Qed.

Lemma wp_name_of a d Q s : devs (stack s) !! a = Some d -> Q (Network.name d) s -> wp (name_of a) Q s.
Proof.
  intros Hd HQ. unfold name_of. wp_steps. rewrite dhcp_on_net. unfold read_dev. wp_steps. rewrite Hd. wp_steps. by destruct s.
Qed.

Lemma find_config_spec nm l k : 0 <= k ->
  (find_config nm l k = -1 /\ Forall (fun c => c_name c <> nm) l) \/
  exists j c, find_config nm l k = k + Z.of_nat j /\ l !! j = Some c /\ c_name c = nm /\
    forall j' c', (j' < j)%nat -> l !! j' = Some c' -> c_name c' <> nm.
Proof.
  revert k. induction l as [|c l IH]; intros k Hk; [by left|]. cbn [find_config]. case_bool_decide as Hc.
  - right. exists 0%nat, c. split; [lia|]. split; [done|]. split; [done|]. intros j' c' Hj. lia.
  - destruct (IH (k + 1) ltac:(lia)) as [[E1 E2]|(j & c' & E1 & E2 & E3 & E4)].
    + left. split; [done|]. by constructor.
    + right. exists (S j), c'. split; [lia|]. split; [done|]. split; [done|].
      intros [|j'] c2 Hj Hl; [by injection Hl as <-|]. by apply (E4 j'); [lia|].
Qed.

(** ** Sending *)

Definition marked (nm : string) (st t : Z) (l : list config) : list config :=
  let i := find_config nm l 0 in
  if i <? 0 then l else alter (fun c => set_last_update t (set_state st c)) (Z.to_nat i) l.

(** A message handed to UDP for the device [a], and its configuration marked. *)
Definition asked (a : addr) (nm : string) (st : Z) (pk : Z -> list Z) (s s' : dhcp) : Prop :=
  exists x t n, 0 <= x < 2 ^ 32 /\ s' = mk_dhcp (marked nm st t (dhcp_configs s)) x (stack s) (links s) n ((a, broadcast, pk x) :: sent s).

Definition request_list : list Z :=
  [DHCP_OPT_PARAM_REQ; 4; DHCP_OPT_SUBNET_MASK; DHCP_OPT_ROUTER; DHCP_OPT_DNS_SERVER; DHCP_OPT_DOMAIN_NAME; DHCP_OPT_END].

Definition discover_message (hw : list Z) (x : Z) : list Z :=
  message DHCP_BOOTREQUEST x zero_address zero_address hw
    (be32 DHCP_MAGIC_COOKIE ++ [DHCP_OPT_MSG_TYPE; 1; DHCP_DISCOVER] ++ [DHCP_OPT_CLIENT_ID; 7; 1] ++ hw ++ request_list).

Definition request_message (hw ip server : list Z) (x : Z) : list Z :=
  message DHCP_BOOTREQUEST x zero_address zero_address hw
    (be32 DHCP_MAGIC_COOKIE ++ [DHCP_OPT_MSG_TYPE; 1; DHCP_REQUEST] ++ [DHCP_OPT_CLIENT_ID; 7; 1] ++ hw ++
     [DHCP_OPT_REQUESTED_IP; 4] ++ ip ++ [DHCP_OPT_SERVER_ID; 4] ++ server ++ request_list).

Section Sending.
Context (E : env).

Lemma wp_now Q s : Q (u32 (hal_get_time_ms E (readings s))) (set_readings (S (readings s)) s) -> wp (now E) Q s.
Proof. intros HQ. unfold now. by wp_steps. Qed.

Lemma mark_state_spec a d st Q s : devs (stack s) !! a = Some d ->
  (forall t n, Q tt (set_readings n (set_dhcp_configs (marked (Network.name d) st t (dhcp_configs s)) s))) ->
  wp (mark_state E a st) Q s.
Proof.
  intros Hd HQ. unfold mark_state. wp_steps. eapply wp_name_of; [done|]. wp_steps. unfold marked in HQ.
  destruct (find_config_spec (Network.name d) (dhcp_configs s) 0 ltac:(lia)) as [[E1 _]|(j & c & E1 & E2 & _)]; rewrite E1 in HQ |- *.
  - cbn in HQ |- *. wp_steps. specialize (HQ 0 (readings s)). by destruct s.
  - rewrite Z.add_0_l in HQ |- *. destruct (Z.ltb_spec (Z.of_nat j) 0); [lia|].
    assert (arr_get (dhcp_configs s) (Z.of_nat j) = Some c) as Hc by by rewrite arr_get_nat.
    wp_steps. eapply wp_upd_config; [done|]. wp_steps. apply wp_now. rewrite Nat2Z.id in HQ |- *.
    eapply wp_upd_config.
    { rewrite arr_get_nat. cbn. apply list_lookup_insert_eq. by eapply lookup_lt_Some. }
    rewrite Nat2Z.id. cbn. rewrite list_insert_insert_eq.
    assert (alter (fun c => set_last_update (u32 (hal_get_time_ms E (readings s))) (set_state st c)) j (dhcp_configs s) =
      <[j := set_last_update (u32 (hal_get_time_ms E (readings s))) (set_state st c)]> (dhcp_configs s)) as Ea.
    { rewrite list_insert_alter. apply list_alter_ext; [|done]. intros c' Hc'. by simplify_eq. }
    rewrite <- Ea. apply (HQ _ (S (readings s))).
Qed.

(** What [dhcp_send_discover] and [dhcp_send_request] have in common. *)
Lemma sending_spec a d l st (pk : list Z -> Z -> list Z) Q s :
  devs (stack s) !! a = Some d -> links s !! a = Some l ->
  (net_buffer_alloc E s = false -> Q NET_ERR_NOMEM s) ->
  (net_buffer_alloc E s = true -> forall r s', asked a (Network.name d) st (pk (mac l)) s s' -> Q r s') ->
  wp (s <- get ;; if negb (net_buffer_alloc E s) then ret NET_ERR_NOMEM
      else x <- dhcp_get_xid E ;; l <- read_link a ;; mark_state E a st ;;; send E a broadcast (pk (mac l) x)) Q s.
Proof.
  intros Hd Hl H0 H1. wp_steps. destruct (net_buffer_alloc E s); cbn [negb]; wp_steps; [|auto].
  unfold dhcp_get_xid. wp_steps. apply wp_now. wp_steps. apply wp_now. wp_steps. eapply wp_read_link; [done|].
  wp_steps. eapply mark_state_spec; [done|]. intros t n. wp_steps. unfold send. wp_steps. apply H1; [done|].
  eexists _, t, n. split; [|by destruct s]. apply lxor_range; [lia|apply u32_range..].
Qed.

Lemma discover_spec a d l Q s :
  devs (stack s) !! a = Some d -> links s !! a = Some l ->
  (net_buffer_alloc E s = false -> Q NET_ERR_NOMEM s) ->
  (net_buffer_alloc E s = true -> forall r s', asked a (Network.name d) DHCP_STATE_SELECTING (discover_message (mac l)) s s' -> Q r s') ->
  wp (dhcp_send_discover E a) Q s.
Proof. exact (sending_spec a d l DHCP_STATE_SELECTING discover_message Q s). Qed.

Lemma request_spec a d l ip server Q s :
  devs (stack s) !! a = Some d -> links s !! a = Some l ->
  (net_buffer_alloc E s = false -> Q NET_ERR_NOMEM s) ->
  (net_buffer_alloc E s = true -> forall r s', asked a (Network.name d) DHCP_STATE_REQUESTING (request_message (mac l) ip server) s s' -> Q r s') ->
  wp (dhcp_send_request E a ip server) Q s.
Proof. exact (sending_spec a d l DHCP_STATE_REQUESTING (fun hw => request_message hw ip server) Q s). Qed.
End Sending.

(** ** Options *)

(** An option is its code and its data. *)
Definition encode (o : Z * list Z) : list Z := fst o :: Z.of_nat (length (snd o)) :: snd o.

Definition option_ok (o : Z * list Z) : Prop :=
  0 < fst o < 255 /\ Z.of_nat (length (snd o)) < 256.

(** What an option says, by its code. *)
Definition apply_option (r : Z * config) (o : Z * list Z) : Z * config :=
  let '(t, c) := r in
  let '(code, d) := o in
  let n := length d in
  if code =? DHCP_OPT_MSG_TYPE then (if (n =? 1)%nat then be_value d else t, c)
  else
    (t,
     if (code =? DHCP_OPT_SUBNET_MASK) && (n =? 4)%nat then set_subnet_mask d c
     else if (code =? DHCP_OPT_ROUTER) && (4 <=? n)%nat then set_c_gateway (take 4 d) c
     else if (code =? DHCP_OPT_DNS_SERVER) && (4 <=? n)%nat then set_dns_server (take 4 d) c
     else if (code =? DHCP_OPT_LEASE_TIME) && (n =? 4)%nat then
       let lease := be_value d in
       set_rebind_time (lease - lease / 8) (set_renewal_time (lease / 2) (set_lease_time lease c))
     else if (code =? DHCP_OPT_SERVER_ID) && (n =? 4)%nat then set_server_id d c
     else c).

Lemma bytes_at_drop mem off n l rest s : 0 <= off -> drop (Z.to_nat off) mem = l ++ rest -> length l = Z.to_nat n -> 0 <= n -> (0 < length l)%nat ->
  bytes_at mem off n s = Ret (l, s).
Proof.
  intros Ho Hd Hl Hn Hpos. unfold bytes_at. rewrite Hd. rewrite <- Hl, take_app_length.
  apply (f_equal length) in Hd. rewrite length_drop, length_app in Hd. by destruct (Z.leb_spec (off + n) (Z.of_nat (length mem))); [|lia].
Qed.

(** The first [k] bytes of the data of an option. *)
Lemma option_bytes mem off d rest (k : nat) s : 0 <= off -> drop (Z.to_nat off) mem = d ++ rest -> (0 < k <= length d)%nat ->
  bytes_at mem off (Z.of_nat k) s = Ret (take k d, s).
Proof.
  intros Ho Hd Hk. apply (bytes_at_drop mem off _ (take k d) (drop k d ++ rest)); rewrite ?length_take; try lia.
  by rewrite app_assoc, take_drop.
Qed.

Lemma process_option_spec mem code off t c d rest s : 0 <= off -> drop (Z.to_nat off) mem = d ++ rest ->
  process_option mem code (Z.of_nat (length d)) off t c s = Ret (apply_option (t, c) (code, d), s).
Proof.
  intros Ho Hd. pose proof (fun k => option_bytes mem off d rest k s Ho Hd) as Hb.
  pose proof (Hb 1%nat) as H1. pose proof (Hb 4%nat) as H4. clear Hb. change (Z.of_nat 1) with 1 in H1. change (Z.of_nat 4) with 4 in H4.
  assert ((Z.of_nat (length d) =? 1) = (length d =? 1)%nat) as E1 by (destruct (Z.eqb_spec (Z.of_nat (length d)) 1), (Nat.eqb_spec (length d) 1); lia).
  assert ((Z.of_nat (length d) =? 4) = (length d =? 4)%nat) as E4 by (destruct (Z.eqb_spec (Z.of_nat (length d)) 4), (Nat.eqb_spec (length d) 4); lia).
  assert ((4 <=? Z.of_nat (length d)) = (4 <=? length d)%nat) as E5 by (destruct (Z.leb_spec 4 (Z.of_nat (length d))), (Nat.leb_spec 4 (length d)); lia).
  unfold process_option, apply_option, DHCP_OPT_MSG_TYPE, DHCP_OPT_SUBNET_MASK, DHCP_OPT_ROUTER, DHCP_OPT_DNS_SERVER, DHCP_OPT_LEASE_TIME, DHCP_OPT_SERVER_ID.
  rewrite E1, E4, E5. clear E1 E4 E5.
  assert (length d = 1%nat -> take 1 d = d) as T1 by (intros; apply firstn_all2; lia).
  assert (length d = 4%nat -> take 4 d = d) as T4 by (intros; apply firstn_all2; lia).
  destruct (Nat.eqb_spec (length d) 1), (Nat.eqb_spec (length d) 4), (Nat.leb_spec 4 (length d)); try lia;
    rewrite ?andb_true_r, ?andb_false_r; unfold bind; repeat case_if; bools; try lia; rewrite ?H1, ?H4 by lia; rewrite ?T1, ?T4 by lia; done.
Qed.

(** The options from [o] on, each in turn, up to the end mark. *)
Lemma parse_options_spec mem os : forall fuel o t c rest s,
  0 <= o -> Forall option_ok os -> o + Z.of_nat (length (concat (map encode os))) < DHCP_MAX_OPTIONS_LEN ->
  DHCP_MAX_OPTIONS_LEN - o <= Z.of_nat fuel -> drop (Z.to_nat (OPTIONS + o)) mem = concat (map encode os) ++ DHCP_OPT_END :: rest ->
  parse_options fuel mem o t c s = Ret (foldl apply_option (t, c) os, s).
Proof.
  induction os as [|[code d] os IH]; intros fuel o t c rest s Ho Hos Hlen Hf Hd; (destruct fuel as [|fuel]; [unfold DHCP_MAX_OPTIONS_LEN in *; lia|]).
  - cbn [parse_options]. destruct (Z.leb_spec DHCP_MAX_OPTIONS_LEN o); [cbn in Hlen; lia|].
    rewrite (bind_run _ _ s [DHCP_OPT_END] s); [done|].
    eapply (bytes_at_drop _ _ _ [_]); [unfold OPTIONS; lia|exact Hd|done|lia|simpl; lia].
  - apply Forall_cons in Hos as [[Hc Hl] Hos]. cbn [fst snd] in Hc, Hl. cbn [map concat encode fst snd app] in Hd, Hlen. rewrite !length_cons, length_app in Hlen.
    cbn [parse_options]. destruct (Z.leb_spec DHCP_MAX_OPTIONS_LEN o); [lia|]. assert (0 <= OPTIONS + o) as Ho' by (unfold OPTIONS; lia).
    assert (forall k : nat, drop (Z.to_nat (OPTIONS + o + Z.of_nat k)) mem = drop k (drop (Z.to_nat (OPTIONS + o)) mem)) as Hk.
    { intros k. rewrite drop_drop. f_equal. lia. }
    rewrite (bind_run _ _ s [code] s) by (eapply (bytes_at_drop _ _ _ [code]); [lia|exact Hd|done|lia|simpl; lia]).
    change (be_value [code]) with code. unfold DHCP_OPT_END, DHCP_OPT_PAD. destruct (Z.eqb_spec code 255), (Z.eqb_spec code 0); try lia.
    cbv zeta. destruct (Z.leb_spec DHCP_MAX_OPTIONS_LEN (o + 1)); [lia|].
    rewrite (bind_run _ _ s [Z.of_nat (length d)] s).
    2:{ pose proof (Hk 1%nat) as Hk1. rewrite Hd in Hk1. cbn [drop] in Hk1. eapply (bytes_at_drop _ _ _ [_]); [lia| |done|lia|simpl; lia].
        rewrite Z.add_assoc. exact Hk1. }
    change (be_value [Z.of_nat (length d)]) with (Z.of_nat (length d)).
    destruct (Z.ltb_spec DHCP_MAX_OPTIONS_LEN (o + 1 + 1 + Z.of_nat (length d))); [lia|].
    assert (drop (Z.to_nat (OPTIONS + (o + 1 + 1))) mem = d ++ concat (map encode os) ++ DHCP_OPT_END :: rest) as Hd2.
    { replace (OPTIONS + (o + 1 + 1)) with (OPTIONS + o + Z.of_nat 2) by lia. rewrite Hk, Hd. cbn [drop]. by rewrite <- app_assoc. }
    erewrite bind_run by (eapply process_option_spec; [lia|exact Hd2]). cbn [foldl].
    destruct (apply_option (t, c) (code, d)) as [t' c'] eqn:Ea. cbn [fst snd]. apply (IH fuel _ t' c' rest); [lia|done|lia|lia|].
    replace (OPTIONS + (o + 1 + 1 + Z.of_nat (length d))) with (OPTIONS + o + Z.of_nat (2 + length d)) by lia. rewrite Hk, Hd.
    change (2 + length d)%nat with (S (S (length d))). cbn [drop]. rewrite <- app_assoc. by rewrite drop_app_length.
Qed.

(** A reply as a server sends it: the memory of the packet, whose options end before the
    message does. *)
Definition reply (x : Z) (yiaddr hw : list Z) (os : list (Z * list Z)) (rest : list Z) : list Z :=
  message DHCP_BOOTREPLY x zero_address yiaddr hw (be32 DHCP_MAGIC_COOKIE ++ concat (map encode os) ++ DHCP_OPT_END :: rest).

Definition fits (os : list (Z * list Z)) : Prop :=
  Forall option_ok os /\ Z.of_nat (length (concat (map encode os))) < DHCP_MAX_OPTIONS_LEN - 4.

Lemma reply_drop x yi hw os rest : length yi = 4%nat -> length hw = 6%nat ->
  drop 236 (reply x yi hw os rest) = be32 DHCP_MAGIC_COOKIE ++ concat (map encode os) ++ DHCP_OPT_END :: rest.
Proof.
  intros Hy Hh. destruct yi as [|? [|? [|? [|? [|]]]]], hw as [|? [|? [|? [|? [|? [|? [|]]]]]]]; try done.
Qed.

Lemma parse_reply x yi hw os rest c s : length yi = 4%nat -> length hw = 6%nat -> fits os ->
  dhcp_parse_options (reply x yi hw os rest) c s = Ret (foldl apply_option (-1, c) os, s).
Proof.
  intros Hy Hh [Hos Hn]. pose proof (reply_drop x yi hw os rest Hy Hh) as Hd. unfold dhcp_parse_options.
  rewrite (bind_run _ _ s (be32 DHCP_MAGIC_COOKIE) s) by (eapply bytes_at_drop; [done|exact Hd|done|done|simpl; lia]).
  change (be_value (be32 DHCP_MAGIC_COOKIE) =? DHCP_MAGIC_COOKIE) with true. cbn [negb].
  apply (parse_options_spec _ _ _ _ _ _ rest); try done; [lia|].
  change (Z.to_nat (OPTIONS + 4)) with (236 + 4)%nat. rewrite <- drop_drop, Hd. done.
Qed.

Lemma le32_value x : 0 <= x < 2 ^ 32 -> le_value (le32 x) = x.
Proof. exact (le_bytes_value 4 x). Qed.

(** A reply to the last message of the client reaches its options. *)
Lemma header_accepted E a d l yi opts len i s (p := message DHCP_BOOTREPLY (current_xid s) zero_address yi (mac l) opts) :
  devs (stack s) !! a = Some d -> links s !! a = Some l -> length (mac l) = 6%nat -> length yi = 4%nat -> OPTIONS <= len ->
  0 <= current_xid s < 2 ^ 32 -> i = find_config (Network.name d) (dhcp_configs s) 0 -> 0 <= i ->
  dhcp_process_packet E (Some a) (Some (p, len)) s =
    (r <- dhcp_parse_options p (set_ip_address yi zero_config) ;; handle_message E a i (fst r) (snd r)) s.
Proof.
  intros Hd Hl Hm Hy Hlen Hx Hi Hi0. unfold dhcp_process_packet. destruct (Z.ltb_spec len OPTIONS); [lia|].
  assert (exists v, p = [DHCP_BOOTREPLY; 1; 6; 0] ++ le32 (current_xid s) ++ zeros 4 ++ zero_address ++ yi ++ zeros 8 ++ mac l ++ v) as [v Ep] by (eexists; reflexivity).
  destruct l as [hw g]. cbn [mac] in *. destruct yi as [|y1 [|y2 [|y3 [|y4 [|]]]]], hw as [|h1 [|h2 [|h3 [|h4 [|h5 [|h6 [|]]]]]]]; try done.
  clearbody p. assert (forall off n w v, drop off p = w ++ v -> length w = n -> (0 < n)%nat -> bytes_at p (Z.of_nat off) (Z.of_nat n) s = Ret (w, s)) as Hb.
  { intros off n w v' Hdr Hn Hpos. eapply bytes_at_drop; [lia|by rewrite Nat2Z.id|lia..]. }
  rewrite (bind_run _ _ s [DHCP_BOOTREPLY] s) by (eapply (Hb 0%nat 1%nat [_]); [by rewrite Ep|done|lia]).
  change (be_value [DHCP_BOOTREPLY] =? DHCP_BOOTREPLY) with true. cbn [negb].
  rewrite (bind_run _ _ s (le32 (current_xid s)) s) by (eapply (Hb 4%nat 4%nat); [by rewrite Ep|done|lia]). rewrite (bind_run _ _ s s s) by done.
  rewrite le32_value by done. rewrite Z.eqb_refl. cbn [negb].
  rewrite (bind_run _ _ s [h1; h2; h3; h4; h5; h6] s) by (eapply (Hb 28%nat 6%nat [_; _; _; _; _; _]); [by rewrite Ep|done|lia]).
  rewrite (bind_run _ _ s (mk_link [h1; h2; h3; h4; h5; h6] g) s) by (unfold read_link, bind, get; by rewrite Hl). cbn [mac].
  rewrite bool_decide_eq_true_2 by done. cbn [negb].
  rewrite (bind_run _ _ s (Network.name d) s) by (unfold name_of, on_net, read_dev, bind, get; rewrite Hd; by destruct s).
  rewrite (bind_run _ _ s s s) by done. rewrite <- Hi. destruct (Z.ltb_spec i 0); [lia|].
  by rewrite (bind_run _ _ s [y1; y2; y3; y4] s) by (eapply (Hb 16%nat 4%nat [_; _; _; _]); [by rewrite Ep|done|lia]).
Qed.

Lemma reply_accepted E a d l yi os rest len i s :
  devs (stack s) !! a = Some d -> links s !! a = Some l -> length (mac l) = 6%nat -> length yi = 4%nat -> fits os -> OPTIONS <= len ->
  0 <= current_xid s < 2 ^ 32 -> i = find_config (Network.name d) (dhcp_configs s) 0 -> 0 <= i ->
  dhcp_process_packet E (Some a) (Some (reply (current_xid s) yi (mac l) os rest, len)) s =
    let r := foldl apply_option (-1, set_ip_address yi zero_config) os in handle_message E a i (fst r) (snd r) s.
Proof.
  intros Hd Hl Hm Hy Hos Hlen Hx Hi Hi0. unfold reply. rewrite (header_accepted E a d l yi _ len i s) by done.
  by rewrite (bind_run _ _ s _ s (parse_reply (current_xid s) yi (mac l) os rest _ s Hy Hm Hos)).
Qed.

(** No option sets the address or the name. *)
Lemma foldl_ip yi os : forall r, foldl apply_option (fst r, set_ip_address yi (snd r)) os =
  let r' := foldl apply_option r os in (fst r', set_ip_address yi (snd r')).
Proof.
  induction os as [|[code d] os IH]; intros r; [done|]. cbn [foldl]. etransitivity; [|exact (IH (apply_option r (code, d)))]. f_equal.
  destruct r as [t c]. unfold apply_option. cbn [fst snd]. by repeat case_if.
Qed.
Lemma foldl_from yi os (r := foldl apply_option (-1, zero_config) os) :
  foldl apply_option (-1, set_ip_address yi zero_config) os = (fst r, set_ip_address yi (snd r)).
Proof. exact (foldl_ip yi os (-1, zero_config)). Qed.
Lemma foldl_name os : forall r, c_name (snd (foldl apply_option r os)) = c_name (snd r).
Proof.
  induction os as [|[code d] os IH]; intros r; [done|]. cbn [foldl]. rewrite IH. destruct r as [t c]. unfold apply_option. by repeat case_if.
Qed.

Lemma marked_find nm st t l c i : find_config nm l 0 = i -> 0 <= i -> arr_get l i = Some c ->
  marked nm st t l = <[Z.to_nat i := set_last_update t (set_state st c)]> l /\ find_config nm (marked nm st t l) 0 = i.
Proof.
  intros Hi Hi0 Hc. unfold marked. rewrite Hi. destruct (Z.ltb_spec i 0); [lia|]. unfold arr_get in Hc. destruct (Z.ltb_spec i 0); [lia|].
  split.
  { rewrite list_insert_alter. apply list_alter_ext; [|done]. intros c' Hc'. by simplify_eq. }
  rewrite <- Hi at 2. clear Hi Hc. generalize (Z.to_nat i) 0. clear.
  induction l as [|c l IH]; intros n k; [by destruct n|].
  destruct n as [|n]; [reflexivity|]. unfold alter; cbn [list_alter find_config]. destruct (bool_decide _); [done|apply IH].
Qed.

(** An acknowledgement replaces the configuration and configures the device. *)
Lemma ack_spec E a d l i c temp s :
  devs (stack s) !! a = Some d -> links s !! a = Some l -> arr_get (dhcp_configs s) i = Some c ->
  exists s2, handle_message E a i DHCP_ACK temp s = Ret (NET_ERR_OK, s2) /\
    devs (stack s2) !! a = Some (mk_device (Network.name d) (dev_flags d) (ip_address temp) (subnet_mask temp) (mtu d) (rx_packets d) (rx_bytes d)) /\
    links s2 !! a = Some (mk_link (mac l) (c_gateway temp)) /\
    exists t, dhcp_configs s2 = <[Z.to_nat i := set_last_update t (set_state DHCP_STATE_BOUND temp)]> (dhcp_configs s).
Proof.
  intros Hd Hl Hc. apply arr_get_inv in Hc as Hr.
  assert (wp (handle_message E a i DHCP_ACK temp) (fun r s2 => r = NET_ERR_OK /\
    devs (stack s2) !! a = Some (mk_device (Network.name d) (dev_flags d) (ip_address temp) (subnet_mask temp) (mtu d) (rx_packets d) (rx_bytes d)) /\
    links s2 !! a = Some (mk_link (mac l) (c_gateway temp)) /\
    exists t, dhcp_configs s2 = <[Z.to_nat i := set_last_update t (set_state DHCP_STATE_BOUND temp)]> (dhcp_configs s)) s) as Hw.
  { unfold handle_message. change (DHCP_ACK =? DHCP_OFFER) with false. change (DHCP_ACK =? DHCP_ACK) with true. cbv iota. wp_steps.
    eapply wp_upd_config; [done|]. wp_steps.
    assert (forall (x : config) (l' : list config), Z.of_nat (length l') = Z.of_nat (length (dhcp_configs s)) -> arr_get (<[Z.to_nat i := x]> l') i = Some x) as Hg.
    { intros x l' Hn. rewrite arr_get_insert by lia. by rewrite decide_True. }
    eapply wp_upd_config; [by apply Hg|]. wp_steps. apply wp_now. wp_steps. eapply wp_upd_config; [apply Hg; cbn; by rewrite ?length_insert|]. wp_steps.
    rewrite wp_read_config. eexists. split; [apply Hg; cbn; by rewrite ?length_insert|]. wp_steps. unfold dhcp_apply_config. wp_steps. rewrite dhcp_on_net.
    unfold read_dev. wp_steps. cbn. rewrite Hd. cbn. wp_steps. rewrite dhcp_on_net. unfold write_dev. wp_steps. unfold upd_gateway. wp_steps.
    eapply wp_read_link; [done|]. wp_steps. split; [done|]. cbn. rewrite lookup_insert_eq. split; [done|]. rewrite lookup_insert_eq. split; [done|].
    rewrite !list_insert_insert_eq. by eexists. }
  destruct (wp_returns _ _ _ Hw) as (r & s2 & E2 & -> & H1 & H2 & H3). by exists s2.
Qed.

(** C30. The handshake. When the client is waiting for offers and one comes that answers its last
    message, it asks the server that made the offer, by broadcast, for the address offered; when the
    acknowledgement of that request comes, whatever other options the two replies carry, the
    device has the acknowledged address, and the network mask and the gateway of the options. *)
Theorem dhcp_handshake E a d l i c yi os rest len s :
  devs (stack s) !! a = Some d -> links s !! a = Some l -> length (mac l) = 6%nat ->
  0 <= current_xid s < 2 ^ 32 -> i = find_config (Network.name d) (dhcp_configs s) 0 -> 0 <= i ->
  arr_get (dhcp_configs s) i = Some c -> c_state c = DHCP_STATE_SELECTING -> net_buffer_alloc E s = true ->
  length yi = 4%nat -> fits os -> OPTIONS <= len ->
  let offer := foldl apply_option (-1, zero_config) os in fst offer = DHCP_OFFER ->
  exists r s1, dhcp_process_packet E (Some a) (Some (reply (current_xid s) yi (mac l) os rest, len)) s = Ret (r, s1) /\
    sent s1 = (a, broadcast, request_message (mac l) yi (server_id (snd offer)) (current_xid s1)) :: sent s /\
    forall yi' os' rest' len', length yi' = 4%nat -> fits os' -> OPTIONS <= len' ->
      let ack := foldl apply_option (-1, zero_config) os' in fst ack = DHCP_ACK ->
      exists s2, dhcp_process_packet E (Some a) (Some (reply (current_xid s1) yi' (mac l) os' rest', len')) s1 = Ret (NET_ERR_OK, s2) /\
        devs (stack s2) !! a = Some (mk_device (Network.name d) (dev_flags d) yi' (subnet_mask (snd ack)) (mtu d) (rx_packets d) (rx_bytes d)) /\
        links s2 !! a = Some (mk_link (mac l) (c_gateway (snd ack))).
Proof.
  intros Hd Hl Hm Hx Hi Hi0 Hc Hst Ha Hy Hos Hlen offer Ho.
  rewrite (reply_accepted E a d l yi os rest len i s Hd Hl Hm Hy Hos Hlen Hx Hi Hi0).
  cbv zeta. rewrite (foldl_from yi os). fold offer. cbn [fst snd]. rewrite Ho.
  assert (wp (dhcp_send_request E a yi (server_id (snd offer))) (fun r s' => asked a (Network.name d) DHCP_STATE_REQUESTING
    (request_message (mac l) yi (server_id (snd offer))) s s') s) as Hw by (eapply request_spec; [done|done|by rewrite Ha|auto]).
  destruct (wp_returns _ _ _ Hw) as (r & s1 & E1 & x & t & n & Hx1 & Es1). exists r, s1. split; [|split].
  - unfold handle_message. cbn [Z.eqb]. change (DHCP_OFFER =? DHCP_OFFER) with true. cbv iota.
    rewrite (bind_run _ _ s c s) by (unfold read_config, bind, get; by rewrite Hc). rewrite Hst.
    change (DHCP_STATE_SELECTING =? DHCP_STATE_SELECTING) with true. exact E1.
  - by subst s1.
  - intros yi' os' rest' len' Hy' Hos' Hlen' Hack. set (ack := foldl apply_option (-1, zero_config) os') in *.
    destruct (marked_find (Network.name d) DHCP_STATE_REQUESTING t (dhcp_configs s) c i) as [Em Ef]; [done..|].
    assert (exists c1, arr_get (dhcp_configs s1) i = Some c1) as [c1 Hc1].
    { subst s1. cbn. rewrite Em. apply arr_get_inv in Hc as Hr. eexists. rewrite arr_get_insert by lia. by rewrite decide_True. }
    rewrite (reply_accepted E a d l yi' os' rest' len' i s1); try (subst s1; assumption); [|by subst s1].
    cbv zeta. rewrite (foldl_from yi' os'). fold ack. cbn [fst snd]. rewrite Hack. clear Hc Em Ef Hw E1.
    assert (devs (stack s1) !! a = Some d) as Hd1 by by subst s1. assert (links s1 !! a = Some l) as Hl1 by by subst s1. clear Es1.
    destruct (ack_spec E a d l i c1 (set_ip_address yi' (snd ack)) s1 Hd1 Hl1 Hc1) as (s2 & E2 & H1 & H2 & _). exists s2. auto.
Qed.

Lemma pads_fault p : forall fuel k o t c s, 0 <= o -> o + Z.of_nat k < DHCP_MAX_OPTIONS_LEN -> Z.of_nat (length p) = OPTIONS + o + Z.of_nat k ->
  Z.of_nat k < Z.of_nat fuel -> drop (Z.to_nat (OPTIONS + o)) p = zeros k -> parse_options fuel p o t c s = Fault.
Proof.
  induction fuel as [|fuel IH]; intros k o t c s Ho Hk Hl Hf Hd; [lia|]. cbn [parse_options]. destruct (Z.leb_spec DHCP_MAX_OPTIONS_LEN o); [lia|].
  assert (0 <= OPTIONS + o) as H0 by (unfold OPTIONS; lia). destruct k as [|k].
  - unfold bytes_at, bind at 1. by destruct (Z.leb_spec (OPTIONS + o + 1) (Z.of_nat (length p))); [lia|].
  - rewrite (bind_run _ _ s [0] s) by (eapply (bytes_at_drop _ _ _ [_]); [lia|exact Hd|done|lia|simpl; lia]).
    change (be_value [0] =? DHCP_OPT_END) with false. change (be_value [0] =? DHCP_OPT_PAD) with true. cbv zeta iota.
    apply (IH k); [lia|lia|lia|lia|]. replace (Z.to_nat (OPTIONS + (o + 1))) with (Z.to_nat (OPTIONS + o) + 1)%nat by lia. rewrite <- drop_drop, Hd. done.
Qed.

(** Options are read up to the end of the structure, not of the packet: a reply to the client's
    last message whose options, all padding, end with the packet before 308 bytes makes the client
    read behind the memory of the packet. *)
Theorem dhcp_short_reply_overreads E a d l yi (k : nat) s (p := message DHCP_BOOTREPLY (current_xid s) zero_address yi (mac l) (be32 DHCP_MAGIC_COOKIE ++ zeros k)) :
  devs (stack s) !! a = Some d -> links s !! a = Some l -> length (mac l) = 6%nat -> length yi = 4%nat ->
  0 <= current_xid s < 2 ^ 32 -> 0 <= find_config (Network.name d) (dhcp_configs s) 0 -> (k < 304)%nat ->
  dhcp_process_packet E (Some a) (Some (p, Z.of_nat (length p))) s = Fault.
Proof.
  intros Hd Hl Hm Hy Hx Hi Hk. assert (length p = 240 + k)%nat as Hn.
  { unfold p, message, zeros. rewrite !length_app, !length_replicate, Hy, Hm. unfold be32, le32. rewrite length_reverse, !le_bytes_length. unfold zero_address. cbn [length]. lia. }
  pose proof (header_accepted E a d l yi (be32 DHCP_MAGIC_COOKIE ++ zeros k) (Z.of_nat (length p)) _ s Hd Hl Hm Hy ltac:(unfold OPTIONS; lia) Hx eq_refl Hi) as Hh.
  cbv zeta in Hh. fold p in Hh. rewrite Hh. clear Hh.
  assert (drop 236 p = be32 DHCP_MAGIC_COOKIE ++ zeros k) as Hdr.
  { unfold p. destruct yi as [|? [|? [|? [|? [|]]]]], (mac l) as [|? [|? [|? [|? [|? [|? [|]]]]]]]; done. }
  clearbody p. unfold bind at 1. unfold dhcp_parse_options.
  rewrite (bind_run _ _ s (be32 DHCP_MAGIC_COOKIE) s) by (eapply bytes_at_drop; [done|exact Hdr|done|done|simpl; lia]).
  change (be_value (be32 DHCP_MAGIC_COOKIE) =? DHCP_MAGIC_COOKIE) with true. cbn [negb].
  rewrite (pads_fault p (Z.to_nat DHCP_MAX_OPTIONS_LEN) k 4); [done|lia|unfold DHCP_MAX_OPTIONS_LEN; lia|unfold OPTIONS; lia|unfold DHCP_MAX_OPTIONS_LEN; lia|].
  change (Z.to_nat (OPTIONS + 4)) with (236 + 4)%nat. rewrite <- drop_drop, Hdr. done.
Qed.

(** ** The invariant

    [D] are the devices the calls may name. *)

Definition early (c : config) : Prop := c_name c <> ""%string -> 0 <= c_state c <= 2.

Record inv (D : addr -> Prop) (s : dhcp) : Prop := {
  i_configs : length (dhcp_configs s) = 8%nat;
  i_early : Forall early (dhcp_configs s);
  i_registry : reg_ok (stack s);
  i_known a : Some a ∈ registered (stack s) -> D a;
  i_devs a : D a -> is_Some (devs (stack s) !! a);
  i_links a : D a -> is_Some (links s !! a);
}.

Section Safety.
Context (E : env) (D : addr -> Prop).

Lemma inv_insert s i c : inv D s -> early c -> inv D (set_dhcp_configs (<[i := c]> (dhcp_configs s)) s).
Proof. intros [] Hc. split; try done; cbn; [by rewrite length_insert|by apply Forall_insert]. Qed.

Lemma inv_tick s n : inv D s -> inv D (set_readings n s).
Proof. by intros []. Qed.

Lemma wp_upd_inv i f Q s : inv D s -> 0 <= i < 8 ->
  (forall c, arr_get (dhcp_configs s) i = Some c -> early c -> early (f c)) ->
  (forall s', inv D s' -> sent s' = sent s -> Q tt s') -> wp (upd_config i f) Q s.
Proof.
  intros Hi Hr Hf HQ. destruct (arr_get_some (dhcp_configs s) i) as [c Hc]; [rewrite (i_configs _ _ Hi); lia|].
  eapply wp_upd_config; [done|]. apply HQ; [|done]. apply inv_insert; [done|]. apply Hf; [done|].
  unfold arr_get in Hc. destruct (i <? 0); [done|]. exact (Forall_lookup_1 _ _ _ _ (i_early _ _ Hi) Hc).
Qed.

Lemma inv_asked a nm st pk s s' : inv D s -> 0 <= st <= 2 -> asked a nm st pk s s' -> inv D s'.
Proof.
  intros Hi Hst (x & t & n & _ & ->). destruct Hi. split; try done; cbn; unfold marked; case_if; try done; [by rewrite length_alter|].
  apply Forall_alter; [done|]. intros c Hc. unfold early. by intros _ _.
Qed.

Definition discovery (p : addr * list Z * list Z) : Prop :=
  exists a hw x, p = (a, broadcast, discover_message hw x).

(** Only discovery messages were sent since [s]. *)
Definition discovers (s s' : dhcp) : Prop := exists ps, sent s' = ps ++ sent s /\ Forall discovery ps.

Lemma discovers_refl s s' : sent s' = sent s -> discovers s s'.
Proof. intros Hs. by exists []. Qed.

Lemma discovers_trans s1 s2 s3 : discovers s1 s2 -> discovers s2 s3 -> discovers s1 s3.
Proof. intros (p1 & E1 & F1) (p2 & E2 & F2). exists (p2 ++ p1). rewrite E2, E1, app_assoc. split; [done|]. by apply Forall_app. Qed.

Lemma discover_inv a Q s : inv D s -> D a -> (forall r s', inv D s' -> discovers s s' -> Q r s') -> wp (dhcp_send_discover E a) Q s.
Proof.
  intros Hi Ha HQ. destruct (i_devs _ _ Hi a Ha) as [d Hd], (i_links _ _ Hi a Ha) as [l Hl].
  eapply discover_spec; [done|done|intros _|intros _ r s' Hs']; apply HQ; [done|by apply discovers_refl|eapply inv_asked; [done| |done]; by compute|].
  destruct Hs' as (x & t & n & _ & ->). exists [(a, broadcast, discover_message (mac l) x)]. split; [done|].
  constructor; [|constructor]. by exists a, (mac l), x.
Qed.

Lemma request_inv a ip server Q s : inv D s -> D a -> (forall r s', inv D s' -> Q r s') -> wp (dhcp_send_request E a ip server) Q s.
Proof.
  intros Hi Ha HQ. destruct (i_devs _ _ Hi a Ha) as [d Hd], (i_links _ _ Hi a Ha) as [l Hl].
  eapply request_spec; [done|done|intros _|intros _ r s' Hs']; apply HQ; [done|eapply inv_asked; [done| |done]; by compute].
Qed.

Lemma name_inv a Q s : inv D s -> D a -> (forall nm, Q nm s) -> wp (name_of a) Q s.
Proof. intros Hi Ha HQ. destruct (i_devs _ _ Hi a Ha) as [d Hd]. by eapply wp_name_of. Qed.

Lemma found_range nm s : inv D s -> 0 <= find_config nm (dhcp_configs s) 0 -> 0 <= find_config nm (dhcp_configs s) 0 < 8.
Proof.
  intros Hi Hf. destruct (find_config_spec nm (dhcp_configs s) 0 ltac:(lia)) as [[Ef _]|(j & c & Ef & Hj & _)]; [lia|].
  apply lookup_lt_Some in Hj. rewrite (i_configs _ _ Hi) in Hj. lia.
Qed.

(** Reading the options of a whole message returns, and sets no name. *)
Lemma bytes_at_ok mem off n Q s : 0 <= n -> Forall (fun b => 0 <= b < 256) mem -> off + n <= Z.of_nat (length mem) ->
  (forall l, length l = Z.to_nat n \/ off < 0 -> Forall (fun b => 0 <= b < 256) l -> Q l s) -> wp (bytes_at mem off n) Q s.
Proof.
  intros Hn Hb Hl HQ. unfold bytes_at. destruct (Z.leb_spec (off + n) (Z.of_nat (length mem))); [|lia]. wp_steps. apply HQ.
  - destruct (Z.ltb_spec off 0); [by right|]. left. rewrite length_take, length_drop. lia.
  - by apply Forall_take, Forall_drop.
Qed.

Lemma process_option_ok mem opt len off t c Q s : Forall (fun b => 0 <= b < 256) mem -> 0 <= off -> off + len <= Z.of_nat (length mem) ->
  (forall r, c_name (snd r) = c_name c -> Q r s) -> wp (process_option mem opt len off t c) Q s.
Proof.
  intros Hb Ho Hl HQ. unfold process_option.
  repeat case_if; bools; wp_steps; try (by apply HQ); (apply bytes_at_ok; [lia|done|lia|]; intros l _ _; wp_steps; by apply HQ).
Qed.

Lemma byte_value l : length l = 1%nat \/ False -> Forall (fun b => 0 <= b < 256) l -> 0 <= be_value l < 256.
Proof. intros [Hl|[]] Hb. destruct l as [|b [|]]; try done. apply Forall_cons in Hb as [Hb _]. unfold be_value. cbn [foldl]. lia. Qed.

Lemma parse_options_ok mem Q : Forall (fun b => 0 <= b < 256) mem -> 544 <= Z.of_nat (length mem) -> forall fuel o t c s, 0 <= o ->
  DHCP_MAX_OPTIONS_LEN - o <= Z.of_nat fuel -> (forall r, c_name (snd r) = c_name c -> Q r s) -> wp (parse_options fuel mem o t c) Q s.
Proof.
  intros Hb Hl. unfold DHCP_MAX_OPTIONS_LEN. induction fuel as [|fuel IH]; intros o t c s Ho Hf HQ; cbn [parse_options]; unfold DHCP_MAX_OPTIONS_LEN;
    (destruct (Z.leb_spec 308 o); [wp_steps; by apply HQ|]); [lia|]. unfold OPTIONS. wp_steps. apply bytes_at_ok; [lia|done|lia|].
  intros b Hb1 Hb2. assert (0 <= be_value b < 256) as Hv by (apply byte_value; [left; lia|done]).
  case_if; [wp_steps; by apply HQ|]. case_if; [apply IH; [lia|lia|done]|].
  destruct (Z.leb_spec 308 (o + 1)); [wp_steps; by apply HQ|]. wp_steps. apply bytes_at_ok; [lia|done|lia|].
  intros b' Hb1' Hb2'. assert (0 <= be_value b' < 256) as Hv' by (apply byte_value; [left; lia|done]).
  destruct (Z.ltb_spec 308 (o + 1 + 1 + be_value b')); wp_steps; [by apply HQ|].
  apply process_option_ok; [done|lia|lia|]. intros r Hr. apply IH; [lia|lia|]. intros r' Hr'. apply HQ. congruence.
Qed.

Lemma omap_pointwise {A B} (f g : A -> option B) (l : list A) : (forall x, f x = g x) -> omap f l = omap g l.
Proof. intros Hf. induction l as [|x l IH]; [done|]. cbn. by rewrite Hf, IH. Qed.

(** A device is given other addresses. *)
Lemma inv_readdress a d d' g l s : inv D s -> D a -> devs (stack s) !! a = Some d -> Network.name d' = Network.name d -> links s !! a = Some l ->
  inv D (set_links (<[a := mk_link (mac l) g]> (links s)) (set_stack (set_devs (<[a := d']> (devs (stack s))) (stack s)) s)).
Proof.
  intros [Hc He [Hin Hsl Hct Hlv Hnm Hdf] Hk Hd Hl] Ha Hda Hn Hla. split; try done; cbn.
  - split; try done; cbn.
    + intros p Hp. destruct (Hlv p Hp) as (b & e & -> & Hb). destruct (decide (a = b)) as [<-|Hne];
        [exists a, d'|exists b, e]; rewrite ?lookup_insert_eq, ?lookup_insert_ne by done; done.
    + change (registered _) with (registered (stack s)).
      rewrite (omap_pointwise _ (name_at (stack s))); [done|]. intros [b|]; [|done]. unfold name_at. cbn.
      destruct (decide (a = b)) as [<-|Hne]; [rewrite lookup_insert_eq, Hda; cbn; by rewrite Hn|by rewrite lookup_insert_ne].
  - intros b Hb. destruct (decide (a = b)) as [<-|Hne]; [by rewrite lookup_insert_eq|rewrite lookup_insert_ne by done; auto].
  - intros b Hb. destruct (decide (a = b)) as [<-|Hne]; [by rewrite lookup_insert_eq|rewrite lookup_insert_ne by done; auto].
Qed.

Lemma readdress_ok a f g Q s : inv D s -> D a -> (forall d, Network.name (f d) = Network.name d) ->
  (forall s', inv D s' -> sent s' = sent s -> Q tt s') -> wp (d <- on_net (read_dev a) ;; on_net (write_dev a (f d)) ;;; upd_gateway a g) Q s.
Proof.
  intros Hi Ha Hf HQ. destruct (i_devs _ _ Hi a Ha) as [d Hd], (i_links _ _ Hi a Ha) as [l Hl]. wp_steps. rewrite dhcp_on_net. unfold read_dev. wp_steps.
  rewrite Hd. cbn [deref]. wp_steps. rewrite dhcp_on_net. unfold write_dev, upd_gateway. wp_steps. eapply wp_read_link; [done|]. wp_steps.
  apply HQ; [|done]. pose proof (inv_readdress a d (f d) g l s Hi Ha Hd (Hf d) Hl) as H. by destruct s.
Qed.

Lemma handle_message_ok a i t temp Q s : inv D s -> D a -> 0 <= i < 8 -> c_name temp = ""%string ->
  (forall r s', inv D s' -> Q r s') -> wp (handle_message E a i t temp) Q s.
Proof.
  intros Hi Ha Hr Ht HQ. unfold handle_message. case_if.
  { wp_steps. rewrite wp_read_config. destruct (arr_get_some (dhcp_configs s) i) as [c Hc]; [rewrite (i_configs _ _ Hi); lia|].
    exists c. split; [done|]. case_if; [by apply request_inv|]. wp_steps. auto. }
  case_if.
  - wp_steps. destruct (arr_get_some (dhcp_configs s) i) as [c Hc]; [rewrite (i_configs _ _ Hi); lia|]. eapply wp_upd_config; [done|].
    wp_steps. eapply wp_upd_config; [cbn; rewrite arr_get_insert by (rewrite ?(i_configs _ _ Hi); lia); by rewrite decide_True|].
    cbn [dhcp_configs set_dhcp_configs]. rewrite list_insert_insert_eq. wp_steps. apply wp_now. wp_steps.
    assert (inv D (set_dhcp_configs (<[Z.to_nat i := set_state DHCP_STATE_BOUND temp]> (dhcp_configs s)) s)) as Hi1
      by (apply inv_insert; [done|]; intros Hn; by destruct Hn).
    apply wp_upd_inv; [apply (inv_tick _ _ Hi1)|lia| |].
    { intros c' Hc'. cbn in Hc'. rewrite arr_get_insert in Hc' by (rewrite ?(i_configs _ _ Hi); lia). rewrite decide_True in Hc' by done.
      injection Hc' as <-. intros _ Hn. by destruct Hn. }
    intros s' Hs' _. wp_steps. rewrite wp_read_config. destruct (arr_get_some (dhcp_configs s') i) as [c' Hc']; [rewrite (i_configs _ _ Hs'); lia|].
    exists c'. split; [done|]. wp_steps. apply readdress_ok; [done|done|done|]. intros s2 Hs2 _. wp_steps. auto.
  - case_if; wp_steps; [|auto]. apply wp_upd_inv; [done|done| |]; [intros c' _ _ _; by compute|].
    intros s' Hs' _. apply discover_inv; auto.
Qed.

Lemma process_packet_ok a mem len Q s : inv D s -> D a -> Forall (fun b => 0 <= b < 256) mem -> 544 <= Z.of_nat (length mem) ->
  (forall r s', inv D s' -> Q r s') -> wp (dhcp_process_packet E (Some a) (Some (mem, len))) Q s.
Proof.
  intros Hi Ha Hb Hl HQ. unfold dhcp_process_packet. case_if; wp_steps; [auto|]. apply bytes_at_ok; [lia|done|lia|]. intros b _ _.
  case_if; wp_steps; [auto|]. apply bytes_at_ok; [lia|done|lia|]. intros b2 _ _. wp_steps. case_if; wp_steps; [auto|].
  apply bytes_at_ok; [lia|done|lia|]. intros b3 _ _. wp_steps. destruct (i_links _ _ Hi a Ha) as [l Hlk]. eapply wp_read_link; [done|].
  case_if; wp_steps; [auto|]. apply name_inv; [done..|]. intros nm. wp_steps. destruct (Z.ltb_spec (find_config nm (dhcp_configs s) 0) 0); wp_steps; [auto|].
  apply bytes_at_ok; [lia|done|lia|]. intros yi _ _. wp_steps. unfold dhcp_parse_options. wp_steps. unfold OPTIONS. apply bytes_at_ok; [lia|done|lia|].
  intros b4 _ _. case_if; wp_steps.
  - apply handle_message_ok; [done|done|by apply found_range|done|done].
  - apply parse_options_ok; [done|done|lia|unfold DHCP_MAX_OPTIONS_LEN; lia|]. intros r Hr.
    apply handle_message_ok; [done|done|by apply found_range|done|done].
Qed.

Lemma start_slot_range nm l : forall i dev_id, 0 <= i -> -1 <= dev_id < i ->
  -1 <= start_slot nm l i dev_id < i + Z.of_nat (length l).
Proof.
  induction l as [|c l IH]; intros i dev_id Hi Hd; cbn [start_slot length]; [lia|].
  repeat case_if; [lia|pose proof (IH (i + 1) i)|pose proof (IH (i + 1) dev_id)]; lia.
Qed.

Lemma start_ok a Q s : inv D s -> D a -> (forall r s', inv D s' -> Q r s') -> wp (dhcp_start E (Some a)) Q s.
Proof.
  intros Hi Ha HQ. unfold dhcp_start. wp_steps. apply name_inv; [done..|]. intros nm. wp_steps.
  pose proof (start_slot_range nm (dhcp_configs s) 0 (-1) ltac:(lia) ltac:(lia)) as Hr. rewrite (i_configs _ _ Hi) in Hr.
  destruct (Z.eqb_spec (start_slot nm (dhcp_configs s) 0 (-1)) (-1)); wp_steps; [auto|].
  assert (0 <= start_slot nm (dhcp_configs s) 0 (-1) < 8) as Hr' by lia. clear Hr n. set (i := start_slot _ _ _ _) in *. clearbody i.
  apply wp_upd_inv; [done|done|intros c _ _ _; by compute|]. intros s1 H1 _. wp_steps.
  apply wp_upd_inv; [done|done|intros c _ _ _; by compute|]. intros s2 H2 _. wp_steps. apply wp_now. wp_steps.
  apply wp_upd_inv; [by apply inv_tick|done|by intros c _|]. intros s3 H3 _. wp_steps. apply discover_inv; auto.
Qed.

Lemma release_ok a Q s : inv D s -> D a -> (forall r s', inv D s' -> Q r s') -> wp (dhcp_release E (Some a)) Q s.
Proof.
  intros Hi Ha HQ. unfold dhcp_release, dhcp_send_release. wp_steps. apply name_inv; [done..|]. intros nm. wp_steps.
  destruct (Z.ltb_spec (find_config nm (dhcp_configs s) 0) 0); wp_steps; [auto|]. apply (found_range nm s Hi) in H as Hr.
  set (i := find_config _ _ _) in *. clearbody i. rewrite wp_read_config. destruct (arr_get_some (dhcp_configs s) i) as [c Hc]; [rewrite (i_configs _ _ Hi); lia|].
  exists c. split; [done|]. case_if; wp_steps; [auto|]. case_if; wp_steps; [auto|]. unfold dhcp_get_xid. wp_steps. apply wp_now. wp_steps. apply wp_now. wp_steps.
  destruct (i_links _ _ Hi a Ha) as [l Hlk]. eapply wp_read_link; [done|]. wp_steps. unfold send. wp_steps.
  apply wp_upd_inv; [by destruct Hi|done|intros c' _ _ _; by compute|]. intros s2 H2 _. wp_steps. auto.
Qed.

Lemma find_device_ok nm Q s : inv D s -> (forall p, match p with Some a => D a | None => True end -> Q p s) ->
  wp (on_net (network_find_device_by_name (Some nm))) Q s.
Proof.
  intros Hi HQ. rewrite dhcp_on_net. unfold network_find_device_by_name. wp_steps. pose proof (i_registry _ _ Hi) as Hreg.
  rewrite (ro_init _ Hreg). change (negb (truth 1)) with false. cbv iota. unfold wp. change (find_device _ _ 0) with (find_device (fun d => bool_decide (name d = nm)) (Z.to_nat (device_count (stack s))) (Z.of_nat 0)).
  destruct (find_device_spec (stack s) (fun d => bool_decide (name d = nm)) (Z.to_nat (device_count (stack s))) 0 Hreg eq_refl)
    as [(a & d & j & -> & _ & Hj & _)|[-> _]].
  - replace (set_stack (stack s) s) with s by by destruct s. apply HQ. apply (i_known _ _ Hi). by eapply list_elem_of_lookup_2.
  - replace (set_stack (stack s) s) with s by by destruct s. by apply HQ.
Qed.

Lemma check_config_ok t i Q s : inv D s -> 0 <= i < 8 -> (forall s', inv D s' -> discovers s s' -> Q tt s') -> wp (check_config E t i) Q s.
Proof.
  intros Hi Hr HQ. unfold check_config. wp_steps. rewrite wp_read_config. destruct (arr_get_some (dhcp_configs s) i) as [c Hc]; [rewrite (i_configs _ _ Hi); lia|].
  exists c. split; [done|]. case_bool_decide as Hn; wp_steps; [apply HQ; [done|by apply discovers_refl]|].
  assert (early c) as He. { unfold arr_get in Hc. destruct (i <? 0); [done|]. exact (Forall_lookup_1 _ _ _ _ (i_early _ _ Hi) Hc). }
  specialize (He Hn). apply find_device_ok; [done|]. intros [a|] Ha; [|wp_steps; apply HQ; [done|by apply discovers_refl]].
  unfold DHCP_STATE_SELECTING, DHCP_STATE_REQUESTING, DHCP_STATE_BOUND, DHCP_STATE_RENEWING, DHCP_STATE_REBINDING.
  destruct (Z.eqb_spec (c_state c) 1).
  { case_if; wp_steps; [|apply HQ; [done|by apply discovers_refl]]. apply discover_inv; [done..|]. intros r s' Hs' Hd. wp_steps. auto. }
  destruct (Z.eqb_spec (c_state c) 2).
  { case_if; wp_steps; [|apply HQ; [done|by apply discovers_refl]]. apply wp_upd_inv; [done|done|intros c' _ _ _; by compute|].
    intros s1 H1 E1. wp_steps. apply discover_inv; [done..|]. intros r s' Hs' Hd. wp_steps. apply HQ; [done|].
    eapply discovers_trans; [|done]. by apply discovers_refl. }
  destruct (Z.eqb_spec (c_state c) 3), (Z.eqb_spec (c_state c) 4), (Z.eqb_spec (c_state c) 5); try lia.
  wp_steps. apply HQ; [done|by apply discovers_refl].
Qed.

Lemma check_configs_ok t n : forall i Q s, inv D s -> 0 <= i -> i + Z.of_nat n <= 8 ->
  (forall s', inv D s' -> discovers s s' -> Q tt s') -> wp (check_configs E n t i) Q s.
Proof.
  induction n as [|n IH]; intros i Q s Hi H0 Hn HQ; cbn [check_configs]; wp_steps; [apply HQ; [done|by apply discovers_refl]|].
  apply check_config_ok; [done|lia|]. intros s1 H1 Hd. apply IH; [done|lia|lia|]. intros s2 H2 Hd2. apply HQ; [done|]. by eapply discovers_trans.
Qed.

Lemma task_ok Q s : inv D s -> (forall s', inv D s' -> discovers s s' -> Q tt s') -> wp (dhcp_client_task E) Q s.
Proof.
  intros Hi HQ. unfold dhcp_client_task. wp_steps. apply wp_now. apply check_configs_ok; [by apply inv_tick|lia|done|]. intros s' Hs' Hd. by apply HQ.
Qed.

End Safety.

(** ** Histories *)

Inductive call : Type :=
| Start (a : addr)
| Receive (a : addr) (mem : list Z) (len : Z)
| Release (a : addr)
| GetConfig (a : addr)
| Task.

Definition run_call (E : env) (c : call) : M dhcp unit :=
  match c with
  | Start a => _r <- dhcp_start E (Some a) ;; ret tt
  | Receive a mem len => _r <- dhcp_process_packet E (Some a) (Some (mem, len)) ;; ret tt
  | Release a => _r <- dhcp_release E (Some a) ;; ret tt
  | GetConfig a => _r <- dhcp_get_config (Some a) true ;; ret tt
  | Task => dhcp_client_task E
  end.

(** The device exists; a packet lies in a block that has room for a whole message. *)
Definition call_ok (D : addr -> Prop) (c : call) : Prop :=
  match c with
  | Start a | Release a | GetConfig a => D a
  | Receive a mem _ => D a /\ Forall (fun b => 0 <= b < 256) mem /\ 544 <= Z.of_nat (length mem)
  | Task => True
  end.

Lemma dhcp_call_inv E D c s : inv D s -> call_ok D c -> wp (run_call E c) (fun _ s' => inv D s') s.
Proof.
  intros Hi Hc. destruct c as [a|a mem len|a|a|]; cbn [run_call call_ok] in *; wp_steps.
  - apply (start_ok E D a); [done..|]. intros r s' Hs'. by wp_steps.
  - destruct Hc as (Ha & Hb & Hl). apply (process_packet_ok E D); [done..|]. intros r s' Hs'. by wp_steps.
  - apply (release_ok E D a); [done..|]. intros r s' Hs'. by wp_steps.
  - unfold dhcp_get_config. wp_steps. apply (name_inv D); [done..|]. intros nm. wp_steps.
    destruct (Z.ltb_spec (find_config nm (dhcp_configs s) 0) 0); wp_steps; [done|]. apply (found_range D nm s Hi) in H as Hr.
    rewrite wp_read_config. destruct (arr_get_some (dhcp_configs s) (find_config nm (dhcp_configs s) 0)) as [c Hc']; [rewrite (i_configs _ _ Hi); lia|].
    exists c. split; [done|]. by wp_steps.
  - by apply (task_ok E D).
Qed.

(** The devices as [dhcp_init] finds them. *)
Record devices_ok (D : addr -> Prop) (s : dhcp) : Prop := {
  d_registry : reg_ok (stack s);
  d_known a : Some a ∈ registered (stack s) -> D a;
  d_devs a : D a -> is_Some (devs (stack s) !! a);
  d_links a : D a -> is_Some (links s !! a);
}.

(** Leases are never renewed. After [dhcp_init] every sequence of calls and of received packets
    returns without an access outside the tables, as long as packets lie in blocks with room for a
    whole message; and in the state it leads to, [dhcp_client_task] sends nothing but discovery
    messages: no configuration that has a name is ever bound, since the acknowledgement that
    binds it also overwrites its name. *)
Theorem dhcp_never_renews E D calls s : devices_ok D s -> Forall (call_ok D) calls ->
  wp (_r <- dhcp_init ;; mfor calls (run_call E)) (fun _ s1 =>
    wp (dhcp_client_task E) (fun _ s2 => exists ps, sent s2 = ps ++ sent s1 /\ Forall discovery ps) s1) s.
Proof.
  intros [] Hc. wp_steps. unfold dhcp_init. wp_steps. eapply wp_mono; [apply (wp_mfor (inv D))|].
  - intros c s1 Hin Hi. apply dhcp_call_inv; [done|]. rewrite Forall_forall in Hc. auto.
  - split; try done; cbn. by repeat constructor; intros [].
  - cbn beta. intros _ s1 Hi. by apply (task_ok E D).
Qed.

(** ** Instances *)

Definition quiet : env := mk_env 16 (fun n => 1000 * Z.of_nat n) (fun _ => true) (fun _ _ _ _ => 0).
Definition hardware : list Z := [2; 0; 0; 0; 0; 1].

(** Two devices; the first is waiting for offers. *)
Definition selecting : config := set_state DHCP_STATE_SELECTING (set_c_name "lo" zero_config).
Definition lab : dhcp :=
  mk_dhcp (selecting :: replicate 7 zero_config) 77 one_device {[ 1%positive := mk_link hardware zero_address; 2%positive := mk_link hardware zero_address ]} 0 [].

Definition offered : list (Z * list Z) := [(53, [2]); (54, [10; 0; 0; 1])].
Definition granted : list (Z * list Z) := [(53, [5]); (1, [255; 0; 0; 0]); (3, [10; 0; 0; 1]); (51, [0; 0; 14; 16])].

Lemma fits_small os : forallb (fun o => (0 <? fst o) && (fst o <? 255) && (Z.of_nat (length (snd o)) <? 256)) os = true ->
  Z.of_nat (length (concat (map encode os))) < DHCP_MAX_OPTIONS_LEN - 4 -> fits os.
Proof.
  intros Hos Hn. split; [|done]. apply Forall_forall. intros o Ho%list_elem_of_In. rewrite forallb_forall in Hos. apply Hos in Ho. bools. by repeat split.
Qed.

Lemma dhcp_handshake_witness :
  exists s1 s2 r, dhcp_process_packet quiet (Some 1%positive) (Some (reply 77 [10; 0; 0; 7] hardware offered (zeros 200), 300)) lab = Ret (r, s1) /\
    sent s1 = [(1%positive, broadcast, request_message hardware [10; 0; 0; 7] [10; 0; 0; 1] (current_xid s1))] /\
    dhcp_process_packet quiet (Some 1%positive) (Some (reply (current_xid s1) [10; 0; 0; 7] hardware granted (zeros 200), 300)) s1 = Ret (NET_ERR_OK, s2) /\
    links s2 !! 1%positive = Some (mk_link hardware [10; 0; 0; 1]).
Proof.
  destruct (dhcp_handshake quiet 1 Network.lo (mk_link hardware zero_address) 0 selecting [10; 0; 0; 7] offered (zeros 200) 300 lab) as (r & s1 & E1 & E2 & E3);
    [reflexivity|reflexivity|reflexivity|split; [discriminate|reflexivity]|reflexivity|discriminate|reflexivity|reflexivity|reflexivity|reflexivity| |discriminate|reflexivity|].
  { apply fits_small; reflexivity. }
  destruct (E3 [10; 0; 0; 7] granted (zeros 200) 300) as (s2 & E4 & _ & E5); [reflexivity|apply fits_small; reflexivity|discriminate|reflexivity|].
  exists s1, s2, r. split; [exact E1|]. split; [exact E2|]. split; [exact E4|exact E5].
Defined.

Definition both (a : addr) : Prop := a = 1%positive \/ a = 2%positive.

Lemma lab_ok : devices_ok both lab.
Proof.
  split; [exact one_device_ok| | |].
  - intros a [= ->]%list_elem_of_singleton. by left.
  - intros a [->| ->]; by eexists.
  - intros a [->| ->]; by eexists.
Qed.

Lemma dhcp_never_renews_witness :
  wp (_r <- dhcp_init ;; mfor [Start 1; Receive 1 (zeros 544) 300; Task; Release 2] (run_call quiet)) (fun _ s1 =>
    wp (dhcp_client_task quiet) (fun _ s2 => exists ps, sent s2 = ps ++ sent s1 /\ Forall discovery ps) s1) lab.
Proof.
  apply (dhcp_never_renews quiet both); [exact lab_ok|].
  constructor; [by left|]. constructor; [|constructor; [exact I|constructor; [by right|constructor]]].
  split; [by left|]. split; [|discriminate]. apply Forall_replicate. split; [discriminate|reflexivity].
Defined.

Lemma dhcp_short_reply_overreads_witness :
  let p := message DHCP_BOOTREPLY 77 zero_address [10; 0; 0; 7] hardware (be32 DHCP_MAGIC_COOKIE ++ zeros 3) in
  dhcp_process_packet quiet (Some 1%positive) (Some (p, Z.of_nat (length p))) lab = Fault.
Proof.
  apply (dhcp_short_reply_overreads quiet 1 Network.lo (mk_link hardware zero_address) [10; 0; 0; 7] 3 lab);
    [reflexivity|reflexivity|reflexivity|reflexivity|split; [discriminate|reflexivity]|discriminate|lia].
Defined.

End DhcpThms.
