(* ===== verification/Fat12.v ===== *)
(** * The FAT12 file system ([filesystem/fat12.c])

    The disk is a function from offsets to bytes; [read_sector] answers [None] beyond
    its end, where the code returns 0 and leaves the buffer as it was. A caller that
    ignores this reads an uninitialised buffer ([Fault]), and so does a read beyond the
    end of a 512-byte buffer. [char] is signed, as it is for the x86 compilers the
    kernel is built with. [disk_image] is the sample disk that [read_sector] sets up.

    [fat12_init] copies a whole sector over the 36 bytes of [boot_sector]; what it
    overwrites behind them is not modelled. *)

From Stdlib Require Import ZArith Lia Ascii String.
From stdpp Require Import base tactics option list numbers strings.
From S2P Require Import Prelude.

Set Default Goal Selector "!".
Local Open Scope Z_scope.
Local Open Scope kernel_scope.

Module Fat12.

Definition SECTOR_SIZE : Z := 512.
Definition DISK_SIZE : Z := 1024 * 1024.
Definition FAT12_ERR_NOT_FOUND : Z := -1.
Definition FAT12_ERR_IO_ERROR : Z := -4.
Definition FAT12_ERR_INVALID_ARG : Z := -5.

(** ** Data *)

(** [struct fat12_boot_sector] *)
Record boot_sector : Type := mk_boot {
  jump : list Z;
  oem : list Z;
  bytes_per_sector : Z;
  sectors_per_cluster : Z;
  reserved_sectors : Z;
  num_fats : Z;
  root_dir_entries : Z;
  total_sectors : Z;
  media_descriptor : Z;
  sectors_per_fat : Z;
  sectors_per_track : Z;
  num_heads : Z;
  hidden_sectors : Z;
  large_sector_count : Z;
}.

(** [struct fat12_dir_entry]; the name as bytes. *)
Record dir_entry : Type := mk_entry {
  e_name : list Z;
  attr : Z;
  create_time : Z;
  create_date : Z;
  last_access_date : Z;
  first_cluster_high : Z;
  write_time : Z;
  write_date : Z;
  first_cluster_low : Z;
  file_size : Z;
}.

(** [fat12_file_entry_t] *)
Record file_entry : Type := mk_file_entry {
  f_name : list Z;
  f_attributes : Z;
  f_size : Z;
  f_cluster : Z;
  f_create_date : Z;
  f_create_time : Z;
  f_last_access_date : Z;
  f_last_modified_date : Z;
  f_last_modified_time : Z;
}.

(** The static [boot_sector], and the disk. *)
Record fat : Type := mk_fat {
  boot : boot_sector;
  disk : Z -> Z;
}.

(** ** Bytes *)

Definition byte (l : list Z) (i : Z) : Z := l !!! Z.to_nat i.
Definition le16 (l : list Z) (i : Z) : Z := byte l i + 256 * byte l (i + 1).
Definition le32 (l : list Z) (i : Z) : Z := le16 l i + 65536 * le16 l (i + 2).
Definition bytes (l : list Z) (i n : Z) : list Z := take (Z.to_nat n) (drop (Z.to_nat i) l).

(** A byte as a [char]. *)
Definition schar (b : Z) : Z := if b <? 128 then b else b - 256.

Definition parse_boot (l : list Z) : boot_sector :=
  mk_boot (bytes l 0 3) (bytes l 3 8) (le16 l 11) (byte l 13) (le16 l 14) (byte l 16) (le16 l 17) (le16 l 19)
    (byte l 21) (le16 l 22) (le16 l 24) (le16 l 26) (le32 l 28) (le32 l 32).

Definition parse_entry (l : list Z) : dir_entry :=
  mk_entry (bytes l 0 11) (byte l 11) (le16 l 14) (le16 l 16) (le16 l 18) (le16 l 20) (le16 l 22) (le16 l 24)
    (le16 l 26) (le32 l 28).

(** The sixteen entries of a sector. *)
Definition entries_of (l : list Z) : list dir_entry :=
  (fun i => parse_entry (bytes l (32 * i) 32)) <$> seqZ 0 16.

(** ** The disk *)

Definition sector_of (d : Z -> Z) (sector : Z) : list Z := (fun i => d (sector * 512 + i)) <$> seqZ 0 512.

Definition read_sector (sector : Z) : M fat (option (list Z)) :=
  s <- get ;;
  if DISK_SIZE <=? u32 (sector * 512) then ret None else ret (Some (sector_of (disk s) sector)).

(** A read whose answer is not looked at. *)
Definition read_unchecked (sector : Z) : M fat (list Z) := r <- read_sector sector ;; deref r.

(** An element of a buffer of 512 bytes. *)
Definition buf (l : list Z) (i : Z) : M fat Z := deref (arr_get l i).

(** *** The sample disk *)

Definition string_bytes (t : string) : list Z := (fun c => Z.of_nat (nat_of_ascii c)) <$> String.list_ascii_of_string t.

Definition put16 (x : Z) : list Z := [x mod 256; x / 256 mod 256].
Definition put32 (x : Z) : list Z := put16 (x mod 65536) ++ put16 (x / 65536 mod 65536).

Definition sample_boot : list Z :=
  [0xEB; 0x3C; 0x90] ++ string_bytes "UINTOS  " ++ put16 512 ++ [1] ++ put16 1 ++ [2] ++ put16 224 ++ put16 2880 ++
  [0xF0] ++ put16 9 ++ put16 18 ++ put16 2 ++ put32 0 ++ put32 0.

Definition sample_entry (nm : string) (at_ cl size : Z) : list Z :=
  string_bytes nm ++ [at_; 0; 0] ++ put16 0x6123 ++ put16 0x5345 ++ put16 0 ++ put16 0 ++ put16 0x6123 ++
  put16 0x5345 ++ put16 cl ++ put32 size.

Definition CRLF : string := String (ascii_of_nat 13) (String (ascii_of_nat 10) EmptyString).

(** Pieces of the image and the offsets they are stored at: the FATs start at sector 1,
    the root directory at sector 19 and the data at sector 33. *)
Definition sample_pieces : list (Z * list Z) :=
  [ (0, sample_boot);
    (1 * 512, [0xF0; 0xFF; 0xFF]);
    (10 * 512, [0xF0; 0xFF; 0xFF]);
    (19 * 512, sample_entry "README  TXT" 0x20 2 37 ++ sample_entry "KERNEL  BIN" 0x20 3 512 ++
               sample_entry "SYSTEM     " 0x10 4 0 ++ sample_entry "LOG     TXT" 0x20 5 24);
    (33 * 512, string_bytes ("uintOS - A simple educational OS" ++ CRLF));
    (34 * 512, replicate 512 0xAA);
    (36 * 512, string_bytes ("System started up OK" ++ CRLF)) ].

Definition disk_image (a : Z) : Z :=
  match list_find (fun p => p.1 <= a < p.1 + Z.of_nat (length p.2)) sample_pieces with
  | Some (_, (o, l)) => byte l (a - o)
  | None => 0
  end.

(** ** Setting up *)

Definition fat12_init : M fat unit :=
  l <- read_unchecked 0 ;;
  modify (fun s => mk_fat (parse_boot l) (disk s)).

(** ** The root directory *)

Definition root_dir_sectors (b : boot_sector) : Z := u16 ((root_dir_entries b * 32 + SECTOR_SIZE - 1) / SECTOR_SIZE).
Definition root_dir_start (b : boot_sector) : Z := u16 (reserved_sectors b + num_fats b * sectors_per_fat b).

(** How a search ends. *)
Inductive found : Type :=
| Entry (e : dir_entry)
| End
| Missing
| IoError.

(** The entries of one sector: [None] goes on with the next sector. *)
Fixpoint search_entries (test : dir_entry -> bool) (l : list dir_entry) : option found :=
  match l with
  | [] => None
  | e :: l' =>
      let c := schar (byte (e_name e) 0) in
      if c =? 0 then Some End
      else if negb (c =? 0xE5) && test e then Some (Entry e)
      else search_entries test l'
  end.

(** The loop over the sectors of the directory; [checked] callers look at the answer of
    [read_sector]. *)
Fixpoint search_dir (checked : bool) (test : dir_entry -> bool) (start : Z) (n : nat) (sector : Z) : M fat found :=
  match n with
  | O => ret Missing
  | S n' =>
      r <- read_sector (start + sector) ;;
      match r with
      | None => if checked then ret IoError else fault
      | Some l =>
          match search_entries test (entries_of l) with
          | Some f => ret f
          | None => search_dir checked test start n' (sector + 1)
          end
      end
  end.

Definition search (checked : bool) (test : dir_entry -> bool) : M fat found :=
  s <- get ;;
  search_dir checked test (root_dir_start (boot s)) (Z.to_nat (root_dir_sectors (boot s))) 0.

(** [strncmp(a, b, n) == 0] *)
Fixpoint strncmp_eq (n : nat) (a b : list Z) : bool :=
  match n with
  | O => true
  | S n' =>
      let x := hd 0 a in
      let y := hd 0 b in
      if negb (x =? y) then false else if x =? 0 then true else strncmp_eq n' (tl a) (tl b)
  end.

(** ** Reading a file *)

(** The entry of [cluster] in the FAT: the next cluster. *)
Definition next_cluster (cluster : Z) : M fat Z :=
  s <- get ;;
  let fat_offset := u16 (cluster * 3 / 2) in
  let fat_sector := u16 (reserved_sectors (boot s) + fat_offset / SECTOR_SIZE) in
  l <- read_unchecked fat_sector ;;
  lo <- buf l (fat_offset mod SECTOR_SIZE) ;;
  hi <- buf l (fat_offset mod SECTOR_SIZE + 1) ;;
  if truth (Z.land cluster 1) then ret (u16 (Z.lor (Z.shiftr lo 4) (Z.shiftl hi 4)))
  else ret (u16 (Z.lor lo (Z.shiftl (Z.land hi 0x0F) 8))).

Definition cluster_sector (b : boot_sector) (cluster : Z) : Z :=
  u16 (root_dir_start b + root_dir_sectors b + (cluster - 2) * sectors_per_cluster b).

(** [while (cluster < 0xFF8 && bytes_read < max)]: what has been copied to the buffer. *)
Fixpoint read_loop (fuel : nat) (cluster max : Z) (out : list Z) : M fat (list Z) :=
  let n := Z.of_nat (length out) in
  if (cluster <? 0xFF8) && (n <? max) then
    match fuel with
    | O => spin
    | S f =>
        s <- get ;;
        let want := if max <? n + SECTOR_SIZE then max - n else SECTOR_SIZE in
        l <- read_unchecked (cluster_sector (boot s) cluster) ;;
        next <- next_cluster cluster ;;
        read_loop f next max (out ++ take (Z.to_nat want) l)
    end
  else ret out.

(** The answer and what is in the buffer; a round copies a sector or the rest. *)
Definition fat12_read_file (filename : list Z) (size : Z) : M fat (Z * list Z) :=
  r <- search false (fun e => strncmp_eq 11 (e_name e) filename) ;;
  match r with
  | Entry e =>
      let fsize := to_int (file_size e) in
      let max := if fsize <? size then fsize else size in
      out <- read_loop (S (Z.to_nat (max / 512))) (first_cluster_low e) max [] ;;
      ret (Z.of_nat (length out), out)
  | _ => ret (-1, [])
  end.

(** ** Names *)

Definition DOT : Z := 46.
Definition SPACE : Z := 32.
Definition SLASH : Z := 47.

(** The characters of the base name, at most [n], and what follows. *)
Fixpoint copy_base (n : nat) (s : list Z) : list Z * list Z :=
  match n, s with
  | S n', c :: s' => if c =? DOT then ([], s) else let '(b, r) := copy_base n' s' in (c :: b, r)
  | _, _ => ([], s)
  end.

Fixpoint skip_to_dot (s : list Z) : list Z :=
  match s with
  | [] => []
  | c :: s' => if c =? DOT then s else skip_to_dot s'
  end.

(** [fat_filename]: eleven characters, padded with spaces. The argument is the string
    before its terminator. *)
Definition to_83 (filename : list Z) : list Z :=
  let '(base, rest) := copy_base 8 filename in
  let ext := match skip_to_dot rest with [] => [] | _ :: e => take 3 e end in
  base ++ replicate (8 - length base) SPACE ++ ext ++ replicate (3 - length ext) SPACE.

(** The characters up to a space. *)
Fixpoint until_space (s : list Z) : list Z :=
  match s with
  | [] => []
  | c :: s' => if c =? SPACE then [] else c :: until_space s'
  end.

(** The name [fat12_list_directory] shows. *)
Definition from_83 (name : list Z) : list Z :=
  until_space (take 8 name) ++
  (if negb (byte name 8 =? SPACE) then DOT :: until_space (bytes name 8 3) else []).

(** ** The other calls *)

Definition fat12_file_exists (filename : list Z) : M fat Z :=
  r <- search true (fun e => bool_decide (e_name e = to_83 filename)) ;;
  match r with
  | Entry _ => ret 1
  | IoError => ret FAT12_ERR_IO_ERROR
  | _ => ret 0
  end.

Definition fat12_get_file_size (filename : list Z) : M fat Z :=
  r <- search true (fun e => bool_decide (e_name e = to_83 filename)) ;;
  match r with
  | Entry e => ret (to_int (file_size e))
  | IoError => ret FAT12_ERR_IO_ERROR
  | _ => ret FAT12_ERR_NOT_FOUND
  end.

Definition show (e : dir_entry) : file_entry :=
  mk_file_entry (from_83 (e_name e)) (attr e) (file_size e) (first_cluster_low e) (create_date e) (create_time e)
    (last_access_date e) (write_date e) (write_time e).

(** One sector of a listing: at most [room] entries, until the end of the directory. *)
Fixpoint list_entries (l : list dir_entry) (room : nat) : list file_entry :=
  match l, room with
  | e :: l', S r =>
      let c := schar (byte (e_name e) 0) in
      if c =? 0 then []
      else if c =? 0xE5 then list_entries l' room
      else show e :: list_entries l' r
  | _, _ => []
  end.

(** The loop over the sectors; [out] are the entries found. *)
Fixpoint list_dir (start : Z) (n : nat) (sector : Z) (max_entries : nat) (out : list file_entry)
  : M fat (option (list file_entry)) :=
  match n with
  | O => ret (Some out)
  | S n' =>
      if bool_decide (length out < max_entries)%nat then
        r <- read_sector (start + sector) ;;
        match r with
        | None => ret None
        | Some l => list_dir start n' (sector + 1) max_entries (out ++ list_entries (entries_of l) (max_entries - length out))
        end
      else ret (Some out)
  end.

(** [path] is the string before its terminator, [None] for NULL. *)
Definition fat12_list_directory (path : option (list Z)) (max_entries : Z) : M fat (Z * list file_entry) :=
  let bad := match path with
             | None => false
             | Some p => negb (hd 0 p =? 0) && negb (hd 0 p =? SLASH) && negb (byte (p ++ [0]) 1 =? 0)
             end in
  if bad then ret (FAT12_ERR_INVALID_ARG, [])
  else
    s <- get ;;
    r <- list_dir (root_dir_start (boot s)) (Z.to_nat (root_dir_sectors (boot s))) 0 (Z.to_nat max_entries) [] ;;
    match r with
    | None => ret (FAT12_ERR_IO_ERROR, [])
    | Some out => ret (Z.of_nat (length out), out)
    end.

End Fat12.
