(* ===== verification/Fat12Thms.v ===== *)
(** * FAT12: directories, chains and names

    [fat_entry] is the FAT as the format defines it, a sequence of 12-bit numbers laid
    out in half bytes; [directory] is the root directory as a list, up to its end
    marker; [chain] is the list of clusters a file occupies. The theorems say what the
    calls of [Fat12] compute in terms of these, on any disk that they can read. *)

From Stdlib Require Import ZArith Lia Ascii String.
From stdpp Require Import base tactics option sets list numbers strings.
From S2P Require Import Prelude Fat12.

Set Default Goal Selector "!".
Local Open Scope Z_scope.
Local Open Scope kernel_scope.

Local Ltac Zify.zify_post_hook ::= Z.to_euclidean_division_equations.

Module Fat12Thms.
Import Fat12.
#[local] Arguments entries_of : simpl never.
#[local] Arguments sector_of : simpl never.

(** ** The format *)

Definition bytes_ok (s : fat) : Prop := forall a, 0 <= disk s a < 256.
Definition on_disk (sector : Z) : Prop := 0 <= sector < 2048.

(** Half byte [k] of the first FAT, the lower half of a byte first, and its 12-bit
    entries. *)
Definition nibble (s : fat) (k : Z) : Z := disk s (reserved_sectors (boot s) * 512 + k / 2) / 16 ^ (k mod 2) mod 16.
Definition fat_entry (s : fat) (c : Z) : Z := nibble s (3 * c) + 16 * nibble s (3 * c + 1) + 256 * nibble s (3 * c + 2).

Definition fat_sector (s : fat) (c : Z) : Z := reserved_sectors (boot s) + c * 3 / 2 / 512.
Definition straddles (c : Z) : Prop := c * 3 / 2 mod 512 = 511.
Definition data_sector (s : fat) (c : Z) : Z :=
  root_dir_start (boot s) + root_dir_sectors (boot s) + (c - 2) * sectors_per_cluster (boot s).

(** The clusters that hold the first [m] bytes of a file that starts at [c]; fewer if the
    FAT ends it before. *)
Inductive chain (s : fat) : Z -> Z -> list Z -> Prop :=
| chain_full m c : m <= 0 -> chain s m c []
| chain_end m c : 0xFF8 <= c -> chain s m c []
| chain_next m c cs :
    0 < m -> 0 <= c < 0xFF8 -> ~ straddles c -> on_disk (fat_sector s c) -> on_disk (data_sector s c) ->
    chain s (m - 512 * sectors_per_cluster (boot s)) (fat_entry s c) cs -> chain s m c (c :: cs).

(** All sectors of a cluster, and of the clusters of a chain. *)
Definition cluster_bytes (s : fat) (c : Z) : list Z :=
  concat ((fun j => sector_of (disk s) (data_sector s c + j)) <$> seqZ 0 (sectors_per_cluster (boot s))).
Definition contents (s : fat) (cs : list Z) : list Z := concat (cluster_bytes s <$> cs).

(** The entries of the root directory before its end marker. *)
Definition table (s : fat) (first n : Z) : list (list dir_entry) :=
  (fun i => entries_of (sector_of (disk s) (root_dir_start (boot s) + i))) <$> seqZ first n.
Definition in_use (e : dir_entry) : bool := negb (byte (e_name e) 0 =? 0).
Fixpoint live (l : list dir_entry) : list dir_entry :=
  match l with
  | e :: l' => if in_use e then e :: live l' else []
  | [] => []
  end.
Definition directory (s : fat) : list dir_entry := live (concat (table s 0 (root_dir_sectors (boot s)))).

(** An entry whose name begins with 0xE5 is that of a deleted file. *)
Definition deleted (e : dir_entry) : bool := byte (e_name e) 0 =? 0xE5.
Definition files (s : fat) : list dir_entry := filter (fun e => deleted e = false) (directory s).

Definition root_on_disk (s : fat) : Prop :=
  root_dir_start (boot s) + root_dir_sectors (boot s) <= 2048.

(** ** Bytes and sectors *)

Lemma read_sector_ok s k : on_disk k -> read_sector k s = Ret (Some (sector_of (disk s) k), s).
Proof.
  unfold on_disk. intros Hk. unfold read_sector, bind, get.
  rewrite u32_small by lia. unfold DISK_SIZE. destruct (Z.leb_spec (1024 * 1024) (k * 512)); [lia|done].
Qed.

Lemma read_unchecked_ok s k : on_disk k -> read_unchecked k s = Ret (sector_of (disk s) k, s).
Proof. intros Hk. unfold read_unchecked. by rewrite (bind_run _ _ _ _ _ (read_sector_ok s k Hk)). Qed.

Lemma sector_length d k : length (sector_of d k) = 512%nat.
Proof. unfold sector_of. by rewrite length_fmap, length_seqZ. Qed.

Lemma sector_lookup d k i : 0 <= i < 512 -> arr_get (sector_of d k) i = Some (d (k * 512 + i)).
Proof.
  intros Hi. unfold arr_get, sector_of. destruct (Z.ltb_spec i 0); [lia|].
  rewrite list_lookup_fmap, lookup_seqZ_lt by lia. simpl. do 2 f_equal. lia.
Qed.

Lemma buf_ok (s : fat) d k i : 0 <= i < 512 -> buf (sector_of d k) i s = Ret (d (k * 512 + i), s).
Proof. intros Hi. unfold buf. by rewrite sector_lookup. Qed.

Lemma u16_small z : 0 <= z < 2 ^ 16 -> u16 z = z.
Proof. apply Z.mod_small. Qed.

(** ** The FAT *)

(** The two ways an entry is cut out of its two bytes. *)
Lemma odd_entry lo hi :
  0 <= lo < 256 -> 0 <= hi < 256 ->
  u16 (Z.lor (Z.shiftr lo 4) (Z.shiftl hi 4)) = lo / 16 mod 16 + 16 * (hi mod 16) + 256 * (hi / 16 mod 16).
Proof.
  intros Hl Hh. rewrite Z.shiftr_div_pow2, Z.shiftl_mul_pow2 by lia.
  rewrite lor_high by (change (2 ^ 4) with 16; lia). change (2 ^ 4) with 16. rewrite u16_small by lia. lia.
Qed.

Lemma even_entry lo hi :
  0 <= lo < 256 -> 0 <= hi < 256 ->
  u16 (Z.lor lo (Z.shiftl (Z.land hi 0x0F) 8)) = lo mod 16 + 16 * (lo / 16 mod 16) + 256 * (hi mod 16).
Proof.
  intros Hl Hh. change 0x0F with (Z.ones 4). rewrite Z.land_ones by lia.
  rewrite Z.shiftl_mul_pow2 by lia. rewrite lor_high by (change (2 ^ 8) with 256; lia).
  change (2 ^ 4) with 16. change (2 ^ 8) with 256. rewrite u16_small by lia. lia.
Qed.

Lemma land_1 c : 0 <= c -> Z.land c 1 = c mod 2.
Proof. intros _. change 1 with (Z.ones 1). by rewrite Z.land_ones. Qed.

(** The two bytes of an entry, and its half bytes in them. *)
Lemma nibble_odd s c d :
  c mod 2 = 1 -> d = reserved_sectors (boot s) * 512 + c * 3 / 2 ->
  fat_entry s c = disk s d / 16 mod 16 + 16 * (disk s (d + 1) mod 16) + 256 * (disk s (d + 1) / 16 mod 16).
Proof.
  intros Hc ->. unfold fat_entry, nibble.
  assert (3 * c / 2 = c * 3 / 2 /\ (3 * c) mod 2 = 1) as [-> ->] by lia.
  assert ((3 * c + 1) / 2 = c * 3 / 2 + 1 /\ (3 * c + 1) mod 2 = 0) as [-> ->] by lia.
  assert ((3 * c + 2) / 2 = c * 3 / 2 + 1 /\ (3 * c + 2) mod 2 = 1) as [-> ->] by lia.
  rewrite Z.add_assoc. change (16 ^ 0) with 1. change (16 ^ 1) with 16. by rewrite Z.div_1_r.
Qed.

Lemma nibble_even s c d :
  c mod 2 = 0 -> d = reserved_sectors (boot s) * 512 + c * 3 / 2 ->
  fat_entry s c = disk s d mod 16 + 16 * (disk s d / 16 mod 16) + 256 * (disk s (d + 1) mod 16).
Proof.
  intros Hc ->. unfold fat_entry, nibble.
  assert (3 * c / 2 = c * 3 / 2 /\ (3 * c) mod 2 = 0) as [-> ->] by lia.
  assert ((3 * c + 1) / 2 = c * 3 / 2 /\ (3 * c + 1) mod 2 = 1) as [-> ->] by lia.
  assert ((3 * c + 2) / 2 = c * 3 / 2 + 1 /\ (3 * c + 2) mod 2 = 0) as [-> ->] by lia.
  rewrite Z.add_assoc. change (16 ^ 0) with 1. change (16 ^ 1) with 16. by rewrite !Z.div_1_r.
Qed.

Lemma next_cluster_ok s c :
  bytes_ok s -> 0 <= c < 4096 -> on_disk (fat_sector s c) -> ~ straddles c ->
  next_cluster c s = Ret (fat_entry s c, s).
Proof.
  intros Hb Hc Hd Hs. unfold on_disk, fat_sector, straddles in *. unfold next_cluster.
  rewrite (bind_run _ _ s s s) by done. cbv zeta. unfold SECTOR_SIZE.
  rewrite !(u16_small (c * 3 / 2)), (u16_small (_ + _)) by lia.
  rewrite (bind_run _ _ _ _ _ (read_unchecked_ok s _ Hd)).
  rewrite (bind_run _ _ _ _ _ (buf_ok s _ _ (c * 3 / 2 mod 512) ltac:(lia))).
  rewrite (bind_run _ _ _ _ _ (buf_ok s _ _ (c * 3 / 2 mod 512 + 1) ltac:(lia))).
  set (d := reserved_sectors (boot s) * 512 + c * 3 / 2).
  replace ((reserved_sectors (boot s) + c * 3 / 2 / 512) * 512 + c * 3 / 2 mod 512) with d by (unfold d; lia).
  replace ((reserved_sectors (boot s) + c * 3 / 2 / 512) * 512 + (c * 3 / 2 mod 512 + 1)) with (d + 1)
    by (unfold d; lia).
  rewrite land_1 by lia. assert (c mod 2 = 0 \/ c mod 2 = 1) as [E|E] by lia; rewrite E; simpl; unfold ret.
  - rewrite even_entry by apply Hb. by rewrite (nibble_even s c d).
  - rewrite odd_entry by apply Hb. by rewrite (nibble_odd s c d).
Qed.

Lemma next_cluster_straddling s c :
  0 <= c < 4096 -> on_disk (fat_sector s c) -> straddles c -> next_cluster c s = Fault.
Proof.
  intros Hc Hd Hs. unfold on_disk, fat_sector, straddles in *. unfold next_cluster.
  rewrite (bind_run _ _ s s s) by done. cbv zeta. unfold SECTOR_SIZE.
  rewrite !(u16_small (c * 3 / 2)), (u16_small (_ + _)) by lia.
  rewrite (bind_run _ _ _ _ _ (read_unchecked_ok s _ Hd)), Hs.
  rewrite (bind_run _ _ _ _ _ (buf_ok s _ _ 511 ltac:(lia))). unfold bind, buf, arr_get.
  destruct (Z.ltb_spec (511 + 1) 0); [lia|].
  by rewrite lookup_ge_None_2 by (rewrite sector_length; lia).
Qed.

(** ** Reading a chain *)

Lemma contents_cons s c cs : sectors_per_cluster (boot s) = 1 ->
  contents s (c :: cs) = sector_of (disk s) (data_sector s c) ++ contents s cs.
Proof.
  intros H1. unfold contents. cbn [fmap list_fmap concat]. f_equal. unfold cluster_bytes. rewrite H1.
  change (seqZ 0 1) with [0]. cbn [fmap list_fmap concat]. by rewrite app_nil_r, Z.add_0_r.
Qed.

(** What is left of the sectors once the part that fits the current one is copied. *)
Lemma take_sector (l l' : list Z) (m : Z) :
  length l = 512%nat -> 0 < m ->
  take (Z.to_nat (if 512 <=? m then 512 else m)) l ++ take (Z.to_nat (m - 512)) l' = take (Z.to_nat m) (l ++ l').
Proof.
  intros Hl Hm. rewrite take_app, Hl. destruct (Z.leb_spec 512 m).
  - rewrite !(take_ge l) by lia. do 2 f_equal. lia.
  - do 2 f_equal. lia.
Qed.

Lemma read_loop_done s fuel c max out : max <= Z.of_nat (length out) -> read_loop fuel c max out s = Ret (out, s).
Proof.
  intros Hm. destruct fuel; cbn [read_loop];
    (destruct (Z.ltb_spec (Z.of_nat (length out)) max); [lia|]); by rewrite andb_false_r.
Qed.

Lemma read_loop_ok s m c cs :
  bytes_ok s -> sectors_per_cluster (boot s) = 1 -> chain s m c cs -> forall fuel max out,
  max - Z.of_nat (length out) = m -> m <= 512 * Z.of_nat fuel ->
  read_loop fuel c max out s = Ret (out ++ take (Z.to_nat m) (contents s cs), s).
Proof.
  intros Hb H1 Hch. induction Hch as [m c Hm|m c Hc|m c cs Hm Hc Hst Hf Hd Hch IH]; intros fuel max out Hout Hfuel;
    rewrite ?H1, ?Z.mul_1_r in *;
    set (n := Z.of_nat (length out)) in *.
  - rewrite (Z2Nat.nonpos m), take_0, app_nil_r by lia.
    apply read_loop_done. lia.
  - change (contents s []) with (@nil Z). rewrite take_nil, app_nil_r.
    destruct fuel; cbn [read_loop]; by (destruct (Z.ltb_spec c 0xFF8); [lia|]).
  - destruct fuel as [|fuel]; [lia|]. cbn [read_loop]. fold n.
    destruct (Z.ltb_spec c 0xFF8), (Z.ltb_spec n max); simpl; [|lia..].
    rewrite (bind_run _ _ s s s) by done.
    assert (cluster_sector (boot s) c = data_sector s c) as ->.
    { unfold on_disk, data_sector in Hd. unfold cluster_sector, data_sector. apply u16_small. lia. }
    rewrite (bind_run _ _ _ _ _ (read_unchecked_ok s _ Hd)).
    rewrite (bind_run _ _ _ _ _ (next_cluster_ok s c Hb ltac:(lia) Hf Hst)).
    unfold SECTOR_SIZE.
    replace (if max <? n + 512 then max - n else 512) with (if 512 <=? m then 512 else m)
      by (destruct (Z.ltb_spec max (n + 512)), (Z.leb_spec 512 m); lia).
    rewrite contents_cons, <- (take_sector _ (contents s cs) m) by (done || apply sector_length || lia).
    destruct (Z.leb_spec 512 m).
    + rewrite IH by (rewrite ?length_app, ?length_take, ?sector_length; lia). by rewrite <- app_assoc.
    + rewrite read_loop_done by (rewrite length_app, length_take, sector_length; lia).
      by rewrite (Z2Nat.nonpos (m - 512)), take_0, app_nil_r by lia.
Qed.

(** ** Directories *)

Lemma search_entries_app t l1 l2 :
  search_entries t (l1 ++ l2) = match search_entries t l1 with Some f => Some f | None => search_entries t l2 end.
Proof. induction l1 as [|e l1 IH]; simpl; [done|]. by repeat case_if. Qed.

Lemma root_dir_range b : 0 <= root_dir_start b /\ 0 <= root_dir_sectors b.
Proof. split; apply u16_range. Qed.

Lemma table_cons s k n : 0 <= n ->
  table s k (n + 1) = entries_of (sector_of (disk s) (root_dir_start (boot s) + k)) :: table s (k + 1) n.
Proof.
  intros Hn. unfold table. rewrite seqZ_cons by lia. simpl.
  by rewrite <- Z.add_1_r, <- Z.sub_1_r, Z.add_simpl_r.
Qed.

Lemma search_dir_ok s checked t n k :
  0 <= k -> root_dir_start (boot s) + k + Z.of_nat n <= 2048 ->
  search_dir checked t (root_dir_start (boot s)) n k s =
    Ret (default Missing (search_entries t (concat (table s k (Z.of_nat n)))), s).
Proof.
  pose proof (root_dir_range (boot s)) as [Hr _].
  revert k. induction n as [|n IH]; intros k Hk Hn; cbn [search_dir]; [done|].
  rewrite (bind_run _ _ _ _ _ (read_sector_ok s (root_dir_start (boot s) + k) ltac:(unfold on_disk; lia))).
  rewrite Nat2Z.inj_succ, <- Z.add_1_r, table_cons by lia. cbn [concat]. rewrite search_entries_app.
  destruct (search_entries t (entries_of _)); [done|]. apply IH; lia.
Qed.

Lemma search_ok s checked t :
  root_on_disk s ->
  search checked t s =
    Ret (default Missing (search_entries t (concat (table s 0 (root_dir_sectors (boot s))))), s).
Proof.
  unfold root_on_disk. intros Hr. pose proof (root_dir_range (boot s)) as [Hs Hn].
  unfold search. rewrite (bind_run _ _ s s s) by done. rewrite search_dir_ok by lia. by rewrite Z2Nat.id.
Qed.

(** A byte is never read as [0xE5]: entries that are marked as deleted are searched as
    well. *)
Lemma schar_E5 b : 0 <= b < 256 -> (schar b =? 0xE5) = false.
Proof. intros Hb. unfold schar. apply Z.eqb_neq. case_if; bools; lia. Qed.

Lemma schar_zero b : 0 <= b < 256 -> (schar b =? 0) = (b =? 0).
Proof. intros Hb. unfold schar. case_if; bools; [done|]. destruct (Z.eqb_spec b 0), (Z.eqb_spec (b - 256) 0); lia. Qed.

Definition entry_ok (e : dir_entry) : Prop := length (e_name e) = 11%nat /\ Forall (fun b => 0 <= b < 256) (e_name e).

Lemma byte_range l i : Forall (fun b => 0 <= b < 256) l -> 0 <= byte l i < 256.
Proof.
  intros Hl. unfold byte. rewrite list_lookup_total_alt.
  destruct (l !! Z.to_nat i) as [b|] eqn:E; [exact (Forall_lookup_1 _ _ _ _ Hl E)|done].
Qed.

Lemma live_search t l :
  Forall entry_ok l ->
  search_entries t l =
    match filter (fun e => t e = true) (live l) with
    | e :: _ => Some (Entry e)
    | [] => if forallb in_use l then None else Some End
    end.
Proof.
  induction 1 as [|e l [He1 He2] Hl IH]; [done|]. cbn [search_entries live forallb].
  pose proof (byte_range _ 0 He2) as Hr. rewrite schar_zero, schar_E5 by done.
  replace (byte (e_name e) 0 =? 0) with (negb (in_use e)) by apply negb_involutive.
  destruct (in_use e); simpl; [|done]. rewrite filter_cons. by destruct (t e); case_decide.
Qed.

Lemma bytes_sector s k i n :
  bytes_ok s -> Forall (fun b => 0 <= b < 256) (bytes (sector_of (disk s) k) i n).
Proof.
  intros Hb. unfold bytes. apply Forall_take, Forall_drop, Forall_fmap, Forall_true. intros i'. apply Hb.
Qed.

Lemma entries_ok s k : bytes_ok s -> Forall entry_ok (entries_of (sector_of (disk s) k)).
Proof.
  intros Hb. apply Forall_fmap, Forall_forall. intros i Hi%elem_of_seqZ. unfold entry_ok; simpl.
  split; [|by apply Forall_take, Forall_drop, bytes_sector].
  unfold bytes. rewrite length_take, drop_0, length_take, length_drop, sector_length. lia.
Qed.

Lemma table_ok s k n : bytes_ok s -> Forall entry_ok (concat (table s k n)).
Proof.
  intros Hb. unfold table. induction (seqZ k n) as [|i l IH]; [done|].
  rewrite fmap_cons. cbn [concat]. rewrite Forall_app. split; [by apply entries_ok|done].
Qed.

Lemma live_sub l : live l ⊆ l.
Proof. induction l as [|e l IH]; simpl; [done|]. destruct (in_use e); [by apply list_subseteq_skip|apply list_subseteq_nil]. Qed.

Lemma directory_ok s : bytes_ok s -> Forall entry_ok (directory s).
Proof.
  intros Hb. pose proof (table_ok s 0 (root_dir_sectors (boot s)) Hb) as Ht.
  rewrite !Forall_forall in *. intros e He. apply Ht. by apply live_sub.
Qed.

(** A search by name finds the first entry of that name. *)
Lemma search_name s checked t name :
  bytes_ok s -> root_on_disk s ->
  (forall e, entry_ok e -> t e = bool_decide (e_name e = name)) ->
  exists r, search checked t s = Ret (r, s) /\
    match filter (fun e => e_name e = name) (directory s) with
    | e :: _ => r = Entry e
    | [] => r = End \/ r = Missing
    end.
Proof.
  intros Hb Hr Ht. rewrite search_ok by done. eexists; split; [done|].
  rewrite live_search by (by apply table_ok). fold (directory s).
  assert (filter (fun e => t e = true) (directory s) = filter (fun e => e_name e = name) (directory s)) as ->.
  { pose proof (directory_ok s Hb) as Hd. induction Hd as [|e l He Hl IH]; [done|].
    rewrite !filter_cons, IH. by repeat case_decide; rewrite Ht in * by done; case_bool_decide. }
  destruct (filter _ _); simpl; [|done]. destruct (forallb _ _); auto.
Qed.

Lemma strncmp_eq_exact a b :
  length a = length b -> Forall (fun c => c <> 0) b -> strncmp_eq (length a) a b = bool_decide (a = b).
Proof.
  intros Hl Hb. revert a Hl. induction Hb as [|y b Hy Hb IH]; intros [|x a] Hl; simplify_eq/=; [done|].
  destruct (Z.eqb_spec x y) as [->|Hne]; simpl; [|case_bool_decide; congruence].
  destruct (Z.eqb_spec y 0); [done|]. rewrite IH by done.
  repeat case_bool_decide; congruence.
Qed.

(** ** Names *)

(** A character of a name on disk. *)
Definition name_char (c : Z) : Prop := c <> DOT /\ c <> SPACE.

Definition padded (n : nat) (l : list Z) : list Z := l ++ replicate (n - length l) SPACE.

(** An entry whose name is a base of at most eight characters and an extension of at
    most three. *)
Definition proper (name : list Z) : Prop :=
  exists base ext, name = padded 8 base ++ padded 3 ext /\ (length base <= 8)%nat /\ (length ext <= 3)%nat /\
    Forall name_char base /\ Forall name_char ext.

Lemma copy_base_ok base rest n :
  Forall name_char base -> (length base <= n)%nat -> match rest with [] => True | c :: _ => c = DOT end ->
  copy_base n (base ++ rest) = (base, rest).
Proof.
  intros Hb. revert n. induction Hb as [|c base [Hc _] Hb IH]; intros n Hn Hr; simpl in *.
  - destruct n, rest; try done. subst. done.
  - destruct n as [|n]; [lia|]. simpl. apply Z.eqb_neq in Hc. rewrite Hc, IH by (done || lia). done.
Qed.

Lemma until_space_ok l n : Forall name_char l -> until_space (l ++ replicate n SPACE) = l.
Proof.
  induction 1 as [|c l [_ Hc] Hl IH]; simpl; [by destruct n|].
  apply Z.eqb_neq in Hc. by rewrite Hc, IH.
Qed.

Lemma from_83_ok base ext :
  (length base <= 8)%nat -> (length ext <= 3)%nat -> Forall name_char base -> Forall name_char ext ->
  from_83 (padded 8 base ++ padded 3 ext) = base ++ match ext with [] => [] | _ => DOT :: ext end.
Proof.
  intros Hb He Fb Fe.
  assert (length (padded 8 base) = 8%nat) as Hl by (unfold padded; rewrite length_app, length_replicate; lia).
  unfold from_83, byte, bytes. rewrite take_app_length' by done. unfold padded at 1. rewrite until_space_ok by done.
  f_equal. rewrite (lookup_total_app_r (padded 8 base)) by (rewrite Hl; lia).
  rewrite drop_app_length', Hl by done. unfold padded.
  destruct Fe as [|c ext Hc Fe]; [done|]. simpl in *.
  destruct Hc as [Hd Hs]. apply Z.eqb_neq in Hs. rewrite Hs. simpl. do 2 f_equal.
  rewrite take_ge by (rewrite length_app, length_replicate; lia).
  by apply until_space_ok.
Qed.

Lemma to_83_from_83 name : proper name -> to_83 (from_83 name) = name.
Proof.
  intros (base & ext & -> & Hb & He & Fb & Fe). rewrite from_83_ok by done.
  unfold to_83. rewrite copy_base_ok by (done || by destruct ext). unfold padded. rewrite <- app_assoc.
  destruct ext as [|c ext]; [done|]. cbn [skip_to_dot]. rewrite Z.eqb_refl. by rewrite take_ge.
Qed.

(** ** Listing *)

(** No entry in use follows an unused one. *)
Definition tidy (l : list dir_entry) : Prop := Forall (fun e => in_use e = false) (drop (length (live l)) l).

Lemma live_unused l : Forall (fun e => in_use e = false) l -> live l = [].
Proof. intros [|e l' He Hl]; simpl; [done|]. by rewrite He. Qed.

Lemma live_app l1 l2 : tidy (l1 ++ l2) -> live (l1 ++ l2) = live l1 ++ live l2 /\ tidy l2.
Proof.
  unfold tidy. induction l1 as [|e l1 IH]; simpl; [done|]. destruct (in_use e); simpl.
  - intros [-> Ht]%IH. done.
  - intros Ht. inversion_clear Ht as [|? ? _ Hl]. apply Forall_app in Hl as [_ Hl].
    rewrite live_unused by done. split; [done|]. by apply Forall_drop.
Qed.

Lemma live_concat ls : tidy (concat ls) -> live (concat ls) = concat (live <$> ls).
Proof. induction ls as [|l ls IH]; simpl; [done|]. intros [-> Ht]%live_app. by rewrite IH. Qed.

Lemma list_entries_ok l room : Forall entry_ok l -> list_entries l room = show <$> take room (live l).
Proof.
  intros Hl. revert room. induction Hl as [|e l [_ He] Hl IH]; intros room; simpl; [by rewrite take_nil|].
  destruct room as [|room]; [done|]. pose proof (byte_range _ 0 He) as Hr. rewrite schar_zero, schar_E5 by done.
  unfold in_use. destruct (byte (e_name e) 0 =? 0); simpl; [done|]. by rewrite IH.
Qed.

Lemma list_dir_ok s n k max out :
  bytes_ok s -> 0 <= k -> root_dir_start (boot s) + k + Z.of_nat n <= 2048 -> (length out <= max)%nat ->
  list_dir (root_dir_start (boot s)) n k max out s =
    Ret (Some (out ++ (show <$> take (max - length out) (concat (live <$> table s k (Z.of_nat n))))), s).
Proof.
  intros Hb. pose proof (root_dir_range (boot s)) as [Hr _]. revert k out.
  induction n as [|n IH]; intros k out Hk Hn Ho; cbn [list_dir].
  { unfold table. simpl. by rewrite take_nil, app_nil_r. }
  case_bool_decide as Hlt.
  - rewrite (bind_run _ _ _ _ _ (read_sector_ok s (root_dir_start (boot s) + k) ltac:(unfold on_disk; lia))).
    rewrite list_entries_ok by (by apply entries_ok).
    rewrite Nat2Z.inj_succ, <- Z.add_1_r, table_cons, fmap_cons by lia. cbn [concat].
    set (l := live (entries_of _)).
    rewrite IH by (try rewrite length_app, length_fmap, length_take; lia).
    rewrite <- app_assoc, <- fmap_app. do 5 f_equal. rewrite take_app. do 2 f_equal.
    rewrite length_app, length_fmap, length_take. lia.
  - replace (max - length out)%nat with 0%nat by lia. by rewrite take_0, app_nil_r.
Qed.

Lemma list_root_ok s max :
  bytes_ok s -> root_on_disk s -> 0 <= max -> tidy (concat (table s 0 (root_dir_sectors (boot s)))) ->
  let files := show <$> take (Z.to_nat max) (directory s) in
  fat12_list_directory (Some [SLASH]) max s = Ret ((Z.of_nat (length files), files), s).
Proof.
  intros Hb Hr Hm Ht files. unfold fat12_list_directory. simpl.
  rewrite (bind_run _ _ s s s) by done. unfold root_on_disk in Hr.
  pose proof (root_dir_range (boot s)) as [Hs Hn].
  rewrite (bind_run _ _ _ _ _ (list_dir_ok s (Z.to_nat (root_dir_sectors (boot s))) 0 (Z.to_nat max) []
    Hb ltac:(lia) ltac:(lia) ltac:(simpl; lia))).
  rewrite Z2Nat.id, <- live_concat by done. simpl. by rewrite Nat.sub_0_r.
Qed.

(** Of entries with distinct names only one has a given name. *)
Lemma filter_name l e : NoDup (e_name <$> l) -> e ∈ l -> filter (fun e' => e_name e' = e_name e) l = [e].
Proof.
  induction l as [|x l IH]; [by intros _ []%not_elem_of_nil|].
  rewrite filter_cons, fmap_cons. intros [Hx Hu]%NoDup_cons Hin. apply elem_of_cons in Hin as [->|Hin].
  - case_decide; [|done]. f_equal. destruct (filter _ l) as [|y k] eqn:E; [done|].
    assert (y ∈ y :: k) as Hy by left. rewrite <- E in Hy. apply list_elem_of_filter in Hy as [Ey Hy].
    destruct Hx. rewrite <- Ey. by apply list_elem_of_fmap_2.
  - case_decide as Hd; [|by apply IH]. destruct Hx. rewrite Hd. by apply list_elem_of_fmap_2.
Qed.

(** ** The properties *)

(** Next cluster: for a cluster whose FAT sector can be read, the code computes the
    12-bit entry of the FAT that the format defines, unless the entry lies across the end
    of the sector (the first is that of cluster 341): then it reads behind its buffer. *)
Theorem next_cluster_exact s c :
  bytes_ok s -> 0 <= c < 4096 -> on_disk (fat_sector s c) ->
  (~ straddles c -> next_cluster c s = Ret (fat_entry s c, s)) /\
  (straddles c -> next_cluster c s = Fault).
Proof. intros. split; [by apply next_cluster_ok|by apply next_cluster_straddling]. Qed.

(** Deleted entries: an entry whose first byte is 0xE5, the mark of a deleted file, is
    still listed and its name still found, because the code compares a signed [char] with
    0xE5. *)
Theorem fat12_deleted_files_listed s max e :
  bytes_ok s -> root_on_disk s -> tidy (concat (table s 0 (root_dir_sectors (boot s)))) ->
  Z.of_nat (length (directory s)) <= max ->
  e ∈ directory s -> byte (e_name e) 0 = 0xE5 -> proper (e_name e) ->
  exists files, fat12_list_directory (Some [SLASH]) max s = Ret ((Z.of_nat (length files), files), s) /\
    show e ∈ files /\ fat12_file_exists (f_name (show e)) s = Ret (1, s).
Proof.
  intros Hb Hr Ht Hm He _ Hp. eexists. split; [apply list_root_ok; (done || lia)|]. split.
  { rewrite take_ge by lia. by apply list_elem_of_fmap_2. }
  destruct (search_name s true (fun e' => bool_decide (e_name e' = to_83 (f_name (show e)))) (e_name e) Hb Hr)
    as (r & E & Hs).
  { intros e' _. simpl. by rewrite to_83_from_83. }
  assert (e ∈ filter (fun e' => e_name e' = e_name e) (directory s)) as Hf by (by apply list_elem_of_filter).
  destruct (filter _ _) as [|e' l]; [by apply not_elem_of_nil in Hf|]. subst r.
  unfold fat12_file_exists. by rewrite (bind_run _ _ _ _ _ E).
Qed.

Lemma files_named s name : byte name 0 <> 0xE5 ->
  filter (fun e => e_name e = name) (files s) = filter (fun e => e_name e = name) (directory s).
Proof.
  intros Hn. unfold files. induction (directory s) as [|e l IH]; [done|]. rewrite filter_cons.
  case_decide as Hd; rewrite !filter_cons; [by rewrite IH|]. case_decide as He; [|done].
  exfalso. apply Hd. unfold deleted. rewrite He. by apply Z.eqb_neq.
Qed.

(** C25. Reading a file on a volume with one sector per cluster: [fat12_read_file] of an
    11-character name that does not begin with the mark 0xE5 finds the first file of that
    name in the root directory, before its end marker and not deleted, and returns -1 when
    there is none. When the clusters that hold the wanted bytes form a chain of the FAT on
    the disk, none of whose entries straddles two sectors, the buffer receives the
    clusters of the chain in order, cut to the size of the file and of the buffer, and the
    answer is the number of bytes copied: the loop ends, and it writes no more than the
    buffer holds. (With more sectors per cluster the code copies only the first of each;
    asked for a name with the mark, it finds deleted files.) *)
Theorem fat12_read_file_exact s name size :
  bytes_ok s -> root_on_disk s -> sectors_per_cluster (boot s) = 1 ->
  length name = 11%nat -> Forall (fun c => c <> 0) name -> byte name 0 <> 0xE5 ->
  match filter (fun e => e_name e = name) (files s) with
  | [] => fat12_read_file name size s = Ret ((-1, []), s)
  | e :: _ =>
      forall cs, chain s (Z.min (to_int (file_size e)) size) (first_cluster_low e) cs ->
      let data := take (Z.to_nat (Z.min (to_int (file_size e)) size)) (contents s cs) in
      fat12_read_file name size s = Ret ((Z.of_nat (length data), data), s)
  end.
Proof.
  intros Hb Hr H1 Hl Hz Hdel. rewrite files_named by done. unfold fat12_read_file.
  destruct (search_name s false (fun e => strncmp_eq 11 (e_name e) name) name Hb Hr) as (r & E & Hs).
  { intros e [He _]. rewrite <- He at 1. apply strncmp_eq_exact; congruence. }
  rewrite (bind_run _ _ _ _ _ E).
  destruct (filter _ _) as [|e l]; [by destruct Hs as [->| ->]|].
  subst r. intros cs Hch. cbv zeta.
  replace (if to_int (file_size e) <? size then to_int (file_size e) else size)
    with (Z.min (to_int (file_size e)) size) by (case_if; bools; lia).
  set (max := Z.min _ _) in *.
  rewrite (bind_run _ _ _ _ _ (read_loop_ok s _ _ cs Hb H1 Hch (S (Z.to_nat (max / 512))) max [] ltac:(simpl; lia) ltac:(lia))).
  done.
Qed.

(** Listing and looking up agree: in a root directory with proper, distinct 8.3 names,
    where no entry follows the end marker, [fat12_list_directory] returns its entries in
    order, as many as the caller has room for, and for the name it shows of each of them
    [fat12_file_exists] answers 1 and [fat12_get_file_size] its size. *)
Theorem fat12_listed_files_exist s max :
  bytes_ok s -> root_on_disk s -> 0 <= max -> tidy (concat (table s 0 (root_dir_sectors (boot s)))) ->
  Forall (fun e => proper (e_name e)) (directory s) -> NoDup (e_name <$> directory s) ->
  exists files, fat12_list_directory (Some [SLASH]) max s = Ret ((Z.of_nat (length files), files), s) /\
    files = show <$> take (Z.to_nat max) (directory s) /\
    forall f, f ∈ files ->
      fat12_file_exists (f_name f) s = Ret (1, s) /\ fat12_get_file_size (f_name f) s = Ret (to_int (f_size f), s).
Proof.
  intros Hb Hr Hm Ht Hp Hu. eexists. split; [by apply list_root_ok|]. split; [done|].
  intros f (e & -> & He)%list_elem_of_fmap. apply elem_of_take in He as (i & Hi & _).
  assert (e ∈ directory s) as Hin by (by eapply list_elem_of_lookup_2).
  rewrite Forall_forall in Hp. pose proof (to_83_from_83 _ (Hp e Hin)) as E83.
  assert (filter (fun e' => e_name e' = e_name e) (directory s) = [e]) as Ef.
  { by apply filter_name. }
  destruct (search_name s true (fun e' => bool_decide (e_name e' = to_83 (f_name (show e)))) (e_name e) Hb Hr)
    as (r & E & Hs).
  { intros e' _. simpl. by rewrite E83. }
  rewrite Ef in Hs. subst r.
  split; [unfold fat12_file_exists|unfold fat12_get_file_size]; by rewrite (bind_run _ _ _ _ _ E).
Qed.

(** ** The sample disk *)

Local Ltac by_dec := refine (bool_decide_unpack _ _); vm_compute; exact I.

(** A disk with one byte changed. *)
Definition patched (a x : Z) : fat :=
  mk_fat (parse_boot (sector_of disk_image 0)) (fun i => if i =? a then x else disk_image i).
Definition sample : fat := mk_fat (parse_boot (sector_of disk_image 0)) disk_image.

Lemma sample_bytes : bytes_ok sample.
Proof.
  intros a. change (0 <= disk_image a < 256). unfold disk_image.
  match goal with |- context [list_find ?P ?l] => destruct (list_find P l) as [[i [o l']]|] eqn:E end; [|done].
  apply list_find_Some in E as [Hi _]. apply byte_range.
  assert (Forall (fun p => Forall (fun b => 0 <= b < 256) p.2) sample_pieces) as Hf.
  { by_dec. }
  exact (Forall_lookup_1 _ _ _ _ Hf Hi).
Qed.

Lemma patched_bytes a x : 0 <= x < 256 -> bytes_ok (patched a x).
Proof. intros Hx i. simpl. destruct (i =? a); [done|apply (sample_bytes i)]. Qed.

(** A name is proper if it is its two parts padded. *)
Lemma proper_parts name :
  let base := until_space (take 8 name) in
  let ext := until_space (drop 8 name) in
  name = padded 8 base ++ padded 3 ext -> (length base <= 8)%nat -> (length ext <= 3)%nat ->
  forallb (fun c => negb (c =? DOT) && negb (c =? SPACE)) (base ++ ext) = true -> proper name.
Proof.
  intros base ext E Hb He Hf. exists base, ext.
  assert (Forall name_char (base ++ ext)) as [Fb Fe]%Forall_app; [|done].
  apply Forall_forall. intros c Hc. apply list_elem_of_In in Hc.
  rewrite forallb_forall in Hf. apply Hf in Hc. apply andb_true_iff in Hc as [H1 H2].
  apply negb_true_iff, Z.eqb_neq in H1, H2. done.
Qed.

Lemma next_cluster_exact_witness :
  (~ straddles 3 -> next_cluster 3 sample = Ret (fat_entry sample 3, sample)) /\
  (straddles 341 -> next_cluster 341 sample = Fault) /\ straddles 341 /\ ~ straddles 3.
Proof.
  split; [|split; [|split; [reflexivity|vm_compute; discriminate]]].
  - apply (next_cluster_exact sample 3 sample_bytes); [lia|vm_compute; split; [discriminate|reflexivity]].
  - apply (next_cluster_exact sample 341 sample_bytes); [lia|vm_compute; split; [discriminate|reflexivity]].
Defined.

Lemma fat12_read_file_exact_witness :
  match fat12_read_file (string_bytes "KERNEL  BIN") 1000 sample with
  | Ret ((n, data), _) => n = 512 /\ data = replicate 512 0xAA
  | _ => False
  end.
Proof.
  pose proof (fat12_read_file_exact sample (string_bytes "KERNEL  BIN") 1000 sample_bytes) as H.
  specialize (H ltac:(vm_compute; discriminate) ltac:(reflexivity) ltac:(reflexivity)).
  specialize (H ltac:(by_dec) ltac:(vm_compute; discriminate)).
  assert (exists l e, filter (fun e => e_name e = string_bytes "KERNEL  BIN") (files sample) = e :: l /\
    file_size e = 512 /\ first_cluster_low e = 3) as (l & e & Ef & Es & Ec).
  { eexists _, _. split; [vm_compute; reflexivity|split; reflexivity]. }
  rewrite Ef in H. rewrite Es, Ec in H.
  rewrite (H [3]).
  - vm_compute. split; reflexivity.
  - apply chain_next; [reflexivity|lia|vm_compute; discriminate| | |apply chain_full; vm_compute; discriminate];
      (vm_compute; split; [discriminate|reflexivity]).
Defined.

Lemma fat12_listed_files_exist_witness :
  exists files, fat12_list_directory (Some [SLASH]) 10 sample = Ret ((Z.of_nat (length files), files), sample) /\
    length files = 4%nat /\
    forall f, f ∈ files -> fat12_file_exists (f_name f) sample = Ret (1, sample).
Proof.
  destruct (fat12_listed_files_exist sample 10 sample_bytes) as (files & El & Ef & Hf).
  - vm_compute. discriminate.
  - lia.
  - by_dec.
  - assert (exists d, directory sample = d /\ Forall (fun e => proper (e_name e)) d) as (d & -> & Hd); [|exact Hd].
    eexists. split; [vm_compute; reflexivity|].
    repeat (apply Forall_cons; split; [apply proper_parts; vm_compute; (reflexivity || lia)|]). apply Forall_nil. exact I.
  - by_dec.
  - exists files. split; [exact El|]. split; [rewrite Ef; vm_compute; reflexivity|]. intros f Hin. apply (Hf f Hin).
Defined.

Lemma fat12_deleted_files_listed_witness :
  exists e files, byte (e_name e) 0 = 0xE5 /\
    fat12_list_directory (Some [SLASH]) 10 (patched (19 * 512) 0xE5) =
      Ret ((Z.of_nat (length files), files), patched (19 * 512) 0xE5) /\ show e ∈ files.
Proof.
  assert (exists e l, directory (patched (19 * 512) 0xE5) = e :: l /\ byte (e_name e) 0 = 0xE5 /\
    proper (e_name e) /\ Z.of_nat (length (e :: l)) <= 10) as (e & l & Ed & Eb & Hp & Hl).
  { eexists _, _. split; [vm_compute; reflexivity|]. split; [reflexivity|].
    split; [apply proper_parts; vm_compute; (reflexivity || lia)|vm_compute; discriminate]. }
  exists e.
  destruct (fat12_deleted_files_listed (patched (19 * 512) 0xE5) 10 e) as (files & El & Ef & _).
  - apply patched_bytes. lia.
  - vm_compute. discriminate.
  - by_dec.
  - rewrite Ed. exact Hl.
  - rewrite Ed. left.
  - exact Eb.
  - exact Hp.
  - exists files. split; [exact Eb|]. split; [exact El|exact Ef].
Defined.

End Fat12Thms.
