(* ===== verification/Heap.v ===== *)
(** * The kernel heap ([memory/heap.c])

    Blocks with headers and footers in memory, a doubly-linked list of all blocks, and
    free lists in eleven bins by size. Addresses are integers; memory is what the code
    stores in it as structures: headers, footers and page counts, each under its
    address. Filling memory with a pattern turns the structures inside the range into
    structures made of the pattern, and removes those it cuts; reading where no
    structure is, is a [Fault]. The contents of allocated areas are not modelled.

    [heap.h] does not declare [heap_t]; its size is an argument of [heap_create]. The
    answers of the page allocator are arguments. A walk along pointers has as fuel the
    number of headers in memory: a longer walk visits a header twice, and as it changes
    nothing it never ends ([Spin]). *)

From Stdlib Require Import ZArith Lia.
From stdpp Require Import base tactics option list gmap.
From S2P Require Import Prelude.

Set Default Goal Selector "!".
Local Open Scope Z_scope.
Local Open Scope kernel_scope.

Module Heap.

Definition HEAP_MAGIC : Z := 0xC0DEABA.
Definition HEAP_MIN_SIZE : Z := 4096.
Definition HEAP_ALIGN : Z := 16.
Definition HEAP_MAX_BINS : Z := 11.
Definition HEAP_BLOCK_FREE : Z := 0.
Definition HEAP_BLOCK_USED : Z := 1.
Definition HEAP_CANARY_VALUE : Z := 0xFEEDFACE.
Definition POISON_PATTERN : Z := 0xDE.
Definition PAGE_SIZE : Z := 4096.
Definition PAGE_FLAG_PRESENT : Z := 1.
(** [sizeof(block_header_t)] and [sizeof(block_footer_t)] with 4-byte pointers *)
Definition HDR : Z := 40.
Definition FTR : Z := 16.

(** ** Data *)

(** [block_header_t]; a pointer is the address of a header, 0 is NULL. *)
Record block_header : Type := mk_header {
  magic : Z;
  size : Z;
  status : Z;
  prev : Z;
  next : Z;
  next_free : Z;
  prev_free : Z;
  canary : Z;
}.

Definition set_size (x : Z) (h : block_header) : block_header :=
  mk_header (magic h) x (status h) (prev h) (next h) (next_free h) (prev_free h) (canary h).
Definition set_status (x : Z) (h : block_header) : block_header :=
  mk_header (magic h) (size h) x (prev h) (next h) (next_free h) (prev_free h) (canary h).
Definition set_prev (x : Z) (h : block_header) : block_header :=
  mk_header (magic h) (size h) (status h) x (next h) (next_free h) (prev_free h) (canary h).
Definition set_next (x : Z) (h : block_header) : block_header :=
  mk_header (magic h) (size h) (status h) (prev h) x (next_free h) (prev_free h) (canary h).
Definition set_next_free (x : Z) (h : block_header) : block_header :=
  mk_header (magic h) (size h) (status h) (prev h) (next h) x (prev_free h) (canary h).
Definition set_prev_free (x : Z) (h : block_header) : block_header :=
  mk_header (magic h) (size h) (status h) (prev h) (next h) (next_free h) x (canary h).

(** [block_footer_t] *)
Record block_footer : Type := mk_footer {
  f_magic : Z;
  f_header_ptr : Z;
  f_size : Z;
  f_canary : Z;
}.

(** [heap_stats_t] of [heap.c]: counters of type [uint32_t]. *)
Record heap_stats : Type := mk_stats {
  total_allocations : Z;
  total_frees : Z;
  current_allocations : Z;
  allocated_bytes : Z;
  free_bytes : Z;
  total_size : Z;
  fragmentation_count : Z;
  stat_errors : Z;
  largest_allocation : Z;
  smallest_allocation : Z;
}.

Definition set_free_bytes (x : Z) (t : heap_stats) : heap_stats :=
  mk_stats (total_allocations t) (total_frees t) (current_allocations t) (allocated_bytes t) x
    (total_size t) (fragmentation_count t) (stat_errors t) (largest_allocation t)
    (smallest_allocation t).
Definition set_fragmentation_count (x : Z) (t : heap_stats) : heap_stats :=
  mk_stats (total_allocations t) (total_frees t) (current_allocations t) (allocated_bytes t)
    (free_bytes t) (total_size t) x (stat_errors t) (largest_allocation t) (smallest_allocation t).
Definition set_stat_errors (x : Z) (t : heap_stats) : heap_stats :=
  mk_stats (total_allocations t) (total_frees t) (current_allocations t) (allocated_bytes t)
    (free_bytes t) (total_size t) (fragmentation_count t) x (largest_allocation t)
    (smallest_allocation t).

(** Calls into [paging.c]. *)
Inductive event : Type :=
| AllocatePages (n answer : Z)
| FreePages (a n : Z)
| UpdateFlags (a flags : Z).

(** The members of [heap_t] that [heap.c] uses, the static [heap_stats], and memory:
    the headers and footers written, the page counts stored before guarded areas, and
    the calls into the page allocator, latest first. *)
Record heap : Type := mk_heap {
  h_start : Z;
  h_end : Z;
  max_size : Z;
  current_size : Z;
  error_count : Z;
  bins : list Z;
  stats : heap_stats;
  headers : gmap Z block_header;
  footers : gmap Z block_footer;
  words : gmap Z Z;
  events : list event;
}.

Definition set_h_end (x : Z) (s : heap) : heap :=
  mk_heap (h_start s) x (max_size s) (current_size s) (error_count s) (bins s) (stats s)
    (headers s) (footers s) (words s) (events s).
Definition set_current_size (x : Z) (s : heap) : heap :=
  mk_heap (h_start s) (h_end s) (max_size s) x (error_count s) (bins s) (stats s) (headers s)
    (footers s) (words s) (events s).
Definition set_error_count (x : Z) (s : heap) : heap :=
  mk_heap (h_start s) (h_end s) (max_size s) (current_size s) x (bins s) (stats s) (headers s)
    (footers s) (words s) (events s).
Definition set_bins (x : list Z) (s : heap) : heap :=
  mk_heap (h_start s) (h_end s) (max_size s) (current_size s) (error_count s) x (stats s)
    (headers s) (footers s) (words s) (events s).
Definition set_stats (x : heap_stats) (s : heap) : heap :=
  mk_heap (h_start s) (h_end s) (max_size s) (current_size s) (error_count s) (bins s) x
    (headers s) (footers s) (words s) (events s).
Definition set_headers (x : gmap Z block_header) (s : heap) : heap :=
  mk_heap (h_start s) (h_end s) (max_size s) (current_size s) (error_count s) (bins s) (stats s) x
    (footers s) (words s) (events s).
Definition set_footers (x : gmap Z block_footer) (s : heap) : heap :=
  mk_heap (h_start s) (h_end s) (max_size s) (current_size s) (error_count s) (bins s) (stats s)
    (headers s) x (words s) (events s).
Definition set_words (x : gmap Z Z) (s : heap) : heap :=
  mk_heap (h_start s) (h_end s) (max_size s) (current_size s) (error_count s) (bins s) (stats s)
    (headers s) (footers s) x (events s).
Definition set_events (x : list event) (s : heap) : heap :=
  mk_heap (h_start s) (h_end s) (max_size s) (current_size s) (error_count s) (bins s) (stats s)
    (headers s) (footers s) (words s) x.

(** ** Memory *)

Definition read_header (a : Z) : M heap block_header := s <- get ;; deref (headers s !! a).
Definition upd_header (a : Z) (f : block_header -> block_header) : M heap unit :=
  s <- get ;; h <- deref (headers s !! a) ;; put (set_headers (<[a := f h]> (headers s)) s).
Definition write_header (a : Z) (h : block_header) : M heap unit :=
  modify (fun s => set_headers (<[a := h]> (headers s)) s).

(** [HEADER_TO_FOOTER] for a block of size [n] at [a], and the footer the code stores. *)
Definition footer_of (a n : Z) : Z := a + n - FTR.
Definition write_footer (a n : Z) : M heap unit :=
  modify (fun s => set_footers (<[footer_of a n := mk_footer HEAP_MAGIC a n HEAP_CANARY_VALUE]> (footers s)) s).

(** A 32-bit word of the pattern, and a structure at [a] of size [n] inside, outside
    or across the range from [lo] to [hi]. *)
Definition word_of (pat : Z) : Z := pat + 256 * (pat + 256 * (pat + 256 * pat)).
Definition fill {A} (lo hi n : Z) (x : A) (a : Z) (y : A) : option A :=
  if (hi <=? a) || (a + n <=? lo) then Some y
  else if (lo <=? a) && (a + n <=? hi) then Some x
  else None.

(** [memset(lo, pat, n)] *)
Definition memset (lo pat n : Z) : M heap unit :=
  let w := word_of pat in
  modify (fun s =>
    set_words (map_imap (fill lo (lo + n) 4 w) (words s))
      (set_footers (map_imap (fill lo (lo + n) FTR (mk_footer w w w w)) (footers s))
        (set_headers (map_imap (fill lo (lo + n) HDR (mk_header w w pat w w w w w)) (headers s)) s))).

(** [memcpy] of application data: structures in the range are gone. *)
Definition overwrite (lo n : Z) : M heap unit :=
  modify (fun s =>
    set_words (map_imap (fun a w => if (lo + n <=? a) || (a + 4 <=? lo) then Some w else None) (words s))
      (set_footers (map_imap (fun a w => if (lo + n <=? a) || (a + FTR <=? lo) then Some w else None) (footers s))
        (set_headers (map_imap (fun a w => if (lo + n <=? a) || (a + HDR <=? lo) then Some w else None) (headers s)) s))).

Definition get_bin (b : Z) : M heap Z := s <- get ;; deref (arr_get (bins s) b).
Definition set_bin (b a : Z) : M heap unit :=
  s <- get ;; l <- deref (arr_set (bins s) b a) ;; put (set_bins l s).
Definition on_stats (f : heap_stats -> heap_stats) : M heap unit := modify (fun s => set_stats (f (stats s)) s).
Definition log_event (e : event) : M heap unit := modify (fun s => set_events (e :: events s) s).

(** ** Bins *)

(** [while (size > 16) { size >>= 1; bin++; }]; a 32-bit size takes at most 28 rounds. *)
Fixpoint bin_loop (fuel : nat) (size bin : Z) : Z :=
  match fuel with
  | O => bin
  | S f => if 16 <? size then bin_loop f (Z.shiftr size 1) (bin + 1) else bin
  end.

Definition get_bin_for_size (size : Z) : Z :=
  if size <=? 16 then 0
  else
    let bin := bin_loop 28 (size - 1) 0 in
    if bin <? HEAP_MAX_BINS then bin else HEAP_MAX_BINS - 1.

(** [size - sizeof(block_header_t) - sizeof(block_footer_t)] in 32 bits. *)
Definition usable (size : Z) : Z := u32 (size - HDR - FTR).

(** The bin of a block, with the check that never applies. *)
Definition bin_of (size : Z) : Z :=
  let bin := get_bin_for_size (usable size) in
  if HEAP_MAX_BINS <=? bin then HEAP_MAX_BINS - 1 else bin.

(** The first block from [current] on, along the free list, that is large enough. *)
Fixpoint search_bin (fuel : nat) (current want : Z) : M heap Z :=
  if current =? 0 then ret 0
  else
    match fuel with
    | O => spin
    | S f =>
        h <- read_header current ;;
        if want <=? usable (size h) then ret current
        else search_bin f (next_free h) want
    end.

(** The bins from [i] on, [n] of them. *)
Fixpoint search_bins (n : nat) (i size : Z) : M heap Z :=
  match n with
  | O => ret 0
  | S n' =>
      s <- get ;;
      current <- get_bin i ;;
      found <- search_bin (S (map_size (headers s))) current size ;;
      if found =? 0 then search_bins n' (i + 1) size else ret found
  end.

Definition find_free_block (size : Z) : M heap Z :=
  let bin := get_bin_for_size size in
  search_bins (Z.to_nat (HEAP_MAX_BINS - bin)) bin size.

Definition remove_from_free_list (block : Z) : M heap unit :=
  h <- read_header block ;;
  let bin := bin_of (size h) in
  (if negb (prev_free h =? 0) then upd_header (prev_free h) (set_next_free (next_free h))
   else set_bin bin (next_free h)) ;;;
  h <- read_header block ;;
  (if negb (next_free h =? 0) then upd_header (next_free h) (set_prev_free (prev_free h)) else ret tt) ;;;
  upd_header block (fun h => set_prev_free 0 (set_next_free 0 h)).

Definition add_to_free_list (block : Z) : M heap unit :=
  h <- read_header block ;;
  let bin := bin_of (size h) in
  old <- get_bin bin ;;
  upd_header block (fun h => set_prev_free 0 (set_next_free old h)) ;;;
  (if negb (old =? 0) then upd_header old (set_prev_free block) else ret tt) ;;;
  set_bin bin block.

(** ** Blocks *)

Definition count_error (t : heap_stats) : heap_stats := set_stat_errors (u32 (stat_errors t + 1)) t.

Definition validate_block (a : Z) : M heap bool :=
  h <- read_header a ;;
  let bad := on_stats count_error ;;; ret false in
  if negb (magic h =? HEAP_MAGIC) then bad
  else if negb (canary h =? HEAP_CANARY_VALUE) then bad
  else
    s <- get ;;
    f <- deref (footers s !! footer_of a (size h)) ;;
    if negb (f_magic f =? HEAP_MAGIC) then bad
    else if negb (f_header_ptr f =? a) then bad
    else if negb (f_size f =? size h) then bad
    else if negb (f_canary f =? HEAP_CANARY_VALUE) then bad
    else ret true.

(** The answer is the address of the new block, 0 when there is none. *)
Definition split_block (block want : Z) : M heap Z :=
  h <- read_header block ;;
  let required := u32 (want + HDR + FTR) in
  if 32 + HDR + FTR <=? u32 (size h - required) then
    let new := block + required in
    let rest := u32 (size h - required) in
    write_header new (mk_header HEAP_MAGIC rest HEAP_BLOCK_FREE block (next h) 0 0 HEAP_CANARY_VALUE) ;;;
    write_footer new rest ;;;
    upd_header block (fun h => set_next new (set_size required h)) ;;;
    (if negb (next h =? 0) then upd_header (next h) (set_prev new) else ret tt) ;;;
    write_footer block required ;;;
    add_to_free_list new ;;;
    on_stats (fun t => set_free_bytes (u32 (free_bytes t - required)) t) ;;;
    ret new
  else ret 0.

(** [block] takes over the memory of the block [other] after it. *)
Definition absorb (block other : Z) : M heap unit :=
  o <- read_header other ;;
  upd_header block (fun h => set_next (next o) (set_size (u32 (size h + size o)) h)) ;;;
  (if negb (next o =? 0) then upd_header (next o) (set_prev block) else ret tt) ;;;
  h <- read_header block ;;
  write_footer block (size h).

Definition merged (t : heap_stats) : heap_stats := set_fragmentation_count (u32 (fragmentation_count t - 1)) t.

(** [block->next && block->next->status == HEAP_BLOCK_FREE], and the like for [prev]. *)
Definition is_free_at (a : Z) : M heap bool :=
  if a =? 0 then ret false else h <- read_header a ;; ret (status h =? HEAP_BLOCK_FREE).

(** The first half of [merge_blocks]; [false] when it gives up. *)
Definition merge_next (block : Z) : M heap bool :=
  h <- read_header block ;;
  free <- is_free_at (next h) ;;
  if negb free then ret true
  else
    ok <- validate_block (next h) ;;
    if negb ok then ret false
    else
      remove_from_free_list (next h) ;;;
      absorb block (next h) ;;;
      on_stats merged ;;;
      ret true.

Definition merge_prev (block : Z) : M heap Z :=
  h <- read_header block ;;
  free <- is_free_at (prev h) ;;
  if negb free then ret block
  else
    ok <- validate_block (prev h) ;;
    if negb ok then ret block
    else
      remove_from_free_list (prev h) ;;;
      remove_from_free_list block ;;;
      absorb (prev h) block ;;;
      add_to_free_list (prev h) ;;;
      on_stats merged ;;;
      ret (prev h).

Definition merge_blocks (block : Z) : M heap Z :=
  if block =? 0 then ret 0
  else
    h <- read_header block ;;
    if negb (status h =? HEAP_BLOCK_FREE) then ret block
    else
      go <- merge_next block ;;
      if negb go then ret block else merge_prev block.

(** The last block of the list of all blocks, from [a] on. *)
Fixpoint last_block (fuel : nat) (a : Z) : M heap Z :=
  match fuel with
  | O => spin
  | S f => h <- read_header a ;; if next h =? 0 then ret a else last_block f (next h)
  end.

(** [area] is the answer of [allocate_pages]. *)
Definition heap_extend (min_size area : Z) : M heap Z :=
  let ext := if negb (min_size mod PAGE_SIZE =? 0) then u32 ((min_size / PAGE_SIZE + 1) * PAGE_SIZE) else min_size in
  log_event (AllocatePages (ext / PAGE_SIZE) area) ;;;
  if area =? 0 then ret 0
  else
    write_header area (mk_header HEAP_MAGIC ext HEAP_BLOCK_FREE 0 0 0 0 HEAP_CANARY_VALUE) ;;;
    write_footer area ext ;;;
    s <- get ;;
    last <- last_block (S (map_size (headers s))) (h_start s) ;;
    upd_header last (set_next area) ;;;
    upd_header area (set_prev last) ;;;
    add_to_free_list area ;;;
    modify (fun s =>
      let t := stats s in
      set_stats (mk_stats (total_allocations t) (total_frees t) (current_allocations t) (allocated_bytes t)
                   (u32 (free_bytes t + ext)) (u32 (total_size t + ext)) (fragmentation_count t) (stat_errors t)
                   (largest_allocation t) (smallest_allocation t))
        (set_current_size (u32 (current_size s + ext)) (set_h_end (area + ext) s))) ;;;
    l <- read_header last ;;
    if status l =? HEAP_BLOCK_FREE then merge_blocks last else ret area.

(** ** Allocation *)

(** Sizes below 16 and sizes that are not a multiple of 16 are rounded up. *)
Definition align16 (n : Z) : Z :=
  if negb (n mod HEAP_ALIGN =? 0) then Z.land (u32 (n + HEAP_ALIGN)) (u32 (Z.lnot (HEAP_ALIGN - 1))) else n.

Definition count_alloc (bytes freed n : Z) (t : heap_stats) : heap_stats :=
  mk_stats (u32 (total_allocations t + 1)) (total_frees t) (u32 (current_allocations t + 1))
    (u32 (allocated_bytes t + bytes)) (u32 (free_bytes t - freed)) (total_size t) (fragmentation_count t)
    (stat_errors t)
    (if largest_allocation t <? n then n else largest_allocation t)
    (if (smallest_allocation t =? 0) || (n <? smallest_allocation t) then n else smallest_allocation t).

(** A large allocation between two guard pages. *)
Definition guarded_alloc (n area : Z) : M heap Z :=
  let pages := u32 (u32 (n + PAGE_SIZE - 1) / PAGE_SIZE + 2) in
  log_event (AllocatePages pages area) ;;;
  if area =? 0 then ret 0
  else
    let user := area + PAGE_SIZE in
    log_event (UpdateFlags area PAGE_FLAG_PRESENT) ;;;
    log_event (UpdateFlags (user + n) PAGE_FLAG_PRESENT) ;;;
    modify (fun s => set_words (<[user := pages]> (words s)) s) ;;;
    on_stats (count_alloc n 0 n) ;;;
    ret (user + 4).

(** [area] is the answer of [allocate_pages], should it be called. *)
Definition heap_alloc (n area : Z) : M heap Z :=
  let n := if n <? 16 then 16 else n in
  let n := align16 n in
  if PAGE_SIZE <=? n then guarded_alloc n area
  else
    found <- find_free_block n ;;
    block <- (if found =? 0 then heap_extend (u32 (n + HDR + FTR)) area else ret found) ;;
    if block =? 0 then ret 0
    else
      remove_from_free_list block ;;;
      _new <- split_block block n ;;
      upd_header block (set_status HEAP_BLOCK_USED) ;;;
      h <- read_header block ;;
      on_stats (count_alloc (usable (size h)) (size h) n) ;;;
      memset (block + HDR) 0 n ;;;
      ret (block + HDR).

(** ** Release *)

(** The page of [p] when [p] looks like the start of a guarded area. *)
Definition guarded_page (p : Z) : option Z :=
  let page := p - p mod PAGE_SIZE in
  if (4 <=? p - page) && (p - page <=? 64) then Some page else None.

(** [*size_ptr]: the page count, or the first word of the header that is there. *)
Definition read_word (a : Z) : M heap Z :=
  s <- get ;;
  match words s !! a with
  | Some w => ret w
  | None => h <- deref (headers s !! a) ;; ret (magic h)
  end.

Definition count_free (t : heap_stats) : heap_stats :=
  mk_stats (total_allocations t) (u32 (total_frees t + 1)) (u32 (current_allocations t - 1)) (allocated_bytes t)
    (free_bytes t) (total_size t) (fragmentation_count t) (stat_errors t) (largest_allocation t) (smallest_allocation t).

Definition count_block_free (n : Z) (t : heap_stats) : heap_stats :=
  mk_stats (total_allocations t) (u32 (total_frees t + 1)) (u32 (current_allocations t - 1))
    (u32 (allocated_bytes t - usable n)) (u32 (free_bytes t + n)) (total_size t) (fragmentation_count t)
    (stat_errors t) (largest_allocation t) (smallest_allocation t).

Definition heap_error : M heap unit := modify (fun s => set_error_count (u32 (error_count s + 1)) s).

Definition heap_free (p : Z) : M heap unit :=
  if p =? 0 then ret tt
  else
    match guarded_page p with
    | Some page =>
        pages <- read_word page ;;
        log_event (FreePages (page - PAGE_SIZE) pages) ;;;
        on_stats count_free
    | None =>
        let block := p - HDR in
        ok <- validate_block block ;;
        if negb ok then heap_error
        else
          h <- read_header block ;;
          if status h =? HEAP_BLOCK_FREE then heap_error
          else
            upd_header block (set_status HEAP_BLOCK_FREE) ;;;
            on_stats (count_block_free (size h)) ;;;
            memset p POISON_PATTERN (usable (size h)) ;;;
            block <- merge_blocks block ;;
            add_to_free_list block
    end.

(** ** Reallocation *)

(** Allocate, copy, free. *)
Definition move_to_new (p n copy area : Z) : M heap Z :=
  q <- heap_alloc n area ;;
  if q =? 0 then ret 0
  else overwrite q copy ;;; heap_free p ;;; ret q.

Definition heap_realloc (p n area : Z) : M heap Z :=
  if p =? 0 then heap_alloc n area
  else if n =? 0 then heap_free p ;;; ret 0
  else
    let n := align16 n in
    match guarded_page p with
    | Some page =>
        pages <- read_word page ;;
        let current := u32 (u32 (pages - 2) * PAGE_SIZE) in
        if n <=? current then ret p else move_to_new p n current area
    | None =>
        let block := p - HDR in
        ok <- validate_block block ;;
        if negb ok then heap_error ;;; ret 0
        else
          h <- read_header block ;;
          let current := usable (size h) in
          if n <=? current then
            (if 64 <=? u32 (current - n) then _new <- split_block block n ;; ret tt else ret tt) ;;;
            ret p
          else
            free <- is_free_at (next h) ;;
            grown <- (if negb free then ret false
                      else
                        o <- read_header (next h) ;;
                        let combined := usable (u32 (size h + size o)) in
                        if n <=? combined then
                          remove_from_free_list (next h) ;;;
                          absorb block (next h) ;;;
                          (if 64 <=? u32 (combined - n) then _new <- split_block block n ;; ret tt else ret tt) ;;;
                          ret true
                        else ret false) ;;
            if grown : bool then ret p else move_to_new p n current area
    end.

(** ** Queries *)

Definition heap_get_size (p : Z) : M heap Z :=
  if p =? 0 then ret 0
  else
    match guarded_page p with
    | Some page => pages <- read_word page ;; ret (u32 (u32 (u32 (pages - 2) * PAGE_SIZE) - 4))
    | None =>
        h <- read_header (p - HDR) ;;
        if negb (magic h =? HEAP_MAGIC) || negb (canary h =? HEAP_CANARY_VALUE) then ret 0
        else ret (usable (size h))
    end.

(** The errors along the list of all blocks, and along a free list. *)
Fixpoint check_blocks (fuel : nat) (a errors : Z) : M heap Z :=
  if a =? 0 then ret errors
  else
    match fuel with
    | O => spin
    | S f =>
        ok <- validate_block a ;;
        h <- read_header a ;;
        check_blocks f (next h) (if ok then errors else errors + 1)
    end.

Fixpoint check_bin (fuel : nat) (a errors : Z) : M heap Z :=
  if a =? 0 then ret errors
  else
    match fuel with
    | O => spin
    | S f =>
        h <- read_header a ;;
        check_bin f (next_free h) (if negb (status h =? HEAP_BLOCK_FREE) then errors + 1 else errors)
    end.

Fixpoint check_bins (n : nat) (i errors : Z) : M heap Z :=
  match n with
  | O => ret errors
  | S n' =>
      s <- get ;;
      a <- get_bin i ;;
      e <- check_bin (S (map_size (headers s))) a errors ;;
      check_bins n' (i + 1) e
  end.

Definition heap_check_integrity : M heap Z :=
  s <- get ;;
  e <- check_blocks (S (map_size (headers s))) (h_start s) 0 ;;
  errors <- check_bins (Z.to_nat HEAP_MAX_BINS) 0 e ;;
  modify (fun s => set_error_count (u32 (error_count s + errors)) s) ;;;
  ret (if errors =? 0 then 1 else 0).

(** ** Creation and statistics *)

(** [heap_t_size] is [sizeof(heap_t)]; memory starts without structures. *)
Definition heap_create (start n heap_t_size : Z) : M heap unit :=
  let n := if n <? HEAP_MIN_SIZE then HEAP_MIN_SIZE else n in
  let a := if negb (start mod HEAP_ALIGN =? 0)
           then Z.land (u32 (start + HEAP_ALIGN)) (u32 (Z.lnot (HEAP_ALIGN - 1))) else start in
  let n := u32 (n - (a - start)) in
  let a := a + heap_t_size in
  let n := u32 (n - heap_t_size) in
  modify (fun s => mk_heap a (a + n) n n 0 (replicate (Z.to_nat HEAP_MAX_BINS) 0) (stats s) (headers s) (footers s)
                     (words s) (events s)) ;;;
  let bin := get_bin_for_size (usable n) in
  let bin := if bin <? HEAP_MAX_BINS then bin else HEAP_MAX_BINS - 1 in
  old <- get_bin bin ;;
  write_header a (mk_header HEAP_MAGIC n HEAP_BLOCK_FREE 0 0 old 0 HEAP_CANARY_VALUE) ;;;
  write_footer a n ;;;
  (if negb (old =? 0) then upd_header old (set_prev_free a) else ret tt) ;;;
  set_bin bin a ;;;
  on_stats (fun t => mk_stats (total_allocations t) (total_frees t) (current_allocations t) (allocated_bytes t) n n
                       (fragmentation_count t) (stat_errors t) (largest_allocation t) (smallest_allocation t)).

Definition heap_get_stats : M heap heap_stats := gets stats.

Definition heap_reset_stats : M heap unit :=
  on_stats (fun t => mk_stats 0 0 0 0 (free_bytes t) (total_size t) 0 0 0 0).

End Heap.
