(* ===== verification/HeapInv.v ===== *)
(** * The heap: layout, free lists and what keeps them

    A heap in order is a list of blocks that lie one after the other in memory, with
    intact headers and footers and links to their neighbours ([layout]), and for each
    bin the doubly-linked list of the free blocks whose size belongs there ([flists]).
    A header takes part in both lists; its two halves are seen through [mains] and
    [links], so that an operation on one list leaves the other as it is by equality of
    maps. [order] puts the two together; this file shows how each helper of [heap.c]
    changes them. *)

From Stdlib Require Import ZArith Lia.
From stdpp Require Import base tactics option list gmap.
From S2P Require Import Prelude Dll Heap.

Set Default Goal Selector "!".
Local Open Scope Z_scope.
Local Open Scope kernel_scope.

Module HeapInv.
Import Dll Heap.

(** ** Bins *)

Lemma bin_loop_ge fuel n b : b <= bin_loop fuel n b.
Proof.
  revert n b. induction fuel as [|f IH]; intros n b; cbn [bin_loop]; [lia|].
  case_if; [|lia]. specialize (IH (Z.shiftr n 1) (b + 1)). lia.
Qed.

Lemma bin_loop_mono fuel x y b : x <= y -> bin_loop fuel x b <= bin_loop fuel y b.
Proof.
  revert x y b. induction fuel as [|f IH]; intros x y b Hxy; cbn [bin_loop]; [lia|].
  destruct (Z.ltb_spec 16 x), (Z.ltb_spec 16 y); [|lia| |lia].
  - apply IH. rewrite !Z.shiftr_div_pow2 by lia. by apply Z.div_le_mono.
  - pose proof (bin_loop_ge f (Z.shiftr y 1) (b + 1)). lia.
Qed.

Lemma get_bin_range n : 0 <= get_bin_for_size n <= 10.
Proof.
  unfold get_bin_for_size, HEAP_MAX_BINS. case_if; [lia|]. cbv zeta.
  pose proof (bin_loop_ge 28 (n - 1) 0). destruct (Z.ltb_spec (bin_loop 28 (n - 1) 0) 11); lia.
Qed.

Lemma get_bin_mono x y : x <= y -> get_bin_for_size x <= get_bin_for_size y.
Proof.
  intros Hxy. unfold get_bin_for_size, HEAP_MAX_BINS. cbv zeta.
  pose proof (bin_loop_ge 28 (y - 1) 0). pose proof (bin_loop_mono 28 (x - 1) (y - 1) 0).
  repeat match goal with |- context [if ?c then _ else _] => destruct c eqn:? end; bools; lia.
Qed.

Lemma bin_of_eq n : bin_of n = get_bin_for_size (usable n).
Proof.
  unfold bin_of, HEAP_MAX_BINS. cbv zeta. pose proof (get_bin_range (usable n)).
  destruct (Z.leb_spec 11 (get_bin_for_size (usable n))); lia.
Qed.

Lemma bin_of_range n : 0 <= bin_of n <= 10.
Proof. rewrite bin_of_eq. apply get_bin_range. Qed.

(** ** Layout *)

Record blk : Type := mk_blk {
  b_addr : Z;
  b_size : Z;
  b_used : bool;
}.

Definition b_status (b : blk) : Z := if b_used b then HEAP_BLOCK_USED else HEAP_BLOCK_FREE.
Definition b_end (b : blk) : Z := b_addr b + b_size b.

(** The half of a header that belongs to the list of all blocks, and the half
    ([prev_free], [next_free]) that belongs to a free list. *)
Record main : Type := mk_main {
  m_magic : Z;
  m_size : Z;
  m_status : Z;
  m_prev : Z;
  m_next : Z;
  m_canary : Z;
}.
Definition mainp (h : block_header) : main :=
  mk_main (magic h) (size h) (status h) (prev h) (next h) (canary h).
Definition linkp (h : block_header) : Z * Z := (prev_free h, next_free h).

Definition mains (s : heap) : gmap Z main := mainp <$> headers s.
Definition links (s : heap) : gmap Z (Z * Z) := linkp <$> headers s.

(** The header of the block [b] between the blocks at [p] and [n], and its footer. *)
Definition main_of (b : blk) (p n : Z) : main :=
  mk_main HEAP_MAGIC (b_size b) (b_status b) p n HEAP_CANARY_VALUE.
Definition foot_of (b : blk) : block_footer := mk_footer HEAP_MAGIC (b_addr b) (b_size b) HEAP_CANARY_VALUE.

Definition first_addr (l : list blk) (n : Z) : Z := match l with [] => n | b :: _ => b_addr b end.
Definition last_addr (p : Z) (l : list blk) : Z := match last l with None => p | Some b => b_addr b end.

(** The blocks [l] linked to each other, to [p] before and to [n] after. *)
Fixpoint seg (ms : gmap Z main) (p : Z) (l : list blk) (n : Z) : Prop :=
  match l with
  | [] => True
  | b :: l' => ms !! b_addr b = Some (main_of b p (first_addr l' n)) /\ seg ms (b_addr b) l' n
  end.

(** Blocks that fill the memory from [a] to [e]. *)
Fixpoint contiguous (a : Z) (l : list blk) (e : Z) : Prop :=
  match l with
  | [] => a = e
  | b :: l' => b_addr b = a /\ HDR + FTR <= b_size b /\ contiguous (a + b_size b) l' e
  end.

Definition foots (fs : gmap Z block_footer) (l : list blk) : Prop :=
  Forall (fun b => fs !! footer_of (b_addr b) (b_size b) = Some (foot_of b)) l.

Record layout (s : heap) (L : list blk) : Prop := {
  lo_seg : seg (mains s) 0 L 0;
  lo_foots : foots (footers s) L;
  lo_cont : contiguous (h_start s) L (h_end s);
  lo_start : 0 < h_start s;
  lo_end : h_end s < 2 ^ 32;
  lo_some : L <> [];
}.

(** ** Free lists *)

Record flists (s : heap) (F : list (list Z)) : Prop := {
  fl_count : length F = Z.to_nat HEAP_MAX_BINS;
  fl_bins : bins s = hd0 <$> F;
  fl_lists : forall i l, F !! i = Some l -> fseg (links s) 0 l 0;
  fl_nodup : NoDup (concat F);
  fl_null : 0 ∉ concat F;
}.

(** ** A heap in order *)

(** The blocks [L] and the free lists [F] of the same memory. The blocks whose address
    is in [O] are in no list although they may be free, as they are between the steps
    of an operation. *)
Record order (s : heap) (L : list blk) (F : list (list Z)) (O : list Z) : Prop := {
  or_layout : layout s L;
  or_flists : flists s F;
  or_out : forall b, b ∈ L -> b_used b = true \/ b_addr b ∈ O -> links s !! b_addr b = Some (0, 0);
  or_free : forall a, a ∈ concat F <-> a ∉ O /\ exists b, b ∈ L /\ b_addr b = a /\ b_used b = false;
  or_home : forall i l b, F !! i = Some l -> b ∈ L -> b_addr b ∈ l -> bin_of (b_size b) = Z.of_nat i;
}.

Definition wf (s : heap) (L : list blk) (F : list (list Z)) : Prop := order s L F [].

(** *** Facts about layouts *)

Lemma contiguous_app a l1 l2 e :
  contiguous a (l1 ++ l2) e <-> exists m, contiguous a l1 m /\ contiguous m l2 e.
Proof.
  revert a. induction l1 as [|b l1 IH]; intros a; cbn.
  - split; [eauto|]. by intros (m & -> & ?).
  - rewrite IH. naive_solver.
Qed.

Lemma contiguous_range a l e b :
  contiguous a l e -> b ∈ l -> a <= b_addr b /\ b_end b <= e /\ HDR + FTR <= b_size b.
Proof.
  assert (Hle : forall l a, contiguous a l e -> a <= e).
  { clear. induction l as [|b l IH]; cbn; [lia|]. intros a (_ & Hs & Hc%IH). unfold HDR, FTR in *. lia. }
  revert a. induction l as [|c l IH]; intros a Hc Hb; [by apply not_elem_of_nil in Hb|].
  cbn in Hc. destruct Hc as (H1 & H2 & H3). pose proof (Hle _ _ H3).
  apply elem_of_cons in Hb as [->|Hb].
  - unfold b_end. lia.
  - destruct (IH _ H3 Hb). unfold HDR, FTR in *. lia.
Qed.

Lemma contiguous_around a l1 b l2 e :
  contiguous a (l1 ++ b :: l2) e ->
  contiguous a l1 (b_addr b) /\ HDR + FTR <= b_size b /\ contiguous (b_end b) l2 e.
Proof.
  intros (m & H1 & <- & H2 & H3)%contiguous_app. done.
Qed.

Lemma contiguous_before a l1 b l2 e c :
  contiguous a (l1 ++ b :: l2) e -> c ∈ l1 -> b_end c <= b_addr b.
Proof. intros (H1 & _)%contiguous_around Hc. by eapply contiguous_range in Hc as (_ & ? & _). Qed.

Lemma contiguous_after a l1 b l2 e c :
  contiguous a (l1 ++ b :: l2) e -> c ∈ l2 -> b_end b <= b_addr c.
Proof. intros (_ & _ & H2)%contiguous_around Hc. by eapply contiguous_range in Hc as (? & _ & _). Qed.

Lemma contiguous_fresh a l1 b l2 e x :
  contiguous a (l1 ++ b :: l2) e -> b_addr b <= x < b_end b ->
  x ∉ b_addr <$> l1 /\ x ∉ b_addr <$> l2.
Proof.
  intros Hc Hx. rewrite !list_elem_of_fmap.
  pose proof (contiguous_around _ _ _ _ _ Hc) as (H1 & _ & H2).
  split; intros (c & -> & Hin).
  - pose proof (contiguous_before _ _ _ _ _ _ Hc Hin).
    pose proof (contiguous_range _ _ _ _ H1 Hin). unfold b_end, HDR, FTR in *. lia.
  - pose proof (contiguous_after _ _ _ _ _ _ Hc Hin). lia.
Qed.

Lemma contiguous_nodup a l e : contiguous a l e -> NoDup (b_addr <$> l).
Proof.
  revert a. induction l as [|b l IH]; intros a Hc; cbn; [by apply NoDup_nil|].
  apply NoDup_cons. pose proof (contiguous_around _ [] _ _ _ Hc) as (_ & Hs & H2).
  split; [|by eapply IH].
  apply (contiguous_fresh _ [] _ _ _ _ Hc). unfold b_end, HDR, FTR in *. lia.
Qed.

(** Two blocks that share an address are the same block. *)
Lemma contiguous_inj a l e b c : contiguous a l e -> b ∈ l -> c ∈ l -> b_addr b = b_addr c -> b = c.
Proof.
  intros Hc (l1 & l2 & ->)%list_elem_of_split Hin Heq.
  pose proof (contiguous_around _ _ _ _ _ Hc) as (_ & Hs & _).
  destruct (contiguous_fresh _ _ _ _ _ (b_addr b) Hc) as [H1 H2].
  { unfold b_end, HDR, FTR in *. lia. }
  rewrite elem_of_app, elem_of_cons in Hin. rewrite !list_elem_of_fmap in H1, H2.
  destruct Hin as [?|[?|?]]; [|done|]; [destruct H1|destruct H2]; eauto.
Qed.

Lemma seg_app ms p l1 l2 n :
  seg ms p (l1 ++ l2) n <-> seg ms p l1 (first_addr l2 n) /\ seg ms (last_addr p l1) l2 n.
Proof.
  revert p. induction l1 as [|b l1 IH]; intros p; cbn [seg app].
  - unfold last_addr. cbn. tauto.
  - rewrite IH. destruct l1 as [|c l1]; cbn [first_addr app].
    + unfold last_addr. cbn. tauto.
    + unfold last_addr. cbn [last]. destruct (last_is_Some (c :: l1)) as [_ [x Hx]]; [done|].
      cbn [last] in Hx. rewrite Hx. tauto.
Qed.

Lemma seg_ext ms ms' p l n :
  (forall b, b ∈ l -> ms' !! b_addr b = ms !! b_addr b) -> seg ms p l n -> seg ms' p l n.
Proof.
  revert p. induction l as [|b l IH]; intros p He; cbn; [done|]. intros [H1 H2].
  rewrite He by (by left). split; [done|]. apply IH; [|done]. intros. apply He. by right.
Qed.

Lemma seg_insert ms p l n x m : x ∉ b_addr <$> l -> seg ms p l n -> seg (<[x := m]> ms) p l n.
Proof.
  intros Hx. apply seg_ext. intros b Hb. apply lookup_insert_ne. intros ->. apply Hx.
  by apply list_elem_of_fmap_2.
Qed.

Lemma seg_lookup ms p l1 b l2 n :
  seg ms p (l1 ++ b :: l2) n -> ms !! b_addr b = Some (main_of b (last_addr p l1) (first_addr l2 n)).
Proof. intros [_ [? _]]%seg_app. done. Qed.

(** Linking the end of a segment, and its start, to somewhere else. *)
Lemma seg_relast ms p l b n n' :
  b_addr b ∉ b_addr <$> l -> seg ms p (l ++ [b]) n ->
  seg (<[b_addr b := main_of b (last_addr p l) n']> ms) p (l ++ [b]) n'.
Proof.
  intros Hb [H1 H2]%seg_app. apply seg_app. split; [by apply seg_insert|].
  cbn. by rewrite lookup_insert_eq.
Qed.

Lemma seg_refirst ms p p' b l n :
  b_addr b ∉ b_addr <$> l -> seg ms p (b :: l) n ->
  seg (<[b_addr b := main_of b p' (first_addr l n)]> ms) p' (b :: l) n.
Proof.
  intros Hb [H1 H2]. split; [by rewrite lookup_insert_eq|]. by apply seg_insert.
Qed.

Lemma foots_ext fs fs' l :
  (forall b, b ∈ l -> fs' !! footer_of (b_addr b) (b_size b) = fs !! footer_of (b_addr b) (b_size b)) ->
  foots fs l -> foots fs' l.
Proof. unfold foots. rewrite !Forall_forall. intros He H b Hb. rewrite He by done. by apply H. Qed.

(** *** Headers *)

Lemma wp_read_header a h Q s : headers s !! a = Some h -> wp (read_header a) Q s <-> Q h s.
Proof. intros Hh. unfold read_header. wp_steps. rewrite wp_deref, Hh. naive_solver. Qed.

Lemma wp_upd_header a f h Q s :
  headers s !! a = Some h ->
  wp (upd_header a f) Q s <-> Q tt (set_headers (alter f a (headers s)) s).
Proof.
  intros Hh. unfold upd_header. wp_steps. rewrite wp_deref, Hh.
  assert (E : alter f a (headers s) = <[a := f h]> (headers s)).
  { apply map_eq. intros x. destruct (decide (a = x)) as [<-|Hne].
    - by rewrite lookup_alter_eq, lookup_insert_eq, Hh.
    - by rewrite lookup_alter_ne, lookup_insert_ne by done. }
  rewrite E. split; [by intros (? & [= <-] & ?)|]. eauto.
Qed.

Lemma links_header s a p n : links s !! a = Some (p, n) ->
  exists h, headers s !! a = Some h /\ prev_free h = p /\ next_free h = n.
Proof.
  unfold links. rewrite lookup_fmap. destruct (headers s !! a) as [h|]; [|done].
  intros [= <- <-]. by exists h.
Qed.

Lemma mains_header s a m : mains s !! a = Some m -> exists h, headers s !! a = Some h /\ mainp h = m.
Proof.
  unfold mains. rewrite lookup_fmap. destruct (headers s !! a) as [h|]; [|done].
  intros [= <-]. by exists h.
Qed.

(** *** Removing from and adding to a free list *)

Lemma elem_of_bin F i l (a : Z) : F !! i = Some l -> a ∈ l -> a ∈ concat F.
Proof. intros Hi Ha. rewrite (concat_split _ _ _ Hi). set_solver. Qed.

Lemma bin_nodup (F : list (list Z)) i l : NoDup (concat F) -> F !! i = Some l -> NoDup l.
Proof. intros N Hi. rewrite (concat_split _ _ _ Hi) in N. by apply NoDup_app in N as (? & _). Qed.

Lemma bins_disjoint (F : list (list Z)) i j l l' x :
  NoDup (concat F) -> F !! i = Some l -> F !! j = Some l' -> i <> j -> x ∈ l -> x ∉ l'.
Proof.
  intros N Hi Hj Hne Hx. rewrite (concat_split _ _ _ Hi) in N. apply NoDup_app in N as (_ & N & _).
  specialize (N x Hx). intros Hx'. apply N. apply list_elem_of_In, in_concat. exists l'.
  split; apply list_elem_of_In; [|done]. apply list_elem_of_lookup.
  destruct (decide (j < i)%nat).
  - exists j. by rewrite list_lookup_delete_lt.
  - exists (j - 1)%nat. rewrite list_lookup_delete_ge by lia. by replace (S (j - 1)) with j by lia.
Qed.

(** The state apart from the links and heads of the free lists is the same. *)
Record relinked (s s' : heap) : Prop := {
  re_mains : mains s' = mains s;
  re_foots : footers s' = footers s;
  re_start : h_start s' = h_start s;
  re_end : h_end s' = h_end s;
}.

Lemma layout_relinked s s' L : relinked s s' -> layout s L -> layout s' L.
Proof. intros [E1 E2 E3 E4] []. split; rewrite ?E1, ?E2, ?E3, ?E4; done. Qed.

Lemma flists_remove s s' F i l1 a l2 :
  flists s F -> F !! i = Some (l1 ++ a :: l2) ->
  links s' = unlink (links s) l1 a l2 -> bins s' = <[i := hd0 (l1 ++ l2)]> (bins s) ->
  flists s' (<[i := l1 ++ l2]> F).
Proof.
  intros [Hc Hb Hl Hn H0] Hi El Eb.
  assert (Hp : concat F ≡ₚ a :: concat (<[i := l1 ++ l2]> F)).
  { rewrite (concat_split _ _ _ Hi), (concat_insert _ _ _ _ Hi). by rewrite <- Permutation_middle. }
  split.
  - by rewrite length_insert.
  - rewrite Eb, Hb. by rewrite list_fmap_insert.
  - intros j l Hj. rewrite El. destruct (decide (i = j)) as [<-|Hne].
    + rewrite list_lookup_insert_eq in Hj by (by eapply lookup_lt_Some). injection Hj as <-.
      apply fseg_unlink; [by eapply bin_nodup|by eapply Hl].
    + rewrite list_lookup_insert_ne in Hj by done. eapply fseg_ext; [|by eapply Hl].
      intros x Hx. apply unlink_out. by eapply bins_disjoint; [..|exact Hx].
  - rewrite Hp in Hn. by apply NoDup_cons in Hn as [_ ?].
  - rewrite Hp in H0. set_solver.
Qed.

Lemma flists_push s s' F i l a :
  flists s F -> F !! i = Some l -> a ∉ concat F -> a <> 0 ->
  links s' = push (links s) a l -> bins s' = <[i := a]> (bins s) ->
  flists s' (<[i := a :: l]> F).
Proof.
  intros [Hc Hb Hl Hn H0] Hi Ha Hnz El Eb.
  assert (Hp : concat (<[i := a :: l]> F) ≡ₚ a :: concat F).
  { by rewrite (concat_split _ _ _ Hi), (concat_insert _ _ _ _ Hi). }
  assert (Hal : a ∉ l). { intros Hin. apply Ha. by eapply elem_of_bin. }
  split.
  - by rewrite length_insert.
  - rewrite Eb, Hb. by rewrite list_fmap_insert.
  - intros j l' Hj. rewrite El. destruct (decide (i = j)) as [<-|Hne].
    + rewrite list_lookup_insert_eq in Hj by (by eapply lookup_lt_Some). injection Hj as <-.
      apply fseg_push; [|by eapply Hl]. apply NoDup_cons. split; [done|by eapply bin_nodup].
    + rewrite list_lookup_insert_ne in Hj by done. eapply fseg_ext; [|by eapply Hl].
      intros x Hx. apply push_out. rewrite elem_of_cons. intros [->|Hxl].
      * apply Ha. by eapply elem_of_bin.
      * eapply (bins_disjoint F i j); eauto.
  - rewrite Hp. by apply NoDup_cons.
  - rewrite Hp. set_solver.
Qed.

Lemma wp_set_bin b a Q s :
  0 <= b < Z.of_nat (length (bins s)) ->
  wp (set_bin b a) Q s <-> Q tt (set_bins (<[Z.to_nat b := a]> (bins s)) s).
Proof.
  intros Hb. unfold set_bin. wp_steps. rewrite wp_deref, arr_set_some by done.
  split; [|eauto]. by intros (? & [= <-] & ?).
Qed.

(** The state [remove_from_free_list] leaves. *)
Definition removed (s : heap) (i : nat) (l1 : list Z) (a : Z) (l2 : list Z) : heap :=
  let s1 := match last l1 with
            | None => set_bins (<[i := hd0 l2]> (bins s)) s
            | Some x => set_headers (alter (set_next_free (hd0 l2)) x (headers s)) s
            end in
  let s2 := match l2 with
            | [] => s1
            | y :: _ => set_headers (alter (set_prev_free (last0 0 l1)) y (headers s1)) s1
            end in
  set_headers (alter (fun h => set_prev_free 0 (set_next_free 0 h)) a (headers s2)) s2.

Lemma removed_relinked s i l1 a l2 : relinked s (removed s i l1 a l2).
Proof.
  unfold removed. cbv zeta.
  destruct (last l1), l2; split; unfold mains; cbn; rewrite ?fmap_alter_same by done; done.
Qed.

Lemma removed_links s i l1 a l2 :
  is_Some (headers s !! a) -> links (removed s i l1 a l2) = unlink (links s) l1 a l2.
Proof.
  intros Ha. unfold removed, links, unlink. cbv zeta. cbn [headers set_headers].
  rewrite (fmap_alter_as linkp _ (fun _ => (0, 0))) by done.
  match goal with |- alter _ _ ?x = <[_ := _]> ?y => assert (E : x = y) end.
  { destruct (last l1), l2; cbn [headers set_headers set_bins];
      rewrite ?(fmap_alter_as linkp (set_prev_free _) (set_fst (last0 0 l1))) by done;
      rewrite ?(fmap_alter_as linkp (set_next_free _) (set_snd (hd0 _))) by done; done. }
  rewrite E. apply map_eq. intros x. destruct (decide (a = x)) as [<-|Hne].
  - rewrite lookup_alter_eq, lookup_insert_eq, <- E, lookup_fmap.
    match goal with |- _ <$> (_ <$> ?o) = _ => assert (is_Some o) as [h ->] end; [|done].
    destruct (last l1), l2; cbn; rewrite ?lookup_alter_is_Some; done.
  - by rewrite lookup_alter_ne, lookup_insert_ne.
Qed.

Lemma removed_bins s F i l1 a l2 :
  flists s F -> F !! i = Some (l1 ++ a :: l2) ->
  bins (removed s i l1 a l2) = <[i := hd0 (l1 ++ l2)]> (bins s).
Proof.
  intros HF Hi. unfold removed. cbv zeta. destruct l1 as [|x l1].
  - cbn. by destruct l2.
  - destruct (last_is_Some (x :: l1)) as [_ [z ->]]; [done|].
    assert (E : <[i := hd0 ((x :: l1) ++ l2)]> (bins s) = bins s).
    { apply list_insert_id. by rewrite (fl_bins _ _ HF), list_lookup_fmap, Hi. }
    rewrite E. by destruct l2.
Qed.

(** The second half of [remove_from_free_list]. *)
Lemma remove_tail s h a l2 (Q : unit -> heap -> Prop) :
  headers s !! a = Some h -> next_free h = hd0 l2 ->
  (forall y, y ∈ l2 -> y <> 0 /\ y <> a /\ is_Some (headers s !! y)) ->
  (let s2 := match l2 with
             | [] => s
             | y :: _ => set_headers (alter (set_prev_free (prev_free h)) y (headers s)) s
             end in
   Q tt (set_headers (alter (fun h => set_prev_free 0 (set_next_free 0 h)) a (headers s2)) s2)) ->
  wp (h <- read_header a ;;
      (if negb (next_free h =? 0) then upd_header (next_free h) (set_prev_free (prev_free h)) else ret tt) ;;;
      upd_header a (fun h => set_prev_free 0 (set_next_free 0 h))) Q s.
Proof.
  intros Hh Hn Hl HQ. rewrite wp_bind, (wp_read_header _ h), wp_bind, Hn by done.
  destruct l2 as [|y l2]; cbn in HQ |- *.
  - wp_steps. rewrite (wp_upd_header _ _ h) by done. done.
  - destruct (Hl y) as (Hy0 & Hya & [hy Hhy]); [by left|].
    destruct (Z.eqb_spec y 0) as [|_]; [done|]. cbn. rewrite (wp_upd_header _ _ hy) by done.
    rewrite (wp_upd_header _ _ h); [done|]. cbn. by rewrite lookup_alter_ne.
Qed.

Lemma fseg_headers s p l n a : fseg (links s) p l n -> a ∈ l -> is_Some (headers s !! a).
Proof.
  revert p. induction l as [|b l IH]; intros p; [by intros _ ?%not_elem_of_nil|].
  intros [H1 H2] [->|Ha]%elem_of_cons; [|by eapply IH].
  apply links_header in H1 as (h & -> & _). eauto.
Qed.

Lemma remove_run s F i l1 a l2 m :
  flists s F -> F !! i = Some (l1 ++ a :: l2) -> mains s !! a = Some m -> bin_of (m_size m) = Z.of_nat i ->
  wp (remove_from_free_list a) (fun _ s' => s' = removed s i l1 a l2) s.
Proof.
  intros HF Hi Hm Hbin.
  pose proof (fl_lists _ _ HF _ _ Hi) as (Hs1 & Ha & Hs2)%fseg_app.
  pose proof (bin_nodup _ _ _ (fl_nodup _ _ HF) Hi) as (N1 & N12 & [N2 N3]%NoDup_cons)%NoDup_app.
  destruct (links_header _ _ _ _ Ha) as (h & Hh & Hpf & Hnf).
  assert (Hnz : forall x, x ∈ l1 ++ l2 -> x <> 0).
  { intros x Hx ->. apply (fl_null _ _ HF). eapply elem_of_bin; [done|]. set_solver. }
  assert (Hsz : bin_of (size h) = Z.of_nat i).
  { unfold mains in Hm. rewrite lookup_fmap, Hh in Hm. by injection Hm as <-. }
  assert (Hlt : 0 <= Z.of_nat i < Z.of_nat (length (bins s))).
  { rewrite (fl_bins _ _ HF), length_fmap. pose proof (lookup_lt_Some _ _ _ Hi) as Hlt. lia. }
  unfold remove_from_free_list. rewrite wp_bind, (wp_read_header _ h) by done. cbv zeta.
  rewrite Hsz, Hpf, wp_bind. unfold last0.
  assert (Htail : forall y, y ∈ l2 -> y <> 0 /\ y <> a /\ is_Some (headers s !! y)).
  { intros y Hy. split_and!; [set_solver..|by eapply fseg_headers]. }
  unfold removed. destruct (last l1) as [x|] eqn:El; cbv zeta.
  - pose proof (last_Some_elem_of _ _ El) as Hx.
    destruct (Z.eqb_spec x 0) as [->|_]; [edestruct (Hnz 0); [set_solver|done]|]. cbn [negb].
    destruct (fseg_headers _ _ _ _ _ Hs1 Hx) as [hx Hhx].
    assert (Hxa : x <> a) by (specialize (N12 x Hx); set_solver).
    rewrite (wp_upd_header _ _ hx) by done.
    apply (remove_tail _ h _ l2); [cbn; by rewrite lookup_alter_ne|by rewrite Hnf|..].
    + intros y Hy. cbn. rewrite lookup_alter_is_Some. by apply Htail.
    + rewrite Hpf, Hnf. unfold last0. rewrite El. by destruct l2.
  - cbn [Z.eqb negb]. rewrite wp_set_bin, Nat2Z.id by done.
    apply (remove_tail _ h _ l2); [done..|]. rewrite Hpf, Hnf. unfold last0. rewrite El. by destruct l2.
Qed.

Lemma remove_spec s F i l1 a l2 m Q :
  flists s F -> F !! i = Some (l1 ++ a :: l2) -> mains s !! a = Some m -> bin_of (m_size m) = Z.of_nat i ->
  (forall s', relinked s s' -> flists s' (<[i := l1 ++ l2]> F) -> links s' = unlink (links s) l1 a l2 -> Q tt s') ->
  wp (remove_from_free_list a) Q s.
Proof.
  intros HF Hi Hm Hbin HQ. eapply wp_mono; [by eapply remove_run|]. cbn. intros [] s' ->.
  assert (Hl : links (removed s i l1 a l2) = unlink (links s) l1 a l2).
  { apply removed_links. eapply fseg_headers; [by eapply fl_lists|set_solver]. }
  apply HQ; [apply removed_relinked| |done]. eapply flists_remove; [done..|]. by eapply removed_bins.
Qed.

Lemma add_spec s F i l a m Q :
  flists s F -> F !! i = Some l -> mains s !! a = Some m -> bin_of (m_size m) = Z.of_nat i ->
  a ∉ concat F -> a <> 0 ->
  (forall s', relinked s s' -> flists s' (<[i := a :: l]> F) -> links s' = push (links s) a l -> Q tt s') ->
  wp (add_to_free_list a) Q s.
Proof.
  intros HF Hi Hm Hbin Ha Hnz HQ. destruct (mains_header _ _ _ Hm) as (h & Hh & <-). cbn in Hbin.
  pose proof (lookup_lt_Some _ _ _ Hi) as Hlt. pose proof (fl_bins _ _ HF) as Hb.
  assert (Hal : a ∉ l) by (intros Hin; by eapply Ha, elem_of_bin).
  unfold add_to_free_list. rewrite wp_bind, (wp_read_header _ h) by done. cbv zeta.
  unfold get_bin. wp_steps. rewrite Hbin, wp_deref, arr_get_nat.
  exists (hd0 l). split; [by rewrite Hb, list_lookup_fmap, Hi|]. wp_steps.
  rewrite (wp_upd_header _ _ h) by done.
  assert (Hlk : linkp <$> alter (fun h => set_prev_free 0 (set_next_free (hd0 l) h)) a (headers s) =
                <[a := (0, hd0 l)]> (links s)).
  { rewrite (fmap_alter_as linkp _ (fun _ => (0, hd0 l))) by done. apply map_eq. intros x.
    destruct (decide (a = x)) as [<-|Hne]; [|by rewrite lookup_alter_ne, lookup_insert_ne].
    by rewrite lookup_alter_eq, lookup_insert_eq, lookup_fmap, Hh. }
  destruct l as [|y l]; cbn [hd0 hd].
  - cbn [Z.eqb negb]. wp_steps. rewrite wp_set_bin, Nat2Z.id by (cbn; rewrite Hb, length_fmap; lia).
    apply HQ; [split; unfold mains; cbn; rewrite ?fmap_alter_same by done; done| |done].
    by eapply flists_push.
  - assert (Hy : is_Some (headers s !! y)) by (eapply fseg_headers; [by eapply fl_lists|by left]).
    destruct Hy as [hy Hy].
    destruct (Z.eqb_spec y 0) as [->|_]; [edestruct (fl_null _ _ HF); eapply elem_of_bin; [done|by left]|].
    cbn [negb]. wp_steps. rewrite (wp_upd_header _ _ hy) by (cbn; rewrite lookup_alter_ne by set_solver; done).
    rewrite wp_set_bin, Nat2Z.id by (cbn; rewrite Hb, length_fmap; lia).
    match goal with |- Q tt ?s' => assert (Hl' : links s' = push (links s) a (y :: l)) end.
    { unfold links at 1. cbn -[hd0]. rewrite (fmap_alter_as linkp _ (set_fst a)) by done. cbn in Hlk. by rewrite Hlk. }
    apply HQ; [split; unfold mains; cbn; rewrite ?fmap_alter_same by done; done| |done].
    by eapply flists_push.
Qed.

(** *** Replacing blocks *)

Lemma contiguous_pin a l e a' e' :
  contiguous a l e -> contiguous a' l e' -> l <> [] -> a' = a /\ e' = e.
Proof.
  revert a a'. induction l as [|b l IH]; [done|]. cbn. intros a a' (-> & _ & H1) (-> & _ & H2) _.
  split; [done|]. destruct l as [|c l]; [cbn in *; congruence|]. by edestruct IH as [_ ?].
Qed.

Lemma contiguous_mid h L1 Y L2 k a e :
  contiguous h (L1 ++ Y ++ L2) k -> contiguous a Y e -> Y <> [] -> contiguous h L1 a /\ contiguous e L2 k.
Proof.
  intros (m1 & Hc1 & (m2 & Hc2 & Hc3)%contiguous_app)%contiguous_app HY NY.
  by destruct (contiguous_pin _ _ _ _ _ HY Hc2 NY) as [-> ->].
Qed.

(** A block from [h] to [a], from [e] to [k], and in between. *)
Lemma contiguous_outside h L1 L2 k a e c :
  contiguous h L1 a -> contiguous e L2 k -> c ∈ L1 \/ c ∈ L2 ->
  (b_addr c < a \/ e <= b_addr c) /\
  (footer_of (b_addr c) (b_size c) < a \/ e <= footer_of (b_addr c) (b_size c)).
Proof.
  intros H1 H2 [Hin|Hin]; [pose proof (contiguous_range _ _ _ _ H1 Hin)|pose proof (contiguous_range _ _ _ _ H2 Hin)];
    unfold footer_of, b_end, HDR, FTR in *; lia.
Qed.

Lemma contiguous_inside a X e c : contiguous a X e -> c ∈ X -> a <= b_addr c < e.
Proof. intros H Hc. pose proof (contiguous_range _ _ _ _ H Hc). unfold b_end, HDR, FTR in *. lia. Qed.

(** Blocks [Y] from [a] to [e] give way to blocks [X] in the same memory; only headers
    there, the link back of the block after them, and footers there have changed. *)
Lemma layout_replace s s' L1 Y L2 X a e :
  layout s (L1 ++ Y ++ L2) -> contiguous a Y e -> contiguous a X e -> Y <> [] -> X <> [] ->
  h_start s' = h_start s -> h_end s' = h_end s ->
  (forall x, x < a \/ e < x -> mains s' !! x = mains s !! x) ->
  seg (mains s') (last_addr 0 L1) X (first_addr L2 0) ->
  (forall c L2', L2 = c :: L2' -> mains s' !! b_addr c = Some (main_of c (last_addr 0 X) (first_addr L2' 0))) ->
  foots (footers s') X ->
  (forall x, x < a \/ e <= x -> footers s' !! x = footers s !! x) ->
  layout s' (L1 ++ X ++ L2).
Proof.
  intros [Hs Hf Hc H0 He _] HY HX NY NX Es Ee Hm Hsx Hl2 Hfx Hff.
  destruct (contiguous_mid _ _ _ _ _ _ _ Hc HY NY) as [Hc1 Hc2].
  pose proof (fun c => contiguous_outside _ _ _ _ _ _ c Hc1 Hc2) as Hout.
  split; [..|congruence|congruence|].
  - apply seg_app in Hs as [Hs1 [_ Hs3]%seg_app]. apply seg_app. split; [|apply seg_app; split; [done|]].
    + assert (E : first_addr (X ++ L2) 0 = first_addr (Y ++ L2) 0).
      { destruct X, Y; [done..|]. cbn. by destruct HX as [-> _], HY as [-> _]. }
      rewrite E. eapply seg_ext; [|done]. intros c Hin. apply Hm.
      pose proof (contiguous_inside _ _ _ _ Hc1 Hin). lia.
    + destruct L2 as [|c L2]; [done|]. split.
      * rewrite (Hl2 c L2) by done. f_equal. f_equal. unfold last_addr.
        by destruct (last X) eqn:EX; [|apply last_None in EX].
      * destruct Hs3 as [_ Hs3]. eapply seg_ext; [|done]. intros d Hd. apply Hm. right.
        destruct Hc2 as (<- & Hsz & Hc2). pose proof (contiguous_range _ _ _ _ Hc2 Hd).
        unfold HDR, FTR in *. lia.
  - unfold foots in *. rewrite !Forall_app in Hf |- *. destruct Hf as (Hf1 & _ & Hf2).
    split_and!; [|done|]; (eapply foots_ext; [|done]); intros c Hin; apply Hff, Hout; auto.
  - rewrite Es, Ee. apply contiguous_app. exists a. split; [done|]. apply contiguous_app. by exists e.
  - by destruct L1, X.
Qed.

Lemma order_replace s s' L1 Y L2 X a e F O O' :
  order s (L1 ++ Y ++ L2) F O -> contiguous a Y e -> contiguous a X e -> Y <> [] ->
  layout s' (L1 ++ X ++ L2) ->
  bins s' = bins s -> (forall x, x < a \/ e <= x -> links s' !! x = links s !! x) ->
  (forall x, x < a \/ e <= x -> x ∈ O' <-> x ∈ O) ->
  (forall b, b ∈ Y -> b_used b = true \/ b_addr b ∈ O) ->
  (forall b, b ∈ X -> (b_used b = true \/ b_addr b ∈ O') /\ links s' !! b_addr b = Some (0, 0)) ->
  order s' (L1 ++ X ++ L2) F O'.
Proof.
  intros [HL [Fc Fb Fl Fn F0] Ho Hfr Hh] HY HX NY HL' Eb El EO HYo HXo.
  destruct (contiguous_mid _ _ _ _ _ _ _ (lo_cont _ _ HL) HY NY) as [Hc1 Hc2].
  pose proof (fun c => contiguous_outside _ _ _ _ _ _ c Hc1 Hc2) as Hout.
  assert (Hlist : forall x, x ∈ concat F -> x < a \/ e <= x).
  { intros x (HxO & b & Hb & <- & Hu)%Hfr. rewrite !elem_of_app in Hb.
    destruct Hb as [?|[HbY|?]]; [apply Hout; auto| |apply Hout; auto].
    destruct (HYo _ HbY); congruence. }
  assert (Hin : forall b Z, b ∈ L1 ++ Z ++ L2 -> b ∈ Z \/ b ∈ L1 \/ b ∈ L2) by (intros ??; rewrite !elem_of_app; tauto).
  assert (Hbk : forall b Z, b ∈ L1 \/ b ∈ L2 -> b ∈ L1 ++ Z ++ L2) by (intros ??; rewrite !elem_of_app; tauto).
  split; [done|..].
  - split; [done|congruence| |done|done]. intros i l Hi. eapply fseg_ext; [|by eapply Fl].
    intros x Hx. apply El, Hlist. by eapply elem_of_bin.
  - intros b [HbX|Hb]%Hin; [intros _; by apply HXo|]. pose proof (proj1 (Hout _ Hb)) as Hr.
    rewrite El, EO by done. intros. apply Ho; [|done]. by apply Hbk.
  - intros x. rewrite Hfr. split; intros (HxO & b & Hb & <- & Hu).
    + apply Hin in Hb as [HbY|Hb]; [destruct (HYo _ HbY); congruence|].
      rewrite EO by (by apply Hout). split; [done|]. exists b. by split; [apply Hbk|].
    + apply Hin in Hb as [HbX|Hb]; [destruct (HXo _ HbX) as [[]]; congruence|].
      rewrite EO in HxO by (by apply Hout). split; [done|]. exists b. by split; [apply Hbk|].
  - intros i l b Hi [HbX|Hb]%Hin Hl; [|by eapply Hh; [| apply Hbk|]].
    pose proof (contiguous_inside _ _ _ _ HX HbX). pose proof (Hlist _ (elem_of_bin _ _ _ _ Hi Hl)). lia.
Qed.

(** *** Taking a block out of its list, and putting it in *)

(** A free block is a block of the layout, in the bin of its size. *)
Lemma free_block s L F O a :
  order s L F O -> a ∈ concat F ->
  exists b i l1 l2, b ∈ L /\ b_used b = false /\ b_addr b = a /\ F !! i = Some (l1 ++ a :: l2) /\
    bin_of (b_size b) = Z.of_nat i.
Proof.
  intros Hw Ha. pose proof Ha as (_ & b & Hb & <- & Hu)%(or_free _ _ _ _ Hw).
  apply list_elem_of_In, in_concat in Ha as (l & Hl & Hin). apply list_elem_of_In in Hl, Hin.
  apply list_elem_of_lookup in Hl as [i Hi]. pose proof (or_home _ _ _ _ Hw _ _ _ Hi Hb Hin) as Hbin.
  apply list_elem_of_split in Hin as (l1 & l2 & ->). by exists b, i, l1, l2.
Qed.

Lemma block_main s L b : layout s L -> b ∈ L ->
  exists p n, mains s !! b_addr b = Some (main_of b p n).
Proof. intros HL (l1 & l2 & ->)%list_elem_of_split. eauto using seg_lookup, lo_seg. Qed.

Lemma block_nonzero s L b : layout s L -> b ∈ L -> 0 < b_addr b.
Proof. intros HL Hb. destruct (contiguous_range _ _ _ _ (lo_cont _ _ HL) Hb). pose proof (lo_start _ _ HL). lia. Qed.

Lemma order_remove s L F O b :
  order s L F O -> b ∈ L -> b_used b = false -> b_addr b ∉ O ->
  wp (remove_from_free_list (b_addr b))
     (fun _ s' => relinked s s' /\ exists F', order s' L F' (b_addr b :: O)) s.
Proof.
  intros Hw Hb Hu HO. pose proof (or_layout _ _ _ _ Hw) as HL.
  assert (Hin : b_addr b ∈ concat F) by (apply (or_free _ _ _ _ Hw); eauto).
  destruct (free_block _ _ _ _ _ Hw Hin) as (c & i & l1 & l2 & Hc & _ & Hbc & Hi & Hbin).
  assert (c = b) as -> by (eapply contiguous_inj; [by eapply lo_cont|done..]).
  destruct (block_main _ _ _ HL Hb) as (p & n & Hm).
  eapply remove_spec; [by eapply or_flists|done..|]. intros s' Hre HF' Hlk.
  split; [done|]. exists (<[i := l1 ++ l2]> F).
  assert (Hmem : forall x, x ∈ concat F <-> x = b_addr b \/ x ∈ concat (<[i := l1 ++ l2]> F)).
  { intros x. rewrite (concat_split _ _ _ Hi), (concat_insert _ _ _ _ Hi). set_solver. }
  assert (Hnot : b_addr b ∉ concat (<[i := l1 ++ l2]> F)).
  { pose proof (fl_nodup _ _ (or_flists _ _ _ _ Hw)) as N. rewrite (concat_split _ _ _ Hi) in N.
    rewrite (concat_insert _ _ _ _ Hi). rewrite <- Permutation_middle in N. cbn in N. by apply NoDup_cons in N as [? _]. }
  split; [by eapply layout_relinked|done|..].
  - intros c Hc' Hout. rewrite Hlk. destruct (decide (b_addr c = b_addr b)) as [->|Hne]; [apply unlink_self|].
    rewrite unlink_out; [apply (or_out _ _ _ _ Hw); [done|rewrite elem_of_cons in *; tauto]|].
    intros Hx%(elem_of_bin _ _ _ _ Hi). apply (or_free _ _ _ _ Hw) in Hx as (Hx & d & Hd & Hdc & Hdu).
    assert (d = c) as -> by (eapply contiguous_inj; [by eapply lo_cont|done..]). rewrite elem_of_cons in Hout.
    destruct Hout as [|[|]]; congruence.
  - intros x. rewrite not_elem_of_cons. split.
    + intros Hx. assert (x <> b_addr b) by congruence.
      destruct (proj1 (or_free _ _ _ _ Hw x)) as [? ?]; [apply Hmem; by right|done].
    + intros [[Hne HxO] Hx]. destruct (proj1 (Hmem x)) as [|]; [|done..]. by apply (or_free _ _ _ _ Hw).
  - intros j l c Hj Hc' Hl. destruct (decide (i = j)) as [<-|Hne].
    + rewrite list_lookup_insert_eq in Hj by (by eapply lookup_lt_Some). injection Hj as <-.
      eapply (or_home _ _ _ _ Hw); [done..|]. set_solver.
    + rewrite list_lookup_insert_ne in Hj by done. by eapply (or_home _ _ _ _ Hw).
Qed.

Lemma bin_exists s F n : flists s F -> exists i l, F !! i = Some l /\ bin_of n = Z.of_nat i.
Proof.
  intros HF. pose proof (bin_of_range n). destruct (lookup_lt_is_Some_2 F (Z.to_nat (bin_of n))) as [l Hl].
  { rewrite (fl_count _ _ HF). unfold HEAP_MAX_BINS. lia. }
  exists (Z.to_nat (bin_of n)), l. split; [done|lia].
Qed.

Lemma order_add s L F O b :
  order s L F (b_addr b :: O) -> b ∈ L -> b_used b = false -> b_addr b ∉ O ->
  wp (add_to_free_list (b_addr b)) (fun _ s' => relinked s s' /\ exists F', order s' L F' O) s.
Proof.
  intros Hw Hb Hu HO. pose proof (or_layout _ _ _ _ Hw) as HL. pose proof (or_flists _ _ _ _ Hw) as HF.
  assert (Hnin : b_addr b ∉ concat F) by (intros [Hx _]%(or_free _ _ _ _ Hw); set_solver).
  destruct (block_main _ _ _ HL Hb) as (p & n & Hm).
  destruct (bin_exists _ _ (b_size b) HF) as (i & l & Hi & Hbin).
  eapply add_spec; [done..|pose proof (block_nonzero _ _ _ HL Hb); lia|]. intros s' Hre HF' Hlk.
  split; [done|]. exists (<[i := b_addr b :: l]> F).
  assert (Hmem : forall x, x ∈ concat (<[i := b_addr b :: l]> F) <-> x = b_addr b \/ x ∈ concat F).
  { intros x. rewrite (concat_split _ _ _ Hi), (concat_insert _ _ _ _ Hi). set_solver. }
  split; [by eapply layout_relinked|done|..].
  - intros c Hc Hout. rewrite Hlk. assert (Hcb : c <> b) by (intros ->; destruct Hout; congruence).
    rewrite push_out; [apply (or_out _ _ _ _ Hw); [done|rewrite elem_of_cons in *; tauto]|].
    rewrite elem_of_cons. intros [Heq|Hx].
    { apply Hcb. eapply contiguous_inj; [by eapply lo_cont|done..]. }
    apply (elem_of_bin _ _ _ _ Hi), (or_free _ _ _ _ Hw) in Hx as (Hx & d & Hd & Hdc & Hdu).
    assert (d = c) as -> by (eapply contiguous_inj; [by eapply lo_cont|done..]). rewrite not_elem_of_cons in Hx.
    destruct Hout; [congruence|tauto].
  - intros x. rewrite Hmem, (or_free _ _ _ _ Hw), not_elem_of_cons. split.
    + intros [->|[[_ ?] ?]]; [|done]. eauto.
    + intros [HxO Hx]. destruct (decide (x = b_addr b)); [by left|by right].
  - intros j l' c Hj Hc Hl. destruct (decide (i = j)) as [<-|Hne].
    + rewrite list_lookup_insert_eq in Hj by (by eapply lookup_lt_Some). injection Hj as <-.
      apply elem_of_cons in Hl as [Heq|Hl]; [|by eapply (or_home _ _ _ _ Hw)].
      assert (c = b) as -> by (eapply contiguous_inj; [by eapply lo_cont|done..]). done.
    + rewrite list_lookup_insert_ne in Hj by done. by eapply (or_home _ _ _ _ Hw).
Qed.

End HeapInv.
