(* ===== verification/HeapSteps.v ===== *)
(** * The heap: the search and the steps of the operations

    The search through the bins is sound and complete on a heap in order; changing a
    status, filling the inside of a block, splitting a block and absorbing the next one
    each take a heap in order to a heap in order. *)

From Stdlib Require Import ZArith Lia.
From stdpp Require Import base tactics option list gmap.
From S2P Require Import Prelude Dll Heap HeapInv.

Set Default Goal Selector "!".
Local Open Scope Z_scope.
Local Open Scope kernel_scope.

Module HeapSteps.
Import Dll Heap HeapInv.

(** ** The search *)

Definition fits (s : heap) (want a : Z) : Prop := exists m, mains s !! a = Some m /\ want <= usable (m_size m).

Lemma search_bin_spec s want p l fuel :
  fseg (links s) p l 0 -> 0 ∉ l -> (length l <= fuel)%nat ->
  wp (search_bin fuel (hd0 l) want)
     (fun r s' => s' = s /\ ((r = 0 /\ forall a, a ∈ l -> ~ fits s want a) \/ (r ∈ l /\ fits s want r))) s.
Proof.
  revert p fuel. induction l as [|a l IH]; intros p fuel Hs H0 Hf.
  - destruct fuel; cbn; wp_steps; (split; [done|]); left; (split; [done|]); intros a Ha; set_solver.
  - destruct Hs as [Ha Hs]. destruct (links_header _ _ _ _ Ha) as (h & Hh & _ & Hn).
    destruct fuel as [|fuel]; [cbn in Hf; lia|]. cbn [search_bin hd0 hd].
    destruct (Z.eqb_spec a 0) as [->|_]; [set_solver|]. rewrite wp_bind, (wp_read_header _ h) by done.
    assert (Hm : mains s !! a = Some (mainp h)) by (unfold mains; by rewrite lookup_fmap, Hh).
    destruct (Z.leb_spec want (usable (size h))).
    + wp_steps. split; [done|]. right. split; [by left|]. by exists (mainp h).
    + rewrite Hn. eapply wp_mono; [eapply (IH a); [done|set_solver|cbn in Hf; lia]|].
      intros r s' [-> [[-> Hr]|[Hr Hfit]]]; (split; [done|]).
      * left. split; [done|]. intros x [->|Hx]%elem_of_cons; [|by apply Hr].
        intros (m & Hm' & Hle). rewrite Hm in Hm'. injection Hm' as <-. cbn in Hle. lia.
      * right. split; [by right|done].
Qed.

Lemma bin_small s F i l : flists s F -> F !! i = Some l -> (length l <= map_size (headers s))%nat.
Proof.
  intros HF Hi. pose proof (bin_nodup _ _ _ (fl_nodup _ _ HF) Hi) as N.
  assert (Hsub : (list_to_set l : gset Z) ⊆ dom (headers s)).
  { intros a Ha. apply elem_of_list_to_set in Ha. apply elem_of_dom.
    eapply fseg_headers; [by eapply fl_lists|done]. }
  apply subseteq_size in Hsub. by rewrite size_list_to_set, size_dom in Hsub.
Qed.

Lemma search_bins_spec s F want n i :
  flists s F -> 0 <= i -> i + Z.of_nat n = HEAP_MAX_BINS ->
  wp (search_bins n i want)
     (fun r s' => s' = s /\
        ((r = 0 /\ forall j l a, F !! j = Some l -> i <= Z.of_nat j -> a ∈ l -> ~ fits s want a) \/
         (r ∈ concat F /\ fits s want r))) s.
Proof.
  intros HF. revert i. induction n as [|n IH]; intros i Hi Hn; cbn [search_bins].
  - wp_steps. split; [done|]. left. split; [done|]. intros j l a Hj%lookup_lt_Some Hij _.
    rewrite (fl_count _ _ HF) in Hj. lia.
  - destruct (lookup_lt_is_Some_2 F (Z.to_nat i)) as [l Hl]; [rewrite (fl_count _ _ HF); lia|].
    wp_steps. unfold get_bin. wp_steps. rewrite wp_deref. exists (hd0 l).
    split. { rewrite <- (Z2Nat.id i), arr_get_nat by lia. by rewrite (fl_bins _ _ HF), list_lookup_fmap, Hl. }
    wp_steps. eapply wp_mono.
    { eapply search_bin_spec; [by eapply fl_lists| |pose proof (bin_small _ _ _ _ HF Hl); lia].
      intros H0. eapply (fl_null _ _ HF), elem_of_bin; eauto. }
    intros r s' [-> [[-> Hr]|[Hr Hfit]]]; cbn beta.
    + cbn [Z.eqb]. eapply wp_mono; [apply (IH (i + 1)); lia|].
      intros r s' [-> [[-> Hr']|?]]; (split; [done|]); [left|by right].
      split; [done|]. intros j l' a Hj Hij Ha.
      destruct (decide (Z.of_nat j = i)) as [<-|]; [|eapply Hr'; [done|lia|done]].
      rewrite Nat2Z.id in Hl. rewrite Hl in Hj. injection Hj as <-. by apply Hr.
    + destruct (Z.eqb_spec r 0) as [->|_]; [exfalso; eapply (fl_null _ _ HF), elem_of_bin; eauto|].
      wp_steps. split; [done|]. right. split; [by eapply elem_of_bin|done].
Qed.

Lemma fits_block s L b want :
  layout s L -> b ∈ L -> fits s want (b_addr b) <-> want <= usable (b_size b).
Proof.
  intros HL Hb. destruct (block_main _ _ _ HL Hb) as (p & n & Hm). unfold fits. rewrite Hm.
  split; [by intros (? & [= <-] & ?)|]. by exists (main_of b p n).
Qed.

(** The search is sound, and finds a block whenever a free block is large enough. *)
Lemma find_spec s L F want :
  wf s L F ->
  wp (find_free_block want)
     (fun r s' => s' = s /\
        ((r = 0 /\ forall b, b ∈ L -> b_used b = false -> usable (b_size b) < want) \/
         (exists b, r = b_addr b /\ b ∈ L /\ b_used b = false /\ want <= usable (b_size b)))) s.
Proof.
  intros Hw. pose proof (or_layout _ _ _ _ Hw) as HL. pose proof (get_bin_range want).
  unfold find_free_block. cbv zeta. eapply wp_mono.
  { eapply search_bins_spec; [by eapply or_flists|lia|unfold HEAP_MAX_BINS; lia]. }
  intros r s' [-> [[-> Hr]|[Hr Hfit]]]; (split; [done|]).
  - left. split; [done|]. intros b Hb Hu. destruct (Z.lt_ge_cases (usable (b_size b)) want) as [|Hge]; [done|].
    assert (Hin : b_addr b ∈ concat F).
    { apply (or_free _ _ _ _ Hw). split; [apply not_elem_of_nil|eauto]. }
    destruct (free_block _ _ _ _ _ Hw Hin) as (c & i & l1 & l2 & Hc & _ & Hbc & Hi & Hbin).
    assert (c = b) as -> by (eapply contiguous_inj; [by eapply lo_cont|done..]).
    exfalso. eapply (Hr i _ (b_addr b)); [done| |set_solver|by eapply fits_block].
    rewrite <- Hbin, bin_of_eq. by apply get_bin_mono.
  - right. destruct (free_block _ _ _ _ _ Hw Hr) as (b & i & l1 & l2 & Hb & Hu & <- & _). exists b.
    split_and!; [done..|]. by eapply fits_block.
Qed.

(** ** Steps of the operations *)

Lemma order_same s s' L F O :
  headers s' = headers s -> footers s' = footers s -> bins s' = bins s ->
  h_start s' = h_start s -> h_end s' = h_end s -> order s L F O -> order s' L F O.
Proof.
  intros Eh Ef Eb Es Ee [[] [] ? ? ?].
  split; [split|split|..]; unfold mains, links in *; rewrite ?Eh, ?Ef, ?Eb, ?Es, ?Ee; done.
Qed.

Lemma contiguous_one b : HDR + FTR <= b_size b -> contiguous (b_addr b) [b] (b_end b).
Proof. intros. cbn. unfold b_end. auto. Qed.

Lemma layout_block s L1 b L2 :
  layout s (L1 ++ b :: L2) ->
  HDR + FTR <= b_size b /\ 0 < b_addr b /\ b_end b < 2 ^ 32 /\
  mains s !! b_addr b = Some (main_of b (last_addr 0 L1) (first_addr L2 0)) /\
  footers s !! footer_of (b_addr b) (b_size b) = Some (foot_of b).
Proof.
  intros HL. assert (Hb : b ∈ L1 ++ b :: L2) by set_solver.
  pose proof (contiguous_range _ _ _ _ (lo_cont _ _ HL) Hb). pose proof (lo_end _ _ HL).
  pose proof (block_nonzero _ _ _ HL Hb). pose proof (seg_lookup _ _ _ _ _ _ (lo_seg _ _ HL)).
  pose proof (lo_foots _ _ HL) as Hf. unfold foots in Hf. rewrite Forall_forall in Hf. pose proof (Hf _ Hb).
  split_and!; [lia..|done|done].
Qed.

(** The header of the block after [b] stays as it is. *)
Lemma next_main s L1 b L2 c L2' :
  layout s (L1 ++ b :: L2) -> L2 = c :: L2' ->
  b_addr c = b_end b /\ mains s !! b_addr c = Some (main_of c (b_addr b) (first_addr L2' 0)).
Proof.
  intros HL ->. pose proof (contiguous_around _ _ _ _ _ (lo_cont _ _ HL)) as (_ & _ & Hc).
  split; [by destruct Hc|]. pose proof (lo_seg _ _ HL) as Hs.
  change (L1 ++ b :: c :: L2') with (L1 ++ ([b] ++ c :: L2')) in Hs. rewrite app_assoc in Hs.
  apply seg_lookup in Hs. unfold last_addr in Hs. by rewrite last_snoc in Hs.
Qed.

(** One block gives way to another in its place. *)
Lemma order_one s s' L1 b L2 b' F O O' :
  order s (L1 ++ b :: L2) F O -> b_addr b' = b_addr b -> b_size b' = b_size b ->
  b_used b = true \/ b_addr b ∈ O -> b_used b' = true \/ b_addr b ∈ O' ->
  (forall x, x <> b_addr b -> x ∈ O' <-> x ∈ O) ->
  h_start s' = h_start s -> h_end s' = h_end s -> bins s' = bins s ->
  (forall x, x < b_addr b \/ b_end b <= x -> headers s' !! x = headers s !! x) ->
  mains s' !! b_addr b = Some (main_of b' (last_addr 0 L1) (first_addr L2 0)) ->
  links s' !! b_addr b = links s !! b_addr b ->
  footers s' !! footer_of (b_addr b) (b_size b) = Some (foot_of b') ->
  (forall x, x < b_addr b \/ b_end b <= x -> footers s' !! x = footers s !! x) ->
  order s' (L1 ++ b' :: L2) F O'.
Proof.
  intros Hw Ea Esz Hout Hout' EO Es Ee Eb Hh Hm Hl Hf Hff. pose proof (or_layout _ _ _ _ Hw) as HL.
  destruct (layout_block _ _ _ _ HL) as (Hsz & _ & _ & _ & _).
  assert (Hone' : contiguous (b_addr b) [b'] (b_end b)).
  { rewrite <- Ea. replace (b_end b) with (b_end b') by (unfold b_end; congruence). apply contiguous_one. lia. }
  assert (Hr : b_addr b < b_end b) by (unfold b_end, HDR, FTR in *; lia).
  change (L1 ++ b' :: L2) with (L1 ++ [b'] ++ L2).
  eapply (order_replace s _ _ [b]); [done|by apply contiguous_one|done|done| |done| | | |].
  - eapply (layout_replace s _ _ [b]); [exact HL|by apply contiguous_one|done|done|done|done|done| | | | |].
    + intros x Hx. unfold mains. rewrite !lookup_fmap, Hh by lia. done.
    + cbn. by rewrite Ea.
    + intros c L2' ->. destruct (next_main _ _ _ _ _ _ HL eq_refl) as [Hc Hmc].
      unfold mains, last_addr in *. cbn. rewrite lookup_fmap, Hh, <- lookup_fmap, Ea by lia. done.
    + constructor; [by rewrite Ea, Esz|by apply Forall_nil].
    + done.
  - intros x Hx. unfold links. by rewrite !lookup_fmap, Hh.
  - intros x Hx. apply EO. lia.
  - by intros c ->%list_elem_of_singleton.
  - intros c ->%list_elem_of_singleton. rewrite Ea, Hl. split; [done|].
    apply (or_out _ _ _ _ Hw); [set_solver|done].
Qed.

Definition with_used (u : bool) (b : blk) : blk := mk_blk (b_addr b) (b_size b) u.

Lemma order_status s L1 b L2 F O u O' Q :
  order s (L1 ++ b :: L2) F O -> b_used b = true \/ b_addr b ∈ O -> u = true \/ b_addr b ∈ O' ->
  (forall x, x <> b_addr b -> x ∈ O' <-> x ∈ O) ->
  (forall s', order s' (L1 ++ with_used u b :: L2) F O' -> Q tt s') ->
  wp (upd_header (b_addr b) (set_status (if u then HEAP_BLOCK_USED else HEAP_BLOCK_FREE))) Q s.
Proof.
  intros Hw Hout Hout' EO HQ. destruct (layout_block _ _ _ _ (or_layout _ _ _ _ Hw)) as (Hsz & Hpos & _ & Hm & Hf).
  destruct (mains_header _ _ _ Hm) as (h & Hh & Em). rewrite (wp_upd_header _ _ h) by done.
  apply HQ. eapply (order_one s); [done|done|done|done|done|done|done|done|done| | | |done|done].
  - intros x Hx. cbn. apply lookup_alter_ne. unfold b_end, HDR, FTR in *. lia.
  - unfold mains. cbn. rewrite lookup_fmap, lookup_alter_eq, Hh. cbn. f_equal.
    unfold main_of, mainp in *. cbn. injection Em as E1 E2 E3 E4 E5 E6. by rewrite E1, E2, E4, E5, E6; destruct u.
  - unfold links. cbn. by rewrite fmap_alter_same.
Qed.

(** Filling the memory between header and footer of a block. *)
Lemma fill_out {A} lo hi n (x : A) a y : a + n <= lo \/ hi <= a -> fill lo hi n x a y = Some y.
Proof.
  intros H. unfold fill. destruct (Z.leb_spec hi a); [done|]. destruct (Z.leb_spec (a + n) lo); [done|lia].
Qed.

Lemma order_memset s L1 b L2 F O lo pat n Q :
  order s (L1 ++ b :: L2) F O -> b_used b = true \/ b_addr b ∈ O ->
  b_addr b + HDR <= lo -> lo + n <= footer_of (b_addr b) (b_size b) ->
  (forall s', order s' (L1 ++ b :: L2) F O -> Q tt s') ->
  wp (memset lo pat n) Q s.
Proof.
  intros Hw Hout Hlo Hhi HQ. destruct (layout_block _ _ _ _ (or_layout _ _ _ _ Hw)) as (Hsz & Hpos & _ & Hm & Hf).
  unfold memset. cbv zeta. rewrite wp_modify. apply HQ.
  unfold footer_of, b_end, HDR, FTR in *.
  assert (Hkeep : forall {A} (m : gmap Z A) k w x, x + k <= lo \/ lo + n <= x ->
    map_imap (fill lo (lo + n) k w) m !! x = m !! x).
  { intros A m k w x Hx. rewrite map_lookup_imap. destruct (m !! x); cbn; [by apply fill_out|done]. }
  eapply (order_one s); [done|done|done|done|done|done|done|done|done|..]; cbn.
  - intros x Hx. apply Hkeep. unfold b_end, HDR in *. lia.
  - unfold mains in *. cbn. rewrite lookup_fmap, Hkeep, <- lookup_fmap by (unfold HDR; lia). done.
  - unfold links. cbn. by rewrite !lookup_fmap, Hkeep by (unfold HDR; lia).
  - unfold footer_of, FTR. rewrite Hkeep by lia. done.
  - intros x Hx. apply Hkeep. unfold b_end, FTR in *. lia.
Qed.

(** *** Splitting *)

(** Reduce reads of headers through writes to others. *)
Ltac hdr :=
  cbn [headers set_headers set_footers];
  repeat first
    [ rewrite lookup_alter_eq | rewrite lookup_insert_eq
    | rewrite lookup_alter_ne by (done || congruence || lia)
    | rewrite lookup_insert_ne by (done || congruence || lia) ].

Definition left_part (b : blk) (r : Z) : blk := mk_blk (b_addr b) r (b_used b).
Definition right_part (b : blk) (r : Z) : blk := mk_blk (b_addr b + r) (b_size b - r) false.

(** The memory after the writes of [split_block], before the new block is listed. *)
Lemma split_order s s1 L1 b L2 F O r hn h :
  order s (L1 ++ b :: L2) F O -> b_used b = true \/ b_addr b ∈ O -> (forall x, x ∈ O -> x = b_addr b) ->
  HDR + FTR <= r -> HDR + FTR <= b_size b - r -> headers s !! b_addr b = Some h ->
  h_start s1 = h_start s -> h_end s1 = h_end s -> bins s1 = bins s ->
  headers s1 !! (b_addr b + r) = Some hn -> mainp hn = main_of (right_part b r) (b_addr b) (first_addr L2 0) ->
  linkp hn = (0, 0) ->
  headers s1 !! b_addr b = Some (set_next (b_addr b + r) (set_size r h)) ->
  headers s1 !! b_end b = (match L2 with [] => id | _ => set_prev (b_addr b + r) end) <$> headers s !! b_end b ->
  (forall x, x <> b_addr b -> x <> b_addr b + r -> x <> b_end b -> headers s1 !! x = headers s !! x) ->
  footers s1 = <[footer_of (b_addr b) r := foot_of (left_part b r)]>
    (<[footer_of (b_addr b + r) (b_size b - r) := foot_of (right_part b r)]> (footers s)) ->
  order s1 (L1 ++ [left_part b r; right_part b r] ++ L2) F (b_addr b + r :: O).
Proof.
  intros Hw Hout HO Hr1 Hr2 Hh Es Ee Eb Hn Emn Eln Hb Hc Hx Ef. pose proof (or_layout _ _ _ _ Hw) as HL.
  destruct (layout_block _ _ _ _ HL) as (Hsz & Hpos & _ & Hm & Hf).
  assert (Em : mainp h = main_of b (last_addr 0 L1) (first_addr L2 0)).
  { unfold mains in Hm. rewrite lookup_fmap, Hh in Hm. by apply (inj Some). }
  assert (Hlink : linkp h = (0, 0)).
  { pose proof (or_out _ _ _ _ Hw b ltac:(set_solver) Hout) as Hl. unfold links in Hl.
    rewrite lookup_fmap, Hh in Hl. by apply (inj Some). }
  assert (HX : contiguous (b_addr b) [left_part b r; right_part b r] (b_end b)).
  { cbn. unfold b_end. split_and!; [done|lia|done|lia|lia]. }
  unfold HDR, FTR in *. assert (Hbe : b_end b = b_addr b + b_size b) by done.
  eapply (order_replace s _ _ [b]); [done|by apply contiguous_one|done|done| |done|..].
  - eapply (layout_replace s _ _ [b]); [exact HL|by apply contiguous_one|done..| | | | |].
    + intros x Hxr. unfold mains. rewrite !lookup_fmap, Hx by lia. done.
    + unfold mains. cbn. rewrite !lookup_fmap, Hb, Hn. cbn. rewrite Emn. split_and!; [|done|done].
      f_equal. unfold mainp, main_of in *. cbn. injection Em as E1 E2 E3 E4 E5 E6. by rewrite E1, E3, E4, E6.
    + intros c L2' ->. destruct (next_main _ _ _ _ _ _ HL eq_refl) as [Hca Hmc]. rewrite Hca in Hmc |- *.
      destruct (mains_header _ _ _ Hmc) as (hc & Hhc & Emc).
      unfold mains. rewrite lookup_fmap, Hc, Hhc. cbn. f_equal. unfold mainp, main_of in *. cbn.
      injection Emc as E1 E2 E3 E4 E5 E6. by rewrite E1, E2, E3, E5, E6.
    + rewrite Ef. apply Forall_cons. split; [|apply Forall_singleton]; cbn [b_addr b_size left_part right_part].
      * apply lookup_insert_eq.
      * rewrite lookup_insert_ne by (unfold footer_of, FTR; lia). apply lookup_insert_eq.
    + intros x Hxr. rewrite Ef, !lookup_insert_ne; [done|unfold footer_of, FTR; lia..].
  - intros x Hxr. unfold links. rewrite !lookup_fmap. destruct (decide (x = b_end b)) as [->|].
    + rewrite Hc. destruct (headers s !! b_end b); [|done]. by destruct L2.
    + rewrite Hx by lia. done.
  - intros x Hxr. rewrite elem_of_cons. split; [intros [|]; [lia|done]|by right].
  - by intros c ->%list_elem_of_singleton.
  - intros c [->|[->|?%not_elem_of_nil]%elem_of_cons]%elem_of_cons; [| |done]; unfold links; rewrite lookup_fmap;
      cbn [b_addr b_used left_part right_part]; rewrite elem_of_cons.
    + split; [tauto|]. rewrite Hb. by rewrite <- Hlink.
    + split; [auto|]. rewrite Hn. by rewrite <- Eln.
Qed.

Lemma order_split s L1 b L2 F O n Q :
  order s (L1 ++ b :: L2) F O -> b_used b = true \/ b_addr b ∈ O -> (forall x, x ∈ O -> x = b_addr b) ->
  0 <= n -> n + HDR + FTR <= b_size b ->
  (b_size b - (n + HDR + FTR) < 32 + HDR + FTR -> Q 0 s) ->
  (forall s' F', 32 + HDR + FTR <= b_size b - (n + HDR + FTR) ->
     order s' (L1 ++ [left_part b (n + HDR + FTR); right_part b (n + HDR + FTR)] ++ L2) F' O ->
     Q (b_addr b + (n + HDR + FTR)) s') ->
  wp (split_block (b_addr b) n) Q s.
Proof.
  intros Hw Hout HO Hn Hfit Hno Hyes. pose proof (or_layout _ _ _ _ Hw) as HL.
  destruct (layout_block _ _ _ _ HL) as (Hsz & Hpos & Hend & Hm & Hf).
  destruct (mains_header _ _ _ Hm) as (h & Hh & Em).
  assert (Esz : size h = b_size b) by (by injection Em).
  assert (Enx : next h = first_addr L2 0) by (by injection Em).
  unfold split_block. rewrite wp_bind, (wp_read_header _ h) by done. cbv zeta.
  unfold b_end in Hend. set (r := n + HDR + FTR) in *.
  rewrite Esz, (u32_small r), (u32_small (b_size b - r)) by (unfold r, HDR, FTR in *; lia).
  destruct (Z.leb_spec (32 + HDR + FTR) (b_size b - r)) as [Hbig|Hsmall]; [|apply wp_ret; by apply Hno].
  assert (Htail : forall s1, order s1 (L1 ++ [left_part b r; right_part b r] ++ L2) F (b_addr b + r :: O) ->
    wp (add_to_free_list (b_addr b + r) ;;;
        on_stats (fun t => set_free_bytes (u32 (free_bytes t - r)) t) ;;; ret (b_addr b + r)) Q s1).
  { intros s1 Hw1. rewrite wp_bind. eapply wp_mono.
    - eapply (order_add s1 _ _ _ (right_part b r)); [exact Hw1|set_solver|done|].
      intros E%HO. cbn in E. unfold HDR, FTR in *. lia.
    - intros [] s2 [_ [F' Hw2]]. unfold on_stats. wp_steps. eapply Hyes; [done|].
      by eapply order_same; [..|exact Hw2]. }
  unfold write_header, write_footer. wp_steps. rewrite Enx.
  assert (Hne : b_addr b <> b_addr b + r /\ b_end b <> b_addr b /\ b_end b <> b_addr b + r).
  { unfold b_end, HDR, FTR in *. lia. }
  destruct Hne as (Hne1 & Hne2 & Hne3).
  rewrite (wp_upd_header _ _ h) by (cbn; by rewrite lookup_insert_ne).
  destruct L2 as [|c L2]; cbn [first_addr].
  - cbn [Z.eqb negb]. wp_steps. rewrite <- wp_bind. apply Htail.
    eapply (split_order s _ _ _ _ _ _ r); try done; try (unfold r, HDR, FTR in *; lia); hdr; rewrite ?Hh; try done.
    + by destruct (headers s !! b_end b).
    + intros x ???. hdr. done.
  - destruct (next_main _ _ _ _ _ _ HL eq_refl) as [Hca Hmc].
    destruct (mains_header _ _ _ Hmc) as (hc & Hhc & Emc). rewrite Hca in *.
    destruct (Z.eqb_spec (b_end b) 0) as [E0|_]; [unfold b_end, HDR, FTR in *; lia|]. cbn [negb].
    wp_steps. rewrite (wp_upd_header _ _ hc) by (hdr; done). wp_steps. rewrite <- wp_bind. apply Htail.
    eapply (split_order s _ _ _ _ _ _ r); try done; try (unfold r, HDR, FTR in *; lia); hdr; rewrite ?Hh; try done.
    + cbn. by rewrite Hca.
    + intros x ???. hdr. done.
Qed.

(** *** Absorbing the next block *)

Definition joined (b c : blk) : blk := mk_blk (b_addr b) (b_size b + b_size c) (b_used b).

Lemma absorb_order s s1 L1 b c L2 F O O' h :
  order s (L1 ++ b :: c :: L2) F O -> b_used b = true \/ b_addr b ∈ O -> b_used c = true \/ b_addr c ∈ O ->
  b_used b = true \/ b_addr b ∈ O' ->
  (forall x, x < b_addr b \/ b_end c <= x -> x ∈ O' <-> x ∈ O) -> headers s !! b_addr b = Some h ->
  h_start s1 = h_start s -> h_end s1 = h_end s -> bins s1 = bins s ->
  headers s1 !! b_addr b = Some (set_next (first_addr L2 0) (set_size (b_size b + b_size c) h)) ->
  headers s1 !! b_end c = (match L2 with [] => id | _ => set_prev (b_addr b) end) <$> headers s !! b_end c ->
  (forall x, x <> b_addr b -> x <> b_end c -> headers s1 !! x = headers s !! x) ->
  footers s1 = <[footer_of (b_addr b) (b_size b + b_size c) := foot_of (joined b c)]> (footers s) ->
  order s1 (L1 ++ [joined b c] ++ L2) F O'.
Proof.
  intros Hw Hb Hc Hb' EO Hh Es Ee Eb Hhb Hhe Hx Ef. pose proof (or_layout _ _ _ _ Hw) as HL.
  destruct (layout_block _ _ _ _ HL) as (Hsz & Hpos & _ & Hm & _).
  destruct (next_main _ _ _ _ _ _ HL eq_refl) as [Hca Hmc].
  assert (HL' := HL). change (L1 ++ b :: c :: L2) with (L1 ++ [b] ++ (c :: L2)) in HL'. rewrite app_assoc in HL'.
  destruct (layout_block _ _ _ _ HL') as (Hsc & _ & _ & _ & _).
  assert (Em : mainp h = main_of b (last_addr 0 L1) (b_addr c)).
  { unfold mains in Hm. rewrite lookup_fmap, Hh in Hm. by apply (inj Some). }
  assert (Hlink : linkp h = (0, 0)).
  { pose proof (or_out _ _ _ _ Hw b ltac:(set_solver) Hb) as Hl. unfold links in Hl.
    rewrite lookup_fmap, Hh in Hl. by apply (inj Some). }
  unfold HDR, FTR in *. assert (Hbe : b_end c = b_addr b + (b_size b + b_size c)) by (unfold b_end in *; lia).
  assert (HY : contiguous (b_addr b) [b; c] (b_end c)).
  { cbn. rewrite Hbe. unfold b_end, HDR, FTR in *. split_and!; lia. }
  assert (HX : contiguous (b_addr b) [joined b c] (b_end c)).
  { cbn. rewrite Hbe. unfold HDR, FTR. split_and!; lia. }
  eapply (order_replace s _ _ [b; c]); [exact Hw|exact HY|exact HX|done| |done|..].
  - eapply (layout_replace s _ _ [b; c]); [exact HL|exact HY|exact HX|done|done|done|done|..].
    + intros x Hxr. unfold mains. rewrite !lookup_fmap, Hx by lia. done.
    + unfold mains. cbn [seg b_addr joined]. rewrite !lookup_fmap, Hhb. split; [|done]. cbn. f_equal.
      unfold mainp, main_of in *. cbn. injection Em as E1 E2 E3 E4 E5 E6. by rewrite E1, E3, E4, E6.
    + intros d L2' ->. change (L1 ++ [b] ++ c :: d :: L2') with (L1 ++ [b] ++ [c] ++ d :: L2') in HL.
      destruct (next_main _ _ _ _ _ _ HL' eq_refl) as [Hda Hmd]. rewrite Hda in Hmd |- *.
      destruct (mains_header _ _ _ Hmd) as (hd & Hhd & Emd).
      unfold mains. rewrite lookup_fmap, Hhe, Hhd. cbn. f_equal. unfold mainp, main_of in *. cbn.
      injection Emd as E1 E2 E3 E4 E5 E6. by rewrite E1, E2, E3, E5, E6.
    + rewrite Ef. apply Forall_singleton. apply lookup_insert_eq.
    + intros x Hxr. rewrite Ef, lookup_insert_ne; [done|unfold footer_of, FTR; lia].
  - intros x Hxr. unfold links. rewrite !lookup_fmap. destruct (decide (x = b_end c)) as [->|].
    + rewrite Hhe. destruct (headers s !! b_end c); [|done]. by destruct L2.
    + rewrite Hx by lia. done.
  - done.
  - by intros d [-> | ->%list_elem_of_singleton]%elem_of_cons.
  - intros d ->%list_elem_of_singleton. split; [done|]. unfold links. rewrite lookup_fmap. cbn [b_addr joined].
    rewrite Hhb. by rewrite <- Hlink.
Qed.

Lemma order_absorb s L1 b c L2 F O O' Q :
  order s (L1 ++ b :: c :: L2) F O -> b_used b = true \/ b_addr b ∈ O -> b_used c = true \/ b_addr c ∈ O ->
  b_used b = true \/ b_addr b ∈ O' ->
  (forall x, x < b_addr b \/ b_end c <= x -> x ∈ O' <-> x ∈ O) ->
  (forall s', order s' (L1 ++ [joined b c] ++ L2) F O' -> Q tt s') ->
  wp (absorb (b_addr b) (b_addr c)) Q s.
Proof.
  intros Hw Hb Hc Hb' EO HQ. pose proof (or_layout _ _ _ _ Hw) as HL.
  destruct (layout_block _ _ _ _ HL) as (Hsz & Hpos & _ & Hm & _).
  destruct (next_main _ _ _ _ _ _ HL eq_refl) as [Hca Hmc].
  assert (HL' := HL). change (L1 ++ b :: c :: L2) with (L1 ++ [b] ++ (c :: L2)) in HL'. rewrite app_assoc in HL'.
  destruct (layout_block _ _ _ _ HL') as (Hsc & _ & Hend & _ & _).
  destruct (mains_header _ _ _ Hm) as (h & Hh & Em). destruct (mains_header _ _ _ Hmc) as (o & Ho & Eo).
  assert (Hne : b_end c <> b_addr b) by (unfold b_end, HDR, FTR in *; lia).
  assert (Eos : size o = b_size c) by (by injection Eo). assert (Eon : next o = first_addr L2 0) by (by injection Eo).
  assert (Ehs : size h = b_size b) by (by injection Em).
  unfold absorb. rewrite wp_bind, (wp_read_header _ o) by done. rewrite wp_bind.
  rewrite (wp_upd_header _ _ h), Eon by done. unfold b_end, HDR, FTR in *.
  assert (Hsum : u32 (size h + size o) = b_size b + b_size c) by (rewrite Ehs, Eos; apply u32_small; lia).
  assert (Hrun : forall s1, headers s1 !! b_addr b = Some (set_next (next o) (set_size (u32 (size h + size o)) h)) ->
    order (set_footers (<[footer_of (b_addr b) (b_size b + b_size c) := foot_of (joined b c)]> (footers s1)) s1)
      (L1 ++ [joined b c] ++ L2) F O' ->
    wp (h <- read_header (b_addr b) ;; write_footer (b_addr b) (size h)) Q s1).
  { intros s1 H1 Hw1. rewrite wp_bind, wp_read_header by done. unfold write_footer. cbn [size set_size set_next].
    rewrite Hsum. apply HQ. exact Hw1. }
  wp_steps. destruct L2 as [|d L2]; cbn [first_addr].
  - cbn [Z.eqb negb]. wp_steps. rewrite <- wp_bind. apply Hrun; [hdr; rewrite Hh; by rewrite Eon|].
    eapply (absorb_order s); try done; hdr; rewrite ?Hh; cbn; rewrite ?Hsum, ?Eon; try done.
    + hdr. by destruct (headers s !! b_end c).
    + intros x ??. hdr. done.
  - destruct (next_main _ _ _ _ _ _ HL' eq_refl) as [Hda Hmd].
    destruct (mains_header _ _ _ Hmd) as (hd & Hhd & Emd). rewrite Hda in *.
    destruct (Z.eqb_spec (b_end c) 0) as [E0|_]; [unfold b_end in *; lia|]. cbn [negb].
    wp_steps. rewrite (wp_upd_header _ _ hd) by (hdr; done).
    apply Hrun; [hdr; rewrite Hh, Eon; cbn; by rewrite Hda|].
    eapply (absorb_order s); try done; hdr; rewrite ?Hh; cbn; rewrite ?Hsum, ?Eon; cbn; rewrite ?Hda; try done.
    intros x ??. hdr. done.
Qed.

End HeapSteps.
