(* ===== verification/HeapThms.v ===== *)
(** * What the heap promises

    On a heap in order, an allocation takes a free block that is large enough, cut to
    size, whenever there is one; a release gives a block back, merged with the free
    block after it; the heap stays in order and its own check accepts it. When the
    block before a released block is free, the merge leaves the block in its bin and
    the release adds it a second time: the heap then hands out the same memory twice. *)

From Stdlib Require Import ZArith Lia.
From stdpp Require Import base tactics option list gmap.
From S2P Require Import Prelude Dll Heap HeapInv HeapSteps.

Set Default Goal Selector "!".
Local Open Scope Z_scope.
Local Open Scope kernel_scope.

Module HeapThms.
Import Dll Heap HeapInv HeapSteps.

(** ** Sizes *)

Lemma land_high x : 0 <= x < 2 ^ 32 -> Z.land x (u32 (Z.lnot (HEAP_ALIGN - 1))) = 16 * (x / 16).
Proof.
  intros Hx. replace (u32 (Z.lnot (HEAP_ALIGN - 1))) with (Z.shiftl (Z.ones 28) 4) by reflexivity.
  assert (E : Z.land x (Z.shiftl (Z.ones 28) 4) = Z.shiftl (Z.land (Z.shiftr x 4) (Z.ones 28)) 4).
  { apply Z.bits_inj'. intros i Hi. rewrite Z.land_spec, !Z.shiftl_spec by done.
    destruct (Z.lt_ge_cases i 4).
    - rewrite !(Z.testbit_neg_r _ (i - 4)) by lia. by rewrite andb_false_r.
    - rewrite Z.land_spec, Z.shiftr_spec by lia. by replace (i - 4 + 4) with i by lia. }
  rewrite E, Z.land_ones, Z.shiftr_div_pow2, Z.shiftl_mul_pow2 by lia.
  change (2 ^ 4) with 16. rewrite Z.mod_small; [lia|]. split; [apply Z.div_pos; lia|]. apply Z.div_lt_upper_bound; lia.
Qed.

(** The size an allocation asks for. *)
Definition granted (n : Z) : Z := align16 (if n <? 16 then 16 else n).

Lemma granted_spec n : 0 <= n <= 4080 -> n <= granted n /\ 16 <= granted n <= 4080.
Proof.
  intros Hn. unfold granted. destruct (Z.ltb_spec n 16).
  { replace (align16 16) with 16 by reflexivity. lia. }
  unfold align16.
  destruct (Z.eqb_spec (n mod HEAP_ALIGN) 0); cbn [negb]; [lia|].
  rewrite (u32_small (n + HEAP_ALIGN)), land_high by (unfold HEAP_ALIGN; lia). unfold HEAP_ALIGN in *.
  pose proof (Z.div_mod (n + 16) 16). pose proof (Z.mod_pos_bound (n + 16) 16).
  pose proof (Z.div_mod n 16). pose proof (Z.mod_pos_bound n 16).
  replace ((n + 16) / 16) with (n / 16 + 1) in * by (rewrite <- (Z.mul_1_l 16) at 2; by rewrite Z.div_add). lia.
Qed.

Lemma usable_block s L b : layout s L -> b ∈ L -> usable (b_size b) = b_size b - 56.
Proof.
  intros HL Hb. destruct (contiguous_range _ _ _ _ (lo_cont _ _ HL) Hb) as (? & ? & ?).
  pose proof (lo_start _ _ HL). pose proof (lo_end _ _ HL).
  unfold usable. unfold b_end, HDR, FTR in *. rewrite u32_small; lia.
Qed.

(** ** Allocation *)

(** The block that is handed out, and what is left of the block it comes from. *)
Definition carved (b : blk) (r : Z) : list blk :=
  if b_size b - r <? 32 + HDR + FTR then [with_used true b]
  else [with_used true (left_part b r); right_part b r].

Lemma alloc_tail s L1 b L2 F n (Q : Z -> heap -> Prop) :
  order s (L1 ++ b :: L2) F [b_addr b] -> 16 <= n -> n + 56 <= b_size b ->
  (forall s' F', wf s' (L1 ++ carved b (n + 56) ++ L2) F' -> Q (b_addr b + HDR) s') ->
  wp (_new <- split_block (b_addr b) n ;;
      upd_header (b_addr b) (set_status HEAP_BLOCK_USED) ;;;
      h <- read_header (b_addr b) ;;
      on_stats (count_alloc (usable (size h)) (size h) n) ;;;
      memset (b_addr b + HDR) 0 n ;;;
      ret (b_addr b + HDR)) Q s.
Proof.
  intros Hw Hn Hfit HQ.
  assert (Hmark : forall s1 c X F1, b_addr c = b_addr b -> n + 56 <= b_size c ->
    order s1 (L1 ++ c :: X) F1 [b_addr b] ->
    (forall s' F', wf s' (L1 ++ with_used true c :: X) F' -> Q (b_addr b + HDR) s') ->
    wp (upd_header (b_addr b) (set_status HEAP_BLOCK_USED) ;;;
      h <- read_header (b_addr b) ;;
      on_stats (count_alloc (usable (size h)) (size h) n) ;;;
      memset (b_addr b + HDR) 0 n ;;;
      ret (b_addr b + HDR)) Q s1).
  { intros s1 c X F1 Ea Hc Hw1 HQ1. rewrite wp_bind, <- Ea.
    apply (order_status s1 L1 c X F1 [b_addr b] true []); [done|right; set_solver|by left|set_solver|].
    intros s2 Hw2. destruct (layout_block _ _ _ _ (or_layout _ _ _ _ Hw2)) as (_ & _ & _ & Hm & _).
    destruct (mains_header _ _ _ Hm) as (h & Hh & _). cbn in Hh. rewrite wp_bind, (wp_read_header _ h) by done.
    unfold on_stats. rewrite wp_bind, wp_modify, wp_bind.
    eapply (order_memset _ L1 (with_used true c) X F1 []).
    - by eapply order_same; [..|exact Hw2].
    - by left.
    - cbn. lia.
    - unfold footer_of. cbn. unfold HDR, FTR. lia.
    - intros s3 Hw3. apply wp_ret. rewrite Ea. by eapply HQ1. }
  unfold carved, HDR, FTR in *. rewrite wp_bind.
  eapply (order_split s L1 b L2 F [b_addr b] n); [done|right; set_solver|set_solver|lia|unfold HDR, FTR; lia|..].
  - intros Hs. eapply (Hmark _ b); [done|done|done|]. intros s' F' Hw'. eapply HQ.
    unfold HDR, FTR in Hs. destruct (Z.ltb_spec (b_size b - (n + 56)) (32 + 40 + 16)); [exact Hw'|lia].
  - intros s' F' Hs Hw'. unfold HDR, FTR in *. replace (n + 40 + 16) with (n + 56) in * by lia.
    eapply (Hmark _ (left_part b (n + 56))); [done|cbn; lia|exact Hw'|]. intros s2 F2 Hw2. eapply HQ.
    destruct (Z.ltb_spec (b_size b - (n + 56)) (32 + 40 + 16)); [lia|exact Hw2].
Qed.

(** What an allocation does with a heap in order, when the page allocator has nothing. *)
Definition alloc_post (L : list blk) (n p : Z) (s' : heap) : Prop :=
  (p = 0 /\ (exists F', wf s' L F') /\ forall b, b ∈ L -> b_used b = false -> b_size b < granted n + 56) \/
  (exists L1 b L2 F', L = L1 ++ b :: L2 /\ b_used b = false /\ granted n + 56 <= b_size b /\
     p = b_addr b + HDR /\ wf s' (L1 ++ carved b (granted n + 56) ++ L2) F').

Lemma heap_alloc_spec s L F n :
  wf s L F -> 0 <= n <= 4080 -> wp (heap_alloc n 0) (alloc_post L n) s.
Proof.
  intros Hw Hn. pose proof (granted_spec n Hn) as (_ & Hg1 & Hg2). pose proof (or_layout _ _ _ _ Hw) as HL.
  unfold heap_alloc. cbv zeta. fold (granted n).
  destruct (Z.leb_spec PAGE_SIZE (granted n)) as [E|_]; [unfold PAGE_SIZE in E; lia|].
  rewrite wp_bind. eapply wp_mono; [by eapply find_spec|].
  intros r s' [-> [[-> Hno]|(b & -> & Hb & Hu & Hle)]]; cbn beta.
  - cbn [Z.eqb]. unfold heap_extend, log_event. cbv zeta. wp_steps. cbn [Z.eqb]. wp_steps. left. split; [done|].
    split; [exists F; by eapply order_same; [..|exact Hw]|].
    intros b Hb Hu. specialize (Hno b Hb Hu). rewrite (usable_block _ _ _ HL Hb) in Hno. lia.
  - rewrite (usable_block _ _ _ HL Hb) in Hle. pose proof (block_nonzero _ _ _ HL Hb) as Hpos.
    destruct (Z.eqb_spec (b_addr b) 0) as [|_]; [lia|]. wp_steps.
    destruct (Z.eqb_spec (b_addr b) 0) as [|_]; [lia|]. rewrite wp_bind.
    eapply wp_mono; [eapply (order_remove _ _ _ _ b); [exact Hw|done|done|apply not_elem_of_nil]|].
    intros [] s1 [_ [F1 Hw1]]. pose proof Hb as (L1 & L2 & ->)%list_elem_of_split.
    eapply alloc_tail; [done|done|lia|]. intros s2 F2 Hw2. right. exists L1, b, L2, F2. split_and!; try done. lia.
Qed.

(** ** Release *)

(** The block [b] after its release, with the free block after it. *)
Definition released (b : blk) (L2 : list blk) : list blk :=
  match L2 with
  | c :: L2' => if b_used c then with_used false b :: L2 else joined (with_used false b) c :: L2'
  | [] => [with_used false b]
  end.

Definition last_free (L : list blk) : bool := match last L with Some b => negb (b_used b) | None => false end.

Lemma validate_ok s L1 b L2 : layout s (L1 ++ b :: L2) ->
  forall Q : bool -> heap -> Prop, wp (validate_block (b_addr b)) Q s <-> Q true s.
Proof.
  intros HL Q. destruct (layout_block _ _ _ _ HL) as (_ & _ & _ & Hm & Hf).
  destruct (mains_header _ _ _ Hm) as (h & Hh & Em). unfold mainp, main_of in Em.
  injection Em as E1 E2 E3 E4 E5 E6.
  unfold validate_block. rewrite wp_bind, (wp_read_header _ h) by done. cbv zeta.
  rewrite E1, E2, E6, !Z.eqb_refl. cbn [negb]. wp_steps. rewrite wp_deref, Hf. split.
  - intros (f & [= <-] & H). cbn [foot_of f_magic f_header_ptr f_size f_canary] in H.
    rewrite !Z.eqb_refl in H. exact H.
  - intros H. exists (foot_of b). split; [done|]. cbn [foot_of f_magic f_header_ptr f_size f_canary].
    rewrite !Z.eqb_refl. exact H.
Qed.

Lemma wp_is_free s L1 b L2 Q :
  layout s (L1 ++ b :: L2) -> wp (is_free_at (b_addr b)) Q s <-> Q (negb (b_used b)) s.
Proof.
  intros HL. destruct (layout_block _ _ _ _ HL) as (_ & Hpos & _ & Hm & Hf).
  destruct (mains_header _ _ _ Hm) as (h & Hh & Em). injection Em as E1 E2 E3 E4 E5 E6.
  unfold is_free_at. destruct (Z.eqb_spec (b_addr b) 0); [lia|]. rewrite wp_bind, (wp_read_header _ h), wp_ret, E3 by done.
  unfold b_status. by destruct (b_used b).
Qed.

(** The first half of the merge on a block that is free but in no list. *)
Lemma merge_next_spec s L1 b L2 F (Q : bool -> heap -> Prop) :
  order s (L1 ++ b :: L2) F [b_addr b] -> b_used b = false ->
  (forall s' b' L2' F', released b L2 = b' :: L2' -> b_addr b' = b_addr b -> b_used b' = false ->
     order s' (L1 ++ b' :: L2') F' [b_addr b] -> Q true s') ->
  wp (merge_next (b_addr b)) Q s.
Proof.
  intros Hw Hu HQ. pose proof (or_layout _ _ _ _ Hw) as HL.
  assert (Eb : with_used false b = b) by (destruct b; cbn in Hu; by rewrite Hu).
  destruct (layout_block _ _ _ _ HL) as (Hsz & Hpos & _ & Hm & Hf).
  destruct (mains_header _ _ _ Hm) as (h & Hh & Em). injection Em as _ _ _ _ E5 _.
  unfold merge_next. rewrite wp_bind, (wp_read_header _ h) by done. rewrite wp_bind, E5. unfold released in HQ. rewrite Eb in HQ.
  destruct L2 as [|c L2]; cbn [first_addr].
  - unfold is_free_at. cbn [Z.eqb]. wp_steps. by eapply HQ.
  - assert (HL' := HL). change (L1 ++ b :: c :: L2) with (L1 ++ [b] ++ c :: L2) in HL'. rewrite app_assoc in HL'.
    rewrite wp_is_free by exact HL'. destruct (b_used c) eqn:Huc; cbn [negb].
    { wp_steps. by eapply HQ. }
    rewrite wp_bind, validate_ok by exact HL'. cbn [negb]. rewrite wp_bind.
    destruct (next_main _ _ _ _ _ _ HL eq_refl) as [Hca _].
    eapply wp_mono; [eapply (order_remove _ _ _ _ c); [done|set_solver|done|]|].
    { intros E%list_elem_of_singleton. unfold b_end, HDR, FTR in *. lia. }
    intros [] s1 [_ [F1 Hw1]]. rewrite wp_bind.
    eapply (order_absorb _ _ _ _ _ _ _ [b_addr b]); [done|right; set_solver|right; set_solver|right; set_solver| |].
    + intros x Hx. destruct (layout_block _ _ _ _ HL') as (? & _).
      assert (x <> b_addr c) by (unfold b_end, HDR, FTR in *; lia). rewrite !elem_of_cons. tauto.
    + intros s2 Hw2. unfold on_stats. wp_steps. eapply HQ; [done|done|done|].
      by eapply order_same; [..|exact Hw2].
Qed.

(** The second half does nothing when the block before is in use. *)
Lemma merge_prev_none s L1 b L2 F O Q :
  order s (L1 ++ b :: L2) F O -> last_free L1 = false -> Q (b_addr b) s -> wp (merge_prev (b_addr b)) Q s.
Proof.
  intros Hw Hl HQ. pose proof (or_layout _ _ _ _ Hw) as HL.
  destruct (layout_block _ _ _ _ HL) as (_ & _ & _ & Hm & _).
  destruct (mains_header _ _ _ Hm) as (h & Hh & Em). injection Em as _ _ _ E4 _ _.
  unfold merge_prev. rewrite wp_bind, (wp_read_header _ h), wp_bind, E4 by done. unfold last_free, last_addr in *.
  destruct L1 as [|c L1 _] using rev_ind; cbn [last].
  - unfold is_free_at. cbn [Z.eqb]. wp_steps. done.
  - rewrite last_snoc in Hl |- *. rewrite <- app_assoc in HL. rewrite wp_is_free by exact HL.
    rewrite Hl. cbn [negb]. wp_steps. done.
Qed.

Lemma heap_free_spec s L1 b L2 F :
  wf s (L1 ++ b :: L2) F -> b_used b = true -> last_free L1 = false -> guarded_page (b_addr b + HDR) = None ->
  wp (heap_free (b_addr b + HDR)) (fun _ s' => exists F', wf s' (L1 ++ released b L2) F') s.
Proof.
  intros Hw Hu Hl Hg. pose proof (or_layout _ _ _ _ Hw) as HL.
  destruct (layout_block _ _ _ _ HL) as (Hsz & Hpos & Hend & Hm & _).
  destruct (mains_header _ _ _ Hm) as (h & Hh & Em). injection Em as _ E2 E3 _ _ _.
  unfold heap_free. destruct (Z.eqb_spec (b_addr b + HDR) 0) as [E|_]; [unfold HDR in E; lia|].
  rewrite Hg. cbv zeta. replace (b_addr b + HDR - HDR) with (b_addr b) by lia.
  rewrite wp_bind, validate_ok by done. cbn [negb]. rewrite wp_bind, (wp_read_header _ h) by done.
  unfold b_status in E3. rewrite Hu in E3. rewrite E3. cbn [Z.eqb HEAP_BLOCK_USED HEAP_BLOCK_FREE].
  rewrite wp_bind. apply (order_status s L1 b L2 F [] false [b_addr b]); [done|by left|right; set_solver|set_solver|].
  intros s1 Hw1. unfold on_stats. rewrite wp_bind, wp_modify, wp_bind.
  assert (Hus : usable (size h) = b_size b - 56) by (rewrite E2; eapply usable_block; [done|set_solver]).
  eapply (order_memset _ L1 (with_used false b) L2 F [b_addr b]); [by eapply order_same; [..|exact Hw1]|right; set_solver|..].
  { cbn. lia. }
  { rewrite Hus. unfold footer_of. cbn. unfold HDR, FTR. lia. }
  intros s2 Hw2. rewrite wp_bind. unfold merge_blocks.
  destruct (Z.eqb_spec (b_addr b) 0) as [|_]; [lia|].
  destruct (layout_block _ _ _ _ (or_layout _ _ _ _ Hw2)) as (_ & _ & _ & Hm2 & _).
  destruct (mains_header _ _ _ Hm2) as (h2 & Hh2 & Em2). injection Em2 as _ _ E3' _ _ _.
  rewrite wp_bind, (wp_read_header _ h2), E3' by done. cbn [b_status with_used b_used Z.eqb negb HEAP_BLOCK_FREE].
  rewrite wp_bind. apply (merge_next_spec s2 L1 (with_used false b) L2 F); [done|done|].
  intros s3 b3 L3 F3 E Ha3 Hu3 Hw3. cbn [negb]. cbn in Ha3, Hw3. rewrite <- Ha3 in Hw3 |- *.
  eapply merge_prev_none; [exact Hw3|done|].
  eapply wp_mono; [eapply order_add; [exact Hw3|set_solver|done|apply not_elem_of_nil]|].
  intros [] s4 [_ [F4 Hw4]]. exists F4. assert (E' : released b L2 = b3 :: L3) by (rewrite <- E; by destruct L2).
  by rewrite E'.
Qed.

(** ** Creation *)

Lemma concat_replicate_nil {A} k : concat (replicate k (@nil A)) = [].
Proof. by induction k. Qed.

(** One free block that fills the memory of the heap. *)
Lemma single_wf s b h :
  headers s !! b_addr b = Some h -> mainp h = main_of b 0 0 -> linkp h = (0, 0) ->
  footers s !! footer_of (b_addr b) (b_size b) = Some (foot_of b) -> b_used b = false ->
  h_start s = b_addr b -> h_end s = b_end b -> 0 < b_addr b -> HDR + FTR <= b_size b -> b_end b < 2 ^ 32 ->
  bins s = <[Z.to_nat (bin_of (b_size b)) := b_addr b]> (replicate (Z.to_nat HEAP_MAX_BINS) 0) ->
  exists F, wf s [b] F.
Proof.
  intros Hh Em El Hf Hu Es Ee Hpos Hsz Hend Eb. pose proof (bin_of_range (b_size b)) as Hbin.
  set (i := Z.to_nat (bin_of (b_size b))) in *.
  assert (Hi : replicate (Z.to_nat HEAP_MAX_BINS) (@nil Z) !! i = Some []).
  { apply lookup_replicate. split; [done|]. unfold HEAP_MAX_BINS, i. lia. }
  set (F := <[i := [b_addr b]]> (replicate (Z.to_nat HEAP_MAX_BINS) (@nil Z))).
  assert (Hcat : concat F ≡ₚ [b_addr b]).
  { unfold F. rewrite (concat_insert _ _ _ _ Hi). pose proof (concat_split _ _ _ Hi) as Hd.
    rewrite concat_replicate_nil in Hd. by rewrite <- Hd. }
  assert (Hl : links s !! b_addr b = Some (0, 0)) by (unfold links; by rewrite lookup_fmap, Hh, <- El).
  assert (HF : forall j l, F !! j = Some l -> l = [] \/ (j = i /\ l = [b_addr b])).
  { intros j l Hj. unfold F in Hj. destruct (decide (i = j)) as [<-|Hne].
    - rewrite list_lookup_insert_eq in Hj by (by eapply lookup_lt_Some). injection Hj as <-. auto.
    - rewrite list_lookup_insert_ne in Hj by done. apply lookup_replicate in Hj as [-> _]. auto. }
  exists F. split; [split|split|..].
  - cbn. unfold mains. by rewrite lookup_fmap, Hh, <- Em.
  - by apply Forall_singleton.
  - rewrite Es, Ee. by apply contiguous_one.
  - lia.
  - lia.
  - done.
  - unfold F. by rewrite length_insert, length_replicate.
  - unfold F. rewrite Eb, list_fmap_insert. by rewrite fmap_replicate.
  - intros j l [->|[-> ->]]%HF; [done|]. by split.
  - rewrite Hcat. apply NoDup_singleton.
  - rewrite Hcat, list_elem_of_singleton. lia.
  - intros c ->%list_elem_of_singleton [?|?%not_elem_of_nil]; [congruence|done].
  - intros a. rewrite Hcat, list_elem_of_singleton. split.
    + intros ->. split; [apply not_elem_of_nil|]. exists b. split; [by apply list_elem_of_singleton|done].
    + by intros (_ & c & ->%list_elem_of_singleton & <- & _).
  - intros j l c [->|[-> ->]]%HF ->%list_elem_of_singleton Hin; [by apply not_elem_of_nil in Hin|].
    unfold i. lia.
Qed.

Lemma aligned_start start : 0 < start < 2 ^ 32 - 16 ->
  start <= (if negb (start mod HEAP_ALIGN =? 0)
            then Z.land (u32 (start + HEAP_ALIGN)) (u32 (Z.lnot (HEAP_ALIGN - 1))) else start) < start + 16.
Proof.
  intros Hs. destruct (Z.eqb_spec (start mod HEAP_ALIGN) 0); cbn [negb]; [lia|].
  rewrite (u32_small (start + HEAP_ALIGN)), land_high by (unfold HEAP_ALIGN; lia). unfold HEAP_ALIGN in *.
  pose proof (Z.div_mod (start + 16) 16). pose proof (Z.mod_pos_bound (start + 16) 16).
  pose proof (Z.div_mod start 16). pose proof (Z.mod_pos_bound start 16).
  replace ((start + 16) / 16) with (start / 16 + 1) in * by (rewrite <- (Z.mul_1_l 16) at 2; by rewrite Z.div_add). lia.
Qed.

Lemma heap_create_spec s start n hs :
  0 < start -> 0 <= n -> 0 <= hs -> start + Z.max n HEAP_MIN_SIZE < 2 ^ 32 - 16 ->
  hs + 16 + 56 <= Z.max n HEAP_MIN_SIZE ->
  wp (heap_create start n hs)
     (fun _ s' => exists b F, wf s' [b] F /\ b_used b = false /\ b_end b = start + Z.max n HEAP_MIN_SIZE /\
        start + hs <= b_addr b < start + hs + 16) s.
Proof.
  intros Hst Hn Hhs Hend Hfit. unfold heap_create. cbv zeta.
  replace (if n <? HEAP_MIN_SIZE then HEAP_MIN_SIZE else n) with (Z.max n HEAP_MIN_SIZE)
    by (destruct (Z.ltb_spec n HEAP_MIN_SIZE); lia).
  set (nm := Z.max n HEAP_MIN_SIZE) in *.
  match goal with |- context [if negb (start mod HEAP_ALIGN =? 0) then ?x else ?y] =>
    set (a := if negb (start mod HEAP_ALIGN =? 0) then x else y) end.
  assert (Ha : start <= a < start + 16) by (apply aligned_start; lia).
  rewrite (u32_small (nm - (a - start))), (u32_small (nm - (a - start) - hs)) by lia.
  set (b := mk_blk (a + hs) (nm - (a - start) - hs) false).
  pose proof (get_bin_range (usable (b_size b))) as Hbin. fold (bin_of (b_size b)).
  replace (if get_bin_for_size (usable (nm - (a - start) - hs)) <? HEAP_MAX_BINS then _ else _) with (bin_of (b_size b)).
  2: { rewrite bin_of_eq. unfold b. cbn [b_size]. unfold HEAP_MAX_BINS. case_if; [done|]. bools. cbn in Hbin. lia. }
  wp_steps. unfold get_bin, write_header, write_footer, on_stats. wp_steps. cbn [bins].
  pose proof (bin_of_range (b_size b)) as Hb. rewrite wp_deref. exists 0.
  split. { rewrite <- (Z2Nat.id (bin_of (b_size b))), arr_get_nat by lia.
           apply lookup_replicate. split; [done|]. unfold HEAP_MAX_BINS. lia. }
  wp_steps. cbn [Z.eqb negb]. wp_steps.
  rewrite wp_set_bin by (cbn [bins set_footers set_headers]; rewrite length_replicate; unfold HEAP_MAX_BINS; lia).
  wp_steps. exists b.
  assert (Hbe : b_end b = start + nm) by (unfold b_end, b; cbn; lia).
  match goal with |- context [wf ?s' _ _] => destruct (single_wf s' b
    (mk_header HEAP_MAGIC (b_size b) HEAP_BLOCK_FREE 0 0 0 0 HEAP_CANARY_VALUE)) as [F HF] end; try done.
  - apply lookup_insert_eq.
  - apply lookup_insert_eq.
  - cbn. lia.
  - cbn. unfold HDR, FTR. lia.
  - lia.
  - exists F. split_and!; [done..| |]; cbn; lia.
Qed.

(** ** The integrity check *)

Lemma check_blocks_ok s L2 : forall L1 fuel e,
  layout s (L1 ++ L2) -> (length L2 <= fuel)%nat ->
  wp (check_blocks fuel (first_addr L2 0) e) (fun r s' => r = e /\ s' = s) s.
Proof.
  induction L2 as [|b L2 IH]; intros L1 fuel e HL Hf; cbn [first_addr].
  - destruct fuel; cbn [check_blocks Z.eqb]; wp_steps; done.
  - destruct fuel as [|fuel]; [cbn in Hf; lia|]. cbn [check_blocks].
    destruct (layout_block _ _ _ _ HL) as (_ & Hpos & _ & Hm & _).
    destruct (mains_header _ _ _ Hm) as (h & Hh & Em). injection Em as _ _ _ _ E5 _.
    destruct (Z.eqb_spec (b_addr b) 0); [lia|]. rewrite wp_bind, validate_ok by done.
    rewrite wp_bind, (wp_read_header _ h), E5 by done.
    apply (IH (L1 ++ [b])); [by rewrite <- app_assoc|cbn in Hf; lia].
Qed.

Lemma check_bin_ok s p l fuel e :
  fseg (links s) p l 0 -> 0 ∉ l -> (length l <= fuel)%nat ->
  (forall a, a ∈ l -> exists m, mains s !! a = Some m /\ m_status m = HEAP_BLOCK_FREE) ->
  wp (check_bin fuel (hd0 l) e) (fun r s' => r = e /\ s' = s) s.
Proof.
  revert p fuel. induction l as [|a l IH]; intros p fuel Hs H0 Hf Hm; cbn [hd0 hd].
  - destruct fuel; cbn [check_bin Z.eqb]; wp_steps; done.
  - destruct fuel as [|fuel]; [cbn in Hf; lia|]. cbn [check_bin].
    destruct (Z.eqb_spec a 0) as [->|_]; [set_solver|].
    destruct Hs as [Ha Hs]. destruct (links_header _ _ _ _ Ha) as (h & Hh & _ & Hn).
    destruct (Hm a) as (m & Hma & Hst); [by left|]. unfold mains in Hma. rewrite lookup_fmap, Hh in Hma.
    injection Hma as <-. cbn in Hst. rewrite wp_bind, (wp_read_header _ h), Hst, Hn by done. cbn [Z.eqb negb HEAP_BLOCK_FREE].
    eapply (IH a); [done|set_solver|cbn in Hf; lia|]. intros x Hx. apply Hm. by right.
Qed.

Lemma check_bins_ok s L F n i e :
  wf s L F -> 0 <= i -> i + Z.of_nat n = HEAP_MAX_BINS ->
  wp (check_bins n i e) (fun r s' => r = e /\ s' = s) s.
Proof.
  intros Hw. pose proof (or_flists _ _ _ _ Hw) as HF.
  revert i. induction n as [|n IH]; intros i Hi Hn; cbn [check_bins]; [by wp_steps|].
  destruct (lookup_lt_is_Some_2 F (Z.to_nat i)) as [l Hl]; [rewrite (fl_count _ _ HF); lia|].
  wp_steps. unfold get_bin. wp_steps. rewrite wp_deref. exists (hd0 l).
  split. { rewrite <- (Z2Nat.id i), arr_get_nat by lia. by rewrite (fl_bins _ _ HF), list_lookup_fmap, Hl. }
  wp_steps. eapply wp_mono.
  { eapply check_bin_ok; [by eapply fl_lists| |pose proof (bin_small _ _ _ _ HF Hl); lia|].
    - intros H0. eapply (fl_null _ _ HF), elem_of_bin; eauto.
    - intros a Ha%(elem_of_bin _ _ _ _ Hl). destruct (free_block _ _ _ _ _ Hw Ha) as (b & _ & _ & _ & Hb & Hu & <- & _).
      destruct (block_main _ _ _ (or_layout _ _ _ _ Hw) Hb) as (p & q & Hm). exists (main_of b p q).
      split; [done|]. cbn. unfold b_status. by rewrite Hu. }
  intros r s' [-> ->]. apply IH; lia.
Qed.

Lemma blocks_small s L : layout s L -> (length L <= map_size (headers s))%nat.
Proof.
  intros HL. pose proof (contiguous_nodup _ _ _ (lo_cont _ _ HL)) as N.
  assert (Hsub : (list_to_set (b_addr <$> L) : gset Z) ⊆ dom (headers s)).
  { intros a Ha. apply elem_of_list_to_set, list_elem_of_fmap in Ha as (b & -> & Hb). apply elem_of_dom.
    destruct (block_main _ _ _ HL Hb) as (p & n & Hm). destruct (mains_header _ _ _ Hm) as (h & -> & _). eauto. }
  apply subseteq_size in Hsub. by rewrite size_list_to_set, size_dom, length_fmap in Hsub.
Qed.

Lemma heap_check_spec s L F :
  wf s L F -> wp heap_check_integrity (fun r s' => r = 1 /\ wf s' L F) s.
Proof.
  intros Hw. pose proof (or_layout _ _ _ _ Hw) as HL. unfold heap_check_integrity. wp_steps.
  assert (E : h_start s = first_addr L 0).
  { pose proof (lo_cont _ _ HL) as Hc. pose proof (lo_some _ _ HL). destruct L; [done|]. by destruct Hc. }
  rewrite E. eapply wp_mono; [apply (check_blocks_ok s L []); [done|pose proof (blocks_small _ _ HL); lia]|].
  intros r s' [-> ->]. wp_steps. eapply wp_mono; [by eapply check_bins_ok|]. intros r s' [-> ->].
  wp_steps. split; [done|]. by eapply order_same; [..|exact Hw].
Qed.

(** ** Histories *)

(** The allocated area at [p]. *)
Definition area (s : heap) (p : Z) : option Z := (fun h => usable (size h)) <$> headers s !! (p - HDR).

(** The pointer [p] is not taken for a guarded area, and the block before its block is
    not free. *)
Definition releasable (s : heap) (p : Z) : bool :=
  match guarded_page p, headers s !! (p - HDR) with
  | None, Some h =>
      if prev h =? 0 then true
      else match headers s !! prev h with Some q => negb (status q =? HEAP_BLOCK_FREE) | None => false end
  | _, _ => false
  end.

(** A history of allocations and releases, with the live pointers. *)
Inductive hstep : heap * list Z -> heap * list Z -> Prop :=
| hs_alloc s live n p s' :
    0 <= n <= 4080 -> heap_alloc n 0 s = Ret (p, s') ->
    hstep (s, live) (s', if p =? 0 then live else p :: live)
| hs_free s live1 p live2 s' :
    releasable s p = true -> heap_free p s = Ret (tt, s') ->
    hstep (s, live1 ++ p :: live2) (s', live1 ++ live2).

(** The heap is in order between [lo] and [hi], and the live pointers are those of the
    used blocks. *)
Definition live_in (L : list blk) (live : list Z) : Prop :=
  NoDup live /\ forall p, p ∈ live <-> exists b, b ∈ L /\ b_used b = true /\ p = b_addr b + HDR.

Definition hinv (lo hi : Z) (st : heap * list Z) : Prop :=
  exists L F, wf (fst st) L F /\ contiguous lo L hi /\ live_in L (snd st).

Lemma carved_contiguous b r :
  HDR + FTR <= r -> r <= b_size b -> contiguous (b_addr b) (carved b r) (b_end b).
Proof.
  intros Hr Hb. unfold carved. destruct (Z.ltb_spec (b_size b - r) (32 + HDR + FTR)); cbn; unfold b_end, HDR, FTR in *;
    split_and!; lia.
Qed.

Lemma carved_used b r c :
  b_used b = false -> c ∈ carved b r -> b_used c = true -> b_addr c = b_addr b.
Proof.
  intros Hb. unfold carved. case_if; rewrite !elem_of_cons, elem_of_nil.
  - by intros [->|?].
  - by intros [->|[->|?]].
Qed.

Lemma carved_has b r :
  r <= b_size b -> exists c, c ∈ carved b r /\ b_used c = true /\ b_addr c = b_addr b /\ r <= b_size c.
Proof.
  intros Hr. unfold carved. case_if; eexists; (split; [apply elem_of_cons; by left|]); cbn; split_and!; try done; lia.
Qed.

Lemma contiguous_swap lo L1 Y X L2 hi a e :
  contiguous lo (L1 ++ Y ++ L2) hi -> contiguous a Y e -> Y <> [] -> contiguous a X e ->
  contiguous lo (L1 ++ X ++ L2) hi.
Proof.
  intros H HY NY HX. destruct (contiguous_mid _ _ _ _ _ _ _ H HY NY) as [H1 H2].
  apply contiguous_app. exists a. split; [done|]. apply contiguous_app. by exists e.
Qed.

Lemma live_alloc lo hi L1 b L2 r live :
  contiguous lo (L1 ++ b :: L2) hi -> b_used b = false -> r <= b_size b -> live_in (L1 ++ b :: L2) live ->
  live_in (L1 ++ carved b r ++ L2) (b_addr b + HDR :: live).
Proof.
  intros Hc Hu Hr [N Hl]. split.
  - apply NoDup_cons. split; [|done]. intros (c & Hin & Huc & E)%Hl.
    assert (c = b) as -> by (eapply contiguous_inj; [done|done|set_solver|lia]). congruence.
  - intros p. rewrite elem_of_cons, Hl. split.
    + intros [->|(c & Hin & Huc & ->)].
      * destruct (carved_has b r Hr) as (c & Hin & Huc & Ea & _). exists c. rewrite !elem_of_app, Ea. auto.
      * exists c. split_and!; [|done|done]. rewrite elem_of_app, elem_of_cons in Hin. rewrite !elem_of_app.
        destruct Hin as [?|[->|?]]; [auto|congruence|auto].
    + intros (c & Hin & Huc & ->). rewrite !elem_of_app in Hin. destruct Hin as [?|[Hin|?]].
      * right. exists c. set_solver.
      * left. by rewrite (carved_used _ _ _ Hu Hin Huc).
      * right. exists c. set_solver.
Qed.

Lemma released_used b L2 c : c ∈ released b L2 /\ b_used c = true <-> c ∈ L2 /\ b_used c = true.
Proof.
  unfold released. destruct L2 as [|d L2].
  - rewrite elem_of_cons, elem_of_nil. split; [by intros [[->|?] ?]|by intros [? _]].
  - destruct (b_used d) eqn:Hd; rewrite !elem_of_cons.
    + split; [by intros [[->|?] ?]|tauto].
    + split; [intros [[->|?] ?]; [done|tauto]|]. intros [[->|?] ?]; [congruence|tauto].
Qed.

Lemma released_contiguous b L2 e :
  contiguous (b_addr b) (b :: L2) e -> contiguous (b_addr b) (released b L2) e.
Proof.
  unfold released. destruct L2 as [|d L2]; [done|]. destruct (b_used d); [done|].
  cbn. intros (_ & H1 & H2 & H3 & H4). unfold HDR, FTR in *. split_and!; [done|lia|].
  by replace (b_addr b + (b_size b + b_size d)) with (b_addr b + b_size b + b_size d) by lia.
Qed.

Lemma live_free lo hi L1 b L2 l1 l2 :
  contiguous lo (L1 ++ b :: L2) hi -> b_used b = true ->
  live_in (L1 ++ b :: L2) (l1 ++ b_addr b + HDR :: l2) -> live_in (L1 ++ released b L2) (l1 ++ l2).
Proof.
  intros Hc Hu [N Hl]. rewrite <- Permutation_middle in N. apply NoDup_cons in N as [Hn N]. split; [done|].
  intros p. assert (E : p ∈ l1 ++ l2 <-> p <> b_addr b + HDR /\ p ∈ l1 ++ b_addr b + HDR :: l2).
  { rewrite !elem_of_app, elem_of_cons. rewrite elem_of_app in Hn.
    destruct (decide (p = b_addr b + HDR)) as [->|]; tauto. }
  rewrite E, Hl. split.
  - intros (Hp & c & Hin & Huc & ->). exists c. split_and!; [|done|done].
    rewrite elem_of_app, elem_of_cons in Hin. rewrite elem_of_app.
    destruct Hin as [?|[->|?]]; [by left|done|]. right. by apply released_used.
  - intros (c & Hin & Huc & ->). rewrite elem_of_app in Hin.
    assert (Hin' : c ∈ L1 \/ c ∈ L2).
    { destruct Hin as [?|Hin]; [by left|]. right. by apply (proj1 (released_used b L2 c)). }
    split.
    + intros E'. assert (Hcb : b_addr b ∈ b_addr <$> L1 \/ b_addr b ∈ b_addr <$> L2).
      { rewrite !list_elem_of_fmap. destruct Hin'; [left|right]; exists c; (split; [lia|done]). }
      destruct (contiguous_around _ _ _ _ _ Hc) as (_ & Hsz & _).
      destruct (contiguous_fresh _ _ _ _ _ (b_addr b) Hc) as [? ?]; [unfold b_end, HDR, FTR in *; lia|]. tauto.
    + exists c. split_and!; [|done|done]. rewrite elem_of_app, elem_of_cons. tauto.
Qed.

Lemma releasable_spec s L1 b L2 :
  layout s (L1 ++ b :: L2) -> releasable s (b_addr b + HDR) = true ->
  guarded_page (b_addr b + HDR) = None /\ last_free L1 = false.
Proof.
  intros HL. destruct (layout_block _ _ _ _ HL) as (_ & _ & _ & Hm & _).
  destruct (mains_header _ _ _ Hm) as (h & Hh & Em). injection Em as _ _ _ E4 _ _.
  unfold releasable. replace (b_addr b + HDR - HDR) with (b_addr b) by lia. rewrite Hh, E4.
  destruct (guarded_page _); [done|]. intros H. split; [done|]. unfold last_free, last_addr in *.
  destruct L1 as [|c L1 _] using rev_ind; [done|]. rewrite last_snoc in H |- *.
  rewrite <- app_assoc in HL. destruct (layout_block _ _ _ _ HL) as (_ & Hpos & _ & Hmc & _).
  destruct (mains_header _ _ _ Hmc) as (q & Hq & Eq). injection Eq as _ _ E3 _ _ _.
  rewrite Hq in H. destruct (Z.eqb_spec (b_addr c) 0); [lia|]. rewrite E3 in H. unfold b_status in H.
  by destruct (b_used c).
Qed.

Lemma hstep_inv lo hi st st' : hinv lo hi st -> hstep st st' -> hinv lo hi st'.
Proof.
  intros (L & F & Hw & Hc & Hl) Hstep. destruct Hstep as [s live n p s' Hn Hrun|s live1 p live2 s' Hr Hrun]; cbn in *.
  - pose proof (wp_run _ _ _ _ _ (heap_alloc_spec _ _ _ _ Hw Hn) Hrun) as [(-> & (F' & Hw') & _)|H].
    { by exists L, F'. }
    destruct H as (L1 & b & L2 & F' & -> & Hu & Hle & -> & Hw'). pose proof (granted_spec n Hn).
    destruct (layout_block _ _ _ _ (or_layout _ _ _ _ Hw)) as (Hsz & Hpos & _).
    destruct (Z.eqb_spec (b_addr b + HDR) 0) as [E|_]; [unfold HDR in E; lia|].
    exists (L1 ++ carved b (granted n + 56) ++ L2), F'. split_and!; [done| |eapply live_alloc; [done|done|lia|done]].
    eapply (contiguous_swap _ _ [b]); [done|by apply contiguous_one|done|].
    apply carved_contiguous; unfold HDR, FTR; lia.
  - destruct (proj1 (proj2 Hl p)) as (b & Hb & Hu & ->); [set_solver|].
    apply list_elem_of_split in Hb as (L1 & L2 & ->).
    destruct (releasable_spec _ _ _ _ (or_layout _ _ _ _ Hw) Hr) as [Hg Hlf].
    destruct (wp_run _ _ _ _ _ (heap_free_spec _ _ _ _ _ Hw Hu Hlf Hg) Hrun) as [F' Hw'].
    exists (L1 ++ released b L2), F'. split_and!; [done| |by eapply live_free].
    apply contiguous_app in Hc as (m & Hc1 & Hc2). assert (m = b_addr b) as -> by (by destruct Hc2).
    apply contiguous_app. eauto using released_contiguous.
Qed.

Lemma area_block s L b : layout s L -> b ∈ L -> area s (b_addr b + HDR) = Some (b_size b - 56).
Proof.
  intros HL Hb. destruct (block_main _ _ _ HL Hb) as (p & n & Hm). destruct (mains_header _ _ _ Hm) as (h & Hh & Em).
  injection Em as _ E2 _ _ _ _. unfold area. replace (b_addr b + HDR - HDR) with (b_addr b) by lia.
  rewrite Hh. cbn. by rewrite E2, (usable_block _ _ _ HL Hb).
Qed.

Lemma live_areas lo hi st : hinv lo hi st ->
  (forall p, p ∈ snd st -> exists k, area (fst st) p = Some k /\ lo <= p /\ p + k <= hi) /\
  (forall p q i j, p ∈ snd st -> q ∈ snd st -> p <> q -> area (fst st) p = Some i -> area (fst st) q = Some j ->
     p + i <= q \/ q + j <= p).
Proof.
  intros (L & F & Hw & Hc & _ & Hl). pose proof (or_layout _ _ _ _ Hw) as HL. split.
  - intros p (b & Hb & _ & ->)%Hl. exists (b_size b - 56). split; [by eapply area_block|].
    pose proof (contiguous_range _ _ _ _ Hc Hb). unfold b_end, HDR, FTR in *. lia.
  - intros p q i j (b & Hb & _ & ->)%Hl (c & Hc' & _ & ->)%Hl Hne Hi Hj.
    rewrite (area_block _ _ _ HL Hb) in Hi. rewrite (area_block _ _ _ HL Hc') in Hj.
    injection Hi as <-. injection Hj as <-. apply list_elem_of_split in Hb as (L1 & L2 & ->).
    rewrite elem_of_app, elem_of_cons in Hc'. destruct Hc' as [H|[->|H]]; [|done|].
    + pose proof (contiguous_before _ _ _ _ _ _ Hc H). unfold b_end, HDR in *. lia.
    + pose proof (contiguous_after _ _ _ _ _ _ Hc H). unfold b_end, HDR in *. lia.
Qed.

Lemma alloc_returns lo hi s live n :
  hinv lo hi (s, live) -> 0 <= n <= 4080 ->
  exists p s', heap_alloc n 0 s = Ret (p, s') /\ (p <> 0 -> p ∉ live /\ exists k, area s' p = Some k /\ n <= k).
Proof.
  intros (L & F & Hw & Hc & Hl) Hn. cbn in *.
  destruct (wp_returns _ _ _ (heap_alloc_spec _ _ _ _ Hw Hn)) as (p & s' & Hrun & Hpost). exists p, s'.
  split; [done|]. intros Hp. destruct Hpost as [(-> & _)|(L1 & b & L2 & F' & -> & Hu & Hle & -> & Hw')]; [done|].
  pose proof (granted_spec n Hn). split.
  - destruct (live_alloc _ _ _ _ _ (granted n + 56) _ Hc Hu Hle Hl) as [[? _]%NoDup_cons _]. done.
  - destruct (carved_has b _ Hle) as (c & Hin & Huc & Ea & Hsz). rewrite <- Ea.
    exists (b_size c - 56). split; [|lia]. eapply area_block; [by eapply or_layout|]. rewrite !elem_of_app. auto.
Qed.

Lemma free_returns lo hi s live p :
  hinv lo hi (s, live) -> p ∈ live -> releasable s p = true -> exists s', heap_free p s = Ret (tt, s').
Proof.
  intros (L & F & Hw & Hc & _ & Hl) Hp Hr. cbn in *. apply Hl in Hp as (b & Hb & Hu & ->).
  apply list_elem_of_split in Hb as (L1 & L2 & ->).
  destruct (releasable_spec _ _ _ _ (or_layout _ _ _ _ Hw) Hr) as [Hg Hlf].
  destruct (wp_returns _ _ _ (heap_free_spec _ _ _ _ _ Hw Hu Hlf Hg)) as ([] & s' & Hrun & _). eauto.
Qed.

(** C5. Whatever the sequence of allocations of at most 4080 bytes and releases on a heap
    that [heap_create] has set up, as long as the page allocator has no memory and a
    block is released only while the block before it is in use and its pointer is not
    taken for a guarded one: the live pointers are distinct, the areas behind them lie
    in the memory of the heap and do not overlap, the next allocation returns (with an
    area that is large enough and was not live, or NULL), the next such release
    returns, and the heap's own integrity check answers 1. *)
Theorem heap_histories_safe (s0 s1 : heap) (start n hs : Z) (s : heap) (live : list Z) :
  0 < start -> 0 <= n -> 0 <= hs -> start + Z.max n HEAP_MIN_SIZE < 2 ^ 32 - 16 ->
  hs + 16 + 56 <= Z.max n HEAP_MIN_SIZE ->
  heap_create start n hs s0 = Ret (tt, s1) ->
  reachable (fun st => st = (s1, [])) hstep (s, live) ->
  NoDup live /\
  (forall p, p ∈ live -> exists k, area s p = Some k /\ start + hs <= p /\ p + k <= start + Z.max n HEAP_MIN_SIZE) /\
  (forall p q i j, p ∈ live -> q ∈ live -> p <> q -> area s p = Some i -> area s q = Some j ->
     p + i <= q \/ q + j <= p) /\
  (forall m, 0 <= m <= 4080 -> exists p s', heap_alloc m 0 s = Ret (p, s') /\
     (p <> 0 -> p ∉ live /\ exists k, area s' p = Some k /\ m <= k)) /\
  (forall p, p ∈ live -> releasable s p = true -> exists s', heap_free p s = Ret (tt, s')) /\
  (exists s', heap_check_integrity s = Ret (1, s')).
Proof.
  intros H1 H2 H3 H4 H5 Hcreate Hreach.
  destruct (wp_run _ _ _ _ _ (heap_create_spec s0 start n hs H1 H2 H3 H4 H5) Hcreate) as (b & F & Hw & Hu & He & Ha).
  assert (Hi : hinv (b_addr b) (b_end b) (s, live)).
  { eapply (reachable_inv _ _ (hinv (b_addr b) (b_end b))); [|apply hstep_inv|exact Hreach].
    intros st ->. exists [b], F. cbn. split_and!; [done|done| |done| ].
    - destruct (layout_block _ [] _ _ (or_layout _ _ _ _ Hw)) as (? & _). done.
    - split; [by apply NoDup_nil|]. intros p. rewrite elem_of_nil. split; [done|].
      intros (c & ->%list_elem_of_singleton & ? & _). congruence. }
  pose proof (live_areas _ _ _ Hi) as [Hin Hdis]. cbn in Hin, Hdis.
  split; [by destruct Hi as (? & ? & _ & _ & ? & _)|]. split_and!.
  - intros p (k & Hk & Hlo & Hhi)%Hin. exists k. split_and!; [done|lia|lia].
  - done.
  - intros m Hm. by eapply alloc_returns.
  - intros p Hp Hr. by eapply free_returns.
  - destruct Hi as (L & F' & Hw' & _).
    destruct (wp_returns _ _ _ (heap_check_spec _ _ _ Hw')) as (r & s' & Hrun & -> & _). eauto.
Qed.

(** *** A heap of 8 KiB *)

Definition raw : heap := mk_heap 0 0 0 0 0 [] (mk_stats 0 0 0 0 0 0 0 0 0 0) ∅ ∅ ∅ [].
Definition fresh : heap := after (heap_create 65536 8192 128) raw.
Definition two : heap := after (heap_alloc 100 0 ;;; heap_alloc 200 0) fresh.

Lemma heap_histories_safe_witness :
  exists s live, length live = 1%nat /\ area s 65872 = Some 208 /\
    exists p s', heap_alloc 300 0 s = Ret (p, s') /\ (p <> 0 -> p ∉ live /\ exists k, area s' p = Some k /\ 300 <= k).
Proof.
  exists (after (heap_free 65704) two), [65872]. split; [done|]. split; [vm_compute; reflexivity|].
  assert (Hreach : reachable (fun st => st = (fresh, [])) hstep (after (heap_free 65704) two, [65872])).
  { apply (reach_step _ _ (two, [65872; 65704])).
    - eapply (reach_step _ _ (after (heap_alloc 100 0) fresh, [65704])).
      + eapply (reach_step _ _ (fresh, [])); [by apply reach_init|].
        apply (hs_alloc fresh [] 100 65704); [lia|vm_compute; reflexivity].
      + apply (hs_alloc _ [65704] 200 65872); [lia|vm_compute; reflexivity].
    - apply (hs_free two [65872] 65704 []); vm_compute; reflexivity. }
  destruct (heap_histories_safe raw fresh 65536 8192 128 _ _ ltac:(lia) ltac:(lia) ltac:(lia)
    ltac:(vm_compute; reflexivity) ltac:(vm_compute; discriminate) ltac:(vm_compute; reflexivity) Hreach)
    as (_ & _ & _ & Halloc & _).
  apply Halloc. lia.
Defined.

Lemma fresh_wf : exists b F, wf fresh [b] F /\ b_used b = false.
Proof.
  assert (Hrun : heap_create 65536 8192 128 raw = Ret (tt, fresh)) by (vm_compute; reflexivity).
  destruct (wp_run _ _ _ _ _ (heap_create_spec raw 65536 8192 128 ltac:(lia) ltac:(lia) ltac:(lia)
    ltac:(vm_compute; reflexivity) ltac:(vm_compute; discriminate)) Hrun) as (b & F & Hw & Hu & _). eauto.
Qed.

(** C20. An allocation of at most 4080 bytes on a heap in order, when the page allocator
    has no memory, answers NULL exactly when no free block is large enough for the size
    rounded up to a multiple of 16; otherwise it takes a free block that is, gives the
    part that is needed, puts a remainder of at least 88 bytes back as a free block of
    its own, and leaves the heap in order with all other blocks as they were. *)
Theorem heap_alloc_exact (s : heap) (L : list blk) (F : list (list Z)) (n : Z) :
  wf s L F -> 0 <= n <= 4080 ->
  exists p s', heap_alloc n 0 s = Ret (p, s') /\
    (p = 0 <-> forall b, b ∈ L -> b_used b = false -> b_size b < granted n + 56) /\
    (p = 0 -> exists F', wf s' L F') /\
    (p <> 0 -> exists L1 b L2 F', L = L1 ++ b :: L2 /\ b_used b = false /\ granted n + 56 <= b_size b /\
       p = b_addr b + HDR /\ wf s' (L1 ++ carved b (granted n + 56) ++ L2) F').
Proof.
  intros Hw Hn. destruct (wp_returns _ _ _ (heap_alloc_spec _ _ _ _ Hw Hn)) as (p & s' & Hrun & Hpost).
  exists p, s'. split; [done|]. destruct Hpost as [(-> & HF & Hno)|(L1 & b & L2 & F' & -> & Hu & Hle & -> & Hw')].
  - split_and!; [done|done|]. by intros [].
  - destruct (layout_block _ _ _ _ (or_layout _ _ _ _ Hw)) as (_ & Hpos & _). unfold HDR in *. split_and!.
    + split; [lia|]. intros Hno. specialize (Hno b ltac:(set_solver) Hu). lia.
    + lia.
    + intros _. by exists L1, b, L2, F'.
Qed.

Lemma heap_alloc_exact_witness :
  (exists b F, wf fresh [b] F /\ b_used b = false) /\ exists p s', heap_alloc 100 0 fresh = Ret (p, s').
Proof.
  split; [apply fresh_wf|]. destruct fresh_wf as (b & F & Hw & _).
  destruct (heap_alloc_exact fresh [b] F 100 Hw ltac:(lia)) as (p & s' & Hrun & _). eauto.
Defined.

(** Releasing a used block of a heap in order, when the block before it is not free
    and its pointer is not taken for a guarded one, makes it a free block, joined with
    the block after it when that is free, and leaves the heap in order with all other
    blocks as they were. *)
Theorem heap_free_exact (s : heap) (L1 L2 : list blk) (b : blk) (F : list (list Z)) :
  wf s (L1 ++ b :: L2) F -> b_used b = true -> last_free L1 = false -> guarded_page (b_addr b + HDR) = None ->
  exists s' F', heap_free (b_addr b + HDR) s = Ret (tt, s') /\ wf s' (L1 ++ released b L2) F'.
Proof.
  intros Hw Hu Hl Hg.
  destruct (wp_returns _ _ _ (heap_free_spec _ _ _ _ _ Hw Hu Hl Hg)) as ([] & s' & Hrun & F' & Hw'). eauto.
Qed.

Lemma carved_head b r : exists d X, carved b r = d :: X /\ b_used d = true /\ b_addr d = b_addr b.
Proof. unfold carved. case_if; eauto. Qed.

Lemma heap_free_exact_witness :
  exists b L2 F s1 s', heap_alloc 100 0 fresh = Ret (b_addr b + HDR, s1) /\ wf s1 ([] ++ b :: L2) F /\
    b_used b = true /\ heap_free (b_addr b + HDR) s1 = Ret (tt, s').
Proof.
  destruct fresh_wf as (b & F & Hw & Hu).
  pose proof (heap_alloc_spec fresh [b] F 100 Hw ltac:(lia)) as Hsp.
  assert (Hrun : heap_alloc 100 0 fresh = Ret (65704, after (heap_alloc 100 0) fresh)) by (vm_compute; reflexivity).
  destruct (wp_run _ _ _ _ _ Hsp Hrun) as [(? & _)|(L1 & c & L2 & F' & E & Huc & Hle & Hp & Hw')]; [discriminate|].
  assert (L1 = [] /\ c = b /\ L2 = []) as (-> & -> & ->).
  { clear -E. destruct L1 as [|x [|y L1]]; injection E; [done|discriminate..]. }
  destruct (carved_head b (granted 100 + 56)) as (d & X & Ed & Hud & Ead). rewrite Ed in Hw'.
  change ([] ++ (d :: X) ++ []) with (d :: X ++ []) in Hw'.
  assert (Hg : guarded_page (b_addr d + HDR) = None) by (rewrite Ead, <- Hp; reflexivity).
  destruct (heap_free_exact _ [] (X ++ []) d F' Hw' Hud eq_refl Hg) as (s' & F2 & Hfree & _).
  rewrite Hp in Hrun. exists d, (X ++ []), F', (after (heap_alloc 100 0) fresh), s'.
  rewrite Ead in Hfree |- *. split_and!; [exact Hrun|exact Hw'|exact Hud|exact Hfree].
Defined.

(** Releasing a block whose predecessor is free breaks the heap: after two
    neighbouring blocks have been released in the order of their addresses, two
    allocations of 272 bytes get the same area. *)
Theorem heap_allocates_twice :
  let calls :=
    a <- heap_alloc 100 0 ;; b <- heap_alloc 100 0 ;; _d <- heap_alloc 100 0 ;;
    heap_free a ;;; heap_free b ;;;
    x <- heap_alloc 272 0 ;; y <- heap_alloc 272 0 ;; ret (x, y) in
  exists s', calls fresh = Ret ((65704, 65704), s').
Proof. eexists. vm_compute. reflexivity. Qed.

End HeapThms.
