(* ===== verification/Aslr.v ===== *)
(** * Address space layout randomisation ([memory/aslr.c])

    The configuration and its xorshift generator. The mutex is the number of times the
    running task holds it, as in [Vfs]. What [aslr_init_random_seed] reads from the
    machine (time stamp counter, uptime, addresses, time of the last interrupt) is its
    argument.

    Shown: a step of the generator is injective on 64-bit seeds, so that a seed other than
    0 never becomes 0; offsets are page aligned and within the bounds of their type. *)

From Stdlib Require Import ZArith Lia.
From stdpp Require Import base tactics option list numbers.
From S2P Require Import Prelude.

Set Default Goal Selector "!".
Local Open Scope Z_scope.
Local Open Scope kernel_scope.

Module Aslr.

Definition PAGE_SIZE : Z := 4096.
Definition ASLR_STACK_OFFSET : Z := 1.
Definition ASLR_HEAP_OFFSET : Z := 2.
Definition ASLR_MMAP_OFFSET : Z := 4.
Definition ASLR_EXEC_OFFSET : Z := 8.
Definition ASLR_LIB_OFFSET : Z := 16.
Definition ASLR_VDSO_OFFSET : Z := 32.
Definition ASLR_ALL : Z := 63.

Definition MAX_STACK_DELTA : Z := 0x0FFF.
Definition MAX_HEAP_DELTA : Z := 0x0FFF.
Definition MAX_MMAP_DELTA : Z := 0xFFFF.
Definition MAX_EXEC_DELTA : Z := 0x007F.
Definition MAX_LIB_DELTA : Z := 0x0FFF.
Definition MAX_VDSO_DELTA : Z := 0x003F.

(** [aslr_config] *)
Record config : Type := mk_config {
  enabled : Z;
  entropy_bits : Z;
  flags : Z;
  lock : Z;
  last_random_value : Z;
  random_seed : Z;
}.

Definition set_enabled (x : Z) (c : config) : config :=
  mk_config x (entropy_bits c) (flags c) (lock c) (last_random_value c) (random_seed c).
Definition set_entropy_bits (x : Z) (c : config) : config :=
  mk_config (enabled c) x (flags c) (lock c) (last_random_value c) (random_seed c).
Definition set_flags (x : Z) (c : config) : config :=
  mk_config (enabled c) (entropy_bits c) x (lock c) (last_random_value c) (random_seed c).
Definition set_lock (x : Z) (c : config) : config :=
  mk_config (enabled c) (entropy_bits c) (flags c) x (last_random_value c) (random_seed c).
Definition set_last_random_value (x : Z) (c : config) : config :=
  mk_config (enabled c) (entropy_bits c) (flags c) (lock c) x (random_seed c).
Definition set_random_seed (x : Z) (c : config) : config :=
  mk_config (enabled c) (entropy_bits c) (flags c) (lock c) (last_random_value c) x.

Definition mutex_lock : M config unit := modify (fun c => set_lock (lock c + 1) c).
Definition mutex_unlock : M config unit := modify (fun c => set_lock (lock c - 1) c).

(** ** The generator *)

Definition xor_left (n x : Z) : Z := Z.lxor x (u64 (Z.shiftl x n)).
Definition xor_right (n x : Z) : Z := Z.lxor x (Z.shiftr x n).

(** The three statements on [x]. *)
Definition xorshift (x : Z) : Z := xor_left 17 (xor_right 7 (xor_left 13 x)).

Definition aslr_generate_random : M config Z :=
  mutex_lock ;;;
  c <- get ;;
  let x := xorshift (random_seed c) in
  modify (set_random_seed x) ;;;
  let result := u32 (Z.shiftr x 32) in
  modify (set_last_random_value result) ;;;
  mutex_unlock ;;;
  ret result.

(** What the seed is made of. *)
Record entropy : Type := mk_entropy {
  tsc_low : Z;
  tsc_high : Z;
  uptime_ms : Z;
  function_address : Z;
  stack_ptr : Z;
  last_interrupt_time : Z;
}.

Definition aslr_init_random_seed (e : entropy) : M config unit :=
  let seed := Z.lor (u64 (Z.shiftl (tsc_high e) 32)) (tsc_low e) in
  let seed := Z.lxor seed (u64 (Z.shiftl (uptime_ms e) 13)) in
  let seed := Z.lxor seed (function_address e) in
  let seed := Z.lxor seed (u64 (Z.shiftl (stack_ptr e) 21)) in
  let seed := Z.lxor seed (last_interrupt_time e) in
  modify (set_random_seed seed).

(** ** Configuration *)

Definition clamp_entropy (bits : Z) : Z := if 24 <? bits then 24 else bits.

Definition aslr_init (en bits fl : Z) (e : entropy) : M config Z :=
  modify (set_lock 0) ;;;
  modify (set_enabled en) ;;;
  modify (set_entropy_bits (clamp_entropy bits)) ;;;
  modify (set_flags fl) ;;;
  aslr_init_random_seed e ;;;
  ret 0.

Definition aslr_set_enabled (en : Z) : M config unit :=
  mutex_lock ;;; modify (set_enabled en) ;;; mutex_unlock.

Definition aslr_set_entropy (bits : Z) : M config unit :=
  mutex_lock ;;; modify (set_entropy_bits (clamp_entropy bits)) ;;; mutex_unlock.

Definition aslr_is_enabled : M config Z := gets enabled.
Definition aslr_get_entropy : M config Z := gets entropy_bits.
Definition aslr_get_flags : M config Z := gets flags.

Definition aslr_set_flags (fl : Z) : M config unit :=
  mutex_lock ;;; modify (set_flags (Z.land fl ASLR_ALL)) ;;; mutex_unlock.

(** ** Offsets *)

(** The [switch] on the type of the offset. *)
Definition max_pages (offset_type : Z) : option Z :=
  if offset_type =? ASLR_STACK_OFFSET then Some MAX_STACK_DELTA
  else if offset_type =? ASLR_HEAP_OFFSET then Some MAX_HEAP_DELTA
  else if offset_type =? ASLR_MMAP_OFFSET then Some MAX_MMAP_DELTA
  else if offset_type =? ASLR_EXEC_OFFSET then Some MAX_EXEC_DELTA
  else if offset_type =? ASLR_LIB_OFFSET then Some MAX_LIB_DELTA
  else if offset_type =? ASLR_VDSO_OFFSET then Some MAX_VDSO_DELTA
  else None.

Definition aslr_get_random_offset (offset_type : Z) : M config Z :=
  c <- get ;;
  if negb (truth (enabled c)) || negb (has_flag (flags c) offset_type) then ret 0
  else
    random <- aslr_generate_random ;;
    let mask := u32 (Z.shiftl 1 (entropy_bits c) - 1) in
    let random := Z.land random mask in
    match max_pages offset_type with
    | None => ret 0
    | Some m => ret (u32 (random mod m * PAGE_SIZE))
    end.

Definition aslr_randomize_address (base_addr offset_type : Z) : M config Z :=
  c <- get ;;
  if negb (truth (enabled c)) || (base_addr =? 0) then ret base_addr
  else
    offset <- aslr_get_random_offset offset_type ;;
    if offset_type =? ASLR_STACK_OFFSET then ret (u32 (base_addr - offset))
    else ret (u32 (base_addr + offset)).

(** ** Bits of the generator *)

Lemma xor_left_bits n x i :
  0 <= n -> 0 <= i < 64 -> Z.testbit (xor_left n x) i = xorb (Z.testbit x i) (Z.testbit x (i - n)).
Proof.
  intros Hn Hi. unfold xor_left, u64. rewrite Z.lxor_spec, Z.mod_pow2_bits_low by lia.
  by rewrite Z.shiftl_spec by lia.
Qed.

Lemma xor_right_bits n x i :
  0 <= i -> Z.testbit (xor_right n x) i = xorb (Z.testbit x i) (Z.testbit x (i + n)).
Proof. intros Hi. unfold xor_right. by rewrite Z.lxor_spec, Z.shiftr_spec. Qed.

Lemma high_bit x i : 0 <= x < 2 ^ 64 -> 64 <= i -> Z.testbit x i = false.
Proof. intros Hx Hi. rewrite <- (Z.mod_small x (2 ^ 64)) by lia. apply Z.mod_pow2_bits_high. lia. Qed.

(** 64-bit numbers with the same bits are equal. *)
Lemma bits_eq64 x y :
  0 <= x < 2 ^ 64 -> 0 <= y < 2 ^ 64 -> (forall i, 0 <= i < 64 -> Z.testbit x i = Z.testbit y i) -> x = y.
Proof.
  intros Hx Hy H. apply Z.bits_inj'. intros i Hi. destruct (Z.lt_ge_cases i 64) as [Hlt|Hge]; [apply H; lia|].
  by rewrite !high_bit.
Qed.

Lemma xor_left_inj n x y :
  0 < n -> 0 <= x < 2 ^ 64 -> 0 <= y < 2 ^ 64 -> xor_left n x = xor_left n y -> x = y.
Proof.
  intros Hn Hx Hy E. apply bits_eq64; [done..|].
  intros i. induction i as [i IH] using (well_founded_induction (Z.lt_wf 0)). intros Hi.
  assert (Z.testbit (xor_left n x) i = Z.testbit (xor_left n y) i) as Ei by (by rewrite E).
  rewrite !xor_left_bits in Ei by lia.
  destruct (Z.lt_ge_cases i n) as [Hlt|Hge].
  - rewrite !(Z.testbit_neg_r _ (i - n)) in Ei by lia. by rewrite !xorb_false_r in Ei.
  - rewrite (IH (i - n)) in Ei by lia. by repeat destruct (Z.testbit _ _).
Qed.

Lemma xor_right_inj n x y :
  0 < n -> 0 <= x < 2 ^ 64 -> 0 <= y < 2 ^ 64 -> xor_right n x = xor_right n y -> x = y.
Proof.
  intros Hn Hx Hy E. apply bits_eq64; [done..|].
  intros i. induction i as [i IH] using (well_founded_induction (Z.gt_wf 64)). intros Hi.
  assert (Z.testbit (xor_right n x) i = Z.testbit (xor_right n y) i) as Ei by (by rewrite E).
  rewrite !xor_right_bits in Ei by lia.
  destruct (Z.lt_ge_cases (i + n) 64) as [Hlt|Hge].
  - rewrite (IH (i + n)) in Ei by lia. by repeat destruct (Z.testbit _ _).
  - rewrite !(high_bit _ (i + n)) in Ei by lia. by rewrite !xorb_false_r in Ei.
Qed.

Lemma xor_left_range n x : 0 <= x < 2 ^ 64 -> 0 <= xor_left n x < 2 ^ 64.
Proof. intros Hx. apply lxor_range; [lia|done|apply u64_range]. Qed.

Lemma xor_right_range n x : 0 <= n -> 0 <= x < 2 ^ 64 -> 0 <= xor_right n x < 2 ^ 64.
Proof.
  intros Hn Hx. apply lxor_range; [lia|done|]. rewrite Z.shiftr_div_pow2 by lia.
  split; [apply Z.div_pos; lia|]. apply Z.le_lt_trans with x; [|lia].
  apply Z.div_le_upper_bound; [lia|]. nia.
Qed.

Lemma xorshift_range x : 0 <= x < 2 ^ 64 -> 0 <= xorshift x < 2 ^ 64.
Proof. intros Hx. by apply xor_left_range, xor_right_range, xor_left_range. Qed.

(** A step of the generator loses no seed. *)
Lemma xorshift_inj x y : 0 <= x < 2 ^ 64 -> 0 <= y < 2 ^ 64 -> xorshift x = xorshift y -> x = y.
Proof.
  unfold xorshift. intros Hx Hy E.
  apply xor_left_inj in E; [|lia|by apply xor_right_range, xor_left_range..].
  apply xor_right_inj in E; [|lia|by apply xor_left_range..].
  by apply xor_left_inj in E.
Qed.

(** ** Effect of the calls *)

Definition config_ok (c : config) : Prop :=
  0 <= random_seed c < 2 ^ 64 /\ 0 <= entropy_bits c <= 24 /\ lock c = 0.

(** The configuration after a number is drawn. *)
Definition drawn (c : config) : config :=
  let x := xorshift (random_seed c) in set_last_random_value (u32 (Z.shiftr x 32)) (set_random_seed x c).

Lemma generate_run c : config_ok c ->
  aslr_generate_random c = Ret (u32 (Z.shiftr (xorshift (random_seed c)) 32), drawn c).
Proof. intros (_ & _ & Hl). destruct c. simpl in *. subst. done. Qed.

Lemma drawn_ok c : config_ok c -> config_ok (drawn c).
Proof. intros (Hr & He & Hl). split; [|done]. by apply xorshift_range. Qed.

Lemma max_pages_range t m : max_pages t = Some m -> 0 < m <= 0xFFFF.
Proof. unfold max_pages. repeat case_if; intros [= <-]; unfold MAX_STACK_DELTA, MAX_HEAP_DELTA, MAX_MMAP_DELTA, MAX_EXEC_DELTA, MAX_LIB_DELTA, MAX_VDSO_DELTA; lia. Qed.

(** The offsets of a type: whole pages below its maximum and below the entropy. *)
Definition offset_of (c : config) (t o : Z) : Prop :=
  exists p, o = p * PAGE_SIZE /\ 0 <= p < 2 ^ entropy_bits c /\ (o <> 0 -> exists m, max_pages t = Some m /\ p < m).

Lemma offset_zero c t : config_ok c -> offset_of c t 0.
Proof. intros (_ & He & _). exists 0. split; [done|]. split; [|done]. split; [lia|]. apply Z.pow_pos_nonneg; lia. Qed.

Lemma random_offset_spec c t :
  config_ok c ->
  wp (aslr_get_random_offset t) (fun o c' => offset_of c t o /\ (c' = c \/ c' = drawn c)) c.
Proof.
  intros Hc. unfold aslr_get_random_offset. wp_steps. case_if; wp_steps; [split; [by apply offset_zero|by left]|].
  unfold wp at 1. rewrite generate_run by done. cbv zeta.
  destruct (max_pages t) as [m|] eqn:Em; wp_steps; [|split; [by apply offset_zero|by right]].
  split; [|by right]. pose proof (max_pages_range t m Em) as Hm. destruct Hc as (_ & He & _).
  set (r := u32 (Z.shiftr _ 32)). assert (0 < 2 ^ entropy_bits c <= 2 ^ 24) as Hp.
  { split; [apply Z.pow_pos_nonneg; lia|apply Z.pow_le_mono_r; lia]. }
  replace (u32 (Z.shiftl 1 (entropy_bits c) - 1)) with (Z.ones (entropy_bits c)).
  2:{ rewrite u32_small; rewrite Z.shiftl_1_l; [|lia]. rewrite Z.ones_equiv. lia. }
  rewrite Z.land_ones by lia. set (q := r mod 2 ^ entropy_bits c).
  assert (0 <= q < 2 ^ entropy_bits c) as Hq by (by apply Z.mod_pos_bound; lia).
  assert (0 <= q mod m < m) as Hqm by (by apply Z.mod_pos_bound; lia).
  assert (q mod m <= q) as Hle by (apply Z.mod_le; lia).
  rewrite u32_small by (unfold PAGE_SIZE; lia).
  exists (q mod m). split; [done|]. split; [lia|]. intros _. exists m. split; [done|lia].
Qed.

Lemma random_offset_ok c t : config_ok c -> wp (aslr_get_random_offset t) (fun _ c' => config_ok c') c.
Proof.
  intros Hc. eapply wp_mono; [by apply random_offset_spec|].
  intros o c' [_ [->| ->]]; [done|by apply drawn_ok].
Qed.

(** An address randomised by a type. *)
Definition address_of (c : config) (base t a : Z) : Prop :=
  exists o, offset_of c t o /\ a = u32 (if t =? ASLR_STACK_OFFSET then base - o else base + o).

Lemma randomize_spec c base t :
  config_ok c -> 0 <= base < 2 ^ 32 ->
  wp (aslr_randomize_address base t) (fun a c' => address_of c base t a /\ (c' = c \/ c' = drawn c)) c.
Proof.
  intros Hc Hb. unfold aslr_randomize_address. wp_steps.
  case_if; wp_steps.
  - split; [|by left]. exists 0. split; [by apply offset_zero|]. rewrite Z.sub_0_r, Z.add_0_r.
    rewrite u32_small by (by case_if). by case_if.
  - eapply wp_mono; [by apply random_offset_spec|]. intros o c' [Ho Hc']. case_if; wp_steps.
    all: split; [|done]; exists o; split; [done|].
    all: by case_if.
Qed.

(** ** Histories *)

Inductive call : Type :=
| Generate
| Offset (t : Z)
| Randomize (base t : Z)
| SetEnabled (e : Z)
| SetEntropy (b : Z)
| SetFlags (f : Z).

Definition run (x : call) : M config unit :=
  match x with
  | Generate => _r <- aslr_generate_random ;; ret tt
  | Offset t => _r <- aslr_get_random_offset t ;; ret tt
  | Randomize b t => _r <- aslr_randomize_address b t ;; ret tt
  | SetEnabled e => aslr_set_enabled e
  | SetEntropy b => aslr_set_entropy b
  | SetFlags f => aslr_set_flags f
  end.

(** What every call keeps: a proper configuration whose seed is not 0. *)
Definition seeded (c : config) : Prop := config_ok c /\ random_seed c <> 0.

Lemma drawn_seeded c : seeded c -> seeded (drawn c).
Proof.
  intros [Hc Hs]. split; [by apply drawn_ok|]. simpl. intros E. apply Hs.
  apply xorshift_inj; [apply Hc|lia|done].
Qed.

Lemma offset_seeded c t : seeded c -> wp (aslr_get_random_offset t) (fun _ c' => seeded c') c.
Proof.
  intros Hs. eapply wp_mono; [apply random_offset_spec, Hs|].
  intros o c' [_ [->| ->]]; [done|by apply drawn_seeded].
Qed.

Definition call_ok (x : call) : Prop := match x with SetEntropy b => 0 <= b < 256 | _ => True end.

Lemma run_seeded c x : seeded c -> call_ok x -> wp (run x) (fun _ c' => seeded c') c.
Proof.
  intros Hs Hx. pose proof Hs as [(Hr & He & Hl) Hn]. destruct x; cbn [run].
  - apply wp_bind. unfold wp at 1. rewrite generate_run by apply Hs. by apply drawn_seeded.
  - apply wp_bind. eapply wp_mono; [by apply offset_seeded|done].
  - apply wp_bind. unfold aslr_randomize_address. wp_steps. case_if; wp_steps; [done|].
    eapply wp_mono; [by apply offset_seeded|]. intros o c' Hc'. by case_if; wp_steps.
  - unfold aslr_set_enabled, mutex_lock, mutex_unlock. wp_steps. destruct c; simpl in *. repeat split; simpl; lia.
  - unfold aslr_set_entropy, mutex_lock, mutex_unlock, clamp_entropy. wp_steps. destruct c; simpl in *.
    repeat split; simpl; try lia; case_if; bools; lia.
  - unfold aslr_set_flags, mutex_lock, mutex_unlock. wp_steps. destruct c; simpl in *. repeat split; simpl; lia.
Qed.

(** The generator: from a configuration whose seed is a 64-bit number other than 0,
    any sequence of calls returns, with the lock released, and leaves a 64-bit seed other
    than 0: the generator never reaches 0, where it would stay, because a step is
    injective. *)
Theorem aslr_seed_never_zero (calls : list call) c :
  seeded c -> Forall call_ok calls -> wp (mfor calls run) (fun _ c' => seeded c') c.
Proof.
  intros Hs Hf. revert c Hs. induction Hf as [|x calls Hx Hf IH]; intros c Hs; cbn [mfor]; [done|].
  apply wp_bind. eapply wp_mono; [by apply run_seeded|]. intros [] c' Hc'. by apply IH.
Qed.

Definition sample_config : config := mk_config 1 16 ASLR_ALL 0 0 88172645463325252.

Lemma aslr_seed_never_zero_witness :
  wp (mfor [Generate; Randomize 0x10000000 ASLR_HEAP_OFFSET; SetEntropy 200; Offset ASLR_LIB_OFFSET] run)
    (fun _ c' => seeded c') sample_config.
Proof.
  apply (aslr_seed_never_zero _ sample_config).
  - split; [|discriminate]. split; [split; [discriminate|reflexivity]|]. split; [split; discriminate|reflexivity].
  - repeat apply Forall_cons_2; [exact I|exact I|split; [discriminate|reflexivity]|exact I|apply Forall_nil_2].
Defined.

End Aslr.
