(* ===== verification/Vmm.v ===== *)
(** * The virtual memory manager ([memory/vmm.c], [memory/vmm_process.c])

    Page frames, page directories and tables, regions, page faults and the address spaces
    of processes. Physical memory is a function from the addresses of 32-bit words to
    words; page directories and tables live in it. The code means to reach them at virtual
    address [0xC0000000 + a] for physical address [a]. How the processor translates such an
    address is an interface, [Mmu]: [through_cr3] is the machine, which follows the tables
    of CR3 ([walk]) and faults where nothing is mapped; [direct_map] is the machine the code
    was written for, where the window is always there. The store that clears a fresh page
    goes through the tables of CR3 in either case; TLB entries are taken to be flushed
    where the code flushes them. Answers of [heap_alloc] are arguments: the
    address of an address space, and whether a region descriptor can be allocated. The
    list of regions is private to its address space and is a list.

    Ending a process, the core dump and the panic after a fault that cannot be handled
    are not part of the repository's memory code: the handler answers whether it handled
    the fault. *)

From Stdlib Require Import ZArith Lia Ascii String.
From stdpp Require Import base tactics option list gmap numbers strings.
From S2P Require Import Prelude Aslr.

Set Default Goal Selector "!".
Local Open Scope Z_scope.
Local Open Scope kernel_scope.

Module Vmm.

Definition PAGE_SIZE : Z := 4096.
Definition PTE_PRESENT : Z := 1.
Definition PTE_WRITE : Z := 2.
Definition PTE_USER : Z := 4.
Definition PTE_NOCACHE : Z := 16.
Definition PTE_FRAMEBITS : Z := 0xFFFFF000.
Definition PF_WRITE : Z := 2.
Definition PF_INST : Z := 16.
Definition PF_ALLOCATED : Z := 1.
Definition PF_LOCKED : Z := 2.
Definition PF_KERNEL : Z := 4.
Definition VM_TYPE_KERNEL : Z := 1.
Definition VM_TYPE_USER : Z := 2.
Definition VM_TYPE_STACK : Z := 3.
Definition VM_TYPE_HEAP : Z := 4.
Definition VM_TYPE_MMIO : Z := 5.
Definition VM_TYPE_SHARED : Z := 6.
Definition VM_TYPE_MODULE : Z := 7.
Definition VM_PERM_READ : Z := 1.
Definition VM_PERM_WRITE : Z := 2.
Definition VM_PERM_EXEC : Z := 4.
Definition VM_PERM_USER : Z := 8.
Definition VM_FLAG_SHARED : Z := 512.
Definition VM_FLAG_STACK : Z := 4096.
Definition MAX_PROCESSES : Z := 256.
Definition KERNEL_OFFSET : Z := 0xC0000000.

(** ** State *)

(** [page_frame_t] *)
Record page_frame : Type := mk_frame {
  fr_flags : Z;
  ref_count : Z;
}.

(** [vm_region_t], without the link. *)
Record vm_region : Type := mk_region {
  r_start : Z;
  r_end : Z;
  r_flags : Z;
  r_type : Z;
  r_name : option string;
}.

(** [address_space_t]: the regions from the head of the list on. *)
Record address_space : Type := mk_space {
  page_directory : Z;
  regions : list vm_region;
  id : Z;
}.

Definition set_page_directory (x : Z) (a : address_space) : address_space :=
  mk_space x (regions a) (id a).
Definition set_regions (x : list vm_region) (a : address_space) : address_space :=
  mk_space (page_directory a) x (id a).
Definition set_id (x : Z) (a : address_space) : address_space :=
  mk_space (page_directory a) (regions a) x.

(** [vm_stats_t] *)
Record vm_stats : Type := mk_stats {
  total_physical_memory : Z;
  free_physical_memory : Z;
  total_virtual_memory : Z;
  free_virtual_memory : Z;
  page_faults : Z;
  page_ins : Z;
  page_outs : Z;
}.

Definition set_free_physical_memory (x : Z) (t : vm_stats) : vm_stats :=
  mk_stats (total_physical_memory t) x (total_virtual_memory t) (free_virtual_memory t)
    (page_faults t) (page_ins t) (page_outs t).
Definition set_page_faults (x : Z) (t : vm_stats) : vm_stats :=
  mk_stats (total_physical_memory t) (free_physical_memory t) (total_virtual_memory t)
    (free_virtual_memory t) x (page_ins t) (page_outs t).

(** [struct vmm_state], the exported copies of three of its members, the table of
    [vmm_process.c], the configuration of ASLR, the address spaces that are allocated,
    physical memory by the address of its 32-bit words, and the register CR3. *)
Record vmm : Type := mk_vmm {
  initialized : Z;
  kernel_space : ptr;
  current_space : ptr;
  page_frames : list page_frame;
  num_frames : Z;
  free_frames : Z;
  next_free_frame : Z;
  stats : vm_stats;
  page_fault_handler : Z;
  vmm_initialized : Z;
  vmm_kernel_space : ptr;
  vmm_current_space : ptr;
  process_spaces : list ptr;
  aslr : Aslr.config;
  spaces : gmap addr address_space;
  mem : Z -> Z;
  cr3 : Z;
}.

Definition set_initialized (x : Z) (s : vmm) : vmm :=
  mk_vmm x (kernel_space s) (current_space s) (page_frames s) (num_frames s) (free_frames s)
    (next_free_frame s) (stats s) (page_fault_handler s) (vmm_initialized s) (vmm_kernel_space s)
    (vmm_current_space s) (process_spaces s) (aslr s) (spaces s) (mem s) (cr3 s).
Definition set_kernel_space (x : ptr) (s : vmm) : vmm :=
  mk_vmm (initialized s) x (current_space s) (page_frames s) (num_frames s) (free_frames s)
    (next_free_frame s) (stats s) (page_fault_handler s) (vmm_initialized s) (vmm_kernel_space s)
    (vmm_current_space s) (process_spaces s) (aslr s) (spaces s) (mem s) (cr3 s).
Definition set_current_space (x : ptr) (s : vmm) : vmm :=
  mk_vmm (initialized s) (kernel_space s) x (page_frames s) (num_frames s) (free_frames s)
    (next_free_frame s) (stats s) (page_fault_handler s) (vmm_initialized s) (vmm_kernel_space s)
    (vmm_current_space s) (process_spaces s) (aslr s) (spaces s) (mem s) (cr3 s).
Definition set_page_frames (x : list page_frame) (s : vmm) : vmm :=
  mk_vmm (initialized s) (kernel_space s) (current_space s) x (num_frames s) (free_frames s)
    (next_free_frame s) (stats s) (page_fault_handler s) (vmm_initialized s) (vmm_kernel_space s)
    (vmm_current_space s) (process_spaces s) (aslr s) (spaces s) (mem s) (cr3 s).
Definition set_num_frames (x : Z) (s : vmm) : vmm :=
  mk_vmm (initialized s) (kernel_space s) (current_space s) (page_frames s) x (free_frames s)
    (next_free_frame s) (stats s) (page_fault_handler s) (vmm_initialized s) (vmm_kernel_space s)
    (vmm_current_space s) (process_spaces s) (aslr s) (spaces s) (mem s) (cr3 s).
Definition set_free_frames (x : Z) (s : vmm) : vmm :=
  mk_vmm (initialized s) (kernel_space s) (current_space s) (page_frames s) (num_frames s) x
    (next_free_frame s) (stats s) (page_fault_handler s) (vmm_initialized s) (vmm_kernel_space s)
    (vmm_current_space s) (process_spaces s) (aslr s) (spaces s) (mem s) (cr3 s).
Definition set_next_free_frame (x : Z) (s : vmm) : vmm :=
  mk_vmm (initialized s) (kernel_space s) (current_space s) (page_frames s) (num_frames s)
    (free_frames s) x (stats s) (page_fault_handler s) (vmm_initialized s) (vmm_kernel_space s)
    (vmm_current_space s) (process_spaces s) (aslr s) (spaces s) (mem s) (cr3 s).
Definition set_stats (x : vm_stats) (s : vmm) : vmm :=
  mk_vmm (initialized s) (kernel_space s) (current_space s) (page_frames s) (num_frames s)
    (free_frames s) (next_free_frame s) x (page_fault_handler s) (vmm_initialized s)
    (vmm_kernel_space s) (vmm_current_space s) (process_spaces s) (aslr s) (spaces s) (mem s)
    (cr3 s).
Definition set_page_fault_handler (x : Z) (s : vmm) : vmm :=
  mk_vmm (initialized s) (kernel_space s) (current_space s) (page_frames s) (num_frames s)
    (free_frames s) (next_free_frame s) (stats s) x (vmm_initialized s) (vmm_kernel_space s)
    (vmm_current_space s) (process_spaces s) (aslr s) (spaces s) (mem s) (cr3 s).
Definition set_vmm_initialized (x : Z) (s : vmm) : vmm :=
  mk_vmm (initialized s) (kernel_space s) (current_space s) (page_frames s) (num_frames s)
    (free_frames s) (next_free_frame s) (stats s) (page_fault_handler s) x (vmm_kernel_space s)
    (vmm_current_space s) (process_spaces s) (aslr s) (spaces s) (mem s) (cr3 s).
Definition set_vmm_kernel_space (x : ptr) (s : vmm) : vmm :=
  mk_vmm (initialized s) (kernel_space s) (current_space s) (page_frames s) (num_frames s)
    (free_frames s) (next_free_frame s) (stats s) (page_fault_handler s) (vmm_initialized s) x
    (vmm_current_space s) (process_spaces s) (aslr s) (spaces s) (mem s) (cr3 s).
Definition set_vmm_current_space (x : ptr) (s : vmm) : vmm :=
  mk_vmm (initialized s) (kernel_space s) (current_space s) (page_frames s) (num_frames s)
    (free_frames s) (next_free_frame s) (stats s) (page_fault_handler s) (vmm_initialized s)
    (vmm_kernel_space s) x (process_spaces s) (aslr s) (spaces s) (mem s) (cr3 s).
Definition set_process_spaces (x : list ptr) (s : vmm) : vmm :=
  mk_vmm (initialized s) (kernel_space s) (current_space s) (page_frames s) (num_frames s)
    (free_frames s) (next_free_frame s) (stats s) (page_fault_handler s) (vmm_initialized s)
    (vmm_kernel_space s) (vmm_current_space s) x (aslr s) (spaces s) (mem s) (cr3 s).
Definition set_aslr (x : Aslr.config) (s : vmm) : vmm :=
  mk_vmm (initialized s) (kernel_space s) (current_space s) (page_frames s) (num_frames s)
    (free_frames s) (next_free_frame s) (stats s) (page_fault_handler s) (vmm_initialized s)
    (vmm_kernel_space s) (vmm_current_space s) (process_spaces s) x (spaces s) (mem s) (cr3 s).
Definition set_spaces (x : gmap addr address_space) (s : vmm) : vmm :=
  mk_vmm (initialized s) (kernel_space s) (current_space s) (page_frames s) (num_frames s)
    (free_frames s) (next_free_frame s) (stats s) (page_fault_handler s) (vmm_initialized s)
    (vmm_kernel_space s) (vmm_current_space s) (process_spaces s) (aslr s) x (mem s) (cr3 s).
Definition set_mem (x : Z -> Z) (s : vmm) : vmm :=
  mk_vmm (initialized s) (kernel_space s) (current_space s) (page_frames s) (num_frames s)
    (free_frames s) (next_free_frame s) (stats s) (page_fault_handler s) (vmm_initialized s)
    (vmm_kernel_space s) (vmm_current_space s) (process_spaces s) (aslr s) (spaces s) x (cr3 s).
Definition set_cr3 (x : Z) (s : vmm) : vmm :=
  mk_vmm (initialized s) (kernel_space s) (current_space s) (page_frames s) (num_frames s)
    (free_frames s) (next_free_frame s) (stats s) (page_fault_handler s) (vmm_initialized s)
    (vmm_kernel_space s) (vmm_current_space s) (process_spaces s) (aslr s) (spaces s) (mem s) x.

(** ** Memory *)

Definition read_word (a : Z) : M vmm Z := s <- get ;; ret (mem s a).
Definition write_word (a v : Z) : M vmm unit :=
  modify (fun s => set_mem (fun x => if x =? a then v else mem s x) s).

(** [memset] of a page to 0. *)
Definition clear_page (a : Z) : M vmm unit :=
  modify (fun s => set_mem (fun x => if (a <=? x) && (x <? a + PAGE_SIZE) then 0 else mem s x) s).

(** Translation by the processor. *)
Definition pd_index (virt : Z) : Z := Z.shiftr virt 22.
Definition pt_index (virt : Z) : Z := Z.land (Z.shiftr virt 12) 0x3FF.

Definition walk (m : Z -> Z) (dir virt : Z) : option Z :=
  let pde := m (dir + 4 * pd_index virt) in
  if has_flag pde PTE_PRESENT then
    let pte := m (Z.land pde PTE_FRAMEBITS + 4 * pt_index virt) in
    if has_flag pte PTE_PRESENT then Some pte else None
  else None.

(** The physical address that an access to a page table reaches. *)
Class Mmu : Type := window : Z -> M vmm Z.

(** The machine: the tables of CR3 translate every address. *)
Definition through_cr3 : Mmu := fun a =>
  s <- get ;;
  pte <- deref (walk (mem s) (cr3 s) a) ;;
  ret (Z.land pte PTE_FRAMEBITS + Z.land a 0xFFF).

(** The machine the code counts on: physical memory is always mapped at 0xC0000000. *)
Definition direct_map : Mmu := fun a => if KERNEL_OFFSET <=? a then ret (a - KERNEL_OFFSET) else fault.

(** [memset] of a page by its virtual address. *)
Definition clear_virtual (virt : Z) : M vmm unit :=
  s <- get ;;
  pte <- deref (walk (mem s) (cr3 s) virt) ;;
  clear_page (Z.land pte PTE_FRAMEBITS).

(** ** Objects *)

Definition space_at (p : ptr) : M vmm address_space :=
  s <- get ;;
  a <- deref p ;;
  deref (spaces s !! a).
Definition upd_space (p : ptr) (f : address_space -> address_space) : M vmm unit :=
  a <- deref p ;;
  sp <- space_at p ;;
  modify (fun s => set_spaces (<[a := f sp]> (spaces s)) s).

Definition frame_at (i : Z) : M vmm page_frame := s <- get ;; deref (arr_get (page_frames s) i).
Definition set_frame (i : Z) (f : page_frame) : M vmm unit :=
  s <- get ;;
  l <- deref (arr_set (page_frames s) i f) ;;
  put (set_page_frames l s).

Definition on_aslr {A} (m : M Aslr.config A) : M vmm A := fun s =>
  match m (aslr s) with
  | Ret (a, c) => Ret (a, set_aslr c s)
  | Spin => Spin
  | Fault => Fault
  end.

(** ** Page frames *)

(** The loop of [vmm_alloc_frame]: the frame that was found. *)
Fixpoint find_frame (n : nat) (i : Z) : M vmm (option Z) :=
  match n with
  | O => ret None
  | S n' =>
      f <- frame_at i ;;
      if negb (has_flag (fr_flags f) PF_ALLOCATED) then ret (Some i)
      else
        s <- get ;;
        find_frame n' (u32 (i + 1) mod num_frames s)
  end.

Definition vmm_alloc_frame : M vmm Z :=
  s <- get ;;
  if free_frames s =? 0 then ret 0
  else
    r <- find_frame (Z.to_nat (num_frames s)) (next_free_frame s) ;;
    match r with
    | None => ret 0
    | Some i =>
        set_frame i (mk_frame PF_ALLOCATED 1) ;;;
        modify (fun s => set_free_frames (u32 (free_frames s - 1)) s) ;;;
        modify (fun s => set_next_free_frame (u32 (i + 1) mod num_frames s) s) ;;;
        modify (fun s => set_stats (set_free_physical_memory (u32 (free_physical_memory (stats s) - PAGE_SIZE)) (stats s)) s) ;;;
        ret (u32 (i * PAGE_SIZE))
    end.

Definition vmm_free_frame (frame : Z) : M vmm unit :=
  let i := frame / PAGE_SIZE in
  s <- get ;;
  if num_frames s <=? i then ret tt
  else
    f <- frame_at i ;;
    if negb (has_flag (fr_flags f) PF_ALLOCATED) then ret tt
    else
      let n := if 0 <? ref_count f then ref_count f - 1 else ref_count f in
      set_frame i (mk_frame (fr_flags f) n) ;;;
      if n =? 0 then
        set_frame i (mk_frame 0 n) ;;;
        modify (fun s => set_free_frames (u32 (free_frames s + 1)) s) ;;;
        modify (fun s => set_stats (set_free_physical_memory (u32 (free_physical_memory (stats s) + PAGE_SIZE)) (stats s)) s) ;;;
        s <- get ;;
        if i <? next_free_frame s then modify (set_next_free_frame i) else ret tt
      else ret tt.

Section Tables.
Context {mmu : Mmu}.

(** ** Mappings *)

Definition vmm_map_page (space : ptr) (virt phys fl : Z) : M vmm Z :=
  match space with
  | None => ret (-1)
  | Some _ =>
      sp <- space_at space ;;
      pd <- window (page_directory sp) ;;
      pde <- read_word (pd + 4 * pd_index virt) ;;
      pt <- (if negb (has_flag pde PTE_PRESENT) then
               pt_phys <- vmm_alloc_frame ;;
               if pt_phys =? 0 then ret None
               else
                 pt <- window (u32 (pt_phys + KERNEL_OFFSET)) ;;
                 clear_page pt ;;;
                 write_word (pd + 4 * pd_index virt) (Z.lor (Z.lor (Z.lor pt_phys PTE_PRESENT) PTE_WRITE) PTE_USER) ;;;
                 ret (Some pt)
             else
               pt <- window (u32 (Z.land pde PTE_FRAMEBITS + KERNEL_OFFSET)) ;;
               ret (Some pt)) ;;
      match pt with
      | None => ret (-1)
      | Some pt =>
          write_word (pt + 4 * pt_index virt) (Z.lor (Z.land phys PTE_FRAMEBITS) fl) ;;;
          ret 0
      end
  end.

Definition vmm_unmap_page (space : ptr) (virt : Z) : M vmm Z :=
  match space with
  | None => ret (-1)
  | Some _ =>
      sp <- space_at space ;;
      pd <- window (page_directory sp) ;;
      pde <- read_word (pd + 4 * pd_index virt) ;;
      if negb (has_flag pde PTE_PRESENT) then ret 0
      else
        pt <- window (u32 (Z.land pde PTE_FRAMEBITS + KERNEL_OFFSET)) ;;
        pte <- read_word (pt + 4 * pt_index virt) ;;
        if negb (has_flag pte PTE_PRESENT) then ret 0
        else
          vmm_free_frame (Z.land pte PTE_FRAMEBITS) ;;;
          write_word (pt + 4 * pt_index virt) 0 ;;;
          ret 0
  end.

(** ** Address spaces *)

(** [space] is the answer of [heap_alloc]; [free_space] is [heap_free] of it. *)
Definition free_space (p : ptr) : M vmm unit :=
  a <- deref p ;; modify (fun s => set_spaces (delete a (spaces s)) s).

Definition vmm_create_address_space (space : ptr) : M vmm ptr :=
  match space with
  | None => ret None
  | Some a =>
      modify (fun s => set_spaces (<[a := mk_space 0 [] 0]> (spaces s)) s) ;;;
      pd_phys <- vmm_alloc_frame ;;
      if pd_phys =? 0 then free_space space ;;; ret None
      else
        let pd := u32 (pd_phys + KERNEL_OFFSET) in
        upd_space space (set_page_directory pd) ;;;
        w <- window pd ;;
        clear_page w ;;;
        ret space
  end.

(** One round of the loop that frees the page tables. *)
Definition free_table (pd i : Z) : M vmm unit :=
  pde <- read_word (pd + 4 * i) ;;
  if has_flag pde PTE_PRESENT then vmm_free_frame (Z.land pde PTE_FRAMEBITS) else ret tt.

Definition vmm_destroy_address_space (space : ptr) : M vmm unit :=
  match space with
  | None => ret tt
  | Some _ =>
      upd_space space (set_regions []) ;;;
      sp <- space_at space ;;
      pd <- window (page_directory sp) ;;
      mfor (seqZ 0 1024) (free_table pd) ;;;
      vmm_free_frame (u32 (page_directory sp - KERNEL_OFFSET)) ;;;
      free_space space
  end.

Definition vmm_switch_address_space (space : ptr) : M vmm unit :=
  match space with
  | None => ret tt
  | Some _ =>
      sp <- space_at space ;;
      modify (set_cr3 (u32 (page_directory sp - KERNEL_OFFSET))) ;;;
      modify (set_current_space space) ;;;
      modify (set_vmm_current_space space)
  end.

(** ** Regions *)

Definition page_down (x : Z) : Z := x / PAGE_SIZE * PAGE_SIZE.
Definition page_up (x : Z) : Z := u32 (x + PAGE_SIZE - 1) / PAGE_SIZE * PAGE_SIZE.

Definition overlaps (start end_ : Z) (r : vm_region) : bool := (start <? r_end r) && (r_start r <? end_).

(** Whether a region was added; [ok] says whether its descriptor can be allocated. *)
Definition vmm_add_region (space : ptr) (start end_ fl ty : Z) (nm : option string) (ok : bool) : M vmm bool :=
  match space with
  | None => ret false
  | Some _ =>
      let start := page_down start in
      let end_ := page_up end_ in
      sp <- space_at space ;;
      if existsb (overlaps start end_) (regions sp) then ret false
      else if negb ok then ret false
      else
        upd_space space (set_regions (mk_region start end_ fl ty nm :: regions sp)) ;;;
        ret true
  end.

Fixpoint remove_start (start : Z) (l : list vm_region) : list vm_region :=
  match l with
  | [] => []
  | r :: l' => if r_start r =? start then l' else r :: remove_start start l'
  end.

Definition vmm_remove_region (space : ptr) (start : Z) : M vmm unit :=
  match space with
  | None => ret tt
  | Some _ =>
      sp <- space_at space ;;
      upd_space space (set_regions (remove_start start (regions sp)))
  end.

Definition contains (a : Z) (r : vm_region) : bool := (r_start r <=? a) && (a <? r_end r).

Definition vmm_find_region (space : ptr) (a : Z) : M vmm (option vm_region) :=
  match space with
  | None => ret None
  | Some _ => sp <- space_at space ;; ret (List.find (contains a) (regions sp))
  end.

(** ** Setting up *)

(** One round of the loop that reserves the frames of the kernel. *)
Definition reserve_frame (i : Z) : M vmm unit :=
  set_frame i (mk_frame (Z.lor (Z.lor PF_ALLOCATED PF_LOCKED) PF_KERNEL) 1) ;;;
  modify (fun s => set_free_frames (u32 (free_frames s - 1)) s).

(** [frames_ok]: the array of frames can be allocated; [space] and [region_ok] as above.
    [DEFAULT_HANDLER] is the address of [vmm_default_page_fault_handler]. *)
Definition DEFAULT_HANDLER : Z := 1.

Definition vmm_init (mem_size_kb : Z) (frames_ok : bool) (space : ptr) (region_ok : bool) : M vmm Z :=
  modify (fun s => mk_vmm 0 None None [] 0 0 0 (mk_stats 0 0 0 0 0 0 0) 0 (vmm_initialized s) (vmm_kernel_space s)
    (vmm_current_space s) (process_spaces s) (aslr s) (spaces s) (mem s) (cr3 s)) ;;;
  modify (set_num_frames (mem_size_kb / (PAGE_SIZE / 1024))) ;;;
  modify (fun s => set_free_frames (num_frames s) s) ;;;
  if negb frames_ok then ret (-1)
  else
    modify (fun s => set_page_frames (replicate (Z.to_nat (num_frames s)) (mk_frame 0 0)) s) ;;;
    mfor (seqZ 0 256) reserve_frame ;;;
    modify (set_next_free_frame 256) ;;;
    k <- vmm_create_address_space space ;;
    modify (set_kernel_space k) ;;;
    match k with
    | None => modify (set_page_frames []) ;;; ret (-1)
    | Some _ =>
        mfor (seqZ 0 1024) (fun i =>
          _r <- vmm_map_page k (i * PAGE_SIZE) (i * PAGE_SIZE) (Z.lor PTE_PRESENT PTE_WRITE) ;; ret tt) ;;;
        _r <- vmm_add_region k 0 (4 * 1024 * 1024) (Z.lor (Z.lor VM_PERM_READ VM_PERM_WRITE) VM_PERM_EXEC) VM_TYPE_KERNEL
                (Some "kernel"%string) region_ok ;;
        modify (set_page_fault_handler DEFAULT_HANDLER) ;;;
        modify (set_current_space k) ;;;
        vmm_switch_address_space k ;;;
        modify (fun s => set_stats (mk_stats (u32 (mem_size_kb * 1024)) (u32 (free_frames s * PAGE_SIZE))
          (u32 (4 * 1024 * 1024 * 1024)) (u32 (u32 (4 * 1024 * 1024 * 1024) - 4 * 1024 * 1024))
          (page_faults (stats s)) (page_ins (stats s)) (page_outs (stats s))) s) ;;;
        modify (set_initialized 1) ;;;
        modify (fun s => set_vmm_initialized (initialized s) s) ;;;
        modify (fun s => set_vmm_kernel_space (kernel_space s) s) ;;;
        modify (fun s => set_vmm_current_space (current_space s) s) ;;;
        ret 0
    end.

(** ** Page faults *)

Definition required_flags (error_code : Z) : Z :=
  if has_flag error_code PF_WRITE then VM_PERM_WRITE
  else if has_flag error_code PF_INST then VM_PERM_EXEC
  else VM_PERM_READ.

(** Whether the fault was handled. *)
Definition vmm_default_page_fault_handler (address error_code : Z) : M vmm bool :=
  modify (fun s => set_stats (set_page_faults (u32 (page_faults (stats s) + 1)) (stats s)) s) ;;;
  s <- get ;;
  region <- vmm_find_region (current_space s) address ;;
  match region with
  | None => ret false
  | Some r =>
      if Z.land (r_flags r) (required_flags error_code) =? required_flags error_code then
        let page_addr := page_down address in
        frame <- vmm_alloc_frame ;;
        if truth frame then
          let fl := Z.lor PTE_PRESENT PTE_USER in
          let fl := if has_flag (r_flags r) VM_PERM_WRITE then Z.lor fl PTE_WRITE else fl in
          s <- get ;;
          _r <- vmm_map_page (current_space s) page_addr frame fl ;;
          clear_virtual page_addr ;;;
          ret true
        else ret false
      else ret false
  end.

(** A registered handler is code of its own: [custom] runs the one at an address. *)
Definition vmm_handle_page_fault (custom : Z -> Z -> Z -> M vmm bool) (address error_code : Z) : M vmm bool :=
  s <- get ;;
  if truth (page_fault_handler s) && negb (page_fault_handler s =? DEFAULT_HANDLER)
  then custom (page_fault_handler s) address error_code
  else vmm_default_page_fault_handler address error_code.

Definition vmm_register_page_fault_handler (handler : Z) : M vmm unit := modify (set_page_fault_handler handler).

(** ** Allocation *)

(** The [switch] on the type: base address and type of offset. *)
Definition base_of (ty : Z) : Z * Z :=
  if ty =? VM_TYPE_HEAP then (0x10000000, Aslr.ASLR_HEAP_OFFSET)
  else if ty =? VM_TYPE_STACK then (0xB0000000, Aslr.ASLR_STACK_OFFSET)
  else if ty =? VM_TYPE_MMIO then (0x20000000, 0)
  else if ty =? VM_TYPE_SHARED then (0x30000000, Aslr.ASLR_MMAP_OFFSET)
  else if ty =? VM_TYPE_MODULE then (0x50000000, Aslr.ASLR_LIB_OFFSET)
  else if ty =? VM_TYPE_USER then (0x08000000, Aslr.ASLR_EXEC_OFFSET)
  else (0x10000000, Aslr.ASLR_MMAP_OFFSET).

Definition vmm_alloc (size fl ty : Z) (nm : option string) (region_ok : bool) : M vmm Z :=
  s <- get ;;
  if negb (truth (initialized s)) || (size =? 0) then ret 0
  else
    let size := page_up size in
    let '(base, offset_type) := base_of ty in
    start <- on_aslr (Aslr.aslr_randomize_address base offset_type) ;;
    let end_ := u32 (start + size) in
    s <- get ;;
    ok <- vmm_add_region (current_space s) start end_ fl ty nm region_ok ;;
    if negb ok then ret 0 else ret start.

Definition vmm_free (a size : Z) : M vmm unit :=
  s <- get ;;
  if negb (truth (initialized s)) || (a =? 0) || (size =? 0) then ret tt
  else
    let end_ := page_up (u32 (a + size)) in
    let start := page_down a in
    region <- vmm_find_region (current_space s) start ;;
    match region with
    | None => ret tt
    | Some r =>
        if negb (r_start r =? start) then ret tt
        else
          mfor ((fun k => start + k * PAGE_SIZE) <$> seqZ 0 ((end_ - start) / PAGE_SIZE)) (fun v =>
            s <- get ;; _r <- vmm_unmap_page (current_space s) v ;; ret tt) ;;;
          s <- get ;;
          vmm_remove_region (current_space s) start
    end.

Definition vmm_map_physical (phys size fl : Z) (nm : option string) (region_ok : bool) : M vmm Z :=
  s <- get ;;
  if negb (truth (initialized s)) || (size =? 0) then ret 0
  else
    let page_phys := page_down phys in
    let offset := phys - page_phys in
    let size := page_up (u32 (size + offset)) in
    let virt := 0x20000000 in
    let end_ := u32 (virt + size) in
    ok <- vmm_add_region (current_space s) virt end_ fl VM_TYPE_MMIO nm region_ok ;;
    if negb ok then ret 0
    else
      let pte := Z.lor PTE_PRESENT PTE_NOCACHE in
      let pte := if has_flag fl VM_PERM_WRITE then Z.lor pte PTE_WRITE else pte in
      let pte := if has_flag fl VM_PERM_USER then Z.lor pte PTE_USER else pte in
      mfor ((fun k => k * PAGE_SIZE) <$> seqZ 0 (size / PAGE_SIZE)) (fun o =>
        s <- get ;; _r <- vmm_map_page (current_space s) (u32 (virt + o)) (u32 (page_phys + o)) pte ;; ret tt) ;;;
      ret (virt + offset).

Definition vmm_get_stats : M vmm (option vm_stats) :=
  s <- get ;; if negb (truth (initialized s)) then ret None else ret (Some (stats s)).

(** ** Processes *)

Definition process_space (id : Z) : M vmm ptr := s <- get ;; deref (arr_get (process_spaces s) id).
Definition set_process_space (id : Z) (p : ptr) : M vmm unit :=
  s <- get ;;
  l <- deref (arr_set (process_spaces s) id p) ;;
  put (set_process_spaces l s).
Definition bad_process (id : Z) : bool := (id <? 0) || (MAX_PROCESSES <=? id).

(** [ok k]: the descriptor of region [k] can be allocated. *)
Definition vmm_create_process_space (process_id : Z) (space : ptr) (ok : nat -> bool) : M vmm Z :=
  if bad_process process_id then ret (-1)
  else
    old <- process_space process_id ;;
    match old with
    | Some _ => ret (-1)
    | None =>
        p <- vmm_create_address_space space ;;
        match p with
        | None => ret (-1)
        | Some _ =>
            upd_space p (set_id process_id) ;;;
            heap_start <- on_aslr (Aslr.aslr_randomize_address 0x08400000 Aslr.ASLR_HEAP_OFFSET) ;;
            shmem_base <- on_aslr (Aslr.aslr_randomize_address 0x30000000 Aslr.ASLR_MMAP_OFFSET) ;;
            lib_base <- on_aslr (Aslr.aslr_randomize_address 0x40000000 Aslr.ASLR_LIB_OFFSET) ;;
            stack_top <- on_aslr (Aslr.aslr_randomize_address 0xBFFFFFFF Aslr.ASLR_STACK_OFFSET) ;;
            let stack_bottom := u32 (stack_top - 1024 * 1024) in
            _r <- vmm_add_region p 0x08048000 0x08400000 (Z.lor (Z.lor VM_PERM_READ VM_PERM_EXEC) VM_PERM_USER)
                    VM_TYPE_USER (Some "code"%string) (ok 0%nat) ;;
            _r <- vmm_add_region p heap_start (u32 (heap_start + 4 * 1024 * 1024))
                    (Z.lor (Z.lor VM_PERM_READ VM_PERM_WRITE) VM_PERM_USER) VM_TYPE_HEAP (Some "heap"%string) (ok 1%nat) ;;
            _r <- vmm_add_region p shmem_base (u32 (shmem_base + 16 * 1024 * 1024))
                    (Z.lor (Z.lor VM_PERM_READ VM_PERM_WRITE) VM_PERM_USER) VM_TYPE_SHARED (Some "shared"%string) (ok 2%nat) ;;
            _r <- vmm_add_region p lib_base (u32 (lib_base + 64 * 1024 * 1024))
                    (Z.lor (Z.lor VM_PERM_READ VM_PERM_EXEC) VM_PERM_USER) VM_TYPE_MODULE (Some "libraries"%string) (ok 3%nat) ;;
            _r <- vmm_add_region p stack_bottom stack_top
                    (Z.lor (Z.lor (Z.lor VM_PERM_READ VM_PERM_WRITE) VM_PERM_USER) VM_FLAG_STACK) VM_TYPE_STACK
                    (Some "stack"%string) (ok 4%nat) ;;
            set_process_space process_id p ;;;
            ret 0
        end
    end.

Definition vmm_destroy_process_space (process_id : Z) : M vmm unit :=
  if bad_process process_id then ret tt
  else
    p <- process_space process_id ;;
    match p with
    | None => ret tt
    | Some _ =>
        s <- get ;;
        (if bool_decide (p = vmm_current_space s) then vmm_switch_address_space (vmm_kernel_space s) else ret tt) ;;;
        vmm_destroy_address_space p ;;;
        set_process_space process_id None
    end.

Definition vmm_switch_to_process (process_id : Z) : M vmm Z :=
  if bad_process process_id then ret (-1)
  else
    p <- process_space process_id ;;
    match p with
    | None => ret (-1)
    | Some _ => vmm_switch_address_space p ;;; ret 0
    end.

Definition vmm_share_memory (source_proc source_addr target_proc target_addr size fl : Z) (ok : nat -> bool) : M vmm Z :=
  if bad_process source_proc || bad_process target_proc then ret (-1)
  else
    source <- process_space source_proc ;;
    target <- process_space target_proc ;;
    match source, target with
    | Some _, Some _ =>
        let src_start := page_down source_addr in
        let tgt_start := page_down target_addr in
        let page_size := page_up size in
        r1 <- vmm_add_region source src_start (u32 (src_start + page_size)) (Z.lor fl VM_FLAG_SHARED) VM_TYPE_SHARED
                (Some "shared_source"%string) (ok 0%nat) ;;
        r2 <- vmm_add_region target tgt_start (u32 (tgt_start + page_size)) (Z.lor fl VM_FLAG_SHARED) VM_TYPE_SHARED
                (Some "shared_target"%string) (ok 1%nat) ;;
        if negb r1 || negb r2 then ret (-1) else ret 0
    | _, _ => ret (-1)
    end.

End Tables.

(** The state before [vmm_init]: memory is arbitrary. *)
Definition boot_state (c : Aslr.config) (m : Z -> Z) (reg : Z) : vmm :=
  mk_vmm 0 None None [] 0 0 0 (mk_stats 0 0 0 0 0 0 0) 0 0 None None (replicate 256 None) c ∅ m reg.

End Vmm.
