(* ===== verification/VmmInv.v ===== *)
(** * The virtual memory manager: who owns a frame

    Every page frame has at most one owner: the page directory of a space, one of its page
    tables, or a page of it ([owner]). [mapped] says that the tables in memory agree with
    the owners, [frames_ok] that owned frames are allocated and that the counters are
    right. The lemmas say how reading, writing and clearing tables and allocating and
    freeing frames affect the two. *)

From Stdlib Require Import ZArith Lia.
From stdpp Require Import base tactics option gmap numbers list.
From S2P Require Import Prelude Aslr Vmm.

Set Default Goal Selector "!".
Local Open Scope Z_scope.
Local Open Scope kernel_scope.

Module VmmInv.
Import Vmm.

(** ** Bits of entries *)

Definition present (e : Z) : bool := has_flag e PTE_PRESENT.

Lemma present_odd e : present e = Z.odd e.
Proof.
  unfold present, has_flag, truth, PTE_PRESENT. change 1 with (Z.ones 1). rewrite Z.land_ones by lia.
  change (2 ^ 1) with 2. rewrite Zmod_odd. by destruct (Z.odd e).
Qed.

Lemma land_frame e : 0 <= e < 2 ^ 32 -> Z.land e PTE_FRAMEBITS = e / 4096 * 4096.
Proof.
  intros He. change PTE_FRAMEBITS with (Z.shiftl (Z.ones 20) 12).
  rewrite <- (Z.shiftl_mul_pow2 _ 12), <- (Z.shiftr_div_pow2 _ 12) by lia.
  apply Z.bits_inj'. intros n Hn. rewrite Z.land_spec.
  destruct (Z.lt_ge_cases n 12).
  - rewrite !Z.shiftl_spec_low by lia. apply andb_false_r.
  - rewrite !Z.shiftl_spec, Z.shiftr_spec by lia. replace (n - 12 + 12) with n by lia.
    destruct (Z.lt_ge_cases n 32).
    + rewrite Z.ones_spec_low by lia. apply andb_true_r.
    + rewrite <- (Z.mod_small e (2 ^ 32)) by lia. by rewrite Z.mod_pow2_bits_high by lia.
Qed.

Lemma lor_flags f fl : 0 <= fl < 4096 -> Z.lor (f * 4096) fl = f * 4096 + fl.
Proof. intros Hf. rewrite Z.lor_comm. change 4096 with (2 ^ 12). rewrite lor_high; [lia|lia|done]. Qed.

Lemma table_entry t : Z.lor (Z.lor (Z.lor (t * 4096) PTE_PRESENT) PTE_WRITE) PTE_USER = 4096 * t + 7.
Proof. rewrite <- !Z.lor_assoc. change (Z.lor PTE_PRESENT (Z.lor PTE_WRITE PTE_USER)) with 7. rewrite lor_flags; lia. Qed.

Lemma pd_index_page v o : 0 <= o < 4096 -> pd_index (v * 4096 + o) = v / 1024.
Proof.
  intros Ho. unfold pd_index. rewrite Z.shiftr_div_pow2 by lia. change (2 ^ 22) with (4096 * 1024).
  rewrite <- Z.div_div by lia. f_equal. rewrite Z.div_add_l by lia. rewrite Z.div_small; lia.
Qed.

Lemma pt_index_page v o : 0 <= o < 4096 -> pt_index (v * 4096 + o) = v mod 1024.
Proof.
  intros Ho. unfold pt_index. rewrite Z.shiftr_div_pow2 by lia. change 0x3FF with (Z.ones 10).
  rewrite Z.land_ones by lia. change (2 ^ 10) with 1024. change (2 ^ 12) with 4096. f_equal.
  rewrite Z.div_add_l by lia. rewrite Z.div_small; lia.
Qed.

(** ** Words of frames *)

Definition word (m : Z -> Z) (f i : Z) : Z := m (4096 * f + 4 * i).

Lemma word_write m f i v f' i' :
  0 <= i < 1024 -> 0 <= i' < 1024 ->
  word (fun x => if x =? 4096 * f + 4 * i then v else m x) f' i' = if decide (f' = f /\ i' = i) then v else word m f' i'.
Proof.
  intros Hi Hi'. unfold word. destruct (Z.eqb_spec (4096 * f' + 4 * i') (4096 * f + 4 * i)); case_decide; try done; lia.
Qed.

Lemma word_clear m f f' i' :
  0 <= i' < 1024 ->
  word (fun x => if (4096 * f <=? x) && (x <? 4096 * f + PAGE_SIZE) then 0 else m x) f' i' =
    if decide (f' = f) then 0 else word m f' i'.
Proof.
  intros Hi'. unfold word, PAGE_SIZE.
  destruct (Z.leb_spec (4096 * f) (4096 * f' + 4 * i')), (Z.ltb_spec (4096 * f' + 4 * i') (4096 * f + 4096));
    case_decide; simpl; try done; lia.
Qed.

(** ** Owners *)

Inductive owner : Type :=
| ODir (p : positive)
| OTab (p : positive) (i : Z)
| OPage (p : positive) (v : Z).

Definition owner_space (o : owner) : positive := match o with ODir p | OTab p _ | OPage p _ => p end.
Definition is_table (o : owner) : Prop := match o with OPage _ _ => False | _ => True end.

(** What the page [v] of a space may be mapped to: something that is not memory, the frame
    of the same number in the identity map of the kernel, or a frame of its own. *)
Definition backed (own : gmap Z owner) (ks : ptr) (num : Z) (p : positive) (v f : Z) : Prop :=
  num <= f \/ (ks = Some p /\ v < 1024 /\ f = v) \/ own !! f = Some (OPage p v).

Lemma backed_grow (own own' : gmap Z owner) ks num p v f :
  own ⊆ own' -> backed own ks num p v f -> backed own' ks num p v f.
Proof. intros Hs [?|[?|?]]; [by left|by right; left|right; right; by eapply lookup_weaken]. Qed.

Definition dir_at (sp : address_space) (d : Z) : Prop := page_directory sp = KERNEL_OFFSET + 4096 * d.

Record mapped (own : gmap Z owner) (sps : gmap positive address_space) (ks : ptr) (num : Z) (m : Z -> Z) : Prop := mk_mapped {
  mp_dir : forall p sp, sps !! p = Some sp -> exists d, dir_at sp d /\ own !! d = Some (ODir p);
  mp_tab : forall p sp d i, sps !! p = Some sp -> dir_at sp d -> 0 <= i < 1024 -> present (word m d i) = true ->
    exists t, word m d i = 4096 * t + 7 /\ own !! t = Some (OTab p i);
  mp_page : forall p sp d i t j, sps !! p = Some sp -> dir_at sp d -> 0 <= i < 1024 -> word m d i = 4096 * t + 7 ->
    0 <= j < 1024 -> present (word m t j) = true ->
    0 <= word m t j < 2 ^ 32 /\ backed own ks num p (1024 * i + j) (word m t j / 4096);
}.

Lemma dir_at_inj sp d d' : dir_at sp d -> dir_at sp d' -> d = d'.
Proof. unfold dir_at. lia. Qed.

Section Mapped.
Context {own : gmap Z owner} {sps : gmap positive address_space} {ks : ptr} {num : Z} {m : Z -> Z}.
Hypothesis Hm : mapped own sps ks num m.

Lemma mapped_dir p sp d : sps !! p = Some sp -> dir_at sp d -> own !! d = Some (ODir p).
Proof.
  intros Hp Hd. destruct (mp_dir _ _ _ _ _ Hm p sp Hp) as (d' & Hd' & Ho). by rewrite (dir_at_inj _ _ _ Hd Hd').
Qed.

(** The table of a directory entry. *)
Lemma mapped_tab p sp d i t :
  sps !! p = Some sp -> dir_at sp d -> 0 <= i < 1024 -> word m d i = 4096 * t + 7 -> own !! t = Some (OTab p i).
Proof.
  intros Hp Hd Hi E. destruct (mp_tab _ _ _ _ _ Hm p sp d i Hp Hd Hi) as (t' & E' & Ho).
  - rewrite E, present_odd, Z.odd_add, Z.odd_mul. done.
  - by replace t with t' by lia.
Qed.

(** More owners do no harm. *)
Lemma mapped_grow own' : own ⊆ own' -> mapped own' sps ks num m.
Proof.
  intros Hs. split.
  - intros p sp Hp. destruct (mp_dir _ _ _ _ _ Hm p sp Hp) as (d & Hd & Ho). exists d.
    split; [done|by eapply lookup_weaken].
  - intros p sp d i Hp Hd Hi Hpr. destruct (mp_tab _ _ _ _ _ Hm p sp d i Hp Hd Hi Hpr) as (t & Ht & Ho).
    exists t. split; [done|by eapply lookup_weaken].
  - intros p sp d i t j Hp Hd Hi Ht Hj Hpr.
    destruct (mp_page _ _ _ _ _ Hm p sp d i t j Hp Hd Hi Ht Hj Hpr) as [Hr Hb]. split; [done|].
    by eapply backed_grow.
Qed.

(** Memory outside directories and tables does not matter. *)
Lemma mapped_mem m' :
  (forall f o i, own !! f = Some o -> is_table o -> 0 <= i < 1024 -> word m' f i = word m f i) ->
  mapped own sps ks num m'.
Proof.
  intros Hmm. split.
  - apply Hm.
  - intros p sp d i Hp Hd Hi. rewrite (Hmm d (ODir p)) by (done || by eapply mapped_dir). by apply (mp_tab _ _ _ _ _ Hm p sp).
  - intros p sp d i t j Hp Hd Hi. rewrite (Hmm d (ODir p)) by (done || by eapply mapped_dir). intros Ht Hj.
    rewrite (Hmm t (OTab p i)) by (done || by eapply mapped_tab). by apply (mp_page _ _ _ _ _ Hm p sp d).
Qed.

(** A page's frame can be taken away when no entry maps the page to it. *)
Lemma mapped_drop_page f p v :
  own !! f = Some (OPage p v) ->
  (forall sp d t, sps !! p = Some sp -> dir_at sp d -> word m d (v / 1024) = 4096 * t + 7 ->
     present (word m t (v mod 1024)) = true -> word m t (v mod 1024) / 4096 <> f) ->
  mapped (delete f own) sps ks num m.
Proof.
  intros Hf Hno. split.
  - intros p' sp Hp. destruct (mp_dir _ _ _ _ _ Hm p' sp Hp) as (d & Hd & Ho). exists d. split; [done|].
    rewrite lookup_delete_ne; [done|]. intros ->. congruence.
  - intros p' sp d i Hp Hd Hi Hpr. destruct (mp_tab _ _ _ _ _ Hm p' sp d i Hp Hd Hi Hpr) as (t & Ht & Ho).
    exists t. split; [done|]. rewrite lookup_delete_ne; [done|]. intros ->. congruence.
  - intros p' sp d i t j Hp Hd Hi Ht Hj Hpr.
    destruct (mp_page _ _ _ _ _ Hm p' sp d i t j Hp Hd Hi Ht Hj Hpr) as [Hr Hb]. split; [done|].
    destruct Hb as [?|[?|Ho]]; [by left|by right; left|right; right].
    rewrite lookup_delete_ne; [done|]. intros Heq. rewrite <- Heq, Hf in Ho. injection Ho as <- ->.
    apply (Hno sp d t); [done..| | |].
    + by replace ((1024 * i + j) / 1024) with i by (rewrite Z.mul_comm, Z.div_add_l, Z.div_small; lia).
    + by replace ((1024 * i + j) mod 1024) with j by (rewrite Z.add_comm, Z.mul_comm, Z.mod_add, Z.mod_small; lia).
    + by replace ((1024 * i + j) mod 1024) with j by (rewrite Z.add_comm, Z.mul_comm, Z.mod_add, Z.mod_small; lia).
Qed.

(** The frames of a space that is gone can be taken away. *)
Lemma mapped_drop_owner f o : own !! f = Some o -> sps !! owner_space o = None -> mapped (delete f own) sps ks num m.
Proof.
  intros Hf Hn.
  assert (forall p sp f' o', sps !! p = Some sp -> owner_space o' = p -> own !! f' = Some o' -> delete f own !! f' = Some o') as Hk.
  { intros p sp f' o' Hp Eo Ho. rewrite lookup_delete_ne; [done|]. intros ->. congruence. }
  split.
  - intros p sp Hp. destruct (mp_dir _ _ _ _ _ Hm p sp Hp) as (d & Hd & Ho). exists d. split; [done|by eapply Hk].
  - intros p sp d i Hp Hd Hi Hpr. destruct (mp_tab _ _ _ _ _ Hm p sp d i Hp Hd Hi Hpr) as (t & Ht & Ho).
    exists t. split; [done|by eapply Hk].
  - intros p sp d i t j Hp Hd Hi Ht Hj Hpr.
    destruct (mp_page _ _ _ _ _ Hm p sp d i t j Hp Hd Hi Ht Hj Hpr) as [Hr Hb]. split; [done|].
    destruct Hb as [?|[?|Ho]]; [by left|by right; left|right; right; by eapply Hk].
Qed.

(** Fewer spaces, or other regions and ids in them. *)
Lemma mapped_spaces (sps' : gmap positive address_space) :
  (forall p sp, sps' !! p = Some sp -> exists sp0, sps !! p = Some sp0 /\ page_directory sp = page_directory sp0) ->
  mapped own sps' ks num m.
Proof.
  intros Hs. split.
  - intros p sp Hp. destruct (Hs p sp Hp) as (sp0 & Hp0 & E).
    destruct (mp_dir _ _ _ _ _ Hm p sp0 Hp0) as (d & Hd & Ho). exists d. unfold dir_at in *. by rewrite E.
  - intros p sp d i Hp Hd. destruct (Hs p sp Hp) as (sp0 & Hp0 & E). unfold dir_at in Hd. rewrite E in Hd.
    by apply (mp_tab _ _ _ _ _ Hm p sp0 d i).
  - intros p sp d i t j Hp Hd. destruct (Hs p sp Hp) as (sp0 & Hp0 & E). unfold dir_at in Hd. rewrite E in Hd.
    by apply (mp_page _ _ _ _ _ Hm p sp0 d i t j).
Qed.

(** Memory after a word of a frame is written, and after a frame is cleared. *)
Definition wrote (m : Z -> Z) (f i e : Z) : Z -> Z := fun x => if x =? 4096 * f + 4 * i then e else m x.
Definition cleared (m : Z -> Z) (f : Z) : Z -> Z :=
  fun x => if (4096 * f <=? x) && (x <? 4096 * f + PAGE_SIZE) then 0 else m x.

Lemma wrote_ne f i e f' i' : 0 <= i < 1024 -> 0 <= i' < 1024 -> f' <> f -> word (wrote m f i e) f' i' = word m f' i'.
Proof. intros Hi Hi' Hne. unfold wrote. rewrite word_write by done. case_decide; [lia|done]. Qed.

(** An entry of a table. *)
Lemma mapped_write_entry p sp d i t j e :
  sps !! p = Some sp -> dir_at sp d -> 0 <= i < 1024 -> word m d i = 4096 * t + 7 -> 0 <= j < 1024 ->
  (present e = true -> 0 <= e < 2 ^ 32 /\ backed own ks num p (1024 * i + j) (e / 4096)) ->
  mapped own sps ks num (wrote m t j e).
Proof.
  intros Hp Hd Hi Ht Hj He. pose proof (mapped_tab _ _ _ _ _ Hp Hd Hi Ht) as Hot.
  assert (forall p' sp' d' i', sps !! p' = Some sp' -> dir_at sp' d' -> 0 <= i' < 1024 ->
    word (wrote m t j e) d' i' = word m d' i') as Hdir.
  { intros p' sp' d' i' Hp' Hd' Hi'. apply wrote_ne; [done..|]. intros ->.
    pose proof (mapped_dir _ _ _ Hp' Hd'). congruence. }
  split.
  - apply Hm.
  - intros p' sp' d' i' Hp' Hd' Hi'. rewrite (Hdir p' sp') by done. by apply (mp_tab _ _ _ _ _ Hm p' sp').
  - intros p' sp' d' i' t' j' Hp' Hd' Hi'. rewrite (Hdir p' sp') by done. intros Ht' Hj'.
    unfold wrote. rewrite word_write by done. case_decide as Heq.
    + destruct Heq as [-> ->]. pose proof (mapped_tab _ _ _ _ _ Hp' Hd' Hi' Ht') as Ho'.
      rewrite Hot in Ho'. injection Ho' as <- <-. done.
    + by apply (mp_page _ _ _ _ _ Hm p' sp' d').
Qed.

(** A new table. *)
Lemma mapped_new_table p sp d i t :
  sps !! p = Some sp -> dir_at sp d -> 0 <= i < 1024 -> present (word m d i) = false -> own !! t = None ->
  mapped (<[t := OTab p i]> own) sps ks num (wrote (cleared m t) d i (4096 * t + 7)).
Proof.
  intros Hp Hd Hi Hnp Hot. set (m' := wrote _ _ _ _).
  pose proof (mapped_dir _ _ _ Hp Hd) as Hod.
  assert (forall f o j, own !! f = Some o -> 0 <= j < 1024 -> word m' f j = if decide (f = d /\ j = i) then 4096 * t + 7 else word m f j) as Hw.
  { intros f o j Ho Hj. unfold m', wrote. rewrite word_write by done. case_decide; [done|].
    unfold cleared. rewrite word_clear by done. case_decide; [congruence|done]. }
  assert (forall j, 0 <= j < 1024 -> word m' t j = 0) as Ht.
  { intros j Hj. unfold m', wrote. rewrite word_write by done. case_decide as Heq; [destruct Heq; congruence|].
    unfold cleared. rewrite word_clear by done. by case_decide. }
  assert (own ⊆ <[t := OTab p i]> own) as Hsub by (by apply insert_subseteq).
  split.
  - intros p' sp' Hp'. destruct (mp_dir _ _ _ _ _ Hm p' sp' Hp') as (d' & Hd' & Ho').
    exists d'. split; [done|by eapply lookup_weaken].
  - intros p' sp' d' i' Hp' Hd' Hi'. pose proof (mapped_dir _ _ _ Hp' Hd') as Ho'.
    rewrite (Hw d' _ i' Ho' Hi'). case_decide as Heq.
    + destruct Heq as [-> ->]. intros _. exists t. split; [done|]. rewrite lookup_insert_eq. congruence.
    + intros Hpr. destruct (mp_tab _ _ _ _ _ Hm p' sp' d' i' Hp' Hd' Hi' Hpr) as (t' & Ht' & Hot').
      exists t'. split; [done|by eapply lookup_weaken].
  - intros p' sp' d' i' t' j' Hp' Hd' Hi'. pose proof (mapped_dir _ _ _ Hp' Hd') as Ho'.
    rewrite (Hw d' _ i' Ho' Hi'). case_decide as Heq.
    + intros Et Hj'. replace t' with t by lia. by rewrite Ht.
    + intros Et Hj'. pose proof (mapped_tab _ _ _ _ _ Hp' Hd' Hi' Et) as Hot'.
      rewrite (Hw t' _ j' Hot' Hj'). case_decide as Heq2; [destruct Heq2; congruence|]. intros Hpr.
      destruct (mp_page _ _ _ _ _ Hm p' sp' d' i' t' j' Hp' Hd' Hi' Et Hj' Hpr) as [Hr Hb]. split; [done|].
      by eapply backed_grow.
Qed.

(** A new space. *)
Lemma mapped_new_space p sp d :
  sps !! p = None -> own !! d = None -> dir_at sp d ->
  mapped (<[d := ODir p]> own) (<[p := sp]> sps) ks num (cleared m d).
Proof.
  intros Hp Hd Hsp.
  assert (own ⊆ <[d := ODir p]> own) as Hsub by (by apply insert_subseteq).
  assert (forall f o j, own !! f = Some o -> 0 <= j < 1024 -> word (cleared m d) f j = word m f j) as Hw.
  { intros f o j Ho Hj. unfold cleared. rewrite word_clear by done. case_decide; [congruence|done]. }
  assert (forall j, 0 <= j < 1024 -> word (cleared m d) d j = 0) as H0.
  { intros j Hj. unfold cleared. rewrite word_clear by done. by case_decide. }
  split.
  - intros p' sp' Hp'. apply lookup_insert_Some in Hp' as [[<- <-]|[Hne Hp']].
    { exists d. split; [done|]. by rewrite lookup_insert_eq. }
    destruct (mp_dir _ _ _ _ _ Hm p' sp' Hp') as (d' & Hd' & Ho'). exists d'. split; [done|by eapply lookup_weaken].
  - intros p' sp' d' i' Hp' Hd' Hi'. apply lookup_insert_Some in Hp' as [[<- <-]|[Hne Hp']].
    { rewrite (dir_at_inj _ _ _ Hd' Hsp), H0 by done. done. }
    rewrite (Hw d' (ODir p')) by (done || by eapply mapped_dir). intros Hpr.
    destruct (mp_tab _ _ _ _ _ Hm p' sp' d' i' Hp' Hd' Hi' Hpr) as (t' & Ht' & Hot').
    exists t'. split; [done|by eapply lookup_weaken].
  - intros p' sp' d' i' t' j' Hp' Hd' Hi'. apply lookup_insert_Some in Hp' as [[<- <-]|[Hne Hp']].
    { rewrite (dir_at_inj _ _ _ Hd' Hsp), H0 by done. lia. }
    rewrite (Hw d' (ODir p')) by (done || by eapply mapped_dir). intros Et Hj'.
    rewrite (Hw t' (OTab p' i')) by (done || by eapply mapped_tab). intros Hpr.
    destruct (mp_page _ _ _ _ _ Hm p' sp' d' i' t' j' Hp' Hd' Hi' Et Hj' Hpr) as [Hr Hb]. split; [done|].
    by eapply backed_grow.
Qed.

End Mapped.

(** ** Frames *)

Definition allocated (f : page_frame) : bool := has_flag (fr_flags f) PF_ALLOCATED.
Definition free_count (l : list page_frame) : nat := length (filter (fun f => allocated f = false) l).

Definition owned_frame : page_frame := mk_frame PF_ALLOCATED 1.

Record frames_ok (own : gmap Z owner) (s : vmm) : Prop := mk_frames_ok {
  fo_num : 256 <= num_frames s <= 2 ^ 18;
  fo_len : Z.of_nat (length (page_frames s)) = num_frames s;
  fo_kernel : forall i, 0 <= i < 256 -> exists f, arr_get (page_frames s) i = Some f /\ allocated f = true;
  fo_own : forall f o, own !! f = Some o -> 256 <= f < num_frames s /\ arr_get (page_frames s) f = Some owned_frame;
  fo_free : free_frames s = Z.of_nat (free_count (page_frames s));
  fo_next : 0 <= next_free_frame s /\ (0 < free_frames s -> next_free_frame s < num_frames s);
}.

(** The statistics agree with the number of free frames. *)
Definition stats_ok (s : vmm) : Prop := free_physical_memory (stats s) = 4096 * free_frames s.

(** Everything but memory, the frames and their counters is the same. *)
Record same (s s' : vmm) : Prop := mk_same {
  ks_init : initialized s' = initialized s;
  ks_kernel : kernel_space s' = kernel_space s;
  ks_current : current_space s' = current_space s;
  ks_num : num_frames s' = num_frames s;
  ks_handler : page_fault_handler s' = page_fault_handler s;
  ks_vinit : vmm_initialized s' = vmm_initialized s;
  ks_vkernel : vmm_kernel_space s' = vmm_kernel_space s;
  ks_vcurrent : vmm_current_space s' = vmm_current_space s;
  ks_process : process_spaces s' = process_spaces s;
  ks_aslr : aslr s' = aslr s;
  ks_spaces : spaces s' = spaces s;
  ks_cr3 : cr3 s' = cr3 s;
}.

Lemma same_refl s : same s s.
Proof. by split. Qed.

Lemma same_trans s1 s2 s3 : same s1 s2 -> same s2 s3 -> same s1 s3.
Proof. intros [] []. split; congruence. Qed.

Definition keeps (s s' : vmm) : Prop := same s s' /\ mem s' = mem s.

Lemma keeps_refl s : keeps s s.
Proof. by split. Qed.

Lemma free_count_le l : (free_count l <= length l)%nat.
Proof. apply length_filter. Qed.

Lemma free_count_insert l i f f' :
  l !! i = Some f ->
  Z.of_nat (free_count (<[i := f']> l)) =
    Z.of_nat (free_count l) - (if allocated f then 0 else 1) + (if allocated f' then 0 else 1).
Proof.
  intros Hi. unfold free_count. pose proof (lookup_lt_Some _ _ _ Hi) as Hlt.
  rewrite <- (take_drop_middle l i f Hi) at 2. rewrite insert_take_drop by done.
  rewrite !filter_app, !filter_cons, !length_app.
  destruct (allocated f), (allocated f'); repeat case_decide; try done; simpl; lia.
Qed.

Lemma find_frame_run (own : gmap Z owner) s n i :
  frames_ok own s -> 0 <= i < num_frames s ->
  exists r, find_frame n i s = Ret (r, s) /\
    match r with
    | Some j => exists f, arr_get (page_frames s) j = Some f /\ allocated f = false
    | None => forall k, 0 <= k < Z.of_nat n -> exists f, arr_get (page_frames s) ((i + k) mod num_frames s) = Some f /\ allocated f = true
    end.
Proof.
  intros Hf. pose proof (fo_num _ _ Hf) as Hn. revert i. induction n as [|n IH]; intros i Hi; cbn [find_frame].
  { exists None. split; [done|]. intros k Hk. lia. }
  destruct (arr_get_some (page_frames s) i) as [f Ef]; [rewrite (fo_len _ _ Hf); lia|].
  unfold frame_at, bind at 1, bind at 1, get at 1. rewrite Ef. cbn [deref ret]. fold (allocated f).
  destruct (allocated f) eqn:Ea; simpl.
  - rewrite u32_small by lia. set (i' := (i + 1) mod num_frames s).
    destruct (IH i') as (r & Er & Hr); [by apply Z.mod_pos_bound; lia|]. exists r.
    split; [done|]. destruct r as [j|]; [done|]. intros k Hk. destruct (Z.eq_dec k 0) as [->|].
    + rewrite Z.add_0_r, Z.mod_small by lia. by exists f.
    + destruct (Hr (k - 1)) as (f' & Ef' & Ha'); [lia|]. exists f'. split; [|done]. rewrite <- Ef'. f_equal.
      unfold i'. rewrite Zplus_mod_idemp_l. f_equal. lia.
  - exists (Some i). split; [done|]. by exists f.
Qed.

(** A scan of the whole array misses no free frame. *)
Lemma scan_complete (own : gmap Z owner) s i :
  frames_ok own s -> 0 <= i < num_frames s ->
  (forall k, 0 <= k < num_frames s -> exists f, arr_get (page_frames s) ((i + k) mod num_frames s) = Some f /\ allocated f = true) ->
  free_frames s = 0.
Proof.
  intros Hf Hi Hall. pose proof (fo_num _ _ Hf) as Hn. rewrite (fo_free _ _ Hf). unfold free_count.
  destruct (filter _ (page_frames s)) as [|f l] eqn:E; [done|]. exfalso.
  assert (f ∈ f :: l) as Hin by left. rewrite <- E in Hin.
  apply list_elem_of_filter in Hin as [Hfree Hin]. apply list_elem_of_lookup_1 in Hin as [j Hj].
  pose proof (lookup_lt_Some _ _ _ Hj) as Hlt. pose proof (fo_len _ _ Hf) as Hlen.
  destruct (Hall ((Z.of_nat j - i) mod num_frames s)) as (f' & Ef' & Ha'); [by apply Z.mod_pos_bound; lia|].
  rewrite Zplus_mod_idemp_r in Ef'. replace (i + (Z.of_nat j - i)) with (Z.of_nat j) in Ef' by lia.
  rewrite Z.mod_small, arr_get_nat in Ef' by lia. congruence.
Qed.

Lemma free_bound own s : frames_ok own s -> 0 <= free_frames s <= num_frames s.
Proof.
  intros Hf. rewrite (fo_free _ _ Hf), <- (fo_len _ _ Hf). pose proof (free_count_le (page_frames s)). lia.
Qed.

(** [frames_ok] when one frame is changed. *)
Lemma frames_set own own' s s' i f f' :
  frames_ok own s -> arr_get (page_frames s) i = Some f -> page_frames s' = <[Z.to_nat i := f']> (page_frames s) ->
  num_frames s' = num_frames s ->
  free_frames s' = free_frames s - (if allocated f then 0 else 1) + (if allocated f' then 0 else 1) ->
  256 <= i -> (forall g o, own' !! g = Some o -> (g <> i /\ own !! g = Some o) \/ (g = i /\ f' = owned_frame)) ->
  0 <= next_free_frame s' -> (0 < free_frames s' -> next_free_frame s' < num_frames s) ->
  frames_ok own' s'.
Proof.
  intros Hf Hi Ep En Ef Hk Hown Hnx0 Hnx. pose proof (arr_get_inv _ _ _ Hi) as Hr. pose proof (fo_len _ _ Hf) as Hl.
  split.
  - rewrite En. apply Hf.
  - by rewrite Ep, En, length_insert.
  - intros j Hj. rewrite Ep, arr_get_insert by lia. case_decide; [lia|]. by apply (fo_kernel _ _ Hf).
  - intros g o Hg. rewrite En, Ep. apply Hown in Hg as [[Hne Hg]|[-> ->]].
    + destruct (fo_own _ _ Hf g o Hg) as [Hgr Hgf]. split; [done|].
      rewrite arr_get_insert by lia. by case_decide.
    + split; [lia|]. rewrite arr_get_insert by lia. by case_decide.
  - rewrite Ef, Ep, (free_count_insert _ _ f).
    + rewrite (fo_free _ _ Hf). lia.
    + unfold arr_get in Hi. by destruct (i <? 0).
  - rewrite En. split; [done|]. done.
Qed.

Lemma alloc_frame_spec own s :
  frames_ok own s ->
  wp vmm_alloc_frame (fun r s' => keeps s s' /\ frames_ok own s' /\ (stats_ok s -> stats_ok s') /\
    ((r = 0 /\ free_frames s = 0 /\ s' = s) \/
     (exists f, r = f * 4096 /\ 256 <= f < num_frames s /\ own !! f = None /\
        arr_get (page_frames s') f = Some owned_frame /\ free_frames s' = free_frames s - 1))) s.
Proof.
  intros Hf. pose proof (fo_num _ _ Hf) as Hn. pose proof (free_bound _ _ Hf) as Hb.
  unfold vmm_alloc_frame. wp_steps. destruct (Z.eqb_spec (free_frames s) 0) as [E0|E0]; wp_steps.
  { split; [apply keeps_refl|]. split; [done|]. split; [done|]. by left. }
  destruct (fo_next _ _ Hf) as [Hnx0 Hnx]. specialize (Hnx ltac:(lia)).
  destruct (find_frame_run own s (Z.to_nat (num_frames s)) (next_free_frame s) Hf ltac:(lia)) as (r & Er & Hr).
  unfold wp at 1. rewrite Er. destruct r as [i|].
  2:{ exfalso. apply E0. eapply scan_complete; [done|split; [exact Hnx0|exact Hnx]|]. intros k Hk. apply Hr. lia. }
  destruct Hr as (f & Ei & Ha). pose proof (arr_get_inv _ _ _ Ei) as Hi. rewrite (fo_len _ _ Hf) in Hi.
  assert (256 <= i) as Hi256.
  { destruct (Z.lt_ge_cases i 256); [|lia]. destruct (fo_kernel _ _ Hf i) as (f' & Ef' & Ha'); [lia|]. congruence. }
  unfold set_frame. wp_steps. rewrite arr_set_some by (rewrite (fo_len _ _ Hf); lia). wp_steps. unfold PAGE_SIZE.
  rewrite !u32_small by lia.
  split; [by split; [split|]|]. split; [|split].
  - eapply (frames_set own own s _ i f owned_frame Hf Ei); simpl; [done|done| |done| | |].
    + rewrite u32_small by lia. rewrite Ha. unfold allocated, owned_frame; simpl. lia.
    + intros g o Hg. left. split; [|done]. intros ->. destruct (fo_own _ _ Hf i o Hg) as [_ Hgf].
      rewrite Ei in Hgf. injection Hgf as ->. done.
    + apply Z.mod_pos_bound. lia.
    + intros _. apply Z.mod_pos_bound. lia.
  - unfold stats_ok. simpl. intros E. rewrite E, !u32_small by lia. lia.
  - right. exists i. split; [done|]. split; [lia|]. split; [|split].
    + destruct (own !! i) as [o|] eqn:Eo; [|done]. destruct (fo_own _ _ Hf i o Eo) as [_ Hgf].
      rewrite Ei in Hgf. injection Hgf as ->. done.
    + simpl. rewrite arr_get_insert by (rewrite ?(fo_len _ _ Hf); lia). by case_decide.
    + simpl. by rewrite u32_small by lia.
Qed.

Lemma frames_own own s f o :
  frames_ok own s -> 256 <= f < num_frames s -> arr_get (page_frames s) f = Some owned_frame ->
  frames_ok (<[f := o]> own) s.
Proof.
  intros Hf Hr Ha. split; try apply Hf. intros g o' [[<- <-]|[Hne Hg]]%lookup_insert_Some; [done|].
  by apply (fo_own _ _ Hf g o').
Qed.

Lemma free_frame_spec own s f o :
  frames_ok own s -> own !! f = Some o ->
  wp (vmm_free_frame (f * 4096)) (fun _ s' => keeps s s' /\ frames_ok (delete f own) s' /\ (stats_ok s -> stats_ok s') /\
    arr_get (page_frames s') f = Some (mk_frame 0 0) /\ free_frames s' = free_frames s + 1) s.
Proof.
  intros Hf Ho. destruct (fo_own _ _ Hf f o Ho) as [Hr Ea]. pose proof (fo_num _ _ Hf) as Hn.
  pose proof (fo_len _ _ Hf) as Hl. pose proof (free_bound _ _ Hf) as Hb.
  assert (free_frames s < num_frames s) as Hlt.
  { pose proof (free_count_insert (page_frames s) (Z.to_nat f) owned_frame (mk_frame 0 0)) as E.
    pose proof (free_count_le (<[Z.to_nat f:=mk_frame 0 0]> (page_frames s))) as Hle.
    rewrite length_insert in Hle. unfold arr_get in Ea. destruct (f <? 0); [done|].
    specialize (E Ea). rewrite <- (fo_free _ _ Hf) in E.
    change (allocated owned_frame) with true in E. change (allocated (mk_frame 0 0)) with false in E. lia. }
  unfold vmm_free_frame, PAGE_SIZE. rewrite Z.div_mul by lia. wp_steps.
  destruct (Z.leb_spec (num_frames s) f); [lia|]. unfold frame_at. wp_steps. rewrite Ea. cbn [deref]. wp_steps.
  change (has_flag (fr_flags owned_frame) PF_ALLOCATED) with true. cbn [negb owned_frame ref_count fr_flags].
  change (if 0 <? 1 then 1 - 1 else 1) with 0. change (0 =? 0) with true. cbv iota.
  unfold set_frame. wp_steps. rewrite arr_set_some by (rewrite Hl; lia). cbn [deref]. wp_steps. cbn [page_frames set_page_frames].
  rewrite arr_set_some by (rewrite length_insert, Hl; lia). cbn [deref]. wp_steps. rewrite list_insert_insert_eq.
  assert (frames_ok (delete f own) (set_next_free_frame (Z.min f (next_free_frame s)) (set_free_frames (free_frames s + 1)
    (set_page_frames (<[Z.to_nat f:=mk_frame 0 0]> (page_frames s)) s)))) as Hok.
  { destruct (fo_next _ _ Hf) as [Hnx0 Hnx].
    eapply (frames_set own _ s _ f owned_frame (mk_frame 0 0) Hf Ea); simpl; [done|done|lia|lia| |lia|lia].
    intros g o' [Hne Hg]%lookup_delete_Some. left. split; [congruence|done]. }
  assert (arr_get (<[Z.to_nat f:=mk_frame 0 0]> (page_frames s)) f = Some (mk_frame 0 0)) as Hget.
  { rewrite arr_get_insert by (rewrite ?Hl; lia). by case_decide. }
  case_if; bools; wp_steps.
  all: split; [by split; [split|]|]; split; [destruct Hok; split; simpl in *; try done; rewrite ?u32_small by lia; try done; try lia|].
  all: split; [unfold stats_ok; simpl; intros Es; rewrite Es, !u32_small by lia; lia|].
  all: split; [exact Hget|simpl; rewrite u32_small by lia; done].
Qed.

End VmmInv.
