(* ===== verification/VmmOps.v ===== *)
(** * The virtual memory manager: what the operations do

    [core] is the invariant of frames and tables. [entry] is the page-table entry of a
    page, as the tables in memory give it; the specifications say which entries an
    operation changes, and that all others stay. *)

From Stdlib Require Import ZArith Lia.
From stdpp Require Import base tactics option gmap numbers list.
From S2P Require Import Prelude Aslr Vmm VmmInv.

Set Default Goal Selector "!".
Local Open Scope Z_scope.
Local Open Scope kernel_scope.

Module VmmOps.
Import Vmm VmmInv.
#[local] Existing Instance direct_map.

Record core (own : gmap Z owner) (sps : gmap positive address_space) (s : vmm) : Prop := mk_core {
  c_frames : frames_ok own s;
  c_mapped : mapped own sps (kernel_space s) (num_frames s) (mem s);
}.

(** ** Entries *)

Definition entry (m : Z -> Z) (d v : Z) : Z :=
  let e := word m d (v / 1024) in if present e then word m (e / 4096) (v mod 1024) else 0.

(** A page number below 2^20 and its two indices. *)
Lemma page_indices v : 0 <= v < 2 ^ 20 -> 0 <= v / 1024 < 1024 /\ 0 <= v mod 1024 < 1024 /\ v = 1024 * (v / 1024) + v mod 1024.
Proof.
  intros Hv. pose proof (Z.mod_pos_bound v 1024 ltac:(lia)). pose proof (Z.div_mod v 1024 ltac:(lia)). lia.
Qed.

Lemma div_entry t : (4096 * t + 7) / 4096 = t.
Proof. rewrite Z.mul_comm, Z.div_add_l, Z.div_small; lia. Qed.

Lemma present_entry t : present (4096 * t + 7) = true.
Proof. by rewrite present_odd, Z.odd_add, Z.odd_mul. Qed.

Section Entries.
Context {own : gmap Z owner} {sps : gmap positive address_space} {ks : ptr} {num : Z} {m : Z -> Z}.
Hypothesis Hm : mapped own sps ks num m.

(** The two shapes of an entry. *)
Lemma entry_cases p sp d v :
  sps !! p = Some sp -> dir_at sp d -> 0 <= v < 2 ^ 20 ->
  (present (word m d (v / 1024)) = false /\ entry m d v = 0) \/
  (exists t, word m d (v / 1024) = 4096 * t + 7 /\ own !! t = Some (OTab p (v / 1024)) /\ entry m d v = word m t (v mod 1024)).
Proof.
  intros Hp Hd Hv. destruct (page_indices v Hv) as (Hi & Hj & _). unfold entry.
  destruct (present (word m d (v / 1024))) eqn:E; [|by left]. right.
  destruct (mp_tab _ _ _ _ _ Hm p sp d _ Hp Hd Hi E) as (t & Et & Ho). exists t.
  by rewrite Et, div_entry.
Qed.

Lemma entry_backed p sp d v :
  sps !! p = Some sp -> dir_at sp d -> 0 <= v < 2 ^ 20 -> present (entry m d v) = true ->
  0 <= entry m d v < 2 ^ 32 /\ backed own ks num p v (entry m d v / 4096).
Proof.
  intros Hp Hd Hv. destruct (entry_cases p sp d v Hp Hd Hv) as [[_ ->]|(t & Et & _ & ->)]; [done|].
  destruct (page_indices v Hv) as (Hi & Hj & Ev). intros Hpr.
  destruct (mp_page _ _ _ _ _ Hm p sp d _ _ _ Hp Hd Hi Et Hj Hpr) as [Hr Hb]. by rewrite <- Ev in Hb.
Qed.

(** Writing one entry of a table. *)
Lemma entry_wrote p sp d v t e p' sp' d' v' :
  sps !! p = Some sp -> dir_at sp d -> 0 <= v < 2 ^ 20 -> word m d (v / 1024) = 4096 * t + 7 ->
  sps !! p' = Some sp' -> dir_at sp' d' -> 0 <= v' < 2 ^ 20 ->
  entry (wrote m t (v mod 1024) e) d' v' = if decide (p' = p /\ v' = v) then e else entry m d' v'.
Proof.
  intros Hp Hd Hv Et Hp' Hd' Hv'. destruct (page_indices v Hv) as (Hi & Hj & Ev).
  destruct (page_indices v' Hv') as (Hi' & Hj' & Ev').
  pose proof (mapped_tab Hm _ _ _ _ _ Hp Hd Hi Et) as Hot. pose proof (mapped_dir Hm _ _ _ Hp' Hd') as Hod'.
  unfold entry. rewrite wrote_ne by (done || congruence).
  destruct (present (word m d' (v' / 1024))) eqn:Epr.
  - destruct (mp_tab _ _ _ _ _ Hm p' sp' d' _ Hp' Hd' Hi' Epr) as (t' & Et' & Hot'). rewrite Et', div_entry.
    unfold wrote. rewrite word_write by done. case_decide as H1; case_decide as H2; try done.
    + destruct H1 as [-> E1]. rewrite Hot in Hot'. injection Hot' as <- E2. destruct H2. split; [done|]. lia.
    + destruct H2 as [-> ->]. destruct H1. split; [|done].
      rewrite (dir_at_inj sp d d') in Et; [|done|congruence]. lia.
  - case_decide as H2; [|done]. destruct H2 as [-> ->].
    assert (d' = d) as -> by (eapply dir_at_inj; [done|congruence]). rewrite Et, present_entry in Epr. done.
Qed.

(** A new table changes no entry. *)
Lemma entry_new_table p sp d i t p' sp' d' v' :
  sps !! p = Some sp -> dir_at sp d -> 0 <= i < 1024 -> present (word m d i) = false -> own !! t = None ->
  sps !! p' = Some sp' -> dir_at sp' d' -> 0 <= v' < 2 ^ 20 ->
  entry (wrote (cleared m t) d i (4096 * t + 7)) d' v' = entry m d' v'.
Proof.
  intros Hp Hd Hi Hnp Hot Hp' Hd' Hv'. destruct (page_indices v' Hv') as (Hi' & Hj' & Ev').
  pose proof (mapped_dir Hm _ _ _ Hp Hd) as Hod. pose proof (mapped_dir Hm _ _ _ Hp' Hd') as Hod'.
  assert (forall f j, f <> t -> 0 <= j < 1024 -> (f <> d \/ j <> i) ->
    word (wrote (cleared m t) d i (4096 * t + 7)) f j = word m f j) as Hw.
  { intros f j Hf Hj Hne. unfold wrote. rewrite word_write by done. case_decide; [lia|].
    unfold cleared. rewrite word_clear by done. by case_decide. }
  unfold entry. destruct (decide (d' = d /\ v' / 1024 = i)) as [[-> Ei]|Hne].
  - rewrite Ei, Hnp.
    assert (word (wrote (cleared m t) d i (4096 * t + 7)) d i = 4096 * t + 7) as ->.
    { unfold wrote. rewrite word_write by done. case_decide as Hd2; [done|by destruct Hd2]. }
    rewrite present_entry, div_entry. unfold wrote. rewrite word_write by done.
    case_decide as Hd3; [destruct Hd3; congruence|]. unfold cleared. rewrite word_clear by done. by case_decide.
  - rewrite Hw by (done || congruence || lia).
    destruct (present (word m d' (v' / 1024))) eqn:E; [|done].
    destruct (mp_tab _ _ _ _ _ Hm p' sp' d' _ Hp' Hd' Hi' E) as (t' & Et' & Hot'). rewrite Et', div_entry.
    apply Hw; [congruence|done|left; congruence].
Qed.

(** Memory outside the tables matters for no entry. *)
Lemma entry_mem m' p sp d v :
  (forall f o i, own !! f = Some o -> is_table o -> 0 <= i < 1024 -> word m' f i = word m f i) ->
  sps !! p = Some sp -> dir_at sp d -> 0 <= v < 2 ^ 20 -> entry m' d v = entry m d v.
Proof.
  intros Hmm Hp Hd Hv. destruct (page_indices v Hv) as (Hi & Hj & _). unfold entry.
  rewrite (Hmm d (ODir p)) by (done || by eapply mapped_dir).
  destruct (present (word m d (v / 1024))) eqn:E; [|done].
  destruct (mp_tab _ _ _ _ _ Hm p sp d _ Hp Hd Hi E) as (t & Et & Ho). rewrite Et, div_entry.
  by rewrite (Hmm t (OTab p (v / 1024))).
Qed.

(** What the processor finds. *)
Lemma walk_entry p sp d v o :
  0 <= num <= 2 ^ 18 -> (forall f o, own !! f = Some o -> 0 <= f < num) ->
  sps !! p = Some sp -> dir_at sp d -> 0 <= v < 2 ^ 20 -> 0 <= o < 4096 ->
  walk m (4096 * d) (v * 4096 + o) = if present (entry m d v) then Some (entry m d v) else None.
Proof.
  intros Hn Hown Hp Hd Hv Ho. unfold walk. rewrite pd_index_page, pt_index_page by done.
  change (m (4096 * d + 4 * (v / 1024))) with (word m d (v / 1024)). fold (present (word m d (v / 1024))).
  destruct (entry_cases p sp d v Hp Hd Hv) as [[-> ->]|(t & Et & Hot & ->)]; [done|].
  rewrite Et, present_entry. pose proof (Hown _ _ Hot). rewrite land_frame, div_entry by lia.
  by rewrite (Z.mul_comm t).
Qed.

End Entries.

(** ** Reaching the tables *)

Lemma wp_space p sp s Q : spaces s !! p = Some sp -> Q sp s -> wp (space_at (Some p)) Q s.
Proof. intros Hp HQ. unfold space_at. wp_steps. cbn [deref]. wp_steps. rewrite Hp. cbn [deref]. by wp_steps. Qed.

Lemma wp_upd_space p sp f s Q :
  spaces s !! p = Some sp -> Q tt (set_spaces (<[p := f sp]> (spaces s)) s) -> wp (upd_space (Some p) f) Q s.
Proof.
  intros Hp HQ. unfold upd_space. wp_steps. cbn [deref]. wp_steps. apply wp_space with sp; [done|]. by wp_steps.
Qed.

Lemma wp_window_dir sp d s Q : dir_at sp d -> 0 <= d -> Q (4096 * d) s -> wp (window (page_directory sp)) Q s.
Proof.
  unfold dir_at, window, direct_map. intros -> Hd HQ. destruct (Z.leb_spec KERNEL_OFFSET (KERNEL_OFFSET + 4096 * d)); [|lia].
  wp_steps. by replace (KERNEL_OFFSET + 4096 * d - KERNEL_OFFSET) with (4096 * d) by lia.
Qed.

Lemma wp_window_frame t (s : vmm) Q : 0 <= t < 2 ^ 18 -> Q (4096 * t) s -> wp (window (u32 (t * 4096 + KERNEL_OFFSET))) Q s.
Proof.
  unfold window, direct_map, KERNEL_OFFSET. intros Ht HQ. rewrite u32_small by lia.
  destruct (Z.leb_spec 0xC0000000 (t * 4096 + 0xC0000000)); [|lia]. wp_steps.
  by replace (t * 4096 + 0xC0000000 - 0xC0000000) with (4096 * t) by lia.
Qed.

(** ** Mapping *)

(** Every entry but that of page [v] of space [p] is as before. *)
Definition others_kept (s s' : vmm) (p : positive) (v : Z) : Prop :=
  forall p' sp' d' v', spaces s !! p' = Some sp' -> dir_at sp' d' -> 0 <= v' < 2 ^ 20 -> (p', v') <> (p, v) ->
    entry (mem s') d' v' = entry (mem s) d' v'.

Lemma core_own_range own sps s f o : core own sps s -> own !! f = Some o -> 256 <= f < num_frames s /\ num_frames s <= 2 ^ 18.
Proof. intros Hc Ho. split; [by apply (fo_own _ _ (c_frames _ _ _ Hc) f o)|apply (fo_num _ _ (c_frames _ _ _ Hc))]. Qed.

(** The table is there: its entry is written. *)
Lemma write_entry_core own s p sp d v t e :
  core own (spaces s) s -> spaces s !! p = Some sp -> dir_at sp d -> 0 <= v < 2 ^ 20 ->
  word (mem s) d (v / 1024) = 4096 * t + 7 ->
  (present e = true -> 0 <= e < 2 ^ 32 /\ backed own (kernel_space s) (num_frames s) p v (e / 4096)) ->
  let s' := set_mem (wrote (mem s) t (v mod 1024) e) s in
  core own (spaces s') s' /\ same s s' /\ others_kept s s' p v /\ entry (mem s') d v = e.
Proof.
  intros [Hf Hm] Hp Hd Hv Et He s'. destruct (page_indices v Hv) as (Hi & Hj & Ev).
  split; [|split; [by split|split]].
  - split; [by destruct Hf; split|]. eapply (mapped_write_entry Hm p sp d (v / 1024) t); try done. by rewrite <- Ev.
  - intros p' sp' d' v' Hp' Hd' Hv' Hne. simpl. rewrite (entry_wrote Hm p sp d v t e p' sp') by done.
    case_decide as Hx; [|done]. destruct Hx as [-> ->]. done.
  - simpl. rewrite (entry_wrote Hm p sp d v t e p sp) by done. case_decide as Hx; [done|]. by destruct Hx.
Qed.

Lemma map_page_spec own s p sp d v phys fl :
  core own (spaces s) s -> spaces s !! p = Some sp -> dir_at sp d -> 0 <= v < 2 ^ 20 ->
  0 <= phys < 2 ^ 32 -> 0 <= fl < 4096 -> backed own (kernel_space s) (num_frames s) p v (phys / 4096) ->
  wp (vmm_map_page (Some p) (v * 4096) phys fl) (fun r s' => exists own', own ⊆ own' /\ core own' (spaces s') s' /\ same s s' /\
    (stats_ok s -> stats_ok s') /\ others_kept s s' p v /\
    ((r = -1 /\ free_frames s = 0 /\ s' = s /\ present (word (mem s) d (v / 1024)) = false) \/
     (r = 0 /\ entry (mem s') d v = phys / 4096 * 4096 + fl))) s.
Proof.
  intros Hc Hp Hd Hv Hph Hfl Hb. pose proof (mapped_dir (c_mapped _ _ _ Hc) _ _ _ Hp Hd) as Hod.
  destruct (core_own_range _ _ _ _ _ Hc Hod) as [Hdr Hnum]. destruct (page_indices v Hv) as (Hi & Hj & Ev).
  assert (Z.lor (Z.land phys PTE_FRAMEBITS) fl = phys / 4096 * 4096 + fl) as Epte.
  { rewrite land_frame by done. by apply lor_flags. }
  assert (0 <= phys / 4096 < 2 ^ 20) as Hpf.
  { split; [apply Z.div_pos; lia|apply Z.div_lt_upper_bound; lia]. }
  unfold vmm_map_page. wp_steps. apply wp_space with sp; [done|]. wp_steps. eapply wp_window_dir; [done|lia|].
  unfold read_word. wp_steps. replace (v * 4096) with (v * 4096 + 0) by lia. rewrite pd_index_page, pt_index_page by lia.
  change (mem s (4096 * d + 4 * (v / 1024))) with (word (mem s) d (v / 1024)).
  fold (present (word (mem s) d (v / 1024))).
  assert (forall s1 t own1, core own1 (spaces s1) s1 -> own ⊆ own1 -> same s s1 -> word (mem s1) d (v / 1024) = 4096 * t + 7 ->
    core own1 (spaces s1) (set_mem (wrote (mem s1) t (v mod 1024) (phys / 4096 * 4096 + fl)) s1) /\
    others_kept s1 (set_mem (wrote (mem s1) t (v mod 1024) (phys / 4096 * 4096 + fl)) s1) p v /\
    entry (wrote (mem s1) t (v mod 1024) (phys / 4096 * 4096 + fl)) d v = phys / 4096 * 4096 + fl) as Hwrite.
  { intros s1 t own1 Hc1 Hsub Hs1 Et.
    destruct (write_entry_core own1 s1 p sp d v t (phys / 4096 * 4096 + fl) Hc1) as (H1 & _ & H2 & H3); try done.
    - by rewrite (ks_spaces _ _ Hs1).
    - intros _. split; [lia|]. rewrite Z.div_add_l, (Z.div_small fl), Z.add_0_r by lia.
      rewrite (ks_kernel _ _ Hs1), (ks_num _ _ Hs1). by eapply backed_grow. }
  destruct (present (word (mem s) d (v / 1024))) eqn:Epr; cbn [negb].
  - destruct (mp_tab _ _ _ _ _ (c_mapped _ _ _ Hc) p sp d _ Hp Hd Hi Epr) as (t & Et & Hot).
    destruct (core_own_range _ _ _ _ _ Hc Hot) as [Htr _]. rewrite Et, land_frame, div_entry by lia.
    wp_steps. apply wp_window_frame; [lia|]. wp_steps. unfold write_word. wp_steps. rewrite Epte.
    destruct (Hwrite s t own Hc ltac:(done) (same_refl s) Et) as (H1 & H2 & H3).
    exists own. split; [done|]. split; [exact H1|]. split; [by split|]. split; [done|]. split; [exact H2|]. right. done.
  - wp_steps. eapply wp_mono; [apply alloc_frame_spec, Hc|]. cbn beta.
    intros r s1 ([Hs1 Em1] & Hf1 & Hst1 & [(-> & E0 & ->)|(t & -> & Htr & Hot & Hat & _)]).
    { change (0 =? 0) with true. cbv iota. wp_steps. exists own. split; [done|]. split; [done|]. split; [apply same_refl|].
      split; [done|]. split; [by intros ? **|]. by left. }
    destruct (Z.eqb_spec (t * 4096) 0); [lia|]. wp_steps. apply wp_window_frame; [lia|].
    unfold clear_page, write_word. wp_steps. rewrite table_entry, Epte. simpl.
    set (m1 := wrote (cleared (mem s) t) d (v / 1024) (4096 * t + 7)).
    assert (core (<[t := OTab p (v / 1024)]> own) (spaces s1) (set_mem m1 s1)) as Hc1.
    { split; [by destruct (frames_own _ _ t (OTab p (v / 1024)) Hf1 ltac:(rewrite (ks_num _ _ Hs1); lia) Hat); split|].
      simpl. rewrite (ks_spaces _ _ Hs1), (ks_kernel _ _ Hs1), (ks_num _ _ Hs1).
      by apply (mapped_new_table (c_mapped _ _ _ Hc) p sp). }
    assert (own ⊆ <[t := OTab p (v / 1024)]> own) as Hsub by (by apply insert_subseteq).
    assert (word m1 d (v / 1024) = 4096 * t + 7) as Em.
    { unfold m1, wrote. rewrite word_write by done. case_decide as Hx; [done|by destruct Hx]. }
    destruct (Hwrite (set_mem m1 s1) t _ Hc1 Hsub ltac:(by destruct Hs1; split) Em) as (H1 & H2 & H3).
    exists (<[t := OTab p (v / 1024)]> own). split; [done|].
    change (fun x => if x =? 4096 * d + 4 * (v / 1024) then 4096 * t + 7 else
      if (4096 * t <=? x) && (x <? 4096 * t + PAGE_SIZE) then 0 else mem s1 x)
      with (wrote (cleared (mem s1) t) d (v / 1024) (4096 * t + 7)).
    rewrite Em1. fold m1.
    split; [exact H1|]. split; [by destruct Hs1; split|]. split; [exact Hst1|]. split; [|by right].
    intros p' sp' d' v' Hp' Hd' Hv' Hne. transitivity (entry m1 d' v').
    + apply (H2 p' sp' d' v'); try done. simpl. by rewrite (ks_spaces _ _ Hs1).
    + by apply (entry_new_table (c_mapped _ _ _ Hc) p sp d (v / 1024) t p' sp').
Qed.

(** ** Unmapping *)

Definition unmapped (s : vmm) (p : positive) (d v r : Z) (s' : vmm) : Prop :=
  r = 0 /\ exists own', core own' (spaces s') s' /\ same s s' /\ (stats_ok s -> stats_ok s') /\
    others_kept s s' p v /\ present (entry (mem s') d v) = false.

Lemma unmapped_already own s p d v : core own (spaces s) s -> present (entry (mem s) d v) = false -> unmapped s p d v 0 s.
Proof.
  intros Hc E. split; [done|]. exists own. split; [done|]. split; [apply same_refl|]. split; [done|].
  split; [by intros ? **|done].
Qed.

(** The end of [vmm_unmap_page], after the frame is freed. *)
Lemma clear_entry own own' s s1 p sp d v t :
  core own (spaces s) s -> spaces s !! p = Some sp -> dir_at sp d -> 0 <= v < 2 ^ 20 ->
  word (mem s) d (v / 1024) = 4096 * t + 7 ->
  keeps s s1 -> frames_ok own' s1 -> (stats_ok s -> stats_ok s1) ->
  mapped own' (spaces s) (kernel_space s) (num_frames s) (wrote (mem s) t (v mod 1024) 0) ->
  wp (write_word (4096 * t + 4 * (v mod 1024)) 0 ;;; ret 0) (unmapped s p d v) s1.
Proof.
  intros Hc Hp Hd Hv Et [Hs1 Em1] Hf1 Hst1 Hm'.
  destruct (write_entry_core own s p sp d v t 0 Hc Hp Hd Hv Et ltac:(done)) as (_ & _ & Hw2 & Hw3).
  unfold write_word. wp_steps. split; [done|]. exists own'. simpl. rewrite Em1.
  split; [|split; [by destruct Hs1; split|split; [done|split; [exact Hw2|]]]].
  - split; [by destruct Hf1; split|]. simpl. by rewrite (ks_spaces _ _ Hs1), (ks_kernel _ _ Hs1), (ks_num _ _ Hs1).
  - simpl in Hw3. unfold wrote in Hw3. by rewrite Hw3.
Qed.

Lemma unmap_page_spec own s p sp d v :
  core own (spaces s) s -> spaces s !! p = Some sp -> dir_at sp d -> 0 <= v < 2 ^ 20 ->
  (kernel_space s = Some p -> 1024 <= v) ->
  wp (vmm_unmap_page (Some p) (v * 4096)) (unmapped s p d v) s.
Proof.
  intros Hc Hp Hd Hv Hk. pose proof (mapped_dir (c_mapped _ _ _ Hc) _ _ _ Hp Hd) as Hod.
  destruct (core_own_range _ _ _ _ _ Hc Hod) as [Hdr Hnum]. destruct (page_indices v Hv) as (Hi & Hj & Ev).
  unfold vmm_unmap_page. wp_steps. apply wp_space with sp; [done|]. wp_steps. eapply wp_window_dir; [done|lia|].
  unfold read_word. wp_steps. replace (v * 4096) with (v * 4096 + 0) by lia. rewrite pd_index_page, pt_index_page by lia.
  change (mem s (4096 * d + 4 * (v / 1024))) with (word (mem s) d (v / 1024)).
  fold (present (word (mem s) d (v / 1024))).
  destruct (entry_cases (c_mapped _ _ _ Hc) p sp d v Hp Hd Hv) as [[-> E0]|(t & Et & Hot & Ee)].
  { cbn [negb]. wp_steps. eapply unmapped_already; [done|by rewrite E0]. }
  destruct (core_own_range _ _ _ _ _ Hc Hot) as [Htr _]. rewrite Et, present_entry, land_frame, div_entry by lia.
  cbn [negb]. wp_steps. apply wp_window_frame; [lia|]. wp_steps.
  change (mem s (4096 * t + 4 * (v mod 1024))) with (word (mem s) t (v mod 1024)). rewrite <- Ee.
  fold (present (entry (mem s) d v)). destruct (present (entry (mem s) d v)) eqn:Epr; cbn [negb].
  2:{ wp_steps. by eapply unmapped_already. }
  destruct (entry_backed (c_mapped _ _ _ Hc) p sp d v Hp Hd Hv Epr) as [Her Hb]. rewrite land_frame by done.
  set (f := entry (mem s) d v / 4096) in *.
  pose proof (mapped_write_entry (c_mapped _ _ _ Hc) p sp d _ t _ 0 Hp Hd Hi Et Hj ltac:(done)) as Hwm.
  wp_steps. destruct Hb as [Hge|[(Hks & Hlt & _)|Hof]]; [|specialize (Hk Hks); lia|].
  - unfold vmm_free_frame, PAGE_SIZE. rewrite Z.div_mul by lia. wp_steps. destruct (Z.leb_spec (num_frames s) f); [|lia].
    wp_steps. change (wp (write_word (4096 * t + 4 * (v mod 1024)) 0 ;;; ret 0) (unmapped s p d v) s).
    eapply clear_entry; try done. apply Hc.
  - eapply wp_mono; [by eapply free_frame_spec; [apply Hc|]|]. cbn beta. intros [] s1 (Hk1 & Hf1 & Hst1 & _ & _).
    eapply (clear_entry own (delete f own)); try done.
    apply (mapped_drop_page Hwm f p v Hof). intros sp' d' t' Hp' Hd' Et' Hpr. exfalso.
    assert (sp' = sp) as -> by congruence. assert (d' = d) as -> by (by eapply dir_at_inj).
    rewrite wrote_ne in Et' by (done || congruence). assert (t' = t) as -> by lia.
    unfold wrote in Hpr. rewrite word_write in Hpr by done. case_decide as Hx; [done|]. by destruct Hx.
Qed.

(** ** Address spaces *)

(** All fields but the spaces. *)
Definition same_but_spaces (s s' : vmm) : Prop := same s (set_spaces (spaces s) s').

Lemma core_kept own sps s s' :
  core own sps s -> frames_ok own s' -> kernel_space s' = kernel_space s -> num_frames s' = num_frames s ->
  mem s' = mem s -> core own sps s'.
Proof. intros [_ Hm] Hf Ek En Em. split; [done|]. by rewrite Ek, En, Em. Qed.

Lemma frames_spaces own s m : frames_ok own s -> frames_ok own (set_spaces m s).
Proof. by intros []; split. Qed.

Lemma create_space_spec own s a :
  core own (spaces s) s -> spaces s !! a = None ->
  wp (vmm_create_address_space (Some a)) (fun r s' =>
    same_but_spaces s s' /\ (stats_ok s -> stats_ok s') /\
    ((r = None /\ free_frames s = 0 /\ s' = s) \/
     (exists d sp, r = Some a /\ dir_at sp d /\ regions sp = [] /\ spaces s' = <[a := sp]> (spaces s) /\
        own !! d = None /\ core (<[d := ODir a]> own) (spaces s') s' /\ mem s' = cleared (mem s) d /\
        free_frames s' = free_frames s - 1))) s.
Proof.
  intros Hc Ha. unfold vmm_create_address_space. wp_steps.
  set (s0 := set_spaces (<[a := mk_space 0 [] 0]> (spaces s)) s).
  assert (set_spaces (delete a (spaces s0)) s0 = s) as Eback.
  { destruct s; unfold s0, set_spaces; simpl in *. f_equal. by apply delete_insert_id. }
  eapply wp_mono; [apply alloc_frame_spec, (frames_spaces own s), Hc|]. cbn beta. fold s0.
  intros r s1 ([Hs1 Em1] & Hf1 & Hst1 & [(-> & E0 & ->)|(d & -> & Hdr & Hod & Had & Efr)]).
  { change (0 =? 0) with true. cbv iota. unfold free_space. wp_steps. cbn [deref]. wp_steps. rewrite Eback.
    split; [by destruct s; split|]. split; [done|]. left. done. }
  pose proof (fo_num _ _ Hf1) as Hn1. rewrite (ks_num _ _ Hs1) in Hn1.
  destruct (Z.eqb_spec (d * 4096) 0); [lia|]. cbv zeta. wp_steps.
  assert (spaces s1 !! a = Some (mk_space 0 [] 0)) as Ha1 by (rewrite (ks_spaces _ _ Hs1); apply lookup_insert_eq).
  eapply wp_upd_space; [exact Ha1|]. wp_steps.
  apply wp_window_frame; [lia|]. unfold clear_page. wp_steps. simpl.
  set (sp := set_page_directory _ _). assert (dir_at sp d) as Hd.
  { unfold dir_at, sp, KERNEL_OFFSET; simpl. rewrite u32_small; lia. }
  split; [by destruct Hs1; split|]. split; [by intros Hst; apply Hst1|]. right. exists d, sp.
  rewrite Em1, (ks_spaces _ _ Hs1). simpl. rewrite insert_insert_eq.
  split; [done|]. split; [done|]. split; [done|]. split; [done|]. split; [done|]. split; [|split; [done|exact Efr]].
  split; [by destruct (frames_own _ _ d (ODir a) Hf1 ltac:(rewrite (ks_num _ _ Hs1); exact Hdr) Had); split|].
  simpl. rewrite (ks_kernel _ _ Hs1), (ks_num _ _ Hs1). by apply (mapped_new_space (c_mapped _ _ _ Hc)).
Qed.

(** The loop that frees the tables of space [p]: the space is no longer counted. *)
Definition tables_from (own : gmap Z owner) (s : vmm) (p : positive) (d k : Z) : Prop :=
  own !! d = Some (ODir p) /\
  forall i, k <= i < 1024 -> present (word (mem s) d i) = true ->
    exists t, word (mem s) d i = 4096 * t + 7 /\ own !! t = Some (OTab p i).

Lemma free_tables_spec sps p d n : forall own s k,
  core own sps s -> sps !! p = None -> 0 <= k -> k + Z.of_nat n = 1024 -> tables_from own s p d k ->
  wp (mfor (seqZ k (Z.of_nat n)) (free_table (4096 * d))) (fun _ s' => exists own',
    core own' sps s' /\ keeps s s' /\ (stats_ok s -> stats_ok s') /\ own' !! d = Some (ODir p) /\
    (forall f v q, own !! f = Some (OPage q v) -> own' !! f = Some (OPage q v))) s.
Proof.
  induction n as [|n IH]; intros own s k Hc Hp Hk Hkn [Hod Htab].
  { simpl. exists own. split; [done|]. split; [apply keeps_refl|]. done. }
  rewrite seqZ_cons by lia. cbn [mfor]. apply wp_bind.
  replace (Z.pred (Z.of_nat (S n))) with (Z.of_nat n) by lia. rewrite <- Z.add_1_r.
  unfold free_table at 1, read_word. wp_steps.
  change (mem s (4096 * d + 4 * k)) with (word (mem s) d k). fold (present (word (mem s) d k)).
  destruct (present (word (mem s) d k)) eqn:E.
  2:{ wp_steps. apply IH; [done|done|lia|lia|]. split; [done|]. intros i Hi. apply Htab. lia. }
  destruct (Htab k ltac:(lia) E) as (t & Et & Hot). destruct (core_own_range _ _ _ _ _ Hc Hot) as [Htr Hnum].
  rewrite Et, land_frame, div_entry by lia.
  eapply wp_mono; [by eapply free_frame_spec; [apply Hc|]|]. cbn beta. intros [] s1 (Hk1 & Hf1 & Hst1 & _ & _).
  assert (core (delete t own) sps s1) as Hc1.
  { destruct Hk1 as [Hs1 Em1]. split; [done|]. rewrite Em1, (ks_kernel _ _ Hs1), (ks_num _ _ Hs1).
    by eapply (mapped_drop_owner (c_mapped _ _ _ Hc)). }
  eapply wp_mono; [apply (IH (delete t own) s1 (k + 1) Hc1 Hp ltac:(lia) ltac:(lia))|].
  - split; [rewrite lookup_delete_ne; [done|congruence]|]. intros i Hi. rewrite (proj2 Hk1). intros Hpr.
    destruct (Htab i ltac:(lia) Hpr) as (t' & Et' & Hot'). exists t'. split; [done|].
    rewrite lookup_delete_ne; [done|]. intros ->. rewrite Hot in Hot'. injection Hot' as ?. lia.
  - cbn beta. intros [] s2 (own' & Hc' & Hk2 & Hst2 & Hod' & Hpg). exists own'. split; [done|].
    split; [split; [by eapply same_trans; [apply Hk1|apply Hk2]|rewrite (proj2 Hk2); apply Hk1]|].
    split; [tauto|]. split; [done|]. intros f v q Hf. apply Hpg. rewrite lookup_delete_ne; [done|congruence].
Qed.

Lemma destroy_space_spec own s p sp :
  core own (spaces s) s -> spaces s !! p = Some sp ->
  wp (vmm_destroy_address_space (Some p)) (fun _ s' => same_but_spaces s s' /\ spaces s' = delete p (spaces s) /\
    mem s' = mem s /\ (stats_ok s -> stats_ok s') /\
    exists own', core own' (spaces s') s' /\ (forall f v q, own !! f = Some (OPage q v) -> own' !! f = Some (OPage q v))) s.
Proof.
  intros Hc Hp. destruct (mp_dir _ _ _ _ _ (c_mapped _ _ _ Hc) p sp Hp) as (d & Hd & Hod).
  destruct (core_own_range _ _ _ _ _ Hc Hod) as [Hdr Hnum].
  unfold vmm_destroy_address_space. wp_steps. eapply wp_upd_space; [exact Hp|].
  set (s0 := set_spaces _ s). assert (spaces s0 !! p = Some (set_regions [] sp)) as Hp0 by apply lookup_insert_eq.
  wp_steps. eapply wp_space; [exact Hp0|]. wp_steps.
  apply (wp_window_dir _ d); [done|lia|]. wp_steps.
  assert (core own (delete p (spaces s)) s0) as Hc0.
  { split; [apply frames_spaces, Hc|]. simpl. apply (mapped_spaces (c_mapped _ _ _ Hc)).
    intros q sq [_ Hq]%lookup_delete_Some. by exists sq. }
  eapply wp_mono; [apply (free_tables_spec (delete p (spaces s)) p d 1024 own s0 0 Hc0)|].
  - apply lookup_delete_eq.
  - lia.
  - lia.
  - split; [done|]. intros i Hi Hpr. by apply (mp_tab _ _ _ _ _ (c_mapped _ _ _ Hc) p sp).
  - cbn beta. intros [] s1 (own1 & Hc1 & [Hs1 Em1] & Hst1 & Hod1 & Hpg1).
    simpl page_directory. unfold dir_at in Hd. simpl in Hd. rewrite Hd.
    replace (u32 (KERNEL_OFFSET + 4096 * d - KERNEL_OFFSET)) with (d * 4096) by (rewrite u32_small; lia).
    wp_steps. eapply wp_mono; [by eapply free_frame_spec; [apply Hc1|]|]. cbn beta.
    intros [] s2 ([Hs2 Em2] & Hf2 & Hst2 & _ & _). unfold free_space. wp_steps. cbn [deref]. wp_steps.
    assert (spaces s2 = spaces s0) as Esp by (rewrite (ks_spaces _ _ Hs2); apply Hs1).
    rewrite Esp. simpl. rewrite delete_insert_eq.
    split; [|split; [done|split; [by rewrite Em2, Em1|split; [tauto|]]]].
    + pose proof (same_trans _ _ _ Hs1 Hs2) as Hs. destruct Hs. by split.
    + exists (delete d own1). split.
      * split; [by apply frames_spaces|]. simpl. rewrite Em2, (ks_kernel _ _ Hs2), (ks_num _ _ Hs2).
        eapply (mapped_drop_owner (c_mapped _ _ _ Hc1)); [done|]. apply lookup_delete_eq.
      * intros f v q Hf. rewrite lookup_delete_ne; [by apply Hpg1|]. intros <-. apply Hpg1 in Hf. congruence.
Qed.

End VmmOps.
