(* ===== verification/VmmSafe.v ===== *)
(** * The virtual memory manager: the invariant and the calls that keep it

    [vinv] adds to [core] the regions, the current space and CR3, the table of processes
    and the statistics. Every call of [vmm.c] and [vmm_process.c] keeps it, on the
    arguments [call_ok] describes. *)

From Stdlib Require Import ZArith Lia Ascii String.
From stdpp Require Import base tactics option gmap numbers strings list.
From S2P Require Import Prelude Aslr Vmm VmmInv VmmOps.

Set Default Goal Selector "!".
Local Open Scope Z_scope.
Local Open Scope kernel_scope.

Module VmmSafe.
Import Vmm VmmInv VmmOps.
#[local] Existing Instance direct_map.

(** ** Regions *)

Definition region_ok (r : vm_region) : Prop :=
  0 <= r_start r < 2 ^ 32 /\ 0 <= r_end r < 2 ^ 32 /\ r_start r mod 4096 = 0 /\ r_end r mod 4096 = 0.

Fixpoint disjoint_regions (l : list vm_region) : Prop :=
  match l with
  | [] => True
  | r :: l' => Forall (fun r' => overlaps (r_start r) (r_end r) r' = false) l' /\ disjoint_regions l'
  end.

Definition regions_ok (l : list vm_region) : Prop := Forall region_ok l /\ disjoint_regions l.

(** Regions of the kernel's space: its own, and others above 4 MB. *)
Definition above_kernel (r : vm_region) : Prop := r_start r = 0 \/ 4 * 1024 * 1024 <= r_start r.

Lemma page_down_ok x : 0 <= x < 2 ^ 32 -> 0 <= page_down x < 2 ^ 32 /\ page_down x mod 4096 = 0 /\ page_down x <= x.
Proof.
  intros Hx. unfold page_down, PAGE_SIZE. pose proof (Z.mul_div_le x 4096 ltac:(lia)).
  pose proof (Z.div_pos x 4096 ltac:(lia) ltac:(lia)). rewrite Z.mod_mul by lia. lia.
Qed.

Lemma page_up_ok x : 0 <= page_up x < 2 ^ 32 /\ page_up x mod 4096 = 0.
Proof.
  unfold page_up. set (y := u32 _). pose proof (u32_range (x + PAGE_SIZE - 1)) as Hy. fold y in Hy.
  change (y / PAGE_SIZE * PAGE_SIZE) with (page_down y). destruct (page_down_ok y Hy) as (H1 & H2 & _). done.
Qed.

Lemma page_up_small x : 0 <= x -> x + 4096 <= 2 ^ 32 -> x mod 4096 = 0 -> page_up x = x.
Proof.
  intros Hx Hl Hm. unfold page_up, PAGE_SIZE. rewrite u32_small by lia.
  pose proof (Z.div_mod x 4096 ltac:(lia)) as E.
  replace (x + 4096 - 1) with (x / 4096 * 4096 + 4095) by lia. rewrite Z.div_add_l, (Z.div_small 4095); lia.
Qed.

Lemma remove_start_sub x l r : r ∈ remove_start x l -> r ∈ l.
Proof. induction l as [|r' l IH]; simpl; [done|]. case_if; [by right|]. intros [->|H]%elem_of_cons; [left|right; eauto]. Qed.

Lemma remove_start_ok x l : regions_ok l -> regions_ok (remove_start x l).
Proof.
  intros [Hf Hd]. split.
  - rewrite Forall_forall in *. intros r Hr. apply Hf. by eapply remove_start_sub.
  - induction l as [|r l IH]; simpl in *; [done|]. destruct Hd as [H1 H2]. apply Forall_cons in Hf as [_ Hf].
    case_if; [done|]. split; [|by apply IH]. rewrite Forall_forall in *. intros r' Hr'. apply H1.
    by eapply remove_start_sub.
Qed.

Lemma find_region_in a l r : List.find (contains a) l = Some r -> r ∈ l /\ r_start r <= a < r_end r.
Proof.
  intros H. apply List.find_some in H as [Hin Hc]. split; [by apply list_elem_of_In|].
  unfold contains in Hc. apply andb_true_iff in Hc as [?%Z.leb_le ?%Z.ltb_lt]. lia.
Qed.

(** At most one region contains an address: the search finds it. *)
Lemma find_region_unique a l r :
  regions_ok l -> r ∈ l -> r_start r <= a < r_end r -> List.find (contains a) l = Some r.
Proof.
  intros [_ Hd] Hin Hr. induction l as [|r' l IH]; [by apply not_elem_of_nil in Hin|]. destruct Hd as [H1 H2]. simpl.
  apply elem_of_cons in Hin as [->|Hin].
  - unfold contains at 1. by rewrite (proj2 (Z.leb_le _ _)), (proj2 (Z.ltb_lt _ _)) by lia.
  - destruct (contains a r') eqn:E; [|by apply IH]. exfalso.
    unfold contains in E. apply andb_true_iff in E as [?%Z.leb_le ?%Z.ltb_lt].
    rewrite Forall_forall in H1. specialize (H1 r Hin). unfold overlaps in H1.
    apply andb_false_iff in H1 as [?%Z.ltb_ge|?%Z.ltb_ge]; lia.
Qed.

(** ** The invariant *)

Record vinv (own : gmap Z owner) (s : vmm) : Prop := mk_vinv {
  vi_core : core own (spaces s) s;
  vi_stats : stats_ok s;
  vi_init : initialized s = 1;
  vi_handler : page_fault_handler s = 0 \/ page_fault_handler s = DEFAULT_HANDLER;
  vi_kernel : exists k, kernel_space s = Some k /\ vmm_kernel_space s = Some k /\ is_Some (spaces s !! k);
  vi_current : vmm_current_space s = current_space s /\
    exists c sp d, current_space s = Some c /\ spaces s !! c = Some sp /\ dir_at sp d /\ cr3 s = 4096 * d;
  vi_process : length (process_spaces s) = 256%nat /\
    (forall i p, process_spaces s !! i = Some (Some p) -> is_Some (spaces s !! p) /\ kernel_space s <> Some p) /\
    (forall i j p, process_spaces s !! i = Some (Some p) -> process_spaces s !! j = Some (Some p) -> i = j);
  vi_regions : forall p sp, spaces s !! p = Some sp ->
    regions_ok (regions sp) /\ (kernel_space s = Some p -> Forall above_kernel (regions sp));
  vi_aslr : Aslr.config_ok (aslr s);
}.

(** A change of memory, frames and statistics. *)
Lemma vinv_same own own' s s' :
  vinv own s -> same s s' -> core own' (spaces s') s' -> stats_ok s' -> vinv own' s'.
Proof.
  intros Hv Hs Hc Hst. destruct Hv as [_ _ H1 H2 H3 H4 H5 H6 H7]. split; [done|done|..].
  - by rewrite (ks_init _ _ Hs).
  - by rewrite (ks_handler _ _ Hs).
  - by rewrite (ks_kernel _ _ Hs), (ks_vkernel _ _ Hs), (ks_spaces _ _ Hs).
  - by rewrite (ks_vcurrent _ _ Hs), (ks_current _ _ Hs), (ks_spaces _ _ Hs), (ks_cr3 _ _ Hs).
  - by rewrite (ks_process _ _ Hs), (ks_spaces _ _ Hs), (ks_kernel _ _ Hs).
  - by rewrite (ks_spaces _ _ Hs), (ks_kernel _ _ Hs).
  - by rewrite (ks_aslr _ _ Hs).
Qed.

(** A change of the regions, or the id, of one space. *)
Lemma vinv_upd own s p sp sp' :
  vinv own s -> spaces s !! p = Some sp -> page_directory sp' = page_directory sp -> regions_ok (regions sp') ->
  (kernel_space s = Some p -> Forall above_kernel (regions sp')) ->
  vinv own (set_spaces (<[p := sp']> (spaces s)) s).
Proof.
  intros Hv Hp Epd Hr Hk. destruct Hv as [Hc Hst H1 H2 H3 H4 H5 H6 H7].
  assert (forall q, is_Some (spaces s !! q) -> is_Some (<[p := sp']> (spaces s) !! q)) as Hq.
  { intros q Hq. destruct (decide (p = q)) as [->|Hne]; [by rewrite lookup_insert_eq|by rewrite lookup_insert_ne]. }
  split; simpl; try done.
  - split; [apply frames_spaces, Hc|]. simpl. apply (mapped_spaces (c_mapped _ _ _ Hc)).
    intros q sq [[<- <-]|[Hne Hsq]]%lookup_insert_Some; [by exists sp|by exists sq].
  - destruct H3 as (k & ? & ? & ?). exists k. split_and!; try done. by apply Hq.
  - destruct H4 as (? & c & sc & d & E1 & E2 & E3 & E4). split; [done|].
    destruct (decide (p = c)) as [->|Hne].
    + exists c, sp', d. split; [done|]. split; [by rewrite lookup_insert_eq|]. split; [|done].
      assert (sc = sp) as -> by congruence. unfold dir_at in *. congruence.
    + exists c, sc, d. by rewrite lookup_insert_ne.
  - destruct H5 as (? & Ha & ?). split; [done|]. split; [|done]. intros i q Hi. destruct (Ha i q Hi). split; [by apply Hq|done].
  - intros q sq [[<- <-]|[Hne Hsq]]%lookup_insert_Some; [by split|by apply H6].
Qed.

(** The current space. *)
Lemma vinv_current own s : vinv own s -> exists c sp d,
  current_space s = Some c /\ spaces s !! c = Some sp /\ dir_at sp d /\ cr3 s = 4096 * d.
Proof. intros Hv. apply Hv. Qed.

(** ** Calls on regions *)

(** [vmm_add_region] when the arguments are addresses. *)
Lemma add_region_spec own s p sp start end_ fl ty nm ok :
  vinv own s -> spaces s !! p = Some sp -> 0 <= start < 2 ^ 32 ->
  (kernel_space s = Some p -> 4 * 1024 * 1024 <= start) ->
  wp (vmm_add_region (Some p) start end_ fl ty nm ok) (fun b s' => vinv own s' /\
    let r := mk_region (page_down start) (page_up end_) fl ty nm in
    (b = false /\ s' = s /\ (ok = false \/ existsb (overlaps (r_start r) (r_end r)) (regions sp) = true)) \/
    (b = true /\ existsb (overlaps (r_start r) (r_end r)) (regions sp) = false /\ ok = true /\
      s' = set_spaces (<[p := set_regions (r :: regions sp) sp]> (spaces s)) s)) s.
Proof.
  intros Hv Hp Hs Hk. unfold vmm_add_region. wp_steps. cbv zeta. apply wp_space with sp; [done|].
  destruct (existsb (overlaps (page_down start) (page_up end_)) (regions sp)) eqn:E.
  { wp_steps. split; [done|]. left. split; [done|]. split; [done|]. by right. }
  destruct ok; cbn [negb].
  2:{ wp_steps. split; [done|]. left. split; [done|]. split; [done|]. by left. }
  wp_steps. eapply wp_upd_space; [done|]. wp_steps.
  set (r := mk_region _ _ _ _ _). split; [|by right].
  destruct (vi_regions _ _ Hv p sp Hp) as [[Hf Hd] Hab].
  destruct (page_down_ok start Hs) as (H1 & H2 & H3). destruct (page_up_ok end_) as (H4 & H5).
  eapply vinv_upd; [done|done|done| |].
  - simpl. split; [apply Forall_cons; split; [exact (conj H1 (conj H4 (conj H2 H5)))|done]|]. split; [|done].
    apply Forall_forall. intros r' Hr'. destruct (overlaps _ _ r') eqn:Eo; [|done].
    assert (existsb (overlaps (page_down start) (page_up end_)) (regions sp) = true); [|congruence].
    apply List.existsb_exists. exists r'. split; [by apply list_elem_of_In|done].
  - intros Ek. simpl. apply Forall_cons. split; [|by apply Hab]. right. simpl. specialize (Hk Ek).
    unfold page_down, PAGE_SIZE. pose proof (Z.div_le_mono (4 * 1024 * 1024) start 4096 ltac:(lia) Hk).
    change (4 * 1024 * 1024 / 4096) with 1024 in H. lia.
Qed.

Lemma remove_region_spec own s p sp start :
  vinv own s -> spaces s !! p = Some sp ->
  wp (vmm_remove_region (Some p) start) (fun _ s' => vinv own s' /\
    s' = set_spaces (<[p := set_regions (remove_start start (regions sp)) sp]> (spaces s)) s) s.
Proof.
  intros Hv Hp. unfold vmm_remove_region. wp_steps. apply wp_space with sp; [done|].
  eapply wp_upd_space; [done|]. split; [|done]. destruct (vi_regions _ _ Hv p sp Hp) as [Hr Hab].
  eapply vinv_upd; [done|done|done|by apply remove_start_ok|]. intros Ek. simpl. specialize (Hab Ek).
  rewrite Forall_forall in *. intros r Hr'. apply Hab. by eapply remove_start_sub.
Qed.

(** ** Allocation *)

Lemma wp_on_aslr {A} (m : M Aslr.config A) (P : A -> Aslr.config -> Prop) (Q : A -> vmm -> Prop) s :
  wp m P (aslr s) -> (forall a c, P a c -> Q a (set_aslr c s)) -> wp (on_aslr m) Q s.
Proof. unfold wp, on_aslr. destruct (m (aslr s)) as [[a c]| |]; eauto. Qed.

Lemma vinv_aslr own s c : vinv own s -> Aslr.config_ok c -> vinv own (set_aslr c s).
Proof. intros [[[] Hm]] Hc. by split. Qed.

Lemma randomize_wp own s base t Q :
  vinv own s -> 0 <= base < 2 ^ 32 ->
  (forall a c, Aslr.address_of (aslr s) base t a -> Aslr.entropy_bits c = Aslr.entropy_bits (aslr s) ->
     vinv own (set_aslr c s) -> Q a (set_aslr c s)) ->
  wp (on_aslr (Aslr.aslr_randomize_address base t)) Q s.
Proof.
  intros Hv Hb HQ. eapply wp_on_aslr; [apply Aslr.randomize_spec; [apply Hv|done]|].
  intros a c [Ha Hc]. assert (Aslr.config_ok c) as Hok.
  { destruct Hc as [->| ->]; [apply Hv|apply Aslr.drawn_ok, Hv]. }
  apply HQ; [done|by destruct Hc as [->| ->]|by apply vinv_aslr].
Qed.

Lemma address_range c base t a :
  Aslr.address_of c base t a -> 0x08000000 <= base < 0xC0000000 -> (t = Aslr.ASLR_STACK_OFFSET -> 0x20000000 <= base) ->
  0x08000000 <= a < 0xD0000000 /\ (base mod 4096 = 0 -> a mod 4096 = 0).
Proof.
  intros (o & (n & -> & Hp & Hm) & ->) Hb Hst. unfold Aslr.PAGE_SIZE in *.
  assert (0 <= n < 0xFFFF) as Hn.
  { destruct (Z.eq_dec n 0) as [->|]; [lia|]. destruct Hm as (m & Em & Hlt); [lia|].
    pose proof (Aslr.max_pages_range _ _ Em). lia. }
  case_if; bools; subst.
  - assert (n < 0xFFF) as Hn2.
    { destruct (Z.eq_dec n 0) as [->|]; [lia|]. destruct Hm as (m & Em & Hlt); [lia|]. change (Some Aslr.MAX_STACK_DELTA = Some m) in Em. injection Em as <-. exact Hlt. }
    specialize (Hst eq_refl). rewrite u32_small by lia. split; [lia|]. intros Eb.
    replace (base - n * 4096) with (base + (- n) * 4096) by lia. by rewrite Z.mod_add by lia.
  - rewrite u32_small by lia. split; [lia|]. intros Eb. by rewrite Z.mod_add by lia.
Qed.

Lemma base_of_range ty : let '(b, t) := base_of ty in
  0x08000000 <= b < 0xC0000000 /\ b mod 4096 = 0 /\ (t = Aslr.ASLR_STACK_OFFSET -> 0x20000000 <= b).
Proof. unfold base_of. repeat case_if; (split; [lia|split; [done|]]); intros Et; try lia; discriminate Et. Qed.

(** The result of [vmm_alloc]: the address of a new region that overlaps no other. *)
Definition alloc_result (s s' : vmm) (size fl ty : Z) (nm : option string) (a : Z) : Prop :=
  a = 0 \/
  (0x08000000 <= a < 0xD0000000 /\ a mod 4096 = 0 /\ exists c sp,
    current_space s = Some c /\ spaces s !! c = Some sp /\
    let r := mk_region a (page_up (u32 (a + page_up size))) fl ty nm in
    Forall (fun r' => overlaps (r_start r) (r_end r) r' = false) (regions sp) /\
    spaces s' !! c = Some (set_regions (r :: regions sp) sp)).

Lemma alloc_spec own s size fl ty nm ok :
  vinv own s -> wp (vmm_alloc size fl ty nm ok) (fun a s' => vinv own s' /\ mem s' = mem s /\ alloc_result s s' size fl ty nm a) s.
Proof.
  intros Hv. unfold vmm_alloc. wp_steps. case_if; [wp_steps; split; [done|]; split; [done|by left]|].
  cbv zeta. pose proof (base_of_range ty) as Hb. destruct (base_of ty) as [base t]. destruct Hb as (Hb & Hal & Hst).
  wp_steps. eapply randomize_wp; [done|lia|]. intros a c Ha _ Hv'. wp_steps.
  destruct (address_range _ _ _ _ Ha Hb Hst) as [Har Haa]. specialize (Haa Hal).
  destruct (vinv_current _ _ Hv') as (cu & sp & d & Ec & Esp & _ & _). rewrite Ec.
  eapply wp_mono; [eapply add_region_spec; [done|done|lia|lia]|]. cbn beta zeta.
  intros b s' [Hv2 Hcase]. destruct Hcase as [(-> & -> & _)|(-> & Eov & _ & ->)]; cbn [negb]; wp_steps.
  - split; [done|]. split; [done|]. by left.
  - split; [done|]. split; [done|]. right. split; [lia|]. split; [done|]. exists cu, sp. split; [done|]. split; [done|].
    assert (page_down a = a) as Epd.
    { unfold page_down, PAGE_SIZE. pose proof (Z.div_mod a 4096 ltac:(lia)). lia. }
    rewrite Epd in *. cbn [r_start r_end] in *. split; [|by simpl; rewrite lookup_insert_eq].
    apply Forall_forall. intros r' Hr'. destruct (overlaps _ _ r') eqn:Eo; [|done].
    rewrite <- Eov. symmetry. apply List.existsb_exists. exists r'. split; [by apply list_elem_of_In|done].
Qed.

(** ** Freeing *)

(** Pages [v0 <= v < v1] of space [c] are gone, all other entries are as before. *)
Definition range_gone (s s' : vmm) (c : positive) (d v0 v1 : Z) : Prop :=
  (forall q sq dq v, spaces s !! q = Some sq -> dir_at sq dq -> 0 <= v < 2 ^ 20 -> (q <> c \/ v < v0 \/ v1 <= v) ->
     entry (mem s') dq v = entry (mem s) dq v) /\
  (forall v, v0 <= v < v1 -> present (entry (mem s') d v) = false).

Lemma unmap_range own s c sp d v0 n :
  vinv own s -> current_space s = Some c -> spaces s !! c = Some sp -> dir_at sp d ->
  0 <= v0 -> v0 + Z.of_nat n <= 2 ^ 20 -> (kernel_space s = Some c -> 1024 <= v0) ->
  wp (mfor ((fun k => k * PAGE_SIZE) <$> seqZ v0 (Z.of_nat n)) (fun v =>
        s <- get ;; _r <- vmm_unmap_page (current_space s) v ;; ret tt))
    (fun _ s' => exists own', vinv own' s' /\ same s s' /\ range_gone s s' c d v0 (v0 + Z.of_nat n)) s.
Proof.
  revert own s v0. induction n as [|n IH]; intros own s v0 Hv Ec Esp Hd H0 Hn Hk.
  { simpl. exists own. split; [done|]. split; [apply same_refl|]. split; [done|]. lia. }
  rewrite seqZ_cons by lia. rewrite fmap_cons. cbn [mfor]. wp_steps. rewrite Ec.
  eapply wp_mono; [eapply unmap_page_spec; [apply Hv|done|done|lia|done]|]. cbn beta.
  intros r s1 (-> & own1 & Hc1 & Hs1 & Hst1 & Hok & Hgone). wp_steps.
  assert (vinv own1 s1) as Hv1 by (eapply vinv_same; [done..|]; apply Hst1, Hv).
  replace (Z.pred (Z.of_nat (S n))) with (Z.of_nat n) by lia. rewrite <- Z.add_1_r.
  eapply wp_mono; [apply (IH own1 s1 (v0 + 1) Hv1)|].
  - by rewrite (ks_current _ _ Hs1).
  - by rewrite (ks_spaces _ _ Hs1).
  - done.
  - lia.
  - lia.
  - rewrite (ks_kernel _ _ Hs1). intros E. specialize (Hk E). lia.
  - cbn beta. intros [] s2 (own2 & Hv2 & Hs2 & Hg1 & Hg2). exists own2. split; [done|].
    split; [by eapply same_trans|]. split.
    + intros q sq dq v Hq Hdq Hvr Hne. rewrite (Hg1 q sq dq v); [|by rewrite (ks_spaces _ _ Hs1)|done|done|].
      * apply (Hok q sq dq v); try done. intros [= -> ->]. destruct Hne as [?|?]; [done|lia].
      * destruct Hne as [?|?]; [by left|right; lia].
    + intros v Hvr. destruct (Z.eq_dec v v0) as [->|Hne]; [|apply Hg2; lia].
      rewrite (Hg1 c sp d v0); [done|by rewrite (ks_spaces _ _ Hs1)|done|lia|]. right. lia.
Qed.

Lemma pages_from v0 n : (fun k => v0 * 4096 + k * PAGE_SIZE) <$> seqZ 0 n = (fun k => k * PAGE_SIZE) <$> seqZ v0 n.
Proof.
  replace (seqZ v0 n) with (Z.add v0 <$> seqZ 0 n) by (rewrite fmap_add_seqZ; f_equal; lia).
  rewrite <- list_fmap_compose.
  apply list_fmap_ext. intros _ k _. unfold PAGE_SIZE; simpl. lia.
Qed.

Lemma kernel_start own s c sp r v0 :
  vinv own s -> spaces s !! c = Some sp -> r ∈ regions sp -> r_start r = v0 * 4096 -> v0 <> 0 ->
  kernel_space s = Some c -> 1024 <= v0.
Proof.
  intros Hv Hsp Hr Ers Hv0 Hk. destruct (vi_regions _ _ Hv c sp Hsp) as [_ Hab]. specialize (Hab Hk).
  rewrite Forall_forall in Hab. destruct (Hab r Hr); lia.
Qed.

(** Freeing at address [a], from page 1 on: either there is no region at its page, and
    nothing happens, or the pages up to the end are unmapped and the region is removed. *)
Lemma free_spec own s a size c sp d :
  vinv own s -> 4096 <= a < 2 ^ 32 -> size <> 0 ->
  current_space s = Some c -> spaces s !! c = Some sp -> dir_at sp d ->
  let v0 := a / 4096 in
  let v1 := page_up (u32 (a + size)) / 4096 in
  wp (vmm_free a size) (fun _ s' => exists own', vinv own' s' /\
    match List.find (contains (v0 * 4096)) (regions sp) with
    | Some r => if r_start r =? v0 * 4096
                then range_gone s s' c d v0 v1 /\ spaces s' !! c = Some (set_regions (remove_start (v0 * 4096) (regions sp)) sp)
                else s' = s
    | None => s' = s
    end) s.
Proof.
  intros Hv Ha Hsz Ec Esp Hd v0 v1. assert (1 <= v0) as Hv0 by (by apply Z.div_le_lower_bound; lia).
  unfold vmm_free. wp_steps. rewrite (vi_init _ _ Hv). change (truth 1) with true.
  destruct (Z.eqb_spec a 0); [lia|]. destruct (Z.eqb_spec size 0); [done|]. cbn [negb orb]. cbv zeta. wp_steps. rewrite Ec.
  unfold vmm_find_region. wp_steps. apply wp_space with sp; [done|]. wp_steps.
  change (page_down a) with (v0 * 4096). change PAGE_SIZE with 4096.
  destruct (List.find _ (regions sp)) as [r|] eqn:Ef; [|wp_steps; by exists own].
  destruct (Z.eqb_spec (r_start r) (v0 * 4096)) as [Ers|]; cbn [negb]; [|wp_steps; by exists own].
  destruct (find_region_in _ _ _ Ef) as [Hin Hcont]. rewrite wp_bind.
  destruct (page_up_ok (u32 (a + size))) as [Hup Hupm]. set (e := page_up (u32 (a + size))) in *.
  assert (e = v1 * 4096) as Ee by (unfold v1; pose proof (Z.div_mod e 4096 ltac:(lia)); lia).
  assert ((e - v0 * 4096) / 4096 = v1 - v0) as En by (rewrite Ee, <- Z.mul_sub_distr_r, Z.div_mul; lia).
  rewrite En. change 4096 with PAGE_SIZE at 2. rewrite pages_from.
  pose proof (kernel_start own s c sp r v0 Hv Esp Hin Ers ltac:(lia)) as Hks.
  assert (forall s1 own1, vinv own1 s1 -> same s s1 -> range_gone s s1 c d v0 v1 ->
    wp (s' <- get ;; vmm_remove_region (current_space s') (v0 * 4096)) (fun _ s' => exists own', vinv own' s' /\
      range_gone s s' c d v0 v1 /\ spaces s' !! c = Some (set_regions (remove_start (v0 * 4096) (regions sp)) sp)) s1) as Hend.
  { intros s1 own1 Hv1 Hs1 Hg. wp_steps. rewrite (ks_current _ _ Hs1), Ec.
    eapply wp_mono; [eapply remove_region_spec; [done|by rewrite (ks_spaces _ _ Hs1)]|].
    cbn beta. intros [] s2 [Hv2 ->]. exists own1. split; [done|]. split; [done|]. simpl. by rewrite lookup_insert_eq. }
  destruct (Z.le_gt_cases v1 v0) as [Hle|Hgt].
  - assert (seqZ v0 (v1 - v0) = []) as -> by (apply seqZ_nil; lia). simpl. apply (Hend s own Hv (same_refl s)).
    split; [done|lia].
  - replace (v1 - v0) with (Z.of_nat (Z.to_nat (v1 - v0))) by lia.
    eapply wp_mono; [apply (unmap_range own s c sp d v0); try done; lia|]. cbn beta.
    intros [] s1 (own1 & Hv1 & Hs1 & Hg). apply (Hend s1 own1 Hv1 Hs1).
    by replace (v0 + Z.of_nat (Z.to_nat (v1 - v0))) with v1 in Hg by lia.
Qed.

(** ** Mapping devices *)

Lemma map_range own s c sp d v0 f0 n fl :
  vinv own s -> current_space s = Some c -> spaces s !! c = Some sp -> dir_at sp d ->
  0 <= v0 -> v0 + Z.of_nat n <= 2 ^ 20 -> num_frames s <= f0 -> f0 + Z.of_nat n <= 2 ^ 20 -> 0 <= fl < 4096 ->
  wp (mfor ((fun k => k * PAGE_SIZE) <$> seqZ 0 (Z.of_nat n)) (fun o =>
        s <- get ;; _r <- vmm_map_page (current_space s) (u32 (v0 * 4096 + o)) (u32 (f0 * 4096 + o)) fl ;; ret tt))
    (fun _ s' => exists own', vinv own' s' /\ same s s' /\
      (forall q sq dq v, spaces s !! q = Some sq -> dir_at sq dq -> 0 <= v < 2 ^ 20 -> (q <> c \/ v < v0 \/ v0 + Z.of_nat n <= v) ->
         entry (mem s') dq v = entry (mem s) dq v)) s.
Proof.
  intros Hv Ec Esp Hd H0 Hn Hf Hfn Hfl.
  set (J := fun s' => exists own', vinv own' s' /\ same s s' /\
      (forall q sq dq v, spaces s !! q = Some sq -> dir_at sq dq -> 0 <= v < 2 ^ 20 -> (q <> c \/ v < v0 \/ v0 + Z.of_nat n <= v) ->
         entry (mem s') dq v = entry (mem s) dq v)).
  apply (wp_mfor J); [|exists own; split; [done|]; split; [apply same_refl|done]].
  pose proof (fo_num _ _ (c_frames _ _ _ (vi_core _ _ Hv))) as Hnum.
  intros o s1 (k & -> & Hk%elem_of_seqZ)%list_elem_of_fmap (own1 & Hv1 & Hs1 & Hk1). unfold PAGE_SIZE.
  replace (u32 (v0 * 4096 + k * 4096)) with ((v0 + k) * 4096) by (rewrite u32_small; lia).
  replace (u32 (f0 * 4096 + k * 4096)) with ((f0 + k) * 4096) by (rewrite u32_small; lia). wp_steps. rewrite (ks_current _ _ Hs1), Ec.
  eapply wp_mono; [eapply (map_page_spec own1 s1 c sp d (v0 + k) ((f0 + k) * 4096) fl)|].
  - apply Hv1.
  - by rewrite (ks_spaces _ _ Hs1).
  - done.
  - lia.
  - lia.
  - done.
  - left. rewrite Z.div_mul, (ks_num _ _ Hs1) by lia. lia.
  - cbn beta. intros r s2 (own2 & _ & Hc2 & Hs2 & Hst2 & Hok & _). wp_steps. exists own2.
    split; [eapply vinv_same; [exact Hv1|done..|]; apply Hst2, Hv1|]. split; [by eapply same_trans|].
    intros q sq dq v Hq Hdq Hvr Hne. rewrite <- (Hk1 q sq dq v) by done.
    apply (Hok q sq dq v); try done; [by rewrite (ks_spaces _ _ Hs1)|]. intros [= -> ->]. destruct Hne as [?|?]; [done|lia].
Qed.

Lemma map_physical_spec own s phys size fl nm ok :
  vinv own s -> num_frames s * 4096 <= phys -> 0 < size -> phys + size <= 2 ^ 32 -> size <= 2 ^ 31 ->
  wp (vmm_map_physical phys size fl nm ok) (fun _ s' => exists own', vinv own' s') s.
Proof.
  intros Hv Hph Hsz Hend Hsz2. pose proof (fo_num _ _ (c_frames _ _ _ (vi_core _ _ Hv))) as Hnum.
  unfold vmm_map_physical. wp_steps. rewrite (vi_init _ _ Hv). change (truth 1) with true.
  destruct (Z.eqb_spec size 0) as [|_]; [lia|]. cbn [negb orb]. cbv zeta. wp_steps.
  destruct (vinv_current _ _ Hv) as (c & sp & d & Ec & Esp & Hd & _). rewrite Ec.
  set (n := page_up _ / PAGE_SIZE). set (f0 := phys / 4096).
  assert (page_down phys = f0 * 4096) as Epd by done. rewrite Epd.
  pose proof (Z.div_mod phys 4096 ltac:(lia)) as Edm. pose proof (Z.mod_pos_bound phys 4096 ltac:(lia)) as Hmod.
  assert (num_frames s <= f0) as Hf0 by (apply Z.div_le_lower_bound; lia).
  assert (0 <= n /\ n * 4096 < size + (phys - f0 * 4096) + 4096) as [Hn0 Hn].
  { unfold n, page_up, PAGE_SIZE. rewrite Epd. fold f0 in Edm. rewrite (u32_small (size + _)), u32_small by lia.
    rewrite Z.div_mul by lia. set (y := size + _ + 4096 - 1).
    pose proof (Z.mul_div_le y 4096 ltac:(lia)). pose proof (Z.div_pos y 4096 ltac:(lia) ltac:(lia)). lia. }
  eapply wp_mono; [eapply add_region_spec; [done|done|lia|lia]|]. cbn beta zeta.
  intros b s1 [Hv1 Hcase].
  assert (same_but_spaces s s1 /\ mem s1 = mem s) as [Hsb _].
  { destruct Hcase as [(_ & -> & _)|(_ & _ & _ & ->)]; destruct s; split; try done; by split. }
  destruct b; cbn [negb]; [|wp_steps; by exists own]. destruct Hcase as [(? & _)|(_ & _ & _ & ->)]; [done|].
  wp_steps. change 0x20000000 with (0x20000 * 4096).
  replace n with (Z.of_nat (Z.to_nat n)) by lia.
  eapply wp_mono; [eapply (map_range own _ c _ d 0x20000 f0 (Z.to_nat n)); [exact Hv1|done|simpl; apply lookup_insert_eq|done|lia|lia|done|lia|]|].
  - repeat case_if; vm_compute; split; done.
  - cbn beta. intros [] s2 (own2 & Hv2 & _). wp_steps. by exists own2.
Qed.

(** ** Page faults *)

Definition allowed (r : vm_region) (err : Z) : bool := Z.land (r_flags r) (required_flags err) =? required_flags err.
Definition fault_flags (r : vm_region) : Z := if has_flag (r_flags r) VM_PERM_WRITE then 7 else 5.

Lemma vinv_count own s :
  vinv own s -> vinv own (set_stats (set_page_faults (u32 (page_faults (stats s) + 1)) (stats s)) s).
Proof. intros Hv. eapply vinv_same; [done|by split|destruct Hv as [[[] ?]]; by split; [split|]|apply Hv]. Qed.

(** The page of the fault is mapped to a frame that nobody owned, filled with zeros. *)
Definition fresh_page (own : gmap Z owner) (s s' : vmm) (d v : Z) (r : vm_region) : Prop :=
  exists f, own !! f = None /\ 256 <= f < num_frames s /\ entry (mem s') d v = f * 4096 + fault_flags r /\
    forall i, 0 <= i < 1024 -> word (mem s') f i = 0.

Lemma clear_fresh own s c sp d v f fl :
  core own (spaces s) s -> spaces s !! c = Some sp -> dir_at sp d -> cr3 s = 4096 * d -> 0 <= v < 2 ^ 20 ->
  own !! f = Some (OPage c v) -> entry (mem s) d v = f * 4096 + fl -> 0 <= fl < 4096 -> Z.odd fl = true ->
  wp (clear_virtual (v * 4096)) (fun _ s' => s' = set_mem (cleared (mem s) f) s /\ core own (spaces s') s' /\
    forall q sq dq u, spaces s !! q = Some sq -> dir_at sq dq -> 0 <= u < 2 ^ 20 -> entry (mem s') dq u = entry (mem s) dq u) s.
Proof.
  intros Hc Hsp Hd Hcr Hv Hof He Hfl Hodd. destruct (core_own_range _ _ _ _ _ Hc Hof) as [Hfr Hnum].
  unfold clear_virtual. wp_steps. replace (v * 4096) with (v * 4096 + 0) by lia. rewrite Hcr.
  rewrite (walk_entry (c_mapped _ _ _ Hc) c sp) by (done || lia ||
    (intros g o Hg; destruct (core_own_range _ _ _ _ _ Hc Hg); lia)).
  rewrite He, present_odd, Z.odd_add, Z.odd_mul, Hodd, andb_false_r. cbn [xorb deref]. wp_steps. unfold clear_page. wp_steps.
  rewrite land_frame, Z.div_add_l, (Z.div_small fl), Z.add_0_r by lia. rewrite (Z.mul_comm f). fold (cleared (mem s) f).
  assert (forall g o i, own !! g = Some o -> is_table o -> 0 <= i < 1024 -> word (cleared (mem s) f) g i = word (mem s) g i) as Hw.
  { intros g o i Hg Ht Hi. unfold cleared. rewrite word_clear by done. case_decide; [|done]. subst.
    rewrite Hof in Hg. by injection Hg as <-. }
  split; [done|]. split.
  - destruct Hc as [[] Hm]. split; [by split|]. by apply (mapped_mem Hm).
  - intros q sq dq u Hq Hdq Hu. by apply (entry_mem (c_mapped _ _ _ Hc) _ q sq).
Qed.

Lemma page_fault_spec own s a err c sp d :
  vinv own s -> 0 <= a < 2 ^ 32 -> 2 <= free_frames s ->
  current_space s = Some c -> spaces s !! c = Some sp -> dir_at sp d ->
  wp (vmm_default_page_fault_handler a err) (fun b s' => exists own', vinv own' s' /\ same s s' /\
    others_kept s s' c (a / 4096) /\
    match List.find (contains a) (regions sp) with
    | Some r => if allowed r err then b = true /\ fresh_page own s s' d (a / 4096) r else b = false /\ mem s' = mem s
    | None => b = false /\ mem s' = mem s
    end) s.
Proof.
  intros Hv Ha Hfree Ec Esp Hd. pose proof (vinv_count own s Hv) as Hv0.
  assert (0 <= a / 4096 < 2 ^ 20) as Hvr by (split; [apply Z.div_pos; lia|apply Z.div_lt_upper_bound; lia]).
  unfold vmm_default_page_fault_handler. wp_steps. set (s0 := set_stats _ s) in *.
  assert (exists own', vinv own' s0 /\ same s s0 /\ others_kept s s0 c (a / 4096) /\ mem s0 = mem s) as Hnone.
  { exists own. split; [done|]. split; [by split|]. split; [by intros ? **|done]. }
  change (current_space s0) with (current_space s). rewrite Ec. unfold vmm_find_region. wp_steps. apply wp_space with sp; [done|]. wp_steps.
  destruct (List.find (contains a) (regions sp)) as [r|].
  2:{ wp_steps. destruct Hnone as (own' & ? & ? & ? & ?). by exists own'. }
  fold (allowed r err). destruct (allowed r err).
  2:{ wp_steps. destruct Hnone as (own' & ? & ? & ? & ?). by exists own'. }
  cbv zeta. wp_steps. eapply wp_mono; [apply alloc_frame_spec, (vi_core _ _ Hv0)|]. cbn beta.
  intros fr s1 ([Hs1 Em1] & Hf1 & Hst1 & [(_ & E0 & _)|(f & -> & Hfr & Hof & Haf & Efree)]); [simpl in E0; lia|].
  rewrite (proj2 (truth_true _)) by lia. wp_steps. set (v := a / 4096) in *.
  set (own1 := <[f := OPage c v]> own). assert (own ⊆ own1) as Hsub by (by apply insert_subseteq).
  assert (core own1 (spaces s1) s1) as Hc1.
  { split; [apply frames_own; [done|rewrite (ks_num _ _ Hs1); exact Hfr|done]|].
    rewrite (ks_spaces _ _ Hs1), (ks_kernel _ _ Hs1), (ks_num _ _ Hs1), Em1.
    by eapply (mapped_grow (c_mapped _ _ _ (vi_core _ _ Hv0))). }
  rewrite (ks_current _ _ Hs1). change (current_space s0) with (current_space s). rewrite Ec.
  pose proof (fo_num _ _ Hf1) as Hn1. rewrite (ks_num _ _ Hs1) in Hn1. change (num_frames s0) with (num_frames s) in Hn1, Hfr.
  replace (if has_flag (r_flags r) VM_PERM_WRITE then Z.lor (Z.lor PTE_PRESENT PTE_USER) PTE_WRITE else Z.lor PTE_PRESENT PTE_USER)
    with (fault_flags r) by (unfold fault_flags; by case_if).
  assert (0 <= fault_flags r < 4096 /\ Z.odd (fault_flags r) = true) as [Hfl Hodd] by (unfold fault_flags; case_if; done).
  change (page_down a) with (v * 4096).
  assert (spaces s1 !! c = Some sp) as Hsp1 by (by rewrite (ks_spaces _ _ Hs1)).
  eapply wp_mono; [eapply (map_page_spec own1 s1 c sp d v (f * 4096) (fault_flags r) Hc1 Hsp1 Hd Hvr); [lia|done|]|].
  { right. right. rewrite Z.div_mul by lia. apply lookup_insert_eq. }
  cbn beta. intros res s2 (own2 & Hsub2 & Hc2 & Hs2 & Hst2 & Hok2 & Hres). rewrite Z.div_mul in Hres by lia.
  destruct Hres as [(_ & E0 & _ & _)|[-> He2]]; [simpl in Efree; lia|]. wp_steps.
  assert (spaces s2 !! c = Some sp) as Hsp2 by (by rewrite (ks_spaces _ _ Hs2)).
  eapply wp_mono; [eapply (clear_fresh own2 s2 c sp d v f (fault_flags r)); try done|].
  - rewrite (ks_cr3 _ _ Hs2), (ks_cr3 _ _ Hs1). destruct (vi_current _ _ Hv) as (_ & c' & sp' & d' & Ec' & Esp' & Hd' & Hcr).
    assert (c' = c) as -> by congruence. assert (sp' = sp) as -> by congruence. simpl. by rewrite Hcr, (dir_at_inj _ _ _ Hd Hd').
  - eapply lookup_weaken; [|done]. apply lookup_insert_eq.
  - cbn beta. intros [] s3 (-> & Hc3 & He3). wp_steps. exists own2.
    assert (same s s2) as Hs by (eapply same_trans; [|done]; eapply same_trans; [|done]; by split).
    split; [|split; [|split; [|split; [done|]]]].
    + eapply vinv_same; [exact Hv|by destruct Hs; split|done|]. apply Hst2, Hst1. apply Hv.
    + by destruct Hs; split.
    + intros q sq dq u Hq Hdq Hu Hne. rewrite (He3 q sq dq u) by (done || by rewrite (ks_spaces _ _ Hs)).
      rewrite (Hok2 q sq dq u) by (done || by rewrite (ks_spaces _ _ Hs1)). by rewrite Em1.
    + exists f. split; [done|]. split; [done|]. split; [by rewrite (He3 c sp d v)|].
      intros i Hi. simpl. unfold cleared. rewrite word_clear by done. by case_decide.
Qed.

End VmmSafe.
