(* ===== verification/VmmProc.v ===== *)
(** * The virtual memory manager: processes and set-up

    The calls of [vmm_process.c] and [vmm_init], with the invariant of [VmmSafe]. *)

From Stdlib Require Import ZArith Lia Ascii String.
From stdpp Require Import base tactics option gmap numbers strings list.
From S2P Require Import Prelude Aslr Vmm VmmInv VmmOps VmmSafe.

Set Default Goal Selector "!".
Local Open Scope Z_scope.
Local Open Scope kernel_scope.

Module VmmProc.
Import Vmm VmmInv VmmOps VmmSafe.
#[local] Existing Instance direct_map.
#[local] Arguments replicate : simpl never.

(** ** Switching *)

Lemma switch_spec own s p sp :
  vinv own s -> spaces s !! p = Some sp ->
  wp (vmm_switch_address_space (Some p)) (fun _ s' => vinv own s' /\ current_space s' = Some p /\ spaces s' = spaces s /\
    kernel_space s' = kernel_space s /\ process_spaces s' = process_spaces s /\ mem s' = mem s) s.
Proof.
  intros Hv Hp. destruct (mp_dir _ _ _ _ _ (c_mapped _ _ _ (vi_core _ _ Hv)) p sp Hp) as (d & Hd & Hod).
  destruct (core_own_range _ _ _ _ _ (vi_core _ _ Hv) Hod) as [Hdr Hnum].
  unfold vmm_switch_address_space. wp_steps. apply wp_space with sp; [done|]. wp_steps. split; [|done].
  assert (u32 (page_directory sp - KERNEL_OFFSET) = 4096 * d) as ->.
  { unfold dir_at in Hd. rewrite Hd, u32_small; lia. }
  destruct Hv as [[[] Hm] H1 H2 H3 H4 H5 H6 H7 H8]. split; try done. split; [done|]. by exists p, sp, d.
Qed.

(** ** The table of processes *)

Lemma process_slot s i : length (process_spaces s) = 256%nat -> bad_process i = false ->
  exists p, process_spaces s !! Z.to_nat i = Some p /\ arr_get (process_spaces s) i = Some p /\ 0 <= i < 256.
Proof.
  intros Hl Hb. unfold bad_process, MAX_PROCESSES in Hb. apply orb_false_iff in Hb as [?%Z.ltb_ge ?%Z.leb_gt].
  destruct (lookup_lt_is_Some_2 (process_spaces s) (Z.to_nat i)) as [p Hp]; [lia|]. exists p. split; [done|].
  split; [|lia]. unfold arr_get. destruct (Z.ltb_spec i 0); [lia|done].
Qed.

Lemma wp_process i s p Q : arr_get (process_spaces s) i = Some p -> Q p s -> wp (process_space i) Q s.
Proof. intros E HQ. unfold process_space. wp_steps. rewrite E. cbn [deref]. by wp_steps. Qed.

Lemma wp_set_process i s p Q :
  length (process_spaces s) = 256%nat -> 0 <= i < 256 ->
  Q tt (set_process_spaces (<[Z.to_nat i := p]> (process_spaces s)) s) -> wp (set_process_space i p) Q s.
Proof.
  intros Hl Hi HQ. unfold set_process_space. wp_steps. rewrite arr_set_some by lia. cbn [deref]. by wp_steps.
Qed.

(** A space with a slot of the table. *)
Lemma vinv_enter own s i p :
  vinv own s -> is_Some (spaces s !! p) -> kernel_space s <> Some p ->
  (forall j, process_spaces s !! j <> Some (Some p)) ->
  vinv own (set_process_spaces (<[i := Some p]> (process_spaces s)) s).
Proof.
  intros Hv Hp Hk Hno. destruct Hv as [[[] Hm] H1 H2 H3 H4 H5 (Hl & Ha & Hb) H7 H8]. split; try done. simpl.
  split; [by rewrite length_insert|]. split.
  - intros j q Hj. apply list_lookup_insert_Some in Hj as [(<- & [= <-] & _)|[_ Hj]]; [done|by eapply Ha].
  - intros j1 j2 q Hj1 Hj2.
    apply list_lookup_insert_Some in Hj1 as [(<- & E1 & _)|[Hne1 Hj1]];
      apply list_lookup_insert_Some in Hj2 as [(<- & E2 & _)|[Hne2 Hj2]]; [done|congruence|congruence|by eapply Hb].
Qed.

(** A space that is not current, without its slot. *)
Lemma vinv_leave own own' s s' i p :
  vinv own s -> same_but_spaces s s' -> spaces s' = delete p (spaces s) -> core own' (spaces s') s' -> stats_ok s' ->
  process_spaces s !! i = Some (Some p) -> current_space s <> Some p ->
  vinv own' (set_process_spaces (<[i := None]> (process_spaces s')) s').
Proof.
  intros Hv Hs Esp Hc Hst Hi Hcur. destruct Hv as [_ _ H1 H2 H3 H4 (Hl & Ha & Hb) H7 H8].
  destruct Hs as [Ei Ek Ec En Eh Evi Evk Evc Ep Ea _ Er]. simpl in *.
  destruct (Ha i p Hi) as [_ Hkp].
  split; simpl.
  - destruct Hc as [[] ?]. by split; [split|].
  - done.
  - by rewrite Ei.
  - by rewrite Eh.
  - destruct H3 as (k & E1 & E2 & E3). exists k. rewrite Ek, Evk, Esp. split; [done|]. split; [done|].
    rewrite lookup_delete_ne; [done|congruence].
  - destruct H4 as (E0 & c & sp & d & E1 & E2 & E3 & E4). rewrite Evc, Ec, Er. split; [done|]. exists c, sp, d.
    split; [done|]. split; [|done]. rewrite Esp, lookup_delete_ne; [done|congruence].
  - rewrite Ep, Ek, Esp. split; [by rewrite length_insert|]. split.
    + intros j q Hj. apply list_lookup_insert_Some in Hj as [(_ & ? & _)|[Hne Hj]]; [done|].
      destruct (Ha j q Hj) as [Hq ?]. split; [|done]. rewrite lookup_delete_ne; [done|]. intros ->.
      apply Hne. by eapply Hb.
    + intros j1 j2 q Hj1 Hj2.
      apply list_lookup_insert_Some in Hj1 as [(_ & ? & _)|[_ Hj1]]; [done|].
      apply list_lookup_insert_Some in Hj2 as [(_ & ? & _)|[_ Hj2]]; [done|]. by eapply Hb.
  - rewrite Esp, Ek. intros q sq [_ Hq]%lookup_delete_Some. by apply H7.
  - by rewrite Ea.
Qed.

(** A new space. *)
Lemma vinv_new own s s' a d sp :
  vinv own s -> same_but_spaces s s' -> spaces s !! a = None -> dir_at sp d -> regions sp = [] ->
  spaces s' = <[a := sp]> (spaces s) -> core (<[d := ODir a]> own) (spaces s') s' -> stats_ok s' ->
  vinv (<[d := ODir a]> own) s'.
Proof.
  intros Hv Hs Ha Hd Hr Esp Hc Hst. destruct Hv as [_ _ H1 H2 H3 H4 (Hl & Hp & Hb) H7 H8].
  destruct Hs as [Ei Ek Ec En Eh Evi Evk Evc Ep Ea _ Er]. simpl in *.
  assert (forall q, is_Some (spaces s !! q) -> is_Some (spaces s' !! q)) as Hq.
  { intros q [sq Eq]. rewrite Esp, lookup_insert_ne; [by exists sq|congruence]. }
  split; simpl; try done.
  - by rewrite Ei.
  - by rewrite Eh.
  - destruct H3 as (k & E1 & E2 & E3). exists k. rewrite Ek, Evk. split; [done|]. split; [done|]. by apply Hq.
  - destruct H4 as (E0 & c & sc & dc & E1 & E2 & E3 & E4). rewrite Evc, Ec, Er. split; [done|]. exists c, sc, dc.
    split; [done|]. split; [|done]. rewrite Esp, lookup_insert_ne; [done|congruence].
  - rewrite Ep, Ek. split; [done|]. split; [|done]. intros i q Hi. destruct (Hp i q Hi). split; [by apply Hq|done].
  - rewrite Esp, Ek. intros q sq [[<- <-]|[_ Hsq]]%lookup_insert_Some; [|by apply H7].
    rewrite Hr. by split; [split; [apply Forall_nil_2|]|].
  - by rewrite Ea.
Qed.

(** ** Regions of a process *)

Definition try_add (ok : bool) (r : vm_region) (l : list vm_region) : list vm_region :=
  if existsb (overlaps (r_start r) (r_end r)) l then l else if ok then r :: l else l.

(** What changes while a process is set up: the regions of its space. *)
Definition grown (s s' : vmm) (p : positive) (sp : address_space) (l : list vm_region) : Prop :=
  same_but_spaces s s' /\ mem s' = mem s /\
  exists sp', spaces s' = <[p := sp']> (spaces s) /\ regions sp' = l /\ page_directory sp' = page_directory sp.

Lemma add_region_grown own s p sp start end_ fl ty nm ok Q :
  vinv own s -> spaces s !! p = Some sp -> 0 <= start < 2 ^ 32 -> kernel_space s <> Some p ->
  (forall b s', vinv own s' -> grown s s' p sp (try_add ok (mk_region (page_down start) (page_up end_) fl ty nm) (regions sp)) -> Q b s') ->
  wp (vmm_add_region (Some p) start end_ fl ty nm ok) Q s.
Proof.
  intros Hv Hp Hs Hk HQ. eapply wp_mono; [eapply add_region_spec; [done|done|done|congruence]|]. cbn beta zeta.
  intros b s' [Hv' Hcase]. apply HQ; [done|]. unfold try_add. cbn [r_start r_end] in *.
  destruct Hcase as [(_ & -> & Hno)|(_ & Eo & -> & ->)].
  - split; [by destruct s; split|]. split; [done|]. exists sp. split; [by rewrite insert_id|]. split; [|done].
    destruct Hno as [->| ->]; [by case_if|done].
  - rewrite Eo. split; [by split|]. split; [done|]. eexists. split; [done|]. done.
Qed.

Lemma grown_trans s s1 s2 p sp sp1 l1 l2 :
  grown s s1 p sp l1 -> spaces s1 !! p = Some sp1 -> grown s1 s2 p sp1 l2 -> grown s s2 p sp l2.
Proof.
  intros (Hs1 & Em1 & sp1' & Es1 & _ & Ed1) Hp1 (Hs2 & Em2 & sp2 & Es2 & El2 & Ed2).
  assert (sp1' = sp1) as -> by (rewrite Es1, lookup_insert_eq in Hp1; congruence).
  split; [|split; [congruence|]].
  - destruct Hs1, Hs2. split; simpl in *; congruence.
  - exists sp2. rewrite Es2, Es1, insert_insert_eq. split; [done|]. split; [done|congruence].
Qed.

Lemma address_entropy c c' base t a :
  Aslr.entropy_bits c' = Aslr.entropy_bits c -> Aslr.address_of c' base t a -> Aslr.address_of c base t a.
Proof. intros E (o & (n & Eo & Hn & Hm) & Ea). exists o. split; [|done]. exists n. by rewrite <- E. Qed.

(** The five regions [vmm_create_process_space] asks for. *)
Definition code_region : vm_region := mk_region 0x08048000 0x08400000 13 VM_TYPE_USER (Some "code"%string).
Definition heap_region (h : Z) : vm_region :=
  mk_region (page_down h) (page_up (u32 (h + 4 * 1024 * 1024))) 11 VM_TYPE_HEAP (Some "heap"%string).
Definition shared_region (m : Z) : vm_region :=
  mk_region (page_down m) (page_up (u32 (m + 16 * 1024 * 1024))) 11 VM_TYPE_SHARED (Some "shared"%string).
Definition library_region (l : Z) : vm_region :=
  mk_region (page_down l) (page_up (u32 (l + 64 * 1024 * 1024))) 13 VM_TYPE_MODULE (Some "libraries"%string).
Definition stack_region (t : Z) : vm_region :=
  mk_region (page_down (u32 (t - 1024 * 1024))) (page_up t) 4107 VM_TYPE_STACK (Some "stack"%string).

Definition process_regions (ok : nat -> bool) (h m l t : Z) : list vm_region :=
  try_add (ok 4%nat) (stack_region t) (try_add (ok 3%nat) (library_region l) (try_add (ok 2%nat) (shared_region m)
    (try_add (ok 1%nat) (heap_region h) (try_add (ok 0%nat) code_region [])))).

(** Four addresses, randomised with the entropy of [c]. *)
Definition layout (c : Aslr.config) (h m l t : Z) : Prop :=
  Aslr.address_of c 0x08400000 Aslr.ASLR_HEAP_OFFSET h /\ Aslr.address_of c 0x30000000 Aslr.ASLR_MMAP_OFFSET m /\
  Aslr.address_of c 0x40000000 Aslr.ASLR_LIB_OFFSET l /\ Aslr.address_of c 0xBFFFFFFF Aslr.ASLR_STACK_OFFSET t.

(** The state while the regions of space [a] are added. *)
Record setting_up (own : gmap Z owner) (s : vmm) (a : positive) (l : list vm_region) : Prop := mk_setting_up {
  su_vinv : vinv own s;
  su_space : exists sp, spaces s !! a = Some sp /\ regions sp = l;
  su_kernel : kernel_space s <> Some a;
  su_free : forall j, process_spaces s !! j <> Some (Some a);
}.

Lemma setting_up_add own s a l start end_ fl ty nm ok (k : bool -> M vmm Z) Q :
  setting_up own s a l -> 0 <= start < 2 ^ 32 ->
  (forall b s', setting_up own s' a (try_add ok (mk_region (page_down start) (page_up end_) fl ty nm) l) ->
     same_but_spaces s s' -> mem s' = mem s -> wp (k b) Q s') ->
  wp (b <- vmm_add_region (Some a) start end_ fl ty nm ok ;; k b) Q s.
Proof.
  intros [Hv (sp & Hsp & El) Hk Hf] Hs HQ. apply wp_bind.
  eapply add_region_grown; [done|done|done|done|]. intros b s' Hv' (Hs' & Em & sp' & Esp & Er & _). subst l.
  pose proof (ks_process _ _ Hs') as Ep. pose proof (ks_kernel _ _ Hs') as Ek. simpl in Ep, Ek.
  apply HQ; [|done|done]. split; [done| |congruence|].
  - exists sp'. rewrite Esp, lookup_insert_eq. done.
  - intros j. by rewrite Ep.
Qed.

Lemma setting_up_draw own s a l base t (k : Z -> M vmm Z) Q :
  setting_up own s a l -> 0 <= base < 2 ^ 32 ->
  (forall x c, Aslr.address_of (aslr s) base t x -> Aslr.entropy_bits c = Aslr.entropy_bits (aslr s) ->
     setting_up own (set_aslr c s) a l -> wp (k x) Q (set_aslr c s)) ->
  wp (x <- on_aslr (Aslr.aslr_randomize_address base t) ;; k x) Q s.
Proof.
  intros [Hv Hsp Hk Hf] Hb HQ. apply wp_bind. eapply randomize_wp; [done|done|].
  intros x c Hx Hc Hv'. by apply HQ; [done..|split].
Qed.

Lemma layout_range c h m l t : layout c h m l t ->
  0x08400000 <= h < 0xD0000000 /\ 0x30000000 <= m < 0xD0000000 /\ 0x40000000 <= l < 0xD0000000 /\ 0xB0000000 <= t < 0xD0000000.
Proof.
  intros (Hh & Hm & Hl & Ht).
  assert (forall base ty a m, Aslr.address_of c base ty a -> ty <> Aslr.ASLR_STACK_OFFSET -> 0 <= base < 0xC0000000 ->
    Aslr.max_pages ty = Some m -> base <= a <= base + 4096 * (m - 1)) as Hup.
  { intros base ty a mx (o & (n & -> & Hp & Hmx) & ->) Hne Hb Em. unfold Aslr.PAGE_SIZE in *.
    pose proof (Aslr.max_pages_range _ _ Em).
    assert (0 <= n <= mx - 1).
    { destruct (Z.eq_dec n 0) as [->|]; [lia|]. destruct Hmx as (m' & Em' & Hlt); [lia|]. rewrite Em in Em'.
      injection Em' as <-. lia. }
    case_if; bools; [done|]. rewrite u32_small; lia. }
  apply (Hup _ _ _ Aslr.MAX_HEAP_DELTA) in Hh; [|done|lia|done]. apply (Hup _ _ _ Aslr.MAX_MMAP_DELTA) in Hm; [|done|lia|done].
  apply (Hup _ _ _ Aslr.MAX_LIB_DELTA) in Hl; [|done|lia|done].
  destruct Ht as (o & (n & -> & Hp & Hmx) & ->). unfold Aslr.PAGE_SIZE, Aslr.MAX_HEAP_DELTA, Aslr.MAX_MMAP_DELTA, Aslr.MAX_LIB_DELTA in *.
  assert (0 <= n < 0xFFF).
  { destruct (Z.eq_dec n 0) as [->|]; [lia|]. destruct Hmx as (m' & Em' & Hlt); [lia|].
    change (Some Aslr.MAX_STACK_DELTA = Some m') in Em'. injection Em' as <-. split; [lia|exact Hlt]. }
  change (Aslr.ASLR_STACK_OFFSET =? Aslr.ASLR_STACK_OFFSET) with true. cbv iota. rewrite u32_small; lia.
Qed.

Lemma create_process_spec own s id a ok :
  vinv own s -> spaces s !! a = None ->
  wp (vmm_create_process_space id (Some a) ok) (fun r s' => exists own', vinv own' s' /\
    ((r = -1 /\ s' = s /\ (bad_process id = true \/ (exists p, arr_get (process_spaces s) id = Some (Some p)) \/ free_frames s = 0)) \/
     (r = 0 /\ 0 <= id < 256 /\ process_spaces s' !! Z.to_nat id = Some (Some a) /\
      exists h m l t sp, layout (aslr s) h m l t /\ spaces s' !! a = Some sp /\ regions sp = process_regions ok h m l t))) s.
Proof.
  intros Hv Ha. unfold vmm_create_process_space.
  destruct (bad_process id) eqn:Eb; [wp_steps; exists own; split; [done|left; split; [done|split; [done|by left]]]|].
  destruct (vi_process _ _ Hv) as (Hl & Hps & _).
  destruct (process_slot s id Hl Eb) as (old & Eold & Eget & Hid). wp_steps. eapply wp_process; [exact Eget|].
  destruct old as [o|]; [wp_steps; exists own; split; [done|left; split; [done|split; [done|right; left; by exists o]]]|]. wp_steps.
  eapply wp_mono; [by apply create_space_spec; [apply Hv|]|]. cbn beta.
  intros r s1 (Hs1 & Hst1 & [(-> & E0 & ->)|(d & sp & -> & Hd & Hr & Esp & _ & Hc1 & _)]); [wp_steps; exists own; split; [done|left; split; [done|split; [done|by right; right]]]|].
  pose proof (vinv_new own s s1 a d sp Hv Hs1 Ha Hd Hr Esp Hc1 (Hst1 (vi_stats _ _ Hv))) as Hv1.
  set (own1 := <[d := ODir a]> own) in *. wp_steps.
  assert (spaces s1 !! a = Some sp) as Hsp1 by (rewrite Esp; apply lookup_insert_eq).
  assert (kernel_space s1 <> Some a) as Hk1.
  { pose proof (ks_kernel _ _ Hs1) as Ek1. simpl in Ek1. rewrite Ek1. destruct (vi_kernel _ _ Hv) as (k & Ek & _ & [sk Hk]). congruence. }
  eapply wp_upd_space; [exact Hsp1|].
  assert (setting_up own1 (set_spaces (<[a := set_id id sp]> (spaces s1)) s1) a []) as Hsu.
  { split.
    - eapply vinv_upd; [done|done|done| |]; [|by intros]. simpl. rewrite Hr. by split; [apply Forall_nil_2|].
    - exists (set_id id sp). simpl. rewrite lookup_insert_eq. done.
    - done.
    - pose proof (ks_process _ _ Hs1) as Ep1. simpl in Ep1 |- *. rewrite Ep1. intros j Hj. destruct (Hps j a Hj) as [[? ?] _]. congruence. }
  set (s2 := set_spaces _ s1) in *.
  assert (aslr s2 = aslr s) as Eas by (destruct Hs1; done).
  apply (setting_up_draw own1 _ a []); [done|lia|]. intros h c1 Hh Ec1 Hsu1.
  apply (setting_up_draw own1 _ a []); [done|lia|]. intros m c2 Hm Ec2 Hsu2.
  apply (setting_up_draw own1 _ a []); [done|lia|]. intros lib c3 Hlib Ec3 Hsu3.
  apply (setting_up_draw own1 _ a []); [done|lia|]. intros t c4 Ht Ec4 Hsu4. simpl in Hm, Hlib, Ht, Ec2, Ec3, Ec4.
  assert (layout (aslr s) h m lib t) as Hlay.
  { rewrite Eas in Hh, Ec1. split; [done|].
    split; [apply (address_entropy _ c1); [congruence|done]|].
    split; [apply (address_entropy _ c2); [congruence|done]|apply (address_entropy _ c3); [congruence|done]]. }
  destruct (layout_range _ _ _ _ _ Hlay) as (Rh & Rm & Rl & Rt). cbv zeta.
  eapply setting_up_add; [exact Hsu4|lia|]. intros b1 s3 Hsu5 _ _.
  eapply setting_up_add; [exact Hsu5|lia|]. intros b2 s4 Hsu6 _ _.
  eapply setting_up_add; [exact Hsu6|lia|]. intros b3 s5 Hsu7 _ _.
  eapply setting_up_add; [exact Hsu7|lia|]. intros b4 s6 Hsu8 _ _.
  eapply setting_up_add; [exact Hsu8|rewrite u32_small; lia|]. intros b5 s7 Hsu9 _ _.
  destruct Hsu9 as [Hv9 (sp9 & Esp9 & Er9) Hk9 Hf9].
  apply wp_bind, wp_set_process; [apply (vi_process _ _ Hv9)|done|]. wp_steps.
  exists own1. split; [apply vinv_enter; [done|by exists sp9|done|done]|]. right. split; [done|]. split; [done|].
  split; [simpl; apply list_lookup_insert_eq; destruct (vi_process _ _ Hv9) as [-> _]; lia|].
  by exists h, m, lib, t, sp9.
Qed.

Lemma destroy_process_spec own s id :
  vinv own s ->
  wp (vmm_destroy_process_space id) (fun _ s' => exists own', vinv own' s' /\ mem s' = mem s /\
    (forall f v q, own !! f = Some (OPage q v) -> own' !! f = Some (OPage q v)) /\
    (forall p, arr_get (process_spaces s) id = Some (Some p) -> 0 <= id < 256 -> spaces s' = delete p (spaces s))) s.
Proof.
  intros Hv. unfold vmm_destroy_process_space. destruct (vi_process _ _ Hv) as (Hl & Hps & _).
  destruct (bad_process id) eqn:Eb.
  { wp_steps. exists own. split; [done|]. split; [done|]. split; [done|]. intros p _ Hid.
    unfold bad_process, MAX_PROCESSES in Eb. apply orb_true_iff in Eb as [?%Z.ltb_lt|?%Z.leb_le]; lia. }
  destruct (process_slot s id Hl Eb) as (o & Eo & Eget & Hid). wp_steps. eapply wp_process; [exact Eget|].
  destruct o as [p|]; [|wp_steps; exists own; split; [done|]; split; [done|]; split; [done|]; intros p Ep; congruence].
  destruct (Hps _ _ Eo) as [[sp Hsp] Hkp]. destruct (vi_kernel _ _ Hv) as (k & Ek & Evk & [sk Hsk]).
  wp_steps. rewrite Evk.
  assert (forall s1, vinv own s1 -> spaces s1 = spaces s -> process_spaces s1 = process_spaces s -> mem s1 = mem s ->
    current_space s1 <> Some p ->
    wp (vmm_destroy_address_space (Some p) ;;; set_process_space id None) (fun _ s' => exists own', vinv own' s' /\ mem s' = mem s /\
      (forall f v q, own !! f = Some (OPage q v) -> own' !! f = Some (OPage q v)) /\
      (forall p, arr_get (process_spaces s) id = Some (Some p) -> 0 <= id < 256 -> spaces s' = delete p (spaces s))) s1) as Hend.
  { intros s1 Hv1 Es1 Ep1 Em1 Hcur. apply wp_bind.
    eapply wp_mono; [apply (destroy_space_spec own s1 p sp); [apply Hv1|by rewrite Es1]|]. cbn beta.
    intros [] s2 (Hs2 & Esp2 & Em2 & Hst2 & own2 & Hc2 & Hpg2).
    pose proof (ks_process _ _ Hs2) as Ep2. simpl in Ep2.
    apply wp_set_process; [by rewrite Ep2, Ep1|done|]. exists own2.
    split; [eapply vinv_leave; [exact Hv1|done|done|done|apply Hst2, Hv1|by rewrite Ep1|done]|].
    split; [simpl; congruence|]. split; [done|]. intros p' Ep' _. simpl. rewrite Esp2, Es1. congruence. }
  case_bool_decide as Hc.
  - eapply wp_mono; [apply (switch_spec own s k sk Hv Hsk)|]. cbn beta. intros [] s1 (Hv1 & Ec1 & Es1 & _ & Ep1 & Em1).
    apply Hend; try done. rewrite Ec1. congruence.
  - apply wp_ret. cbn beta. apply Hend; try done. destruct (vi_current _ _ Hv) as (E & _). rewrite <- E. congruence.
Qed.

Lemma switch_process_spec own s id :
  vinv own s -> wp (vmm_switch_to_process id) (fun _ s' => vinv own s' /\ mem s' = mem s /\ spaces s' = spaces s) s.
Proof.
  intros Hv. unfold vmm_switch_to_process. destruct (vi_process _ _ Hv) as (Hl & Hps & _).
  destruct (bad_process id) eqn:Eb; [by wp_steps|].
  destruct (process_slot s id Hl Eb) as (o & Eo & Eget & Hid). wp_steps. eapply wp_process; [exact Eget|].
  destruct o as [p|]; [|by wp_steps]. destruct (Hps _ _ Eo) as [[sp Hsp] _]. wp_steps.
  eapply wp_mono; [by apply (switch_spec own s p sp)|]. cbn beta. intros [] s1 (Hv1 & _ & Es1 & _ & _ & Em1). by wp_steps.
Qed.

Lemma share_spec own s p1 a1 p2 a2 size fl ok :
  vinv own s -> 0 <= a1 < 2 ^ 32 -> 0 <= a2 < 2 ^ 32 ->
  wp (vmm_share_memory p1 a1 p2 a2 size fl ok) (fun _ s' => vinv own s' /\ mem s' = mem s) s.
Proof.
  intros Hv Ha1 Ha2. unfold vmm_share_memory. destruct (vi_process _ _ Hv) as (Hl & Hps & _).
  destruct (bad_process p1) eqn:E1; [by wp_steps|]. destruct (bad_process p2) eqn:E2; [by wp_steps|]. cbn [orb].
  destruct (process_slot s p1 Hl E1) as (o1 & Eo1 & Eg1 & _). destruct (process_slot s p2 Hl E2) as (o2 & Eo2 & Eg2 & _).
  wp_steps. eapply wp_process; [exact Eg1|]. wp_steps. eapply wp_process; [exact Eg2|].
  destruct o1 as [q1|]; [|by wp_steps]. destruct o2 as [q2|]; [|by wp_steps]. cbv zeta.
  destruct (Hps _ _ Eo1) as [[sp1 Hsp1] Hk1]. destruct (Hps _ _ Eo2) as [[sp2 Hsp2] Hk2].
  destruct (page_down_ok a1 Ha1) as [Hd1 _]. destruct (page_down_ok a2 Ha2) as [Hd2 _].
  wp_steps. eapply add_region_grown; [done|exact Hsp1|lia|done|]. intros b1 s1 Hv1 (Hs1 & Em1 & sp1' & Es1 & _).
  wp_steps. pose proof (ks_kernel _ _ Hs1) as Ek1. simpl in Ek1.
  assert (exists sp2', spaces s1 !! q2 = Some sp2') as [sp2' Hsp2'].
  { rewrite Es1. destruct (decide (q1 = q2)) as [->|]; [exists sp1'; apply lookup_insert_eq|exists sp2; by rewrite lookup_insert_ne]. }
  eapply add_region_grown; [done|exact Hsp2'|lia|congruence|]. intros b2 s2 Hv2 (_ & Em2 & _).
  case_if; wp_steps; (split; [done|congruence]).
Qed.

(** ** Setting up *)

Definition kernel_frame : page_frame := mk_frame 7 1.
Definition no_frame : page_frame := mk_frame 0 0.

(** The first [k] frames reserved. *)
Definition reserved (k : nat) (num : Z) : list page_frame :=
  replicate k kernel_frame ++ replicate (Z.to_nat num - k) no_frame.
Arguments reserved : simpl never.

Lemma reserve_frames n k s :
  (Z.of_nat k + Z.of_nat n <= num_frames s <= 2 ^ 18)%Z ->
  page_frames s = reserved k (num_frames s) -> free_frames s = num_frames s - Z.of_nat k ->
  wp (mfor (seqZ (Z.of_nat k) (Z.of_nat n)) reserve_frame) (fun _ s' => same s s' /\ mem s' = mem s /\
    page_frames s' = reserved (k + n) (num_frames s) /\
    free_frames s' = num_frames s - Z.of_nat (k + n)) s.
Proof.
  revert k s. induction n as [|n IH]; intros k s Hn Ep Ef.
  { simpl. rewrite Nat.add_0_r. done. }
  rewrite seqZ_cons by lia. cbn [mfor]. wp_steps. unfold reserve_frame at 1, set_frame. wp_steps.
  rewrite arr_set_some by (rewrite Ep; unfold reserved; rewrite length_app, !length_replicate; lia). cbn [deref]. wp_steps.
  replace (Z.pred (Z.of_nat (S n))) with (Z.of_nat n) by lia. replace (Z.succ (Z.of_nat k)) with (Z.of_nat (S k)) by lia.
  eapply wp_mono; [apply IH; simpl|].
  - lia.
  - rewrite Ep, Nat2Z.id. unfold reserved. change (Z.lor (Z.lor PF_ALLOCATED PF_LOCKED) PF_KERNEL) with 7. fold kernel_frame.
    rewrite insert_app_r_alt by (rewrite length_replicate; lia). rewrite length_replicate, Nat.sub_diag.
    replace (Z.to_nat (num_frames s) - k)%nat with (S (Z.to_nat (num_frames s) - S k)) by lia.
    change (replicate (S k) kernel_frame) with (kernel_frame :: replicate k kernel_frame).
    change (replicate (S (Z.to_nat (num_frames s) - S k)) no_frame) with (no_frame :: replicate (Z.to_nat (num_frames s) - S k) no_frame).
    simpl.
    rewrite app_comm_cons, replicate_cons_app, <- app_assoc. done.
  - rewrite Ef, u32_small by lia. lia.
  - cbn beta. simpl. intros [] s' (Hs & Em & Ep' & Ef'). split; [by destruct Hs; split|].
    replace (k + S n)%nat with (S (k + n))%nat by lia. done.
Qed.

Lemma free_count_reserved k n : free_count (replicate k kernel_frame ++ replicate n no_frame) = n.
Proof.
  unfold free_count. rewrite filter_app, length_app.
  assert (filter (fun f => allocated f = false) (replicate k kernel_frame) = []) as ->.
  { induction k as [|k IH]; [done|]. rewrite replicate_S, filter_cons. by case_decide. }
  assert (filter (fun f => allocated f = false) (replicate n no_frame) = replicate n no_frame) as ->.
  { induction n as [|n IH]; [done|]. rewrite replicate_S, filter_cons. case_decide; [by rewrite IH|done]. }
  by rewrite length_replicate.
Qed.

(** The frames once the kernel's are reserved. *)
Lemma frames_reserved s num :
  256 <= num <= 2 ^ 18 -> num_frames s = num ->
  page_frames s = reserved 256 num ->
  free_frames s = num - 256 -> next_free_frame s = 256 -> frames_ok ∅ s.
Proof.
  intros Hn En Ep Ef Ex. split.
  - lia.
  - rewrite Ep. unfold reserved. rewrite length_app, !length_replicate. lia.
  - intros i Hi. exists kernel_frame. split; [|done]. rewrite Ep. unfold arr_get, reserved.
    destruct (Z.ltb_spec i 0); [lia|]. rewrite lookup_app_l by (rewrite length_replicate; lia).
    apply lookup_replicate_2. lia.
  - intros f o Hf. by apply lookup_empty_Some in Hf.
  - rewrite Ef, Ep. unfold reserved. rewrite free_count_reserved. lia.
  - lia.
Qed.

Lemma mapped_kernel own sps num m k : mapped own sps None num m -> mapped own sps (Some k) num m.
Proof.
  intros [H1 H2 H3]. split; [done|done|]. intros p sp d i t j Hp Hd Hi Ht Hj Hpr.
  destruct (H3 p sp d i t j Hp Hd Hi Ht Hj Hpr) as [Hr Hb]. split; [done|].
  destruct Hb as [?|[(? & _)|?]]; [by left|done|by right; right].
Qed.

(** The identity map of the first 4 MB. *)
Lemma identity_map k d sp n : forall own s i,
  core own (spaces s) s -> spaces s !! k = Some sp -> dir_at sp d -> kernel_space s = Some k ->
  0 <= i -> i + Z.of_nat n <= 1024 -> (i = 0 -> 0 < free_frames s) ->
  (forall u, 0 <= u < i -> entry (mem s) d u = u * 4096 + 3) ->
  wp (mfor (seqZ i (Z.of_nat n)) (fun i =>
        _r <- vmm_map_page (Some k) (i * PAGE_SIZE) (i * PAGE_SIZE) (Z.lor PTE_PRESENT PTE_WRITE) ;; ret tt))
    (fun _ s' => exists own', core own' (spaces s') s' /\ same s s' /\
      (forall u, 0 <= u < i + Z.of_nat n -> entry (mem s') d u = u * 4096 + 3) /\
      (forall u, i + Z.of_nat n <= u < 2 ^ 20 -> entry (mem s') d u = entry (mem s) d u)) s.
Proof.
  induction n as [|n IH]; intros own s i Hc Hsp Hd Hk Hi Hn Hfree Hent.
  { simpl. exists own. split; [done|]. split; [apply same_refl|]. split; [|done]. intros u Hu. apply Hent. lia. }
  rewrite seqZ_cons by lia. cbn [mfor]. wp_steps. unfold PAGE_SIZE at 1 2. change (Z.lor PTE_PRESENT PTE_WRITE) with 3 at 1.
  eapply wp_mono; [apply (map_page_spec own s k sp d i (i * 4096) 3 Hc Hsp Hd)|]; try lia.
  { right. left. split; [done|]. split; [lia|]. by rewrite Z.div_mul. }
  cbn beta. intros r s1 (own1 & _ & Hc1 & Hs1 & _ & Hok & Hres). rewrite Z.div_mul in Hres by lia.
  destruct Hres as [(_ & E0 & _ & Hnp)|[_ He]].
  { exfalso. destruct (Z.eq_dec i 0) as [->|Hne]; [specialize (Hfree eq_refl); lia|].
    specialize (Hent 0 ltac:(lia)). rewrite Z.div_small in Hnp by lia. unfold entry in Hent.
    change (0 / 1024) with 0 in Hent. rewrite Hnp in Hent. lia. }
  wp_steps. replace (Z.pred (Z.of_nat (S n))) with (Z.of_nat n) by lia. replace (Z.succ i) with (i + 1) by lia.
  assert (spaces s1 !! k = Some sp) as Hsp1 by (by rewrite (ks_spaces _ _ Hs1)).
  eapply wp_mono; [apply (IH own1 s1 (i + 1) Hc1 Hsp1 Hd)|]; try lia.
  - by rewrite (ks_kernel _ _ Hs1).
  - intros u Hu. destruct (Z.eq_dec u i) as [->|Hne]; [done|]. rewrite (Hok k sp d u) by (done || lia || congruence).
    apply Hent. lia.
  - cbn beta. intros [] s2 (own2 & Hc2 & Hs2 & Hin & Hout). exists own2. split; [done|]. split; [by eapply same_trans|].
    split; [intros u Hu; apply Hin; lia|]. intros u Hu. rewrite Hout by lia.
    apply (Hok k sp d u); try done; [lia|]. intros [= ->]. lia.
Qed.

(** Reads the fields of a state that is built of updates. *)
Local Ltac fields := cbn [boot_state
    initialized kernel_space current_space page_frames num_frames free_frames next_free_frame stats
    page_fault_handler vmm_initialized vmm_kernel_space vmm_current_space process_spaces aslr spaces mem cr3
    set_initialized set_kernel_space set_current_space set_page_frames set_num_frames set_free_frames
    set_next_free_frame set_stats set_page_fault_handler set_vmm_initialized set_vmm_kernel_space
    set_vmm_current_space set_process_spaces set_aslr set_spaces set_mem set_cr3].

(** What [vmm_init] leaves: the invariant, one space, whose first 1024 pages are mapped to
    the frames of the same number, and no others. *)
Definition booted (own : gmap Z owner) (s : vmm) (a : positive) (num d : Z) : Prop :=
  vinv own s /\ num_frames s = num /\ kernel_space s = Some a /\ current_space s = Some a /\ cr3 s = 4096 * d /\
  (forall p, p <> a -> spaces s !! p = None) /\ process_spaces s = replicate 256 None /\
  (exists sp, spaces s !! a = Some sp /\ dir_at sp d) /\
  (forall u, 0 <= u < 1024 -> entry (mem s) d u = u * 4096 + 3) /\
  (forall u, 1024 <= u < 2 ^ 20 -> entry (mem s) d u = 0).

Lemma vinv_booted own s a sp d r :
  core own (spaces s) s -> stats_ok s -> initialized s = 1 -> page_fault_handler s = DEFAULT_HANDLER ->
  kernel_space s = Some a -> vmm_kernel_space s = Some a -> current_space s = Some a -> vmm_current_space s = Some a ->
  cr3 s = 4096 * d -> spaces s = {[a := sp]} -> dir_at sp d -> (regions sp = [] \/ regions sp = [r]) ->
  region_ok r -> r_start r = 0 -> process_spaces s = replicate 256 None -> Aslr.config_ok (aslr s) -> vinv own s.
Proof.
  intros Hc Hst Hi Hh Hk Hvk Hcu Hvcu Hcr Hsp Hd Hr Hrok Hr0 Hp Ha. split; try done.
  - by right.
  - exists a. rewrite Hsp, lookup_singleton_eq. done.
  - split; [congruence|]. exists a, sp, d. by rewrite Hsp, lookup_singleton_eq.
  - rewrite Hp. split; [apply length_replicate|]. split.
    + intros i p Hi'. by apply lookup_replicate in Hi' as [? _].
    + intros i j p Hi'. by apply lookup_replicate in Hi' as [? _].
  - rewrite Hsp. intros p sp' [<- <-]%lookup_singleton_Some. destruct Hr as [-> | ->].
    + split; [|done]. by split; [apply Forall_nil_2|].
    + split; [split; [by apply Forall_cons_2; [|apply Forall_nil_2]|split; [apply Forall_nil_2|done]]|].
      intros _. by apply Forall_cons_2; [left|apply Forall_nil_2].
Qed.

Lemma booted_intro own s a sp num d r :
  core own (spaces s) s -> spaces s = {[a := sp]} -> dir_at sp d -> (regions sp = [] \/ regions sp = [r]) -> region_ok r ->
  r_start r = 0 -> num_frames s = num -> stats_ok s -> initialized s = 1 ->
  page_fault_handler s = DEFAULT_HANDLER -> kernel_space s = Some a -> vmm_kernel_space s = Some a -> current_space s = Some a ->
  vmm_current_space s = Some a -> cr3 s = 4096 * d -> process_spaces s = replicate 256 None -> Aslr.config_ok (aslr s) ->
  (forall u, 0 <= u < 1024 -> entry (mem s) d u = u * 4096 + 3) ->
  (forall u, 1024 <= u < 2 ^ 20 -> entry (mem s) d u = 0) -> booted own s a num d.
Proof.
  intros Hc Esp Hd Hr Hrok Hr0 En Hst Hi Hh Hk Hvk Hcu Hvcu Hcr Hp Ha Hin Hout.
  split; [by eapply (vinv_booted own s a sp d r)|]. do 4 (split; [done|]).
  split; [intros p Hne; rewrite Esp; by apply lookup_singleton_ne|]. split; [done|].
  split; [|done]. exists sp. by rewrite Esp, lookup_singleton_eq.
Qed.

Lemma vmm_init_spec c m reg kb a rok :
  Aslr.config_ok c -> 258 * 4 <= kb <= 2 ^ 20 ->
  wp (vmm_init kb true (Some a) rok) (fun r s' => r = 0 /\ exists own d, booted own s' a (kb / 4) d) (boot_state c m reg).
Proof.
  intros Hcfg Hkb. assert (258 <= kb / 4 <= 2 ^ 18) as Hnum.
  { split; [apply Z.div_le_lower_bound; lia|apply Z.div_le_upper_bound; lia]. }
  unfold vmm_init. wp_steps. cbn [negb]. wp_steps. change (PAGE_SIZE / 1024) with 4. fields. set (num := kb / 4) in *.
  eapply wp_mono; [apply (reserve_frames 256 0); fields; [lia|unfold reserved; by rewrite Nat.sub_0_r|lia]|]. cbn beta. fields.
  intros [] s1 (Hs1 & Em1 & Ep1 & Ef1). wp_steps. set (s2 := set_next_free_frame 256 s1).
  destruct Hs1 as [Ei Ek Ec En Eh Evi Evk Evc Ep Ea Esp Er]. simpl in Ei, Ek, Ec, En, Eh, Evi, Evk, Evc, Ep, Ea, Esp, Er.
  assert (core ∅ (spaces s2) s2) as Hc2.
  { split; [by apply (frames_reserved _ num); [lia|..]|]. simpl. rewrite Esp.
    split; intros p sp; [intros Hp|intros d i Hp|intros d i t j Hp]; by apply lookup_empty_Some in Hp. }
  eapply wp_mono; [apply (create_space_spec ∅ s2 a Hc2); simpl; by rewrite Esp|]. cbn beta.
  intros r s3 (Hs3 & _ & [(_ & E0 & _)|(d & sp & -> & Hd & Hr & Esp3 & _ & Hc3 & Em3 & Ef3)]); [simpl in E0; lia|].
  wp_steps. set (s4 := set_kernel_space (Some a) s3).
  destruct Hs3 as [Ei3 Ek3 Ec3 En3 Eh3 Evi3 Evk3 Evc3 Ep3 Ea3 _ Er3]. simpl in Ei3, Ek3, Ec3, En3, Eh3, Evi3, Evk3, Evc3, Ep3, Ea3, Er3, Esp3.
  rewrite Esp in Esp3. rewrite Ek in Ek3.
  assert (core {[d := ODir a]} (spaces s4) s4) as Hc4.
  { destruct Hc3 as [[] Hm3]. split; [by split|]. simpl. rewrite Ek3 in Hm3. by apply mapped_kernel. }
  assert (spaces s4 !! a = Some sp) as Hsp4 by (simpl; rewrite Esp3; apply lookup_insert_eq).
  assert (0 < free_frames s4) as Hfree by (simpl in Ef3 |- *; lia).
  eapply wp_mono; [apply (identity_map a d sp 1024 _ s4 0 Hc4 Hsp4 Hd); try done; lia|]. cbn beta.
  intros [] s5 (own5 & Hc5 & Hs5 & Hin & Hout). wp_steps. change (0 + Z.of_nat 1024) with 1024 in Hin, Hout.
  assert (spaces s5 !! a = Some sp) as Hsp5 by (by rewrite (ks_spaces _ _ Hs5)).
  unfold vmm_add_region. cbv zeta. wp_steps. apply wp_space with sp; [done|]. rewrite Hr. cbn [existsb].
  set (kr := mk_region _ _ _ _ _).
  assert (region_ok kr) as Hkr by (vm_compute; split_and!; done).
  destruct Hs5 as [Ei5 Ek5 Ec5 En5 Eh5 Evi5 Evk5 Evc5 Ep5 Ea5 Es5 Er5]. simpl in Ek5, En5, Ep5, Ea5, Es5.
  assert (u32 (page_directory sp - KERNEL_OFFSET) = 4096 * d) as Hcr.
  { pose proof (mapped_dir (c_mapped _ _ _ Hc5) a sp d Hsp5 Hd) as Ho. destruct (core_own_range _ _ _ _ _ Hc5 Ho).
    unfold dir_at in Hd. rewrite Hd, u32_small; lia. }
  pose proof (free_bound _ _ (c_frames _ _ _ Hc5)) as Hfb. rewrite En5, En3, En in Hfb.
  assert (forall u, 1024 <= u < 2 ^ 20 -> entry (mem s5) d u = 0) as Hzero.
  { intros u Hu. rewrite Hout by lia. simpl. rewrite Em3. unfold entry, cleared. rewrite word_clear; [by case_decide|].
    destruct (page_indices u); lia. }
  assert (spaces s5 = {[a := sp]}) as Esp5 by (by rewrite Es5, Esp3).
  destruct rok; cbn [negb].
  - wp_steps. eapply wp_upd_space; [exact Hsp5|]. unfold vmm_switch_address_space. wp_steps.
    eapply wp_space; [simpl; apply lookup_insert_eq|]. wp_steps. split; [done|]. exists own5, d.
    eapply (booted_intro own5 _ a (set_regions [kr] sp) num d kr); simpl; try done.
    + split; [by destruct Hc5 as [[] _]; split|]. simpl.
      apply (mapped_spaces (c_mapped _ _ _ Hc5)). intros p sp' [[<- <-]|[_ Hp]]%lookup_insert_Some; [by exists sp|by exists sp'].
    + rewrite Esp5. apply insert_singleton_eq.
    + by right.
    + congruence.
    + unfold stats_ok. simpl. unfold PAGE_SIZE. rewrite u32_small; lia.
    + congruence.
    + rewrite Ea5, Ea3, Ea. done.
  - wp_steps. unfold vmm_switch_address_space. wp_steps. eapply wp_space; [simpl; exact Hsp5|]. wp_steps.
    split; [done|]. exists own5, d. eapply (booted_intro own5 _ a sp num d kr); simpl; try done.
    + destruct Hc5 as [[] Hm5]. split; [by split|]. done.
    + by left.
    + congruence.
    + unfold stats_ok. simpl. unfold PAGE_SIZE. rewrite u32_small; lia.
    + congruence.
    + rewrite Ea5, Ea3, Ea. done.
Qed.

End VmmProc.
