(* ===== verification/VmmThms.v ===== *)
(** * The virtual memory manager: the properties

    For every state that [vmm_init] and any sequence of calls lead to: no call faults and
    no two pages share a frame ([vmm_isolation]); what a page fault does
    ([page_fault_exact]); the regions of a new process. Also shown: the address space the
    kernel switches to does not map the window it works through, pages of a destroyed
    process stay allocated, and randomisation can drop the region of the libraries. *)

From Stdlib Require Import ZArith Lia Ascii String.
From stdpp Require Import base tactics option gmap numbers strings list.
From S2P Require Import Prelude Aslr Vmm VmmInv VmmOps VmmSafe VmmProc.

Set Default Goal Selector "!".
Local Open Scope Z_scope.
Local Open Scope kernel_scope.

Module VmmThms.
Import Vmm VmmInv VmmOps VmmSafe VmmProc.
#[local] Existing Instance direct_map.

(** ** Histories *)

Inductive call : Type :=
| Alloc (size fl ty : Z) (nm : option string) (ok : bool)
| Free (a size : Z)
| MapPhysical (phys size fl : Z) (nm : option string) (ok : bool)
| PageFault (a err : Z)
| CreateProcess (id : Z) (a : positive) (ok : nat -> bool)
| DestroyProcess (id : Z)
| SwitchProcess (id : Z)
| Share (p1 a1 p2 a2 size fl : Z) (ok : nat -> bool).

Definition run (custom : Z -> Z -> Z -> M vmm bool) (x : call) : M vmm unit :=
  match x with
  | Alloc size fl ty nm ok => _r <- vmm_alloc size fl ty nm ok ;; ret tt
  | Free a size => vmm_free a size
  | MapPhysical phys size fl nm ok => _r <- vmm_map_physical phys size fl nm ok ;; ret tt
  | PageFault a err => _r <- vmm_handle_page_fault custom a err ;; ret tt
  | CreateProcess id a ok => _r <- vmm_create_process_space id (Some a) ok ;; ret tt
  | DestroyProcess id => vmm_destroy_process_space id
  | SwitchProcess id => _r <- vmm_switch_to_process id ;; ret tt
  | Share p1 a1 p2 a2 size fl ok => _r <- vmm_share_memory p1 a1 p2 a2 size fl ok ;; ret tt
  end.

(** What callers owe: addresses are 32 bits wide and are not freed below the first page;
    devices lie behind the memory; two frames are left when a fault comes; a new space is
    at a fresh address. *)
Definition call_ok (s : vmm) (x : call) : Prop :=
  match x with
  | Alloc _ _ _ _ _ | DestroyProcess _ | SwitchProcess _ => True
  | Free a _ => 4096 <= a < 2 ^ 32
  | MapPhysical phys size _ _ _ => num_frames s * 4096 <= phys /\ 0 < size <= 2 ^ 31 /\ phys + size <= 2 ^ 32
  | PageFault a _ => 0 <= a < 2 ^ 32 /\ 2 <= free_frames s
  | CreateProcess _ a _ => spaces s !! a = None
  | Share _ a1 _ a2 _ _ _ => 0 <= a1 < 2 ^ 32 /\ 0 <= a2 < 2 ^ 32
  end.

Section Histories.
Context (custom : Z -> Z -> Z -> M vmm bool).

Lemma run_safe own s x : vinv own s -> call_ok s x -> wp (run custom x) (fun _ s' => exists own', vinv own' s') s.
Proof.
  intros Hv Hx. destruct (vinv_current _ _ Hv) as (c & sp & d & Ec & Esp & Hd & _). destruct x; simpl in Hx; cbn [run]; wp_steps.
  - eapply wp_mono; [by apply (alloc_spec own)|]. cbn beta. intros a s' [Hv' _]. wp_steps. by exists own.
  - destruct (Z.eq_dec size 0) as [->|Hsz].
    { unfold vmm_free. wp_steps. change (0 =? 0) with true. rewrite orb_true_r. wp_steps. by exists own. }
    eapply wp_mono; [by apply (free_spec own s a size c sp d)|]. cbn beta. intros [] s' (own' & Hv' & _). by exists own'.
  - eapply wp_mono; [apply (map_physical_spec own); try done; lia|]. cbn beta. intros a s' (own' & Hv'). wp_steps. by exists own'.
  - unfold vmm_handle_page_fault. wp_steps.
    assert (truth (page_fault_handler s) && negb (page_fault_handler s =? DEFAULT_HANDLER) = false) as ->
      by (destruct (vi_handler _ _ Hv) as [->| ->]; done).
    eapply wp_mono; [apply (page_fault_spec own s a err c sp d); try done; apply Hx|]. cbn beta. intros b s' (own' & Hv' & _).
    wp_steps. by exists own'.
  - eapply wp_mono; [by apply (create_process_spec own)|]. cbn beta. intros r s' (own' & Hv' & _). wp_steps. by exists own'.
  - eapply wp_mono; [by apply (destroy_process_spec own)|]. cbn beta. intros [] s' (own' & Hv' & _). by exists own'.
  - eapply wp_mono; [by apply (switch_process_spec own)|]. cbn beta. intros r s' (Hv' & _). wp_steps. by exists own.
  - eapply wp_mono; [apply (share_spec own); [exact Hv|apply Hx..]|]. cbn beta. intros r s' (Hv' & _). wp_steps. by exists own.
Qed.

(** States after [vmm_init] on a machine with 1032 KB to 1 GB of memory, and after calls. *)
Inductive history : vmm -> Prop :=
| h_init c m reg kb a rok s :
    Aslr.config_ok c -> 258 * 4 <= kb <= 2 ^ 20 -> vmm_init kb true (Some a) rok (boot_state c m reg) = Ret (0, s) -> history s
| h_call s s' x : history s -> call_ok s x -> run custom x s = Ret (tt, s') -> history s'.

Lemma history_vinv s : history s -> exists own, vinv own s.
Proof.
  induction 1 as [c m reg kb a rok s Hc Hkb E|s s' x _ [own Hv] Hx E].
  - pose proof (vmm_init_spec c m reg kb a rok Hc Hkb) as H. unfold wp in H. rewrite E in H.
    destruct H as (_ & own & d & Hb & _). by exists own.
  - pose proof (run_safe own s x Hv Hx) as H. unfold wp in H. by rewrite E in H.
Qed.

(** ** Isolation *)

(** The page [v] of space [p] is mapped to frame [f] of memory; the identity map of the
    kernel does not count. *)
Definition maps (s : vmm) (p : positive) (v f : Z) : Prop :=
  exists sp d, spaces s !! p = Some sp /\ dir_at sp d /\ 0 <= v < 2 ^ 20 /\ (kernel_space s = Some p -> 1024 <= v) /\
    present (entry (mem s) d v) = true /\ entry (mem s) d v / 4096 = f /\ f < num_frames s.

(** Frame [f] holds the page directory or a page table of space [p]. *)
Definition holds_tables (s : vmm) (p : positive) (f : Z) : Prop :=
  exists sp d, spaces s !! p = Some sp /\ dir_at sp d /\
    (f = d \/ exists i, 0 <= i < 1024 /\ present (word (mem s) d i) = true /\ word (mem s) d i / 4096 = f).

Lemma maps_owner own s p v f : vinv own s -> maps s p v f -> own !! f = Some (OPage p v).
Proof.
  intros Hv (sp & d & Hsp & Hd & Hvr & Hk & Hpr & <- & Hlt).
  destruct (entry_backed (c_mapped _ _ _ (vi_core _ _ Hv)) p sp d v Hsp Hd Hvr Hpr) as [_ [?|[(Ek & ? & _)|?]]]; [lia| |done].
  specialize (Hk Ek). lia.
Qed.

Lemma tables_owner own s p f : vinv own s -> holds_tables s p f -> exists o, own !! f = Some o /\ is_table o.
Proof.
  intros Hv (sp & d & Hsp & Hd & Hf). pose proof (c_mapped _ _ _ (vi_core _ _ Hv)) as Hm.
  destruct Hf as [->|(i & Hi & Hpr & <-)].
  - exists (ODir p). split; [by apply (mapped_dir Hm p sp)|done].
  - destruct (mp_tab _ _ _ _ _ Hm p sp d i Hsp Hd Hi Hpr) as (t & Et & Ho). exists (OTab p i).
    by rewrite Et, div_entry.
Qed.

(** Memory isolation: after [vmm_init] and any sequence of calls, every further call
    returns without an undefined access, and in the tables in memory no two pages, of the
    same or of different address spaces, are mapped to the same frame, and no page is
    mapped to a frame that holds a page directory or a page table of any space (the
    identity map of the kernel's first 4 MB and device memory apart). The number of free
    frames that the manager keeps is the number of frames that are not allocated. *)
Theorem vmm_isolation s :
  history s ->
  (forall x, call_ok s x -> exists s', run custom x s = Ret (tt, s') /\ history s') /\
  (forall p v p' v' f, maps s p v f -> maps s p' v' f -> p = p' /\ v = v') /\
  (forall p v q f, maps s p v f -> ~ holds_tables s q f) /\
  free_frames s = Z.of_nat (free_count (page_frames s)).
Proof.
  intros Hh. destruct (history_vinv s Hh) as [own Hv]. split; [|split; [|split]].
  - intros x Hx. destruct (wp_returns _ _ _ (run_safe own s x Hv Hx)) as ([] & s' & E & _).
    exists s'. split; [done|by eapply h_call].
  - intros p v p' v' f H1 H2. apply (maps_owner own) in H1, H2; [|done..]. rewrite H1 in H2. by injection H2.
  - intros p v q f H1 H2. apply (maps_owner own) in H1; [|done]. apply (tables_owner own) in H2 as (o & Ho & Ht); [|done].
    rewrite H1 in Ho. injection Ho as <-. done.
  - apply (fo_free _ _ (c_frames _ _ _ (vi_core _ _ Hv))).
Qed.

Lemma history_after s x : history s -> call_ok s x -> history (after (run custom x) s).
Proof.
  intros Hh Hx. destruct (history_vinv s Hh) as [own Hv].
  destruct (wp_returns _ _ _ (run_safe own s x Hv Hx)) as ([] & s' & E & _). unfold after. rewrite E. by eapply h_call.
Qed.

(** ** Page faults *)

(** Page faults: the manager handles a fault exactly when the address lies in a region
    of the current address space whose permissions allow the access. Then the processor,
    walking the tables from CR3, finds at that address a frame that no page and no table
    used before, present, accessible to user mode and writable when the region is, and
    filled with zeros; every other entry of every address space is as before. Otherwise
    memory is unchanged. *)
Theorem page_fault_exact s a err c sp d :
  history s -> 0 <= a < 2 ^ 32 -> 2 <= free_frames s ->
  current_space s = Some c -> spaces s !! c = Some sp -> dir_at sp d ->
  exists b s', vmm_handle_page_fault custom a err s = Ret (b, s') /\
    (forall q sq dq v, spaces s !! q = Some sq -> dir_at sq dq -> 0 <= v < 2 ^ 20 -> (q, v) <> (c, a / 4096) ->
       entry (mem s') dq v = entry (mem s) dq v) /\
    match List.find (contains a) (regions sp) with
    | Some r =>
        if allowed r err then
          b = true /\ exists f, walk (mem s') (cr3 s') a = Some (f * 4096 + fault_flags r) /\
            (forall q v, ~ maps s q v f /\ ~ holds_tables s q f) /\ forall i, 0 <= i < 1024 -> word (mem s') f i = 0
        else b = false /\ mem s' = mem s
    | None => b = false /\ mem s' = mem s
    end.
Proof.
  intros Hh Ha Hfree Ec Esp Hd. destruct (history_vinv s Hh) as [own Hv].
  destruct (wp_returns _ _ _ (page_fault_spec own s a err c sp d Hv Ha Hfree Ec Esp Hd)) as (b & s' & E & own' & Hv' & Hs & Hok & Hres).
  exists b, s'. split.
  { unfold vmm_handle_page_fault, bind, get.
    by replace (truth (page_fault_handler s) && negb (page_fault_handler s =? DEFAULT_HANDLER)) with false
      by (destruct (vi_handler _ _ Hv) as [->| ->]; done). }
  split; [exact Hok|]. destruct (List.find _ _) as [r|]; [|done]. destruct (allowed r err); [|done].
  destruct Hres as (-> & f & Hof & Hfr & He & Hz). split; [done|]. exists f. split; [|split; [|done]].
  - assert (spaces s' !! c = Some sp) as Hsp' by (by rewrite (ks_spaces _ _ Hs)).
    pose proof (Z.div_mod a 4096 ltac:(lia)) as Ea. pose proof (Z.mod_pos_bound a 4096 ltac:(lia)) as Hm.
    replace a with (a / 4096 * 4096 + a mod 4096) at 1 by lia.
    destruct (vi_current _ _ Hv') as (_ & c' & sp' & d' & Ec' & Esp' & Hd' & ->).
    rewrite (ks_current _ _ Hs) in Ec'. assert (c' = c) as -> by congruence. assert (sp' = sp) as -> by congruence.
    assert (d' = d) as -> by (by eapply dir_at_inj).
    pose proof (fo_num _ _ (c_frames _ _ _ (vi_core _ _ Hv'))) as Hnum.
    rewrite (walk_entry (c_mapped _ _ _ (vi_core _ _ Hv')) c sp d); [|lia| |done|done| |lia].
    + assert (Z.odd (fault_flags r) = true) as Eodd by (unfold fault_flags; by case_match).
      by rewrite He, present_odd, Z.odd_add, Z.odd_mul, andb_false_r, Eodd.
    + intros g o Hg. destruct (core_own_range _ _ _ _ _ (vi_core _ _ Hv') Hg). lia.
    + split; [apply Z.div_pos; lia|apply Z.div_lt_upper_bound; lia].
  - intros q v. split.
    + intros Hq. apply (maps_owner own) in Hq; [congruence|done].
    + intros Hq. apply (tables_owner own) in Hq as (o & Ho & _); [congruence|done].
Qed.

(** ** Processes *)

(** Frames of a dead process: [vmm_destroy_process_space] frees the directory and the
    tables of the space, and no page: each frame that the process had mapped stays
    allocated for ever, although no page of any space is mapped to it any more. *)
Theorem destroy_leaks_pages s id p v f :
  history s -> 0 <= id < 256 -> arr_get (process_spaces s) id = Some (Some p) -> maps s p v f ->
  exists s', vmm_destroy_process_space id s = Ret (tt, s') /\ spaces s' !! p = None /\
    arr_get (page_frames s') f = Some owned_frame /\ forall q u, ~ maps s' q u f.
Proof.
  intros Hh Hid Hp Hmf. destruct (history_vinv s Hh) as [own Hv]. pose proof (maps_owner own s p v f Hv Hmf) as Hof.
  destruct (wp_returns _ _ _ (destroy_process_spec own s id Hv)) as ([] & s' & E & own' & Hv' & _ & Hpg & Hsp).
  specialize (Hsp p Hp Hid). exists s'. split; [done|]. split; [rewrite Hsp; apply lookup_delete_eq|].
  specialize (Hpg f v p Hof). split; [apply (fo_own _ _ (c_frames _ _ _ (vi_core _ _ Hv')) f _ Hpg)|].
  intros q u Hq. pose proof (maps_owner own' s' q u f Hv' Hq) as Ho. rewrite Hpg in Ho. injection Ho as <- <-.
  destruct Hq as (sp & d & Hsp' & _). by rewrite Hsp, lookup_delete_eq in Hsp'.
Qed.

End Histories.

(** The kernel's window: the address space that [vmm_init] switches to maps nothing
    above the first 4 MB, so none of the addresses [0xC0000000 + x] through which the
    manager reaches its own page tables is mapped once CR3 is loaded. *)
Theorem kernel_window_unmapped c m reg kb a rok s x :
  Aslr.config_ok c -> 258 * 4 <= kb <= 2 ^ 20 -> vmm_init kb true (Some a) rok (boot_state c m reg) = Ret (0, s) ->
  0 <= x < 2 ^ 30 -> walk (mem s) (cr3 s) (KERNEL_OFFSET + x) = None.
Proof.
  intros Hc Hkb E Hx. pose proof (vmm_init_spec c m reg kb a rok Hc Hkb) as H. unfold wp in H. rewrite E in H.
  destruct H as (_ & own & d & Hv & _ & _ & _ & -> & _ & _ & (sp & Hsp & Hd) & _ & Hz).
  pose proof (Z.div_mod x 4096 ltac:(lia)) as Ex. pose proof (Z.mod_pos_bound x 4096 ltac:(lia)) as Hm.
  assert (0 <= x / 4096 < 2 ^ 18) as Hd4 by (split; [apply Z.div_pos; lia|apply Z.div_lt_upper_bound; lia]).
  replace (KERNEL_OFFSET + x) with ((0xC0000 + x / 4096) * 4096 + x mod 4096) by (unfold KERNEL_OFFSET; lia).
  pose proof (fo_num _ _ (c_frames _ _ _ (vi_core _ _ Hv))) as Hnum.
  rewrite (walk_entry (c_mapped _ _ _ (vi_core _ _ Hv)) a sp d); [|lia| |done|done|lia|lia].
  - by rewrite Hz by lia.
  - intros g o Hg. destruct (core_own_range _ _ _ _ _ (vi_core _ _ Hv) Hg). lia.
Qed.

(** *** The manager on the machine *)

(** Nothing is mapped at 0xC0000000 and above. *)
Definition window_unmapped (s : vmm) : Prop :=
  forall x, 0 <= x < 2 ^ 30 -> walk (mem s) (cr3 s) (KERNEL_OFFSET + x) = None.

Lemma fault_bind {A B} (m : M vmm A) (k : A -> M vmm B) s : m s = Fault -> bind m k s = Fault.
Proof. unfold bind. by intros ->. Qed.

Lemma fault_modify {B} f (k : unit -> M vmm B) s : k tt (f s) = Fault -> bind (modify f) k s = Fault.
Proof. done. Qed.

Lemma fault_after {A B} (m : M vmm A) (k : A -> M vmm B) (Q : A -> vmm -> Prop) s :
  wp m Q s -> (forall a s', Q a s' -> k a s' = Fault) -> bind m k s = Fault.
Proof. unfold wp, bind. destruct (m s) as [[a s']| |]; [auto|done..]. Qed.

Lemma window_faults s a : window_unmapped s -> KERNEL_OFFSET <= a < 2 ^ 32 -> through_cr3 a s = Fault.
Proof.
  intros Hw Ha. unfold through_cr3, bind, get. replace a with (KERNEL_OFFSET + (a - KERNEL_OFFSET)) by lia.
  by rewrite Hw by (unfold KERNEL_OFFSET in *; lia).
Qed.

Lemma space_run s a sp : spaces s !! a = Some sp -> Vmm.space_at (Some a) s = Ret (sp, s).
Proof. intros Ha. unfold Vmm.space_at, bind, get. cbn. by rewrite Ha. Qed.

Lemma upd_space_run s a sp f : spaces s !! a = Some sp ->
  upd_space (Some a) f s = Ret (tt, set_spaces (<[a := f sp]> (spaces s)) s).
Proof. intros Ha. unfold upd_space. unfold bind at 1, deref at 1, ret at 1. by rewrite (bind_run _ _ _ _ _ (space_run s a sp Ha)). Qed.

(** [vmm_create_address_space] with a free frame: the first access to the new directory. *)
Lemma create_space_faults own s a : frames_ok own s -> 0 < free_frames s -> window_unmapped s ->
  vmm_create_address_space (mmu := through_cr3) (Some a) s = Fault.
Proof.
  intros Hf H0 Hw. unfold vmm_create_address_space. set (s0 := set_spaces (<[a := mk_space 0 [] 0]> (spaces s)) s).
  apply (fault_after _ _ (fun _ s' => s' = s0)); [by wp_steps|]. intros [] s' ->.
  eapply fault_after; [apply (alloc_frame_spec own), frames_spaces, Hf|]. fold s0.
  intros r s1 ([Hs1 Em1] & Hf1 & _ & [(_ & E0 & _)|(d & -> & Hdr & _)]); [simpl in E0; lia|].
  pose proof (fo_num _ _ Hf1) as Hn1. rewrite (ks_num _ _ Hs1) in Hn1. simpl in Hn1, Hdr.
  destruct (Z.eqb_spec (d * 4096) 0); [lia|]. cbv zeta.
  assert (spaces s1 !! a = Some (mk_space 0 [] 0)) as Ha1 by (rewrite (ks_spaces _ _ Hs1); apply lookup_insert_eq).
  rewrite (bind_run _ _ _ _ _ (upd_space_run s1 a _ _ Ha1)). apply fault_bind.
  rewrite u32_small by (unfold KERNEL_OFFSET; lia). apply window_faults; [|unfold KERNEL_OFFSET; lia].
  intros x Hx. simpl. rewrite Em1, (ks_cr3 _ _ Hs1). by apply Hw.
Qed.

(** C38. The manager of address spaces cannot run on tables that map nothing at 0xC0000000
    and above, where it looks for page directories and tables. In every state where CR3 maps
    nothing there (under the 4 MB table that kernel.c loads, for one), [vmm_init] with more
    than 1 MB and at most 1 GB of memory, and with memory for its own structures, faults
    when it clears its first page directory. Mapping or unmapping a page of an address
    space whose directory has an address there, as [vmm_create_address_space] sets it,
    and destroying such a space fault at the page directory. *)
Theorem vmm_cannot_reach_tables s : window_unmapped s ->
  (forall kb a rok, 257 * 4 <= kb <= 2 ^ 20 -> vmm_init (mmu := through_cr3) kb true (Some a) rok s = Fault) /\
  (forall a sp virt phys fl, spaces s !! a = Some sp -> KERNEL_OFFSET <= page_directory sp < 2 ^ 32 ->
     vmm_map_page (mmu := through_cr3) (Some a) virt phys fl s = Fault /\
     vmm_unmap_page (mmu := through_cr3) (Some a) virt s = Fault /\
     vmm_destroy_address_space (mmu := through_cr3) (Some a) s = Fault).
Proof.
  intros Hw. split.
  - intros kb a rok Hkb. assert (257 <= kb / 4 <= 2 ^ 18) as Hnum.
    { split; [apply Z.div_le_lower_bound; lia|apply Z.div_le_upper_bound; lia]. }
    unfold vmm_init. do 3 apply fault_modify. cbn [negb]. apply fault_modify.
    match goal with |- bind _ _ ?x = _ => set (s1 := x) end.
    assert (num_frames s1 = kb / 4 /\ free_frames s1 = kb / 4 /\ page_frames s1 = reserved 0 (kb / 4) /\
      mem s1 = mem s /\ cr3 s1 = cr3 s) as (En1 & Ef1 & Ep1 & Em1 & Ec1).
    { unfold s1, reserved. simpl. by rewrite Nat.sub_0_r. }
    clearbody s1.
    eapply fault_after.
    { apply (reserve_frames 256 0 s1); [lia|by rewrite En1|lia]. }
    intros [] s2 (Hs2 & Em2 & Ep2 & Ef2). rewrite En1 in Ep2, Ef2. pose proof (ks_num _ _ Hs2) as En2. rewrite En1 in En2.
    apply fault_modify, fault_bind, (create_space_faults ∅).
    + apply (frames_reserved _ (kb / 4)); [lia|done..].
    + simpl. lia.
    + intros x Hx. simpl. rewrite Em2, Em1, (ks_cr3 _ _ Hs2), Ec1. by apply Hw.
  - intros a sp virt phys fl Ha Hd. unfold vmm_map_page, vmm_unmap_page, vmm_destroy_address_space.
    rewrite !(bind_run _ _ _ _ _ (space_run s a sp Ha)), (bind_run _ _ _ _ _ (upd_space_run s a sp _ Ha)).
    split; [by apply fault_bind, window_faults|]. split; [by apply fault_bind, window_faults|].
    erewrite (bind_run _ _ _ (set_regions [] sp)) by (apply space_run; apply lookup_insert_eq).
    by apply fault_bind, window_faults.
Qed.

(** ** The layout of a process *)

Lemma page_down_mul n o : 0 <= o < 4096 -> page_down (n * 4096 + o) = n * 4096.
Proof. intros Ho. unfold page_down, PAGE_SIZE. rewrite Z.div_add_l, (Z.div_small o); lia. Qed.

Lemma page_up_mul n o : 0 < o <= 4096 -> 0 <= n * 4096 -> n * 4096 + 8192 <= 2 ^ 32 -> page_up (n * 4096 + o) = (n + 1) * 4096.
Proof.
  intros Ho Hn Hle. unfold page_up, PAGE_SIZE. rewrite u32_small by lia.
  replace (n * 4096 + o + 4096 - 1) with ((n + 1) * 4096 + (o - 1)) by lia. rewrite Z.div_add_l, (Z.div_small (o - 1)); lia.
Qed.

(** The layout in pages. *)
Lemma layout_pages c h m l t : layout c h m l t -> Aslr.entropy_bits c <= 15 ->
  exists nh nm nl nt, 0 <= nh < 0xFFF /\ 0 <= nm < 0x8000 /\ 0 <= nl < 0xFFF /\ 0 <= nt < 0xFFF /\
    h = (0x8400 + nh) * 4096 /\ m = (0x30000 + nm) * 4096 /\ l = (0x40000 + nl) * 4096 /\ t = (0xBFFFF - nt) * 4096 + 4095.
Proof.
  intros (Hh & Hm & Hl & Ht) He.
  assert (forall base ty a, Aslr.address_of c base ty a -> exists n, 0 <= n < 0x8000 /\
    (forall mx, Aslr.max_pages ty = Some mx -> 0 < mx -> n < mx) /\ a = u32 (if ty =? Aslr.ASLR_STACK_OFFSET then base - n * 4096 else base + n * 4096)) as Hn.
  { intros base ty x (o & (n & -> & Hp & Hmx) & ->). exists n. split; [|split; [|done]].
    - assert (2 ^ Aslr.entropy_bits c <= 2 ^ 15) by (apply Z.pow_le_mono_r; lia). lia.
    - intros mx Emx Hpos. destruct (Z.eq_dec n 0) as [->|]; [done|]. destruct Hmx as (m' & Em' & Hlt); [unfold Aslr.PAGE_SIZE; lia|].
      rewrite Emx in Em'. by injection Em' as <-. }
  apply Hn in Hh as (nh & R1 & M1 & ->), Hm as (nm & R2 & _ & ->), Hl as (nl & R3 & M3 & ->), Ht as (nt & R4 & M4 & ->).
  specialize (M1 Aslr.MAX_HEAP_DELTA eq_refl eq_refl). specialize (M3 Aslr.MAX_LIB_DELTA eq_refl eq_refl).
  specialize (M4 Aslr.MAX_STACK_DELTA eq_refl eq_refl). unfold Aslr.MAX_HEAP_DELTA, Aslr.MAX_LIB_DELTA, Aslr.MAX_STACK_DELTA in *.
  exists nh, nm, nl, nt.
  change (Aslr.ASLR_HEAP_OFFSET =? _) with false. change (Aslr.ASLR_MMAP_OFFSET =? _) with false.
  change (Aslr.ASLR_LIB_OFFSET =? _) with false. change (Aslr.ASLR_STACK_OFFSET =? _) with true. cbv iota.
  rewrite !u32_small by lia. lia.
Qed.

(** Regions of pages [n] to [k]. *)
Lemma existsb_no_overlap a b l : Forall (fun r => b <= r_start r \/ r_end r <= a) l -> existsb (overlaps a b) l = false.
Proof.
  induction 1 as [|r l Hr _ IH]; [done|]. simpl. rewrite IH, orb_false_r. unfold overlaps.
  apply andb_false_iff. rewrite !Z.ltb_ge. lia.
Qed.

Lemma try_add_fits r l : Forall (fun q => r_end r <= r_start q \/ r_end q <= r_start r) l -> try_add true r l = r :: l.
Proof. intros H. unfold try_add. by rewrite existsb_no_overlap. Qed.

(** The pages that the regions of a process take. *)
Lemma region_pages c h m l t : layout c h m l t -> Aslr.entropy_bits c <= 15 ->
  exists nh nm nl nt, 0 <= nh < 0xFFF /\ 0 <= nm < 0x8000 /\ 0 <= nl < 0xFFF /\ 0 <= nt < 0xFFF /\
    h = (0x8400 + nh) * 4096 /\ m = (0x30000 + nm) * 4096 /\ l = (0x40000 + nl) * 4096 /\ t = (0xBFFFF - nt) * 4096 + 4095 /\
    r_start (heap_region h) = h /\ r_end (heap_region h) = h + 0x400000 /\
    r_start (shared_region m) = m /\ r_end (shared_region m) = m + 0x1000000 /\
    r_start (library_region l) = l /\ r_end (library_region l) = l + 0x4000000 /\
    r_start (stack_region t) = t - 0x100FFF /\ r_end (stack_region t) = t + 1.
Proof.
  intros Hl He. destruct (layout_pages _ _ _ _ _ Hl He) as (nh & nm & nl & nt & R1 & R2 & R3 & R4 & -> & -> & -> & ->).
  exists nh, nm, nl, nt. repeat (split; [done|]). cbn [r_start r_end heap_region shared_region library_region stack_region].
  rewrite !u32_small by lia.
  replace ((0x8400 + nh) * 4096 + 4 * 1024 * 1024) with ((0x8400 + nh + 1023) * 4096 + 4096) by lia.
  replace ((0x30000 + nm) * 4096 + 16 * 1024 * 1024) with ((0x30000 + nm + 4095) * 4096 + 4096) by lia.
  replace ((0x40000 + nl) * 4096 + 64 * 1024 * 1024) with ((0x40000 + nl + 16383) * 4096 + 4096) by lia.
  replace ((0xBFFFF - nt) * 4096 + 4095 - 1024 * 1024) with ((0xBFEFF - nt) * 4096 + 4095) by lia.
  rewrite !page_up_mul by lia. rewrite (page_down_mul (0xBFEFF - nt)) by lia.
  pose proof (fun n => page_down_mul n 0 ltac:(lia)) as H0. setoid_rewrite Z.add_0_r in H0. rewrite !H0. lia.
Qed.

Definition disjoint_regions (a b : vm_region) : Prop := r_end a <= r_start b \/ r_end b <= r_start a.

(** The address space of a new process: with at most 15 bits of entropy (the
    default is 16), a frame left and the slot of the process free, process creation
    succeeds whatever values the random generator delivers, and gives the process its
    five regions, none of them overlapping another: code from 0x08048000 to 0x08400000,
    4 MB of heap, 16 MB of shared memory, 64 MB of libraries and a stack of 1 MB and a
    page; the bases lie where the layout says. *)
Theorem process_layout_complete custom s id a :
  history custom s -> spaces s !! a = None -> 0 < free_frames s -> 0 <= id < 256 ->
  arr_get (process_spaces s) id = Some None -> Aslr.entropy_bits (aslr s) <= 15 ->
  exists s' sp h m l t, vmm_create_process_space id (Some a) (fun _ => true) s = Ret (0, s') /\
    process_spaces s' !! Z.to_nat id = Some (Some a) /\ spaces s' !! a = Some sp /\
    layout (aslr s) h m l t /\
    regions sp = [stack_region t; library_region l; shared_region m; heap_region h; code_region] /\
    ForallOrdPairs disjoint_regions (regions sp) /\
    Forall2 (fun r n => r_end r - r_start r = n) (regions sp) [0x101000; 0x4000000; 0x1000000; 0x400000; 0x3B8000].
Proof.
  intros Hh Ha Hfree Hid Hslot He. destruct (history_vinv custom s Hh) as [own Hv].
  destruct (wp_returns _ _ _ (create_process_spec own s id a (fun _ => true) Hv Ha))
    as (r & s' & E & own' & _ & [(_ & _ & [Hb|[[p Hp]|H0]])|(-> & _ & Hps & h & m & l & t & sp & Hlay & Hsp & Hr)]); [|congruence|lia|].
  { exfalso. unfold bad_process, MAX_PROCESSES in Hb. bools; lia. }
  exists s', sp, h, m, l, t. do 4 (split; [done|]).
  destruct (region_pages _ _ _ _ _ Hlay He) as (nh & nm & nl & nt & R1 & R2 & R3 & R4 & E1 & E2 & E3 & E4 & S1 & F1 & S2 & F2 & S3 & F3 & S4 & F4).
  assert (regions sp = [stack_region t; library_region l; shared_region m; heap_region h; code_region]) as ->.
  { rewrite Hr. unfold process_regions.
    rewrite (try_add_fits code_region) by constructor.
    rewrite (try_add_fits (heap_region h)), (try_add_fits (shared_region m)), (try_add_fits (library_region l)), (try_add_fits (stack_region t));
      [done|repeat constructor; cbn [r_start r_end code_region]; lia..]. }
  split; [done|]. split; [repeat constructor; unfold disjoint_regions; cbn [r_start r_end code_region]; lia|].
  repeat constructor; cbn [r_start r_end code_region]; lia.
Qed.

(** A machine of 4 MB after [vmm_init]; its kernel space is at address 1. *)
Definition sample (c : Aslr.config) : vmm := after (vmm_init 4096 true (Some 1%positive) true) (boot_state c (fun _ => 0) 0).

Definition seeded (bits seed : Z) : Aslr.config := Aslr.mk_config 1 bits 63 0 0 seed.

Lemma seeded_ok bits seed : 0 <= bits <= 24 -> 0 <= seed < 2 ^ 64 -> Aslr.config_ok (seeded bits seed).
Proof. by intros ? ?; split; [|split]. Qed.

Lemma sample_run c : Aslr.config_ok c ->
  vmm_init 4096 true (Some 1%positive) true (boot_state c (fun _ => 0) 0) = Ret (0, sample c).
Proof.
  intros Hc. destruct (wp_returns _ _ _ (vmm_init_spec c (fun _ => 0) 0 4096 1 true Hc ltac:(lia))) as (r & s' & E & -> & _).
  unfold sample, after. by rewrite E.
Qed.

Lemma sample_history custom c : Aslr.config_ok c -> history custom (sample c).
Proof. intros Hc. apply (h_init custom c (fun _ => 0) 0 4096 1 true _ Hc ltac:(lia)). by apply sample_run. Qed.

Definition no_handler : Z -> Z -> Z -> M vmm bool := fun _ _ _ => ret false.

(** The default entropy is one bit too many: with 16 bits, as [aslr_init] sets them,
    and the seed 51, the shared memory is put at 0x3F3AB000 and its 16 MB reach into the
    libraries at 0x4021B000; [vmm_create_process_space] ignores that [vmm_add_region]
    failed and returns success for a process without a region for its libraries. *)
Theorem aslr_drops_libraries :
  exists s s' sp, history no_handler s /\ Aslr.entropy_bits (aslr s) = 16 /\
    vmm_create_process_space 3 (Some 2%positive) (fun _ => true) s = Ret (0, s') /\ spaces s' !! 2%positive = Some sp /\
    forall r, r ∈ regions sp -> r_type r <> VM_TYPE_MODULE.
Proof.
  pose (s := sample (seeded 16 51)).
  pose (res := vmm_create_process_space 3 (Some 2%positive) (fun _ => true) s).
  assert (exists s' sp, res = Ret (0, s') /\ spaces s' !! 2%positive = Some sp /\
    forallb (fun r => negb (r_type r =? VM_TYPE_MODULE)) (regions sp) = true) as (s' & sp & E & Esp & Hall).
  { assert (match res with
            | Ret (z, s') => (z =? 0) && match spaces s' !! 2%positive with
                                         | Some sp => forallb (fun r => negb (r_type r =? VM_TYPE_MODULE)) (regions sp)
                                         | None => false
                                         end
            | _ => false
            end = true) as H by (vm_compute; reflexivity).
    destruct res as [[z s']| |]; [|done..]. apply andb_prop in H as [->%Z.eqb_eq H]. exists s'.
    destruct (spaces s' !! 2%positive) as [sp|]; [|done]. by exists sp. }
  exists s, s', sp. split; [apply sample_history, seeded_ok; lia|]. split; [vm_compute; reflexivity|]. split; [done|]. split; [done|].
  intros r Hr. rewrite forallb_forall in Hall. apply list_elem_of_In, Hall in Hr. by apply negb_true_iff, Z.eqb_neq in Hr.
Qed.

(** ** A run *)

(** Process 3 is created and entered, and touches its first page of code. *)
Definition fresh : vmm := sample (seeded 15 51).
Definition created : vmm := after (run no_handler (CreateProcess 3 2%positive (fun _ => true))) fresh.
Definition entered : vmm := after (run no_handler (SwitchProcess 3)) created.
Definition faulted : vmm := after (run no_handler (PageFault 0x08048000 4)) entered.

Lemma fresh_history : history no_handler fresh.
Proof. apply sample_history, seeded_ok; lia. Qed.

Lemma entered_history : history no_handler entered.
Proof.
  apply history_after; [|exact I]. apply history_after; [apply fresh_history|]. vm_compute. reflexivity.
Qed.

Lemma faulted_history : history no_handler faulted.
Proof. apply history_after; [apply entered_history|]. split; [lia|]. vm_compute. discriminate. Qed.

Definition space_at (s : vmm) (p : positive) : address_space := default (mk_space 0 [] 0) (spaces s !! p).

Definition code_frame : Z := 259.

Lemma faulted_maps : maps faulted 2%positive 0x8048 code_frame.
Proof.
  exists (space_at faulted 2%positive), 258. split; [vm_compute; reflexivity|]. split; [vm_compute; reflexivity|]. split; [lia|].
  split; [vm_compute; discriminate|]. split; [vm_compute; reflexivity|]. split; vm_compute; reflexivity.
Qed.

Lemma vmm_isolation_witness :
  history no_handler faulted /\ maps faulted 2%positive 0x8048 code_frame /\
  free_frames faulted = Z.of_nat (free_count (page_frames faulted)) /\
  forall p v, maps faulted p v code_frame -> 2%positive = p /\ 0x8048 = v.
Proof.
  destruct (vmm_isolation no_handler faulted faulted_history) as (_ & Hinj & _ & Hfree).
  split; [exact faulted_history|]. split; [exact faulted_maps|]. split; [exact Hfree|].
  intros p v H. exact (Hinj _ _ _ _ _ faulted_maps H).
Defined.

Lemma page_fault_exact_witness :
  exists s', vmm_handle_page_fault no_handler 0x08048000 4 entered = Ret (true, s') /\
    exists f, walk (mem s') (cr3 s') 0x08048000 = Some (f * 4096 + 5) /\ forall i, 0 <= i < 1024 -> word (mem s') f i = 0.
Proof.
  destruct (page_fault_exact no_handler entered 0x08048000 4 2%positive (space_at entered 2%positive) 258 entered_history)
    as (b & s' & E & _ & H); [lia|vm_compute; discriminate|vm_compute; reflexivity..|].
  assert (List.find (contains 0x08048000) (regions (space_at entered 2%positive)) = Some code_region) as Hf by (vm_compute; reflexivity).
  rewrite Hf in H. destruct H as (-> & f & Hw & _ & Hz). exists s'. split; [exact E|]. exists f. split; [exact Hw|exact Hz].
Defined.

Lemma destroy_leaks_pages_witness :
  exists s', vmm_destroy_process_space 3 faulted = Ret (tt, s') /\ arr_get (page_frames s') code_frame = Some owned_frame /\
    forall q u, ~ maps s' q u code_frame.
Proof.
  destruct (destroy_leaks_pages no_handler faulted 3 2%positive 0x8048 code_frame faulted_history) as (s' & E & _ & H1 & H2);
    [lia|vm_compute; reflexivity|exact faulted_maps|].
  exists s'. split; [exact E|]. split; [exact H1|exact H2].
Defined.

Lemma kernel_window_unmapped_witness : walk (mem fresh) (cr3 fresh) (KERNEL_OFFSET + 257 * 4096) = None.
Proof.
  apply (kernel_window_unmapped (seeded 15 51) (fun _ => 0) 0 4096 1 true); [apply seeded_ok; lia|lia| |lia].
  apply sample_run, seeded_ok; lia.
Defined.

(** The tables that [initialize_paging] of kernel.c loads: the first 4 MB, at 0x1000. *)
Definition boot_tables (x : Z) : Z :=
  if x =? 0x1000 then 0x2003 else if (0x2000 <=? x) && (x <? 0x3000) then (x - 0x2000) / 4 * 4096 + 3 else 0.

Lemma vmm_cannot_reach_tables_witness :
  vmm_init (mmu := through_cr3) 4096 true (Some 1%positive) true (boot_state (seeded 15 51) boot_tables 0x1000) = Fault.
Proof.
  apply (proj1 (vmm_cannot_reach_tables (boot_state (seeded 15 51) boot_tables 0x1000)
    ltac:(intros x Hx; unfold walk; cbn [mem cr3 boot_state]; unfold boot_tables, pd_index, KERNEL_OFFSET;
          rewrite Z.shiftr_div_pow2 by lia;
          assert (768 <= (0xC0000000 + x) / 2 ^ 22 < 1024) by (split; [apply Z.div_le_lower_bound; lia|apply Z.div_lt_upper_bound; lia]);
          destruct (Z.eqb_spec (0x1000 + 4 * ((0xC0000000 + x) / 2 ^ 22)) 0x1000); [lia|];
          destruct (Z.leb_spec 0x2000 (0x1000 + 4 * ((0xC0000000 + x) / 2 ^ 22))); [lia|reflexivity]))). lia.
Defined.

Lemma process_layout_complete_witness :
  exists s' sp, vmm_create_process_space 3 (Some 2%positive) (fun _ => true) fresh = Ret (0, s') /\
    spaces s' !! 2%positive = Some sp /\ length (regions sp) = 5%nat /\ ForallOrdPairs disjoint_regions (regions sp).
Proof.
  destruct (process_layout_complete no_handler fresh 3 2%positive fresh_history) as (s' & sp & h & m & l & t & E & _ & Hsp & _ & Hr & Hd & _);
    [vm_compute; reflexivity|vm_compute; reflexivity|lia|vm_compute; reflexivity|vm_compute; discriminate|].
  exists s', sp. split; [exact E|]. split; [exact Hsp|]. split; [rewrite Hr; reflexivity|exact Hd].
Defined.

End VmmThms.
