(* ===== verification/VfsPath.v ===== *)
(** * Paths of the virtual file system ([filesystem/vfs/vfs.c])

    The string functions of the VFS: normalisation into a 256-byte buffer, the
    prefix test between mount points and paths, and the path relative to a mount
    point. A C string is the list of its characters, without the terminating
    NUL; [path[i]] beyond its end is that NUL. *)

From Stdlib Require Import ZArith Lia Ascii String.
From stdpp Require Import base tactics option list strings.
From S2P Require Import Prelude.

Set Default Goal Selector "!".

Module VfsPath.

Abbreviation path := (list ascii) (only parsing).

Definition VFS_MAX_PATH : nat := 256.
Definition NUL : ascii := Ascii.zero.
Definition slash : ascii := "/"%char.
Definition dot : ascii := "."%char.

(** [s[i]] *)
Definition char_at (s : path) (i : nat) : ascii := nth i s NUL.
Definition ceq (c d : ascii) : bool := bool_decide (c = d).

(** ** Functions *)

(** The string [vfs_copy_path] leaves in [dest]. *)
Definition vfs_copy_path (src : path) (max_len : nat) : path := take (max_len - 1) src.

Fixpoint vfs_strcmp (s1 s2 : path) : Z :=
  match s1, s2 with
  | c1 :: r1, c2 :: r2 =>
      if ceq c1 c2 then vfs_strcmp r1 r2 else (Z.of_nat (nat_of_ascii c1) - Z.of_nat (nat_of_ascii c2))%Z
  | c1 :: _, [] => Z.of_nat (nat_of_ascii c1)
  | [], c2 :: _ => (- Z.of_nat (nat_of_ascii c2))%Z
  | [], [] => 0%Z
  end.

Definition vfs_is_root_path (s : path) : bool := ceq (char_at s 0) slash && ceq (char_at s 1) NUL.
Definition vfs_is_absolute_path (s : path) : bool := ceq (char_at s 0) slash.

(** [while (len > 0 && normalized[len-1] != '/') len--], the output reversed. *)
Fixpoint drop_component (rout : path) : path :=
  match rout with
  | c :: r => if ceq c slash then rout else drop_component r
  | [] => []
  end.

(** The main loop: [rout] is the output so far, last character first. *)
Fixpoint normalize_loop (fuel : nat) (p : path) (max_len i : nat) (rout : path) : path :=
  match fuel with
  | O => rout
  | S f =>
      let c := char_at p i in
      if ceq c NUL || negb (length rout <? max_len - 1)%nat then rout
      else
        let first := (i =? 0)%nat || ceq (char_at p (i - 1)) slash in
        if ceq c slash && first then normalize_loop f p max_len (i + 1) rout
        else
          let c1 := char_at p (i + 1) in
          let c2 := char_at p (i + 2) in
          if ceq c dot && first && (ceq c1 slash || ceq c1 NUL)
          then normalize_loop f p max_len (i + (if ceq c1 slash then 2 else 1)) rout
          else if ceq c dot && first && ceq c1 dot && (ceq c2 slash || ceq c2 NUL)
          then
            let rout' := if (1 <? length rout)%nat then drop_component (tl rout) else rout in
            normalize_loop f p max_len (i + (if ceq c2 slash then 3 else 2)) rout'
          else normalize_loop f p max_len (i + 1) (c :: rout)
  end.

(** Each round of the loop advances in the path, so that its length bounds them. *)
Definition vfs_normalize_path (p : path) (max_len : nat) : path :=
  let rout := if ceq (char_at p 0) slash then [] else [slash] in
  let rout := normalize_loop (S (length p)) p max_len 0 rout in
  let rout := if (length rout =? 0)%nat then [slash] else rout in
  let rout := if (1 <? length rout)%nat && ceq (hd NUL rout) slash then tl rout else rout in
  rev rout.

Fixpoint vfs_path_is_prefix (prefix p : path) : bool :=
  match prefix with
  | c :: r =>
      match p with
      | d :: p' => if ceq c d then vfs_path_is_prefix r p' else false
      | [] => false
      end
  | [] => match p with [] => true | d :: _ => ceq d slash end
  end.

Definition vfs_extract_relative_path (full mount_point : path) (max_len : nat) : path :=
  let rel := drop (length mount_point) (vfs_normalize_path full VFS_MAX_PATH) in
  match rel with
  | [] => [slash]
  | c :: r => slash :: vfs_copy_path (if ceq c slash then r else rel) (max_len - 1)
  end.

Arguments vfs_copy_path : simpl never.
Arguments vfs_normalize_path : simpl never.
Arguments vfs_extract_relative_path : simpl never.

(** ** Facts *)

Definition nulfree (p : path) : Prop := NUL ∉ p.
Definition slashfree (p : path) : Prop := slash ∉ p.

Lemma ceq_true c d : ceq c d = true <-> c = d.
Proof. apply bool_decide_eq_true. Qed.
Lemma ceq_false c d : ceq c d = false <-> c <> d.
Proof. apply bool_decide_eq_false. Qed.
Lemma ceq_refl c : ceq c c = true.
Proof. by apply ceq_true. Qed.
Lemma ceq_ne c d : c <> d -> ceq c d = false.
Proof. apply ceq_false. Qed.

Lemma strcmp_eq s1 s2 : nulfree s1 -> nulfree s2 -> vfs_strcmp s1 s2 = 0%Z <-> s1 = s2.
Proof.
  assert (Hz : forall c, Z.of_nat (nat_of_ascii c) = 0%Z -> c = NUL).
  { intros c Hc. rewrite <- (ascii_nat_embedding c). by replace (nat_of_ascii c) with 0 by lia. }
  revert s2. induction s1 as [|c1 s1 IH]; intros [|c2 s2] H1 H2; simpl; try done.
  - split; [|done]. intros H. exfalso. apply H2. rewrite (Hz c2) by lia. left.
  - split; [|done]. intros H. exfalso. apply H1. rewrite (Hz c1) by lia. left.
  - destruct (ceq c1 c2) eqn:E.
    + apply ceq_true in E as ->. rewrite IH; [split; congruence| |];
        intros ?; [apply H1|apply H2]; by right.
    + apply ceq_false in E. split; [|congruence]. intros H. exfalso. apply E.
      rewrite <- (ascii_nat_embedding c1), <- (ascii_nat_embedding c2). f_equal. lia.
Qed.

(** *** Normalisation by components

    What the character loop computes, as a fold over the components between
    the slashes of the path: empty ones and [.] are dropped, [..] removes the
    component before it. *)

Fixpoint split (p : path) : list path :=
  match p with
  | [] => [[]]
  | c :: r =>
      if ceq c slash then [] :: split r
      else match split r with
           | w :: ws => (c :: w) :: ws
           | [] => [[c]]
           end
  end.

(** One component: the stack holds those kept so far, the last one first. *)
Definition push (stack : list path) (w : path) : list path :=
  if decide (w = [] \/ w = [dot]) then stack
  else if decide (w = [dot; dot]) then tl stack
  else w :: stack.

Definition components (p : path) : list path := rev (fold_left push (split p) []).

Fixpoint join (ws : list path) : path :=
  match ws with
  | [] => []
  | [w] => w
  | w :: ws => w ++ slash :: join ws
  end.

(** The canonical absolute path of the components. *)
Definition canonical (p : path) : path := slash :: join (components p).

(** What the loop writes: the canonical path, without its slash when the path
    itself begins with one. *)
Definition normalize_spec (p : path) : path :=
  let body := (if vfs_is_absolute_path p then [] else [slash]) ++ join (components p) in
  match body with [] => [slash] | _ => body end.

(** The output of the loop at the start of a component, reversed. *)
Definition out (lead : path) (stack : list path) : path :=
  concat (map (fun w => slash :: rev w) stack) ++ lead.

Lemma char_at_app (pre rest : path) i k :
  i = length pre -> char_at (pre ++ rest) (i + k) = char_at rest k.
Proof. intros ->. unfold char_at. rewrite app_nth2 by lia. f_equal. lia. Qed.

Lemma char_at_here (pre rest : path) : char_at (pre ++ rest) (length pre) = char_at rest 0.
Proof. rewrite <- (Nat.add_0_r (length pre)). by apply char_at_app. Qed.

(** The character before a position: does a component start here? *)
Definition starts (p : path) (i : nat) : bool := (i =? 0)%nat || ceq (char_at p (i - 1)) slash.

Lemma starts_snoc pre c rest : starts ((pre ++ [c]) ++ rest) (length (pre ++ [c])) = ceq c slash.
Proof.
  unfold starts, char_at. rewrite length_app, Nat.add_1_r. simpl. rewrite Nat.sub_0_r, <- app_assoc.
  by rewrite app_nth2, Nat.sub_diag by lia.
Qed.

Definition at_start (pre : path) : Prop := pre = [] \/ exists pre', pre = pre' ++ [slash].

Lemma starts_true pre rest : at_start pre -> starts (pre ++ rest) (length pre) = true.
Proof. intros [->|[pre' ->]]; [done|]. by rewrite starts_snoc, ceq_refl. Qed.

Lemma nulfree_cons c p : nulfree (c :: p) <-> c <> NUL /\ nulfree p.
Proof. unfold nulfree. rewrite not_elem_of_cons. split; intros [??]; auto. Qed.
Lemma slashfree_cons c p : slashfree (c :: p) <-> c <> slash /\ slashfree p.
Proof. unfold slashfree. rewrite not_elem_of_cons. split; intros [??]; auto. Qed.

(** A component starts at the head of what is left, or nothing is left. *)
Lemma split_cases p :
  exists w t, p = w ++ t /\ slashfree w /\
    ((t = [] /\ split p = [w]) \/ (exists t', t = slash :: t' /\ split p = w :: split t')).
Proof.
  induction p as [|c p (w & t & -> & Hw & Ht)]; simpl.
  { exists [], []. split_and!; [done| |by left]. apply not_elem_of_nil. }
  destruct (ceq c slash) eqn:Ec.
  - apply ceq_true in Ec as ->. exists [], (slash :: w ++ t). split_and!; [done| |].
    + apply not_elem_of_nil.
    + right. eauto.
  - apply ceq_false in Ec. exists (c :: w), t. split_and!; [done|by apply slashfree_cons|].
    destruct Ht as [[-> ->]|(t' & -> & ->)]; [by left|right; eauto].
Qed.

Section Loop.
Context (lead : path) (max_len : nat).

Abbreviation loop := (fun f p i rout => normalize_loop f p max_len i rout).

(** Inside a component every character is copied. *)
Lemma loop_copy w f pre t rout :
  (pre <> [] /\ starts (pre ++ w ++ t) (length pre) = false) ->
  slashfree w -> nulfree w ->
  (length rout + length w <= max_len - 1)%nat ->
  loop (length w + f)%nat (pre ++ w ++ t) (length pre) rout =
  loop f (pre ++ w ++ t) (length (pre ++ w)) (rev w ++ rout).
Proof.
  revert pre rout. induction w as [|c w IH]; intros pre rout [Hne Hs] Hw Hn Hl; cbn [app].
  { by rewrite app_nil_r. }
  apply slashfree_cons in Hw as [Hc Hw]. apply nulfree_cons in Hn as [Hc' Hn]. cbn [length] in Hl.
  cbn [length Nat.add normalize_loop]. fold (starts (pre ++ c :: w ++ t) (length pre)).
  cbn [app] in Hs. rewrite Hs, char_at_here. cbn [char_at nth].
  rewrite (ceq_ne c NUL), (ceq_ne c slash) by done. cbn [orb andb].
  destruct (Nat.ltb_spec (length rout) (max_len - 1)); [|lia].
  rewrite andb_false_r. cbn [andb negb].
  specialize (IH (pre ++ [c]) (c :: rout)). rewrite <- app_assoc in IH. cbn [app] in IH.
  rewrite <- app_assoc in IH. cbn [app] in IH. cbn [rev]. rewrite <- app_assoc. cbn [app].
  rewrite Nat.add_1_r. rewrite length_app, Nat.add_1_r in IH. apply IH; [|done..|simpl; lia].
  split; [by destruct pre|].
  pose proof (starts_snoc pre c (w ++ t)) as E. rewrite <- app_assoc, length_app, Nat.add_1_r in E.
  cbn [app] in E. rewrite E. by apply ceq_ne.
Qed.

Lemma drop_component_spec w rest :
  slashfree w -> (rest = [] \/ exists r, rest = slash :: r) ->
  drop_component (rev w ++ rest) = rest.
Proof.
  intros Hw Hr. assert (Hw' : slashfree (rev w)).
  { unfold slashfree. by rewrite list_elem_of_In, <- in_rev, <- list_elem_of_In. }
  revert Hw'. generalize (rev w). intros v. induction v as [|c v IH]; intros Hv; cbn [app].
  - destruct Hr as [->|[r ->]]; [done|]. cbn [drop_component]. by rewrite ceq_refl.
  - apply slashfree_cons in Hv as [Hc Hv]. cbn [drop_component]. rewrite ceq_ne by done. by apply IH.
Qed.

Definition kept (w : path) : Prop := w <> [] /\ slashfree w.

Lemma out_shape stack : (lead = [] \/ lead = [slash]) ->
  out lead stack = [] \/ exists r, out lead stack = slash :: r.
Proof. intros Hlead. destruct stack; [destruct Hlead as [->| ->]|]; unfold out; simpl; eauto. Qed.

(** [..] removes the last component kept. *)
Lemma pop_spec stack : (lead = [] \/ lead = [slash]) -> Forall kept stack ->
  (if (1 <? length (out lead stack))%nat then drop_component (tl (out lead stack)) else out lead stack)
  = out lead (tl stack).
Proof.
  intros Hlead Hst. destruct Hst as [|w st [Hne Hw] Hst].
  - unfold out. simpl. by destruct Hlead as [->| ->].
  - unfold out at 1 2. simpl. rewrite <- app_assoc. fold (out lead st).
    destruct (Nat.ltb_spec 1 (S (length (rev w ++ out lead st)))) as [_|H].
    + apply drop_component_spec; [done|]. by apply out_shape.
    + destruct w; [done|]. rewrite length_app, length_rev in H. simpl in H. lia.
Qed.

Lemma loop_end f pre rout : loop f pre (length pre) rout = rout.
Proof.
  destruct f; [done|]. cbn [normalize_loop]. unfold char_at at 1.
  rewrite nth_overflow by lia. by rewrite ceq_refl.
Qed.

(** The three kinds of component that are not copied, and the first character
    of the others. [t] is what follows the component. *)
Context (f : nat) (pre : path) (rout : path) (Hpre : at_start pre) (Hlen : (length rout < max_len - 1)%nat).

Ltac head_step :=
  cbn [normalize_loop];
  repeat match goal with
    |- context [((length pre =? 0)%nat || ceq (char_at ?q (length pre - 1)) slash)] =>
      change ((length pre =? 0)%nat || ceq (char_at q (length pre - 1)) slash) with (starts q (length pre)) end;
  rewrite starts_true by done; rewrite char_at_here, ?(char_at_app pre _ (length pre)) by done;
  cbn [char_at nth app]; destruct (Nat.ltb_spec (length rout) (max_len - 1)); [|lia].

Lemma loop_empty t :
  loop (S f) (pre ++ slash :: t) (length pre) rout = loop f (pre ++ slash :: t) (length pre + 1) rout.
Proof. head_step. done. Qed.

Lemma loop_dot t : (t = [] \/ exists t', t = slash :: t') ->
  loop (S f) (pre ++ dot :: t) (length pre) rout =
  loop f (pre ++ dot :: t) (length pre + (if decide (t = []) then 1 else 2)) rout.
Proof. intros [->|[t' ->]]; head_step; done. Qed.

Lemma loop_dotdot t : (t = [] \/ exists t', t = slash :: t') ->
  loop (S f) (pre ++ dot :: dot :: t) (length pre) rout =
  loop f (pre ++ dot :: dot :: t) (length pre + (if decide (t = []) then 2 else 3))
    (if (1 <? length rout)%nat then drop_component (tl rout) else rout).
Proof. intros [->|[t' ->]]; head_step; done. Qed.

Lemma loop_first c w t : slashfree (c :: w) -> nulfree (c :: w) ->
  c :: w <> [dot] -> c :: w <> [dot; dot] -> (t = [] \/ exists t', t = slash :: t') ->
  loop (S f) (pre ++ c :: w ++ t) (length pre) rout =
  loop f (pre ++ c :: w ++ t) (length pre + 1) (c :: rout).
Proof.
  intros [Hc Hw]%slashfree_cons [Hc' Hn]%nulfree_cons H1 H2 Ht. head_step.
  rewrite (ceq_ne c NUL), (ceq_ne c slash) by done. cbn [orb andb negb].
  destruct (ceq c dot) eqn:Ed; [|done]. apply ceq_true in Ed as ->. cbn [andb].
  destruct w as [|d w]; [done|]. cbn [app nth].
  apply slashfree_cons in Hw as [Hd Hw]. apply nulfree_cons in Hn as [Hd' Hn].
  rewrite (ceq_ne d NUL), (ceq_ne d slash) by done. cbn [orb].
  destruct (ceq d dot) eqn:Ed; [|done]. apply ceq_true in Ed as ->. cbn [andb].
  destruct w as [|e w]; [done|]. cbn [app nth].
  apply slashfree_cons in Hw as [He Hw]. apply nulfree_cons in Hn as [He' Hn].
  by rewrite (ceq_ne e NUL), (ceq_ne e slash) by done.
Qed.

End Loop.

(** The two steps after the loop. *)
Definition finish (rout : path) : path :=
  let rout := if (length rout =? 0)%nat then [slash] else rout in
  if (1 <? length rout)%nat && ceq (hd NUL rout) slash then tl rout else rout.

Lemma push_kept stack w : slashfree w -> Forall kept stack -> Forall kept (push stack w).
Proof.
  intros Hw Hst. unfold push. repeat case_decide; [done| |].
  - by destruct Hst.
  - constructor; [|done]. split; [tauto|done].
Qed.

Lemma length_out_push lead stack w t :
  (length (out lead stack) + length (w ++ slash :: t) <= length (out lead stack) + length w + 1 + length t)%nat /\
  (length (out lead (push stack w)) <= length (out lead stack) + length w + 1)%nat.
Proof.
  split; [rewrite length_app; simpl; lia|]. unfold push. repeat case_decide; [lia| |].
  - destruct stack as [|v st]; unfold out; simpl; [lia|]. rewrite !length_app. lia.
  - unfold out. simpl. rewrite !length_app, length_rev. lia.
Qed.

(** A component that is kept is copied. *)
Lemma loop_word max_len f pre w t rout :
  at_start pre -> slashfree w -> nulfree w -> ~ (w = [] \/ w = [dot]) -> w <> [dot; dot] ->
  (t = [] \/ exists t', t = slash :: t') -> (length rout + length w <= max_len - 1)%nat ->
  normalize_loop (length w + f) (pre ++ w ++ t) max_len (length pre) rout =
  normalize_loop f (pre ++ w ++ t) max_len (length (pre ++ w)) (rev w ++ rout).
Proof.
  intros Hpre Hw Hn H1 H2 Ht Hl. destruct w as [|c w]; [tauto|]. cbn [length] in *.
  cbn [Nat.add app]. rewrite loop_first by (done || lia || tauto).
  apply slashfree_cons in Hw as [Hc Hw]. apply nulfree_cons in Hn as [Hc' Hn].
  pose proof (loop_copy max_len w f (pre ++ [c]) t (c :: rout)) as E. simpl in E.
  rewrite <- !app_assoc, (length_app pre [c]) in E. cbn [app length] in E. cbn [rev].
  rewrite <- app_assoc. cbn [app]. apply E; [|done..|lia]. split; [by destruct pre|].
  pose proof (starts_snoc pre c (w ++ t)) as E'. rewrite <- app_assoc, length_app in E'.
  cbn [app length] in E'. rewrite E'. by apply ceq_ne.
Qed.

(** So is the slash after it. *)
Lemma loop_sep max_len f pre w t rout :
  w <> [] -> slashfree w -> (length rout < max_len - 1)%nat ->
  normalize_loop (S f) (pre ++ w ++ slash :: t) max_len (length (pre ++ w)) rout =
  normalize_loop f (pre ++ w ++ slash :: t) max_len (length (pre ++ w) + 1) (slash :: rout).
Proof.
  intros Hne Hw Hl. destruct w as [|c w _] using rev_ind; [done|]. rewrite !app_assoc.
  cbn [normalize_loop]. fold (starts (((pre ++ w) ++ [c]) ++ slash :: t) (length ((pre ++ w) ++ [c]))).
  rewrite starts_snoc, char_at_here. cbn [char_at nth].
  rewrite (ceq_ne c slash) by (intros ->; apply Hw, elem_of_app; right; left). cbn [andb orb].
  destruct (Nat.ltb_spec (length rout) (max_len - 1)); [done|lia].
Qed.

(** A component and the slash after it. *)
Lemma loop_component lead max_len f pre w t stack :
  (lead = [] \/ lead = [slash]) -> Forall kept stack -> at_start pre ->
  slashfree w -> nulfree w ->
  (length (out lead stack) + length (w ++ slash :: t) <= max_len - 1)%nat ->
  (length (w ++ slash :: t) < f)%nat ->
  exists f', (length t < f')%nat /\
    normalize_loop f (pre ++ w ++ slash :: t) max_len (length pre) (out lead stack) =
    normalize_loop f' ((pre ++ w ++ [slash]) ++ t) max_len (length (pre ++ w ++ [slash]))
      (out lead (push stack w)).
Proof.
  intros Hlead Hst Hpre Hw Hn Hl Hf. rewrite length_app in Hl, Hf. cbn [length] in Hl, Hf.
  rewrite <- !app_assoc. cbn [app]. rewrite !length_app. cbn [length]. unfold push.
  destruct f as [|f]; [lia|].
  destruct (decide (w = [] \/ w = [dot])) as [[->| ->]|H1].
  - exists f. split; [simpl in *; lia|]. cbn [app length]. by apply loop_empty; [|simpl in *; lia].
  - exists f. split; [simpl in *; lia|]. cbn [app length].
    rewrite loop_dot by (done || (simpl in *; lia) || eauto). by case_decide.
  - case_decide as H2.
    + subst w. exists f. split; [simpl in *; lia|]. cbn [app length].
      rewrite loop_dotdot by (done || (simpl in *; lia) || eauto). case_decide; [done|].
      by rewrite pop_spec.
    + exists (f - length w)%nat. split; [lia|].
      replace (S f) with (length w + S (f - length w))%nat by lia.
      assert (w <> []) by tauto.
      rewrite loop_word by (done || lia || eauto).
      rewrite loop_sep by (done || (rewrite length_app, length_rev; lia)).
      rewrite length_app. f_equal; [lia|]. unfold out. simpl. by rewrite <- app_assoc.
Qed.

(** The last component, which no slash follows. *)
Lemma loop_last lead max_len f pre w stack :
  (lead = [] \/ lead = [slash]) -> Forall kept stack -> at_start pre ->
  slashfree w -> nulfree w ->
  (length (out lead stack) + length w <= max_len - 1)%nat -> (length w < f)%nat ->
  finish (normalize_loop f (pre ++ w) max_len (length pre) (out lead stack)) =
  finish (out lead (push stack w)).
Proof.
  intros Hlead Hst Hpre Hw Hn Hl Hf. unfold push. destruct f as [|f]; [lia|].
  destruct (decide (w = [] \/ w = [dot])) as [[->| ->]|H1].
  - by rewrite app_nil_r, loop_end.
  - rewrite loop_dot by (done || (simpl in *; lia) || eauto). case_decide; [|done].
    pose proof (loop_end max_len f (pre ++ [dot])) as E. rewrite length_app in E. simpl in E. by rewrite E.
  - case_decide as H2.
    + subst w. rewrite loop_dotdot by (done || (simpl in *; lia) || eauto). case_decide; [|done].
      pose proof (loop_end max_len f (pre ++ [dot; dot])) as E. rewrite length_app in E. simpl in E.
      by rewrite E, pop_spec.
    + replace (S f) with (length w + (S f - length w))%nat by lia. assert (w <> []) by tauto.
      pose proof (loop_word max_len (S f - length w) pre w [] (out lead stack)) as E.
      rewrite app_nil_r in E. rewrite E by (done || lia || auto). rewrite loop_end.
      unfold out. simpl. rewrite <- app_assoc. fold (out lead stack).
      destruct w as [|c w _] using rev_ind; [done|]. rewrite rev_app_distr. simpl.
      unfold finish. simpl. rewrite (ceq_ne c slash); [by rewrite andb_false_r|].
      intros ->. apply Hw, elem_of_app. right. left.
Qed.

Lemma loop_spec lead max_len : (lead = [] \/ lead = [slash]) -> forall n rest, (length rest <= n)%nat ->
  forall f pre stack,
  Forall kept stack -> at_start pre -> nulfree rest ->
  (length (out lead stack) + length rest <= max_len - 1)%nat -> (length rest < f)%nat ->
  finish (normalize_loop f (pre ++ rest) max_len (length pre) (out lead stack)) =
  finish (out lead (fold_left push (split rest) stack)).
Proof.
  intros Hlead n. induction n as [|n IH]; intros rest Hrest f pre stack Hst Hpre Hn Hl Hf;
    destruct (split_cases rest) as (w & t & -> & Hw & [[-> ->]|(t' & -> & ->)]);
    rewrite ?app_nil_r in *; cbn [fold_left].
  1, 3: by apply loop_last.
  { rewrite length_app in Hrest. simpl in Hrest. lia. }
  unfold nulfree in Hn. rewrite elem_of_app, elem_of_cons in Hn.
  destruct (loop_component lead max_len f pre w t' stack) as (f' & Hf' & ->); [done..|intros ?; apply Hn; auto|done|done|].
  pose proof (length_out_push lead stack w t') as [_ Hp].
  rewrite length_app in Hrest, Hl, Hf. cbn [length] in Hrest, Hl, Hf.
  apply IH; [lia|by apply push_kept|right; exists (pre ++ w); by rewrite app_assoc|intros ?; apply Hn; auto|lia|lia].
Qed.

Lemma join_cons w ws : ws <> [] -> join (w :: ws) = w ++ slash :: join ws.
Proof. by destruct ws. Qed.

Lemma out_join lead w stack : out lead (w :: stack) = slash :: rev (join (rev (w :: stack))) ++ lead.
Proof.
  assert (H : forall ws v, join (ws ++ [v]) = concat (map (fun u => u ++ [slash]) ws) ++ v).
  { intros ws v. induction ws as [|u ws IH]; [done|]. cbn [app]. rewrite join_cons by (by destruct ws).
    rewrite IH. simpl. by rewrite <- !app_assoc. }
  cbn [rev]. rewrite H, rev_app_distr. unfold out. simpl. rewrite <- !app_assoc. do 3 f_equal.
  induction stack as [|u st IH]; [done|]. cbn [rev map]. rewrite map_app, concat_app. simpl.
  rewrite app_nil_r, !rev_app_distr. simpl. by rewrite IH.
Qed.

Lemma split_slashfree p : Forall slashfree (split p).
Proof.
  induction p as [|c p IH]; simpl; [repeat constructor; apply not_elem_of_nil|].
  destruct (ceq c slash) eqn:E; [constructor; [apply not_elem_of_nil|done]|].
  apply ceq_false in E. destruct IH as [|w ws Hw Hws].
  - constructor; [|done]. apply slashfree_cons. split; [done|apply not_elem_of_nil].
  - constructor; [|done]. by apply slashfree_cons.
Qed.

Lemma fold_push_kept ws stack :
  Forall slashfree ws -> Forall kept stack -> Forall kept (fold_left push ws stack).
Proof. intros Hws. revert stack. induction Hws; simpl; auto using push_kept. Qed.

Lemma components_kept p : Forall kept (components p).
Proof.
  unfold components. apply Forall_rev, fold_push_kept; [apply split_slashfree|done].
Qed.

Lemma join_nonempty w ws : kept w -> join (w :: ws) <> [].
Proof. intros [Hw _]. destruct w; [done|]. by destruct ws. Qed.

Lemma finish_out lead stack : (lead = [] \/ lead = [slash]) -> Forall kept stack ->
  rev (finish (out lead stack)) =
  match lead ++ join (rev stack) with [] => [slash] | _ => lead ++ join (rev stack) end.
Proof.
  intros Hlead Hst. destruct stack as [|w st]; [by destruct Hlead as [->| ->]|].
  rewrite out_join. apply Forall_rev in Hst.
  assert (Hj : join (rev (w :: st)) <> []).
  { destruct (rev (w :: st)) eqn:E; [by apply app_eq_nil in E as []|]. apply join_nonempty. by inversion Hst. }
  revert Hj. generalize (join (rev (w :: st))). intros j Hj. unfold finish. cbn [length Nat.eqb hd].
  rewrite ceq_refl, andb_true_r. destruct (Nat.ltb_spec 1 (S (length (rev j ++ lead)))) as [_|H].
  - cbn [tl]. rewrite rev_app_distr, rev_involutive.
    destruct Hlead as [->| ->]; [|done]. simpl. by destruct j.
  - destruct j; [done|]. rewrite length_app, length_rev in H. simpl in H. lia.
Qed.

Definition str (s : string) : path := list_ascii_of_string s.

Lemma normalize_short p : nulfree p -> (length p <= 254)%nat ->
  vfs_normalize_path p VFS_MAX_PATH = normalize_spec p.
Proof.
  intros Hn Hl. unfold vfs_normalize_path, normalize_spec, components. rewrite <- finish_out.
  2: { case_if; auto. }
  2: { apply fold_push_kept; [apply split_slashfree|done]. }
  fold (finish (normalize_loop (S (length p)) p VFS_MAX_PATH 0
          (if ceq (char_at p 0) slash then [] else [slash]))).
  f_equal. unfold vfs_is_absolute_path. set (lead := if ceq (char_at p 0) slash then [] else [slash]).
  pose proof (loop_spec lead VFS_MAX_PATH) as L. assert (Hlead : lead = [] \/ lead = [slash]).
  { unfold lead. case_if; auto. }
  assert (length lead <= 1)%nat by (destruct Hlead as [->| ->]; simpl; lia).
  specialize (L Hlead (length p) p (le_n _) (S (length p)) [] []). unfold out in L. simpl in L.
  apply L; [done|by left|done|unfold VFS_MAX_PATH; lia|lia].
Qed.

Lemma join_head w ws : kept w -> exists c r, join (w :: ws) = c :: r /\ c <> slash.
Proof.
  intros [Hne Hw]. destruct w as [|c w]; [done|]. apply slashfree_cons in Hw as [Hc _].
  exists c. destruct ws as [|v ws]; [eauto|]. rewrite join_cons by done. cbn [app]. eauto.
Qed.

(** A normalised path is the root, or its components joined, after a slash
    exactly when the path did not begin with one. *)
Lemma normalize_spec_cases p :
  (components p = [] /\ normalize_spec p = [slash]) \/
  (components p <> [] /\
   normalize_spec p = (if vfs_is_absolute_path p then [] else [slash]) ++ join (components p) /\
   exists c r, join (components p) = c :: r /\ c <> slash).
Proof.
  unfold normalize_spec. pose proof (components_kept p) as Hk. destruct Hk as [|w ws Hw Hws].
  - left. by case_if.
  - right. destruct (join_head w ws Hw) as (c & r & Hj & Hc). rewrite Hj.
    split; [done|]. split; [by case_if|eauto].
Qed.

Lemma components_slash p : components (slash :: p) = components p.
Proof. done. Qed.

Lemma path_is_prefix_spec prefix p :
  vfs_path_is_prefix prefix p = true <-> p = prefix \/ exists r, p = prefix ++ slash :: r.
Proof.
  revert p. induction prefix as [|c prefix IH]; intros [|d p]; cbn [vfs_path_is_prefix app].
  - naive_solver.
  - rewrite ceq_true. split; [intros ->; eauto|]. by intros [|[r [= ->]]].
  - split; [done|]. by intros [|[r ?]].
  - destruct (ceq c d) eqn:E.
    + apply ceq_true in E as ->. rewrite IH. naive_solver.
    + apply ceq_false in E. split; [done|]. naive_solver.
Qed.

(** A mount point is above a path when its components, between the slashes,
    are the first ones of the path. *)
Definition above (mp p : path) : Prop := exists ws, split p = split mp ++ ws.

Lemma split_nonempty p : split p <> [].
Proof. destruct p as [|c p]; [done|]. cbn [split]. case_if; [done|]. by destruct (split p). Qed.

Lemma split_app a b : split (a ++ slash :: b) = split a ++ split b.
Proof.
  induction a as [|c a IH]; cbn [app split]; [by rewrite ceq_refl|]. rewrite IH. case_if; [done|].
  pose proof (split_nonempty a). by destruct (split a).
Qed.

Lemma above_spec mp p : above mp p <-> p = mp \/ exists r, p = mp ++ slash :: r.
Proof.
  split.
  - intros [ws Hws]. revert p Hws. induction mp as [|c mp IH]; intros [|d p]; cbn [split app]; intros Hws.
    + by left.
    + destruct (ceq d slash) eqn:E; [apply ceq_true in E as ->; eauto|]. exfalso.
      destruct (split p); discriminate.
    + exfalso. destruct (ceq c slash).
      * pose proof (split_nonempty mp). destruct (split mp); [done|discriminate].
      * destruct (split mp); discriminate.
    + pose proof (split_nonempty mp) as Hm. pose proof (split_nonempty p) as Hp.
      destruct (ceq c slash) eqn:Ec, (ceq d slash) eqn:Ed.
      * apply ceq_true in Ec as ->. apply ceq_true in Ed as ->. injection Hws as Hws.
        destruct (IH p Hws) as [->|[r ->]]; eauto.
      * exfalso. destruct (split p); [done|discriminate].
      * exfalso. destruct (split mp); [done|discriminate].
      * destruct (split mp) as [|v vs] eqn:Em, (split p) as [|u us] eqn:Ep; try done.
        injection Hws as -> -> ->. destruct (IH p) as [->|[r ->]]; [by rewrite Ep|eauto..].
  - intros [->|[r ->]]; [exists []; by rewrite app_nil_r|]. exists (split r). apply split_app.
Qed.

Lemma path_is_prefix_above prefix p : vfs_path_is_prefix prefix p = true <-> above prefix p.
Proof. by rewrite path_is_prefix_spec, above_spec. Qed.

Lemma above_same_length a b p : above a p -> above b p -> length a = length b -> a = b.
Proof.
  intros Ha Hb Hl.
  assert (H : forall x, above x p -> x = take (length x) p).
  { intros x. rewrite above_spec. intros [->|[r ->]]; [by rewrite firstn_all|].
    by rewrite take_app_le, firstn_all by lia. }
  by rewrite (H a), (H b), Hl.
Qed.

(** No path other than the root itself lies under the mount point ["/"]: the
    component after its slash is empty. *)
Lemma root_above p : above [slash] (normalize_spec p) -> components p = [] /\ normalize_spec p = [slash].
Proof.
  rewrite above_spec.
  destruct (normalize_spec_cases p) as [[? ->]|(_ & -> & c & r & -> & Hc)]; [done|].
  intros [E|[r' E]]; destruct (vfs_is_absolute_path p); simpl in E; congruence.
Qed.

Lemma loop_bounded max_len f p i rout :
  (length rout <= max_len - 1)%nat -> (length (normalize_loop f p max_len i rout) <= max_len - 1)%nat.
Proof.
  assert (Hd : forall r, (length (drop_component r) <= length r)%nat).
  { induction r as [|c r IH]; cbn [drop_component]; [done|]. case_if; simpl; lia. }
  revert i rout. induction f as [|f IH]; intros i rout Hl; cbn [normalize_loop]; [done|].
  case_if; [done|]. apply orb_false_elim in E as [_ E%negb_false_iff%Nat.ltb_lt].
  case_if; [auto|]. case_if; [auto|]. case_if; [|apply IH; simpl; lia].
  apply IH. case_if; [|done]. specialize (Hd (tl rout)). destruct rout; simpl in *; lia.
Qed.

Lemma normalize_length p :
  (0 < length (vfs_normalize_path p VFS_MAX_PATH) < VFS_MAX_PATH)%nat.
Proof.
  unfold vfs_normalize_path. rewrite length_rev.
  pose proof (loop_bounded VFS_MAX_PATH (S (length p)) p 0 (if ceq (char_at p 0) slash then [] else [slash])) as H.
  revert H. generalize (normalize_loop (S (length p)) p VFS_MAX_PATH 0 (if ceq (char_at p 0) slash then [] else [slash])).
  intros rout H. assert (Hl : (length rout <= 255)%nat) by (apply H; case_if; simpl; unfold VFS_MAX_PATH; lia).
  unfold VFS_MAX_PATH. destruct rout as [|c [|d r]]; cbn [length Nat.eqb] in *; [simpl; lia..|].
  case_if; cbn [tl length]; lia.
Qed.

Lemma normalize_copy p : vfs_copy_path (vfs_normalize_path p VFS_MAX_PATH) VFS_MAX_PATH = vfs_normalize_path p VFS_MAX_PATH.
Proof. apply take_ge. pose proof (normalize_length p). lia. Qed.

Lemma loop_nulfree max_len f p i rout : nulfree rout -> nulfree (normalize_loop f p max_len i rout).
Proof.
  assert (Hd : forall r, nulfree r -> nulfree (drop_component r)).
  { induction r as [|c r IH]; intros Hr; cbn [drop_component]; [done|]. case_if; [done|].
    apply IH. by apply nulfree_cons in Hr as [_ ?]. }
  revert i rout. induction f as [|f IH]; intros i rout Hn; cbn [normalize_loop]; [done|].
  case_if; [done|]. apply orb_false_elim in E as [E%ceq_false _].
  case_if; [auto|]. case_if; [auto|]. case_if; [|apply IH; by apply nulfree_cons].
  apply IH. case_if; [|done]. apply Hd. destruct rout; [done|]. by apply nulfree_cons in Hn as [_ ?].
Qed.

Lemma normalize_nulfree p : nulfree (vfs_normalize_path p VFS_MAX_PATH).
Proof.
  assert (Hs : nulfree [slash]) by (apply nulfree_cons; split; [done|apply not_elem_of_nil]).
  unfold vfs_normalize_path. unfold nulfree. rewrite list_elem_of_In, <- in_rev, <- list_elem_of_In.
  change (nulfree (finish (normalize_loop (S (length p)) p VFS_MAX_PATH 0 (if ceq (char_at p 0) slash then [] else [slash])))).
  pose proof (loop_nulfree VFS_MAX_PATH (S (length p)) p 0 (if ceq (char_at p 0) slash then [] else [slash])) as H.
  revert H. generalize (normalize_loop (S (length p)) p VFS_MAX_PATH 0 (if ceq (char_at p 0) slash then [] else [slash])).
  intros rout H. assert (Hr : nulfree rout) by (apply H; case_if; [apply not_elem_of_nil|done]).
  unfold finish. destruct rout as [|c [|d r]]; [done|done|]. cbn [length Nat.eqb].
  case_if; [|done]. cbn [tl]. by apply nulfree_cons in Hr as [_ ?].
Qed.

(** ** Properties *)

(** C34. The normalised path of any string, however long, is not empty and fits
    the 256-byte buffers of the VFS with its terminating NUL. *)
Theorem normalize_fits_buffer p :
  (0 < length (vfs_normalize_path p VFS_MAX_PATH) < VFS_MAX_PATH)%nat.
Proof. apply normalize_length. Qed.

(** The leading slash is inverted: a path that begins with a slash loses
    it, and a path without one gains it, so that the two spellings of one file
    never normalise to the same string (unless they denote the root). *)
Theorem normalize_toggles_leading_slash p :
  nulfree p -> (length p < 254)%nat -> vfs_is_absolute_path p = false -> components p <> [] ->
  vfs_normalize_path p VFS_MAX_PATH = slash :: vfs_normalize_path (slash :: p) VFS_MAX_PATH /\
  vfs_is_absolute_path (vfs_normalize_path (slash :: p) VFS_MAX_PATH) = false.
Proof.
  intros Hn Hl Hrel Hne.
  assert (Hs : vfs_normalize_path p VFS_MAX_PATH = normalize_spec p) by (apply normalize_short; [done|lia]).
  assert (Hs' : vfs_normalize_path (slash :: p) VFS_MAX_PATH = normalize_spec (slash :: p)).
  { apply normalize_short; [by apply nulfree_cons|simpl; lia]. }
  rewrite Hs, Hs'.
  destruct (normalize_spec_cases p) as [[? _]|(_ & -> & _)]; [done|].
  destruct (normalize_spec_cases (slash :: p)) as [[? _]|(_ & -> & c & r & H & Hc)]; [exfalso; by apply Hne|].
  rewrite H. cbn [vfs_is_absolute_path char_at nth app]. change (vfs_is_absolute_path (slash :: p)) with true. cbn [app].
  rewrite components_slash in *. rewrite Hrel. split; [|by apply ceq_ne]. by rewrite H.
Qed.

Lemma normalize_toggles_leading_slash_witness :
  vfs_normalize_path (str "fat/x") VFS_MAX_PATH = str "/fat/x" /\
  vfs_normalize_path (str "/fat/x") VFS_MAX_PATH = str "fat/x" /\
  vfs_normalize_path (str "fat/x") VFS_MAX_PATH =
    slash :: vfs_normalize_path (slash :: str "fat/x") VFS_MAX_PATH.
Proof.
  split; [vm_compute; reflexivity|]. split; [vm_compute; reflexivity|].
  apply (normalize_toggles_leading_slash (str "fat/x")); [|vm_compute; lia|done|done].
  apply (bool_decide_unpack _). vm_compute. exact I.
Defined.

(** C13. [vfs_normalize_path] against the canonical absolute path, the components
    that are neither empty nor [.], each [..] having removed the one before it,
    each after a slash. For a path of at most 254 characters that does not begin
    with a slash, or that denotes the root, the result is the canonical path. For
    any other path, one that begins with a slash, the result is the canonical
    path without its leading slash, against the comment "Ensure path starts with
    a slash": the first slash of the path is skipped and none is written. *)
Theorem normalize_by_components p :
  nulfree p -> (length p <= 254)%nat ->
  (vfs_is_absolute_path p = false \/ components p = [] ->
   vfs_normalize_path p VFS_MAX_PATH = canonical p) /\
  (vfs_is_absolute_path p = true -> components p <> [] ->
   canonical p = slash :: vfs_normalize_path p VFS_MAX_PATH /\
   vfs_is_absolute_path (vfs_normalize_path p VFS_MAX_PATH) = false).
Proof.
  intros Hn Hl. rewrite normalize_short by done. unfold canonical.
  destruct (normalize_spec_cases p) as [[Hc ->]|(Hc & -> & c & r & Hj & Hs)].
  - split; [by rewrite Hc|]. intros _ []. done.
  - split; [intros [->|]; done|]. intros -> _. split; [done|]. rewrite Hj. by apply ceq_ne.
Qed.

Lemma normalize_by_components_witness :
  vfs_normalize_path (str "usr//lib/./x/../y/") VFS_MAX_PATH = canonical (str "usr//lib/./x/../y/") /\
  canonical (str "usr//lib/./x/../y/") = str "/usr/lib/y" /\
  canonical (str "/etc/rc") = slash :: vfs_normalize_path (str "/etc/rc") VFS_MAX_PATH.
Proof.
  split; [|split; [vm_compute; reflexivity|]].
  - apply (normalize_by_components (str "usr//lib/./x/../y/")); [|vm_compute; lia|by left].
    apply (bool_decide_unpack _). vm_compute. exact I.
  - apply (normalize_by_components (str "/etc/rc")); [|vm_compute; lia|done|done].
    apply (bool_decide_unpack _). vm_compute. exact I.
Defined.

End VfsPath.
