(* ===== verification/Vfs.v ===== *)
(** * The virtual file system ([filesystem/vfs/vfs.c])

    The registry of file-system types, the list of mount points and the calls on
    paths and file handles. A file-system type is a structure of function
    pointers that another component fills in: the argument [fs_ops] gives the
    structure at each address, and each handler is a function of the file
    system's own state [W] and of the objects it is passed. A handler may change
    that state and the private data ([fs_data]) and position of the object it is
    passed, which is what the adapters of the repository do.

    The chain of [next] pointers that starts at [mount_points] is the list of the
    addresses on it. A mutex is the number of times the running task holds it, as
    for the re-entrant mutex of [kernel/sync.c] while no other task wants it. *)

From Stdlib Require Import ZArith Lia Ascii String.
From stdpp Require Import base tactics option list gmap strings.
From S2P Require Import Prelude VfsPath.

Set Default Goal Selector "!".
Local Open Scope Z_scope.

Module Vfs.
Import VfsPath.

(** ** Constants *)

Definition VFS_SUCCESS : Z := 0.
Definition VFS_ERR_NOT_FOUND : Z := -1.
Definition VFS_ERR_EXISTS : Z := -2.
Definition VFS_ERR_NO_SPACE : Z := -4.
Definition VFS_ERR_INVALID_ARG : Z := -5.
Definition VFS_ERR_UNSUPPORTED : Z := -10.
Definition VFS_ERR_UNKNOWN : Z := -16.
Definition VFS_OPEN_READ : Z := 1.
Definition VFS_OPEN_WRITE : Z := 2.
Definition VFS_OPEN_APPEND : Z := 4.
Definition VFS_SEEK_SET : Z := 0.
Definition VFS_SEEK_CUR : Z := 1.
Definition VFS_SEEK_END : Z := 2.
Definition VFS_MAX_MOUNTS : nat := 16.

(** ** Data *)

(** [vfs_mount_t], [vfs_file_t]: [D] is what [fs_data] points to. *)
Record vfs_mount_t {D : Type} : Type := mk_mount {
  mount_point : path;
  device : path;
  fs_type : ptr;
  m_fs_data : option D;
  m_flags : Z;
  m_lock : Z;
}.
Arguments vfs_mount_t : clear implicits.
Arguments mk_mount {D} _ _ _ _ _ _.

Record vfs_file_t {D : Type} : Type := mk_file {
  f_mount : ptr;
  f_path : path;
  f_flags : Z;
  position : Z;
  f_fs_data : option D;
  f_lock : Z;
}.
Arguments vfs_file_t : clear implicits.
Arguments mk_file {D} _ _ _ _ _ _.

(** What a handler may change of a file handle. *)
Record priv {D : Type} : Type := mk_priv { p_data : option D; p_position : Z }.
Arguments priv : clear implicits.
Arguments mk_priv {D} _ _.

(** [vfs_stat_t] and [vfs_dirent_t] are opaque to the VFS: a handler fills the
    one the caller points to, at an address. *)

(** [vfs_filesystem_t]: the members [vfs.c] uses; [None] is a NULL handler. A
    handler with an integer out-parameter says what it stores there, if anything. *)
Record vfs_filesystem_t {W D : Type} : Type := mk_fs {
  name : option path;
  mount_h : option (vfs_mount_t D -> W -> Z * option D * W);
  unmount_h : option (vfs_mount_t D -> W -> Z * option D * W);
  open_h : option (vfs_mount_t D -> path -> Z -> vfs_file_t D -> W -> Z * priv D * W);
  close_h : option (vfs_mount_t D -> vfs_file_t D -> W -> Z * W);
  read_h : option (vfs_mount_t D -> vfs_file_t D -> addr -> Z -> bool -> W -> Z * option Z * priv D * W);
  write_h : option (vfs_mount_t D -> vfs_file_t D -> addr -> Z -> bool -> W -> Z * option Z * priv D * W);
  seek_h : option (vfs_mount_t D -> vfs_file_t D -> Z -> Z -> W -> Z * priv D * W);
  tell_h : option (vfs_mount_t D -> vfs_file_t D -> W -> Z * option Z * priv D * W);
  flush_h : option (vfs_mount_t D -> vfs_file_t D -> W -> Z * priv D * W);
  stat_h : option (vfs_mount_t D -> path -> addr -> W -> Z * W);
  opendir_h : option (vfs_mount_t D -> path -> vfs_file_t D -> W -> Z * priv D * W);
  readdir_h : option (vfs_mount_t D -> vfs_file_t D -> addr -> W -> Z * priv D * W);
  closedir_h : option (vfs_mount_t D -> vfs_file_t D -> W -> Z * W);
  mkdir_h : option (vfs_mount_t D -> path -> W -> Z * W);
  rmdir_h : option (vfs_mount_t D -> path -> W -> Z * W);
  unlink_h : option (vfs_mount_t D -> path -> W -> Z * W);
  rename_h : option (vfs_mount_t D -> path -> path -> W -> Z * W);
  statfs_h : option (vfs_mount_t D -> addr -> addr -> W -> Z * W);
}.
Arguments vfs_filesystem_t : clear implicits.
Arguments mk_fs {W D} _ _ _ _ _ _ _ _ _ _ _ _ _ _ _ _ _ _ _.

(** The state of [vfs.c], the mounts and handles allocated, and the world the
    file systems act on. *)
Record vfs {W D : Type} : Type := mk_vfs {
  registered_filesystems : list ptr;
  mount_points : list addr;
  vfs_initialized : bool;
  vfs_lock : Z;
  fs_registry_lock : Z;
  mounts : gmap positive (vfs_mount_t D);
  files : gmap positive (vfs_file_t D);
  world : W;
}.
Arguments vfs : clear implicits.
Arguments mk_vfs {W D} _ _ _ _ _ _ _ _.

Section Setters.
Context {W D : Type}.
Implicit Types s : vfs W D.

Definition set_registered v s := mk_vfs v (mount_points s) (vfs_initialized s) (vfs_lock s) (fs_registry_lock s) (mounts s) (files s) (world s).
Definition set_mount_points v s := mk_vfs (registered_filesystems s) v (vfs_initialized s) (vfs_lock s) (fs_registry_lock s) (mounts s) (files s) (world s).
Definition set_vfs_lock v s := mk_vfs (registered_filesystems s) (mount_points s) (vfs_initialized s) v (fs_registry_lock s) (mounts s) (files s) (world s).
Definition set_registry_lock v s := mk_vfs (registered_filesystems s) (mount_points s) (vfs_initialized s) (vfs_lock s) v (mounts s) (files s) (world s).
Definition set_mounts v s := mk_vfs (registered_filesystems s) (mount_points s) (vfs_initialized s) (vfs_lock s) (fs_registry_lock s) v (files s) (world s).
Definition set_files v s := mk_vfs (registered_filesystems s) (mount_points s) (vfs_initialized s) (vfs_lock s) (fs_registry_lock s) (mounts s) v (world s).
Definition set_world (v : W) s : vfs W D := mk_vfs (registered_filesystems s) (mount_points s) (vfs_initialized s) (vfs_lock s) (fs_registry_lock s) (mounts s) (files s) v.

Definition with_m_lock (v : Z) (m : vfs_mount_t D) :=
  mk_mount (mount_point m) (device m) (fs_type m) (m_fs_data m) (m_flags m) v.
Definition with_m_fs_data (v : option D) (m : vfs_mount_t D) :=
  mk_mount (mount_point m) (device m) (fs_type m) v (m_flags m) (m_lock m).
Definition with_f_lock (v : Z) (f : vfs_file_t D) :=
  mk_file (f_mount f) (f_path f) (f_flags f) (position f) (f_fs_data f) v.
Definition with_priv (v : priv D) (f : vfs_file_t D) :=
  mk_file (f_mount f) (f_path f) (f_flags f) (p_position v) (p_data v) (f_lock f).

End Setters.

Section Functions.
Context {W D : Type} (fs_ops : positive -> vfs_filesystem_t W D).
Local Open Scope kernel_scope.

Abbreviation VM := (M (vfs W D)).

(** ** Locks *)

(** [mutex_lock], [mutex_unlock] by the running task. *)
Definition lock1 (n : Z) : Z := n + 1.
Definition unlock1 (n : Z) : Z := if 0 <? n then n - 1 else n.

Definition lock_vfs : VM unit := modify (fun s => set_vfs_lock (lock1 (vfs_lock s)) s).
Definition unlock_vfs : VM unit := modify (fun s => set_vfs_lock (unlock1 (vfs_lock s)) s).
Definition lock_registry : VM unit := modify (fun s => set_registry_lock (lock1 (fs_registry_lock s)) s).
Definition unlock_registry : VM unit := modify (fun s => set_registry_lock (unlock1 (fs_registry_lock s)) s).

(** ** Memory *)

Definition mount_at (a : addr) : VM (vfs_mount_t D) := s <- get ;; deref (mounts s !! a).
Definition file_at (a : addr) : VM (vfs_file_t D) := s <- get ;; deref (files s !! a).
Definition put_mount (a : addr) (m : vfs_mount_t D) : VM unit := modify (fun s => set_mounts (<[a := m]> (mounts s)) s).
Definition put_file (a : addr) (f : vfs_file_t D) : VM unit := modify (fun s => set_files (<[a := f]> (files s)) s).
Definition free_mount (a : addr) : VM unit := mount_at a ;;; modify (fun s => set_mounts (delete a (mounts s)) s).
Definition free_file (a : addr) : VM unit := file_at a ;;; modify (fun s => set_files (delete a (files s)) s).

Definition lock_mount (a : addr) : VM unit := m <- mount_at a ;; put_mount a (with_m_lock (lock1 (m_lock m)) m).
Definition unlock_mount (a : addr) : VM unit := m <- mount_at a ;; put_mount a (with_m_lock (unlock1 (m_lock m)) m).
Definition lock_file (a : addr) : VM unit := f <- file_at a ;; put_file a (with_f_lock (lock1 (f_lock f)) f).
Definition unlock_file (a : addr) : VM unit := f <- file_at a ;; put_file a (with_f_lock (unlock1 (f_lock f)) f).

(** A handler's step on the world. *)
Definition run {A} (h : W -> A * W) : VM A := fun s =>
  let '(a, w) := h (world s) in Ret (a, set_world w s).

(** ** The registry *)

Definition vfs_init : VM Z :=
  s <- get ;;
  if vfs_initialized s then ret VFS_SUCCESS
  else put (mk_vfs (replicate VFS_MAX_MOUNTS None) [] true 0 0 (mounts s) (files s) (world s)) ;;;
       ret VFS_SUCCESS.

(** [registered_filesystems[i]->name], compared: a NULL name is a wild access. *)
Definition fs_name_at (a : addr) : VM path := deref (name (fs_ops a)).

Fixpoint register_from (i n : nat) (fs : addr) (fs_name : path) : VM Z :=
  match n with
  | O => ret VFS_ERR_NO_SPACE
  | S n' =>
      s <- get ;;
      slot <- deref (registered_filesystems s !! i) ;;
      match slot with
      | None => put (set_registered (<[i := Some fs]> (registered_filesystems s)) s) ;;; ret VFS_SUCCESS
      | Some a =>
          nm <- fs_name_at a ;;
          if vfs_strcmp nm fs_name =? 0 then ret VFS_ERR_EXISTS else register_from (S i) n' fs fs_name
      end
  end.

Definition vfs_register_fs (fs : ptr) : VM Z :=
  s <- get ;;
  if negb (vfs_initialized s) then ret VFS_ERR_UNKNOWN
  else match fs with
  | None => ret VFS_ERR_INVALID_ARG
  | Some a =>
      match name (fs_ops a) with
      | None => ret VFS_ERR_INVALID_ARG
      | Some nm =>
          lock_registry ;;;
          result <- register_from 0 VFS_MAX_MOUNTS a nm ;;
          unlock_registry ;;;
          ret result
      end
  end.

Fixpoint find_type_from (i n : nat) (nm : path) : VM ptr :=
  match n with
  | O => ret None
  | S n' =>
      s <- get ;;
      slot <- deref (registered_filesystems s !! i) ;;
      match slot with
      | None => find_type_from (S i) n' nm
      | Some a =>
          nm' <- fs_name_at a ;;
          if vfs_strcmp nm' nm =? 0 then ret (Some a) else find_type_from (S i) n' nm
      end
  end.

Definition vfs_find_fs_type (nm : path) : VM ptr := find_type_from 0 VFS_MAX_MOUNTS nm.

(** ** Mount points *)

Fixpoint find_best (ms : list addr) (np : path) (best : ptr) (best_len : nat) : VM ptr :=
  match ms with
  | [] => ret best
  | a :: ms' =>
      m <- mount_at a ;;
      let mount_len := length (mount_point m) in
      if (best_len <? mount_len)%nat && vfs_path_is_prefix (mount_point m) np
      then find_best ms' np (Some a) mount_len
      else find_best ms' np best best_len
  end.

Definition vfs_find_mount_point (p : path) : VM ptr :=
  s <- get ;; find_best (mount_points s) (vfs_normalize_path p VFS_MAX_PATH) None 0.

(** The node of the list with this mount point, found by comparison. *)
Fixpoint find_exact (ms : list addr) (np : path) : VM ptr :=
  match ms with
  | [] => ret None
  | a :: ms' =>
      m <- mount_at a ;;
      if vfs_strcmp (mount_point m) np =? 0 then ret (Some a) else find_exact ms' np
  end.

(** Unlinking a node from the chain ([prev->next = mount->next], or the head). *)
Fixpoint unlink_node (a : addr) (ms : list addr) : list addr :=
  match ms with
  | [] => []
  | b :: ms' => if Pos.eqb a b then ms' else b :: unlink_node a ms'
  end.

(** [mem] is the answer of [malloc]. *)
Definition vfs_mount (fs_name dev mp : option path) (flags : Z) (mem : ptr) : VM Z :=
  s <- get ;;
  if negb (vfs_initialized s) then ret VFS_ERR_UNKNOWN
  else match fs_name, mp with
  | Some fs_name, Some mp =>
      lock_registry ;;;
      fst <- vfs_find_fs_type fs_name ;;
      unlock_registry ;;;
      match fst with
      | None => ret VFS_ERR_NOT_FOUND
      | Some fst =>
          let np := vfs_normalize_path mp VFS_MAX_PATH in
          lock_vfs ;;;
          s <- get ;;
          dup <- find_exact (mount_points s) np ;;
          match dup with
          | Some _ => unlock_vfs ;;; ret VFS_ERR_EXISTS
          | None =>
              match mem with
              | None => unlock_vfs ;;; ret VFS_ERR_NO_SPACE
              | Some a =>
                  put_mount a (mk_mount (vfs_copy_path np VFS_MAX_PATH)
                    (match dev with Some d => vfs_copy_path d VFS_MAX_PATH | None => [] end)
                    (Some fst) None flags 0) ;;;
                  unlock_vfs ;;;
                  result <- match mount_h (fs_ops fst) with
                            | Some h =>
                                m <- mount_at a ;;
                                r <- run (h m) ;;
                                put_mount a (with_m_fs_data r.2 m) ;;; ret r.1
                            | None => ret VFS_SUCCESS
                            end ;;
                  if negb (result =? VFS_SUCCESS) then free_mount a ;;; ret result
                  else
                    lock_vfs ;;;
                    modify (fun s => set_mount_points (mount_points s ++ [a]) s) ;;;
                    unlock_vfs ;;;
                    ret VFS_SUCCESS
              end
          end
      end
  | _, _ => ret VFS_ERR_INVALID_ARG
  end.

Definition vfs_unmount (mp : option path) : VM Z :=
  s <- get ;;
  if negb (vfs_initialized s) then ret VFS_ERR_UNKNOWN
  else match mp with
  | None => ret VFS_ERR_INVALID_ARG
  | Some mp =>
      let np := vfs_normalize_path mp VFS_MAX_PATH in
      lock_vfs ;;;
      s <- get ;;
      found <- find_exact (mount_points s) np ;;
      match found with
      | None => unlock_vfs ;;; ret VFS_ERR_NOT_FOUND
      | Some a =>
          m <- mount_at a ;;
          result <- match fs_type m with
                    | Some t =>
                        match unmount_h (fs_ops t) with
                        | Some h => r <- run (h m) ;; put_mount a (with_m_fs_data r.2 m) ;;; ret r.1
                        | None => ret VFS_SUCCESS
                        end
                    | None => ret VFS_SUCCESS
                    end ;;
          if negb (result =? VFS_SUCCESS) then unlock_vfs ;;; ret result
          else
            modify (fun s => set_mount_points (unlink_node a (mount_points s)) s) ;;;
            free_mount a ;;;
            unlock_vfs ;;;
            ret VFS_SUCCESS
      end
  end.

(** ** Calls on paths *)

(** The mount a path belongs to, with the path inside it: the opening lines of
    the calls on paths. *)
Definition resolve (p : path) : VM (option (addr * vfs_mount_t D * path)) :=
  mount <- vfs_find_mount_point p ;;
  match mount with
  | None => ret None
  | Some a =>
      m <- mount_at a ;;
      ret (Some (a, m, vfs_extract_relative_path p (mount_point m) VFS_MAX_PATH))
  end.

(** [m->fs_type && m->fs_type->h] *)
Definition handler {H} (sel : vfs_filesystem_t W D -> option H) (m : vfs_mount_t D) : option H :=
  match fs_type m with Some t => sel (fs_ops t) | None => None end.

(** [f->mount && f->mount->fs_type && f->mount->fs_type->h], with the mount. *)
Definition file_handler {H} (sel : vfs_filesystem_t W D -> option H) (f : vfs_file_t D)
  : VM (option (vfs_mount_t D * H)) :=
  match f_mount f with
  | None => ret None
  | Some a => m <- mount_at a ;; ret (match handler sel m with Some h => Some (m, h) | None => None end)
  end.

(** A handler's step on a file handle. *)
Definition run_file {A} (a : addr) (h : vfs_file_t D -> W -> A * priv D * W) : VM A :=
  f <- file_at a ;;
  r <- run (h f) ;;
  put_file a (with_priv r.2 f) ;;;
  ret r.1.

(** [mem] is the answer of [malloc]; the second result is what [*file] is set to. *)
Definition vfs_open (p : option path) (flags : Z) (file : bool) (mem : ptr) : VM (Z * ptr) :=
  s <- get ;;
  if negb (vfs_initialized s) then ret (VFS_ERR_UNKNOWN, None)
  else match p, file with
  | Some p, true =>
      lock_vfs ;;;
      found <- resolve p ;;
      match found with
      | None => unlock_vfs ;;; ret (VFS_ERR_NOT_FOUND, None)
      | Some (a, m, rel) =>
          lock_mount a ;;;
          unlock_vfs ;;;
          match mem with
          | None => unlock_mount a ;;; ret (VFS_ERR_NO_SPACE, None)
          | Some b =>
              put_file b (mk_file (Some a) (vfs_copy_path rel VFS_MAX_PATH) flags 0 None 0) ;;;
              m <- mount_at a ;;
              result <- match handler open_h m with
                        | Some h => run_file b (fun f => h m rel flags f)
                        | None => ret VFS_SUCCESS
                        end ;;
              if negb (result =? VFS_SUCCESS)
              then free_file b ;;; unlock_mount a ;;; ret (result, None)
              else unlock_mount a ;;; ret (VFS_SUCCESS, Some b)
          end
      end
  | _, _ => ret (VFS_ERR_INVALID_ARG, None)
  end.

(** The directory handle's lock is not initialised: [junk] is what it holds. *)
Definition vfs_opendir (p : option path) (dir : bool) (mem : ptr) (junk : Z) : VM (Z * ptr) :=
  s <- get ;;
  if negb (vfs_initialized s) then ret (VFS_ERR_UNKNOWN, None)
  else match p, dir with
  | Some p, true =>
      found <- resolve p ;;
      match found with
      | None => ret (VFS_ERR_NOT_FOUND, None)
      | Some (a, m, rel) =>
          match mem with
          | None => ret (VFS_ERR_NO_SPACE, None)
          | Some b =>
              put_file b (mk_file (Some a) (vfs_copy_path rel VFS_MAX_PATH) 0 0 None junk) ;;;
              match handler opendir_h m with
              | Some h =>
                  result <- run_file b (fun f => h m rel f) ;;
                  if negb (result =? VFS_SUCCESS) then free_file b ;;; ret (result, None)
                  else ret (VFS_SUCCESS, Some b)
              | None => free_file b ;;; ret (VFS_ERR_UNSUPPORTED, None)
              end
          end
      end
  | _, _ => ret (VFS_ERR_INVALID_ARG, None)
  end.

(** [vfs_stat], [vfs_mkdir], [vfs_rmdir], [vfs_unlink]: one path, one handler. *)
Definition path_call {H} (sel : vfs_filesystem_t W D -> option H)
    (call : H -> vfs_mount_t D -> path -> W -> Z * W) (p : path) : VM Z :=
  found <- resolve p ;;
  match found with
  | None => ret VFS_ERR_NOT_FOUND
  | Some (_, m, rel) =>
      match handler sel m with
      | Some h => run (call h m rel)
      | None => ret VFS_ERR_UNSUPPORTED
      end
  end.

Definition vfs_stat (p : option path) (stat : ptr) : VM Z :=
  s <- get ;;
  if negb (vfs_initialized s) then ret VFS_ERR_UNKNOWN
  else match p, stat with
  | Some p, Some st => path_call stat_h (fun h m rel => h m rel st) p
  | _, _ => ret VFS_ERR_INVALID_ARG
  end.

Definition vfs_mkdir (p : option path) : VM Z :=
  s <- get ;;
  if negb (vfs_initialized s) then ret VFS_ERR_UNKNOWN
  else match p with
  | Some p => path_call mkdir_h (fun h m rel => h m rel) p
  | None => ret VFS_ERR_INVALID_ARG
  end.

Definition vfs_rmdir (p : option path) : VM Z :=
  s <- get ;;
  if negb (vfs_initialized s) then ret VFS_ERR_UNKNOWN
  else match p with
  | Some p => path_call rmdir_h (fun h m rel => h m rel) p
  | None => ret VFS_ERR_INVALID_ARG
  end.

Definition vfs_unlink (p : option path) : VM Z :=
  s <- get ;;
  if negb (vfs_initialized s) then ret VFS_ERR_UNKNOWN
  else match p with
  | Some p => path_call unlink_h (fun h m rel => h m rel) p
  | None => ret VFS_ERR_INVALID_ARG
  end.

Definition vfs_rename (oldpath newpath : option path) : VM Z :=
  s <- get ;;
  if negb (vfs_initialized s) then ret VFS_ERR_UNKNOWN
  else match oldpath, newpath with
  | Some old, Some new =>
      old_mount <- vfs_find_mount_point old ;;
      match old_mount with
      | None => ret VFS_ERR_NOT_FOUND
      | Some om =>
          new_mount <- vfs_find_mount_point new ;;
          match new_mount with
          | None => ret VFS_ERR_NOT_FOUND
          | Some nm =>
              if negb (Pos.eqb om nm) then ret VFS_ERR_INVALID_ARG
              else
                m <- mount_at om ;;
                match handler rename_h m with
                | Some h =>
                    run (h m (vfs_extract_relative_path old (mount_point m) VFS_MAX_PATH)
                             (vfs_extract_relative_path new (mount_point m) VFS_MAX_PATH))
                | None => ret VFS_ERR_UNSUPPORTED
                end
          end
      end
  | _, _ => ret VFS_ERR_INVALID_ARG
  end.

Definition vfs_statfs (p : option path) (total free : ptr) : VM Z :=
  s <- get ;;
  if negb (vfs_initialized s) then ret VFS_ERR_UNKNOWN
  else match p, total, free with
  | Some p, Some t, Some fr =>
      mount <- vfs_find_mount_point p ;;
      match mount with
      | None => ret VFS_ERR_NOT_FOUND
      | Some a =>
          m <- mount_at a ;;
          match handler statfs_h m with
          | Some h => run (h m t fr)
          | None => ret VFS_ERR_UNSUPPORTED
          end
      end
  | _, _, _ => ret VFS_ERR_INVALID_ARG
  end.

(** ** Calls on handles *)

(** [vfs_close], [vfs_closedir]: the handler's result is ignored. *)
Definition close_with (sel : vfs_filesystem_t W D -> option (vfs_mount_t D -> vfs_file_t D -> W -> Z * W))
    (a : addr) : VM Z :=
  f <- file_at a ;;
  h <- file_handler sel f ;;
  match h with
  | Some (m, h) => _result <- run (h m f) ;; free_file a ;;; ret VFS_SUCCESS
  | None => free_file a ;;; ret VFS_SUCCESS
  end.

Definition vfs_close (file : ptr) : VM Z :=
  s <- get ;;
  if negb (vfs_initialized s) then ret VFS_ERR_UNKNOWN
  else match file with Some a => close_with close_h a | None => ret VFS_ERR_INVALID_ARG end.

Definition vfs_closedir (dir : ptr) : VM Z :=
  s <- get ;;
  if negb (vfs_initialized s) then ret VFS_ERR_UNKNOWN
  else match dir with Some a => close_with closedir_h a | None => ret VFS_ERR_INVALID_ARG end.

(** [count] says whether the caller passed a pointer for the byte count; the
    second result is what is stored there. *)
Definition vfs_read (file buffer : ptr) (size : Z) (count : bool) : VM (Z * option Z) :=
  s <- get ;;
  if negb (vfs_initialized s) then ret (VFS_ERR_UNKNOWN, None)
  else match file, buffer with
  | Some a, Some buf =>
      f <- file_at a ;;
      if negb (has_flag (f_flags f) VFS_OPEN_READ) then ret (VFS_ERR_INVALID_ARG, None)
      else
        lock_file a ;;;
        h <- file_handler read_h f ;;
        result <- match h with
                  | Some (m, h) => run_file a (fun f => h m f buf size count)
                  | None => ret (VFS_ERR_UNSUPPORTED, if count then Some 0 else None)
                  end ;;
        unlock_file a ;;;
        ret result
  | _, _ => ret (VFS_ERR_INVALID_ARG, None)
  end.

Definition vfs_write (file buffer : ptr) (size : Z) (count : bool) : VM (Z * option Z) :=
  s <- get ;;
  if negb (vfs_initialized s) then ret (VFS_ERR_UNKNOWN, None)
  else match file, buffer with
  | Some a, Some buf =>
      f <- file_at a ;;
      if negb (has_flag (f_flags f) (Z.lor VFS_OPEN_WRITE VFS_OPEN_APPEND)) then ret (VFS_ERR_INVALID_ARG, None)
      else
        lock_file a ;;;
        h <- file_handler write_h f ;;
        result <- match h with
                  | Some (m, h) => run_file a (fun f => h m f buf size count)
                  | None => ret (VFS_ERR_UNSUPPORTED, if count then Some 0 else None)
                  end ;;
        unlock_file a ;;;
        ret result
  | _, _ => ret (VFS_ERR_INVALID_ARG, None)
  end.

(** The position the fallback of [vfs_seek] computes, in [uint64_t]. *)
Definition seek_position (pos offset whence : Z) : Z + Z :=
  if whence =? VFS_SEEK_SET then
    if offset <? 0 then inr VFS_ERR_INVALID_ARG else inl (u64 offset)
  else if whence =? VFS_SEEK_CUR then
    if ((offset <? 0) && (pos <? u64 (- offset))) || ((0 <? offset) && (u64 (pos + offset) <? pos))
    then inr VFS_ERR_INVALID_ARG
    else inl (u64 (pos + offset))
  else if whence =? VFS_SEEK_END then inr VFS_ERR_UNSUPPORTED
  else inr VFS_ERR_INVALID_ARG.

Definition vfs_seek (file : ptr) (offset whence : Z) : VM Z :=
  s <- get ;;
  if negb (vfs_initialized s) then ret VFS_ERR_UNKNOWN
  else match file with
  | None => ret VFS_ERR_INVALID_ARG
  | Some a =>
      f <- file_at a ;;
      h <- file_handler seek_h f ;;
      match h with
      | Some (m, h) => run_file a (fun f => h m f offset whence)
      | None =>
          match seek_position (position f) offset whence with
          | inl pos => put_file a (with_priv (mk_priv (f_fs_data f) pos) f) ;;; ret VFS_SUCCESS
          | inr e => ret e
          end
      end
  end.

(** The second result is what [*offset] is set to. *)
Definition vfs_tell (file : ptr) (offset : bool) : VM (Z * option Z) :=
  s <- get ;;
  if negb (vfs_initialized s) then ret (VFS_ERR_UNKNOWN, None)
  else match file, offset with
  | Some a, true =>
      f <- file_at a ;;
      h <- file_handler tell_h f ;;
      match h with
      | Some (m, h) => run_file a (fun f => h m f)
      | None => ret (VFS_SUCCESS, Some (position f))
      end
  | _, _ => ret (VFS_ERR_INVALID_ARG, None)
  end.

Definition vfs_flush (file : ptr) : VM Z :=
  s <- get ;;
  if negb (vfs_initialized s) then ret VFS_ERR_UNKNOWN
  else match file with
  | None => ret VFS_ERR_INVALID_ARG
  | Some a =>
      f <- file_at a ;;
      h <- file_handler flush_h f ;;
      match h with
      | Some (m, h) => run_file a (fun f => h m f)
      | None => ret VFS_SUCCESS
      end
  end.

Definition vfs_readdir (dir dirent : ptr) : VM Z :=
  s <- get ;;
  if negb (vfs_initialized s) then ret VFS_ERR_UNKNOWN
  else match dir, dirent with
  | Some a, Some d =>
      f <- file_at a ;;
      h <- file_handler readdir_h f ;;
      match h with
      | Some (m, h) => run_file a (fun f => h m f d)
      | None => ret VFS_ERR_UNSUPPORTED
      end
  | _, _ => ret VFS_ERR_INVALID_ARG
  end.

End Functions.

(** ** Symbolic execution *)

Create HintDb vfs.

Section Exec.
Context {W D : Type} (fs_ops : positive -> vfs_filesystem_t W D).
Implicit Types s : vfs W D.

Lemma wp_mount_at a Q s : wp (mount_at a) Q s <-> exists m, mounts s !! a = Some m /\ Q m s.
Proof. unfold mount_at. by rewrite wp_bind, wp_get, wp_deref. Qed.
Lemma wp_file_at a Q s : wp (file_at a) Q s <-> exists f, files s !! a = Some f /\ Q f s.
Proof. unfold file_at. by rewrite wp_bind, wp_get, wp_deref. Qed.
Lemma wp_handler {A} (h : W -> A * W) Q s : wp (run h) Q s <-> Q (h (world s)).1 (set_world (h (world s)).2 s).
Proof. unfold wp, run. by destruct (h (world s)). Qed.
Lemma wp_free_file a f Q s : files s !! a = Some f ->
  wp (free_file a) Q s <-> Q tt (set_files (delete a (files s)) s).
Proof. intros Hf. unfold free_file. rewrite wp_bind, wp_file_at. naive_solver. Qed.
Lemma wp_free_mount a m Q s : mounts s !! a = Some m ->
  wp (free_mount a) Q s <-> Q tt (set_mounts (delete a (mounts s)) s).
Proof. intros Hf. unfold free_mount. rewrite wp_bind, wp_mount_at. naive_solver. Qed.

Lemma wp_run_file {A} b f (h : vfs_file_t D -> W -> A * priv D * W) Q s : files s !! b = Some f ->
  wp (run_file b h) Q s <->
  let r := h f (world s) in
  Q r.1.1 (set_files (<[b := with_priv r.1.2 f]> (files s)) (set_world r.2 s)).
Proof.
  intros Hf. unfold run_file. rewrite wp_bind, wp_file_at. split.
  - intros (f' & Hf' & H). simplify_eq. by rewrite wp_bind, wp_handler in H.
  - intros H. exists f. split; [done|]. by rewrite wp_bind, wp_handler.
Qed.

(** *** The mount found for a path *)

Definition serves s (p : path) (a : addr) (m : vfs_mount_t D) : Prop :=
  a ∈ mount_points s /\ mounts s !! a = Some m /\
  above (mount_point m) (vfs_normalize_path p VFS_MAX_PATH).

(** The longest of the mount points above [p]. *)
Definition best_mount s (p : path) (a : addr) (m : vfs_mount_t D) : Prop :=
  serves s p a m /\
  forall b n, serves s p b n -> (length (mount_point n) <= length (mount_point m))%nat.

Lemma find_best_spec ms np best len s :
  (forall a, a ∈ ms -> is_Some (mounts s !! a)) ->
  exists r, find_best ms np best len s = Ret (r, s) /\
    ((r = best /\ forall a m, a ∈ ms -> mounts s !! a = Some m ->
        vfs_path_is_prefix (mount_point m) np = true -> (length (mount_point m) <= len)%nat) \/
     (exists a m, r = Some a /\ a ∈ ms /\ mounts s !! a = Some m /\
        vfs_path_is_prefix (mount_point m) np = true /\ (len < length (mount_point m))%nat /\
        forall b n, b ∈ ms -> mounts s !! b = Some n -> vfs_path_is_prefix (mount_point n) np = true ->
          (length (mount_point n) <= length (mount_point m))%nat)).
Proof.
  revert best len. induction ms as [|a ms IH]; intros best len Hms.
  { exists best. split; [done|]. left. split; [done|]. intros ?? []%not_elem_of_nil. }
  destruct (Hms a) as [m Hm]; [left|]. cbn [find_best].
  erewrite bind_run; [|unfold mount_at, bind, get, deref; by rewrite Hm].
  assert (Hms' : forall b, b ∈ ms -> is_Some (mounts s !! b)) by (intros b Hb; apply Hms; by right).
  destruct ((len <? length (mount_point m))%nat && vfs_path_is_prefix (mount_point m) np) eqn:E.
  - apply andb_prop in E as [E1%Nat.ltb_lt E2].
    destruct (IH (Some a) (length (mount_point m)) Hms') as (r & Hr & [[-> Hall]|(b & n & -> & Hb & Hn & Hp & Hlt & Hall)]);
      (eexists; split; [exact Hr|]); right.
    + exists a, m. split_and!; [done|left|done..|]. intros b n [->|Hb]%elem_of_cons Hn Hp; [naive_solver|eauto].
    + exists b, n. split_and!; [done|by right|done|done|lia|].
      intros b' n' [->|Hb']%elem_of_cons Hn' Hp'; [simplify_eq; lia|eauto].
  - destruct (IH best len Hms') as (r & Hr & [[-> Hall]|(b & n & -> & Hb & Hn & Hp & Hlt & Hall)]);
      (eexists; split; [exact Hr|]).
    + left. split; [done|]. intros b n [->|Hb]%elem_of_cons Hn Hp; [|eauto]. simplify_eq.
      rewrite Hp, andb_true_r in E. apply Nat.ltb_ge in E. lia.
    + right. exists b, n. split_and!; [done|by right|done|done|lia|].
      intros b' n' [->|Hb']%elem_of_cons Hn' Hp'; [|eauto]. simplify_eq.
      rewrite Hp', andb_true_r in E. apply Nat.ltb_ge in E. lia.
Qed.

(** ** The invariant between calls *)

Record inv s : Prop := {
  inv_init : vfs_initialized s = true;
  inv_slots : length (registered_filesystems s) = VFS_MAX_MOUNTS;
  inv_named i a : registered_filesystems s !! i = Some (Some a) -> is_Some (name (fs_ops a));
  inv_names i j a b : registered_filesystems s !! i = Some (Some a) ->
    registered_filesystems s !! j = Some (Some b) -> name (fs_ops a) = name (fs_ops b) -> i = j;
  inv_compact i j : (i < j)%nat -> registered_filesystems s !! i = Some None ->
    registered_filesystems s !! j <> None -> registered_filesystems s !! j = Some None;
  inv_nodup : NoDup (mount_points s);
  inv_live a : a ∈ mount_points s -> exists m, mounts s !! a = Some m /\ mount_point m <> [] /\ m_lock m = 0;
  inv_nul a m : a ∈ mount_points s -> mounts s !! a = Some m -> nulfree (mount_point m);
  inv_points a b m n : a ∈ mount_points s -> b ∈ mount_points s -> mounts s !! a = Some m ->
    mounts s !! b = Some n -> mount_point m = mount_point n -> a = b;
  inv_files b f : files s !! b = Some f -> exists a, f_mount f = Some a /\ a ∈ mount_points s;
  inv_locks : vfs_lock s = 0 /\ fs_registry_lock s = 0;
  inv_flocks b f : files s !! b = Some f -> f_flags f <> 0 -> f_lock f = 0;
}.

Lemma inv_set_world s w : inv s -> inv (set_world w s).
Proof. by intros []; split. Qed.

Lemma inv_new_file s b a f : inv s -> f_mount f = Some a -> a ∈ mount_points s ->
  (f_flags f <> 0 -> f_lock f = 0) ->
  inv (set_files (<[b := f]> (files s)) s).
Proof.
  intros [] Hm Ha Hl. split; try done; cbn [set_files files mount_points];
    intros b' g [[<- <-]|[? Hg]]%lookup_insert_Some; eauto.
Qed.

(** A handler's answer is stored in the handle. *)
Lemma inv_put_file s b f pv : inv s -> files s !! b = Some f ->
  inv (set_files (<[b := with_priv pv f]> (files s)) s).
Proof.
  intros Hinv Hf. destruct (inv_files _ Hinv b f Hf) as (a & Ha & Hin).
  apply (inv_new_file s b a); [done..|]. exact (inv_flocks _ Hinv b f Hf).
Qed.

Lemma inv_delete_file s b : inv s -> inv (set_files (delete b (files s)) s).
Proof.
  intros []. split; try done; cbn [set_files files mount_points];
    intros b' g [? Hg]%lookup_delete_Some; eauto.
Qed.

(** What the lookups give in a state of this shape. *)
Lemma wp_find_mount_point p Q s :
  (forall a, a ∈ mount_points s -> exists m, mounts s !! a = Some m /\ mount_point m <> [] /\ m_lock m = 0) ->
  ((forall a m, ~ serves s p a m) -> Q None s) ->
  (forall a m, best_mount s p a m -> Q (Some a) s) ->
  wp (vfs_find_mount_point p) Q s.
Proof.
  intros Hlive Hnone Hsome. unfold vfs_find_mount_point. rewrite wp_bind, wp_get.
  destruct (find_best_spec (mount_points s) (vfs_normalize_path p VFS_MAX_PATH) None 0 s)
    as (r & Hr & [[-> Hall]|(a & m & -> & Ha & Hm & Hp & Hlt & Hall)]).
  - intros a Ha. destruct (Hlive a Ha) as (m & -> & _). eauto.
  - unfold wp. rewrite Hr. apply Hnone. intros a m (Ha & Hm & Hp%path_is_prefix_above). specialize (Hall a m Ha Hm Hp).
    destruct (Hlive a Ha) as (m' & Hm' & Hne & _). simplify_eq. destruct (mount_point m); [done|simpl in *; lia].
  - unfold wp. rewrite Hr. apply path_is_prefix_above in Hp. apply (Hsome a m). split; [done|].
    intros b n (Hb & Hn & Hp'%path_is_prefix_above). eauto.
Qed.

Lemma wp_resolve p Q s :
  (forall a, a ∈ mount_points s -> exists m, mounts s !! a = Some m /\ mount_point m <> [] /\ m_lock m = 0) ->
  ((forall a m, ~ serves s p a m) -> Q None s) ->
  (forall a m, best_mount s p a m ->
     Q (Some (a, m, vfs_extract_relative_path p (mount_point m) VFS_MAX_PATH)) s) ->
  wp (resolve p) Q s.
Proof.
  intros Hlive Hnone Hsome. unfold resolve. rewrite wp_bind. apply wp_find_mount_point; [done| |].
  - intros H. wp_steps. auto.
  - intros a m Hb. rewrite wp_bind, wp_mount_at. exists m. split; [apply Hb|]. wp_steps. auto.
Qed.

Lemma strcmp_refl (p : path) : vfs_strcmp p p = 0.
Proof. induction p as [|c p IH]; [done|]. cbn [vfs_strcmp]. by rewrite ceq_refl. Qed.

(** [find_exact] with the answers [strcmp] gives. *)
Lemma wp_find_exact ms np Q s :
  (forall a, a ∈ ms -> is_Some (mounts s !! a)) ->
  ((forall a m, a ∈ ms -> mounts s !! a = Some m -> mount_point m <> np) -> Q None s) ->
  (forall a m, a ∈ ms -> mounts s !! a = Some m -> vfs_strcmp (mount_point m) np = 0 -> Q (Some a) s) ->
  wp (find_exact ms np) Q s.
Proof.
  induction ms as [|a ms IH]; intros Hms Hn Hs; cbn [find_exact].
  { wp_steps. apply Hn. intros ?? []%not_elem_of_nil. }
  destruct (Hms a) as [m Hm]; [left|]. rewrite wp_bind, wp_mount_at. exists m. split; [done|].
  destruct (Z.eqb_spec (vfs_strcmp (mount_point m) np) 0) as [E|E].
  - wp_steps. apply (Hs a m); [left|done..].
  - apply IH.
    + intros b Hb. apply Hms. by right.
    + intros H. apply Hn. intros b n [->|Hb]%elem_of_cons Hb'; [|eauto]. simplify_eq.
      intros <-. by rewrite strcmp_refl in E.
    + intros b n Hb. apply Hs. by right.
Qed.

(** *** The registry *)

Lemma registry_write s i fs nm : inv s -> name (fs_ops fs) = Some nm ->
  registered_filesystems s !! i = Some None ->
  (forall j a, (j < i)%nat -> registered_filesystems s !! j = Some (Some a) -> name (fs_ops a) <> Some nm) ->
  (forall j, (j < i)%nat -> registered_filesystems s !! j <> Some None) ->
  inv (set_registered (<[i := Some fs]> (registered_filesystems s)) s).
Proof.
  intros Hinv Hnm Hi Hlt Hfull. destruct Hinv. pose proof (lookup_lt_Some _ _ _ Hi) as Hlen.
  assert (Hgt : forall j a, registered_filesystems s !! j = Some (Some a) -> (j < i)%nat).
  { intros j a Hj. destruct (decide (j < i)%nat) as [|Hge]; [done|]. exfalso.
    destruct (decide (j = i)) as [->|]; [congruence|].
    assert (Hc : registered_filesystems s !! j = Some None) by (apply (inv_compact0 i j); [lia|done|congruence]).
    congruence. }
  assert (Hne : forall j a, registered_filesystems s !! j = Some (Some a) -> name (fs_ops a) <> name (fs_ops fs)).
  { intros j a Hj. rewrite Hnm. apply (Hlt j); [by apply (Hgt j a)|done]. }
  split; try done; cbn [set_registered registered_filesystems].
  - by rewrite length_insert.
  - intros j a. destruct (decide (i = j)) as [<-|].
    + rewrite list_lookup_insert_eq by done. intros [= <-]. rewrite Hnm. eauto.
    + rewrite list_lookup_insert_ne by done. eauto.
  - intros j k a b. destruct (decide (i = j)) as [<-|]; destruct (decide (i = k)) as [<-|]; try done;
      rewrite ?list_lookup_insert_eq, ?list_lookup_insert_ne by done.
    + intros [= <-] Hb E. exfalso. by apply (Hne k b).
    + intros Ha [= <-] E. exfalso. by apply (Hne j a).
    + eauto.
  - intros j k Hjk. destruct (decide (i = j)) as [<-|]; rewrite ?list_lookup_insert_eq, ?list_lookup_insert_ne by lia; [done|].
    intros Hj. destruct (decide (i = k)) as [<-|].
    + exfalso. apply (Hfull j); [lia|done].
    + rewrite list_lookup_insert_ne by done. eauto.
Qed.

Lemma wp_register_from fs nm Q s n i :
  length (registered_filesystems s) = (i + n)%nat ->
  (forall j a, registered_filesystems s !! j = Some (Some a) -> is_Some (name (fs_ops a))) ->
  (forall j a, (j < i)%nat -> registered_filesystems s !! j = Some (Some a) -> name (fs_ops a) <> Some nm) ->
  (forall j, (j < i)%nat -> registered_filesystems s !! j <> Some None) ->
  (forall k, registered_filesystems s !! k = Some None ->
     (forall j a, (j < k)%nat -> registered_filesystems s !! j = Some (Some a) -> name (fs_ops a) <> Some nm) ->
     (forall j, (j < k)%nat -> registered_filesystems s !! j <> Some None) ->
     Q VFS_SUCCESS (set_registered (<[k := Some fs]> (registered_filesystems s)) s)) ->
  (forall k a nm', registered_filesystems s !! k = Some (Some a) -> name (fs_ops a) = Some nm' ->
     vfs_strcmp nm' nm = 0 -> Q VFS_ERR_EXISTS s) ->
  ((forall j, registered_filesystems s !! j <> Some None) -> Q VFS_ERR_NO_SPACE s) ->
  wp (register_from fs_ops i n fs nm) Q s.
Proof.
  intros Hlen Hnamed Hlt Hfull Hok Hex Hno. revert i Hlen Hlt Hfull.
  induction n as [|n IH]; intros i Hlen Hlt Hfull; cbn [register_from].
  { wp_steps. apply Hno. intros j Hj. apply (Hfull j); [|done].
    apply lookup_lt_Some in Hj. lia. }
  wp_steps. rewrite wp_deref. destruct (lookup_lt_is_Some_2 (registered_filesystems s) i) as [slot Hi]; [lia|].
  exists slot. split; [done|]. destruct slot as [a|].
  - destruct (Hnamed i a Hi) as [nm' Hnm']. unfold fs_name_at. rewrite wp_bind, wp_deref.
    exists nm'. split; [done|]. destruct (Z.eqb_spec (vfs_strcmp nm' nm) 0) as [E|E].
    { wp_steps. eauto. }
    apply IH; [lia| |].
    + intros j b Hj Hb. destruct (decide (j = i)) as [->|]; [|apply (Hlt j); [lia|done]].
      simplify_eq. rewrite Hnm'. intros [= ->]. by rewrite strcmp_refl in E.
    + intros j Hj. destruct (decide (j = i)) as [->|]; [congruence|]. apply Hfull. lia.
  - wp_steps. by apply Hok.
Qed.

Lemma wp_find_type_from nm Q s n i :
  length (registered_filesystems s) = (i + n)%nat ->
  (forall j a, registered_filesystems s !! j = Some (Some a) -> is_Some (name (fs_ops a))) ->
  Q None s ->
  (forall k a nm', registered_filesystems s !! k = Some (Some a) -> name (fs_ops a) = Some nm' ->
     vfs_strcmp nm' nm = 0 -> Q (Some a) s) ->
  wp (find_type_from fs_ops i n nm) Q s.
Proof.
  intros Hlen Hnamed Hno Hok. revert i Hlen.
  induction n as [|n IH]; intros i Hlen; cbn [find_type_from]; [by wp_steps|].
  wp_steps. rewrite wp_deref. destruct (lookup_lt_is_Some_2 (registered_filesystems s) i) as [slot Hi]; [lia|].
  exists slot. split; [done|]. destruct slot as [a|]; [|apply IH; lia].
  destruct (Hnamed i a Hi) as [nm' Hnm']. unfold fs_name_at. rewrite wp_bind, wp_deref.
  exists nm'. split; [done|]. destruct (Z.eqb_spec (vfs_strcmp nm' nm) 0) as [E|E]; [wp_steps; eauto|].
  apply IH. lia.
Qed.

(** Taking and releasing a lock that is free changes nothing else. *)
Lemma inv_registry_relock s v s' : inv s ->
  s' = set_registered v (set_registry_lock (lock1 (fs_registry_lock s)) s) ->
  inv (set_registered v s) -> inv (set_registry_lock (unlock1 (fs_registry_lock s')) s').
Proof.
  intros Hinv -> Hv. destruct (inv_locks _ Hinv) as [_ Hl].
  destruct s. unfold set_registered, set_registry_lock in *. cbn in *. rewrite Hl in Hv |- *. exact Hv.
Qed.

Lemma set_registered_id s : set_registered (registered_filesystems s) s = s.
Proof. by destruct s. Qed.

Lemma register_safe fs s : inv s -> wp (vfs_register_fs fs_ops fs) (fun _ s' => inv s') s.
Proof.
  intros Hinv. unfold vfs_register_fs. wp_steps. rewrite (inv_init _ Hinv). cbn [negb].
  destruct fs as [a|]; [|by wp_steps]. destruct (name (fs_ops a)) as [nm|] eqn:Hnm; [|by wp_steps].
  unfold lock_registry, unlock_registry. wp_steps.
  set (s1 := set_registry_lock (lock1 (fs_registry_lock s)) s).
  assert (Hsame : inv (set_registry_lock (unlock1 (fs_registry_lock s1)) s1)).
  { apply (inv_registry_relock s (registered_filesystems s)); [done|symmetry; apply (set_registered_id s1)|]. by rewrite set_registered_id. }
  apply wp_register_from; cbn [s1 set_registry_lock registered_filesystems].
  - apply (inv_slots _ Hinv).
  - apply (inv_named _ Hinv).
  - lia.
  - lia.
  - intros k Hk H1 H2. wp_steps.
    apply (inv_registry_relock s (<[k:=Some a]> (registered_filesystems s))); [done|done|].
    by apply (registry_write _ _ _ nm).
  - intros. by wp_steps.
  - intros. by wp_steps.
Qed.

(** *** Mounting *)

Definition not_mounted s (np : path) : Prop :=
  forall b n, b ∈ mount_points s -> mounts s !! b = Some n -> mount_point n <> np.

(** The branches of [vfs_mount]: every failure leaves the VFS as it was, up to
    what the file system did to its own state. *)
Lemma mount_spec fs_name dev mp flags mem s Q : inv s ->
  (forall a, mem = Some a -> mounts s !! a = None) ->
  (forall e w, e <> VFS_SUCCESS -> Q e (set_world w s)) ->
  (forall a p t d w, mem = Some a -> mp = Some p ->
     not_mounted s (vfs_normalize_path p VFS_MAX_PATH) ->
     (exists i nm nm', fs_name = Some nm /\ registered_filesystems s !! i = Some (Some t) /\
        name (fs_ops t) = Some nm' /\ vfs_strcmp nm' nm = 0) ->
     Q VFS_SUCCESS
       (set_mount_points (mount_points s ++ [a])
          (set_mounts (<[a := mk_mount (vfs_normalize_path p VFS_MAX_PATH)
                                (match dev with Some x => vfs_copy_path x VFS_MAX_PATH | None => [] end)
                                (Some t) d flags 0]> (mounts s)) (set_world w s)))) ->
  wp (vfs_mount fs_ops fs_name dev mp flags mem) Q s.
Proof.
  intros Hinv Hmem Herr Hok. destruct s as [reg mps ini vl rl ms fs w].
  destruct (inv_locks _ Hinv) as [Hvl Hrl]. pose proof (inv_init _ Hinv) as Hini.
  pose proof (inv_slots _ Hinv) as Hslots. pose proof (inv_named _ Hinv) as Hnamed. pose proof (inv_live _ Hinv) as Hlive.
  cbn in Hvl, Hrl, Hini, Hslots, Hnamed, Hlive, Hmem. subst vl rl ini.
  assert (Hsame : forall e, e <> VFS_SUCCESS -> Q e (mk_vfs reg mps true 0 0 ms fs w)).
  { intros e He. apply (Herr e w He). }
  unfold vfs_mount. wp_steps. cbn [vfs_initialized negb].
  destruct fs_name as [fs_name|]; [|wp_steps; by apply Hsame].
  destruct mp as [p|]; [|wp_steps; by apply Hsame].
  unfold lock_registry, unlock_registry, lock_vfs, unlock_vfs, vfs_find_fs_type. wp_steps.
  apply wp_find_type_from; [done|done| |].
  { wp_steps. by apply Hsame. }
  intros k t nm Hk Hkn Hks. wp_steps. rewrite normalize_copy.
  apply wp_find_exact.
  - intros a Ha. destruct (Hlive a Ha) as (m & Hm & _). eauto.
  - cbn. intros Hnew. destruct mem as [a|]; [|wp_steps; by apply Hsame].
    specialize (Hmem a eq_refl). unfold put_mount. wp_steps. cbn.
    destruct (mount_h (fs_ops t)) as [h|].
    + wp_steps. rewrite wp_mount_at. eexists. split; [apply lookup_insert_eq|].
      wp_steps. rewrite wp_handler. wp_steps. cbn.
      match goal with |- context [h ?m w] => destruct (h m w) as [[r d] w'] end. cbn.
      rewrite insert_insert_eq. destruct (Z.eqb_spec r VFS_SUCCESS) as [->|Hr]; cbn [negb].
      * wp_steps. cbn. by apply (Hok a p t d w'); eauto 10.
      * wp_steps. erewrite wp_free_mount by apply lookup_insert_eq. wp_steps. cbn.
        rewrite delete_insert_id by done. by apply (Herr r w').
    + wp_steps. cbn. wp_steps. cbn. by apply (Hok a p t None w); eauto 10.
  - cbn. intros a m Ha Hm E. wp_steps. by apply Hsame.
Qed.

Lemma mount_inv s a m w : inv s -> mounts s !! a = None -> m_lock m = 0 -> mount_point m <> [] ->
  nulfree (mount_point m) -> not_mounted s (mount_point m) ->
  inv (set_mount_points (mount_points s ++ [a]) (set_mounts (<[a := m]> (mounts s)) (set_world w s))).
Proof.
  intros [] Ha Hl Hne Hnul Hnew. assert (Hout : a ∉ mount_points s).
  { intros Hin. destruct (inv_live0 a Hin) as (? & ? & _). congruence. }
  assert (Hold : forall b, b ∈ mount_points s -> <[a := m]> (mounts s) !! b = mounts s !! b).
  { intros b Hb. apply lookup_insert_ne. by intros ->. }
  split; try done; cbn.
  - apply NoDup_app. split_and!; [done| |apply NoDup_singleton]. intros b Hb ->%list_elem_of_singleton. done.
  - intros b [Hb| ->%list_elem_of_singleton]%elem_of_app; [rewrite Hold by done; eauto|].
    rewrite lookup_insert_eq. eauto.
  - intros b mb [Hb| ->%list_elem_of_singleton]%elem_of_app; [rewrite Hold by done; eauto|].
    rewrite lookup_insert_eq. by intros [= <-].
  - intros b c mb mc [Hb| ->%list_elem_of_singleton]%elem_of_app [Hc| ->%list_elem_of_singleton]%elem_of_app; try done;
      rewrite ?lookup_insert_eq, ?Hold by done.
    + eauto.
    + intros Hmb [= <-] E. exfalso. by apply (Hnew b mb).
    + intros [= <-] Hmc E. exfalso. by apply (Hnew c mc).
  - intros b f Hf. destruct (inv_files0 b f Hf) as (c & ? & ?). exists c. split; [done|].
    apply elem_of_app. by left.
Qed.

Lemma mount_safe fs_name dev mp flags mem s : inv s ->
  (forall a, mem = Some a -> mounts s !! a = None) ->
  wp (vfs_mount fs_ops fs_name dev mp flags mem) (fun _ s' => inv s') s.
Proof.
  intros Hinv Hmem. apply mount_spec; [done|done| |].
  - intros. by apply inv_set_world.
  - intros a p t d w Ha -> Hnew _. apply mount_inv; [done|by apply Hmem|done| |apply normalize_nulfree|done].
    cbn. pose proof (normalize_length p). destruct (vfs_normalize_path p VFS_MAX_PATH); [simpl in *; lia|done].
Qed.

(** *** Unmounting *)

Lemma unmount_spec mp s Q : inv s ->
  (mp = None -> Q VFS_ERR_INVALID_ARG s) ->
  (forall p, mp = Some p -> not_mounted s (vfs_normalize_path p VFS_MAX_PATH) -> Q VFS_ERR_NOT_FOUND s) ->
  (forall p a m e d w, mp = Some p -> a ∈ mount_points s -> mounts s !! a = Some m ->
     vfs_strcmp (mount_point m) (vfs_normalize_path p VFS_MAX_PATH) = 0 -> e <> VFS_SUCCESS ->
     Q e (set_mounts (<[a := with_m_fs_data d m]> (mounts s)) (set_world w s))) ->
  (forall p a m w, mp = Some p -> a ∈ mount_points s -> mounts s !! a = Some m ->
     vfs_strcmp (mount_point m) (vfs_normalize_path p VFS_MAX_PATH) = 0 ->
     Q VFS_SUCCESS (set_mount_points (unlink_node a (mount_points s))
                      (set_mounts (delete a (mounts s)) (set_world w s)))) ->
  wp (vfs_unmount fs_ops mp) Q s.
Proof.
  intros Hinv Hinval Hnf Herr Hok. destruct s as [reg mps ini vl rl ms fs w].
  destruct (inv_locks _ Hinv) as [Hvl Hrl]. pose proof (inv_init _ Hinv) as Hini. pose proof (inv_live _ Hinv) as Hlive.
  cbn in Hvl, Hrl, Hini, Hlive. subst vl rl ini.
  unfold vfs_unmount. wp_steps. cbn [vfs_initialized negb].
  destruct mp as [p|]; [|wp_steps; by apply Hinval].
  unfold lock_vfs, unlock_vfs. wp_steps. apply wp_find_exact.
  - intros a Ha. destruct (Hlive a Ha) as (m & Hm & _). eauto.
  - cbn. intros Hn. wp_steps. cbn. by apply (Hnf p).
  - cbn. intros a m Ha Hm E. wp_steps. rewrite wp_mount_at. exists m. split; [done|]. wp_steps.
    assert (Hdone : wp (modify (fun s => set_mount_points (unlink_node a (mount_points s)) s) ;;;
                free_mount a ;;; unlock_vfs ;;; ret VFS_SUCCESS)%kernel Q (mk_vfs reg mps true 1 0 ms fs w)).
    { wp_steps. erewrite wp_free_mount by done. unfold unlock_vfs. wp_steps. by apply (Hok p a m w). }
    assert (Hun : wp (match fs_type m with
                      | Some t =>
                          match unmount_h (fs_ops t) with
                          | Some h => r <- run (h m) ;; put_mount a (with_m_fs_data r.2 m) ;;; ret r.1
                          | None => ret VFS_SUCCESS
                          end
                      | None => ret VFS_SUCCESS
                      end)%kernel
                 (fun result s' => s' = mk_vfs reg mps true 1 0 ms fs w /\ result = VFS_SUCCESS \/
                    exists d w', s' = mk_vfs reg mps true 1 0 (<[a := with_m_fs_data d m]> ms) fs w')
                 (mk_vfs reg mps true 1 0 ms fs w)).
    { destruct (fs_type m) as [t|]; [|by left]. destruct (unmount_h (fs_ops t)) as [h|]; [|by left].
      wp_steps. rewrite wp_handler. unfold put_mount. wp_steps. right. cbn. eauto. }
    eapply wp_mono; [exact Hun|]. intros result s' [[-> ->]|(d & w' & ->)]; [done|].
    destruct (Z.eqb_spec result VFS_SUCCESS) as [->|Hr]; cbn [negb].
    + wp_steps. erewrite wp_free_mount by apply lookup_insert_eq. wp_steps. cbn.
      rewrite delete_insert_eq. by apply (Hok p a m w').
    + wp_steps. by apply (Herr p a m result d w').
Qed.

Lemma unlink_node_spec a ms : NoDup ms -> forall b, b ∈ unlink_node a ms <-> b ∈ ms /\ b <> a.
Proof.
  induction 1 as [|c ms Hc Hnd IH]; intros b; cbn [unlink_node].
  - split; [by intros ?%not_elem_of_nil|intros [[]%not_elem_of_nil _]].
  - destruct (Pos.eqb_spec a c) as [->|Hne]; rewrite !elem_of_cons; [|rewrite IH]; naive_solver.
Qed.

Lemma unlink_node_nodup a ms : NoDup ms -> NoDup (unlink_node a ms).
Proof.
  induction 1 as [|c ms Hc Hnd IH]; cbn [unlink_node]; [constructor|].
  case_if; [done|]. constructor; [|done]. rewrite unlink_node_spec by done. tauto.
Qed.

Lemma unlink_node_last a ms : a ∉ ms -> unlink_node a (ms ++ [a]) = ms.
Proof.
  induction ms as [|b ms IH]; intros Ha; cbn [unlink_node app]; [by rewrite Pos.eqb_refl|].
  apply not_elem_of_cons in Ha as [Ha1 Ha2]. destruct (Pos.eqb_spec a b); [done|]. by rewrite IH.
Qed.

(** No handle is open on the mount at [a]. *)
Definition unused s (a : addr) : Prop := forall b f, files s !! b = Some f -> f_mount f <> Some a.

Lemma unmount_inv s a w : inv s -> unused s a ->
  inv (set_mount_points (unlink_node a (mount_points s)) (set_mounts (delete a (mounts s)) (set_world w s))).
Proof.
  intros [] Hu. split; try done; cbn.
  - by apply unlink_node_nodup.
  - intros b. rewrite unlink_node_spec by done. intros [Hb Hne]. rewrite lookup_delete_ne by done. eauto.
  - intros b mb. rewrite unlink_node_spec by done. intros [Hb Hne]. rewrite lookup_delete_ne by done. eauto.
  - intros b c mb mc. rewrite !unlink_node_spec by done. intros [Hb Hne] [Hc Hne'].
    rewrite !lookup_delete_ne by done. eauto.
  - intros b f Hf. destruct (inv_files0 b f Hf) as (c & Hc & Hin). exists c. split; [done|].
    rewrite unlink_node_spec by done. split; [done|]. intros ->. by apply (Hu b f).
Qed.

Lemma fs_data_inv s a m d w : inv s -> mounts s !! a = Some m ->
  inv (set_mounts (<[a := with_m_fs_data d m]> (mounts s)) (set_world w s)).
Proof.
  intros [] Ha.
  assert (Hold : forall b n, <[a := with_m_fs_data d m]> (mounts s) !! b = Some n ->
            exists n', mounts s !! b = Some n' /\ mount_point n = mount_point n').
  { intros b n [[<- <-]|[? Hn]]%lookup_insert_Some; eauto. }
  split; try done; cbn.
  - intros b Hb. destruct (inv_live0 b Hb) as (n & Hn & Hne & Hl). destruct (decide (a = b)) as [<-|].
    + rewrite lookup_insert_eq. simplify_eq. eexists. split; [done|]. done.
    + rewrite lookup_insert_ne by done. eauto.
  - intros b mb Hb (n & Hn & ->)%Hold. eauto.
  - intros b c mb mc Hb Hc (n & Hn & ->)%Hold (n' & Hn' & ->)%Hold. eauto.
Qed.

Lemma unmount_safe mp s : inv s ->
  (forall p a m, mp = Some p -> mounts s !! a = Some m ->
     vfs_strcmp (mount_point m) (vfs_normalize_path p VFS_MAX_PATH) = 0 -> unused s a) ->
  wp (vfs_unmount fs_ops mp) (fun _ s' => inv s') s.
Proof.
  intros Hinv Hu. apply unmount_spec; [done|done|done| |].
  - intros. by apply fs_data_inv.
  - intros p a m w -> Ha Hm E. apply unmount_inv; [done|]. by apply (Hu p a m).
Qed.

(** *** Opening *)

Lemma mount_relock (ms : gmap positive (vfs_mount_t D)) a m m' m1 :
  ms !! a = Some m -> m' = m -> <[a := m']> (<[a := m1]> ms) = ms.
Proof. intros Hm ->. rewrite insert_insert_eq. by apply insert_id. Qed.

Lemma with_m_lock_relock (m : vfs_mount_t D) : m_lock m = 0 ->
  with_m_lock (unlock1 (lock1 (m_lock m))) (with_m_lock (lock1 (m_lock m)) m) = m.
Proof. intros Hl. destruct m. cbn in *. by subst. Qed.

Definition rel_path (p : path) (m : vfs_mount_t D) : path :=
  vfs_extract_relative_path p (mount_point m) VFS_MAX_PATH.

(** The branches of [vfs_open]; the locks are free again in each. *)
Lemma open_spec p flags file mem s Q : inv s ->
  (forall b, mem = Some b -> files s !! b = None) ->
  (forall e w, e <> VFS_SUCCESS -> Q (e, None) (set_world w s)) ->
  (forall b q a m pv w, mem = Some b -> p = Some q -> file = true -> best_mount s q a m ->
     Q (VFS_SUCCESS, Some b)
       (set_files (<[b := mk_file (Some a) (vfs_copy_path (rel_path q m) VFS_MAX_PATH) flags
                            (p_position pv) (p_data pv) 0]> (files s)) (set_world w s))) ->
  wp (vfs_open fs_ops p flags file mem) Q s.
Proof.
  intros Hinv Hmem Herr Hok. destruct s as [reg mps ini vl rl ms fs w].
  destruct (inv_locks _ Hinv) as [Hvl Hrl]. pose proof (inv_init _ Hinv) as Hini. pose proof (inv_live _ Hinv) as Hlive.
  cbn in Hvl, Hrl, Hini, Hlive, Hmem. subst vl rl ini.
  assert (Hsame : forall e, e <> VFS_SUCCESS -> Q (e, None) (mk_vfs reg mps true 0 0 ms fs w)).
  { intros e He. apply (Herr e w He). }
  unfold vfs_open. wp_steps. cbn [vfs_initialized negb].
  destruct p as [q|]; [|wp_steps; by apply Hsame]. destruct file; [|wp_steps; by apply Hsame].
  unfold lock_vfs, unlock_vfs. wp_steps. apply wp_resolve; [done| |].
  { cbn. intros _. wp_steps. by apply Hsame. }
  cbn. intros a m Hbest. fold (rel_path q m). assert (Ha : ms !! a = Some m) by apply Hbest.
  destruct (Hlive a) as (m0 & Hm0 & _ & Hl); [apply Hbest|]. simplify_eq.
  unfold lock_mount, unlock_mount, put_mount. wp_steps. rewrite wp_mount_at. exists m. split; [done|].
  wp_steps. cbn. set (m1 := with_m_lock (lock1 (m_lock m)) m).
  destruct mem as [b|].
  2: { wp_steps. rewrite wp_mount_at. eexists. split; [apply lookup_insert_eq|]. wp_steps. cbn.
       rewrite (mount_relock _ _ m) by (done || by apply with_m_lock_relock). by apply Hsame. }
  unfold put_file. wp_steps. rewrite wp_mount_at. eexists. split; [apply lookup_insert_eq|]. wp_steps. cbn.
  set (f0 := mk_file (Some a) (vfs_copy_path (rel_path q m) VFS_MAX_PATH) flags 0 (@None D) 0).
  destruct (handler fs_ops open_h m1) as [h|].
  - erewrite wp_run_file by apply lookup_insert_eq. cbn.
    match goal with |- context [h m1 ?r ?fl ?f w] => destruct (h m1 r fl f w) as [[r' pv] w'] end.
    cbn. rewrite insert_insert_eq. destruct (Z.eqb_spec r' VFS_SUCCESS) as [->|Hr]; cbn [negb].
    + wp_steps. rewrite wp_mount_at. eexists. split; [apply lookup_insert_eq|]. wp_steps. cbn.
      rewrite (mount_relock _ _ m) by (done || by apply with_m_lock_relock). by apply (Hok b q a m pv w').
    + wp_steps. erewrite wp_free_file by apply lookup_insert_eq. wp_steps.
      rewrite wp_mount_at. eexists. split; [apply lookup_insert_eq|]. wp_steps. cbn.
      rewrite (mount_relock _ _ m) by (done || by apply with_m_lock_relock). rewrite delete_insert_id by (by apply Hmem). by apply (Herr r' w').
  - wp_steps. cbn. wp_steps. rewrite wp_mount_at. eexists. split; [apply lookup_insert_eq|]. wp_steps. cbn.
    rewrite (mount_relock _ _ m) by (done || by apply with_m_lock_relock). by apply (Hok b q a m (mk_priv None 0) w).
Qed.

Lemma open_safe p flags file mem s : inv s -> (forall b, mem = Some b -> files s !! b = None) ->
  wp (vfs_open fs_ops p flags file mem) (fun _ s' => inv s') s.
Proof.
  intros Hinv Hmem. apply open_spec; [done|done| |].
  - intros. by apply inv_set_world.
  - intros b q a m pv w _ _ _ Hb. apply (inv_new_file (set_world w s) b a); [by apply inv_set_world|done|apply Hb|done].
Qed.

Lemma opendir_safe p dir mem junk s : inv s -> (forall b, mem = Some b -> files s !! b = None) ->
  wp (vfs_opendir fs_ops p dir mem junk) (fun _ s' => inv s') s.
Proof.
  intros Hinv Hmem. unfold vfs_opendir. wp_steps. rewrite (inv_init _ Hinv). cbn [negb].
  destruct p as [q|]; [|by wp_steps]. destruct dir; [|by wp_steps]. wp_steps.
  apply wp_resolve; [apply Hinv|intros _; by wp_steps|]. intros a m Hbest.
  destruct mem as [b|]; [|by wp_steps]. unfold put_file. wp_steps.
  set (f0 := mk_file (Some a) _ 0 0 (@None D) junk).
  assert (Hinv0 : inv (set_files (<[b := f0]> (files s)) s)) by (apply (inv_new_file s b a); [done|done|apply Hbest|done]).
  destruct (handler fs_ops opendir_h m) as [h|].
  - wp_steps. erewrite wp_run_file by apply lookup_insert_eq. cbn zeta.
    match goal with |- context [h m ?r f0 ?w] => destruct (h m r f0 w) as [[r' pv] w'] end. cbn [fst snd].
    set (s1 := set_world w' (set_files (<[b := f0]> (files s)) s)).
    assert (Hinv1 : inv (set_files (<[b := with_priv pv f0]> (files s1)) s1)).
    { apply (inv_put_file s1 b f0); [by apply inv_set_world|apply lookup_insert_eq]. }
    case_if; wp_steps; [|done]. erewrite wp_free_file by apply lookup_insert_eq. wp_steps.
    by apply (inv_delete_file _ b) in Hinv1.
  - wp_steps. erewrite wp_free_file by apply lookup_insert_eq. wp_steps.
    by apply (inv_delete_file _ b) in Hinv0.
Qed.

(** *** The other calls *)

Lemma path_call_safe {H} (sel : vfs_filesystem_t W D -> option H) call p s : inv s ->
  wp (path_call fs_ops sel call p) (fun _ s' => inv s') s.
Proof.
  intros Hinv. unfold path_call. wp_steps. apply wp_resolve; [apply Hinv|by intros; wp_steps|].
  intros a m Hb. destruct (handler fs_ops sel m); [|by wp_steps]. rewrite wp_handler. by apply inv_set_world.
Qed.

Lemma wp_file_handler {H} (sel : vfs_filesystem_t W D -> option H) b f Q s : inv s ->
  files s !! b = Some f -> Q None s -> (forall a m h, f_mount f = Some a -> mounts s !! a = Some m -> Q (Some (m, h)) s) ->
  wp (file_handler fs_ops sel f) Q s.
Proof.
  intros Hinv Hf Hn Hs. destruct (inv_files _ Hinv b f Hf) as (a & Ha & Hin).
  destruct (inv_live _ Hinv a Hin) as (m & Hm & _). unfold file_handler. rewrite Ha. wp_steps.
  rewrite wp_mount_at. exists m. split; [done|]. wp_steps. destruct (handler fs_ops sel m); eauto.
Qed.

Lemma run_file_safe {A} b f (h : vfs_file_t D -> W -> A * priv D * W) s : inv s -> files s !! b = Some f ->
  wp (run_file b h) (fun _ s' => inv s') s.
Proof.
  intros Hinv Hf. rewrite wp_run_file by done. cbn zeta.
  eapply (inv_put_file (set_world _ s)); [by apply inv_set_world|done].
Qed.

Lemma close_safe sel b f s : inv s -> files s !! b = Some f ->
  wp (close_with fs_ops sel b) (fun _ s' => inv s') s.
Proof.
  intros Hinv Hf. unfold close_with. wp_steps. rewrite wp_file_at. exists f. split; [done|]. wp_steps.
  apply (wp_file_handler sel b); [done|done| |].
  - wp_steps. erewrite wp_free_file by done. wp_steps. by apply inv_delete_file.
  - intros a m h Ha Hm. wp_steps. rewrite wp_handler. wp_steps. erewrite wp_free_file by done. wp_steps.
    by apply (inv_delete_file (set_world _ s)), inv_set_world.
Qed.

(** The handle is stored again with the same mount and a free lock. *)
Lemma relocked_inv s b f f' : inv s -> files s !! b = Some f -> f_mount f' = f_mount f ->
  f_lock f' = 0 -> inv (set_files (<[b := f']> (files s)) s).
Proof.
  intros Hinv Hf Hm Hl. destruct (inv_files _ Hinv b f Hf) as (a & Ha & Hin).
  apply (inv_new_file s b a); [done|congruence|done|done].
Qed.

(** [vfs_read] and [vfs_write] between taking and releasing the file's lock. *)
Lemma locked_safe {A H} (sel : vfs_filesystem_t W D -> option H)
    (call : vfs_mount_t D -> H -> vfs_file_t D -> W -> A * priv D * W) (dflt : A) b f s :
  inv s -> files s !! b = Some f -> f_flags f <> 0 ->
  wp (lock_file b ;;; h <- file_handler fs_ops sel f ;;
      result <- match h with Some (m, h) => run_file b (call m h) | None => ret dflt end ;;
      unlock_file b ;;; ret result)%kernel (fun _ s' => inv s') s.
Proof.
  intros Hinv Hf Hfl. pose proof (inv_flocks _ Hinv b f Hf Hfl) as Hl.
  destruct (inv_files _ Hinv b f Hf) as (a & Ha & Hin). destruct (inv_live _ Hinv a Hin) as (m & Hm & _).
  unfold lock_file, unlock_file, put_file. wp_steps.
  rewrite wp_file_at. exists f. split; [done|]. wp_steps.
  set (f1 := with_f_lock (lock1 (f_lock f)) f).
  unfold file_handler. rewrite Ha. wp_steps. rewrite wp_mount_at. exists m. split; [done|]. wp_steps.
  destruct (handler fs_ops sel m) as [h|]; cbn beta iota.
  - rewrite (wp_run_file b f1) by apply lookup_insert_eq. cbn zeta. wp_steps.
    rewrite wp_file_at. eexists. split; [apply lookup_insert_eq|]. wp_steps.
    cbn [files set_files set_world]. rewrite !insert_insert_eq.
    match goal with |- context [with_priv ?pv f1] => set (pv' := pv) end.
    match goal with |- context [set_world ?w _] => set (w' := w) end.
    apply (relocked_inv (set_world w' s) b f); [by apply inv_set_world|done..|]. cbn. by rewrite Hl.
  - wp_steps. rewrite wp_file_at. eexists. split; [apply lookup_insert_eq|]. wp_steps.
    cbn [files set_files]. rewrite insert_insert_eq.
    apply (relocked_inv s b f); [done..|]. cbn. by rewrite Hl.
Qed.

(** ** The calls of the VFS *)

Inductive call : Type :=
| Register (fs : ptr)
| Mount (fs_name dev mp : option path) (flags : Z) (mem : ptr)
| Unmount (mp : option path)
| Open (p : option path) (flags : Z) (file : bool) (mem : ptr)
| Close (file : ptr)
| Read (file buffer : ptr) (size : Z) (count : bool)
| Write (file buffer : ptr) (size : Z) (count : bool)
| Seek (file : ptr) (offset whence : Z)
| Tell (file : ptr) (offset : bool)
| Flush (file : ptr)
| Stat (p : option path) (stat : ptr)
| Opendir (p : option path) (dir : bool) (mem : ptr) (junk : Z)
| Readdir (dir dirent : ptr)
| Closedir (dir : ptr)
| Mkdir (p : option path)
| Rmdir (p : option path)
| Unlink (p : option path)
| Rename (oldpath newpath : option path)
| Statfs (p : option path) (total free : ptr).

Definition code {A} (m : M (vfs W D) (Z * A)) : M (vfs W D) Z := (r <- m ;; ret r.1)%kernel.

Definition exec (c : call) : M (vfs W D) Z :=
  match c with
  | Register fs => vfs_register_fs fs_ops fs
  | Mount n d p fl mem => vfs_mount fs_ops n d p fl mem
  | Unmount p => vfs_unmount fs_ops p
  | Open p fl f mem => code (vfs_open fs_ops p fl f mem)
  | Close f => vfs_close fs_ops f
  | Read f b n c => code (vfs_read fs_ops f b n c)
  | Write f b n c => code (vfs_write fs_ops f b n c)
  | Seek f o w => vfs_seek fs_ops f o w
  | Tell f o => code (vfs_tell fs_ops f o)
  | Flush f => vfs_flush fs_ops f
  | Stat p st => vfs_stat fs_ops p st
  | Opendir p d mem junk => code (vfs_opendir fs_ops p d mem junk)
  | Readdir d e => vfs_readdir fs_ops d e
  | Closedir d => vfs_closedir fs_ops d
  | Mkdir p => vfs_mkdir fs_ops p
  | Rmdir p => vfs_rmdir fs_ops p
  | Unlink p => vfs_unlink fs_ops p
  | Rename o n => vfs_rename fs_ops o n
  | Statfs p t f => vfs_statfs fs_ops p t f
  end.

(** A handle is NULL or one that is open. *)
Definition handle_ok s (file : ptr) : Prop := forall b, file = Some b -> is_Some (files s !! b).

(** What the caller owes: handles that are open, memory [malloc] did not give
    out before, and no handle left on the mount that is unmounted. *)
Definition call_ok s (c : call) : Prop :=
  match c with
  | Mount _ _ _ _ mem => forall a, mem = Some a -> mounts s !! a = None
  | Unmount mp => forall p a m, mp = Some p -> mounts s !! a = Some m ->
      vfs_strcmp (mount_point m) (vfs_normalize_path p VFS_MAX_PATH) = 0 -> unused s a
  | Open _ _ _ mem | Opendir _ _ mem _ => forall b, mem = Some b -> files s !! b = None
  | Close f | Read f _ _ _ | Write f _ _ _ | Seek f _ _ | Tell f _ | Flush f | Readdir f _ | Closedir f =>
      handle_ok s f
  | _ => True
  end.

Lemma code_safe {A} (m : M (vfs W D) (Z * A)) s :
  wp m (fun _ s' => inv s') s -> wp (code m) (fun _ s' => inv s') s.
Proof. intros H. unfold code. wp_steps. eapply wp_mono; [exact H|]. intros. by wp_steps. Qed.

(** A call on a handle runs its handler, or leaves the VFS as it is. *)
Lemma handle_call_safe {A H} (sel : vfs_filesystem_t W D -> option H)
    (k : option (vfs_mount_t D * H) -> M (vfs W D) A) b f s :
  inv s -> files s !! b = Some f ->
  (forall r, wp (k r) (fun _ s' => inv s') s) ->
  wp (f <- file_at b ;; h <- file_handler fs_ops sel f ;; k h)%kernel (fun _ s' => inv s') s.
Proof.
  intros Hinv Hf Hk. wp_steps. rewrite wp_file_at. exists f. split; [done|]. wp_steps.
  apply (wp_file_handler sel b); auto.
Qed.

(** Past the test of [vfs_initialized]; a NULL argument ends the call there. *)
Ltac started Hinv := wp_steps; rewrite (inv_init _ Hinv); cbn [negb].
Ltac given p := let x := fresh p in destruct p as [x|]; [|by wp_steps].

Lemma read_safe file buffer size count s : inv s -> handle_ok s file ->
  wp (vfs_read fs_ops file buffer size count) (fun _ s' => inv s') s.
Proof.
  intros Hinv Hok. unfold vfs_read. started Hinv. given file. given buffer.
  destruct (Hok file0) as [f Hf]; [done|].
  rewrite wp_bind, wp_file_at. exists f. split; [done|]. case_if; [by wp_steps|].
  assert (f_flags f <> 0) by (intros E0; by rewrite E0 in E).
  by apply (locked_safe read_h (fun m h f => h m f buffer0 size count)).
Qed.

Lemma write_safe file buffer size count s : inv s -> handle_ok s file ->
  wp (vfs_write fs_ops file buffer size count) (fun _ s' => inv s') s.
Proof.
  intros Hinv Hok. unfold vfs_write. started Hinv. given file. given buffer.
  destruct (Hok file0) as [f Hf]; [done|].
  rewrite wp_bind, wp_file_at. exists f. split; [done|]. case_if; [by wp_steps|].
  assert (f_flags f <> 0) by (intros E0; by rewrite E0 in E).
  by apply (locked_safe write_h (fun m h f => h m f buffer0 size count)).
Qed.

Lemma seek_safe file offset whence s : inv s -> handle_ok s file ->
  wp (vfs_seek fs_ops file offset whence) (fun _ s' => inv s') s.
Proof.
  intros Hinv Hok. unfold vfs_seek. started Hinv. given file.
  destruct (Hok file0) as [f Hf]; [done|]. rewrite wp_bind, wp_file_at. exists f. split; [done|]. wp_steps.
  apply (wp_file_handler seek_h file0); [done|done| |].
  - destruct (seek_position _ _ _); wp_steps; [|done]. unfold put_file. wp_steps. by apply (inv_put_file s file0 f).
  - intros. by apply (run_file_safe file0 f).
Qed.

Lemma tell_safe file offset s : inv s -> handle_ok s file ->
  wp (vfs_tell fs_ops file offset) (fun _ s' => inv s') s.
Proof.
  intros Hinv Hok. unfold vfs_tell. started Hinv. given file. destruct offset; [|by wp_steps].
  destruct (Hok file0) as [f Hf]; [done|]. rewrite wp_bind, wp_file_at. exists f. split; [done|]. wp_steps.
  apply (wp_file_handler tell_h file0); [done|done|by wp_steps|]. intros. by apply (run_file_safe file0 f).
Qed.

Lemma flush_safe file s : inv s -> handle_ok s file -> wp (vfs_flush fs_ops file) (fun _ s' => inv s') s.
Proof.
  intros Hinv Hok. unfold vfs_flush. started Hinv. given file. destruct (Hok file0) as [f Hf]; [done|].
  apply (handle_call_safe flush_h _ file0 f); [done..|].
  intros [[m h]|]; [by apply (run_file_safe file0 f)|by wp_steps].
Qed.

Lemma readdir_safe dir dirent s : inv s -> handle_ok s dir ->
  wp (vfs_readdir fs_ops dir dirent) (fun _ s' => inv s') s.
Proof.
  intros Hinv Hok. unfold vfs_readdir. started Hinv. given dir. given dirent.
  destruct (Hok dir0) as [f Hf]; [done|]. apply (handle_call_safe readdir_h _ dir0 f); [done..|].
  intros [[m h]|]; [by apply (run_file_safe dir0 f)|by wp_steps].
Qed.

Lemma closes_safe file s : inv s -> handle_ok s file ->
  wp (vfs_close fs_ops file) (fun _ s' => inv s') s /\ wp (vfs_closedir fs_ops file) (fun _ s' => inv s') s.
Proof.
  intros Hinv Hok. unfold vfs_close, vfs_closedir. split; started Hinv; given file;
    (destruct (Hok file0) as [f Hf]; [done|]); by apply (close_safe _ file0 f).
Qed.

Lemma rename_safe old new s : inv s -> wp (vfs_rename fs_ops old new) (fun _ s' => inv s') s.
Proof.
  intros Hinv. unfold vfs_rename. started Hinv. given old. given new. wp_steps.
  apply wp_find_mount_point; [apply Hinv|by intros; wp_steps|]. intros a m Ha. wp_steps.
  apply wp_find_mount_point; [apply Hinv|by intros; wp_steps|]. intros b n Hb. case_if; [by wp_steps|].
  wp_steps. rewrite wp_mount_at. exists m. split; [apply Ha|].
  destruct (handler fs_ops rename_h m); [rewrite wp_handler; by apply inv_set_world|by wp_steps].
Qed.

Lemma statfs_safe p total free s : inv s -> wp (vfs_statfs fs_ops p total free) (fun _ s' => inv s') s.
Proof.
  intros Hinv. unfold vfs_statfs. started Hinv. given p. given total. given free. wp_steps.
  apply wp_find_mount_point; [apply Hinv|by intros; wp_steps|]. intros a m Ha.
  wp_steps. rewrite wp_mount_at. exists m. split; [apply Ha|].
  destruct (handler fs_ops statfs_h m); [rewrite wp_handler; by apply inv_set_world|by wp_steps].
Qed.

Lemma path_calls_safe p st s : inv s ->
  wp (vfs_stat fs_ops p st) (fun _ s' => inv s') s /\ wp (vfs_mkdir fs_ops p) (fun _ s' => inv s') s /\
  wp (vfs_rmdir fs_ops p) (fun _ s' => inv s') s /\ wp (vfs_unlink fs_ops p) (fun _ s' => inv s') s.
Proof.
  intros Hinv. unfold vfs_stat, vfs_mkdir, vfs_rmdir, vfs_unlink.
  split_and!; started Hinv; given p; [given st|..]; by apply path_call_safe.
Qed.

#[local] Hint Resolve register_safe mount_safe unmount_safe open_safe opendir_safe read_safe write_safe
  seek_safe tell_safe flush_safe readdir_safe rename_safe statfs_safe : vfs.

Lemma calls_safe c s : inv s -> call_ok s c -> wp (exec c) (fun _ s' => inv s') s.
Proof.
  intros Hinv Hok. destruct c; cbn [exec call_ok] in *; try apply code_safe; auto with vfs;
    try (by apply closes_safe).
  all: try match goal with
    | |- wp (vfs_stat _ ?p ?st) _ _ => by apply (path_calls_safe p st)
    | |- wp (_ ?p) _ _ => by apply (path_calls_safe p None)
    end.
Qed.

Lemma init_inv s : vfs_initialized s = false -> files s = ∅ -> wp vfs_init (fun r s' => r = VFS_SUCCESS /\ inv s') s.
Proof.
  intros Hini Hf. unfold vfs_init. wp_steps. rewrite Hini. wp_steps. split; [done|].
  assert (Hnone : forall i a, replicate VFS_MAX_MOUNTS (@None addr) !! i = Some a -> a = None).
  { intros i a Hi. by apply lookup_replicate in Hi as [-> _]. }
  split; cbn; try done.
  - intros i a Hi%Hnone. done.
  - intros i j a b Hi%Hnone. done.
  - intros i j _ _ Hj. destruct (_ !! j) as [a|] eqn:E; [|done]. by apply Hnone in E as ->.
  - constructor.
  - intros a []%not_elem_of_nil.
  - intros a m []%not_elem_of_nil.
  - intros a b m n []%not_elem_of_nil.
  - intros b f. by rewrite Hf, lookup_empty.
  - intros b f. by rewrite Hf, lookup_empty.
Qed.

End Exec.

(** ** Properties *)

Section Properties.
Context {W D : Type} (fs_ops : positive -> vfs_filesystem_t W D).
Implicit Types s : vfs W D.
Local Open Scope kernel_scope.

(** C4. The VFS is safe for any file systems below it whose handlers return and
    leave the tables of the VFS alone: [vfs_init], called first, establishes the
    invariant, and each of the nineteen calls, on every branch, returns and keeps
    it when its caller owes nothing: the handles it passes are NULL or open, the
    memory malloc gives out was not in use, and no handle is left open on a mount
    that is unmounted (unmounting it would leave the handle dangling). By the
    invariant, registered names and mount points are unique, every mount point
    and every open handle refers to memory that is allocated, and no lock stays
    taken: the two global ones, that of every mount and that of every handle
    opened with flags are free (a directory handle has flags 0, its lock is never
    initialised and never taken). *)
Theorem vfs_calls_safe s :
  (vfs_initialized s = false -> files s = ∅ -> wp vfs_init (fun r s' => r = VFS_SUCCESS /\ inv fs_ops s') s) /\
  (forall c, inv fs_ops s -> call_ok s c -> wp (exec fs_ops c) (fun _ s' => inv fs_ops s') s).
Proof. split; [apply init_inv|intros; by apply calls_safe]. Qed.

(** C16. The mount that serves a path is the one with the longest mount point
    above it: [vfs_find_mount_point] changes nothing and, of the mounts whose
    mount point's components (the strings between its slashes) are the first
    components of the normalised path, gives the one whose mount point is longer
    than all the others, and NULL when there is none. A file system mounted on
    the root is no exception to this rule, and so is never found for a path with
    a component in it: its mount point "/" has an empty component after the
    slash, which no other normalised path has. *)
Theorem longest_mount_serves p s : inv fs_ops s ->
  exists r, vfs_find_mount_point p s = Ret (r, s) /\
    match r with
    | None => forall a m, ~ serves s p a m
    | Some a => exists m, serves s p a m /\
        forall b n, serves s p b n -> b <> a -> (length (mount_point n) < length (mount_point m))%nat
    end /\
    (nulfree p -> (length p <= 254)%nat -> components p <> [] ->
     forall a m, r = Some a -> mounts s !! a = Some m -> mount_point m <> [slash]).
Proof.
  intros Hinv.
  assert (H : wp (vfs_find_mount_point p) (fun r s' => s' = s /\
    match r with
    | None => forall a m, ~ serves s p a m
    | Some a => exists m, serves s p a m /\
        forall b n, serves s p b n -> b <> a -> (length (mount_point n) < length (mount_point m))%nat
    end) s).
  { refine (wp_find_mount_point fs_ops p _ s (inv_live _ _ Hinv) (fun H => conj eq_refl H) _). intros a m [Ha Hmax]. split; [done|]. exists m.
    split; [done|]. intros b n Hb Hne. specialize (Hmax b n Hb).
    destruct (decide (length (mount_point n) = length (mount_point m))) as [E|]; [|lia]. exfalso. apply Hne.
    destruct Ha as (Ha & Hm & Hp), Hb as (Hb & Hn & Hp').
    apply (inv_points _ _ Hinv b a n m); [done..|]. by eapply above_same_length. }
  apply wp_returns in H as (r & s' & Hr & -> & Hpost). exists r. split; [done|]. split; [done|].
  intros Hn Hl Hp a m -> Hm Hroot. destruct Hpost as (m' & (_ & Hm' & Hab) & _). simplify_eq.
  apply Hp. rewrite Hroot, normalize_short in Hab by done. by apply root_above.
Qed.

(** A file system mounted on ["/"] serves no file: as long as it is the
    only mount, opening any path other than the root itself fails with
    [VFS_ERR_NOT_FOUND] and changes nothing. *)
Theorem root_mount_serves_no_file s a m p flags mem : inv fs_ops s ->
  mount_points s = [a] -> mounts s !! a = Some m -> mount_point m = [slash] ->
  nulfree p -> (length p <= 254)%nat -> vfs_normalize_path p VFS_MAX_PATH <> [slash] ->
  vfs_open fs_ops (Some p) flags true mem s = Ret ((VFS_ERR_NOT_FOUND, None), s).
Proof.
  intros Hinv Hms Hm Hroot Hn Hl Hp.
  assert (H : wp (vfs_open fs_ops (Some p) flags true mem)
                (fun r s' => r = (VFS_ERR_NOT_FOUND, None) /\ s' = s) s).
  { destruct s as [reg mps ini vl rl ms fs w]. destruct (inv_locks _ _ Hinv) as [Hvl _].
    pose proof (inv_init _ _ Hinv) as Hini. pose proof (inv_live _ _ Hinv) as Hlive.
    cbn in Hvl, Hini, Hms, Hm, Hlive. subst vl ini mps. unfold vfs_open. wp_steps. cbn [negb vfs_initialized].
    unfold lock_vfs, unlock_vfs. wp_steps. apply (wp_resolve fs_ops); [exact Hlive|intros _; by wp_steps|].
    intros b n ((Hb & Hn' & Hpre) & _). cbn in Hb, Hn'. apply list_elem_of_singleton in Hb as ->. simplify_eq.
    rewrite Hroot in Hpre. exfalso. apply Hp. rewrite normalize_short in Hpre |- * by done. by apply root_above. }
  apply wp_returns in H as (r & s' & Hr & -> & ->). done.
Qed.

(** Mounting and unmounting are inverse: after a [vfs_mount] that succeeds,
    a [vfs_unmount] of the same place, however it is spelled, either reports the
    refusal of the file system or leaves the list of mounts and the memory of the
    VFS exactly as they were; a [vfs_mount] that fails leaves them untouched. *)
Theorem mount_unmount_roundtrip s fs_name dev p p' flags mem : inv fs_ops s ->
  (forall a, mem = Some a -> mounts s !! a = None) ->
  vfs_normalize_path p' VFS_MAX_PATH = vfs_normalize_path p VFS_MAX_PATH ->
  wp (r <- vfs_mount fs_ops fs_name dev (Some p) flags mem ;;
      if r =? VFS_SUCCESS then r' <- vfs_unmount fs_ops (Some p') ;; ret (Some r') else ret None)
    (fun r s' =>
       match r with
       | None => exists w, s' = set_world w s
       | Some r' => (r' = VFS_SUCCESS /\ exists w, s' = set_world w s) \/
                    (r' <> VFS_SUCCESS /\ exists a, mem = Some a /\ mount_points s' = mount_points s ++ [a])
       end) s.
Proof.
  intros Hinv Hmem Hpp. rewrite wp_bind. apply mount_spec; [done|done| |].
  { intros e w He. destruct (Z.eqb_spec e VFS_SUCCESS); [done|]. wp_steps. eauto. }
  intros a q t d w Ha [= <-] Hnew _. specialize (Hmem a Ha). rewrite Z.eqb_refl. wp_steps.
  set (m := mk_mount _ _ _ _ _ _). set (s1 := set_mount_points _ _).
  assert (Hout : a ∉ mount_points s).
  { intros Hin. destruct (inv_live _ _ Hinv a Hin) as (? & ? & _). congruence. }
  assert (Hinv1 : inv fs_ops s1).
  { apply mount_inv; [done..| |apply normalize_nulfree|done]. cbn.
    pose proof (normalize_length p). destruct (vfs_normalize_path p VFS_MAX_PATH); [simpl in *; lia|done]. }
  assert (Hfound : forall b n, b ∈ mount_points s1 -> mounts s1 !! b = Some n ->
            vfs_strcmp (mount_point n) (vfs_normalize_path p' VFS_MAX_PATH) = 0 -> b = a).
  { intros b n Hb Hn E. apply strcmp_eq in E; [|by apply (inv_nul _ _ Hinv1 b)|apply normalize_nulfree].
    cbn in Hb, Hn. apply elem_of_app in Hb as [Hb| ->%list_elem_of_singleton]; [|done].
    rewrite lookup_insert_ne in Hn by (by intros ->). exfalso. apply (Hnew b n Hb Hn). congruence. }
  apply unmount_spec; [done|done| | |].
  - intros q [= <-] Hno. exfalso. apply (Hno a m); cbn; [apply elem_of_app; right; by apply list_elem_of_singleton|apply lookup_insert_eq|done].
  - intros q b n e d' w' [= <-] Hb Hn E He. wp_steps. right. split; [done|]. exists a. done.
  - intros q b n w' [= <-] Hb Hn E. rewrite (Hfound b n Hb Hn E). wp_steps. left. split; [done|]. exists w'.
    cbn. rewrite unlink_node_last, delete_insert_id by done. by destruct s.
Qed.

(** Unmounting under an open file leaves its handle dangling: [vfs_unmount]
    does not look for handles, and a later [vfs_close] of the handle follows the
    pointer to the freed mount structure. *)
Theorem unmount_dangles_open_handle s a m b f p : inv fs_ops s ->
  a ∈ mount_points s -> mounts s !! a = Some m -> files s !! b = Some f -> f_mount f = Some a ->
  handler fs_ops unmount_h m = None -> vfs_normalize_path p VFS_MAX_PATH = mount_point m ->
  wp (vfs_unmount fs_ops (Some p))
    (fun r s' => r = VFS_SUCCESS /\ files s' !! b = Some f /\ vfs_close fs_ops (Some b) s' = Fault) s.
Proof.
  intros Hinv Ha Hm Hf Hfm Hh Hp.
  assert (Hcl : forall s', vfs_initialized s' = true -> files s' !! b = Some f -> mounts s' !! a = None ->
            vfs_close fs_ops (Some b) s' = Fault).
  { intros s' Hini Hf' Hma. unfold vfs_close, close_with, file_handler, file_at, mount_at, bind, get, deref.
    rewrite Hini. cbn [negb]. rewrite Hf'. cbn. rewrite Hfm. by rewrite Hma. }
  destruct s as [reg mps ini vl rl ms fs w]. pose proof (inv_init _ _ Hinv) as Hini.
  pose proof (inv_live _ _ Hinv) as Hlive. cbn in *. subst ini.
  unfold vfs_unmount. wp_steps. cbn [vfs_initialized negb]. unfold lock_vfs, unlock_vfs. wp_steps.
  apply wp_find_exact; cbn.
  - intros c Hc. destruct (Hlive c Hc) as (n & Hn & _). eauto.
  - intros H. exfalso. by apply (H a m).
  - intros c n Hc Hn E.
    assert (Hnul : nulfree (mount_point n)) by (by apply (inv_nul _ _ Hinv c)).
    apply strcmp_eq in E; [|done|apply normalize_nulfree].
    assert (c = a) as -> by (apply (inv_points _ _ Hinv c a n m); [done..|congruence]). simplify_eq.
    wp_steps. rewrite wp_mount_at. exists m. split; [done|]. wp_steps.
    assert (Hmatch : forall Q st, wp (modify (fun s => set_mount_points (unlink_node a (mount_points s)) s) ;;;
                free_mount a ;;; unlock_vfs ;;; ret VFS_SUCCESS) Q st ->
      wp (match fs_type m with
          | Some t => match unmount_h (fs_ops t) with
                      | Some h => r <- run (h m) ;; put_mount a (with_m_fs_data r.2 m) ;;; ret r.1
                      | None => ret VFS_SUCCESS
                      end
          | None => ret VFS_SUCCESS
          end) (fun result s' => wp (if negb (result =? VFS_SUCCESS) then unlock_vfs ;;; ret result
             else modify (fun s => set_mount_points (unlink_node a (mount_points s)) s) ;;;
                free_mount a ;;; unlock_vfs ;;; ret VFS_SUCCESS) Q s') st).
    { intros Q st HQ. unfold handler in Hh. destruct (fs_type m); [rewrite Hh|]; by wp_steps. }
    apply Hmatch. wp_steps. erewrite wp_free_mount by done. unfold unlock_vfs. wp_steps.
    split; [done|]. split; [done|]. apply Hcl; [done|done|]. cbn. apply lookup_delete_eq.
Qed.

(** Without a handler of its own, [vfs_seek] from the current position is
    exact: it moves to [position + offset] when that is an unsigned 64-bit number
    and reports [VFS_ERR_INVALID_ARG] without moving otherwise, with no wrap-around
    accepted in either direction; [vfs_tell] then gives the new position. *)
Theorem seek_current_exact s b f offset : inv fs_ops s -> files s !! b = Some f ->
  (forall a m, f_mount f = Some a -> mounts s !! a = Some m ->
     handler fs_ops seek_h m = None /\ handler fs_ops tell_h m = None) ->
  0 <= position f < 2 ^ 64 -> - 2 ^ 63 < offset < 2 ^ 63 ->
  wp (r <- vfs_seek fs_ops (Some b) offset VFS_SEEK_CUR ;; t <- vfs_tell fs_ops (Some b) true ;; ret (r, t))
    (fun r _ => r = if decide (0 <= position f + offset < 2 ^ 64)
                    then (VFS_SUCCESS, (VFS_SUCCESS, Some (position f + offset)))
                    else (VFS_ERR_INVALID_ARG, (VFS_SUCCESS, Some (position f)))) s.
Proof.
  intros Hinv Hf Hh Hpos Hoff. destruct (inv_files _ _ Hinv b f Hf) as (a & Ha & Hin).
  destruct (inv_live _ _ Hinv a Hin) as (m & Hm & _). destruct (Hh a m Ha Hm) as [Hseek Htell].
  assert (Htl : forall s' f', vfs_initialized s' = true -> mounts s' = mounts s -> files s' !! b = Some f' ->
            f_mount f' = Some a -> vfs_tell fs_ops (Some b) true s' = Ret ((VFS_SUCCESS, Some (position f')), s')).
  { intros s' f' Hi Hms Hf' Hfm. unfold vfs_tell, file_handler, file_at, mount_at, bind, get, deref.
    rewrite Hi. cbn [negb]. rewrite Hf'. cbn. rewrite Hfm, Hms, Hm. cbn. by rewrite Htell. }
  assert (Hsp : seek_position (position f) offset VFS_SEEK_CUR =
     if decide (0 <= position f + offset < 2 ^ 64) then inl (position f + offset) else inr VFS_ERR_INVALID_ARG).
  { unfold seek_position. cbn [Z.eqb VFS_SEEK_CUR VFS_SEEK_SET Pos.eqb]. unfold u64.
    destruct (Z.ltb_spec offset 0), (Z.ltb_spec 0 offset); try lia; cbn [andb orb].
    - rewrite (Z.mod_small (- offset)) by lia. rewrite orb_false_r.
      destruct (Z.ltb_spec (position f) (- offset)); case_decide; try lia; [done|]. by rewrite Z.mod_small by lia.
    - case_decide.
      + rewrite Z.mod_small by lia. by destruct (Z.ltb_spec (position f + offset) (position f)); [lia|].
      + rewrite <- (Zmod_unique _ (2 ^ 64) 1 (position f + offset - 2 ^ 64)) by lia.
        by destruct (Z.ltb_spec (position f + offset - 2 ^ 64) (position f)); [|lia].
    - case_decide; [|lia]. by rewrite Z.mod_small by lia. }
  unfold vfs_seek. wp_steps. rewrite (inv_init _ _ Hinv). cbn [negb]. wp_steps.
  rewrite wp_file_at. exists f. split; [done|]. unfold file_handler. rewrite Ha. wp_steps.
  rewrite wp_mount_at. exists m. split; [done|]. wp_steps. rewrite Hseek, Hsp. case_decide.
  - unfold put_file. wp_steps. unfold wp. erewrite Htl; [|apply (inv_init _ _ Hinv)|done|apply lookup_insert_eq|done]. done.
  - wp_steps. unfold wp. erewrite Htl; [|apply (inv_init _ _ Hinv)|done|done|done]. done.
Qed.

End Properties.

(** ** Witnesses *)

(** A file-system type with a name and an [unmount] that always refuses, and one
    with a name only; the second is the one at address 1. *)
Definition demo_fs (a : positive) : vfs_filesystem_t unit unit :=
  mk_fs (Some (if Pos.eqb a 1 then str "ram" else str "rom")) None
    (if Pos.eqb a 1 then None else Some (fun _ w => (VFS_ERR_UNSUPPORTED, None, w)))
    None None None None None None None None None None None None None None None None.

Definition boot : vfs unit unit := mk_vfs [] [] false 0 0 ∅ ∅ tt.

(** The state a call leaves keeps the invariant. *)
Lemma after_inv {W D} (fs_ops : positive -> vfs_filesystem_t W D) c s :
  inv fs_ops s -> call_ok s c -> inv fs_ops (after (exec fs_ops c) s).
Proof.
  intros Hinv Hok. pose proof (calls_safe fs_ops c s Hinv Hok) as H. unfold wp in H. unfold after.
  by destruct (exec fs_ops c s) as [[r s']| |].
Qed.

(** After [vfs_init], registering the two types, mounting ["ram"] on ["/"]. *)
Definition demo0 : vfs unit unit :=
  after (exec demo_fs (Register (Some 2%positive)))
    (after (exec demo_fs (Register (Some 1%positive))) (after vfs_init boot)).
Definition mount_root : call := Mount (Some (str "ram")) None (Some (str "//")) 0 (Some 7%positive).
Definition demo1 : vfs unit unit := after (exec demo_fs mount_root) demo0.
(** [mnt] mounted too, and a file opened on it. *)
Definition mount_mnt : call := Mount (Some (str "ram")) None (Some (str "/mnt")) 0 (Some 8%positive).
Definition open_mnt : call := Open (Some (str "/mnt/a")) VFS_OPEN_READ true (Some 9%positive).
Definition demo2 : vfs unit unit := after (exec demo_fs open_mnt) (after (exec demo_fs mount_mnt) demo1).

Lemma demo0_inv : inv demo_fs demo0.
Proof.
  unfold demo0. apply after_inv; [|done]. apply after_inv; [|done].
  pose proof (init_inv demo_fs boot eq_refl eq_refl) as H. unfold wp in H. unfold after.
  destruct (vfs_init boot) as [[r s]| |]; by destruct H.
Qed.

Lemma demo1_inv : inv demo_fs demo1.
Proof. apply after_inv; [apply demo0_inv|]. intros a [= <-]. vm_compute. reflexivity. Qed.

Lemma demo2_inv : inv demo_fs demo2.
Proof.
  unfold demo2. apply after_inv; [apply after_inv; [apply demo1_inv|]|]; intros a [= <-]; vm_compute; reflexivity.
Qed.

Lemma vfs_calls_safe_witness :
  wp (exec demo_fs mount_root) (fun _ s' => inv demo_fs s') demo0.
Proof.
  apply (vfs_calls_safe demo_fs demo0); [apply demo0_inv|]. intros a [= <-]. vm_compute. reflexivity.
Defined.

Lemma longest_mount_serves_witness :
  vfs_find_mount_point (str "/mnt/x") demo2 = Ret (Some 8%positive, demo2) /\
  exists r, vfs_find_mount_point (str "/mnt/x") demo2 = Ret (r, demo2) /\
    match r with
    | None => forall a m, ~ serves demo2 (str "/mnt/x") a m
    | Some a => exists m, serves demo2 (str "/mnt/x") a m /\
        forall b n, serves demo2 (str "/mnt/x") b n -> b <> a -> (length (mount_point n) < length (mount_point m))%nat
    end /\
    (nulfree (str "/mnt/x") -> (length (str "/mnt/x") <= 254)%nat -> components (str "/mnt/x") <> [] ->
     forall a m, r = Some a -> mounts demo2 !! a = Some m -> mount_point m <> [slash]).
Proof.
  split; [vm_compute; reflexivity|]. apply (longest_mount_serves demo_fs). apply demo2_inv.
Defined.

Lemma root_mount_serves_no_file_witness :
  vfs_open demo_fs (Some (str "/etc/passwd")) VFS_OPEN_READ true (Some 3%positive) demo1
  = Ret ((VFS_ERR_NOT_FOUND, None), demo1).
Proof.
  apply (root_mount_serves_no_file demo_fs demo1 7 (mk_mount (str "/") [] (Some 1%positive) None 0 0));
    [apply demo1_inv|vm_compute; reflexivity|vm_compute; reflexivity|reflexivity| |vm_compute; lia|].
  - apply (bool_decide_unpack _). vm_compute. exact I.
  - apply (bool_decide_unpack _). vm_compute. exact I.
Defined.

Lemma mount_unmount_roundtrip_witness :
  wp (r <- vfs_mount demo_fs (Some (str "ram")) None (Some (str "/mnt")) 0 (Some 8%positive) ;;
      if r =? VFS_SUCCESS then r' <- vfs_unmount demo_fs (Some (str "//mnt/.")) ;; ret (Some r') else ret None)%kernel
    (fun r s' =>
       match r with
       | None => exists w, s' = set_world w demo1
       | Some r' => (r' = VFS_SUCCESS /\ exists w, s' = set_world w demo1) \/
                    (r' <> VFS_SUCCESS /\ exists a, Some 8%positive = Some a /\ mount_points s' = mount_points demo1 ++ [a])
       end) demo1.
Proof.
  apply (mount_unmount_roundtrip demo_fs); [apply demo1_inv| |vm_compute; reflexivity].
  intros a [= <-]. vm_compute. reflexivity.
Defined.

Lemma unmount_dangles_open_handle_witness :
  wp (vfs_unmount demo_fs (Some (str "/mnt/")))
    (fun r s' => r = VFS_SUCCESS /\
       files s' !! 9%positive = Some (mk_file (Some 8%positive) (str "/a") VFS_OPEN_READ 0 None 0) /\
       vfs_close demo_fs (Some 9%positive) s' = Fault) demo2.
Proof.
  apply (unmount_dangles_open_handle demo_fs demo2 8 (mk_mount (str "mnt") [] (Some 1%positive) None 0 0));
    [apply demo2_inv| |vm_compute; reflexivity..].
  right. left.
Defined.

Lemma seek_current_exact_witness :
  wp (r <- vfs_seek demo_fs (Some 9%positive) 100 VFS_SEEK_CUR ;;
      t <- vfs_tell demo_fs (Some 9%positive) true ;; ret (r, t))%kernel
    (fun r _ => r = if decide (0 <= 0 + 100 < 2 ^ 64)
                    then (VFS_SUCCESS, (VFS_SUCCESS, Some (0 + 100)))
                    else (VFS_ERR_INVALID_ARG, (VFS_SUCCESS, Some 0))) demo2.
Proof.
  apply (seek_current_exact demo_fs demo2 9 (mk_file (Some 8%positive) (str "/a") VFS_OPEN_READ 0 None 0));
    [apply demo2_inv|vm_compute; reflexivity| |simpl; lia|lia].
  intros a m [= <-] [= <-]. done.
Defined.

End Vfs.
