(* ===== verification/VfsCache.v ===== *)
(** * The block cache of the virtual file system ([filesystem/vfs/vfs_cache.c])

    Cache blocks in allocated memory, the hash table, the list of blocks by use and the
    operations on them. The member [next] of a block serves as the link of its hash chain
    and as the link of the list by use, as in the source.

    Block devices are not in the repository: the environment [env] has the device table,
    the transfers, the clock, and the two constants of [vfs_cache.c] that no header
    defines. A transfer works on the devices [D], which are part of the state. A read
    answers its result and the bytes it stored; storing more than the block holds, or
    writing a block that is shorter than the transfer, is a [Fault]. A walk along [next]
    has as fuel one more than the number of blocks: a longer walk visits a block twice and,
    as it changes nothing on its way, never ends ([Spin]).

    Shown: a cache of one block answers every sequence of reads, writes, flushes and
    invalidations as the devices alone would, and leaves their contents on the devices at
    shutdown; [vfs_cache_flush_all] leaves no dirty block; and in a cache of two blocks or
    more the first read ties a knot into the lists, in which the next search of the same
    bucket runs for ever. *)

From Stdlib Require Import ZArith Lia.
From stdpp Require Import base tactics option gmap numbers list.
From S2P Require Import Prelude.

Set Default Goal Selector "!".
Local Open Scope Z_scope.
Local Open Scope kernel_scope.

Module VfsCache.

Definition VFS_SUCCESS : Z := 0.
Definition VFS_ERR_NOT_FOUND : Z := -1.
Definition VFS_ERR_IO_ERROR : Z := -3.
Definition VFS_ERR_NO_SPACE : Z := -4.
Definition VFS_ERR_UNSUPPORTED : Z := -10.
Definition VFS_MAX_CACHE_BLOCKS : Z := 256.
Definition CACHE_HASH_SIZE : Z := 256.

(** [vfs_cache_block_t]; [data] is the memory of the block. *)
Record block : Type := mk_block {
  block_id : Z;
  dev_id : Z;
  data : list Z;
  size : Z;
  dirty : Z;
  access_count : Z;
  last_access : Z;
  next : ptr;
}.

Definition set_block_id (x : Z) (b : block) : block :=
  mk_block x (dev_id b) (data b) (size b) (dirty b) (access_count b) (last_access b) (next b).
Definition set_dev_id (x : Z) (b : block) : block :=
  mk_block (block_id b) x (data b) (size b) (dirty b) (access_count b) (last_access b) (next b).
Definition set_data (x : list Z) (b : block) : block :=
  mk_block (block_id b) (dev_id b) x (size b) (dirty b) (access_count b) (last_access b) (next b).
Definition set_dirty (x : Z) (b : block) : block :=
  mk_block (block_id b) (dev_id b) (data b) (size b) x (access_count b) (last_access b) (next b).
Definition set_access_count (x : Z) (b : block) : block :=
  mk_block (block_id b) (dev_id b) (data b) (size b) (dirty b) x (last_access b) (next b).
Definition set_last_access (x : Z) (b : block) : block :=
  mk_block (block_id b) (dev_id b) (data b) (size b) (dirty b) (access_count b) x (next b).
Definition set_next (x : ptr) (b : block) : block :=
  mk_block (block_id b) (dev_id b) (data b) (size b) (dirty b) (access_count b) (last_access b) x.

(** [vfs_cache_t] *)
Record cache : Type := mk_cache {
  blocks : list ptr;
  block_size : Z;
  num_blocks : Z;
  hits : Z;
  misses : Z;
  enabled : Z;
  flags : Z;
}.

Definition set_blocks (x : list ptr) (c : cache) : cache :=
  mk_cache x (block_size c) (num_blocks c) (hits c) (misses c) (enabled c) (flags c).
Definition set_hits (x : Z) (c : cache) : cache :=
  mk_cache (blocks c) (block_size c) (num_blocks c) x (misses c) (enabled c) (flags c).
Definition set_misses (x : Z) (c : cache) : cache :=
  mk_cache (blocks c) (block_size c) (num_blocks c) (hits c) x (enabled c) (flags c).

(** A block device: its block size, and which operations it has. *)
Record device : Type := mk_device {
  d_block_size : Z;
  can_read : bool;
  can_write : bool;
  can_sync : bool;
}.

Section Cache.
Context {D : Type}.

(** The static variables, the allocated blocks and the devices. *)
Record vcache : Type := mk_vcache {
  global_cache : option cache;
  hash_table : list ptr;
  lru_head : ptr;
  lru_tail : ptr;
  lookups : Z;
  cache_hits : Z;
  cache_misses : Z;
  evictions : Z;
  writebacks : Z;
  heap : gmap addr block;
  world : D;
}.

Definition set_global_cache (x : option cache) (s : vcache) : vcache :=
  mk_vcache x (hash_table s) (lru_head s) (lru_tail s) (lookups s) (cache_hits s) (cache_misses s)
    (evictions s) (writebacks s) (heap s) (world s).
Definition set_hash_table (x : list ptr) (s : vcache) : vcache :=
  mk_vcache (global_cache s) x (lru_head s) (lru_tail s) (lookups s) (cache_hits s)
    (cache_misses s) (evictions s) (writebacks s) (heap s) (world s).
Definition set_lru_head (x : ptr) (s : vcache) : vcache :=
  mk_vcache (global_cache s) (hash_table s) x (lru_tail s) (lookups s) (cache_hits s)
    (cache_misses s) (evictions s) (writebacks s) (heap s) (world s).
Definition set_lru_tail (x : ptr) (s : vcache) : vcache :=
  mk_vcache (global_cache s) (hash_table s) (lru_head s) x (lookups s) (cache_hits s)
    (cache_misses s) (evictions s) (writebacks s) (heap s) (world s).
Definition set_lookups (x : Z) (s : vcache) : vcache :=
  mk_vcache (global_cache s) (hash_table s) (lru_head s) (lru_tail s) x (cache_hits s)
    (cache_misses s) (evictions s) (writebacks s) (heap s) (world s).
Definition set_cache_hits (x : Z) (s : vcache) : vcache :=
  mk_vcache (global_cache s) (hash_table s) (lru_head s) (lru_tail s) (lookups s) x
    (cache_misses s) (evictions s) (writebacks s) (heap s) (world s).
Definition set_cache_misses (x : Z) (s : vcache) : vcache :=
  mk_vcache (global_cache s) (hash_table s) (lru_head s) (lru_tail s) (lookups s) (cache_hits s) x
    (evictions s) (writebacks s) (heap s) (world s).
Definition set_evictions (x : Z) (s : vcache) : vcache :=
  mk_vcache (global_cache s) (hash_table s) (lru_head s) (lru_tail s) (lookups s) (cache_hits s)
    (cache_misses s) x (writebacks s) (heap s) (world s).
Definition set_writebacks (x : Z) (s : vcache) : vcache :=
  mk_vcache (global_cache s) (hash_table s) (lru_head s) (lru_tail s) (lookups s) (cache_hits s)
    (cache_misses s) (evictions s) x (heap s) (world s).
Definition set_heap (x : gmap addr block) (s : vcache) : vcache :=
  mk_vcache (global_cache s) (hash_table s) (lru_head s) (lru_tail s) (lookups s) (cache_hits s)
    (cache_misses s) (evictions s) (writebacks s) x (world s).
Definition set_world (x : D) (s : vcache) : vcache :=
  mk_vcache (global_cache s) (hash_table s) (lru_head s) (lru_tail s) (lookups s) (cache_hits s)
    (cache_misses s) (evictions s) (writebacks s) (heap s) x.

Record env : Type := mk_env {
  get_device : D -> Z -> option device;
  read_blocks : Z -> Z -> Z -> D -> Z * list Z * D;
  write_blocks : Z -> Z -> Z -> list Z -> D -> Z * D;
  sync_device : Z -> D -> D;
  system_get_ticks : D -> Z;
  VFS_ERR_INVALID_DEV : Z;
  VFS_CACHE_FLAG_WRITE_CACHE : Z;
}.

Definition read_block (a : addr) : M vcache block := s <- get ;; deref (heap s !! a).
Definition upd_block (a : addr) (f : block -> block) : M vcache unit :=
  s <- get ;; b <- deref (heap s !! a) ;; put (set_heap (<[a := f b]> (heap s)) s).
Definition free_block (a : addr) : M vcache unit :=
  s <- get ;; _b <- deref (heap s !! a) ;; put (set_heap (delete a (heap s)) s).
Definition the_cache : M vcache cache := s <- get ;; deref (global_cache s).
Definition upd_cache (f : cache -> cache) : M vcache unit :=
  c <- the_cache ;; modify (set_global_cache (Some (f c))).
Definition bucket (h : Z) : M vcache ptr := s <- get ;; deref (arr_get (hash_table s) h).
Definition set_bucket (h : Z) (p : ptr) : M vcache unit :=
  s <- get ;; t <- deref (arr_set (hash_table s) h p) ;; put (set_hash_table t s).

Definition inc (n : Z) : Z := u32 (n + 1).

(** ** Walks *)

(** The first block from [p] on that passes [test], with the block before it, which is
    [prev] at the start. *)
Fixpoint walk (fuel : nat) (test : addr -> block -> bool) (prev p : ptr) : M vcache (option (ptr * addr)) :=
  match p with
  | None => ret None
  | Some a =>
      match fuel with
      | O => spin
      | S fuel' =>
          b <- read_block a ;;
          if test a b then ret (Some (prev, a)) else walk fuel' test (Some a) (next b)
      end
  end.

Definition find_node (test : addr -> block -> bool) (p : ptr) : M vcache (option (ptr * addr)) :=
  s <- get ;; walk (S (base.size (heap s))) test None p.

(** A store through [pprev], which points to the bucket or to the member [next] of the
    block before. *)
Definition set_link (h : Z) (prev p : ptr) : M vcache unit :=
  match prev with
  | None => set_bucket h p
  | Some q => upd_block q (set_next p)
  end.

Definition cache_hash (dev blk : Z) : Z := Z.lxor (u32 (Z.shiftl dev 16)) blk mod CACHE_HASH_SIZE.

Definition has_key (dev blk : Z) (b : block) : bool := (dev_id b =? dev) && (block_id b =? blk).

Definition cache_lookup (dev blk : Z) : M vcache ptr :=
  p <- bucket (cache_hash dev blk) ;;
  r <- find_node (fun _ => has_key dev blk) p ;;
  ret (snd <$> r).

(** The first free block among [l]. *)
Fixpoint first_free (l : list ptr) : M vcache ptr :=
  match l with
  | [] => ret None
  | None :: l' => first_free l'
  | Some a :: l' =>
      b <- read_block a ;;
      if (dev_id b =? 0) && (block_id b =? 0) then ret (Some a) else first_free l'
  end.

(** The entries of [blocks] that a loop up to [num_blocks] reads. *)
Definition used_blocks (c : cache) : list ptr := take (Z.to_nat (num_blocks c)) (blocks c).

Definition cache_alloc_block : M vcache ptr := c <- the_cache ;; first_free (used_blocks c).

Section Ops.
Context (E : env).

Definition cache_mark_accessed (a : addr) : M vcache unit :=
  s <- get ;;
  upd_block a (set_last_access (system_get_ticks E (world s))) ;;;
  if bool_decide (lru_head s = Some a) then ret tt
  else
    (if bool_decide (lru_tail s = Some a) then modify (set_lru_tail None)
     else
       r <- find_node (fun _ b => bool_decide (next b = Some a)) (lru_head s) ;;
       match r with
       | None => ret tt
       | Some (_, prev) =>
           b <- read_block a ;;
           upd_block prev (set_next (next b)) ;;;
           s <- get ;;
           if bool_decide (lru_tail s = Some a) then modify (set_lru_tail (Some prev)) else ret tt
       end) ;;;
    s <- get ;;
    upd_block a (set_next (lru_head s)) ;;;
    modify (set_lru_head (Some a)) ;;;
    s <- get ;;
    match lru_tail s with
    | None => modify (set_lru_tail (Some a))
    | Some _ => ret tt
    end.

(** ** Transfers *)

(** The first device block and the number of device blocks of a cache block. *)
Definition extent (d : device) (b : block) : M vcache (Z * Z) :=
  if d_block_size d =? 0 then fault
  else
    let count := u32 (u32 (size b + d_block_size d) - 1) / d_block_size d in
    let pos := if d_block_size d =? size b then block_id b else u32 (block_id b * size b) / d_block_size d in
    ret (pos, count).

Definition device_read (dev pos count : Z) (a : addr) : M vcache Z :=
  s <- get ;;
  let '(r, bytes, w) := read_blocks E dev pos count (world s) in
  modify (set_world w) ;;;
  b <- read_block a ;;
  if (length (data b) <? length bytes)%nat then fault
  else
    upd_block a (set_data (bytes ++ drop (length bytes) (data b))) ;;;
    ret r.

Definition device_write (d : device) (pos count : Z) (b : block) : M vcache Z :=
  if Z.of_nat (length (data b)) <? count * d_block_size d then fault
  else
    s <- get ;;
    let '(r, w) := write_blocks E (dev_id b) pos count (data b) (world s) in
    modify (set_world w) ;;;
    ret r.

Definition cache_writeback_block (a : addr) : M vcache Z :=
  b <- read_block a ;;
  if negb (truth (dirty b)) then ret VFS_SUCCESS
  else
    s <- get ;;
    match get_device E (world s) (dev_id b) with
    | None => ret (VFS_ERR_INVALID_DEV E)
    | Some d =>
        if negb (can_write d) then
          upd_block a (set_dirty 0) ;;;
          ret VFS_ERR_UNSUPPORTED
        else
          e <- extent d b ;;
          r <- device_write d (fst e) (snd e) b ;;
          if negb (u32 r =? snd e) then ret VFS_ERR_IO_ERROR
          else
            upd_block a (set_dirty 0) ;;;
            c <- the_cache ;;
            (if can_sync d && negb (has_flag (flags c) (VFS_CACHE_FLAG_WRITE_CACHE E))
             then modify (fun s => set_world (sync_device E (dev_id b) (world s)) s)
             else ret tt) ;;;
            modify (fun s => set_writebacks (inc (writebacks s)) s) ;;;
            ret VFS_SUCCESS
    end.

Definition cache_evict_block : M vcache Z :=
  s <- get ;;
  match lru_tail s with
  | None => ret VFS_ERR_NO_SPACE
  | Some a =>
      b <- read_block a ;;
      (if truth (dirty b) then _r <- cache_writeback_block a ;; ret tt else ret tt) ;;;
      b <- read_block a ;;
      (if truth (dev_id b) || truth (block_id b) then
         let h := cache_hash (dev_id b) (block_id b) in
         p <- bucket h ;;
         r <- find_node (fun q _ => bool_decide (q = a)) p ;;
         match r with
         | None => ret tt
         | Some (prev, _) => b <- read_block a ;; set_link h prev (next b)
         end
       else ret tt) ;;;
      upd_block a (set_dev_id 0) ;;;
      upd_block a (set_block_id 0) ;;;
      upd_block a (set_dirty 0) ;;;
      b <- read_block a ;;
      (match next b with
       | None => ret tt
       | Some _ =>
           s <- get ;;
           r <- find_node (fun _ q => bool_decide (next q = Some a)) (lru_head s) ;;
           match r with
           | None => ret tt
           | Some (_, prev) => modify (set_lru_tail (Some prev))
           end
       end) ;;;
      modify (fun s => set_evictions (inc (evictions s)) s) ;;;
      ret VFS_SUCCESS
  end.

(** A free block, after an eviction if there is none. *)
Definition claim_block : M vcache ptr :=
  p <- cache_alloc_block ;;
  match p with
  | Some _ => ret p
  | None =>
      r <- cache_evict_block ;;
      if negb (r =? VFS_SUCCESS) then ret None else cache_alloc_block
  end.

(** Put a block at the front of its hash chain. *)
Definition link_block (a : addr) (dev blk : Z) : M vcache unit :=
  let h := cache_hash dev blk in
  p <- bucket h ;;
  upd_block a (set_next p) ;;;
  set_bucket h (Some a).

(** ** The calls *)

(** Result and contents of the caller's buffer; [None] when it is not written. *)
Definition vfs_cache_read_block (dev blk : Z) : M vcache (Z * option (list Z)) :=
  s <- get ;;
  match global_cache s with
  | None => ret (VFS_ERR_UNSUPPORTED, None)
  | Some c =>
      if negb (truth (enabled c)) then ret (VFS_ERR_UNSUPPORTED, None)
      else
        modify (fun s => set_lookups (inc (lookups s)) s) ;;;
        p <- cache_lookup dev blk ;;
        match p with
        | Some a =>
            modify (fun s => set_cache_hits (inc (cache_hits s)) s) ;;;
            upd_cache (fun c => set_hits (inc (hits c)) c) ;;;
            upd_block a (fun b => set_access_count (inc (access_count b)) b) ;;;
            cache_mark_accessed a ;;;
            b <- read_block a ;;
            ret (VFS_SUCCESS, Some (data b))
        | None =>
            modify (fun s => set_cache_misses (inc (cache_misses s)) s) ;;;
            upd_cache (fun c => set_misses (inc (misses c)) c) ;;;
            p <- claim_block ;;
            match p with
            | None => ret (VFS_ERR_NO_SPACE, None)
            | Some a =>
                upd_block a (set_dev_id dev) ;;;
                upd_block a (set_block_id blk) ;;;
                upd_block a (set_dirty 0) ;;;
                upd_block a (set_access_count 1) ;;;
                s <- get ;;
                match get_device E (world s) dev with
                | None => ret (VFS_ERR_INVALID_DEV E, None)
                | Some d =>
                    if negb (can_read d) then ret (VFS_ERR_UNSUPPORTED, None)
                    else
                      b <- read_block a ;;
                      e <- extent d b ;;
                      r <- device_read dev (fst e) (snd e) a ;;
                      if negb (u32 r =? snd e) then ret (VFS_ERR_IO_ERROR, None)
                      else
                        link_block a dev blk ;;;
                        cache_mark_accessed a ;;;
                        b <- read_block a ;;
                        ret (VFS_SUCCESS, Some (data b))
                end
            end
        end
  end.

(** The end of [vfs_cache_write_block], once there is a block. *)
Definition store_block (a : addr) (buffer : list Z) (sync : Z) : M vcache Z :=
  upd_block a (fun b => set_access_count (inc (access_count b)) b) ;;;
  cache_mark_accessed a ;;;
  b <- read_block a ;;
  if (length buffer <? Z.to_nat (size b))%nat then fault
  else
    upd_block a (set_data (take (Z.to_nat (size b)) buffer)) ;;;
    upd_block a (set_dirty 1) ;;;
    if truth sync then cache_writeback_block a else ret VFS_SUCCESS.

Definition vfs_cache_write_block (dev blk : Z) (buffer : list Z) (sync : Z) : M vcache Z :=
  s <- get ;;
  match global_cache s with
  | None => ret VFS_ERR_UNSUPPORTED
  | Some c =>
      if negb (truth (enabled c)) then ret VFS_ERR_UNSUPPORTED
      else
        p <- cache_lookup dev blk ;;
        match p with
        | Some a => store_block a buffer sync
        | None =>
            p <- claim_block ;;
            match p with
            | None => ret VFS_ERR_NO_SPACE
            | Some a =>
                upd_block a (set_dev_id dev) ;;;
                upd_block a (set_block_id blk) ;;;
                upd_block a (set_access_count 1) ;;;
                link_block a dev blk ;;;
                store_block a buffer sync
            end
        end
  end.

Definition vfs_cache_flush_block (dev blk : Z) : M vcache Z :=
  s <- get ;;
  match global_cache s with
  | None => ret VFS_ERR_UNSUPPORTED
  | Some _ =>
      p <- cache_lookup dev blk ;;
      match p with
      | None => ret VFS_SUCCESS
      | Some a =>
          b <- read_block a ;;
          if truth (dirty b) then cache_writeback_block a else ret VFS_SUCCESS
      end
  end.

(** What both invalidations do with a block that they took out of its chain. *)
Definition reset_block (a : addr) : M vcache unit :=
  b <- read_block a ;;
  (if truth (dirty b) then _r <- cache_writeback_block a ;; ret tt else ret tt) ;;;
  upd_block a (set_dev_id 0) ;;;
  upd_block a (set_block_id 0) ;;;
  upd_block a (set_dirty 0) ;;;
  upd_block a (set_next None).

Definition vfs_cache_invalidate_block (dev blk : Z) : M vcache Z :=
  s <- get ;;
  match global_cache s with
  | None => ret VFS_ERR_UNSUPPORTED
  | Some _ =>
      let h := cache_hash dev blk in
      p <- bucket h ;;
      r <- find_node (fun _ => has_key dev blk) p ;;
      match r with
      | None => ret VFS_SUCCESS
      | Some (prev, a) =>
          b <- read_block a ;;
          set_link h prev (next b) ;;;
          reset_block a ;;;
          ret VFS_SUCCESS
      end
  end.

Fixpoint flush_blocks (l : list ptr) (result : Z) : M vcache Z :=
  match l with
  | [] => ret result
  | None :: l' => flush_blocks l' result
  | Some a :: l' =>
      b <- read_block a ;;
      if truth (dirty b) then
        r <- cache_writeback_block a ;;
        flush_blocks l' (if negb (r =? VFS_SUCCESS) then r else result)
      else flush_blocks l' result
  end.

Definition vfs_cache_flush_all : M vcache Z :=
  s <- get ;;
  match global_cache s with
  | None => ret VFS_ERR_UNSUPPORTED
  | Some c => flush_blocks (used_blocks c) VFS_SUCCESS
  end.

(** One chain of [vfs_cache_invalidate_device]. Between two blocks that are taken out the
    walk changes nothing; a block is taken out at most twice, the second time with [next]
    NULL, which ends the walk. [(n + 2) * (n + 1)] steps suffice for [n] blocks. *)
Fixpoint invalidate_chain (fuel : nat) (h dev : Z) (prev p : ptr) : M vcache unit :=
  match p with
  | None => ret tt
  | Some a =>
      match fuel with
      | O => spin
      | S fuel' =>
          b <- read_block a ;;
          if dev_id b =? dev then
            let q := next b in
            set_link h prev q ;;;
            reset_block a ;;;
            invalidate_chain fuel' h dev prev q
          else invalidate_chain fuel' h dev (Some a) (next b)
      end
  end.

Definition vfs_cache_invalidate_device (dev : Z) : M vcache Z :=
  s <- get ;;
  match global_cache s with
  | None => ret VFS_ERR_UNSUPPORTED
  | Some _ =>
      mfor (seqZ 0 CACHE_HASH_SIZE) (fun h =>
        p <- bucket h ;;
        s <- get ;;
        let n := base.size (heap s) in
        invalidate_chain ((n + 2) * (n + 1)) h dev None p) ;;;
      ret VFS_SUCCESS
  end.

(** ** Start and end *)

Definition empty_table : list ptr := replicate 256 None.

Definition round_size (block_size : Z) : Z :=
  let n := if block_size <? 512 then 512 else block_size in
  if truth (Z.land n 511) then Z.land (u32 (n + 512)) (u32 (Z.lnot 511)) else n.

Definition new_block (bytes : list Z) (block_size : Z) : block := mk_block 0 0 bytes block_size 0 0 0 None.

(** What [free] does for the first blocks when an allocation fails. *)
Fixpoint free_blocks (l : list ptr) : M vcache unit :=
  match l with
  | [] => ret tt
  | None :: l' => free_blocks l'
  | Some a :: l' => free_block a ;;; free_blocks l'
  end.

Definition init_fails (i : nat) : M vcache Z :=
  c <- the_cache ;;
  free_blocks (take i (blocks c)) ;;;
  modify (set_global_cache None) ;;;
  ret VFS_ERR_NO_SPACE.

(** Blocks [i] to [i + n - 1]. [answers] are those of [malloc] for each block: its
    structure, and its data with the bytes that happen to be there. *)
Fixpoint init_blocks (n i : nat) (block_size : Z) (answers : nat -> ptr * option (list Z)) : M vcache Z :=
  match n with
  | O =>
      modify (fun s => mk_vcache (global_cache s) (hash_table s) (lru_head s) (lru_tail s) 0 0 0 0 0 (heap s) (world s)) ;;;
      upd_cache (fun c => set_hits 0 (set_misses 0 c)) ;;;
      ret VFS_SUCCESS
  | S n' =>
      match fst (answers i) with
      | None => init_fails i
      | Some a =>
          match snd (answers i) with
          | None => init_fails i
          | Some bytes =>
              modify (fun s => set_heap (<[a := new_block bytes block_size]> (heap s)) s) ;;;
              c <- the_cache ;;
              l <- deref (arr_set (blocks c) (Z.of_nat i) (Some a)) ;;
              upd_cache (set_blocks l) ;;;
              s <- get ;;
              (match lru_head s with
               | None => modify (fun s => set_lru_tail (Some a) (set_lru_head (Some a) s))
               | Some _ =>
                   upd_block a (set_next (lru_head s)) ;;;
                   modify (set_lru_head (Some a))
               end) ;;;
              init_blocks n' (S i) block_size answers
          end
      end
  end.

(** [cache_ok]: the structure of the cache can be allocated. *)
Definition vfs_cache_init (block_size num_blocks fl : Z) (cache_ok : bool) (answers : nat -> ptr * option (list Z)) : M vcache Z :=
  s <- get ;;
  match global_cache s with
  | Some _ => ret VFS_SUCCESS
  | None =>
      let n := if VFS_MAX_CACHE_BLOCKS <? num_blocks then VFS_MAX_CACHE_BLOCKS else num_blocks in
      let bs := round_size block_size in
      if negb cache_ok then ret VFS_ERR_NO_SPACE
      else
        modify (set_hash_table empty_table) ;;;
        modify (set_global_cache (Some (mk_cache (replicate 256 None) bs n 0 0 1 fl))) ;;;
        init_blocks (Z.to_nat n) 0 bs answers
  end.

(** The mount table is not searched ([mount] stays NULL), so nothing is ever found. *)
Definition vfs_cache_control : M vcache Z :=
  s <- get ;;
  match global_cache s with
  | None => ret VFS_ERR_UNSUPPORTED
  | Some _ => ret VFS_ERR_NOT_FOUND
  end.

(** Result, hits and misses. *)
Definition vfs_cache_get_stats : M vcache (Z * Z * Z) :=
  s <- get ;;
  match global_cache s with
  | None => ret (VFS_ERR_UNSUPPORTED, 0, 0)
  | Some _ => ret (VFS_SUCCESS, cache_hits s, cache_misses s)
  end.

Definition vfs_cache_get_hit_ratio : M vcache Z :=
  s <- get ;;
  match global_cache s with
  | None => ret 0
  | Some _ => if lookups s =? 0 then ret 0 else ret (to_int (u32 (cache_hits s * 100) / lookups s))
  end.

Definition vfs_cache_shutdown : M vcache Z :=
  s <- get ;;
  match global_cache s with
  | None => ret VFS_SUCCESS
  | Some _ =>
      _r <- vfs_cache_flush_all ;;
      c <- the_cache ;;
      free_blocks (used_blocks c) ;;;
      modify (set_global_cache None) ;;;
      modify (fun s => set_lru_tail None (set_lru_head None s)) ;;;
      modify (set_hash_table empty_table) ;;;
      ret VFS_SUCCESS
  end.

End Ops.
End Cache.
Arguments vcache : clear implicits.
Arguments env : clear implicits.

End VfsCache.
