(* ===== verification/VfsCacheThms.v ===== *)
(** * The block cache: coherence of one block, and the knot in the lists of several

    [Disk] says what the cache relies on of its devices: they transfer whole blocks, and a
    read answers what was last written. [represents] relates a cache of one block and the
    devices to the contents a caller sees. *)

From Stdlib Require Import ZArith Lia.
From stdpp Require Import base tactics option gmap numbers list.
From S2P Require Import Prelude VfsCache.

Set Default Goal Selector "!".
Local Open Scope Z_scope.
Local Open Scope kernel_scope.

Module VfsCacheThms.
Import VfsCache.

Section Basics.
Context {D : Type}.
Implicit Types (s : vcache D).

Lemma wp_read_cached a Q s : wp (read_block a) Q s <-> exists b, heap s !! a = Some b /\ Q b s.
Proof. unfold read_block. wp_steps. apply wp_deref. Qed.
Lemma wp_upd_block a f Q s :
  wp (upd_block a f) Q s <-> exists b, heap s !! a = Some b /\ Q tt (set_heap (<[a := f b]> (heap s)) s).
Proof. unfold upd_block. wp_steps. rewrite wp_deref. by setoid_rewrite wp_put. Qed.
Lemma wp_the_cache Q s : wp the_cache Q s <-> exists c, global_cache s = Some c /\ Q c s.
Proof. unfold the_cache. wp_steps. apply wp_deref. Qed.
Lemma wp_upd_cache f Q s :
  wp (upd_cache f) Q s <-> exists c, global_cache s = Some c /\ Q tt (set_global_cache (Some (f c)) s).
Proof. unfold upd_cache. wp_steps. rewrite wp_the_cache. by setoid_rewrite wp_modify. Qed.
Lemma wp_bucket h Q s : wp (bucket h) Q s <-> exists p, arr_get (hash_table s) h = Some p /\ Q p s.
Proof. unfold bucket. wp_steps. apply wp_deref. Qed.
Lemma wp_set_bucket h p Q s :
  0 <= h < Z.of_nat (length (hash_table s)) ->
  Q tt (set_hash_table (<[Z.to_nat h := p]> (hash_table s)) s) -> wp (set_bucket h p) Q s.
Proof. intros Hh HQ. unfold set_bucket. wp_steps. apply wp_deref. rewrite arr_set_some by done. by eexists. Qed.

Lemma hash_range dev blk : 0 <= cache_hash dev blk < 256.
Proof. apply Z.mod_pos_bound. done. Qed.

(** ** The start *)

Definition link_before (ad : nat -> addr) (i : nat) : ptr := match i with O => None | S j => Some (ad j) end.

(** The first [i] blocks as [vfs_cache_init] leaves them: each linked to the one before. *)
Record started (ad : nat -> addr) (bytes : nat -> list Z) (bs : Z) (i : nat) (s : vcache D) (c : cache) : Prop := mk_started {
  st_cache : global_cache s = Some c;
  st_blocks : forall j, (j < i)%nat -> blocks c !! j = Some (Some (ad j));
  st_length : length (blocks c) = 256%nat;
  st_heap : forall j, (j < i)%nat -> heap s !! ad j = Some (set_next (link_before ad j) (new_block (bytes j) bs));
  st_only : forall a, is_Some (heap s !! a) -> exists j, (j < i)%nat /\ a = ad j;
  st_head : lru_head s = link_before ad i;
  st_tail : lru_tail s = if decide (i = 0)%nat then None else Some (ad 0%nat);
}.

Definition good_answers (ad : nat -> addr) (bytes : nat -> list Z) (i : nat) : ptr * option (list Z) :=
  (Some (ad i), Some (bytes i)).

Lemma init_blocks_spec ad bytes bs n : Inj (=) (=) ad ->
  forall i s c, (i + n <= 256)%nat -> started ad bytes bs i s c ->
  wp (init_blocks n i bs (good_answers ad bytes)) (fun r s' => r = 0 /\ hash_table s' = hash_table s /\ world s' = world s /\
    lookups s' = 0 /\ exists c', started ad bytes bs (i + n) s' c' /\ num_blocks c' = num_blocks c /\ enabled c' = enabled c) s.
Proof.
  intros Hinj. induction n as [|n IH]; intros i s c Hle Hst; cbn [init_blocks].
  - wp_steps. rewrite wp_upd_cache. destruct Hst. exists c. split; [done|]. wp_steps. split; [done|].
    do 3 (split; [done|]). exists (set_hits 0 (set_misses 0 c)). rewrite Nat.add_0_r. by repeat split.
  - cbn [good_answers fst snd]. wp_steps. destruct Hst as [Hc Hb Hl Hh Ho Hhd Htl]. rewrite wp_the_cache. exists c. split; [done|].
    wp_steps. rewrite wp_deref, arr_set_some by lia. eexists. split; [done|]. wp_steps. rewrite wp_upd_cache. exists c. split; [done|].
    wp_steps. rewrite Nat2Z.id. set (c' := set_blocks _ c).
    assert (forall s2, global_cache s2 = Some c' -> world s2 = world s -> hash_table s2 = hash_table s ->
      heap s2 = <[ad i := set_next (link_before ad i) (new_block (bytes i) bs)]> (heap s) -> lru_head s2 = Some (ad i) ->
      lru_tail s2 = Some (ad 0%nat) ->
      wp (init_blocks n (S i) bs (good_answers ad bytes)) (fun r s' => r = 0 /\ hash_table s' = hash_table s /\ world s' = world s /\
        lookups s' = 0 /\ exists c', started ad bytes bs (i + S n) s' c' /\ num_blocks c' = num_blocks c /\ enabled c' = enabled c) s2) as Hgo.
    { intros s2 Ec Ew Et Eh Ehd Etl. eapply wp_mono; [apply (IH (S i) s2 c'); [lia|]|].
      - split; [done| | | | |done|by rewrite Etl].
        + intros j Hj. simpl. destruct (decide (i = j)) as [->|]; [by apply list_lookup_insert_eq; lia|].
          rewrite list_lookup_insert_ne by done. apply Hb. lia.
        + simpl. by rewrite length_insert.
        + intros j Hj. rewrite Eh. destruct (decide (i = j)) as [->|]; [by rewrite lookup_insert_eq|].
          rewrite lookup_insert_ne; [apply Hh; lia|]. intros ?%(inj ad). done.
        + intros a. rewrite Eh. destruct (decide (a = ad i)) as [->|]; [by exists i; split; [lia|]|].
          rewrite lookup_insert_ne by done. intros Ha. destruct (Ho a Ha) as (j & ? & ?). exists j. split; [lia|done].
      - cbn beta. intros r s' (Hr & E1 & E2 & E3 & c2 & Hst & E4 & E5). rewrite <- Nat.add_succ_comm.
        split; [done|]. split; [congruence|]. split; [congruence|]. split; [done|]. by exists c2. }
    cbn [lru_head set_global_cache set_heap].
    destruct i as [|k]; simpl in Hhd, Htl; rewrite Hhd.
    + wp_steps. by apply Hgo.
    + wp_steps. rewrite wp_upd_block. cbn [heap set_global_cache set_heap]. rewrite lookup_insert_eq. eexists. split; [done|].
      wp_steps. apply Hgo; try done. simpl. by rewrite insert_insert_eq.
Qed.

(** The state before [vfs_cache_init]. *)
Definition blank (s : vcache D) : Prop :=
  global_cache s = None /\ lru_head s = None /\ lru_tail s = None /\ heap s = ∅.

Lemma init_cache_spec ad bytes n bs fl s :
  Inj (=) (=) ad -> blank s -> 0 <= n <= 256 ->
  wp (vfs_cache_init bs n fl true (good_answers ad bytes)) (fun r s' => r = 0 /\ hash_table s' = empty_table /\ world s' = world s /\
    lookups s' = 0 /\ exists c, started ad bytes (round_size bs) (Z.to_nat n) s' c /\ num_blocks c = n /\ enabled c = 1) s.
Proof.
  intros Hinj (Hg & Hh & Ht & He) Hn. unfold vfs_cache_init. wp_steps. rewrite Hg. cbn [negb]. wp_steps.
  destruct (Z.ltb_spec VFS_MAX_CACHE_BLOCKS n) as [|_]; [unfold VFS_MAX_CACHE_BLOCKS in *; lia|].
  eapply wp_mono; [eapply (init_blocks_spec ad bytes (round_size bs) (Z.to_nat n) Hinj 0); [lia|]|].
  - split; simpl; [done| | | | |done|done]; [intros; lia|done|intros; lia|rewrite He; by intros a [x Hx]].
  - cbn beta. intros r s' (Hr & E1 & E2 & E3 & c & Hst & E4 & E5). split; [done|]. split; [done|]. split; [done|]. split; [done|].
    by exists c.
Qed.

End Basics.

(** ** Devices *)

Section Devices.
Context {D : Type} (E : env D).

(** What the cache relies on of the devices: [cap] and [bs] are the capacity and the block
    size of each in bytes, [byte] is what is stored. Devices of capacity 0 need not exist. *)
Class Disk (bs cap : Z -> Z) (byte : D -> Z -> Z -> Z) : Prop := {
  disk_device : forall w dev, 0 < cap dev -> exists d, get_device E w dev = Some d /\ d_block_size d = bs dev /\
    can_read d = true /\ can_write d = true;
  disk_size : forall dev, 0 < cap dev -> 0 < bs dev /\ cap dev < 2 ^ 31;
  disk_read : forall dev pos n w, 0 <= pos -> 0 < n -> (pos + n) * bs dev <= cap dev ->
    exists w', read_blocks E dev pos n w = (n, map (fun i => byte w dev (pos * bs dev + i)) (seqZ 0 (n * bs dev)), w') /\
      forall d o, byte w' d o = byte w d o;
  disk_write : forall dev pos n l w, 0 <= pos -> 0 < n -> (pos + n) * bs dev <= cap dev -> n * bs dev <= Z.of_nat (length l) ->
    exists w', write_blocks E dev pos n l w = (n, w') /\
      forall d o, byte w' d o = if decide (d = dev /\ pos * bs dev <= o < (pos + n) * bs dev)
                                then nth (Z.to_nat (o - pos * bs dev)) l 0 else byte w d o;
  disk_sync : forall dev w d o, byte (sync_device E dev w) d o = byte w d o;
}.

Context (bs cap : Z -> Z) (byte : D -> Z -> Z -> Z) `{!Disk bs cap byte}.
Context (cs : Z).

(** The blocks of [cs] bytes that the cache can hold; block 0 of device 0 is not one of
    them, since its key marks free blocks. *)
Definition key_ok (dev blk : Z) : Prop :=
  0 < cs /\ 0 <= dev < 2 ^ 32 /\ 0 <= blk < 2 ^ 32 /\ (blk + 1) * cs <= cap dev /\ (bs dev | cs) /\ (dev, blk) <> (0, 0).

Definition on_disk (w : D) (dev blk : Z) : list Z := map (fun i => byte w dev (blk * cs + i)) (seqZ 0 cs).

Lemma on_disk_length w dev blk : 0 <= cs -> length (on_disk w dev blk) = Z.to_nat cs.
Proof. intros. unfold on_disk. by rewrite length_map, length_seqZ. Qed.

Lemma on_disk_ext w w' dev blk : (forall d o, byte w' d o = byte w d o) -> on_disk w' dev blk = on_disk w dev blk.
Proof. intros H. unfold on_disk. apply map_ext. by intros. Qed.

Lemma extent_spec d b dev blk Q (s : vcache D) :
  key_ok dev blk -> d_block_size d = bs dev -> dev_id b = dev -> block_id b = blk -> VfsCache.size b = cs ->
  (forall n, cs = n * bs dev -> 0 < n -> Q (blk * n, n) s) -> wp (extent d b) Q s.
Proof.
  intros (Hcs & _ & Hblk & Hcap & [n En] & _) Ed _ Eb Es HQ.
  assert (0 < cap dev) as Hc by nia. destruct (disk_size dev Hc) as [Hbs Hc31].
  assert (0 < n) by nia. assert (1 * cs <= (blk + 1) * cs) by (apply Z.mul_le_mono_nonneg_r; lia).
  assert (1 * bs dev <= n * bs dev) by (apply Z.mul_le_mono_nonneg_r; lia).
  unfold extent. rewrite Ed. destruct (Z.eqb_spec (bs dev) 0); [lia|]. wp_steps.
  rewrite Eb, Es, (u32_small (cs + bs dev)), (u32_small (cs + bs dev - 1)) by lia.
  replace ((cs + bs dev - 1) / bs dev) with n.
  2:{ replace (cs + bs dev - 1) with (n * bs dev + (bs dev - 1)) by lia. rewrite Z.div_add_l, (Z.div_small (bs dev - 1)); lia. }
  replace (if bs dev =? cs then blk else u32 (blk * cs) / bs dev) with (blk * n); [by apply HQ|].
  destruct (Z.eqb_spec (bs dev) cs) as [e|e].
  - assert (n = 1) as -> by nia. lia.
  - rewrite u32_small by nia. rewrite En, Z.mul_assoc, Z.div_mul; lia.
Qed.

Lemma device_read_spec dev blk n a b Q s :
  key_ok dev blk -> cs = n * bs dev -> 0 < n -> heap s !! a = Some b -> length (data b) = Z.to_nat cs ->
  (forall w', (forall d o, byte w' d o = byte (world s) d o) ->
     Q n (set_heap (<[a := set_data (on_disk (world s) dev blk) b]> (heap s)) (set_world w' s))) ->
  wp (device_read E dev (blk * n) n a) Q s.
Proof.
  intros (Hcs & _ & Hblk & Hcap & _ & _) En Hn Hb Hl HQ.
  destruct (disk_read dev (blk * n) n (world s)) as (w' & Er & Hw); [lia|lia|nia|].
  unfold device_read. wp_steps. rewrite Er. wp_steps. rewrite wp_read_cached. exists b. split; [done|].
  assert (map (fun i => byte (world s) dev (blk * n * bs dev + i)) (seqZ 0 (n * bs dev)) = on_disk (world s) dev blk) as ->.
  { unfold on_disk. rewrite <- En. apply map_ext. intros i. f_equal. nia. }
  rewrite on_disk_length, Hl by lia. rewrite Nat.ltb_irrefl. wp_steps. rewrite wp_upd_block. exists b. split; [done|]. wp_steps.
  rewrite drop_ge, app_nil_r by lia. by apply HQ.
Qed.

Lemma count_u32 dev blk n : key_ok dev blk -> cs = n * bs dev -> 0 < n -> (u32 n =? n) = true.
Proof.
  intros (Hcs & _ & Hblk & Hcap & _) En Hn. apply Z.eqb_eq, u32_small. assert (0 < cap dev) as Hc by nia.
  pose proof (disk_size dev Hc). nia.
Qed.

(** ** The knot *)

Lemma walk_spins (s : vcache D) (X : addr -> Prop) test fuel : forall prev a,
  X a -> (forall x, X x -> exists b y, heap s !! x = Some b /\ test x b = false /\ next b = Some y /\ X y) ->
  walk fuel test prev (Some a) s = Spin.
Proof.
  induction fuel as [|fuel IH]; intros prev a Ha HX; [done|]. destruct (HX a Ha) as (b & y & Hb & Ht & Hn & Hy). cbn [walk].
  rewrite (bind_run _ _ s b s) by (unfold read_block, bind, get; by rewrite Hb). rewrite Ht, Hn. by apply IH.
Qed.

(** Every block that can be reached from bucket [h] leads to another one, and none has the
    key [dev], [blk]. *)
Definition knotted (dev blk : Z) (s : vcache D) : Prop :=
  exists (X : addr -> Prop) a, arr_get (hash_table s) (cache_hash dev blk) = Some (Some a) /\ X a /\
    forall x, X x -> exists b y, heap s !! x = Some b /\ has_key dev blk b = false /\ next b = Some y /\ X y.

Lemma lookup_spins dev blk s : knotted dev blk s -> cache_lookup dev blk s = Spin.
Proof.
  intros (X & a & Ha & HXa & HX). unfold cache_lookup.
  rewrite (bind_run _ _ s (Some a) s) by (unfold bucket, bind, get; by rewrite Ha). apply bind_spin. unfold find_node.
  rewrite (bind_run _ _ s s s) by done. by apply (walk_spins s X).
Qed.

Lemma calls_spin dev blk s c : knotted dev blk s -> global_cache s = Some c -> enabled c = 1 ->
  vfs_cache_read_block E dev blk s = Spin /\ forall l sync, vfs_cache_write_block E dev blk l sync s = Spin.
Proof.
  intros Hk Ec En. unfold vfs_cache_read_block, vfs_cache_write_block. split; [|intros l sync]; rewrite (bind_run _ _ s s s) by done;
    rewrite Ec, En; cbn [truth Z.eqb negb].
  - rewrite (bind_run _ _ s tt (set_lookups (inc (lookups s)) s)) by done. apply bind_spin. by apply lookup_spins.
  - apply bind_spin. by apply lookup_spins.
Qed.

Lemma has_key_free dev blk b : key_ok dev blk -> dev_id b = 0 -> block_id b = 0 -> has_key dev blk b = false.
Proof.
  intros (_ & _ & _ & _ & _ & Hne) E1 E2. unfold has_key. rewrite E1, E2. destruct (Z.eqb_spec 0 dev), (Z.eqb_spec 0 blk); try done.
  exfalso. by subst.
Qed.

Lemma lookup_empty_table dev blk Q (s : vcache D) : hash_table s = empty_table -> Q None s -> wp (cache_lookup dev blk) Q s.
Proof.
  intros Ht HQ. unfold cache_lookup. wp_steps. rewrite wp_bucket. exists None. split; [|by wp_steps].
  rewrite Ht. unfold arr_get, empty_table. pose proof (hash_range dev blk).
  destruct (Z.ltb_spec (cache_hash dev blk) 0); [lia|]. apply lookup_replicate_2. lia.
Qed.

(** The first read of a cache of several blocks. *)
Lemma first_read_knots ad bytes n s c dev blk :
  Inj (=) (=) ad -> (forall i, length (bytes i) = Z.to_nat cs) -> (2 <= n)%nat -> started ad bytes cs n s c ->
  hash_table s = empty_table -> num_blocks c = Z.of_nat n -> enabled c = 1 -> key_ok dev blk ->
  wp (vfs_cache_read_block E dev blk) (fun r s' => r = (0, Some (on_disk (world s) dev blk)) /\
    (exists c', global_cache s' = Some c' /\ enabled c' = 1) /\
    forall dev' blk', key_ok dev' blk' -> (dev', blk') <> (dev, blk) -> cache_hash dev' blk' = cache_hash dev blk -> knotted dev' blk' s') s.
Proof.
  intros Hinj Hby Hn [Hc Hb Hlen Hh Ho Hhd Htl] Ht Hnum En Hkey. destruct n as [|[|m]]; [lia|lia|]. simpl in Hhd, Htl.
  assert (ad (S m) <> ad 0%nat) as Hne by (by intros ?%(inj ad)).
  pose proof (Hh 0%nat ltac:(lia)) as H0. pose proof (hash_range dev blk) as Hr.
  unfold vfs_cache_read_block. wp_steps. rewrite Hc, En. cbn [truth Z.eqb negb]. wp_steps. apply lookup_empty_table; [done|]. wp_steps.
  rewrite wp_upd_cache. exists c. split; [done|]. unfold claim_block, cache_alloc_block. wp_steps. rewrite wp_the_cache. eexists. split; [done|].
  assert (used_blocks (set_misses (inc (misses c)) c) = Some (ad 0%nat) :: drop 1 (used_blocks c)) as ->.
  { unfold used_blocks at 1. simpl. specialize (Hb 0%nat ltac:(lia)). unfold used_blocks. rewrite Hnum, Nat2Z.id.
    destruct (blocks c); [done|]. simpl in Hb. injection Hb as ->. done. }
  cbn [first_free]. wp_steps. rewrite wp_read_cached. eexists. split; [exact H0|]. cbn [dev_id block_id set_next new_block Z.eqb andb]. wp_steps.
  do 4 (rewrite wp_upd_block; eexists; split; [first [exact H0|apply lookup_insert_eq]|]; wp_steps).
  cbn [heap set_heap set_global_cache set_cache_misses set_lookups world]. rewrite !insert_insert_eq.
  destruct (disk_device (world s) dev) as (d & Ed & Ebs & Hrd & _); [destruct Hkey; nia|]. rewrite Ed, Hrd. cbn [negb]. wp_steps.
  rewrite wp_read_cached. eexists. split; [apply lookup_insert_eq|]. wp_steps. apply (extent_spec _ _ dev blk); try done.
  intros k Ek Hk. cbn [fst snd]. wp_steps. eapply device_read_spec; [done|done|done|apply lookup_insert_eq|simpl; apply Hby|].
  intros w' Hw'. cbn [heap set_heap set_global_cache set_cache_misses set_lookups world set_world]. rewrite insert_insert_eq.
  rewrite (count_u32 dev blk k) by done.
  cbn [negb]. wp_steps. unfold link_block. wp_steps. rewrite wp_bucket. exists None. split.
  { cbn [hash_table set_heap set_global_cache set_cache_misses set_lookups world set_world]. rewrite Ht. unfold arr_get, empty_table.
    destruct (Z.ltb_spec (cache_hash dev blk) 0); [lia|]. apply lookup_replicate_2. lia. }
  wp_steps. rewrite wp_upd_block. eexists. split; [apply lookup_insert_eq|]. apply wp_set_bucket; [simpl; rewrite Ht; simpl; lia|].
  unfold cache_mark_accessed. wp_steps. rewrite wp_upd_block. eexists. split; [apply lookup_insert_eq|].
  cbn [lru_head lru_tail set_heap set_global_cache set_cache_misses set_lookups world set_world set_hash_table]. rewrite Hhd, Htl.
  rewrite bool_decide_eq_false_2 by congruence. rewrite bool_decide_eq_true_2 by done. wp_steps.
  rewrite wp_upd_block. eexists. split; [apply lookup_insert_eq|]. wp_steps.
  cbn [lru_tail set_lru_head set_heap set_lru_tail]. wp_steps. rewrite wp_read_cached.
  eexists. split; [apply lookup_insert_eq|]. wp_steps.
  cbn [heap set_heap set_lru_tail set_lru_head hash_table set_hash_table global_cache set_global_cache set_cache_misses set_lookups world set_world].
  split; [done|]. split; [by eexists|]. intros dev' blk' Hk' Hdiff Ehash.
  exists (fun a => exists j, (j < S (S m))%nat /\ a = ad j), (ad 0%nat).
  cbn [heap set_heap set_lru_tail set_lru_head hash_table set_hash_table set_global_cache set_cache_misses set_lookups set_world].
  split; [rewrite Ehash, arr_get_insert by (rewrite ?Ht; simpl; lia); by rewrite decide_True|]. split; [by exists 0%nat; split; [lia|]|].
  intros x (j & Hj & ->). destruct j as [|j].
  - rewrite lookup_insert_eq. eexists _, (ad (S m)). split; [done|]. split; [|split; [simpl; by rewrite Hhd|by exists (S m); split; [lia|]]].
    unfold has_key. simpl. destruct (Z.eqb_spec dev dev'), (Z.eqb_spec blk blk'); try done. exfalso. by subst.
  - rewrite !lookup_insert_ne by (intros ?%(inj ad); done). eexists _, (ad j). split; [apply Hh; lia|].
    split; [by apply has_key_free|]. split; [done|by exists j; split; [lia|]].
Qed.

End Devices.

(** ** One block *)

Arguments disk_device {D E bs cap byte _}.
Arguments disk_size {D E bs cap byte _}.
Arguments disk_read {D E bs cap byte _}.
Arguments disk_write {D E bs cap byte _}.
Arguments disk_sync {D E bs cap byte _}.

Section OneBlock.
Context {D : Type} (E : env D) (bs cap : Z -> Z) (byte : D -> Z -> Z -> Z) `{!Disk E bs cap byte} (cs : Z).
Abbreviation key_ok := (key_ok bs cap cs).
Abbreviation on_disk := (on_disk byte cs).

Definition table_of (a : addr) (k : option (Z * Z)) : list ptr :=
  match k with
  | None => empty_table
  | Some (dev, blk) => <[Z.to_nat (cache_hash dev blk) := Some a]> empty_table
  end.

(** A cache of the one block [b] at [a], which holds block [k] of the devices or is free,
    with the hash table [t]. *)
Record single (a : addr) (b : block) (k : option (Z * Z)) (t : list ptr) (s : vcache D) : Prop := mk_single {
  sg_cache : exists c, global_cache s = Some c /\ enabled c = 1 /\ used_blocks c = [Some a];
  sg_heap : heap s = {[a := b]};
  sg_lru : lru_head s = Some a /\ lru_tail s = Some a;
  sg_next : next b = None;
  sg_size : VfsCache.size b = cs;
  sg_data : length (data b) = Z.to_nat cs;
  sg_key : match k with
           | None => dev_id b = 0 /\ block_id b = 0 /\ dirty b = 0
           | Some (dev, blk) => dev_id b = dev /\ block_id b = blk /\ key_ok dev blk
           end;
  sg_table : hash_table s = t;
  sg_clean : forall dev blk, k = Some (dev, blk) -> dirty b = 0 -> data b = on_disk (world s) dev blk;
}.

(** What a caller sees: the block in the cache, and the devices behind it. *)
Definition contents (b : block) (k : option (Z * Z)) (w : D) (dev blk : Z) : list Z :=
  if decide (k = Some (dev, blk)) then data b else on_disk w dev blk.

Definition view (a : addr) (b : block) (k : option (Z * Z)) (t : list ptr) (f : Z -> Z -> list Z) (s : vcache D) : Prop :=
  single a b k t s /\ forall dev blk, key_ok dev blk -> f dev blk = contents b k (world s) dev blk.

Definition represents (a : addr) (f : Z -> Z -> list Z) (s : vcache D) : Prop := exists b k, view a b k (table_of a k) f s.

Lemma table_length a k : length (table_of a k) = 256%nat.
Proof. destruct k as [[dev blk]|]; unfold table_of, empty_table; by rewrite ?length_insert, length_replicate. Qed.

Lemma table_get a k h : 0 <= h < 256 ->
  arr_get (table_of a k) h = Some (match k with Some (dev, blk) => if decide (cache_hash dev blk = h) then Some a else None | None => None end).
Proof.
  intros Hh. assert (arr_get empty_table h = Some None) as He.
  { unfold arr_get, empty_table. destruct (Z.ltb_spec h 0); [lia|]. apply lookup_replicate_2. lia. }
  destruct k as [[dev blk]|]; [|done]. unfold table_of. pose proof (hash_range dev blk).
  rewrite arr_get_insert by (unfold empty_table; rewrite ?length_replicate; lia). by case_decide.
Qed.

Lemma single_upd a b k t f s g : view a b k t f s ->
  (forall x, next (g x) = next x /\ VfsCache.size (g x) = VfsCache.size x /\ data (g x) = data x /\ dev_id (g x) = dev_id x /\
             block_id (g x) = block_id x /\ dirty (g x) = dirty x) ->
  view a (g b) k t f (set_heap (<[a := g b]> (heap s)) s).
Proof.
  intros [[] Hf] Hg. destruct (Hg b) as (E1 & E2 & E3 & E4 & E5 & E6). split.
  - split; simpl; rewrite ?E1, ?E2, ?E3, ?E4, ?E5, ?E6; try done. rewrite sg_heap0. apply insert_singleton_eq.
  - intros dev blk Hk. rewrite Hf by done. unfold contents. by rewrite E3.
Qed.

(** Counters do not matter. *)
Lemma view_same a b k t f s s' : view a b k t f s ->
  heap s' = heap s -> lru_head s' = lru_head s -> lru_tail s' = lru_tail s -> hash_table s' = hash_table s -> world s' = world s ->
  (forall c, global_cache s = Some c -> exists c', global_cache s' = Some c' /\ enabled c' = enabled c /\ used_blocks c' = used_blocks c) ->
  view a b k t f s'.
Proof.
  intros [[(c & Hc & He & Hu) Hh [Hl1 Hl2]] Hf] E1 E2 E3 E4 E5 Hc'. destruct (Hc' c Hc) as (c' & ? & ? & ?). split.
  - split; rewrite ?E1, ?E2, ?E3, ?E4, ?E5; try done. exists c'. split; [done|]. split; congruence.
  - by rewrite E5.
Qed.

Lemma find_single a b k t f s (test : addr -> block -> bool) Q :
  view a b k t f s -> Q (if test a b then Some (None, a) else None) s -> wp (find_node test (Some a)) Q s.
Proof.
  intros [[] _] HQ. unfold find_node. wp_steps. cbn [walk]. wp_steps. rewrite wp_read_cached. exists b.
  split; [rewrite sg_heap0; apply lookup_singleton_eq|]. destruct (test a b); [by wp_steps|].
  rewrite sg_heap0, map_size_singleton, sg_next0. by cbn [walk]; wp_steps.
Qed.

Lemma has_key_single dev blk a b k t f s : view a b k t f s -> key_ok dev blk -> has_key dev blk b = bool_decide (k = Some (dev, blk)).
Proof.
  intros [[] _] Hk. destruct k as [[dev' blk']|]; destruct sg_key0 as (E1 & E2 & E3).
  - unfold has_key. rewrite E1, E2. destruct (Z.eqb_spec dev' dev) as [->|], (Z.eqb_spec blk' blk) as [->|]; simpl;
      symmetry; first [apply bool_decide_eq_true_2; done|apply bool_decide_eq_false_2; congruence].
  - rewrite bool_decide_eq_false_2 by done. by apply (has_key_free bs cap cs).
Qed.

Lemma bucket_single dev blk a b k f s Q : view a b k (table_of a k) f s ->
  Q (match k with Some (d, n) => if decide (cache_hash d n = cache_hash dev blk) then Some a else None | None => None end) s ->
  wp (bucket (cache_hash dev blk)) Q s.
Proof.
  intros [[] _] HQ. rewrite wp_bucket, sg_table0, table_get by apply hash_range. by eexists.
Qed.

Lemma find_key_single dev blk a b k f s Q : view a b k (table_of a k) f s -> key_ok dev blk ->
  Q (if decide (k = Some (dev, blk)) then Some (None, a) else None) s ->
  wp (p <- bucket (cache_hash dev blk) ;; find_node (fun _ => has_key dev blk) p) Q s.
Proof.
  intros Hv Hk HQ. wp_steps. apply (bucket_single dev blk a b k f); [done|].
  destruct (decide (k = Some (dev, blk))) as [->|Hne].
  - rewrite decide_True by done. eapply find_single; [exact Hv|]. by rewrite (has_key_single _ _ a b _ _ f s Hv Hk), bool_decide_eq_true_2.
  - destruct k as [[d n]|]; [|by unfold find_node; wp_steps].
    case_decide; [|by unfold find_node; wp_steps]. eapply find_single; [exact Hv|].
    by rewrite (has_key_single _ _ a b _ _ f s Hv Hk), bool_decide_eq_false_2.
Qed.

Lemma lookup_single dev blk a b k f s Q : view a b k (table_of a k) f s -> key_ok dev blk ->
  Q (if decide (k = Some (dev, blk)) then Some a else None) s -> wp (cache_lookup dev blk) Q s.
Proof.
  intros Hv Hk HQ. unfold cache_lookup.
  pose proof (find_key_single dev blk a b k f s (fun r s' => wp (ret (snd <$> r)) Q s') Hv Hk) as H.
  rewrite wp_bind in H. rewrite wp_bind. eapply wp_mono; [apply H; by case_decide; wp_steps|]. cbn beta. intros p s' Hp. by wp_steps.
Qed.

Lemma mark_single a b k t f s Q : view a b k t f s ->
  (forall b' s', view a b' k t f s' -> data b' = data b -> dirty b' = dirty b -> world s' = world s -> Q tt s') -> wp (cache_mark_accessed E a) Q s.
Proof.
  intros Hv HQ. pose proof Hv as [[] _]. unfold cache_mark_accessed. wp_steps. rewrite wp_upd_block. exists b.
  split; [rewrite sg_heap0; apply lookup_singleton_eq|]. rewrite bool_decide_eq_true_2 by apply sg_lru0. wp_steps.
  eapply (HQ (set_last_access _ b)); [|done..]. by apply (single_upd a b k t f s (set_last_access _)).
Qed.

Lemma map_nth_seqZ (l : list Z) : map (fun i => nth (Z.to_nat i) l 0) (seqZ 0 (Z.of_nat (length l))) = l.
Proof.
  apply list_eq. intros i. rewrite list_lookup_fmap. destruct (decide (i < length l)%nat) as [Hi|Hi].
  - rewrite lookup_seqZ_lt by lia. destruct (lookup_lt_is_Some_2 l i Hi) as [x Hx]. rewrite Hx.
    simpl. f_equal. replace (Z.to_nat (0 + Z.of_nat i)) with i by lia. by apply nth_lookup_Some.
  - rewrite lookup_seqZ_ge by lia. symmetry. apply lookup_ge_None. lia.
Qed.

Lemma device_write_spec d dev blk n b Q s :
  key_ok dev blk -> d_block_size d = bs dev -> cs = n * bs dev -> 0 < n -> dev_id b = dev -> length (data b) = Z.to_nat cs ->
  (forall w', on_disk w' dev blk = data b ->
     (forall d' k', (d', k') <> (dev, blk) -> on_disk w' d' k' = on_disk (world s) d' k') -> Q n (set_world w' s)) ->
  wp (device_write E d (blk * n) n b) Q s.
Proof.
  intros (Hcs & _ & Hblk & Hcap & _ & _) Ed En Hn Edev Hl HQ. unfold device_write.
  rewrite Ed, <- En. destruct (Z.ltb_spec (Z.of_nat (length (data b))) cs); [lia|]. wp_steps. rewrite Edev.
  destruct (disk_write dev (blk * n) n (data b) (world s)) as (w' & Er & Hw); [lia|lia|nia|lia|].
  rewrite Er. wp_steps. apply HQ.
  - unfold on_disk. rewrite <- (map_nth_seqZ (data b)), Hl, Z2Nat.id by lia. apply map_ext_in. intros i Hi.
    apply list_elem_of_In, elem_of_seqZ in Hi. rewrite Hw, decide_True by (split; [done|nia]). f_equal. f_equal. nia.
  - intros d' k' Hne. unfold on_disk. apply map_ext_in. intros i Hi. apply list_elem_of_In, elem_of_seqZ in Hi.
    rewrite Hw, decide_False; [done|]. intros [-> Hr]. assert (k' <> blk) by congruence. nia.
Qed.

Lemma writeback_spec a b dev blk s Q :
  heap s !! a = Some b -> dev_id b = dev -> block_id b = blk -> key_ok dev blk -> VfsCache.size b = cs ->
  length (data b) = Z.to_nat cs -> is_Some (global_cache s) -> dirty b <> 0 ->
  (forall w' n, on_disk w' dev blk = data b ->
     (forall d' k', (d', k') <> (dev, blk) -> on_disk w' d' k' = on_disk (world s) d' k') ->
     Q 0 (set_writebacks n (set_world w' (set_heap (<[a := set_dirty 0 b]> (heap s)) s)))) ->
  wp (cache_writeback_block E a) Q s.
Proof.
  intros Hb Edev Eblk Hk Es Hl [c Hc] Hd HQ. unfold cache_writeback_block. wp_steps. rewrite wp_read_cached. exists b. split; [done|].
  rewrite (proj2 (truth_true _) Hd). cbn [negb]. wp_steps. rewrite Edev.
  destruct (disk_device (world s) dev) as (d & Ed & Ebs & _ & Hwr); [destruct Hk; nia|]. rewrite Ed, Hwr. cbn [negb]. wp_steps.
  apply (extent_spec E bs cap byte cs _ _ dev blk); try done. intros n En Hn. cbn [fst snd]. wp_steps.
  apply (device_write_spec d dev blk n b); try done. intros w' Hw Ho.
  rewrite (count_u32 E bs cap byte cs dev blk n) by done.
  cbn [negb]. wp_steps. rewrite wp_upd_block. exists b. split; [done|]. wp_steps. rewrite wp_the_cache. exists c. split; [done|].
  wp_steps. assert (forall d' k', on_disk (sync_device E dev w') d' k' = on_disk w' d' k') as Hsy
    by (intros; apply on_disk_ext; intros; apply disk_sync).
  case_if; wp_steps; eapply HQ; try done; [by rewrite Hsy|intros; rewrite Hsy; by apply Ho].
Qed.

Lemma table_drop a dev blk : <[Z.to_nat (cache_hash dev blk) := None]> (table_of a (Some (dev, blk))) = empty_table.
Proof. unfold table_of, empty_table. rewrite list_insert_insert_eq. apply insert_replicate. Qed.

(** A block that is out of the table becomes free; what it held is on its device. *)
Lemma forget_single a b dev blk f s b' n : view a b (Some (dev, blk)) empty_table f s -> dirty b = 0 ->
  next b' = None -> VfsCache.size b' = cs -> data b' = data b -> dev_id b' = 0 -> block_id b' = 0 -> dirty b' = 0 ->
  view a b' None empty_table f (set_evictions n (set_heap {[a := b']} s)).
Proof.
  intros [[] Hf] Hd E1 E2 E3 E4 E5 E6. split.
  - split; try done. by rewrite E3.
  - intros d k Hk. rewrite (Hf d k Hk). unfold contents. rewrite (decide_False (P := None = _)) by done.
    case_decide as e; [|done]. injection e as <- <-. by apply sg_clean0.
Qed.

Lemma writeback_single a b dev blk t f s : view a b (Some (dev, blk)) t f s -> dirty b <> 0 ->
  wp (cache_writeback_block E a) (fun r s' => r = 0 /\ view a (set_dirty 0 b) (Some (dev, blk)) t f s') s.
Proof.
  intros [[] Hf] Hd. destruct sg_key0 as (E1 & E2 & Hk). pose proof sg_cache0 as (c & Hc & _).
  eapply (writeback_spec a b dev blk); try done; [rewrite sg_heap0; apply lookup_singleton_eq|].
  intros w' n Hw Ho. split; [done|]. split.
  - split; simpl; try done; [by rewrite sg_heap0, insert_singleton_eq|]. by intros d k [= <- <-].
  - intros d k Hkk. simpl. rewrite (Hf d k Hkk). unfold contents. case_decide; [done|]. symmetry. apply Ho. congruence.
Qed.

Lemma written_back a b dev blk t f s Q : view a b (Some (dev, blk)) t f s ->
  (forall b' s', view a b' (Some (dev, blk)) t f s' -> dirty b' = 0 -> Q tt s') ->
  wp (if truth (dirty b) then _r <- cache_writeback_block E a ;; ret tt else ret tt) Q s.
Proof.
  intros Hv HQ. case_if; bools; wp_steps; [|by apply (HQ b)].
  eapply wp_mono; [by eapply writeback_single|]. cbn beta. intros r s' [_ Hv']. wp_steps. by eapply HQ.
Qed.

Lemma drop_single a dev blk b f s h : view a b (Some (dev, blk)) (table_of a (Some (dev, blk))) f s -> h = cache_hash dev blk ->
  forall Q, (forall s', view a b (Some (dev, blk)) empty_table f s' -> Q tt s') -> wp (set_link h None (next b)) Q s.
Proof.
  intros [[] Hf] -> Q HQ. cbn [set_link]. apply wp_set_bucket; [rewrite sg_table0, table_length; apply hash_range|].
  apply HQ. rewrite sg_table0, sg_next0, table_drop. by split; [split|].
Qed.

Lemma heap_single a b k t f s : view a b k t f s -> heap s !! a = Some b.
Proof. intros [[] _]. rewrite sg_heap0. apply lookup_singleton_eq. Qed.

Lemma evict_single a b dev blk f s Q : view a b (Some (dev, blk)) (table_of a (Some (dev, blk))) f s ->
  (forall b' s', view a b' None empty_table f s' -> Q 0 s') -> wp (cache_evict_block E) Q s.
Proof.
  intros Hv HQ. unfold cache_evict_block. wp_steps. destruct (sg_lru _ _ _ _ _ (proj1 Hv)) as [_ ->]. wp_steps. rewrite wp_read_cached.
  exists b. split; [by eapply heap_single|]. wp_steps. eapply written_back; [done|]. intros b1 s1 Hv1 Hd1.
  cbn beta. wp_steps. rewrite wp_read_cached. exists b1. split; [by eapply heap_single|]. pose proof Hv1 as [[] _]. destruct sg_key0 as (E1 & E2 & Hk).
  assert (truth (dev_id b1) || truth (block_id b1) = true) as ->.
  { apply orb_true_iff. rewrite !truth_true, E1, E2. destruct Hk as (_ & _ & _ & _ & _ & Hne).
    destruct (Z.eq_dec dev 0), (Z.eq_dec blk 0); [exfalso; apply Hne; congruence|by right|by left..]. }
  wp_steps. rewrite E1, E2. apply (bucket_single dev blk a b1 (Some (dev, blk)) f); [done|]. rewrite decide_True by done. wp_steps.
  eapply find_single; [done|]. rewrite bool_decide_eq_true_2 by done. wp_steps. rewrite wp_read_cached. exists b1. split; [by eapply heap_single|].
  eapply drop_single; [done|done|]. intros s2 Hv2. wp_steps. pose proof (heap_single _ _ _ _ _ _ Hv2) as Hb2.
  do 3 (rewrite wp_upd_block; eexists; split; [first [exact Hb2|apply lookup_insert_eq]|]; wp_steps).
  rewrite wp_read_cached. eexists. split; [apply lookup_insert_eq|]. cbn [next set_dirty set_block_id set_dev_id]. rewrite sg_next0. wp_steps.
  eapply HQ. cbn [heap set_heap]. rewrite !insert_insert_eq. pose proof (sg_heap _ _ _ _ _ (proj1 Hv2)) as Hh2.
  rewrite Hh2, insert_singleton_eq. by eapply (forget_single a b1 dev blk f s2).
Qed.

Lemma reset_single a b dev blk f s Q : view a b (Some (dev, blk)) empty_table f s ->
  (forall b' s', view a b' None empty_table f s' -> Q tt s') -> wp (reset_block E a) Q s.
Proof.
  intros Hv HQ. unfold reset_block. wp_steps. rewrite wp_read_cached. exists b. split; [by eapply heap_single|]. wp_steps.
  eapply written_back; [done|]. intros b1 s1 Hv1 Hd1. cbn beta. wp_steps. pose proof (heap_single _ _ _ _ _ _ Hv1) as Hb1. pose proof (proj1 Hv1) as [].
  do 4 (rewrite wp_upd_block; eexists; split; [first [exact Hb1|apply lookup_insert_eq]|]; wp_steps).
  eapply HQ. cbn [heap set_heap]. rewrite !insert_insert_eq, sg_heap0, insert_singleton_eq.
  by eapply (forget_single a b1 dev blk f s1 _ (evictions s1)).
Qed.

Lemma alloc_single a b k f s Q : view a b k (table_of a k) f s ->
  Q (match k with None => Some a | Some _ => None end) s -> wp cache_alloc_block Q s.
Proof.
  intros Hv HQ. unfold cache_alloc_block. wp_steps. rewrite wp_the_cache. destruct (sg_cache _ _ _ _ _ (proj1 Hv)) as (c & Hc & _ & Hu). pose proof (sg_key _ _ _ _ _ (proj1 Hv)) as sg_key0.
  exists c. split; [done|]. rewrite Hu. cbn [first_free]. wp_steps. rewrite wp_read_cached. exists b. split; [by eapply heap_single|].
  destruct k as [[dev blk]|]; destruct sg_key0 as (E1 & E2 & E3); rewrite E1, E2; [|by wp_steps].
  destruct E3 as (_ & _ & _ & _ & _ & Hne). destruct (Z.eqb_spec dev 0), (Z.eqb_spec blk 0); [exfalso; apply Hne; congruence|by wp_steps..].
Qed.

Lemma claim_single a b k f s Q : view a b k (table_of a k) f s ->
  (forall b' s', view a b' None empty_table f s' -> Q (Some a) s') -> wp (claim_block E) Q s.
Proof.
  intros Hv HQ. unfold claim_block. wp_steps. eapply alloc_single; [done|]. destruct k as [[dev blk]|].
  - wp_steps. eapply evict_single; [done|]. intros b' s' Hv'. rewrite Z.eqb_refl. cbn [negb].
    eapply (alloc_single a b' None f); [done|]. by eapply HQ.
  - wp_steps. by eapply HQ.
Qed.

(** A block with its key and new contents goes into the table. *)
Lemma link_single a b dev blk (s : vcache D) c Q :
  global_cache s = Some c -> enabled c = 1 -> used_blocks c = [Some a] -> heap s = {[a := b]} -> lru_head s = Some a -> lru_tail s = Some a ->
  hash_table s = empty_table ->
  Q tt (set_hash_table (table_of a (Some (dev, blk))) (set_heap {[a := set_next None b]} s)) -> wp (link_block a dev blk) Q s.
Proof.
  intros Hc He Hu Hh Hl1 Hl2 Ht HQ. unfold link_block. wp_steps. rewrite wp_bucket. exists None. split.
  { rewrite Ht. by apply (table_get a None), hash_range. }
  wp_steps. rewrite wp_upd_block. exists b. split; [rewrite Hh; apply lookup_singleton_eq|].
  apply wp_set_bucket; [simpl; rewrite Ht; apply hash_range|]. simpl. by rewrite Hh, insert_singleton_eq, Ht.
Qed.

Definition update (f : Z -> Z -> list Z) (dev blk : Z) (l : list Z) : Z -> Z -> list Z :=
  fun d k => if decide ((d, k) = (dev, blk)) then l else f d k.

Lemma represents_same a f (s s' : vcache D) : represents a f s ->
  heap s' = heap s -> lru_head s' = lru_head s -> lru_tail s' = lru_tail s -> hash_table s' = hash_table s -> world s' = world s ->
  (forall c, global_cache s = Some c -> exists c', global_cache s' = Some c' /\ enabled c' = enabled c /\ used_blocks c' = used_blocks c) ->
  represents a f s'.
Proof. intros (b & k & Hv) **. exists b, k. by apply (view_same a b k _ f s). Qed.

(** A free block takes the key and the contents of block [dev], [blk]. *)
Lemma fill_single a b f s b' dev blk w t : view a b None empty_table f s -> key_ok dev blk ->
  next b' = None -> VfsCache.size b' = cs -> length (data b') = Z.to_nat cs -> dev_id b' = dev -> block_id b' = blk ->
  (forall d o, byte w d o = byte (world s) d o) -> (dirty b' = 0 -> data b' = on_disk (world s) dev blk) -> t = table_of a (Some (dev, blk)) ->
  view a b' (Some (dev, blk)) t (update f dev blk (data b')) (set_hash_table t (set_heap {[a := b']} (set_world w s))).
Proof.
  intros [[] Hf] Hk E1 E2 E3 E4 E5 Hw Hcl ->. split.
  - split; try done. intros d n [= <- <-] Hd. simpl. rewrite (on_disk_ext byte cs _ w _ _ Hw). by apply Hcl.
  - intros d n Hkn. unfold update, contents. simpl. rewrite (on_disk_ext byte cs _ w _ _ Hw).
    destruct (decide ((d, n) = (dev, blk))) as [e|e]; [injection e as -> ->; by rewrite decide_True|].
    rewrite decide_False by congruence. rewrite (Hf d n Hkn). unfold contents. by rewrite decide_False.
Qed.

Lemma update_id f dev blk d k : update f dev blk (f dev blk) d k = f d k.
Proof. unfold update. case_decide as e; [by injection e as -> ->|done]. Qed.

Lemma read_represents a f dev blk s : represents a f s -> key_ok dev blk ->
  wp (vfs_cache_read_block E dev blk) (fun r s' => r = (0, Some (f dev blk)) /\ represents a f s') s.
Proof.
  intros (b & k & Hv) Hk. destruct (sg_cache _ _ _ _ _ (proj1 Hv)) as (c & Hc & Hen & Hu).
  unfold vfs_cache_read_block. wp_steps. rewrite Hc, Hen. cbn [truth Z.eqb negb]. wp_steps.
  assert (view a b k (table_of a k) f (set_lookups (inc (lookups s)) s)) as Hv0.
  { apply (view_same a b k _ f s); try done. intros x Hx. by exists x. }
  eapply lookup_single; [exact Hv0|done|]. destruct (decide (k = Some (dev, blk))) as [->|Hne]; wp_steps; rewrite wp_upd_cache; eexists; (split; [done|]); wp_steps.
  - rewrite wp_upd_block. exists b. split; [apply (heap_single _ _ _ _ _ _ Hv)|]. wp_steps.
    set (s1 := set_global_cache _ _).
    assert (view a b (Some (dev, blk)) (table_of a (Some (dev, blk))) f s1) as Hv1.
    { apply (view_same a b _ _ f s); try done. intros x Hx. rewrite Hc in Hx. injection Hx as <-. by eexists. }
    eapply mark_single; [apply (single_upd a b _ _ f s1 (fun b => set_access_count (inc (access_count b)) b) Hv1); by intros|].
    intros b2 s2 Hv2 Hdat _ _. cbn beta. wp_steps. rewrite wp_read_cached. exists b2. split; [apply (heap_single _ _ _ _ _ _ Hv2)|]. wp_steps.
    rewrite Hdat. split; [|by exists b2, (Some (dev, blk))]. destruct Hv as [_ Hf]. rewrite (Hf dev blk Hk). unfold contents. by rewrite decide_True.
  - eapply (claim_single a b k f). { apply (view_same a b _ _ f s); try done. intros x Hx. rewrite Hc in Hx. injection Hx as <-. by eexists. }
    intros b1 s1 Hv1. wp_steps. pose proof (heap_single _ _ _ _ _ _ Hv1) as Hb1. pose proof (proj1 Hv1) as [].
    do 4 (rewrite wp_upd_block; eexists; split; [first [exact Hb1|apply lookup_insert_eq]|]; wp_steps).
    cbn [heap set_heap world]. rewrite !insert_insert_eq, sg_heap0, insert_singleton_eq.
    destruct (disk_device (world s1) dev) as (d & Ed & Ebs & Hrd & _); [destruct Hk; nia|]. rewrite Ed, Hrd. cbn [negb]. wp_steps.
    rewrite wp_read_cached. eexists. split; [apply lookup_singleton_eq|]. wp_steps. apply (extent_spec E bs cap byte cs _ _ dev blk); try done.
    intros n En Hn. cbn [fst snd]. wp_steps. eapply (device_read_spec E bs cap byte cs); [done|done|done|apply lookup_singleton_eq|done|].
    intros w' Hw'. cbn [heap set_heap world set_world]. rewrite insert_singleton_eq.
    rewrite (count_u32 E bs cap byte cs dev blk n) by done.
    cbn [negb]. wp_steps. destruct sg_cache0 as (c1 & Hc1 & He1 & Hu1). destruct sg_lru0 as [Hl1 Hl2].
    eapply link_single; [done..|]. cbn [set_heap]. set (b2 := set_next None _).
    assert (view a b2 (Some (dev, blk)) (table_of a (Some (dev, blk))) f
      (set_hash_table (table_of a (Some (dev, blk))) (set_heap {[a := b2]} (set_world w' s1)))) as Hv2.
    { assert (f dev blk = data b2) as Ef by (rewrite (proj2 Hv1 dev blk Hk); done).
      destruct (fill_single a b1 f s1 b2 dev blk w' (table_of a (Some (dev, blk))) Hv1 Hk eq_refl sg_size0) as [Hs2 Hf2]; try done.
      - simpl. apply on_disk_length. destruct Hk. lia.
      - split; [done|]. intros d' n' Hk'. rewrite <- (Hf2 d' n' Hk'), <- Ef. symmetry. apply update_id. }
    wp_steps. eapply mark_single; [exact Hv2|]. intros b3 s3 Hv3 Hdat _ _. cbn beta. wp_steps. rewrite wp_read_cached. exists b3.
    split; [apply (heap_single _ _ _ _ _ _ Hv3)|]. wp_steps. split; [|by exists b3, (Some (dev, blk))].
    do 2 f_equal. rewrite Hdat. rewrite (proj2 Hv1 dev blk Hk). done.
Qed.

(** The end of a write, whatever the block held before. *)
Lemma store_represents a b dev blk f s buffer sync :
  (exists c, global_cache s = Some c /\ enabled c = 1 /\ used_blocks c = [Some a]) -> heap s = {[a := b]} ->
  lru_head s = Some a /\ lru_tail s = Some a -> next b = None -> VfsCache.size b = cs -> dev_id b = dev -> block_id b = blk -> key_ok dev blk ->
  hash_table s = table_of a (Some (dev, blk)) ->
  (forall d k, key_ok d k -> (d, k) <> (dev, blk) -> f d k = on_disk (world s) d k) -> (Z.to_nat cs <= length buffer)%nat ->
  wp (store_block E a buffer sync) (fun r s' => r = 0 /\ represents a (update f dev blk (take (Z.to_nat cs) buffer)) s') s.
Proof.
  intros Hc Hh Hl En Es Edev Eblk Hk Ht Hf Hlen. unfold store_block. wp_steps. rewrite wp_upd_block. exists b.
  split; [rewrite Hh; apply lookup_singleton_eq|]. unfold cache_mark_accessed. wp_steps. rewrite wp_upd_block. eexists.
  split; [apply lookup_insert_eq|]. rewrite bool_decide_eq_true_2 by apply Hl. wp_steps. rewrite wp_read_cached. eexists.
  split; [apply lookup_insert_eq|]. cbn [VfsCache.size set_last_access set_access_count]. rewrite Es.
  destruct (Nat.ltb_spec (length buffer) (Z.to_nat cs)); [lia|]. wp_steps.
  do 2 (rewrite wp_upd_block; eexists; split; [apply lookup_insert_eq|]; wp_steps).
  cbn [heap set_heap]. rewrite !insert_insert_eq, Hh, insert_singleton_eq. set (b' := set_dirty 1 _). set (s' := set_heap _ _).
  assert (view a b' (Some (dev, blk)) (table_of a (Some (dev, blk))) (update f dev blk (take (Z.to_nat cs) buffer)) s') as Hv.
  { split; [split; try done; simpl; rewrite length_take; lia|]. intros d k Hkk. unfold update, contents.
    destruct (decide ((d, k) = (dev, blk))) as [e|e]; [injection e as -> ->; by rewrite decide_True|].
    rewrite decide_False by congruence. by apply Hf. }
  case_if; [|wp_steps; split; [done|by exists b', (Some (dev, blk))]].
  eapply wp_mono; [by eapply writeback_single|]. cbn beta. intros r s2 [-> Hv2]. split; [done|by eexists _, _].
Qed.

Lemma write_represents a f dev blk buffer sync s : represents a f s -> key_ok dev blk -> (Z.to_nat cs <= length buffer)%nat ->
  wp (vfs_cache_write_block E dev blk buffer sync)
    (fun r s' => r = 0 /\ represents a (update f dev blk (take (Z.to_nat cs) buffer)) s') s.
Proof.
  intros (b & k & Hv) Hk Hlen. destruct (sg_cache _ _ _ _ _ (proj1 Hv)) as (c & Hc & Hen & Hu).
  unfold vfs_cache_write_block. wp_steps. rewrite Hc, Hen. cbn [truth Z.eqb negb]. wp_steps.
  eapply lookup_single; [exact Hv|done|]. case_decide as e; wp_steps.
  - subst k. pose proof Hv as [[] Hf]. destruct sg_key0 as (E1 & E2 & _). eapply store_represents; try done.
    intros d n Hkn Hne. rewrite (Hf d n Hkn). unfold contents. by rewrite decide_False by congruence.
  - eapply claim_single; [exact Hv|]. intros b1 s1 Hv1. wp_steps. pose proof (heap_single _ _ _ _ _ _ Hv1) as Hb1.
    pose proof Hv1 as [[] Hf]. do 3 (rewrite wp_upd_block; eexists; split; [first [exact Hb1|apply lookup_insert_eq]|]; wp_steps).
    cbn [heap set_heap]. rewrite !insert_insert_eq, sg_heap0, insert_singleton_eq. destruct sg_cache0 as (c1 & Hc1 & He1 & Hu1).
    eapply link_single; [exact Hc1|done|done|done|apply sg_lru0|apply sg_lru0|done|].
    eapply store_represents; try done; [by exists c1|].
    intros d n Hkn Hne. simpl. rewrite (Hf d n Hkn). unfold contents. by rewrite decide_False.
Qed.

Lemma flush_represents a f dev blk s : represents a f s -> key_ok dev blk ->
  wp (vfs_cache_flush_block E dev blk) (fun r s' => r = 0 /\ represents a f s') s.
Proof.
  intros (b & k & Hv) Hk. destruct (sg_cache _ _ _ _ _ (proj1 Hv)) as (c & Hc & _).
  unfold vfs_cache_flush_block. wp_steps. rewrite Hc. wp_steps. eapply lookup_single; [exact Hv|done|].
  case_decide as e; wp_steps; [|split; [done|by exists b, k]]. subst k. rewrite wp_read_cached. exists b. split; [by eapply heap_single|].
  case_if; bools; [|wp_steps; split; [done|by exists b, (Some (dev, blk))]].
  eapply wp_mono; [by eapply writeback_single|]. cbn beta. intros r s2 [-> Hv2]. split; [done|by eexists _, _].
Qed.

Lemma invalidate_represents a f dev blk s : represents a f s -> key_ok dev blk ->
  wp (vfs_cache_invalidate_block E dev blk) (fun r s' => r = 0 /\ represents a f s') s.
Proof.
  intros (b & k & Hv) Hk. destruct (sg_cache _ _ _ _ _ (proj1 Hv)) as (c & Hc & _).
  unfold vfs_cache_invalidate_block. wp_steps. rewrite Hc. cbv zeta.
  pose proof (fun Q => find_key_single dev blk a b k f s Q Hv Hk) as Hfind. setoid_rewrite wp_bind in Hfind. rewrite wp_bind.
  eapply wp_mono; [apply (Hfind (fun r s' => wp (match r with None => ret 0 | Some (prev, a) => b <- read_block a ;;
    set_link (cache_hash dev blk) prev (next b) ;;; reset_block E a ;;; ret 0 end) (fun r s' => r = 0 /\ represents a f s') s'))|].
  - case_decide as e; wp_steps; [|split; [done|by exists b, k]]. subst k. rewrite wp_read_cached. exists b. split; [by eapply heap_single|]. wp_steps.
    eapply drop_single; [done|done|]. intros s1 Hv1. wp_steps. eapply reset_single; [done|]. intros b2 s2 Hv2. wp_steps.
    split; [done|by exists b2, None].
  - cbn beta. intros p s1 H. wp_steps. exact H.
Qed.

Lemma flush_all_single a b k f s : view a b k (table_of a k) f s ->
  wp (vfs_cache_flush_all E) (fun r s' => r = 0 /\ exists b', view a b' k (table_of a k) f s' /\ dirty b' = 0) s.
Proof.
  intros Hv. destruct (sg_cache _ _ _ _ _ (proj1 Hv)) as (c & Hc & _ & Hu).
  unfold vfs_cache_flush_all. wp_steps. rewrite Hc, Hu. cbn [flush_blocks]. wp_steps. rewrite wp_read_cached. exists b. split; [by eapply heap_single|].
  case_if; bools; wp_steps; [|split; [done|by exists b]].
  destruct k as [[dev blk]|]; [|pose proof (sg_key _ _ _ _ _ (proj1 Hv)) as (_ & _ & ?); lia].
  eapply wp_mono; [by eapply writeback_single|]. cbn beta. intros r s2 [-> Hv2]. wp_steps. split; [done|by exists (set_dirty 0 b)].
Qed.

Lemma invalidate_device_represents a f dev s : represents a f s ->
  wp (vfs_cache_invalidate_device E dev) (fun r s' => r = 0 /\ represents a f s') s.
Proof.
  intros Hr. assert (is_Some (global_cache s)) as [c Hc] by (destruct Hr as (b & k & Hv); destruct (sg_cache _ _ _ _ _ (proj1 Hv)) as (c & ? & _); by exists c).
  unfold vfs_cache_invalidate_device. wp_steps. rewrite Hc. wp_steps.
  eapply wp_mono; [apply (wp_mfor (represents a f)); [|done]|cbn beta; intros [] s' Hs'; by wp_steps].
  clear s c Hr Hc. intros h s Hh%elem_of_seqZ (b & k & Hv). wp_steps. rewrite wp_bucket.
  pose proof (sg_table _ _ _ _ _ (proj1 Hv)) as Ht. rewrite Ht, table_get by (unfold CACHE_HASH_SIZE in *; lia). eexists. split; [done|]. wp_steps.
  rewrite (sg_heap _ _ _ _ _ (proj1 Hv)), map_size_singleton.
  destruct k as [[d n]|]; [|by cbn [invalidate_chain]; wp_steps; exists b, None].
  destruct (decide (cache_hash d n = h)) as [<-|]; [|by cbn [invalidate_chain]; wp_steps; exists b, (Some (d, n))].
  cbn [Nat.add Nat.mul invalidate_chain]. wp_steps. rewrite wp_read_cached. exists b. split; [by eapply heap_single|].
  pose proof (sg_next _ _ _ _ _ (proj1 Hv)) as En.
  case_if; wp_steps; [|rewrite En; wp_steps; by exists b, (Some (d, n))].
  eapply drop_single; [done|done|]. intros s1 Hv1. wp_steps. eapply reset_single; [done|]. intros b2 s2 Hv2.
  rewrite En. wp_steps. by exists b2, None.
Qed.

Lemma shutdown_represents a f s : represents a f s ->
  wp (vfs_cache_shutdown E) (fun r s' => r = 0 /\ heap s' = ∅ /\ global_cache s' = None /\
    forall dev blk, key_ok dev blk -> on_disk (world s') dev blk = f dev blk) s.
Proof.
  intros (b & k & Hv). destruct (sg_cache _ _ _ _ _ (proj1 Hv)) as (c & Hc & _). unfold vfs_cache_shutdown. wp_steps. rewrite Hc. wp_steps.
  eapply wp_mono; [by eapply flush_all_single|]. cbn beta. intros r s1 (_ & b1 & Hv1 & Hd1). wp_steps. rewrite wp_the_cache.
  destruct (sg_cache _ _ _ _ _ (proj1 Hv1)) as (c1 & Hc1 & _ & Hu1). exists c1. split; [done|]. rewrite Hu1. cbn [free_blocks]. unfold free_block.
  wp_steps. rewrite wp_deref. exists b1. split; [by eapply heap_single|]. wp_steps. pose proof Hv1 as [[] Hf]. simpl.
  split; [done|]. split; [by rewrite sg_heap0, delete_singleton_eq|]. split; [done|]. intros dev blk Hk. rewrite (Hf dev blk Hk). unfold contents.
  case_decide as e; [|done]. symmetry. by apply sg_clean0.
Qed.

(** ** Sequences of calls *)

Inductive call : Type :=
| Read (dev blk : Z)
| Write (dev blk : Z) (buffer : list Z) (sync : Z)
| Flush (dev blk : Z)
| Invalidate (dev blk : Z)
| FlushAll
| InvalidateDevice (dev : Z).

Definition run (x : call) : M (vcache D) (Z * option (list Z)) :=
  match x with
  | Read dev blk => vfs_cache_read_block E dev blk
  | Write dev blk l sync => r <- vfs_cache_write_block E dev blk l sync ;; ret (r, None)
  | Flush dev blk => r <- vfs_cache_flush_block E dev blk ;; ret (r, None)
  | Invalidate dev blk => r <- vfs_cache_invalidate_block E dev blk ;; ret (r, None)
  | FlushAll => r <- vfs_cache_flush_all E ;; ret (r, None)
  | InvalidateDevice dev => r <- vfs_cache_invalidate_device E dev ;; ret (r, None)
  end.

Fixpoint run_all (l : list call) : M (vcache D) (list (Z * option (list Z))) :=
  match l with
  | [] => ret []
  | x :: l' => r <- run x ;; rs <- run_all l' ;; ret (r :: rs)
  end.

Definition call_ok (x : call) : Prop :=
  match x with
  | Read dev blk | Flush dev blk | Invalidate dev blk => key_ok dev blk
  | Write dev blk l _ => key_ok dev blk /\ (Z.to_nat cs <= length l)%nat
  | FlushAll | InvalidateDevice _ => True
  end.

(** The abstract store: what a block holds is what was last written to it. *)
Definition store := Z -> Z -> list Z.

Definition answer (f : store) (x : call) : Z * option (list Z) :=
  match x with Read dev blk => (0, Some (f dev blk)) | _ => (0, None) end.

Definition effect (f : store) (x : call) : store :=
  match x with Write dev blk l _ => update f dev blk (take (Z.to_nat cs) l) | _ => f end.

Fixpoint answers (f : store) (l : list call) : list (Z * option (list Z)) :=
  match l with [] => [] | x :: l' => answer f x :: answers (effect f x) l' end.

Lemma run_represents a f x s : represents a f s -> call_ok x ->
  wp (run x) (fun r s' => r = answer f x /\ represents a (effect f x) s') s.
Proof.
  intros Hr Hx. destruct x; simpl in Hx |- *; wp_steps.
  - by apply read_represents.
  - eapply wp_mono; [apply write_represents; [exact Hr|apply Hx..]|]. cbn beta. intros r s' [-> ?]. by wp_steps.
  - eapply wp_mono; [by apply flush_represents|]. cbn beta. intros r s' [-> ?]. by wp_steps.
  - eapply wp_mono; [by apply invalidate_represents|]. cbn beta. intros r s' [-> ?]. by wp_steps.
  - destruct Hr as (b & k & Hv). eapply wp_mono; [by eapply flush_all_single|]. cbn beta. intros r s' (-> & b' & Hv' & _). wp_steps.
    split; [done|by exists b', k].
  - eapply wp_mono; [by apply invalidate_device_represents|]. cbn beta. intros r s' [-> ?]. by wp_steps.
Qed.

Lemma run_all_represents a l : forall f s, represents a f s -> Forall call_ok l ->
  wp (run_all l) (fun rs s' => rs = answers f l /\ represents a (foldl effect f l) s') s.
Proof.
  induction l as [|x l IH]; intros f s Hr Hl; cbn [run_all]; wp_steps; [done|]. inversion Hl as [|? ? Hx Hl']; subst.
  eapply wp_mono; [by apply run_represents|]. cbn beta. intros r s1 [-> H1]. wp_steps.
  eapply wp_mono; [by apply IH|]. cbn beta. intros rs s2 [-> H2]. by wp_steps.
Qed.

Lemma init_represents ad bytes size fl s : Inj (=) (=) ad -> blank s -> round_size size = cs -> length (bytes 0%nat) = Z.to_nat cs ->
  wp (vfs_cache_init size 1 fl true (good_answers ad bytes)) (fun r s' => r = 0 /\ represents (ad 0%nat) (on_disk (world s)) s') s.
Proof.
  intros Hinj Hb Hcs Hl. eapply wp_mono; [apply (init_cache_spec ad bytes 1 size fl s); [done|done|lia]|]. cbn beta. rewrite Hcs.
  intros r s1 (-> & Ht & Ew & _ & c & [Hc Hbl Hlen Hh Ho Hhd Htl] & Hn & Hen). change (Z.to_nat 1) with 1%nat in *. split; [done|].
  exists (new_block (bytes 0%nat) cs), None. split; [|intros; unfold contents; by rewrite Ew].
  split; try done.
  - exists c. split; [done|]. split; [done|]. unfold used_blocks. rewrite Hn. specialize (Hbl 0%nat ltac:(lia)).
    destruct (blocks c); [done|]. simpl in Hbl. by injection Hbl as ->.
  - apply map_eq. intros a. destruct (decide (a = ad 0%nat)) as [->|Hne].
    + rewrite lookup_singleton_eq. apply (Hh 0%nat). lia.
    + rewrite lookup_singleton_ne by done. destruct (heap s1 !! a) as [x|] eqn:Ha; [|done].
      destruct (Ho a) as (j & Hj & ->); [by exists x|]. by assert (j = 0%nat) as -> by lia.
Qed.

End OneBlock.

(** C11. Coherence of the block cache: on devices that store what is written to them, a cache
    of one block is invisible. After [vfs_cache_init] (with memory for it), any sequence of
    reads, writes (synced or not), flushes and invalidations of blocks or devices returns, a
    read answers the bytes last written to its block or else those on the device, and every
    call reports success; after [vfs_cache_shutdown] the devices hold what was written and the
    memory is freed. This is for blocks that lie inside their device, on devices whose sector
    size divides the size of a cache block (with larger sectors the code overruns its
    buffer) and which hold less than 2^31 bytes, other than block 0 of device 0, which the cache takes for an unused block; and
    for writes from a buffer of at least one block. *)
Theorem one_block_cache_coherent {D} (E : env D) bs cap byte cs ad bytes size fl s0 l :
  Disk E bs cap byte -> Inj (=) (=) ad -> blank s0 -> round_size size = cs -> length (bytes 0%nat) = Z.to_nat cs ->
  Forall (call_ok bs cap cs) l ->
  exists s1 s2 s3, vfs_cache_init size 1 fl true (good_answers ad bytes) s0 = Ret (0, s1) /\
    run_all E l s1 = Ret (answers cs (on_disk byte cs (world s0)) l, s2) /\
    vfs_cache_shutdown E s2 = Ret (0, s3) /\ heap s3 = ∅ /\ global_cache s3 = None /\
    forall dev blk, key_ok bs cap cs dev blk ->
      on_disk byte cs (world s3) dev blk = foldl (effect cs) (on_disk byte cs (world s0)) l dev blk.
Proof.
  intros HD Hinj Hb Hcs Hby Hl.
  destruct (wp_returns _ _ _ (init_represents bs cap byte cs ad bytes size fl s0 Hinj Hb Hcs Hby)) as (r & s1 & E1 & -> & H1).
  destruct (wp_returns _ _ _ (run_all_represents E bs cap byte cs _ l _ s1 H1 Hl)) as (rs & s2 & E2 & -> & H2).
  destruct (wp_returns _ _ _ (shutdown_represents E bs cap byte cs _ _ s2 H2)) as (r & s3 & E3 & -> & Hh & Hg & Hd).
  by exists s1, s2, s3.
Qed.

(** C36. The block cache hangs: in a cache of two or more blocks, the first read of a block
    succeeds, but the list by use and the hash chains share the links, and moving the block
    to the front closes the list into a ring. Reading or writing any other block of the
    same bucket then walks round that ring for ever. *)
Theorem cache_search_hangs {D} (E : env D) bs cap byte cs ad bytes n size fl s0 dev blk dev' blk' :
  Disk E bs cap byte -> Inj (=) (=) ad -> blank s0 -> 2 <= n <= 256 -> round_size size = cs ->
  (forall i, length (bytes i) = Z.to_nat cs) -> key_ok bs cap cs dev blk -> key_ok bs cap cs dev' blk' ->
  (dev', blk') <> (dev, blk) -> cache_hash dev' blk' = cache_hash dev blk ->
  exists s1 s2, vfs_cache_init size n fl true (good_answers ad bytes) s0 = Ret (0, s1) /\
    vfs_cache_read_block E dev blk s1 = Ret ((0, Some (on_disk byte cs (world s0) dev blk)), s2) /\
    vfs_cache_read_block E dev' blk' s2 = Spin /\
    forall l sync, vfs_cache_write_block E dev' blk' l sync s2 = Spin.
Proof.
  intros HD Hinj Hbl Hn Ecs Hby Hk Hk' Hne Eh.
  destruct (wp_returns _ _ _ (init_cache_spec ad bytes n size fl s0 Hinj Hbl ltac:(lia)))
    as (r & s1 & E1 & -> & Ht & Ew & _ & c & Hst & Hnum & Hen). rewrite Ecs in Hst.
  destruct (wp_returns _ _ _ (first_read_knots E bs cap byte cs ad bytes (Z.to_nat n) s1 c dev blk Hinj Hby ltac:(lia) Hst Ht ltac:(lia) Hen Hk))
    as (r & s2 & E2 & -> & (c' & Ec & Een) & Hkn).
  exists s1, s2. split; [done|]. split; [by rewrite <- Ew|]. by apply (calls_spin E dev' blk' s2 c'); [apply Hkn|..].
Qed.

(** ** A disk in memory *)

Definition ram := Z -> Z -> Z.

Definition ram_env : env ram := mk_env (D := ram)
  (fun _ dev => if dev =? 1 then Some (mk_device 512 true true true) else None)
  (fun dev pos n w => (n, map (fun i => w dev (pos * 512 + i)) (seqZ 0 (n * 512)), w))
  (fun dev pos n l w => (n, fun d o => if decide (d = dev /\ pos * 512 <= o < (pos + n) * 512) then nth (Z.to_nat (o - pos * 512)) l 0 else w d o))
  (fun _ w => w) (fun _ => 0) (-17) 0.

Definition ram_cap (dev : Z) : Z := if dev =? 1 then 2 ^ 20 else 0.

#[export] Instance ram_disk : Disk ram_env (fun _ => 512) ram_cap (fun w => w).
Proof.
  split.
  - unfold ram_cap. intros w dev Hd. simpl. destruct (dev =? 1); [|lia]. by eexists.
  - unfold ram_cap. intros dev Hd. destruct (dev =? 1); lia.
  - intros dev pos n w _ _ _. by exists w.
  - intros dev pos n l w _ _ _ _. by eexists.
  - done.
Qed.

Definition off : vcache ram := mk_vcache None empty_table None None 0 0 0 0 0 ∅ (fun dev o => o mod 7).

Lemma off_blank : blank off.
Proof. done. Qed.

#[export] Instance addresses_inj : Inj (=) (=) Pos.of_succ_nat.
Proof. intros i j. apply SuccNat2Pos.inj. Qed.

Lemma ram_key blk : 0 < blk < 1000 -> key_ok (fun _ => 512) ram_cap 512 1 blk.
Proof. intros H. unfold key_ok, ram_cap. simpl. repeat split; try lia; [by exists 1|congruence]. Qed.

Definition zeros (i : nat) : list Z := replicate 512 0.

Lemma cache_search_hangs_witness :
  cache_hash 1 3 = cache_hash 1 259 /\
  exists s1 s2 l, vfs_cache_init 512 2 0 true (good_answers Pos.of_succ_nat zeros) off = Ret (0, s1) /\
    vfs_cache_read_block ram_env 1 3 s1 = Ret ((0, Some l), s2) /\ vfs_cache_read_block ram_env 1 259 s2 = Spin.
Proof.
  split; [reflexivity|].
  destruct (cache_search_hangs ram_env (fun _ => 512) ram_cap (fun w => w) 512 Pos.of_succ_nat zeros 2 512 0 off 1 3 1 259
    ram_disk addresses_inj off_blank) as (s1 & s2 & E1 & E2 & E3 & _);
    [lia|reflexivity|reflexivity|apply ram_key; lia|apply ram_key; lia|congruence|reflexivity|].
  exists s1, s2, (on_disk (fun w => w) 512 (world off) 1 3). split; [exact E1|]. split; [exact E2|exact E3].
Defined.

Lemma one_block_cache_coherent_witness :
  exists s1 s2, vfs_cache_init 512 1 0 true (good_answers Pos.of_succ_nat zeros) off = Ret (0, s1) /\
    run_all ram_env [Write 1 3 (replicate 512 9) 0; Read 1 259; Read 1 3] s1 =
      Ret ([(0, None); (0, Some (on_disk (fun w => w) 512 (world off) 1 259)); (0, Some (replicate 512 9))], s2).
Proof.
  destruct (one_block_cache_coherent ram_env (fun _ => 512) ram_cap (fun w => w) 512 Pos.of_succ_nat zeros 512 0 off
    [Write 1 3 (replicate 512 9) 0; Read 1 259; Read 1 3] ram_disk addresses_inj off_blank) as (s1 & s2 & s3 & E1 & E2 & _);
    [reflexivity|reflexivity| |exists s1, s2; split; [exact E1|exact E2]].
  constructor; [split; [apply ram_key; lia|vm_compute; lia]|]. constructor; [apply ram_key; lia|]. constructor; [apply ram_key; lia|constructor].
Defined.

End VfsCacheThms.
