(* ===== verification/Ext2.v ===== *)
(** * The ext2 file system ([filesystem/ext2/ext2.c])

    The volume, inodes, the blocks of files, directories, paths, and the calls on files.
    A path is the list of its characters. A buffer is the list of its bytes; accesses
    outside it are a [Fault]. A buffer on the stack starts with arbitrary bytes, those of
    [stack_byte]. Structures on disk are decoded from their bytes, little endian.

    The repository has neither the block devices nor the functions that allocate inodes
    and blocks, change directories and update the superblock; they are in the environment
    [env], together with the constants that [ext2.h] does not define. A transfer works on
    the devices [D], part of the state.

    A search of a block of a directory has fuel for as many records as the block has bytes;
    a loop over the blocks of a directory for one more than its size needs; a path for as
    many components as it has characters. Proofs show that this is enough. *)

From Stdlib Require Import ZArith Lia.
From stdpp Require Import base tactics option numbers list.
From S2P Require Import Prelude VfsCache.

Set Default Goal Selector "!".
Local Open Scope Z_scope.
Local Open Scope kernel_scope.

Module Ext2.

Abbreviation device := VfsCache.device.
Abbreviation d_block_size := VfsCache.d_block_size.
Abbreviation can_read := VfsCache.can_read.
Abbreviation can_write := VfsCache.can_write.
Abbreviation can_sync := VfsCache.can_sync.

Definition EXT2_SUCCESS : Z := 0.
Definition EXT2_ERR_NOT_FOUND : Z := -1.
Definition EXT2_ERR_NO_SPACE : Z := -2.
Definition EXT2_ERR_BAD_FORMAT : Z := -3.
Definition EXT2_ERR_IO_ERROR : Z := -4.
Definition EXT2_ERR_INVALID_ARG : Z := -5.
Definition EXT2_ERR_PERMISSION : Z := -6.
Definition EXT2_S_IFMT : Z := 0xF000.
Definition EXT2_S_IFLNK : Z := 0xA000.
Definition EXT2_S_IFREG : Z := 0x8000.
Definition EXT2_S_IFDIR : Z := 0x4000.
Definition EXT2_SUPER_MAGIC : Z := 0xEF53.
Definition ROOT_INODE : Z := 2.
Definition VFS_MAX_PATH : Z := 256.

(** [sizeof(ext2_inode_t)], [sizeof(ext2_group_desc_t)] and the size of a block buffer. *)
Definition INODE_SIZE : Z := 128.
Definition GROUP_SIZE : Z := 32.
Definition BUFFER : Z := 4096.

(** [ext2_superblock_t]: what is read of it. *)
Record superblock_t : Type := mk_superblock {
  inodes_count : Z;
  blocks_count : Z;
  log_block_size : Z;
  blocks_per_group : Z;
  inodes_per_group : Z;
  magic : Z;
}.


(** [ext2_group_desc_t] *)
Record group_desc : Type := mk_group {
  block_bitmap : Z;
  inode_bitmap : Z;
  inode_table : Z;
  free_blocks_count : Z;
  free_inodes_count : Z;
  used_dirs_count : Z;
}.


(** [ext2_inode_t]; [rest] are the 28 bytes behind the block numbers. *)
Record inode : Type := mk_inode {
  mode : Z;
  uid : Z;
  size : Z;
  atime : Z;
  ctime : Z;
  mtime : Z;
  dtime : Z;
  gid : Z;
  links_count : Z;
  blocks : Z;
  flags : Z;
  osd1 : Z;
  block : list Z;
  rest : list Z;
}.

Definition set_mode (x : Z) (i : inode) : inode :=
  mk_inode x (uid i) (size i) (atime i) (ctime i) (mtime i) (dtime i) (gid i) (links_count i)
    (blocks i) (flags i) (osd1 i) (block i) (rest i).
Definition set_uid (x : Z) (i : inode) : inode :=
  mk_inode (mode i) x (size i) (atime i) (ctime i) (mtime i) (dtime i) (gid i) (links_count i)
    (blocks i) (flags i) (osd1 i) (block i) (rest i).
Definition set_size (x : Z) (i : inode) : inode :=
  mk_inode (mode i) (uid i) x (atime i) (ctime i) (mtime i) (dtime i) (gid i) (links_count i)
    (blocks i) (flags i) (osd1 i) (block i) (rest i).
Definition set_atime (x : Z) (i : inode) : inode :=
  mk_inode (mode i) (uid i) (size i) x (ctime i) (mtime i) (dtime i) (gid i) (links_count i)
    (blocks i) (flags i) (osd1 i) (block i) (rest i).
Definition set_ctime (x : Z) (i : inode) : inode :=
  mk_inode (mode i) (uid i) (size i) (atime i) x (mtime i) (dtime i) (gid i) (links_count i)
    (blocks i) (flags i) (osd1 i) (block i) (rest i).
Definition set_mtime (x : Z) (i : inode) : inode :=
  mk_inode (mode i) (uid i) (size i) (atime i) (ctime i) x (dtime i) (gid i) (links_count i)
    (blocks i) (flags i) (osd1 i) (block i) (rest i).
Definition set_gid (x : Z) (i : inode) : inode :=
  mk_inode (mode i) (uid i) (size i) (atime i) (ctime i) (mtime i) (dtime i) x (links_count i)
    (blocks i) (flags i) (osd1 i) (block i) (rest i).
Definition set_links_count (x : Z) (i : inode) : inode :=
  mk_inode (mode i) (uid i) (size i) (atime i) (ctime i) (mtime i) (dtime i) (gid i) x (blocks i)
    (flags i) (osd1 i) (block i) (rest i).
Definition set_block (x : list Z) (i : inode) : inode :=
  mk_inode (mode i) (uid i) (size i) (atime i) (ctime i) (mtime i) (dtime i) (gid i)
    (links_count i) (blocks i) (flags i) (osd1 i) x (rest i).

(** [ext2_file_entry_t] *)
Record file_entry : Type := mk_file {
  f_name : list Z;
  f_mode : Z;
  f_size : Z;
  f_inode : Z;
  f_atime : Z;
  f_ctime : Z;
  f_mtime : Z;
  f_links_count : Z;
  f_uid : Z;
  f_gid : Z;
}.

Definition zero_group : group_desc := mk_group 0 0 0 0 0 0.
Definition zero_inode : inode := mk_inode 0 0 0 0 0 0 0 0 0 0 0 0 (replicate 15 0) (replicate 28 0).

(** ** Structures as bytes *)

Definition field (b : list Z) (off n : nat) : Z := le_value (take n (drop off b)).

Definition words (b : list Z) : list Z := map (fun k => field b (4 * k) 4) (seq 0 (length b / 4)).
Definition bytes_of (l : list Z) : list Z := concat (map (le_bytes 4) l).

Definition decode_superblock (b : list Z) : superblock_t :=
  mk_superblock (field b 0 4) (field b 4 4) (field b 24 4) (field b 32 4) (field b 40 4) (field b 56 2).

Definition decode_group (b : list Z) : group_desc :=
  mk_group (field b 0 4) (field b 4 4) (field b 8 4) (field b 12 2) (field b 14 2) (field b 16 2).
Definition decode_groups (b : list Z) : list group_desc :=
  map (fun k => decode_group (drop (32 * k) b)) (seq 0 (length b / 32)).

Definition decode_inode (b : list Z) : inode :=
  mk_inode (field b 0 2) (field b 2 2) (field b 4 4) (field b 8 4) (field b 12 4) (field b 16 4) (field b 20 4)
    (field b 24 2) (field b 26 2) (field b 28 4) (field b 32 4) (field b 36 4) (words (take 60 (drop 40 b))) (take 28 (drop 100 b)).
Definition encode_inode (i : inode) : list Z :=
  le_bytes 2 (mode i) ++ le_bytes 2 (uid i) ++ le_bytes 4 (size i) ++ le_bytes 4 (atime i) ++ le_bytes 4 (ctime i) ++
  le_bytes 4 (mtime i) ++ le_bytes 4 (dtime i) ++ le_bytes 2 (gid i) ++ le_bytes 2 (links_count i) ++ le_bytes 4 (blocks i) ++
  le_bytes 4 (flags i) ++ le_bytes 4 (osd1 i) ++ bytes_of (block i) ++ rest i.

Section Volume.
Context {D : Type}.

(** The static variables and the devices. *)
Record ext2 : Type := mk_ext2 {
  superblock : superblock_t;
  block_size : Z;
  inodes_per_block : Z;
  block_group_count : Z;
  device_path : option (list Z);
  group_descs : option (list group_desc);
  world : D;
}.

Definition set_superblock (x : superblock_t) (s : ext2) : ext2 :=
  mk_ext2 x (block_size s) (inodes_per_block s) (block_group_count s) (device_path s)
    (group_descs s) (world s).
Definition set_block_size (x : Z) (s : ext2) : ext2 :=
  mk_ext2 (superblock s) x (inodes_per_block s) (block_group_count s) (device_path s)
    (group_descs s) (world s).
Definition set_inodes_per_block (x : Z) (s : ext2) : ext2 :=
  mk_ext2 (superblock s) (block_size s) x (block_group_count s) (device_path s) (group_descs s)
    (world s).
Definition set_block_group_count (x : Z) (s : ext2) : ext2 :=
  mk_ext2 (superblock s) (block_size s) (inodes_per_block s) x (device_path s) (group_descs s)
    (world s).
Definition set_device_path (x : option (list Z)) (s : ext2) : ext2 :=
  mk_ext2 (superblock s) (block_size s) (inodes_per_block s) (block_group_count s) x
    (group_descs s) (world s).
Definition set_group_descs (x : option (list group_desc)) (s : ext2) : ext2 :=
  mk_ext2 (superblock s) (block_size s) (inodes_per_block s) (block_group_count s) (device_path s)
    x (world s).
Definition set_world (x : D) (s : ext2) : ext2 :=
  mk_ext2 (superblock s) (block_size s) (inodes_per_block s) (block_group_count s) (device_path s)
    (group_descs s) x.

(** What no file of the repository defines: the device table, the devices, memory,
    the allocation of inodes and blocks, changes of directories, and the constants
    [ext2.h] lacks. [stack_byte] is what an uninitialised buffer holds. *)
Record env : Type := mk_env {
  get_device : D -> list Z -> option device;
  read_blocks : list Z -> Z -> Z -> D -> Z * list Z * D;
  write_blocks : list Z -> Z -> Z -> list Z -> D -> Z * D;
  sync_device : list Z -> D -> D;
  malloc : D -> Z -> option (list Z);
  stack_byte : nat -> Z;
  get_current_time : D -> Z;
  ext2_allocate_inode : M ext2 Z;
  ext2_free_inode : Z -> M ext2 unit;
  ext2_allocate_block : M ext2 Z;
  ext2_free_block : Z -> M ext2 unit;
  ext2_add_dir_entry : Z -> inode -> list Z -> Z -> Z -> M ext2 (Z * inode);
  ext2_remove_dir_entry : Z -> inode -> list Z -> M ext2 (Z * inode);
  ext2_free_file_blocks : inode -> M ext2 inode;
  ext2_get_or_allocate_block : inode -> Z -> M ext2 (Z * inode);
  ext2_update_fs_metadata : M ext2 unit;
  EXT2_ERR_EXISTS : Z;
  EXT2_ERR_NOT_DIR : Z;
  EXT2_ERR_NOT_EMPTY : Z;
  EXT2_WRITE_CREATE : Z;
  EXT2_WRITE_TRUNCATE : Z;
  EXT2_WRITE_APPEND : Z;
  EXT2_FT_REG_FILE : Z;
  EXT2_FT_DIR : Z;
  EXT2_FT_SYMLINK : Z;
}.

Section Ops.
Context (E : env).

(** An uninitialised buffer. *)
Definition fresh (n : Z) : list Z := map (stack_byte E) (seq 0 (Z.to_nat n)).

(** ** Blocks *)

(** The device of the path, when it has the operation. *)
Definition the_device (able : device -> bool) : M ext2 (option (list Z * device)) :=
  s <- get ;;
  match device_path s with
  | None => ret None
  | Some p =>
      match get_device E (world s) p with
      | None => ret None
      | Some d => ret (if able d then Some (p, d) else None)
      end
  end.

(** The place and the number of the device blocks of block [n]. *)
Definition extent (d : device) (n : Z) : M ext2 (Z * Z) :=
  s <- get ;;
  if d_block_size d =? 0 then fault
  else
    let lba := if d_block_size d =? block_size s then n else u32 (n * block_size s) / d_block_size d in
    ret (lba, u32 (u32 (block_size s + d_block_size d) - 1) / d_block_size d).

Definition device_read (p : list Z) (lba count : Z) (buf : list Z) : M ext2 (Z * list Z) :=
  s <- get ;;
  let '(r, bytes, w) := read_blocks E p lba count (world s) in
  put (set_world w s) ;;;
  buf <- copy_to buf 0 bytes ;;
  ret (r, buf).

(** The buffer afterwards; [None] when the read fails. *)
Definition read_block (n : Z) (buf : list Z) : M ext2 (option (list Z)) :=
  r <- the_device can_read ;;
  match r with
  | None => ret None
  | Some (p, d) =>
      x <- extent d n ;;
      let '(lba, count) := x in
      s <- get ;;
      if (d_block_size d <? block_size s) && (1 <? count) then
        match malloc E (world s) (u32 (count * d_block_size d)) with
        | None => ret None
        | Some tmp =>
            r <- device_read p lba count tmp ;;
            if negb (u32 (fst r) =? count) then ret None
            else
              s <- get ;;
              b <- bytes_at (snd r) 0 (block_size s) ;;
              buf <- copy_to buf 0 b ;;
              ret (Some buf)
        end
      else
        r <- device_read p lba count buf ;;
        if negb (u32 (fst r) =? count) then ret None else ret (Some (snd r))
  end.

Definition device_write (p : list Z) (d : device) (lba count : Z) (buf : list Z) : M ext2 Z :=
  if Z.of_nat (length buf) <? count * d_block_size d then fault
  else
    s <- get ;;
    let '(r, w) := write_blocks E p lba count buf (world s) in
    put (set_world w s) ;;;
    ret r.

Definition write_block (n : Z) (buf : list Z) : M ext2 Z :=
  r <- the_device can_write ;;
  match r with
  | None => ret EXT2_ERR_IO_ERROR
  | Some (p, d) =>
      x <- extent d n ;;
      let '(lba, count) := x in
      s <- get ;;
      r <- (if (d_block_size d <? block_size s) && (1 <? count) then
        match malloc E (world s) (u32 (count * d_block_size d)) with
        | None => ret EXT2_ERR_IO_ERROR
        | Some tmp =>
            r <- device_read p lba count tmp ;;
            if negb (u32 (fst r) =? count) then ret EXT2_ERR_IO_ERROR
            else
              s <- get ;;
              b <- bytes_at buf 0 (block_size s) ;;
              tmp <- copy_to (snd r) 0 b ;;
              r <- device_write p d lba count tmp ;;
              ret (if negb (u32 r =? count) then EXT2_ERR_IO_ERROR else 0)
        end
      else
        r <- device_write p d lba count buf ;;
        ret (if negb (u32 r =? count) then EXT2_ERR_IO_ERROR else 0)) ;;
      if negb (r =? 0) then ret r
      else
        (if can_sync d then modify (fun s => set_world (sync_device E p (world s)) s) else ret tt) ;;;
        ret 0
  end.

(** ** Inodes *)

(** The block of an inode and its place in it. *)
Definition inode_place (n : Z) : M ext2 (Z * Z) :=
  s <- get ;;
  let sb := superblock s in
  if (inodes_per_group sb =? 0) || (block_size s =? 0) then fault
  else
    let group := (n - 1) / inodes_per_group sb in
    let index := (n - 1) mod inodes_per_group sb in
    l <- deref (group_descs s) ;;
    g <- deref (arr_get l group) ;;
    ret (u32 (inode_table g + u32 (index * INODE_SIZE) / block_size s), u32 (index * INODE_SIZE) mod block_size s).

Definition read_inode (n : Z) : M ext2 (Z + inode) :=
  s <- get ;;
  if (n <? 1) || (inodes_count (superblock s) <? n) then ret (inl EXT2_ERR_INVALID_ARG)
  else
    x <- inode_place n ;;
    r <- read_block (fst x) (fresh BUFFER) ;;
    match r with
    | None => ret (inl EXT2_ERR_IO_ERROR)
    | Some buf => b <- bytes_at buf (snd x) INODE_SIZE ;; ret (inr (decode_inode b))
    end.

Definition write_inode (n : Z) (i : inode) : M ext2 Z :=
  s <- get ;;
  if (n <? 1) || (inodes_count (superblock s) <? n) then ret EXT2_ERR_INVALID_ARG
  else
    x <- inode_place n ;;
    r <- read_block (fst x) (fresh BUFFER) ;;
    match r with
    | None => ret EXT2_ERR_IO_ERROR
    | Some buf =>
        buf <- copy_to buf (snd x) (encode_inode i) ;;
        r <- write_block (fst x) buf ;;
        ret (if negb (r =? 0) then EXT2_ERR_IO_ERROR else 0)
    end.

(** ** The blocks of a file *)

(** An entry of a block of block numbers; the array has [block_size / 4] entries. *)
Definition entry_of (n k : Z) : M ext2 (option Z) :=
  s <- get ;;
  r <- read_block n (fresh (block_size s / 4 * 4)) ;;
  match r with
  | None => ret None
  | Some buf => v <- num_at buf (4 * k) 4 ;; ret (Some v)
  end.

(** The number of the block with that index, or an error. *)
Definition block_number (i : inode) (index : Z) : M ext2 (Z + Z) :=
  s <- get ;;
  let per := block_size s / 4 in
  if index <? 12 then n <- deref (arr_get (block i) index) ;; ret (inr n)
  else if index <? u32 (12 + per) then
    n <- deref (arr_get (block i) 12) ;;
    r <- entry_of n (index - 12) ;;
    ret (match r with None => inl EXT2_ERR_IO_ERROR | Some b => inr b end)
  else if index <? u32 (12 + per + u32 (per * per)) then
    let k := u32 (index - 12 - per) in
    if per =? 0 then fault
    else
      n <- deref (arr_get (block i) 13) ;;
      r <- entry_of n (k / per) ;;
      match r with
      | None => ret (inl EXT2_ERR_IO_ERROR)
      | Some n => r <- entry_of n (k mod per) ;; ret (match r with None => inl EXT2_ERR_IO_ERROR | Some b => inr b end)
      end
  else ret (inl EXT2_ERR_INVALID_ARG).

(** The result and the buffer. *)
Definition read_file_block (i : inode) (index : Z) (buf : list Z) : M ext2 (Z * list Z) :=
  r <- block_number i index ;;
  match r with
  | inl e => ret (e, buf)
  | inr n =>
      if n =? 0 then
        s <- get ;;
        buf <- copy_to buf 0 (replicate (Z.to_nat (block_size s)) 0) ;;
        ret (0, buf)
      else
        r <- read_block n buf ;;
        ret (match r with None => (EXT2_ERR_IO_ERROR, buf) | Some buf => (0, buf) end)
  end.

(** ** Paths *)

Definition SLASH : Z := 47.
Definition DOT : Z := 46.

(** Up to [n] characters before the next slash, and the rest. *)
Fixpoint component (n : nat) (path : list Z) : list Z * list Z :=
  match n, path with
  | O, _ | _, [] => ([], path)
  | S n', c :: r => if c =? SLASH then ([], path) else let '(l, r') := component n' r in (c :: l, r')
  end.

Definition skip_slash (path : list Z) : list Z :=
  match path with c :: r => if c =? SLASH then r else path | [] => path end.

(** The entry of that name in a block of a directory, from [off] on; 0 when there is none.
    A record is at least one byte long. *)
Fixpoint find_entry (fuel : nat) (buf : list Z) (off : Z) (name : list Z) : M ext2 Z :=
  s <- get ;;
  if block_size s <=? off then ret 0
  else
    match fuel with
    | O => spin
    | S fuel' =>
        rec_len <- num_at buf (off + 4) 2 ;;
        if rec_len =? 0 then ret 0
        else
          ino <- num_at buf off 4 ;;
          if ino =? 0 then ret 0
          else
            name_len <- num_at buf (off + 6) 1 ;;
            same <- (if name_len =? Z.of_nat (length name)
                     then nm <- bytes_at buf (off + 8) name_len ;; ret (bool_decide (nm = name)) else ret false) ;;
            if (same : bool) then ret ino else find_entry fuel' buf (off + rec_len) name
    end.

(** The blocks of a directory; [None] when one cannot be read. *)
Fixpoint find_in (fuel : nat) (i : inode) (bytes_read current : Z) (buf : list Z) (name : list Z) : M ext2 (option Z) :=
  if size i <=? bytes_read then ret (Some 0)
  else
    match fuel with
    | O => spin
    | S fuel' =>
        r <- read_file_block i current buf ;;
        if negb (fst r =? 0) then ret None
        else
          s <- get ;;
          ino <- find_entry (Z.to_nat (block_size s)) (snd r) 0 name ;;
          if ino =? 0 then find_in fuel' i (u32 (bytes_read + block_size s)) (u32 (current + 1)) (snd r) name else ret (Some ino)
    end.

(** Rounds of a loop over the blocks of an inode; more are never needed, since block numbers
    end before the counter of bytes can wrap. *)
Definition rounds (i : inode) : nat := Z.to_nat (size i / 1024 + 1).

Fixpoint walk (fuel : nat) (current : Z) (path : list Z) : M ext2 Z :=
  match fuel, path with
  | _, [] => ret current
  | O, _ => spin
  | S fuel', _ =>
      let '(name, rest) := component 255 path in
      r <- read_inode current ;;
      match r with
      | inl _ => ret 0
      | inr i =>
          if negb (Z.land (mode i) EXT2_S_IFMT =? EXT2_S_IFDIR) then ret 0
          else
            r <- find_in (rounds i) i 0 0 (fresh BUFFER) name ;;
            match r with
            | None => ret 0
            | Some n => if n =? 0 then ret 0 else walk fuel' n (skip_slash rest)
            end
      end
  end.

Definition path_to_inode (path : option (list Z)) : M ext2 Z :=
  match path with
  | None => ret 0
  | Some p => if bool_decide (p = [SLASH]) then ret ROOT_INODE else walk (length p) ROOT_INODE (skip_slash p)
  end.

(** The place of the last slash. *)
Definition last_slash (path : list Z) : option nat :=
  fst <$> last (filter (fun x => snd x = SLASH) (imap pair path)).

(** [strcpy] into a buffer of [VFS_MAX_PATH] characters. *)
Definition strcpy (l : list Z) : M ext2 (list Z) := if VFS_MAX_PATH <=? Z.of_nat (length l) then fault else ret l.

(** The directory and the name of a path. *)
Definition parse_path (path : list Z) : M ext2 (list Z * list Z) :=
  match last_slash path with
  | None => f <- strcpy path ;; ret ([DOT], f)
  | Some O => f <- strcpy (drop 1 path) ;; ret ([SLASH], f)
  | Some n => d <- strcpy (take n path) ;; f <- strcpy (drop (S n) path) ;; ret (d, f)
  end.

(** ** The volume *)

Definition ext2_init (dev : list Z) : M ext2 Z :=
  modify (set_device_path (Some dev)) ;;;
  r <- read_block 1 (fresh 1024) ;;
  match r with
  | None => ret EXT2_ERR_IO_ERROR
  | Some buf =>
      modify (set_superblock (decode_superblock buf)) ;;;
      s <- get ;;
      let sb := superblock s in
      if negb (magic sb =? EXT2_SUPER_MAGIC) then ret EXT2_ERR_BAD_FORMAT
      else if 21 <=? log_block_size sb then fault
      else
        let bs := u32 (Z.shiftl 1024 (log_block_size sb)) in
        modify (set_block_size bs) ;;;
        modify (set_inodes_per_block (bs / INODE_SIZE)) ;;;
        if blocks_per_group sb =? 0 then fault
        else
          let count := u32 (u32 (blocks_count sb - 1) / blocks_per_group sb + 1) in
          modify (set_block_group_count count) ;;;
          modify (fun s => set_group_descs (Some (default (replicate 128 zero_group) (group_descs s))) s) ;;;
          let gdt_block := if bs =? 1024 then 2 else 1 in
          let gdt_size := u32 (GROUP_SIZE * count) in
          r <- read_block gdt_block (fresh 1024) ;;
          match r with
          | None => ret EXT2_ERR_IO_ERROR
          | Some buf =>
              b <- bytes_at buf 0 (if gdt_size <? bs then gdt_size else bs) ;;
              s <- get ;;
              l <- deref (group_descs s) ;;
              let gs := decode_groups b in
              modify (set_group_descs (Some (gs ++ drop (length gs) l))) ;;;
              ret EXT2_SUCCESS
          end
  end.

(** ** Files *)

(** The inode of a path. *)
Definition open_path (path : option (list Z)) : M ext2 (Z + Z * inode) :=
  n <- path_to_inode path ;;
  if n =? 0 then ret (inl EXT2_ERR_NOT_FOUND)
  else
    r <- read_inode n ;;
    ret (match r with inl _ => inl EXT2_ERR_IO_ERROR | inr i => inr (n, i) end).

Definition is_type (i : inode) (t : Z) : bool := Z.land (mode i) EXT2_S_IFMT =? t.

(** The blocks from [k] on; the bytes copied so far are [out]. *)
Fixpoint read_loop (n : nat) (k : Z) (i : inode) (total : Z) (out : list Z) : M ext2 (Z * list Z) :=
  match n with
  | O => ret (to_int (Z.of_nat (length out)), out)
  | S n' =>
      r <- read_file_block i k (fresh BUFFER) ;;
      if fst r <? 0 then ret (fst r, out)
      else
        s <- get ;;
        let bytes_read := Z.of_nat (length out) in
        let chunk := if total <? u32 (bytes_read + block_size s) then u32 (total - bytes_read) else block_size s in
        b <- bytes_at (snd r) 0 chunk ;;
        read_loop n' (k + 1) i total (out ++ b)
  end.

(** The result and the bytes stored in the caller's buffer. *)
Definition ext2_read_file (path : option (list Z)) (sz : Z) : M ext2 (Z * list Z) :=
  r <- open_path path ;;
  match r with
  | inl e => ret (e, [])
  | inr (_, i) =>
      if negb (is_type i EXT2_S_IFREG) then ret (EXT2_ERR_INVALID_ARG, [])
      else
        s <- get ;;
        if block_size s =? 0 then fault
        else
          let total := if size i <? u32 sz then size i else u32 sz in
          read_loop (Z.to_nat (u32 (u32 (total + block_size s) - 1) / block_size s)) 0 i total []
  end.

Definition ext2_file_exists (path : option (list Z)) : M ext2 Z :=
  n <- path_to_inode path ;; ret (if n =? 0 then 0 else 1).

Definition ext2_get_file_size (path : option (list Z)) : M ext2 Z :=
  r <- open_path path ;;
  match r with
  | inl e => ret e
  | inr (_, i) => ret (if negb (is_type i EXT2_S_IFREG) then EXT2_ERR_INVALID_ARG else to_int (size i))
  end.

(** ** Directories *)

Definition dots (name : list Z) : bool := bool_decide (name = [DOT]) || bool_decide (name = [DOT; DOT]).

(** The entries of a block from [off] on, of which at most [max] are listed in all. *)
Fixpoint list_entries (fuel : nat) (buf : list Z) (off max : Z) (out : list file_entry) : M ext2 (list file_entry) :=
  s <- get ;;
  if (block_size s <=? off) || (max <=? Z.of_nat (length out)) then ret out
  else
    match fuel with
    | O => spin
    | S fuel' =>
        rec_len <- num_at buf (off + 4) 2 ;;
        if rec_len =? 0 then ret out
        else
          ino <- num_at buf off 4 ;;
          if ino =? 0 then ret out
          else
            name_len <- num_at buf (off + 6) 1 ;;
            nm <- bytes_at buf (off + 8) name_len ;;
            out <- (if dots nm then ret out
                    else
                      r <- read_inode ino ;;
                      ret (match r with
                           | inl _ => out
                           | inr i => out ++ [mk_file nm (mode i) (size i) ino (atime i) (ctime i) (mtime i) (links_count i) (uid i) (gid i)]
                           end)) ;;
            list_entries fuel' buf (off + rec_len) max out
    end.

Fixpoint list_blocks (fuel : nat) (i : inode) (bytes_read current : Z) (buf : list Z) (max : Z) (out : list file_entry) : M ext2 (Z * list file_entry) :=
  if (size i <=? bytes_read) || (max <=? Z.of_nat (length out)) then ret (to_int (Z.of_nat (length out)), out)
  else
    match fuel with
    | O => spin
    | S fuel' =>
        r <- read_file_block i current buf ;;
        if fst r <? 0 then ret (fst r, out)
        else
          s <- get ;;
          out <- list_entries (Z.to_nat (block_size s)) (snd r) 0 max out ;;
          list_blocks fuel' i (u32 (bytes_read + block_size s)) (u32 (current + 1)) (snd r) max out
    end.

Definition ext2_list_directory (path : option (list Z)) (max : Z) : M ext2 (Z * list file_entry) :=
  r <- open_path path ;;
  match r with
  | inl e => ret (e, [])
  | inr (_, i) =>
      if negb (is_type i EXT2_S_IFDIR) then ret (EXT2_ERR_INVALID_ARG, [])
      else list_blocks (rounds i) i 0 0 (fresh BUFFER) (u32 max) []
  end.

Definition now : M ext2 Z := s <- get ;; ret (get_current_time E (world s)).

(** The parent of a path, which must be a directory, or an error. *)
Definition parent_of (dir_path : list Z) (not_dir : Z) : M ext2 (Z + Z * inode) :=
  r <- open_path (Some dir_path) ;;
  match r with
  | inl e => ret (inl e)
  | inr (n, i) => ret (if is_type i EXT2_S_IFDIR then inr (n, i) else inl not_dir)
  end.

Definition store_inode (n : Z) (i : inode) (ok : M ext2 Z) : M ext2 Z :=
  r <- write_inode n i ;; if negb (r =? 0) then ret EXT2_ERR_IO_ERROR else ok.

(** ** Writing *)

(** The blocks of the data from [written] on: the bytes written, and the inode. *)
Fixpoint write_loop (fuel : nat) (i : inode) (index written sz : Z) (data : list Z) : M ext2 (Z * inode) :=
  if sz <=? written then ret (written, i)
  else
    match fuel with
    | O => spin
    | S fuel' =>
        r <- ext2_get_or_allocate_block E i index ;;
        let '(n, i) := r in
        if n =? 0 then ret (written, i)
        else
          s <- get ;;
          if block_size s =? 0 then fault
          else
            let off := written mod block_size s in
            let room := block_size s - off in
            let chunk := if u32 (sz - written) <? room then u32 (sz - written) else room in
            buf <- (if (0 <? off) || (chunk <? block_size s) then read_block n (fresh BUFFER) else ret (Some (fresh BUFFER))) ;;
            match buf with
            | None => ret (written, i)
            | Some buf =>
                b <- bytes_at data written chunk ;;
                buf <- copy_to buf off b ;;
                r <- write_block n buf ;;
                if negb (r =? 0) then ret (written, i) else write_loop fuel' i (index + 1) (written + chunk) sz data
            end
    end.

Definition new_inode (md links t : Z) : inode := set_links_count links (set_mtime t (set_ctime t (set_atime t (set_mode md zero_inode)))).

(** A new file in the directory of the path: its number and inode, or an error. *)
Definition create_file (path : list Z) : M ext2 (Z + Z * inode) :=
  pf <- parse_path path ;;
  r <- parent_of (fst pf) EXT2_ERR_INVALID_ARG ;;
  match r with
  | inl e => ret (inl e)
  | inr (dn, di) =>
      n <- ext2_allocate_inode E ;;
      if n =? 0 then ret (inl EXT2_ERR_NO_SPACE)
      else
        t <- now ;;
        let i := new_inode (Z.lor EXT2_S_IFREG 420) 1 t in
        r <- ext2_add_dir_entry E dn di (snd pf) n (EXT2_FT_REG_FILE E) ;;
        if negb (fst r =? 0) then ext2_free_inode E n ;;; ret (inl (fst r))
        else
          t <- now ;;
          r <- write_inode dn (set_mtime t (snd r)) ;;
          ret (if negb (r =? 0) then inl EXT2_ERR_IO_ERROR else inr (n, i))
  end.

(** The file to write to. *)
Definition target_file (path : option (list Z)) (flags : Z) : M ext2 (Z + Z * inode) :=
  n <- path_to_inode path ;;
  if n =? 0 then
    if negb (has_flag flags (EXT2_WRITE_CREATE E)) then ret (inl EXT2_ERR_NOT_FOUND)
    else match path with None => ret (inl EXT2_ERR_INVALID_ARG) | Some p => create_file p end
  else
    r <- read_inode n ;;
    match r with
    | inl _ => ret (inl EXT2_ERR_IO_ERROR)
    | inr i =>
        if negb (is_type i EXT2_S_IFREG) then ret (inl EXT2_ERR_INVALID_ARG)
        else if has_flag flags (EXT2_WRITE_TRUNCATE E) then
          i <- ext2_free_file_blocks E i ;;
          ret (inr (n, set_block (replicate 15 0) (set_size 0 i)))
        else ret (inr (n, i))
    end.

Definition ext2_write_file (path : option (list Z)) (data : list Z) (sz flags : Z) : M ext2 Z :=
  r <- target_file path flags ;;
  match r with
  | inl e => ret e
  | inr (n, i) =>
      r <- write_loop (S (Z.to_nat (u32 sz))) i 0 0 (u32 sz) data ;;
      let '(written, i) := r in
      if 0 <? written then
        let new_size := if has_flag flags (EXT2_WRITE_APPEND E) then u32 (size i + written) else written in
        let i := if size i <? new_size then set_size new_size i else i in
        t <- now ;;
        store_inode n (set_mtime t (set_atime t i)) (ext2_update_fs_metadata E ;;; ret (to_int written))
      else ext2_update_fs_metadata E ;;; ret (to_int written)
  end.

(** A directory entry with its name at the start of its record. *)
Definition dir_entry (ino rec_len ft : Z) (name : list Z) : list Z :=
  le_bytes 4 ino ++ le_bytes 2 rec_len ++ [u8 (Z.of_nat (length name)); ft] ++ name.

Definition ext2_mkdir (path : option (list Z)) (md : Z) : M ext2 Z :=
  match path with None => ret EXT2_ERR_INVALID_ARG | Some p =>
  pf <- parse_path p ;;
  ex <- ext2_file_exists path ;;
  if truth ex then ret (EXT2_ERR_EXISTS E)
  else
    r <- parent_of (fst pf) (EXT2_ERR_NOT_DIR E) ;;
    match r with
    | inl e => ret e
    | inr (pn, pi) =>
        n <- ext2_allocate_inode E ;;
        if n =? 0 then ret EXT2_ERR_NO_SPACE
        else
          t <- now ;;
          let i := new_inode (Z.lor EXT2_S_IFDIR (Z.land md 0xFFF)) 2 t in
          b <- ext2_allocate_block E ;;
          if b =? 0 then ext2_free_inode E n ;;; ret EXT2_ERR_NO_SPACE
          else
            s <- get ;;
            let undo e := ext2_free_block E b ;;; ext2_free_inode E n ;;; ret e in
            buf <- copy_to (fresh BUFFER) 0 (replicate (Z.to_nat (block_size s)) 0) ;;
            buf <- copy_to buf 0 (dir_entry n 12 (EXT2_FT_DIR E) [DOT] ++ [0]) ;;
            buf <- copy_to buf 12 (dir_entry pn (u16 (block_size s - 12)) (EXT2_FT_DIR E) [DOT; DOT] ++ [0]) ;;
            r <- write_block b buf ;;
            if negb (r =? 0) then undo EXT2_ERR_IO_ERROR
            else
              r <- write_inode n (set_size (block_size s) (set_block (b :: replicate 14 0) i)) ;;
              if negb (r =? 0) then undo EXT2_ERR_IO_ERROR
              else
                r <- ext2_add_dir_entry E pn pi (snd pf) n (EXT2_FT_DIR E) ;;
                if negb (fst r =? 0) then undo (fst r)
                else
                  t <- now ;;
                  store_inode pn (set_mtime t (set_links_count (u16 (links_count (snd r) + 1)) (snd r)))
                    (ext2_update_fs_metadata E ;;; ret EXT2_SUCCESS)
    end
  end.

Definition ext2_remove (path : option (list Z)) : M ext2 Z :=
  r <- open_path path ;;
  match r, path with
  | inl e, _ => ret e
  | inr _, None => ret EXT2_ERR_INVALID_ARG
  | inr (n, i), Some p =>
      pf <- parse_path p ;;
      r <- open_path (Some (fst pf)) ;;
      match r with
      | inl e => ret e
      | inr (pn, pi) =>
          r <- (if is_type i EXT2_S_IFDIR then
                  if dots (snd pf) then ret (inl EXT2_ERR_PERMISSION)
                  else
                    l <- ext2_list_directory path 2 ;;
                    ret (if 0 <? fst l then inl (EXT2_ERR_NOT_EMPTY E) else inr (set_links_count (u16 (links_count pi - 1)) pi))
                else ret (inr pi)) ;;
          match r with
          | inl e => ret e
          | inr pi =>
              r <- ext2_remove_dir_entry E pn pi (snd pf) ;;
              if negb (fst r =? 0) then ret (fst r)
              else
                t <- now ;;
                store_inode pn (set_mtime t (snd r))
                  (let i := set_links_count (u16 (links_count i - 1)) i in
                   if links_count i =? 0 then
                     _i <- ext2_free_file_blocks E i ;;
                     ext2_free_inode E n ;;;
                     ext2_update_fs_metadata E ;;;
                     ret EXT2_SUCCESS
                   else store_inode n i (ext2_update_fs_metadata E ;;; ret EXT2_SUCCESS))
          end
      end
  end.

(** ** Symbolic links *)

Fixpoint free_list (l : list Z) : M ext2 unit :=
  match l with [] => ret tt | b :: l' => ext2_free_block E b ;;; free_list l' end.

(** The blocks of a long target: the inode with them, or an error after their release. *)
Fixpoint link_blocks (n : nat) (k : Z) (i : inode) (target : list Z) : M ext2 (Z + inode) :=
  match n with
  | O => ret (inr i)
  | S n' =>
      b <- ext2_allocate_block E ;;
      if b =? 0 then free_list (take (Z.to_nat k) (block i)) ;;; ret (inl EXT2_ERR_NO_SPACE)
      else
        l <- deref (arr_set (block i) k b) ;;
        s <- get ;;
        let off := u32 (k * block_size s) in
        let chunk := if size i <? u32 (off + block_size s) then u32 (size i - off) else block_size s in
        buf <- copy_to (fresh BUFFER) 0 (replicate (Z.to_nat (block_size s)) 0) ;;
        part <- bytes_at target off chunk ;;
        buf <- copy_to buf 0 part ;;
        r <- write_block b buf ;;
        if negb (r =? 0) then free_list (take (Z.to_nat (k + 1)) l) ;;; ret (inl EXT2_ERR_IO_ERROR)
        else link_blocks n' (k + 1) (set_block l i) target
  end.

Definition ext2_symlink (target : list Z) (linkpath : option (list Z)) : M ext2 Z :=
  match linkpath with None => ret EXT2_ERR_INVALID_ARG | Some p =>
  pf <- parse_path p ;;
  ex <- ext2_file_exists linkpath ;;
  if truth ex then ret (EXT2_ERR_EXISTS E)
  else
    r <- parent_of (fst pf) (EXT2_ERR_NOT_DIR E) ;;
    match r with
    | inl e => ret e
    | inr (pn, pi) =>
        n <- ext2_allocate_inode E ;;
        if n =? 0 then ret EXT2_ERR_NO_SPACE
        else
          t <- now ;;
          let i := set_size (u32 (Z.of_nat (length target))) (new_inode (Z.lor EXT2_S_IFLNK 511) 1 t) in
          s <- get ;;
          r <- (if size i <=? 60 then ret (inr (set_block (words (target ++ replicate (60 - length target) 0)) i))
                else if block_size s =? 0 then fault
                else
                  r <- link_blocks (Z.to_nat (u32 (u32 (size i + block_size s) - 1) / block_size s)) 0 i target ;;
                  match r with inl e => ext2_free_inode E n ;;; ret (inl e) | inr i => ret (inr i) end) ;;
          match r with
          | inl e => ret e
          | inr i =>
              let undo e :=
                (if 60 <? size i then _i <- ext2_free_file_blocks E i ;; ret tt else ret tt) ;;;
                ext2_free_inode E n ;;; ret e in
              r <- write_inode n i ;;
              if negb (r =? 0) then undo EXT2_ERR_IO_ERROR
              else
                r <- ext2_add_dir_entry E pn pi (snd pf) n (EXT2_FT_SYMLINK E) ;;
                if negb (fst r =? 0) then undo (fst r)
                else
                  t <- now ;;
                  store_inode pn (set_mtime t (snd r)) (ext2_update_fs_metadata E ;;; ret EXT2_SUCCESS)
          end
    end
  end.

Definition ext2_readlink (path : option (list Z)) (sz : Z) : M ext2 (Z * list Z) :=
  r <- open_path path ;;
  match r with
  | inl e => ret (e, [])
  | inr (_, i) =>
      if negb (is_type i EXT2_S_IFLNK) then ret (EXT2_ERR_INVALID_ARG, [])
      else if size i <=? 60 then
        let n := if size i <? u32 sz then size i else sz in
        b <- bytes_at (bytes_of (block i)) 0 n ;;
        ret (n, b)
      else ext2_read_file path sz
  end.

(** ** Attributes *)

Definition ext2_chmod (path : option (list Z)) (md : Z) : M ext2 Z :=
  r <- open_path path ;;
  match r with
  | inl e => ret e
  | inr (n, i) =>
      let ft := Z.land (mode i) EXT2_S_IFMT in
      store_inode n (set_mode (Z.lor ft (Z.land md (Z.lnot EXT2_S_IFMT))) i) (ret EXT2_SUCCESS)
  end.

Definition ext2_chown (path : option (list Z)) (u g : Z) : M ext2 Z :=
  r <- open_path path ;;
  match r with
  | inl e => ret e
  | inr (n, i) => store_inode n (set_gid g (set_uid u i)) (ret EXT2_SUCCESS)
  end.

End Ops.
End Volume.

End Ext2.
