(* ===== verification/Ext2Thms.v ===== *)
(** * Properties of the ext2 file system

    Reading: with a device whose blocks divide 1024 bytes, paths resolve as the directories
    say, files have the contents their block numbers say, and listings are exact. These
    are equations with reference definitions on the bytes of the disk ([resolve],
    [bytes_of], [dir_entries]). Writing: an inode that is written is read back and others
    stay as they are. Errors: volumes with larger blocks, and long symbolic links. *)

From Stdlib Require Import ZArith Lia.
From stdpp Require Import base tactics option numbers list.
From S2P Require Import Prelude VfsCache Ext2.
Import Ext2.

Set Default Goal Selector "!".
Local Open Scope Z_scope.
Local Open Scope kernel_scope.

Module Ext2Thms.

Abbreviation bytes_ok := (Forall (fun b => 0 <= b < 256)%Z).

(** ** Inodes as bytes *)

Record inode_wf (i : inode) : Prop := {
  wf_mode : 0 <= mode i < 2 ^ 16;
  wf_uid : 0 <= uid i < 2 ^ 16;
  wf_size : 0 <= size i < 2 ^ 32;
  wf_atime : 0 <= atime i < 2 ^ 32;
  wf_ctime : 0 <= ctime i < 2 ^ 32;
  wf_mtime : 0 <= mtime i < 2 ^ 32;
  wf_dtime : 0 <= dtime i < 2 ^ 32;
  wf_gid : 0 <= gid i < 2 ^ 16;
  wf_links : 0 <= links_count i < 2 ^ 16;
  wf_blocks : 0 <= blocks i < 2 ^ 32;
  wf_flags : 0 <= flags i < 2 ^ 32;
  wf_osd1 : 0 <= osd1 i < 2 ^ 32;
  wf_block : length (block i) = 15%nat /\ Forall (fun n => 0 <= n < 2 ^ 32) (block i);
  wf_rest : length (rest i) = 28%nat /\ bytes_ok (rest i);
}.

Ltac list_of H :=
  lazymatch type of H with
  | length ?l = O => destruct l; [clear H|discriminate H]
  | length ?l = S _ => destruct l; [discriminate H|injection H as H; list_of H]
  end.

Lemma encode_length i : length (block i) = 15%nat -> length (rest i) = 28%nat -> length (encode_inode i) = 128%nat.
Proof.
  intros Hb Hr. unfold encode_inode, bytes_of. rewrite !length_app, !le_bytes_length, Hr. destruct i; cbn in *. list_of Hb. reflexivity.
Qed.

Lemma le_bytes_ok n : forall x, bytes_ok (le_bytes n x).
Proof. induction n as [|n IH]; intros x; cbn [le_bytes]; constructor; [apply Z.mod_pos_bound; lia|apply IH]. Qed.

Lemma encode_bytes i : bytes_ok (rest i) -> bytes_ok (encode_inode i).
Proof.
  intros Hr. unfold encode_inode. rewrite !Forall_app. repeat (split; [apply le_bytes_ok|]). split; [|done]. unfold bytes_of.
  apply Forall_concat, Forall_forall. intros l (x & -> & _)%list_elem_of_fmap. apply le_bytes_ok.
Qed.

Lemma decode_encode i : inode_wf i -> decode_inode (encode_inode i) = i.
Proof.
  intros [H1 H2 H3 H4 H5 H6 H7 H8 H9 H10 H11 H12 [Hb Hbs] [Hr _]]. destruct i as [a1 a2 a3 a4 a5 a6 a7 a8 a9 a10 a11 a12 bl re]. cbn in *.
  transitivity (mk_inode (le_value (le_bytes 2 a1)) (le_value (le_bytes 2 a2)) (le_value (le_bytes 4 a3)) (le_value (le_bytes 4 a4))
    (le_value (le_bytes 4 a5)) (le_value (le_bytes 4 a6)) (le_value (le_bytes 4 a7)) (le_value (le_bytes 2 a8)) (le_value (le_bytes 2 a9))
    (le_value (le_bytes 4 a10)) (le_value (le_bytes 4 a11)) (le_value (le_bytes 4 a12)) (map (fun x => le_value (le_bytes 4 x)) bl) re).
  { clear -Hb Hr. list_of Hb. list_of Hr. reflexivity. }
  rewrite !le_bytes_value by (cbn; lia). f_equal. clear -Hbs. induction Hbs as [|x l Hx _ IH]; [done|]. cbn [map]. by rewrite le_bytes_value, IH by (cbn; lia).
Qed.

Section Volume.
Context {D : Type} (E : env (D := D)).
Implicit Types s : ext2 (D := D).

(** What is relied on of memory and of the device [dp]: [bs] is its block size, [cap] its
    capacity in bytes, [byte] what it stores. *)
Class Volume (dp : list Z) (bs cap : Z) (byte : D -> Z -> Z) : Prop := {
  vol_device : forall w, exists d, get_device E w dp = Some d /\ d_block_size d = bs /\ can_read d = true /\ can_write d = true;
  vol_size : 0 < bs /\ (bs | 1024) /\ 0 <= cap < 2 ^ 32;
  vol_malloc : forall w n, 0 < n -> exists l, malloc E w n = Some l /\ Z.of_nat (length l) = n;
  vol_byte : forall w o, 0 <= byte w o < 256;
  vol_stack : forall k, 0 <= stack_byte E k < 256;
  vol_read : forall pos n w, 0 <= pos -> 0 < n -> (pos + n) * bs <= cap ->
    exists w', read_blocks E dp pos n w = (n, map (fun i => byte w (pos * bs + i)) (seqZ 0 (n * bs)), w') /\ forall o, byte w' o = byte w o;
  vol_write : forall pos n l w, 0 <= pos -> 0 < n -> (pos + n) * bs <= cap -> n * bs <= Z.of_nat (length l) -> bytes_ok l ->
    exists w', write_blocks E dp pos n l w = (n, w') /\
      forall o, byte w' o = if decide (pos * bs <= o < (pos + n) * bs) then nth (Z.to_nat (o - pos * bs)) l 0 else byte w o;
  vol_sync : forall w o, byte (sync_device E dp w) o = byte w o;
}.

Context (dp : list Z) (bs cap : Z) (byte : D -> Z -> Z) `{!Volume dp bs cap byte}.

(** ** Blocks *)

Definition blk (w : D) (n : Z) : list Z := map (fun i => byte w (n * 1024 + i)) (seqZ 0 1024).

Lemma blk_length w n : length (blk w n) = 1024%nat.
Proof. unfold blk. by rewrite length_map, length_seqZ. Qed.

Lemma blk_bytes w n : bytes_ok (blk w n).
Proof. apply Forall_forall. intros x (i & -> & _)%list_elem_of_fmap. apply vol_byte. Qed.

Lemma fresh_length n : length (fresh E n) = Z.to_nat n.
Proof. unfold fresh. by rewrite length_map, length_seq. Qed.

Lemma fresh_bytes n : bytes_ok (fresh E n).
Proof. apply Forall_forall. intros x (i & -> & _)%list_elem_of_fmap. apply vol_stack. Qed.

(** States that differ in the device's own state only. *)
Definition same s s' : Prop := exists w, s' = set_world w s /\ forall o, byte w o = byte (world s) o.

#[local] Instance same_preorder : PreOrder same.
Proof.
  split.
  - intros s. exists (world s). by destruct s.
  - intros s1 s2 s3 (w1 & -> & H1) (w2 & -> & H2). exists w2. split; [done|]. intros o. rewrite H2. apply H1.
Qed.

Lemma same_blk s s' n : same s s' -> blk (world s') n = blk (world s) n.
Proof. intros (w & -> & H). unfold blk. apply map_ext. intros i. apply H. Qed.

Record mounted s : Prop := {
  m_path : device_path s = Some dp;
  m_size : block_size s = 1024;
}.

Lemma same_mounted s s' : same s s' -> mounted s -> mounted s'.
Proof. by intros (w & -> & _) []. Qed.

Definition in_range (n : Z) : Prop := 0 <= n /\ (n + 1) * 1024 <= cap.

Lemma the_device_spec able Q s : mounted s -> (forall d, d_block_size d = bs -> can_read d = true -> can_write d = true -> able d = true) ->
  (forall d, d_block_size d = bs -> Q (Some (dp, d)) s) -> wp (the_device E able) Q s.
Proof.
  intros [Hp _] Ha HQ. unfold the_device. wp_steps. rewrite Hp. destruct (vol_device (world s)) as (d & Hd & Hb & Hr & Hw).
  rewrite Hd. wp_steps. rewrite Ha by done. by apply HQ.
Qed.

Lemma ext2_extent d n Q s : mounted s -> d_block_size d = bs -> in_range n ->
  Q (n * (1024 / bs), 1024 / bs) s -> wp (extent d n) Q s.
Proof.
  intros [_ Hs] Hd [H0 Hn] HQ. destruct vol_size as (Hbs & [k Hk] & Hc). unfold extent. wp_steps. rewrite Hd, Hs.
  destruct (Z.eqb_spec bs 0); [lia|]. wp_steps. assert (bs <= 1024) by (apply Z.divide_pos_le; [lia|by exists k]).
  assert (1024 / bs = k) as Ek by (symmetry; apply (Z.div_unique _ _ _ 0); lia). rewrite Ek in HQ.
  match goal with |- Q ?x s => replace x with (n * k, k); [done|] end. f_equal.
  - rewrite Z.eqb_sym. destruct (Z.eqb_spec 1024 bs) as [e|ne]; [assert (k = 1) as -> by nia; lia|]. rewrite u32_small by lia.
    apply (Z.div_unique _ _ _ 0); [lia|]. replace (n * 1024) with (n * (k * bs)) by (f_equal; lia). lia.
  - rewrite (u32_small (1024 + bs)) by lia. rewrite u32_small by lia. apply (Z.div_unique _ _ _ (bs - 1)); lia.
Qed.

Lemma ratio : exists k, 0 < k /\ 1024 = k * bs /\ 1024 / bs = k /\ (bs <? 1024) && (1 <? k) = negb (bs =? 1024).
Proof.
  destruct vol_size as (Hbs & [k Hk] & _). exists k. assert (0 < k) by nia. split; [done|]. split; [done|].
  split; [symmetry; apply (Z.div_unique _ _ _ 0); lia|].
  destruct (Z.ltb_spec bs 1024), (Z.ltb_spec 1 k), (Z.eqb_spec bs 1024); cbn; try done; nia.
Qed.

Lemma ext2_device_read n buf Q s : mounted s -> in_range n -> 1024 <= Z.of_nat (length buf) ->
  (forall s', same s s' -> Q (1024 / bs, blk (world s) n ++ drop 1024 buf) s') ->
  wp (device_read E dp (n * (1024 / bs)) (1024 / bs) buf) Q s.
Proof.
  intros [_ Hs] [H0 Hn] Hl HQ. destruct ratio as (k & Hk0 & Hk & Ek & _). rewrite Ek in *. unfold device_read. wp_steps.
  destruct (vol_read (n * k) k (world s)) as (w & Hr & Hw); [lia|lia|nia|]. rewrite Hr. wp_steps.
  assert (map (fun i => byte (world s) (n * k * bs + i)) (seqZ 0 (k * bs)) = blk (world s) n) as ->.
  { unfold blk. rewrite <- Hk. apply map_ext. intros i. f_equal. rewrite Hk. lia. }
  apply wp_copy_to; [lia|rewrite blk_length; lia|]. wp_steps. unfold splice. rewrite blk_length. apply HQ. by exists w.
Qed.

Lemma read_block_spec n buf Q s : mounted s -> in_range n -> 1024 <= Z.of_nat (length buf) ->
  (forall s', same s s' -> Q (Some (blk (world s) n ++ drop 1024 buf)) s') -> wp (read_block E n buf) Q s.
Proof.
  intros Hm Hn Hl HQ. unfold read_block. wp_steps. apply the_device_spec; [done|done|]. intros d Hd. wp_steps.
  apply ext2_extent; [done..|]. wp_steps. rewrite Hd, (m_size _ Hm). destruct ratio as (k & Hk0 & Hk & Ek & Eb). rewrite Ek, Eb.
  assert (u32 k = k) as Hu by (destruct vol_size; apply u32_small; nia). destruct (Z.eqb_spec bs 1024); cbn [negb].
  - wp_steps. rewrite <- Ek. apply ext2_device_read; [done..|]. intros s' Hs'. cbn [fst snd]. rewrite Ek, Hu, Z.eqb_refl. cbn [negb]. wp_steps. auto.
  - rewrite <- Hk, (u32_small 1024) by lia. destruct (vol_malloc (world s) 1024 ltac:(lia)) as (l & -> & Hlen). wp_steps. rewrite <- Ek.
    apply ext2_device_read; [done..|lia|]. intros s' Hs'. cbn [fst snd]. rewrite Ek, Hu, Z.eqb_refl. cbn [negb]. wp_steps.
    rewrite (m_size _ (same_mounted _ _ Hs' Hm)). apply wp_bytes_in; [lia|rewrite length_app, blk_length; lia|]. wp_steps.
    change (Z.to_nat 1024) with 1024%nat. change (Z.to_nat 0) with 0%nat. rewrite drop_0, <- (blk_length (world s) n), take_app_length.
    apply wp_copy_to; [lia|rewrite blk_length; lia|]. wp_steps. unfold splice. rewrite blk_length. auto.
Qed.

(** A block is written: the bytes of the device change in it only. *)
Definition written (n : Z) (l : list Z) s s' : Prop :=
  exists w, s' = set_world w s /\ forall o, byte w o = if decide (n * 1024 <= o < (n + 1) * 1024) then nth (Z.to_nat (o - n * 1024)) l 0 else byte (world s) o.

Lemma ext2_device_write d n l Q s : mounted s -> d_block_size d = bs -> in_range n -> 1024 <= Z.of_nat (length l) -> bytes_ok l ->
  (forall s', written n l s s' -> Q (1024 / bs) s') -> wp (device_write E dp d (n * (1024 / bs)) (1024 / bs) l) Q s.
Proof.
  intros Hm Hd [H0 Hn] Hl Hby HQ. destruct ratio as (k & Hk0 & Hk & Ek & _). rewrite Ek in *. unfold device_write. rewrite Hd, <- Hk.
  destruct (Z.ltb_spec (Z.of_nat (length l)) 1024); [lia|]. wp_steps. destruct (vol_write (n * k) k l (world s)) as (w & Hr & Hw); [lia|lia|nia|lia|done|].
  rewrite Hr. wp_steps. apply HQ. exists w. split; [done|]. intros o. rewrite Hw. replace (n * k * bs) with (n * 1024) by nia.
  replace ((n * k + k) * bs) with ((n + 1) * 1024) by nia. done.
Qed.

Lemma written_blk n l s s' : written n l s s' -> 1024 <= Z.of_nat (length l) ->
  blk (world s') n = take 1024 l /\ forall m, m <> n -> blk (world s') m = blk (world s) m.
Proof.
  intros (w & -> & Hw) Hl. cbn. split.
  - apply list_eq. intros j. unfold blk. rewrite list_lookup_fmap. destruct (decide (j < 1024)%nat) as [Hj|Hj].
    + rewrite lookup_seqZ_lt by lia. cbn. rewrite lookup_take_lt by done. rewrite Hw, decide_True by lia.
      replace (Z.to_nat (n * 1024 + (0 + Z.of_nat j) - n * 1024)) with j by lia.
      destruct (lookup_lt_is_Some_2 l j) as [x Hx]; [lia|]. rewrite Hx. f_equal. by apply nth_lookup_Some.
    + rewrite lookup_seqZ_ge by lia. rewrite lookup_take_ge by lia. done.
  - intros m Hm. unfold blk. apply map_ext_in. intros i Hi%list_elem_of_In. apply elem_of_seqZ in Hi. rewrite Hw, decide_False; [done|nia].
Qed.

Lemma written_mounted n l s s' : written n l s s' -> mounted s -> mounted s'.
Proof. by intros (w & -> & _) []. Qed.

Lemma write_block_spec n buf Q s : mounted s -> in_range n -> 1024 <= Z.of_nat (length buf) -> bytes_ok buf ->
  (forall s', written n (take 1024 buf) s s' -> Q 0 s') -> wp (write_block E n buf) Q s.
Proof.
  intros Hm Hn Hl Hby HQ. unfold write_block. wp_steps. apply the_device_spec; [done|done|]. intros d Hd. wp_steps.
  apply ext2_extent; [done..|]. wp_steps. rewrite Hd, (m_size _ Hm). destruct ratio as (k & Hk0 & Hk & Ek & Eb). rewrite Ek, Eb.
  assert (u32 k = k) as Hu by (destruct vol_size; apply u32_small; nia).
  assert (forall s1 s2 l (Hs1 : same s s1) (Hw : written n l s1 s2), take 1024 l = take 1024 buf -> wp ((if negb (0 =? 0) then ret 0 else
    (if can_sync d then modify (fun s => set_world (sync_device E dp (world s)) s) else ret tt) ;;; ret 0)) Q s2) as Hend.
  { intros s1 s2 l (w1 & -> & H1) (w2 & -> & H2) Et. cbn [Z.eqb negb]. wp_steps. cbn in *.
    assert (forall w, (forall o, byte w o = byte w2 o) -> Q 0 (set_world w s)) as Hq.
    { intros w Hw. apply HQ. exists w. split; [done|]. intros o. rewrite Hw, H2. case_decide as Ho; [|apply H1].
      rewrite <- Et, !nth_lookup. f_equal. rewrite lookup_take_lt by lia. done. }
    destruct (can_sync d); wp_steps; apply Hq; [apply vol_sync|done]. }
  destruct (Z.eqb_spec bs 1024); cbn [negb].
  - wp_steps. rewrite <- Ek at 1 2. apply ext2_device_write; [done..|]. intros s' Hs'. wp_steps. rewrite Ek, Hu, Z.eqb_refl. cbn [negb].
    apply (Hend s s' buf); [reflexivity|done|done].
  - rewrite <- Hk, (u32_small 1024) by lia. destruct (vol_malloc (world s) 1024 ltac:(lia)) as (l & -> & Hlen). wp_steps. rewrite <- Ek at 1 2.
    apply ext2_device_read; [done..|lia|]. intros s1 Hs1. cbn [fst snd]. rewrite Ek, Hu, Z.eqb_refl. cbn [negb]. wp_steps.
    rewrite (m_size _ (same_mounted _ _ Hs1 Hm)). apply wp_bytes_in; [lia..|]. wp_steps. change (Z.to_nat 1024) with 1024%nat. change (Z.to_nat 0) with 0%nat.
    rewrite drop_0. rewrite (drop_ge l) by lia. rewrite app_nil_r.
    apply wp_copy_to; [lia|rewrite blk_length, length_take; lia|]. wp_steps. rewrite <- Ek at 1 2.
    assert (splice (blk (world s) n) (Z.to_nat 0) (take 1024 buf) = take 1024 buf) as ->.
    { unfold splice. change (Z.to_nat 0) with 0%nat. rewrite take_0, drop_ge; [by rewrite app_nil_l, app_nil_r|]. rewrite blk_length, length_take. lia. }
    apply ext2_device_write; [by eapply same_mounted|done|done|rewrite length_take; lia|by apply Forall_take|]. intros s2 Hs2. wp_steps. rewrite Ek, Hu, Z.eqb_refl. cbn [negb].
    apply (Hend s1 s2 (take 1024 buf)); [done|done|]. by rewrite take_take.
Qed.

(** ** Inodes *)

(** The block of an inode, and the place in it. *)
Definition place s (n : Z) : option (Z * Z) :=
  let per := inodes_per_group (superblock s) in
  l ← group_descs s; g ← arr_get l ((n - 1) / per);
  Some (inode_table g + ((n - 1) mod per * 128) / 1024, ((n - 1) mod per * 128) mod 1024).

Record inodes_ok s : Prop := {
  io_per : 0 < inodes_per_group (superblock s) < 2 ^ 25;
  io_place n : 1 <= n <= inodes_count (superblock s) -> exists b o, place s n = Some (b, o) /\ in_range b;
}.

Lemma same_place s s' n : same s s' -> place s' n = place s n.
Proof. by intros (w & -> & _). Qed.
Lemma same_inodes s s' : same s s' -> inodes_ok s -> inodes_ok s'.
Proof. by intros (w & -> & _) []. Qed.

Definition inode_at s (n : Z) : option inode :=
  if bool_decide (1 <= n <= inodes_count (superblock s))
  then x ← place s n; Some (decode_inode (take 128 (drop (Z.to_nat (snd x)) (blk (world s) (fst x))))) else None.

Lemma same_inode_at s s' n : same s s' -> inode_at s' n = inode_at s n.
Proof.
  intros H. unfold inode_at. rewrite (same_place _ _ _ H). assert (superblock s' = superblock s) as -> by by destruct H as (w & -> & _).
  destruct (bool_decide _); [|done]. destruct (place s n) as [[b o]|]; [|done]. cbn. by rewrite (same_blk _ _ _ H).
Qed.

Lemma place_offset s n b o : inodes_ok s -> place s n = Some (b, o) -> 0 <= o /\ o + 128 <= 1024 /\ (128 | o).
Proof.
  intros [Hp _] H. unfold place in H. destruct (group_descs s) as [l|]; [|done]. cbn in H. destruct (arr_get l _) as [g|]; [|done]. injection H as _ <-.
  set (k := (n - 1) mod inodes_per_group (superblock s)). replace (k * 128) with (128 * k) by lia. change 1024 with (128 * 8).
  rewrite Z.mul_mod_distr_l by lia. pose proof (Z.mod_pos_bound k 8 ltac:(lia)). split; [lia|]. split; [lia|]. exists (k mod 8). lia.
Qed.

Lemma inode_place_spec n b o Q s : mounted s -> inodes_ok s -> place s n = Some (b, o) -> in_range b -> Q (b, o) s -> wp (inode_place n) Q s.
Proof.
  intros Hm [Hp _] Hpl [Hb0 Hb] HQ. unfold inode_place. wp_steps. unfold place in Hpl. rewrite (m_size _ Hm).
  destruct (Z.eqb_spec (inodes_per_group (superblock s)) 0); [lia|]. change (1024 =? 0) with false. cbn [orb]. wp_steps.
  destruct (group_descs s) as [l|]; [|done]. cbn [deref]. wp_steps. cbn in Hpl. destruct (arr_get l _) as [g|]; [|done]. cbn [deref]. wp_steps.
  injection Hpl as <- <-. pose proof (Z.mod_pos_bound (n - 1) (inodes_per_group (superblock s)) ltac:(lia)).
  unfold INODE_SIZE. destruct vol_size as (_ & _ & Hc). rewrite (u32_small ((n - 1) mod _ * 128)) by lia. rewrite u32_small by lia. done.
Qed.

Lemma BUFFER_length : Z.of_nat (length (fresh E BUFFER)) = 4096.
Proof. rewrite fresh_length. done. Qed.

Lemma read_inode_spec n Q s : mounted s -> inodes_ok s ->
  (forall s', same s s' -> Q (match inode_at s n with Some i => inr i | None => inl EXT2_ERR_INVALID_ARG end) s') ->
  wp (read_inode E n) Q s.
Proof.
  intros Hm Hi HQ. unfold read_inode. wp_steps. unfold inode_at in HQ.
  destruct (Z.ltb_spec n 1), (Z.ltb_spec (inodes_count (superblock s)) n); cbn [orb];
    [rewrite bool_decide_eq_false_2 in HQ by lia; wp_steps; apply HQ; reflexivity..|].
  rewrite bool_decide_eq_true_2 in HQ by lia. destruct (io_place _ Hi n ltac:(lia)) as (b & o & Hp & Hb). rewrite Hp in HQ.
  wp_steps. eapply inode_place_spec; [done..|]. wp_steps. cbn [fst snd]. apply read_block_spec; [done|done|rewrite BUFFER_length; lia|].
  intros s' Hs'. wp_steps. destruct (place_offset s n b o Hi Hp) as (H1 & H2 & _). unfold INODE_SIZE.
  apply wp_bytes_in; [lia|rewrite length_app, blk_length; lia|]. wp_steps. cbn [mbind option_bind fst snd] in HQ.
  assert (take (Z.to_nat 128) (drop (Z.to_nat o) (blk (world s) b ++ drop 1024 (fresh E BUFFER))) = take 128 (drop (Z.to_nat o) (blk (world s) b))) as ->; [|by apply HQ].
  change (Z.to_nat 128) with 128%nat. rewrite drop_app_le by (rewrite blk_length; lia). apply take_app_le. rewrite length_drop, blk_length. lia.
Qed.

(** Inode [n] is [i] afterwards; its block changes only there. *)
Definition put_inode (n : Z) (i : inode) s s' : Prop := exists w b o,
  s' = set_world w s /\ place s n = Some (b, o) /\ blk w b = splice (blk (world s) b) (Z.to_nat o) (encode_inode i) /\
  forall m, m <> b -> blk w m = blk (world s) m.

Lemma write_inode_spec n i Q s : mounted s -> inodes_ok s -> 1 <= n <= inodes_count (superblock s) -> length (block i) = 15%nat -> length (rest i) = 28%nat /\ bytes_ok (rest i) ->
  (forall s', put_inode n i s s' -> Q 0 s') -> wp (write_inode E n i) Q s.
Proof.
  intros Hm Hi Hn Hb [Hr Hry] HQ. unfold write_inode. wp_steps.
  destruct (Z.ltb_spec n 1), (Z.ltb_spec (inodes_count (superblock s)) n); try lia. cbn [orb].
  destruct (io_place _ Hi n Hn) as (b & o & Hp & Hrg). wp_steps. eapply inode_place_spec; [done..|]. wp_steps. cbn [fst snd].
  apply read_block_spec; [done|done|rewrite BUFFER_length; lia|]. intros s1 Hs1. wp_steps.
  destruct (place_offset s n b o Hi Hp) as (H1 & H2 & _). pose proof (encode_length i Hb Hr) as He.
  apply wp_copy_to; [lia|rewrite length_app, blk_length, length_drop; lia|]. wp_steps.
  apply write_block_spec; [by eapply same_mounted|done|rewrite splice_length; rewrite length_app, blk_length; lia| |].
  { unfold splice. rewrite !Forall_app. split; [|split; [by apply encode_bytes|]]; [apply Forall_take|apply Forall_drop];
      (apply Forall_app; split; [apply blk_bytes|apply Forall_drop, fresh_bytes]). }
  intros s2 Hs2. wp_steps. cbn [Z.eqb negb]. apply HQ. assert (1024 <= Z.of_nat (length (take 1024 (splice (blk (world s) b ++ drop 1024 (fresh E BUFFER)) (Z.to_nat o) (encode_inode i))))) as Hl.
  { rewrite length_take, splice_length; rewrite length_app, blk_length, ?length_drop; pose proof BUFFER_length; lia. }
  destruct (written_blk _ _ _ _ Hs2 Hl) as [E1 E2]. destruct Hs1 as (w1 & -> & Hw1). destruct Hs2 as (w2 & -> & _). cbn [world set_world] in *.
  exists w2, b, o. split; [done|]. split; [done|]. split.
  - rewrite E1, take_take, Nat.min_id. unfold splice. rewrite (take_app_le (blk _ _)) by (rewrite blk_length; lia). rewrite (drop_app_le (blk _ _)) by (rewrite blk_length; lia).
    rewrite !app_assoc. apply take_app_length'. rewrite !length_app, length_take, length_drop, blk_length. lia.
  - intros m Hm'. rewrite E2 by done. unfold blk. apply map_ext. intros x. apply Hw1.
Qed.

Lemma slice_splice_same l o x : (o + length x <= length l)%nat -> take (length x) (drop o (splice l o x)) = x.
Proof.
  intros H. unfold splice. rewrite drop_app_ge by (rewrite length_take; lia). rewrite length_take, Nat.min_l, Nat.sub_diag, drop_0 by lia.
  by rewrite take_app_length.
Qed.

Lemma slice_splice_other (l x : list Z) o o' n : (o + length x <= length l)%nat -> (o' + n <= o \/ o + length x <= o')%nat ->
  take n (drop o' (splice l o x)) = take n (drop o' l).
Proof.
  intros Hl H. apply list_eq. intros j. destruct (decide (j < n)%nat) as [Hj|Hj]; [|by rewrite !lookup_take_ge by lia].
  rewrite !lookup_take_lt, !lookup_drop by done. unfold splice. destruct H as [H|H].
  - rewrite lookup_app_l by (rewrite length_take; lia). by rewrite lookup_take_lt by lia.
  - rewrite lookup_app_r by (rewrite length_take; lia). rewrite length_take, Nat.min_l by lia. rewrite lookup_app_r by lia. rewrite lookup_drop. f_equal. lia.
Qed.

Lemma put_inode_same n i s s' : inodes_ok s -> inode_wf i -> 1 <= n <= inodes_count (superblock s) -> put_inode n i s s' -> inode_at s' n = Some i.
Proof.
  intros Hi Hw Hn (w & b & o & -> & Hp & Hb & _). pose proof (encode_length i (proj1 (wf_block _ Hw)) (proj1 (wf_rest _ Hw))) as He.
  unfold inode_at. cbn [superblock set_world world]. rewrite bool_decide_eq_true_2 by done. change (place (set_world w s) n) with (place s n). rewrite Hp.
  cbn [mbind option_bind fst snd]. destruct (place_offset s n b o Hi Hp) as (H1 & H2 & _). rewrite Hb, <- He, slice_splice_same by (rewrite blk_length; lia).
  by rewrite decode_encode.
Qed.

Lemma put_inode_other n m i s s' : inodes_ok s -> length (block i) = 15%nat -> length (rest i) = 28%nat -> place s m <> place s n ->
  put_inode n i s s' -> inode_at s' m = inode_at s m.
Proof.
  intros Hi Hbl Hre Hne (w & b & o & -> & Hp & Hb & Ho). pose proof (encode_length i Hbl Hre) as He. unfold inode_at. cbn [superblock set_world world].
  change (place (set_world w s) m) with (place s m). destruct (bool_decide _); [|done]. destruct (place s m) as [[b' o']|] eqn:Hm; [|done].
  cbn [mbind option_bind fst snd]. destruct (decide (b' = b)) as [->|Hbb]; [|by rewrite Ho].
  destruct (place_offset s n b o Hi Hp) as (H1 & H2 & [x Hx]), (place_offset s m b o' Hi Hm) as (H3 & H4 & [y Hy]).
  rewrite Hb, slice_splice_other; [done|rewrite blk_length; lia|]. rewrite He. assert (x <> y) by (intros ->; apply Hne; rewrite Hp; do 2 f_equal; lia).
  destruct (Z.lt_ge_cases x y); lia.
Qed.

(** ** The blocks of a file *)

Definition word (l : list Z) (k : Z) : Z := le_value (take 4 (drop (Z.to_nat (4 * k)) l)).
Definition direct (i : inode) (k : nat) : Z := nth k (block i) 0.

(** The number that the entries lead to for block [k], whatever numbers the
    indirect blocks have, and what it holds: a block without a number is a hole. *)
Definition followed (w : D) (i : inode) (k : Z) : Z :=
  if k <? 12 then direct i (Z.to_nat k)
  else if k <? 268 then word (blk w (direct i 12)) (k - 12)
  else word (blk w (word (blk w (direct i 13)) ((k - 268) / 256))) ((k - 268) mod 256).
Definition file_block (w : D) (i : inode) (k : Z) : list Z :=
  if followed w i k =? 0 then replicate 1024 0 else blk w (followed w i k).

(** The blocks that lead to block [k] are on the device. *)
Record block_ok (w : D) (i : inode) (k : Z) : Prop := {
  b_index : 0 <= k < 65804;
  b_single : 12 <= k < 268 -> in_range (direct i 12);
  b_double : 268 <= k -> in_range (direct i 13) /\ in_range (word (blk w (direct i 13)) ((k - 268) / 256));
  b_number : followed w i k = 0 \/ in_range (followed w i k);
}.

Lemma same_followed s s' i k : same s s' -> followed (world s') i k = followed (world s) i k.
Proof. intros H. unfold followed. by rewrite !(same_blk _ _ _ H). Qed.
Lemma same_file_block s s' i k : same s s' -> file_block (world s') i k = file_block (world s) i k.
Proof. intros H. unfold file_block. by rewrite (same_followed _ _ _ _ H), !(same_blk _ _ _ H). Qed.
Lemma same_block_ok s s' i k : same s s' -> block_ok (world s) i k -> block_ok (world s') i k.
Proof.
  intros H [H1 H2 H3 H4]. split; [done|done| |by rewrite (same_followed _ _ _ _ H)]. by rewrite (same_blk _ _ _ H).
Qed.

Lemma file_block_length w i k : length (file_block w i k) = 1024%nat.
Proof. unfold file_block. case_if; [apply length_replicate|apply blk_length]. Qed.
Lemma file_block_bytes w i k : bytes_ok (file_block w i k).
Proof. unfold file_block. case_if; [by apply Forall_replicate|apply blk_bytes]. Qed.

Lemma entry_of_spec n k Q s : mounted s -> in_range n -> 0 <= k < 256 ->
  (forall s', same s s' -> Q (Some (word (blk (world s) n) k)) s') -> wp (entry_of E n k) Q s.
Proof.
  intros Hm Hn Hk HQ. unfold entry_of. wp_steps. rewrite (m_size _ Hm). change (1024 / 4 * 4) with 1024.
  apply read_block_spec; [done|done|rewrite fresh_length; lia|]. intros s' Hs'. wp_steps. rewrite drop_ge by (rewrite fresh_length; lia). rewrite app_nil_r.
  unfold num_at. wp_steps. apply wp_bytes_in; [lia|rewrite blk_length; lia|]. wp_steps. by apply HQ.
Qed.

Lemma direct_spec i (k : nat) Q s : length (block i) = 15%nat -> (k < 15)%nat -> Q (direct i k) s -> wp (deref (arr_get (block i) (Z.of_nat k))) Q s.
Proof.
  intros Hl Hk HQ. rewrite arr_get_nat, wp_deref. exists (direct i k). split; [|done]. unfold direct.
  destruct (lookup_lt_is_Some_2 (block i) k) as [x Hx]; [lia|]. rewrite Hx. f_equal. symmetry. by apply nth_lookup_Some.
Qed.

Lemma block_number_spec i k Q s : mounted s -> length (block i) = 15%nat -> block_ok (world s) i k ->
  (forall s', same s s' -> Q (inr (followed (world s) i k)) s') -> wp (block_number E i k) Q s.
Proof.
  intros Hm Hl [H0 H1 H2 _] HQ. unfold block_number. wp_steps. rewrite (m_size _ Hm). change (1024 / 4) with 256. cbv zeta. unfold followed in HQ.
  change (u32 (12 + 256)) with 268. change (u32 (12 + 256 + u32 (256 * 256))) with 65804.
  destruct (Z.ltb_spec k 12).
  { wp_steps. rewrite <- (Z2Nat.id k) by lia. apply direct_spec; [done|lia|]. wp_steps. apply HQ. reflexivity. }
  destruct (Z.ltb_spec k 268).
  { wp_steps. apply (direct_spec i 12); [done|lia|]. wp_steps. apply entry_of_spec; [done|apply H1; lia|lia|]. intros s' Hs'. wp_steps. auto. }
  destruct (Z.ltb_spec k 65804); [|lia]. change (256 =? 0) with false. cbv iota. rewrite u32_small by lia. replace (k - 12 - 256) with (k - 268) by lia.
  wp_steps. apply (direct_spec i 13); [done|lia|]. destruct H2 as [Hd1 Hd2]; [lia|]. wp_steps.
  apply entry_of_spec; [done|done|split; [apply Z.div_pos; lia|apply Z.div_lt_upper_bound; lia]|]. intros s1 Hs1. wp_steps.
  apply entry_of_spec; [by eapply same_mounted|done|apply Z.mod_pos_bound; lia|]. intros s2 Hs2. wp_steps. rewrite (same_blk _ _ _ Hs1). apply HQ. by etrans.
Qed.

Lemma read_file_block_spec i k buf Q s : mounted s -> length (block i) = 15%nat -> block_ok (world s) i k -> 1024 <= Z.of_nat (length buf) ->
  (forall s', same s s' -> Q (0, file_block (world s) i k ++ drop 1024 buf) s') -> wp (read_file_block E i k buf) Q s.
Proof.
  intros Hm Hl Hb Hbuf HQ. unfold read_file_block. wp_steps. apply block_number_spec; [done..|]. intros s1 Hs1. wp_steps. unfold file_block in HQ.
  destruct (Z.eqb_spec (followed (world s) i k) 0) as [Hz|Hz].
  - wp_steps. rewrite (m_size _ (same_mounted _ _ Hs1 Hm)). apply wp_copy_to; [lia|rewrite length_replicate; lia|]. wp_steps.
    change (Z.to_nat 1024) with 1024%nat. change (Z.to_nat 0) with 0%nat. unfold splice. rewrite length_replicate. by apply HQ.
  - destruct (b_number _ _ _ Hb) as [|Hr]; [done|]. wp_steps. apply read_block_spec; [by eapply same_mounted|done|done|]. intros s2 Hs2. wp_steps.
    rewrite (same_blk _ _ _ Hs1). apply HQ. by etrans.
Qed.

(** ** Directories *)

Definition val (buf : list Z) (off n : Z) : Z := le_value (take (Z.to_nat n) (drop (Z.to_nat off) buf)).

(** The records of a block of a directory, up to the first that is empty. *)
Fixpoint entries (fuel : nat) (buf : list Z) (off : Z) : list (Z * list Z) :=
  match fuel with
  | O => []
  | S fuel' =>
      if (1024 <=? off) || (val buf (off + 4) 2 =? 0) || (val buf off 4 =? 0) then []
      else (val buf off 4, take (Z.to_nat (val buf (off + 6) 1)) (drop (Z.to_nat (off + 8)) buf)) :: entries fuel' buf (off + val buf (off + 4) 2)
  end.

Definition dir_buf (w : D) (i : inode) (k : Z) : list Z := file_block w i k ++ drop 1024 (fresh E BUFFER).

Fixpoint dir_from (w : D) (i : inode) (k : Z) (n : nat) : list (Z * list Z) :=
  match n with O => [] | S n' => entries (Z.to_nat 1024) (dir_buf w i k) 0 ++ dir_from w i (k + 1) n' end.

Definition blocks_in (sz : Z) : Z := (sz + 1023) / 1024.
Definition dir_entries (w : D) (i : inode) : list (Z * list Z) := dir_from w i 0 (Z.to_nat (blocks_in (size i))).

(** The number under a name, 0 when there is none. *)
Definition lookup_name (name : list Z) (es : list (Z * list Z)) : Z :=
  match find (fun e => bool_decide (snd e = name)) es with Some e => fst e | None => 0 end.

Lemma val_range buf off n : bytes_ok buf -> 0 <= off -> 0 <= n -> off + n <= Z.of_nat (length buf) -> 0 <= val buf off n < 256 ^ n.
Proof.
  intros Hb H0 Hn Hl. unfold val. pose proof (le_value_range (take (Z.to_nat n) (drop (Z.to_nat off) buf))) as H.
  rewrite length_take, length_drop, Nat.min_l, Z2Nat.id in H by lia. apply H. by apply Forall_take, Forall_drop.
Qed.

Lemma num_at_spec buf off n Q s : 0 <= off -> 0 <= n -> off + n <= Z.of_nat (length buf) -> Q (val buf off n) s -> wp (num_at buf off n) Q s.
Proof. intros H0 _. by apply wp_num_at. Qed.

Lemma dir_buf_length w i k : length (dir_buf w i k) = 4096%nat.
Proof. unfold dir_buf. rewrite length_app, file_block_length, length_drop, fresh_length. done. Qed.
Lemma dir_buf_bytes w i k : bytes_ok (dir_buf w i k).
Proof. apply Forall_app. split; [apply file_block_bytes|apply Forall_drop, fresh_bytes]. Qed.

Lemma entries_nonzero fuel : forall buf off, Forall (fun e => fst e <> 0) (entries fuel buf off).
Proof.
  induction fuel as [|fuel IH]; intros buf off; cbn [entries]; [constructor|]. case_if; [constructor|]. constructor; [|apply IH]. bools. done.
Qed.

Lemma find_entry_spec fuel : forall buf off name Q s, mounted s -> length buf = 4096%nat -> bytes_ok buf -> 0 <= off -> 1024 - off <= Z.of_nat fuel ->
  Q (lookup_name name (entries fuel buf off)) s -> wp (find_entry fuel buf off name) Q s.
Proof.
  induction fuel as [|fuel IH]; intros buf off name Q s Hm Hl Hb Ho Hf HQ; cbn [find_entry entries] in *; wp_steps; rewrite (m_size _ Hm);
    (destruct (Z.leb_spec 1024 off); [wp_steps; exact HQ|]); [lia|]. cbn [orb] in HQ. wp_steps. apply num_at_spec; [lia|lia|lia|].
  destruct (Z.eqb_spec (val buf (off + 4) 2) 0); [wp_steps; exact HQ|]. cbn [orb] in HQ. wp_steps. apply num_at_spec; [lia|lia|lia|].
  destruct (Z.eqb_spec (val buf off 4) 0); [wp_steps; exact HQ|]. wp_steps. apply num_at_spec; [lia|lia|lia|].
  pose proof (val_range buf (off + 6) 1 Hb ltac:(lia) ltac:(lia) ltac:(lia)) as Hv. change (256 ^ 1) with 256 in Hv.
  pose proof (val_range buf (off + 4) 2 Hb ltac:(lia) ltac:(lia) ltac:(lia)) as Hr.
  set (nm := take (Z.to_nat (val buf (off + 6) 1)) (drop (Z.to_nat (off + 8)) buf)) in *.
  assert (length nm = Z.to_nat (val buf (off + 6) 1)) as Hnm by (unfold nm; rewrite length_take, length_drop; lia).
  unfold lookup_name in HQ. cbn [find snd] in HQ. destruct (bool_decide_reflect (nm = name)) as [Hn|Hn].
  - destruct (Z.eqb_spec (val buf (off + 6) 1) (Z.of_nat (length name))); [|subst name; lia]. wp_steps. apply wp_bytes_in; [lia|lia|]. wp_steps.
    fold nm. rewrite bool_decide_eq_true_2 by done. wp_steps. exact HQ.
  - assert (wp (find_entry fuel buf (off + val buf (off + 4) 2) name) Q s) as Hnext by (apply IH; [done|done|done|lia|lia|exact HQ]).
    destruct (Z.eqb_spec (val buf (off + 6) 1) (Z.of_nat (length name))); wp_steps; [|exact Hnext]. apply wp_bytes_in; [lia|lia|]. wp_steps.
    fold nm. by rewrite bool_decide_eq_false_2 by done.
Qed.

Lemma lookup_app name es es' : Forall (fun e => fst e <> 0) es ->
  lookup_name name (es ++ es') = if lookup_name name es =? 0 then lookup_name name es' else lookup_name name es.
Proof.
  unfold lookup_name. induction 1 as [|e es He _ IH]; [done|]. cbn [app find]. case_if; [|exact IH]. by destruct (Z.eqb_spec (fst e) 0).
Qed.

(** The blocks of the first [sz] bytes are on the device. *)
Definition blocks_ok (w : D) (i : inode) (sz : Z) : Prop := forall k, 0 <= k -> 1024 * k < sz -> block_ok w i k.

Lemma same_blocks_ok s s' i sz : same s s' -> blocks_ok (world s) i sz -> blocks_ok (world s') i sz.
Proof. intros H Hb k H0 Hk. eapply same_block_ok; [done|]. by apply Hb. Qed.

Lemma same_dir_from s s' i n : forall k, same s s' -> dir_from (world s') i k n = dir_from (world s) i k n.
Proof.
  induction n as [|n IH]; intros k H; [done|]. cbn [dir_from]. unfold dir_buf. by rewrite (same_file_block _ _ _ _ H), IH.
Qed.

Lemma blocks_ok_size w i sz : blocks_ok w i sz -> sz <= 1024 * 65804.
Proof. intros H. destruct (Z.le_gt_cases sz (1024 * 65804)); [done|]. destruct (H 65804 ltac:(lia) ltac:(lia)) as [? _ _ _]. lia. Qed.

Lemma blocks_in_spec sz k : 0 <= sz -> 1024 * k < sz <-> k < blocks_in sz.
Proof. intros H. unfold blocks_in. pose proof (Z.div_mod (sz + 1023) 1024). pose proof (Z.mod_pos_bound (sz + 1023) 1024). lia. Qed.

(** A buffer of which at most the first 1024 bytes have been overwritten. *)
Record buf_ok (buf : list Z) : Prop := {
  bo_length : length buf = 4096%nat;
  bo_tail : drop 1024 buf = drop 1024 (fresh E BUFFER);
}.

Lemma buf_fresh : buf_ok (fresh E BUFFER).
Proof. split; [by rewrite fresh_length|done]. Qed.
Lemma dir_buf_ok w i k : buf_ok (dir_buf w i k).
Proof. split; [apply dir_buf_length|]. unfold dir_buf. by rewrite <- (file_block_length w i k), drop_app_length. Qed.

(** Reading block [k] of a directory into such a buffer. *)
Lemma read_dir_block i k buf Q s : mounted s -> length (block i) = 15%nat -> block_ok (world s) i k -> buf_ok buf ->
  (forall s', same s s' -> Q (0, dir_buf (world s) i k) s') -> wp (read_file_block E i k buf) Q s.
Proof.
  intros Hm Hl Hb [Hlen Ht] HQ. apply read_file_block_spec; [done|done|done|lia|]. rewrite Ht. exact HQ.
Qed.

Lemma dir_from_S w i k n : dir_from w i k (S n) = entries (Z.to_nat 1024) (dir_buf w i k) 0 ++ dir_from w i (k + 1) n.
Proof. reflexivity. Qed.

Lemma find_in_spec i name : length (block i) = 15%nat -> 0 <= size i -> forall fuel k buf Q s, mounted s -> blocks_ok (world s) i (size i) ->
  0 <= k -> blocks_in (size i) - k <= Z.of_nat fuel -> buf_ok buf ->
  (forall s', same s s' -> Q (Some (lookup_name name (dir_from (world s) i k (Z.to_nat (blocks_in (size i) - k))))) s') ->
  wp (find_in E fuel i (1024 * k) k buf name) Q s.
Proof.
  intros Hl Hsz. induction fuel as [|fuel IH]; intros k buf Q s Hm Hb Hk Hf Hbuf HQ; cbn [find_in];
    pose proof (blocks_in_spec (size i) k Hsz) as Hbi; (destruct (Z.leb_spec (size i) (1024 * k));
    [wp_steps; replace (Z.to_nat (blocks_in (size i) - k)) with 0%nat in HQ by lia; by apply HQ|]); [lia|].
  wp_steps. apply read_dir_block; [done|done|by apply Hb|done|]. intros s1 Hs1. cbn [fst snd Z.eqb negb]. wp_steps.
  assert (mounted s1) as Hm1 by by eapply same_mounted. rewrite (m_size _ Hm1).
  replace (Z.to_nat (blocks_in (size i) - k)) with (S (Z.to_nat (blocks_in (size i) - (k + 1)))) in HQ by lia.
  rewrite dir_from_S, lookup_app in HQ by apply entries_nonzero.
  apply find_entry_spec; [done|apply dir_buf_length|apply dir_buf_bytes|lia|lia|]. destruct (lookup_name name (entries (Z.to_nat 1024) (dir_buf (world s) i k) 0) =? 0).
  - pose proof (blocks_ok_size _ _ _ Hb). rewrite (u32_small (1024 * k + 1024)), u32_small by lia. replace (1024 * k + 1024) with (1024 * (k + 1)) by lia.
    apply IH; [done|by eapply same_blocks_ok|lia|lia|apply dir_buf_ok|]. intros s2 Hs2. rewrite (same_dir_from _ _ _ _ _ Hs1). apply HQ. by etrans.
  - wp_steps. by apply HQ.
Qed.

(** ** Paths *)

Definition is_dir (i : inode) : bool := Z.land (mode i) EXT2_S_IFMT =? EXT2_S_IFDIR.

(** The inode under a list of names, starting at inode [n]. *)
Fixpoint resolve s (n : Z) (names : list (list Z)) : option Z :=
  match names with
  | [] => Some n
  | name :: names' =>
      i ← inode_at s n;
      if is_dir i then
        let m := lookup_name name (dir_entries (world s) i) in if m =? 0 then None else resolve s m names'
      else None
  end.

Fixpoint join (names : list (list Z)) : list Z :=
  match names with
  | [] => []
  | [name] => name
  | name :: names' => name ++ SLASH :: join names'
  end.

Definition name_ok (name : list Z) : Prop := (0 < length name <= 255)%nat /\ Forall (fun c => c <> SLASH) name.

(** The blocks of every directory are on the device. *)
Definition dirs_ok s : Prop := forall n i, inode_at s n = Some i -> is_dir i = true -> blocks_ok (world s) i (size i).

Lemma inode_at_wf s n i : inodes_ok s -> inode_at s n = Some i -> length (block i) = 15%nat /\ 0 <= size i < 2 ^ 32 /\ inode_wf i.
Proof.
  intros Hi H. unfold inode_at in H. destruct (bool_decide _); [|done]. destruct (place s n) as [[b o]|] eqn:Hp; [|done]. cbn [mbind option_bind fst snd] in H.
  injection H as <-. destruct (place_offset s n b o Hi Hp) as (H1 & H2 & _). set (l := take 128 (drop (Z.to_nat o) (blk (world s) b))).
  assert (length l = 128%nat) as Hl by (unfold l; rewrite length_take, length_drop, blk_length; lia).
  assert (bytes_ok l) as Hb by (unfold l; apply Forall_take, Forall_drop, blk_bytes).
  assert (forall (off m : nat), (off + m <= 128)%nat -> 0 <= field l off m < 256 ^ Z.of_nat m) as Hfield.
  { intros off m Hm. unfold field. pose proof (le_value_range (take m (drop off l))) as H. rewrite length_take, length_drop, Nat.min_l in H by lia.
    apply H. by apply Forall_take, Forall_drop. }
  assert (length (block (decode_inode l)) = 15%nat) as Hbl.
  { cbn [block decode_inode]. unfold words. rewrite length_map, length_seq, length_take, length_drop, Hl. done. }
  split; [done|]. split; [apply (Hfield 4%nat 4%nat); lia|].
  split; cbn [mode uid size atime ctime mtime dtime gid links_count blocks flags osd1 rest decode_inode]; try (apply (Hfield _ 2%nat); lia); try (apply (Hfield _ 4%nat); lia).
  - split; [done|]. cbn [block decode_inode]. apply Forall_forall. intros x (k & -> & Hk%elem_of_seq)%list_elem_of_fmap.
    rewrite length_take, length_drop, Hl in Hk. change ((60 `min` (128 - 40)) / 4)%nat with 15%nat in Hk.
    unfold field. pose proof (le_value_range (take 4 (drop (4 * k) (take 60 (drop 40 l))))) as H. rewrite !length_take, !length_drop, length_take, length_drop, Hl in H.
    rewrite Nat.min_l in H by lia. apply H. by apply Forall_take, Forall_drop, Forall_take, Forall_drop.
  - split; [rewrite length_take, length_drop; lia|by apply Forall_take, Forall_drop].
Qed.

Lemma component_name n : forall name tail, (length name <= n)%nat -> Forall (fun c => c <> SLASH) name ->
  match tail with [] => True | c :: _ => c = SLASH end -> component n (name ++ tail) = (name, tail).
Proof.
  induction n as [|n IH]; intros name tail Hn Hs Ht; destruct name as [|c name]; try (cbn in Hn; lia).
  - done.
  - destruct tail as [|c tail]; [done|]. cbn [app component]. subst c. by rewrite Z.eqb_refl.
  - apply Forall_cons in Hs as [Hc Hs]. cbn [app component]. destruct (Z.eqb_spec c SLASH); [done|]. rewrite IH; [done|cbn in Hn; lia|done|done].
Qed.

Lemma rounds_enough i : 0 <= size i -> blocks_in (size i) <= Z.of_nat (rounds i).
Proof.
  intros H. unfold rounds, blocks_in. pose proof (Z.div_pos (size i) 1024 H ltac:(lia)). rewrite Z2Nat.id by lia.
  apply Z.lt_succ_r, Z.div_lt_upper_bound; [lia|]. pose proof (Z.div_mod (size i) 1024). pose proof (Z.mod_pos_bound (size i) 1024). lia.
Qed.

Lemma same_resolve s s' names : same s s' -> forall n, resolve s' n names = resolve s n names.
Proof.
  intros H. induction names as [|name names IH]; intros n; [done|]. cbn [resolve]. rewrite (same_inode_at _ _ _ H).
  destruct (inode_at s n) as [i|]; [|done]. cbn. destruct (is_dir i); [|done]. unfold dir_entries. rewrite (same_dir_from _ _ _ _ _ H). by case_if.
Qed.

Lemma same_dirs_ok s s' : same s s' -> dirs_ok s -> dirs_ok s'.
Proof. intros H Hd n i Hn Hi. rewrite (same_inode_at _ _ _ H) in Hn. eapply same_blocks_ok; [done|]. by eapply Hd. Qed.

Lemma walk_spec names : forall fuel n Q s, mounted s -> inodes_ok s -> dirs_ok s -> Forall name_ok names -> (length (join names) <= fuel)%nat ->
  (forall s', same s s' -> Q (default 0 (resolve s n names)) s') -> wp (walk E fuel n (join names)) Q s.
Proof.
  induction names as [|name names IH]; intros fuel n Q s Hm Hi Hd Hn Hf HQ.
  { destruct fuel; cbn [walk join]; wp_steps; by apply HQ. }
  apply Forall_cons in Hn as [[Hl Hs] Hn].
  assert (join (name :: names) = name ++ match names with [] => [] | _ => SLASH :: join names end) as Ej.
  { destruct names; cbn [join]; [by rewrite app_nil_r|done]. }
  rewrite Ej in *. set (tail := match names with [] => [] | _ => SLASH :: join names end) in *.
  assert (component 255 (name ++ tail) = (name, tail)) as Ec by (apply component_name; [lia|done|by unfold tail; destruct names]).
  assert (skip_slash tail = join names) as Et by (unfold tail; by destruct names).
  destruct fuel as [|fuel]; [rewrite length_app in Hf; lia|]. destruct (name ++ tail) as [|c p] eqn:Ep; [destruct name; [cbn in Hl; lia|done]|].
  cbn [walk]. rewrite Ec. wp_steps. apply read_inode_spec; [done|done|]. intros s1 Hs1. cbn [resolve] in HQ.
  destruct (inode_at s n) as [i|] eqn:Hin; [|wp_steps; by apply HQ]. cbn [mbind option_bind] in HQ. fold (is_dir i).
  destruct (is_dir i) eqn:Hdir; cbn [negb]; [|wp_steps; by apply HQ]. destruct (inode_at_wf s n i Hi Hin) as (Hbl & Hsz & _). wp_steps.
  pose proof (Hd n i Hin Hdir) as Hbk.
  apply (find_in_spec i name Hbl ltac:(lia) (rounds i) 0); [by eapply same_mounted|by eapply same_blocks_ok|lia|pose proof (rounds_enough i); lia|apply buf_fresh|].
  intros s2 Hs2. rewrite Z.sub_0_r, (same_dir_from _ _ _ _ _ Hs1). fold (dir_entries (world s) i). wp_steps. assert (same s s2) as Hss by by etrans.
  destruct (lookup_name name (dir_entries (world s) i) =? 0); [wp_steps; by apply HQ|]. rewrite Et.
  apply IH; [by eapply same_mounted|by eapply same_inodes|by eapply same_dirs_ok|done|..].
  - assert (length (name ++ tail) <= S fuel)%nat as Hlen by by rewrite Ep. rewrite length_app in Hlen. unfold tail in Hlen. destruct names; cbn [join length] in *; lia.
  - intros s3 Hs3. rewrite (same_resolve _ _ _ Hss). apply HQ. by etrans.
Qed.

Lemma path_spec names Q s : mounted s -> inodes_ok s -> dirs_ok s -> Forall name_ok names ->
  (forall s', same s s' -> Q (default 0 (resolve s ROOT_INODE names)) s') -> wp (path_to_inode E (Some (SLASH :: join names))) Q s.
Proof.
  intros Hm Hi Hd Hn HQ. unfold path_to_inode. case_bool_decide as Hp.
  - destruct names as [|name names]; [wp_steps; by apply HQ|]. exfalso. apply Forall_cons in Hn as [[Hl _] _].
    assert (length (join (name :: names)) = 0%nat) as H0 by (apply (f_equal length) in Hp; cbn [length] in Hp; lia). destruct names; cbn [join] in H0; rewrite ?length_app in H0; lia.
  - cbn [skip_slash]. rewrite Z.eqb_refl. apply walk_spec; [done..|cbn [length]; lia|done].
Qed.

Lemma ext2_open names Q s : mounted s -> inodes_ok s -> dirs_ok s -> Forall name_ok names ->
  (forall s', same s s' -> Q (match resolve s ROOT_INODE names with
                              | Some n => if n =? 0 then inl EXT2_ERR_NOT_FOUND else
                                  match inode_at s n with Some i => inr (n, i) | None => inl EXT2_ERR_IO_ERROR end
                              | None => inl EXT2_ERR_NOT_FOUND end) s') -> wp (open_path E (Some (SLASH :: join names))) Q s.
Proof.
  intros Hm Hi Hd Hn HQ. unfold open_path. wp_steps. apply path_spec; [done..|]. intros s1 Hs1.
  destruct (resolve s ROOT_INODE names) as [n|]; cbn [default from_option]; unfold id; [|wp_steps; by apply HQ].
  destruct (n =? 0); [wp_steps; by apply HQ|]. wp_steps.
  apply read_inode_spec; [by eapply same_mounted|by eapply same_inodes|]. intros s2 Hs2. wp_steps. rewrite (same_inode_at _ _ _ Hs1).
  assert (same s s2) as Hs by by etrans. by destruct (inode_at s n) as [i|]; apply HQ.
Qed.

(** Resolving a path. On a consistent volume an absolute path resolves to the inode that its
    names lead to, from the root directory through the records of one directory after the other
    (0 when a name is missing, or when something that is not a directory is on the way); the
    volume stays as it is. *)
Theorem ext2_path_exact names s : mounted s -> inodes_ok s -> dirs_ok s -> Forall name_ok names ->
  wp (path_to_inode E (Some (SLASH :: join names))) (fun n s' => same s s' /\ n = default 0 (resolve s ROOT_INODE names)) s.
Proof. intros Hm Hi Hd Hn. by apply path_spec. Qed.

(** ** Files *)

(** The first [total] bytes of a file. *)
Definition contents (w : D) (i : inode) (total : Z) : list Z :=
  take (Z.to_nat total) (concat (map (file_block w i) (seqZ 0 (blocks_in total)))).

Lemma read_loop_spec i total : length (block i) = 15%nat -> 0 <= total -> forall n k out Q s, mounted s -> blocks_ok (world s) i total ->
  0 <= k -> Z.of_nat n = blocks_in total - k -> Z.of_nat (length out) = Z.min total (1024 * k) ->
  (forall s', same s s' -> Q (total, out ++ take (Z.to_nat (total - 1024 * k)) (concat (map (file_block (world s) i) (seqZ k (Z.of_nat n))))) s') ->
  wp (read_loop E n k i total out) Q s.
Proof.
  intros Hl Ht. induction n as [|n IH]; intros k out Q s Hm Hb Hk Hn Hout HQ; cbn [read_loop]; pose proof (blocks_in_spec total k Ht) as Hbi;
    pose proof (blocks_ok_size _ _ _ Hb) as Hsz.
  { wp_steps. change (seqZ k (Z.of_nat 0)) with (@nil Z) in HQ. cbn [map concat] in HQ. rewrite take_nil, app_nil_r in HQ. rewrite Hout, Z.min_l by lia. rewrite to_int_small by lia. by apply HQ. }
  wp_steps. apply read_file_block_spec; [done|done|apply Hb; lia|pose proof BUFFER_length; lia|]. intros s1 Hs1. cbn [fst snd]. change (0 <? 0) with false.
  cbv iota. assert (mounted s1) as Hm1 by by eapply same_mounted. wp_steps. rewrite (m_size _ Hm1), Hout, Z.min_r by lia. rewrite (u32_small (1024 * k + 1024)) by lia.
  set (chunk := if total <? 1024 * k + 1024 then u32 (total - 1024 * k) else 1024).
  assert (chunk = Z.min 1024 (total - 1024 * k)) as Hc by (unfold chunk; destruct (Z.ltb_spec total (1024 * k + 1024)); rewrite ?u32_small by lia; lia).
  clearbody chunk. apply wp_bytes_in; [lia|rewrite length_app, file_block_length; lia|]. change (Z.to_nat 0) with 0%nat. rewrite drop_0.
  rewrite take_app_le by (rewrite file_block_length; lia). apply IH; [done|by eapply same_blocks_ok|lia|lia|rewrite length_app, length_take, file_block_length; lia|].
  intros s2 Hs2. assert (concat (map (file_block (world s) i) (seqZ k (Z.of_nat (S n)))) =
    file_block (world s) i k ++ concat (map (file_block (world s) i) (seqZ (k + 1) (Z.of_nat n)))) as Eq.
  { rewrite seqZ_cons by lia. replace (Z.pred (Z.of_nat (S n))) with (Z.of_nat n) by lia. replace (Z.succ k) with (k + 1) by lia. done. }
  rewrite Eq in HQ. rewrite take_app, file_block_length in HQ. rewrite (map_ext _ _ (fun x => same_file_block _ _ i x Hs1)). rewrite <- app_assoc.
  replace (Z.to_nat (total - 1024 * (k + 1))) with (Z.to_nat (total - 1024 * k) - 1024)%nat by lia.
  assert (take (Z.to_nat chunk) (file_block (world s) i k) = take (Z.to_nat (total - 1024 * k)) (file_block (world s) i k)) as ->.
  { rewrite Hc. destruct (Z.le_gt_cases (total - 1024 * k) 1024); [by rewrite Z.min_r by lia|]. rewrite Z.min_l by lia.
    rewrite !take_ge by (rewrite file_block_length; lia). done. }
  apply HQ. by etrans.
Qed.

(** The number of block [k] by the format: 0 at any level stands for a hole, so
    nothing lies below an indirect block without a number. *)
Definition below (w : D) (n k : Z) : Z := if n =? 0 then 0 else word (blk w n) k.
Definition number (w : D) (i : inode) (k : Z) : Z :=
  if k <? 12 then direct i (Z.to_nat k)
  else if k <? 268 then below w (direct i 12) (k - 12)
  else below w (below w (direct i 13) ((k - 268) / 256)) ((k - 268) mod 256).

(** The first [total] bytes of a file: zeros for the blocks without a number. *)
Definition bytes_of (w : D) (i : inode) (total : Z) : list Z :=
  take (Z.to_nat total) (concat (map (fun k =>
    if number w i k =? 0 then replicate 1024 0 else blk w (number w i k)) (seqZ 0 (blocks_in total)))).

(** The indirect blocks on the way to the first [total] bytes exist. *)
Definition indirect_present (w : D) (i : inode) (total : Z) : Prop :=
  (12 * 1024 < total -> direct i 12 <> 0) /\
  (forall k, 268 <= k -> 1024 * k < total ->
     direct i 13 <> 0 /\ word (blk w (direct i 13)) ((k - 268) / 256) <> 0).

Lemma number_followed w i total k : indirect_present w i total -> 0 <= k -> 1024 * k < total ->
  number w i k = followed w i k.
Proof.
  intros [H1 H2] H0 Hk. unfold number, followed, below. destruct (Z.ltb_spec k 12); [done|].
  destruct (Z.ltb_spec k 268); [destruct (Z.eqb_spec (direct i 12) 0); [lia|done]|].
  destruct (H2 k) as [Ha Hb]; [lia..|]. destruct (Z.eqb_spec (direct i 13) 0); [done|].
  by destruct (Z.eqb_spec (word (blk w (direct i 13)) ((k - 268) / 256)) 0).
Qed.

Lemma bytes_of_contents w i total : 0 <= total -> indirect_present w i total -> contents w i total = bytes_of w i total.
Proof.
  intros Ht Hp. unfold contents, bytes_of. do 2 f_equal. apply map_ext_in. intros k Hk%list_elem_of_In%elem_of_seqZ.
  pose proof (blocks_in_spec total k Ht). unfold file_block. by rewrite (number_followed w i total k) by (done || lia).
Qed.

(** C22. Reading a file. On a consistent volume with blocks of 1024 bytes [ext2_read_file] of a
    path that leads to a regular file stores the first bytes of the file, as many as the file and
    the caller's buffer have, block by block through the direct, indirect and doubly indirect block
    numbers, with zeros for blocks without a number, and returns their count; disc and mount stay
    as they are. The indirect blocks on the way must exist (where an indirect block itself has no
    number, the code reads block 0 of the device in its place), the blocks lie on the device, and
    the part of the file read ends below the triply indirect blocks. *)
Theorem ext2_read_file_exact names n i sz s : mounted s -> inodes_ok s -> dirs_ok s -> Forall name_ok names ->
  resolve s ROOT_INODE names = Some n -> n <> 0 -> inode_at s n = Some i -> is_type i EXT2_S_IFREG = true -> 0 <= sz < 2 ^ 31 ->
  let total := Z.min (size i) sz in blocks_ok (world s) i total -> indirect_present (world s) i total ->
  wp (ext2_read_file E (Some (SLASH :: join names)) sz) (fun r s' => same s s' /\ r = (total, bytes_of (world s) i total)) s.
Proof.
  intros Hm Hi Hd Hn Hr Hn0 Hin Hreg Hsz total Hb Hind. unfold ext2_read_file. wp_steps. apply ext2_open; [done..|]. intros s1 Hs1. rewrite Hr, Hin.
  destruct (Z.eqb_spec n 0); [done|]. rewrite Hreg. cbn [negb]. wp_steps. assert (mounted s1) as Hm1 by by eapply same_mounted. rewrite (m_size _ Hm1).
  change (1024 =? 0) with false. cbv iota. destruct (inode_at_wf s n i Hi Hin) as (Hbl & Hs & _). rewrite (u32_small sz) by lia.
  assert ((if size i <? sz then size i else sz) = total) as -> by (unfold total; destruct (Z.ltb_spec (size i) sz); lia).
  assert (0 <= total) as Ht by lia. pose proof (blocks_ok_size _ _ _ Hb) as Hts. clearbody total.
  rewrite <- bytes_of_contents by done.
  rewrite (u32_small (total + 1024)) by lia. rewrite u32_small by lia. replace ((total + 1024 - 1) / 1024) with (blocks_in total) by (unfold blocks_in; f_equal; lia).
  assert (0 <= blocks_in total) as Hb0 by (apply Z.div_pos; lia).
  apply (read_loop_spec i total Hbl Ht); [done|by eapply same_blocks_ok|lia|lia|cbn; lia|]. intros s2 Hs2. split; [by etrans|].
  rewrite Z.mul_0_r, Z.sub_0_r, Z2Nat.id by done. cbn [app]. rewrite (map_ext _ _ (fun x => same_file_block _ _ i x Hs1)). done.
Qed.

(** Long symbolic links cannot be read: for a link whose target has more than 60 characters
    [ext2_readlink] calls [ext2_read_file], which refuses everything but regular files. *)
Theorem ext2_long_link_unreadable names n i sz s : mounted s -> inodes_ok s -> dirs_ok s -> Forall name_ok names ->
  resolve s ROOT_INODE names = Some n -> n <> 0 -> inode_at s n = Some i -> is_type i EXT2_S_IFLNK = true -> 60 < size i ->
  wp (ext2_readlink E (Some (SLASH :: join names)) sz) (fun r s' => same s s' /\ r = (EXT2_ERR_INVALID_ARG, [])) s.
Proof.
  intros Hm Hi Hd Hn Hr Hn0 Hin Hl Hsz. unfold ext2_readlink. wp_steps. apply ext2_open; [done..|]. intros s1 Hs1. rewrite Hr, Hin.
  destruct (Z.eqb_spec n 0); [done|]. rewrite Hl. cbn [negb]. destruct (Z.leb_spec (size i) 60); [lia|]. unfold ext2_read_file. wp_steps.
  apply ext2_open; [by eapply same_mounted|by eapply same_inodes|by eapply same_dirs_ok|done|]. intros s2 Hs2. rewrite (same_resolve _ _ _ Hs1), Hr.
  destruct (Z.eqb_spec n 0); [done|]. rewrite (same_inode_at _ _ _ Hs1), Hin.
  assert (is_type i EXT2_S_IFREG = false) as ->; [|cbn [negb]; wp_steps; split; [by etrans|done]].
  unfold is_type in *. apply Z.eqb_eq in Hl. rewrite Hl. done.
Qed.

(** ** Listings *)

Definition listed s (e : Z * list Z) : option file_entry :=
  if dots (snd e) then None
  else i ← inode_at s (fst e);
    Some (mk_file (snd e) (mode i) (size i) (fst e) (atime i) (ctime i) (mtime i) (links_count i) (uid i) (gid i)).

Lemma same_listed s s' (es : list (Z * list Z)) : same s s' -> omap (listed s') es = omap (listed s) es.
Proof.
  intros H. assert (forall e, listed s' e = listed s e) as He by (intros e; unfold listed; by rewrite (same_inode_at _ _ _ H)).
  induction es as [|e es IH]; [done|]. cbn. by rewrite He, IH.
Qed.

(** [out] and as many of [l] as still fit. *)
Definition fill (max : Z) (out l : list file_entry) : list file_entry := out ++ take (Z.to_nat (max - Z.of_nat (length out))) l.

Lemma fill_full max out l : max <= Z.of_nat (length out) -> fill max out l = out.
Proof. intros H. unfold fill. replace (Z.to_nat (max - Z.of_nat (length out))) with 0%nat by lia. by rewrite take_0, app_nil_r. Qed.
Lemma fill_cons max out x l : Z.of_nat (length out) < max -> fill max out (x :: l) = fill max (out ++ [x]) l.
Proof.
  intros H. unfold fill. rewrite length_app. cbn [length].
  replace (Z.to_nat (max - Z.of_nat (length out))) with (S (Z.to_nat (max - Z.of_nat (length out + 1)))) by lia. cbn [take]. by rewrite <- app_assoc.
Qed.
Lemma fill_fill max out l l' : fill max (fill max out l) l' = fill max out (l ++ l').
Proof.
  unfold fill. rewrite take_app, <- app_assoc. do 2 f_equal. rewrite length_app, length_take. f_equal. lia.
Qed.

Lemma list_entries_spec max fuel : forall buf off out Q s, mounted s -> inodes_ok s -> length buf = 4096%nat -> bytes_ok buf -> 0 <= off -> 1024 - off <= Z.of_nat fuel ->
  (forall s', same s s' -> Q (fill max out (omap (listed s) (entries fuel buf off))) s') -> wp (list_entries E fuel buf off max out) Q s.
Proof.
  induction fuel as [|fuel IH]; intros buf off out Q s Hm Hi Hl Hb Ho Hf HQ; cbn [list_entries]; wp_steps; rewrite (m_size _ Hm);
    (destruct (Z.leb_spec max (Z.of_nat (length out))); [rewrite orb_true_r; wp_steps; rewrite fill_full in HQ by done; by apply HQ|rewrite orb_false_r]);
    cbn [entries] in HQ; (destruct (Z.leb_spec 1024 off); [wp_steps; cbn [orb omap list_omap] in HQ; unfold fill in HQ; rewrite take_nil, app_nil_r in HQ; by apply HQ|]);
    [lia|].
  assert (forall out, fill max out (omap (listed s) []) = out) as Hnil by (intros; unfold fill; cbn [omap list_omap]; by rewrite take_nil, app_nil_r).
  cbn [orb] in HQ. wp_steps. apply num_at_spec; [lia|lia|lia|].
  destruct (Z.eqb_spec (val buf (off + 4) 2) 0); [wp_steps; rewrite Hnil in HQ; by apply HQ|]. cbn [orb] in HQ. wp_steps. apply num_at_spec; [lia|lia|lia|].
  destruct (Z.eqb_spec (val buf off 4) 0); [wp_steps; rewrite Hnil in HQ; by apply HQ|]. wp_steps. apply num_at_spec; [lia|lia|lia|].
  pose proof (val_range buf (off + 6) 1 Hb ltac:(lia) ltac:(lia) ltac:(lia)) as Hv. change (256 ^ 1) with 256 in Hv.
  pose proof (val_range buf (off + 4) 2 Hb ltac:(lia) ltac:(lia) ltac:(lia)) as Hr.
  wp_steps. apply wp_bytes_in; [lia|lia|]. set (nm := take _ (drop _ buf)) in *. wp_steps. cbn [omap list_omap] in HQ. unfold listed in HQ at 1. cbn [fst snd] in HQ.
  destruct (dots nm); wp_steps; [apply IH; [done|done|done|done|lia|lia|]; exact HQ|].
  apply read_inode_spec; [done|done|]. intros s1 Hs1. wp_steps. destruct (inode_at s (val buf off 4)) as [i|]; cbn [mbind option_bind] in HQ.
  - apply IH; [by eapply same_mounted|by eapply same_inodes|done|done|lia|lia|]. intros s2 Hs2. rewrite (same_listed _ _ _ Hs1), <- fill_cons by done.
    apply HQ. by etrans.
  - apply IH; [by eapply same_mounted|by eapply same_inodes|done|done|lia|lia|]. intros s2 Hs2. rewrite (same_listed _ _ _ Hs1). apply HQ. by etrans.
Qed.

Lemma list_blocks_spec i max : length (block i) = 15%nat -> 0 <= size i -> 0 <= max < 2 ^ 31 -> forall fuel k buf out Q s, mounted s -> inodes_ok s ->
  blocks_ok (world s) i (size i) -> 0 <= k -> blocks_in (size i) - k <= Z.of_nat fuel -> buf_ok buf -> Z.of_nat (length out) <= max ->
  (forall s', same s s' -> let l := fill max out (omap (listed s) (dir_from (world s) i k (Z.to_nat (blocks_in (size i) - k)))) in
     Q (Z.of_nat (length l), l) s') -> wp (list_blocks E fuel i (1024 * k) k buf max out) Q s.
Proof.
  intros Hl Hsz Hmax. induction fuel as [|fuel IH]; intros k buf out Q s Hm Hi Hb Hk Hf Hbuf Hout HQ; cbn [list_blocks];
    pose proof (blocks_in_spec (size i) k Hsz) as Hbi;
    (destruct (Z.leb_spec max (Z.of_nat (length out))); [rewrite orb_true_r; wp_steps; rewrite fill_full in HQ by done; rewrite to_int_small by lia; by apply HQ|
     rewrite orb_false_r]);
    (destruct (Z.leb_spec (size i) (1024 * k)); [wp_steps; rewrite to_int_small by lia; replace (Z.to_nat (blocks_in (size i) - k)) with 0%nat in HQ by lia;
     cbn [dir_from omap list_omap] in HQ; unfold fill in HQ; rewrite take_nil, app_nil_r in HQ; by apply HQ|]); [lia|].
  wp_steps. apply read_dir_block; [done|done|by apply Hb|done|]. intros s1 Hs1. cbn [fst snd]. change (0 <? 0) with false. cbv iota. wp_steps.
  assert (mounted s1) as Hm1 by by eapply same_mounted. rewrite (m_size _ Hm1).
  replace (Z.to_nat (blocks_in (size i) - k)) with (S (Z.to_nat (blocks_in (size i) - (k + 1)))) in HQ by lia.
  rewrite dir_from_S, omap_app, <- fill_fill in HQ.
  apply list_entries_spec; [done|by eapply same_inodes|apply dir_buf_length|apply dir_buf_bytes|lia|lia|]. intros s2 Hs2. rewrite (same_listed _ _ _ Hs1).
  assert (same s s2) as Hs by by etrans. assert (mounted s2) as Hm2 by by eapply same_mounted.
  pose proof (blocks_ok_size _ _ _ Hb). rewrite (u32_small (1024 * k + 1024)), u32_small by lia. replace (1024 * k + 1024) with (1024 * (k + 1)) by lia.
  apply IH; [done|by eapply same_inodes|by eapply same_blocks_ok|lia|lia|apply dir_buf_ok|unfold fill; rewrite length_app, length_take; lia|].
  intros s3 Hs3. rewrite (same_listed _ _ _ Hs), (same_dir_from _ _ _ _ _ Hs). apply HQ. by etrans.
Qed.

(** Listing a directory. On a consistent volume [ext2_list_directory] returns, in the order of
    the directory, its entries other than [.] and [..] whose inodes exist, with the attributes of
    the inodes: the first [max] of them. *)
Theorem ext2_list_exact names n i max s : mounted s -> inodes_ok s -> dirs_ok s -> Forall name_ok names ->
  resolve s ROOT_INODE names = Some n -> n <> 0 -> inode_at s n = Some i -> is_dir i = true -> 0 <= max < 2 ^ 31 ->
  wp (ext2_list_directory E (Some (SLASH :: join names)) max) (fun r s' => same s s' /\
    snd r = take (Z.to_nat max) (omap (listed s) (dir_entries (world s) i)) /\ fst r = Z.of_nat (length (snd r))) s.
Proof.
  intros Hm Hi Hd Hn Hr Hn0 Hin Hdir Hmax. unfold ext2_list_directory. wp_steps. apply ext2_open; [done..|]. intros s1 Hs1. rewrite Hr, Hin.
  destruct (Z.eqb_spec n 0); [done|]. unfold is_type. unfold is_dir in Hdir. rewrite Hdir. cbn [negb]. rewrite u32_small by lia.
  destruct (inode_at_wf s n i Hi Hin) as (Hbl & Hsz & _).
  apply (list_blocks_spec i max Hbl ltac:(lia) Hmax (rounds i) 0); [by eapply same_mounted|by eapply same_inodes| |lia|pose proof (rounds_enough i); lia|apply buf_fresh|cbn; lia|].
  { eapply same_blocks_ok; [done|]. by eapply Hd. }
  intros s2 Hs2. cbv zeta. cbn [fst snd]. split; [by etrans|]. split; [|done]. rewrite Z.sub_0_r, (same_dir_from _ _ _ _ _ Hs1), (same_listed _ _ _ Hs1).
  unfold fill. cbn [length app]. by rewrite Z.sub_0_r.
Qed.

(** ** Attributes *)

Lemma same_put n i s s1 s2 : same s s1 -> put_inode n i s1 s2 -> put_inode n i s s2.
Proof.
  intros Hs (w & b & o & -> & Hp & Hb & Ho). exists w, b, o. split; [by destruct Hs as (w1 & -> & _)|].
  rewrite (same_place _ _ _ Hs) in Hp. split; [done|]. rewrite (same_blk _ _ _ Hs) in Hb. split; [done|]. intros m Hm. by rewrite (Ho m Hm), (same_blk _ _ _ Hs).
Qed.

Lemma inode_at_range s n i : inode_at s n = Some i -> 1 <= n <= inodes_count (superblock s).
Proof. unfold inode_at. by case_bool_decide. Qed.

Lemma bits_below z n : 0 <= n -> 0 <= z -> (forall k, n <= k -> Z.testbit z k = false) -> z < 2 ^ n.
Proof.
  intros Hn Hz H. assert (z = z mod 2 ^ n) as ->; [|apply Z.mod_pos_bound; lia]. apply Z.bits_inj'. intros k Hk. destruct (Z.ltb_spec k n).
  - by rewrite Z.mod_pow2_bits_low by lia.
  - rewrite Z.mod_pow2_bits_high by lia. apply H. lia.
Qed.

(** The type bits stay, the permission bits are those asked for. *)
Lemma new_mode m md : 0 <= m < 2 ^ 16 -> 0 <= md < 2 ^ 16 ->
  let r := Z.lor (Z.land m EXT2_S_IFMT) (Z.land md (Z.lnot EXT2_S_IFMT)) in
  0 <= r < 2 ^ 16 /\ Z.land r EXT2_S_IFMT = Z.land m EXT2_S_IFMT /\ Z.land r 0xFFF = Z.land md 0xFFF.
Proof.
  intros Hm Hd. cbv zeta. assert (forall k, Z.testbit EXT2_S_IFMT k = (12 <=? k) && (k <? 16)) as Hf.
  { intros k. change EXT2_S_IFMT with (Z.shiftl (Z.ones 4) 12). destruct (Z.ltb_spec k 0); [rewrite Z.testbit_neg_r by lia; destruct (Z.leb_spec 12 k); [lia|done]|].
    rewrite Z.shiftl_spec by lia. destruct (Z.leb_spec 12 k); [|by rewrite Z.testbit_neg_r by lia]. rewrite Z.testbit_ones_nonneg by lia.
    cbn [andb]. destruct (Z.ltb_spec (k - 12) 4), (Z.ltb_spec k 16); done || lia. }
  assert (forall k, 0 <= k -> Z.testbit 0xFFF k = (k <? 12)) as Hp by (intros k Hk; change 0xFFF with (Z.ones 12); by rewrite Z.testbit_ones_nonneg by lia).
  assert (forall z k, 0 <= z < 2 ^ 16 -> 16 <= k -> Z.testbit z k = false) as Hh.
  { intros z k Hz Hk. destruct (Z.eq_dec z 0) as [->|]; [apply Z.bits_0|]. apply Z.bits_above_log2; [lia|]. assert (Z.log2 z < 16) by (apply Z.log2_lt_pow2; lia). lia. }
  split; [|split].
  - assert (0 <= Z.lor (Z.land m EXT2_S_IFMT) (Z.land md (Z.lnot EXT2_S_IFMT))) as H0 by (apply Z.lor_nonneg; split; apply Z.land_nonneg; lia).
    split; [done|]. apply bits_below; [lia|done|]. intros k Hk. rewrite Z.lor_spec, !Z.land_spec, !Hh by done. done.
  - apply Z.bits_inj'. intros k Hk. rewrite !Z.land_spec, Z.lor_spec, !Z.land_spec, Z.lnot_spec by done. rewrite Hf.
    destruct ((12 <=? k) && (k <? 16)); [|by rewrite !andb_false_r]. by rewrite !andb_true_r, andb_false_r, orb_false_r.
  - apply Z.bits_inj'. intros k Hk. rewrite !Z.land_spec, Z.lor_spec, !Z.land_spec, Z.lnot_spec, Hp by done. rewrite Hf.
    destruct (Z.ltb_spec k 12); [|by rewrite !andb_false_r]. destruct (Z.leb_spec 12 k); [lia|]. cbn [andb negb]. by rewrite !andb_true_r, andb_false_r.
Qed.

(** C24. Changing permissions. On a consistent volume [ext2_chmod] sets the permission bits of the
    inode the path leads to and keeps its type and every other attribute; the inode can be read
    back, and no other inode changes. *)
Theorem ext2_chmod_exact names n i md s : mounted s -> inodes_ok s -> dirs_ok s -> Forall name_ok names ->
  resolve s ROOT_INODE names = Some n -> n <> 0 -> inode_at s n = Some i -> 0 <= md < 2 ^ 16 ->
  wp (ext2_chmod E (Some (SLASH :: join names)) md) (fun r s' => r = EXT2_SUCCESS /\
    (exists i', inode_at s' n = Some i' /\ i' = set_mode (mode i') i /\
       Z.land (mode i') EXT2_S_IFMT = Z.land (mode i) EXT2_S_IFMT /\ Z.land (mode i') 0xFFF = Z.land md 0xFFF) /\
    forall m, place s m <> place s n -> inode_at s' m = inode_at s m) s.
Proof.
  intros Hm Hi Hd Hn Hr Hn0 Hin Hmd. unfold ext2_chmod. wp_steps. apply ext2_open; [done..|]. intros s1 Hs1. rewrite Hr, Hin.
  destruct (Z.eqb_spec n 0); [done|]. destruct (inode_at_wf s n i Hi Hin) as (Hbl & Hsz & Hwf).
  destruct (new_mode (mode i) md (wf_mode _ Hwf) Hmd) as (H1 & H2 & H3). set (i' := set_mode _ i).
  assert (inode_wf i') as Hwf' by by destruct Hwf. pose proof (inode_at_range _ _ _ Hin) as Hrange. unfold store_inode. wp_steps.
  apply write_inode_spec; [by eapply same_mounted|by eapply same_inodes|by destruct Hs1 as (w & -> & _)|done|apply (wf_rest _ Hwf)|].
  intros s2 Hs2. cbn [Z.eqb negb]. wp_steps. split; [done|]. apply (same_put _ _ _ _ _ Hs1) in Hs2. split.
  - exists i'. split; [by eapply put_inode_same|]. split; [done|]. by split.
  - intros m Hne. apply (put_inode_other n m i'); [done|done|apply (proj1 (wf_rest _ Hwf))|done|done].
Qed.

(** ** Larger blocks *)

Lemma big_block_fault s B : device_path s = Some dp -> block_size s = B -> 1024 < B -> (1024 | B) -> 2 * B <= cap -> read_block E 1 (fresh E 1024) s = Fault.
Proof.
  intros Hp HB Hb [q Hq] Hcap. destruct vol_size as (Hbs & [k Hk] & Hc). destruct (vol_device (world s)) as (d & Hd & Hdb & Hrd & _).
  unfold read_block. rewrite (bind_run _ _ s (Some (dp, d)) s) by (unfold the_device, bind, get; rewrite Hp, Hd; unfold ret; by rewrite Hrd).
  set (c := q * k). assert (B = c * bs) as HBc by (unfold c; rewrite Hq, <- Z.mul_assoc; f_equal; exact Hk).
  clearbody c. assert (0 < c) by nia.
  assert (u32 (u32 (B + bs) - 1) / bs = c) as Ec.
  { assert (bs <= 1024) by (apply Z.divide_pos_le; [lia|by exists k]). rewrite (u32_small (B + bs)) by lia. rewrite u32_small by lia. symmetry. apply (Z.div_unique _ _ _ (bs - 1)); lia. }
  assert (bs < B) by (assert (bs <= 1024) by (apply Z.divide_pos_le; [lia|by exists k]); lia).
  rewrite (bind_run _ _ s (c, c) s).
  2:{ unfold extent, bind, get. rewrite Hdb, HB. destruct (Z.eqb_spec bs 0); [lia|]. destruct (Z.eqb_spec bs B); [lia|]. unfold ret. rewrite Ec.
      rewrite Z.mul_1_l, u32_small by lia. replace (B / bs) with c; [done|]. apply (Z.div_unique _ _ _ 0); lia. }
  rewrite (bind_run _ _ s s s) by done. rewrite Hdb, HB. destruct (Z.ltb_spec bs B); [|lia]. destruct (Z.ltb_spec 1 c); [|nia]. cbn [andb].
  rewrite (u32_small (c * bs)) by lia. destruct (vol_malloc (world s) (c * bs) ltac:(lia)) as (tmp & -> & Ht).
  destruct (vol_read c c (world s)) as (w & Hr & _); [lia|lia|nia|].
  set (bytes := map _ _) in Hr. assert (length bytes = Z.to_nat B) as Hlen by (unfold bytes; rewrite length_map, length_seqZ; lia).
  rewrite (bind_run _ _ s (c, bytes) (set_world w s)).
  2:{ unfold device_read. rewrite (bind_run _ _ s s s) by done. rewrite Hr. rewrite (bind_run _ _ s tt (set_world w s)) by done.
      rewrite (bind_run _ _ _ bytes (set_world w s)); [done|]. unfold copy_to. change (0 <=? 0) with true. cbn [andb].
      destruct (Z.leb_spec (0 + Z.of_nat (length bytes)) (Z.of_nat (length tmp))); [|lia]. unfold splice, ret. do 2 f_equal. change (Z.to_nat 0) with 0%nat.
      rewrite take_0, drop_ge, app_nil_r by lia. done. }
  cbn [fst snd]. rewrite u32_small by nia. rewrite Z.eqb_refl. cbn [negb]. rewrite (bind_run _ _ (set_world w s) (set_world w s) (set_world w s)) by done.
  cbn [block_size set_world]. rewrite HB. rewrite (bind_run _ _ _ bytes (set_world w s)).
  2:{ unfold bytes_at. change (0 <=? 0) with true. cbn [andb]. destruct (Z.leb_spec (0 + B) (Z.of_nat (length bytes))); [|lia]. unfold ret.
      change (Z.to_nat 0) with 0%nat. rewrite drop_0, take_ge by lia. done. }
  unfold bind at 1, copy_to. change (0 <=? 0) with true. cbn [andb]. rewrite fresh_length.
  by destruct (Z.leb_spec (0 + Z.of_nat (length bytes)) (Z.of_nat (Z.to_nat 1024))); [lia|].
Qed.

(** Volumes with blocks of more than 1024 bytes cannot be mounted: [ext2_init] reads the group
    descriptors, a whole block, into a buffer of 1024 bytes on the stack. *)
Theorem ext2_big_blocks_overflow s (sb := decode_superblock (blk (world s) 1)) : block_size s = 1024 ->
  magic sb = EXT2_SUPER_MAGIC -> 0 < log_block_size sb < 21 -> blocks_per_group sb <> 0 -> 2 * (1024 * 2 ^ log_block_size sb) <= cap ->
  ext2_init E dp s = Fault.
Proof.
  intros Hs Hmg Hlog Hbpg Hcap. unfold ext2_init. set (s1 := set_device_path (Some dp) s). rewrite (bind_run _ _ s tt s1) by done.
  assert (2 ^ 1 <= 2 ^ log_block_size sb) as Hpow by (apply Z.pow_le_mono_r; lia).
  assert (2 ^ log_block_size sb < 2 ^ 21) as Hpow2 by (apply Z.pow_lt_mono_r; lia).
  assert (wp (read_block E 1 (fresh E 1024)) (fun r s' => same s1 s' /\ r = Some (blk (world s1) 1)) s1) as Hw.
  { apply read_block_spec; [by split|split; lia|rewrite fresh_length; lia|]. intros s' Hs'. split; [done|]. rewrite drop_ge, app_nil_r by (rewrite fresh_length; lia). done. }
  destruct (wp_returns _ _ _ Hw) as (r & s2 & E2 & (w & -> & _) & ->). rewrite (bind_run _ _ s1 _ _ E2). set (s2 := set_world w s1).
  set (s3 := set_superblock sb s2). rewrite (bind_run _ _ s2 tt s3) by done. rewrite (bind_run _ _ s3 s3 s3) by done.
  change (superblock s3) with sb. rewrite Hmg, Z.eqb_refl. cbn [negb]. destruct (Z.leb_spec 21 (log_block_size sb)); [lia|].
  rewrite Z.shiftl_mul_pow2 by lia. rewrite (u32_small (1024 * 2 ^ log_block_size sb)) by lia. set (B := 1024 * 2 ^ log_block_size sb) in *.
  set (s4 := set_block_size B s3). rewrite (bind_run _ _ s3 tt s4) by done. set (s5 := set_inodes_per_block (B / INODE_SIZE) s4).
  rewrite (bind_run _ _ s4 tt s5) by done. destruct (Z.eqb_spec (blocks_per_group sb) 0); [done|]. set (cnt := u32 (u32 (blocks_count sb - 1) / _ + 1)).
  set (s6 := set_block_group_count cnt s5). rewrite (bind_run _ _ s5 tt s6) by done. set (s7 := set_group_descs (Some (default (replicate 128 zero_group) (group_descs s6))) s6). rewrite (bind_run _ _ s6 tt s7) by done.
  destruct (Z.eqb_spec B 1024); [lia|]. unfold bind at 1.
  by rewrite (big_block_fault s7 B) by (done || lia || (exists (2 ^ log_block_size sb); lia)).
Qed.

End Volume.

(** ** A volume in memory *)

(** A device is what it stores; it has blocks of 512 bytes and 16 KB in all. *)
Definition ram_read (pos n : Z) (w : Z -> Z) : Z * list Z * (Z -> Z) := (n, map (fun i => w (pos * 512 + i) mod 256) (seqZ 0 (n * 512)), w).
Definition ram_write (pos n : Z) (l : list Z) (w : Z -> Z) : Z * (Z -> Z) :=
  (n, fun o => if (pos * 512 <=? o) && (o <? (pos + n) * 512) then nth (Z.to_nat (o - pos * 512)) l 0 else w o).

Definition ram : env (D := Z -> Z) :=
  mk_env (fun _ _ => Some (VfsCache.mk_device 512 true true false)) (fun _ => ram_read) (fun _ => ram_write) (fun _ w => w)
    (fun _ n => Some (replicate (Z.to_nat n) 0)) (fun _ => 170) (fun _ => 0) (ret 0) (fun _ => ret tt) (ret 0) (fun _ => ret tt)
    (fun _ i _ _ _ => ret (0, i)) (fun _ i _ => ret (0, i)) (fun i => ret i) (fun i _ => ret (0, i)) (ret tt) (-8) (-9) (-10) 1 2 4 1 2 7.

#[export] Instance ram_volume : Volume ram [100] 512 16384 (fun w o => w o mod 256).
Proof.
  split.
  - intros w. by eexists.
  - split; [lia|]. split; [exists 2; lia|lia].
  - intros w n Hn. eexists. split; [reflexivity|]. rewrite length_replicate. lia.
  - intros w o. apply Z.mod_pos_bound. lia.
  - done.
  - intros pos n w _ _ _. by exists w.
  - intros pos n l w Hp Hn Hc Hl Hb. eexists. split; [reflexivity|]. intros o. cbn beta.
    destruct (Z.leb_spec (pos * 512) o), (Z.ltb_spec o ((pos + n) * 512)); cbn [andb]; (case_decide; [|done || lia]); [|lia..].
    apply Z.mod_small. destruct (lookup_lt_is_Some_2 l (Z.to_nat (o - pos * 512))) as [x Hx]; [lia|]. rewrite (nth_lookup_Some _ _ _ x) by done.
    exact (Forall_lookup_1 _ _ _ _ Hb Hx).
  - done.
Qed.

(** Bytes laid over a disk of zeros. *)
Fixpoint image (l : list (Z * list Z)) (o : Z) : Z :=
  match l with
  | [] => 0
  | (p, b) :: l' => if (p <=? o) && (o <? p + Z.of_nat (length b)) then nth (Z.to_nat (o - p)) b 0 else image l' o
  end.

Definition node (m sz b : Z) : inode := set_block (b :: replicate 14 0) (set_size sz (set_mode m zero_inode)).

(** Inode 2 is the root directory with a file, inode 3, and a long symbolic link, inode 4. *)
Definition root : inode := node 0x41ED 1024 6.
Definition file : inode := node 0x81A4 5 7.
Definition long_link : inode := node 0xA1FF 70 8.
Definition name_f : list Z := [102].
Definition name_l : list Z := [108].

Definition sample : Z -> Z := image
  [(5 * 1024 + 128, encode_inode root); (5 * 1024 + 256, encode_inode file); (5 * 1024 + 384, encode_inode long_link);
   (6 * 1024, dir_entry 2 12 2 [46]); (6 * 1024 + 12, dir_entry 3 12 1 name_f); (6 * 1024 + 24, dir_entry 4 1000 7 name_l); (7 * 1024, [104; 101; 108; 108; 111])].

Definition vol : ext2 (D := Z -> Z) :=
  mk_ext2 (mk_superblock 4 16 0 8192 8 EXT2_SUPER_MAGIC) 1024 8 1 (Some [100]) (Some (mk_group 3 4 5 0 0 1 :: replicate 127 zero_group)) sample.

Abbreviation ram_byte := (fun (w : Z -> Z) o => w o mod 256).

Lemma vol_mounted : mounted [100] vol.
Proof. done. Qed.

Lemma vol_inodes : inodes_ok 16384 vol.
Proof.
  split; [split; reflexivity|]. intros n Hn. cbn in Hn. assert (n = 1 \/ n = 2 \/ n = 3 \/ n = 4) as Hc by lia.
  destruct Hc as [->|[->|[->| ->]]]; eexists _, _; (split; [vm_compute; reflexivity|split; [lia|vm_compute; discriminate]]).
Qed.

Lemma vol_nodes : inode_at ram_byte vol 1 = Some zero_inode /\ inode_at ram_byte vol 2 = Some root /\
  inode_at ram_byte vol 3 = Some file /\ inode_at ram_byte vol 4 = Some long_link.
Proof. split; [|split; [|split]]; vm_compute; reflexivity. Qed.

Lemma small_file w m sz b : 0 <= sz <= 1024 -> in_range 16384 b -> blocks_ok 16384 ram_byte w (node m sz b) sz.
Proof.
  intros Hs Hb k Hk Hk'. assert (k = 0) as -> by lia. split; [lia|lia|lia|]. right. exact Hb.
Qed.

Lemma vol_dirs : dirs_ok 16384 ram_byte vol.
Proof.
  intros n i Hin Hd. pose proof (inode_at_range _ _ _ _ Hin) as Hn. cbn in Hn. assert (n = 1 \/ n = 2 \/ n = 3 \/ n = 4) as Hc by lia.
  destruct vol_nodes as (E1 & E2 & E3 & E4). destruct Hc as [->|[->|[->| ->]]]; rewrite ?E1, ?E2, ?E3, ?E4 in Hin; injection Hin as <-; try discriminate Hd.
  apply small_file; [split; discriminate|split; [lia|vm_compute; discriminate]].
Qed.

Lemma name_small c : c <> SLASH -> name_ok [c].
Proof. intros H. split; [cbn; lia|]. by constructor. Qed.

Lemma vol_paths : resolve ram ram_byte vol ROOT_INODE [name_f] = Some 3 /\ resolve ram ram_byte vol ROOT_INODE [name_l] = Some 4.
Proof. split; vm_compute; reflexivity. Qed.

Lemma ext2_path_exact_witness :
  wp (path_to_inode ram (Some [47; 102])) (fun n s' => same ram_byte vol s' /\ n = 3) vol.
Proof.
  pose proof (ext2_path_exact ram [100] 512 16384 ram_byte [name_f] vol vol_mounted vol_inodes vol_dirs) as H.
  rewrite (proj1 vol_paths) in H. apply H. constructor; [apply name_small; discriminate|constructor].
Defined.

Lemma ext2_read_file_exact_witness :
  wp (ext2_read_file ram (Some [47; 102]) 100) (fun r s' => same ram_byte vol s' /\ r = (5, [104; 101; 108; 108; 111])) vol.
Proof.
  pose proof (ext2_read_file_exact ram [100] 512 16384 ram_byte [name_f] 3 file 100 vol vol_mounted vol_inodes vol_dirs) as H.
  assert (bytes_of ram_byte (world vol) file 5 = [104; 101; 108; 108; 111]) as Hc by (vm_compute; reflexivity).
  change (Z.min (size file) 100) with 5 in H. cbv zeta in H. rewrite Hc in H.
  apply H; [constructor; [apply name_small; discriminate|constructor]|exact (proj1 vol_paths)|discriminate|exact (proj1 (proj2 (proj2 vol_nodes)))|reflexivity|lia| |].
  - apply small_file; [split; discriminate|split; [lia|vm_compute; discriminate]].
  - split; lia.
Defined.

Lemma ext2_long_link_unreadable_witness :
  wp (ext2_readlink ram (Some [47; 108]) 100) (fun r s' => same ram_byte vol s' /\ r = (EXT2_ERR_INVALID_ARG, [])) vol.
Proof.
  apply (ext2_long_link_unreadable ram [100] 512 16384 ram_byte [name_l] 4 long_link 100 vol vol_mounted vol_inodes vol_dirs);
    [constructor; [apply name_small; discriminate|constructor]|exact (proj2 vol_paths)|discriminate|exact (proj2 (proj2 (proj2 vol_nodes)))|reflexivity|reflexivity].
Defined.

Lemma ext2_list_exact_witness :
  wp (ext2_list_directory ram (Some [47]) 10) (fun r s' => same ram_byte vol s' /\ map f_name (snd r) = [name_f; name_l] /\ fst r = 2) vol.
Proof.
  assert (map f_name (take (Z.to_nat 10) (omap (listed ram_byte vol) (dir_entries ram ram_byte (world vol) root))) = [name_f; name_l]) as Hl by (vm_compute; reflexivity).
  eapply wp_mono; [apply (ext2_list_exact ram [100] 512 16384 ram_byte [] 2 root 10 vol vol_mounted vol_inodes vol_dirs)|];
    [constructor|reflexivity|discriminate|exact (proj1 (proj2 vol_nodes))|reflexivity|lia|].
  cbn beta. intros [r l] s' (H1 & H2 & H3). cbn [fst snd] in *. split; [exact H1|]. rewrite <- H2 in Hl. split; [exact Hl|].
  rewrite H3, <- (length_map f_name), Hl. reflexivity.
Defined.

Lemma ext2_chmod_exact_witness :
  wp (ext2_chmod ram (Some [47; 102]) 0x180) (fun r s' => r = EXT2_SUCCESS /\
    exists i', inode_at ram_byte s' 3 = Some i' /\ Z.land (mode i') 0xFFF = 0x180) vol.
Proof.
  eapply wp_mono; [apply (ext2_chmod_exact ram [100] 512 16384 ram_byte [name_f] 3 file 0x180 vol vol_mounted vol_inodes vol_dirs)|];
    [constructor; [apply name_small; discriminate|constructor]|exact (proj1 vol_paths)|discriminate|exact (proj1 (proj2 (proj2 vol_nodes)))|lia|].
  cbn beta. intros r s' (H1 & (i' & H2 & _ & _ & H3) & _). split; [exact H1|]. exists i'. split; [exact H2|exact H3].
Defined.

(** A volume with blocks of 2048 bytes. *)
Definition big : Z -> Z := image [(1024 + 24, le_bytes 4 1); (1024 + 32, le_bytes 4 8192); (1024 + 56, le_bytes 2 EXT2_SUPER_MAGIC)].

Lemma ext2_big_blocks_overflow_witness : ext2_init ram [100] (set_world big vol) = Fault.
Proof.
  apply (ext2_big_blocks_overflow ram [100] 512 16384 ram_byte (set_world big vol)); [reflexivity|vm_compute; reflexivity|vm_compute; split; reflexivity|
    vm_compute; discriminate|vm_compute; discriminate].
Defined.

End Ext2Thms.
