(* ===== verification/Iso9660.v ===== *)
(** * The ISO 9660 file system ([filesystem/iso9660/iso9660.c])

    Sectors, volume descriptors, directories, paths and the calls on files. A path is the
    list of its characters, a buffer the list of its bytes; accesses outside are a [Fault].
    Blocks of memory live in [heap] under fresh addresses; freeing one removes it, so that
    a second [free] and a use after it are a [Fault]. A pointer to a directory record is the
    block and the place of the record in it.

    The block devices and [malloc] are in the environment [env]; [stack_byte] is what an
    uninitialised buffer holds. A transfer works on the devices [D], part of the state.

    A walk over the records of a directory has fuel for as many records as the directory
    has bytes, a path for as many components as it has characters. *)

From Stdlib Require Import ZArith Lia.
From stdpp Require Import base tactics option numbers list gmap.
From S2P Require Import Prelude VfsCache Ext2.

Set Default Goal Selector "!".
Local Open Scope Z_scope.
Local Open Scope kernel_scope.

Module Iso9660.

Abbreviation device := VfsCache.device.
Abbreviation d_block_size := VfsCache.d_block_size.
Abbreviation can_read := VfsCache.can_read.
Abbreviation component := Ext2.component.
Abbreviation skip_slash := Ext2.skip_slash.
Abbreviation SLASH := Ext2.SLASH.

Definition ISO9660_SUCCESS : Z := 0.
Definition ISO9660_ERR_NOT_FOUND : Z := -1.
Definition ISO9660_ERR_BAD_FORMAT : Z := -2.
Definition ISO9660_ERR_IO_ERROR : Z := -3.
Definition ISO9660_ERR_INVALID_ARG : Z := -4.
Definition ISO9660_ATTR_DIRECTORY : Z := 0x02.
Definition ISO9660_STANDARD_ID : list Z := [67; 68; 48; 48; 49].
Definition ISO9660_BOOT_RECORD : Z := 0.
Definition ISO9660_PRIMARY_DESCRIPTOR : Z := 1.
Definition ISO9660_SUPPLEMENTARY_DESC : Z := 2.
Definition ISO9660_TERMINATOR : Z := 255.
Definition ISO9660_SECTOR_SIZE : Z := 2048.

(** "EL TORITO SPECIFICATION" *)
Definition EL_TORITO : list Z :=
  [69; 76; 32; 84; 79; 82; 73; 84; 79; 32; 83; 80; 69; 67; 73; 70; 73; 67; 65; 84; 73; 79; 78].

(** [iso9660_file_entry_t]; [f_name] is the string in the array, which is 0 behind it. *)

Record file_entry : Type := mk_file {
  f_name : list Z;
  f_attributes : Z;
  f_size : Z;
  f_location : Z;
  f_date : list Z;
}.


(** ** Characters *)

Definition SEMICOLON : Z := 59.

(** The list up to the first [c]. *)
Fixpoint until (c : Z) (l : list Z) : list Z :=
  match l with [] => [] | x :: l' => if x =? c then [] else x :: until c l' end.

(** The string in a buffer. *)
Definition cstr (l : list Z) : list Z := until 0 l.

(** [strcasecmp(a, b) == 0] *)
Definition lower (c : Z) : Z := if (65 <=? c) && (c <=? 90) then c + 32 else c.
Definition same_letters (a b : list Z) : bool := bool_decide (map lower a = map lower b).

(** [%02d] *)
Definition two_digits (x : Z) : list Z :=
  (if x <? 100 then [] else [48 + x / 100]) ++ [48 + x / 10 mod 10; 48 + x mod 10].

(** The string that [output] gets. *)
Definition convert_date (d : list Z) : list Z :=
  let at_ k := two_digits (nth k d 0) in
  [50; 48] ++ at_ 0%nat ++ [45] ++ at_ 1%nat ++ [45] ++ at_ 2%nat ++ [32] ++ at_ 3%nat ++ [58] ++ at_ 4%nat ++ [58] ++ at_ 5%nat.

Section Volume.
Context {D : Type}.

(** The static variables, memory and the devices. *)
Record iso : Type := mk_iso {
  primary_volume_descriptor : list Z;
  root_directory_extent : Z;
  root_directory_size : Z;
  device_path : option (list Z);
  has_joliet : bool;
  joliet_volume_descriptor : list Z;
  heap : gmap nat (list Z);
  next : nat;
  world : D;
}.

Definition set_primary_volume_descriptor (x : list Z) (i : iso) : iso :=
  mk_iso x (root_directory_extent i) (root_directory_size i) (device_path i) (has_joliet i)
    (joliet_volume_descriptor i) (heap i) (next i) (world i).
Definition set_root_directory_extent (x : Z) (i : iso) : iso :=
  mk_iso (primary_volume_descriptor i) x (root_directory_size i) (device_path i) (has_joliet i)
    (joliet_volume_descriptor i) (heap i) (next i) (world i).
Definition set_root_directory_size (x : Z) (i : iso) : iso :=
  mk_iso (primary_volume_descriptor i) (root_directory_extent i) x (device_path i) (has_joliet i)
    (joliet_volume_descriptor i) (heap i) (next i) (world i).
Definition set_device_path (x : option (list Z)) (i : iso) : iso :=
  mk_iso (primary_volume_descriptor i) (root_directory_extent i) (root_directory_size i) x
    (has_joliet i) (joliet_volume_descriptor i) (heap i) (next i) (world i).
Definition set_has_joliet (x : bool) (i : iso) : iso :=
  mk_iso (primary_volume_descriptor i) (root_directory_extent i) (root_directory_size i)
    (device_path i) x (joliet_volume_descriptor i) (heap i) (next i) (world i).
Definition set_joliet_volume_descriptor (x : list Z) (i : iso) : iso :=
  mk_iso (primary_volume_descriptor i) (root_directory_extent i) (root_directory_size i)
    (device_path i) (has_joliet i) x (heap i) (next i) (world i).
Definition set_heap (x : gmap nat (list Z)) (i : iso) : iso :=
  mk_iso (primary_volume_descriptor i) (root_directory_extent i) (root_directory_size i)
    (device_path i) (has_joliet i) (joliet_volume_descriptor i) x (next i) (world i).
Definition set_next (x : nat) (i : iso) : iso :=
  mk_iso (primary_volume_descriptor i) (root_directory_extent i) (root_directory_size i)
    (device_path i) (has_joliet i) (joliet_volume_descriptor i) (heap i) x (world i).
Definition set_world (x : D) (i : iso) : iso :=
  mk_iso (primary_volume_descriptor i) (root_directory_extent i) (root_directory_size i)
    (device_path i) (has_joliet i) (joliet_volume_descriptor i) (heap i) (next i) x.

(** What the file system runs on. [malloc_bytes] is [None] when there is no memory, and
    else what the new block holds. *)
Record env : Type := mk_env {
  get_device : D -> list Z -> option device;
  read_blocks : list Z -> Z -> Z -> D -> Z * list Z * D;
  malloc_bytes : D -> Z -> option (list Z);
  stack_byte : nat -> Z;
}.

Section Ops.
Context (E : env).

Definition fresh (n : Z) : list Z := map (stack_byte E) (seq 0 (Z.to_nat n)).

(** ** Memory *)

Definition malloc (n : Z) : M iso (option nat) :=
  s <- get ;;
  match malloc_bytes E (world s) n with
  | None => ret None
  | Some l => put (set_heap (<[next s := l]> (heap s)) (set_next (S (next s)) s)) ;;; ret (Some (next s))
  end.

Definition block (p : nat) : M iso (list Z) := s <- get ;; deref (heap s !! p).

Definition store (p : nat) (l : list Z) : M iso unit := modify (fun s => set_heap (<[p := l]> (heap s)) s).

Definition free (p : nat) : M iso unit :=
  s <- get ;; _ <- deref (heap s !! p) ;; put (set_heap (delete p (heap s)) s).

Definition free_if (p : option nat) : M iso unit := match p with Some p => free p | None => ret tt end.

(** ** Sectors *)

Definition device_read (p : list Z) (lba count : Z) (buf : list Z) (off : Z) : M iso (Z * list Z) :=
  s <- get ;;
  let '(r, bytes, w) := read_blocks E p lba count (world s) in
  put (set_world w s) ;;;
  buf <- copy_to buf off bytes ;;
  ret (r, buf).

(** Reads a sector to place [off] of a buffer; the buffer afterwards. *)
Definition read_raw_sector (sector : Z) (buf : list Z) (off : Z) : M iso (Z * list Z) :=
  s <- get ;;
  match device_path s with
  | None => ret (ISO9660_ERR_IO_ERROR, buf)
  | Some path =>
      match get_device E (world s) path with
      | None => ret (ISO9660_ERR_IO_ERROR, buf)
      | Some d =>
          let bs := d_block_size d in
          if negb (can_read d) then ret (ISO9660_ERR_IO_ERROR, buf)
          else if bs =? 0 then fault
          else
            let lba := if bs =? ISO9660_SECTOR_SIZE then sector else u32 (sector * ISO9660_SECTOR_SIZE) / bs in
            let count := u32 (ISO9660_SECTOR_SIZE + bs - 1) / bs in
            if (bs <? ISO9660_SECTOR_SIZE) && (1 <? count) then
              t <- malloc (u32 (count * bs)) ;;
              match t with
              | None => ret (ISO9660_ERR_IO_ERROR, buf)
              | Some t =>
                  tmp <- block t ;;
                  r <- device_read path lba count tmp 0 ;;
                  store t (snd r) ;;;
                  if negb (u32 (fst r) =? count) then free t ;;; ret (ISO9660_ERR_IO_ERROR, buf)
                  else
                    b <- bytes_at (snd r) 0 ISO9660_SECTOR_SIZE ;;
                    buf <- copy_to buf off b ;;
                    free t ;;;
                    ret (0, buf)
              end
            else
              r <- device_read path lba count buf off ;;
              if negb (u32 (fst r) =? count) then ret (ISO9660_ERR_IO_ERROR, snd r) else ret (0, snd r)
      end
  end.

(** The loop of [iso9660_read_sector], from sector [i] on; [false] when a read fails. *)
Fixpoint read_sectors (n : nat) (sector i : Z) (buf : list Z) : M iso (bool * list Z) :=
  match n with
  | O => ret (true, buf)
  | S n' =>
      r <- read_raw_sector (u32 (sector + i)) buf (u32 (i * ISO9660_SECTOR_SIZE)) ;;
      if negb (fst r =? 0) then ret (false, snd r) else read_sectors n' sector (i + 1) (snd r)
  end.

Definition iso9660_read_sector (sector : Z) (buf : list Z) (count : Z) : M iso (Z * list Z) :=
  r <- read_sectors (Z.to_nat count) sector 0 buf ;;
  ret (if (fst r : bool) then to_int (count * ISO9660_SECTOR_SIZE) else ISO9660_ERR_IO_ERROR, snd r).

(** ** Volume descriptors *)

Definition standard_id (b : list Z) : M iso bool := l <- bytes_at b 1 5 ;; ret (bool_decide (l = ISO9660_STANDARD_ID)).

(** The root directory of a descriptor becomes that of the volume. *)
Definition use_root (b : list Z) : M iso unit :=
  e <- num_at b (156 + 2) 4 ;; modify (set_root_directory_extent e) ;;;
  n <- num_at b (156 + 10) 4 ;; modify (set_root_directory_size n).

Fixpoint scan_descriptors (n : nat) (sector : Z) (buf : list Z) (found : bool) : M iso Z :=
  match n with
  | O => ret (if found then ISO9660_SUCCESS else ISO9660_ERR_BAD_FORMAT)
  | S n' =>
      r <- read_raw_sector sector buf 0 ;;
      if negb (fst r =? 0) then ret ISO9660_ERR_IO_ERROR
      else
        let b := snd r in
        std <- standard_id b ;;
        if negb std then scan_descriptors n' (sector + 1) b found
        else
          type <- num_at b 0 1 ;;
          if type =? ISO9660_PRIMARY_DESCRIPTOR then
            modify (set_primary_volume_descriptor b) ;;;
            use_root b ;;;
            scan_descriptors n' (sector + 1) b true
          else if type =? ISO9660_SUPPLEMENTARY_DESC then
            e0 <- num_at b 88 1 ;; e1 <- num_at b 89 1 ;;
            (if (e0 =? 0x25) && (e1 =? 0x2F) then
               modify (set_joliet_volume_descriptor b) ;;; modify (set_has_joliet true) ;;; use_root b
             else ret tt) ;;;
            scan_descriptors n' (sector + 1) b found
          else if type =? ISO9660_TERMINATOR then ret (if found then ISO9660_SUCCESS else ISO9660_ERR_BAD_FORMAT)
          else scan_descriptors n' (sector + 1) b found
  end.

Definition iso9660_init (path : option (list Z)) : M iso Z :=
  modify (set_device_path path) ;;;
  modify (set_has_joliet false) ;;;
  scan_descriptors 16 16 (fresh ISO9660_SECTOR_SIZE) false.

(** ** Directory records *)

(** The members of the record at [off]. *)
Definition r_length (b : list Z) (off : Z) : M iso Z := num_at b off 1.
Definition extent_location (b : list Z) (off : Z) : M iso Z := num_at b (off + 2) 4.
Definition data_length (b : list Z) (off : Z) : M iso Z := num_at b (off + 10) 4.
Definition recording_date (b : list Z) (off : Z) : M iso (list Z) := bytes_at b (off + 18) 7.
Definition file_flags (b : list Z) (off : Z) : M iso Z := num_at b (off + 25) 1.
Definition filename_length (b : list Z) (off : Z) : M iso Z := num_at b (off + 32) 1.
Definition filename (b : list Z) (off i : Z) : M iso Z := num_at b (off + 33 + i) 1.

(** Every second byte of [n] pairs, from byte [i] on. *)
Fixpoint second_bytes (n : nat) (b : list Z) (off i : Z) : M iso (list Z) :=
  match n with
  | O => ret []
  | S n' => c <- filename b off (i * 2 + 1) ;; l <- second_bytes n' b off (i + 1) ;; ret (c :: l)
  end.

(** The length of the name and its characters. *)
Definition iso9660_parse_extended_name (b : list Z) (off size : Z) : M iso (Z * list Z) :=
  s <- get ;;
  if has_joliet s then
    n <- filename_length b off ;;
    l <- second_bytes (Z.to_nat (Z.min (n / 2) (size - 1))) b off 0 ;;
    let name := until SEMICOLON l in
    ret (Z.of_nat (length name), name)
  else ret (0, []).

(** Up to [n] characters of the name, from [i] on, before the version. *)
Fixpoint plain_name (n : nat) (b : list Z) (off i : Z) : M iso (list Z) :=
  match n with
  | O => ret []
  | S n' =>
      c <- filename b off i ;;
      if c =? SEMICOLON then ret [] else l <- plain_name n' b off (i + 1) ;; ret (c :: l)
  end.

Definition iso9660_name_compare (name b : list Z) (off len : Z) : M iso bool :=
  l <- plain_name (Z.to_nat (Z.min len 255)) b off 0 ;;
  ret (same_letters name (cstr l)).

(** ** Directories *)

(** Reads the sectors from [i] on into a block; [false] when a read fails. *)
Fixpoint read_directory (n : nat) (sector i : Z) (p : nat) : M iso bool :=
  match n with
  | O => ret true
  | S n' =>
      b <- block p ;;
      r <- read_raw_sector (u32 (sector + i)) b (u32 (i * ISO9660_SECTOR_SIZE)) ;;
      store p (snd r) ;;;
      if negb (fst r =? 0) then ret false else read_directory n' sector (i + 1) p
  end.

(** A new block with the contents of a directory. *)
Definition load_directory (sector size : Z) : M iso (option nat) :=
  t <- malloc size ;;
  match t with
  | None => ret None
  | Some p =>
      ok <- read_directory (Z.to_nat (u32 (size + ISO9660_SECTOR_SIZE - 1) / ISO9660_SECTOR_SIZE)) sector 0 p ;;
      if negb ok then free p ;;; ret None else ret (Some p)
  end.

Definition next_sector (off : Z) : Z := u32 ((off / ISO9660_SECTOR_SIZE + 1) * ISO9660_SECTOR_SIZE).

(** The record of that name is the one at [off]. *)
Definition record_matches (name b : list Z) (off : Z) : M iso bool :=
  s <- get ;;
  m <- (if has_joliet s then
          e <- iso9660_parse_extended_name b off 256 ;;
          ret ((0 <? fst e) && bool_decide (name = cstr (snd e)))
        else ret false) ;;
  if (m : bool) then ret true else len <- filename_length b off ;; iso9660_name_compare name b off len.

(** The place of the first record of that name. *)
Fixpoint find_record (fuel : nat) (name b : list Z) (size off : Z) : M iso (option Z) :=
  if size <=? off then ret None
  else
    match fuel with
    | O => spin
    | S fuel' =>
        len <- r_length b off ;;
        if len =? 0 then find_record fuel' name b size (next_sector off)
        else
          m <- record_matches name b off ;;
          if (m : bool) then ret (Some off) else find_record fuel' name b size (u32 (off + len))
    end.

(** An error, or the record and the block it is in. *)
Definition find_file_in_dir (name : list Z) (sector size : Z) : M iso (Z + nat * Z) :=
  t <- load_directory sector size ;;
  match t with
  | None => ret (inl ISO9660_ERR_IO_ERROR)
  | Some p =>
      b <- block p ;;
      r <- find_record (Z.to_nat size) name b size 0 ;;
      match r with
      | Some off => ret (inr (p, off))
      | None => free p ;;; ret (inl ISO9660_ERR_NOT_FOUND)
      end
  end.

(** ** Paths *)

(** What the caller's [*record] and [*buffer] are after the call. *)
Definition pointers : Type := option (nat * Z) * option nat.

Fixpoint walk (fuel : nat) (path : list Z) (sector size : Z) (out : pointers) : M iso (Z * pointers) :=
  match path, fuel with
  | [], _ => ret (0, out)
  | _, O => spin
  | _, S fuel' =>
      let '(name, rest) := component 255 path in
      let rest := skip_slash rest in
      r <- find_file_in_dir name sector size ;;
      match r with
      | inl e => ret (e, out)
      | inr (p, off) =>
          match rest with
          | [] => ret (0, (Some (p, off), Some p))
          | _ =>
              b <- block p ;;
              flags <- file_flags b off ;;
              if negb (has_flag flags ISO9660_ATTR_DIRECTORY) then
                free p ;;; ret (ISO9660_ERR_NOT_FOUND, (Some (p, off), Some p))
              else
                sector <- extent_location b off ;;
                size <- data_length b off ;;
                free p ;;;
                walk fuel' rest sector size (Some (p, off), None)
          end
      end
  end.

Definition parse_path (path : option (list Z)) : M iso (Z * pointers) :=
  match path with
  | None => ret (ISO9660_ERR_INVALID_ARG, (None, None))
  | Some path =>
      s <- get ;;
      match skip_slash path with
      | [] =>
          t <- malloc ISO9660_SECTOR_SIZE ;;
          match t with
          | None => ret (ISO9660_ERR_IO_ERROR, (None, None))
          | Some p =>
              b <- block p ;;
              r <- read_raw_sector (root_directory_extent s) b 0 ;;
              store p (snd r) ;;;
              if negb (fst r =? 0) then free p ;;; ret (ISO9660_ERR_IO_ERROR, (None, None))
              else ret (0, (Some (p, 0), Some p))
          end
      | path => walk (length path) path (root_directory_extent s) (root_directory_size s) (None, None)
      end
  end.

(** ** The calls *)

(** The result and the caller's buffer. *)
Definition iso9660_read_file (path : option (list Z)) (buf : list Z) (size : Z) : M iso (Z * list Z) :=
  r <- parse_path path ;;
  let '(result, (record, sector_buffer)) := r in
  if result <? 0 then ret (result, buf)
  else
    x <- deref record ;;
    b <- block (fst x) ;;
    flags <- file_flags b (snd x) ;;
    if has_flag flags ISO9660_ATTR_DIRECTORY then free_if sector_buffer ;;; ret (ISO9660_ERR_INVALID_ARG, buf)
    else
      file_size <- data_length b (snd x) ;;
      let bytes_to_read := if file_size <? u32 size then file_size else u32 size in
      file_sector <- extent_location b (snd x) ;;
      free_if sector_buffer ;;;
      let full_sectors := bytes_to_read / ISO9660_SECTOR_SIZE in
      let remaining_bytes := bytes_to_read mod ISO9660_SECTOR_SIZE in
      r <- (if 0 <? full_sectors then iso9660_read_sector file_sector buf full_sectors else ret (0, buf)) ;;
      if fst r <? 0 then ret r
      else
        let buf := snd r in
        let bytes_read := full_sectors * ISO9660_SECTOR_SIZE in
        if 0 <? remaining_bytes then
          r <- read_raw_sector (u32 (file_sector + full_sectors)) (fresh ISO9660_SECTOR_SIZE) 0 ;;
          if fst r <? 0 then ret (fst r, buf)
          else
            l <- bytes_at (snd r) 0 remaining_bytes ;;
            buf <- copy_to buf bytes_read l ;;
            ret (to_int (bytes_read + remaining_bytes), buf)
        else ret (to_int bytes_read, buf).

(** The entry of the record at [off]. *)
Definition entry_of (b : list Z) (off : Z) : M iso file_entry :=
  e <- iso9660_parse_extended_name b off 256 ;;
  name <- (if fst e =? 0 then len <- filename_length b off ;; plain_name (Z.to_nat len) b off 0 else ret (snd e)) ;;
  flags <- file_flags b off ;;
  size <- data_length b off ;;
  location <- extent_location b off ;;
  date <- recording_date b off ;;
  ret (mk_file (take 255 (cstr name)) flags size location date).

(** The record is that of the directory itself or of its parent. *)
Definition is_dots (b : list Z) (off : Z) : M iso bool :=
  n <- filename_length b off ;;
  if n =? 1 then c <- filename b off 0 ;; ret ((c =? 0) || (c =? 1)) else ret false.

(** The number of entries, and the caller's array, if there is one. *)
Fixpoint list_records (fuel : nat) (b : list Z) (size off found max : Z) (entries : option (list file_entry)) :
  M iso (Z * option (list file_entry)) :=
  if (size <=? off) || (max <=? found) then ret (found, entries)
  else
    match fuel with
    | O => spin
    | S fuel' =>
        len <- r_length b off ;;
        if len =? 0 then list_records fuel' b size (next_sector off) found max entries
        else
          dots <- is_dots b off ;;
          if (dots : bool) then list_records fuel' b size (u32 (off + len)) found max entries
          else
            entries <- match entries with
              | None => ret None
              | Some l => e <- entry_of b off ;; l <- deref (arr_set l found e) ;; ret (Some l)
              end ;;
            list_records fuel' b size (u32 (off + len)) (found + 1) max entries
    end.

Definition list_from (sector size max : Z) (entries : option (list file_entry)) : M iso (Z * option (list file_entry)) :=
  t <- load_directory sector size ;;
  match t with
  | None => ret (ISO9660_ERR_IO_ERROR, entries)
  | Some p =>
      b <- block p ;;
      r <- list_records (Z.to_nat size) b size 0 0 max entries ;;
      free p ;;;
      ret r
  end.

Definition is_root (path : option (list Z)) : bool :=
  match path with None | Some [] => true | Some [c] => c =? SLASH | _ => false end.

Definition iso9660_list_directory (path : option (list Z)) (entries : option (list file_entry)) (max : Z) :
  M iso (Z * option (list file_entry)) :=
  if is_root path then
    s <- get ;;
    r <- read_raw_sector (root_directory_extent s) (fresh ISO9660_SECTOR_SIZE) 0 ;;
    if negb (fst r =? 0) then ret (ISO9660_ERR_IO_ERROR, entries)
    else
      sector <- extent_location (snd r) 0 ;;
      size <- data_length (snd r) 0 ;;
      list_from sector size max entries
  else
    r <- parse_path path ;;
    let '(result, (record, sector_buffer)) := r in
    if result <? 0 then ret (result, entries)
    else
      x <- deref record ;;
      b <- block (fst x) ;;
      flags <- file_flags b (snd x) ;;
      if negb (has_flag flags ISO9660_ATTR_DIRECTORY) then free_if sector_buffer ;;; ret (ISO9660_ERR_INVALID_ARG, entries)
      else
        sector <- extent_location b (snd x) ;;
        size <- data_length b (snd x) ;;
        free_if sector_buffer ;;;
        list_from sector size max entries.

Definition iso9660_file_exists (path : option (list Z)) : M iso Z :=
  r <- parse_path path ;;
  let '(result, (_, sector_buffer)) := r in
  free_if sector_buffer ;;;
  ret (if result =? 0 then 1 else 0).

Definition iso9660_get_file_size (path : option (list Z)) : M iso Z :=
  r <- parse_path path ;;
  let '(result, (record, sector_buffer)) := r in
  if result <? 0 then ret result
  else
    x <- deref record ;;
    b <- block (fst x) ;;
    size <- data_length b (snd x) ;;
    free_if sector_buffer ;;;
    ret (to_int size).

(** ** Boot records *)

(** The result, and what is stored for the caller: the sector of the catalog, and
    the sector and the size of the image. *)
Definition boot_info : Type := Z * (option Z * option (Z * Z)).

Fixpoint scan_boot (n : nat) (sector : Z) (buf : list Z) : M iso boot_info :=
  match n with
  | O => ret (ISO9660_ERR_NOT_FOUND, (None, None))
  | S n' =>
      r <- read_raw_sector sector buf 0 ;;
      if negb (fst r =? 0) then ret (ISO9660_ERR_IO_ERROR, (None, None))
      else
        let b := snd r in
        std <- standard_id b ;;
        if negb std then scan_boot n' (sector + 1) b
        else
          type <- num_at b 0 1 ;;
          if type =? ISO9660_BOOT_RECORD then
            id <- bytes_at b 88 23 ;;
            if bool_decide (id = EL_TORITO) then
              catalog <- num_at b 883 4 ;;
              r <- read_raw_sector catalog b 0 ;;
              if negb (fst r =? 0) then ret (ISO9660_ERR_IO_ERROR, (Some catalog, None))
              else
                let c := snd r in
                header <- num_at c 0 1 ;; key55 <- num_at c 30 1 ;; keyAA <- num_at c 31 1 ;;
                if negb (header =? 1) || negb (key55 =? 0x55) || negb (keyAA =? 0xAA)
                then ret (ISO9660_ERR_BAD_FORMAT, (Some catalog, None))
                else
                  image <- num_at c (32 + 8) 4 ;;
                  count <- num_at c (32 + 6) 2 ;;
                  ret (ISO9660_SUCCESS, (Some catalog, Some (image, count * 512)))
            else scan_boot n' (sector + 1) b
          else if type =? ISO9660_TERMINATOR then ret (ISO9660_ERR_NOT_FOUND, (None, None))
          else scan_boot n' (sector + 1) b
  end.

Definition iso9660_get_boot_info : M iso boot_info := scan_boot 16 16 (fresh ISO9660_SECTOR_SIZE).

End Ops.
End Volume.
End Iso9660.
