(* ===== verification/Iso9660Thms.v ===== *)
(** * Properties of the ISO 9660 file system

    With a device whose blocks divide 2048 bytes: a sector is read as the disc has it and
    memory is as it was; files, listings and the search of paths follow the directories,
    whose format is the relation [tiles]; the descriptors select the root directory. Errors:
    a path through a file is freed twice, a directory that does not fill its last sector
    overflows its buffer, and boot records are never found. *)

From Stdlib Require Import ZArith Lia.
From stdpp Require Import base tactics option numbers list gmap.
From S2P Require Import Prelude VfsCache Ext2 Ext2Thms Iso9660.
Import Iso9660.

Set Default Goal Selector "!".
Local Open Scope Z_scope.
Local Open Scope kernel_scope.

Module Iso9660Thms.

Abbreviation bytes_ok := (Forall (fun b => 0 <= b < 256)%Z).
Abbreviation join := Ext2Thms.join.
Abbreviation name_ok := Ext2Thms.name_ok.

Section Volume.
Context {D : Type} (E : env (D := D)).
Implicit Types s : iso (D := D).

(** What is relied on of memory and of the device [dp]: [bs] is its block size, [cap] its
    capacity in bytes, [byte] what it stores. *)
Class Disc (dp : list Z) (bs cap : Z) (byte : D -> Z -> Z) : Prop := {
  disc_device : forall w, exists d, get_device E w dp = Some d /\ d_block_size d = bs /\ can_read d = true;
  disc_size : 0 < bs /\ (bs | 2048) /\ 0 <= cap < 2 ^ 32;
  disc_malloc : forall w n, 0 < n -> exists l, malloc_bytes E w n = Some l /\ Z.of_nat (length l) = n;
  disc_byte : forall w o, 0 <= byte w o < 256;
  disc_read : forall pos n w, 0 <= pos -> 0 < n -> (pos + n) * bs <= cap ->
    exists w', read_blocks E dp pos n w = (n, map (byte w) (seqZ (pos * bs) (n * bs)), w') /\ forall o, byte w' o = byte w o;
}.

Context (dp : list Z) (bs cap : Z) (byte : D -> Z -> Z) `{!Disc dp bs cap byte}.

(** ** Sectors *)

(** [n] bytes of the disc. *)
Definition run (w : D) (o n : Z) : list Z := map (byte w) (seqZ o n).
Definition sector (w : D) (k : Z) : list Z := run w (k * 2048) 2048.

Lemma run_length w o n : length (run w o n) = Z.to_nat n.
Proof. unfold run. by rewrite length_map, length_seqZ. Qed.

Lemma iso_sector_length w k : length (sector w k) = 2048%nat.
Proof. apply run_length. Qed.

Lemma run_bytes w o n : bytes_ok (run w o n).
Proof. apply Forall_forall. intros x (i & -> & _)%list_elem_of_fmap. apply disc_byte. Qed.

Lemma iso_run_app w o n m : 0 <= n -> 0 <= m -> run w o (n + m) = run w o n ++ run w (o + n) m.
Proof. intros Hn Hm. unfold run. by rewrite seqZ_app, map_app by done. Qed.

(** States that differ in the device's own state, in the next address, and in memory. *)
Definition moved s (h : gmap nat (list Z)) s' : Prop := exists w k,
  s' = set_heap h (set_next k (set_world w s)) /\ (next s <= k)%nat /\ forall o, byte w o = byte (world s) o.
Definition same s s' : Prop := moved s (heap s) s'.

Lemma moved_trans s1 s2 s3 h h' : moved s1 h s2 -> moved s2 h' s3 -> moved s1 h' s3.
Proof.
  intros (w & k & -> & Hk & Hw) (w' & k' & -> & Hk' & Hw'). exists w', k'. cbn in *. split; [done|]. split; [lia|]. intros o. by rewrite Hw'.
Qed.

#[local] Instance iso_same_preorder : PreOrder same.
Proof.
  split.
  - intros s. exists (world s), (next s). by destruct s.
  - intros s1 s2 s3 H1 H2. assert (heap s2 = heap s1) as Hh by by destruct H1 as (w & k & -> & _). unfold same in *. rewrite Hh in H2. by eapply moved_trans.
Qed.

Lemma moved_run s h s' o n : moved s h s' -> run (world s') o n = run (world s) o n.
Proof. intros (w & k & -> & _ & H). unfold run. apply map_ext. intros i. apply H. Qed.

Lemma moved_sector s h s' k : moved s h s' -> sector (world s') k = sector (world s) k.
Proof. apply moved_run. Qed.

(** The volume is on the device, and addresses from [next] on are free. *)
Record mounted s : Prop := {
  m_path : device_path s = Some dp;
  m_free p : (next s <= p)%nat -> heap s !! p = None;
}.

Lemma iso_same_mounted s s' : same s s' -> mounted s -> mounted s'.
Proof. intros (w & k & -> & Hk & _) [Hp Hf]. split; [done|]. intros p H. cbn in *. apply Hf. lia. Qed.

(** Memory with one more block. *)
Definition holds s (p : nat) (l : list Z) s' : Prop := moved s (<[p := l]> (heap s)) s' /\ heap s !! p = None /\ (p < next s')%nat.

Lemma holds_mounted s p l s' : holds s p l s' -> mounted s -> mounted s'.
Proof.
  intros ((w & k & -> & Hk & _) & Hn & Hp) [Hd Hf]. split; [done|]. intros q Hq. cbn in *. rewrite lookup_insert_ne by lia. apply Hf. lia.
Qed.

Lemma malloc_spec n Q s : 0 < n -> mounted s -> (forall p l s', Z.of_nat (length l) = n -> holds s p l s' -> Q (Some p) s') -> wp (malloc E n) Q s.
Proof.
  intros Hn Hm HQ. unfold malloc. wp_steps. destruct (disc_malloc (world s) n Hn) as (l & -> & Hl). wp_steps. apply (HQ _ l); [done|]. split.
  - exists (world s), (S (next s)). split; [by destruct s|]. split; [lia|done].
  - split; [by apply (m_free _ Hm)|cbn; lia].
Qed.

Lemma iso_block_spec s p l s' Q : holds s p l s' -> Q l s' -> wp (block p) Q s'.
Proof. intros ((w & k & -> & _) & _) HQ. unfold block. wp_steps. cbn [heap set_heap]. rewrite lookup_insert_eq. cbn [deref]. by wp_steps. Qed.

Lemma store_spec s p l l' s' Q : holds s p l s' -> (forall s2, holds s p l' s2 -> Q tt s2) -> wp (store p l') Q s'.
Proof.
  intros ((w & k & -> & Hk & Hw) & Hn & Hp) HQ. unfold store. wp_steps. apply HQ. split; [|done]. exists w, k. split; [|done].
  unfold set_heap. cbn. by rewrite insert_insert_eq.
Qed.

Lemma iso_free_spec s p l s' Q : holds s p l s' -> (forall s2, same s s2 -> Q tt s2) -> wp (free p) Q s'.
Proof.
  intros ((w & k & -> & Hk & Hw) & Hn & Hp) HQ. unfold free. wp_steps. cbn [heap set_heap]. rewrite lookup_insert_eq. cbn [deref]. wp_steps.
  apply HQ. exists w, k. split; [|done]. unfold set_heap. cbn. by rewrite delete_insert_id.
Qed.

(** Reading while the block is held. *)
Lemma holds_same s p l s1 s2 : holds s p l s1 -> same s1 s2 -> holds s p l s2.
Proof.
  intros (H1 & Hn & Hp) H2. assert (heap s1 = <[p := l]> (heap s)) as Hh by by destruct H1 as (w & k & -> & _).
  split; [eapply moved_trans; [done|]; unfold same in H2; by rewrite Hh in H2|]. split; [done|]. destruct H2 as (w & k & -> & Hk & _). cbn in *. lia.
Qed.

Lemma same_holds s s1 p l s2 : same s s1 -> holds s1 p l s2 -> holds s p l s2.
Proof.
  intros (w & k & -> & Hk & Hw) (H & Hn & Hp). cbn in *. split; [|done]. eapply moved_trans; [|done]. by exists w, k.
Qed.

Lemma holds_run s p l s' o n : holds s p l s' -> run (world s') o n = run (world s) o n.
Proof. intros [H _]. by eapply moved_run. Qed.

Lemma holds_sector s p l s' k : holds s p l s' -> sector (world s') k = sector (world s) k.
Proof. intros [H _]. by eapply moved_sector. Qed.

Lemma iso_ratio : exists k, 0 < k /\ 2048 = k * bs /\ bs <= 2048 /\ u32 (2048 + bs - 1) / bs = k /\ (bs <? 2048) && (1 <? k) = negb (bs =? 2048).
Proof.
  destruct disc_size as (Hbs & [k Hk] & _). exists k. assert (0 < k) by nia. assert (bs <= 2048) by nia. split; [done|]. split; [done|]. split; [done|].
  split; [rewrite u32_small by lia; symmetry; apply (Z.div_unique _ _ _ (bs - 1)); lia|].
  destruct (Z.ltb_spec bs 2048), (Z.ltb_spec 1 k), (Z.eqb_spec bs 2048); cbn; try done; nia.
Qed.

Definition in_range (n : Z) : Prop := 0 <= n /\ (n + 1) * 2048 <= cap.

(** The number of the first device block of a sector. *)
Lemma lba_spec n k : in_range n -> 2048 = k * bs -> (if bs =? 2048 then n else u32 (n * 2048) / bs) = n * k.
Proof.
  intros [H0 Hn] Hk. destruct disc_size as (Hbs & _ & Hc). destruct (Z.eqb_spec bs 2048) as [e|e]; [assert (k = 1) as -> by nia; lia|].
  rewrite u32_small by lia. symmetry. apply (Z.div_unique _ _ _ 0); [lia|]. rewrite Hk. lia.
Qed.

Lemma device_read_run n k s : mounted s -> in_range n -> 0 < k -> 2048 = k * bs ->
  exists w, read_blocks E dp (n * k) k (world s) = (k, sector (world s) n, w) /\ same s (set_world w s).
Proof.
  intros Hm [H0 Hn] Hk0 Hk. destruct (disc_read (n * k) k (world s)) as (w & Hr & Hw); [lia|lia|nia|]. exists w.
  rewrite <- Hk in Hr. replace (n * k * bs) with (n * 2048) in Hr by nia. split; [done|]. exists w, (next s). split; [by destruct s|done].
Qed.

Lemma read_raw_sector_spec n buf off Q s : mounted s -> in_range n -> 0 <= off -> off + 2048 <= Z.of_nat (length buf) ->
  (forall s', same s s' -> Q (0, splice buf (Z.to_nat off) (sector (world s) n)) s') -> wp (read_raw_sector E n buf off) Q s.
Proof.
  intros Hm Hn Ho Hl HQ. unfold read_raw_sector. wp_steps. rewrite (m_path _ Hm). destruct (disc_device (world s)) as (d & -> & Hd & ->). cbn [negb].
  destruct iso_ratio as (k & Hk0 & Hk & Hbs & Ek & Eb). rewrite Hd. unfold ISO9660_SECTOR_SIZE. destruct (Z.eqb_spec bs 0); [lia|]. cbv zeta.
  rewrite Ek, Eb, (lba_spec n k) by done. assert (u32 k = k) as Hu by (apply u32_small; nia).
  assert (length (sector (world s) n) = 2048%nat) as Hsl by apply run_length.
  destruct (Z.eqb_spec bs 2048); cbn [negb].
  - wp_steps. unfold device_read. wp_steps. destruct (device_read_run n k s Hm Hn Hk0 Hk) as (w & -> & Hs). wp_steps.
    apply wp_copy_to; [done|lia|]. wp_steps. cbn [fst snd]. rewrite Hu, Z.eqb_refl. cbn [negb]. wp_steps. by apply HQ.
  - wp_steps. rewrite <- Hk, (u32_small 2048) by lia. apply malloc_spec; [lia|done|]. intros p l s1 Hlen H1. wp_steps. eapply iso_block_spec; [done|]. wp_steps.
    unfold device_read. wp_steps. destruct (device_read_run n k s1 (holds_mounted _ _ _ _ H1 Hm) Hn Hk0 Hk) as (w & -> & Hs).
    rewrite (holds_sector _ _ _ _ _ H1). wp_steps. apply wp_copy_to; [lia|lia|]. wp_steps. cbn [fst snd].
    eapply store_spec; [by eapply holds_same|]. intros s2 H2. rewrite Hu, Z.eqb_refl. cbn [negb]. wp_steps.
    assert (splice l (Z.to_nat 0) (sector (world s) n) = sector (world s) n) as ->.
    { unfold splice. change (Z.to_nat 0) with 0%nat. rewrite take_0, drop_ge by lia. by rewrite app_nil_r. }
    apply wp_bytes_in; [lia|lia|]. wp_steps. change (Z.to_nat 0) with 0%nat. rewrite drop_0, take_ge by lia. apply wp_copy_to; [done|lia|]. wp_steps.
    eapply iso_free_spec; [done|]. intros s3 H3. wp_steps. by apply HQ.
Qed.

(** Sectors [i] to [i + n] of an extent go to their places in a buffer. *)
Lemma extend_run w buf e i n : 0 <= i -> (i + Z.of_nat (S n)) * 2048 <= Z.of_nat (length buf) ->
  splice (splice buf (Z.to_nat (i * 2048)) (sector w (e + i))) (Z.to_nat ((i + 1) * 2048)) (run w ((e + (i + 1)) * 2048) (Z.of_nat n * 2048))
  = splice buf (Z.to_nat (i * 2048)) (run w ((e + i) * 2048) (Z.of_nat (S n) * 2048)).
Proof.
  intros Hi Hl. replace (Z.of_nat (S n) * 2048) with (2048 + Z.of_nat n * 2048) by lia. rewrite iso_run_app by lia. fold (sector w (e + i)).
  assert (length (sector w (e + i)) = 2048%nat) as Hs by apply run_length. rewrite <- splice_app by (rewrite Hs, run_length; lia). rewrite Hs.
  replace (Z.to_nat (i * 2048) + 2048)%nat with (Z.to_nat ((i + 1) * 2048)) by lia. by replace ((e + i) * 2048 + 2048) with ((e + (i + 1)) * 2048) by lia.
Qed.

Lemma splice_nothing l p : splice l p [] = l.
Proof. unfold splice. cbn [app length]. rewrite Nat.add_0_r. apply take_drop. Qed.

Lemma splice_all l l' : length l = length l' -> splice l 0 l' = l'.
Proof. intros H. unfold splice. rewrite take_0, drop_ge by (cbn; lia). by rewrite app_nil_l, app_nil_r. Qed.

Lemma read_sectors_spec n : forall e i buf Q s, mounted s -> 0 <= e -> 0 <= i -> (e + i + Z.of_nat n) * 2048 <= cap ->
  (i + Z.of_nat n) * 2048 <= Z.of_nat (length buf) -> 
  (forall s', same s s' -> Q (true, splice buf (Z.to_nat (i * 2048)) (run (world s) ((e + i) * 2048) (Z.of_nat n * 2048))) s') ->
  wp (read_sectors E n e i buf) Q s.
Proof.
  destruct disc_size as (_ & _ & Hc). induction n as [|n IH]; intros e i buf Q s Hm He Hi Hcap Hl HQ; cbn [read_sectors].
  { wp_steps. rewrite splice_nothing in HQ. apply HQ. reflexivity. }
  wp_steps. unfold ISO9660_SECTOR_SIZE. rewrite !u32_small by lia. apply read_raw_sector_spec; [done|split; lia|lia|lia|].
  intros s1 H1. cbn [fst snd Z.eqb negb]. assert (length (sector (world s) (e + i)) = 2048%nat) as Hs by apply run_length.
  apply IH; [by eapply iso_same_mounted|lia|lia|lia|rewrite splice_length by lia; lia|]. intros s2 H2.
  rewrite (moved_run _ _ _ _ _ H1), extend_run by lia. apply HQ. by etrans.
Qed.

Lemma read_directory_spec n : forall e i p buf Q s s0, holds s p buf s0 -> mounted s -> 0 <= e -> 0 <= i -> (e + i + Z.of_nat n) * 2048 <= cap ->
  (i + Z.of_nat n) * 2048 <= Z.of_nat (length buf) -> 
  (forall s', holds s p (splice buf (Z.to_nat (i * 2048)) (run (world s) ((e + i) * 2048) (Z.of_nat n * 2048))) s' -> Q true s') ->
  wp (read_directory E n e i p) Q s0.
Proof.
  destruct disc_size as (_ & _ & Hc). induction n as [|n IH]; intros e i p buf Q s s0 H0 Hm He Hi Hcap Hl HQ; cbn [read_directory].
  { wp_steps. rewrite splice_nothing in HQ. by apply HQ. }
  wp_steps. eapply iso_block_spec; [done|]. wp_steps. unfold ISO9660_SECTOR_SIZE. rewrite !u32_small by lia.
  apply read_raw_sector_spec; [by eapply holds_mounted|split; lia|lia|lia|].
  intros s1 H1. wp_steps. cbn [fst snd]. rewrite (holds_sector _ _ _ _ _ H0).
  assert (length (sector (world s) (e + i)) = 2048%nat) as Hs by apply run_length.
  eapply store_spec; [by eapply holds_same|]. intros s2 H2. cbn [Z.eqb negb].
  eapply IH; [done|done|lia|lia|lia|rewrite splice_length by lia; lia|]. intros s3 H3. rewrite extend_run in H3 by lia. by apply HQ.
Qed.

(** The sectors of an extent of [n] bytes. *)
Lemma sectors_of n : 0 < n < 2 ^ 32 - 2048 -> (2048 | n) -> exists k, u32 (n + 2048 - 1) / 2048 = Z.of_nat k /\ n = Z.of_nat k * 2048.
Proof.
  intros Hn [k Hk]. exists (Z.to_nat k). rewrite Z2Nat.id by lia. split; [|done]. rewrite u32_small by lia. symmetry. apply (Z.div_unique _ _ _ 2047); lia.
Qed.

(** An extent of whole sectors, on the disc. *)
Record extent_ok (e n : Z) : Prop := {
  x_start : 0 <= e;
  x_size : 0 < n < 2 ^ 32 - 2048;
  x_whole : (2048 | n);
  x_end : e * 2048 + n <= cap;
}.

Lemma load_directory_spec e n Q s : mounted s -> extent_ok e n ->
  (forall p s', holds s p (run (world s) (e * 2048) n) s' -> Q (Some p) s') -> wp (load_directory E e n) Q s.
Proof.
  intros Hm [He Hn Hw Hc] HQ. unfold load_directory. wp_steps. apply malloc_spec; [lia|done|]. intros p l s1 Hl H1. wp_steps. unfold ISO9660_SECTOR_SIZE.
  destruct (sectors_of n Hn Hw) as (k & Ek & Hk). rewrite Ek, Nat2Z.id. eapply read_directory_spec; [done|done|lia|lia|lia|lia|]. intros s2 H2. cbn [negb]. wp_steps.
  apply HQ. rewrite Z.mul_0_l, Z.add_0_r, <- Hk in H2. by rewrite splice_all in H2 by (rewrite run_length; lia).
Qed.

(** ** Directory records *)

Definition val (r : list Z) (k n : Z) : Z := le_value (take (Z.to_nat n) (drop (Z.to_nat k) r)).

(** A record: its length comes first and its name fits. *)
Record rec_ok (r : list Z) : Prop := {
  ro_length : val r 0 1 = Z.of_nat (length r);
  ro_name : 33 + val r 32 1 <= Z.of_nat (length r);
  ro_bytes : bytes_ok r;
}.

(** The contents [b] of a directory, from [off] on, hold the records [rs]; a zero in
    place of a length ends the records of a sector. *)
Inductive tiles : Z -> list Z -> list (list Z) -> Prop :=
| tiles_end off : tiles off [] []
| tiles_pad off pad b rs : head pad = Some 0 -> Z.of_nat (length pad) = 2048 - off mod 2048 ->
    tiles (off + Z.of_nat (length pad)) b rs -> tiles off (pad ++ b) rs
| tiles_record off r b rs : rec_ok r -> tiles (off + Z.of_nat (length r)) b rs -> tiles off (r ++ b) (r :: rs).

(** Members of a record. *)
Definition name_of (r : list Z) : list Z := take (Z.to_nat (val r 32 1)) (drop 33 r).
Definition location_of (r : list Z) : Z := val r 2 4.
Definition size_of (r : list Z) : Z := val r 10 4.
Definition flags_of (r : list Z) : Z := val r 25 1.
Definition is_dir (r : list Z) : bool := has_flag (flags_of r) ISO9660_ATTR_DIRECTORY.

(** Names: without the version, and with two bytes for each character. *)
Fixpoint seconds (l : list Z) : list Z := match l with _ :: c :: l' => c :: seconds l' | _ => [] end.
Definition plain (r : list Z) : list Z := until SEMICOLON (name_of r).
Definition joliet (r : list Z) : list Z := until SEMICOLON (seconds (name_of r)).

(** The record has that name on a volume with ([j]) or without Joliet names. *)
Definition named (j : bool) (name r : list Z) : bool :=
  (j && (0 <? Z.of_nat (length (joliet r))) && bool_decide (name = cstr (joliet r))) || same_letters name (cstr (plain r)).

Definition record_at (buf : list Z) (o : Z) (r : list Z) : Prop := exists pre post, buf = pre ++ r ++ post /\ o = Z.of_nat (length pre).

Lemma val_byte r k : 0 <= k < Z.of_nat (length r) -> bytes_ok r -> 0 <= val r k 1 < 256.
Proof.
  intros Hk Hb. unfold val. pose proof (le_value_range (take (Z.to_nat 1) (drop (Z.to_nat k) r))) as H.
  rewrite length_take, length_drop, Nat.min_l in H by lia. apply H. by apply Forall_take, Forall_drop.
Qed.

Lemma rec_length r : rec_ok r -> 33 <= Z.of_nat (length r) < 256 /\ Z.of_nat (length (name_of r)) = val r 32 1 /\ 0 <= val r 32 1 < 256.
Proof.
  intros [Hl Hn Hb]. assert (0 < Z.of_nat (length r)) as H0.
  { destruct r as [|c r]; [|cbn; lia]. change (33 + 0 <= 0) in Hn. lia. }
  pose proof (val_byte r 0 ltac:(lia) Hb) as H1. rewrite Hl in H1. assert (33 <= Z.of_nat (length r)) as H33.
  { destruct (decide (32 < Z.of_nat (length r))) as [H|H]; [lia|]. unfold val in Hn. rewrite (drop_ge r) in Hn by lia. rewrite take_nil in Hn. change (le_value []) with 0 in Hn. lia. }
  pose proof (val_byte r 32 ltac:(lia) Hb). split; [lia|]. split; [|lia]. unfold name_of. rewrite length_take, length_drop. lia.
Qed.

Lemma record_bytes buf o r k n Q s : record_at buf o r -> 0 <= k -> 0 <= n -> k + n <= Z.of_nat (length r) ->
  Q (take (Z.to_nat n) (drop (Z.to_nat k) r)) s -> wp (bytes_at buf (o + k) n) Q s.
Proof.
  intros (pre & post & -> & ->) Hk Hn Hl HQ. apply wp_bytes_in; [lia|rewrite !length_app; lia|].
  replace (Z.to_nat (Z.of_nat (length pre) + k)) with (length pre + Z.to_nat k)%nat by lia. rewrite drop_app_add.
  rewrite drop_app_le by lia. rewrite take_app_le by (rewrite length_drop; lia). done.
Qed.

Lemma record_num buf o r k n Q s : record_at buf o r -> 0 <= k -> 0 <= n -> k + n <= Z.of_nat (length r) -> Q (val r k n) s -> wp (num_at buf (o + k) n) Q s.
Proof. intros Hr Hk Hn Hl HQ. unfold num_at. wp_steps. eapply record_bytes; [done..|]. by wp_steps. Qed.

Lemma filename_spec buf o r i c Q s : record_at buf o r -> rec_ok r -> 0 <= i -> name_of r !! Z.to_nat i = Some c -> Q c s -> wp (filename buf o i) Q s.
Proof.
  intros Hr Hok Hi Hc HQ. destruct (rec_length r Hok) as (_ & Hn & _). pose proof (lookup_lt_Some _ _ _ Hc) as Hlt. pose proof (ro_name _ Hok).
  unfold filename. replace (o + 33 + i) with (o + (33 + i)) by lia. eapply record_num; [done|lia|lia|lia|].
  replace (val r (33 + i) 1) with c; [done|]. unfold name_of in Hc. rewrite lookup_take_lt, lookup_drop in Hc by lia.
  unfold val. replace (Z.to_nat (33 + i)) with (33 + Z.to_nat i)%nat by lia. rewrite (drop_S _ c _ Hc). change (Z.to_nat 1) with 1%nat. cbn [take]. rewrite take_0. cbn [le_value foldr]. lia.
Qed.

Lemma plain_name_spec buf o r Q s : record_at buf o r -> rec_ok r -> forall n i, 0 <= i -> (Z.to_nat i + n)%nat = length (name_of r) ->
  Q (until SEMICOLON (drop (Z.to_nat i) (name_of r))) s -> wp (plain_name n buf o i) Q s.
Proof.
  intros Hr Hok n. revert Q. induction n as [|n IH]; intros Q i Hi Hl HQ; cbn [plain_name].
  { wp_steps. by rewrite drop_ge in HQ by lia. }
  destruct (lookup_lt_is_Some_2 (name_of r) (Z.to_nat i)) as [c Hc]; [lia|]. rewrite (drop_S _ c _ Hc) in HQ. cbn [until] in HQ.
  wp_steps. eapply filename_spec; [done..|]. case_if; wp_steps; [done|]. apply IH; [lia|lia|]. wp_steps. by replace (Z.to_nat (i + 1)) with (S (Z.to_nat i)) by lia.
Qed.

Lemma second_bytes_spec buf o r Q s : record_at buf o r -> rec_ok r -> forall n i, 0 <= i -> Z.of_nat n = Z.of_nat (length (name_of r)) / 2 - i ->
  Q (seconds (drop (Z.to_nat (i * 2)) (name_of r))) s -> wp (second_bytes n buf o i) Q s.
Proof.
  intros Hr Hok n. revert Q. pose proof (Z.div_mod (Z.of_nat (length (name_of r))) 2 ltac:(lia)) as Hd. pose proof (Z.mod_pos_bound (Z.of_nat (length (name_of r))) 2 ltac:(lia)) as Hm.
  induction n as [|n IH]; intros Q i Hi Hl HQ; cbn [second_bytes].
  { wp_steps. assert (length (drop (Z.to_nat (i * 2)) (name_of r)) <= 1)%nat as H1 by (rewrite length_drop; lia).
    destruct (drop (Z.to_nat (i * 2)) (name_of r)) as [|x [|y l]]; [done|done|cbn in H1; lia]. }
  destruct (lookup_lt_is_Some_2 (name_of r) (Z.to_nat (i * 2))) as [c0 Hc0]; [lia|].
  destruct (lookup_lt_is_Some_2 (name_of r) (Z.to_nat (i * 2 + 1))) as [c Hc]; [lia|]. rewrite (drop_S _ c0 _ Hc0) in HQ.
  replace (S (Z.to_nat (i * 2))) with (Z.to_nat (i * 2 + 1)) in HQ by lia. rewrite (drop_S _ c _ Hc) in HQ. cbn [seconds] in HQ.
  wp_steps. eapply filename_spec; [done|done|lia|done|]. wp_steps. apply IH; [lia|lia|]. wp_steps. by replace (Z.to_nat ((i + 1) * 2)) with (S (Z.to_nat (i * 2 + 1))) by lia.
Qed.

Lemma filename_length_spec buf o r Q s : record_at buf o r -> rec_ok r -> Q (val r 32 1) s -> wp (filename_length buf o) Q s.
Proof. intros Hr Hok HQ. destruct (rec_length r Hok). eapply record_num; [done|lia|lia|lia|done]. Qed.

Lemma extended_name_spec buf o r Q s : record_at buf o r -> rec_ok r ->
  Q (if has_joliet s then (Z.of_nat (length (joliet r)), joliet r) else (0, [])) s -> wp (iso9660_parse_extended_name buf o 256) Q s.
Proof.
  intros Hr Hok HQ. unfold iso9660_parse_extended_name. wp_steps. destruct (has_joliet s); [|by wp_steps]. wp_steps. eapply filename_length_spec; [done..|]. wp_steps.
  destruct (rec_length r Hok) as (_ & Hn & Hb). assert (val r 32 1 / 2 < 128) by (apply Z.div_lt_upper_bound; lia). pose proof (Z.div_pos (val r 32 1) 2 ltac:(lia) ltac:(lia)).
  rewrite Z.min_l by lia. eapply second_bytes_spec; [done|done|lia|rewrite Hn; lia|]. change (Z.to_nat (0 * 2)) with 0%nat. rewrite drop_0. by wp_steps.
Qed.

Lemma record_matches_spec name buf o r Q s : record_at buf o r -> rec_ok r -> Q (named (has_joliet s) name r) s -> wp (record_matches name buf o) Q s.
Proof.
  intros Hr Hok HQ. unfold record_matches. wp_steps. unfold named in HQ. destruct (rec_length r Hok) as (_ & Hn & Hb).
  assert (forall Q, Q (same_letters name (cstr (plain r))) s -> wp (filename_length buf o) (fun len => wp (iso9660_name_compare name buf o len) Q) s) as Hplain.
  { intros Q' HQ'. eapply filename_length_spec; [done..|]. unfold iso9660_name_compare. wp_steps. rewrite Z.min_l by lia.
    eapply plain_name_spec; [done|done|lia|lia|]. change (Z.to_nat 0) with 0%nat. rewrite drop_0. by wp_steps. }
  destruct (has_joliet s) eqn:Hj; wp_steps; [|by apply Hplain]. eapply extended_name_spec; [done..|]. rewrite Hj. cbn [fst snd]. wp_steps. cbn [andb] in HQ.
  destruct (_ && _); cbn [orb] in HQ; wp_steps; [done|by apply Hplain].
Qed.

(** ** Directories *)

Lemma r_length_spec buf o r Q s : record_at buf o r -> rec_ok r -> Q (Z.of_nat (length r)) s -> wp (r_length buf o) Q s.
Proof.
  intros Hr Hok HQ. destruct (rec_length r Hok). unfold r_length. rewrite <- (Z.add_0_r o). eapply record_num; [done|lia|lia|lia|]. by rewrite (ro_length _ Hok).
Qed.

Lemma pad_spec pre pad post Q s : head pad = Some 0 -> Q 0 s -> wp (r_length (pre ++ pad ++ post) (Z.of_nat (length pre))) Q s.
Proof.
  intros Hp HQ. destruct pad as [|c pad]; [done|]. injection Hp as ->. unfold r_length. rewrite <- (Z.add_0_r (Z.of_nat _)).
  eapply (record_num _ _ [0]); [by exists pre, (pad ++ post)|lia|lia|cbn; lia|done].
Qed.

Lemma next_sector_spec off n : 0 <= off -> n = 2048 - off mod 2048 -> off + n < 2 ^ 32 -> next_sector off = off + n.
Proof.
  intros H0 -> Hlt. unfold next_sector, ISO9660_SECTOR_SIZE. pose proof (Z.div_mod off 2048 ltac:(lia)) as Hd. pose proof (Z.mod_pos_bound off 2048 ltac:(lia)).
  rewrite u32_small by lia. lia.
Qed.

Lemma head_length (l : list Z) : head l = Some 0 -> (0 < length l)%nat.
Proof. destruct l; [done|cbn; lia]. Qed.

Lemma find_record_spec name off b rs : tiles off b rs -> forall pre fuel size Q s, off = Z.of_nat (length pre) ->
  size = Z.of_nat (length (pre ++ b)) -> size < 2 ^ 32 -> (length b <= fuel)%nat ->
  (find (named (has_joliet s) name) rs = None -> Q None s) ->
  (forall r o, find (named (has_joliet s) name) rs = Some r -> rec_ok r -> record_at (pre ++ b) o r -> Q (Some o) s) ->
  wp (find_record fuel name (pre ++ b) size off) Q s.
Proof.
  induction 1 as [off|off pad b rs Hp Hlen _ IH|off r b rs Hr _ IH]; intros pre fuel size Q s Hoff Hs Hlt Hf HN HS.
  - destruct fuel; cbn [find_record]; (destruct (Z.leb_spec size off); [wp_steps; by apply HN|]); rewrite length_app in Hs; cbn in Hs; lia.
  - pose proof (head_length _ Hp). rewrite !length_app in *. destruct fuel as [|fuel]; [lia|]. cbn [find_record].
    destruct (Z.leb_spec size off); [lia|]. wp_steps. rewrite Hoff. apply pad_spec; [done|]. cbn [Z.eqb].
    rewrite (next_sector_spec _ (Z.of_nat (length pad))) by (rewrite <- ?Hoff; lia). rewrite <- Hoff, app_assoc in *.
    apply IH; [rewrite length_app; lia|rewrite !length_app; lia|lia|lia|done|done].
  - destruct (rec_length r Hr) as (Hl & _). rewrite !length_app in *. destruct fuel as [|fuel]; [lia|]. cbn [find_record find] in *.
    assert (record_at (pre ++ r ++ b) off r) as Hat by by exists pre, b.
    destruct (Z.leb_spec size off); [lia|]. wp_steps. eapply r_length_spec; [done..|]. destruct (Z.eqb_spec (Z.of_nat (length r)) 0); [lia|]. wp_steps.
    eapply record_matches_spec; [done..|]. destruct (named (has_joliet s) name r); [wp_steps; by apply (HS r)|].
    rewrite u32_small by lia. rewrite app_assoc in *. apply IH; [rewrite length_app; lia|rewrite !length_app; lia|lia|lia|done|done].
Qed.

(** The directory in an extent of the disc. *)
Definition dir (w : D) (e n : Z) (rs : list (list Z)) : Prop := extent_ok e n /\ tiles 0 (run w (e * 2048) n) rs.

Lemma moved_dir s h s' e n rs : moved s h s' -> dir (world s) e n rs -> dir (world s') e n rs.
Proof. intros H [Hx Ht]. split; [done|]. by rewrite (moved_run _ _ _ _ _ H). Qed.

Lemma find_file_spec name e n rs Q s : mounted s -> dir (world s) e n rs ->
  (forall s', find (named (has_joliet s) name) rs = None -> same s s' -> Q (inl ISO9660_ERR_NOT_FOUND) s') ->
  (forall r p o b s', find (named (has_joliet s) name) rs = Some r -> rec_ok r -> holds s p b s' -> record_at b o r -> Q (inr (p, o)) s') ->
  wp (find_file_in_dir E name e n) Q s.
Proof.
  intros Hm [Hx Ht] HN HS. unfold find_file_in_dir. wp_steps. apply load_directory_spec; [done..|]. intros p s1 H1. wp_steps. eapply iso_block_spec; [done|]. wp_steps.
  assert (has_joliet s1 = has_joliet s) as Hj by by destruct H1 as ((w & k & -> & _) & _). destruct (x_size _ _ Hx).
  eapply (find_record_spec name _ _ _ Ht []); [done|rewrite app_nil_l, run_length; lia|lia|rewrite run_length; lia| |].
  - rewrite Hj. intros Hf. wp_steps. eapply iso_free_spec; [done|]. intros s2 H2. wp_steps. by apply HN.
  - rewrite Hj. intros r o Hf Hr Hat. wp_steps. by eapply HS.
Qed.

(** ** Paths *)

(** The end of a search: a record, no such name, or a file in the middle of the path. *)
Inductive answer : Type :=
| Found (r : list Z)
| Missing
| Through.

(** The search for the names in the directory at [e] of size [n], on a volume with or
    without Joliet names. *)
Inductive looks (w : D) (j : bool) : Z -> Z -> list (list Z) -> answer -> Prop :=
| looks_missing e n name names rs : dir w e n rs -> find (named j name) rs = None -> looks w j e n (name :: names) Missing
| looks_found e n name rs r : dir w e n rs -> find (named j name) rs = Some r -> looks w j e n [name] (Found r)
| looks_through e n name name' names rs r : dir w e n rs -> find (named j name) rs = Some r -> is_dir r = false ->
    looks w j e n (name :: name' :: names) Through
| looks_down e n name name' names rs r a : dir w e n rs -> find (named j name) rs = Some r -> is_dir r = true ->
    looks w j (location_of r) (size_of r) (name' :: names) a -> looks w j e n (name :: name' :: names) a.

(** What the search leaves: the record in a block of memory that is to be freed; nothing; or
    the pointer to a block that was freed. *)
Definition leaves s (a : answer) (r : Z * pointers) s' : Prop :=
  match a with
  | Found rc => rec_ok rc /\ exists p o b, holds s p b s' /\ record_at b o rc /\ r = (0, (Some (p, o), Some p))
  | Missing => same s s' /\ exists x, r = (ISO9660_ERR_NOT_FOUND, (x, None))
  | Through => same s s' /\ exists x p, heap s' !! p = None /\ r = (ISO9660_ERR_NOT_FOUND, (x, Some p))
  end.

Lemma leaves_same s s1 a r s2 : same s s1 -> leaves s1 a r s2 -> leaves s a r s2.
Proof.
  intros H. destruct a; cbn.
  - intros (Hr & p & o & b & Hh & Hx). split; [done|]. exists p, o, b. split; [by eapply same_holds|done].
  - intros (Hs & Hx). split; [by etrans|done].
  - intros (Hs & Hx). split; [by etrans|done].
Qed.

Lemma iso_join_cons name name' names : join (name :: name' :: names) = name ++ SLASH :: join (name' :: names).
Proof. done. Qed.

Lemma iso_join_nonempty name names : name_ok name -> join (name :: names) <> [].
Proof. intros [Hl _]. destruct names; cbn; destruct name; cbn in *; try lia; done. Qed.

Lemma looks_same s s' j e n names a : same s s' -> looks (world s) j e n names a -> looks (world s') j e n names a.
Proof.
  intros H. induction 1; [eapply looks_missing|eapply looks_found|eapply looks_through|eapply looks_down]; try done; by eapply moved_dir.
Qed.

Lemma walk_step fuel name tail e n out : name_ok name -> match tail with [] => True | c :: _ => c = SLASH end ->
  walk E (S fuel) (name ++ tail) e n out =
    (r <- find_file_in_dir E name e n ;;
     match r with
     | inl x => ret (x, out)
     | inr (p, off) =>
         match skip_slash tail with
         | [] => ret (0, (Some (p, off), Some p))
         | _ =>
             b <- block p ;;
             flags <- file_flags b off ;;
             if negb (has_flag flags ISO9660_ATTR_DIRECTORY) then
               free p ;;; ret (ISO9660_ERR_NOT_FOUND, (Some (p, off), Some p))
             else
               sector <- extent_location b off ;;
               size <- data_length b off ;;
               free p ;;;
               walk E fuel (skip_slash tail) sector size (Some (p, off), None)
         end
     end).
Proof.
  intros [Hl Hc] Ht. pose proof (Ext2Thms.component_name 255 name tail ltac:(lia) Hc Ht) as H.
  destruct name as [|c name]; [cbn in Hl; lia|]. cbn [app] in *. cbn [walk]. by rewrite H.
Qed.

Lemma skip_join name names : name_ok name -> exists c l, skip_slash (SLASH :: join (name :: names)) = c :: l /\ c :: l = join (name :: names).
Proof. intros H. change (skip_slash (SLASH :: join (name :: names))) with (join (name :: names)). destruct (join (name :: names)) eqn:Ej; [by destruct (iso_join_nonempty name names H)|]. by eexists _, _. Qed.

Lemma iso_walk_spec w j e n names a : looks w j e n names a -> forall fuel out Q s, (forall e n rs, dir w e n rs -> dir (world s) e n rs) -> has_joliet s = j ->
  mounted s -> Forall name_ok names -> (length (join names) <= fuel)%nat -> snd out = None -> (forall r s', leaves s a r s' -> Q r s') ->
  wp (walk E fuel (join names) e n out) Q s.
Proof.
  induction 1 as [e n name names rs Hd Hf|e n name rs r Hd Hf|e n name name' names rs r Hd Hf Hdir|e n name name' names rs r a Hd Hf Hdir _ IH];
    intros fuel out Q s Hw Hj Hm Hn Hfuel Ho HQ; apply Hw in Hd; rewrite <- Hj in Hf; apply Forall_cons in Hn as [Hn Hns];
    (destruct fuel as [|fuel]; [exfalso; eapply (iso_join_nonempty name); [done|]; apply length_zero_iff_nil, Nat.le_0_r; exact Hfuel|]).
  - assert (exists tail, join (name :: names) = name ++ tail /\ match tail with [] => True | c :: _ => c = SLASH end) as (tail & -> & Ht).
    { destruct names as [|name' names]; [exists []; by rewrite app_nil_r|]. by eexists. }
    rewrite walk_step by done. wp_steps. eapply find_file_spec; [done|done| |by rewrite Hf]. intros s1 _ H1. wp_steps. apply HQ. split; [done|].
    destruct out as [x o]. cbn in Ho. subst o. by exists x.
  - change (join [name]) with name in *. rewrite <- (app_nil_r name), walk_step by done. wp_steps. eapply find_file_spec; [done|done|by rewrite Hf|].
    intros r' p o b s1 Hf' Hr Hh Hat. rewrite Hf in Hf'. injection Hf' as <-. cbn [skip_slash Ext2.skip_slash]. wp_steps. apply HQ. split; [done|]. by exists p, o, b.
  - rewrite iso_join_cons in *. rewrite walk_step by done. apply Forall_cons in Hns as [Hn' _]. destruct (skip_join name' names Hn') as (c & l & -> & _).
    wp_steps. eapply find_file_spec; [done|done|by rewrite Hf|]. intros r' p o b s1 Hf' Hr Hh Hat. rewrite Hf in Hf'. injection Hf' as <-.
    destruct (rec_length r Hr). wp_steps. eapply iso_block_spec; [done|]. wp_steps. unfold file_flags. eapply record_num; [done|lia|lia|lia|].
    fold (flags_of r). fold (is_dir r). rewrite Hdir. cbn [negb]. wp_steps. eapply iso_free_spec; [done|]. intros s2 H2. wp_steps. apply HQ. split; [done|].
    eexists _, p. split; [|done]. destruct H2 as (w2 & k2 & -> & _). by destruct Hh as (_ & Hh & _).
  - rewrite iso_join_cons in *. rewrite walk_step by done. destruct (skip_join name' names (Forall_inv Hns)) as (c & l & Hsk & Hj').
    rewrite Hsk. wp_steps. eapply find_file_spec; [done|done|by rewrite Hf|]. intros r' p o b s1 Hf' Hr Hh Hat. rewrite Hf in Hf'. injection Hf' as <-.
    destruct (rec_length r Hr). wp_steps. eapply iso_block_spec; [done|]. wp_steps. unfold file_flags. eapply record_num; [done|lia|lia|lia|].
    fold (flags_of r). fold (is_dir r). rewrite Hdir. cbn [negb]. wp_steps. unfold extent_location. eapply record_num; [done|lia|lia|lia|]. wp_steps.
    unfold data_length. eapply record_num; [done|lia|lia|lia|]. wp_steps. eapply iso_free_spec; [done|]. intros s2 H2. fold (location_of r) (size_of r).
    rewrite Hj'. apply IH; [|by destruct H2 as (w2 & k2 & -> & _)|by eapply iso_same_mounted|done| |done|].
    + intros e1 n1 rs1 Hd1. eapply moved_dir; [exact H2|]. by apply Hw.
    + rewrite length_app in Hfuel. cbn [length] in Hfuel. destruct Hn. lia.
    + intros r1 s3 H3. apply HQ. by eapply leaves_same.
Qed.

(** The search for a path from the root directory. *)
Lemma parse_path_spec names a Q s : mounted s -> looks (world s) (has_joliet s) (root_directory_extent s) (root_directory_size s) names a ->
  Forall name_ok names -> (forall r s', leaves s a r s' -> Q r s') -> wp (parse_path E (Some (SLASH :: join names))) Q s.
Proof.
  intros Hm Hl Hn HQ. assert (exists name names', names = name :: names') as (name & names' & ->) by (destruct Hl; eauto).
  destruct (skip_join name names' (Forall_inv Hn)) as (c & l & Hs & Hj). unfold parse_path. wp_steps. rewrite Hs, Hj. by eapply iso_walk_spec.
Qed.

(** ** Files *)

Lemma record_dword r k : rec_ok r -> 0 <= k <= 29 -> 0 <= val r k 4 < 2 ^ 32.
Proof.
  intros Hr Hk. destruct (rec_length r Hr) as (Hl & _). unfold val. pose proof (le_value_range (take (Z.to_nat 4) (drop (Z.to_nat k) r))) as H.
  rewrite length_take, length_drop, Nat.min_l in H by lia. apply H. by apply Forall_take, Forall_drop, (ro_bytes _ Hr).
Qed.

Lemma looks_record w j e n names r : looks w j e n names (Found r) -> exists e n rs name, dir w e n rs /\ find (named j name) rs = Some r.
Proof. intros H. remember (Found r) as a eqn:Ha. revert Ha. induction H as [| | |e n name name' names rs r' a Hd Hf Hdir _ IH]; intros Ha; [done| |done|by apply IH]. injection Ha as <-. by eexists _, _, _, _. Qed.

Lemma fresh_sector : length (fresh E 2048) = 2048%nat.
Proof. unfold fresh. by rewrite length_map, length_seq. Qed.

Lemma splice_0 buf l : splice buf 0 l = l ++ drop (length l) buf.
Proof. unfold splice. by rewrite take_0. Qed.

(** The whole sectors of a file, when there are any. *)
Lemma full_sectors_spec e k buf Q s : mounted s -> 0 <= e -> 0 <= k < 2 ^ 20 -> (e + k) * 2048 <= cap -> k * 2048 <= Z.of_nat (length buf) ->
  (forall s', same s s' -> Q (k * 2048, splice buf 0 (run (world s) (e * 2048) (k * 2048))) s') ->
  wp (if 0 <? k then iso9660_read_sector E e buf k else ret (0, buf)) Q s.
Proof.
  intros Hm He Hk Hc Hl HQ. destruct (Z.ltb_spec 0 k).
  - unfold iso9660_read_sector. wp_steps. apply read_sectors_spec; [done|done|lia|lia|lia|]. intros s' Hs'. wp_steps. cbn [fst snd].
    unfold ISO9660_SECTOR_SIZE. rewrite to_int_small by lia. rewrite Z.add_0_r, Z2Nat.id by lia. by apply HQ.
  - assert (k = 0) as -> by lia. wp_steps. rewrite splice_nothing in HQ. apply HQ. reflexivity.
Qed.

(** The last part of a file is the start of a sector. *)
Lemma sector_start w k m : 0 <= m <= 2048 -> take (Z.to_nat m) (sector w k) = run w (k * 2048) m.
Proof.
  intros Hm. unfold sector. replace 2048 with (m + (2048 - m)) at 2 by lia. rewrite iso_run_app by lia.
  rewrite take_app_le by (rewrite run_length; lia). apply take_ge. rewrite run_length. lia.
Qed.

(** C23. Reading a file. [iso9660_read_file] finds the record the path leads to and stores the
    first bytes of its extent in the buffer, as many as the file has and the caller asks for;
    the rest of the buffer, memory and the disc stay as they are. *)
Theorem iso9660_read_file_exact names r buf size s (n := Z.min (size_of r) size) : mounted s ->
  looks (world s) (has_joliet s) (root_directory_extent s) (root_directory_size s) names (Found r) -> Forall name_ok names ->
  is_dir r = false -> 0 <= size < 2 ^ 31 -> n <= Z.of_nat (length buf) -> (location_of r + (n + 2047) / 2048) * 2048 <= cap ->
  wp (iso9660_read_file E (Some (SLASH :: join names)) buf size)
     (fun x s' => same s s' /\ x = (n, run (world s) (location_of r * 2048) n ++ drop (Z.to_nat n) buf)) s.
Proof.
  intros Hm Hlook Hn Hdir Hsize Hbuf Hcap. unfold iso9660_read_file. wp_steps. eapply parse_path_spec; [done..|].
  intros x s1 (Hr & p & o & b & Hh & Hat & ->). cbn [Z.ltb]. change (0 <? 0) with false. cbn [deref]. wp_steps. cbn [fst snd].
  destruct (rec_length r Hr). eapply iso_block_spec; [done|]. wp_steps. unfold file_flags. eapply record_num; [done|lia|lia|lia|].
  fold (flags_of r). fold (is_dir r). rewrite Hdir. wp_steps. unfold data_length. eapply record_num; [done|lia|lia|lia|]. wp_steps.
  unfold extent_location. eapply record_num; [done|lia|lia|lia|]. wp_steps. fold (location_of r) (size_of r). cbn [free_if]. eapply iso_free_spec; [done|]. intros s2 H2.
  pose proof (record_dword r 2 Hr ltac:(lia)) as Hloc. fold (location_of r) in Hloc. pose proof (record_dword r 10 Hr ltac:(lia)) as Hsz. fold (size_of r) in Hsz.
  rewrite (u32_small size) by lia. assert ((if size_of r <? size then size_of r else size) = n) as -> by (unfold n; destruct (Z.ltb_spec (size_of r) size); lia).
  assert (0 <= n < 2 ^ 31) as Hn31 by (unfold n; lia). clearbody n. unfold ISO9660_SECTOR_SIZE.
  pose proof (Z.div_mod n 2048 ltac:(lia)) as Hdm. pose proof (Z.mod_pos_bound n 2048 ltac:(lia)) as Hmod. pose proof (Z.div_pos n 2048 ltac:(lia) ltac:(lia)) as Hdp.
  assert (n / 2048 < 2 ^ 20) by (apply Z.div_lt_upper_bound; lia). pose proof (Z.div_mod (n + 2047) 2048 ltac:(lia)). pose proof (Z.mod_pos_bound (n + 2047) 2048 ltac:(lia)).
  assert (mounted s2) as Hm2 by by eapply iso_same_mounted. destruct disc_size as (_ & _ & Hc).
  wp_steps. apply full_sectors_spec; [done|lia|lia|lia|lia|]. intros s3 Hs3. assert (same s s3) as H03 by by etrans. cbn [fst snd]. destruct (Z.ltb_spec (n / 2048 * 2048) 0); [lia|].
  rewrite (moved_run _ _ _ _ _ H2). set (l := run (world s) (location_of r * 2048) (n / 2048 * 2048)). assert (length l = Z.to_nat (n / 2048 * 2048)) as Hl by apply run_length.
  destruct (Z.ltb_spec 0 (n mod 2048)).
  - wp_steps. rewrite u32_small by lia. apply read_raw_sector_spec; [by eapply iso_same_mounted|split; lia|lia|rewrite fresh_sector; lia|].
    intros s4 Hs4. cbn [fst snd]. change (0 <? 0) with false. change (Z.to_nat 0) with 0%nat. rewrite (splice_all (fresh E 2048)) by (by rewrite fresh_sector, iso_sector_length). wp_steps.
    apply wp_bytes_in; [lia|rewrite iso_sector_length; lia|]. rewrite drop_0, sector_start by lia. wp_steps.
    rewrite (moved_run _ _ _ _ _ H03). apply wp_copy_to; [lia|rewrite run_length, splice_length; lia|]. wp_steps. split; [by etrans|].
    rewrite to_int_small by lia. f_equal; [lia|]. rewrite <- Hl. change (length l) with (0 + length l)%nat. rewrite splice_app by (rewrite run_length; lia).
    replace ((location_of r + n / 2048) * 2048) with (location_of r * 2048 + n / 2048 * 2048) by lia. unfold l. rewrite <- iso_run_app by lia.
    replace (n / 2048 * 2048 + n mod 2048) with n by lia. by rewrite splice_0, run_length.
  - wp_steps. split; [done|]. rewrite to_int_small by lia. unfold l in *. replace (n / 2048 * 2048) with n in * by lia. by rewrite splice_0, Hl.
Qed.

(** Whether a file exists. For a path whose directories exist, the answer is 1 when the last
    name is in its directory and 0 when a name is missing; memory is as it was. *)
Theorem iso9660_file_exists_exact names a s : mounted s ->
  looks (world s) (has_joliet s) (root_directory_extent s) (root_directory_size s) names a -> Forall name_ok names -> a <> Through ->
  wp (iso9660_file_exists E (Some (SLASH :: join names))) (fun x s' => same s s' /\ x = match a with Found _ => 1 | _ => 0 end) s.
Proof.
  intros Hm Hlook Hn Ha. unfold iso9660_file_exists. wp_steps. eapply parse_path_spec; [done..|]. intros x s1 H. destruct a; [| |done].
  - destruct H as (Hr & p & o & b & Hh & Hat & ->). wp_steps. cbn [free_if]. eapply iso_free_spec; [done|]. intros s2 H2. by wp_steps.
  - destruct H as (Hs & x' & ->). cbn [free_if]. by wp_steps.
Qed.

(** C40. A path through a file. When a name in the middle of the path is that of a file, the
    search frees its buffer and leaves the pointer to it; [iso9660_file_exists] frees it again. *)
Theorem iso9660_exists_double_free names s : mounted s ->
  looks (world s) (has_joliet s) (root_directory_extent s) (root_directory_size s) names Through -> Forall name_ok names ->
  iso9660_file_exists E (Some (SLASH :: join names)) s = Fault.
Proof.
  intros Hm Hlook Hn. assert (wp (parse_path E (Some (SLASH :: join names))) (leaves s Through) s) as Hw by (eapply parse_path_spec; [done..|]; auto).
  destruct (wp_returns _ _ _ Hw) as (x & s1 & Hrun & Hs & y & p & Hp & ->). unfold iso9660_file_exists. rewrite (bind_run _ _ _ _ _ Hrun). cbn beta iota.
  apply bind_fault. cbn [free_if]. unfold free. rewrite (bind_run _ _ s1 s1 s1) by done. rewrite Hp. done.
Qed.

(** ** Listings *)

(** The records that are listed: not the directory itself or its parent. *)
Definition dots (r : list Z) : bool := bool_decide (name_of r = [0]) || bool_decide (name_of r = [1]).

Definition listed (j : bool) (r : list Z) : file_entry :=
  let name := if j && (0 <? Z.of_nat (length (joliet r))) then joliet r else plain r in
  mk_file (take 255 (cstr name)) (flags_of r) (size_of r) (location_of r) (take 7 (drop 18 r)).

(** Entries stored in an array from index [k] on. *)
Definition stored (l : list file_entry) (k : nat) (es : list file_entry) : list file_entry := take k l ++ es ++ drop (k + length es) l.

Lemma stored_nil l k : stored l k [] = l.
Proof. unfold stored. cbn [length app]. rewrite Nat.add_0_r. apply take_drop. Qed.

Lemma stored_cons l k e es : (k < length l)%nat -> stored (<[k := e]> l) (S k) es = stored l k (e :: es).
Proof.
  intros Hk. unfold stored. rewrite (take_S_r _ _ e) by (by apply list_lookup_insert_eq). rewrite take_insert_ge, drop_insert_lt by lia.
  cbn [length]. rewrite <- app_assoc. replace (k + S (length es))%nat with (S k + length es)%nat by lia. done.
Qed.

Lemma is_dots_spec buf o r Q s : record_at buf o r -> rec_ok r -> Q (dots r) s -> wp (is_dots buf o) Q s.
Proof.
  intros Hr Hok HQ. destruct (rec_length r Hok) as (_ & Hn & _). unfold is_dots. wp_steps. eapply filename_length_spec; [done..|]. unfold dots in HQ.
  destruct (name_of r) as [|c [|c' l]] eqn:Hname; cbn [length] in Hn.
  - destruct (Z.eqb_spec (val r 32 1) 1); [lia|]. wp_steps. by rewrite !bool_decide_eq_false_2 in HQ by done.
  - destruct (Z.eqb_spec (val r 32 1) 1); [|lia]. wp_steps. eapply (filename_spec _ _ _ 0); [done|done|lia|by rewrite Hname|]. wp_steps.
    assert (forall k, bool_decide ([c] = [k]) = (c =? k)) as Hc
      by (intros k; destruct (Z.eqb_spec c k) as [->|Hk]; [by apply bool_decide_eq_true_2|apply bool_decide_eq_false_2; congruence]).
    by rewrite !Hc in HQ.
  - destruct (Z.eqb_spec (val r 32 1) 1); [lia|]. wp_steps. by rewrite !bool_decide_eq_false_2 in HQ by done.
Qed.

Lemma iso_entry_of_spec buf o r Q s : record_at buf o r -> rec_ok r -> Q (listed (has_joliet s) r) s -> wp (entry_of buf o) Q s.
Proof.
  intros Hr Hok HQ. destruct (rec_length r Hok) as (Hl & Hn & _). unfold entry_of. wp_steps. eapply extended_name_spec; [done..|].
  set (name := if has_joliet s && (0 <? Z.of_nat (length (joliet r))) then joliet r else plain r).
  assert (forall e, e = (if has_joliet s then (Z.of_nat (length (joliet r)), joliet r) else (0, [])) -> forall Q, Q name s ->
    wp (if fst e =? 0 then len <- filename_length buf o ;; plain_name (Z.to_nat len) buf o 0 else ret (snd e)) Q s) as Hname.
  { intros e -> Q' HQ'. unfold name in HQ'. assert (forall Q, Q (plain r) s -> wp (len <- filename_length buf o ;; plain_name (Z.to_nat len) buf o 0) Q s) as Hp.
    { intros Q2 HQ2. wp_steps. eapply filename_length_spec; [done..|]. eapply plain_name_spec; [done|done|lia|lia|]. change (Z.to_nat 0) with 0%nat. by rewrite drop_0. }
    destruct (has_joliet s); cbn [fst snd andb] in *; [|by apply Hp]. destruct (Z.ltb_spec 0 (Z.of_nat (length (joliet r)))), (Z.eqb_spec (Z.of_nat (length (joliet r))) 0); try lia;
      [by wp_steps|by apply Hp]. }
  wp_steps. apply Hname; [done|]. wp_steps. unfold file_flags, data_length, extent_location, recording_date. eapply record_num; [done|lia|lia|lia|]. wp_steps.
  eapply record_num; [done|lia|lia|lia|]. wp_steps. eapply record_num; [done|lia|lia|lia|]. wp_steps. eapply record_bytes; [done|lia|lia|lia|]. by wp_steps.
Qed.

Definition shown (rs : list (list Z)) : list (list Z) := base.filter (fun r => dots r = false) rs.

Lemma list_records_spec max off b rs : tiles off b rs -> forall pre fuel size found l Q s, off = Z.of_nat (length pre) ->
  size = Z.of_nat (length (pre ++ b)) -> size < 2 ^ 32 -> (length b <= fuel)%nat -> 0 <= found <= max -> max <= Z.of_nat (length l) ->
  (let es := map (listed (has_joliet s)) (take (Z.to_nat (max - found)) (shown rs)) in
   Q (found + Z.of_nat (length es), Some (stored l (Z.to_nat found) es)) s) ->
  wp (list_records fuel (pre ++ b) size off found max (Some l)) Q s.
Proof.
  induction 1 as [off|off pad b rs Hp Hlen _ IH|off r b rs Hr _ IH]; intros pre fuel size found l Q s Hoff Hs Hlt Hf Hfound Hmax HQ; cbv zeta in HQ.
  - assert ((size <=? off) || (max <=? found) = true) as Hend by (destruct (Z.leb_spec size off); [done|]; rewrite length_app in Hs; cbn in Hs; lia).
    change (shown []) with (@nil (list Z)) in HQ. rewrite take_nil in HQ. cbn [map length] in HQ. rewrite stored_nil, Z.add_0_r in HQ. destruct fuel; cbn [list_records]; rewrite Hend; by wp_steps.
  - pose proof (head_length _ Hp). rewrite !length_app in *. destruct fuel as [|fuel]; [lia|]. cbn [list_records]. destruct (Z.leb_spec size off); [lia|]. cbn [orb].
    destruct (Z.leb_spec max found).
    { wp_steps. replace (Z.to_nat (max - found)) with 0%nat in HQ by lia. rewrite take_0 in HQ. cbn [map length] in HQ. by rewrite stored_nil, Z.add_0_r in HQ. }
    wp_steps. rewrite Hoff. apply pad_spec; [done|]. cbn [Z.eqb]. rewrite (next_sector_spec _ (Z.of_nat (length pad))) by (rewrite <- ?Hoff; lia). rewrite <- Hoff, app_assoc.
    apply IH; [rewrite length_app; lia|rewrite !length_app; lia|lia|lia|done|done|done].
  - destruct (rec_length r Hr) as (Hl & _). rewrite !length_app in *. destruct fuel as [|fuel]; [lia|]. cbn [list_records].
    assert (record_at (pre ++ r ++ b) off r) as Hat by by exists pre, b. destruct (Z.leb_spec size off); [lia|]. cbn [orb].
    destruct (Z.leb_spec max found).
    { wp_steps. replace (Z.to_nat (max - found)) with 0%nat in HQ by lia. rewrite take_0 in HQ. cbn [map length] in HQ. by rewrite stored_nil, Z.add_0_r in HQ. }
    wp_steps. eapply r_length_spec; [done..|]. destruct (Z.eqb_spec (Z.of_nat (length r)) 0); [lia|]. wp_steps. eapply is_dots_spec; [done..|].
    rewrite u32_small by lia. unfold shown in HQ. destruct (dots r) eqn:Hdots.
    + rewrite filter_cons_False in HQ by congruence. rewrite app_assoc. apply IH; [rewrite length_app; lia|rewrite !length_app; lia|lia|lia|done|done|done].
    + rewrite filter_cons_True in HQ by done. wp_steps. eapply iso_entry_of_spec; [done..|]. wp_steps. rewrite arr_set_some by lia. cbn [deref]. wp_steps.
      replace (Z.to_nat (max - found)) with (S (Z.to_nat (max - (found + 1)))) in HQ by lia. cbn [take map length] in HQ. rewrite <- stored_cons in HQ by lia.
      replace (S (Z.to_nat found)) with (Z.to_nat (found + 1)) in HQ by lia.
      rewrite app_assoc. apply IH; [rewrite length_app; lia|rewrite !length_app; lia|lia|lia|lia|rewrite length_insert; lia|]. cbv zeta. unfold shown.
      match goal with HQ : Q (?a, _) s |- Q (?b, _) s => replace b with a by lia end. done.
Qed.

Lemma list_from_spec e n rs l max Q s : mounted s -> dir (world s) e n rs -> 0 <= max <= Z.of_nat (length l) ->
  (let es := map (listed (has_joliet s)) (take (Z.to_nat max) (shown rs)) in
   forall s', same s s' -> Q (Z.of_nat (length es), Some (es ++ drop (length es) l)) s') -> wp (list_from E e n max (Some l)) Q s.
Proof.
  intros Hm [Hx Ht] Hmax HQ. unfold list_from. wp_steps. apply load_directory_spec; [done..|]. intros p s1 H1. wp_steps. eapply iso_block_spec; [done|]. wp_steps.
  assert (has_joliet s1 = has_joliet s) as Hj by by destruct H1 as ((w & k & -> & _) & _). destruct (x_size _ _ Hx).
  eapply (list_records_spec max _ _ _ Ht []); [done|rewrite app_nil_l, run_length; lia|lia|rewrite run_length; lia|lia|lia|]. cbv zeta in *. rewrite Z.sub_0_r, Hj.
  wp_steps. eapply iso_free_spec; [done|]. intros s2 H2. wp_steps. apply HQ in H2. unfold stored. change (Z.to_nat 0) with 0%nat. rewrite take_0. exact H2.
Qed.

(** The extent of the directory a path leads to; that of the root directory is in its own
    first record. *)
Inductive target s : list (list Z) -> Z -> Z -> Prop :=
| target_root (b := sector (world s) (root_directory_extent s)) : target s [] (val b 2 4) (val b 10 4)
| target_path names r : looks (world s) (has_joliet s) (root_directory_extent s) (root_directory_size s) names (Found r) -> is_dir r = true ->
    target s names (location_of r) (size_of r).

(** Listing a directory. The array gets one entry for each record of the directory, in
    their order and up to its size, without those of the directory itself and its parent; the
    result is their number, and the rest of the array, memory and the disc stay as they are. *)
Theorem iso9660_list_exact names e n rs l max s (es := map (listed (has_joliet s)) (take (Z.to_nat max) (shown rs))) : mounted s ->
  in_range (root_directory_extent s) -> Forall name_ok names -> target s names e n -> dir (world s) e n rs -> 0 <= max <= Z.of_nat (length l) ->
  wp (iso9660_list_directory E (Some (SLASH :: join names)) (Some l) max)
     (fun x s' => same s s' /\ x = (Z.of_nat (length es), Some (es ++ drop (length es) l))) s.
Proof.
  intros Hm Hroot Hn Ht Hd Hmax. unfold iso9660_list_directory. destruct Ht as [b|names r Hlook Hdir].
  - cbn [is_root Ext2Thms.join]. rewrite Z.eqb_refl. unfold ISO9660_SECTOR_SIZE. wp_steps. apply read_raw_sector_spec; [done|done|lia|rewrite fresh_sector; lia|]. intros s1 H1.
    change (Z.to_nat 0) with 0%nat. rewrite splice_all by (by rewrite fresh_sector, iso_sector_length). cbn [fst snd Z.eqb negb]. fold b.
    assert (record_at b 0 b) as Hat by (exists [], []; by rewrite app_nil_r). assert (Z.of_nat (length b) = 2048) as Hb by (unfold b; by rewrite iso_sector_length).
    wp_steps. unfold extent_location, data_length. eapply record_num; [done|lia|lia|lia|]. wp_steps. eapply record_num; [done|lia|lia|lia|]. wp_steps.
    assert (has_joliet s1 = has_joliet s) as Hj by by destruct H1 as (w & k & -> & _).
    eapply list_from_spec; [by eapply iso_same_mounted|by eapply moved_dir|done|]. rewrite Hj. intros es' s2 H2. split; [by etrans|done].
  - assert (is_root (Some (SLASH :: join names)) = false) as ->.
    { assert (exists name names', names = name :: names') as (name & names' & ->) by (inversion Hlook; eauto).
      destruct (skip_join name names' (Forall_inv Hn)) as (c & l' & _ & <-). done. }
    wp_steps. eapply parse_path_spec; [done..|]. intros x s1 (Hr & p & o & b & Hh & Hat & ->). change (0 <? 0) with false. cbn [deref]. wp_steps. cbn [fst snd].
    destruct (rec_length r Hr). eapply iso_block_spec; [done|]. wp_steps. unfold file_flags. eapply record_num; [done|lia|lia|lia|].
    fold (flags_of r). fold (is_dir r). rewrite Hdir. cbn [negb]. wp_steps. unfold data_length, extent_location. eapply record_num; [done|lia|lia|lia|]. wp_steps.
    eapply record_num; [done|lia|lia|lia|]. wp_steps. cbn [free_if]. eapply iso_free_spec; [done|]. intros s2 H2. fold (location_of r) (size_of r).
    assert (has_joliet s2 = has_joliet s) as Hj by by destruct H2 as (w & k & -> & _).
    eapply list_from_spec; [by eapply iso_same_mounted|by eapply moved_dir|done|]. rewrite Hj. intros es' s3 H3. split; [by etrans|done].
Qed.

(** ** Directories that do not fill their last sector *)

Lemma read_raw_sector_fault n buf off s : mounted s -> in_range n -> 0 <= off -> Z.of_nat (length buf) < off + 2048 -> read_raw_sector E n buf off s = Fault.
Proof.
  intros Hm Hn Ho Hl. unfold read_raw_sector. rewrite (bind_run _ _ s s s) by done. rewrite (m_path _ Hm). destruct (disc_device (world s)) as (d & -> & Hd & ->). cbn [negb].
  destruct iso_ratio as (k & Hk0 & Hk & Hbs & Ek & Eb). rewrite Hd. unfold ISO9660_SECTOR_SIZE. destruct (Z.eqb_spec bs 0); [lia|]. cbv zeta.
  rewrite Ek, Eb, (lba_spec n k) by done. assert (u32 k = k) as Hu by (apply u32_small; nia).
  assert (forall l (s : iso (D := D)), length l = 2048%nat -> copy_to buf off l s = Fault) as Hcopy.
  { intros l s' Hlen. unfold copy_to. destruct (Z.leb_spec 0 off); [|lia]. cbn [andb]. by destruct (Z.leb_spec (off + Z.of_nat (length l)) (Z.of_nat (length buf))); [lia|]. }
  destruct (Z.eqb_spec bs 2048); cbn [negb].
  - apply bind_fault. unfold device_read. rewrite (bind_run _ _ s s s) by done. destruct (device_read_run n k s Hm Hn Hk0 Hk) as (w & -> & _).
    rewrite (bind_run _ _ s tt (set_world w s)) by done. apply bind_fault, Hcopy, iso_sector_length.
  - rewrite <- Hk, (u32_small 2048) by lia.
    assert (wp (malloc E 2048) (fun t s1 => exists p l, t = Some p /\ Z.of_nat (length l) = 2048 /\ holds s p l s1) s) as Hw by (apply malloc_spec; [lia|done|]; eauto).
    destruct (wp_returns _ _ _ Hw) as (t & s1 & Hrun & p & l & -> & Hlen & H1). rewrite (bind_run _ _ _ _ _ Hrun). cbn beta iota.
    assert (heap s1 !! p = Some l) as Hp by (destruct H1 as ((w & k' & -> & _) & _); apply lookup_insert_eq).
    rewrite (bind_run _ _ s1 l s1) by (unfold block; rewrite (bind_run _ _ s1 s1 s1) by done; by rewrite Hp).
    destruct (device_read_run n k s1 (holds_mounted _ _ _ _ H1 Hm) Hn Hk0 Hk) as (w & Hr & _). set (b := sector (world s1) n) in *.
    assert (Z.of_nat (length b) = 2048) as Hb by (unfold b; by rewrite iso_sector_length).
    rewrite (bind_run _ _ s1 (k, b) (set_world w s1)).
    2:{ unfold device_read. rewrite (bind_run _ _ s1 s1 s1) by done. rewrite Hr. rewrite (bind_run _ _ s1 tt (set_world w s1)) by done.
        rewrite (bind_run _ _ _ b (set_world w s1)); [done|]. unfold copy_to. change (0 <=? 0) with true. cbn [andb].
        destruct (Z.leb_spec (0 + Z.of_nat (length b)) (Z.of_nat (length l))); [|lia]. change (Z.to_nat 0) with 0%nat. by rewrite splice_all by lia. }
    cbn [fst snd]. rewrite Hu, Z.eqb_refl. cbn [negb]. set (s2 := set_heap (<[p := b]> (heap (set_world w s1))) (set_world w s1)).
    rewrite (bind_run _ _ _ tt s2) by done. rewrite (bind_run _ _ s2 b s2).
    2:{ unfold bytes_at. change (0 <=? 0) with true. cbn [andb]. destruct (Z.leb_spec (0 + 2048) (Z.of_nat (length b))); [|lia].
        change (Z.to_nat 0) with 0%nat. rewrite drop_0, take_ge by lia. done. }
    apply bind_fault, Hcopy. lia.
Qed.

Lemma read_directory_fault n : forall e i p buf s s0, holds s p buf s0 -> mounted s -> 0 <= e -> 0 <= i -> (e + i + Z.of_nat n) * 2048 <= cap ->
  i * 2048 <= Z.of_nat (length buf) < (i + Z.of_nat n) * 2048 -> read_directory E n e i p s0 = Fault.
Proof.
  destruct disc_size as (_ & _ & Hc). induction n as [|n IH]; intros e i p buf s s0 H0 Hm He Hi Hcap Hl; [lia|]. cbn [read_directory].
  assert (heap s0 !! p = Some buf) as Hp by (destruct H0 as ((w & k & -> & _) & _); apply lookup_insert_eq).
  rewrite (bind_run _ _ s0 buf s0) by (unfold block; rewrite (bind_run _ _ s0 s0 s0) by done; by rewrite Hp).
  unfold ISO9660_SECTOR_SIZE. rewrite !u32_small by lia. assert (mounted s0) as Hm0 by by eapply holds_mounted. assert (in_range (e + i)) as Hr by (split; lia).
  destruct (decide ((i + 1) * 2048 <= Z.of_nat (length buf))) as [Hfit|Hfit]; [|apply bind_fault, read_raw_sector_fault; [done|done|lia|lia]].
  assert (wp (read_raw_sector E (e + i) buf (i * 2048)) (fun r s1 => same s0 s1 /\ exists b, r = (0, b) /\ length b = length buf) s0) as Hw.
  { apply read_raw_sector_spec; [done|done|lia|lia|]. intros s1 H1. split; [done|]. eexists. split; [done|]. apply splice_length. rewrite iso_sector_length. lia. }
  destruct (wp_returns _ _ _ Hw) as (r & s1 & Hrun & Hs1 & b & -> & Hb). rewrite (bind_run _ _ _ _ _ Hrun). cbn [fst snd].
  rewrite (bind_run _ _ s1 tt (set_heap (<[p := b]> (heap s1)) s1)) by done. cbn [Z.eqb negb]. apply (IH e (i + 1) p b s); [|done|lia|lia|lia|lia].
  pose proof (holds_same _ _ _ _ _ H0 Hs1) as ((w & k & -> & Hk & Hby) & Hn & Hlt). split; [|done]. exists w, k. split; [|done]. unfold set_heap. cbn. by rewrite insert_insert_eq.
Qed.

Lemma short_directory e n name s : mounted s -> 0 <= e -> 0 < n < 2 ^ 32 - 2048 -> n mod 2048 <> 0 -> (e + n / 2048 + 1) * 2048 <= cap ->
  find_file_in_dir E name e n s = Fault.
Proof.
  intros Hm He Hn Hmod Hcap. unfold find_file_in_dir. apply bind_fault. unfold load_directory.
  assert (wp (malloc E n) (fun t s1 => exists p l, t = Some p /\ Z.of_nat (length l) = n /\ holds s p l s1) s) as Hw by (apply malloc_spec; [lia|done|]; eauto).
  destruct (wp_returns _ _ _ Hw) as (t & s1 & Hrun & p & l & -> & Hlen & H1). rewrite (bind_run _ _ _ _ _ Hrun). cbn beta iota. apply bind_fault.
  unfold ISO9660_SECTOR_SIZE. pose proof (Z.div_mod n 2048 ltac:(lia)). pose proof (Z.mod_pos_bound n 2048 ltac:(lia)). pose proof (Z.div_pos n 2048 ltac:(lia) ltac:(lia)).
  assert (u32 (n + 2048 - 1) / 2048 = n / 2048 + 1) as ->.
  { rewrite u32_small by lia. symmetry. apply (Z.div_unique _ _ _ (n mod 2048 - 1)); lia. }
  eapply read_directory_fault; [done|done|lia|lia|lia|lia].
Qed.

(** A root directory whose size is not a multiple of 2048. Directories are read by whole
    sectors into a buffer of the size of the directory: the last sector is written past its
    end, whatever the path. *)
Theorem iso9660_short_directory_overflows names s (n := root_directory_size s) : mounted s -> 0 <= root_directory_extent s -> 0 < n < 2 ^ 32 - 2048 -> n mod 2048 <> 0 ->
  (root_directory_extent s + n / 2048 + 1) * 2048 <= cap -> names <> [] -> Forall name_ok names ->
  iso9660_file_exists E (Some (SLASH :: join names)) s = Fault /\ iso9660_get_file_size E (Some (SLASH :: join names)) s = Fault /\
  forall buf size, iso9660_read_file E (Some (SLASH :: join names)) buf size s = Fault.
Proof.
  intros Hm He Hn Hmod Hcap Hne Hok. destruct names as [|name names]; [done|]. apply Forall_cons in Hok as [Hname Hok].
  assert (parse_path E (Some (SLASH :: join (name :: names))) s = Fault) as Hp.
  { unfold parse_path. rewrite (bind_run _ _ s s s) by done. destruct (skip_join name names Hname) as (c & l & -> & Hj).
    assert (exists tail, c :: l = name ++ tail /\ match tail with [] => True | c :: _ => c = SLASH end) as (tail & Ht & Hs).
    { rewrite Hj. destruct names as [|name' names]; [exists []; by rewrite app_nil_r|]. by eexists. }
    rewrite Ht. replace (length (name ++ tail)) with (S (length l)) by by rewrite <- Ht. rewrite walk_step by done. apply bind_fault. by apply short_directory. }
  split; [by apply bind_fault|]. split; [by apply bind_fault|]. intros buf size. by apply bind_fault.
Qed.

(** ** Volume descriptors *)

Definition standard (b : list Z) : bool := bool_decide (take 5 (drop 1 b) = ISO9660_STANDARD_ID).
Definition type_of (b : list Z) : Z := val b 0 1.
Definition is_primary (b : list Z) : bool := type_of b =? ISO9660_PRIMARY_DESCRIPTOR.
Definition is_joliet (b : list Z) : bool := (type_of b =? ISO9660_SUPPLEMENTARY_DESC) && ((val b 88 1 =? 0x25) && (val b 89 1 =? 0x2F)).

(** The descriptors before the terminator. *)
Fixpoint before_end (l : list (list Z)) : list (list Z) :=
  match l with
  | [] => []
  | b :: l' => if standard b then if type_of b =? ISO9660_TERMINATOR then [] else b :: before_end l' else before_end l'
  end.
Definition descriptors (w : D) (k n : Z) : list (list Z) := before_end (map (sector w) (seqZ k n)).

(** The descriptor whose root directory is used. *)
Definition root_of (ds : list (list Z)) : option (list Z) := last (List.filter (fun b => is_primary b || is_joliet b) ds).

Record scanned s (found : bool) (ds : list (list Z)) (r : Z) s' : Prop := {
  sc_result : r = if found || existsb is_primary ds then ISO9660_SUCCESS else ISO9660_ERR_BAD_FORMAT;
  sc_joliet : has_joliet s' = has_joliet s || existsb is_joliet ds;
  sc_extent : root_directory_extent s' = match root_of ds with Some b => val b 158 4 | None => root_directory_extent s end;
  sc_size : root_directory_size s' = match root_of ds with Some b => val b 166 4 | None => root_directory_size s end;
  sc_path : device_path s' = device_path s;
  sc_heap : heap s' = heap s;
  sc_next : (next s <= next s')%nat;
  sc_bytes : forall o, byte (world s') o = byte (world s) o;
}.

(** One descriptor before others: it counts unless a later one does. *)
Lemma root_cons b ds : root_of (b :: ds) = match root_of ds with Some b' => Some b' | None => if is_primary b || is_joliet b then Some b else None end.
Proof. unfold root_of. cbn [List.filter]. destruct (is_primary b || is_joliet b); [apply last_cons|]. by destruct (last _). Qed.

Lemma scanned_step s s1 found b ds r s' : standard b = true ->
  has_joliet s1 = has_joliet s || is_joliet b ->
  root_directory_extent s1 = (if is_primary b || is_joliet b then val b 158 4 else root_directory_extent s) ->
  root_directory_size s1 = (if is_primary b || is_joliet b then val b 166 4 else root_directory_size s) ->
  device_path s1 = device_path s -> heap s1 = heap s -> (next s <= next s1)%nat -> (forall o, byte (world s1) o = byte (world s) o) ->
  scanned s1 (found || is_primary b) ds r s' -> scanned s found (b :: ds) r s'.
Proof.
  intros Hb H1 H2 H3 H4 H5 H6 H7 [R1 R2 R3 R4 R5 R6 R7 R8]. split.
  - rewrite R1. cbn [existsb]. by rewrite orb_assoc.
  - rewrite R2, H1. cbn [existsb]. by rewrite orb_assoc.
  - rewrite R3, root_cons, H2. destruct (root_of ds); [done|]. by destruct (is_primary b || is_joliet b).
  - rewrite R4, root_cons, H3. destruct (root_of ds); [done|]. by destruct (is_primary b || is_joliet b).
  - congruence.
  - congruence.
  - lia.
  - intros o. by rewrite R8.
Qed.

Lemma standard_id_spec b Q s : length b = 2048%nat -> Q (standard b) s -> wp (standard_id b) Q s.
Proof. intros Hl HQ. unfold standard_id. wp_steps. apply wp_bytes_in; [lia|lia|]. by wp_steps. Qed.

Lemma sector_num b k n Q s : length b = 2048%nat -> 0 <= k -> k + n <= 2048 -> Q (val b k n) s -> wp (num_at b k n) Q s.
Proof. intros Hl Hk Hn HQ. by apply wp_num_at; [lia|lia|]. Qed.

Lemma use_root_spec b Q s : length b = 2048%nat -> Q tt (set_root_directory_size (val b 166 4) (set_root_directory_extent (val b 158 4) s)) -> wp (use_root b) Q s.
Proof. intros Hl HQ. unfold use_root. wp_steps. apply sector_num; [done|lia|lia|]. wp_steps. apply sector_num; [done|lia|lia|]. by wp_steps. Qed.

Lemma descriptors_S w k n : 0 <= n -> descriptors w k (n + 1) =
  (let b := sector w k in if standard b then if type_of b =? ISO9660_TERMINATOR then [] else b :: descriptors w (k + 1) n else descriptors w (k + 1) n).
Proof. intros Hn. unfold descriptors. rewrite seqZ_cons by lia. replace (Z.pred (n + 1)) with n by lia. done. Qed.

Lemma descriptors_bytes w w' k n : (forall o, byte w' o = byte w o) -> descriptors w' k n = descriptors w k n.
Proof. intros H. unfold descriptors. f_equal. apply map_ext. intros i. unfold sector, run. by apply map_ext. Qed.

(** The next sector of a scan. *)
Lemma scan_read k buf Q s : mounted s -> in_range k -> length buf = 2048%nat -> (forall s', same s s' -> Q (0, sector (world s) k) s') -> wp (read_raw_sector E k buf 0) Q s.
Proof.
  intros Hm Hk Hl HQ. apply read_raw_sector_spec; [done|done|lia|lia|]. change (Z.to_nat 0) with 0%nat. by rewrite splice_all by (by rewrite iso_sector_length).
Qed.

Lemma iso_scan_spec n : forall k buf found Q s, mounted s -> 0 <= k -> (k + Z.of_nat n) * 2048 <= cap -> length buf = 2048%nat ->
  (forall r s', scanned s found (descriptors (world s) k (Z.of_nat n)) r s' -> Q r s') -> wp (scan_descriptors E n k buf found) Q s.
Proof.
  induction n as [|n IH]; intros k buf found Q s Hm Hk Hcap Hl HQ; cbn [scan_descriptors].
  { wp_steps. apply HQ. split; cbn; rewrite ?orb_false_r; done. }
  wp_steps. apply scan_read; [done|split; lia|done|]. intros s1 H1. cbn [fst snd Z.eqb negb]. assert (mounted s1) as Hm1 by by eapply iso_same_mounted.
  replace (Z.of_nat (S n)) with (Z.of_nat n + 1) in HQ by lia. rewrite descriptors_S in HQ by lia. cbv zeta in HQ. set (b := sector (world s) k) in *.
  assert (length b = 2048%nat) as Hb by apply iso_sector_length. destruct H1 as (w & nx & -> & Hnx & Hw). set (s1 := set_heap _ _) in *.
  assert (forall found2 s2, is_primary b = found2 -> mounted s2 -> has_joliet s2 = has_joliet s || is_joliet b ->
    root_directory_extent s2 = (if is_primary b || is_joliet b then val b 158 4 else root_directory_extent s) ->
    root_directory_size s2 = (if is_primary b || is_joliet b then val b 166 4 else root_directory_size s) ->
    device_path s2 = device_path s -> heap s2 = heap s -> next s2 = nx -> world s2 = w -> standard b = true -> type_of b <> ISO9660_TERMINATOR ->
    wp (scan_descriptors E n (k + 1) b (found || found2)) Q s2) as Hnext.
  { intros found2 s2 <- Hm2 J1 J2 J3 J4 J5 J6 J7 Hstd Hend. rewrite Hstd in HQ. destruct (Z.eqb_spec (type_of b) ISO9660_TERMINATOR); [done|].
    apply IH; [done|lia|lia|done|]. intros r s' H'. apply HQ. rewrite J7, (descriptors_bytes (world s)) in H' by done. apply (scanned_step s s2); try done; [lia|].
    intros o. by rewrite J7. }
  wp_steps. apply standard_id_spec; [done|]. destruct (standard b) eqn:Hstd; cbn [negb].
  2:{ apply IH; [done|lia|lia|done|]. intros r s' [R1 R2 R3 R4 R5 R6 R7 R8]. apply HQ. rewrite (descriptors_bytes (world s)) in R1, R2, R3, R4 by done. cbn in *.
      split; [done..|lia|]. intros o. by rewrite R8. }
  wp_steps. apply sector_num; [done|lia|lia|]. fold (type_of b). unfold is_joliet, is_primary in Hnext. fold (is_primary b). unfold is_primary.
  destruct (Z.eqb_spec (type_of b) ISO9660_PRIMARY_DESCRIPTOR) as [Hp|Hp].
  { rewrite Hp in Hnext. wp_steps. apply use_root_spec; [done|]. rewrite <- (orb_true_r found).
    apply Hnext; [done|by destruct Hm1|by rewrite orb_false_r|done..]. }
  destruct (Z.eqb_spec (type_of b) ISO9660_SUPPLEMENTARY_DESC) as [Hj|Hj].
  { rewrite Hj in Hnext. wp_steps. apply sector_num; [done|lia|lia|]. wp_steps. apply sector_num; [done|lia|lia|]. rewrite <- (orb_false_r found).
    destruct ((val b 88 1 =? 37) && (val b 89 1 =? 47)) eqn:He; cbn [andb orb] in Hnext.
    - wp_steps. apply use_root_spec; [done|]. apply Hnext; [done|by destruct Hm1|by rewrite orb_true_r|done..].
    - wp_steps. apply Hnext; [done|done|by rewrite orb_false_r|done..]. }
  cbn [orb andb] in Hnext. destruct (Z.eqb_spec (type_of b) ISO9660_TERMINATOR) as [Hend|Hend].
  - wp_steps. apply HQ. split; cbn; rewrite ?orb_false_r; done.
  - rewrite <- (orb_false_r found). apply Hnext; [done|done|by rewrite orb_false_r|done..].
Qed.

Lemma init_scan (n : nat) s (ds := descriptors (world s) 16 (Z.of_nat n)) : (forall p, (next s <= p)%nat -> heap s !! p = None) -> (16 + Z.of_nat n) * 2048 <= cap ->
  wp (modify (set_device_path (Some dp)) ;;; modify (set_has_joliet false) ;;; scan_descriptors E n 16 (fresh E 2048) false)
    (fun r s' => mounted s' /\ r = (if existsb is_primary ds then ISO9660_SUCCESS else ISO9660_ERR_BAD_FORMAT) /\ has_joliet s' = existsb is_joliet ds /\
      forall b, root_of ds = Some b -> root_directory_extent s' = val b 158 4 /\ root_directory_size s' = val b 166 4) s.
Proof.
  intros Hfree Hcap. wp_steps. apply iso_scan_spec; [by split|lia|lia|apply fresh_sector|]. intros r s' [R1 R2 R3 R4 R5 R6 R7 _].
  cbn [has_joliet world device_path heap next set_has_joliet set_device_path orb] in R1, R2, R3, R4, R5, R6, R7. fold ds in R1, R2, R3, R4.
  split; [split; [done|]; intros p Hp; rewrite R6; apply Hfree; lia|]. split; [exact R1|]. split; [exact R2|]. intros b Hb. rewrite Hb in R3, R4. by split.
Qed.

(** Mounting. [iso9660_init] succeeds when a primary descriptor stands before the
    terminator, and else reports a bad format. Joliet names are used when there is a Joliet
    descriptor; the root directory is that of the last descriptor of either kind. *)
Theorem iso9660_init_exact s (ds := descriptors (world s) 16 16) : (forall p, (next s <= p)%nat -> heap s !! p = None) -> 32 * 2048 <= cap ->
  wp (iso9660_init E (Some dp)) (fun r s' => mounted s' /\ r = (if existsb is_primary ds then ISO9660_SUCCESS else ISO9660_ERR_BAD_FORMAT) /\
    has_joliet s' = existsb is_joliet ds /\
    forall b, root_of ds = Some b -> root_directory_extent s' = val b 158 4 /\ root_directory_size s' = val b 166 4) s.
Proof.
  intros Hfree Hcap. apply (init_scan 16); [done|lia].
Qed.

(** Bootable discs. A boot record of the El Torito format has its text at byte 7 and
    zeros from byte 75 on; [iso9660_get_boot_info] looks for the text at byte 88 and
    never finds it. *)
Theorem iso9660_boot_never_found s : mounted s -> 32 * 2048 <= cap ->
  (forall k, 16 <= k < 32 -> standard (sector (world s) k) = true -> type_of (sector (world s) k) = ISO9660_BOOT_RECORD -> byte (world s) (k * 2048 + 88) = 0) ->
  wp (iso9660_get_boot_info E) (fun r s' => same s s' /\ r = (ISO9660_ERR_NOT_FOUND, (None, None))) s.
Proof.
  intros Hm Hcap Hboot. unfold iso9660_get_boot_info, ISO9660_SECTOR_SIZE.
  assert (forall n k buf s1, same s s1 -> 16 <= k -> k + Z.of_nat n = 32 -> length buf = 2048%nat ->
    wp (scan_boot E n k buf) (fun r s' => same s s' /\ r = (ISO9660_ERR_NOT_FOUND, (None, None))) s1) as Hscan; [|apply Hscan; [reflexivity|lia|lia|apply fresh_sector]].
  induction n as [|n IH]; intros k buf s1 H1 Hk Hn Hl; cbn [scan_boot]; wp_steps; [by split|]. apply scan_read; [by eapply iso_same_mounted|split; lia|done|].
  intros s2 H2. cbn [fst snd Z.eqb negb]. rewrite (moved_sector _ _ _ _ H1). set (b := sector (world s) k).
  assert (length b = 2048%nat) as Hb by apply iso_sector_length. assert (same s s2) as H02 by by etrans. wp_steps. apply standard_id_spec; [done|].
  specialize (IH (k + 1) b s2 H02 ltac:(lia) ltac:(lia) Hb). destruct (standard b) eqn:Hstd; cbn [negb]; [|done]. wp_steps. apply sector_num; [done|lia|lia|]. fold (type_of b).
  destruct (Z.eqb_spec (type_of b) ISO9660_BOOT_RECORD) as [Ht|Ht].
  - wp_steps. apply wp_bytes_in; [lia|lia|]. rewrite bool_decide_eq_false_2; [done|]. intros Heq. specialize (Hboot k ltac:(lia) Hstd Ht).
    assert (b !! 88%nat = Some (byte (world s) (k * 2048 + 88))) as H88 by (unfold b, sector, run; rewrite list_lookup_fmap, lookup_seqZ_lt by lia; done).
    change (Z.to_nat 88) with 88%nat in Heq. rewrite (drop_S _ _ _ H88) in Heq. change (Z.to_nat 23) with 23%nat in Heq. cbn [take] in Heq. injection Heq as Heq _. lia.
  - destruct (Z.eqb_spec (type_of b) ISO9660_TERMINATOR); [by wp_steps|done].
Qed.

End Volume.

(** ** A disc in memory *)

(** A device is what it stores; it has blocks of 512 bytes and 48 sectors in all. *)
Definition ram : env (D := Z -> Z) :=
  mk_env (fun _ _ => Some (VfsCache.mk_device 512 true false false))
    (fun _ pos n w => (n, map (fun o => w o mod 256) (seqZ (pos * 512) (n * 512)), w)) (fun _ n => Some (replicate (Z.to_nat n) 0)) (fun _ => 170).

Abbreviation ram_byte := (fun (w : Z -> Z) o => w o mod 256).

#[export] Instance ram_disc : Disc ram [99] 512 98304 ram_byte.
Proof.
  split.
  - intros w. by eexists.
  - split; [lia|]. split; [exists 4; lia|lia].
  - intros w n Hn. eexists. split; [reflexivity|]. rewrite length_replicate. lia.
  - intros w o. apply Z.mod_pos_bound. lia.
  - intros pos n w _ _ _. by exists w.
Qed.

(** A record with those members. *)
Definition record (loc size flags : Z) (name : list Z) : list Z :=
  [33 + Z.of_nat (length name); 0] ++ le_bytes 4 loc ++ replicate 4 0 ++ le_bytes 4 size ++ replicate 4 0 ++ [124; 1; 2; 3; 4; 5; 0; flags; 0; 0; 1; 0; 0; 1] ++
  [Z.of_nat (length name)] ++ name.

(** A.TXT;1 and D in the root directory, B;1 in D. *)
Definition rec_a : list Z := record 21 5 0 [65; 46; 84; 88; 84; 59; 49].
Definition rec_d : list Z := record 22 2048 2 [68].
Definition rec_b : list Z := record 23 3 0 [66; 59; 49].
Definition root_records : list (list Z) := [record 20 2048 2 [0]; record 20 2048 2 [1]; rec_a; rec_d].
Definition d_records : list (list Z) := [record 22 2048 2 [0]; record 20 2048 2 [1]; rec_b].

Definition sample : Z -> Z := Ext2Thms.image
  [(16 * 2048, 1 :: ISO9660_STANDARD_ID); (16 * 2048 + 156, record 20 2048 2 [0]); (17 * 2048, 0 :: ISO9660_STANDARD_ID); (17 * 2048 + 7, EL_TORITO);
   (18 * 2048, 255 :: ISO9660_STANDARD_ID); (20 * 2048, concat root_records); (21 * 2048, [104; 101; 108; 108; 111]); (22 * 2048, concat d_records); (23 * 2048, [97; 98; 99])].

Definition disc : iso (D := Z -> Z) := mk_iso [] 20 2048 (Some [99]) false [] ∅ 0 sample.

Lemma disc_mounted : mounted [99] disc.
Proof. split; [reflexivity|]. intros p _. apply lookup_empty. Qed.

Definition rec_check (r : list Z) : bool :=
  (val r 0 1 =? Z.of_nat (length r)) && (33 + val r 32 1 <=? Z.of_nat (length r)) && forallb (fun b => (0 <=? b) && (b <? 256)) r.

Lemma rec_check_ok r : rec_check r = true -> rec_ok r.
Proof.
  unfold rec_check. rewrite !andb_true_iff, Z.eqb_eq, Z.leb_le, forallb_forall. intros [[H1 H2] H3]. split; [done|done|].
  apply Forall_forall. intros x Hx%list_elem_of_In%H3. lia.
Qed.

(** Records from the start of a sector, and zeros behind them. *)
Lemma tiles_sector rs : forall off, forallb rec_check rs = true -> 0 <= off -> off + Z.of_nat (length (concat rs)) < 2048 ->
  tiles off (concat rs ++ replicate (Z.to_nat (2048 - off - Z.of_nat (length (concat rs)))) 0) rs.
Proof.
  induction rs as [|r rs IH]; intros off Hrs Ho Hl; cbn [concat forallb length] in *.
  - rewrite app_nil_l, <- (app_nil_r (replicate _ _)). apply tiles_pad; [|rewrite length_replicate, Z.mod_small; lia|constructor].
    replace (Z.to_nat (2048 - off - Z.of_nat 0)) with (S (Z.to_nat (2047 - off))) by lia. done.
  - apply andb_true_iff in Hrs as [Hr Hrs]. rewrite length_app in *. rewrite <- app_assoc. apply tiles_record; [by apply rec_check_ok|].
    replace (2048 - off - Z.of_nat (length r + length (concat rs))) with (2048 - (off + Z.of_nat (length r)) - Z.of_nat (length (concat rs))) by lia. apply IH; [done|lia|lia].
Qed.

Lemma sample_dir k rs : 16 <= k < 48 -> forallb rec_check rs = true -> Z.of_nat (length (concat rs)) < 2048 ->
  run ram_byte sample (k * 2048) 2048 = concat rs ++ replicate (Z.to_nat (2048 - 0 - Z.of_nat (length (concat rs)))) 0 -> dir 98304 ram_byte sample k 2048 rs.
Proof. intros Hk Hrs Hl Hrun. split; [split; [lia|lia|by exists 1|lia]|]. rewrite Hrun. by apply tiles_sector. Qed.

Lemma root_dir : dir 98304 ram_byte sample 20 2048 root_records.
Proof. apply sample_dir; [lia|vm_compute; reflexivity..]. Qed.
Lemma d_dir : dir 98304 ram_byte sample 22 2048 d_records.
Proof. apply sample_dir; [lia|vm_compute; reflexivity..]. Qed.

Lemma look_b : looks 98304 ram_byte sample false 20 2048 [[100]; [98]] (Found rec_b).
Proof.
  eapply (looks_down _ _ _ _ _ _ _ _ _ _ rec_d); [exact root_dir|vm_compute; reflexivity|vm_compute; reflexivity|].
  eapply looks_found; [exact d_dir|vm_compute; reflexivity].
Qed.

Lemma names_ok (names : list (list Z)) : forallb (fun n => (1 <=? length n)%nat && (length n <=? 255)%nat && forallb (fun c => negb (c =? SLASH)) n) names = true -> Forall name_ok names.
Proof.
  rewrite forallb_forall. intros H. apply Forall_forall. intros n Hn%list_elem_of_In%H. rewrite !andb_true_iff, Nat.leb_le, Nat.leb_le, forallb_forall in Hn.
  destruct Hn as [[H1 H2] H3]. split; [lia|]. apply Forall_forall. intros c Hc%list_elem_of_In%H3. by destruct (Z.eqb_spec c SLASH).
Qed.

Lemma iso9660_read_file_exact_witness : wp (iso9660_read_file ram (Some [47; 100; 47; 98]) (replicate 4 0) 4)
  (fun x s' => same ram_byte disc s' /\ x = (3, [97; 98; 99; 0])) disc.
Proof.
  pose proof (iso9660_read_file_exact ram [99] 512 98304 ram_byte [[100]; [98]] rec_b (replicate 4 0) 4 disc disc_mounted look_b
    (names_ok [[100]; [98]] eq_refl) ltac:(vm_compute; reflexivity) ltac:(lia)) as H.
  assert (run ram_byte (world disc) (location_of rec_b * 2048) 3 = [97; 98; 99]) as Hrun by (vm_compute; reflexivity).
  cbv zeta in H. change (Z.min (size_of rec_b) 4) with 3 in H. rewrite Hrun in H. apply H; vm_compute; discriminate.
Defined.

Lemma iso9660_file_exists_exact_witness : wp (iso9660_file_exists ram (Some [47; 100; 47; 98])) (fun x s' => same ram_byte disc s' /\ x = 1) disc.
Proof. exact (iso9660_file_exists_exact ram [99] 512 98304 ram_byte [[100]; [98]] (Found rec_b) disc disc_mounted look_b (names_ok [[100]; [98]] eq_refl) ltac:(discriminate)). Defined.

Lemma look_through_a : looks 98304 ram_byte sample false 20 2048 [[97; 46; 116; 120; 116]; [98]] Through.
Proof. eapply (looks_through _ _ _ _ _ _ _ _ _ _ rec_a); [exact root_dir|vm_compute; reflexivity|vm_compute; reflexivity]. Qed.

Lemma iso9660_exists_double_free_witness : iso9660_file_exists ram (Some [47; 97; 46; 116; 120; 116; 47; 98]) disc = Fault.
Proof.
  exact (iso9660_exists_double_free ram [99] 512 98304 ram_byte [[97; 46; 116; 120; 116]; [98]] disc disc_mounted look_through_a
    (names_ok [[97; 46; 116; 120; 116]; [98]] eq_refl)).
Defined.

Definition no_file : file_entry := mk_file [] 0 0 0 [].

Lemma iso9660_list_exact_witness : wp (iso9660_list_directory ram (Some [47; 100]) (Some [no_file; no_file]) 2)
  (fun x s' => same ram_byte disc s' /\ x = (1, Some [mk_file [66] 0 3 23 [124; 1; 2; 3; 4; 5; 0]; no_file])) disc.
Proof.
  pose proof (iso9660_list_exact ram [99] 512 98304 ram_byte [[100]] 22 2048 d_records [no_file; no_file] 2 disc disc_mounted
    ltac:(split; [vm_compute; discriminate|vm_compute; discriminate]) (names_ok [[100]] eq_refl)) as H.
  assert (map (listed (has_joliet disc)) (take (Z.to_nat 2) (shown d_records)) = [mk_file [66] 0 3 23 [124; 1; 2; 3; 4; 5; 0]]) as Hl by (vm_compute; reflexivity).
  cbv zeta in H. rewrite Hl in H. apply H; [|exact d_dir|cbn; lia].
  change 22 with (location_of rec_d). change 2048 with (size_of rec_d). constructor; [|reflexivity]. eapply looks_found; [exact root_dir|vm_compute; reflexivity].
Defined.

Lemma iso9660_short_directory_overflows_witness : iso9660_file_exists ram (Some [47; 98]) (set_root_directory_size 100 disc) = Fault.
Proof.
  apply (iso9660_short_directory_overflows ram [99] 512 98304 ram_byte [[98]] (set_root_directory_size 100 disc)); [by destruct disc_mounted|cbn; lia|cbn; lia|vm_compute; discriminate|vm_compute; discriminate|done|].
  exact (names_ok [[98]] eq_refl).
Defined.

Lemma iso9660_init_exact_witness : wp (iso9660_init ram (Some [99])) (fun r s' => mounted [99] s' /\ r = ISO9660_SUCCESS /\
  root_directory_extent s' = 20 /\ root_directory_size s' = 2048) disc.
Proof.
  eapply wp_mono; [apply (iso9660_init_exact ram [99] 512 98304 ram_byte disc); [intros p _; apply lookup_empty|lia]|].
  assert (exists b, root_of (descriptors ram_byte (world disc) 16 16) = Some b /\ val b 158 4 = 20 /\ val b 166 4 = 2048) as (b & Hb & H1 & H2).
  { eexists. split; [vm_compute; reflexivity|]. split; vm_compute; reflexivity. }
  assert (existsb is_primary (descriptors ram_byte (world disc) 16 16) = true) as Hp by (vm_compute; reflexivity).
  cbn beta. rewrite Hp. intros r s' (Hm & Hr & _ & Hroot). destruct (Hroot b Hb) as [-> ->]. rewrite H1, H2. by split.
Defined.

Lemma iso9660_boot_never_found_witness : wp (iso9660_get_boot_info ram) (fun r s' => same ram_byte disc s' /\ r = (ISO9660_ERR_NOT_FOUND, (None, None))) disc.
Proof.
  apply (iso9660_boot_never_found ram [99] 512 98304 ram_byte disc disc_mounted); [lia|]. intros k Hk Hstd _.
  assert (forallb (fun k => implb (standard (sector ram_byte sample k)) (sample (k * 2048 + 88) mod 256 =? 0)) (seqZ 16 16) = true) as Hall by (vm_compute; reflexivity).
  rewrite forallb_forall in Hall. specialize (Hall k). cbn beta in Hall. change (world disc) with sample in Hstd. rewrite Hstd in Hall.
  apply Z.eqb_eq, Hall, list_elem_of_In, elem_of_seqZ. lia.
Defined.

End Iso9660Thms.
