(* ===== verification/Devices.v ===== *)
(** * The device manager ([kernel/device_manager.c])

    Devices, drivers and classes are structures of their owners; the manager keeps a table
    of pointers to devices, two linked lists and the tree of devices, whose arrays of
    children it allocates. A structure lives in a finite map under its address; an array
    that is freed leaves its map. Entries of an array that were never stored are [None].
    A name is the string in its member.

    The operations of drivers and classes, their [probe], [init] and [exit], and
    [heap_alloc] are in the environment [env]; [D] is what they work on. A walk along a
    list has fuel for as many elements as there are structures; a longer one runs in a
    cycle. *)

From Stdlib Require Import ZArith Lia.
From stdpp Require Import base tactics option numbers list gmap.
From S2P Require Import Prelude.

Set Default Goal Selector "!".
Local Open Scope Z_scope.
Local Open Scope kernel_scope.

Module Devices.

Definition MAX_DEVICES : nat := 256.
Definition DEVICE_OK : Z := 0.
Definition DEVICE_ERROR_GENERAL : Z := -1.
Definition DEVICE_ERROR_INVALID : Z := -2.
Definition DEVICE_ERROR_UNSUPPORTED : Z := -5.
Definition DEVICE_ERROR_NO_DEVICE : Z := -8.
Definition DEVICE_ERROR_RESOURCE : Z := -10.
Definition DEVICE_TYPE_UNKNOWN : Z := 0.
Definition DEVICE_STATUS_ENABLED : Z := 2.
Definition DEVICE_FLAG_ROOT : Z := 1.
Definition DEVICE_FLAG_SYSTEM : Z := 0x20.

(** Where a device's operations are: in a driver or elsewhere. *)
Inductive ops_ptr : Type :=
| DriverOps (v : nat)
| OtherOps (k : nat).

(** The members of [device_ops_t] that the manager calls. *)
Inductive op : Type := OpInit | OpRemove | OpOpen | OpClose | OpRead | OpWrite | OpIoctl.

(** [device_t]: what the manager uses. *)
Record device : Type := mk_device {
  name : list Z;
  path : list Z;
  id : Z;
  type : Z;
  status : Z;
  flags : Z;
  vendor_id : Z;
  device_id : Z;
  parent : option nat;
  children : option nat;
  num_children : Z;
  driver : option nat;
  class_of : option nat;
  ops : option ops_ptr;
}.

Definition set_name (x : list Z) (d : device) : device :=
  mk_device x (path d) (id d) (type d) (status d) (flags d) (vendor_id d) (device_id d) (parent d)
    (children d) (num_children d) (driver d) (class_of d) (ops d).
Definition set_path (x : list Z) (d : device) : device :=
  mk_device (name d) x (id d) (type d) (status d) (flags d) (vendor_id d) (device_id d) (parent d)
    (children d) (num_children d) (driver d) (class_of d) (ops d).
Definition set_id (x : Z) (d : device) : device :=
  mk_device (name d) (path d) x (type d) (status d) (flags d) (vendor_id d) (device_id d)
    (parent d) (children d) (num_children d) (driver d) (class_of d) (ops d).
Definition set_parent (x : option nat) (d : device) : device :=
  mk_device (name d) (path d) (id d) (type d) (status d) (flags d) (vendor_id d) (device_id d) x
    (children d) (num_children d) (driver d) (class_of d) (ops d).
Definition set_children (x : option nat) (d : device) : device :=
  mk_device (name d) (path d) (id d) (type d) (status d) (flags d) (vendor_id d) (device_id d)
    (parent d) x (num_children d) (driver d) (class_of d) (ops d).
Definition set_num_children (x : Z) (d : device) : device :=
  mk_device (name d) (path d) (id d) (type d) (status d) (flags d) (vendor_id d) (device_id d)
    (parent d) (children d) x (driver d) (class_of d) (ops d).
Definition set_driver (x : option nat) (d : device) : device :=
  mk_device (name d) (path d) (id d) (type d) (status d) (flags d) (vendor_id d) (device_id d)
    (parent d) (children d) (num_children d) x (class_of d) (ops d).
Definition set_class_of (x : option nat) (d : device) : device :=
  mk_device (name d) (path d) (id d) (type d) (status d) (flags d) (vendor_id d) (device_id d)
    (parent d) (children d) (num_children d) (driver d) x (ops d).
Definition set_ops (x : option ops_ptr) (d : device) : device :=
  mk_device (name d) (path d) (id d) (type d) (status d) (flags d) (vendor_id d) (device_id d)
    (parent d) (children d) (num_children d) (driver d) (class_of d) x.

(** [device_driver_t]; its functions are in the environment, here is whether they are set. *)
Record device_driver : Type := mk_driver {
  d_name : list Z;
  d_id : Z;
  vendor_ids : list Z;
  device_ids : list Z;
  num_supported_devices : Z;
  has_probe : bool;
  has_init : bool;
  has_exit : bool;
  d_next : option nat;
}.

Definition set_d_id (x : Z) (v : device_driver) : device_driver :=
  mk_driver (d_name v) x (vendor_ids v) (device_ids v) (num_supported_devices v) (has_probe v)
    (has_init v) (has_exit v) (d_next v).
Definition set_d_next (x : option nat) (v : device_driver) : device_driver :=
  mk_driver (d_name v) (d_id v) (vendor_ids v) (device_ids v) (num_supported_devices v)
    (has_probe v) (has_init v) (has_exit v) x.

(** [device_class_t] *)
Record device_class : Type := mk_class {
  c_name : list Z;
  c_id : Z;
  c_has_init : bool;
  c_has_exit : bool;
  c_next : option nat;
}.

Definition set_c_id (x : Z) (c : device_class) : device_class :=
  mk_class (c_name c) x (c_has_init c) (c_has_exit c) (c_next c).
Definition set_c_next (x : option nat) (c : device_class) : device_class :=
  mk_class (c_name c) (c_id c) (c_has_init c) (c_has_exit c) x.

(** ** Text *)

(** [%u] *)
Fixpoint digits (fuel : nat) (x : Z) (l : list Z) : list Z :=
  match fuel with
  | O => l
  | S fuel' => if x <? 10 then (48 + x) :: l else digits fuel' (x / 10) ((48 + x mod 10) :: l)
  end.
Definition decimal (x : Z) : list Z := digits 10 x [].

(** [snprintf(temp, 32, "%s_%u", name, id)] and [snprintf(path, 64, "%s/%s", path, name)] *)
Definition with_id (name : list Z) (id : Z) : list Z := take 31 (name ++ [95] ++ decimal id).
Definition join_path (path name : list Z) : list Z := take 63 (path ++ [47] ++ name).

Section Manager.
Context {D : Type}.

(** The static variables, the structures and the arrays of children. *)
Record manager : Type := mk_manager {
  devices : list (option nat);
  num_devices : Z;
  drivers : option nat;
  classes : option nat;
  root_device : option nat;
  next_id : Z;
  next_driver_id : Z;
  next_class_id : Z;
  dev : gmap nat device;
  drv : gmap nat device_driver;
  cls : gmap nat device_class;
  arr : gmap nat (list (option nat));
  world : D;
}.

Definition set_devices (x : list (option nat)) (m : manager) : manager :=
  mk_manager x (num_devices m) (drivers m) (classes m) (root_device m) (next_id m)
    (next_driver_id m) (next_class_id m) (dev m) (drv m) (cls m) (arr m) (world m).
Definition set_num_devices (x : Z) (m : manager) : manager :=
  mk_manager (devices m) x (drivers m) (classes m) (root_device m) (next_id m) (next_driver_id m)
    (next_class_id m) (dev m) (drv m) (cls m) (arr m) (world m).
Definition set_drivers (x : option nat) (m : manager) : manager :=
  mk_manager (devices m) (num_devices m) x (classes m) (root_device m) (next_id m)
    (next_driver_id m) (next_class_id m) (dev m) (drv m) (cls m) (arr m) (world m).
Definition set_classes (x : option nat) (m : manager) : manager :=
  mk_manager (devices m) (num_devices m) (drivers m) x (root_device m) (next_id m)
    (next_driver_id m) (next_class_id m) (dev m) (drv m) (cls m) (arr m) (world m).
Definition set_root_device (x : option nat) (m : manager) : manager :=
  mk_manager (devices m) (num_devices m) (drivers m) (classes m) x (next_id m) (next_driver_id m)
    (next_class_id m) (dev m) (drv m) (cls m) (arr m) (world m).
Definition set_next_id (x : Z) (m : manager) : manager :=
  mk_manager (devices m) (num_devices m) (drivers m) (classes m) (root_device m) x
    (next_driver_id m) (next_class_id m) (dev m) (drv m) (cls m) (arr m) (world m).
Definition set_next_driver_id (x : Z) (m : manager) : manager :=
  mk_manager (devices m) (num_devices m) (drivers m) (classes m) (root_device m) (next_id m) x
    (next_class_id m) (dev m) (drv m) (cls m) (arr m) (world m).
Definition set_next_class_id (x : Z) (m : manager) : manager :=
  mk_manager (devices m) (num_devices m) (drivers m) (classes m) (root_device m) (next_id m)
    (next_driver_id m) x (dev m) (drv m) (cls m) (arr m) (world m).
Definition set_dev (x : gmap nat device) (m : manager) : manager :=
  mk_manager (devices m) (num_devices m) (drivers m) (classes m) (root_device m) (next_id m)
    (next_driver_id m) (next_class_id m) x (drv m) (cls m) (arr m) (world m).
Definition set_drv (x : gmap nat device_driver) (m : manager) : manager :=
  mk_manager (devices m) (num_devices m) (drivers m) (classes m) (root_device m) (next_id m)
    (next_driver_id m) (next_class_id m) (dev m) x (cls m) (arr m) (world m).
Definition set_cls (x : gmap nat device_class) (m : manager) : manager :=
  mk_manager (devices m) (num_devices m) (drivers m) (classes m) (root_device m) (next_id m)
    (next_driver_id m) (next_class_id m) (dev m) (drv m) x (arr m) (world m).
Definition set_arr (x : gmap nat (list (option nat))) (m : manager) : manager :=
  mk_manager (devices m) (num_devices m) (drivers m) (classes m) (root_device m) (next_id m)
    (next_driver_id m) (next_class_id m) (dev m) (drv m) (cls m) x (world m).
Definition set_world (x : D) (m : manager) : manager :=
  mk_manager (devices m) (num_devices m) (drivers m) (classes m) (root_device m) (next_id m)
    (next_driver_id m) (next_class_id m) (dev m) (drv m) (cls m) (arr m) x.

(** What the manager calls: [heap_alloc], the address of a new block or [None], and the
    functions of drivers and classes. [provides] says which operations of a table are set. *)
Record env : Type := mk_env {
  heap_alloc : manager -> option nat;
  provides : ops_ptr -> op -> bool;
  operation : op -> ops_ptr -> nat -> list Z -> M manager Z;
  probe : nat -> nat -> M manager Z;
  driver_init : nat -> M manager Z;
  driver_exit : nat -> M manager Z;
  class_init : nat -> M manager Z;
  class_exit : nat -> M manager Z;
}.

Section Ops.
Context (E : env).

(** Members of structures. *)
Definition dev_at (d : nat) : M manager device := s <- get ;; deref (dev s !! d).
Definition change_dev (d : nat) (f : device -> device) : M manager unit :=
  x <- dev_at d ;; modify (fun s => set_dev (<[d := f x]> (dev s)) s).
Definition drv_at (v : nat) : M manager device_driver := s <- get ;; deref (drv s !! v).
Definition change_drv (v : nat) (f : device_driver -> device_driver) : M manager unit :=
  x <- drv_at v ;; modify (fun s => set_drv (<[v := f x]> (drv s)) s).
Definition cls_at (c : nat) : M manager device_class := s <- get ;; deref (cls s !! c).
Definition change_cls (c : nat) (f : device_class -> device_class) : M manager unit :=
  x <- cls_at c ;; modify (fun s => set_cls (<[c := f x]> (cls s)) s).

Definition array_at (a : nat) : M manager (list (option nat)) := s <- get ;; deref (arr s !! a).
Definition store_array (a : nat) (l : list (option nat)) : M manager unit := modify (fun s => set_arr (<[a := l]> (arr s)) s).
Definition free_array (a : nat) : M manager unit := _ <- array_at a ;; modify (fun s => set_arr (delete a (arr s)) s).

(** A new array of [n] entries. *)
Definition new_array (n : Z) : M manager (option nat) :=
  s <- get ;;
  match heap_alloc E s with
  | None => ret None
  | Some a => store_array a (replicate (Z.to_nat n) None) ;;; ret (Some a)
  end.

(** A table of operations has that member set; the table of a driver is part of it. *)
Definition has_op (o : ops_ptr) (k : op) : M manager bool :=
  match o with
  | DriverOps v => _ <- drv_at v ;; ret (provides E o k)
  | OtherOps _ => ret (provides E o k)
  end.

(** ** Children *)

(** The index of a pointer among the first [n] entries of an array, from [i] on. *)
Fixpoint index_of (n : nat) (l : list (option nat)) (i : nat) (d : nat) : M manager (option nat) :=
  match n with
  | O => ret None
  | S n' => x <- deref (l !! i) ;; if bool_decide (x = Some d) then ret (Some i) else index_of n' l (S i) d
  end.

Definition grow_children (p : nat) : M manager (option nat) :=
  x <- dev_at p ;;
  match children x with
  | None =>
      a <- new_array 4 ;;
      match a with
      | None => ret None
      | Some a => change_dev p (fun x => set_num_children 0 (set_children (Some a) x)) ;;; ret (Some a)
      end
  | Some a =>
      if num_children x mod 4 =? 0 then
        b <- new_array (num_children x + 4) ;;
        match b with
        | None => ret None
        | Some b =>
            old <- array_at a ;;
            if (Z.of_nat (length old) <? num_children x) || (num_children x <? 0) then fault
            else
              store_array b (take (Z.to_nat (num_children x)) old ++ replicate 4 None) ;;;
              free_array a ;;;
              change_dev p (set_children (Some b)) ;;;
              ret (Some b)
        end
      else ret (Some a)
  end.

Definition device_add_child (parent child : option nat) : M manager Z :=
  match parent, child with
  | Some p, Some c =>
      x <- dev_at p ;;
      there <- match children x with
        | None => ret None
        | Some a => l <- array_at a ;; index_of (Z.to_nat (num_children x)) l 0 c
        end ;;
      match there with
      | Some _ => ret DEVICE_OK
      | None =>
          a <- grow_children p ;;
          match a with
          | None => ret DEVICE_ERROR_RESOURCE
          | Some a =>
              x <- dev_at p ;;
              l <- array_at a ;;
              l <- deref (arr_set l (num_children x) (Some c)) ;;
              store_array a l ;;;
              change_dev p (set_num_children (num_children x + 1)) ;;;
              ret DEVICE_OK
          end
      end
  | _, _ => ret DEVICE_ERROR_INVALID
  end.

(** Entries behind [i] move down by one. *)
Fixpoint shift_down (n i : nat) (l : list (option nat)) : M manager (list (option nat)) :=
  match n with
  | O => ret l
  | S n' => x <- deref (l !! S i) ;; _ <- deref (l !! i) ;; shift_down n' (S i) (<[i := x]> l)
  end.

Definition device_remove_child (parent child : option nat) : M manager Z :=
  match parent, child with
  | Some p, Some c =>
      x <- dev_at p ;;
      match children x with
      | None => ret DEVICE_ERROR_INVALID
      | Some a =>
          l <- array_at a ;;
          found <- index_of (Z.to_nat (num_children x)) l 0 c ;;
          match found with
          | None => ret DEVICE_ERROR_NO_DEVICE
          | Some i =>
              l <- shift_down (Z.to_nat (num_children x) - 1 - i) i l ;;
              store_array a l ;;;
              change_dev p (set_num_children (num_children x - 1)) ;;;
              (if num_children x - 1 =? 0 then free_array a ;;; change_dev p (set_children None) else ret tt) ;;;
              ret DEVICE_OK
          end
      end
  | _, _ => ret DEVICE_ERROR_INVALID
  end.

(** ** Drivers *)

(** Pair [j] of the tables of a driver is that of the device. *)
Definition pair_fits (y : device_driver) (x : device) (j : nat) : M manager bool :=
  vendor <- deref (vendor_ids y !! j) ;;
  if vendor =? vendor_id x then device <- deref (device_ids y !! j) ;; ret (device =? device_id x) else ret false.

(** The driver serves the device: one of its pairs from [j] on fits and [probe] accepts. *)
Fixpoint driver_accepts (n j : nat) (v d : nat) : M manager bool :=
  match n with
  | O => ret false
  | S n' =>
      y <- drv_at v ;;
      x <- dev_at d ;;
      fits <- pair_fits y x j ;;
      if (fits : bool) && has_probe y then
        r <- probe E v d ;;
        if r =? DEVICE_OK then ret true else driver_accepts n' (S j) v d
      else driver_accepts n' (S j) v d
  end.

Fixpoint first_driver (fuel : nat) (v : option nat) (d : nat) : M manager (option nat) :=
  match v, fuel with
  | None, _ => ret None
  | Some _, O => spin
  | Some v, S fuel' =>
      y <- drv_at v ;;
      ok <- driver_accepts (Z.to_nat (num_supported_devices y)) 0 v d ;;
      if (ok : bool) then ret (Some v) else y <- drv_at v ;; first_driver fuel' (d_next y) d
  end.

Definition device_find_driver (d : option nat) : M manager (option nat) :=
  match d with
  | None => ret None
  | Some d =>
      x <- dev_at d ;;
      match driver x with
      | Some v => ret (Some v)
      | None => s <- get ;; first_driver (size (drv s)) (drivers s) d
      end
  end.

(** ** Devices *)

Definition generate_device_id : M manager Z :=
  s <- get ;; put (set_next_id (u32 (next_id s + 1)) s) ;;; ret (next_id s).

(** A name that the device at index [i] has too gets the number of the device. *)
Definition rename_if_taken (d i : nat) : M manager unit :=
  s <- get ;;
  e <- deref (devices s !! i) ;;
  match e with
  | None => ret tt
  | Some e =>
      y <- dev_at e ;;
      x <- dev_at d ;;
      if bool_decide (name y = name x) then change_dev d (set_name (with_id (name x) (id x))) else ret tt
  end.

(** The first free entry of the table. *)
Fixpoint free_slot (l : list (option nat)) (i : nat) : option nat :=
  match l with
  | [] => None
  | None :: _ => Some i
  | Some _ :: l' => free_slot l' (S i)
  end.

Definition attach_driver (d : nat) : M manager unit :=
  x <- dev_at d ;;
  match driver x with
  | Some _ => ret tt
  | None =>
      v <- device_find_driver (Some d) ;;
      match v with
      | None => ret tt
      | Some v =>
          change_dev d (set_driver (Some v)) ;;;
          x <- dev_at d ;;
          (if bool_decide (ops x = None) then change_dev d (set_ops (Some (DriverOps v))) else ret tt) ;;;
          init <- has_op (DriverOps v) OpInit ;;
          if (init : bool) then _ <- operation E OpInit (DriverOps v) d [] ;; ret tt else ret tt
      end
  end.

Definition attach_parent (d : nat) : M manager unit :=
  x <- dev_at d ;;
  s <- get ;;
  match parent x with
  | Some p => _ <- device_add_child (Some p) (Some d) ;; ret tt
  | None =>
      if bool_decide (Some d = root_device s) then ret tt
      else
        change_dev d (set_parent (root_device s)) ;;;
        _ <- device_add_child (root_device s) (Some d) ;; ret tt
  end.

Definition make_path (d : nat) : M manager unit :=
  x <- dev_at d ;;
  s <- get ;;
  match parent x with
  | None => ret tt
  | Some p =>
      if bool_decide (Some d = root_device s) then ret tt
      else y <- dev_at p ;; change_dev d (set_path (join_path (path y) (name x)))
  end.

Definition device_register (d : option nat) : M manager Z :=
  match d with
  | None => ret DEVICE_ERROR_INVALID
  | Some d =>
      s <- get ;;
      if Z.of_nat MAX_DEVICES <=? num_devices s then ret DEVICE_ERROR_RESOURCE
      else
        x <- dev_at d ;;
        (if (id x =? 0) && negb (bool_decide (Some d = root_device s))
         then k <- generate_device_id ;; change_dev d (set_id k) else ret tt) ;;;
        mfor (seq 0 (Z.to_nat (num_devices s))) (rename_if_taken d) ;;;
        s <- get ;;
        match free_slot (devices s) 0 with
        | None => ret DEVICE_ERROR_RESOURCE
        | Some i =>
            put (set_num_devices (num_devices s + 1) (set_devices (<[i := Some d]> (devices s)) s)) ;;;
            attach_driver d ;;;
            attach_parent d ;;;
            make_path d ;;;
            ret DEVICE_OK
        end
  end.

(** A child of the device gets the root as its parent. *)
Definition orphan (d : nat) (l : list (option nat)) (j : nat) : M manager unit :=
  c <- deref (l !! j) ;;
  match c with
  | None => ret tt
  | Some c =>
      y <- dev_at c ;;
      if bool_decide (parent y = Some d) then s <- get ;; change_dev c (set_parent (root_device s)) else ret tt
  end.

(** The index of a device in the table. *)
Fixpoint slot_of (l : list (option nat)) (i d : nat) : option nat :=
  match l with
  | [] => None
  | e :: l' => if bool_decide (e = Some d) then Some i else slot_of l' (S i) d
  end.

Definition device_unregister (d : option nat) : M manager Z :=
  match d with
  | None => ret DEVICE_ERROR_INVALID
  | Some d =>
      s <- get ;;
      match slot_of (devices s) 0 d with
      | None => _ <- dev_at d ;; ret DEVICE_ERROR_NO_DEVICE
      | Some i =>
          x <- dev_at d ;;
          match children x with
          | None => ret tt
          | Some a =>
              l <- array_at a ;;
              mfor (seq 0 (Z.to_nat (num_children x))) (orphan d l) ;;;
              free_array a
          end ;;;
          x <- dev_at d ;;
          match parent x with
          | None => ret tt
          | Some p => _ <- device_remove_child (Some p) (Some d) ;; ret tt
          end ;;;
          x <- dev_at d ;;
          match ops x with
          | None => ret tt
          | Some o =>
              b <- has_op o OpRemove ;;
              if (b : bool) then _ <- operation E OpRemove o d [] ;; ret tt else ret tt
          end ;;;
          modify (fun s => set_num_devices (num_devices s - 1) (set_devices (<[i := None]> (devices s)) s)) ;;;
          ret DEVICE_OK
      end
  end.

Definition device_init_root : M manager unit :=
  s <- get ;;
  let r := heap_alloc E s in
  put (set_root_device r s) ;;;
  match r with
  | None => ret tt
  | Some r =>
      modify (fun s => set_dev (<[r := mk_device [115; 121; 115; 116; 101; 109] [47] 0 DEVICE_TYPE_UNKNOWN DEVICE_STATUS_ENABLED
        (Z.lor DEVICE_FLAG_ROOT DEVICE_FLAG_SYSTEM) 0 0 None None 0 None None None]> (dev s)) s) ;;;
      _ <- device_register (Some r) ;;
      ret tt
  end.

Definition device_manager_init : M manager Z :=
  modify (fun s => set_num_devices 0 (set_devices (replicate MAX_DEVICES None) s)) ;;;
  device_init_root ;;;
  ret DEVICE_OK.

(** ** Searches *)

(** The first device of a list that satisfies the test. *)
Fixpoint search (test : device -> bool) (l : list (option nat)) : M manager (option nat) :=
  match l with
  | [] => ret None
  | None :: l' => search test l'
  | Some d :: l' => x <- dev_at d ;; if test x then ret (Some d) else search test l'
  end.

Definition device_find_by_name (n : option (list Z)) : M manager (option nat) :=
  match n with
  | None => ret None
  | Some n => s <- get ;; search (fun x => bool_decide (name x = n)) (devices s)
  end.

Definition device_find_by_id (n : Z) : M manager (option nat) :=
  s <- get ;; search (fun x => id x =? n) (devices s).

(** Stores up to [max] devices of that type in [result], from index [count] on. *)
Fixpoint collect (t max : Z) (l : list (option nat)) (count : Z) (result : list (option nat)) : M manager (Z * list (option nat)) :=
  match l with
  | [] => ret (count, result)
  | e :: l' =>
      if max <=? count then ret (count, result)
      else
        match e with
        | None => collect t max l' count result
        | Some d =>
            x <- dev_at d ;;
            if type x =? t then result <- deref (arr_set result count (Some d)) ;; collect t max l' (count + 1) result
            else collect t max l' count result
        end
  end.

Definition device_find_by_type (t : Z) (result : option (list (option nat))) (max : Z) : M manager (Z * option (list (option nat))) :=
  match result with
  | None => ret (0, None)
  | Some result =>
      if max <=? 0 then ret (0, Some result)
      else s <- get ;; r <- collect t max (devices s) 0 result ;; ret (fst r, Some (snd r))
  end.

(** ** The list of drivers *)

Fixpoint driver_named (fuel : nat) (v : option nat) (n : list Z) : M manager bool :=
  match v, fuel with
  | None, _ => ret false
  | Some _, O => spin
  | Some v, S fuel' => y <- drv_at v ;; if bool_decide (d_name y = n) then ret true else driver_named fuel' (d_next y) n
  end.

(** A new driver is offered the device at index [i], for its pairs from [j] on. *)
Fixpoint offer (n j : nat) (v d : nat) : M manager unit :=
  match n with
  | O => ret tt
  | S n' =>
      y <- drv_at v ;;
      x <- dev_at d ;;
      fits <- pair_fits y x j ;;
      (if (fits : bool) then
         r <- probe E v d ;;
         if r =? DEVICE_OK then
           change_dev d (fun x => set_ops (Some (DriverOps v)) (set_driver (Some v) x)) ;;;
           init <- has_op (DriverOps v) OpInit ;;
           if (init : bool) then _ <- operation E OpInit (DriverOps v) d [] ;; ret tt else ret tt
         else ret tt
       else ret tt) ;;;
      offer n' (S j) v d
  end.

Definition offer_slot (v i : nat) : M manager unit :=
  s <- get ;;
  e <- deref (devices s !! i) ;;
  match e with
  | None => ret tt
  | Some d =>
      x <- dev_at d ;;
      match driver x with
      | Some _ => ret tt
      | None => y <- drv_at v ;; offer (Z.to_nat (num_supported_devices y)) 0 v d
      end
  end.

Definition device_driver_register (v : option nat) : M manager Z :=
  match v with
  | None => ret DEVICE_ERROR_INVALID
  | Some v =>
      s <- get ;;
      y <- drv_at v ;;
      dup <- driver_named (size (drv s)) (drivers s) (d_name y) ;;
      if (dup : bool) then ret DEVICE_ERROR_GENERAL
      else
        (if d_id y =? 0 then
           modify (set_next_driver_id (u32 (next_driver_id s + 1))) ;;; change_drv v (set_d_id (next_driver_id s))
         else ret tt) ;;;
        change_drv v (set_d_next (drivers s)) ;;;
        modify (set_drivers (Some v)) ;;;
        (if has_init y then _ <- driver_init E v ;; ret tt else ret tt) ;;;
        (if has_probe y then mfor (seq 0 MAX_DEVICES) (offer_slot v) else ret tt) ;;;
        ret DEVICE_OK
  end.

(** Devices of the driver lose it. *)
Definition detach_driver (v i : nat) : M manager unit :=
  s <- get ;;
  e <- deref (devices s !! i) ;;
  match e with
  | None => ret tt
  | Some d =>
      x <- dev_at d ;;
      if bool_decide (driver x = Some v) then change_dev d (fun x => set_ops None (set_driver None x)) else ret tt
  end.

(** Unlinks driver [v]: [prev] is the element before [cur]. *)
Fixpoint unlink_driver (fuel : nat) (prev cur : option nat) (v : nat) : M manager bool :=
  match cur, fuel with
  | None, _ => ret false
  | Some _, O => spin
  | Some c, S fuel' =>
      y <- drv_at c ;;
      if bool_decide (c = v) then
        match prev with None => modify (set_drivers (d_next y)) | Some p => change_drv p (set_d_next (d_next y)) end ;;;
        ret true
      else unlink_driver fuel' (Some c) (d_next y) v
  end.

Definition device_driver_unregister (v : option nat) : M manager Z :=
  match v with
  | None => ret DEVICE_ERROR_INVALID
  | Some v =>
      s <- get ;;
      found <- unlink_driver (size (drv s)) None (drivers s) v ;;
      if (found : bool) then
        y <- drv_at v ;;
        (if has_exit y then _ <- driver_exit E v ;; ret tt else ret tt) ;;;
        mfor (seq 0 MAX_DEVICES) (detach_driver v) ;;;
        ret DEVICE_OK
      else _ <- drv_at v ;; ret DEVICE_ERROR_NO_DEVICE
  end.

(** ** The list of classes *)

Fixpoint find_class (fuel : nat) (test : device_class -> bool) (c : option nat) : M manager (option nat) :=
  match c, fuel with
  | None, _ => ret None
  | Some _, O => spin
  | Some c, S fuel' => y <- cls_at c ;; if test y then ret (Some c) else find_class fuel' test (c_next y)
  end.

Definition device_class_find_by_name (n : option (list Z)) : M manager (option nat) :=
  match n with
  | None => ret None
  | Some n => s <- get ;; find_class (size (cls s)) (fun y => bool_decide (c_name y = n)) (classes s)
  end.

Definition device_class_find_by_id (n : Z) : M manager (option nat) :=
  s <- get ;; find_class (size (cls s)) (fun y => c_id y =? n) (classes s).

Definition device_class_register (c : option nat) : M manager Z :=
  match c with
  | None => ret DEVICE_ERROR_INVALID
  | Some c =>
      s <- get ;;
      y <- cls_at c ;;
      dup <- find_class (size (cls s)) (fun z => bool_decide (c_name z = c_name y)) (classes s) ;;
      match dup with
      | Some _ => ret DEVICE_ERROR_GENERAL
      | None =>
          (if c_id y =? 0 then
             modify (set_next_class_id (u32 (next_class_id s + 1))) ;;; change_cls c (set_c_id (next_class_id s))
           else ret tt) ;;;
          change_cls c (set_c_next (classes s)) ;;;
          modify (set_classes (Some c)) ;;;
          (if c_has_init y then _ <- class_init E c ;; ret tt else ret tt) ;;;
          ret DEVICE_OK
      end
  end.

(** Devices of the class lose it. *)
Definition detach_class (c i : nat) : M manager unit :=
  s <- get ;;
  e <- deref (devices s !! i) ;;
  match e with
  | None => ret tt
  | Some d => x <- dev_at d ;; if bool_decide (class_of x = Some c) then change_dev d (set_class_of None) else ret tt
  end.

Fixpoint unlink_class (fuel : nat) (prev cur : option nat) (c : nat) : M manager bool :=
  match cur, fuel with
  | None, _ => ret false
  | Some _, O => spin
  | Some k, S fuel' =>
      y <- cls_at k ;;
      if bool_decide (k = c) then
        match prev with None => modify (set_classes (c_next y)) | Some p => change_cls p (set_c_next (c_next y)) end ;;;
        ret true
      else unlink_class fuel' (Some k) (c_next y) c
  end.

Definition device_class_unregister (c : option nat) : M manager Z :=
  match c with
  | None => ret DEVICE_ERROR_INVALID
  | Some c =>
      s <- get ;;
      found <- unlink_class (size (cls s)) None (classes s) c ;;
      if (found : bool) then
        y <- cls_at c ;;
        (if c_has_exit y then _ <- class_exit E c ;; ret tt else ret tt) ;;;
        mfor (seq 0 MAX_DEVICES) (detach_class c) ;;;
        ret DEVICE_OK
      else _ <- cls_at c ;; ret DEVICE_ERROR_NO_DEVICE
  end.

(** ** Operations *)

(** The operation of the device, when it has one. *)
Definition perform (k : op) (d : nat) (args : list Z) : M manager Z :=
  x <- dev_at d ;;
  match ops x with
  | None => ret DEVICE_ERROR_UNSUPPORTED
  | Some o => b <- has_op o k ;; if (b : bool) then operation E k o d args else ret DEVICE_ERROR_UNSUPPORTED
  end.

Definition device_open (d : option nat) (fl : Z) : M manager Z :=
  match d with None => ret DEVICE_ERROR_INVALID | Some d => perform OpOpen d [fl] end.
Definition device_close (d : option nat) : M manager Z :=
  match d with None => ret DEVICE_ERROR_INVALID | Some d => perform OpClose d [] end.

(** A buffer is its address. *)
Definition device_read (d : option nat) (buffer : Z) (n offset : Z) : M manager Z :=
  match d with
  | None => ret DEVICE_ERROR_INVALID
  | Some d => if buffer =? 0 then ret DEVICE_ERROR_INVALID else perform OpRead d [buffer; n; offset]
  end.
Definition device_write (d : option nat) (buffer : Z) (n offset : Z) : M manager Z :=
  match d with
  | None => ret DEVICE_ERROR_INVALID
  | Some d => if buffer =? 0 then ret DEVICE_ERROR_INVALID else perform OpWrite d [buffer; n; offset]
  end.
Definition device_ioctl (d : option nat) (request arg : Z) : M manager Z :=
  match d with None => ret DEVICE_ERROR_INVALID | Some d => perform OpIoctl d [request; arg] end.

(** Both only log; the first reads the name of the device. *)
Definition device_create_node (d : option nat) : M manager Z := d <- deref d ;; _ <- dev_at d ;; ret DEVICE_OK.
Definition device_remove_node : M manager Z := ret DEVICE_OK.

End Ops.
End Manager.
End Devices.
