(* ===== verification/DevicesThms.v ===== *)
(** * Properties of the device manager

    [tree] is the invariant of the tree of devices: every device but the root has a
    registered parent above it, arrays of children hold exactly the registered devices whose
    parent they belong to, and have room; [linked] is that of the lists of drivers and
    classes. Every legal call keeps both and is free of faults. Errors: what happens
    when the root is removed, and names and paths that are not what they should be. *)

From Stdlib Require Import ZArith Lia.
From stdpp Require Import functions base tactics option list gmap.
From S2P Require Import Prelude Devices.
Import Devices.

Set Default Goal Selector "!".
Local Open Scope Z_scope.
Local Open Scope kernel_scope.

Module DevicesThms.

Section Manager.
Context {D : Type} (E : env (D := D)).
Implicit Types s : manager (D := D).

(** Only what drivers work on changes. *)
Definition quiet {A} (m : M manager A) : Prop := forall s, wp m (fun _ s' => exists w, s' = set_world w s) s.

(** What is relied on of memory and of drivers and classes: [heap_alloc] does not run
    out of memory and gives fresh blocks ([device_register] ignores the failure of
    [device_add_child] and would leave a device that its parent does not list), and the
    functions of drivers and classes return and touch nothing of the manager. *)
Class Handlers : Prop := {
  h_alloc : forall s, exists a, heap_alloc E s = Some a /\ arr s !! a = None /\ dev s !! a = None;
  h_operation : forall k o d args, quiet (operation E k o d args);
  h_probe : forall v d, quiet (probe E v d);
  h_driver_init : forall v, quiet (driver_init E v);
  h_driver_exit : forall v, quiet (driver_exit E v);
  h_class_init : forall c, quiet (class_init E c);
  h_class_exit : forall c, quiet (class_exit E c);
}.

Context {HE : Handlers}.

(** ** Arrays of children *)

(** The children of a device are [ks]; the size of an array is a multiple of 4. *)
Definition kids s (d : nat) (ks : list nat) : Prop := exists x, dev s !! d = Some x /\
  match children x with
  | None => ks = []
  | Some a => num_children x = Z.of_nat (length ks) /\ ks <> [] /\
      exists rest, arr s !! a = Some ((Some <$> ks) ++ rest) /\ (4 | Z.of_nat (length ks + length rest))
  end.

(** Nothing changes but the array of device [p]. *)
Definition only_kids (p : nat) s s' : Prop := exists x ch n h, dev s !! p = Some x /\
  s' = set_arr h (set_dev (<[p := set_num_children n (set_children ch x)]> (dev s)) s) /\
  (forall b l, arr s !! b = Some l -> children x <> Some b -> h !! b = Some l) /\
  (forall a, ch = Some a -> children x = Some a \/ arr s !! a = None).

Lemma only_kids_trans p s1 s2 s3 : only_kids p s1 s2 -> only_kids p s2 s3 -> only_kids p s1 s3.
Proof.
  intros (x & ch & n & h & Hx & -> & Hh & Hc) (x' & ch' & n' & h' & Hx' & -> & Hh' & Hc'). cbn in *. rewrite lookup_insert_eq in Hx'. injection Hx' as <-.
  exists x, ch', n', h'. split; [done|]. split; [unfold set_arr, set_dev; cbn; by rewrite insert_insert_eq|]. cbn in *. split.
  - intros b l Hb Hne. apply Hh'; [by apply Hh|]. intros He. destruct (Hc b He) as [|Hn]; [done|]. by rewrite Hb in Hn.
  - intros a Ha. destruct (Hc' a Ha) as [He|Hn].
    + by apply Hc.
    + destruct (decide (children x = Some a)) as [|Hne]; [by left|]. right. destruct (arr s1 !! a) as [l|] eqn:Hl; [|done]. by rewrite (Hh a l Hl Hne) in Hn.
Qed.

Lemma only_kids_other p s s' q : only_kids p s s' -> q <> p -> dev s' !! q = dev s !! q.
Proof. intros (x & ch & n & h & _ & -> & _) Hne. cbn. by rewrite lookup_insert_ne. Qed.

Lemma wp_dev_at d x Q s : dev s !! d = Some x -> Q x s -> wp (dev_at d) Q s.
Proof. intros Hx HQ. unfold dev_at. wp_steps. rewrite Hx. cbn [deref]. by wp_steps. Qed.

Lemma wp_change_dev d f x Q s : dev s !! d = Some x -> Q tt (set_dev (<[d := f x]> (dev s)) s) -> wp (change_dev d f) Q s.
Proof. intros Hx HQ. unfold change_dev. wp_steps. eapply wp_dev_at; [done|]. by wp_steps. Qed.

Lemma wp_array_at a l Q s : arr s !! a = Some l -> Q l s -> wp (array_at a) Q s.
Proof. intros Hx HQ. unfold array_at. wp_steps. rewrite Hx. cbn [deref]. by wp_steps. Qed.

Lemma wp_free_array a l Q s : arr s !! a = Some l -> Q tt (set_arr (delete a (arr s)) s) -> wp (free_array a) Q s.
Proof. intros Hx HQ. unfold free_array. wp_steps. eapply wp_array_at; [done|]. by wp_steps. Qed.

Lemma index_of_spec ks : forall pre rest d Q s, (d ∉ ks -> Q None s) -> (forall k1 k2, ks = k1 ++ d :: k2 -> Q (Some (length pre + length k1)%nat) s) ->
  wp (index_of (length ks) (pre ++ (Some <$> ks) ++ rest) (length pre) d) Q s.
Proof.
  induction ks as [|k ks IH]; intros pre rest d Q s HN HS; cbn [length index_of]; wp_steps; [apply HN; set_solver|].
  rewrite lookup_app_r, Nat.sub_diag by lia. cbn [fmap list_fmap app lookup list_lookup deref]. wp_steps. destruct (bool_decide_reflect (Some k = Some d)) as [He|He].
  - wp_steps. injection He as ->. specialize (HS [] ks eq_refl). cbn in HS. by rewrite Nat.add_0_r in HS.
  - change (Some k :: (Some <$> ks) ++ rest) with ([Some k] ++ (Some <$> ks) ++ rest). rewrite app_assoc.
    replace (S (length pre)) with (length (pre ++ [Some k])) by (rewrite length_app; cbn; lia). apply IH.
    + intros Hd. apply HN. set_solver.
    + intros k1 k2 ->. specialize (HS (k :: k1) k2 eq_refl). rewrite length_app. cbn in *. by replace (length pre + 1 + length k1)%nat with (length pre + S (length k1))%nat by lia.
Qed.

Lemma shift_down_spec k2 : forall k1 d rest Q s, (forall y, Q ((Some <$> k1) ++ (Some <$> k2) ++ y :: rest) s) ->
  wp (shift_down (length k2) (length k1) ((Some <$> k1) ++ Some d :: (Some <$> k2) ++ rest)) Q s.
Proof.
  induction k2 as [|c k2 IH]; intros k1 d rest Q s HQ; cbn [length shift_down]; wp_steps; [apply HQ|].
  assert (length (Some <$> k1) = length k1) as Hl by apply length_fmap.
  rewrite lookup_app_r by lia. rewrite Hl. replace (S (length k1) - length k1)%nat with 1%nat by lia. cbn [fmap list_fmap app lookup list_lookup deref]. wp_steps.
  rewrite lookup_app_r by lia. rewrite Hl, Nat.sub_diag. cbn [lookup list_lookup deref]. wp_steps.
  replace (<[length k1 := Some c]> _) with ((Some <$> (k1 ++ [c])) ++ Some c :: (Some <$> k2) ++ rest).
  2:{ rewrite fmap_app, <- app_assoc. rewrite <- Hl, <- (Nat.add_0_r (length _)), insert_app_r. done. }
  replace (S (length k1)) with (length (k1 ++ [c])) by (rewrite length_app; cbn; lia). apply IH. intros y. rewrite fmap_app, <- app_assoc. apply HQ.
Qed.

Lemma new_array_spec n Q s : (forall a, arr s !! a = None -> Q (Some a) (set_arr (<[a := replicate (Z.to_nat n) None]> (arr s)) s)) -> wp (new_array E n) Q s.
Proof. intros HQ. unfold new_array, store_array. wp_steps. destruct (h_alloc s) as (a & -> & Ha & _). wp_steps. by apply HQ. Qed.

Lemma kids_same x : set_num_children (num_children x) (set_children (children x) x) = x.
Proof. by destruct x. Qed.

(** The array of [p] has room for one more. *)
Definition room s (p a : nat) (ks : list nat) : Prop := exists x y rest, dev s !! p = Some x /\ children x = Some a /\ num_children x = Z.of_nat (length ks) /\
  arr s !! a = Some ((Some <$> ks) ++ y :: rest) /\ (4 | Z.of_nat (length ks + S (length rest))).

Lemma grow_children_spec p ks Q s : kids s p ks -> (forall a s', only_kids p s s' -> room s' p a ks -> Q (Some a) s') -> wp (grow_children E p) Q s.
Proof.
  intros (x & Hx & Hk) HQ. unfold grow_children. wp_steps. eapply wp_dev_at; [done|]. destruct (children x) as [a|] eqn:Hc.
  - destruct Hk as (Hn & Hks & rest & Ha & Hd). assert (length (Some <$> ks) = length ks) as Hl by apply length_fmap. destruct (Z.eqb_spec (num_children x mod 4) 0) as [Hm|Hm].
    + wp_steps. apply new_array_spec. intros b Hb. wp_steps. assert (a <> b) as Hab by (intros ->; by rewrite Hb in Ha).
      eapply wp_array_at; [cbn; by rewrite lookup_insert_ne|]. rewrite length_app, Hl, Hn. destruct (Z.ltb_spec (Z.of_nat (length ks + length rest)) (Z.of_nat (length ks))); [lia|].
      destruct (Z.ltb_spec (Z.of_nat (length ks)) 0); [lia|]. cbn [orb]. unfold store_array. wp_steps. rewrite Nat2Z.id, <- Hl, take_app_length.
      eapply wp_free_array; [cbn; rewrite !lookup_insert_ne by done; done|]. wp_steps. eapply wp_change_dev; [done|]. wp_steps. cbn. apply (HQ b).
      * exists x, (Some b), (num_children x), (delete a (<[b := (Some <$> ks) ++ replicate 4 None]> (arr s))). split; [done|].
        split; [unfold set_arr, set_dev; cbn; rewrite insert_insert_eq; by destruct x|]. split.
        -- intros c l Hcl Hne. rewrite lookup_delete_ne by congruence. rewrite lookup_insert_ne; [done|]. intros ->. by rewrite Hb in Hcl.
        -- intros c [= <-]. by right.
      * eexists _, None, [None; None; None]. cbn. split; [by rewrite lookup_insert_eq|]. split; [done|]. split; [done|]. split; [|].
        -- rewrite lookup_delete_ne, lookup_insert_eq by done. done.
        -- apply Z.mod_divide in Hm; [|done]. destruct Hm as [k Hk]. exists (k + 1). lia.
    + wp_steps. apply (HQ a).
      * exists x, (Some a), (num_children x), (arr s). split; [done|]. split; [unfold set_arr, set_dev; cbn; rewrite <- Hc, kids_same, insert_id by done; by destruct s|].
        split; [done|]. intros b [= <-]. by left.
      * destruct rest as [|y rest]; [exfalso; apply Hm; rewrite Hn; apply Z.mod_divide; [done|]; by rewrite Nat.add_0_r in Hd|].
        exists x, y, rest. done.
  - subst ks. wp_steps. apply new_array_spec. intros a Ha. wp_steps. eapply wp_change_dev; [done|]. wp_steps. apply (HQ a).
    + exists x, (Some a), 0, (<[a := replicate (Z.to_nat 4) None]> (arr s)). split; [done|]. split; [done|]. split.
      * intros b l Hb _. rewrite lookup_insert_ne; [done|]. intros ->. by rewrite Ha in Hb.
      * intros b [= <-]. by right.
    + eexists _, None, [None; None; None]. cbn. split; [by rewrite lookup_insert_eq|]. split; [done|]. split; [done|]. split; [by rewrite lookup_insert_eq|]. by exists 1.
Qed.

Lemma device_add_child_spec p c ks Q s : kids s p ks -> c ∉ ks -> (forall s', only_kids p s s' -> kids s' p (ks ++ [c]) -> Q DEVICE_OK s') ->
  wp (device_add_child E (Some p) (Some c)) Q s.
Proof.
  intros Hk Hc HQ. unfold device_add_child. wp_steps. pose proof Hk as (x & Hx & Hch). eapply wp_dev_at; [done|]. wp_steps.
  assert (wp (match children x with None => ret None | Some a => l <- array_at a ;; index_of (Z.to_nat (num_children x)) l 0 c end) (fun r s' => r = None /\ s' = s) s) as Hthere.
  { destruct (children x) as [a|]; [|by wp_steps]. destruct Hch as (Hn & _ & rest & Ha & _). wp_steps. eapply wp_array_at; [done|]. rewrite Hn, Nat2Z.id.
    apply (index_of_spec ks [] rest); [done|]. intros k1 k2 ->. set_solver. }
  eapply wp_mono; [exact Hthere|]. cbn beta. intros r s0 [-> ->]. wp_steps. eapply grow_children_spec; [done|]. intros a s1 H1 (x1 & y & rest & Hx1 & Hc1 & Hn1 & Ha1 & Hd). wp_steps.
  eapply wp_dev_at; [done|]. wp_steps. eapply wp_array_at; [done|]. wp_steps. assert (length (Some <$> ks) = length ks) as Hl by apply length_fmap.
  rewrite arr_set_some by (rewrite length_app, Hl, Hn1; cbn; lia). cbn [deref]. unfold store_array. wp_steps. eapply wp_change_dev; [done|]. wp_steps.
  rewrite Hn1, Nat2Z.id, <- Hl, <- (Nat.add_0_r (length (Some <$> ks))), insert_app_r. cbn [insert list_insert].
  apply HQ.
  - eapply only_kids_trans; [done|]. eexists x1, (Some a), _, _. split; [done|]. split; [unfold set_arr, set_dev; cbn; rewrite <- Hc1; by destruct x1|]. split.
    + intros b l Hb Hne. rewrite lookup_insert_ne by congruence. done.
    + intros b [= <-]. by left.
  - eexists. cbn. split; [by rewrite lookup_insert_eq|]. cbn. rewrite Hc1. rewrite length_app. cbn [length]. split; [lia|]. split; [by destruct ks|]. exists rest.
    rewrite lookup_insert_eq, fmap_app, <- app_assoc. split; [done|]. by replace (length ks + 1 + length rest)%nat with (length ks + S (length rest))%nat by lia.
Qed.

Lemma device_remove_child_spec p c ks Q s : kids s p ks -> (c ∉ ks -> forall r, Q r s) ->
  (forall k1 k2 r s', ks = k1 ++ c :: k2 -> only_kids p s s' -> kids s' p (k1 ++ k2) -> Q r s') -> wp (device_remove_child (Some p) (Some c)) Q s.
Proof.
  intros (x & Hx & Hch) HN HS. unfold device_remove_child. wp_steps. eapply wp_dev_at; [done|]. destruct (children x) as [a|] eqn:Hc; [|subst ks; wp_steps; apply HN; set_solver].
  destruct Hch as (Hn & _ & rest & Ha & Hd). wp_steps. eapply wp_array_at; [done|]. wp_steps. rewrite Hn, Nat2Z.id.
  apply (index_of_spec ks [] rest); [intros Hnot; wp_steps; by apply HN|]. intros k1 k2 ->. cbn [length Nat.add]. wp_steps.
  replace (length (k1 ++ c :: k2) - 1 - length k1)%nat with (length k2) by (rewrite length_app; cbn; lia).
  assert ((Some <$> (k1 ++ c :: k2)) ++ rest = (Some <$> k1) ++ Some c :: (Some <$> k2) ++ rest) as Hsplit by (by rewrite fmap_app, <- app_assoc).
  cbn [app]. rewrite Hsplit in *. apply shift_down_spec. intros y. unfold store_array. wp_steps. eapply wp_change_dev; [done|]. wp_steps.
  set (n := Z.of_nat (length (k1 ++ c :: k2)) - 1). assert (n = Z.of_nat (length (k1 ++ k2))) as Hn1 by (unfold n; rewrite !length_app; cbn; lia). clearbody n.
  destruct (Z.eqb_spec n 0) as [H0|H0]; wp_steps.
  - assert (k1 ++ k2 = []) as Hnil by (apply length_zero_iff_nil; lia). eapply wp_free_array; [cbn; by rewrite lookup_insert_eq|]. wp_steps.
    eapply wp_change_dev; [cbn; by rewrite lookup_insert_eq|]. wp_steps. cbn. eapply HS; [done| |].
    + exists x, None, n, (delete a (<[a := (Some <$> k1) ++ (Some <$> k2) ++ y :: rest]> (arr s))). split; [done|]. split; [unfold set_arr, set_dev; cbn; by rewrite insert_insert_eq|]. split; [|done].
      intros b l Hb Hne. rewrite lookup_delete_ne, lookup_insert_ne by congruence. done.
    + eexists. cbn. split; [by rewrite lookup_insert_eq|]. done.
  - eapply HS; [done| |].
    + exists x, (Some a), n, (<[a := (Some <$> k1) ++ (Some <$> k2) ++ y :: rest]> (arr s)). split; [done|]. split; [unfold set_arr, set_dev; cbn; rewrite <- Hc; by destruct x|]. split.
      * intros b l Hb Hne. rewrite lookup_insert_ne by congruence. done.
      * intros b [= <-]. by left.
    + eexists. cbn. split; [by rewrite lookup_insert_eq|]. cbn. rewrite Hc. split; [done|]. split; [intros Hnil; rewrite Hnil in Hn1; done|]. exists (y :: rest).
      rewrite lookup_insert_eq, fmap_app, <- app_assoc. split; [done|]. rewrite length_app in *. cbn [length] in *.
      by replace (length k1 + length k2 + S (length rest))%nat with (length k1 + S (length k2) + length rest)%nat by lia.
Qed.

(** ** The tree *)

(** The devices [R] form a tree with the children [K]; device [X] may be among the children
    of another although it is not one of [R]. *)
Record tree s (R : list nat) (K : nat -> list nat) (X : option nat) : Prop := {
  t_kids d : d ∈ R -> kids s d (K d);
  t_nodup d : d ∈ R -> NoDup (K d);
  t_apart d e x y a : d ∈ R -> e ∈ R -> dev s !! d = Some x -> dev s !! e = Some y -> children x = Some a -> children y = Some a -> d = e;
  t_child d c : d ∈ R -> c ∈ K d -> X = Some c \/ (c ∈ R /\ exists y, dev s !! c = Some y /\ parent y = Some d);
  t_parent d x : d ∈ R -> dev s !! d = Some x ->
    match parent x with
    | None => root_device s = Some d
    | Some p => p ∈ R /\ root_device s <> Some d /\ (d ∈ K p \/ root_device s = Some p)
    end;
  t_root : exists r, root_device s = Some r /\ r ∈ R;
  t_rank : exists f : nat -> nat,
    (forall d x p, d ∈ R -> dev s !! d = Some x -> parent x = Some p -> (f p < f d)%nat) /\
    (forall d r, d ∈ R -> root_device s = Some r -> d <> r -> (f r < f d)%nat);
}.

Lemma tree_ext s s' R K X : dev s' = dev s -> arr s' = arr s -> root_device s' = root_device s -> tree s R K X -> tree s' R K X.
Proof.
  intros Hd Ha Hr [T1 T2 T3 T4 T5 T6 T7]. split; unfold kids in *; rewrite ?Hd, ?Ha, ?Hr; done.
Qed.

Lemma kids_outside s d x q ks : d <> q -> kids s q ks -> kids (set_dev (<[d := x]> (dev s)) s) q ks.
Proof. intros Hne (y & Hy & Hk). exists y. cbn. by rewrite lookup_insert_ne by done. Qed.

(** A structure that is not registered changes. *)
Lemma tree_outside s d x R K X : d ∉ R -> tree s R K X -> tree (set_dev (<[d := x]> (dev s)) s) R K X.
Proof.
  intros Hd [T1 T2 T3 T4 T5 T6 [f [T7 T8]]]. assert (forall q, q ∈ R -> (<[d := x]> (dev s)) !! q = dev s !! q) as Hne by (intros q Hq; apply lookup_insert_ne; set_solver).
  split; cbn [dev arr root_device set_dev].
  - intros q Hq. apply kids_outside; [set_solver|by apply T1].
  - done.
  - intros q q' y y' a Hq Hq'. rewrite !Hne by done. by apply T3.
  - intros q c Hq Hc. destruct (T4 q c Hq Hc) as [|[Hin Hp]]; [by left|]. right. split; [done|]. by rewrite Hne.
  - intros q y Hq. rewrite Hne by done. by apply T5.
  - done.
  - exists f. split; [|done]. intros q y p Hq. rewrite Hne by done. by apply T7.
Qed.

(** The same place in the tree. *)
Definition same_place (x y : device) : Prop := parent y = parent x /\ children y = children x /\ num_children y = num_children x.

(** Devices change, but not their places in the tree. *)
Lemma tree_same s m R K X : (forall q, option_Forall2 same_place (dev s !! q) (m !! q)) -> tree s R K X -> tree (set_dev m s) R K X.
Proof.
  intros Hm [T1 T2 T3 T4 T5 T6 [f [T7 T8]]].
  assert (forall q y', m !! q = Some y' -> exists y, dev s !! q = Some y /\ same_place y y') as Hinv by (intros q y' Hy'; specialize (Hm q); rewrite Hy' in Hm; inversion Hm; eauto).
  assert (forall q y, dev s !! q = Some y -> exists y', m !! q = Some y' /\ same_place y y') as Hfw by (intros q y Hy; specialize (Hm q); rewrite Hy in Hm; inversion Hm; eauto).
  split; cbn [dev arr root_device set_dev].
  - intros q Hq. destruct (T1 q Hq) as (y & Hy & Hk). destruct (Hfw q y Hy) as (y' & Hy' & E1 & E2 & E3). exists y'. cbn. split; [done|]. by rewrite E2, E3.
  - done.
  - intros q q' y y' a Hq Hq' (z & Hz & _ & E2 & _)%Hinv (z' & Hz' & _ & E2' & _)%Hinv. rewrite E2, E2'. by apply T3.
  - intros q c Hq Hcq. destruct (T4 q c Hq Hcq) as [|[Hin (y & Hy & Hpy)]]; [by left|]. right. split; [done|]. destruct (Hfw c y Hy) as (y' & Hy' & E1 & _). exists y'. split; [done|congruence].
  - intros q y Hq (z & Hz & E1 & _)%Hinv. rewrite E1. by apply T5.
  - done.
  - exists f. split; [|done]. intros q y p Hq (z & Hz & E1 & _)%Hinv. rewrite E1. by apply T7.
Qed.

Lemma tree_inside s d x x' R K X : dev s !! d = Some x -> same_place x x' -> tree s R K X -> tree (set_dev (<[d := x']> (dev s)) s) R K X.
Proof.
  intros Hx Hs. apply tree_same. intros q. destruct (decide (d = q)) as [<-|Hne]; [rewrite lookup_insert_eq, Hx; by constructor|].
  rewrite lookup_insert_ne by done. destruct (dev s !! q); by constructor.
Qed.

(** The array of a device changes; only [X] may come or go. *)
Lemma tree_kids s s' p ks R K X : p ∈ R -> only_kids p s s' -> kids s' p ks -> NoDup ks -> (forall c, c ∈ ks -> c ∈ K p \/ X = Some c) ->
  (forall c, c ∈ K p -> c ∈ ks \/ c ∉ R) -> tree s R K X -> tree s' R (<[p := ks]> K) X.
Proof.
  intros Hp Ho Hks Hnd Hin Hout [T1 T2 T3 T4 T5 T6 [f [T7 T8]]]. pose proof Ho as (x & ch & n & h & Hx & -> & Hh & Hch).
  assert (forall q y', (<[p := set_num_children n (set_children ch x)]> (dev s)) !! q = Some y' ->
    exists y, dev s !! q = Some y /\ parent y' = parent y /\ (q <> p -> y' = y) /\ (q = p -> children y' = ch)) as Hinv.
  { intros q y'. destruct (decide (p = q)) as [<-|Hne]; [rewrite lookup_insert_eq; intros [= <-]; by exists x|rewrite lookup_insert_ne by done; exists y'; by repeat split]. }
  assert (forall q, q <> p -> (<[p := ks]> K) q = K q) as HK by (intros q Hq; by rewrite fn_lookup_insert_ne).
  assert (forall q y a, q ∈ R -> q <> p -> dev s !! q = Some y -> children y = Some a -> ch <> Some a) as Hapart.
  { intros q y a Hq Hne Hy Ha Hcha. destruct (Hch a Hcha) as [Hold|Hfresh]; [by apply Hne, (T3 q p y x a)|].
    destruct (T1 q Hq) as (y0 & Hy0 & Hk0). simplify_eq. rewrite Ha in Hk0. destruct Hk0 as (_ & _ & rest & Hl & _). by rewrite Hfresh in Hl. }
  split; cbn [dev arr root_device set_dev set_arr].
  - intros q Hq. destruct (decide (q = p)) as [->|Hne]; [by rewrite fn_lookup_insert|]. rewrite HK by done. destruct (T1 q Hq) as (y & Hy & Hk). exists y. cbn. rewrite lookup_insert_ne by done.
    split; [done|]. destruct (children y) as [a|] eqn:Ha; [|done]. destruct Hk as (E1 & E2 & rest & El & Ed). split; [done|]. split; [done|]. exists rest. split; [|done]. apply Hh; [done|].
    intros Hxa. by apply Hne, (T3 q p y x a).
  - intros q Hq. destruct (decide (q = p)) as [->|Hne]; [by rewrite fn_lookup_insert|]. rewrite HK by done. by apply T2.
  - intros q q' y y' a Hq Hq' (z & Hz & _ & E1 & E1')%Hinv (z' & Hz' & _ & E2 & E2')%Hinv Ha Ha'.
    destruct (decide (q = p)) as [->|Hne], (decide (q' = p)) as [->|Hne']; [done| | |].
    + rewrite E1' in Ha by done. rewrite E2 in Ha' by done. by destruct (Hapart q' z' a Hq' Hne' Hz' Ha').
    + rewrite E2' in Ha' by done. rewrite E1 in Ha by done. by destruct (Hapart q z a Hq Hne Hz Ha).
    + rewrite E1 in Ha by done. rewrite E2 in Ha' by done. by apply (T3 q q' z z' a).
  - intros q c Hq Hc. assert (X = Some c \/ c ∈ K q) as [HX|HcK]; [|by left|].
    { destruct (decide (q = p)) as [->|Hne]; [rewrite fn_lookup_insert in Hc; destruct (Hin c Hc); [by right|by left]|rewrite HK in Hc by done; by right]. }
    destruct (T4 q c Hq HcK) as [|[HcR (y & Hy & Hpy)]]; [by left|]. right. split; [done|]. destruct (decide (c = p)) as [->|Hne]; [rewrite lookup_insert_eq; eexists; split; [done|]; cbn; congruence|].
    rewrite lookup_insert_ne by done. by exists y.
  - intros q y Hq (z & Hz & E1 & _)%Hinv. rewrite E1. specialize (T5 q z Hq Hz). destruct (parent z) as [pp|]; [|done]. destruct T5 as (P1 & P2 & [P3|P3]); [|by repeat split; auto].
    split; [done|]. split; [done|]. left. destruct (decide (pp = p)) as [->|Hne]; [rewrite fn_lookup_insert; by destruct (Hout q P3)|by rewrite HK].
  - done.
  - exists f. split; [|done]. intros q y pp Hq (z & Hz & E1 & _)%Hinv. rewrite E1. by apply T7.
Qed.

(** A tree of the root alone. *)
Lemma tree_single s r x : root_device s = Some r -> dev s !! r = Some x -> parent x = None -> children x = None -> tree s [r] (fun _ => []) None.
Proof.
  intros Hr Hx Hp Hc. split.
  - intros d ->%list_elem_of_singleton. exists x. by rewrite Hc.
  - intros d _. constructor.
  - intros d e y z a ->%list_elem_of_singleton ->%list_elem_of_singleton. done.
  - set_solver.
  - intros d y ->%list_elem_of_singleton Hy. assert (y = x) as -> by congruence. by rewrite Hp.
  - exists r. set_solver.
  - exists (fun _ => 0%nat). split.
    + intros d y p ->%list_elem_of_singleton Hy. assert (y = x) as -> by congruence. by rewrite Hp.
    + intros d r' ->%list_elem_of_singleton Hr'. congruence.
Qed.

(** A new device that its parent already lists. *)
Lemma tree_add s d x p R K : tree s R K (Some d) -> d ∉ R -> dev s !! d = Some x -> parent x = Some p -> children x = None -> p ∈ R -> d ∈ K p ->
  (forall q, q ∈ R -> d ∈ K q -> q = p) -> tree s (d :: R) (<[d := []]> K) None.
Proof.
  intros [T1 T2 T3 T4 T5 [r [Hr HrR]] [f [T7 T8]]] Hd Hx Hpx Hcx Hp Hdp Huniq.
  assert (forall q, q ∈ R -> (<[d := []]> K) q = K q) as HK by (intros q Hq; apply fn_lookup_insert_ne; set_solver).
  assert (p <> d) as Hpd by set_solver. assert (r <> d) as Hrd by set_solver.
  split.
  - intros q [->|Hq]%elem_of_cons; [exists x; rewrite Hcx; split; [done|apply fn_lookup_insert]|rewrite HK by done; by apply T1].
  - intros q [->|Hq]%elem_of_cons; [rewrite fn_lookup_insert; constructor|rewrite HK by done; by apply T2].
  - intros q q' y y' a [->|Hq]%elem_of_cons [->|Hq']%elem_of_cons Hy Hy' Ha Ha'; try done; try congruence. by apply (T3 q q' y y' a).
  - intros q c [->|Hq]%elem_of_cons; [rewrite fn_lookup_insert; set_solver|]. rewrite HK by done. intros Hc. right. destruct (T4 q c Hq Hc) as [[= <-]|[HcR Hy]]; [|split; [set_solver|done]].
    split; [set_solver|]. exists x. split; [done|]. by rewrite (Huniq q Hq Hc).
  - intros q y [->|Hq]%elem_of_cons Hy.
    + assert (y = x) as -> by congruence. rewrite Hpx. split; [set_solver|]. split; [congruence|]. left. by rewrite HK.
    + specialize (T5 q y Hq Hy). destruct (parent y) as [pp|]; [|done]. destruct T5 as (P1 & P2 & P3). split; [set_solver|]. split; [done|]. by rewrite HK.
  - exists r. set_solver.
  - exists (<[d := S (f p)]> f). assert (forall q, q ∈ R -> (<[d := S (f p)]> f) q = f q) as Hf by (intros q Hq; apply fn_lookup_insert_ne; set_solver). split.
    + intros q y pp [->|Hq]%elem_of_cons Hy Hpy.
      * assert (pp = p) as -> by congruence. rewrite fn_lookup_insert, Hf by done. lia.
      * rewrite (Hf q) by done. specialize (T5 q y Hq Hy). rewrite Hpy in T5. destruct T5 as (P1 & _). rewrite (Hf pp) by done. by apply (T7 q y).
    + intros q r' [->|Hq]%elem_of_cons Hr' Hne; (assert (r' = r) as -> by congruence); rewrite (Hf r) by done.
      * rewrite fn_lookup_insert. destruct (decide (p = r)) as [->|Hpr]; [lia|]. specialize (T8 p r Hp Hr Hpr). lia.
      * rewrite (Hf q) by done. by apply T8.
Qed.

(** [X] is nowhere a child. *)
Lemma tree_settle s R K x : (forall q, q ∈ R -> x ∉ K q) -> tree s R K (Some x) -> tree s R K None.
Proof.
  intros Hx [T1 T2 T3 T4 T5 T6 T7]. split; [done|done|done| |done|done|done]. intros q c Hq Hc. right. destruct (T4 q c Hq Hc) as [[= <-]|]; [|done]. by destruct (Hx q Hq).
Qed.

(** ** Orphans *)

(** The devices [ks] have the root as their parent. *)
Definition orphaned s (ks : list nat) (m : gmap nat device) : Prop := forall c,
  m !! c = if decide (c ∈ ks) then set_parent (root_device s) <$> dev s !! c else dev s !! c.

Lemma orphans_spec s d l : forall todo pre rest m, l = (Some <$> pre) ++ (Some <$> todo) ++ rest -> NoDup (pre ++ todo) -> orphaned s pre m ->
  (forall c, c ∈ todo -> exists y, dev s !! c = Some y /\ parent y = Some d) ->
  wp (mfor (seq (length pre) (length todo)) (orphan d l)) (fun _ s' => exists m', s' = set_dev m' s /\ orphaned s (pre ++ todo) m') (set_dev m s).
Proof.
  induction todo as [|c todo IH]; intros pre rest m Hl Hnd Hm Hp; cbn [length seq mfor]; wp_steps; [exists m; by rewrite app_nil_r|].
  destruct (Hp c) as (y & Hy & Hpy); [set_solver|]. assert (m !! c = Some y) as Hmc.
  { rewrite Hm, decide_False; [done|]. apply NoDup_app in Hnd as (_ & Hnd & _). intros Hc. apply (Hnd c Hc). set_solver. }
  assert (l !! length pre = Some (Some c)) as Hlc by (rewrite Hl, lookup_app_r by (rewrite length_fmap; lia); by rewrite length_fmap, Nat.sub_diag).
  unfold orphan. wp_steps. rewrite Hlc. cbn [deref]. wp_steps.
  eapply wp_dev_at; [done|]. rewrite bool_decide_eq_true_2 by done. wp_steps. eapply wp_change_dev; [done|]. cbn [set_dev dev root_device].
  replace (S (length pre)) with (length (pre ++ [c])) by (rewrite length_app; cbn; lia). replace (pre ++ c :: todo) with ((pre ++ [c]) ++ todo) in * by (by rewrite <- app_assoc).
  apply (IH _ rest); [rewrite Hl, fmap_app, <- app_assoc; done|done| |intros c' Hc'; apply Hp; set_solver].
  intros q. destruct (decide (q = c)) as [->|Hne].
  - rewrite lookup_insert_eq, decide_True by set_solver. by rewrite Hy.
  - rewrite lookup_insert_ne by done. rewrite Hm. destruct (decide (q ∈ pre)) as [Hin|Hin]; [rewrite decide_True by set_solver|rewrite decide_False by set_solver]; done.
Qed.

(** A device leaves the tree: its children are orphans and its array is gone. *)
Lemma tree_drop s d x m h R R' K : tree s R K None -> d ∈ R -> dev s !! d = Some x -> root_device s <> Some d -> orphaned s (K d) m ->
  (forall b l, arr s !! b = Some l -> children x <> Some b -> h !! b = Some l) -> (forall e, e ∈ R' <-> e ∈ R /\ e <> d) ->
  tree (set_arr h (set_dev m s)) R' K (Some d).
Proof.
  intros [T1 T2 T3 T4 T5 [r [Hr HrR]] [f [T7 T8]]] Hd Hx Hroot Hm Hh HR.
  assert (forall c y', m !! c = Some y' -> exists y, dev s !! c = Some y /\ children y' = children y /\ num_children y' = num_children y /\
    ((c ∈ K d /\ parent y' = root_device s) \/ (c ∉ K d /\ y' = y))) as Hinv.
  { intros c y' Hc. rewrite Hm in Hc. destruct (decide (c ∈ K d)); [|by exists y'; repeat split; auto]. destruct (dev s !! c) as [y|]; [|done]. cbn in Hc. injection Hc as <-. exists y. by repeat split; auto. }
  assert (forall c y, dev s !! c = Some y -> exists y', m !! c = Some y' /\ children y' = children y /\ num_children y' = num_children y /\ (c ∉ K d -> y' = y)) as Hfw.
  { intros c y Hy. rewrite Hm, Hy. destruct (decide (c ∈ K d)); [by eexists|by exists y]. }
  assert (forall c, c ∈ K d -> c ∈ R /\ exists y, dev s !! c = Some y /\ parent y = Some d) as Hkd by (intros c Hc; by destruct (T4 d c Hd Hc)).
  split; cbn [dev arr root_device set_dev set_arr].
  - intros q [Hq Hne]%HR. destruct (T1 q Hq) as (y & Hy & Hk). destruct (Hfw q y Hy) as (y' & Hy' & E1 & E2 & _). exists y'. cbn. split; [done|]. rewrite E1, E2.
    destruct (children y) as [a|] eqn:Ha; [|done]. destruct Hk as (N1 & N2 & rest & N3 & N4). split; [done|]. split; [done|]. exists rest. split; [|done]. apply Hh; [done|].
    intros Hxa. by apply Hne, (T3 q d y x a).
  - intros q [Hq _]%HR. by apply T2.
  - intros q q' y y' a [Hq _]%HR [Hq' _]%HR (z & Hz & E1 & _)%Hinv (z' & Hz' & E1' & _)%Hinv. rewrite E1, E1'. by apply T3.
  - intros q c [Hq Hne]%HR Hc. destruct (T4 q c Hq Hc) as [|[HcR (y & Hy & Hpy)]]; [done|]. destruct (decide (c = d)) as [->|Hcd]; [by left|]. right.
    split; [by apply HR|]. assert (c ∉ K d) as Hcn by (intros Hcd'; destruct (Hkd c Hcd') as (_ & y2 & Hy2 & Hp2); congruence).
    destruct (Hfw c y Hy) as (y' & Hy' & _ & _ & Ey). exists y'. split; [done|]. by rewrite Ey.
  - intros q y' [Hq Hne]%HR (y & Hy & _ & _ & [[Hin ->]|[Hnin ->]])%Hinv.
    + rewrite Hr. specialize (T5 q y Hq Hy). destruct (Hkd q Hin) as (_ & y2 & Hy2 & Hp2). assert (y2 = y) as -> by congruence. rewrite Hp2 in T5. destruct T5 as (_ & P2 & _).
      split; [apply HR; split; [done|congruence]|]. split; [congruence|]. by right.
    + specialize (T5 q y Hq Hy). destruct (parent y) as [pp|]; [|done]. destruct T5 as (P1 & P2 & P3). split; [|done]. apply HR. split; [done|]. intros ->. destruct P3; [done|congruence].
  - exists r. split; [done|]. apply HR. split; [done|congruence].
  - exists f. split; [|intros q r' [Hq Hne]%HR; by apply T8].
    intros q y' pp [Hq Hne]%HR (y & Hy & _ & _ & [[Hin Hpr]|[Hnin ->]])%Hinv Hpp; [|by apply (T7 q y)]. rewrite Hpr in Hpp. apply T8; [done|done|].
    intros ->. destruct (Hkd pp Hin) as (_ & y2 & Hy2 & Hp2). specialize (T5 pp y2 Hq Hy2). rewrite Hp2 in T5. by destruct T5 as (_ & P2 & _).
Qed.

Lemma tree_mem s R R' K X : (forall d, d ∈ R' <-> d ∈ R) -> tree s R K X -> tree s R' K X.
Proof.
  intros H [T1 T2 T3 T4 T5 [r [T6 T6']] [f [T7 T8]]]. split.
  - intros d Hd%H. by apply T1.
  - intros d Hd%H. by apply T2.
  - intros d e x y a Hd%H He%H. by apply T3.
  - intros d c Hd%H Hc. destruct (T4 d c Hd Hc) as [|[Hin Hp]]; [by left|right]. split; [by apply H|done].
  - intros d x Hd%H Hx. specialize (T5 d x Hd Hx). destruct (parent x); [|done]. destruct T5 as (P1 & P2 & P3). split; [by apply H|done].
  - exists r. split; [done|by apply H].
  - exists f. split; [intros d x p Hd%H; by apply T7|intros d r' Hd%H; by apply T8].
Qed.

Lemma tree_allow s R K X : tree s R K None -> tree s R K X.
Proof. intros [T1 T2 T3 T4 T5 T6 T7]. split; [done|done|done| |done|done|done]. intros d c Hd Hc. right. by destruct (T4 d c Hd Hc). Qed.

(** ** Linked lists *)

Fixpoint chain {A} (nx : A -> option nat) (m : gmap nat A) (h : option nat) (vs : list nat) : Prop :=
  match vs with
  | [] => h = None
  | v :: vs' => h = Some v /\ exists y, m !! v = Some y /\ chain nx m (nx y) vs'
  end.

Lemma chain_in {A} (nx : A -> option nat) m vs : forall h v, chain nx m h vs -> v ∈ vs -> is_Some (m !! v).
Proof.
  induction vs as [|u vs IH]; intros h v Hc Hv; [set_solver|]. destruct Hc as (_ & y & Hy & Hc). apply elem_of_cons in Hv as [->|Hv]; [by eexists|by eapply IH].
Qed.

Lemma chain_size {A} (nx : A -> option nat) (m : gmap nat A) h vs : chain nx m h vs -> NoDup vs -> (length vs <= size m)%nat.
Proof.
  intros Hc Hnd. rewrite <- (size_dom (D := gset nat)). rewrite <- (size_list_to_set (C := gset nat)) by done. apply subseteq_size. intros v Hv%elem_of_list_to_set.
  apply elem_of_dom. by eapply chain_in.
Qed.

(** An element outside the list changes. *)
Lemma chain_insert {A} (nx : A -> option nat) m v y vs : forall h, v ∉ vs -> chain nx m h vs -> chain nx (<[v := y]> m) h vs.
Proof.
  induction vs as [|u vs IH]; intros h Hv Hc; [done|]. destruct Hc as (-> & z & Hz & Hc). split; [done|]. exists z. rewrite lookup_insert_ne by set_solver. split; [done|]. apply IH; [set_solver|done].
Qed.

(** An element changes but not its link. *)
Lemma chain_update {A} (nx : A -> option nat) m v y y' vs : forall h, m !! v = Some y -> nx y' = nx y -> chain nx m h vs -> chain nx (<[v := y']> m) h vs.
Proof.
  induction vs as [|u vs IH]; intros h Hv Hn Hc; [done|]. destruct Hc as (-> & z & Hz & Hc). split; [done|]. destruct (decide (v = u)) as [->|Hne].
  - exists y'. rewrite lookup_insert_eq. split; [done|]. apply IH; [done|done|]. rewrite Hn. by simplify_eq.
  - exists z. rewrite lookup_insert_ne by done. split; [done|]. by apply IH.
Qed.

(** The tables of a driver have entries for the devices it supports. *)
Definition tables_ok (y : device_driver) : Prop :=
  num_supported_devices y <= Z.of_nat (length (vendor_ids y)) /\ num_supported_devices y <= Z.of_nat (length (device_ids y)).

(** The lists of drivers [vs] and classes [cs], and the drivers of the devices [R]. *)
Record linked s (R vs cs : list nat) : Prop := {
  l_drivers : chain d_next (drv s) (drivers s) vs;
  l_nodup : NoDup vs;
  l_tables v y : v ∈ vs -> drv s !! v = Some y -> tables_ok y;
  l_classes : chain c_next (cls s) (classes s) cs;
  l_nodup_c : NoDup cs;
  l_driver d x v : d ∈ R -> dev s !! d = Some x -> driver x = Some v -> v ∈ vs;
  l_ops d x v : d ∈ R -> dev s !! d = Some x -> ops x = Some (DriverOps v) -> driver x = Some v;
}.

Lemma linked_ext s s' R vs cs : dev s' = dev s -> drv s' = drv s -> cls s' = cls s -> drivers s' = drivers s -> classes s' = classes s -> linked s R vs cs -> linked s' R vs cs.
Proof. intros H1 H2 H3 H4 H5 [L1 L2 L3 L4 L5 L6 L7]. split; rewrite ?H1, ?H2, ?H3, ?H4, ?H5; done. Qed.

(** The driver and the operations of a device are those of a driver of the list. *)
Definition served (vs : list nat) (x : device) : Prop :=
  (forall v, driver x = Some v -> v ∈ vs) /\ (forall v, ops x = Some (DriverOps v) -> driver x = Some v).

Lemma linked_dev s d x R vs cs : served vs x -> linked s R vs cs -> linked (set_dev (<[d := x]> (dev s)) s) R vs cs.
Proof.
  intros [S1 S2] [L1 L2 L3 L4 L5 L6 L7]. split; cbn; [done|done|done|done|done| |]; intros e y v He Hy; (destruct (decide (d = e)) as [->|Hne];
    [rewrite lookup_insert_eq in Hy; injection Hy as <-; auto|rewrite lookup_insert_ne in Hy by done; eauto]).
Qed.

Lemma linked_dev_outside s d x R vs cs : d ∉ R -> linked s R vs cs -> linked (set_dev (<[d := x]> (dev s)) s) R vs cs.
Proof.
  intros Hd [L1 L2 L3 L4 L5 L6 L7]. split; cbn; [done|done|done|done|done| |]; intros e y v He Hy; rewrite lookup_insert_ne in Hy by set_solver; eauto.
Qed.

Lemma linked_mem s R R' vs cs : (forall d x, d ∈ R' -> dev s !! d = Some x -> d ∈ R \/ served vs x) -> linked s R vs cs -> linked s R' vs cs.
Proof.
  intros H [L1 L2 L3 L4 L5 L6 L7]. split; try done; intros d x v Hd Hx; destruct (H d x Hd Hx) as [Hin|[S1 S2]]; eauto.
Qed.

Lemma linked_served s R vs cs d x : linked s R vs cs -> d ∈ R -> dev s !! d = Some x -> served vs x.
Proof. intros L Hd Hx. split; intros v Hv; [by eapply l_driver|by eapply l_ops]. Qed.

(** ** The table *)

Definition reg s : list nat := omap (fun e => e) (devices s).

Lemma dev_free_slot_spec l : forall i k, free_slot l i = Some k -> (i <= k)%nat /\ l !! (k - i)%nat = Some None.
Proof.
  induction l as [|[d|] l IH]; intros i k H; cbn in H; [done| |].
  - apply IH in H as [Hi Hl]. split; [lia|]. replace (k - i)%nat with (S (k - S i)) by lia. done.
  - injection H as <-. by rewrite Nat.sub_diag.
Qed.

Lemma dev_slot_of_spec l d : forall i k, slot_of l i d = Some k -> (i <= k)%nat /\ l !! (k - i)%nat = Some (Some d).
Proof.
  induction l as [|e l IH]; intros i k H; cbn in H; [done|]. destruct (bool_decide_reflect (e = Some d)) as [->|Hne].
  - injection H as <-. by rewrite Nat.sub_diag.
  - apply IH in H as [Hi Hl]. split; [lia|]. replace (k - i)%nat with (S (k - S i)) by lia. done.
Qed.

Lemma slot_of_none l d : forall i, slot_of l i d = None -> d ∉ omap (fun e => e) l.
Proof.
  induction l as [|e l IH]; intros i H; cbn in *; [set_solver|]. destruct (bool_decide_reflect (e = Some d)) as [->|Hne]; [done|]. specialize (IH _ H). destruct e as [e|]; [|done].
  apply not_elem_of_cons. split; [congruence|done].
Qed.

Lemma table_insert (l : list (option nat)) i d : l !! i = Some None -> omap (fun e => e) (<[i := Some d]> l) ≡ₚ d :: omap (fun e => e) l.
Proof.
  revert i. induction l as [|e l IH]; intros [|i] H; cbn in *; [done|done|by injection H as ->|]. destruct e as [e|]; [|by apply IH]. cbn. rewrite IH by done. apply Permutation_swap.
Qed.

Lemma table_delete (l : list (option nat)) i d : l !! i = Some (Some d) -> omap (fun e => e) l ≡ₚ d :: omap (fun e => e) (<[i := None]> l).
Proof.
  revert i. induction l as [|e l IH]; intros [|i] H; cbn in *; [done|done|by injection H as ->|]. destruct e as [e|]; [|by apply IH]. cbn. rewrite (IH i) by done. apply Permutation_swap.
Qed.

Lemma table_elem (l : list (option nat)) d : d ∈ omap (fun e => e) l <-> Some d ∈ l.
Proof. rewrite list_elem_of_omap. split; [intros (e & He & ->); done|]. intros H. by exists (Some d). Qed.

(** ** Calls of drivers *)

Lemma wp_quiet {A} (m : M manager A) Q s : quiet m -> (forall r w, Q r (set_world w s)) -> wp m Q s.
Proof. intros Hm HQ. eapply wp_mono; [apply Hm|]. cbn beta. intros r s' (w & ->). apply HQ. Qed.

Lemma wp_drv_at v y Q s : drv s !! v = Some y -> Q y s -> wp (drv_at v) Q s.
Proof. intros Hy HQ. unfold drv_at. wp_steps. rewrite Hy. cbn [deref]. by wp_steps. Qed.

Lemma wp_change_drv v f y Q s : drv s !! v = Some y -> Q tt (set_drv (<[v := f y]> (drv s)) s) -> wp (change_drv v f) Q s.
Proof. intros Hy HQ. unfold change_drv. wp_steps. eapply wp_drv_at; [done|]. by wp_steps. Qed.

Lemma wp_cls_at c y Q s : cls s !! c = Some y -> Q y s -> wp (cls_at c) Q s.
Proof. intros Hy HQ. unfold cls_at. wp_steps. rewrite Hy. cbn [deref]. by wp_steps. Qed.

Lemma wp_change_cls c f y Q s : cls s !! c = Some y -> Q tt (set_cls (<[c := f y]> (cls s)) s) -> wp (change_cls c f) Q s.
Proof. intros Hy HQ. unfold change_cls. wp_steps. eapply wp_cls_at; [done|]. by wp_steps. Qed.

Lemma has_op_spec o k Q s : (forall v, o = DriverOps v -> is_Some (drv s !! v)) -> (forall b, Q b s) -> wp (has_op E o k) Q s.
Proof. intros Ho HQ. unfold has_op. destruct o as [v|n]; [|by wp_steps]. destruct (Ho v eq_refl) as [y Hy]. wp_steps. eapply wp_drv_at; [done|]. by wp_steps. Qed.

Lemma pair_spec y x j Q s : tables_ok y -> Z.of_nat j < num_supported_devices y -> (forall b : bool, Q b s) -> wp (pair_fits y x j) Q s.
Proof.
  intros [H1 H2] Hj HQ. unfold pair_fits. destruct (lookup_lt_is_Some_2 (vendor_ids y) j) as [a Ha]; [lia|]. destruct (lookup_lt_is_Some_2 (device_ids y) j) as [b Hb]; [lia|].
  rewrite Ha, Hb. cbn [deref]. wp_steps. case_if; by wp_steps.
Qed.

Lemma driver_accepts_spec v y d x n : forall j Q s, drv s !! v = Some y -> tables_ok y -> dev s !! d = Some x -> Z.of_nat (j + n) <= num_supported_devices y ->
  (forall b w, Q b (set_world w s)) -> wp (driver_accepts E n j v d) Q s.
Proof.
  induction n as [|n IH]; intros j Q s Hy Ht Hx Hj HQ; cbn [driver_accepts]; wp_steps.
  { specialize (HQ false (world s)). by destruct s. }
  eapply wp_drv_at; [done|]. wp_steps. eapply wp_dev_at; [done|]. wp_steps. apply pair_spec; [done|lia|]. intros b. cbv beta.
  assert (forall w, wp (driver_accepts E n (S j) v d) Q (set_world w s)) as Hnext by (intros w; apply IH; [done|done|done|lia|intros b' w'; apply (HQ b' w')]).
  destruct (b && has_probe y); [|specialize (Hnext (world s)); by destruct s]. wp_steps. apply wp_quiet; [apply h_probe|]. intros r w. case_if; [wp_steps; apply HQ|apply Hnext].
Qed.

Lemma first_driver_spec d x vs : forall h fuel Q s, chain d_next (drv s) h vs -> (forall v y, v ∈ vs -> drv s !! v = Some y -> tables_ok y) -> dev s !! d = Some x ->
  (length vs <= fuel)%nat -> (forall r w, (forall v, r = Some v -> v ∈ vs) -> Q r (set_world w s)) -> wp (first_driver E fuel h d) Q s.
Proof.
  induction vs as [|v vs IH]; intros h fuel Q s Hc Ht Hx Hf HQ.
  { cbn in Hc. subst h. destruct fuel; cbn [first_driver]; wp_steps; specialize (HQ None (world s)); destruct s; by apply HQ. }
  destruct Hc as (-> & y & Hy & Hc). destruct fuel as [|fuel]; [cbn in Hf; lia|]. cbn [first_driver]. wp_steps. eapply wp_drv_at; [done|]. wp_steps.
  pose proof (Ht v y ltac:(set_solver) Hy) as Hty.
  assert (forall n, n = Z.to_nat (num_supported_devices y) -> (Z.of_nat (0 + n) <= num_supported_devices y \/ n = 0%nat)) as Hn by (intros n ->; lia).
  assert (forall b w, wp (if b : bool then ret (Some v) else y <- drv_at v ;; first_driver E fuel (d_next y) d) Q (set_world w s)) as Hafter.
  { intros b w. destruct b; wp_steps; [apply HQ; intros v' [= <-]; set_solver|]. eapply wp_drv_at; [done|].
    apply IH; [done|intros v' y' Hv'; apply Ht; set_solver|done|cbn in Hf; lia|]. intros r w' Hr. apply (HQ r w'). intros v' Hv'. set_solver. }
  destruct (Hn _ eq_refl) as [Hle|H0].
  - eapply driver_accepts_spec; [done..|]. exact Hafter.
  - rewrite H0. cbn [driver_accepts]. apply wp_ret. specialize (Hafter false (world s)). by destruct s.
Qed.

(** A device without a driver gets one of the list, if one accepts it. *)
Lemma attach_driver_spec d x R vs cs Q s : linked s R vs cs -> dev s !! d = Some x -> driver x = None -> (forall v, ops x <> Some (DriverOps v)) ->
  (forall dr o w, served vs (set_ops o (set_driver dr x)) -> Q tt (set_world w (set_dev (<[d := set_ops o (set_driver dr x)]> (dev s)) s))) -> wp (attach_driver E d) Q s.
Proof.
  intros L Hx Hdr Hops HQ. unfold attach_driver. wp_steps. eapply wp_dev_at; [done|]. rewrite Hdr. unfold device_find_driver. wp_steps. eapply wp_dev_at; [done|]. rewrite Hdr. wp_steps.
  eapply first_driver_spec; [apply L|apply L|done|eapply chain_size; apply L|]. intros r w Hr. destruct r as [v|]; wp_steps.
  - eapply wp_change_dev; [done|]. wp_steps. eapply wp_dev_at; [cbn; by rewrite lookup_insert_eq|]. specialize (Hr v eq_refl).
    assert (forall o w', (o = ops x \/ o = Some (DriverOps v)) -> wp (init <- has_op E (DriverOps v) OpInit ;; if (init : bool) then _ <- operation E OpInit (DriverOps v) d [] ;; ret tt else ret tt) Q
      (set_world w' (set_dev (<[d := set_ops o (set_driver (Some v) x)]> (dev s)) s))) as Hend.
    { intros o w' Ho. assert (served vs (set_ops o (set_driver (Some v) x))) as Hs.
      { split; cbn; [by intros v' [= <-]|]. intros v' Hv'. destruct Ho as [->| ->]; [by destruct (Hops v')|congruence]. }
      wp_steps. apply has_op_spec; [intros v' [= <-]; cbn; eapply chain_in; [apply L|done]|]. intros b. destruct b; wp_steps; [|by apply HQ]. apply wp_quiet; [apply h_operation|].
      intros r w2. wp_steps. by apply (HQ (Some v) o w2). }
    cbn [dev set_dev set_world]. destruct (bool_decide_reflect (ops (set_driver (Some v) x) = None)) as [Hn|Hn].
    + wp_steps. eapply wp_change_dev; [cbn; by rewrite lookup_insert_eq|]. cbn [dev set_dev set_world]. rewrite insert_insert_eq. specialize (Hend (Some (DriverOps v)) w (or_intror eq_refl)). wp_steps.
      apply wp_bind in Hend. exact Hend.
    + wp_steps. specialize (Hend (ops x) w (or_introl eq_refl)). apply wp_bind in Hend. replace (set_ops (ops x) (set_driver (Some v) x)) with (set_driver (Some v) x) in Hend by by destruct x. exact Hend.
  - specialize (HQ (driver x) (ops x) w). replace (set_ops (ops x) (set_driver (driver x) x)) with x in HQ by by destruct x. rewrite insert_id in HQ by done.
    destruct s; apply HQ. split; [rewrite Hdr; done|]. intros v Hv. by destruct (Hops v).
Qed.

(** ** The invariant *)

Record inv_at s (K : nat -> list nat) (vs cs : list nat) : Prop := {
  v_length : length (devices s) = MAX_DEVICES;
  v_nodup : NoDup (reg s);
  v_count : num_devices s = Z.of_nat (length (reg s));
  v_tree : tree s (reg s) K None;
  v_linked : linked s (reg s) vs cs;
}.
Definition inv s : Prop := exists K vs cs, inv_at s K vs cs.

(** A structure that can be registered: no children, no driver, and a registered parent
    or none. *)
Definition candidate s (d : nat) : Prop := d ∉ reg s /\ exists x, dev s !! d = Some x /\ children x = None /\ driver x = None /\
  (forall v, ops x <> Some (DriverOps v)) /\ (forall p, parent x = Some p -> p ∈ reg s).

Lemma inv_outside s d x K vs cs : d ∉ reg s -> inv_at s K vs cs -> inv_at (set_dev (<[d := x]> (dev s)) s) K vs cs.
Proof. intros Hd [V1 V2 V3 V4 V5]. split; [done|done|done|by apply tree_outside|by apply linked_dev_outside]. Qed.

(** The table is whole and its devices exist. *)
Definition live s : Prop := length (devices s) = MAX_DEVICES /\ forall d, d ∈ reg s -> is_Some (dev s !! d).

Lemma inv_live s K vs cs : inv_at s K vs cs -> live s.
Proof. intros V. split; [apply V|]. intros d Hd. destruct (t_kids _ _ _ _ (v_tree _ _ _ _ V) d Hd) as (x & Hx & _). by exists x. Qed.

Lemma slot_lookup s i : live s -> (i < MAX_DEVICES)%nat -> exists e, devices s !! i = Some e /\ forall d, e = Some d -> d ∈ reg s /\ exists x, dev s !! d = Some x.
Proof.
  intros [Hl Hd] Hi. destruct (lookup_lt_is_Some_2 (devices s) i) as [e He]; [by rewrite Hl|]. exists e. split; [done|].
  intros d ->. assert (d ∈ reg s) as HR by (apply table_elem, (list_elem_of_lookup_2 _ _ _ He)). split; [done|]. destruct (Hd d HR) as [x Hx]. by exists x.
Qed.

Lemma live_slot s : live s -> forall i d, devices s !! i = Some (Some d) -> is_Some (dev s !! d).
Proof. intros [_ Hlive] i d He. by apply Hlive, table_elem, (list_elem_of_lookup_2 _ _ _ He). Qed.

Lemma live_outside s d x : d ∉ reg s -> live s -> live (set_dev (<[d := x]> (dev s)) s).
Proof. intros Hd [Hl Hlive]. split; [done|]. intros e He. cbn. rewrite lookup_insert_ne by (intros ->; by apply Hd). by apply Hlive. Qed.

(** Names: only the name of the new device changes. *)
Lemma rename_spec d x i Q s : live s -> d ∉ reg s -> dev s !! d = Some x -> (i < MAX_DEVICES)%nat ->
  (forall n, Q tt (set_dev (<[d := set_name n x]> (dev s)) s)) -> wp (rename_if_taken d i) Q s.
Proof.
  intros V Hd Hx Hi HQ. assert (Q tt s) as HQ0.
  { specialize (HQ (name x)). replace (set_name (name x) x) with x in HQ by by destruct x. rewrite insert_id in HQ by done. by destruct s. }
  unfold rename_if_taken. wp_steps. destruct (slot_lookup s i V Hi) as (e & He & Hlive). rewrite He. cbn [deref]. wp_steps. destruct e as [e|]; [|by wp_steps].
  destruct (Hlive e eq_refl) as (_ & y & Hy). wp_steps. eapply wp_dev_at; [done|]. wp_steps. eapply wp_dev_at; [done|]. case_if; [|by wp_steps]. eapply wp_change_dev; [done|]. apply HQ.
Qed.

Lemma renames_spec d x is_ Q s : live s -> d ∉ reg s -> dev s !! d = Some x -> (forall i, i ∈ is_ -> (i < MAX_DEVICES)%nat) ->
  (forall n, Q tt (set_dev (<[d := set_name n x]> (dev s)) s)) -> wp (mfor is_ (rename_if_taken d)) Q s.
Proof.
  intros V Hd Hx Hi HQ. eapply wp_mono; [apply (wp_mfor (fun s' => exists n, s' = set_dev (<[d := set_name n x]> (dev s)) s))|].
  - intros i s' Hin (n & ->). eapply rename_spec; [by apply live_outside|done|cbn; by rewrite lookup_insert_eq|by apply Hi|]. intros n'. exists n'. cbn. by rewrite insert_insert_eq.
  - exists (name x). replace (set_name (name x) x) with x by by destruct x. rewrite insert_id by done. by destruct s.
  - cbn beta. intros [] s' (n & ->). apply HQ.
Qed.

(** The new device joins the tree under its parent, or under the root. *)
Lemma attach_parent_spec d x R K vs cs Q s : tree s R K None -> linked s R vs cs -> d ∉ R -> dev s !! d = Some x -> children x = None -> served vs x ->
  (forall p, parent x = Some p -> p ∈ R) ->
  (forall s' p x' K', tree s' (d :: R) K' None -> linked s' (d :: R) vs cs -> dev s' !! d = Some x' -> parent x' = Some p -> p ∈ R -> (parent x = Some p \/ parent x = None /\ root_device s = Some p) ->
    path <$> dev s' !! p = path <$> dev s !! p -> devices s' = devices s -> num_devices s' = num_devices s -> root_device s' = root_device s -> Q tt s') -> wp (attach_parent E d) Q s.
Proof.
  intros T L Hd Hx Hc Hs Hp HQ. destruct (t_root _ _ _ _ T) as (r & Hr & HrR). assert (Some d <> root_device s) as Hdr by (intros He; rewrite <- He in Hr; set_solver).
  assert (forall p, p ∈ R -> (parent x = Some p \/ parent x = None /\ root_device s = Some p) -> (forall s', only_kids p (set_dev (<[d := set_parent (Some p) x]> (dev s)) s) s' ->
    kids s' p (K p ++ [d]) -> Q tt s') /\ kids (set_dev (<[d := set_parent (Some p) x]> (dev s)) s) p (K p) /\ d ∉ K p) as Hadd.
  { intros p HpR Hwhich. set (s1 := set_dev _ s). assert (forall q, q ∈ R -> d ∉ K q) as Hnot by (intros q Hq Hin; destruct (t_child _ _ _ _ T q d Hq Hin) as [|[? _]]; done).
    assert (tree s1 R K (Some d)) as T1 by (apply tree_outside; [done|by apply tree_allow]). split; [|split; [by apply T1|by apply Hnot]]. intros s' Ho Hk.
    assert (p <> d) as Hne by set_solver. pose proof (only_kids_other p s1 s' d Ho ltac:(done)) as Hd'. cbn in Hd'. rewrite lookup_insert_eq in Hd'.
    assert (tree s' R (<[p := K p ++ [d]]> K) (Some d)) as T2.
    { apply (tree_kids s1); [done|done|done| | | |done].
      - apply NoDup_app. split; [by apply T|]. split; [|apply NoDup_singleton]. intros c Hcp ->%list_elem_of_singleton. by apply (Hnot p).
      - intros c [Hcp| ->%list_elem_of_singleton]%elem_of_app; [by left|by right].
      - intros c Hcp. left. set_solver. }
    pose proof Ho as (z & ch & n & h & Hz & -> & _ & _). cbn in Hz. rewrite lookup_insert_ne in Hz by done.
    apply (HQ _ p (set_parent (Some p) x) (<[d := []]> (<[p := K p ++ [d]]> K))); [| |done|done|done|done| |done|done|done]; [| |cbn; by rewrite lookup_insert_eq, Hz].
    - eapply tree_add; [exact T2|done|done|done|done|done|rewrite fn_lookup_insert; set_solver|]. intros q Hq. destruct (decide (q = p)) as [->|Hqp]; [done|].
      rewrite fn_lookup_insert_ne by done. intros Hin. by destruct (Hnot q Hq).
    - apply (linked_mem _ R); [|apply (linked_ext (set_dev (<[p := set_num_children n (set_children ch z)]> (dev s1)) s1)); [done..|]].
      + intros q y [->|Hq]%elem_of_cons Hy; [right|by left]. rewrite Hd' in Hy. by injection Hy as <-.
      + apply linked_dev; [destruct (linked_served s R vs cs p z L HpR Hz); by split|]. by apply linked_dev_outside. }
  unfold attach_parent. wp_steps. eapply wp_dev_at; [done|]. wp_steps. destruct (parent x) as [p|] eqn:Hpx.
  - destruct (Hadd p (Hp p eq_refl)) as (H1 & H2 & H3); [by left|]. replace (set_parent (Some p) x) with x in H1, H2 by (rewrite <- Hpx; by destruct x). rewrite insert_id in H1, H2 by done.
    replace (set_dev (dev s) s) with s in H1, H2 by by destruct s. wp_steps. eapply device_add_child_spec; [done|done|]. intros s' Ho Hk. wp_steps. by apply H1.
  - rewrite bool_decide_eq_false_2 by done. destruct (Hadd r HrR) as (H1 & H2 & H3); [by right|]. rewrite Hr. wp_steps. eapply wp_change_dev; [done|]. wp_steps.
    eapply device_add_child_spec; [done|done|]. intros s' Ho Hk. wp_steps. by apply H1.
Qed.

Lemma dev_inv_ext s s' K vs cs : devices s' = devices s -> num_devices s' = num_devices s -> dev s' = dev s -> arr s' = arr s -> root_device s' = root_device s ->
  drv s' = drv s -> cls s' = cls s -> drivers s' = drivers s -> classes s' = classes s -> inv_at s K vs cs -> inv_at s' K vs cs.
Proof.
  intros H1 H2 H3 H4 H5 H6 H7 H8 H9 [V1 V2 V3 V4 V5]. assert (reg s' = reg s) as Hreg by (unfold reg; by rewrite H1).
  split; rewrite ?Hreg, ?H1, ?H2; [done|done|done|by eapply tree_ext|by eapply linked_ext].
Qed.

Lemma inv_world s w K vs cs : inv_at s K vs cs -> inv_at (set_world w s) K vs cs.
Proof. by apply dev_inv_ext. Qed.

(** A registered device changes in its path, driver or class. *)
Lemma inv_inside s d x x' K vs cs : dev s !! d = Some x -> same_place x x' -> served vs x' ->
  inv_at s K vs cs -> inv_at (set_dev (<[d := x']> (dev s)) s) K vs cs.
Proof. intros Hx Hp Hs [V1 V2 V3 V4 V5]. split; [done|done|done|by eapply tree_inside|by apply linked_dev]. Qed.

(** The tree and the lists of the devices [R] once they are those of the table. *)
Lemma inv_table s R K vs cs : length (devices s) = MAX_DEVICES -> NoDup R -> num_devices s = Z.of_nat (length R) -> reg s ≡ₚ R -> tree s R K None -> linked s R vs cs -> inv_at s K vs cs.
Proof.
  intros H1 H2 H3 H4 H5 H6. assert (forall d, d ∈ reg s <-> d ∈ R) as Hmem by (intros d; by rewrite H4). split; [done|by rewrite H4|by rewrite H4|by eapply tree_mem|].
  eapply linked_mem; [|done]. intros d x Hd%Hmem _. by left.
Qed.

Lemma make_path_spec d x p y Q s : dev s !! d = Some x -> parent x = Some p -> dev s !! p = Some y -> root_device s <> Some d ->
  Q tt (set_dev (<[d := set_path (join_path (path y) (name x)) x]> (dev s)) s) -> wp (make_path d) Q s.
Proof.
  intros Hx Hp Hy Hr HQ. unfold make_path. wp_steps. eapply wp_dev_at; [done|]. wp_steps. rewrite Hp, bool_decide_eq_false_2 by congruence. wp_steps.
  eapply wp_dev_at; [done|]. by eapply wp_change_dev.
Qed.

(** The device [d] has been added under [p]: its path is below the path that [p] had. *)
Definition registered_under s (d p : nat) s' : Prop := inv s' /\ reg s' ≡ₚ d :: reg s /\
  exists x y, dev s' !! d = Some x /\ parent x = Some p /\ p ∈ reg s /\ dev s !! p = Some y /\ path x = join_path (path y) (name x).

(** What [device_register] does once the name is settled. *)
Definition place (d : nat) : M (manager (D := D)) Z :=
  s <- get ;;
  match free_slot (devices s) 0 with
  | None => ret DEVICE_ERROR_RESOURCE
  | Some i =>
      put (set_num_devices (num_devices s + 1) (set_devices (<[i := Some d]> (devices s)) s)) ;;;
      attach_driver E d ;;;
      attach_parent E d ;;;
      make_path d ;;;
      ret DEVICE_OK
  end.

Lemma place_spec d x K vs cs Q s : inv_at s K vs cs -> d ∉ reg s -> dev s !! d = Some x -> children x = None -> driver x = None ->
  (forall v, ops x <> Some (DriverOps v)) -> (forall p, parent x = Some p -> p ∈ reg s) -> Q DEVICE_ERROR_RESOURCE s ->
  (forall p s', (parent x = Some p \/ parent x = None /\ root_device s = Some p) -> registered_under s d p s' -> Q DEVICE_OK s') -> wp (place d) Q s.
Proof.
  intros V Hd Hx Hc Hdr Hops Hp HE1 HQ. unfold place. wp_steps. destruct (free_slot (devices s) 0) as [i|] eqn:Hslot; [|by wp_steps].
  apply dev_free_slot_spec in Hslot as [_ Hslot]. rewrite Nat.sub_0_r in Hslot. wp_steps. set (s2 := set_num_devices _ _).
  destruct (t_root _ _ _ _ (v_tree _ _ _ _ V)) as (r & Hr & HrR). assert (r <> d) as Hrd by set_solver.
  assert (tree s2 (reg s) K None) as T2 by (apply (tree_ext s); [done..|apply V]). assert (linked s2 (reg s) vs cs) as L2 by (apply (linked_ext s); [done..|apply V]).
  eapply (attach_driver_spec d x); [exact L2|done|done|done|]. intros dr o w Hs. wp_steps.
  eapply (attach_parent_spec d (set_ops o (set_driver dr x)) (reg s) K vs cs).
  - apply (tree_ext (set_dev (<[d := set_ops o (set_driver dr x)]> (dev s2)) s2)); [done..|]. by apply tree_outside.
  - apply (linked_ext (set_dev (<[d := set_ops o (set_driver dr x)]> (dev s2)) s2)); [done..|]. by apply linked_dev_outside.
  - done.
  - cbn. by rewrite lookup_insert_eq.
  - done.
  - done.
  - exact Hp.
  - intros s' p x' K' T' L' Hx' Hpx' HpR Hwhich Epath E1 E2 E3. cbn in Epath, E1, E2, E3. assert (p <> d) as Hpd by set_solver. destruct (t_kids _ _ _ _ T' p) as (y & Hy & _); [set_solver|].
    rewrite lookup_insert_ne, Hy in Epath by done. destruct (dev s !! p) as [z|] eqn:Hz; [|done]. injection Epath as Epath.
    assert (reg s' ≡ₚ d :: reg s) as Hreg by (unfold reg; rewrite E1; by apply table_insert).
    assert (inv_at s' K' vs cs) as V'.
    { apply (inv_table s' (d :: reg s)); [rewrite E1, length_insert; apply V| | |done|done|done].
      - apply NoDup_cons. split; [done|apply V].
      - rewrite E2. cbn [length]. rewrite (v_count _ _ _ _ V). lia. }
    wp_steps. eapply make_path_spec; [done|done|done|congruence|]. wp_steps. eapply (HQ p); [done|]. split; [|split; [done|]].
    + exists K', vs, cs. eapply inv_inside; [done|done| |done]. destruct (linked_served s' (d :: reg s) vs cs d x' L') as [S1 S2]; [set_solver|done|]. by split.
    + eexists _, z. cbn. rewrite lookup_insert_eq. split; [done|]. split; [done|]. split; [done|]. split; [done|]. cbn. by rewrite Epath.
Qed.

Lemma device_register_spec d x Q s : inv s -> candidate s d -> dev s !! d = Some x -> (forall s', inv s' -> reg s' = reg s -> Q DEVICE_ERROR_RESOURCE s') ->
  (forall p s', (parent x = Some p \/ parent x = None /\ root_device s = Some p) -> registered_under s d p s' -> Q DEVICE_OK s') ->
  wp (device_register E (Some d)) Q s.
Proof.
  intros (K & vs & cs & V) (Hd & x0 & Hx & Hc & Hdr & Hops & Hp) Hx0 HE1 HQ. assert (x0 = x) as -> by congruence. unfold device_register. wp_steps.
  destruct (Z.leb_spec (Z.of_nat MAX_DEVICES) (num_devices s)) as [|Hnum]; [wp_steps; apply HE1; [by exists K, vs, cs|done]|]. wp_steps. eapply wp_dev_at; [done|].
  assert (forall k i0, wp (mfor (seq 0 (Z.to_nat (num_devices s))) (rename_if_taken d) ;;; place d) Q (set_dev (<[d := set_id k x]> (dev s)) (set_next_id i0 s))) as Hrest.
  { intros k i0. set (s1 := set_dev (<[d := set_id k x]> (dev s)) (set_next_id i0 s)). assert (inv_at s1 K vs cs) as V1.
    { apply (dev_inv_ext (set_dev (<[d := set_id k x]> (dev s)) s)); [done..|]. by apply inv_outside. }
    wp_steps. eapply (renames_spec d (set_id k x)); [by eapply inv_live|done|cbn; by rewrite lookup_insert_eq| |].
    - intros i Hi%elem_of_seq. unfold MAX_DEVICES in *. lia.
    - intros n. assert (inv_at (set_dev (<[d := set_name n (set_id k x)]> (dev s1)) s1) K vs cs) as V2 by by apply inv_outside.
      eapply place_spec; [exact V2|done|cbn; by rewrite lookup_insert_eq|done|done|done|done|apply HE1; [by exists K, vs, cs|done]|].
      intros p s' Hwhich (Hi' & Hr' & x' & y & Q1 & Q2 & Q3 & Q4 & Q5). apply (HQ p); [done|]. split; [done|]. split; [done|]. exists x', y.
      cbn in Q4. rewrite !lookup_insert_ne in Q4 by (intros ->; by apply Hd). done. }
  fold (place d). destruct ((id x =? 0) && negb (bool_decide (Some d = root_device s))).
  - unfold generate_device_id. wp_steps. eapply wp_change_dev; [done|]. exact (Hrest (next_id s) (u32 (next_id s + 1))).
  - wp_steps. specialize (Hrest (id x) (next_id s)). apply wp_bind in Hrest. replace (set_id (id x) x) with x in Hrest by by destruct x. rewrite insert_id in Hrest by done.
    destruct s; exact Hrest.
Qed.

Lemma linked_same s s' R R' vs cs : drv s' = drv s -> cls s' = cls s -> drivers s' = drivers s -> classes s' = classes s ->
  (forall d x', d ∈ R' -> dev s' !! d = Some x' -> d ∈ R /\ exists x, dev s !! d = Some x /\ driver x' = driver x /\ ops x' = ops x) -> linked s R vs cs -> linked s' R' vs cs.
Proof.
  intros H1 H2 H3 H4 H5 [L1 L2 L3 L4 L5 L6 L7]. split; rewrite ?H1, ?H2, ?H3, ?H4; try done; intros d x' v Hd Hx'; destruct (H5 d x' Hd Hx') as (HR & x & Hx & E1 & E2); rewrite ?E1, ?E2; eauto.
Qed.

(** Nobody is its own child, and parents are above. *)
Lemma tree_parent_ne s R K X d x p : tree s R K X -> d ∈ R -> dev s !! d = Some x -> parent x = Some p -> p <> d.
Proof. intros T Hd Hx Hp ->. destruct (t_rank _ _ _ _ T) as (f & Hf & _). specialize (Hf d x d Hd Hx Hp). lia. Qed.

(** The first step of [device_unregister]: children and their array. *)
Definition disown (d : nat) (x : device) : M (manager (D := D)) unit :=
  match children x with
  | None => ret tt
  | Some a =>
      l <- array_at a ;;
      mfor (seq 0 (Z.to_nat (num_children x))) (orphan d l) ;;;
      free_array a
  end.

Lemma disown_spec d x R K s : tree s R K None -> d ∈ R -> dev s !! d = Some x ->
  wp (disown d x) (fun _ s' => exists m h, s' = set_arr h (set_dev m s) /\ orphaned s (K d) m /\
    (forall a, children x = Some a -> h !! a = None) /\ forall b l, arr s !! b = Some l -> children x <> Some b -> h !! b = Some l) s.
Proof.
  intros T Hd Hx. destruct (t_kids _ _ _ _ T d Hd) as (x0 & Hx0 & Hk). assert (x0 = x) as -> by congruence. unfold disown. destruct (children x) as [a|] eqn:Hc.
  - destruct Hk as (Hn & _ & rest & Ha & _). wp_steps. eapply wp_array_at; [done|]. wp_steps. rewrite Hn, Nat2Z.id.
    assert (wp (mfor (seq (@length nat []) (length (K d))) (orphan d ((Some <$> K d) ++ rest))) (fun _ s' => exists m', s' = set_dev m' s /\ orphaned s ([] ++ K d) m') (set_dev (dev s) s)) as Ho.
    { apply (orphans_spec s d _ (K d) [] rest); [done|by apply T| |].
      - intros c. by rewrite decide_False by set_solver.
      - intros c Hc'. by destruct (t_child _ _ _ _ T d c Hd Hc') as [|[_ Hy]]. }
    replace (set_dev (dev s) s) with s in Ho by by destruct s. eapply wp_mono; [exact Ho|].
    cbn beta. intros [] s' (m & -> & Hm). eapply wp_free_array; [done|]. exists m, (delete a (arr s)). split; [done|]. split; [done|]. split; [intros b [= <-]; apply lookup_delete_eq|]. intros b l Hb Hne. by rewrite lookup_delete_ne by congruence.
  - wp_steps. exists (dev s), (arr s). split; [by destruct s|]. split; [|by split]. intros c. rewrite Hk. by rewrite decide_False by set_solver.
Qed.

(** The second step: the place among the children of the parent. *)
Lemma leave_parent_spec d p R K s : tree s R K (Some d) -> d ∉ R -> p ∈ R -> (forall q, q ∈ R -> d ∈ K q -> q = p) ->
  wp (device_remove_child (Some p) (Some d)) (fun _ s' => (s' = s \/ only_kids p s s') /\ exists K', tree s' R K' None) s.
Proof.
  intros T Hd Hp Huniq. eapply device_remove_child_spec; [by apply T| |].
  - intros Hnot r. split; [by left|]. exists K. apply (tree_settle _ _ _ d); [|done]. intros q Hq Hin. by rewrite (Huniq q Hq Hin) in Hin.
  - intros k1 k2 r s' Hk Ho Hkids. split; [by right|]. assert (NoDup (k1 ++ d :: k2)) as Hnd by (rewrite <- Hk; by apply T).
    assert (NoDup (d :: k1 ++ k2)) as [Hdk Hnd']%NoDup_cons by (by rewrite Permutation_middle). exists (<[p := k1 ++ k2]> K).
    apply (tree_settle _ _ _ d).
    + intros q Hq. destruct (decide (q = p)) as [->|Hne]; [by rewrite fn_lookup_insert|]. rewrite fn_lookup_insert_ne by done. intros Hin. by apply Hne, Huniq.
    + apply (tree_kids s); [done|done|done|done| | |done]; intros c Hc; rewrite Hk in *; [left|]; [set_solver|]. destruct (decide (c = d)) as [->|Hne]; [by right|left; set_solver].
Qed.

Lemma device_unregister_spec d Q s : inv s -> root_device s <> Some d -> is_Some (dev s !! d) -> (d ∉ reg s -> Q DEVICE_ERROR_NO_DEVICE s) ->
  (forall s', inv s' -> reg s ≡ₚ d :: reg s' -> Q DEVICE_OK s') -> wp (device_unregister E (Some d)) Q s.
Proof.
  intros (K & vs & cs & V) Hroot [x Hx] HN HQ. unfold device_unregister. wp_steps. destruct (slot_of (devices s) 0 d) as [i|] eqn:Hslot.
  2:{ wp_steps. eapply wp_dev_at; [done|]. wp_steps. apply HN. by eapply slot_of_none. }
  apply dev_slot_of_spec in Hslot as [_ Hslot]. rewrite Nat.sub_0_r in Hslot. pose proof (table_delete _ _ _ Hslot) as Hperm. fold (reg s) in Hperm. set (R' := omap _ (<[i := None]> (devices s))) in *.
  pose proof (v_nodup _ _ _ _ V) as Hnd. rewrite Hperm in Hnd. apply NoDup_cons in Hnd as [HdR' HndR']. assert (forall e, e ∈ R' <-> e ∈ reg s /\ e <> d) as HR' by (intros e; rewrite Hperm; set_solver).
  assert (d ∈ reg s) as Hd by (rewrite Hperm; set_solver). pose proof (v_tree _ _ _ _ V) as T. pose proof (v_linked _ _ _ _ V) as L. wp_steps. eapply wp_dev_at; [done|]. fold (disown d x). wp_steps.
  eapply wp_mono; [by apply (disown_spec d x (reg s) K)|]. cbn beta. intros [] s1 (m & h & Hs1 & Hm & _ & Hh).
  assert (tree s1 R' K (Some d)) as T1 by (subst s1; by eapply tree_drop).
  assert (linked s1 R' vs cs) as L1.
  { subst s1. apply (linked_same s _ (reg s)); [done|done|done|done| |exact L]. intros e y' [He Hne]%HR' Hy'. cbn in Hy'. rewrite Hm in Hy'. split; [done|].
    destruct (decide (e ∈ K d)); [|by exists y']. destruct (dev s !! e) as [y|]; [|done]. cbn in Hy'. injection Hy' as <-. by exists y. }
  pose proof (t_parent _ _ _ _ T d x Hd Hx) as Hpar. destruct (parent x) as [p|] eqn:Hp; [|done]. destruct Hpar as (HpR & _ & _). pose proof (tree_parent_ne _ _ _ _ _ _ _ T Hd Hx Hp) as Hpd.
  assert (forall q, q ∈ reg s -> d ∈ K q -> q = p) as Huniq by (intros q Hq Hin; destruct (t_child _ _ _ _ T q d Hq Hin) as [|(_ & y & Hy & Hpy)]; [done|congruence]).
  assert (dev s1 !! d = Some x) as Hx1 by (subst s1; cbn; rewrite Hm, decide_False; [done|]; intros Hin; apply Hpd; symmetry; by apply Huniq).
  wp_steps. eapply wp_dev_at; [done|]. rewrite Hp. wp_steps. eapply wp_mono; [apply (leave_parent_spec d p R' K); [done|done|by apply HR'|intros q [Hq _]%HR'; by apply Huniq]|].
  cbn beta. intros r s2 (H2 & K' & T2). wp_steps.
  assert (devices s2 = devices s /\ num_devices s2 = num_devices s /\ dev s2 !! d = Some x /\ linked s2 R' vs cs) as (E1 & E2 & Hx2 & L2).
  { destruct H2 as [->|Ho]; [by subst s1|]. pose proof (only_kids_other p s1 s2 d Ho ltac:(done)) as Hd2. rewrite Hx1 in Hd2. destruct Ho as (z & ch & n & h' & Hz & -> & _).
    subst s1. split; [done|]. split; [done|]. split; [done|]. apply (linked_same (set_arr h (set_dev m s)) _ R'); [done|done|done|done| |exact L1]. intros e y' He Hy'. split; [done|]. cbn in *.
    destruct (decide (p = e)) as [->|Hne]; [rewrite lookup_insert_eq in Hy'; injection Hy' as <-; by exists z|rewrite lookup_insert_ne in Hy' by done; by exists y']. }
  assert (forall w, Q DEVICE_OK (set_num_devices (num_devices s2 - 1) (set_devices (<[i := None]> (devices s2)) (set_world w s2)))) as Hend.
  { intros w. assert (reg (set_num_devices (num_devices s2 - 1) (set_devices (<[i := None]> (devices s2)) (set_world w s2))) = R') as Hreg by (unfold reg, R'; cbn; by rewrite E1).
    apply HQ; [|by rewrite Hreg]. exists K', vs, cs. apply (inv_table _ R'); [cbn; rewrite length_insert, E1; apply V|done| |by rewrite Hreg|by apply (tree_ext s2)|by apply (linked_ext s2)].
    cbn. rewrite E2, (v_count _ _ _ _ V), Hperm. cbn [length]. lia. }
  eapply wp_dev_at; [done|]. destruct (ops x) as [o|] eqn:Ho; wp_steps; [|specialize (Hend (world s2)); by destruct s2].
  apply has_op_spec.
  - intros v ->. eapply chain_in; [apply L2|]. apply (l_driver _ _ _ _ L d x v Hd Hx). by apply (l_ops _ _ _ _ L d x v Hd Hx).
  - intros b. destruct b; wp_steps; [|specialize (Hend (world s2)); by destruct s2]. apply wp_quiet; [apply h_operation|]. intros r' w. wp_steps. apply Hend.
Qed.

(** ** Drivers come and go *)

Lemma driver_named_spec n vs : forall h fuel Q s, chain d_next (drv s) h vs -> (length vs <= fuel)%nat ->
  (forall b : bool, (b = false -> forall v y, v ∈ vs -> drv s !! v = Some y -> d_name y <> n) -> Q b s) -> wp (driver_named fuel h n) Q s.
Proof.
  induction vs as [|v vs IH]; intros h fuel Q s Hc Hf HQ.
  { cbn in Hc. subst h. destruct fuel; cbn [driver_named]; wp_steps; apply HQ; set_solver. }
  destruct Hc as (-> & y & Hy & Hc). destruct fuel as [|fuel]; [cbn in Hf; lia|]. cbn [driver_named]. wp_steps. eapply wp_drv_at; [done|].
  destruct (bool_decide_reflect (d_name y = n)) as [He|He]; [wp_steps; by apply HQ|]. apply IH; [done|cbn in Hf; lia|]. intros b Hb. apply HQ. intros -> u z [->|Hu]%elem_of_cons Hz; [congruence|by eapply Hb].
Qed.

(** A driver at the head of the list. *)
Lemma linked_push s v y R vs cs : v ∉ vs -> tables_ok y -> d_next y = drivers s -> linked s R vs cs -> linked (set_drivers (Some v) (set_drv (<[v := y]> (drv s)) s)) R (v :: vs) cs.
Proof.
  intros Hv Ht Hn [L1 L2 L3 L4 L5 L6 L7]. split; cbn; [|by apply NoDup_cons| |done|done| |done].
  - split; [done|]. exists y. rewrite lookup_insert_eq. split; [done|]. rewrite Hn. by apply chain_insert.
  - intros u z Hu Hz. destruct (decide (v = u)) as [->|Hne]; [rewrite lookup_insert_eq in Hz; by injection Hz as <-|]. rewrite lookup_insert_ne in Hz by done. apply (L3 u); [set_solver|done].
  - intros d x u Hd Hx Hu. right. by eapply L6.
Qed.

(** A driver of the list claims devices that have none. *)
Definition claiming v y K vs cs s : Prop := inv_at s K vs cs /\ drv s !! v = Some y /\ v ∈ vs.

Lemma offer_spec v y K vs cs d n : tables_ok y -> forall j s, claiming v y K vs cs s -> d ∈ reg s -> Z.of_nat (j + n) <= num_supported_devices y ->
  wp (offer E n j v d) (fun _ => claiming v y K vs cs) s.
Proof.
  intros Ht. induction n as [|n IH]; intros j s (V & Hy & Hv) Hd Hj; cbn [offer]; wp_steps; [done|]. destruct (t_kids _ _ _ _ (v_tree _ _ _ _ V) d Hd) as (x & Hx & _).
  eapply wp_drv_at; [done|]. wp_steps. eapply wp_dev_at; [done|]. wp_steps. apply pair_spec; [done|lia|]. intros b. cbv beta.
  assert (forall w, wp (offer E n (S j) v d) (fun _ => claiming v y K vs cs) (set_world w s)) as Hskip by (intros w; apply IH; [by split; [apply inv_world|]|done|lia]).
  destruct b; wp_steps; [|specialize (Hskip (world s)); by destruct s]. apply wp_quiet; [apply h_probe|]. intros r w. case_if; wp_steps; [|apply Hskip].
  eapply wp_change_dev; [done|]. wp_steps. set (s1 := set_dev _ _).
  assert (forall w', claiming v y K vs cs (set_world w' s1)) as Hc1.
  { intros w'. split; [|done]. apply inv_world. eapply inv_inside; [done|done|by split; [intros u [= <-]|intros u [= <-]]|by apply inv_world]. }
  apply has_op_spec; [intros u [= <-]; by exists y|]. intros b. destruct b; wp_steps.
  - apply wp_quiet; [apply h_operation|]. intros r' w'. wp_steps. apply IH; [apply Hc1|done|lia].
  - apply IH; [specialize (Hc1 w); exact Hc1|done|lia].
Qed.

Lemma offer_slot_spec v y K vs cs i s : tables_ok y -> (i < MAX_DEVICES)%nat -> claiming v y K vs cs s -> wp (offer_slot E v i) (fun _ => claiming v y K vs cs) s.
Proof.
  intros Ht Hi Hc. pose proof Hc as (V & Hy & Hv). unfold offer_slot. wp_steps. destruct (slot_lookup s i (inv_live _ _ _ _ V) Hi) as (e & He & Hlive). rewrite He. cbn [deref]. wp_steps.
  destruct e as [d|]; [|by wp_steps]. destruct (Hlive d eq_refl) as (Hd & x & Hx). wp_steps. eapply wp_dev_at; [done|]. destruct (driver x); wp_steps; [done|]. eapply wp_drv_at; [done|].
  destruct (decide (num_supported_devices y <= 0)) as [Hn|Hn]; [replace (Z.to_nat (num_supported_devices y)) with 0%nat by lia; cbn [offer]; by wp_steps|].
  by apply offer_spec; [|done|done|lia].
Qed.

Lemma device_driver_register_spec v y s : inv s -> drv s !! v = Some y -> tables_ok y -> wp (device_driver_register E (Some v)) (fun _ s' => inv s') s.
Proof.
  intros (K & vs & cs & V) Hy Ht. pose proof (v_linked _ _ _ _ V) as L. unfold device_driver_register. wp_steps. eapply wp_drv_at; [done|]. wp_steps.
  eapply driver_named_spec; [apply L|eapply chain_size; apply L|]. intros b Hb. destruct b; wp_steps; [by exists K, vs, cs|].
  assert (v ∉ vs) as Hv by (intros Hin; by apply (Hb eq_refl v y)).
  assert (forall k i0, wp (change_drv v (set_d_next (drivers s)) ;;; modify (set_drivers (Some v)) ;;;
     (if has_init y then _ <- driver_init E v ;; ret tt else ret tt) ;;; (if has_probe y then mfor (seq 0 MAX_DEVICES) (offer_slot E v) else ret tt) ;;; ret DEVICE_OK) (fun _ s' => inv s')
     (set_drv (<[v := set_d_id k y]> (drv s)) (set_next_driver_id i0 s))) as Hrest.
  { intros k i0. wp_steps. eapply wp_change_drv; [cbn; by rewrite lookup_insert_eq|]. wp_steps. cbn [drv set_drv set_next_driver_id]. rewrite insert_insert_eq.
    set (y2 := set_d_next (drivers s) (set_d_id k y)). set (s1 := set_drivers _ _).
    assert (forall w, claiming v y2 K (v :: vs) cs (set_world w s1)) as Hc1.
    { intros w. split; [|split; [cbn; by rewrite lookup_insert_eq|set_solver]]. apply inv_world. destruct V as [V1 V2 V3 V4 V5]. split; [done|done|done|by apply (tree_ext s)|].
      apply (linked_ext (set_drivers (Some v) (set_drv (<[v := y2]> (drv s)) s))); [done..|]. by apply linked_push. }
    assert (forall w, wp (if has_probe y then mfor (seq 0 MAX_DEVICES) (offer_slot E v) else ret tt) (fun _ s' => inv s') (set_world w s1)) as Hoffers.
    { intros w. destruct (has_probe y); [|wp_steps; exists K, (v :: vs), cs; apply Hc1]. eapply wp_mono; [apply (wp_mfor (claiming v y2 K (v :: vs) cs))|].
      - intros i s' Hi%elem_of_seq Hc. apply offer_slot_spec; [done|lia|done].
      - apply Hc1.
      - cbn beta. intros _ s' (V' & _). by exists K, (v :: vs), cs. }
    destruct (has_init y); wp_steps.
    - apply wp_quiet; [apply h_driver_init|]. intros r w. wp_steps. eapply wp_mono; [apply Hoffers|]. cbn beta. intros _ s' H'. by wp_steps.
    - eapply wp_mono; [apply (Hoffers (world s1))|]. cbn beta. intros _ s' H'. by wp_steps. }
  destruct (d_id y =? 0).
  - wp_steps. eapply wp_change_drv; [done|]. exact (Hrest (next_driver_id s) (u32 (next_driver_id s + 1))).
  - wp_steps. specialize (Hrest (d_id y) (next_driver_id s)). apply wp_bind in Hrest. replace (set_d_id (d_id y) y) with y in Hrest by by destruct y. rewrite insert_id in Hrest by done.
    destruct s; exact Hrest.
Qed.

(** Taking an element out of a list. *)
Lemma chain_skip {A} (nx : A -> option nat) (f : A -> A) m u v yu yv post : forall pre h, m !! u = Some yu -> m !! v = Some yv -> nx (f yu) = nx yv ->
  NoDup (pre ++ u :: v :: post) -> chain nx m h (pre ++ u :: v :: post) -> chain nx (<[u := f yu]> m) h (pre ++ u :: post).
Proof.
  induction pre as [|a pre IH]; intros h Hu Hv Hf Hnd Hc; cbn [app] in *.
  - destruct Hc as (-> & y & Hy & _ & z & Hz & Hc). assert (z = yv) as -> by congruence. split; [done|]. exists (f yu). rewrite lookup_insert_eq. split; [done|]. rewrite Hf.
    apply NoDup_cons in Hnd as [Hnin _]. apply chain_insert; [set_solver|done].
  - apply NoDup_cons in Hnd as [Hnin Hnd]. destruct Hc as (-> & y & Hy & Hc). split; [done|]. exists y. rewrite lookup_insert_ne by (intros ->; set_solver). split; [done|]. by apply IH.
Qed.

Lemma chain_head {A} (nx : A -> option nat) m h v post yv : m !! v = Some yv -> chain nx m h (v :: post) -> chain nx m (nx yv) post.
Proof. intros Hv (_ & y & Hy & Hc). by simplify_eq. Qed.

(** The list without [v]; the structures of the drivers keep everything but their links. *)
Definition unlinked s v vs s' : Prop := exists h m r1 r2, s' = set_drivers h (set_drv m s) /\ vs = r1 ++ v :: r2 /\ chain d_next m h (r1 ++ r2) /\ (forall u, is_Some (drv s !! u) -> is_Some (m !! u)) /\
  forall u y', m !! u = Some y' -> exists y, drv s !! u = Some y /\ num_supported_devices y' = num_supported_devices y /\ vendor_ids y' = vendor_ids y /\ device_ids y' = device_ids y.

Lemma unlink_driver_spec v Q s : forall rest pre cur fuel, chain d_next (drv s) (drivers s) (pre ++ rest) -> NoDup (pre ++ rest) -> chain d_next (drv s) cur rest -> (length rest <= fuel)%nat ->
  (v ∉ rest -> Q false s) -> (forall s', unlinked s v (pre ++ rest) s' -> Q true s') -> wp (unlink_driver fuel (last pre) cur v) Q s.
Proof.
  induction rest as [|c rest IH]; intros pre cur fuel Hall Hnd Hc Hf HN HS.
  { cbn in Hc. subst cur. destruct fuel; cbn [unlink_driver]; wp_steps; apply HN; set_solver. }
  pose proof Hc as (-> & y & Hy & Hrest). destruct fuel as [|fuel]; [cbn in Hf; lia|]. cbn [unlink_driver]. wp_steps. eapply wp_drv_at; [done|].
  destruct (bool_decide_reflect (c = v)) as [->|Hne].
  - destruct pre as [|u pre _] using rev_ind; cbn [last].
    + wp_steps. apply HS. exists (d_next y), (drv s), [], rest. split; [by destruct s|]. split; [done|]. split; [done|]. split; [done|]. intros u y' Hu. by exists y'.
    + rewrite last_snoc. destruct (chain_in _ _ _ _ u Hall) as [yu Hu]; [set_solver|]. wp_steps. eapply wp_change_drv; [done|]. wp_steps. apply HS.
      rewrite <- app_assoc in *. cbn [app] in *. exists (drivers s), (<[u := set_d_next (d_next y) yu]> (drv s)), (pre ++ [u]), rest. split; [by destruct s|]. rewrite <- !app_assoc. split; [done|]. split; [|split].
      * apply (chain_skip d_next (set_d_next (d_next y)) _ _ v _ y); done.
      * intros w Hw. destruct (decide (u = w)) as [->|Hne]; [rewrite lookup_insert_eq; by eexists|by rewrite lookup_insert_ne].
      * intros w y' Hw. destruct (decide (u = w)) as [->|Hne]; [rewrite lookup_insert_eq in Hw; injection Hw as <-; by exists yu|rewrite lookup_insert_ne in Hw by done; by exists y'].
  - assert (last (pre ++ [c]) = Some c) as <- by apply last_snoc. replace (pre ++ c :: rest) with ((pre ++ [c]) ++ rest) in * by (by rewrite <- app_assoc). apply IH; [done|done|done|cbn in Hf; lia| |done].
    intros Hv. apply HN. set_solver.
Qed.

(** ** A change of every registered device *)

(** The devices of the first [k] entries have changed by [f]. *)
Definition mapped s (f : device -> device) (k : nat) (m : gmap nat device) : Prop := forall c,
  m !! c = if decide (Some c ∈ take k (devices s)) then f <$> dev s !! c else dev s !! c.

Lemma sweep_spec (f : device -> device) (body : nat -> M manager unit) s : (forall x, f (f x) = f x) ->
  (forall i s' Q, devices s' !! i = Some None -> Q tt s' -> wp (body i) Q s') ->
  (forall i d x s' Q, devices s' !! i = Some (Some d) -> dev s' !! d = Some x -> Q tt (set_dev (<[d := f x]> (dev s')) s') -> wp (body i) Q s') ->
  (forall i d, devices s !! i = Some (Some d) -> is_Some (dev s !! d)) ->
  forall n k m, (k + n = length (devices s))%nat -> mapped s f k m -> wp (mfor (seq k n) body) (fun _ s' => exists m', s' = set_dev m' s /\ mapped s f (length (devices s)) m') (set_dev m s).
Proof.
  intros Hff HN HS Hlive. induction n as [|n IH]; intros k m Hk Hm; cbn [seq mfor].
  { wp_steps. exists m. split; [done|]. by rewrite <- Hk, Nat.add_0_r. }
  wp_steps. destruct (lookup_lt_is_Some_2 (devices s) k) as [e He]; [lia|]. pose proof (take_S_r _ _ _ He) as Htake. destruct e as [d|].
  - destruct (Hlive k d He) as [x Hx]. assert (exists z, m !! d = Some z /\ f z = f x) as (z & Hz & Hfz).
    { specialize (Hm d). rewrite Hx in Hm. destruct (decide _); [exists (f x); by rewrite Hff|by exists x]. }
    apply (HS k d z); [done|done|]. cbn [dev set_dev]. apply IH; [lia|]. intros c. rewrite Htake. destruct (decide (d = c)) as [<-|Hne].
    + rewrite lookup_insert_eq, decide_True by set_solver. rewrite Hx. cbn. by rewrite Hfz.
    + rewrite lookup_insert_ne by done. rewrite Hm. destruct (decide (Some c ∈ take k (devices s))) as [Hin|Hin]; [rewrite decide_True by set_solver|rewrite decide_False by set_solver]; done.
  - apply HN; [done|]. apply IH; [lia|]. intros c. rewrite Htake, Hm. destruct (decide (Some c ∈ take k (devices s))) as [Hin|Hin]; [rewrite decide_True by set_solver|rewrite decide_False by set_solver]; done.
Qed.

Lemma mapped_none s f m : mapped s f 0 m <-> m = dev s.
Proof.
  split; [|intros -> c; rewrite take_0; by rewrite decide_False by set_solver]. intros Hm. apply map_eq. intros c. rewrite Hm, take_0. by rewrite decide_False by set_solver.
Qed.

Lemma mapped_all s f m c x' : mapped s f (length (devices s)) m -> m !! c = Some x' -> exists x, dev s !! c = Some x /\ x' = if decide (c ∈ reg s) then f x else x.
Proof.
  intros Hm Hc. rewrite Hm, take_ge in Hc by lia. destruct (decide (Some c ∈ devices s)) as [Hin|Hin].
  - destruct (dev s !! c) as [x|]; [|done]. injection Hc as <-. exists x. split; [done|]. rewrite decide_True; [done|]. by apply table_elem.
  - exists x'. split; [done|]. rewrite decide_False; [done|]. intros H%table_elem. done.
Qed.

Lemma mapped_tree s f m R K X : (forall x, same_place x (f x)) -> mapped s f (length (devices s)) m -> tree s R K X -> tree (set_dev m s) R K X.
Proof. intros Hf Hm. apply tree_same. intros q. rewrite Hm. destruct (decide _); destruct (dev s !! q); by constructor. Qed.

Definition drop_driver (v : nat) (x : device) : device := if bool_decide (driver x = Some v) then set_ops None (set_driver None x) else x.

Lemma detach_drivers_spec v s : live s -> wp (mfor (seq 0 MAX_DEVICES) (detach_driver v)) (fun _ s' => exists m, s' = set_dev m s /\ mapped s (drop_driver v) (length (devices s)) m) s.
Proof.
  intros V. assert (wp (mfor (seq 0 MAX_DEVICES) (detach_driver v)) (fun _ s' => exists m, s' = set_dev m s /\ mapped s (drop_driver v) (length (devices s)) m) (set_dev (dev s) s)) as Hw; [|by destruct s].
  apply sweep_spec; [| | |by apply live_slot|by rewrite (proj1 V)|by apply mapped_none].
  - intros x. unfold drop_driver. destruct (bool_decide_reflect (driver x = Some v)) as [He|He]; [done|]. by rewrite bool_decide_eq_false_2.
  - intros i s' Q He HQ. unfold detach_driver. wp_steps. rewrite He. cbn [deref]. by wp_steps.
  - intros i d x s' Q He Hx HQ. unfold detach_driver. wp_steps. rewrite He. cbn [deref]. wp_steps. eapply wp_dev_at; [done|]. unfold drop_driver in HQ. case_if.
    + eapply wp_change_dev; [done|]. done.
    + wp_steps. rewrite insert_id in HQ by done. by destruct s'.
Qed.

Lemma device_driver_unregister_spec v s : inv s -> is_Some (drv s !! v) -> wp (device_driver_unregister E (Some v)) (fun _ s' => inv s') s.
Proof.
  intros (K & vs & cs & V) [y Hy]. pose proof (v_linked _ _ _ _ V) as L. unfold device_driver_unregister. wp_steps.
  apply (unlink_driver_spec v _ s vs []); [apply L|apply L|apply L|eapply chain_size; apply L| |].
  - intros _. wp_steps. eapply wp_drv_at; [done|]. wp_steps. by exists K, vs, cs.
  - cbn [app]. intros s1 (h & m & r1 & r2 & Hs1 & Hvs & Hc & Hfw & Hm). destruct (Hfw v) as [y1 Hy1]; [by exists y|]. wp_steps. eapply wp_drv_at; [by subst s1|]. wp_steps.
    assert (forall w, wp (mfor (seq 0 MAX_DEVICES) (detach_driver v)) (fun _ s' => inv s') (set_world w s1)) as Hsweep.
    { intros w. assert (live (set_world w s1)) as Hlive by (subst s1; destruct (inv_live _ _ _ _ V); by split). eapply wp_mono; [by apply detach_drivers_spec|]. cbn beta.
      intros _ s' (m' & -> & Hm'). exists K, (r1 ++ r2), cs. destruct V as [V1 V2 V3 V4 V5]. subst s1. split; [done|done|done| |].
      - apply (mapped_tree _ (drop_driver v)); [|done|by apply (tree_ext s)]. intros x. unfold drop_driver. by case_if.
      - pose proof (l_nodup _ _ _ _ L) as Hnd. rewrite Hvs in Hnd. assert (NoDup (v :: r1 ++ r2)) as [Hnin Hnd']%NoDup_cons by (by rewrite Permutation_middle).
        assert (forall d x', d ∈ reg s -> m' !! d = Some x' -> exists x, dev s !! d = Some x /\ x' = drop_driver v x) as Hinv.
        { intros d x' Hd Hx'. destruct (mapped_all _ _ _ _ _ Hm' Hx') as (x & Hx & Ex). exists x. split; [done|]. by rewrite decide_True in Ex. }
        split; cbn; [done|done| |apply L|apply L| |].
        + intros u z' Hu Hz'. destruct (Hm u z' Hz') as (z & Hz & E1 & E2 & E3). unfold tables_ok. rewrite E1, E2, E3. apply (l_tables _ _ _ _ L u); [rewrite Hvs; set_solver|done].
        + intros d x' u Hd Hx' Hu. destruct (Hinv d x' Hd Hx') as (x & Hx & ->). unfold drop_driver in Hu. destruct (bool_decide_reflect (driver x = Some v)) as [|Hne]; [done|].
          pose proof (l_driver _ _ _ _ L d x u Hd Hx Hu) as Hin. rewrite Hvs in Hin. set_solver.
        + intros d x' u Hd Hx' Hu. destruct (Hinv d x' Hd Hx') as (x & Hx & ->). unfold drop_driver in *. case_if; [done|]. by apply (l_ops _ _ _ _ L d x u). }
    destruct (has_exit y1); wp_steps.
    + apply wp_quiet; [apply h_driver_exit|]. intros r w. wp_steps. eapply wp_mono; [apply Hsweep|]. cbn beta. intros _ s' H'. by wp_steps.
    + specialize (Hsweep (world s1)). replace (set_world (world s1) s1) with s1 in Hsweep by by destruct s1. eapply wp_mono; [exact Hsweep|]. cbn beta. intros _ s' H'. by wp_steps.
Qed.

(** ** Classes come and go *)

Lemma find_class_spec (test : device_class -> bool) cs : forall h fuel Q s, chain c_next (cls s) h cs -> (length cs <= fuel)%nat ->
  (forall r, (r = None -> forall c y, c ∈ cs -> cls s !! c = Some y -> test y = false) -> Q r s) -> wp (find_class fuel test h) Q s.
Proof.
  induction cs as [|c cs IH]; intros h fuel Q s Hc Hf HQ.
  { cbn in Hc. subst h. destruct fuel; cbn [find_class]; wp_steps; apply HQ; set_solver. }
  destruct Hc as (-> & y & Hy & Hc). destruct fuel as [|fuel]; [cbn in Hf; lia|]. cbn [find_class]. wp_steps. eapply wp_cls_at; [done|]. destruct (test y) eqn:Ht; [wp_steps; by apply HQ|].
  apply IH; [done|cbn in Hf; lia|]. intros r Hr. apply HQ. intros -> u z [->|Hu]%elem_of_cons Hz; [congruence|by eapply Hr].
Qed.

Lemma device_class_register_spec c y s : inv s -> cls s !! c = Some y -> wp (device_class_register E (Some c)) (fun _ s' => inv s') s.
Proof.
  intros (K & vs & cs & V) Hy. pose proof (v_linked _ _ _ _ V) as L. unfold device_class_register. wp_steps. eapply wp_cls_at; [done|]. wp_steps.
  eapply find_class_spec; [apply L|eapply chain_size; apply L|]. intros r Hr. destruct r; wp_steps; [by exists K, vs, cs|].
  assert (c ∉ cs) as Hc by (intros Hin; specialize (Hr eq_refl c y Hin Hy); by rewrite bool_decide_eq_true_2 in Hr).
  assert (forall k i0, wp (change_cls c (set_c_next (classes s)) ;;; modify (set_classes (Some c)) ;;; (if c_has_init y then _ <- class_init E c ;; ret tt else ret tt) ;;; ret DEVICE_OK) (fun _ s' => inv s')
     (set_cls (<[c := set_c_id k y]> (cls s)) (set_next_class_id i0 s))) as Hrest.
  { intros k i0. wp_steps. eapply wp_change_cls; [cbn; by rewrite lookup_insert_eq|]. wp_steps. cbn [cls set_cls set_next_class_id]. rewrite insert_insert_eq. set (s1 := set_classes _ _).
    assert (forall w, inv (set_world w s1)) as Hinv.
    { intros w. exists K, vs, (c :: cs). apply inv_world. destruct V as [V1 V2 V3 V4 [L1 L2 L3 L4 L5 L6 L7]]. split; [done|done|done|by apply (tree_ext s)|]. split; cbn; [done|done|done| |by apply NoDup_cons|done|done].
      split; [done|]. eexists. rewrite lookup_insert_eq. split; [done|]. by apply chain_insert. }
    destruct (c_has_init y); wp_steps; [|specialize (Hinv (world s1)); by destruct s1]. apply wp_quiet; [apply h_class_init|]. intros r w. by wp_steps. }
  destruct (c_id y =? 0).
  - wp_steps. eapply wp_change_cls; [done|]. exact (Hrest (next_class_id s) (u32 (next_class_id s + 1))).
  - wp_steps. specialize (Hrest (c_id y) (next_class_id s)). apply wp_bind in Hrest. replace (set_c_id (c_id y) y) with y in Hrest by by destruct y. rewrite insert_id in Hrest by done.
    destruct s; exact Hrest.
Qed.

Lemma unlink_class_spec c Q s : forall rest pre cur fuel, chain c_next (cls s) (classes s) (pre ++ rest) -> NoDup (pre ++ rest) -> chain c_next (cls s) cur rest -> (length rest <= fuel)%nat ->
  Q false s -> (forall h m r1 r2, pre ++ rest = r1 ++ c :: r2 -> chain c_next m h (r1 ++ r2) -> is_Some (m !! c) -> Q true (set_classes h (set_cls m s))) -> wp (unlink_class fuel (last pre) cur c) Q s.
Proof.
  induction rest as [|k rest IH]; intros pre cur fuel Hall Hnd Hc Hf HN HS.
  { cbn in Hc. subst cur. destruct fuel; cbn [unlink_class]; by wp_steps. }
  pose proof Hc as (-> & y & Hy & Hrest). destruct fuel as [|fuel]; [cbn in Hf; lia|]. cbn [unlink_class]. wp_steps. eapply wp_cls_at; [done|].
  destruct (bool_decide_reflect (k = c)) as [->|Hne].
  - destruct pre as [|u pre _] using rev_ind; cbn [last].
    + wp_steps. specialize (HS (c_next y) (cls s) [] rest eq_refl Hrest (mk_is_Some _ _ Hy)). by destruct s.
    + rewrite last_snoc. destruct (chain_in _ _ _ _ u Hall) as [yu Hu]; [set_solver|]. wp_steps. eapply wp_change_cls; [done|]. wp_steps. rewrite <- app_assoc in *. cbn [app] in *.
      specialize (HS (classes s) (<[u := set_c_next (c_next y) yu]> (cls s)) (pre ++ [u]) rest). rewrite <- !app_assoc in HS. destruct s; apply HS; [done|apply (chain_skip c_next (set_c_next (c_next y)) _ _ c _ y); done|].
      cbn. destruct (decide (u = c)) as [->|Hne]; [rewrite lookup_insert_eq; by eexists|rewrite lookup_insert_ne by done; by eexists].
  - assert (last (pre ++ [k]) = Some k) as <- by apply last_snoc. replace (pre ++ k :: rest) with ((pre ++ [k]) ++ rest) in * by (by rewrite <- app_assoc). apply IH; [done|done|done|cbn in Hf; lia|done|done].
Qed.

Definition drop_class (c : nat) (x : device) : device := if bool_decide (class_of x = Some c) then set_class_of None x else x.

Lemma detach_classes_spec c s : live s -> wp (mfor (seq 0 MAX_DEVICES) (detach_class c)) (fun _ s' => exists m, s' = set_dev m s /\ mapped s (drop_class c) (length (devices s)) m) s.
Proof.
  intros V. assert (wp (mfor (seq 0 MAX_DEVICES) (detach_class c)) (fun _ s' => exists m, s' = set_dev m s /\ mapped s (drop_class c) (length (devices s)) m) (set_dev (dev s) s)) as Hw; [|by destruct s].
  apply sweep_spec; [| | |by apply live_slot|by rewrite (proj1 V)|by apply mapped_none].
  - intros x. unfold drop_class. destruct (bool_decide_reflect (class_of x = Some c)) as [He|He]; [done|]. by rewrite bool_decide_eq_false_2.
  - intros i s' Q He HQ. unfold detach_class. wp_steps. rewrite He. cbn [deref]. by wp_steps.
  - intros i d x s' Q He Hx HQ. unfold detach_class. wp_steps. rewrite He. cbn [deref]. wp_steps. eapply wp_dev_at; [done|]. unfold drop_class in HQ. case_if.
    + eapply wp_change_dev; [done|]. done.
    + wp_steps. rewrite insert_id in HQ by done. by destruct s'.
Qed.

Lemma device_class_unregister_spec c s : inv s -> is_Some (cls s !! c) -> wp (device_class_unregister E (Some c)) (fun _ s' => inv s') s.
Proof.
  intros (K & vs & cs & V) [y Hy]. pose proof (v_linked _ _ _ _ V) as L. unfold device_class_unregister. wp_steps.
  apply (unlink_class_spec c _ s cs []); [apply L|apply L|apply L|eapply chain_size; apply L| |].
  - wp_steps. eapply wp_cls_at; [done|]. wp_steps. by exists K, vs, cs.
  - cbn [app]. intros h m r1 r2 Hcs Hc [y1 Hy1]. set (s1 := set_classes h (set_cls m s)). wp_steps. eapply wp_cls_at; [done|]. wp_steps.
    assert (forall w, wp (mfor (seq 0 MAX_DEVICES) (detach_class c)) (fun _ s' => inv s') (set_world w s1)) as Hsweep.
    { intros w. assert (live (set_world w s1)) as Hlive by (destruct (inv_live _ _ _ _ V); by split). eapply wp_mono; [by apply detach_classes_spec|]. cbn beta.
      intros _ s' (m' & -> & Hm'). exists K, vs, (r1 ++ r2). destruct V as [V1 V2 V3 V4 V5]. split; [done|done|done| |].
      - apply (mapped_tree _ (drop_class c)); [|done|by apply (tree_ext s)]. intros x. unfold drop_class. by case_if.
      - pose proof (l_nodup_c _ _ _ _ L) as Hnd. rewrite Hcs in Hnd. assert (NoDup (c :: r1 ++ r2)) as [_ Hnd']%NoDup_cons by (by rewrite Permutation_middle).
        assert (forall d x', d ∈ reg s -> m' !! d = Some x' -> exists x, dev s !! d = Some x /\ driver x' = driver x /\ ops x' = ops x) as Hinv.
        { intros d x' Hd Hx'. destruct (mapped_all _ _ _ _ _ Hm' Hx') as (x & Hx & ->). exists x. split; [done|]. case_decide; [|done]. unfold drop_class. by case_if. }
        split; cbn; [apply L|apply L|apply L|done|done| |]; intros d x' u Hd Hx'; destruct (Hinv d x' Hd Hx') as (x & Hx & E1 & E2); rewrite ?E1, ?E2; [by apply (l_driver _ _ _ _ L d x)|by apply (l_ops _ _ _ _ L d x)]. }
    destruct (c_has_exit y1); wp_steps.
    + apply wp_quiet; [apply h_class_exit|]. intros r w. wp_steps. eapply wp_mono; [apply Hsweep|]. cbn beta. intros _ s' H'. by wp_steps.
    + specialize (Hsweep (world s1)). replace (set_world (world s1) s1) with s1 in Hsweep by by destruct s. eapply wp_mono; [exact Hsweep|]. cbn beta. intros _ s' H'. by wp_steps.
Qed.

(** ** Searches and operations *)

(** The result of a search is a device that passes the test, or none does. *)
Definition answers s (test : device -> bool) (l : list (option nat)) (r : option nat) : Prop :=
  match r with
  | Some d => Some d ∈ l /\ exists x, dev s !! d = Some x /\ test x = true
  | None => forall d x, Some d ∈ l -> dev s !! d = Some x -> test x = false
  end.

Lemma answers_cons s test e l r : (forall d x, e = Some d -> dev s !! d = Some x -> test x = false) -> answers s test l r -> answers s test (e :: l) r.
Proof. intros He Hr. destruct r as [d|]; cbn in *; [set_solver|]. intros d x [Hd|Hd]%elem_of_cons Hx; [by eapply He|by eapply Hr]. Qed.

Lemma dev_search_spec test l s : (forall d, Some d ∈ l -> is_Some (dev s !! d)) -> wp (search test l) (fun r s' => s' = s /\ answers s test l r) s.
Proof.
  induction l as [|e l IH]; intros Hl; cbn [search]; [wp_steps; split; [done|]; cbn; set_solver|].
  assert ((forall d x, e = Some d -> dev s !! d = Some x -> test x = false) -> wp (search test l) (fun r s' => s' = s /\ answers s test (e :: l) r) s) as Hnext.
  { intros He. eapply wp_mono; [apply IH; intros d Hd; apply Hl; set_solver|]. cbn beta. intros r s' [-> Hr]. split; [done|]. by apply answers_cons. }
  destruct e as [d|]; [|by apply Hnext]. destruct (Hl d) as [x Hx]; [set_solver|]. wp_steps. eapply wp_dev_at; [done|]. destruct (test x) eqn:Ht.
  - wp_steps. split; [done|]. split; [set_solver|by exists x].
  - apply Hnext. intros d' x' [= <-] Hx'. congruence.
Qed.

Lemma collect_spec t max l : forall count result s, (forall d, Some d ∈ l -> is_Some (dev s !! d)) -> 0 <= count -> max <= Z.of_nat (length result) ->
  wp (collect t max l count result) (fun _ s' => s' = s) s.
Proof.
  induction l as [|e l IH]; intros count result s Hl Hc Hm; cbn [collect]; [by wp_steps|]. assert (forall d, Some d ∈ l -> is_Some (dev s !! d)) as Hl' by (intros d Hd; apply Hl; set_solver).
  destruct (Z.leb_spec max count); [by wp_steps|]. destruct e as [d|]; [|by apply IH]. destruct (Hl d) as [x Hx]; [set_solver|]. wp_steps. eapply wp_dev_at; [done|]. case_if; [|by apply IH].
  rewrite arr_set_some by lia. cbn [deref]. wp_steps. apply IH; [done|lia|by rewrite length_insert].
Qed.

Lemma perform_spec k d args s : inv s -> d ∈ reg s -> wp (perform E k d args) (fun _ s' => inv s') s.
Proof.
  intros (K & vs & cs & V) Hd. pose proof (v_linked _ _ _ _ V) as L. destruct (proj2 (inv_live _ _ _ _ V) d Hd) as [x Hx]. unfold perform. wp_steps. eapply wp_dev_at; [done|].
  destruct (ops x) as [o|] eqn:Ho; wp_steps; [|by exists K, vs, cs]. apply has_op_spec.
  - intros v ->. eapply chain_in; [apply L|]. apply (l_driver _ _ _ _ L d x v Hd Hx). by apply (l_ops _ _ _ _ L d x v Hd Hx).
  - intros b. destruct b; wp_steps; [|by exists K, vs, cs]. apply wp_quiet; [apply h_operation|]. intros r w. exists K, vs, cs. by apply inv_world.
Qed.

(** ** Histories *)

(** The root device after [device_manager_init]. *)
Lemma device_manager_init_spec s : drivers s = None -> classes s = None -> wp (device_manager_init E) (fun r s' => r = DEVICE_OK /\ inv s') s.
Proof.
  intros Hd Hc. unfold device_manager_init, device_init_root. wp_steps. set (s0 := set_num_devices 0 _). destruct (h_alloc s0) as (r & -> & _). wp_steps.
  unfold device_register. wp_steps. cbn [num_devices devices dev root_device set_dev set_root_device set_num_devices s0]. set (x := mk_device _ _ _ _ _ _ _ _ _ _ _ _ _ _).
  change (Z.of_nat MAX_DEVICES <=? 0) with false. cbv iota. wp_steps. eapply wp_dev_at; [cbn; by rewrite lookup_insert_eq|]. wp_steps. rewrite bool_decide_eq_true_2 by done.
  change ((id x =? 0) && negb true) with false. cbv iota. wp_steps. change (seq 0 (Z.to_nat 0)) with (@nil nat). cbn [mfor]. wp_steps. set (s1 := set_dev _ _). change (devices s1) with (replicate MAX_DEVICES (@None nat)).
  change (free_slot (replicate MAX_DEVICES None) 0) with (Some 0%nat). cbv iota. wp_steps. lazymatch goal with |- wp _ _ ?t => set (s2 := t) end. assert (dev s2 !! r = Some x) as Hx by (cbn; by rewrite lookup_insert_eq).
  unfold attach_driver, attach_parent, make_path, device_find_driver. wp_steps. eapply wp_dev_at; [done|]. cbn [driver x]. wp_steps. eapply wp_dev_at; [done|]. cbn [driver x]. wp_steps.
  change (drivers s2) with (drivers s). rewrite Hd. destruct (size (drv s2)); cbn [first_driver]; wp_steps; (eapply wp_dev_at; [done|]; cbn [parent x]; wp_steps;
    rewrite bool_decide_eq_true_2 by done; wp_steps; eapply wp_dev_at; [done|]; cbn [parent x]; wp_steps; split; [done|]; exists (fun _ => []), [], [];
    apply (inv_table s2 [r]); [done|apply NoDup_singleton|done|done|by apply (tree_single s2 r x)|]; split; cbn; [done|constructor|set_solver|done|constructor| |];
    intros d y v ->%list_elem_of_singleton; rewrite lookup_insert_eq; by intros [= <-]).
Qed.

(** The calls of the manager. *)
Inductive call : Type :=
| Register (d : option nat) | Unregister (d : option nat)
| DriverRegister (v : option nat) | DriverUnregister (v : option nat)
| ClassRegister (c : option nat) | ClassUnregister (c : option nat)
| FindByName (n : option (list Z)) | FindById (n : Z) | FindByType (t : Z) (result : option (list (option nat))) (max : Z)
| FindDriver (d : option nat) | ClassByName (n : option (list Z)) | ClassById (n : Z)
| Open (d : option nat) (fl : Z) | Close (d : option nat) | Read (d : option nat) (buffer n offset : Z)
| Write (d : option nat) (buffer n offset : Z) | Ioctl (d : option nat) (request arg : Z)
| CreateNode (d : option nat) | RemoveNode.

Definition run_call (c : call) : M (manager (D := D)) unit :=
  match c with
  | Register d => _ <- device_register E d ;; ret tt
  | Unregister d => _ <- device_unregister E d ;; ret tt
  | DriverRegister v => _ <- device_driver_register E v ;; ret tt
  | DriverUnregister v => _ <- device_driver_unregister E v ;; ret tt
  | ClassRegister c => _ <- device_class_register E c ;; ret tt
  | ClassUnregister c => _ <- device_class_unregister E c ;; ret tt
  | FindByName n => _ <- device_find_by_name n ;; ret tt
  | FindById n => _ <- device_find_by_id n ;; ret tt
  | FindByType t result max => _ <- device_find_by_type t result max ;; ret tt
  | FindDriver d => _ <- device_find_driver E d ;; ret tt
  | ClassByName n => _ <- device_class_find_by_name n ;; ret tt
  | ClassById n => _ <- device_class_find_by_id n ;; ret tt
  | Open d fl => _ <- device_open E d fl ;; ret tt
  | Close d => _ <- device_close E d ;; ret tt
  | Read d b n o => _ <- device_read E d b n o ;; ret tt
  | Write d b n o => _ <- device_write E d b n o ;; ret tt
  | Ioctl d r a => _ <- device_ioctl E d r a ;; ret tt
  | CreateNode d => _ <- device_create_node d ;; ret tt
  | RemoveNode => _ <- device_remove_node ;; ret tt
  end.

(** What callers must see to: structures exist, a new device is fresh, the root stays, and
    the device of an operation is registered. NULL is always allowed, but for
    [device_create_node]. *)
Definition legal s (c : call) : Prop :=
  match c with
  | Register (Some d) => candidate s d
  | Unregister (Some d) => root_device s <> Some d /\ is_Some (dev s !! d)
  | DriverRegister (Some v) => exists y, drv s !! v = Some y /\ tables_ok y
  | DriverUnregister (Some v) => is_Some (drv s !! v)
  | ClassRegister (Some c) | ClassUnregister (Some c) => is_Some (cls s !! c)
  | FindByType _ (Some result) max => max <= Z.of_nat (length result)
  | FindDriver (Some d) | CreateNode (Some d) => is_Some (dev s !! d)
  | Open (Some d) _ | Close (Some d) | Read (Some d) _ _ _ | Write (Some d) _ _ _ | Ioctl (Some d) _ _ => d ∈ reg s
  | CreateNode None => False
  | _ => True
  end.

Lemma search_inv test s : inv s -> wp (_ <- search test (devices s) ;; ret tt) (fun _ s' => inv s') s.
Proof.
  intros Hi. pose proof Hi as (K & vs & cs & V). wp_steps. eapply wp_mono; [apply dev_search_spec; intros d Hd; apply (proj2 (inv_live _ _ _ _ V)); by apply table_elem|].
  cbn beta. intros r s' [-> _]. by wp_steps.
Qed.

Lemma find_class_inv test s : inv s -> wp (_ <- find_class (size (cls s)) test (classes s) ;; ret tt) (fun _ s' => inv s') s.
Proof.
  intros Hi. pose proof Hi as (K & vs & cs & V). pose proof (v_linked _ _ _ _ V) as L. wp_steps. eapply find_class_spec; [apply L|eapply chain_size; apply L|]. intros r _. by wp_steps.
Qed.

Lemma perform_inv k d args s : inv s -> d ∈ reg s -> wp (_ <- perform E k d args ;; ret tt) (fun _ s' => inv s') s.
Proof. intros Hi Hd. wp_steps. eapply wp_mono; [by apply perform_spec|]. cbn beta. intros r s' Hs'. by wp_steps. Qed.

Lemma find_driver_inv d s : inv s -> is_Some (dev s !! d) -> wp (_ <- device_find_driver E (Some d) ;; ret tt) (fun _ s' => inv s') s.
Proof.
  intros Hi [x Hx]. pose proof Hi as (K & vs & cs & V). pose proof (v_linked _ _ _ _ V) as L. unfold device_find_driver. wp_steps. eapply wp_dev_at; [done|]. destruct (driver x); wp_steps; [done|].
  eapply first_driver_spec; [apply L|apply L|done|eapply chain_size; apply L|]. intros r w _. wp_steps. exists K, vs, cs. by apply inv_world.
Qed.

Lemma legal_call c s : inv s -> legal s c -> wp (run_call c) (fun _ s' => inv s') s.
Proof.
  intros Hi Hl. destruct c as [[d|]|[d|]|[v|]|[v|]|[c|]|[c|]|[n|]|n|t [result|] max|[d|]|[n|]|n|[d|] fl|[d|]|[d|] b n o|[d|] b n o|[d|] r a|[d|]|]; cbn [run_call legal] in *;
    try (by apply search_inv); try (by apply find_class_inv); try (by apply perform_inv); try (by apply find_driver_inv); try (by wp_steps).
  - destruct Hl as (Hd & x & Hx & Hrest). wp_steps. eapply device_register_spec; [done|by split; [|exists x]|done| |]; [intros s' Hs' _; by wp_steps|intros p s' _ (Hs' & _); by wp_steps].
  - destruct Hl as [Hr Hd]. wp_steps. apply device_unregister_spec; [done..|intros _; by wp_steps|intros s' Hs' _; by wp_steps].
  - destruct Hl as (y & Hy & Ht). wp_steps. eapply wp_mono; [by eapply device_driver_register_spec|]. cbn beta. intros r s' Hs'. by wp_steps.
  - wp_steps. eapply wp_mono; [by apply device_driver_unregister_spec|]. cbn beta. intros r s' Hs'. by wp_steps.
  - destruct Hl as [y Hy]. wp_steps. eapply wp_mono; [by eapply device_class_register_spec|]. cbn beta. intros r s' Hs'. by wp_steps.
  - wp_steps. eapply wp_mono; [by apply device_class_unregister_spec|]. cbn beta. intros r s' Hs'. by wp_steps.
  - unfold device_find_by_type. case_if; wp_steps; [done|]. pose proof Hi as (K & vs & cs & V). eapply wp_mono; [apply collect_spec; [|lia|done]|].
    + intros d Hd. apply (proj2 (inv_live _ _ _ _ V)). by apply table_elem.
    + cbn beta. intros r s' ->. by wp_steps.
  - unfold device_read. case_if; [by wp_steps|by apply perform_inv].
  - unfold device_write. case_if; [by wp_steps|by apply perform_inv].
  - destruct Hl as [x Hx]. unfold device_create_node. wp_steps. cbn [deref]. wp_steps. eapply wp_dev_at; [done|]. by wp_steps.
Qed.

(** The states after [device_manager_init] and legal calls. *)
Inductive history : manager -> Prop :=
| history_init s0 r s : drivers s0 = None -> classes s0 = None -> device_manager_init E s0 = Ret (r, s) -> history s
| history_call s c s' : history s -> legal s c -> run_call c s = Ret (tt, s') -> history s'.

Lemma dev_history_inv s : history s -> inv s.
Proof.
  induction 1 as [s0 r s Hd Hc Hrun|s c s' _ IH Hl Hrun].
  - destruct (wp_run _ _ _ _ _ (device_manager_init_spec s0 Hd Hc) Hrun) as [_ Hi]. exact Hi.
  - exact (wp_run _ _ _ _ _ (legal_call c s IH Hl) Hrun).
Qed.

(** [b] is the parent of [a]. *)
Definition above s (a b : nat) : Prop := exists x, dev s !! a = Some x /\ parent x = Some b.

Lemma tree_rooted s R K X r : tree s R K X -> root_device s = Some r -> forall d, d ∈ R -> rtc (above s) d r.
Proof.
  intros T Hr. destruct (t_rank _ _ _ _ T) as (f & Hf & _). intros d. remember (f d) as n eqn:Hn. revert d Hn. induction n as [n IH] using lt_wf_ind. intros d -> Hd.
  destruct (t_kids _ _ _ _ T d Hd) as (x & Hx & _). pose proof (t_parent _ _ _ _ T d x Hd Hx) as Hp. destruct (parent x) as [p|] eqn:Ep.
  - destruct Hp as (HpR & _). eapply rtc_l; [by exists x|]. apply (IH (f p)); [by apply (Hf d x)|done|done].
  - assert (d = r) as -> by congruence. done.
Qed.

(** C26. The tree of devices. As long as [heap_alloc] does not run out of memory and the
    functions of drivers and classes return and leave the manager's own data alone: after
    [device_manager_init] and any sequence of legal calls the table, the tree, the arrays of
    children and the lists of drivers and classes are intact, every registered device leads to the
    root through its parents, and every further legal call returns. A call is legal when the
    structures it is given exist, a device to register is fresh (not registered, no children or
    driver yet, its parent registered or NULL), the device to unregister is not the root, the device of an
    operation is registered, a driver's id tables and a result array are as long as the
    caller says. *)
Theorem device_histories_safe s : history s ->
  inv s /\ (forall d r, d ∈ reg s -> root_device s = Some r -> rtc (above s) d r) /\ forall c, legal s c -> exists s', run_call c s = Ret (tt, s').
Proof.
  intros Hh. pose proof (dev_history_inv s Hh) as Hi. split; [done|]. split.
  - intros d r Hd Hr. pose proof Hi as (K & vs & cs & V). by apply (tree_rooted s (reg s) K None r (v_tree _ _ _ _ V)).
  - intros c Hl. destruct (wp_returns _ _ _ (legal_call c s Hi Hl)) as ([] & s' & Hrun & _). by exists s'.
Qed.

(** ** Removing the root *)

(** Without the root: its array is gone, but it is still the root and has the pointer to it. *)
Record rootless s (r a d : nat) (x y : device) (vs cs : list nat) : Prop := {
  rl_root : root_device s = Some r;
  rl_dev : dev s !! r = Some x;
  rl_gone : arr s !! a = None;
  rl_live : live s;
  rl_new : d ∉ reg s;
  rl_ydev : dev s !! d = Some y;
  rl_linked : linked s (reg s) vs cs;
  rl_count : num_devices s < Z.of_nat MAX_DEVICES;
  rl_slot : exists i, free_slot (devices s) 0 = Some i;
}.

Lemma free_slot_exists l i : forall k, l !! i = Some None -> exists j, free_slot l k = Some j.
Proof. revert i. induction l as [|[e|] l IH]; intros [|i] k H; cbn in *; try done; [by apply (IH i)|by eexists|by eexists]. Qed.

Lemma remove_root K vs cs s r x a d y : inv_at s K vs cs -> root_device s = Some r -> dev s !! r = Some x -> children x = Some a -> d ∉ reg s -> dev s !! d = Some y ->
  wp (device_unregister E (Some r)) (fun q s' => q = DEVICE_OK /\ rootless s' r a d x y vs cs) s.
Proof.
  intros V Hr Hx Hc Hd Hy. pose proof (v_tree _ _ _ _ V) as T. pose proof (v_linked _ _ _ _ V) as L.
  assert (r ∈ reg s) as HrR by (destruct (t_root _ _ _ _ T) as (r' & Hr' & HrR); congruence).
  assert (parent x = None) as Hpx by (pose proof (t_parent _ _ _ _ T r x HrR Hx) as Hp; destruct (parent x); [by destruct Hp as (_ & Hp & _)|done]).
  assert (forall c, c ∈ K r -> c ∈ reg s /\ exists z, dev s !! c = Some z /\ parent z = Some r) as Hkr by (intros c Hck; by destruct (t_child _ _ _ _ T r c HrR Hck)).
  unfold device_unregister. wp_steps. destruct (slot_of (devices s) 0 r) as [i|] eqn:Hslot; [|by destruct (slot_of_none _ _ _ Hslot HrR)].
  apply dev_slot_of_spec in Hslot as [_ Hslot]. rewrite Nat.sub_0_r in Hslot. pose proof (table_delete _ _ _ Hslot) as Hperm. fold (reg s) in Hperm.
  wp_steps. eapply wp_dev_at; [done|]. fold (disown r x). wp_steps. eapply wp_mono; [by apply (disown_spec r x (reg s) K)|]. cbn beta. intros [] s1 (m & h & -> & Hm & Hgone & Hh).
  assert (m !! r = Some x) as Hmr.
  { rewrite Hm, decide_False; [done|]. intros Hin. destruct (Hkr r Hin) as (_ & z & Hz & Hpz). congruence. }
  assert (forall w, rootless (set_num_devices (num_devices s - 1) (set_devices (<[i := None]> (devices s)) (set_world w (set_arr h (set_dev m s))))) r a d x y vs cs) as Hend.
  { intros w. set (s' := set_num_devices _ _). assert (forall e, e ∈ reg s' -> e ∈ reg s) as Hsub by (intros e He; rewrite Hperm; right; exact He).
    assert (forall e z', m !! e = Some z' -> exists z, dev s !! e = Some z /\ driver z' = driver z /\ ops z' = ops z) as Hinv.
    { intros e z' He. rewrite Hm in He. destruct (decide _); [|by exists z']. destruct (dev s !! e) as [z|]; [|done]. injection He as <-. by exists z. }
    split; cbn.
    - done.
    - done.
    - by apply Hgone.
    - split; [cbn; rewrite length_insert; apply V|]. intros e He%Hsub. cbn. rewrite Hm. destruct (proj2 (inv_live _ _ _ _ V) e He) as [z ->]. case_decide; by eexists.
    - intros He. by apply Hd, Hsub.
    - rewrite Hm, decide_False; [done|]. intros Hin. by apply Hd, (Hkr d Hin).
    - apply (linked_same s _ (reg s)); [done..| |done]. intros e z' He Hz'. split; [by apply Hsub|by apply Hinv].
    - pose proof (v_count _ _ _ _ V). assert (length (reg s) <= MAX_DEVICES)%nat by (rewrite <- (v_length _ _ _ _ V); unfold reg; clear; induction (devices s) as [|[]]; cbn; lia). lia.
    - apply (free_slot_exists _ i). apply list_lookup_insert_eq. by eapply lookup_lt_Some. }
  wp_steps. eapply wp_dev_at; [done|]. rewrite Hpx. wp_steps. eapply wp_dev_at; [done|].
  destruct (ops x) as [o|] eqn:Ho; wp_steps; [|split; [done|]; specialize (Hend (world s)); by destruct s].
  apply has_op_spec.
  - intros v ->. eapply (chain_in d_next (drv s)); [apply L|]. apply (l_driver _ _ _ _ L r x v HrR Hx). by apply (l_ops _ _ _ _ L r x v HrR Hx).
  - intros b. destruct b; wp_steps; [|split; [done|]; specialize (Hend (world s)); by destruct s]. apply wp_quiet; [apply h_operation|]. intros q w. wp_steps. split; [done|]. apply Hend.
Qed.

(** A child for the root: the array is read after it was freed. *)
Lemma adopt_fault s r a d x y : root_device s = Some r -> dev s !! r = Some x -> children x = Some a -> arr s !! a = None -> dev s !! d = Some y -> d <> r -> parent y = None ->
  attach_parent E d s = Fault.
Proof.
  intros Hr Hx Hc Ha Hy Hne Hp. unfold attach_parent. apply bind_wp_fault. eapply wp_dev_at; [done|]. apply bind_wp_fault. wp_steps. rewrite Hp, bool_decide_eq_false_2 by congruence.
  apply bind_wp_fault. eapply wp_change_dev; [done|]. rewrite Hr. apply bind_fault. unfold device_add_child. apply bind_wp_fault. eapply wp_dev_at; [cbn; by rewrite lookup_insert_ne|]. rewrite Hc.
  apply bind_fault, bind_fault. unfold array_at. apply bind_wp_fault. wp_steps. cbn. by rewrite Ha.
Qed.

Lemma rootless_register s r a d x y vs cs : rootless s r a d x y vs cs -> children x = Some a -> parent y = None -> driver y = None -> (forall v, ops y <> Some (DriverOps v)) ->
  d <> r -> device_register E (Some d) s = Fault.
Proof.
  intros [H1 H2 H3 H4 H5 H6 H7 H8 [i Hi]] Hc Hp Hdr Hops Hne. unfold device_register. apply bind_wp_fault. wp_steps. destruct (Z.leb_spec (Z.of_nat MAX_DEVICES) (num_devices s)); [lia|].
  apply bind_wp_fault. eapply wp_dev_at; [done|].
  assert (forall k i0, bind (mfor (seq 0 (Z.to_nat (num_devices s))) (rename_if_taken d)) (fun _ => place d) (set_dev (<[d := set_id k y]> (dev s)) (set_next_id i0 s)) = Fault) as Hrest.
  { intros k i0. set (s1 := set_dev _ _). assert (live s1) as Hl1 by (apply (live_outside s d (set_id k y)) in H4; [|done]; by destruct H4). apply bind_wp_fault.
    eapply (renames_spec d (set_id k y)); [done|done|cbn; by rewrite lookup_insert_eq|intros j Hj%elem_of_seq; unfold MAX_DEVICES in *; lia|]. intros n. unfold place. apply bind_wp_fault. wp_steps.
    cbn [devices set_dev set_next_id s1]. rewrite Hi. apply bind_wp_fault. wp_steps. apply bind_wp_fault. set (y1 := set_name n (set_id k y)).
    eapply (attach_driver_spec d y1 (reg s) vs cs); [|cbn; by rewrite lookup_insert_eq|done|done|].
    - apply (linked_ext (set_dev (<[d := y1]> (dev s)) s)); [by cbn; rewrite insert_insert_eq|done..|]. by apply linked_dev_outside.
    - intros dr o w _. apply bind_fault. eapply (adopt_fault _ r a d x (set_ops o (set_driver dr y1))); [done|cbn; rewrite !lookup_insert_ne by done; done|done|done|cbn; by rewrite lookup_insert_eq|done|done]. }
  fold (place d). destruct ((id y =? 0) && negb (bool_decide (Some d = root_device s))).
  - apply bind_wp_fault. unfold generate_device_id. wp_steps. eapply wp_change_dev; [done|]. exact (Hrest (next_id s) (u32 (next_id s + 1))).
  - apply bind_wp_fault. wp_steps. specialize (Hrest (id y) (next_id s)). replace (set_id (id y) y) with y in Hrest by by destruct y. rewrite insert_id in Hrest by done. destruct s; exact Hrest.
Qed.

(** C39. Removing the root. [device_unregister] accepts the root device and frees its array of
    children, but the root stays the parent of new devices: the next device without a parent
    is stored through the freed array. *)
Theorem device_root_removal_dangles s r x a d y : inv s -> root_device s = Some r -> dev s !! r = Some x -> children x = Some a -> candidate s d -> dev s !! d = Some y -> parent y = None ->
  exists s', device_unregister E (Some r) s = Ret (DEVICE_OK, s') /\ device_register E (Some d) s' = Fault.
Proof.
  intros (K & vs & cs & V) Hr Hx Hc (Hd & y0 & Hy0 & _ & Hdr & Hops & _) Hy Hp. assert (y0 = y) as -> by congruence.
  assert (d <> r) as Hne by (intros ->; destruct (t_root _ _ _ _ (v_tree _ _ _ _ V)) as (r' & Hr' & HrR); apply Hd; congruence).
  destruct (wp_returns _ _ _ (remove_root K vs cs s r x a d y V Hr Hx Hc Hd Hy)) as (q & s' & Hrun & -> & Hl). exists s'. split; [done|]. by eapply rootless_register.
Qed.

(** Paths of devices below the root. The root's path is "/" and a path is that of the parent, a
    slash and the name: a device registered below the root gets a path with two slashes. *)
Theorem device_paths_double_slash s d x r y : inv s -> candidate s d -> dev s !! d = Some x -> parent x = None -> root_device s = Some r -> dev s !! r = Some y -> path y = [47] ->
  wp (device_register E (Some d)) (fun q s' => q = DEVICE_OK -> exists x', dev s' !! d = Some x' /\ path x' = take 63 ([47; 47] ++ name x')) s.
Proof.
  intros Hi Hc Hx Hp Hr Hy Hpath. eapply device_register_spec; [done|done|done|by intros|]. intros p s' Hwhich (_ & _ & x' & y' & Hx' & Hp' & _ & Hy' & Hpx) _.
  assert (p = r) as -> by (destruct Hwhich as [|[_ ?]]; congruence). assert (y' = y) as -> by congruence. exists x'. split; [done|]. rewrite Hpx. unfold join_path. by rewrite Hpath.
Qed.

End Manager.
(** ** A system *)

(** Addresses above all that are in use. *)
Definition next_address (s : manager (D := unit)) : nat := S (max_list ((map_to_list (arr s)).*1 ++ (map_to_list (dev s)).*1)).

Definition plain : env (D := unit) :=
  mk_env (fun s => Some (next_address s)) (fun _ k => match k with OpOpen | OpInit | OpRemove => true | _ => false end) (fun _ _ _ _ => ret 0) (fun _ _ => ret 0) (fun _ => ret 0) (fun _ => ret 0) (fun _ => ret 0) (fun _ => ret 0).

Lemma above_max {A} (m : gmap nat A) l : m !! S (max_list ((map_to_list m).*1 ++ l)) = None /\ m !! S (max_list (l ++ (map_to_list m).*1)) = None.
Proof.
  assert (forall k, (forall i x, m !! i = Some x -> (i < k)%nat) -> m !! k = None) as Hk by (intros k Hk; destruct (m !! k) as [x|] eqn:Hx; [specialize (Hk k x Hx); lia|done]).
  assert (forall i x, m !! i = Some x -> i ∈ (map_to_list m).*1) as Hin by (intros i x Hx; apply list_elem_of_fmap; exists (i, x); split; [done|]; by apply elem_of_map_to_list).
  assert (forall l' i, i ∈ l' -> (i <= max_list l')%nat) as Hmax by (induction l' as [|j l' IH]; intros i Hi; [set_solver|]; apply elem_of_cons in Hi as [->|Hi]; cbn; [lia|specialize (IH i Hi); lia]).
  split; apply Hk; intros i x Hx; apply Nat.lt_succ_r, Hmax, elem_of_app; [left|right]; by eapply Hin.
Qed.

#[export] Instance plain_handlers : Handlers plain.
Proof.
  assert (forall s : manager (D := unit), wp (ret 0) (fun (_ : Z) s' => exists w, s' = set_world w s) s) as Hq by (intros s; exists tt; destruct s as [? ? ? ? ? ? ? ? ? ? ? ? []]; reflexivity).
  split; try (intros; exact Hq). intros s. exists (next_address s). split; [reflexivity|]. split; [apply above_max|apply above_max].
Qed.

Definition new_device (n : list Z) : device := mk_device n [] 0 1 0 0 7 9 None None 0 None None None.
Definition a_driver : device_driver := mk_driver [100] 0 [7] [9] 1 true true true None.

(** Four structures of their owners: a, b, c and another c; and a driver. *)
Definition raw : manager (D := unit) :=
  mk_manager [] 0 None None None 1 1 1 (list_to_map [(1%nat, new_device [97]); (2%nat, new_device [98]); (3%nat, new_device [99]); (4%nat, new_device [99])]) {[ 1%nat := a_driver ]} ∅ ∅ tt.

Definition booted : manager := after (device_manager_init plain) raw.
Definition with_driver : manager := after (run_call plain (DriverRegister (Some 1%nat))) booted.
Definition with_a : manager := after (run_call plain (Register (Some 1%nat))) with_driver.
Definition with_b : manager := after (run_call plain (Register (Some 2%nat))) with_a.
Definition with_c : manager := after (run_call plain (Register (Some 3%nat))) with_b.
Definition without_a : manager := after (run_call plain (Unregister (Some 1%nat))) with_c.
Definition with_both : manager := after (run_call plain (Register (Some 4%nat))) without_a.

Lemma new_candidate (s : manager (D := unit)) d n : bool_decide (d ∉ reg s) = true -> dev s !! d = Some (new_device n) -> candidate s d.
Proof. intros Hd Hx. split; [by apply bool_decide_eq_true in Hd|]. exists (new_device n). by repeat split. Qed.

Lemma booted_history : history plain booted.
Proof. apply (history_init plain raw 0); vm_compute; reflexivity. Qed.

Lemma with_driver_history : history plain with_driver.
Proof.
  apply (history_call plain booted (DriverRegister (Some 1%nat))); [exact booted_history| |vm_compute; reflexivity]. exists a_driver. split; [vm_compute; reflexivity|]. split; vm_compute; discriminate.
Qed.

Lemma with_a_history : history plain with_a.
Proof. apply (history_call plain with_driver (Register (Some 1%nat))); [exact with_driver_history|apply (new_candidate _ _ [97]); vm_compute; reflexivity|vm_compute; reflexivity]. Qed.

Lemma with_c_history : history plain with_c.
Proof.
  apply (history_call plain with_b (Register (Some 3%nat))); [|apply (new_candidate _ _ [99]); vm_compute; reflexivity|vm_compute; reflexivity].
  apply (history_call plain with_a (Register (Some 2%nat))); [exact with_a_history|apply (new_candidate _ _ [98]); vm_compute; reflexivity|vm_compute; reflexivity].
Qed.

Lemma device_histories_safe_witness : inv with_a /\ exists s', run_call plain (Register (Some 2%nat)) with_a = Ret (tt, s').
Proof.
  destruct (device_histories_safe plain with_a with_a_history) as (Hi & _ & Hc). split; [exact Hi|]. apply Hc. apply (new_candidate _ _ [98]); vm_compute; reflexivity.
Defined.

Lemma device_root_removal_dangles_witness : exists s', device_unregister plain (root_device with_a) with_a = Ret (DEVICE_OK, s') /\ device_register plain (Some 2%nat) s' = Fault.
Proof.
  change (root_device with_a) with (Some 5%nat).
  eapply (device_root_removal_dangles plain with_a 5%nat); [exact (dev_history_inv plain with_a with_a_history)|vm_compute; reflexivity|vm_compute; reflexivity|vm_compute; reflexivity| |vm_compute; reflexivity|vm_compute; reflexivity].
  apply (new_candidate _ _ [98]); vm_compute; reflexivity.
Defined.

Lemma device_paths_double_slash_witness : wp (device_register plain (Some 2%nat)) (fun q s' => q = DEVICE_OK -> exists x', dev s' !! 2%nat = Some x' /\ path x' = take 63 ([47; 47] ++ name x')) with_a.
Proof.
  eapply (device_paths_double_slash plain with_a 2%nat _ 5%nat); [exact (dev_history_inv plain with_a with_a_history)|apply (new_candidate _ _ [98]); vm_compute; reflexivity|vm_compute; reflexivity|vm_compute; reflexivity|
    vm_compute; reflexivity|vm_compute; reflexivity|vm_compute; reflexivity].
Defined.

(** Names are compared with the first [num_devices] entries of the table only: after a device
    is unregistered, two devices can have the same name. *)
Theorem device_names_collide : exists s, history plain s /\ exists d e x y, d <> e /\ d ∈ reg s /\ e ∈ reg s /\ dev s !! d = Some x /\ dev s !! e = Some y /\ name x = name y.
Proof.
  exists with_both. split.
  - apply (history_call plain without_a (Register (Some 4%nat))); [|apply (new_candidate _ _ [99]); vm_compute; reflexivity|vm_compute; reflexivity].
    apply (history_call plain with_c (Unregister (Some 1%nat))); [exact with_c_history|split; [vm_compute; discriminate|vm_compute; eexists; reflexivity]|vm_compute; reflexivity].
  - eexists 3%nat, 4%nat, _, _. split; [discriminate|]. split; [apply (bool_decide_eq_true_1 (3%nat ∈ reg with_both)); vm_compute; reflexivity|].
    split; [apply (bool_decide_eq_true_1 (4%nat ∈ reg with_both)); vm_compute; reflexivity|]. split; [vm_compute; reflexivity|]. split; [vm_compute; reflexivity|]. reflexivity.
Qed.

End DevicesThms.
