(* ===== verification/Paging.v ===== *)
(** * Paging ([memory/paging.c])

    Physical memory, its page frames and the page tables of the processor. Memory is a
    function from the addresses of 32-bit words to words, [memsize] bytes of it are there.
    Everything the code keeps behind a pointer is in it: the page directories, the page
    tables and the array [page_info_array] that says which frame is free, so that an
    operation that clears a frame clears what is in it. The other variables of the file are
    members of [machine].

    Once paging is on, every access of the code goes through the tables of CR3 ([walk]), as
    the processor's does; an address they do not map is a [Fault], as is one outside memory.
    The processor caches no translation in the model. [invlpg] is recorded in [invalidated],
    the last address first. Words are aligned and so are the pages that are cleared or
    copied; an unaligned pointer is a [Fault].

    The kernel may write to read-only pages: the code does not set CR0.WP. [paging_mutex] is
    the number of times the running task holds the mutex, as for the re-entrant mutex of
    [kernel/sync.c] while no other task wants it. The address of a fault and the error code
    the processor pushes are arguments, as is [terminate_process], which is not in the
    repository. *)

From Stdlib Require Import ZArith Lia String.
From stdpp Require Import base tactics option numbers list strings.
From S2P Require Import Prelude.

Set Default Goal Selector "!".
Local Open Scope Z_scope.
Local Open Scope kernel_scope.

Module Paging.

Definition PAGE_FREE : Z := 0.
Definition PAGE_USED : Z := 1.
Definition PAGE_RESERVED : Z := 2.
Definition PAGE_SIZE : Z := 4096.
Definition PAGE_TABLE_ENTRIES : Z := 1024.
Definition PAGE_DIRECTORY_ENTRIES : Z := 1024.
Definition PAGE_FLAG_PRESENT : Z := 0x01.
Definition PAGE_FLAG_WRITABLE : Z := 0x02.
Definition PAGE_FLAG_USER : Z := 0x04.
Definition PAGE_FLAG_GLOBAL : Z := 0x100.
Definition PAGE_FLAG_GUARD : Z := 0x200.
Definition MAX_PROTECTED_REGIONS : nat := 32.

(** [~0xFFF] and [~PAGE_FLAG_WRITABLE], as 32-bit numbers. *)
Definition FRAME_MASK : Z := 0xFFFFF000.
Definition READ_ONLY_MASK : Z := 0xFFFFFFFD.

(** ** State *)

(** [protected_region_t] *)
Record protected_region : Type := mk_region {
  r_start : Z;
  r_end : Z;
  r_flags : Z;
  r_name : string;
}.

(** [memory_stats] *)
Record stats : Type := mk_stats {
  pages_allocated : Z;
  pages_freed : Z;
  address_space_switches : Z;
  page_faults : Z;
  tlb_flushes : Z;
  cow_faults_handled : Z;
  demand_pages_loaded : Z;
  memory_mapped_regions : Z;
}.

Definition set_pages_allocated (x : Z) (t : stats) : stats :=
  mk_stats x (pages_freed t) (address_space_switches t) (page_faults t) (tlb_flushes t)
    (cow_faults_handled t) (demand_pages_loaded t) (memory_mapped_regions t).
Definition set_pages_freed (x : Z) (t : stats) : stats :=
  mk_stats (pages_allocated t) x (address_space_switches t) (page_faults t) (tlb_flushes t)
    (cow_faults_handled t) (demand_pages_loaded t) (memory_mapped_regions t).
Definition set_address_space_switches (x : Z) (t : stats) : stats :=
  mk_stats (pages_allocated t) (pages_freed t) x (page_faults t) (tlb_flushes t)
    (cow_faults_handled t) (demand_pages_loaded t) (memory_mapped_regions t).
Definition set_page_faults (x : Z) (t : stats) : stats :=
  mk_stats (pages_allocated t) (pages_freed t) (address_space_switches t) x (tlb_flushes t)
    (cow_faults_handled t) (demand_pages_loaded t) (memory_mapped_regions t).
Definition set_tlb_flushes (x : Z) (t : stats) : stats :=
  mk_stats (pages_allocated t) (pages_freed t) (address_space_switches t) (page_faults t) x
    (cow_faults_handled t) (demand_pages_loaded t) (memory_mapped_regions t).
Definition set_cow_faults_handled (x : Z) (t : stats) : stats :=
  mk_stats (pages_allocated t) (pages_freed t) (address_space_switches t) (page_faults t)
    (tlb_flushes t) x (demand_pages_loaded t) (memory_mapped_regions t).
Definition set_demand_pages_loaded (x : Z) (t : stats) : stats :=
  mk_stats (pages_allocated t) (pages_freed t) (address_space_switches t) (page_faults t)
    (tlb_flushes t) (cow_faults_handled t) x (memory_mapped_regions t).
Definition set_memory_mapped_regions (x : Z) (t : stats) : stats :=
  mk_stats (pages_allocated t) (pages_freed t) (address_space_switches t) (page_faults t)
    (tlb_flushes t) (cow_faults_handled t) (demand_pages_loaded t) x.

(** Memory, the registers and the variables of the file. The first [num_protected_regions]
    entries of [protected_regions] are the list here; [memsize] is [_bootinfo_memsize]. *)
Record machine : Type := mk_machine {
  mem : Z -> Z;
  memsize : Z;
  cr3 : Z;
  paging_on : bool;
  current_page_directory : Z;
  page_info_array : Z;
  total_pages : Z;
  free_count : Z;
  shadow_page_directory : list Z;
  protected_regions : list protected_region;
  memory_stats : stats;
  current_process_id : Z;
  paging_mutex : Z;
  handler_set : bool;
  invalidated : list Z;
  halted : bool;
}.

Definition set_mem (x : Z -> Z) (s : machine) : machine :=
  mk_machine x (memsize s) (cr3 s) (paging_on s) (current_page_directory s) (page_info_array s)
    (total_pages s) (free_count s) (shadow_page_directory s) (protected_regions s) (memory_stats
    s) (current_process_id s) (paging_mutex s) (handler_set s) (invalidated s) (halted s).
Definition set_memsize (x : Z) (s : machine) : machine :=
  mk_machine (mem s) x (cr3 s) (paging_on s) (current_page_directory s) (page_info_array s)
    (total_pages s) (free_count s) (shadow_page_directory s) (protected_regions s) (memory_stats
    s) (current_process_id s) (paging_mutex s) (handler_set s) (invalidated s) (halted s).
Definition set_cr3 (x : Z) (s : machine) : machine :=
  mk_machine (mem s) (memsize s) x (paging_on s) (current_page_directory s) (page_info_array s)
    (total_pages s) (free_count s) (shadow_page_directory s) (protected_regions s) (memory_stats
    s) (current_process_id s) (paging_mutex s) (handler_set s) (invalidated s) (halted s).
Definition set_paging_on (x : bool) (s : machine) : machine :=
  mk_machine (mem s) (memsize s) (cr3 s) x (current_page_directory s) (page_info_array s)
    (total_pages s) (free_count s) (shadow_page_directory s) (protected_regions s) (memory_stats
    s) (current_process_id s) (paging_mutex s) (handler_set s) (invalidated s) (halted s).
Definition set_current_page_directory (x : Z) (s : machine) : machine :=
  mk_machine (mem s) (memsize s) (cr3 s) (paging_on s) x (page_info_array s) (total_pages s)
    (free_count s) (shadow_page_directory s) (protected_regions s) (memory_stats s)
    (current_process_id s) (paging_mutex s) (handler_set s) (invalidated s) (halted s).
Definition set_page_info_array (x : Z) (s : machine) : machine :=
  mk_machine (mem s) (memsize s) (cr3 s) (paging_on s) (current_page_directory s) x (total_pages
    s) (free_count s) (shadow_page_directory s) (protected_regions s) (memory_stats s)
    (current_process_id s) (paging_mutex s) (handler_set s) (invalidated s) (halted s).
Definition set_total_pages (x : Z) (s : machine) : machine :=
  mk_machine (mem s) (memsize s) (cr3 s) (paging_on s) (current_page_directory s)
    (page_info_array s) x (free_count s) (shadow_page_directory s) (protected_regions s)
    (memory_stats s) (current_process_id s) (paging_mutex s) (handler_set s) (invalidated s)
    (halted s).
Definition set_free_count (x : Z) (s : machine) : machine :=
  mk_machine (mem s) (memsize s) (cr3 s) (paging_on s) (current_page_directory s)
    (page_info_array s) (total_pages s) x (shadow_page_directory s) (protected_regions s)
    (memory_stats s) (current_process_id s) (paging_mutex s) (handler_set s) (invalidated s)
    (halted s).
Definition set_shadow_page_directory (x : list Z) (s : machine) : machine :=
  mk_machine (mem s) (memsize s) (cr3 s) (paging_on s) (current_page_directory s)
    (page_info_array s) (total_pages s) (free_count s) x (protected_regions s) (memory_stats s)
    (current_process_id s) (paging_mutex s) (handler_set s) (invalidated s) (halted s).
Definition set_protected_regions (x : list protected_region) (s : machine) : machine :=
  mk_machine (mem s) (memsize s) (cr3 s) (paging_on s) (current_page_directory s)
    (page_info_array s) (total_pages s) (free_count s) (shadow_page_directory s) x (memory_stats
    s) (current_process_id s) (paging_mutex s) (handler_set s) (invalidated s) (halted s).
Definition set_memory_stats (x : stats) (s : machine) : machine :=
  mk_machine (mem s) (memsize s) (cr3 s) (paging_on s) (current_page_directory s)
    (page_info_array s) (total_pages s) (free_count s) (shadow_page_directory s)
    (protected_regions s) x (current_process_id s) (paging_mutex s) (handler_set s) (invalidated
    s) (halted s).
Definition set_current_process_id (x : Z) (s : machine) : machine :=
  mk_machine (mem s) (memsize s) (cr3 s) (paging_on s) (current_page_directory s)
    (page_info_array s) (total_pages s) (free_count s) (shadow_page_directory s)
    (protected_regions s) (memory_stats s) x (paging_mutex s) (handler_set s) (invalidated s)
    (halted s).
Definition set_paging_mutex (x : Z) (s : machine) : machine :=
  mk_machine (mem s) (memsize s) (cr3 s) (paging_on s) (current_page_directory s)
    (page_info_array s) (total_pages s) (free_count s) (shadow_page_directory s)
    (protected_regions s) (memory_stats s) (current_process_id s) x (handler_set s) (invalidated
    s) (halted s).
Definition set_handler_set (x : bool) (s : machine) : machine :=
  mk_machine (mem s) (memsize s) (cr3 s) (paging_on s) (current_page_directory s)
    (page_info_array s) (total_pages s) (free_count s) (shadow_page_directory s)
    (protected_regions s) (memory_stats s) (current_process_id s) (paging_mutex s) x
    (invalidated s) (halted s).
Definition set_invalidated (x : list Z) (s : machine) : machine :=
  mk_machine (mem s) (memsize s) (cr3 s) (paging_on s) (current_page_directory s)
    (page_info_array s) (total_pages s) (free_count s) (shadow_page_directory s)
    (protected_regions s) (memory_stats s) (current_process_id s) (paging_mutex s) (handler_set
    s) x (halted s).
Definition set_halted (x : bool) (s : machine) : machine :=
  mk_machine (mem s) (memsize s) (cr3 s) (paging_on s) (current_page_directory s)
    (page_info_array s) (total_pages s) (free_count s) (shadow_page_directory s)
    (protected_regions s) (memory_stats s) (current_process_id s) (paging_mutex s) (handler_set
    s) (invalidated s) x.

Definition count (f : stats -> stats) : M machine unit := modify (fun s => set_memory_stats (f (memory_stats s)) s).

Definition mutex_init : M machine unit := modify (set_paging_mutex 0).
Definition mutex_lock : M machine unit := modify (fun s => set_paging_mutex (paging_mutex s + 1) s).
Definition mutex_unlock : M machine unit := modify (fun s => set_paging_mutex (paging_mutex s - 1) s).

(** ** Memory *)

Definition pd_index (virt : Z) : Z := Z.shiftr virt 22.
Definition pt_index (virt : Z) : Z := Z.land (Z.shiftr virt 12) 0x3FF.

(** There is memory for [n] bytes from the physical address [a] on. *)
Definition in_ram (s : machine) (a n : Z) : bool := (0 <=? a) && (a + n <=? memsize s).

(** Translation by the processor. *)
Definition walk (s : machine) (virt : Z) : option Z :=
  if negb (paging_on s) then Some virt
  else
    let pde_at := Z.land (cr3 s) FRAME_MASK + 4 * pd_index virt in
    if negb (in_ram s pde_at 4) then None
    else if negb (has_flag (mem s pde_at) PAGE_FLAG_PRESENT) then None
    else
      let pte_at := Z.land (mem s pde_at) FRAME_MASK + 4 * pt_index virt in
      if negb (in_ram s pte_at 4) then None
      else if negb (has_flag (mem s pte_at) PAGE_FLAG_PRESENT) then None
      else Some (Z.lor (Z.land (mem s pte_at) FRAME_MASK) (Z.land virt 0xFFF)).

(** The physical address of an object of [n] bytes at a multiple of [n]. *)
Definition access (virt n : Z) : M machine Z :=
  s <- get ;;
  a <- deref (walk s virt) ;;
  if (a mod n =? 0) && in_ram s a n then ret a else fault.

Definition load32 (virt : Z) : M machine Z := a <- access virt 4 ;; gets (fun s => mem s a).
Definition store32 (virt v : Z) : M machine unit :=
  a <- access virt 4 ;;
  modify (fun s => set_mem (fun x => if x =? a then v else mem s x) s).

(** [memset(page, 0, PAGE_SIZE)] and [memcpy(dst, src, PAGE_SIZE)]: a page is translated once. *)
Definition clear_page (virt : Z) : M machine unit :=
  a <- access virt PAGE_SIZE ;;
  modify (fun s => set_mem (fun x => if (a <=? x) && (x <? a + PAGE_SIZE) then 0 else mem s x) s).
Definition copy_page (dst src : Z) : M machine unit :=
  a <- access dst PAGE_SIZE ;;
  b <- access src PAGE_SIZE ;;
  modify (fun s => set_mem (fun x => if (a <=? x) && (x <? a + PAGE_SIZE) then mem s (b + (x - a)) else mem s x) s).

(** [memset] to 0 of [n] words. *)
Definition clear_words (virt : Z) (n : Z) : M machine unit := mfor (seqZ 0 n) (fun j => store32 (virt + 4 * j) 0).

(** ** [page_info_t]

    Twelve bytes: [state] in the first, [references] in the third and fourth, then the
    words [flags] and [owner_pid]. *)
Definition info_at (i : Z) : M machine Z := s <- get ;; ret (page_info_array s + 12 * i).

Definition state_of (w : Z) : Z := w mod 256.
Definition references_of (w : Z) : Z := w / 65536.

Definition load_state (i : Z) : M machine Z := a <- info_at i ;; w <- load32 a ;; ret (state_of w).
Definition store_state (i x : Z) : M machine unit :=
  a <- info_at i ;; w <- load32 a ;; store32 a (w - w mod 256 + x).
Definition load_references (i : Z) : M machine Z := a <- info_at i ;; w <- load32 a ;; ret (references_of w).
Definition store_references (i x : Z) : M machine unit :=
  a <- info_at i ;; w <- load32 a ;; store32 a (w mod 65536 + 65536 * u16 x).
Definition store_flags (i x : Z) : M machine unit := a <- info_at i ;; store32 (a + 4) x.
Definition store_owner (i x : Z) : M machine unit := a <- info_at i ;; store32 (a + 8) x.

(** ** Protected regions *)

Definition paging_protect_region (start end_ flags : Z) (name : string) : M machine Z :=
  mutex_lock ;;;
  s <- get ;;
  if (MAX_PROTECTED_REGIONS <=? length (protected_regions s))%nat then
    mutex_unlock ;;; ret (-1)
  else
    modify (fun s => set_protected_regions (protected_regions s ++ [mk_region start end_ flags name]) s) ;;;
    mutex_unlock ;;;
    ret 0.

Fixpoint find_region (l : list protected_region) (addr : Z) : option protected_region :=
  match l with
  | [] => None
  | r :: l' => if (r_start r <=? addr) && (addr <? r_end r) then Some r else find_region l' addr
  end.
Definition get_protected_region (addr : Z) : M machine (option protected_region) :=
  gets (fun s => find_region (protected_regions s) addr).

(** ** Start *)

Definition reserve_page (i : Z) : M machine unit :=
  store_state i PAGE_RESERVED ;;;
  store_flags i (Z.lor PAGE_FLAG_PRESENT PAGE_FLAG_GLOBAL) ;;;
  modify (fun s => set_free_count (u32 (free_count s - 1)) s).

(** The [i]th table of the first 16 MB, at [table], for the entry [idx] of the directory. *)
Definition map_boot_table (table i idx : Z) : M machine unit :=
  clear_page table ;;;
  mfor (seqZ 0 PAGE_TABLE_ENTRIES) (fun j =>
    let phys_addr := u32 ((i * PAGE_TABLE_ENTRIES + j) * PAGE_SIZE) in
    store32 (table + 4 * j) (Z.lor (Z.lor (Z.lor phys_addr PAGE_FLAG_PRESENT) PAGE_FLAG_WRITABLE) PAGE_FLAG_GLOBAL)) ;;;
  s <- get ;;
  store32 (current_page_directory s + 4 * idx) (Z.lor (Z.lor table PAGE_FLAG_PRESENT) PAGE_FLAG_WRITABLE).

Definition paging_init : M machine unit :=
  mutex_init ;;;
  modify (fun s => set_total_pages (memsize s / PAGE_SIZE) s) ;;;
  modify (fun s => set_free_count (total_pages s) s) ;;;
  modify (set_page_info_array 0x100000) ;;;
  s <- get ;;
  clear_words (page_info_array s) (total_pages s * 3) ;;;
  mfor (seqZ 0 256) reserve_page ;;;
  modify (set_current_page_directory 0x1000) ;;;
  clear_page 0x1000 ;;;
  mfor (seqZ 0 4) (fun i => map_boot_table (0x2000 + i * PAGE_SIZE) i i) ;;;
  mfor (seqZ 0 4) (fun i => map_boot_table (0x6000 + i * PAGE_SIZE) i (0xC0000000 / (PAGE_SIZE * PAGE_TABLE_ENTRIES) + i)) ;;;
  _r <- paging_protect_region 0x0 0x1000 PAGE_FLAG_PRESENT "Null guard page" ;;
  _r <- paging_protect_region 0x1000 0xA000 (Z.lor PAGE_FLAG_PRESENT PAGE_FLAG_GLOBAL) "Kernel page tables" ;;
  _r <- paging_protect_region 0x100000 0x200000 (Z.lor (Z.lor PAGE_FLAG_PRESENT PAGE_FLAG_WRITABLE) PAGE_FLAG_GLOBAL)
          "Kernel code & data" ;;
  modify (set_handler_set true) ;;;
  modify (fun s => set_cr3 (current_page_directory s) s) ;;;
  modify (set_paging_on true).

(** ** Page frames *)

Definition mark_used (i : Z) : M machine unit :=
  store_state i PAGE_USED ;;;
  store_references i 1 ;;;
  store_flags i (Z.lor PAGE_FLAG_PRESENT PAGE_FLAG_WRITABLE) ;;;
  s <- get ;;
  if negb (current_process_id s =? 0) then store_owner i (current_process_id s) else ret tt.

(** The loop of [allocate_page] from frame [i] on. *)
Fixpoint allocate_from (n : nat) (i : Z) : M machine Z :=
  match n with
  | O => mutex_unlock ;;; ret 0
  | S n' =>
      st <- load_state i ;;
      if st =? PAGE_FREE then
        mark_used i ;;;
        modify (fun s => set_free_count (u32 (free_count s - 1)) s) ;;;
        count (fun t => set_pages_allocated (u32 (pages_allocated t + 1)) t) ;;;
        let page := u32 (i * PAGE_SIZE) in
        clear_page page ;;;
        mutex_unlock ;;;
        ret page
      else allocate_from n' (i + 1)
  end.

Definition allocate_page : M machine Z :=
  mutex_lock ;;;
  s <- get ;;
  allocate_from (Z.to_nat (total_pages s)) 0.

Definition free_page (page : Z) : M machine unit :=
  mutex_lock ;;;
  let page_index := page / PAGE_SIZE in
  s <- get ;;
  if total_pages s <=? page_index then mutex_unlock
  else
    st <- load_state page_index ;;
    if st =? PAGE_FREE then mutex_unlock
    else
      region <- get_protected_region page ;;
      match region with
      | Some _ => mutex_unlock
      | None =>
          refs <- load_references page_index ;;
          if 1 <? refs then
            store_references page_index (refs - 1) ;;;
            mutex_unlock
          else
            store_state page_index PAGE_FREE ;;;
            store_references page_index 0 ;;;
            store_flags page_index 0 ;;;
            store_owner page_index 0 ;;;
            modify (fun s => set_free_count (u32 (free_count s + 1)) s) ;;;
            count (fun t => set_pages_freed (u32 (pages_freed t + 1)) t) ;;;
            clear_page page ;;;
            mutex_unlock
      end.

(** The loop of [allocate_pages] from frame [i] on, with [found_pages] free frames from
    [start_page] on behind it. *)
Fixpoint allocate_run (n : nat) (i num start_page found_pages : Z) : M machine Z :=
  match n with
  | O => mutex_unlock ;;; ret 0
  | S n' =>
      st <- load_state i ;;
      if st =? PAGE_FREE then
        let start_page := if found_pages =? 0 then i else start_page in
        let found_pages := found_pages + 1 in
        if found_pages =? num then
          mfor (seqZ 0 num) (fun j => mark_used (start_page + j)) ;;;
          modify (fun s => set_free_count (u32 (free_count s - num)) s) ;;;
          count (fun t => set_pages_allocated (u32 (pages_allocated t + num)) t) ;;;
          let result := u32 (start_page * PAGE_SIZE) in
          mfor (seqZ 0 num) (fun j => clear_page (result + j * PAGE_SIZE)) ;;;
          mutex_unlock ;;;
          ret result
        else allocate_run n' (i + 1) num start_page found_pages
      else allocate_run n' (i + 1) num start_page 0
  end.

Definition allocate_pages (num : Z) : M machine Z :=
  if num =? 0 then ret 0
  else if num =? 1 then allocate_page
  else
    mutex_lock ;;;
    s <- get ;;
    if free_count s <? num then mutex_unlock ;;; ret 0
    else allocate_run (Z.to_nat (total_pages s)) 0 num 0 0.

Definition free_pages (start num : Z) : M machine unit :=
  mfor (seqZ 0 num) (fun i => free_page (u32 (start + i * PAGE_SIZE))).

Definition get_free_pages_count : M machine Z := gets free_count.

(** ** Mappings *)

Definition flush_tlb_entry (addr : Z) : M machine unit := modify (fun s => set_invalidated (addr :: invalidated s) s).
Definition flush_entire_tlb : M machine unit := count (fun t => set_tlb_flushes (u32 (tlb_flushes t + 1)) t).

(** An entry of the current page directory. *)
Definition load_pde (i : Z) : M machine Z := s <- get ;; load32 (current_page_directory s + 4 * i).
Definition store_pde (i v : Z) : M machine unit := s <- get ;; store32 (current_page_directory s + 4 * i) v.

Definition paging_map_page (physical virtual flags : Z) : M machine Z :=
  mutex_lock ;;;
  region <- get_protected_region virtual ;;
  match region with
  | Some _ => mutex_unlock ;;; ret (-1)
  | None =>
      pde <- load_pde (pd_index virtual) ;;
      ok <- (if negb (has_flag pde PAGE_FLAG_PRESENT) then
               pt_physical <- allocate_page ;;
               if pt_physical =? 0 then ret false
               else
                 clear_page pt_physical ;;;
                 store_pde (pd_index virtual)
                   (Z.lor (Z.lor (Z.lor pt_physical PAGE_FLAG_PRESENT) PAGE_FLAG_WRITABLE)
                      (if has_flag flags PAGE_FLAG_USER then PAGE_FLAG_USER else 0)) ;;;
                 ret true
             else ret true) ;;
      if negb ok then mutex_unlock ;;; ret (-1)
      else
        pde <- load_pde (pd_index virtual) ;;
        let table := Z.land pde FRAME_MASK in
        _old <- load32 (table + 4 * pt_index virtual) ;;
        store32 (table + 4 * pt_index virtual) (Z.lor (Z.land physical FRAME_MASK) (Z.land flags 0xFFF)) ;;;
        flush_tlb_entry virtual ;;;
        mutex_unlock ;;;
        ret 0
  end.

Definition unmap_page (virtual : Z) : M machine unit :=
  mutex_lock ;;;
  region <- get_protected_region virtual ;;
  match region with
  | Some _ => mutex_unlock
  | None =>
      pde <- load_pde (pd_index virtual) ;;
      if negb (has_flag pde PAGE_FLAG_PRESENT) then mutex_unlock
      else
        store32 (Z.land pde FRAME_MASK + 4 * pt_index virtual) 0 ;;;
        flush_tlb_entry virtual ;;;
        mutex_unlock
  end.

Definition paging_get_page_flags (virtual : Z) : M machine Z :=
  mutex_lock ;;;
  pde <- load_pde (pd_index virtual) ;;
  if negb (has_flag pde PAGE_FLAG_PRESENT) then mutex_unlock ;;; ret 0
  else
    e <- load32 (Z.land pde FRAME_MASK + 4 * pt_index virtual) ;;
    mutex_unlock ;;;
    ret (Z.land e 0xFFF).

Definition paging_update_flags (virtual flags : Z) : M machine Z :=
  mutex_lock ;;;
  pde <- load_pde (pd_index virtual) ;;
  if negb (has_flag pde PAGE_FLAG_PRESENT) then mutex_unlock ;;; ret (-1)
  else
    let entry := Z.land pde FRAME_MASK + 4 * pt_index virtual in
    e <- load32 entry ;;
    if negb (has_flag e PAGE_FLAG_PRESENT) then mutex_unlock ;;; ret (-1)
    else
      region <- get_protected_region virtual ;;
      match region with
      | Some _ => mutex_unlock ;;; ret (-1)
      | None =>
          e <- load32 entry ;;
          let phys_addr := Z.land e FRAME_MASK in
          store32 entry (Z.lor phys_addr (Z.land flags 0xFFF)) ;;;
          flush_tlb_entry virtual ;;;
          mutex_unlock ;;;
          ret 0
      end.

Definition get_physical_address (virtual : Z) : M machine Z :=
  mutex_lock ;;;
  let offset := Z.land virtual 0xFFF in
  pde <- load_pde (pd_index virtual) ;;
  if negb (has_flag pde PAGE_FLAG_PRESENT) then mutex_unlock ;;; ret 0
  else
    e <- load32 (Z.land pde FRAME_MASK + 4 * pt_index virtual) ;;
    if negb (has_flag e PAGE_FLAG_PRESENT) then mutex_unlock ;;; ret 0
    else mutex_unlock ;;; ret (Z.lor (Z.land e FRAME_MASK) offset).

(** ** Address spaces *)

Definition paging_create_address_space (kernel_accessible : bool) : M machine Z :=
  mutex_lock ;;;
  new_dir_phys <- allocate_page ;;
  if new_dir_phys =? 0 then mutex_unlock ;;; ret 0
  else
    clear_page new_dir_phys ;;;
    (if kernel_accessible then
       mfor (seqZ 768 256) (fun i => e <- load_pde i ;; store32 (new_dir_phys + 4 * i) e)
     else ret tt) ;;;
    mutex_unlock ;;;
    ret new_dir_phys.

Definition paging_switch_address_space (page_directory : Z) : M machine unit :=
  mutex_lock ;;;
  if page_directory =? 0 then mutex_unlock
  else
    modify (set_cr3 page_directory) ;;;
    modify (set_current_page_directory page_directory) ;;;
    count (fun t => set_address_space_switches (u32 (address_space_switches t + 1)) t) ;;;
    mutex_unlock.

Definition paging_get_current_address_space : M machine Z := gets cr3.

(** A loop that ends at the first round that answers [false]. *)
Fixpoint all_rounds {S A} (l : list A) (body : A -> M S bool) : M S bool :=
  match l with
  | [] => ret true
  | a :: l' => ok <- body a ;; if (ok : bool) then all_rounds l' body else ret false
  end.

(** The tables of the new directory before [pd_idx] are freed, after a table is missing. *)
Definition free_tables (new_dir pd_idx : Z) : M machine unit :=
  mfor (seqZ 0 pd_idx) (fun i =>
    e <- load32 (new_dir + 4 * i) ;;
    if has_flag e PAGE_FLAG_PRESENT then free_page (Z.land e FRAME_MASK) else ret tt).

(** They are freed with their pages, after a page is missing. *)
Definition free_tables_and_pages (new_dir pd_idx pt_idx : Z) : M machine unit :=
  mfor (seqZ 0 pd_idx) (fun cleanup_pd =>
    e <- load32 (new_dir + 4 * cleanup_pd) ;;
    if has_flag e PAGE_FLAG_PRESENT then
      let cleanup_table := Z.land e FRAME_MASK in
      mfor (seqZ 0 PAGE_TABLE_ENTRIES) (fun cleanup_pt =>
        p <- load32 (cleanup_table + 4 * cleanup_pt) ;;
        if ((cleanup_pd <? pd_idx) || (cleanup_pt <? pt_idx)) && has_flag p PAGE_FLAG_PRESENT then
          free_page (Z.land p FRAME_MASK)
        else ret tt) ;;;
      e <- load32 (new_dir + 4 * cleanup_pd) ;;
      free_page (Z.land e FRAME_MASK)
    else ret tt).

(** One page of a table: shared and read-only, or copied. *)
Definition clone_page (copy_on_write : bool) (new_dir pd_idx src_table dst_table pt_idx : Z) : M machine bool :=
  let src := src_table + 4 * pt_idx in
  let dst := dst_table + 4 * pt_idx in
  e <- load32 src ;;
  if negb (has_flag e PAGE_FLAG_PRESENT) then store32 dst 0 ;;; ret true
  else if copy_on_write then
    let phys_addr := Z.land e FRAME_MASK in
    let new_flags := Z.land (Z.land e 0xFFF) READ_ONLY_MASK in
    store32 src (Z.land e READ_ONLY_MASK) ;;;
    let page_index := phys_addr / PAGE_SIZE in
    refs <- load_references page_index ;;
    store_references page_index (refs + 1) ;;;
    store32 dst (Z.lor phys_addr new_flags) ;;;
    ret true
  else
    new_page <- allocate_page ;;
    if new_page =? 0 then
      free_tables_and_pages new_dir pd_idx pt_idx ;;;
      free_page new_dir ;;;
      mutex_unlock ;;;
      ret false
    else
      e <- load32 src ;;
      copy_page new_page (Z.land e FRAME_MASK) ;;;
      e <- load32 src ;;
      store32 dst (Z.lor new_page (Z.land e 0xFFF)) ;;;
      ret true.

Definition clone_table (copy_on_write : bool) (new_dir pd_idx : Z) : M machine bool :=
  pde <- load_pde pd_idx ;;
  if negb (has_flag pde PAGE_FLAG_PRESENT) then ret true
  else
    let src_table := Z.land pde FRAME_MASK in
    new_table_phys <- allocate_page ;;
    if new_table_phys =? 0 then
      free_tables new_dir pd_idx ;;;
      free_page new_dir ;;;
      mutex_unlock ;;;
      ret false
    else
      pde <- load_pde pd_idx ;;
      store32 (new_dir + 4 * pd_idx) (Z.lor new_table_phys (Z.land pde 0xFFF)) ;;;
      all_rounds (seqZ 0 PAGE_TABLE_ENTRIES) (clone_page copy_on_write new_dir pd_idx src_table new_table_phys).

(** The entries of a directory, from the [i]th on. *)
Fixpoint read_directory (n : nat) (dir i : Z) : M machine (list Z) :=
  match n with
  | O => ret []
  | S n' => e <- load32 (dir + 4 * i) ;; l <- read_directory n' dir (i + 1) ;; ret (e :: l)
  end.

Definition paging_clone_address_space (copy_on_write : bool) : M machine Z :=
  mutex_lock ;;;
  new_dir_phys <- paging_create_address_space true ;;
  if new_dir_phys =? 0 then mutex_unlock ;;; ret 0
  else
    ok <- all_rounds (seqZ 0 768) (clone_table copy_on_write new_dir_phys) ;;
    if (ok : bool) then
      l <- read_directory 1024 new_dir_phys 0 ;;
      modify (set_shadow_page_directory l) ;;;
      mutex_unlock ;;;
      ret new_dir_phys
    else ret 0.

(** The first [i] pages are taken back. *)
Definition undo_user_pages (aligned_addr i : Z) : M machine unit :=
  mfor (seqZ 0 i) (fun j =>
    let virt := u32 (aligned_addr + j * PAGE_SIZE) in
    phys <- get_physical_address virt ;;
    unmap_page virt ;;;
    free_page phys).

Definition map_user_page (aligned_addr flags i : Z) : M machine bool :=
  phys_page <- allocate_page ;;
  if phys_page =? 0 then undo_user_pages aligned_addr i ;;; ret false
  else
    let virt_page := u32 (aligned_addr + i * PAGE_SIZE) in
    map_result <- paging_map_page phys_page virt_page flags ;;
    if negb (map_result =? 0) then
      free_page phys_page ;;;
      undo_user_pages aligned_addr i ;;;
      ret false
    else ret true.

Definition user_flags (writable executable : bool) : Z :=
  let flags := Z.lor PAGE_FLAG_PRESENT PAGE_FLAG_USER in
  let flags := if writable then Z.lor flags PAGE_FLAG_WRITABLE else flags in
  if negb executable then Z.lor flags PAGE_FLAG_GUARD else flags.

Definition paging_map_user_memory (virtual size : Z) (writable executable : bool) : M machine Z :=
  if 0xC0000000 <=? virtual then ret (-1)
  else
    let aligned_addr := Z.land virtual FRAME_MASK in
    let num_pages := u32 (u32 (virtual + size + PAGE_SIZE - 1) / PAGE_SIZE - aligned_addr / PAGE_SIZE) in
    ok <- all_rounds (seqZ 0 num_pages) (map_user_page aligned_addr (user_flags writable executable)) ;;
    if (ok : bool) then
      count (fun t => set_memory_mapped_regions (u32 (memory_mapped_regions t + 1)) t) ;;;
      ret 0
    else ret (-1).

(** ** Page faults *)

(** A read-only page that is shared, or was: [None] when it is neither. *)
Definition copy_on_write_fault (page_addr entry page_idx old_phys : Z) : M machine (option Z) :=
  refs <- load_references page_idx ;;
  if 1 <? refs then
    new_phys <- allocate_page ;;
    if new_phys =? 0 then mutex_unlock ;;; ret (Some (-1))
    else
      copy_page new_phys old_phys ;;;
      refs <- load_references page_idx ;;
      store_references page_idx (refs - 1) ;;;
      e <- load32 entry ;;
      store32 entry (Z.lor (Z.lor new_phys (Z.land e 0xFFF)) PAGE_FLAG_WRITABLE) ;;;
      flush_tlb_entry page_addr ;;;
      mutex_unlock ;;;
      ret (Some 0)
  else if refs =? 1 then
    e <- load32 entry ;;
    store32 entry (Z.lor e PAGE_FLAG_WRITABLE) ;;;
    flush_tlb_entry page_addr ;;;
    mutex_unlock ;;;
    ret (Some 0)
  else ret None.

(** A page the shadow directory has: [None] when it has not. *)
Definition demand_fault (page_addr entry pd_idx pt_idx : Z) (is_write : bool) : M machine (option Z) :=
  s <- get ;;
  shadow <- deref (arr_get (shadow_page_directory s) pd_idx) ;;
  if shadow =? 0 then ret None
  else
    let shadow_pt := Z.land shadow FRAME_MASK in
    if shadow_pt =? 0 then ret None
    else
      e <- load32 (shadow_pt + 4 * pt_idx) ;;
      if negb (has_flag e PAGE_FLAG_PRESENT) then ret None
      else
        new_phys <- allocate_page ;;
        if new_phys =? 0 then mutex_unlock ;;; ret (Some (-1))
        else
          e <- load32 (shadow_pt + 4 * pt_idx) ;;
          copy_page new_phys (Z.land e FRAME_MASK) ;;;
          e <- load32 (shadow_pt + 4 * pt_idx) ;;
          let flags := Z.lor (Z.land e 0xFFF) (if is_write then PAGE_FLAG_WRITABLE else 0) in
          store32 entry (Z.lor new_phys flags) ;;;
          flush_tlb_entry page_addr ;;;
          count (fun t => set_demand_pages_loaded (u32 (demand_pages_loaded t + 1)) t) ;;;
          mutex_unlock ;;;
          ret (Some 0).

Definition handle_page_fault (fault_addr : Z) (is_write : bool) : M machine Z :=
  let page_addr := Z.land fault_addr FRAME_MASK in
  let pd_idx := pd_index page_addr in
  let pt_idx := pt_index page_addr in
  mutex_lock ;;;
  pde <- load_pde pd_idx ;;
  if negb (has_flag pde PAGE_FLAG_PRESENT) then mutex_unlock ;;; ret (-1)
  else
    let entry := Z.land pde FRAME_MASK + 4 * pt_idx in
    e <- load32 entry ;;
    r <- (if has_flag e PAGE_FLAG_PRESENT && negb (has_flag e PAGE_FLAG_WRITABLE) && is_write then
            let old_phys := Z.land e FRAME_MASK in
            copy_on_write_fault page_addr entry (old_phys / PAGE_SIZE) old_phys
          else ret None) ;;
    match r with
    | Some r => ret r
    | None =>
        e <- load32 entry ;;
        r <- (if negb (has_flag e PAGE_FLAG_PRESENT) then demand_fault page_addr entry pd_idx pt_idx is_write else ret None) ;;
        match r with
        | Some r => ret r
        | None => mutex_unlock ;;; ret (-1)
        end
    end.

Section Handler.
Context (terminate_process : Z -> M machine unit).

Definition page_fault_handler (fault_addr error_code : Z) : M machine unit :=
  let present := negb (has_flag error_code 1) in
  let write := has_flag error_code 2 in
  let user := has_flag error_code 4 in
  count (fun t => set_page_faults (u32 (page_faults t + 1)) t) ;;;
  handled <- (if negb present && write then
                r <- handle_page_fault fault_addr write ;; ret (r =? 0)
              else ret false) ;;
  if (handled : bool) then count (fun t => set_cow_faults_handled (u32 (cow_faults_handled t + 1)) t)
  else if negb user then modify (set_halted true)
  else s <- get ;; terminate_process (current_process_id s).

End Handler.

(** ** Statistics *)

(** The members of [memory_stats] are eight words; [None] leaves the buffer as it is. *)
Definition paging_get_stats (size : Z) : M machine (option stats) :=
  mutex_lock ;;;
  s <- get ;;
  let r := if 32 <=? size then Some (memory_stats s) else None in
  mutex_unlock ;;;
  ret r.

Definition paging_reset_stats : M machine unit :=
  mutex_lock ;;;
  modify (set_memory_stats (mk_stats 0 0 0 0 0 0 0 0)) ;;;
  mutex_unlock.

End Paging.
