(* ===== verification/PagingInv.v ===== *)
(** * Paging: what the operations rely on

    [entry m d v] is the page table entry of the page [v] under the directory in frame
    [d]. [tables_ok] says that the directory and its tables lie in frames of their own and
    map the memory there is to itself; [sound] adds that these frames, and those of
    [page_info_array], are not free and that the count of free frames is right. In a sound
    state an access below the end of memory reaches the address it names
    ([sound_walk_low]). The lemmas say which changes of memory keep that, and what single
    accesses, allocating and freeing do. *)

From Stdlib Require Import ZArith Lia.
From stdpp Require Import base tactics option numbers list sets.
From S2P Require Import Prelude VmmInv Paging.

Set Default Goal Selector "!".
Local Open Scope Z_scope.
Local Open Scope kernel_scope.

Module PagingInv.
Import Paging.

(** ** Bits of entries *)

Definition present (e : Z) : bool := has_flag e PAGE_FLAG_PRESENT.

Lemma present_spec e : present e = Z.odd e.
Proof. apply VmmInv.present_odd. Qed.

Lemma land_mask e : 0 <= e < 2 ^ 32 -> Z.land e FRAME_MASK = e / 4096 * 4096.
Proof. apply VmmInv.land_frame. Qed.

Lemma land_low e : Z.land e 0xFFF = e mod 4096.
Proof. change 0xFFF with (Z.ones 12). by rewrite Z.land_ones by lia. Qed.

Lemma lor_low f fl : 0 <= fl < 4096 -> Z.lor (f * 4096) fl = f * 4096 + fl.
Proof. apply VmmInv.lor_flags. Qed.

Lemma pd_index_of v o : 0 <= o < 4096 -> pd_index (v * 4096 + o) = v / 1024.
Proof. apply VmmInv.pd_index_page. Qed.

Lemma pt_index_of v o : 0 <= o < 4096 -> pt_index (v * 4096 + o) = v mod 1024.
Proof. apply VmmInv.pt_index_page. Qed.

Lemma table_indices v : 0 <= v < 2 ^ 20 -> 0 <= v / 1024 < 1024 /\ 0 <= v mod 1024 < 1024.
Proof.
  intros Hv. split; [|apply Z.mod_pos_bound; lia].
  split; [apply Z.div_pos; lia|apply Z.div_lt_upper_bound; lia].
Qed.

Lemma page_of a : 0 <= a < 2 ^ 32 -> a = a / 4096 * 4096 + a mod 4096 /\ 0 <= a mod 4096 < 4096 /\ 0 <= a / 4096 < 2 ^ 20.
Proof.
  intros Ha. pose proof (Z.div_mod a 4096). pose proof (Z.mod_pos_bound a 4096).
  split; [lia|]. split; [lia|]. split; [apply Z.div_pos; lia|apply Z.div_lt_upper_bound; lia].
Qed.

(** A loop over numbers, with what holds before each round. *)
Lemma wp_mfor_seqZ {T} (I : Z -> T -> Prop) a n (body : Z -> M T unit) s : 0 <= n -> I a s ->
  (forall i s, a <= i < a + n -> I i s -> wp (body i) (fun _ s' => I (i + 1) s') s) ->
  wp (mfor (seqZ a n) body) (fun _ s' => I (a + n) s') s.
Proof.
  intros Hn. rewrite <- (Z2Nat.id n) by done. generalize (Z.to_nat n). clear n Hn. intros k. revert a s.
  induction k as [|k IH]; intros a s HI Hb.
  - rewrite Z.add_0_r. by apply wp_ret.
  - rewrite (seqZ_cons a) by lia. cbn [mfor]. wp_steps. eapply wp_mono; [apply Hb; [lia|done]|]. cbn beta. intros _ s' HI'.
    replace (Z.pred (Z.of_nat (S k))) with (Z.of_nat k) by lia. replace (a + Z.of_nat (S k)) with (Z.succ a + Z.of_nat k) by lia.
    apply IH; [done|]. intros i s1 Hi. apply Hb. lia.
Qed.

(** ** Page tables in memory *)

(** Word [i] of frame [f]. *)
Definition word (m : Z -> Z) (f i : Z) : Z := m (4096 * f + 4 * i).

Definition table_of (m : Z -> Z) (d v : Z) : Z := word m d (v / 1024) / 4096.
Definition entry (m : Z -> Z) (d v : Z) : Z := word m (table_of m d v) (v mod 1024).

(** The entry behind a page, if it is mapped. *)
Definition translation (m : Z -> Z) (d v : Z) : option Z :=
  if present (word m d (v / 1024)) && present (entry m d v) then Some (entry m d v) else None.

Definition table_frame (m : Z -> Z) (d f : Z) : Prop :=
  f = d \/ exists i, 0 <= i < 1024 /\ present (word m d i) = true /\ f = word m d i / 4096.

(** The array of [n] entries, and the frames it lies in. *)
Definition INFO : Z := 0x100000.
Definition info_frame (n f : Z) : Prop := INFO <= 4096 * f + 4095 /\ 4096 * f < INFO + 12 * n.

Record tables_ok (m : Z -> Z) (d n : Z) : Prop := mk_tables_ok {
  to_dir : 0 < d < n /\ ~ info_frame n d;
  to_tab : forall i, 0 <= i < 1024 -> present (word m d i) = true ->
    0 <= word m d i < 2 ^ 32 /\ 0 < word m d i / 4096 < n /\ word m d i / 4096 <> d /\ ~ info_frame n (word m d i / 4096);
  to_inj : forall i j, 0 <= i < 1024 -> 0 <= j < 1024 -> present (word m d i) = true -> present (word m d j) = true ->
    word m d i / 4096 = word m d j / 4096 -> i = j;
  to_id : forall v, 0 <= v < n -> exists e, translation m d v = Some e /\ e / 4096 = v /\ 0 <= e < 2 ^ 32;
}.

(** Memory that agrees on directory and tables. *)
Definition same_tables (d : Z) (m m' : Z -> Z) : Prop :=
  forall f i, table_frame m d f -> 0 <= i < 1024 -> word m' f i = word m f i.

Section Same.
Context {m m' : Z -> Z} {d : Z}.
Hypothesis Hs : same_tables d m m'.

Lemma same_dir i : 0 <= i < 1024 -> word m' d i = word m d i.
Proof. intros Hi. apply Hs; [by left|done]. Qed.

Lemma same_table_frame f : table_frame m' d f <-> table_frame m d f.
Proof. unfold table_frame. split; intros [?|(i & Hi & Hp & ->)]; try (by left); right; exists i; rewrite same_dir in *; done. Qed.

Lemma same_translation v : 0 <= v < 2 ^ 20 -> translation m' d v = translation m d v.
Proof.
  intros Hv. destruct (table_indices v Hv) as [Hi Hj]. unfold translation, entry, table_of. rewrite same_dir by done.
  destruct (present (word m d (v / 1024))) eqn:E; [|done]. rewrite Hs; [done| |done].
  right. by exists (v / 1024).
Qed.

Lemma same_tables_ok n : n <= 4096 -> tables_ok m d n -> tables_ok m' d n.
Proof.
  intros Hn [H1 H2 H3 H4]. split; [done|..].
  - intros i Hi. rewrite same_dir by done. by apply H2.
  - intros i j Hi Hj. rewrite !same_dir by done. by apply H3.
  - intros v Hv. rewrite same_translation by lia. by apply H4.
Qed.

End Same.

(** ** Entries of [page_info_array] *)

Definition info (m : Z -> Z) (i : Z) : Z := m (INFO + 12 * i).
Definition state (m : Z -> Z) (i : Z) : Z := state_of (info m i).
Definition refs (m : Z -> Z) (i : Z) : Z := references_of (info m i).

Definition is_free (m : Z -> Z) (i : Z) : bool := state m i =? PAGE_FREE.

(** The number of free frames among the first [n]. *)
Definition free_frames (m : Z -> Z) (n : Z) : Z := Z.of_nat (length (base.filter (fun i => is_free m i = true) (seqZ 0 n))).

(** Frames that may not be handed out. *)
Definition kept (m : Z -> Z) (d n f : Z) : Prop := f = 0 \/ table_frame m d f \/ info_frame n f.

Definition dir (s : machine) : Z := current_page_directory s / 4096.

Record sound (s : machine) : Prop := mk_sound {
  so_on : paging_on s = true;
  so_array : page_info_array s = INFO;
  so_size : 256 < total_pages s <= 4096 /\ 4096 * total_pages s <= memsize s /\ INFO + 12 * total_pages s <= 4096 * total_pages s;
  so_cr3 : current_page_directory s = 4096 * dir s /\ cr3 s = current_page_directory s;
  so_tables : tables_ok (mem s) (dir s) (total_pages s);
  so_kept : forall f, 0 <= f < total_pages s -> kept (mem s) (dir s) (total_pages s) f -> is_free (mem s) f = false;
  so_count : free_count s = free_frames (mem s) (total_pages s);
}.

(** ** Reaching memory *)

Lemma aligned a q : a = q * 4 -> a mod 4 = 0.
Proof. intros ->. apply Z.mod_mul. lia. Qed.

(** Addresses of the first [n] frames reach themselves. *)
Definition direct (s : machine) (n : Z) : Prop :=
  4096 * n <= memsize s /\ forall a, 0 <= a < 4096 * n -> walk s a = Some a.

Lemma direct_off s n : paging_on s = false -> 4096 * n <= memsize s -> direct s n.
Proof. intros Hp Hn. split; [done|]. intros a Ha. unfold walk. by rewrite Hp. Qed.

(** The processor finds what [translation] says. *)
Lemma tables_walk s v o :
  paging_on s = true -> cr3 s = 4096 * dir s -> tables_ok (mem s) (dir s) (total_pages s) ->
  total_pages s <= 4096 -> 4096 * total_pages s <= memsize s -> 0 <= v < 2 ^ 20 -> 0 <= o < 4096 ->
  walk s (v * 4096 + o) = (fun e => Z.lor (Z.land e FRAME_MASK) o) <$> translation (mem s) (dir s) v.
Proof.
  intros Hon Hcr Ht Hn Hm Hv Ho. destruct (table_indices v Hv) as [Hi Hj]. destruct (to_dir _ _ _ Ht) as [Hd _].
  unfold walk. rewrite Hon, Hcr, pd_index_of, pt_index_of by done. cbn [negb].
  rewrite land_mask by lia. rewrite (Z.mul_comm 4096 (dir s)), Z.div_mul, (Z.mul_comm (dir s)) by lia.
  replace (in_ram s (4096 * dir s + 4 * (v / 1024)) 4) with true.
  2: { symmetry. unfold in_ram. apply andb_true_iff. split; apply Z.leb_le; lia. }
  cbn [negb]. fold (present (mem s (4096 * dir s + 4 * (v / 1024)))). fold (word (mem s) (dir s) (v / 1024)).
  unfold translation. destruct (present (word (mem s) (dir s) (v / 1024))) eqn:Ep; [|done]. cbn [negb andb].
  destruct (to_tab _ _ _ Ht _ Hi Ep) as (Hr & Hf & _). rewrite land_mask by done.
  fold (table_of (mem s) (dir s) v) in Hf. fold (table_of (mem s) (dir s) v). rewrite (Z.mul_comm (table_of _ _ _)).
  replace (in_ram s (4096 * table_of (mem s) (dir s) v + 4 * (v mod 1024)) 4) with true.
  2: { symmetry. unfold in_ram. apply andb_true_iff. split; apply Z.leb_le; lia. }
  cbn [negb]. fold (word (mem s) (table_of (mem s) (dir s) v) (v mod 1024)). fold (entry (mem s) (dir s) v).
  fold (present (entry (mem s) (dir s) v)). destruct (present (entry (mem s) (dir s) v)); [|done]. cbn [negb fmap option_fmap option_map].
  do 2 f_equal. rewrite land_low, Z.add_comm, Z.mod_add, Z.mod_small; lia.
Qed.

Lemma tables_direct s :
  paging_on s = true -> cr3 s = 4096 * dir s -> tables_ok (mem s) (dir s) (total_pages s) ->
  total_pages s <= 4096 -> 4096 * total_pages s <= memsize s -> direct s (total_pages s).
Proof.
  intros Hon Hcr Ht Hn Hm. split; [done|]. intros a Ha. destruct (page_of a ltac:(lia)) as (Ea & Ho & Hv).
  assert (0 <= a / 4096 < total_pages s) as Hv' by lia. rewrite Ea at 1. rewrite tables_walk by done.
  destruct (to_id _ _ _ Ht _ Hv') as (e & -> & Ee & He). cbn. rewrite land_mask, Ee, lor_low by done. by f_equal.
Qed.

Lemma sound_direct s : sound s -> direct s (total_pages s).
Proof. intros [H1 H2 (H3 & H3' & _) [H4 H4'] H5 _ _]. apply tables_direct; [done|lia|done|lia|done]. Qed.

Section Access.
Context {s : machine} {n : Z} (Hd : direct s n).

Lemma wp_access a k Q : 0 <= a -> 0 < k -> a + k <= 4096 * n -> a mod k = 0 -> Q a s -> wp (access a k) Q s.
Proof.
  intros Ha Hk Hb Hmod HQ. unfold access. wp_steps. destruct Hd as [Hm Hw]. rewrite Hw by lia. cbn [deref]. wp_steps.
  replace ((a mod k =? 0) && in_ram s a k) with true; [done|]. symmetry. unfold in_ram.
  apply andb_true_iff. split; [by apply Z.eqb_eq|]. apply andb_true_iff. split; apply Z.leb_le; lia.
Qed.

Lemma wp_load32 a Q : 0 <= a -> a + 4 <= 4096 * n -> a mod 4 = 0 -> Q (mem s a) s -> wp (load32 a) Q s.
Proof. intros Ha Hb Hm HQ. unfold load32. wp_steps. apply wp_access; [done|lia|done|done|]. by wp_steps. Qed.

Definition stored (m : Z -> Z) (a v : Z) : Z -> Z := fun x => if x =? a then v else m x.

Lemma wp_store32 a v Q : 0 <= a -> a + 4 <= 4096 * n -> a mod 4 = 0 ->
  Q tt (set_mem (stored (mem s) a v) s) -> wp (store32 a v) Q s.
Proof. intros Ha Hb Hm HQ. unfold store32. wp_steps. apply wp_access; [done|lia|done|done|]. by wp_steps. Qed.

Definition cleared (m : Z -> Z) (f : Z) : Z -> Z :=
  fun x => if (4096 * f <=? x) && (x <? 4096 * f + PAGE_SIZE) then 0 else m x.
Definition copied (m : Z -> Z) (f g : Z) : Z -> Z :=
  fun x => if (4096 * f <=? x) && (x <? 4096 * f + PAGE_SIZE) then m (4096 * g + (x - 4096 * f)) else m x.

Lemma wp_clear_page f Q : 0 <= f < n -> Q tt (set_mem (cleared (mem s) f) s) -> wp (clear_page (4096 * f)) Q s.
Proof.
  intros Hf HQ. unfold clear_page. wp_steps. apply wp_access; unfold PAGE_SIZE; try lia.
  - rewrite Z.mul_comm. apply Z.mod_mul. lia.
  - by wp_steps.
Qed.

Lemma wp_copy_page f g Q : 0 <= f < n -> 0 <= g < n -> Q tt (set_mem (copied (mem s) f g) s) ->
  wp (copy_page (4096 * f) (4096 * g)) Q s.
Proof.
  intros Hf Hg HQ. unfold copy_page. wp_steps. apply wp_access; unfold PAGE_SIZE; try lia.
  { rewrite Z.mul_comm. apply Z.mod_mul. lia. }
  wp_steps. apply wp_access; unfold PAGE_SIZE; try lia.
  { rewrite Z.mul_comm. apply Z.mod_mul. lia. }
  by wp_steps.
Qed.

End Access.

(** ** Changes of memory *)

(** Only frames in [P] change. *)
Definition only (P : Z -> Prop) (m m' : Z -> Z) : Prop := forall x, ~ P (x / 4096) -> m' x = m x.

Lemma only_trans (P : Z -> Prop) m1 m2 m3 : only P m1 m2 -> only P m2 m3 -> only P m1 m3.
Proof. intros H1 H2 x Hx. by rewrite H2, H1. Qed.

Lemma only_mono (P P' : Z -> Prop) m m' : (forall f, P f -> P' f) -> only P m m' -> only P' m m'.
Proof. intros Hi H x Hx. apply H. intros Hp. by apply Hx, Hi. Qed.

Lemma word_frame f i : 0 <= i < 1024 -> (4096 * f + 4 * i) / 4096 = f.
Proof. intros Hi. rewrite Z.mul_comm, Z.div_add_l, Z.div_small; lia. Qed.

Lemma only_word (P : Z -> Prop) m m' f i : only P m m' -> ~ P f -> 0 <= i < 1024 -> word m' f i = word m f i.
Proof. intros Ho Hf Hi. unfold word. apply Ho. by rewrite word_frame. Qed.

Lemma only_same_tables (P : Z -> Prop) m m' d : only P m m' -> (forall f, P f -> ~ table_frame m d f) -> same_tables d m m'.
Proof. intros Ho Hp f i Hf Hi. apply (only_word P); [done| |done]. intros H. by eapply Hp. Qed.

Lemma only_stored (P : Z -> Prop) m a v : P (a / 4096) -> only P m (stored m a v).
Proof. intros Ha x Hx. unfold stored. by destruct (Z.eqb_spec x a) as [->|]. Qed.

Lemma frame_bounds f x : 4096 * f <= x < 4096 * f + 4096 -> x / 4096 = f.
Proof. intros Hx. symmetry. apply Z.div_unique with (x - 4096 * f); lia. Qed.

Lemma only_cleared (P : Z -> Prop) m f : P f -> only P m (cleared m f).
Proof.
  intros Hf x Hx. unfold cleared, PAGE_SIZE. destruct (_ && _) eqn:E; [|done]. bools. destruct Hx. by rewrite (frame_bounds f) by lia.
Qed.

Lemma only_copied (P : Z -> Prop) m f g : P f -> only P m (copied m f g).
Proof.
  intros Hf x Hx. unfold copied, PAGE_SIZE. destruct (_ && _) eqn:E; [|done]. bools. destruct Hx. by rewrite (frame_bounds f) by lia.
Qed.

Lemma cleared_word m f i : 0 <= i < 1024 -> word (cleared m f) f i = 0.
Proof. intros Hi. unfold word, cleared, PAGE_SIZE. destruct (_ && _) eqn:E; [done|]. apply andb_false_iff in E as [?|?]; bools; lia. Qed.

Lemma copied_word m f g i : 0 <= i < 1024 -> word (copied m f g) f i = word m g i.
Proof.
  intros Hi. unfold word, copied, PAGE_SIZE. destruct (_ && _) eqn:E; [f_equal; lia|]. apply andb_false_iff in E as [?|?]; bools; lia.
Qed.

Lemma stored_word m f i v f' i' : 0 <= i < 1024 -> 0 <= i' < 1024 ->
  word (stored m (4096 * f + 4 * i) v) f' i' = if decide (f' = f /\ i' = i) then v else word m f' i'.
Proof. apply VmmInv.word_write. Qed.

(** *** The array *)

Lemma info_address n i k : 0 <= i < n -> 0 <= k < 12 -> info_frame n ((INFO + 12 * i + k) / 4096).
Proof.
  intros Hi Hk. unfold info_frame. pose proof (Z.div_mod (INFO + 12 * i + k) 4096). pose proof (Z.mod_pos_bound (INFO + 12 * i + k) 4096). lia.
Qed.

Lemma only_info (P : Z -> Prop) m m' n i : only P m m' -> (forall f, P f -> ~ info_frame n f) -> 0 <= i < n -> info m' i = info m i.
Proof.
  intros Ho Hp Hi. unfold info. apply Ho. intros H. apply (Hp _ H).
  replace (INFO + 12 * i) with (INFO + 12 * i + 0) by lia. apply info_address; lia.
Qed.

Lemma info_stored m i v j : info (stored m (INFO + 12 * i) v) j = if decide (j = i) then v else info m j.
Proof. unfold info, stored. destruct (Z.eqb_spec (INFO + 12 * j) (INFO + 12 * i)); case_decide; try done; lia. Qed.

Lemma info_stored_rest m i k v j : 0 < k < 12 -> info (stored m (INFO + 12 * i + k) v) j = info m j.
Proof. intros Hk. unfold info, stored. destruct (Z.eqb_spec (INFO + 12 * j) (INFO + 12 * i + k)); [lia|done]. Qed.

(** Storing into the array keeps the way to memory. *)
Definition steady (s : machine) (n : Z) : Prop :=
  page_info_array s = INFO /\ INFO + 12 * n <= 4096 * n /\
  forall m', only (info_frame n) (mem s) m' -> direct (set_mem m' s) n.

Lemma steady_direct s n : steady s n -> direct s n.
Proof. intros (_ & _ & H). specialize (H (mem s) ltac:(by intros ?)). by destruct s. Qed.

Lemma steady_mem s n m' : steady s n -> only (info_frame n) (mem s) m' -> steady (set_mem m' s) n.
Proof.
  intros (H1 & H2 & H3) Ho. split; [done|]. split; [done|]. intros m'' Ho'. apply (H3 m''). by eapply only_trans.
Qed.

Lemma steady_off s n : paging_on s = false -> page_info_array s = INFO -> 4096 * n <= memsize s -> INFO + 12 * n <= 4096 * n -> steady s n.
Proof. intros Hp Ha Hm Hr. split; [done|]. split; [done|]. intros m' _. by apply direct_off. Qed.

Lemma sound_same_tables s m' : sound s -> only (info_frame (total_pages s)) (mem s) m' -> same_tables (dir s) (mem s) m'.
Proof.
  intros Hs Ho. eapply only_same_tables; [exact Ho|]. intros f Hf [->|(i & Hi & Hp & ->)].
  - by destruct (to_dir _ _ _ (so_tables _ Hs)).
  - by destruct (to_tab _ _ _ (so_tables _ Hs) i Hi Hp) as (_ & _ & _ & ?).
Qed.

Lemma tables_steady s : paging_on s = true -> page_info_array s = INFO -> total_pages s <= 4096 ->
  4096 * total_pages s <= memsize s -> INFO + 12 * total_pages s <= 4096 * total_pages s -> cr3 s = 4096 * dir s ->
  tables_ok (mem s) (dir s) (total_pages s) -> steady s (total_pages s).
Proof.
  intros Hon Ha Hn Hm Hr Hcr Ht. split; [done|]. split; [done|]. intros m' Ho.
  apply (tables_direct (set_mem m' s)); try done. cbn. change (dir (set_mem m' s)) with (dir s). eapply same_tables_ok; [|lia|done].
  eapply only_same_tables; [exact Ho|]. intros f Hf [->|(i & Hi & Hp & ->)]; [by destruct (to_dir _ _ _ Ht)|].
  by destruct (to_tab _ _ _ Ht i Hi Hp) as (_ & _ & _ & ?).
Qed.

Lemma sound_steady s : sound s -> steady s (total_pages s).
Proof. intros [H1 H2 (H3 & H3' & H3'') [H4 H4'] H5 _ _]. apply tables_steady; try done; [lia|congruence]. Qed.

Section Array.
Context {s : machine} {n : Z} (Hs : steady s n).

Lemma wp_load_state i Q : 0 <= i < n -> Q (state (mem s) i) s -> wp (load_state i) Q s.
Proof.
  intros Hi HQ. unfold load_state, info_at. wp_steps. destruct Hs as (-> & Hr & _).
  apply (wp_load32 (steady_direct _ _ Hs)); unfold INFO in *; [lia|lia|..].
  - apply (aligned _ (0x40000 + 3 * i)). lia.
  - by wp_steps.
Qed.

Lemma wp_load_references i Q : 0 <= i < n -> Q (refs (mem s) i) s -> wp (load_references i) Q s.
Proof.
  intros Hi HQ. unfold load_references, info_at. wp_steps. destruct Hs as (-> & Hr & _).
  apply (wp_load32 (steady_direct _ _ Hs)); unfold INFO in *; [lia|lia|..].
  - apply (aligned _ (0x40000 + 3 * i)). lia.
  - by wp_steps.
Qed.

Lemma wp_store_info i k v Q : 0 <= i < n -> k = 0 \/ k = 4 \/ k = 8 ->
  (steady (set_mem (stored (mem s) (INFO + 12 * i + k) v) s) n -> Q tt (set_mem (stored (mem s) (INFO + 12 * i + k) v) s)) ->
  wp (store32 (INFO + 12 * i + k) v) Q s.
Proof.
  intros Hi Hk HQ. pose proof Hs as (_ & Hr & _). apply (wp_store32 (steady_direct _ _ Hs)); unfold INFO in *; [lia|lia|..].
  - destruct Hk as [->|[->| ->]]; [apply (aligned _ (0x40000 + 3 * i))|apply (aligned _ (0x40001 + 3 * i))|apply (aligned _ (0x40002 + 3 * i))]; lia.
  - apply HQ, steady_mem; [done|]. apply only_stored, info_address; lia.
Qed.

Lemma wp_change_info i (g : Z -> Z) Q : 0 <= i < n ->
  (steady (set_mem (stored (mem s) (INFO + 12 * i) (g (info (mem s) i))) s) n ->
   Q tt (set_mem (stored (mem s) (INFO + 12 * i) (g (info (mem s) i))) s)) ->
  wp (a <- info_at i ;; w <- load32 a ;; store32 a (g w)) Q s.
Proof.
  intros Hi HQ. pose proof Hs as (Ha & Hr & _). unfold info_at. wp_steps. rewrite Ha.
  apply (wp_load32 (steady_direct _ _ Hs)); unfold INFO in *; [lia|lia|..].
  { apply (aligned _ (0x40000 + 3 * i)). lia. }
  wp_steps. replace (0x100000 + 12 * i) with (INFO + 12 * i + 0) by (unfold INFO; lia). apply wp_store_info; [done|by left|].
  replace (INFO + 12 * i + 0) with (INFO + 12 * i) by lia. done.
Qed.

End Array.

(** *** An entry is written by [allocate_page] *)

Definition marked (m : Z -> Z) (i pid : Z) : Z -> Z :=
  let m1 := stored m (INFO + 12 * i) (info m i - info m i mod 256 + PAGE_USED) in
  let m2 := stored m1 (INFO + 12 * i) (info m1 i mod 65536 + 65536 * u16 1) in
  let m3 := stored m2 (INFO + 12 * i + 4) (Z.lor PAGE_FLAG_PRESENT PAGE_FLAG_WRITABLE) in
  if pid =? 0 then m3 else stored m3 (INFO + 12 * i + 8) pid.

Lemma wp_mark_used s n i Q : steady s n -> 0 <= i < n ->
  (steady (set_mem (marked (mem s) i (current_process_id s)) s) n -> Q tt (set_mem (marked (mem s) i (current_process_id s)) s)) ->
  wp (mark_used i) Q s.
Proof.
  intros Hs Hi HQ. unfold mark_used. wp_steps. apply (wp_change_info Hs i (fun w => w - w mod 256 + PAGE_USED)); [done|]. intros H1.
  wp_steps. apply (wp_change_info H1 i (fun w => w mod 65536 + 65536 * u16 1)); [done|]. intros H2.
  wp_steps. unfold store_flags, info_at at 1. wp_steps. cbn [page_info_array set_mem]. pose proof Hs as (Ha & _ & _). rewrite Ha.
  apply (wp_store_info H2); [done|lia|]. intros H3. wp_steps. cbn [current_process_id set_mem mem] in *.
  revert HQ. unfold marked. destruct (current_process_id s =? 0); cbn [negb]; intros HQ; wp_steps; [by apply HQ|].
  unfold store_owner, info_at. wp_steps. cbn [page_info_array set_mem]. rewrite Ha.
  apply (wp_store_info H3); [done|lia|]. by apply HQ.
Qed.

Lemma marked_info m i pid j :
  info (marked m i pid) j = if decide (j = i) then (info m i - info m i mod 256 + 1) mod 65536 + 65536 else info m j.
Proof.
  unfold marked. destruct (pid =? 0); rewrite ?(info_stored_rest _ _ 8), (info_stored_rest _ _ 4), !info_stored by lia;
    (repeat case_decide; [done|done|done]).
Qed.

Lemma marked_only m i pid n : 0 <= i < n -> only (info_frame n) m (marked m i pid).
Proof.
  intros Hi. assert (forall k, 0 <= k < 12 -> info_frame n ((INFO + 12 * i + k) / 4096)) as Hk by (intros; by apply info_address).
  pose proof (Hk 0 ltac:(lia)) as H0. rewrite Z.add_0_r in H0.
  unfold marked. destruct (pid =? 0); repeat (eapply only_trans; [|by apply only_stored, Hk]); repeat (eapply only_trans; [|by apply only_stored]); by intros ?.
Qed.

Lemma marked_state m i pid : state (marked m i pid) i = PAGE_USED.
Proof.
  unfold state, state_of. rewrite marked_info. case_decide; [|done]. set (w := info m i). symmetry.
  apply Z.mod_unique_pos with (w / 256 - 256 * ((w - w mod 256 + 1) / 65536) + 256); [done|].
  rewrite (Z.mod_eq _ 65536), (Z.mod_eq w 256) by lia. unfold PAGE_USED. lia.
Qed.

Lemma marked_refs m i pid : refs (marked m i pid) i = 1.
Proof.
  unfold refs, references_of. rewrite marked_info. case_decide; [|done].
  rewrite <- (Z.mul_1_l 65536) at 2. rewrite Z.div_add by lia. rewrite Z.div_small; [done|]. apply Z.mod_pos_bound. lia.
Qed.

(** ** Counting *)

Lemma count_same (P P' : Z -> bool) (l : list Z) : (forall g, g ∈ l -> P' g = P g) ->
  length (base.filter (fun i => P' i = true) l) = length (base.filter (fun i => P i = true) l).
Proof.
  induction l as [|g l IH]; intros H; [done|]. rewrite !filter_cons, (H g) by set_solver.
  specialize (IH ltac:(set_solver)). case_decide; cbn; lia.
Qed.

Lemma count_const (b : bool) (l : list Z) : length (base.filter (fun _ => b = true) l) = if b then length l else 0%nat.
Proof.
  induction l as [|x l IH]; [by destruct b|]. rewrite filter_cons. destruct b.
  - rewrite decide_True by done. cbn. by rewrite IH.
  - rewrite decide_False by done. exact IH.
Qed.

Lemma count_one (P P' : Z -> bool) (l : list Z) f : NoDup l -> f ∈ l -> P f = true -> P' f = false ->
  (forall g, g ∈ l -> g <> f -> P' g = P g) ->
  length (base.filter (fun i => P i = true) l) = S (length (base.filter (fun i => P' i = true) l)).
Proof.
  intros Hnd Hf HP HP' Hg. destruct (list_elem_of_split _ _ Hf) as (l1 & l2 & ->).
  apply NoDup_app in Hnd as (H1 & H12 & H2). apply NoDup_cons in H2 as [H2 _].
  rewrite !filter_app, !filter_cons, !length_app. rewrite HP, HP'.
  case_decide; [|done]. case_decide; [done|]. cbn. rewrite !(count_same P P'); [lia|..]; intros g Hgl; apply Hg; set_solver.
Qed.

Lemma free_frames_one m m' n f : 0 <= f < n -> is_free m f = true -> is_free m' f = false ->
  (forall g, 0 <= g < n -> g <> f -> is_free m' g = is_free m g) -> free_frames m n = free_frames m' n + 1.
Proof.
  intros Hf H1 H2 H3. unfold free_frames. rewrite (count_one (is_free m) (is_free m') _ f); [lia| | |done|done|].
  - apply NoDup_seqZ.
  - apply elem_of_seqZ. lia.
  - intros g Hg. apply elem_of_seqZ in Hg. apply H3. lia.
Qed.

Lemma free_frames_same m m' n : (forall g, 0 <= g < n -> is_free m' g = is_free m g) -> free_frames m' n = free_frames m n.
Proof.
  intros H. unfold free_frames. rewrite (count_same (is_free m)); [done|]. intros g Hg. apply elem_of_seqZ in Hg. apply H. lia.
Qed.

Lemma free_frames_none m n : (forall g, 0 <= g < n -> is_free m g = false) -> free_frames m n = 0.
Proof.
  intros H. unfold free_frames. rewrite (count_same (fun _ => false)), count_const; [done|]. intros g Hg%elem_of_seqZ. apply H. lia.
Qed.

Lemma free_frames_range m n : 0 <= n -> 0 <= free_frames m n <= n.
Proof. intros Hn. unfold free_frames. pose proof (length_filter (fun i => is_free m i = true) (seqZ 0 n)) as H. rewrite length_seqZ in H. lia. Qed.

(** ** Sound states *)

(** The members no operation on frames and mappings changes. *)
Record fixed (s s' : machine) : Prop := mk_fixed {
  fx_size : memsize s' = memsize s;
  fx_cr3 : cr3 s' = cr3 s;
  fx_on : paging_on s' = paging_on s;
  fx_dir : current_page_directory s' = current_page_directory s;
  fx_array : page_info_array s' = page_info_array s;
  fx_total : total_pages s' = total_pages s;
  fx_shadow : shadow_page_directory s' = shadow_page_directory s;
  fx_regions : protected_regions s' = protected_regions s;
  fx_pid : current_process_id s' = current_process_id s;
  fx_mutex : paging_mutex s' = paging_mutex s;
}.

#[export] Instance fixed_preorder : PreOrder fixed.
Proof. split; [by intros s; split|]. intros s1 s2 s3 H1 H2. destruct H1, H2. split; congruence. Qed.

Lemma sound_change s s' :
  sound s -> total_pages s' = total_pages s -> memsize s' = memsize s -> cr3 s' = cr3 s -> paging_on s' = paging_on s ->
  current_page_directory s' = current_page_directory s -> page_info_array s' = page_info_array s ->
  tables_ok (mem s') (dir s) (total_pages s) ->
  (forall f, 0 <= f < total_pages s -> kept (mem s') (dir s) (total_pages s) f -> is_free (mem s') f = false) ->
  free_count s' = free_frames (mem s') (total_pages s) -> sound s'.
Proof.
  intros [H1 H2 H3 H4 H5 H6 H7] E1 E2 E3 E4 E5 E6 Ht Hk Hc. assert (dir s' = dir s) as Ed by (unfold dir; by rewrite E5).
  split; rewrite ?Ed, ?E1, ?E2, ?E3, ?E4, ?E5, ?E6; done.
Qed.

(** Members that do not matter. *)
Lemma sound_mutex s k : sound (set_paging_mutex k s) <-> sound s.
Proof. split; intros [H1 H2 H3 H4 H5 H6 H7]; by split. Qed.

Lemma sound_invalidated s l : sound (set_invalidated l s) <-> sound s.
Proof. split; intros [H1 H2 H3 H4 H5 H6 H7]; by split. Qed.

Lemma sound_stats s t : sound (set_memory_stats t s) <-> sound s.
Proof. split; intros [H1 H2 H3 H4 H5 H6 H7]; by split. Qed.

Lemma lock_unlock s : set_paging_mutex (paging_mutex s + 1 - 1) s = s.
Proof. destruct s. unfold set_paging_mutex. cbn. f_equal. lia. Qed.

Section Sound.
Context {s : machine} (Hs : sound s).

Let n := total_pages s.
Let d := dir s.

Lemma table_frame_range f : table_frame (mem s) d f -> 0 < f < n /\ ~ info_frame n f.
Proof.
  intros [->|(i & Hi & Hp & ->)]; [apply (to_dir _ _ _ (so_tables _ Hs))|].
  by destruct (to_tab _ _ _ (so_tables _ Hs) i Hi Hp) as (_ & ? & _ & ?).
Qed.

(** A frame that is free, or only one whose contents do not matter. *)
Lemma not_kept f : ~ kept (mem s) d n f -> f <> 0 /\ ~ table_frame (mem s) d f /\ ~ info_frame n f.
Proof. unfold kept. tauto. Qed.

Lemma free_not_kept f : 0 <= f < n -> is_free (mem s) f = true -> ~ kept (mem s) d n f.
Proof. intros Hf H Hk. rewrite (so_kept _ Hs f Hf Hk) in H. done. Qed.

(** Changes to the array and to a frame that may be handed out. *)
Lemma sound_tables f m' : ~ kept (mem s) d n f -> only (fun g => info_frame n g \/ g = f) (mem s) m' -> same_tables d (mem s) m'.
Proof.
  intros Hf Ho. apply not_kept in Hf as (_ & Hf & _). eapply only_same_tables; [exact Ho|].
  intros g [Hg| ->]; [|done]. intros Ht. by destruct (table_frame_range g Ht).
Qed.

Lemma sound_alloc f s' :
  0 <= f < n -> is_free (mem s) f = true -> fixed s s' ->
  only (fun g => info_frame n g \/ g = f) (mem s) (mem s') -> is_free (mem s') f = false ->
  (forall g, 0 <= g < n -> g <> f -> is_free (mem s') g = is_free (mem s) g) -> free_count s' = u32 (free_count s - 1) ->
  sound s'.
Proof.
  intros Hf Hfree Hx Ho Hf' Hg Hc. pose proof (free_not_kept f Hf Hfree) as Hk. pose proof (sound_tables f _ Hk Ho) as Hst.
  pose proof Hs as [_ _ (Hn & _) _ Ht Hkept Hcount]. destruct Hx. apply (sound_change s); try done.
  - eapply same_tables_ok; [done|lia|done].
  - intros g Hgr Hgk. destruct (Z.eq_dec g f) as [->|Hne]; [done|]. rewrite Hg by done. apply Hkept; [done|].
    destruct Hgk as [?|[Htf|?]]; [by left| |by right; right]. right; left. by apply (same_table_frame Hst).
  - pose proof (free_frames_one _ _ _ _ Hf Hfree Hf' Hg) as E. unfold n in E. rewrite Hc, Hcount, E.
    pose proof (free_frames_range (mem s') (total_pages s)). rewrite u32_small; lia.
Qed.

End Sound.

(** ** Allocating *)

Definition allocated (s : machine) (f : Z) : machine :=
  set_mem (cleared (marked (mem s) f (current_process_id s)) f)
    (set_memory_stats (set_pages_allocated (u32 (pages_allocated (memory_stats s) + 1)) (memory_stats s))
       (set_free_count (u32 (free_count s - 1)) s)).

Section Allocated.
Context {s : machine} (Hs : sound s) {f : Z}.

Let n := total_pages s.
Let d := dir s.

Hypothesis Hf : 0 <= f < n.
Hypothesis Hfree : is_free (mem s) f = true.

Lemma allocated_fixed : fixed s (allocated s f).
Proof. by split. Qed.

Lemma allocated_only : only (fun g => info_frame n g \/ g = f) (mem s) (mem (allocated s f)).
Proof.
  apply (only_trans _ _ (marked (mem s) f (current_process_id s))).
  - eapply only_mono; [|by apply (marked_only _ _ _ n)]. by left.
  - apply only_cleared. by right.
Qed.

Lemma allocated_info j : 0 <= j < n -> info (mem (allocated s f)) j = info (marked (mem s) f (current_process_id s)) j.
Proof.
  intros Hj. apply (only_info (fun g => g = f) _ _ n); [by apply only_cleared| |done]. intros g ->.
  by destruct (not_kept f (free_not_kept Hs f Hf Hfree)) as (_ & _ & ?).
Qed.

Lemma allocated_state : state (mem (allocated s f)) f = PAGE_USED.
Proof. unfold state. rewrite allocated_info by done. apply marked_state. Qed.

Lemma allocated_refs : refs (mem (allocated s f)) f = 1.
Proof. unfold refs. rewrite allocated_info by done. apply marked_refs. Qed.

Lemma allocated_other j : 0 <= j < n -> j <> f -> info (mem (allocated s f)) j = info (mem s) j.
Proof. intros Hj Hne. rewrite allocated_info, marked_info by done. by case_decide. Qed.

Lemma allocated_tables : same_tables d (mem s) (mem (allocated s f)).
Proof. eapply (sound_tables Hs f); [by apply (free_not_kept Hs)|apply allocated_only]. Qed.

Lemma allocated_zero i : 0 <= i < 1024 -> word (mem (allocated s f)) f i = 0.
Proof. apply cleared_word. Qed.

Lemma allocated_word g i : ~ info_frame n g -> g <> f -> 0 <= i < 1024 -> word (mem (allocated s f)) g i = word (mem s) g i.
Proof. intros Hg Hne Hi. eapply only_word; [apply allocated_only| |done]. by intros [?|?]. Qed.

Lemma allocated_sound : sound (allocated s f).
Proof.
  eapply (sound_alloc Hs f); [done|done|apply allocated_fixed|apply allocated_only|..]; [| |done].
  - unfold is_free. by rewrite allocated_state.
  - intros g Hg Hne. unfold is_free, state. by rewrite allocated_other.
Qed.

Lemma allocated_count : free_count (allocated s f) = free_count s - 1.
Proof.
  rewrite (so_count _ Hs), (so_count _ allocated_sound). change (total_pages (allocated s f)) with n. fold n.
  rewrite (free_frames_one (mem s) (mem (allocated s f)) n f); [lia|done|done|unfold is_free; by rewrite allocated_state|].
  intros g Hg Hne. unfold is_free, state. by rewrite allocated_other.
Qed.

End Allocated.

(** The loop of [allocate_page] takes the first free frame. *)
Lemma allocate_from_first s n k i f Q :
  steady s n -> n <= 2 ^ 20 -> i + Z.of_nat k = n -> 0 <= i <= f -> f < n -> is_free (mem s) f = true ->
  (forall g, i <= g < f -> is_free (mem s) g = false) ->
  Q (4096 * f) (set_paging_mutex (paging_mutex s - 1) (allocated s f)) -> wp (allocate_from k i) Q s.
Proof.
  intros Hs Hn. revert i. induction k as [|k IH]; intros i Hik Hi Hf Hfree Hlow HQ; [lia|]. cbn [allocate_from].
  wp_steps. apply (wp_load_state Hs); [lia|]. fold (is_free (mem s) i). destruct (Z.eq_dec i f) as [->|Hne].
  - rewrite Hfree. wp_steps. apply (wp_mark_used _ _ _ _ Hs); [lia|]. intros Hst. unfold count, mutex_unlock. wp_steps.
    rewrite u32_small by (unfold PAGE_SIZE; lia). rewrite (Z.mul_comm f). change PAGE_SIZE with 4096.
    eapply (wp_clear_page (n := n)); [exact (steady_direct _ _ Hst)|lia|]. exact HQ.
  - rewrite (Hlow i) by lia. apply IH; [lia|lia|done|done| |done]. intros g Hg. apply Hlow. lia.
Qed.

Lemma allocate_from_none s n k i Q :
  steady s n -> i + Z.of_nat k = n -> 0 <= i -> (forall g, i <= g < n -> is_free (mem s) g = false) ->
  Q 0 (set_paging_mutex (paging_mutex s - 1) s) -> wp (allocate_from k i) Q s.
Proof.
  intros Hs. revert i. induction k as [|k IH]; intros i Hik Hi Hnone HQ; cbn [allocate_from]; [unfold mutex_unlock; by wp_steps|].
  wp_steps. apply (wp_load_state Hs); [lia|]. fold (is_free (mem s) i). rewrite (Hnone i) by lia. apply IH; [lia|lia| |done].
  intros g Hg. apply Hnone. lia.
Qed.

Lemma first_free_cases m n : 0 <= n -> (forall g, 0 <= g < n -> is_free m g = false) \/
  (exists f, 0 <= f < n /\ is_free m f = true /\ forall g, 0 <= g < f -> is_free m g = false).
Proof.
  intros Hn. rewrite <- (Z2Nat.id n) by done. generalize (Z.to_nat n). clear n Hn. intros k. induction k as [|k [IH|(f & Hf & H1 & H2)]].
  - left. lia.
  - destruct (is_free m (Z.of_nat k)) eqn:E; [right; exists (Z.of_nat k); split; [lia|]; split; [done|]; intros g Hg; apply IH; lia|].
    left. intros g Hg. destruct (Z.eq_dec g (Z.of_nat k)) as [->|]; [done|]. apply IH. lia.
  - right. exists f. split; [lia|done].
Qed.

Lemma allocate_first s n f Q :
  steady s n -> total_pages s = n -> n <= 2 ^ 20 -> 0 <= f < n -> is_free (mem s) f = true -> (forall g, 0 <= g < f -> is_free (mem s) g = false) ->
  Q (4096 * f) (allocated s f) -> wp allocate_page Q s.
Proof.
  intros Hs En Hn Hf Hfree Hlow HQ. unfold allocate_page, mutex_lock. wp_steps. cbn [total_pages set_paging_mutex]. rewrite En.
  apply (allocate_from_first _ n _ _ f); cbn [mem set_paging_mutex paging_mutex]; try done; [lia|lia|lia|].
  rewrite <- (lock_unlock (allocated s f)) in HQ. exact HQ.
Qed.

(** [allocate_page]: the lowest free frame, or 0 when there is none. *)
Lemma allocate_page_spec s Q :
  sound s ->
  ((forall g, 0 <= g < total_pages s -> is_free (mem s) g = false) -> Q 0 s) ->
  (forall f, 0 < f < total_pages s -> is_free (mem s) f = true -> (forall g, 0 <= g < f -> is_free (mem s) g = false) ->
     Q (4096 * f) (allocated s f)) ->
  wp allocate_page Q s.
Proof.
  intros Hs Hnone Hsome. pose proof (so_size _ Hs) as (Hn & _).
  destruct (first_free_cases (mem s) (total_pages s)) as [Hno|(f & Hf & Hfree & Hlow)]; [lia|..].
  - unfold allocate_page, mutex_lock. wp_steps. apply (allocate_from_none _ (total_pages s)); try done; [exact (sound_steady _ Hs)|cbn; lia|].
    specialize (Hnone Hno). by rewrite <- (lock_unlock s) in Hnone.
  - apply (allocate_first s _ f _ (sound_steady _ Hs)); try done; [lia|]. apply Hsome; [|done|done].
    assert (f <> 0) by (intros ->; rewrite (so_kept _ Hs 0) in Hfree; [done|lia|by left]). lia.
Qed.

(** ** Freeing *)

(** An entry is reset by [free_page]. *)
Definition unmarked (m : Z -> Z) (i : Z) : Z -> Z :=
  let m1 := stored m (INFO + 12 * i) (info m i - info m i mod 256 + PAGE_FREE) in
  let m2 := stored m1 (INFO + 12 * i) (info m1 i mod 65536 + 65536 * u16 0) in
  let m3 := stored m2 (INFO + 12 * i + 4) 0 in
  stored m3 (INFO + 12 * i + 8) 0.

Lemma unmarked_info m i j :
  info (unmarked m i) j = if decide (j = i) then (info m i - info m i mod 256) mod 65536 else info m j.
Proof.
  unfold unmarked. rewrite (info_stored_rest _ _ 8), (info_stored_rest _ _ 4), !info_stored by lia.
  repeat case_decide; [|done|done]. change (u16 0) with 0. unfold PAGE_FREE. rewrite Z.mul_0_r, !Z.add_0_r. done.
Qed.

Lemma unmarked_only m i n : 0 <= i < n -> only (info_frame n) m (unmarked m i).
Proof.
  intros Hi. assert (forall k, 0 <= k < 12 -> info_frame n ((INFO + 12 * i + k) / 4096)) as Hk by (intros; by apply info_address).
  pose proof (Hk 0 ltac:(lia)) as H0. rewrite Z.add_0_r in H0.
  unfold unmarked. do 2 (eapply only_trans; [|by apply only_stored, Hk]). do 2 (eapply only_trans; [|by apply only_stored]). by intros ?.
Qed.

Lemma unmarked_state m i : state (unmarked m i) i = PAGE_FREE.
Proof.
  unfold state, state_of. rewrite unmarked_info. case_decide; [|done]. set (w := info m i). symmetry.
  apply Z.mod_unique_pos with (w / 256 - 256 * ((w - w mod 256) / 65536)); [done|].
  rewrite (Z.mod_eq _ 65536), (Z.mod_eq w 256) by lia. unfold PAGE_FREE. lia.
Qed.

Definition freed (s : machine) (f : Z) : machine :=
  set_mem (cleared (unmarked (mem s) f) f)
    (set_memory_stats (set_pages_freed (u32 (pages_freed (memory_stats s) + 1)) (memory_stats s))
       (set_free_count (u32 (free_count s + 1)) s)).

(** Another number of references, and one less. *)
Definition with_refs (s : machine) (f x : Z) : machine :=
  set_mem (stored (mem s) (INFO + 12 * f) (info (mem s) f mod 65536 + 65536 * u16 x)) s.
Definition dropped (s : machine) (f : Z) : machine := with_refs s f (refs (mem s) f - 1).

Section Freed.
Context {s : machine} (Hs : sound s) {f : Z}.

Let n := total_pages s.
Let d := dir s.

Hypothesis Hf : 0 <= f < n.
Hypothesis Hk : ~ kept (mem s) d n f.

Lemma freed_fixed : fixed s (freed s f).
Proof. by split. Qed.

Lemma freed_only : only (fun g => info_frame n g \/ g = f) (mem s) (mem (freed s f)).
Proof.
  apply (only_trans _ _ (unmarked (mem s) f)).
  - eapply only_mono; [|by apply (unmarked_only _ _ n)]. by left.
  - apply only_cleared. by right.
Qed.

Lemma freed_tables : same_tables d (mem s) (mem (freed s f)).
Proof. eapply (sound_tables Hs f); [done|apply freed_only]. Qed.

Lemma freed_info j : 0 <= j < n -> info (mem (freed s f)) j = info (unmarked (mem s) f) j.
Proof.
  intros Hj. apply (only_info (fun g => g = f) _ _ n); [by apply only_cleared| |done]. intros g ->.
  by destruct (not_kept f Hk) as (_ & _ & ?).
Qed.

Lemma freed_free : is_free (mem (freed s f)) f = true.
Proof. unfold is_free, state. rewrite freed_info by done. fold (state (unmarked (mem s) f) f). by rewrite unmarked_state. Qed.

Lemma freed_other j : 0 <= j < n -> j <> f -> info (mem (freed s f)) j = info (mem s) j.
Proof. intros Hj Hne. rewrite freed_info, unmarked_info by done. by case_decide. Qed.

Lemma freed_word g i : ~ info_frame n g -> g <> f -> 0 <= i < 1024 -> word (mem (freed s f)) g i = word (mem s) g i.
Proof. intros Hg Hne Hi. eapply only_word; [apply freed_only| |done]. by intros [?|?]. Qed.

Lemma freed_sound : is_free (mem s) f = false -> sound (freed s f).
Proof.
  intros Hused. pose proof Hs as [_ _ (Hn & _) _ Ht Hkept Hcount]. apply (sound_change s); try done.
  - eapply same_tables_ok; [apply freed_tables|lia|done].
  - intros g Hg Hgk. fold n d in Hgk. assert (kept (mem s) d n g) as Hgk'.
    { destruct Hgk as [?|[Htf|?]]; [by left| |by right; right]. right; left. by apply (same_table_frame freed_tables). }
    destruct (Z.eq_dec g f) as [->|Hne]; [done|]. unfold is_free, state. rewrite freed_other by done. by apply Hkept.
  - assert (free_frames (mem (freed s f)) n = free_frames (mem s) n + 1) as E.
    { apply (free_frames_one _ _ _ f); [done|apply freed_free|done|]. intros g Hg Hne. unfold is_free, state. by rewrite freed_other. }
    fold n. rewrite E. cbn [free_count freed set_mem set_memory_stats set_free_count]. rewrite Hcount. fold n.
    pose proof (free_frames_range (mem s) n). rewrite u32_small; lia.
Qed.

End Freed.

(** [free_page] of a frame: nothing for a frame that is free or protected, one reference
    less for a frame that is shared, and the end of the frame otherwise. *)
Lemma free_page_spec s f Q :
  sound s -> 0 <= f < total_pages s ->
  (is_free (mem s) f = true -> Q tt s) ->
  (forall r, find_region (protected_regions s) (4096 * f) = Some r -> Q tt s) ->
  (is_free (mem s) f = false -> find_region (protected_regions s) (4096 * f) = None -> 1 < refs (mem s) f -> Q tt (dropped s f)) ->
  (is_free (mem s) f = false -> find_region (protected_regions s) (4096 * f) = None -> refs (mem s) f <= 1 -> Q tt (freed s f)) ->
  wp (free_page (4096 * f)) Q s.
Proof.
  intros Hs Hf Hfree Hreg Hshared Hlast. pose proof (so_size _ Hs) as (Hn & _).
  assert (forall s1, paging_mutex s1 = paging_mutex s -> Q tt s1 -> Q tt (set_paging_mutex (paging_mutex s + 1 - 1) s1)) as Hun.
  { intros s1 E HQ. rewrite <- E. by rewrite lock_unlock. }
  unfold free_page, mutex_lock, mutex_unlock. wp_steps. rewrite (Z.mul_comm 4096 f). unfold PAGE_SIZE. rewrite Z.div_mul by lia.
  destruct (Z.leb_spec (total_pages s) f) as [|_]; [lia|]. cbn [total_pages set_paging_mutex].
  destruct (Z.leb_spec (total_pages s) f) as [|_]; [lia|]. set (s0 := set_paging_mutex (paging_mutex s + 1) s).
  assert (sound s0) as Hs0 by (by apply sound_mutex). wp_steps. apply (wp_load_state (sound_steady _ Hs0)); [done|].
  change (mem s0) with (mem s). fold (is_free (mem s) f). destruct (is_free (mem s) f) eqn:E.
  { wp_steps. apply (Hun s); [done|by apply Hfree]. }
  unfold get_protected_region. wp_steps. change (protected_regions s0) with (protected_regions s). rewrite (Z.mul_comm f).
  destruct (find_region (protected_regions s) (4096 * f)) as [r|] eqn:Er.
  { wp_steps. apply (Hun s); [done|by apply (Hreg r)]. }
  wp_steps. apply (wp_load_references (sound_steady _ Hs0)); [done|]. change (mem s0) with (mem s).
  destruct (Z.ltb_spec 1 (refs (mem s) f)) as [Hr|Hr].
  - wp_steps. apply (wp_change_info (sound_steady _ Hs0) f (fun w => w mod 65536 + 65536 * u16 (refs (mem s) f - 1))); [done|].
    intros _. wp_steps. apply (Hun (dropped s f)); [done|by apply Hshared].
  - wp_steps. apply (wp_change_info (sound_steady _ Hs0) f (fun w => w - w mod 256 + PAGE_FREE)); [done|]. intros H1.
    wp_steps. apply (wp_change_info H1 f (fun w => w mod 65536 + 65536 * u16 0)); [done|]. intros H2.
    unfold store_flags, store_owner, info_at, count. wp_steps. cbn [page_info_array set_mem]. change (page_info_array s0) with (page_info_array s).
    rewrite (so_array _ Hs). apply (wp_store_info H2); [done|lia|]. intros H3. wp_steps. cbn [page_info_array set_mem].
    change (page_info_array s0) with (page_info_array s). rewrite (so_array _ Hs). apply (wp_store_info H3); [done|lia|]. intros H4. wp_steps.
    eapply (wp_clear_page (n := total_pages s)); [exact (steady_direct _ _ H4)|done|]. wp_steps. apply (Hun (freed s f)); [done|by apply Hlast].
Qed.

End PagingInv.
