(* ===== verification/PagingThms.v ===== *)
(** * Paging: theorems

    The page tables as a map from pages to entries, the copy a write to a shared page
    makes, memory for a user, and what the first allocations after [paging_init] do. *)

From Stdlib Require Import ZArith Lia.
From stdpp Require Import base tactics option numbers list sets.
From S2P Require Import Prelude Paging PagingInv.

Set Default Goal Selector "!".
Local Open Scope Z_scope.
Local Open Scope kernel_scope.

Module PagingThms.
Import Paging PagingInv.

(** ** Entries *)

Definition pte (e : Z) : option Z := if present e then Some e else None.

Lemma translation_pte m d v : translation m d v = if present (word m d (v / 1024)) then pte (entry m d v) else None.
Proof. unfold translation, pte. by destruct (present (word m d (v / 1024))). Qed.

Lemma page_split v v' : v / 1024 = v' / 1024 -> v mod 1024 = v' mod 1024 -> v = v'.
Proof. intros H1 H2. rewrite (Z.div_mod v 1024), (Z.div_mod v' 1024) by lia. lia. Qed.

Section Entry.
Context {m : Z -> Z} {d n : Z} (Ht : tables_ok m d n) (Hn : n <= 4096) {v : Z} (Hv : 0 <= v < 2 ^ 20).
Hypothesis Hp : present (word m d (v / 1024)) = true.

Let t := table_of m d v.

Lemma table_here : 0 <= word m d (v / 1024) < 2 ^ 32 /\ 0 < t < n /\ t <> d /\ ~ info_frame n t.
Proof. destruct (table_indices v Hv) as [Hi _]. by destruct (to_tab _ _ _ Ht _ Hi Hp) as (? & ? & ? & ?). Qed.

(** The entry of [v] is replaced. *)
Definition set_entry (e : Z) : Z -> Z := stored m (4096 * t + 4 * (v mod 1024)) e.

Lemma set_entry_only e : only (fun g => g = t) m (set_entry e).
Proof. destruct (table_indices v Hv) as [_ Hj]. apply only_stored. by apply word_frame. Qed.

Lemma set_entry_dir e i : 0 <= i < 1024 -> word (set_entry e) d i = word m d i.
Proof. intros Hi. destruct table_here as (_ & _ & Hd & _). eapply only_word; [apply set_entry_only| |done]. intros E. by destruct Hd. Qed.

Lemma set_entry_translation e v' : 0 <= v' < 2 ^ 20 ->
  translation (set_entry e) d v' = if decide (v' = v) then pte e else translation m d v'.
Proof.
  intros Hv'. destruct (table_indices v Hv) as [Hi Hj]. destruct (table_indices v' Hv') as [Hi' Hj'].
  rewrite !translation_pte. unfold entry, table_of. rewrite set_entry_dir by done.
  unfold set_entry. rewrite stored_word by done. fold (table_of m d v'). case_decide as Hx.
  - destruct Hx as [Hx1 Hx2]. case_decide as Hy; [by rewrite Hy, Hp|].
    destruct (present (word m d (v' / 1024))) eqn:Ep'; [|done]. destruct Hy. apply page_split; [|done].
    by apply (to_inj _ _ _ Ht).
  - case_decide as Hy; [|done]. subst v'. by destruct Hx.
Qed.

Lemma set_entry_table_frame e f : table_frame (set_entry e) d f <-> table_frame m d f.
Proof. unfold table_frame. split; intros [?|(i & Hi & Hpi & ->)]; try (by left); right; exists i; rewrite set_entry_dir in *; done. Qed.

Lemma set_entry_ok e : n <= v -> tables_ok (set_entry e) d n.
Proof.
  intros Hnv. destruct Ht as [H1 H2 H3 H4]. split; [done|..].
  - intros i Hi. rewrite set_entry_dir by done. by apply H2.
  - intros i j Hi Hj. rewrite !set_entry_dir by done. by apply H3.
  - intros v' Hv'. rewrite set_entry_translation by lia. case_decide; [lia|]. by apply H4.
Qed.

Lemma set_entry_info e j : 0 <= j < n -> info (set_entry e) j = info m j.
Proof. intros Hj. eapply only_info; [apply set_entry_only| |done]. intros g ->. apply table_here. Qed.

End Entry.

(** A new table in the frame [f]. *)
Section Table.
Context {m : Z -> Z} {d n : Z} (Ht : tables_ok m d n) (Hn : n <= 4096) {i f fl : Z}.
Hypothesis Hi : 0 <= i < 1024.
Hypothesis Hp : present (word m d i) = false.
Hypothesis Hf : 0 < f < n /\ ~ info_frame n f /\ ~ table_frame m d f.
Hypothesis Hzero : forall j, 0 <= j < 1024 -> word m f j = 0.
Hypothesis Hfl : 0 <= fl < 4096 /\ Z.odd fl = true.

Definition set_table : Z -> Z := stored m (4096 * d + 4 * i) (f * 4096 + fl).

Lemma table_pde : (f * 4096 + fl) / 4096 = f /\ present (f * 4096 + fl) = true.
Proof.
  split; [rewrite Z.div_add_l, Z.div_small; lia|]. rewrite present_spec, Z.odd_add, Z.odd_mul. destruct Hfl as [_ ->].
  by rewrite andb_false_r.
Qed.

Lemma set_table_word g j : 0 <= j < 1024 ->
  word set_table g j = if decide (g = d /\ j = i) then f * 4096 + fl else word m g j.
Proof. intros Hj. by apply stored_word. Qed.

Lemma set_table_translation v : 0 <= v < 2 ^ 20 -> translation set_table d v = translation m d v.
Proof.
  intros Hv. destruct (table_indices v Hv) as [Hvi Hvj]. destruct table_pde as [E1 E2].
  rewrite !translation_pte. unfold entry, table_of. rewrite set_table_word by done. case_decide as Hx.
  - destruct Hx as [_ Hx]. rewrite Hx, Hp, E1, E2, set_table_word by done. case_decide as Hy.
    + destruct Hf as (_ & _ & Hnf). destruct Hnf. left. apply Hy.
    + by rewrite Hzero.
  - destruct (present (word m d (v / 1024))) eqn:Ep; [|done]. rewrite set_table_word by done. case_decide as Hy; [|done].
    destruct Hy as [Hy _]. by destruct (to_tab _ _ _ Ht _ Hvi Ep) as (_ & _ & ? & _).
Qed.

Lemma set_table_frames g : table_frame set_table d g <-> g = f \/ table_frame m d g.
Proof.
  destruct table_pde as [E1 E2]. unfold table_frame. split.
  - intros [->|(j & Hj & Hpj & ->)]; [by right; left|]. rewrite set_table_word in * by done. case_decide as Hx.
    + left. by rewrite E1.
    + right. right. by exists j.
  - intros [->|[->|(j & Hj & Hpj & ->)]]; [|by left|].
    + right. exists i. rewrite set_table_word by done. case_decide as Hx; [|by destruct Hx]. by rewrite E1.
    + right. exists j. rewrite set_table_word by done. case_decide as Hx; [|done]. destruct Hx as [_ ->]. by rewrite Hp in Hpj.
Qed.

Lemma set_table_ok : tables_ok set_table d n.
Proof.
  destruct table_pde as [E1 E2]. destruct Hf as (Hfr & Hfi & Hft). pose proof Ht as [H1 H2 H3 H4].
  assert (forall j, 0 <= j < 1024 -> present (word m d j) = true -> word m d j / 4096 <> f) as Hother.
  { intros j Hj Hpj E. apply Hft. right. by exists j. }
  split; [done|..].
  - intros j Hj. rewrite set_table_word by done. case_decide as Hx; [|by apply H2]. intros _. rewrite E1.
    split; [lia|]. split; [done|]. split; [|done]. intros ->. apply Hft. by left.
  - intros j k Hj Hk. rewrite !set_table_word by done.
    case_decide as Hx; case_decide as Hy; [by destruct Hx as [_ ->], Hy as [_ ->]|..|by apply H3]; rewrite ?E1; intros Hpj Hpk E.
    + by destruct (Hother k).
    + by destruct (Hother j).
  - intros v Hv. rewrite set_table_translation by lia. by apply H4.
Qed.

Lemma set_table_info j : 0 <= j < n -> info set_table j = info m j.
Proof.
  intros Hj. apply (only_info (fun g => g = d) _ _ n); [|intros g ->; apply (to_dir _ _ _ Ht)|done].
  apply only_stored. by apply word_frame.
Qed.

End Table.

Arguments set_entry : clear implicits.
Arguments set_table : clear implicits.

(** ** Mappings of a state *)

Definition space (s : machine) (v : Z) : option Z := translation (mem s) (dir s) v.

(** Whether there is a table for the 4 MB with the index [i]. *)
Definition has_table (s : machine) (i : Z) : bool := present (word (mem s) (dir s) i).

(** Tables and free frames stay as they are; or the table [i] is there, and a frame was
    taken for it unless it was there before. *)
Definition same_frames (s s' : machine) : Prop :=
  (forall j, 0 <= j < 1024 -> has_table s' j = has_table s j) /\ free_count s' = free_count s.
Definition took_table (s : machine) (i : Z) (s' : machine) : Prop :=
  (forall j, 0 <= j < 1024 -> has_table s' j = has_table s j || (j =? i)) /\
  free_count s' = free_count s - (if has_table s i then 0 else 1).

Lemma same_took s i s' : has_table s i = true -> same_frames s s' -> took_table s i s'.
Proof.
  intros Hi [H1 H2]. split; [|rewrite Hi; lia]. intros j Hj. rewrite H1 by done. destruct (Z.eqb_spec j i) as [->|]; [by rewrite Hi|by rewrite orb_false_r].
Qed.

Lemma took_same s i s1 s2 : took_table s i s1 -> same_frames s1 s2 -> took_table s i s2.
Proof. intros [H1 H2] [H3 H4]. split; [intros j Hj; by rewrite H3, H1|congruence]. Qed.

Lemma same_tables_frames s s' : same_tables (dir s) (mem s) (mem s') -> dir s' = dir s -> free_count s' = free_count s -> same_frames s s'.
Proof. intros Ht Hd Hc. split; [|done]. intros j Hj. unfold has_table. by rewrite Hd, (same_dir Ht). Qed.

(** What a frame that is in use and holds data keeps, while more frames are taken. *)
Record grown (s s' : machine) : Prop := mk_grown {
  gr_fixed : fixed s s';
  gr_info : forall j, 0 <= j < total_pages s -> is_free (mem s) j = false -> info (mem s') j = info (mem s) j;
  gr_tab : forall f, table_frame (mem s') (dir s) f ->
    table_frame (mem s) (dir s) f \/ (0 <= f < total_pages s /\ is_free (mem s) f = true);
  gr_data : forall g i, 0 <= g < total_pages s -> is_free (mem s) g = false -> ~ kept (mem s) (dir s) (total_pages s) g ->
    0 <= i < 1024 -> word (mem s') g i = word (mem s) g i;
}.

Lemma grown_used s s' j : grown s s' -> 0 <= j < total_pages s -> is_free (mem s) j = false -> is_free (mem s') j = false.
Proof. intros Hg Hj Hf. unfold is_free, state. by rewrite (gr_info _ _ Hg). Qed.

Lemma fixed_dir s s' : fixed s s' -> dir s' = dir s.
Proof. intros H. unfold dir. by rewrite (fx_dir _ _ H). Qed.

Lemma grown_data s s' f : grown s s' -> 0 <= f < total_pages s -> is_free (mem s) f = false ->
  ~ kept (mem s) (dir s) (total_pages s) f -> ~ kept (mem s') (dir s') (total_pages s') f.
Proof.
  intros Hg Hf Hu Hk. rewrite (fixed_dir _ _ (gr_fixed _ _ Hg)), (fx_total _ _ (gr_fixed _ _ Hg)).
  intros [?|[H|?]]; [by destruct Hk; left| |by destruct Hk; right; right].
  destruct (gr_tab _ _ Hg _ H) as [?|[_ H']]; [by destruct Hk; right; left|congruence].
Qed.

#[export] Instance grown_preorder : PreOrder grown.
Proof.
  split.
  - intros s. split; [done|done|by left|done].
  - intros s1 s2 s3 H1 H2. pose proof (fixed_dir _ _ (gr_fixed _ _ H1)) as Ed. pose proof (fx_total _ _ (gr_fixed _ _ H1)) as En. split.
    + etrans; [apply H1|apply H2].
    + intros j Hj Hf. rewrite (gr_info _ _ H2), (gr_info _ _ H1); [done|done|done|by rewrite En|by eapply grown_used].
    + intros f Hf. rewrite <- Ed in Hf. destruct (gr_tab _ _ H2 f Hf) as [Hf'|[Hr Hf']].
      * rewrite Ed in Hf'. by apply (gr_tab _ _ H1).
      * right. rewrite En in Hr. split; [done|]. destruct (is_free (mem s1) f) eqn:E; [done|].
        by rewrite (grown_used _ _ _ H1 Hr E) in Hf'.
    + intros g i Hg Hf Hk Hi. rewrite (gr_data _ _ H2), (gr_data _ _ H1); try done.
      * by rewrite En.
      * by eapply grown_used.
      * by eapply grown_data.
Qed.

Lemma grown_upd s s' : fixed s s' -> mem s' = mem s -> grown s s'.
Proof. intros Hx E. split; [done|..]; rewrite E; try done. by left. Qed.

Section State.
Context {s : machine} (Hs : sound s).

Local Abbreviation n := (total_pages s).
Local Abbreviation d := (dir s).

Lemma sound_n : 256 < n <= 4096.
Proof. apply Hs. Qed.

Lemma wp_load_pde i Q : 0 <= i < 1024 -> Q (word (mem s) d i) s -> wp (load_pde i) Q s.
Proof.
  intros Hi HQ. unfold load_pde. wp_steps. destruct (so_cr3 _ Hs) as [E _]. rewrite E. destruct (to_dir _ _ _ (so_tables _ Hs)) as [Hd _].
  apply (wp_load32 (sound_direct _ Hs)); [lia|lia| |done]. apply (aligned _ (1024 * dir s + i)). lia.
Qed.

Lemma wp_store_pde i v Q : 0 <= i < 1024 -> Q tt (set_mem (stored (mem s) (4096 * d + 4 * i) v) s) -> wp (store_pde i v) Q s.
Proof.
  intros Hi HQ. unfold store_pde. wp_steps. destruct (so_cr3 _ Hs) as [E _]. rewrite E. destruct (to_dir _ _ _ (so_tables _ Hs)) as [Hd _].
  apply (wp_store32 (sound_direct _ Hs)); [lia|lia| |done]. apply (aligned _ (1024 * dir s + i)). lia.
Qed.

(** The entry behind a present entry of the directory. *)
Section Page.
Context {v : Z} (Hv : 0 <= v < 2 ^ 20) (Hp : present (word (mem s) d (v / 1024)) = true).

Lemma table_address : Z.land (word (mem s) d (v / 1024)) FRAME_MASK = 4096 * table_of (mem s) d v.
Proof. destruct (table_here (so_tables _ Hs) Hv Hp) as (Hr & _). rewrite land_mask by done. unfold table_of. lia. Qed.

Lemma wp_load_pte Q : Q (entry (mem s) d v) s -> wp (load32 (4096 * table_of (mem s) d v + 4 * (v mod 1024))) Q s.
Proof.
  intros HQ. destruct (table_indices v Hv) as [_ Hj]. destruct (table_here (so_tables _ Hs) Hv Hp) as (_ & Hr & _).
  apply (wp_load32 (sound_direct _ Hs)); [lia|lia| |done]. apply (aligned _ (1024 * table_of (mem s) d v + v mod 1024)). lia.
Qed.

Lemma wp_store_pte e Q : Q tt (set_mem (set_entry (mem s) d v e) s) ->
  wp (store32 (4096 * table_of (mem s) d v + 4 * (v mod 1024)) e) Q s.
Proof.
  intros HQ. destruct (table_indices v Hv) as [_ Hj]. destruct (table_here (so_tables _ Hs) Hv Hp) as (_ & Hr & _).
  apply (wp_store32 (sound_direct _ Hs)); [lia|lia| |done]. apply (aligned _ (1024 * table_of (mem s) d v + v mod 1024)). lia.
Qed.

Lemma entry_sound e : n <= v -> sound (set_mem (set_entry (mem s) d v e) s).
Proof.
  intros Hnv. pose proof sound_n. assert (forall g, 0 <= g < n -> is_free (set_entry (mem s) d v e) g = is_free (mem s) g) as Hfree.
  { intros g Hg. unfold is_free, state. by rewrite (set_entry_info (so_tables _ Hs) Hv Hp) by done. }
  apply (sound_change s); try done; cbn [mem set_mem free_count].
  - apply (set_entry_ok (so_tables _ Hs)); try done. apply sound_n.
  - intros f Hf Hk. rewrite Hfree by done. apply (so_kept _ Hs); [done|]. destruct Hk as [?|[Ht|?]]; [by left| |by right; right].
    right; left. by apply (set_entry_table_frame (so_tables _ Hs) Hv Hp) in Ht.
  - rewrite (so_count _ Hs). symmetry. by apply free_frames_same.
Qed.

Lemma entry_grown e : grown s (set_mem (set_entry (mem s) d v e) s).
Proof.
  split; [by split|..]; cbn [mem set_mem].
  - intros j Hj _. by apply (set_entry_info (so_tables _ Hs) Hv Hp).
  - intros f Hf. left. by apply (set_entry_table_frame (so_tables _ Hs) Hv Hp) in Hf.
  - intros g i Hg _ Hk Hi. eapply only_word; [by apply set_entry_only| |done]. intros ->. apply Hk. right; left.
    right. exists (v / 1024). split; [by apply table_indices|done].
Qed.

Lemma entry_space e v' : 0 <= v' < 2 ^ 20 ->
  space (set_mem (set_entry (mem s) d v e) s) v' = if decide (v' = v) then pte e else space s v'.
Proof. apply (set_entry_translation (so_tables _ Hs) Hv Hp). Qed.

Lemma entry_frames e s' : mem s' = set_entry (mem s) d v e -> dir s' = d -> free_count s' = free_count s -> same_frames s s'.
Proof. intros E1 E2 E3. split; [|done]. intros j Hj. unfold has_table. by rewrite E1, E2, (set_entry_dir (so_tables _ Hs) Hv Hp). Qed.

End Page.

(** The contents of a frame change. *)
Lemma content_sound f m' : ~ kept (mem s) d n f -> only (fun g => g = f) (mem s) m' -> sound (set_mem m' s).
Proof.
  intros Hk Ho. assert (same_tables d (mem s) m') as Hst.
  { apply (sound_tables Hs f); [done|]. eapply only_mono; [|exact Ho]. by right. }
  assert (forall g, 0 <= g < n -> is_free m' g = is_free (mem s) g) as Hfree.
  { intros g Hg. unfold is_free, state. rewrite (only_info _ _ _ n g Ho); [done| |done]. intros ? ->. apply (not_kept f Hk). }
  pose proof sound_n. apply (sound_change s); try done; cbn [mem set_mem free_count].
  - eapply same_tables_ok; [done| |apply Hs]. lia.
  - intros g Hg Hgk. rewrite Hfree by done. apply (so_kept _ Hs); [done|]. destruct Hgk as [?|[Ht|?]]; [by left| |by right; right].
    right; left. by apply (same_table_frame Hst) in Ht.
  - rewrite (so_count _ Hs). symmetry. by apply free_frames_same.
Qed.

Lemma table_sound i f fl :
  0 <= i < 1024 -> present (word (mem s) d i) = false -> 0 <= f < n -> is_free (mem s) f = false -> ~ kept (mem s) d n f ->
  (forall j, 0 <= j < 1024 -> word (mem s) f j = 0) -> 0 <= fl < 4096 -> Z.odd fl = true ->
  sound (set_mem (set_table (mem s) d i f fl) s).
Proof.
  intros Hi Hp Hf Hu Hk Hz Hfl Hodd. pose proof sound_n. destruct (not_kept f Hk) as (H0 & Hft & Hfi).
  assert (0 < f < n /\ ~ info_frame n f /\ ~ table_frame (mem s) d f) as Hf' by (split; [lia|done]).
  assert (forall g, 0 <= g < n -> is_free (set_table (mem s) d i f fl) g = is_free (mem s) g) as Hfree.
  { intros g Hg. unfold is_free, state. by rewrite (set_table_info (so_tables _ Hs) Hi) by done. }
  apply (sound_change s); try done; cbn [mem set_mem free_count].
  - apply (set_table_ok (so_tables _ Hs)); try done. lia.
  - intros g Hg Hgk. rewrite Hfree by done. destruct Hgk as [?|[Ht|?]]; [by apply (so_kept _ Hs); [done|left]| |by apply (so_kept _ Hs); [done|right; right]].
    apply (set_table_frames Hi Hp (conj Hfl Hodd)) in Ht as [->|Ht]; [done|]. apply (so_kept _ Hs); [done|]. by right; left.
  - rewrite (so_count _ Hs). symmetry. by apply free_frames_same.
Qed.

Lemma allocated_grown f : 0 <= f < n -> is_free (mem s) f = true -> grown s (allocated s f).
Proof.
  intros Hf Hfree. split; [apply allocated_fixed|..].
  - intros j Hj Hu. apply (allocated_other Hs); [done..|]. congruence.
  - intros g Hg. left. by apply (same_table_frame (allocated_tables Hs Hf Hfree)).
  - intros g i Hg Hu Hk Hi. apply allocated_word; [done|by apply (not_kept g Hk)|congruence|done].
Qed.

End State.

(** A frame is taken for a new table. *)
Definition new_table (s : machine) (i f fl : Z) : machine :=
  set_mem (set_table (cleared (mem (allocated s f)) f) (dir s) i f fl) (allocated s f).

Section NewTable.
Context {s : machine} (Hs : sound s).

Local Abbreviation n := (total_pages s).
Local Abbreviation d := (dir s).

Context {f : Z} (Hf : 0 <= f < n) (Hfree : is_free (mem s) f = true).

Lemma allocated_data : ~ kept (mem (allocated s f)) d n f.
Proof.
  pose proof (free_not_kept Hs f Hf Hfree) as Hk.
  intros [?|[Ht|?]]; apply Hk; [by left| |by right; right]. right; left. by apply (same_table_frame (allocated_tables Hs Hf Hfree)).
Qed.

Context {i fl : Z} (Hi : 0 <= i < 1024) (Hp : present (word (mem s) d i) = false) (Hfl : 0 <= fl < 4096 /\ Z.odd fl = true).

Let s1 : machine := set_mem (cleared (mem (allocated s f)) f) (allocated s f).

Lemma cleared_only : only (fun g => g = f) (mem (allocated s f)) (mem s1).
Proof. by apply only_cleared. Qed.

Lemma cleared_sound : sound s1.
Proof. apply (content_sound (allocated_sound Hs Hf Hfree) f); [apply allocated_data|apply cleared_only]. Qed.

Lemma cleared_tables : same_tables d (mem s) (mem s1).
Proof.
  intros g j Hg Hj. rewrite <- (allocated_tables Hs Hf Hfree g j Hg Hj). eapply only_word; [apply cleared_only| |done].
  intros ->. destruct (not_kept f (free_not_kept Hs f Hf Hfree)) as (_ & Hft & _). by apply Hft.
Qed.

Lemma cleared_info j : 0 <= j < n -> info (mem s1) j = info (mem (allocated s f)) j.
Proof.
  intros Hj. apply (only_info _ _ _ n j cleared_only); [|done]. intros ? ->. by destruct (not_kept f allocated_data) as (_ & _ & ?).
Qed.

Lemma cleared_absent : present (word (mem s1) d i) = false.
Proof. by rewrite (same_dir cleared_tables). Qed.

Lemma cleared_frame : 0 < f < n /\ ~ info_frame n f /\ ~ table_frame (mem s1) d f.
Proof.
  destruct (not_kept f (free_not_kept Hs f Hf Hfree)) as (H0 & Hft & Hfi). split; [lia|]. split; [done|].
  by rewrite (same_table_frame cleared_tables).
Qed.

Lemma cleared_zero j : 0 <= j < 1024 -> word (mem s1) f j = 0.
Proof. apply cleared_word. Qed.

Lemma new_table_sound : sound (new_table s i f fl).
Proof.
  destruct cleared_frame as (Hfr & Hfi & Hft). destruct Hfl. change (new_table s i f fl) with (set_mem (set_table (mem s1) (dir s1) i f fl) s1).
  apply (table_sound cleared_sound); try done; [by apply cleared_absent| |intros [?|[?|?]]; [lia|done|done]|apply cleared_zero].
  unfold is_free, state. rewrite cleared_info by done. fold (state (mem (allocated s f)) f). by rewrite (allocated_state Hs Hf Hfree).
Qed.

Lemma new_table_space v : 0 <= v < 2 ^ 20 -> space (new_table s i f fl) v = space s v.
Proof.
  intros Hv. transitivity (space s1 v); [|by apply (same_translation cleared_tables)].
  apply (set_table_translation (so_tables _ cleared_sound) Hi cleared_absent cleared_frame cleared_zero Hfl). done.
Qed.

Lemma new_table_pde : word (mem (new_table s i f fl)) d i = f * 4096 + fl.
Proof. cbn [mem new_table set_mem]. rewrite (set_table_word Hi) by done. case_decide as Hx; [done|by destruct Hx]. Qed.

Lemma new_table_frames : took_table s i (new_table s i f fl).
Proof.
  split.
  - intros j Hj. unfold has_table. change (dir (new_table s i f fl)) with d. cbn [mem new_table set_mem]. rewrite (set_table_word Hi) by done.
    destruct (Z.eqb_spec j i) as [->|Hne]; case_decide as Hx; try tauto; [rewrite orb_true_r; by apply table_pde|].
    rewrite orb_false_r. f_equal. by apply (same_dir cleared_tables).
  - unfold has_table. rewrite Hp. apply allocated_count; done.
Qed.

Lemma new_table_grown : grown s (new_table s i f fl).
Proof.
  split; [by split|..]; change (mem (new_table s i f fl)) with (set_table (mem s1) d i f fl).
  - intros j Hj Hu. rewrite (set_table_info (so_tables _ cleared_sound) Hi), cleared_info by done.
    apply (allocated_other Hs); [done..|congruence].
  - intros g Hg. apply (set_table_frames Hi cleared_absent Hfl) in Hg as [->|Hg]; [by right|left].
    by apply (same_table_frame cleared_tables).
  - intros g j Hg Hu Hk Hj. rewrite (set_table_word Hi) by done. destruct (not_kept g Hk) as (_ & Hgt & Hgi).
    case_decide as Hx; [destruct Hx as [Hx _]; destruct Hgt; by left|]. rewrite <- (gr_data _ _ (allocated_grown Hs f Hf Hfree)) by done.
    eapply only_word; [apply cleared_only| |done]. congruence.
Qed.

End NewTable.

(** ** The operations on mappings *)

Definition protected (s : machine) (a : Z) : Prop := is_Some (find_region (protected_regions s) a).

Definition no_free_frame (s : machine) : Prop := forall g, 0 <= g < total_pages s -> is_free (mem s) g = false.

Lemma none_free s : sound s -> no_free_frame s -> free_count s = 0.
Proof. intros Hs Hno. rewrite (so_count _ Hs). by apply free_frames_none. Qed.

(** An entry: the frame of an address or of another entry, with flags. *)
Definition with_flags (e flags : Z) : Z := Z.lor (Z.land e FRAME_MASK) (Z.land flags 0xFFF).

Lemma table_bits f user : exists fl, (0 <= fl < 4096 /\ Z.odd fl = true) /\
  Z.lor (Z.lor (Z.lor (4096 * f) PAGE_FLAG_PRESENT) PAGE_FLAG_WRITABLE) (if user : bool then PAGE_FLAG_USER else 0) = f * 4096 + fl.
Proof.
  exists (if user then 7 else 3). split; [by destruct user|]. rewrite <- !Z.lor_assoc, (Z.mul_comm 4096).
  rewrite <- lor_low by (by destruct user). by destruct user.
Qed.

(** Leaving an operation: the mutex is as it was in [s]. *)
Ltac leave s :=
  match goal with
  | |- context [ paging_mutex ?x - 1 ] =>
      let E := fresh in
      assert (paging_mutex x = paging_mutex s + 1) as E;
      [ try done | rewrite E; replace (paging_mutex s + 1 - 1) with (paging_mutex s) by lia; clear E ]
  end.

Definition relocked (s : machine) : machine := set_paging_mutex (paging_mutex s + 1) s.

Lemma relocked_unlocked s : set_paging_mutex (paging_mutex s) (relocked s) = s.
Proof. by destruct s. Qed.

Lemma grown_unlocked s s' : grown (relocked s) s' -> grown s (set_paging_mutex (paging_mutex s) s').
Proof. intros [[] H2 H3 H4]. by split; [split|..]. Qed.

(** The second half of [paging_map_page], [s1] being the state with the table. *)
Lemma map_entry s s1 physical v o flags :
  sound s1 -> grown (relocked s) s1 -> total_pages s <= v < 2 ^ 20 -> 0 <= o < 4096 ->
  present (word (mem s1) (dir s1) (v / 1024)) = true -> (forall v', 0 <= v' < 2 ^ 20 -> space s1 v' = space s v') ->
  wp (pde <- load_pde (pd_index (v * 4096 + o)) ;;
      let table := Z.land pde FRAME_MASK in
      _old <- load32 (table + 4 * pt_index (v * 4096 + o)) ;;
      store32 (table + 4 * pt_index (v * 4096 + o)) (Z.lor (Z.land physical FRAME_MASK) (Z.land flags 0xFFF)) ;;;
      flush_tlb_entry (v * 4096 + o) ;;;
      mutex_unlock ;;;
      ret 0)
    (fun r s' => r = 0 /\ sound s' /\ grown s s' /\ v * 4096 + o ∈ invalidated s' /\ same_frames s1 s' /\
       forall v', 0 <= v' < 2 ^ 20 -> space s' v' = if decide (v' = v) then pte (with_flags physical flags) else space s v') s1.
Proof.
  intros Hs1 Hg Hv Ho Hp Hsp. assert (0 <= v < 2 ^ 20) as Hv' by (pose proof (fx_total _ _ (gr_fixed _ _ Hg)); pose proof (sound_n Hs1); cbn in *; lia).
  destruct (table_indices v Hv') as [Hi Hj]. rewrite pd_index_of, pt_index_of by done. wp_steps. apply (wp_load_pde Hs1); [done|]. cbv zeta.
  rewrite (table_address Hs1 Hv' Hp). wp_steps. apply (wp_load_pte Hs1 Hv' Hp). wp_steps. apply (wp_store_pte Hs1 Hv' Hp).
  unfold flush_tlb_entry, mutex_unlock. wp_steps. fold (with_flags physical flags). set (e := with_flags physical flags).
  set (s2 := set_invalidated _ _). leave s.
  { change (paging_mutex s2) with (paging_mutex s1). by rewrite (fx_mutex _ _ (gr_fixed _ _ Hg)). }
  split; [done|]. split; [|split; [|split; [|split]]].
  - apply sound_mutex, sound_invalidated. apply (entry_sound Hs1); [done..|]. by rewrite (fx_total _ _ (gr_fixed _ _ Hg)); cbn; lia.
  - apply grown_unlocked. etrans; [exact Hg|]. etrans; [apply (entry_grown Hs1 Hv' Hp e)|]. by apply grown_upd.
  - cbn. left.
  - by apply (entry_frames Hs1 Hv' Hp e).
  - intros v' Hv''. rewrite <- Hsp by done. exact (entry_space Hs1 Hv' Hp e v' Hv'').
Qed.

Definition map_done (s : machine) (physical v o flags r : Z) (s' : machine) : Prop :=
  sound s' /\ grown s s' /\
  ((r = -1 /\ s' = s /\ (protected s (v * 4096 + o) \/ (no_free_frame s /\ has_table s (v / 1024) = false))) \/
   (r = 0 /\ ~ protected s (v * 4096 + o) /\ v * 4096 + o ∈ invalidated s' /\ took_table s (v / 1024) s' /\
    forall v', 0 <= v' < 2 ^ 20 -> space s' v' = if decide (v' = v) then pte (with_flags physical flags) else space s v')).

Lemma paging_map_spec s physical v o flags :
  sound s -> total_pages s <= v < 2 ^ 20 -> 0 <= o < 4096 ->
  wp (paging_map_page physical (v * 4096 + o) flags) (map_done s physical v o flags) s.
Proof.
  intros Hs Hv Ho. pose proof (sound_n Hs) as Hn. assert (0 <= v < 2 ^ 20) as Hv' by lia. destruct (table_indices v Hv') as [Hi Hj].
  unfold paging_map_page, mutex_lock, get_protected_region. wp_steps. fold (relocked s). change (protected_regions (relocked s)) with (protected_regions s).
  assert (sound (relocked s)) as Hs0 by (by apply sound_mutex).
  destruct (find_region (protected_regions s) (v * 4096 + o)) as [r|] eqn:Er.
  { unfold mutex_unlock. wp_steps. leave s. rewrite relocked_unlocked.
    split; [done|]. split; [done|]. left. split; [done|]. split; [done|]. left. by eexists. }
  assert (~ protected s (v * 4096 + o)) as Hpr by (unfold protected; rewrite Er; by intros []).
  rewrite pd_index_of by done. wp_steps. apply (wp_load_pde Hs0); [done|]. fold (present (word (mem (relocked s)) (dir (relocked s)) (v / 1024))).
  assert (forall s1, sound s1 -> grown (relocked s) s1 -> present (word (mem s1) (dir s1) (v / 1024)) = true -> took_table s (v / 1024) s1 ->
    (forall v', 0 <= v' < 2 ^ 20 -> space s1 v' = space s v') -> wp (if negb true then mutex_unlock ;;; ret (-1) else
      pde <- load_pde (v / 1024) ;;
      let table := Z.land pde FRAME_MASK in
      _old <- load32 (table + 4 * pt_index (v * 4096 + o)) ;;
      store32 (table + 4 * pt_index (v * 4096 + o)) (Z.lor (Z.land physical FRAME_MASK) (Z.land flags 0xFFF)) ;;;
      flush_tlb_entry (v * 4096 + o) ;;;
      mutex_unlock ;;;
      ret 0) (map_done s physical v o flags) s1) as Hrest.
  { intros s1 Hs1 Hg1 Hp1 Ht1 Hsp1. cbn [negb]. eapply wp_mono.
    - rewrite <- (pd_index_of v o Ho). by apply (map_entry s s1 physical v o flags).
    - cbn beta. intros r s' (-> & H1 & H2 & H3 & H4 & H5). split; [done|]. split; [done|]. right.
      split; [done|]. split; [done|]. split; [done|]. split; [by eapply took_same|done]. }
  destruct (present (word (mem (relocked s)) (dir (relocked s)) (v / 1024))) eqn:Ep; cbn [negb].
  { wp_steps. apply Hrest; [done..|by apply same_took|done]. }
  wp_steps. apply (allocate_page_spec _ _ Hs0); cbn beta.
  - intros Hno. change (0 =? 0) with true. cbv iota. wp_steps. cbn [negb]. unfold mutex_unlock. wp_steps. leave s.
    rewrite relocked_unlocked. split; [done|]. split; [done|]. left.
    split; [done|]. split; [done|]. right. by split.
  - intros f Hf Hfree _. destruct (Z.eqb_spec (4096 * f) 0); [lia|]. wp_steps.
    assert (0 <= f < total_pages (relocked s)) as Hf' by (cbn in *; lia).
    apply (wp_clear_page (n := total_pages (relocked s)) (sound_direct _ (allocated_sound Hs0 Hf' Hfree))); [done|]. wp_steps.
    destruct (table_bits f (has_flag flags PAGE_FLAG_USER)) as (fl & Hfl & Efl). rewrite Efl.
    apply (wp_store_pde (cleared_sound Hs0 Hf' Hfree)); [done|]. wp_steps.
    change (set_mem _ (set_mem _ (allocated (relocked s) f))) with (new_table (relocked s) (v / 1024) f fl). apply Hrest.
    + by apply new_table_sound.
    + by apply new_table_grown.
    + change (dir (new_table (relocked s) (v / 1024) f fl)) with (dir (relocked s)). rewrite new_table_pde by done. by apply table_pde.
    + exact (new_table_frames Hs0 Hf' Hfree Hi Ep Hfl).
    + intros v' Hv''. by rewrite new_table_space.
Qed.

(** The page of an address that is not in the way of the kernel's own accesses. *)
Lemma paging_unmap_spec s v o :
  sound s -> total_pages s <= v < 2 ^ 20 -> 0 <= o < 4096 ->
  wp (unmap_page (v * 4096 + o)) (fun _ s' => sound s' /\ grown s s' /\
    ((protected s (v * 4096 + o) /\ s' = s) \/
     (~ protected s (v * 4096 + o) /\ same_frames s s' /\
      forall v', 0 <= v' < 2 ^ 20 -> space s' v' = if decide (v' = v) then None else space s v'))) s.
Proof.
  intros Hs Hv Ho. pose proof (sound_n Hs) as Hn. assert (0 <= v < 2 ^ 20) as Hv' by lia. destruct (table_indices v Hv') as [Hi Hj].
  unfold unmap_page, mutex_lock, mutex_unlock, get_protected_region. wp_steps. fold (relocked s).
  change (protected_regions (relocked s)) with (protected_regions s). assert (sound (relocked s)) as Hs0 by (by apply sound_mutex).
  destruct (find_region (protected_regions s) (v * 4096 + o)) as [r|] eqn:Er.
  { wp_steps. leave s. rewrite relocked_unlocked. split; [done|]. split; [done|]. left. split; [by eexists|done]. }
  assert (~ protected s (v * 4096 + o)) as Hpr by (unfold protected; rewrite Er; by intros []).
  rewrite pd_index_of, pt_index_of by done. wp_steps. apply (wp_load_pde Hs0); [done|].
  fold (present (word (mem (relocked s)) (dir (relocked s)) (v / 1024))).
  destruct (present (word (mem (relocked s)) (dir (relocked s)) (v / 1024))) eqn:Ep; cbn [negb].
  - rewrite (table_address Hs0 Hv' Ep). wp_steps. apply (wp_store_pte Hs0 Hv' Ep). unfold flush_tlb_entry. wp_steps.
    leave s. split; [|split].
    + apply sound_mutex, sound_invalidated. apply (entry_sound Hs0); [done..|exact (proj1 Hv)].
    + apply grown_unlocked. etrans; [apply (entry_grown Hs0 Hv' Ep 0)|]. by apply grown_upd.
    + right. split; [done|]. split; [by apply (entry_frames Hs0 Hv' Ep 0)|]. intros v' Hv''. exact (entry_space Hs0 Hv' Ep 0 v' Hv'').
  - wp_steps. leave s. rewrite relocked_unlocked. split; [done|]. split; [done|]. right. split; [done|]. split; [done|]. intros v' Hv''.
    case_decide as Hx; [|done]. subst v'. change (space s v) with (space (relocked s) v). unfold space. by rewrite translation_pte, Ep.
Qed.

Lemma update_flags_spec s v o flags :
  sound s -> total_pages s <= v < 2 ^ 20 -> 0 <= o < 4096 ->
  wp (paging_update_flags (v * 4096 + o) flags) (fun r s' => sound s' /\ grown s s' /\
    ((r = -1 /\ s' = s /\ (space s v = None \/ protected s (v * 4096 + o))) \/
     (r = 0 /\ ~ protected s (v * 4096 + o) /\ same_frames s s' /\ exists e, space s v = Some e /\
        forall v', 0 <= v' < 2 ^ 20 -> space s' v' = if decide (v' = v) then pte (with_flags e flags) else space s v'))) s.
Proof.
  intros Hs Hv Ho. pose proof (sound_n Hs) as Hn. assert (0 <= v < 2 ^ 20) as Hv' by lia. destruct (table_indices v Hv') as [Hi Hj].
  unfold paging_update_flags, mutex_lock, mutex_unlock, get_protected_region. wp_steps. fold (relocked s).
  assert (sound (relocked s)) as Hs0 by (by apply sound_mutex). rewrite pd_index_of, pt_index_of by done. apply (wp_load_pde Hs0); [done|].
  pose proof (translation_pte (mem (relocked s)) (dir (relocked s)) v : space s v = _) as Esp. revert Esp.
  fold (present (word (mem (relocked s)) (dir (relocked s)) (v / 1024))).
  destruct (present (word (mem (relocked s)) (dir (relocked s)) (v / 1024))) eqn:Ep; cbn [negb]; intros Esp.
  2: { wp_steps. leave s. rewrite relocked_unlocked. split; [done|]. split; [done|]. left. split; [done|]. split; [done|by left]. }
  rewrite (table_address Hs0 Hv' Ep). wp_steps. apply (wp_load_pte Hs0 Hv' Ep). set (e := entry _ _ _) in *. unfold pte in Esp. fold (present e).
  destruct (present e) eqn:Ee; cbn [negb].
  2: { wp_steps. leave s. rewrite relocked_unlocked. split; [done|]. split; [done|]. left. split; [done|]. split; [done|by left]. }
  wp_steps. change (protected_regions (relocked s)) with (protected_regions s).
  destruct (find_region (protected_regions s) (v * 4096 + o)) as [r|] eqn:Er.
  { wp_steps. leave s. rewrite relocked_unlocked. split; [done|]. split; [done|]. left. split; [done|]. split; [done|]. right. by eexists. }
  assert (~ protected s (v * 4096 + o)) as Hpr by (unfold protected; rewrite Er; by intros []).
  wp_steps. apply (wp_load_pte Hs0 Hv' Ep). fold e. wp_steps. apply (wp_store_pte Hs0 Hv' Ep). unfold flush_tlb_entry. wp_steps.
  fold (with_flags e flags). leave s. split; [|split].
  - apply sound_mutex, sound_invalidated. apply (entry_sound Hs0); [done..|exact (proj1 Hv)].
  - apply grown_unlocked. etrans; [apply (entry_grown Hs0 Hv' Ep (with_flags e flags))|]. by apply grown_upd.
  - right. split; [done|]. split; [done|]. split; [by apply (entry_frames Hs0 Hv' Ep (with_flags e flags))|]. exists e. split; [done|]. intros v' Hv''.
    exact (entry_space Hs0 Hv' Ep (with_flags e flags) v' Hv'').
Qed.

(** The translation by the processor, and the one [get_physical_address] computes. *)
Lemma sound_walk s v o : sound s -> 0 <= v < 2 ^ 20 -> 0 <= o < 4096 ->
  walk s (v * 4096 + o) = (fun e => Z.lor (Z.land e FRAME_MASK) o) <$> space s v.
Proof.
  intros Hs Hv Ho. pose proof Hs as [H1 H2 (H3 & H3' & _) [H4 H4'] H5 _ _]. apply tables_walk; try done; [congruence|lia].
Qed.

Lemma physical_address_spec s v o : sound s -> 0 <= v < 2 ^ 20 -> 0 <= o < 4096 ->
  wp (get_physical_address (v * 4096 + o)) (fun r s' => r = default 0 (walk s (v * 4096 + o)) /\ s' = s) s.
Proof.
  intros Hs Hv Ho. destruct (table_indices v Hv) as [Hi Hj]. rewrite sound_walk by done. rewrite (translation_pte (mem (relocked s)) (dir (relocked s)) v : space s v = _).
  unfold get_physical_address, mutex_lock, mutex_unlock. wp_steps. fold (relocked s). assert (sound (relocked s)) as Hs0 by (by apply sound_mutex).
  rewrite pd_index_of, pt_index_of by done. apply (wp_load_pde Hs0); [done|].
  fold (present (word (mem (relocked s)) (dir (relocked s)) (v / 1024))).
  destruct (present (word (mem (relocked s)) (dir (relocked s)) (v / 1024))) eqn:Ep; cbn [negb].
  2: { wp_steps. leave s. by rewrite relocked_unlocked. }
  rewrite (table_address Hs0 Hv Ep). wp_steps. apply (wp_load_pte Hs0 Hv Ep). 
  unfold pte. fold (present (entry (mem (relocked s)) (dir (relocked s)) v)). destruct (present (entry (mem (relocked s)) (dir (relocked s)) v)); cbn [negb]; wp_steps; leave s; rewrite relocked_unlocked; [|done].
  split; [|done]. cbn. f_equal. rewrite land_low, Z.add_comm, Z.mod_add, Z.mod_small; lia.
Qed.

Lemma page_flags_spec s v o : sound s -> 0 <= v < 2 ^ 20 -> 0 <= o < 4096 ->
  wp (paging_get_page_flags (v * 4096 + o)) (fun r s' => s' = s /\
    match space s v with Some e => r = Z.land e 0xFFF | None => present r = false end) s.
Proof.
  intros Hs Hv Ho. destruct (table_indices v Hv) as [Hi Hj]. rewrite (translation_pte (mem (relocked s)) (dir (relocked s)) v : space s v = _).
  unfold paging_get_page_flags, mutex_lock, mutex_unlock. wp_steps. fold (relocked s). assert (sound (relocked s)) as Hs0 by (by apply sound_mutex).
  rewrite pd_index_of, pt_index_of by done. apply (wp_load_pde Hs0); [done|].
  fold (present (word (mem (relocked s)) (dir (relocked s)) (v / 1024))).
  destruct (present (word (mem (relocked s)) (dir (relocked s)) (v / 1024))) eqn:Ep; cbn [negb].
  2: { wp_steps. leave s. by rewrite relocked_unlocked. }
  rewrite (table_address Hs0 Hv Ep). wp_steps. apply (wp_load_pte Hs0 Hv Ep). wp_steps. leave s. rewrite relocked_unlocked.
  split; [done|]. unfold pte.
  destruct (present (entry (mem (relocked s)) (dir (relocked s)) v)) eqn:Ee; [done|]. revert Ee. rewrite !present_spec, land_low. set (e := entry _ _ _).
  rewrite (Z.div_mod e 4096) at 1 by lia. by rewrite Z.odd_add, Z.odd_mul.
Qed.

(** ** Page tables as a map *)

Inductive command : Type :=
| MapPage (physical virtual flags : Z)
| UnmapPage (virtual : Z)
| UpdateFlags (virtual flags : Z)
| PhysicalAddress (virtual : Z)
| PageFlags (virtual : Z).

Definition run (c : command) : M machine Z :=
  match c with
  | MapPage p v fl => paging_map_page p v fl
  | UnmapPage v => unmap_page v ;;; ret 0
  | UpdateFlags v fl => paging_update_flags v fl
  | PhysicalAddress v => get_physical_address v
  | PageFlags v => paging_get_page_flags v
  end.

Fixpoint run_all (cs : list command) : M machine (list Z) :=
  match cs with
  | [] => ret []
  | c :: cs' => r <- run c ;; rs <- run_all cs' ;; ret (r :: rs)
  end.

Definition address_of (c : command) : Z :=
  match c with MapPage _ v _ | UnmapPage v | UpdateFlags v _ | PhysicalAddress v | PageFlags v => v end.

(** What the commands work on: the entries of the mapped pages, which parts of the address
    space have a table, and how many frames are free. *)
Record page_map : Type := mk_page_map { pm_pages : Z -> option Z; pm_tables : Z -> bool; pm_free : Z }.

Definition view (s : machine) : page_map := mk_page_map (space s) (has_table s) (free_count s).

Definition same_memory (P P' : page_map) : Prop :=
  (forall i, 0 <= i < 1024 -> pm_tables P' i = pm_tables P i) /\ pm_free P' = pm_free P.
Definition same_map (P P' : page_map) : Prop := (forall v, 0 <= v < 2 ^ 20 -> pm_pages P' v = pm_pages P v) /\ same_memory P P'.

(** The page [v] is set to [o], and no other page changes. *)
Definition set_to (P P' : page_map) (v : Z) (o : option Z) : Prop :=
  forall v', 0 <= v' < 2 ^ 20 -> pm_pages P' v' = if decide (v' = v) then o else pm_pages P v'.

(** The page [v] has a table, for which a frame is taken if there was none. *)
Definition table_made (P P' : page_map) (v : Z) : Prop :=
  (forall i, 0 <= i < 1024 -> pm_tables P' i = pm_tables P i || (i =? v / 1024)) /\
  pm_free P' = pm_free P - (if pm_tables P (v / 1024) then 0 else 1).

(** A page can be mapped if it has a table or a frame is free for one. *)
Definition room (P : page_map) (v : Z) : Prop := pm_tables P (v / 1024) = true \/ 0 < pm_free P.

(** What a command answers and does, [prot] being the protected addresses. *)
Inductive allowed (prot : Z -> Prop) (P : page_map) : command -> Z -> page_map -> Prop :=
| al_map p a fl P' : ~ prot a -> room P (a / 4096) -> set_to P P' (a / 4096) (pte (with_flags p fl)) -> table_made P P' (a / 4096) ->
    allowed prot P (MapPage p a fl) 0 P'
| al_map_refused p a fl P' : prot a \/ ~ room P (a / 4096) -> same_map P P' -> allowed prot P (MapPage p a fl) (-1) P'
| al_unmap a P' : ~ prot a -> set_to P P' (a / 4096) None -> same_memory P P' -> allowed prot P (UnmapPage a) 0 P'
| al_unmap_refused a P' : prot a -> same_map P P' -> allowed prot P (UnmapPage a) 0 P'
| al_flags a fl e P' : ~ prot a -> pm_pages P (a / 4096) = Some e -> set_to P P' (a / 4096) (pte (with_flags e fl)) -> same_memory P P' ->
    allowed prot P (UpdateFlags a fl) 0 P'
| al_flags_refused a fl P' : prot a \/ pm_pages P (a / 4096) = None -> same_map P P' -> allowed prot P (UpdateFlags a fl) (-1) P'
| al_address a P' : same_map P P' ->
    allowed prot P (PhysicalAddress a) (default 0 ((fun e => Z.lor (Z.land e FRAME_MASK) (a mod 4096)) <$> pm_pages P (a / 4096))) P'
| al_page_flags a r P' : same_map P P' -> match pm_pages P (a / 4096) with Some e => r = Z.land e 0xFFF | None => present r = false end ->
    allowed prot P (PageFlags a) r P'.

Inductive allowed_all (prot : Z -> Prop) : page_map -> list command -> list Z -> page_map -> Prop :=
| ala_nil P : allowed_all prot P [] [] P
| ala_cons P P' P'' c cs r rs : allowed prot P c r P' -> allowed_all prot P' cs rs P'' -> allowed_all prot P (c :: cs) (r :: rs) P''.

Lemma same_map_refl P : same_map P P.
Proof. by repeat split. Qed.

Lemma free_count_pos s : sound s -> 0 <= free_count s.
Proof. intros Hs. rewrite (so_count _ Hs). pose proof (sound_n Hs). apply free_frames_range. lia. Qed.

Lemma took_room s v s' : sound s' -> took_table s (v / 1024) s' -> room (view s) v.
Proof.
  intros Hs [_ H]. pose proof (free_count_pos _ Hs). unfold room. cbn [view pm_tables pm_free]. destruct (has_table s (v / 1024)); [by left|right; lia].
Qed.

Lemma no_room s v : sound s -> no_free_frame s -> has_table s (v / 1024) = false -> ~ room (view s) v.
Proof. intros Hs Hno Ht. unfold room. cbn [view pm_tables pm_free]. rewrite Ht, (none_free s Hs Hno). by intros [|]. Qed.

Lemma run_spec s c :
  sound s -> 4096 * total_pages s <= address_of c < 2 ^ 32 ->
  wp (run c) (fun r s' => sound s' /\ fixed s s' /\ allowed (protected s) (view s) c r (view s')) s.
Proof.
  intros Hs Ha. pose proof (sound_n Hs) as Hn. destruct (page_of (address_of c) ltac:(lia)) as (Ea & Ho & Hv).
  assert (total_pages s <= address_of c / 4096 < 2 ^ 20) as Hv' by (split; [apply Z.div_le_lower_bound; lia|lia]).
  destruct c as [p a fl|a|a fl|a|a]; cbn [address_of run] in *; rewrite Ea at 1.
  - eapply wp_mono; [by apply paging_map_spec|]. unfold map_done. cbn beta. rewrite <- Ea. intros r s' (H1 & H2 & [(-> & -> & H3)|(-> & H3 & H4 & H5 & H6)]).
    + split; [done|]. split; [done|]. apply al_map_refused; [|apply same_map_refl]. destruct H3 as [?|[??]]; [by left|right; by apply no_room].
    + split; [done|]. split; [apply H2|]. apply al_map; [done|by eapply took_room|done|done].
  - wp_steps. eapply wp_mono; [by apply paging_unmap_spec|]. cbn beta. rewrite <- Ea. intros [] s' (H1 & H2 & [(H3 & ->)|(H3 & H4 & H5)]); wp_steps.
    + split; [done|]. split; [done|]. by apply al_unmap_refused, same_map_refl.
    + split; [done|]. split; [apply H2|]. by apply al_unmap.
  - eapply wp_mono; [by apply update_flags_spec|]. cbn beta. rewrite <- Ea. intros r s' (H1 & H2 & [(-> & -> & H3)|(-> & H3 & H6 & e & H4 & H5)]).
    + split; [done|]. split; [done|]. apply al_flags_refused; [cbn; tauto|apply same_map_refl].
    + split; [done|]. split; [apply H2|]. by eapply al_flags.
  - eapply wp_mono; [by apply physical_address_spec|]. cbn beta. intros r s' (-> & ->). rewrite sound_walk by done.
    split; [done|]. split; [done|]. by apply (al_address _ (view s)), same_map_refl.
  - eapply wp_mono; [by apply page_flags_spec|]. cbn beta. intros r s' (-> & H). split; [done|]. split; [done|]. apply al_page_flags; [apply same_map_refl|done].
Qed.


(** ** Writing to a shared page *)

Section References.
Context {s : machine} (Hs : sound s) {f x : Z} (Hf : 0 <= f < total_pages s).

Lemma with_refs_only : only (info_frame (total_pages s)) (mem s) (mem (with_refs s f x)).
Proof. apply only_stored. rewrite <- (Z.add_0_r (INFO + 12 * f)). by apply info_address. Qed.

Lemma with_refs_info j : info (mem (with_refs s f x)) j =
  if decide (j = f) then info (mem s) f mod 65536 + 65536 * u16 x else info (mem s) j.
Proof. apply info_stored. Qed.

Lemma with_refs_free j : is_free (mem (with_refs s f x)) j = is_free (mem s) j.
Proof.
  unfold is_free, state, state_of. rewrite with_refs_info. case_decide as Hx; [|done]. subst j. f_equal. symmetry.
  set (w := info (mem s) f). apply Z.mod_unique_pos with (w / 256 - 256 * (w / 65536) + 256 * u16 x).
  - apply Z.mod_pos_bound. lia.
  - rewrite (Z.mod_eq w 65536), (Z.mod_eq w 256) by lia. lia.
Qed.

Lemma with_refs_refs j : 0 <= x < 2 ^ 16 -> refs (mem (with_refs s f x)) j = if decide (j = f) then x else refs (mem s) j.
Proof.
  intros Hr. unfold refs at 1, references_of. rewrite with_refs_info. case_decide as Hx; [|done].
  rewrite Z.mul_comm, Z.div_add, Z.div_small; [|apply Z.mod_pos_bound; lia|lia]. unfold u16. rewrite Z.mod_small; lia.
Qed.

Lemma with_refs_sound : sound (with_refs s f x).
Proof.
  pose proof (sound_same_tables _ _ Hs with_refs_only) as Hst. pose proof (sound_n Hs). apply (sound_change s); try done.
  - eapply same_tables_ok; [done|lia|apply Hs].
  - intros g Hg Hk. rewrite with_refs_free. apply (so_kept _ Hs); [done|]. destruct Hk as [?|[Ht|?]]; [by left| |by right; right].
    right; left. by apply (same_table_frame Hst) in Ht.
  - cbn [free_count with_refs set_mem]. rewrite (so_count _ Hs). symmetry. apply free_frames_same. intros g _. apply with_refs_free.
Qed.

Lemma with_refs_space v : 0 <= v < 2 ^ 20 -> space (with_refs s f x) v = space s v.
Proof. apply (same_translation (sound_same_tables _ _ Hs with_refs_only)). Qed.

Lemma with_refs_word g i : ~ info_frame (total_pages s) g -> 0 <= i < 1024 -> word (mem (with_refs s f x)) g i = word (mem s) g i.
Proof. intros Hg Hi. by eapply only_word; [apply with_refs_only| |]. Qed.

End References.

(** The writable entry of the copy. *)
Definition cow_entry (f e : Z) : Z := Z.lor (Z.lor (4096 * f) (Z.land e 0xFFF)) PAGE_FLAG_WRITABLE.

Lemma cow_entry_frame f e : 0 <= f < 2 ^ 20 -> Z.land (cow_entry f e) FRAME_MASK = 4096 * f.
Proof.
  intros Hf. unfold cow_entry. rewrite !Z.land_lor_distr_l, land_mask by lia. rewrite (Z.mul_comm 4096), Z.div_mul by lia.
  rewrite <- Z.land_assoc. change (Z.land 0xFFF FRAME_MASK) with 0. by rewrite Z.land_0_r, !Z.lor_0_r.
Qed.

Lemma cow_entry_flags f e : Z.land (cow_entry f e) 0xFFF = Z.lor (Z.land e 0xFFF) PAGE_FLAG_WRITABLE.
Proof.
  unfold cow_entry. rewrite !Z.land_lor_distr_l, (land_low (4096 * f)), (Z.mul_comm 4096), Z.mod_mul by lia.
  rewrite <- Z.land_assoc. change (Z.land 0xFFF 0xFFF) with 0xFFF. by rewrite Z.lor_0_l.
Qed.

Lemma low_present e : present (Z.land e 0xFFF) = present e.
Proof. rewrite !present_spec, <- !Z.bit0_odd, Z.land_spec. apply andb_true_r. Qed.

Lemma cow_entry_present f e : present e = true -> present (cow_entry f e) = true.
Proof.
  intros He. rewrite <- low_present, cow_entry_flags, present_spec, <- Z.bit0_odd, Z.lor_spec, Z.bit0_odd, <- present_spec, low_present, He. done.
Qed.

Lemma space_inv s v e : space s v = Some e ->
  present (word (mem s) (dir s) (v / 1024)) = true /\ present e = true /\ entry (mem s) (dir s) v = e.
Proof.
  unfold space, translation. destruct (present (word _ _ _)); [|done]. destruct (present (entry _ _ _)) eqn:E; [|done].
  cbn. intros [= <-]. done.
Qed.

(** The frame [f'] gets a copy of [f]. *)
Definition cow_copied (s : machine) (f f' : Z) : machine := set_mem (copied (mem (allocated s f')) f' f) (allocated s f').

Section Cow.
Context {s : machine} (Hs : sound s) {f f' : Z}.

Local Abbreviation n := (total_pages s).

Hypothesis Hf : 0 <= f < n.
Hypothesis Hf' : 0 <= f' < n.
Hypothesis Hused : is_free (mem s) f = false.
Hypothesis Hdata : ~ kept (mem s) (dir s) n f.
Hypothesis Hfree : is_free (mem s) f' = true.

Lemma cow_ne : f <> f'.
Proof. congruence. Qed.

Lemma cow_only : only (fun g => g = f') (mem (allocated s f')) (mem (cow_copied s f f')).
Proof. by apply only_copied. Qed.

Lemma cow_sound : sound (cow_copied s f f').
Proof. apply (content_sound (allocated_sound Hs Hf' Hfree) f'); [by apply (allocated_data Hs)|apply cow_only]. Qed.

Lemma cow_tables : same_tables (dir s) (mem s) (mem (cow_copied s f f')).
Proof.
  intros g i Hg Hi. rewrite <- (allocated_tables Hs Hf' Hfree g i Hg Hi). eapply only_word; [apply cow_only| |done].
  intros ->. destruct (not_kept f' (free_not_kept Hs f' Hf' Hfree)) as (_ & Hft & _). by apply Hft.
Qed.

Lemma cow_new i : 0 <= i < 1024 -> word (mem (cow_copied s f f')) f' i = word (mem s) f i.
Proof.
  intros Hi. cbn [mem cow_copied set_mem]. rewrite copied_word by done.
  apply (gr_data _ _ (allocated_grown Hs f' Hf' Hfree)); done.
Qed.

Lemma cow_old i : 0 <= i < 1024 -> word (mem (cow_copied s f f')) f i = word (mem s) f i.
Proof.
  intros Hi. transitivity (word (mem (allocated s f')) f i); [eapply only_word; [apply cow_only|apply cow_ne|done]|].
  apply (gr_data _ _ (allocated_grown Hs f' Hf' Hfree)); done.
Qed.

Lemma cow_info j : 0 <= j < n -> info (mem (cow_copied s f f')) j = info (mem (allocated s f')) j.
Proof.
  intros Hj. apply (only_info _ _ _ n j cow_only); [|done]. intros ? ->. by destruct (not_kept _ (allocated_data Hs Hf' Hfree)) as (_ & _ & ?).
Qed.

Lemma cow_refs : refs (mem (cow_copied s f f')) f = refs (mem s) f /\ refs (mem (cow_copied s f f')) f' = 1.
Proof.
  split; unfold refs; rewrite cow_info by done; [|apply (allocated_refs Hs Hf' Hfree)].
  rewrite (allocated_other Hs Hf' Hfree); [done|done|apply cow_ne].
Qed.

(** The old frame has one reference less. *)
Definition cow_shared : machine := dropped (cow_copied s f f') f.

Hypothesis Hrefs : 1 < refs (mem s) f < 2 ^ 16.

Lemma shared_sound : sound cow_shared.
Proof. apply with_refs_sound; [by apply cow_sound|done]. Qed.

Lemma shared_tables : same_tables (dir s) (mem s) (mem cow_shared).
Proof.
  intros g i Hg Hi. rewrite <- (cow_tables g i Hg Hi). apply with_refs_word; [done| |done]. by destruct (table_frame_range Hs g Hg).
Qed.

Lemma shared_words i : 0 <= i < 1024 -> word (mem cow_shared) f' i = word (mem s) f i /\ word (mem cow_shared) f i = word (mem s) f i.
Proof.
  intros Hi. destruct (not_kept f Hdata) as (_ & _ & Hi1). destruct (not_kept f' (free_not_kept Hs f' Hf' Hfree)) as (_ & _ & Hi2).
  split; unfold cow_shared, dropped; rewrite with_refs_word by done; [by apply cow_new|by apply cow_old].
Qed.

Lemma shared_refs : refs (mem cow_shared) f' = 1 /\ refs (mem cow_shared) f = refs (mem s) f - 1.
Proof.
  destruct cow_refs as [E1 E2]. unfold cow_shared, dropped. rewrite !with_refs_refs by (rewrite E1; lia). rewrite E1, E2.
  case_decide as Hx; [by destruct cow_ne|]. by case_decide.
Qed.

(** The page [v] gets the copy. *)
Lemma shared_entry v e : total_pages s <= v < 2 ^ 20 -> space s v = Some e ->
  let s' := set_mem (set_entry (mem cow_shared) (dir s) v (cow_entry f' e)) cow_shared in
  sound s' /\ space s' v = Some (cow_entry f' e) /\ (forall v', 0 <= v' < 2 ^ 20 -> v' <> v -> space s' v' = space s v') /\
  (forall i, 0 <= i < 1024 -> word (mem s') f' i = word (mem s) f i /\ word (mem s') f i = word (mem s) f i) /\
  refs (mem s') f' = 1 /\ refs (mem s') f = refs (mem s) f - 1.
Proof.
  intros Hv Hsp s'. pose proof (sound_n Hs) as Hn. assert (0 <= v < 2 ^ 20) as Hv' by lia.
  assert (forall v', 0 <= v' < 2 ^ 20 -> space cow_shared v' = space s v') as Hsp' by (apply (same_translation shared_tables)).
  assert (space cow_shared v = Some e) as Hspv by (by rewrite Hsp'). destruct (space_inv _ _ _ Hspv) as (Hp & Hpe & _).
  pose proof (entry_space shared_sound Hv' Hp (cow_entry f' e)) as Hes.
  assert (forall g i, ~ kept (mem s) (dir s) n g -> 0 <= i < 1024 -> word (mem s') g i = word (mem cow_shared) g i) as Hw.
  { intros g i Hg Hi. destruct (not_kept g Hg) as (_ & Hgt & _). eapply only_word; [by apply set_entry_only| |done]. intros ->. apply Hgt.
    apply (same_table_frame shared_tables). right. exists (v / 1024). split; [by apply table_indices|done]. }
  assert (forall j, 0 <= j < n -> info (mem s') j = info (mem cow_shared) j) as Hinfo.
  { intros j Hj. by apply (set_entry_info (so_tables _ shared_sound) Hv' Hp). }
  split; [apply (entry_sound shared_sound); [done..|exact (proj1 Hv)]|]. split; [|split; [|split]].
  - etransitivity; [exact (Hes v Hv')|]. case_decide; [|done]. unfold pte. by rewrite cow_entry_present.
  - intros v' Hv'' Hne. etransitivity; [exact (Hes v' Hv'')|]. case_decide; [done|]. by apply Hsp'.
  - intros i Hi. rewrite !Hw; [by apply shared_words|done|done|by apply free_not_kept|done].
  - unfold refs at 1 2. rewrite !Hinfo by done. apply shared_refs.
Qed.

End Cow.

Definition cow_done (s : machine) (v e f r : Z) (s' : machine) : Prop :=
  sound s' /\ fixed s s' /\
  ((r = -1 /\ no_free_frame s /\ s' = s) \/
   (r = 0 /\ v * 4096 ∈ invalidated s' /\ exists f' e', 0 < f' < total_pages s /\ is_free (mem s) f' = true /\
      space s' v = Some e' /\ Z.land e' FRAME_MASK = 4096 * f' /\ Z.land e' 0xFFF = Z.lor (Z.land e 0xFFF) PAGE_FLAG_WRITABLE /\
      (forall v', 0 <= v' < 2 ^ 20 -> v' <> v -> space s' v' = space s v') /\
      (forall i, 0 <= i < 1024 -> word (mem s') f' i = word (mem s) f i /\ word (mem s') f i = word (mem s) f i) /\
      refs (mem s') f' = 1 /\ refs (mem s') f = refs (mem s) f - 1)).

Lemma copy_on_write_spec s v e f :
  sound s -> total_pages s <= v < 2 ^ 20 -> space s v = Some e -> 0 <= f < total_pages s -> is_free (mem s) f = false ->
  ~ kept (mem s) (dir s) (total_pages s) f -> 1 < refs (mem s) f < 2 ^ 16 ->
  wp (copy_on_write_fault (v * 4096) (4096 * table_of (mem s) (dir s) v + 4 * (v mod 1024)) f (4096 * f))
    (fun r s' => exists z, r = Some z /\ cow_done s v e f z s') (relocked s).
Proof.
  intros Hs Hv Hsp Hf Hu Hk Hr. assert (sound (relocked s)) as Hs0 by (by apply sound_mutex). pose proof (sound_n Hs) as Hn.
  assert (0 <= v < 2 ^ 20) as Hv' by lia. unfold copy_on_write_fault. wp_steps.
  apply (wp_load_references (sound_steady _ Hs0)); [done|]. change (mem (relocked s)) with (mem s).
  destruct (Z.ltb_spec 1 (refs (mem s) f)) as [_|]; [|lia]. wp_steps. apply (allocate_page_spec _ _ Hs0); cbn beta.
  { intros Hno. change (0 =? 0) with true. cbv iota. unfold mutex_unlock. wp_steps. leave s. rewrite relocked_unlocked. exists (-1).
    split; [done|]. split; [done|]. split; [done|]. by left. }
  intros f' Hf' Hfree _. assert (0 <= f' < total_pages (relocked s)) as Hf1 by (cbn in *; lia).
  destruct (Z.eqb_spec (4096 * f') 0); [lia|]. wp_steps.
  apply (wp_copy_page (n := total_pages (relocked s)) (sound_direct _ (allocated_sound Hs0 Hf1 Hfree))); [done|done|].
  change (wp _ _ _) with (wp (refs <- load_references f ;; store_references f (refs - 1) ;;;
    e <- load32 (4096 * table_of (mem s) (dir s) v + 4 * (v mod 1024)) ;;
    store32 (4096 * table_of (mem s) (dir s) v + 4 * (v mod 1024)) (cow_entry f' e) ;;;
    flush_tlb_entry (v * 4096) ;;; mutex_unlock ;;; ret (Some 0))
    (fun r s' => exists z, r = Some z /\ cow_done s v e f z s') (cow_copied (relocked s) f f')).
  assert (sound (cow_copied (relocked s) f f')) as Hs1 by (by apply (cow_sound Hs0)).
  wp_steps. apply (wp_load_references (sound_steady _ Hs1)); [done|]. wp_steps.
  apply (wp_change_info (sound_steady _ Hs1) f (fun w => w mod 65536 + 65536 * u16 (refs (mem (cow_copied (relocked s) f f')) f - 1))); [done|]. intros _.
  fold (dropped (cow_copied (relocked s) f f') f). fold (cow_shared (s := relocked s) (f := f) (f' := f')).
  pose proof (shared_sound Hs0 Hf Hf1 Hfree) as Hs2. pose proof (shared_tables Hs0 Hf Hf1 Hfree) as Ht2.
  assert (space (cow_shared (s := relocked s) (f := f) (f' := f')) v = Some e) as Hsp2 by (rewrite <- Hsp; by apply (same_translation Ht2)).
  destruct (space_inv _ _ _ Hsp2) as (Hp2 & Hpe & Ee).
  assert (table_of (mem s) (dir s) v = table_of (mem (cow_shared (s := relocked s) (f := f) (f' := f'))) (dir s) v) as Et.
  { unfold table_of. f_equal. symmetry. by apply (same_dir Ht2), table_indices. }
  rewrite Et. wp_steps. apply (wp_load_pte Hs2 Hv' Hp2). rewrite Ee. wp_steps. apply (wp_store_pte Hs2 Hv' Hp2).
  unfold flush_tlb_entry, mutex_unlock. wp_steps. leave s. exists 0. split; [done|].
  destruct (shared_entry Hs0 Hf Hf1 Hu Hk Hfree Hr v e Hv Hsp) as (H1 & H2 & H3 & H4 & H5 & H6).
  split; [by apply sound_mutex, sound_invalidated|]. split; [by split|]. right. split; [done|]. split; [left|].
  exists f', (cow_entry f' e). split; [done|]. split; [done|]. split; [exact H2|]. split; [apply cow_entry_frame; cbn in Hf1; lia|].
  split; [apply cow_entry_flags|]. split; [exact H3|]. split; [exact H4|]. done.
Qed.

(** Up to the page table entry of a page that is mapped read-only. *)
Lemma write_fault_spec s v o e Q :
  sound s -> 0 <= v < 2 ^ 20 -> 0 <= o < 4096 -> space s v = Some e -> 0 <= e < 2 ^ 32 -> has_flag e PAGE_FLAG_WRITABLE = false ->
  wp (copy_on_write_fault (v * 4096) (4096 * table_of (mem s) (dir s) v + 4 * (v mod 1024)) (e / 4096) (4096 * (e / 4096)))
    (fun r s' => exists z, r = Some z /\ Q z s') (relocked s) ->
  wp (handle_page_fault (v * 4096 + o) true) Q s.
Proof.
  intros Hs Hv Ho Hsp He Hro Hcow. destruct (table_indices v Hv) as [Hi Hj]. assert (sound (relocked s)) as Hs0 by (by apply sound_mutex).
  destruct (space_inv _ _ _ Hsp) as (Hp & Hpe & Ee). unfold handle_page_fault. cbv zeta.
  rewrite (land_mask (v * 4096 + o)), Z.div_add_l, Z.div_small, Z.add_0_r by lia.
  rewrite <- (Z.add_0_r (v * 4096)), pd_index_of, pt_index_of, Z.add_0_r by lia. unfold mutex_lock. wp_steps. fold (relocked s).
  apply (wp_load_pde Hs0); [done|]. fold (present (word (mem (relocked s)) (dir (relocked s)) (v / 1024))).
  change (word (mem (relocked s)) (dir (relocked s))) with (word (mem s) (dir s)). rewrite Hp. cbn [negb].
  change (word (mem s) (dir s) (v / 1024)) with (word (mem (relocked s)) (dir (relocked s)) (v / 1024)).
  rewrite (table_address Hs0 Hv Hp). wp_steps. apply (wp_load_pte Hs0 Hv Hp). change (entry (mem (relocked s)) (dir (relocked s)) v) with (entry (mem s) (dir s) v).
  rewrite Ee. fold (present e). rewrite Hpe, Hro. cbn [negb andb]. rewrite land_mask by done. unfold PAGE_SIZE. rewrite Z.div_mul by lia.
  rewrite (Z.mul_comm (e / 4096)). wp_steps. eapply wp_mono; [exact Hcow|]. cbn beta. by intros r s' (z & -> & HQ).
Qed.

(** C7. A write to a page that is mapped read-only and whose frame has several references
    gets a copy. Assumed: a sound state as in [paging_refines_page_map]; a page above the
    memory there is; a shared frame inside that memory that is in use, holds neither a table
    nor a part of [page_info_array] and has 2 to 65535 references. Then the fault is
    handled exactly when a frame is free. The entry of this page, and no other, is changed
    to a frame that was free and now holds what the shared frame holds, with the same flags
    and writable, and is invalidated in the TLB; the new frame has one reference, the
    shared frame keeps its contents and has one less. When no frame is free the answer is
    -1 and nothing changes. *)
Theorem cow_fault_exact s v o e :
  sound s -> total_pages s <= v < 2 ^ 20 -> 0 <= o < 4096 ->
  space s v = Some e -> 0 <= e < 2 ^ 32 -> has_flag e PAGE_FLAG_WRITABLE = false ->
  e / 4096 < total_pages s -> is_free (mem s) (e / 4096) = false -> ~ kept (mem s) (dir s) (total_pages s) (e / 4096) ->
  1 < refs (mem s) (e / 4096) < 2 ^ 16 ->
  wp (handle_page_fault (v * 4096 + o) true) (cow_done s v e (e / 4096)) s.
Proof.
  intros Hs Hv Ho Hsp He Hro Hf Hu Hk Hr. pose proof (sound_n Hs). apply (write_fault_spec s v o e); [done|lia|done..|].
  apply copy_on_write_spec; try done. split; [apply Z.div_pos; lia|done].
Qed.

(** The last owner of a shared page may write to it again. *)
Theorem last_owner_writes s v o e :
  sound s -> total_pages s <= v < 2 ^ 20 -> 0 <= o < 4096 ->
  space s v = Some e -> 0 <= e < 2 ^ 32 -> has_flag e PAGE_FLAG_WRITABLE = false ->
  e / 4096 < total_pages s -> refs (mem s) (e / 4096) = 1 ->
  wp (handle_page_fault (v * 4096 + o) true) (fun r s' => r = 0 /\ sound s' /\ fixed s s' /\
    forall v', 0 <= v' < 2 ^ 20 -> space s' v' = if decide (v' = v) then Some (Z.lor e PAGE_FLAG_WRITABLE) else space s v') s.
Proof.
  intros Hs Hv Ho Hsp He Hro Hf Hr. pose proof (sound_n Hs). assert (0 <= v < 2 ^ 20) as Hv' by lia.
  assert (sound (relocked s)) as Hs0 by (by apply sound_mutex). destruct (space_inv _ _ _ Hsp) as (Hp & Hpe & Ee).
  apply (write_fault_spec s v o e); [done..|]. unfold copy_on_write_fault. wp_steps.
  apply (wp_load_references (sound_steady _ Hs0)); [split; [apply Z.div_pos; lia|done]|]. change (mem (relocked s)) with (mem s). rewrite Hr.
  change (1 <? 1) with false. change (1 =? 1) with true. cbv iota. wp_steps. apply (wp_load_pte Hs0 Hv' Hp).
  change (entry (mem (relocked s)) (dir (relocked s)) v) with (entry (mem s) (dir s) v). rewrite Ee. wp_steps.
  apply (wp_store_pte Hs0 Hv' Hp). unfold flush_tlb_entry, mutex_unlock. wp_steps. leave s. exists 0. split; [done|]. split; [done|].
  split; [|split; [by split|]].
  - apply sound_mutex, sound_invalidated. apply (entry_sound Hs0); [done..|exact (proj1 Hv)].
  - intros v' Hv''. etransitivity; [exact (entry_space Hs0 Hv' Hp _ v' Hv'')|]. case_decide; [|done]. unfold pte.
    by rewrite present_spec, <- Z.bit0_odd, Z.lor_spec, Z.bit0_odd, <- present_spec, Hpe.
Qed.

End PagingThms.
