(* ===== verification/PagingUser.v ===== *)
(** * Paging: memory for a user

    [paging_map_user_memory] maps fresh frames, and takes them back when it cannot map all
    of them. *)

From Stdlib Require Import ZArith Lia.
From stdpp Require Import base tactics option numbers list sets.
From S2P Require Import Prelude Paging PagingInv PagingThms.

Set Default Goal Selector "!".
Local Open Scope Z_scope.
Local Open Scope kernel_scope.

Module PagingUser.
Import Paging PagingInv PagingThms.

(** A frame in use that holds data. *)
Definition data_frame (s : machine) (f : Z) : Prop :=
  0 <= f < total_pages s /\ is_free (mem s) f = false /\ ~ kept (mem s) (dir s) (total_pages s) f.

Lemma grown_data_frame s s' f : grown s s' -> data_frame s f -> data_frame s' f.
Proof.
  intros Hg (H1 & H2 & H3). split; [by rewrite (fx_total _ _ (gr_fixed _ _ Hg))|]. split; [by eapply grown_used|by eapply grown_data].
Qed.

Lemma freed_data_frame s f g : sound s -> data_frame s f -> data_frame s g -> g <> f -> data_frame (freed s f) g.
Proof.
  intros Hs (F1 & F2 & F3) (G1 & G2 & G3) Hne. split; [done|]. split; [unfold is_free, state; by rewrite (freed_other F3)|].
  intros [?|[Ht|?]]; apply G3; [by left| |by right; right]. right; left. by apply (same_table_frame (freed_tables Hs F1 F3)).
Qed.

Lemma dropped_data_frame s f g : sound s -> data_frame s f -> data_frame s g -> data_frame (dropped s f) g.
Proof.
  intros Hs (F1 & _ & _) (G1 & G2 & G3). split; [done|]. split; [unfold dropped; by rewrite with_refs_free|].
  intros [?|[Ht|?]]; apply G3; [by left| |by right; right]. right; left.
  by apply (same_table_frame (sound_same_tables _ _ Hs (with_refs_only F1))) in Ht.
Qed.

(** Freeing a data frame keeps the tables and the other data frames, whatever
    [free_page] does with it. *)
Lemma free_data_frame s f Q : sound s -> data_frame s f ->
  (forall s', sound s' -> fixed s s' -> (forall v, 0 <= v < 2 ^ 20 -> space s' v = space s v) ->
     (forall g, data_frame s g -> g <> f -> data_frame s' g) -> Q tt s') ->
  wp (free_page (4096 * f)) Q s.
Proof.
  intros Hs Hd HQ. pose proof Hd as (F1 & F2 & F3). apply (free_page_spec s f _ Hs F1).
  - intros _. by apply HQ.
  - intros r _. by apply HQ.
  - intros _ _ _. apply HQ; [by apply with_refs_sound|by split|by apply with_refs_space|]. intros g Hg _. by apply dropped_data_frame.
  - intros _ _ _. apply HQ; [by apply freed_sound|by split|apply (same_translation (freed_tables Hs F1 F3))|].
    intros g Hg Hne. by apply freed_data_frame.
Qed.

(** The pages from [v0] on are backed by the frames [fs]. *)
Definition backed (s : machine) (v0 fl : Z) (fs : list Z) (j : nat) (f : Z) : Prop :=
  fs !! j = Some f -> space s (v0 + Z.of_nat j) = Some (f * 4096 + fl) /\ data_frame s f.

Section Undo.
Context {v0 fl : Z} {fs : list Z} (Hfl : 0 <= fl < 4096) (Hnd : NoDup fs).

(** Some pages are taken back, those from [j] on are not yet. *)
Record undone (s : machine) (j : Z) (s' : machine) : Prop := mk_undone {
  un_sound : sound s';
  un_fixed : fixed s s';
  un_space : forall v, 0 <= v < 2 ^ 20 -> space s' v = if decide (v0 <= v < v0 + j) then None else space s v;
  un_rest : forall k f, j <= Z.of_nat k -> fs !! k = Some f -> data_frame s' f;
}.

Context {s : machine} (Hs : sound s) (Hb : forall j f, backed s v0 fl fs j f).
Hypothesis Hv0 : total_pages s <= v0.
Hypothesis Hend : v0 + Z.of_nat (length fs) <= 2 ^ 20.
Hypothesis Hprot : forall j, 0 <= j < Z.of_nat (length fs) -> ~ protected s ((v0 + j) * 4096).

Lemma undo_step s1 j : 0 <= j < Z.of_nat (length fs) -> undone s j s1 ->
  wp (phys <- get_physical_address ((v0 + j) * 4096 + 0) ;; unmap_page ((v0 + j) * 4096 + 0) ;;; free_page phys)
    (fun _ s' => undone s (j + 1) s') s1.
Proof.
  intros Hj [H1 H2 H3 H4]. pose proof (sound_n Hs) as Hn. destruct (fs !! Z.to_nat j) as [f|] eqn:Ef.
  2: { apply lookup_ge_None in Ef. lia. }
  assert (Z.of_nat (Z.to_nat j) = j) as Ej by lia. destruct (Hb (Z.to_nat j) f Ef) as [Esp Hdf]. rewrite Ej in Esp.
  pose proof (H4 (Z.to_nat j) f ltac:(lia) Ef) as Hdf1. assert (0 <= f < 2 ^ 20) as Hfr by (destruct Hdf as ((? & ?) & _); lia).
  wp_steps. eapply wp_mono; [apply physical_address_spec; [done|lia|lia]|]. cbn beta. intros r s2 [-> ->].
  rewrite sound_walk, H3 by (done || lia). case_decide; [lia|]. rewrite Esp. cbn [fmap option_fmap option_map default].
  rewrite land_mask, Z.div_add_l, (Z.div_small fl), (Z.add_0_r f), Z.lor_0_r, (Z.mul_comm f) by lia.
  wp_steps. eapply wp_mono; [apply paging_unmap_spec; [done| |lia]|].
  { rewrite (fx_total _ _ H2). lia. }
  cbn beta. intros [] s2 (G1 & G2 & [[Hp _]|(_ & _ & G3)]).
  { destruct (Hprot j Hj). revert Hp. unfold protected. rewrite (fx_regions _ _ H2). by rewrite Z.add_0_r. }
  apply free_data_frame; [done|by eapply grown_data_frame|]. intros s3 K1 K2 K3 K4. split.
  - done.
  - etrans; [exact H2|]. etrans; [apply G2|exact K2].
  - intros v Hv. rewrite K3, G3, H3 by done. repeat case_decide; try done; lia.
  - intros k g Hk Hg. apply K4; [|intros ->].
    + eapply grown_data_frame; [exact G2|]. apply (H4 k g); [lia|done].
    + pose proof (NoDup_lookup _ _ _ _ Hnd Hg Ef). lia.
Qed.

Lemma undo_spec : 0 <= v0 -> wp (undo_user_pages (v0 * 4096) (Z.of_nat (length fs))) (fun _ s' => undone s (Z.of_nat (length fs)) s') s.
Proof.
  intros H0. unfold undo_user_pages. apply (wp_mfor_seqZ (undone s)); [lia|..].
  - split; [done|done|intros v Hv; case_decide; [lia|done]|]. intros k f _ Hf. by apply (Hb k f Hf).
  - intros j s1 Hj H1. replace (u32 (v0 * 4096 + j * PAGE_SIZE)) with ((v0 + j) * 4096 + 0).
    + by apply undo_step.
    + unfold PAGE_SIZE. rewrite u32_small; lia.
Qed.

End Undo.

(** A loop that may end early. *)
Lemma wp_all_rounds {T} (I : Z -> T -> Prop) (F : T -> Prop) a n (body : Z -> M T bool) s : 0 <= n -> I a s ->
  (forall i s, a <= i < a + n -> I i s -> wp (body i) (fun b s' => if (b : bool) then I (i + 1) s' else F s') s) ->
  wp (all_rounds (seqZ a n) body) (fun b s' => if (b : bool) then I (a + n) s' else F s') s.
Proof.
  intros Hn. rewrite <- (Z2Nat.id n) by done. generalize (Z.to_nat n). clear n Hn. intros k. revert a s.
  induction k as [|k IH]; intros a s HI Hb.
  - cbn. rewrite Z.add_0_r. by apply wp_ret.
  - rewrite (seqZ_cons a) by lia. cbn [all_rounds]. wp_steps. eapply wp_mono; [apply Hb; [lia|done]|]. cbn beta. intros [] s' HI'; [|by wp_steps].
    replace (Z.pred (Z.of_nat (S k))) with (Z.of_nat k) by lia. replace (a + Z.of_nat (S k)) with (Z.succ a + Z.of_nat k) by lia.
    apply IH; [done|]. intros i s1 Hi. apply Hb. lia.
Qed.

(** ** The frames a region needs *)

(** Whether a page of the region from [v0] on needs a table of its own: its 4 MB have none,
    and it is the first page of the region in them. *)
Definition needs_table (s : machine) (v0 v : Z) : bool := ((v =? v0) || (v mod 1024 =? 0)) && negb (has_table s (v / 1024)).

Definition missing_tables (s : machine) (v0 k : Z) : Z := Z.of_nat (length (base.filter (fun v => needs_table s v0 v = true) (seqZ v0 k))).

(** The first [j] pages of the region reach into the table [i]. *)
Definition touched (v0 j i : Z) : bool := (0 <? j) && (v0 / 1024 <=? i) && (1024 * i <? v0 + j).

Lemma missing_more s v0 j : 0 <= j ->
  missing_tables s v0 (j + 1) = missing_tables s v0 j + (if needs_table s v0 (v0 + j) then 1 else 0).
Proof.
  intros Hj. unfold missing_tables. rewrite (seqZ_app v0 j 1) by lia. rewrite filter_app, length_app, (seqZ_cons _ 1) by lia.
  rewrite (seqZ_nil _ (Z.pred 1)), filter_cons by lia. destruct (needs_table s v0 (v0 + j)); case_decide; cbn; try done; lia.
Qed.

Lemma missing_mono s v0 j k : 0 <= j <= k -> missing_tables s v0 j <= missing_tables s v0 k.
Proof.
  intros Hj. unfold missing_tables. replace k with (j + (k - j)) by lia. rewrite (seqZ_app v0 j (k - j)) by lia. rewrite filter_app, length_app. lia.
Qed.

Lemma table_touched s v0 j (b : bool) : 0 <= j -> b = has_table s ((v0 + j) / 1024) || touched v0 j ((v0 + j) / 1024) ->
  (if needs_table s v0 (v0 + j) then 1 else 0) = (if b then 0 else 1).
Proof.
  intros Hj ->. unfold needs_table, touched. pose proof (Z.div_mod (v0 + j) 1024). pose proof (Z.mod_pos_bound (v0 + j) 1024).
  assert (v0 / 1024 <= (v0 + j) / 1024) by (apply Z.div_le_mono; lia).
  destruct (has_table s ((v0 + j) / 1024)); [by rewrite andb_false_r|]. cbn [negb orb]. rewrite andb_true_r.
  destruct (Z.eqb_spec (v0 + j) v0), (Z.eqb_spec ((v0 + j) mod 1024) 0), (Z.ltb_spec 0 j), (Z.leb_spec (v0 / 1024) ((v0 + j) / 1024)),
    (Z.ltb_spec (1024 * ((v0 + j) / 1024)) (v0 + j)); cbn; try done; lia.
Qed.

Lemma touched_more v0 j i : 0 <= j -> touched v0 (j + 1) i = touched v0 j i || (i =? (v0 + j) / 1024).
Proof.
  intros Hj. unfold touched. pose proof (Z.div_mod (v0 + j) 1024). pose proof (Z.mod_pos_bound (v0 + j) 1024).
  pose proof (Z.div_mod v0 1024). pose proof (Z.mod_pos_bound v0 1024).
  assert (v0 / 1024 <= (v0 + j) / 1024) by (apply Z.div_le_mono; lia).
  destruct (Z.ltb_spec 0 (j + 1)), (Z.ltb_spec 0 j), (Z.leb_spec (v0 / 1024) i), (Z.ltb_spec (1024 * i) (v0 + (j + 1))),
    (Z.ltb_spec (1024 * i) (v0 + j)), (Z.eqb_spec i ((v0 + j) / 1024)); cbn; try done; nia.
Qed.

Section User.
Context {s : machine} (Hs : sound s) {v0 k : Z} {writable executable : bool}.
Hypothesis Hv0 : total_pages s <= v0.
Hypothesis Hend : v0 + k <= 2 ^ 20.
Hypothesis Hprot : forall j, 0 <= j < k -> ~ protected s ((v0 + j) * 4096).

Local Abbreviation fl := (user_flags writable executable).

Lemma user_flags_range : 0 <= fl < 4096 /\ Z.odd fl = true.
Proof. by destruct writable, executable. Qed.

Lemma user_entry f : 0 <= f < 2 ^ 20 -> pte (with_flags (4096 * f) fl) = Some (f * 4096 + fl).
Proof.
  intros Hf. destruct user_flags_range as [Hr Hodd]. unfold with_flags. rewrite land_mask, land_low, (Z.mul_comm 4096), Z.div_mul, (Z.mod_small fl) by lia.
  rewrite lor_low by done. unfold pte. by rewrite present_spec, Z.odd_add, Z.odd_mul, andb_false_r, Hodd.
Qed.

(** The frames [fs] were free, and are now the first pages of the user, with nothing in them. *)
Record given (fs : list Z) (s' : machine) : Prop := mk_given {
  gv_sound : sound s';
  gv_grown : grown s s';
  gv_nodup : NoDup fs;
  gv_backed : forall j f, backed s' v0 fl fs j f;
  gv_fresh : forall f, f ∈ fs -> is_free (mem s) f = true;
  gv_zero : forall f i, f ∈ fs -> 0 <= i < 1024 -> word (mem s') f i = 0;
  gv_other : forall v, 0 <= v < 2 ^ 20 -> ~ v0 <= v < v0 + Z.of_nat (length fs) -> space s' v = space s v;
  gv_tables : forall i, 0 <= i < 1024 -> has_table s' i = has_table s i || touched v0 (Z.of_nat (length fs)) i;
  gv_count : free_count s' = free_count s - Z.of_nat (length fs) - missing_tables s v0 (Z.of_nat (length fs));
}.

(** There are not enough frames for the pages and the tables they need. *)
Definition short : Prop := free_count s < k + missing_tables s v0 k.

Lemma short_at j : 0 <= j <= k -> free_count s < j + missing_tables s v0 j -> short.
Proof. intros Hj H. pose proof (missing_mono s v0 j k Hj). unfold short. lia. Qed.

(** Everything is taken back: of the pages that were to be mapped some have no mapping. *)
Definition taken_back (s' : machine) : Prop :=
  sound s' /\ fixed s s' /\ exists i, 0 <= i <= k /\
    forall v, 0 <= v < 2 ^ 20 -> space s' v = if decide (v0 <= v < v0 + i) then None else space s v.

Lemma given_protected s' j : fixed s s' -> 0 <= j < k -> ~ protected s' ((v0 + j) * 4096).
Proof. intros Hx Hj. unfold protected. rewrite (fx_regions _ _ Hx). by apply Hprot. Qed.

Lemma given_undo fs s1 s2 : given fs s1 -> Z.of_nat (length fs) <= k ->
  sound s2 -> fixed s1 s2 -> (forall v, 0 <= v < 2 ^ 20 -> space s2 v = space s1 v) -> (forall f, f ∈ fs -> data_frame s2 f) ->
  wp (undo_user_pages (v0 * 4096) (Z.of_nat (length fs)) ;;; ret false) (fun b s' => if (b : bool) then False else taken_back s') s2.
Proof.
  intros [H1 H2 H3 H4 H5 H6 H7 H8 H9] Hk G1 G2 G3 G4. pose proof (sound_n Hs) as Hn. assert (fixed s s2) as Hx by (etrans; [apply H2|done]).
  wp_steps. eapply wp_mono; [apply (@undo_spec v0 fl fs (proj1 user_flags_range) H3 s2 G1)|].
  - intros j f Hf. pose proof (lookup_lt_Some _ _ _ Hf). destruct (H4 j f Hf) as [E _]. split; [by rewrite G3 by lia|].
    apply G4. by eapply list_elem_of_lookup_2.
  - by rewrite (fx_total _ _ Hx).
  - lia.
  - intros j Hj. apply given_protected; [done|lia].
  - lia.
  - cbn beta. intros [] s3 [U1 U2 U3 _]. wp_steps. split; [done|]. split; [by etrans|]. exists (Z.of_nat (length fs)). split; [lia|].
    intros v Hv. rewrite U3, G3 by done. case_decide; [done|]. by apply H7.
Qed.

Lemma given_more fs s1 s2 f :
  given fs s1 -> Z.of_nat (length fs) < k -> 0 < f < total_pages s1 -> is_free (mem s1) f = true -> sound s2 -> grown (allocated s1 f) s2 ->
  took_table (allocated s1 f) ((v0 + Z.of_nat (length fs)) / 1024) s2 -> 0 <= v0 ->
  (forall v, 0 <= v < 2 ^ 20 -> space s2 v =
     if decide (v = v0 + Z.of_nat (length fs)) then Some (f * 4096 + fl) else space (allocated s1 f) v) ->
  given (fs ++ [f]) s2.
Proof.
  intros Hg Hk Hf Hfree S2 G2 [T1 T2] H0 Hsp. pose proof Hg as [H1 H2 H3 H4 H5 H6 H7 H8 H9]. pose proof (sound_n Hs) as Hn.
  assert (0 <= f < total_pages s1) as Hf' by lia. pose proof (allocated_grown H1 f Hf' Hfree) as G1.
  assert (grown s1 s2) as G12 by (etrans; [exact G1|exact G2]).
  assert (forall v, 0 <= v < 2 ^ 20 -> space (allocated s1 f) v = space s1 v) as Esp by (apply (same_translation (allocated_tables H1 Hf' Hfree))).
  assert (data_frame (allocated s1 f) f) as Hd.
  { split; [done|]. split; [unfold is_free; by rewrite (allocated_state H1 Hf' Hfree)|by apply (allocated_data H1)]. }
  assert (forall g, g ∈ fs -> data_frame s1 g) as Hfs.
  { intros g (j & Hj)%list_elem_of_lookup_1. by apply (H4 j g Hj). }
  assert (forall i, 0 <= i < 1024 -> has_table (allocated s1 f) i = has_table s1 i) as Htab.
  { intros i Hi. unfold has_table. f_equal. by apply (same_dir (allocated_tables H1 Hf' Hfree)). }
  assert (0 <= (v0 + Z.of_nat (length fs)) / 1024 < 1024) as Hidx.
  { split; [apply Z.div_pos; lia|apply Z.div_lt_upper_bound; lia]. }
  split; [done|by etrans|..].
  - apply NoDup_app. split; [done|]. split; [|apply NoDup_singleton]. intros g Hgf ->%list_elem_of_singleton. destruct (Hfs f Hgf) as (_ & ? & _). congruence.
  - intros j g Hj. apply lookup_app_Some in Hj as [Hj|[Hl Hj]].
    + destruct (H4 j g Hj) as [E D]. pose proof (lookup_lt_Some _ _ _ Hj). split; [|by eapply grown_data_frame].
      rewrite Hsp by lia. case_decide; [lia|]. by rewrite Esp by lia.
    + apply list_lookup_singleton_Some in Hj as [Hj ->]. replace j with (length fs) by lia. split; [|by apply (grown_data_frame _ _ _ G2)].
      rewrite Hsp by lia. by case_decide.
  - intros g [Hgf| ->%list_elem_of_singleton]%elem_of_app; [by apply H5|]. destruct (is_free (mem s) f) eqn:E; [done|].
    rewrite (grown_used _ _ f H2) in Hfree; [done| |done]. by rewrite <- (fx_total _ _ (gr_fixed _ _ H2)).
  - intros g i [Hgf| ->%list_elem_of_singleton]%elem_of_app Hi.
    + destruct (Hfs g Hgf) as (D1 & D2 & D3). rewrite (gr_data _ _ G12) by done. by apply H6.
    + destruct Hd as (D1 & D2 & D3). rewrite (gr_data _ _ G2) by done. by apply allocated_zero.
  - intros v Hv Hout. rewrite length_app in Hout. cbn in Hout. rewrite Hsp, Esp by done. case_decide; [lia|]. apply H7; [done|lia].
  - intros i Hi. rewrite length_app, Nat2Z.inj_add, touched_more, T1, Htab, H8, orb_assoc by (done || lia). done.
  - rewrite length_app, Nat2Z.inj_add. change (Z.of_nat (length [f])) with 1. rewrite missing_more by lia.
    rewrite (table_touched s v0 (Z.of_nat (length fs)) _ ltac:(lia) eq_refl), <- H8, <- Htab by done.
    rewrite T2, (allocated_count H1 Hf' Hfree), H9. destruct (has_table _ _); lia.
Qed.

(** A page could not be mapped for want of a table. *)
Lemma map_short fs s1 f : given fs s1 -> 0 <= v0 -> Z.of_nat (length fs) < k -> 0 <= f < total_pages s1 -> is_free (mem s1) f = true ->
  no_free_frame (allocated s1 f) /\ has_table (allocated s1 f) ((v0 + Z.of_nat (length fs)) / 1024) = false -> short.
Proof.
  intros Hg H0 Hk Hf Hfree [Hno Ht]. pose proof Hg as [H1 H2 H3 H4 H5 H6 H7 H8 H9].
  assert (has_table s1 ((v0 + Z.of_nat (length fs)) / 1024) = false) as Ht1.
  { rewrite <- Ht. unfold has_table. f_equal. symmetry. apply (same_dir (allocated_tables H1 Hf Hfree)).
    split; [apply Z.div_pos; lia|apply Z.div_lt_upper_bound; lia]. }
  pose proof (none_free _ (allocated_sound H1 Hf Hfree) Hno) as Hc. rewrite (allocated_count H1 Hf Hfree) in Hc.
  apply (short_at (Z.of_nat (length fs) + 1)); [lia|]. rewrite missing_more by lia.
  rewrite (table_touched s v0 (Z.of_nat (length fs)) _ ltac:(lia) eq_refl), <- H8, Ht1; [lia|].
  split; [apply Z.div_pos; lia|apply Z.div_lt_upper_bound; lia].
Qed.

Lemma user_round fs s1 : 0 <= v0 -> given fs s1 -> Z.of_nat (length fs) < k ->
  wp (map_user_page (v0 * 4096) fl (Z.of_nat (length fs)))
    (fun b s' => if (b : bool) then exists f, given (fs ++ [f]) s' else short /\ taken_back s') s1.
Proof.
  intros H0 Hg Hk. pose proof Hg as [H1 H2 H3 H4 H5 H6 H7 H8 H9]. pose proof (sound_n Hs) as Hn. pose proof (fx_total _ _ (gr_fixed _ _ H2)) as En.
  assert (forall g, g ∈ fs -> data_frame s1 g) as Hfs by (intros g (j & Hj)%list_elem_of_lookup_1; by apply (H4 j g Hj)).
  unfold map_user_page. wp_steps. apply (allocate_page_spec s1 _ H1).
  { intros Hno. change (0 =? 0) with true. cbv iota. eapply wp_mono; [apply (given_undo fs s1 s1 Hg); try done; lia|]. intros [] s'; [done|].
    intros Ht. split; [|done]. pose proof (none_free s1 H1 Hno). apply (short_at (Z.of_nat (length fs) + 1)); [lia|].
    rewrite missing_more by lia. destruct (needs_table _ _ _); lia. }
  intros f Hf Hfree _. assert (0 <= f < total_pages s1) as Hf' by lia. destruct (Z.eqb_spec (4096 * f) 0); [lia|].
  replace (u32 (v0 * 4096 + Z.of_nat (length fs) * PAGE_SIZE)) with ((v0 + Z.of_nat (length fs)) * 4096 + 0).
  2: { unfold PAGE_SIZE. rewrite u32_small; lia. }
  wp_steps. pose proof (allocated_sound H1 Hf' Hfree) as S2. pose proof (allocated_grown H1 f Hf' Hfree) as G2.
  eapply wp_mono; [apply (paging_map_spec (allocated s1 f)); [done| |lia]|].
  { change (total_pages (allocated s1 f)) with (total_pages s1). lia. }
  cbn beta. intros r s3 (S3 & G3 & [(-> & -> & Hwhy)|(-> & _ & _ & Htook & Hsp)]).
  - change (negb (-1 =? 0)) with true. cbv iota. wp_steps. apply free_data_frame; [done|..].
    { split; [done|]. split; [unfold is_free; by rewrite (allocated_state H1 Hf' Hfree)|by apply (allocated_data H1)]. }
    intros s4 S4 X4 E4 D4. eapply wp_mono; [apply (given_undo fs s1 s4 Hg)|intros [] s'; [done|intros Ht; split; [|done]]]; try done.
    + lia.
    + etrans; [apply (gr_fixed _ _ G2)|done].
    + intros v Hv. rewrite E4 by done. by apply (same_translation (allocated_tables H1 Hf' Hfree)).
    + intros g Hgf. apply D4; [by apply (grown_data_frame _ _ _ G2), Hfs|]. intros ->. destruct (Hfs f Hgf) as (_ & ? & _). congruence.
    + apply (map_short fs s1 f Hg); try done. destruct Hwhy as [Hp|Hwhy]; [|done]. revert Hp. unfold protected.
      change (protected_regions (allocated s1 f)) with (protected_regions s1). rewrite Z.add_0_r, (fx_regions _ _ (gr_fixed _ _ H2)).
      intros Hp. by destruct (Hprot (Z.of_nat (length fs)) ltac:(lia)).
  - change (negb (0 =? 0)) with false. cbv iota. wp_steps. exists f. apply (given_more fs s1 s3 f); try done. intros v Hv.
    rewrite Hsp by done. case_decide; [|done]. apply user_entry. lia.
Qed.

Lemma user_rounds : 0 <= k -> wp (all_rounds (seqZ 0 k) (map_user_page (v0 * 4096) fl))
  (fun b s' => if (b : bool) then exists fs, Z.of_nat (length fs) = k /\ given fs s' else short /\ taken_back s') s.
Proof.
  intros Hk. pose proof (sound_n Hs).
  apply (wp_all_rounds (fun i s' => exists fs, Z.of_nat (length fs) = i /\ given fs s') (fun s' => short /\ taken_back s') 0 k _ _ Hk).
  - exists []. split; [done|]. split; try done; [apply NoDup_nil_2|set_solver|set_solver|intros i _; by rewrite orb_false_r|].
    change (missing_tables s v0 (Z.of_nat (length []))) with 0. cbn. lia.
  - intros i s1 Hi (fs & <- & Hg). eapply wp_mono; [apply (user_round fs s1); [lia|done|lia]|].
    intros [] s'; [|done]. intros (f & Hf). exists (fs ++ [f]). rewrite length_app. cbn. split; [lia|done].
Qed.

End User.

(** The pages of a region of [size] bytes at [virtual]. *)
Definition region_pages (virtual size : Z) : Z := (virtual + size + 4095) / 4096 - virtual / 4096.

(** What [paging_map_user_memory] answers and leaves: it succeeds when there are frames for
    the pages and the tables they need. *)
Definition user_memory (s : machine) (virtual size : Z) (writable executable : bool) (r : Z) (s' : machine) : Prop :=
  let needed := region_pages virtual size + missing_tables s (virtual / 4096) (region_pages virtual size) in
  (needed <= free_count s /\ r = 0 /\ exists fs, Z.of_nat (length fs) = region_pages virtual size /\
     given (s := s) (v0 := virtual / 4096) (writable := writable) (executable := executable) fs s') \/
  (free_count s < needed /\ r = -1 /\ taken_back (s := s) (v0 := virtual / 4096) (k := region_pages virtual size) s').

Lemma user_memory_spec s virtual size writable executable :
  sound s -> 4096 * total_pages s <= virtual < 0xC0000000 -> 0 <= size -> virtual + size + 4095 < 2 ^ 32 ->
  (forall j, 0 <= j < region_pages virtual size -> ~ protected s ((virtual / 4096 + j) * 4096)) ->
  wp (paging_map_user_memory virtual size writable executable) (user_memory s virtual size writable executable) s.
Proof.
  intros Hs Hv Hsz Hend Hprot. pose proof (sound_n Hs) as Hn. unfold paging_map_user_memory. destruct (Z.leb_spec 0xC0000000 virtual); [lia|].
  rewrite land_mask by lia. unfold PAGE_SIZE. rewrite Z.div_mul by lia. replace (virtual + size + 4096 - 1) with (virtual + size + 4095) by lia.
  assert (virtual / 4096 <= (virtual + size + 4095) / 4096) as Hle by (apply Z.div_le_mono; lia).
  assert (0 <= virtual / 4096) as H0 by (apply Z.div_pos; lia).
  assert ((virtual + size + 4095) / 4096 < 2 ^ 20) as Hlt by (apply Z.div_lt_upper_bound; lia).
  rewrite (u32_small (virtual + size + 4095)), u32_small by lia. fold (region_pages virtual size).
  assert (total_pages s <= virtual / 4096) as Hv0 by (apply Z.div_le_lower_bound; lia).
  wp_steps. eapply wp_mono; [apply (user_rounds Hs Hv0 (k := region_pages virtual size)); unfold region_pages in *; [lia|done|lia]|].
  intros [] s'.
  - intros (fs & Hl & [H1 H2 H3 H4 H5 H6 H7 H8 H9]). unfold count. wp_steps. left.
    split; [pose proof (free_count_pos _ H1); rewrite Hl in H9; lia|]. split; [done|]. exists fs. split; [done|].
    split; try done; [by apply sound_stats|]. etrans; [exact H2|]. by apply grown_upd.
  - intros [Hsh Ht]. wp_steps. right. split; [exact Hsh|done].
Qed.

(** C8. Memory for a user. Assumed: a sound state as in [paging_refines_page_map] (which
    [paging_init] alone does not leave); a region that starts above the memory there is
    and below 0xC0000000, whose end rounded up to a page is below 2^32, and that has no
    protected page. Then [paging_map_user_memory] succeeds exactly when there are
    free frames for the pages of the region and for the tables they lack. Then every page
    of the region is mapped to a frame of its own that was free and holds only zeros, with
    the flags asked for, whatever was mapped there before; no other page changes. When it fails
    the answer is -1 and the first pages of the region are not mapped, even those that
    were before; all other pages are as they were. That the frames are counted as
    free again is not claimed: frames in a protected region are never given back. *)
Theorem user_memory_exact s virtual size writable executable :
  sound s -> 4096 * total_pages s <= virtual < 0xC0000000 -> 0 <= size -> virtual + size + 4095 < 2 ^ 32 ->
  (forall j, 0 <= j < region_pages virtual size -> ~ protected s ((virtual / 4096 + j) * 4096)) ->
  wp (paging_map_user_memory virtual size writable executable) (user_memory s virtual size writable executable) s.
Proof. intros. by apply user_memory_spec. Qed.

(** The end of the region is not looked at: two pages at 0xBFFFF000 are mapped for the
    user, and the second is the first page of the kernel's half of the address space. *)
Theorem user_region_reaches_kernel s writable executable :
  sound s -> ~ protected s 0xBFFFF000 -> ~ protected s 0xC0000000 ->
  wp (paging_map_user_memory 0xBFFFF000 0x2000 writable executable) (fun r s' => r = 0 ->
    exists f, is_free (mem s) f = true /\ space s' 0xC0000 = Some (f * 4096 + user_flags writable executable)) s.
Proof.
  intros Hs H1 H2. pose proof (sound_n Hs) as Hn. eapply wp_mono; [apply user_memory_spec; [done|lia|lia|lia|]|].
  - change (region_pages 0xBFFFF000 0x2000) with 2. change (0xBFFFF000 / 4096) with 0xBFFFF. intros j Hj.
    destruct (Z.eq_dec j 0) as [->|]; [exact H1|]. replace j with 1 by lia. exact H2.
  - cbn beta. intros r s' [(_ & -> & fs & Hl & Hg)|(_ & -> & _)] E; [|done]. change (region_pages 0xBFFFF000 0x2000) with 2 in Hl.
    destruct (fs !! 1%nat) as [f|] eqn:Ef; [|apply lookup_ge_None in Ef; lia]. exists f.
    split; [by apply (gv_fresh _ _ Hg), (list_elem_of_lookup_2 _ 1)|]. by destruct (gv_backed _ _ Hg 1%nat f Ef) as [? _].
Qed.

End PagingUser.
