(* ===== verification/PagingBoot.v ===== *)
(** * Paging: after [paging_init]

    What [paging_init] leaves in memory, that its tables are right, and what happens to
    them: the frames that hold [page_info_array] are free, so the first frame handed out is
    the array itself. With these frames reserved the state is sound. *)

From Stdlib Require Import ZArith Lia String.
From stdpp Require Import base tactics option numbers list sets strings.
From S2P Require Import Prelude Paging PagingInv PagingThms PagingUser.

Set Default Goal Selector "!".
Local Open Scope Z_scope.
Local Open Scope kernel_scope.

Module PagingBoot.
Import Paging PagingInv PagingThms PagingUser.

(** ** Stores before paging is on *)

Section Off.
Context {s : machine} {n : Z} (Hoff : paging_on s = false) (Hn : 4096 * n <= memsize s).

Lemma off_direct m' : direct (set_mem m' s) n.
Proof. by apply direct_off. Qed.

(** Words from [base] on, in a loop. *)
Lemma fill_spec base k (g : Z -> Z) : 0 <= base -> base mod 4 = 0 -> 0 <= k -> base + 4 * k <= 4096 * n ->
  wp (mfor (seqZ 0 k) (fun j => store32 (base + 4 * j) (g j)))
    (fun _ s' => exists m', s' = set_mem m' s /\ (forall j, 0 <= j < k -> m' (base + 4 * j) = g j) /\
       forall x, ~ base <= x < base + 4 * k -> m' x = mem s x) s.
Proof.
  intros Hb Hm Hk Hr. change k with (0 + k) at 2 3. apply wp_mfor_seqZ with (I := fun i s' => exists m', s' = set_mem m' s /\
    (forall j, 0 <= j < i -> m' (base + 4 * j) = g j) /\ forall x, ~ base <= x < base + 4 * i -> m' x = mem s x); [done|..].
  { exists (mem s). split; [by destruct s|]. split; [lia|done]. }
  intros i s1 Hi (m1 & -> & H1 & H2). apply (wp_store32 (off_direct m1)); [lia|lia|..].
  { apply (aligned _ (base / 4 + i)). pose proof (Z.div_mod base 4). lia. }
  exists (stored m1 (base + 4 * i) (g i)). split; [done|]. split.
  - intros j Hj. unfold stored. destruct (Z.eqb_spec (base + 4 * j) (base + 4 * i)); [f_equal; lia|]. apply H1. lia.
  - intros x Hx. unfold stored. destruct (Z.eqb_spec x (base + 4 * i)); [lia|]. apply H2. lia.
Qed.

Lemma fill_words base k : 0 <= base -> base mod 4 = 0 -> 0 <= k -> base + 4 * k <= 4096 * n ->
  wp (clear_words base k) (fun _ s' => exists m', s' = set_mem m' s /\ (forall j, 0 <= j < k -> m' (base + 4 * j) = 0) /\
    forall x, ~ base <= x < base + 4 * k -> m' x = mem s x) s.
Proof. intros. by apply (fill_spec base k (fun _ => 0)). Qed.

End Off.

(** An entry of the tables of [paging_init]. *)
Definition boot_entry (v : Z) : Z := v * 4096 + 0x103.

Lemma boot_entry_bits i j : 0 <= i < 4 -> 0 <= j < 1024 ->
  Z.lor (Z.lor (Z.lor (u32 ((i * PAGE_TABLE_ENTRIES + j) * PAGE_SIZE)) PAGE_FLAG_PRESENT) PAGE_FLAG_WRITABLE) PAGE_FLAG_GLOBAL
    = boot_entry (i * 1024 + j).
Proof.
  intros Hi Hj. unfold PAGE_TABLE_ENTRIES, PAGE_SIZE. rewrite u32_small by lia. rewrite <- !Z.lor_assoc. by apply lor_low.
Qed.

(** One table: its entries, and the entry of the directory for it. *)
Lemma boot_table_spec s n t i idx :
  paging_on s = false -> 4096 * n <= memsize s -> current_page_directory s = 4096 -> 1 < t < n -> 0 <= i < 4 -> 0 <= idx < 1024 ->
  wp (map_boot_table (4096 * t) i idx) (fun _ s' => exists m', s' = set_mem m' s /\
    (forall j, 0 <= j < 1024 -> word m' t j = boot_entry (i * 1024 + j)) /\ word m' 1 idx = t * 4096 + 3 /\
    (forall x, x / 4096 <> t -> x <> 4096 + 4 * idx -> m' x = mem s x)) s.
Proof.
  intros Hoff Hm Hcpd Ht Hi Hidx. unfold map_boot_table. wp_steps.
  apply (wp_clear_page (n := n)); [by apply direct_off|lia|]. wp_steps. unfold PAGE_TABLE_ENTRIES at 1. eapply wp_mono.
  { apply (fill_spec (n := n) (s := set_mem (cleared (mem s) t) s) Hoff Hm (4096 * t) 1024 (fun j =>
      Z.lor (Z.lor (Z.lor (u32 ((i * PAGE_TABLE_ENTRIES + j) * PAGE_SIZE)) PAGE_FLAG_PRESENT) PAGE_FLAG_WRITABLE) PAGE_FLAG_GLOBAL)); [lia| |lia|lia].
    apply (aligned _ (1024 * t)). lia. }
  intros _ s1 (m1 & -> & H1 & H2). wp_steps. cbn [current_page_directory set_mem]. rewrite Hcpd.
  apply (wp_store32 (n := n)); [by apply direct_off|lia|lia|apply (aligned _ (1024 + idx)); lia|].
  exists (stored m1 (4096 * 1 + 4 * idx) (t * 4096 + 3)). split; [|split; [|split]].
  - cbn [mem set_mem]. rewrite <- Z.lor_assoc. change (Z.lor PAGE_FLAG_PRESENT PAGE_FLAG_WRITABLE) with 3. by rewrite (Z.mul_comm 4096), lor_low.
  - intros j Hj. rewrite stored_word by done. case_decide; [lia|]. unfold word. rewrite H1 by done. by apply boot_entry_bits.
  - rewrite stored_word by done. case_decide as Hx; [done|by destruct Hx].
  - intros x Hx Hx'. unfold stored. destruct (Z.eqb_spec x (4096 * 1 + 4 * idx)); [lia|]. rewrite H2.
    + by apply (only_cleared (fun g => g = t)).
    + intros H. apply Hx, frame_bounds. lia.
Qed.

(** ** The tables *)

(** The entry [i] of the directory after [k] of the eight tables: four for the first 16 MB
    and four for the same memory at 0xC0000000. *)
Definition boot_pde (k i : Z) : Z :=
  if decide (0 <= i < 4 /\ i < k) then (i + 2) * 4096 + 3
  else if decide (768 <= i < 772 /\ i - 764 < k) then (i - 762) * 4096 + 3
  else 0.

Record boot_tables (k : Z) (m : Z -> Z) : Prop := mk_boot_tables {
  bt_dir : forall i, 0 <= i < 1024 -> word m 1 i = boot_pde k i;
  bt_tab : forall t j, 2 <= t < 2 + k -> 0 <= j < 1024 -> word m t j = boot_entry ((t - 2) mod 4 * 1024 + j);
}.

Definition boot_index (k : Z) : Z := if k <? 4 then k else 764 + k.

Lemma boot_tables_step k m m' :
  0 <= k < 8 -> boot_tables k m -> (forall j, 0 <= j < 1024 -> word m' (2 + k) j = boot_entry (k mod 4 * 1024 + j)) ->
  word m' 1 (boot_index k) = (2 + k) * 4096 + 3 ->
  (forall x, x / 4096 <> 2 + k -> x <> 4096 + 4 * boot_index k -> m' x = m x) -> boot_tables (k + 1) m'.
Proof.
  intros Hk [H1 H2] Ht Hd Hx. split.
  - intros i Hi. destruct (Z.eq_dec i (boot_index k)) as [->|Hne].
    + rewrite Hd. unfold boot_pde, boot_index. destruct (Z.ltb_spec k 4); repeat case_decide; lia.
    + transitivity (word m 1 i).
      * unfold word. apply Hx; [rewrite word_frame by done; lia|lia].
      * rewrite H1 by done. revert Hne. unfold boot_pde, boot_index. destruct (Z.ltb_spec k 4); repeat case_decide; lia.
  - intros t j Ht' Hj. destruct (Z.eq_dec t (2 + k)) as [->|Hne].
    + rewrite Ht by done. by replace (2 + k - 2) with k by lia.
    + rewrite <- H2 by lia. unfold word. apply Hx; [by rewrite word_frame|]. unfold boot_index. destruct (Z.ltb_spec k 4); lia.
Qed.

Lemma boot_pde_cases i : 0 <= i < 1024 ->
  (present (boot_pde 8 i) = false /\ ~ 0 <= i < 4) \/
  (exists t, 2 <= t < 10 /\ boot_pde 8 i = t * 4096 + 3 /\ boot_pde 8 i / 4096 = t /\
     ((i = t - 2 /\ t < 6) \/ (i = t + 762 /\ 6 <= t))).
Proof.
  intros Hi. unfold boot_pde. case_decide as H1; [|case_decide as H2].
  - right. exists (i + 2). split; [lia|]. split; [done|]. split; [rewrite Z.div_add_l, Z.div_small; lia|]. left. lia.
  - right. exists (i - 762). split; [lia|]. split; [done|]. split; [rewrite Z.div_add_l, Z.div_small; lia|]. right. lia.
  - left. split; [done|]. lia.
Qed.

(** The tables of [paging_init] map the first 16 MB to themselves. *)
Lemma boot_tables_ok m n : boot_tables 8 m -> 256 < n <= 4096 -> tables_ok m 1 n.
Proof.
  intros [H1 H2] Hn. split.
  - split; [lia|]. unfold info_frame, INFO. lia.
  - intros i Hi. rewrite H1 by done. destruct (boot_pde_cases i Hi) as [[-> _]|(t & Ht & E & Et & _)]; [done|]. intros _.
    rewrite Et, E. split; [lia|]. split; [lia|]. split; [lia|]. unfold info_frame, INFO. lia.
  - intros i j Hi Hj. rewrite !H1 by done.
    destruct (boot_pde_cases i Hi) as [[-> _]|(t & Ht & _ & -> & Hc)], (boot_pde_cases j Hj) as [[-> _]|(t' & Ht' & _ & -> & Hc')]; try done.
    intros _ _ <-. lia.
  - intros v Hv. destruct (table_indices v ltac:(lia)) as [Hi Hj]. assert (0 <= v / 1024 < 4) as Hi4 by (split; [lia|apply Z.div_lt_upper_bound; lia]).
    exists (boot_entry v). assert (boot_pde 8 (v / 1024) = (v / 1024 + 2) * 4096 + 3) as Ep by (unfold boot_pde; case_decide; [done|lia]).
    assert (entry m 1 v = boot_entry v) as Ee.
    { unfold entry, table_of. rewrite H1, Ep, Z.div_add_l, (Z.div_small 3), Z.add_0_r by lia. rewrite H2 by lia.
      f_equal. replace (v / 1024 + 2 - 2) with (v / 1024) by lia. rewrite (Z.mod_small (v / 1024)) by lia. pose proof (Z.div_mod v 1024). lia. }
    assert (forall e k, 0 <= k < 4096 -> Z.odd k = true -> e = v * 4096 + k -> present e = true /\ e / 4096 = v) as Hb.
    { intros e k Hk Hodd ->. rewrite present_spec, Z.odd_add, Z.odd_mul, andb_false_r, Hodd. split; [done|]. rewrite Z.div_add_l, Z.div_small; lia. }
    destruct (Hb (boot_entry v) 0x103 ltac:(lia) eq_refl eq_refl) as [Hpe Hfe]. split; [|split; [done|unfold boot_entry; lia]].
    unfold translation. rewrite Ee, Hpe, H1, Ep, present_spec, Z.odd_add, Z.odd_mul, andb_false_r by done. done.
Qed.

(** ** Reserved frames *)

Definition reserved_info (w : Z) : Z := w - w mod 256 + PAGE_RESERVED.

Lemma reserved_state w : state_of (reserved_info w) = PAGE_RESERVED.
Proof.
  unfold state_of, reserved_info. symmetry. apply Z.mod_unique_pos with (w / 256); [done|]. rewrite (Z.mod_eq w 256) by lia. lia.
Qed.

Lemma steady_count s n x : steady s n -> steady (set_free_count x s) n.
Proof. done. Qed.

Lemma reserve_page_spec s n i : steady s n -> 0 <= i < n ->
  wp (reserve_page i) (fun _ s' => exists m', s' = set_free_count (u32 (free_count s - 1)) (set_mem m' s) /\
    only (fun g => g = (INFO + 12 * i) / 4096 \/ g = (INFO + 12 * i + 4) / 4096) (mem s) m' /\
    forall j, info m' j = if decide (j = i) then reserved_info (info (mem s) i) else info (mem s) j) s.
Proof.
  intros Hs Hi. unfold reserve_page. wp_steps. apply (wp_change_info Hs i reserved_info); [done|]. intros H1. wp_steps.
  unfold store_flags, info_at. wp_steps. cbn [page_info_array set_mem]. pose proof Hs as (-> & _ & _). apply (wp_store_info H1); [done|lia|].
  intros H2. wp_steps. eexists. split; [done|]. split.
  - eapply only_trans; apply only_stored; [by left|by right].
  - intros j. cbn [mem set_mem]. rewrite info_stored_rest, info_stored by lia. done.
Qed.

(** Frames are reserved in a loop: those from [a] to [i] are. *)
Definition reserved_to (s : machine) (n a i : Z) (s' : machine) : Prop :=
  exists m', s' = set_free_count (free_count s - (i - a)) (set_mem m' s) /\ only (info_frame n) (mem s) m' /\
    forall j, info m' j = if decide (a <= j < i) then reserved_info (info (mem s) j) else info (mem s) j.

Lemma reserve_loop_spec s n a k : steady s n -> 0 <= a -> 0 <= k -> a + k <= n -> k <= free_count s < 2 ^ 32 ->
  wp (mfor (seqZ a k) reserve_page) (fun _ s' => reserved_to s n a (a + k) s') s.
Proof.
  intros Hs Ha Hk Hn Hfc. apply (wp_mfor_seqZ (reserved_to s n a)); [done|..].
  { exists (mem s). split; [destruct s; cbn; unfold set_free_count, set_mem; cbn; f_equal; lia|]. split; [by intros ?|].
    intros j. case_decide; [lia|done]. }
  intros i s1 Hi (m1 & -> & H1 & H2). pose proof (steady_count _ _ (free_count s - (i - a)) (steady_mem _ _ _ Hs H1)) as Hs1.
  eapply wp_mono; [apply (reserve_page_spec _ n i Hs1); lia|]. cbn beta. intros _ s' (m2 & -> & H3 & H4). exists m2. split; [|split].
  - cbn [free_count set_free_count]. rewrite u32_small by lia. unfold set_free_count, set_mem. cbn. f_equal. lia.
  - eapply only_trans; [exact H1|]. eapply only_mono; [|exact H3]. intros g [->| ->]; [rewrite <- (Z.add_0_r (INFO + 12 * i))|]; apply info_address; lia.
  - intros j. rewrite H4. cbn [mem set_mem set_free_count]. rewrite !H2. repeat case_decide; subst; try done; lia.
Qed.

(** ** [paging_init] *)

Definition boot_regions : list protected_region :=
  [ mk_region 0x0 0x1000 0x1 "Null guard page"; mk_region 0x1000 0xA000 0x101 "Kernel page tables";
    mk_region 0x100000 0x200000 0x103 "Kernel code & data" ].

(** The state it leaves on a machine with [n] frames. *)
Record booted (n : Z) (s : machine) : Prop := mk_booted {
  bo_on : paging_on s = true;
  bo_array : page_info_array s = INFO;
  bo_total : total_pages s = n;
  bo_size : 4096 * n <= memsize s;
  bo_dir : current_page_directory s = 4096 /\ cr3 s = 4096;
  bo_tables : boot_tables 8 (mem s);
  bo_info : forall j, 0 <= j < n -> info (mem s) j = if j <? 256 then PAGE_RESERVED else 0;
  bo_count : free_count s = n - 256;
  bo_mutex : paging_mutex s = 0;
  bo_regions : protected_regions s = boot_regions;
}.

(** The eight tables, [k] of them done; memory elsewhere is as in [s]. *)
Definition tables_to (s : machine) (k : Z) (s' : machine) : Prop :=
  exists m', s' = set_mem m' s /\ boot_tables k m' /\ forall x, ~ 4096 <= x < 40960 -> m' x = mem s x.

Lemma tables_step s n k s' :
  paging_on s = false -> 4096 * n <= memsize s -> current_page_directory s = 4096 -> 256 < n -> 0 <= k < 8 -> tables_to s k s' ->
  wp (map_boot_table (4096 * (2 + k)) (k mod 4) (boot_index k)) (fun _ s'' => tables_to s (k + 1) s'') s'.
Proof.
  intros Hoff Hm Hcpd Hn Hk (m1 & -> & H1 & H2). assert (0 <= boot_index k < 1024) as Hb by (unfold boot_index; destruct (Z.ltb_spec k 4); lia).
  eapply wp_mono; [apply (boot_table_spec (set_mem m1 s) n (2 + k) (k mod 4) (boot_index k)); try done; [lia|apply Z.mod_pos_bound; lia]|].
  cbn beta. intros _ s'' (m2 & -> & H3 & H4 & H5). exists m2. split; [done|]. split; [by apply (boot_tables_step k m1)|].
  intros x Hx. rewrite H5; [by apply H2| |lia]. intros E. pose proof (Z.div_mod x 4096). pose proof (Z.mod_pos_bound x 4096). lia.
Qed.

Lemma boot_tables_loops s n (k : M machine unit) Q :
  paging_on s = false -> 4096 * n <= memsize s -> current_page_directory s = 4096 -> 256 < n ->
  (forall i, 0 <= i < 1024 -> word (mem s) 1 i = 0) -> (forall s', tables_to s 8 s' -> wp k Q s') ->
  wp (mfor (seqZ 0 4) (fun i => map_boot_table (0x2000 + i * PAGE_SIZE) i i) ;;;
      mfor (seqZ 0 4) (fun i => map_boot_table (0x6000 + i * PAGE_SIZE) i (0xC0000000 / (PAGE_SIZE * PAGE_TABLE_ENTRIES) + i)) ;;; k)
    Q s.
Proof.
  intros Hoff Hm Hcpd Hn Hz HQ. wp_steps. eapply wp_mono; [apply (wp_mfor_seqZ (tables_to s) 0 4); [lia|..]|].
  - exists (mem s). split; [by destruct s|]. split; [|done]. split; [|lia]. intros i Hi. rewrite Hz by done. unfold boot_pde. repeat case_decide; lia.
  - intros i s1 Hi H1. pose proof (tables_step s n i s1 Hoff Hm Hcpd Hn ltac:(lia) H1) as Hst. unfold boot_index in Hst.
    destruct (Z.ltb_spec i 4); [|lia]. rewrite Z.mod_small in Hst by lia. unfold PAGE_SIZE. by replace (0x2000 + i * 4096) with (4096 * (2 + i)) by lia.
  - cbn beta. intros [] s1 H1. wp_steps.
    eapply wp_mono; [apply (wp_mfor_seqZ (fun i => tables_to s (4 + i)) 0 4); [lia|done|]|cbn beta; intros []; apply HQ].
    intros i s2 Hi H2. pose proof (tables_step s n (4 + i) s2 Hoff Hm Hcpd Hn ltac:(lia) H2) as Hst. unfold boot_index in Hst.
    destruct (Z.ltb_spec (4 + i) 4); [lia|]. unfold PAGE_SIZE. change (0xC0000000 / (4096 * PAGE_TABLE_ENTRIES)) with 768.
    replace (0x6000 + i * 4096) with (4096 * (2 + (4 + i))) by lia. replace (768 + i) with (764 + (4 + i)) by lia.
    replace (4 + (i + 1)) with (4 + i + 1) by lia. replace i with ((4 + i) mod 4) at 2; [done|].
    rewrite (Z.add_comm 4 i). change 4 with (1 * 4) at 1. rewrite Z.mod_add, Z.mod_small; lia.
Qed.

Lemma protect_region_spec s a b fl nm Q : (length (protected_regions s) < 32)%nat ->
  Q 0 (set_protected_regions (protected_regions s ++ [mk_region a b fl nm]) s) -> wp (paging_protect_region a b fl nm) Q s.
Proof.
  intros Hl HQ. unfold paging_protect_region, mutex_lock, mutex_unlock. wp_steps. cbn [protected_regions set_paging_mutex].
  unfold MAX_PROTECTED_REGIONS. destruct (Nat.leb_spec 32 (length (protected_regions s))); [lia|]. wp_steps.
  rewrite <- (lock_unlock (set_protected_regions _ s)) in HQ. exact HQ.
Qed.

Lemma paging_init_spec s n :
  paging_on s = false -> memsize s / 4096 = n -> 0 <= memsize s -> 256 < n <= 4096 -> protected_regions s = [] ->
  wp paging_init (fun _ s' => booted n s' /\ current_process_id s' = current_process_id s) s.
Proof.
  intros Hoff Hsize H0 Hn Hreg. assert (4096 * n <= memsize s) as Hm by (rewrite <- Hsize; apply Z.mul_div_le; lia).
  unfold paging_init, mutex_init. wp_steps. cbn [page_info_array total_pages memsize set_page_info_array set_free_count set_total_pages set_paging_mutex].
  change (memsize s / PAGE_SIZE) with (memsize s / 4096). rewrite Hsize. set (s1 := set_page_info_array _ _).
  eapply wp_mono; [apply (fill_words (s := s1) (n := n)); try done; lia|]. cbn beta. intros _ s2 (m2 & -> & Hz & Hk2). wp_steps.
  assert (steady (set_mem m2 s1) n) as Hst by (apply steady_off; unfold INFO; [done|done|done|lia]).
  eapply wp_mono; [apply (reserve_loop_spec _ n 0 256 Hst); cbn; lia|]. cbn beta. intros _ s3 (m3 & -> & Ho3 & Hi3). wp_steps.
  change (clear_page 0x1000) with (clear_page (4096 * 1)). eapply (wp_clear_page (n := n)); [by apply direct_off|lia|]. cbn beta.
  set (s4 := set_mem (cleared _ 1) _). apply (boot_tables_loops s4 n); [done|done|done|lia|intros i Hi; by apply cleared_word|].
  intros s5 (m5 & -> & Ht5 & Hk5). assert (protected_regions (set_mem m5 s4) = []) as Hr0 by done.
  wp_steps. apply protect_region_spec; [rewrite Hr0; cbn; lia|]. rewrite Hr0. wp_steps. apply protect_region_spec; [cbn; lia|].
  wp_steps. apply protect_region_spec; [cbn; lia|]. wp_steps. split; [|done].
  assert (forall j, 0 <= j < n -> info m5 j = if j <? 256 then PAGE_RESERVED else 0) as Hinfo.
  { intros j Hj. assert (info m2 j = 0) as E2. { unfold info, INFO. rewrite <- (Hz (3 * j)) by lia. f_equal. lia. }
    transitivity (info m3 j).
    - unfold info. rewrite Hk5 by (unfold INFO; lia). apply (only_cleared (fun g => g = 1)); [done|]. intros E.
      pose proof (Z.div_mod (INFO + 12 * j) 4096). pose proof (Z.mod_pos_bound (INFO + 12 * j) 4096). unfold INFO in *. lia.
    - rewrite Hi3. cbn [mem set_mem]. rewrite E2. destruct (Z.ltb_spec j 256); case_decide; try done; lia. }
  by split.
Qed.

(** ** The first allocations *)

(** Paging is on, the directory in frame 1 and its tables are right. *)
Record running (n : Z) (s : machine) : Prop := mk_running {
  ru_on : paging_on s = true;
  ru_array : page_info_array s = INFO;
  ru_total : total_pages s = n;
  ru_size : 4096 * n <= memsize s;
  ru_dir : current_page_directory s = 4096 /\ cr3 s = 4096;
  ru_tables : boot_tables 8 (mem s);
}.

Lemma booted_running n s : booted n s -> running n s.
Proof. intros []. by split. Qed.

Section Running.
Context {n : Z} (Hn : 256 < n <= 4096) {s : machine} (Hr : running n s).

Lemma running_steady : steady s n.
Proof.
  destruct Hr as [H1 H2 H3 H4 [H5 H5'] H6]. assert (dir s = 1) as Hd by (unfold dir; by rewrite H5).
  rewrite <- H3. apply tables_steady; rewrite ?H3, ?Hd; try done; [lia|unfold INFO; lia|by apply boot_tables_ok].
Qed.

(** The frame [f] is handed out, which may hold anything but directory and tables. *)
Lemma running_allocated f : 0 <= f < n -> ~ 1 <= f < 10 -> running n (allocated s f).
Proof.
  intros Hf Hne. destruct Hr as [H1 H2 H3 H4 H5 [H6 H7]]. split; try done.
  assert (forall g i, 1 <= g < 10 -> 0 <= i < 1024 -> word (mem (allocated s f)) g i = word (mem s) g i) as Hw.
  { intros g i Hg Hi. eapply (only_word (fun x => info_frame n x \/ x = f)); [|unfold info_frame, INFO; lia|done].
    apply (only_trans _ _ (marked (mem s) f (current_process_id s))); [|apply only_cleared; by right].
    eapply only_mono; [|by apply (marked_only _ _ _ n)]. by left. }
  split; [intros i Hi; rewrite Hw by lia; by apply H6|]. intros t j Ht Hj. rewrite Hw by lia. by apply H7.
Qed.

End Running.

(** With an empty directory no address is mapped. *)
Lemma dead_walk s a : paging_on s = true -> cr3 s = 4096 -> (forall i, 0 <= i < 1024 -> word (mem s) 1 i = 0) -> 0 <= a < 2 ^ 32 -> walk s a = None.
Proof.
  intros Hon Hcr Hz Ha. destruct (page_of a Ha) as (Ea & Ho & Hv). destruct (table_indices _ Hv) as [Hi _]. unfold walk. rewrite Hon, Hcr. cbn [negb].
  rewrite Ea, pd_index_of by done. change (Z.land 4096 FRAME_MASK) with (4096 * 1). specialize (Hz _ Hi). unfold word in Hz. rewrite Hz.
  by destruct (in_ram s _ 4).
Qed.

Lemma dead_allocate s : page_info_array s = INFO -> 0 < total_pages s -> walk s INFO = None -> allocate_page s = Fault.
Proof.
  intros Ha Hn Hw. unfold allocate_page, mutex_lock. apply bind_wp_fault. wp_steps. apply bind_wp_fault. wp_steps.
  cbn [total_pages set_paging_mutex]. destruct (Z.to_nat (total_pages s)) eqn:E; [lia|]. cbn [allocate_from]. apply bind_fault.
  unfold load_state, info_at. apply bind_wp_fault. wp_steps. cbn [page_info_array set_paging_mutex]. rewrite Ha. apply bind_fault.
  unfold load32. apply bind_fault. unfold access. apply bind_wp_fault. wp_steps.
  change (walk (set_paging_mutex (paging_mutex s + 1) s) (INFO + 12 * 0)) with (walk s INFO). by rewrite Hw.
Qed.

Lemma zero_free m g : info m g = 0 -> is_free m g = true.
Proof. unfold is_free, state. by intros ->. Qed.

(** An entry after a frame is handed out: cleared with the frame, or as it was. *)
Lemma allocated_entry s f n j : 0 <= f < n -> info (mem s) j = 0 \/ (INFO + 12 * j) / 4096 = f -> j <> f \/ (INFO + 12 * j) / 4096 = f ->
  info (mem (allocated s f)) j = 0.
Proof.
  intros Hf Hj Hne. destruct (Z.eq_dec ((INFO + 12 * j) / 4096) f) as [E|E].
  - unfold info. cbn [mem allocated set_mem]. unfold cleared, PAGE_SIZE. pose proof (Z.div_mod (INFO + 12 * j) 4096).
    pose proof (Z.mod_pos_bound (INFO + 12 * j) 4096). destruct (Z.leb_spec (4096 * f) (INFO + 12 * j)); [|lia].
    destruct (Z.ltb_spec (INFO + 12 * j) (4096 * f + 4096)); [done|lia].
  - transitivity (info (marked (mem s) f (current_process_id s)) j); [unfold info; by apply (only_cleared (fun g => g = f) (marked (mem s) f (current_process_id s)))|].
    rewrite marked_info. case_decide; [|by destruct Hj]. by destruct Hne.
Qed.

(** C9. What [paging_init] sets up is destroyed by the first allocations, on every machine
    with 257 frames to 16 MB of memory on which paging is off and no region is protected
    yet. The frame of the array [page_info_array] is not reserved: the first
    [allocate_page] hands it out and clears it, after which every frame counts as free,
    the kernel's among them. The second call hands out frame 0, which its caller takes
    for a failure; the third hands out the page directory and clears it, and the next
    access to memory faults. *)
Theorem paging_boot_erases_itself s :
  paging_on s = false -> 257 * 4096 <= memsize s <= 0x1000000 -> protected_regions s = [] ->
  wp (paging_init ;;; allocate_page) (fun a s1 =>
    a = 0x100000 /\ (forall g, 0 <= g < memsize s / 4096 -> is_free (mem s1) g = true) /\
    wp allocate_page (fun b s2 =>
      b = 0 /\ wp allocate_page (fun c s3 => c = 0x1000 /\ allocate_page s3 = Fault) s2) s1) s.
Proof.
  intros Hoff Hsize Hreg. set (n := memsize s / 4096).
  assert (256 < n <= 4096) as Hn.
  { unfold n. split; [apply Z.lt_le_trans with 257; [lia|apply Z.div_le_lower_bound; lia]|apply Z.div_le_upper_bound; lia]. }
  wp_steps. eapply wp_mono; [apply (paging_init_spec s n); try done; lia|]. cbn beta. intros [] s0 (Hb & _).
  pose proof (booted_running _ _ Hb) as Hr0. pose proof (bo_info _ _ Hb) as Hi0.
  apply (allocate_first s0 n 256 _ (running_steady Hn Hr0)); [apply Hr0|lia|lia|apply zero_free; by rewrite Hi0 by lia| |].
  { intros g Hg. unfold is_free, state. rewrite Hi0 by lia. by destruct (Z.ltb_spec g 256); [|lia]. }
  set (s1 := allocated s0 256). assert (running n s1) as Hr1 by (apply running_allocated; try done; lia).
  assert (forall j, 0 <= j < n -> info (mem s1) j = 0) as Hi1.
  { intros j Hj. destruct (Z.le_gt_cases j 341).
    - assert ((INFO + 12 * j) / 4096 = 256) as E by (apply frame_bounds; unfold INFO; lia). apply (allocated_entry s0 256 n); [lia|by right..].
    - apply (allocated_entry s0 256 n); [lia|left|left; lia]. rewrite Hi0 by done. by destruct (Z.ltb_spec j 256); [lia|]. }
  split; [done|]. split; [intros g Hg; by apply zero_free, Hi1|].
  apply (allocate_first s1 n 0 _ (running_steady Hn Hr1)); [apply Hr1|lia|lia|by apply zero_free, Hi1; lia|lia|].
  set (s2 := allocated s1 0). assert (running n s2) as Hr2 by (apply running_allocated; try done; lia).
  split; [done|]. apply (allocate_first s2 n 1 _ (running_steady Hn Hr2)); [apply Hr2|lia|lia|..].
  - apply zero_free, (allocated_entry s1 0 n); [lia|left; apply Hi1; lia|left; lia].
  - intros g Hg. replace g with 0 by lia. unfold is_free, state. replace (info (mem s2) 0) with (info (marked (mem s1) 0 (current_process_id s1)) 0).
    + fold (state (marked (mem s1) 0 (current_process_id s1)) 0). by rewrite marked_state.
    + symmetry. unfold info. by apply (only_cleared (fun g => g = 0) (marked (mem s1) 0 (current_process_id s1))).
  - split; [done|]. destruct Hr2 as [H1 H2 H3 H4 [H5 H5'] H6]. apply dead_allocate; [done| |].
    + change (total_pages (allocated s2 1)) with (total_pages s2). lia.
    + apply dead_walk; [done|done|apply cleared_word|unfold INFO; lia].
Qed.

(** ** New address spaces *)

(** Some entries of the new directory in frame [f] are copied, from 768 on. *)
Definition copied_to (s : machine) (f : Z) (s' : machine) : Prop :=
  exists m', s' = set_mem m' s /\ only (fun g => g = f) (mem s) m' /\ forall i, 0 <= i < 768 -> word m' f i = 0.

Lemma copy_pde_step s f i s' : sound s -> 0 <= f < total_pages s -> ~ kept (mem s) (dir s) (total_pages s) f -> 768 <= i < 1024 ->
  copied_to s f s' -> wp (e <- load_pde i ;; store32 (4096 * f + 4 * i) e) (fun _ s'' => copied_to s f s'') s'.
Proof.
  intros Hs Hf Hk Hi (m1 & -> & H1 & H2). pose proof (content_sound Hs f m1 Hk H1) as Hs1. wp_steps.
  apply (wp_load_pde Hs1); [lia|]. apply (wp_store32 (sound_direct _ Hs1)); [lia|cbn; lia|apply (aligned _ (1024 * f + i)); lia|].
  eexists. split; [done|]. cbn [mem set_mem]. split.
  - eapply only_trans; [exact H1|]. apply only_stored. apply word_frame. lia.
  - intros j Hj. rewrite stored_word by lia. case_decide; [lia|]. by apply H2.
Qed.

(** A space made by [paging_create_address_space] has the kernel's half of the address
    space and nothing below, while the code reaches its tables and its array below: after
    a switch to it the next access faults. *)
Theorem new_space_cannot_run s : sound s ->
  wp (d <- paging_create_address_space true ;; paging_switch_address_space d ;;; ret d)
    (fun d s' => (d = 0 /\ no_free_frame s) \/ (d <> 0 /\ allocate_page s' = Fault)) s.
Proof.
  intros Hs. pose proof (sound_n Hs) as Hn. unfold paging_create_address_space, mutex_lock. wp_steps. fold (relocked s).
  assert (sound (relocked s)) as Hs0 by (by apply sound_mutex). apply (allocate_page_spec _ _ Hs0).
  { intros Hno. change (0 =? 0) with true. unfold mutex_unlock, paging_switch_address_space, mutex_lock. wp_steps.
    change (0 =? 0) with true. cbv iota. unfold mutex_unlock. wp_steps. by left. }
  intros f Hf Hfree _. assert (0 <= f < total_pages (relocked s)) as Hf' by lia. destruct (Z.eqb_spec (4096 * f) 0); [lia|]. wp_steps.
  apply (wp_clear_page (n := total_pages (relocked s)) (sound_direct _ (allocated_sound Hs0 Hf' Hfree))); [done|].
  pose proof (cleared_sound Hs0 Hf' Hfree) as Hs1. set (s1 := set_mem _ (allocated (relocked s) f)) in *.
  assert (~ kept (mem s1) (dir s1) (total_pages s1) f) as Hk1.
  { destruct (cleared_frame Hs0 Hf' Hfree) as (H1 & H2 & H3). intros [?|[?|?]]; [lia|by apply H3|by apply H2]. }
  cbn beta. wp_steps. eapply wp_mono; [apply (wp_mfor_seqZ (fun _ => copied_to s1 f) 768 256); [lia|..]|].
  - exists (mem s1). split; [by destruct s1|]. split; [by intros ?|]. intros i Hi. apply cleared_word. lia.
  - intros i s2 Hi H2. apply copy_pde_step; [done|exact Hf'|done|lia|done].
  - cbn beta. intros _ s2 (m2 & -> & _ & Hz). unfold mutex_unlock, paging_switch_address_space, mutex_lock. wp_steps.
    destruct (Z.eqb_spec (4096 * f) 0); [lia|]. unfold count, mutex_unlock. wp_steps. right. split; [done|].
    pose proof (so_on _ Hs1) as Hon. pose proof (so_array _ Hs1) as Ha. pose proof (so_size _ Hs1) as (Hn1 & _).
    apply dead_allocate; [exact Ha|cbn in *; lia|]. unfold walk. cbn [paging_on set_paging_mutex set_memory_stats set_current_page_directory set_cr3 set_mem cr3 mem].
    rewrite Hon. cbn [negb]. rewrite land_mask, (Z.mul_comm 4096), Z.div_mul by (cbn in *; lia). change (pd_index INFO) with 0.
    rewrite (Z.mul_comm f). fold (word m2 f 0). rewrite Hz by lia. cbn. by destruct (in_ram _ _ 4).
Qed.

(** The region that [paging_init] protects from 1 MB to 2 MB is memory that is handed out:
    a frame in it is never given back. *)
Theorem low_frames_never_freed s f : sound s -> protected_regions s = boot_regions -> 256 <= f < 512 -> f < total_pages s ->
  wp (free_page (4096 * f)) (fun _ s' => s' = s) s.
Proof.
  intros Hs Hr Hf Hn. assert (find_region (protected_regions s) (4096 * f) <> None) as Hreg.
  { rewrite Hr. unfold boot_regions. cbn [find_region r_start r_end].
    assert ((0x100000 <=? 4096 * f) && (4096 * f <? 0x200000) = true) as -> by (apply andb_true_iff; split; [apply Z.leb_le|apply Z.ltb_lt]; lia).
    by repeat case_if. }
  apply (free_page_spec s f _ Hs); [lia|done|done|..]; intros _ E; congruence.
Qed.

(** ** With the array reserved *)

Lemma free_frames_above m a n : 0 <= a <= n -> (forall j, 0 <= j < n -> is_free m j = (a <=? j)) -> free_frames m n = n - a.
Proof.
  intros Ha Hm. unfold free_frames. replace n with (a + (n - a)) at 1 by lia. rewrite (seqZ_app 0 a (n - a)) by lia. rewrite filter_app, length_app.
  rewrite (count_same (fun _ => false) (is_free m) (seqZ 0 a)), (count_same (fun _ => true) (is_free m) (seqZ (0 + a) (n - a))).
  - rewrite !count_const, length_seqZ. lia.
  - intros g Hg. apply elem_of_seqZ in Hg. rewrite Hm by lia. by apply Z.leb_le; lia.
  - intros g Hg. apply elem_of_seqZ in Hg. rewrite Hm by lia. by apply Z.leb_gt; lia.
Qed.

(** [paging_init] followed by the reservation of the twelve frames that the array may
    occupy, which the code omits, gives a sound state. *)
Theorem boot_reserved_sound s n :
  paging_on s = false -> memsize s / 4096 = n -> 0 <= memsize s -> 268 <= n <= 4096 -> protected_regions s = [] ->
  wp (paging_init ;;; mfor (seqZ 256 12) reserve_page)
    (fun _ s' => sound s' /\ total_pages s' = n /\ dir s' = 1 /\ protected_regions s' = boot_regions /\ boot_tables 8 (mem s') /\
       forall j, 0 <= j < n -> is_free (mem s') j = (268 <=? j)) s.
Proof.
  intros Hoff Hsize H0 Hn Hreg. wp_steps. eapply wp_mono; [apply (paging_init_spec s n); try done; lia|]. cbn beta. intros [] s0 (Hb & _).
  pose proof (booted_running _ _ Hb) as Hr. pose proof (running_steady (n := n) ltac:(lia) Hr) as Hst.
  eapply wp_mono; [apply (reserve_loop_spec s0 n 256 12 Hst); rewrite ?(bo_count _ _ Hb); lia|]. cbn beta.
  intros _ s1 (m1 & -> & Ho & Hi). destruct Hb as [H1 H2 H3 H4 [H5 H5'] [Ht1 Ht2] H7 H8 H9 H10].
  assert (boot_tables 8 m1) as Hbt.
  { assert (forall g i, 1 <= g < 10 -> 0 <= i < 1024 -> word m1 g i = word (mem s0) g i) as Hw.
    { intros g i Hg Hgi. eapply only_word; [exact Ho|unfold info_frame, INFO; lia|done]. }
    split; [intros i Hii; rewrite Hw by lia; by apply Ht1|]. intros t j Ht Hj. rewrite Hw by lia. by apply Ht2. }
  assert (forall j, 0 <= j < n -> is_free m1 j = (268 <=? j)) as Hfree.
  { intros j Hj. unfold is_free, state. rewrite Hi, H7 by done. case_decide; [rewrite reserved_state; cbn; symmetry; apply Z.leb_gt; lia|].
    destruct (Z.ltb_spec j 256); cbn; symmetry; [apply Z.leb_gt|apply Z.leb_le]; lia. }
  assert (dir s0 = 1) as Hd by (unfold dir; by rewrite H5). split; [|split; [done|split; [done|split; [done|split; done]]]].
  split; cbn [paging_on page_info_array total_pages memsize current_page_directory cr3 mem free_count set_free_count set_mem];
    change (dir (set_free_count (free_count s0 - (256 + 12 - 256)) (set_mem m1 s0))) with (dir s0); rewrite ?Hd, ?H3, ?H5, ?H5'; try done.
  - unfold INFO. lia.
  - apply boot_tables_ok; [done|lia].
  - intros f Hf Hk. rewrite Hfree by done. apply Z.leb_gt. destruct Hk as [->|[[->|(i & Hii & Hp & ->)]|[_ Hif]]]; [lia|lia| |unfold INFO in Hif; lia].
    rewrite (bt_dir _ _ Hbt) in * by done. destruct (boot_pde_cases i Hii) as [[E _]|(t & Ht & _ & -> & _)]; [congruence|lia].
  - rewrite H8, (free_frames_above m1 268 n); [lia|lia|done].
Qed.

(** ** A machine with 4 MB *)

Definition no_stats : stats := mk_stats 0 0 0 0 0 0 0 0.

Definition demo_machine : machine :=
  mk_machine (fun _ => 0) 0x400000 0 false 0 0 0 0 (replicate 1024 0) [] no_stats 0 0 false [] false.

Lemma wp_after {S A} (m : M S A) (Q : A -> S -> Prop) s : wp m Q s -> exists a, Q a (after m s).
Proof. unfold wp, after. destruct (m s) as [[a s']| |]; [eauto|done..]. Qed.

(** The machine after [paging_init], the array reserved. *)
Definition demo_state : machine := after (paging_init ;;; mfor (seqZ 256 12) reserve_page) demo_machine.

Lemma demo_state_ok : sound demo_state /\ total_pages demo_state = 1024 /\ dir demo_state = 1 /\
  protected_regions demo_state = boot_regions /\ boot_tables 8 (mem demo_state) /\
  forall j, 0 <= j < 1024 -> is_free (mem demo_state) j = (268 <=? j).
Proof.
  destruct (wp_after _ _ _ (boot_reserved_sound demo_machine 1024 eq_refl eq_refl ltac:(cbn; lia) ltac:(lia) eq_refl)) as [[] H]. exact H.
Qed.

(** Frame 268 is handed out and mapped read-only at 0x40000000, and has two references. *)
Definition shared_of (s : machine) : machine :=
  with_refs (after (paging_map_page (4096 * 268) (0x40000 * 4096 + 0) 5) (allocated s 268)) 268 2.

Lemma shared_of_ok s :
  sound s -> total_pages s = 1024 -> protected_regions s = boot_regions ->
  (forall j, 0 <= j < 1024 -> is_free (mem s) j = (268 <=? j)) ->
  sound (shared_of s) /\ total_pages (shared_of s) = 1024 /\ space (shared_of s) 0x40000 = Some (268 * 4096 + 5) /\
  is_free (mem (shared_of s)) 268 = false /\ ~ kept (mem (shared_of s)) (dir (shared_of s)) 1024 268 /\ refs (mem (shared_of s)) 268 = 2.
Proof.
  intros Hs Hn Hr Hf. set (s1 := allocated s 268).
  assert (0 <= 268 < total_pages s) as H268 by (rewrite Hn; lia).
  assert (is_free (mem s) 268 = true) as Hf268 by (by rewrite Hf by lia).
  pose proof (allocated_sound Hs H268 Hf268) as Hs1. fold s1 in Hs1. assert (total_pages s1 = 1024) as Hn1 by exact Hn.
  destruct (wp_after _ _ _ (paging_map_spec s1 (4096 * 268) 0x40000 0 5 Hs1 ltac:(rewrite Hn1; lia) ltac:(lia))) as (r & Hs2 & Hg & Hres).
  set (s2 := after _ s1) in *. destruct Hres as [(_ & _ & [[x Hx]|[Hno _]])|(_ & _ & _ & _ & Hsp)].
  { revert Hx. change (protected_regions s1) with (protected_regions s). by rewrite Hr. }
  { exfalso. specialize (Hno 269 ltac:(rewrite Hn1; lia)). revert Hno. unfold is_free, state.
    unfold s1. rewrite (allocated_other Hs H268 Hf268 269) by (rewrite ?Hn; lia). fold (state (mem s) 269). fold (is_free (mem s) 269). by rewrite Hf by lia. }
  assert (is_free (mem s1) 268 = false) as Hu1 by (unfold is_free, s1; by rewrite (allocated_state Hs H268 Hf268)).
  assert (total_pages s2 = 1024) as Hn2 by (by rewrite (fx_total _ _ (gr_fixed _ _ Hg))). assert (0 <= 268 < total_pages s2) as H268' by (rewrite Hn2; lia).
  change (shared_of s) with (with_refs s2 268 2). split; [by apply with_refs_sound|]. split; [done|]. split; [|split; [|split]].
  - rewrite (with_refs_space Hs2 H268') by lia. rewrite Hsp by lia. done.
  - rewrite with_refs_free. by apply (grown_used s1).
  - pose proof (grown_data _ _ 268 Hg H268 Hu1 (allocated_data Hs H268 Hf268)) as Hk. rewrite Hn2 in Hk.
    intros [?|[Ht|?]]; apply Hk; [by left| |by right; right]. right; left.
    by apply (same_table_frame (sound_same_tables _ _ Hs2 (with_refs_only (x := 2) H268'))) in Ht.
  - by rewrite with_refs_refs by lia.
Qed.

Definition demo_shared : machine := shared_of demo_state.


Lemma cow_fault_exact_witness : wp (handle_page_fault (0x40000 * 4096 + 5) true) (cow_done demo_shared 0x40000 (268 * 4096 + 5) 268) demo_shared.
Proof.
  destruct demo_state_ok as (Hs0 & Hn0 & _ & Hr0 & _ & Hf0).
  destruct (shared_of_ok demo_state Hs0 Hn0 Hr0 Hf0) as (Hs & Hn & Hsp & Hu & Hk & Hr). fold demo_shared in Hs, Hn, Hsp, Hu, Hk, Hr.
  pose proof (cow_fault_exact demo_shared 0x40000 5 (268 * 4096 + 5)) as H. assert ((268 * 4096 + 5) / 4096 = 268) as E by reflexivity.
  rewrite E, Hn, Hr in H. apply H; [exact Hs|lia|lia|exact Hsp|lia|reflexivity|lia|exact Hu|exact Hk|lia].
Defined.

(** Three pages from the middle of a page on. *)
Lemma user_memory_exact_witness :
  wp (paging_map_user_memory 0x40000800 0x2000 true false) (user_memory demo_state 0x40000800 0x2000 true false) demo_state.
Proof.
  destruct demo_state_ok as (Hs & Hn & _ & Hr & _). apply user_memory_exact; [exact Hs|rewrite Hn; lia|lia|lia|].
  change (region_pages 0x40000800 0x2000) with 3. intros j Hj. unfold protected. rewrite Hr. intros [r H].
  assert (j = 0 \/ j = 1 \/ j = 2) as [->|[->| ->]] by lia; discriminate.
Defined.

Lemma paging_boot_erases_itself_witness :
  wp (paging_init ;;; allocate_page) (fun a s1 =>
    a = 0x100000 /\ (forall g, 0 <= g < 1024 -> is_free (mem s1) g = true) /\
    wp allocate_page (fun b s2 =>
      b = 0 /\ wp allocate_page (fun c s3 => c = 0x1000 /\ allocate_page s3 = Fault) s2) s1) demo_machine.
Proof. apply (paging_boot_erases_itself demo_machine); [reflexivity|cbn; lia|reflexivity]. Defined.

End PagingBoot.
