(* ===== verification/Security.v ===== *)
(** * Access control ([kernel/security.c])

    Tokens, security descriptors and the decisions made on them: the access
    check against a DACL, the capability check, the permission of a system call
    and the privilege levels. Group arrays and DACLs live on the heap, so that
    tokens and descriptors that share one are seen to share it; reading an array
    outside its bounds, or memory that was freed, is a [Fault].

    [security.c] relies on constants no header of the repository defines: the
    ACE types, the descriptor flags and the layout of the well-known SIDs. They
    are arguments here. *)

From Stdlib Require Import ZArith Lia.
From stdpp Require Import base tactics option list gmap.
From S2P Require Import Prelude.

Set Default Goal Selector "!".
Local Open Scope Z_scope.

Module Security.

(** ** Data *)

Record security_id_t : Type := mk_sid {
  authority : Z;
  sub_authority_count : Z;
  primary_id : Z;
  sub_authorities : list Z;
}.

(** [groups] points to an array of SIDs. *)
Record access_token_t : Type := mk_token {
  user : security_id_t;
  groups : ptr;
  group_count : Z;
  capabilities : Z;
}.

Record ace_t : Type := mk_ace {
  a_type : Z;
  a_flags : Z;
  access_mask : Z;
  a_sid : security_id_t;
}.

Record dacl_t : Type := mk_dacl { ace_count : Z; aces : list ace_t }.

Record security_descriptor_t : Type := mk_descriptor {
  d_flags : Z;
  owner : security_id_t;
  d_group : security_id_t;
  dacl : ptr;
}.

(** The members of [task_t] the decisions read. *)
Record task_cred : Type := mk_cred { euid : Z; privilege_level : Z }.

(** The constants without a definition in the repository. *)
Record policy : Type := mk_policy {
  ACE_TYPE_ALLOW : Z;
  ACE_TYPE_DENY : Z;
  SD_FLAG_OWNER_VALID : Z;
  SD_FLAG_GROUP_VALID : Z;
  SD_FLAG_DACL_PRESENT : Z;
  SID_SYSTEM : security_id_t;
  SID_ADMIN : security_id_t;
}.

(** An ACE type is either, and a descriptor flag is a bit of its own. *)
Record policy_ok (P : policy) : Prop := {
  pol_types : ACE_TYPE_ALLOW P <> ACE_TYPE_DENY P;
  pol_dacl : SD_FLAG_DACL_PRESENT P <> 0;
  pol_owner_dacl : Z.land (SD_FLAG_OWNER_VALID P) (SD_FLAG_DACL_PRESENT P) = 0;
  pol_group_dacl : Z.land (SD_FLAG_GROUP_VALID P) (SD_FLAG_DACL_PRESENT P) = 0;
}.

Definition ACCESS_ALL : Z := 0x0FFF.

Definition SYS_EXIT : Z := 1.
Definition SYS_FORK : Z := 2.
Definition SYS_READ : Z := 3.
Definition SYS_WRITE : Z := 4.
Definition SYS_OPEN : Z := 5.
Definition SYS_CLOSE : Z := 6.
Definition SYS_WAITPID : Z := 7.
Definition SYS_EXECVE : Z := 8.
Definition SYS_CHDIR : Z := 9.
Definition SYS_TIME : Z := 10.
Definition SYS_MMAP : Z := 11.
Definition SYS_MUNMAP : Z := 12.
Definition SYS_BRK : Z := 13.
Definition SYS_GETPID : Z := 14.
Definition SYS_GETPPID : Z := 15.
Definition SYS_MKDIR : Z := 16.
Definition SYS_RMDIR : Z := 17.
Definition SYS_UNLINK : Z := 18.
Definition SYS_YIELD : Z := 19.
Definition SYS_MODULE_LOAD : Z := 20.
Definition SYS_MODULE_UNLOAD : Z := 21.
Definition SYS_ASLR_CONTROL : Z := 22.

Definition PRIV_NONE : Z := 0.
Definition PRIV_USER : Z := 1.
Definition PRIV_SYSTEM_SERVICE : Z := 2.
Definition PRIV_SECURITY_ADMIN : Z := 4.
Definition PRIV_KERNEL : Z := 8.
Definition TASK_PRIV_KERNEL : Z := 0.
Definition TASK_PRIV_DRIVER : Z := 1.
Definition TASK_PRIV_SYSTEM : Z := 2.
Definition TASK_PRIV_USER : Z := 3.

(** A zeroed SID and descriptor ([memset]). *)
Definition zero_sid : security_id_t := mk_sid 0 0 0 [].
Definition zero_descriptor : security_descriptor_t := mk_descriptor 0 zero_sid zero_sid None.

(** The static variables of [security.c] and the heap blocks it works on. *)
Record sec : Type := mk_sec {
  system_token : access_token_t;
  default_dacl : ptr;
  group_arrays : gmap positive (list security_id_t);
  dacls : gmap positive dacl_t;
}.

Definition set_group_arrays v s := mk_sec (system_token s) (default_dacl s) v (dacls s).
Definition set_dacls v s := mk_sec (system_token s) (default_dacl s) (group_arrays s) v.

Section Functions.
Context (P : policy).
Local Open Scope kernel_scope.

Abbreviation SM := (M sec).

(** ** SIDs *)

Fixpoint sub_authorities_equal (i n : nat) (s1 s2 : security_id_t) : SM bool :=
  match n with
  | O => ret true
  | S n' =>
      x <- deref (sub_authorities s1 !! i) ;;
      y <- deref (sub_authorities s2 !! i) ;;
      if negb (x =? y) then ret false else sub_authorities_equal (S i) n' s1 s2
  end.

Definition security_sid_equal (sid1 sid2 : option security_id_t) : SM bool :=
  match sid1, sid2 with
  | Some s1, Some s2 =>
      if negb (authority s1 =? authority s2) then ret false
      else if negb (sub_authority_count s1 =? sub_authority_count s2) then ret false
      else if negb (primary_id s1 =? primary_id s2) then ret false
      else sub_authorities_equal 0 (Z.to_nat (sub_authority_count s1)) s1 s2
  | _, _ => ret false
  end.

(** ** Tokens *)

Fixpoint sid_in_groups (i n : nat) (g : ptr) (sid : security_id_t) : SM bool :=
  match n with
  | O => ret false
  | S n' =>
      s <- get ;;
      a <- deref g ;;
      arr <- deref (group_arrays s !! a) ;;
      x <- deref (arr !! i) ;;
      e <- security_sid_equal (Some x) (Some sid) ;;
      if (e : bool) then ret true else sid_in_groups (S i) n' g sid
  end.

Definition security_sid_in_token (token : option access_token_t) (sid : option security_id_t) : SM bool :=
  match token, sid with
  | Some t, Some x =>
      u <- security_sid_equal (Some (user t)) (Some x) ;;
      if (u : bool) then ret true else sid_in_groups 0 (Z.to_nat (group_count t)) (groups t) x
  | _, _ => ret false
  end.

(** The token is the caller's: the result carries what it is set to. [mem] is
    the answer of [heap_alloc]. *)
Definition security_create_token (token : bool) (usr : option security_id_t)
    (grps : option (list security_id_t)) (count caps : Z) (mem : ptr) : SM (Z * option access_token_t) :=
  match token, usr with
  | true, Some u =>
      match grps with
      | Some gs =>
          if 0 <? count then
            match mem with
            | None => ret (-1, Some (mk_token u None 0 0))
            | Some a =>
                if (length gs <? Z.to_nat count)%nat then fault
                else
                  modify (fun s => set_group_arrays (<[a := take (Z.to_nat count) gs]> (group_arrays s)) s) ;;;
                  ret (0, Some (mk_token u (Some a) count caps))
            end
          else ret (0, Some (mk_token u None 0 caps))
      | None => ret (0, Some (mk_token u None 0 caps))
      end
  | _, _ => ret (-1, None)
  end.

Definition free_groups (a : addr) : SM unit :=
  s <- get ;;
  _b <- deref (group_arrays s !! a) ;;
  put (set_group_arrays (delete a (group_arrays s)) s).

Definition security_free_token (token : option access_token_t) : SM (option access_token_t) :=
  match token with
  | None => ret None
  | Some t =>
      match groups t with
      | Some a => free_groups a ;;; ret (Some (mk_token (user t) None 0 (capabilities t)))
      | None => ret (Some t)
      end
  end.

(** The current token is the system token, copied with its pointer. *)
Definition security_get_current_token (token : bool) : SM (Z * option access_token_t) :=
  if negb token then ret (-1, None) else s <- get ;; ret (0, Some (system_token s)).

Definition security_set_current_token (token : option access_token_t) : SM Z :=
  ret (match token with None => -1 | Some _ => 0 end).

Definition security_check_capability (token : option access_token_t) (capability : Z) : bool :=
  match token with
  | None => false
  | Some t => truth (Z.land (capabilities t) capability)
  end.

Definition security_current_has_capability (capability : Z) : SM bool :=
  r <- security_get_current_token true ;;
  if negb (r.1 =? 0) then ret false
  else
    let result := security_check_capability r.2 capability in
    match r.2 with
    | Some t => match groups t with Some a => free_groups a ;;; ret result | None => ret result end
    | None => ret result
    end.

(** ** Descriptors *)

(** [mem] is the answer of [heap_alloc], with what the block holds. *)
Definition create_dacl (count : Z) (mem : option (addr * list ace_t)) : SM ptr :=
  if count =? 0 then ret None
  else match mem with
  | None => ret None
  | Some (a, junk) => modify (fun s => set_dacls (<[a := mk_dacl count junk]> (dacls s)) s) ;;; ret (Some a)
  end.

Definition free_dacl (d : ptr) : SM unit :=
  match d with
  | None => ret tt
  | Some a => s <- get ;; _b <- deref (dacls s !! a) ;; put (set_dacls (delete a (dacls s)) s)
  end.

(** [memcpy] of the ACEs of the DACL at [src] over those at [dst]. *)
Definition copy_aces (dst src : addr) : SM unit :=
  s <- get ;;
  from <- deref (dacls s !! src) ;;
  to <- deref (dacls s !! dst) ;;
  let n := Z.to_nat (ace_count from) in
  if (length (aces from) <? n)%nat || (length (aces to) <? n)%nat then fault
  else put (set_dacls (<[dst := mk_dacl (ace_count to) (take n (aces from) ++ drop n (aces to))]> (dacls s)) s).

Definition security_create_descriptor (descriptor : bool) (own grp : option security_id_t) (d : ptr)
    (mem : option (addr * list ace_t)) : SM (Z * option security_descriptor_t) :=
  if negb descriptor then ret (-1, None)
  else
    let fl := match own with Some _ => SD_FLAG_OWNER_VALID P | None => 0 end in
    let fl := match grp with Some _ => Z.lor fl (SD_FLAG_GROUP_VALID P) | None => fl end in
    let o := default zero_sid own in
    let g := default zero_sid grp in
    match d with
    | None => ret (0, Some (mk_descriptor fl o g None))
    | Some src =>
        s <- get ;;
        from <- deref (dacls s !! src) ;;
        new <- create_dacl (ace_count from) mem ;;
        match new with
        | None => ret (-1, Some (mk_descriptor fl o g None))
        | Some a =>
            copy_aces a src ;;;
            ret (0, Some (mk_descriptor (Z.lor fl (SD_FLAG_DACL_PRESENT P)) o g (Some a)))
        end
    end.

(** [mem] is the answer of [heap_alloc] for the default DACL. *)
Definition security_init (mem : ptr) : SM Z :=
  s <- get ;;
  let tok := mk_token (SID_SYSTEM P) None 0 (2 ^ 64 - 1) in
  match mem with
  | None => put (mk_sec tok None (group_arrays s) (dacls s)) ;;; ret (-1)
  | Some a =>
      put (mk_sec tok (Some a) (group_arrays s)
             (<[a := mk_dacl 2 [mk_ace (ACE_TYPE_ALLOW P) 0 ACCESS_ALL (SID_SYSTEM P);
                                mk_ace (ACE_TYPE_ALLOW P) 0 ACCESS_ALL (SID_ADMIN P)]]> (dacls s))) ;;;
      ret 0
  end.

(** The result of [security_create_descriptor] is not looked at. *)
Definition security_get_object_descriptor (object_name descriptor : bool) (mem : option (addr * list ace_t))
  : SM (Z * option security_descriptor_t) :=
  if negb (object_name && descriptor) then ret (-1, None)
  else
    s <- get ;;
    r <- security_create_descriptor true (Some (SID_SYSTEM P)) (Some (SID_ADMIN P)) (default_dacl s) mem ;;
    ret (0, r.2).

Definition security_set_object_descriptor (object_name : bool) (descriptor : option security_descriptor_t) : SM Z :=
  ret (if object_name && bool_decide (is_Some descriptor) then 0 else -1).

(** ** The access check *)

Definition in_sid (t : access_token_t) (sid : security_id_t) : SM bool := security_sid_in_token (Some t) (Some sid).

(** The loop over the ACEs, with the masks of 16 bits it accumulates. *)
Fixpoint check_aces (i n : nat) (d : dacl_t) (t : access_token_t) (granted denied : Z) : SM (Z * Z) :=
  match n with
  | O => ret (granted, denied)
  | S n' =>
      ace <- deref (aces d !! i) ;;
      applies <- in_sid t (a_sid ace) ;;
      if negb applies then check_aces (S i) n' d t granted denied
      else if a_type ace =? ACE_TYPE_ALLOW P
      then check_aces (S i) n' d t (u16 (Z.lor granted (access_mask ace))) denied
      else if a_type ace =? ACE_TYPE_DENY P
      then check_aces (S i) n' d t granted (u16 (Z.lor denied (access_mask ace)))
      else check_aces (S i) n' d t granted denied
  end.

Definition security_check_access (token : option access_token_t) (descriptor : option security_descriptor_t)
    (desired_access : Z) : SM bool :=
  match token, descriptor with
  | Some t, Some sd =>
      sys <- security_sid_equal (Some (user t)) (Some (SID_SYSTEM P)) ;;
      if (sys : bool) then ret true
      else
        own <- (if has_flag (d_flags sd) (SD_FLAG_OWNER_VALID P)
                then security_sid_equal (Some (user t)) (Some (owner sd)) else ret false) ;;
        if (own : bool) then ret true
        else match (if has_flag (d_flags sd) (SD_FLAG_DACL_PRESENT P) then dacl sd else None) with
        | None => ret true
        | Some a =>
            s <- get ;;
            d <- deref (dacls s !! a) ;;
            r <- check_aces 0 (Z.to_nat (ace_count d)) d t 0 0 ;;
            if truth (Z.land r.2 desired_access) then ret false
            else ret (Z.land r.1 desired_access =? desired_access)
        end
  | _, _ => ret false
  end.

(** ** System calls and privileges *)

Definition security_check_syscall_permission (task : option task_cred) (syscall_num : Z) : bool :=
  match task with
  | None => false
  | Some t =>
      if euid t =? 0 then true
      else if (syscall_num =? SYS_MODULE_LOAD) || (syscall_num =? SYS_MODULE_UNLOAD) then euid t =? 0
      else if (syscall_num =? SYS_MMAP) || (syscall_num =? SYS_MUNMAP) || (syscall_num =? SYS_BRK) then true
      else if (syscall_num =? SYS_FORK) || (syscall_num =? SYS_EXECVE) || (syscall_num =? SYS_EXIT)
           || (syscall_num =? SYS_WAITPID) || (syscall_num =? SYS_GETPID) || (syscall_num =? SYS_GETPPID)
           || (syscall_num =? SYS_YIELD) then true
      else if (syscall_num =? SYS_OPEN) || (syscall_num =? SYS_READ) || (syscall_num =? SYS_WRITE)
           || (syscall_num =? SYS_CLOSE) then true
      else if syscall_num =? SYS_TIME then true
      else if (syscall_num =? SYS_CHDIR) || (syscall_num =? SYS_MKDIR) || (syscall_num =? SYS_RMDIR)
           || (syscall_num =? SYS_UNLINK) then true
      else if 50 <? syscall_num then false else true
  end.

(** [current] is what [scheduler_get_current_task()] returns. *)
Definition security_check_privilege (current : option task_cred) (level : Z) : bool :=
  match current with
  | None => true
  | Some t =>
      if level =? PRIV_NONE then true
      else if level =? PRIV_USER then true
      else if level =? PRIV_SYSTEM_SERVICE then privilege_level t <=? TASK_PRIV_SYSTEM
      else if level =? PRIV_SECURITY_ADMIN then privilege_level t <=? TASK_PRIV_DRIVER
      else if level =? PRIV_KERNEL then privilege_level t =? TASK_PRIV_KERNEL
      else false
  end.

End Functions.

(** ** Facts *)

(** A SID whose sub-authorities are all in its array. *)
Definition sid_ok (x : security_id_t) : Prop := (Z.to_nat (sub_authority_count x) <= length (sub_authorities x))%nat.

Definition used (x : security_id_t) : list Z := take (Z.to_nat (sub_authority_count x)) (sub_authorities x).

(** The relation [security_sid_equal] decides. *)
Definition same_sid (x y : security_id_t) : Prop :=
  authority x = authority y /\ sub_authority_count x = sub_authority_count y /\
  primary_id x = primary_id y /\ used x = used y.
#[export] Instance same_sid_dec x y : Decision (same_sid x y).
Proof. unfold same_sid. apply _. Defined.

(** The SIDs a token stands for, and that all of them can be read. *)
Definition token_sids (s : sec) (t : access_token_t) : list security_id_t :=
  user t :: take (Z.to_nat (group_count t)) (default [] (groups t ≫= (group_arrays s !!.))).

Record token_ok (s : sec) (t : access_token_t) : Prop := {
  tok_groups : (Z.to_nat (group_count t) <= length (default [] (groups t ≫= (group_arrays s !!.))))%nat;
  tok_sids : Forall sid_ok (token_sids s t);
}.

(** The token is, or is a member of, [sid]. *)
Definition member (s : sec) (t : access_token_t) (sid : security_id_t) : Prop :=
  Exists (fun x => same_sid x sid) (token_sids s t).
#[export] Instance member_dec s t x : Decision (member s t x).
Proof. unfold member. apply _. Defined.

Lemma sub_authorities_equal_spec n i x y s :
  (i + n <= length (sub_authorities x))%nat -> (i + n <= length (sub_authorities y))%nat ->
  sub_authorities_equal i n x y s =
  Ret (bool_decide (take n (drop i (sub_authorities x)) = take n (drop i (sub_authorities y))), s).
Proof.
  revert i. induction n as [|n IH]; intros i Hx Hy; [done|]. cbn [sub_authorities_equal].
  destruct (lookup_lt_is_Some_2 (sub_authorities x) i) as [a Ha]; [lia|].
  destruct (lookup_lt_is_Some_2 (sub_authorities y) i) as [b Hb]; [lia|].
  rewrite Ha, Hb. unfold bind, deref, ret. cbn. rewrite (drop_S _ a i Ha), (drop_S _ b i Hb). cbn [take].
  destruct (Z.eqb_spec a b) as [->|Hne]; cbn [negb].
  - rewrite IH by lia. do 2 f_equal. apply bool_decide_ext. split; congruence.
  - f_equal. rewrite bool_decide_eq_false_2; [done|]. congruence.
Qed.

Lemma sid_equal_spec x y s : sid_ok x -> sid_ok y ->
  security_sid_equal (Some x) (Some y) s = Ret (bool_decide (same_sid x y), s).
Proof.
  unfold sid_ok. intros Hx Hy. cbn [security_sid_equal].
  destruct (Z.eqb_spec (authority x) (authority y)); cbn [negb].
  2: { rewrite bool_decide_eq_false_2; [done|]. unfold same_sid. tauto. }
  destruct (Z.eqb_spec (sub_authority_count x) (sub_authority_count y)) as [Ec|]; cbn [negb].
  2: { rewrite bool_decide_eq_false_2; [done|]. unfold same_sid. tauto. }
  destruct (Z.eqb_spec (primary_id x) (primary_id y)); cbn [negb].
  2: { rewrite bool_decide_eq_false_2; [done|]. unfold same_sid. tauto. }
  rewrite sub_authorities_equal_spec by (rewrite ?Ec; lia). rewrite !drop_0.
  do 2 f_equal. apply bool_decide_ext. unfold same_sid, used. rewrite Ec. tauto.
Qed.

Lemma sid_in_groups_spec n i g arr x s :
  (i + n <= length arr)%nat -> ((0 < n)%nat -> exists a, g = Some a /\ group_arrays s !! a = Some arr) ->
  Forall sid_ok (take n (drop i arr)) -> sid_ok x ->
  sid_in_groups i n g x s = Ret (bool_decide (Exists (fun y => same_sid y x) (take n (drop i arr))), s).
Proof.
  revert i. induction n as [|n IH]; intros i Hl Hg Hok Hx; cbn [sid_in_groups].
  { cbn [take]. rewrite bool_decide_eq_false_2; [done|]. by intros H%Exists_nil. }
  destruct Hg as (a & -> & Ha); [lia|]. destruct (lookup_lt_is_Some_2 arr i) as [y Hy]; [lia|].
  unfold bind at 1 2 3 4, get, deref, ret. cbn. rewrite Ha. cbn. rewrite Hy. cbn. rewrite (drop_S _ y i Hy) in Hok |- *.
  cbn [take] in *. apply Forall_cons in Hok as [Hy' Hok].
  erewrite bind_run by (apply sid_equal_spec; done). case_bool_decide as E.
  - rewrite bool_decide_eq_true_2; [done|]. by left.
  - rewrite IH; [|lia|eauto|done|done]. do 2 f_equal. apply bool_decide_ext. rewrite Exists_cons. tauto.
Qed.

Lemma sid_in_token_spec s t x : token_ok s t -> sid_ok x ->
  security_sid_in_token (Some t) (Some x) s = Ret (bool_decide (member s t x), s).
Proof.
  intros [Hg Hs] Hx. cbn [security_sid_in_token]. unfold token_sids in Hs. apply Forall_cons in Hs as [Hu Hs].
  erewrite bind_run by (apply sid_equal_spec; done). case_bool_decide as E.
  - rewrite bool_decide_eq_true_2; [done|]. by left.
  - rewrite (sid_in_groups_spec _ _ _ (default [] (groups t ≫= (group_arrays s !!.)))); [|lia| |by rewrite drop_0|done].
    + do 2 f_equal. rewrite drop_0. apply bool_decide_ext. unfold member, token_sids. rewrite Exists_cons. tauto.
    + intros Hn. destruct (groups t) as [a|]; cbn in *; [|lia].
      destruct (group_arrays s !! a) as [arr|] eqn:Ea; cbn in *; [eauto|lia].
Qed.

(** Bit [i] is set in the mask of an ACE of type [ty] that applies to the token. *)
Definition says (s : sec) (t : access_token_t) (ty i : Z) (ace : ace_t) : Prop :=
  member s t (a_sid ace) /\ a_type ace = ty /\ Z.testbit (access_mask ace) i = true.

Lemma says_iff s t ty i ace :
  says s t ty i ace <-> member s t (a_sid ace) /\ a_type ace = ty /\ Z.testbit (access_mask ace) i = true.
Proof. done. Qed.

Lemma u16_lor_bit a b i : 0 <= i < 16 -> Z.testbit (u16 (Z.lor a b)) i = Z.testbit a i || Z.testbit b i.
Proof. intros Hi. unfold u16. rewrite Z.mod_pow2_bits_low by lia. apply Z.lor_spec. Qed.

Section Check.
Context (P : policy) (Hpol : policy_ok P).

Lemma check_aces_spec d t s n i g dn :
  token_ok s t -> (i + n <= length (aces d))%nat -> Forall (fun a => sid_ok (a_sid a)) (aces d) ->
  exists g' dn', check_aces P i n d t g dn s = Ret ((g', dn'), s) /\
    forall b, 0 <= b < 16 ->
      (Z.testbit g' b = true <-> Z.testbit g b = true \/ Exists (says s t (ACE_TYPE_ALLOW P) b) (take n (drop i (aces d)))) /\
      (Z.testbit dn' b = true <-> Z.testbit dn b = true \/ Exists (says s t (ACE_TYPE_DENY P) b) (take n (drop i (aces d)))).
Proof.
  intros Ht. revert i g dn. induction n as [|n IH]; intros i g dn Hl Hok; cbn [check_aces].
  { exists g, dn. split; [done|]. intros b Hb. cbn [take]. rewrite !Exists_nil. tauto. }
  destruct (lookup_lt_is_Some_2 (aces d) i) as [ace Hace]; [lia|]. rewrite (drop_S _ ace i Hace). cbn [take].
  assert (Hsid : sid_ok (a_sid ace)) by (by eapply (Forall_lookup_1 _ _ _ _ Hok Hace)).
  erewrite bind_run by (by rewrite Hace). unfold in_sid. erewrite bind_run by (by apply sid_in_token_spec).
  pose proof (pol_types _ Hpol) as Hty.
  case_bool_decide as Hm; cbn [negb];
    [destruct (Z.eqb_spec (a_type ace) (ACE_TYPE_ALLOW P)) as [Ea|Ea];
     [|destruct (Z.eqb_spec (a_type ace) (ACE_TYPE_DENY P)) as [Ed|Ed]]|].
  1: edestruct (IH (S i) (u16 (Z.lor g (access_mask ace))) dn) as (g' & dn' & -> & Hbits); [lia|done|].
  2: edestruct (IH (S i) g (u16 (Z.lor dn (access_mask ace)))) as (g' & dn' & -> & Hbits); [lia|done|].
  3, 4: edestruct (IH (S i) g dn) as (g' & dn' & -> & Hbits); [lia|done|].
  all: exists g', dn'; split; [done|]; intros b Hb; destruct (Hbits b Hb) as [-> ->];
    rewrite !Exists_cons, ?u16_lor_bit, ?orb_true_iff by done; rewrite !says_iff, ?Ea, ?Ed.
  - intuition congruence.
  - intuition congruence.
  - intuition congruence.
  - tauto.
Qed.

End Check.

(** *** Masks *)

Lemma testbit_high d i : 0 <= d < 2 ^ 16 -> 16 <= i -> Z.testbit d i = false.
Proof. intros Hd Hi. rewrite <- (Z.mod_small d (2 ^ 16)) by done. by apply Z.mod_pow2_bits_high. Qed.

Lemma land_zero_iff m d : 0 <= d < 2 ^ 16 ->
  Z.land m d = 0 <-> forall i, 0 <= i < 16 -> Z.testbit d i = true -> Z.testbit m i <> true.
Proof.
  intros Hd. split.
  - intros H i Hi Hdi Hmi. assert (E : Z.testbit (Z.land m d) i = true) by (by rewrite Z.land_spec, Hmi, Hdi).
    by rewrite H, Z.bits_0 in E.
  - intros H. apply Z.bits_inj. intros i. rewrite Z.land_spec, Z.bits_0.
    destruct (Z.testbit d i) eqn:Ed; [|by rewrite andb_false_r]. rewrite andb_true_r.
    apply not_true_is_false, H; [|done]. split.
    + destruct (Z.lt_ge_cases i 0); [by rewrite Z.testbit_neg_r in Ed by lia|done].
    + destruct (Z.lt_ge_cases i 16); [done|]. by rewrite testbit_high in Ed.
Qed.

Lemma land_full_iff m d : 0 <= d < 2 ^ 16 ->
  Z.land m d = d <-> forall i, 0 <= i < 16 -> Z.testbit d i = true -> Z.testbit m i = true.
Proof.
  intros Hd. split.
  - intros H i Hi Hdi. assert (E : Z.testbit (Z.land m d) i = true) by (by rewrite H).
    rewrite Z.land_spec in E. by apply andb_prop in E as [E _].
  - intros H. apply Z.bits_inj. intros i. rewrite Z.land_spec.
    destruct (Z.testbit d i) eqn:Ed; [|by rewrite andb_false_r]. rewrite andb_true_r. apply H; [|done]. split.
    + destruct (Z.lt_ge_cases i 0); [by rewrite Z.testbit_neg_r in Ed by lia|done].
    + destruct (Z.lt_ge_cases i 16); [done|]. by rewrite testbit_high in Ed.
Qed.

(** ** Properties *)

Section Properties.
Context (P : policy) (Hpol : policy_ok P).
Local Open Scope kernel_scope.

(** What the access check promises: every desired bit is granted by an ACE that
    applies to the token, and denied by none. *)
Definition permitted (s : sec) (t : access_token_t) (d : dacl_t) (desired : Z) : Prop :=
  forall i, 0 <= i < 16 -> Z.testbit desired i = true ->
    Exists (says s t (ACE_TYPE_ALLOW P) i) (aces d) /\ ~ Exists (says s t (ACE_TYPE_DENY P) i) (aces d).

(** C12. The access check implements the discretionary policy exactly: beside
    SYSTEM, the owner and objects without a DACL, access is given if and only if
    every desired right is allowed by some ACE for one of the token's SIDs and
    denied by none, wherever the ACEs stand in the list. The check changes
    nothing. *)
Theorem check_access_exact s t sd a d desired :
  token_ok s t -> sid_ok (SID_SYSTEM P) -> sid_ok (owner sd) ->
  has_flag (d_flags sd) (SD_FLAG_DACL_PRESENT P) = true -> dacl sd = Some a -> dacls s !! a = Some d ->
  ace_count d = Z.of_nat (length (aces d)) -> Forall (fun x => sid_ok (a_sid x)) (aces d) ->
  0 <= desired < 2 ^ 16 ->
  exists r, security_check_access P (Some t) (Some sd) desired s = Ret (r, s) /\
    (r = true <-> same_sid (user t) (SID_SYSTEM P) \/
       (has_flag (d_flags sd) (SD_FLAG_OWNER_VALID P) = true /\ same_sid (user t) (owner sd)) \/
       permitted s t d desired).
Proof.
  intros Ht Hsys Hown Hfl Hd Hdd Hcnt Hok Hdes. cbn [security_check_access].
  assert (Hu : sid_ok (user t)) by (pose proof (tok_sids _ _ Ht) as H; by apply Forall_cons in H as [? _]).
  erewrite bind_run by (by apply sid_equal_spec). case_bool_decide as E1; [exists true; tauto|].
  assert (Ho : (if has_flag (d_flags sd) (SD_FLAG_OWNER_VALID P)
                then security_sid_equal (Some (user t)) (Some (owner sd)) else ret false) s =
               Ret (has_flag (d_flags sd) (SD_FLAG_OWNER_VALID P) && bool_decide (same_sid (user t) (owner sd)), s)).
  { case_if; [by apply sid_equal_spec|done]. }
  erewrite bind_run by exact Ho. case_if.
  { apply andb_prop in E as [E2 E3%bool_decide_eq_true]. exists true. tauto. }
  rewrite Hfl, Hd. erewrite bind_run by done. erewrite bind_run by (by rewrite Hdd).
  destruct (check_aces_spec P Hpol d t s (Z.to_nat (ace_count d)) 0 0 0) as (g & dn & Hrun & Hbits); [done|lia|done|].
  erewrite bind_run by exact Hrun. rewrite drop_0, take_ge in Hbits by lia. cbn [fst snd].
  assert (Hno : ~ (has_flag (d_flags sd) (SD_FLAG_OWNER_VALID P) = true /\ same_sid (user t) (owner sd))).
  { intros [E2 E3]. rewrite E2 in E. by rewrite bool_decide_eq_true_2 in E. }
  assert (Hiff : permitted s t d desired <-> Z.land dn desired = 0 /\ Z.land g desired = desired).
  { rewrite land_zero_iff, land_full_iff by done.
    assert (Hb' : forall i, 0 <= i < 16 ->
              (Z.testbit g i = true <-> Exists (says s t (ACE_TYPE_ALLOW P) i) (aces d)) /\
              (Z.testbit dn i = true <-> Exists (says s t (ACE_TYPE_DENY P) i) (aces d))).
    { intros i Hi. destruct (Hbits i Hi) as [-> ->]. rewrite Z.bits_0. intuition congruence. }
    split.
    - intros H. split; intros i Hi Hb; destruct (Hb' i Hi) as [Hg Hdn]; [rewrite Hdn|apply Hg]; by apply H.
    - intros [H1 H2] i Hi Hb. destruct (Hb' i Hi) as [Hg Hdn]. rewrite <- Hg, <- Hdn. auto. }
  destruct (truth (Z.land dn desired)) eqn:Et; bools.
  - exists false. split; [done|]. rewrite Hiff. split; [done|]. tauto.
  - destruct (Z.eqb_spec (Z.land g desired) desired).
    + exists true. split; [done|]. tauto.
    + exists false. split; [done|]. rewrite Hiff. split; [done|]. tauto.
Qed.

(** Running out of memory opens an object: when [heap_alloc] fails inside
    [security_get_object_descriptor], the call still reports success, with a
    descriptor without a DACL, and the access check then gives every token every
    access. *)
Theorem descriptor_failure_opens_object s a d t desired :
  default_dacl s = Some a -> dacls s !! a = Some d -> sid_ok (user t) -> sid_ok (SID_SYSTEM P) ->
  wp (r <- security_get_object_descriptor P true true None ;;
      ok <- security_check_access P (Some t) r.2 desired ;; ret (r.1, ok))
    (fun r s' => r = (0, true) /\ s' = s) s.
Proof.
  intros Ha Hd Hu Hs.
  assert (Hget : security_get_object_descriptor P true true None s =
     Ret ((0, Some (mk_descriptor (Z.lor (SD_FLAG_OWNER_VALID P) (SD_FLAG_GROUP_VALID P))
                      (SID_SYSTEM P) (SID_ADMIN P) None)), s)).
  { unfold security_get_object_descriptor, security_create_descriptor, create_dacl, bind, get, deref, ret.
    cbn. rewrite Ha. cbn. rewrite Hd. cbn. by destruct (ace_count d =? 0). }
  rewrite wp_bind. unfold wp at 1. rewrite Hget. cbn [snd fst security_check_access d_flags owner dacl].
  rewrite wp_bind. unfold wp at 1.
  erewrite bind_run by (by apply sid_equal_spec). case_bool_decide; [done|].
  erewrite bind_run.
  2: { instantiate (1 := s). instantiate (1 := false). case_if; [|done].
       rewrite sid_equal_spec by done. by rewrite bool_decide_eq_false_2. }
  assert (Hfl : has_flag (Z.lor (SD_FLAG_OWNER_VALID P) (SD_FLAG_GROUP_VALID P)) (SD_FLAG_DACL_PRESENT P) = false).
  { unfold has_flag. by rewrite Z.land_lor_distr_l, (pol_owner_dacl _ Hpol), (pol_group_dacl _ Hpol). }
  by rewrite Hfl.
Qed.

(** A token's life: [security_create_token] gives a token that stands for
    the user and exactly the groups passed, with the capabilities asked for;
    [security_free_token] releases the array it allocated and leaves memory as it
    was. When [heap_alloc] fails, -1 is returned, nothing stays allocated and the
    token has no group and no capability. *)
Theorem token_create_free_roundtrip s u gs count caps a :
  group_arrays s !! a = None -> 0 < count -> count <= Z.of_nat (length gs) ->
  wp (r <- security_create_token true (Some u) (Some gs) count caps (Some a) ;;
      s1 <- get ;; t' <- security_free_token r.2 ;; ret (r, s1, t'))
    (fun '(r, s1, t') s' => s' = s /\ t' = Some (mk_token u None 0 caps) /\
       exists t, r = (0, Some t) /\ token_sids s1 t = u :: take (Z.to_nat count) gs /\ capabilities t = caps /\
         (Forall sid_ok (u :: gs) -> token_ok s1 t)) s /\
  security_create_token true (Some u) (Some gs) count caps None s = Ret ((-1, Some (mk_token u None 0 0)), s).
Proof.
  intros Ha Hc Hl. unfold security_create_token.
  destruct (Z.ltb_spec 0 count) as [_|]; [|lia]. destruct (Nat.ltb_spec (length gs) (Z.to_nat count)); [lia|].
  split; [|done]. wp_steps. cbn [security_free_token groups snd]. unfold free_groups. wp_steps. rewrite wp_deref.
  eexists. split; [apply lookup_insert_eq|]. wp_steps. split; [|split; [done|]].
  - unfold set_group_arrays. cbn. rewrite delete_insert_id by done. by destruct s.
  - eexists. split; [done|].
    assert (Hsids : token_sids (set_group_arrays (<[a := take (Z.to_nat count) gs]> (group_arrays s)) s)
                      (mk_token u (Some a) count caps) = u :: take (Z.to_nat count) gs).
    { unfold token_sids. cbn. rewrite lookup_insert_eq. cbn. by rewrite take_take, Nat.min_id. }
    split; [exact Hsids|]. split; [done|]. intros Hok. split.
    + cbn. rewrite lookup_insert_eq. cbn. rewrite length_take. lia.
    + rewrite Hsids. apply Forall_cons in Hok as [Hu Hg]. constructor; [done|]. by apply Forall_take.
Qed.

(** Which system calls a task may make: root any, every other task all those
    numbered up to 50 except loading and unloading modules. In particular a call
    the policy does not mention (such as the control of address-space
    randomisation, 22) is open to every task. *)
Theorem syscall_permission_exact t n :
  security_check_syscall_permission (Some t) n =
  (euid t =? 0) || ((n <=? 50) && negb ((n =? SYS_MODULE_LOAD) || (n =? SYS_MODULE_UNLOAD))).
Proof.
  unfold security_check_syscall_permission. destruct (Z.eqb_spec (euid t) 0); [done|]. cbn [orb].
  unfold SYS_MODULE_LOAD, SYS_MODULE_UNLOAD.
  destruct (Z.leb_spec n 50) as [Hn|Hn]; cbn [andb].
  - destruct (_ || _); [done|]. repeat (case_if; [done|]).
    repeat case_if; try done; bools; lia.
  - repeat case_if; bools; try done;
    repeat match goal with H : (_ || _) = true |- _ => apply orb_prop in H as [H|H]; bools end;
    unfold SYS_EXIT, SYS_FORK, SYS_READ, SYS_WRITE, SYS_OPEN, SYS_CLOSE, SYS_WAITPID, SYS_EXECVE, SYS_CHDIR, SYS_TIME,
      SYS_MMAP, SYS_MUNMAP, SYS_BRK, SYS_GETPID, SYS_GETPPID, SYS_MKDIR, SYS_RMDIR, SYS_UNLINK, SYS_YIELD in *; lia.
Qed.

(** The privilege levels are nested: what a task of a level may do, a more
    privileged one may do too, and each level implies the ones below it. *)
Lemma privilege_levels_nested t :
  (security_check_privilege (Some t) PRIV_KERNEL = true -> 0 <= privilege_level t ->
     security_check_privilege (Some t) PRIV_SECURITY_ADMIN = true) /\
  (security_check_privilege (Some t) PRIV_SECURITY_ADMIN = true ->
     security_check_privilege (Some t) PRIV_SYSTEM_SERVICE = true).
Proof.
  cbn. unfold TASK_PRIV_KERNEL, TASK_PRIV_DRIVER, TASK_PRIV_SYSTEM.
  rewrite Z.eqb_eq, !Z.leb_le. lia.
Qed.

End Properties.

(** ** Witnesses *)

Definition demo_policy : policy :=
  mk_policy 0 1 1 2 4 (mk_sid 1 0 0 [0]) (mk_sid 1 0 1 [0]).

Lemma demo_policy_ok : policy_ok demo_policy.
Proof. by split. Qed.

(** A user, member of one group; a DACL that allows the group to read and write
    and denies the user to write. *)
Definition demo_user : security_id_t := mk_sid 5 1 7 [21].
Definition demo_group : security_id_t := mk_sid 5 0 8 [].
Definition demo_dacl : dacl_t := mk_dacl 2 [mk_ace 0 0 3 demo_group; mk_ace 1 0 2 demo_user].
Definition demo_token : access_token_t := mk_token demo_user (Some 4%positive) 1 0.
Definition demo : sec :=
  mk_sec (mk_token (mk_sid 1 0 0 [0]) None 0 0) (Some 2%positive)
    {[4%positive := [demo_group]]} {[2%positive := demo_dacl]}.
Definition demo_descriptor : security_descriptor_t := mk_descriptor 4 zero_sid zero_sid (Some 2%positive).

Lemma check_access_exact_witness :
  security_check_access demo_policy (Some demo_token) (Some demo_descriptor) 1 demo = Ret (true, demo) /\
  security_check_access demo_policy (Some demo_token) (Some demo_descriptor) 3 demo = Ret (false, demo) /\
  exists r, security_check_access demo_policy (Some demo_token) (Some demo_descriptor) 1 demo = Ret (r, demo) /\
    (r = true <-> same_sid demo_user (SID_SYSTEM demo_policy) \/
       (has_flag 4 (SD_FLAG_OWNER_VALID demo_policy) = true /\ same_sid demo_user zero_sid) \/
       permitted demo_policy demo demo_token demo_dacl 1).
Proof.
  split; [vm_compute; reflexivity|]. split; [vm_compute; reflexivity|].
  apply (check_access_exact demo_policy demo_policy_ok demo demo_token demo_descriptor 2 demo_dacl);
    [|vm_compute; lia|vm_compute; lia|reflexivity|reflexivity|reflexivity|reflexivity| |lia].
  - split; [vm_compute; lia|]. repeat constructor; vm_compute; lia.
  - repeat constructor; vm_compute; lia.
Defined.

Lemma descriptor_failure_opens_object_witness :
  wp (r <- security_get_object_descriptor demo_policy true true None ;;
      ok <- security_check_access demo_policy (Some demo_token) r.2 ACCESS_ALL ;; ret (r.1, ok))%kernel
    (fun r s' => r = (0, true) /\ s' = demo) demo.
Proof.
  apply (descriptor_failure_opens_object demo_policy demo_policy_ok demo 2 demo_dacl);
    [reflexivity|reflexivity|vm_compute; lia|vm_compute; lia].
Defined.

Lemma token_create_free_roundtrip_witness :
  wp (r <- security_create_token true (Some demo_user) (Some [demo_group]) 1 7 (Some 9%positive) ;;
      s1 <- get ;; t' <- security_free_token r.2 ;; ret (r, s1, t'))%kernel
    (fun '(r, s1, t') s' => s' = demo /\ t' = Some (mk_token demo_user None 0 7) /\
       exists t, r = (0, Some t) /\ token_sids s1 t = demo_user :: take (Z.to_nat 1) [demo_group] /\ capabilities t = 7 /\
         (Forall sid_ok [demo_user; demo_group] -> token_ok s1 t)) demo /\
  security_create_token true (Some demo_user) (Some [demo_group]) 1 7 None demo =
    Ret ((-1, Some (mk_token demo_user None 0 0)), demo).
Proof.
  apply (token_create_free_roundtrip demo demo_user [demo_group] 1 7 9); [vm_compute; reflexivity|lia|simpl; lia].
Defined.

End Security.
